(* ===== verification/_CoqProject ===== *)
-Q . S2P
Prelude.v
Slices.v
GuestTypes.v
PageTable.v
Allocator.v
GuestMemory.v
SoftwareSpace.v
SoftwareSpaceProofs.v
SpaceTheorems.v
MappingTheorems.v
Xbe.v
Iced.v
CpuState.v
ExecCore.v
ExecOps.v
Exec.v
AluTheorems.v
ShiftTheorems.v
ExecPrecise.v
ExecInvariant.v
StepTheorems.v
StringTheorems.v
InsnCache.v
CacheTheorems.v
RegisterSubset.v
BlockDecode.v
KernelTypes.v
HostFiles.v
HostFileTheorems.v
Runtime.v
RuntimeMemory.v
SchedulerSteps.v
SchedulerReach.v
WaitTheorems.v
ClockTheorems.v
CoreScheduling.v
SystemTyping.v
KernelCalls.v
ThreadExports.v
MemoryExports.v
FileExports.v
CoreTypes.v
KernelDispatch.v
Ordinals.v
ExportSteps.v
DispatchTheorems.v
CriticalSections.v
UsbDevice.v
Ohci.v
OhciInvariant.v
OhciQueue.v
UsbWindow.v
UsbTheorems.v
ImageLoader.v
LoaderTheorems.v
ImportTheorems.v
SourceMap.v
CodeBuffer.v
HostX86.v
Emitter.v
EmitterTheorems.v
CodeCache.v
CodeCacheTheorems.v
Mmio.v
MmioTheorems.v
GpuMemory.v
Textures.v
GpuState.v
Floats.v
Shading.v
Raster.v
RasterTheorems.v
Pushbuffer.v
PushbufferSafety.v
Session.v
RunLoop.v
BootTheorems.v
SessionTheorems.v
PushbufferTheorems.v
VertexStage.v
