(* ===== verification/Prelude.v ===== *)
(** * exbawks: a verification development

    exbawks runs Xbox executables on a host computer.  This library models the
    parts of it that carry the guest's meaning, as executable functions over
    the data the Rust code has, and proves what makes them correct.  File and
    function names below are those of the crates under [src/crates].

    ** The program's parts and how they meet

    An executable image ([exbawks-xbe]) is parsed into sections that the core
    ([exbawks-core]) loads into a guest address space ([exbawks-memory]): a
    page table of packed descriptors over a block of RAM handed out by a
    physical allocator.  Every guest access goes through the checked paths of
    that address space, and every write moves a generation number of the
    physical pages it reached.  The interpreter ([exbawks-cpu]) fetches and
    decodes an instruction at EIP through an external decoder, or takes the
    decode from a cache validated by those generations, and executes it
    against the register file, the memory and a port bus; a block of
    register-only code may be translated to host code instead
    ([exbawks-jit]).  Accesses to device space go to latched registers, and
    from there to the USB controller ([exbawks-usb]) and the graphics engine
    ([exbawks-gpu]), which read and write guest memory themselves.  A call
    through an import slot reaches the kernel ([exbawks-kernel]): an export
    runs against the thread manager and the file device, and the thread
    switch it asked for is made by the core.  The run loop ties these
    together: a tick pumps clocks, devices and interrupts, then blocks are
    run, until a stop.

    ** Files and the code they model

    Shared:
    - [Prelude]: results with errors, machine integers as [Z] with their wraps
      written out, little-endian bytes, bit lemmas, the [word] hint database.
    - [Slices]: [partition_point] and [binary_search_by_key] of slices.
    - [GuestTypes]: [exbawks-types] ([address.rs], [execution.rs]).

    Memory, [exbawks-memory]:
    - [PageTable]: [page_table.rs]; the 64-bit descriptor is a [Z], the two
      tables are finite maps with the default the arrays have.
    - [Allocator]: [allocator.rs], with the client protocol and its ledger.
    - [GuestMemory]: the [GuestMemory] trait as a class of operations, and the
      laws its clients rely on as a second class.
    - [SoftwareSpace]: [software.rs], [access.rs]; RAM is a finite map of
      bytes with a length.  [SoftwareSpaceProofs], [SpaceTheorems] and
      [MappingTheorems] hold its theorems, and the instance of the laws.

    Processor, [exbawks-cpu]:
    - [Iced]: the interface of the decoder library.  Its instruction record and
      the documented facts used of it are a class; nothing of it is defined
      but a small demonstration instance.
    - [CpuState]: [state.rs], [flags.rs].
    - [ExecCore], [ExecOps], [Exec]: [exec.rs]: the machine and its state and
      error monad, operands, flags, every instruction family, branches, port
      I/O and the step functions.  [AluTheorems], [ShiftTheorems],
      [ExecPrecise], [ExecInvariant], [StepTheorems] and [StringTheorems] hold
      their theorems.
    - [InsnCache], [CacheTheorems]: [cache.rs] and [step_cached].
    - [RegisterSubset]: [subset.rs], [interpret.rs].
    - [BlockDecode]: [decode.rs].

    Kernel, [exbawks-kernel]:
    - [KernelTypes]: [services.rs], [status.rs].
    - [HostFiles], [HostFileTheorems]: [hostfs.rs] over a class of host calls.
    - [Runtime], [RuntimeMemory]: [runtime.rs], the thread manager.
      [SchedulerSteps] and [SchedulerReach] give its operations as a step
      relation with its invariant, [WaitTheorems] and
      [ClockTheorems] what waking and the clock do exactly, [SystemTyping]
      what every operation keeps of RAM.
    - [KernelCalls]: [context.rs], [export.rs], [gate.rs], [registry.rs].
    - [ThreadExports]: [startup.rs], [dispatcher.rs], [mutant.rs], [ke.rs],
      [irql.rs]; [MemoryExports]: [rtl.rs], [mm.rs], [vm.rs], [ex.rs],
      [xe.rs], [av.rs]; [FileExports]: [io.rs], [file.rs].
    - [KernelDispatch]: the registration of all exports, and the gate of
      [exbawks-core/src/emulator.rs]; [Ordinals]: [ordinals.rs].
      [ExportSteps], [DispatchTheorems] and [CriticalSections] hold their
      theorems.

    Devices:
    - [UsbDevice]: [exbawks-usb] ([gamepad.rs], [device.rs],
      [dualsense.rs]); [Ohci]: [ohci.rs]; [UsbWindow]: the memory the
      controller sees.  [OhciInvariant], [OhciQueue] and [UsbTheorems] hold
      their theorems.
    - [Mmio], [MmioTheorems]: [exbawks-core/src/mmio.rs].
    - [GpuMemory]: the trait [Nv2aMemory] and its two memories.
    - [Textures]: [exbawks-gpu/src/texture.rs] and the texture half of
      [nv2a.rs]: formats, extents, mip levels, swizzling, block compression
      and the reads of a sampler.
    - [GpuState]: the records of the pushbuffer engine, one field per field;
      [Pushbuffer]: the walk over commands, every method, clears, semaphores
      and primitives, over an interface [DrawStage] of the stages that
      compute in floating point.  [PushbufferSafety] and
      [PushbufferTheorems] hold their theorems.
    - [Floats]: the [f32] operations those stages use, as a class, with the
      documented facts the theorems rely on and a fixed-point instance;
      [Shading]: [combiner.rs], [shader.rs]; [Raster]: [raster.rs];
      [VertexStage]: the vertex half of [nv2a.rs], and the instance of
      [DrawStage].  [RasterTheorems]: what a draw divided over processors
      leaves.

    Translation:
    - [SourceMap]: [exbawks-debug/src/source_map.rs]; [CodeBuffer]:
      [exbawks-platform/src/code_memory.rs]; [HostX86]: what is used of the
      host processor, as an interface with an executable instance; [Emitter]:
      [exbawks-jit] ([plan.rs], [emit.rs], [exit.rs], [backend.rs],
      [dispatch.rs]); [CodeCache]: [cache.rs] with its use by the core.
      [EmitterTheorems] and [CodeCacheTheorems] hold their theorems.

    Core, [exbawks-core]:
    - [Xbe]: [exbawks-xbe] ([image.rs], [reader.rs], [format.rs]).
    - [CoreTypes]: [error.rs], [config.rs], [thunk.rs].
    - [ImageLoader], [LoaderTheorems], [ImportTheorems]: the loader of
      [emulator.rs].
    - [CoreScheduling]: its thread switches, idle step and interrupts.
    - [Session], [RunLoop]: the emulator itself, from [build] to [run];
      [BootTheorems], [SessionTheorems]: what loading and running keep.

    ** What the theorems show

    - Memory: a multi-page access equals the byte by byte reference, errors
      included, and a refused write changes nothing; aliases are coherent;
      generations move exactly for the pages written; map, protect, load,
      free and reserve do what they say and leak nothing on failure; the
      allocator never hands a page to two holders under the client protocol.
    - Image: parsing is total and classified; a loaded image is in memory byte
      for byte with the permissions its sections ask for; imports resolve; a
      load boots the machine at its entry point or leaves the session alone.
    - Arithmetic: results and all flags of addition and subtraction, what the
      sixteen conditions then decide, shifts and rotates at every width and
      count, division with its error, sub-register stores, bit scans.
    - Whole steps ([ExecPrecise], [ExecInvariant], [StepTheorems]): two small
      program logics, one for failing without effect and one for the machine
      invariant, give precise faults over any backend with the memory laws.
    - Strings and stack ([StringTheorems]): how far one step of a repeated
      string goes and that it resumes; push and pop, [pushad] and [popad],
      call and return.
    - Agreement: the register-only oracle equals the interpreter on its
      subset; a cached step equals an uncached one; translated code run on the
      documented host processor equals the oracle; a block from the code cache
      is the block compiled now.
    - Kernel: the scheduler's invariant holds in every reachable manager and
      after every kernel call; who a signal wakes, how a mutant is handed
      over, that timed waits end and the idle step wakes someone; critical
      sections refine a recursive lock; a gate call is a stdcall; guest paths
      stay inside their mount.
    - Devices: the USB hub's invariant and that no completed transfer is lost;
      registers remember what was written and counters cannot be observed; the
      graphics engine's memory is byte-addressed RAM, its textures are read
      where they were bound, up to three bytes past the end, a pushbuffer that
      its commands do not overwrite is run as the commands it encodes, no
      submission fails, and a draw into surfaces that are apart is the same
      however its rows are divided over processors and however these
      interleave.
    - Sessions: every session the program can be in is in order, and [run]
      comes back exactly when every kernel export it calls does.

    ** Loops and fuel

    Loops that are not structural take fuel and answer [None] without it:
    [walk_pages] one round per byte and one more (each round consumes a byte),
    [reserve_loop] and [commit_loop] one per page and one more (each round
    takes a page), [string_loop] one more than the iteration bound of the
    code, [decode_loop] one per byte and one more, [walk_loop] one more than
    the dword budget of the code (each round takes from it), [hash_loop] one
    per bit, the searches of [Slices] one per element, [host_run] one per byte
    of code.  Each has a lemma that its fuel is enough, so no statement is
    about runs that end only by lack of fuel.  The loop of a file read ends if
    the host stops interrupting it ([fs_read_returns]).  The run loop is
    bounded by the number of blocks it is given, and a run by the relaunches
    the code allows; both bounds are the source's.

    ** What is not modelled

    The coprocessors ([x87.rs], [sse.rs]) compute in the host's floating
    point: they are arguments with a stated contract.  The graphics stages are
    modelled over an interface of [f32], so what they compute is shown to be
    the same from run to run, not to be a given number.  Bands of a draw
    interleave by whole fragments.  The decoder library is an interface.  The hypervisor tier ([exbawks-whp]), the Windows backend of
    the address space, host windows and host input are calls of the host.
    [UnsupportedServices], the kernel before a title is loaded, refuses every
    service.  Tracing, the censuses and summaries kept for reports, frame
    captures, the debug tools and the command line do not reach the guest.
    Plain arithmetic on machine integers wraps, as it does in the release
    profile; a debug build panics there.  Host paths are those of a host
    without drive letters. *)

From Stdlib Require Export ZArith Lia.
From stdpp Require Export base numbers option gmap.
From stdpp Require Export list.

#[global] Open Scope Z_scope.

(** ** Rust results

    [Result<A, E>] with the error type first, so that [result E] is a monad;
    the bind is Rust's [?] operator on values. *)

Inductive result (E A : Type) : Type :=
| Ok (value : A)
| Err (error : E).
Arguments Ok {E A} value.
Arguments Err {E A} error.

#[export] Instance result_ret {E} : MRet (result E) := fun A a => Ok a.

#[export] Instance result_bind {E} : MBind (result E) := fun A B f r =>
  match r with
  | Ok a => f a
  | Err e => Err e
  end.

#[export] Instance result_fmap {E} : FMap (result E) := fun A B f r =>
  match r with
  | Ok a => Ok (f a)
  | Err e => Err e
  end.

#[export] Instance result_eq_dec {E A} `{EqDecision E} `{EqDecision A} :
  EqDecision (result E A).
Proof. solve_decision. Defined.

(** [Option::ok_or]. *)
Definition ok_or {E A} (o : option A) (e : E) : result E A :=
  match o with
  | Some a => Ok a
  | None => Err e
  end.

(** [Result::map_err]. *)
Definition map_err {E F A} (f : E -> F) (r : result E A) : result F A :=
  match r with
  | Ok a => Ok a
  | Err e => Err (f e)
  end.

Definition is_ok {E A} (r : result E A) : bool :=
  match r with
  | Ok _ => true
  | Err _ => false
  end.

Lemma bind_ok_inv {E A B} (r : result E A) (f : A -> result E B) b :
  (r ≫= f) = Ok b <-> exists a, r = Ok a /\ f a = Ok b.
Proof. destruct r; cbn; naive_solver. Qed.

Lemma bind_err_inv {E A B} (r : result E A) (f : A -> result E B) e :
  (r ≫= f) = Err e <-> r = Err e \/ exists a, r = Ok a /\ f a = Err e.
Proof. destruct r; cbn; naive_solver. Qed.

Lemma ok_or_ok {E A} (o : option A) (e : E) a : ok_or o e = Ok a <-> o = Some a.
Proof. destruct o; cbn; naive_solver. Qed.

(** ** Machine integers

    A [w]-bit unsigned integer is a [Z] in [0, 2^w).  The wrapping operations
    of Rust are the operation on [Z] followed by the wrap; [checked_add] and
    [saturating_add] compare with the bound. *)

Definition is_u (w x : Z) : Prop := 0 <= x < 2 ^ w.
Abbreviation u8 := (is_u 8).
Abbreviation u16 := (is_u 16).
Abbreviation u32 := (is_u 32).
Abbreviation u64 := (is_u 64).
Abbreviation u128 := (is_u 128).

Definition U32_MAX : Z := 0xFFFFFFFF.
Definition U64_MAX : Z := 0xFFFFFFFFFFFFFFFF.

Definition wrap (w x : Z) : Z := x mod 2 ^ w.
Abbreviation wrap8 := (wrap 8).
Abbreviation wrap16 := (wrap 16).
Abbreviation wrap32 := (wrap 32).
Abbreviation wrap64 := (wrap 64).

Definition wrapping_add32 (a b : Z) : Z := wrap32 (a + b).
Definition wrapping_sub32 (a b : Z) : Z := wrap32 (a - b).
Definition wrapping_mul32 (a b : Z) : Z := wrap32 (a * b).

Definition checked_add (w a b : Z) : option Z :=
  if a + b <? 2 ^ w then Some (a + b) else None.
Definition checked_sub (a b : Z) : option Z :=
  if b <=? a then Some (a - b) else None.
Definition checked_mul (w a b : Z) : option Z :=
  if a * b <? 2 ^ w then Some (a * b) else None.
Definition saturating_add (w a b : Z) : Z := Z.min (a + b) (2 ^ w - 1).

(** [u32::try_from(value).ok()] and its siblings. *)
Definition try_from_u (w x : Z) : option Z :=
  if (0 <=? x) && (x <? 2 ^ w) then Some x else None.

Lemma try_from_u_some w x : is_u w x -> try_from_u w x = Some x.
Proof.
  intros [? ?]. unfold try_from_u.
  by rewrite (proj2 (Z.leb_le 0 x)), (proj2 (Z.ltb_lt x (2 ^ w))).
Qed.

Lemma checked_add_some w a b : a + b < 2 ^ w -> checked_add w a b = Some (a + b).
Proof. intros. unfold checked_add. by rewrite (proj2 (Z.ltb_lt _ _)). Qed.

Lemma checked_add_none w a b : 2 ^ w <= a + b -> checked_add w a b = None.
Proof. intros. unfold checked_add. by rewrite (proj2 (Z.ltb_ge _ _)). Qed.

(** Bitwise complement of a [w]-bit integer, [!x]. *)
Definition unot (w x : Z) : Z := Z.lxor x (Z.ones w).
Abbreviation not32 := (unot 32).

(** Reinterpretation as a two's-complement signed integer, [x as i32]. *)
Definition signed (w x : Z) : Z :=
  let v := wrap w x in
  if v <? 2 ^ (w - 1) then v else v - 2 ^ w.

(** [u32::from(b)] for a boolean. *)
Definition bool_u (b : bool) : Z := if b then 1 else 0.

(** [mask & x != 0]. *)
Definition has_bits (x mask : Z) : bool := negb (Z.land x mask =? 0).

(** [u32::div_ceil]. *)
Definition div_ceil (a b : Z) : Z := (a + (b - 1)) / b.

(** [count_ones] of the low byte. *)
Definition count_ones8 (x : Z) : Z :=
  foldr (fun i acc => bool_u (Z.testbit x i) + acc) 0 [0; 1; 2; 3; 4; 5; 6; 7].

Create HintDb word.

(** Linear arithmetic with division and remainder by constants. *)
Ltac dlia := Z.to_euclidean_division_equations; lia.

Ltac words :=
  unfold is_u, wrapping_add32, wrapping_sub32, wrapping_mul32, wrap,
    U32_MAX, U64_MAX in *; lia.

Lemma wrap_range w x : 0 <= w -> is_u w (wrap w x).
Proof. intros. unfold wrap, is_u. apply Z.mod_pos_bound. lia. Qed.

Lemma wrap_small w x : is_u w x -> wrap w x = x.
Proof. intros. unfold wrap. by apply Z.mod_small. Qed.

Lemma wrap_id w x : 0 <= w -> wrap w (wrap w x) = wrap w x.
Proof. intros. apply wrap_small. by apply wrap_range. Qed.

Lemma is_u_weaken w v x : is_u w x -> w <= v -> is_u v x.
Proof.
  unfold is_u. intros ? ?.
  destruct (decide (0 <= w)).
  - assert (2 ^ w <= 2 ^ v) by (apply Z.pow_le_mono_r; lia). lia.
  - rewrite Z.pow_neg_r in H by lia. lia.
Qed.

Lemma is_u_bits w x : 0 <= w ->
  is_u w x <-> 0 <= x /\ forall i, w <= i -> Z.testbit x i = false.
Proof.
  intros Hw. unfold is_u. split.
  - intros [? ?]. split; [done|]. intros i Hi.
    rewrite <- (Z.mod_small x (2 ^ w)) by lia. by apply Z.mod_pow2_bits_high.
  - intros [Hx Hi]. split; [done|].
    assert (x = x mod 2 ^ w) as ->.
    { apply Z.bits_inj'. intros n Hn. destruct (decide (w <= n)).
      - rewrite Hi, Z.mod_pow2_bits_high by lia. done.
      - by rewrite Z.mod_pow2_bits_low by lia. }
    apply Z.mod_pos_bound. lia.
Qed.

Lemma is_u_high_bit w x i : is_u w x -> 0 <= w <= i -> Z.testbit x i = false.
Proof. intros H ?. apply is_u_bits in H; [|lia]. apply H. lia. Qed.

Lemma is_u_land_l w a b : 0 <= w -> is_u w a -> is_u w (Z.land a b).
Proof.
  intros Hw [? Hi]%is_u_bits; [|done]. apply is_u_bits; [done|]. split.
  - apply Z.land_nonneg. by left.
  - intros. rewrite Z.land_spec, Hi by lia. done.
Qed.

Lemma is_u_land_r w a b : 0 <= w -> is_u w b -> is_u w (Z.land a b).
Proof. rewrite Z.land_comm. apply is_u_land_l. Qed.

Lemma is_u_lor w a b : 0 <= w -> is_u w a -> is_u w b -> is_u w (Z.lor a b).
Proof.
  intros Hw [? Hi]%is_u_bits [? Hj]%is_u_bits; [|done..].
  apply is_u_bits; [done|]. split.
  - by apply Z.lor_nonneg.
  - intros. rewrite Z.lor_spec, Hi, Hj by lia. done.
Qed.

Lemma is_u_lxor w a b : 0 <= w -> is_u w a -> is_u w b -> is_u w (Z.lxor a b).
Proof.
  intros Hw [? Hi]%is_u_bits [? Hj]%is_u_bits; [|done..].
  apply is_u_bits; [done|]. split.
  - by apply Z.lxor_nonneg.
  - intros. rewrite Z.lxor_spec, Hi, Hj by lia. done.
Qed.

Lemma is_u_ones w : 0 <= w -> is_u w (Z.ones w).
Proof. intros. unfold is_u. rewrite Z.ones_equiv. lia. Qed.

Lemma is_u_unot w a : 0 <= w -> is_u w a -> is_u w (unot w a).
Proof. intros. apply is_u_lxor; auto using is_u_ones. Qed.

Lemma is_u_shiftr w a n : 0 <= n -> is_u w a -> is_u w (Z.shiftr a n).
Proof.
  unfold is_u. intros. rewrite Z.shiftr_div_pow2 by lia.
  assert (1 <= 2 ^ n) by (apply (Z.pow_le_mono_r 2 0 n); lia).
  split; [apply Z.div_pos; lia|].
  apply Z.le_lt_trans with a; [|lia].
  apply Z.div_le_upper_bound; nia.
Qed.

Lemma is_u_bool w b : 0 < w -> is_u w (bool_u b).
Proof.
  intros. unfold is_u.
  assert (2 ^ 1 <= 2 ^ w) by (apply Z.pow_le_mono_r; lia).
  destruct b; cbn; lia.
Qed.

Lemma is_u_if w (b : bool) x y : is_u w x -> is_u w y -> is_u w (if b then x else y).
Proof. by destruct b. Qed.

#[export] Hint Resolve wrap_range is_u_lor is_u_lxor is_u_unot is_u_bool is_u_if
  is_u_shiftr : word.
#[export] Hint Extern 3 (is_u _ (Z.land _ _)) => apply is_u_land_l : word.
#[export] Hint Extern 4 (is_u _ (Z.land _ _)) => apply is_u_land_r : word.
#[export] Hint Extern 5 (is_u _ _) => unfold is_u; lia : word.
#[export] Hint Extern 2 (_ <= _) => lia : word.
#[export] Hint Extern 2 (_ < _) => lia : word.
#[export] Hint Extern 2 (_ <= _ < _) => lia : word.

Lemma u32_wrapping_add a b : u32 (wrapping_add32 a b).
Proof. by apply wrap_range. Qed.
Lemma u32_wrapping_sub a b : u32 (wrapping_sub32 a b).
Proof. by apply wrap_range. Qed.
Lemma u32_wrapping_mul a b : u32 (wrapping_mul32 a b).
Proof. by apply wrap_range. Qed.
#[export] Hint Resolve u32_wrapping_add u32_wrapping_sub u32_wrapping_mul : word.

(** Wrapping addition undoes wrapping subtraction. *)
Lemma wrapping_add_sub a b : u32 a -> wrapping_add32 (wrapping_sub32 a b) b = a.
Proof.
  intros. unfold wrapping_add32, wrapping_sub32, wrap.
  rewrite Zplus_mod_idemp_l. replace (a - b + b) with a by lia.
  by apply Z.mod_small.
Qed.

Lemma wrapping_add_assoc a b c :
  wrapping_add32 (wrapping_add32 a b) c = wrapping_add32 a (b + c).
Proof.
  unfold wrapping_add32, wrap. rewrite Zplus_mod_idemp_l. f_equal. lia.
Qed.

(** ** Bits *)

Lemma has_bits_pow2 x n : 0 <= n -> has_bits x (2 ^ n) = Z.testbit x n.
Proof.
  intros. unfold has_bits. destruct (Z.testbit x n) eqn:E.
  - apply negb_true_iff, Z.eqb_neq. intros H0.
    assert (Z.testbit (Z.land x (2 ^ n)) n = true) as H1
      by (rewrite Z.land_spec, E, Z.pow2_bits_true by done; done).
    rewrite H0, Z.bits_0 in H1. done.
  - apply negb_false_iff, Z.eqb_eq, Z.bits_inj'. intros i Hi.
    rewrite Z.land_spec, Z.bits_0. destruct (decide (i = n)) as [->|].
    + by rewrite E.
    + rewrite Z.pow2_bits_false by congruence. apply andb_false_r.
Qed.

Lemma testbit_top w x : 0 < w -> is_u w x ->
  Z.testbit x (w - 1) = (2 ^ (w - 1) <=? x).
Proof.
  unfold is_u. intros Hw Hx. rewrite Z.testbit_eqb by lia.
  assert (2 ^ w = 2 * 2 ^ (w - 1)) as Hp
    by (rewrite <- Z.pow_succ_r by lia; f_equal; lia).
  set (p := 2 ^ (w - 1)) in *. assert (0 < p) by (unfold p; lia).
  destruct (Z.leb_spec p x).
  - replace (x / p) with 1; [done|].
    apply (Z.div_unique x p 1 (x - p)); lia.
  - rewrite Z.div_small by lia. done.
Qed.

Lemma unot_spec w x i : 0 <= w -> 0 <= i ->
  Z.testbit (unot w x) i = xorb (Z.testbit x i) (i <? w).
Proof.
  intros. unfold unot. rewrite Z.lxor_spec. f_equal.
  destruct (Z.ltb_spec i w).
  - by rewrite Z.ones_spec_low by lia.
  - by rewrite Z.ones_spec_high by lia.
Qed.

(** A masked value is at most the mask. *)
Lemma land_le_mask x m : 0 <= m -> 0 <= Z.land x m <= m.
Proof.
  intros Hm. split; [apply Z.land_nonneg; by right|].
  assert (Z.land x m + Z.ldiff m x = m) as Hsum.
  { rewrite Z.add_nocarry_lxor.
    - apply Z.bits_inj'. intros i Hi. rewrite Z.lxor_spec, Z.land_spec, Z.ldiff_spec.
      by destruct (Z.testbit x i), (Z.testbit m i).
    - apply Z.bits_inj'. intros i Hi. rewrite !Z.land_spec, Z.ldiff_spec, Z.bits_0.
      by destruct (Z.testbit x i), (Z.testbit m i). }
  assert (0 <= Z.ldiff m x) by (apply Z.ldiff_nonneg; by left). lia.
Qed.

(** ** Little-endian byte strings: [u32::to_le_bytes] and [from_le_bytes]. *)

Fixpoint to_le_bytes (n : nat) (v : Z) : list Z :=
  match n with
  | O => []
  | S n => v mod 256 :: to_le_bytes n (v / 256)
  end.

Fixpoint from_le_bytes (bs : list Z) : Z :=
  match bs with
  | [] => 0
  | b :: bs => b + 256 * from_le_bytes bs
  end.

Lemma length_to_le_bytes n v : length (to_le_bytes n v) = n.
Proof. revert v. induction n; cbn; auto. Qed.

Lemma to_le_bytes_u8 n v : Forall u8 (to_le_bytes n v).
Proof.
  revert v. induction n; cbn; constructor; [|done].
  unfold is_u. apply Z.mod_pos_bound. lia.
Qed.

Lemma from_to_le_bytes n v :
  from_le_bytes (to_le_bytes n v) = v mod 2 ^ (8 * Z.of_nat n).
Proof.
  revert v. induction n as [|n IH]; intros v; cbn [to_le_bytes from_le_bytes].
  - by rewrite Z.mod_1_r.
  - rewrite IH. replace (8 * Z.of_nat (S n)) with (8 + 8 * Z.of_nat n) by lia.
    rewrite Z.pow_add_r by lia. change (2 ^ 8) with 256.
    rewrite Z.rem_mul_r by lia. lia.
Qed.

Lemma from_le_bytes_range bs :
  Forall u8 bs -> is_u (8 * Z.of_nat (length bs)) (from_le_bytes bs).
Proof.
  induction 1 as [|b bs Hb Hbs IH]; cbn [from_le_bytes length].
  - unfold is_u. cbn. lia.
  - replace (8 * Z.of_nat (S (length bs))) with (8 + 8 * Z.of_nat (length bs)) by lia.
    unfold is_u in *. rewrite Z.pow_add_r by lia. change (2 ^ 8) with 256 in *. nia.
Qed.

Lemma from_le_bytes_app_zeros bs n :
  from_le_bytes (bs ++ replicate n 0) = from_le_bytes bs.
Proof.
  induction bs as [|b bs IH]; cbn [app from_le_bytes]; [|lia].
  induction n; cbn [replicate from_le_bytes]; lia.
Qed.

Lemma to_from_le_bytes bs :
  Forall u8 bs -> to_le_bytes (length bs) (from_le_bytes bs) = bs.
Proof.
  induction 1 as [|b bs Hb Hbs IH]; cbn [from_le_bytes length to_le_bytes]; [done|].
  unfold is_u in Hb. change (2 ^ 8) with 256 in Hb. f_equal.
  - rewrite Z.mul_comm, Z.mod_add by lia. by apply Z.mod_small.
  - rewrite Z.mul_comm, Z.div_add by lia. rewrite Z.div_small by lia. done.
Qed.

(** ** Tactics *)

(** Turns the boolean tests of the code into the propositions they decide. *)
Ltac bool_to_prop :=
  repeat match goal with
  | H : (_ && _) = true |- _ => apply andb_true_iff in H; destruct H
  | H : (_ || _) = false |- _ => apply orb_false_iff in H; destruct H
  | H : negb _ = true |- _ => apply negb_true_iff in H
  | H : negb _ = false |- _ => apply negb_false_iff in H
  | H : (_ <? _) = true |- _ => apply Z.ltb_lt in H
  | H : (_ <? _) = false |- _ => apply Z.ltb_ge in H
  | H : (_ <=? _) = true |- _ => apply Z.leb_le in H
  | H : (_ <=? _) = false |- _ => apply Z.leb_gt in H
  | H : (_ =? _) = true |- _ => apply Z.eqb_eq in H
  | H : (_ =? _) = false |- _ => apply Z.eqb_neq in H
  | H : bool_decide _ = true |- _ => apply bool_decide_eq_true in H
  | H : bool_decide _ = false |- _ => apply bool_decide_eq_false in H
  end.

(** Inverts a chain of [result] binds that ended in [Ok]. *)
Ltac invert_ok :=
  repeat match goal with
  | H : (_ ≫= _) = Ok _ |- _ => apply bind_ok_inv in H; destruct H as (? & ? & H)
  | H : ok_or _ _ = Ok _ |- _ => apply ok_or_ok in H
  | H : Ok _ = Ok _ |- _ => injection H as H
  | H : Err _ = Ok _ |- _ => discriminate H
  | H : Ok _ = Err _ |- _ => discriminate H
  | H : mret _ = Ok _ |- _ => unfold mret, result_ret in H
  | H : (if ?b then _ else _) = Ok _ |- _ => destruct b eqn:?
  | H : (let '(_, _) := ?p in _) = Ok _ |- _ => destruct p eqn:?
  end.
