(* ===== verification/Slices.v ===== *)
(** * Searching ordered slices

    The two searches of the standard library the program uses over slices it
    keeps in order: [slice::partition_point] and
    [slice::binary_search_by_key]. *)

From stdpp Require Import sorting.
From S2P Require Import Prelude.

(** [partition_point] of a partitioned slice: how many entries come first. *)
Fixpoint partition_point {A} (f : A -> bool) (l : list A) : nat :=
  match l with
  | [] => 0
  | a :: l => if f a then S (partition_point f l) else 0
  end.

(** [slice::binary_search_by_key]: the half-open window [left, left + size)
    that may still hold the key is halved until it is empty; the fuel is the
    length of the slice, which the window never exceeds. *)
Fixpoint search_window {A} (key : A -> Z) (l : list A) (k : Z) (fuel left size : nat) : option nat :=
  match fuel with
  | O => None
  | S fuel =>
    match size with
    | O => None
    | S _ =>
      let half := Nat.div2 size in
      match l !! (left + half)%nat with
      | None => None
      | Some a =>
        if key a =? k then Some (left + half)%nat
        else if key a <? k then search_window key l k fuel (left + half + 1) (size - half - 1)
        else search_window key l k fuel left half
      end
    end
  end.

Definition binary_search_by_key {A} (key : A -> Z) (l : list A) (k : Z) : option nat :=
  search_window key l k (S (length l)) 0 (length l).

(** ** The search *)

Section Search.
Context {A : Type} (key : A -> Z) (l : list A).
Hypothesis keys_sorted : StronglySorted Z.lt (map key l).

Lemma sorted_lt i j a b : (i < j)%nat -> l !! i = Some a -> l !! j = Some b -> key a < key b.
Proof.
  clear -keys_sorted. revert i j. remember (map key l) as ks eqn:Hks. revert l Hks.
  induction keys_sorted as [|k ks Hs IH Hall]; intros l' Hl i j Hij Ha Hb.
  { symmetry in Hl. apply map_eq_nil in Hl as ->. done. }
  destruct l' as [|c l']; [done|]. injection Hl as -> ->. destruct j as [|j]; [lia|].
  destruct i as [|i]; [|eapply (IH Hs l'); [done | | exact Ha | exact Hb]; lia].
  injection Ha as ->. rewrite Forall_forall in Hall. apply Hall. apply list_elem_of_In, in_map.
  apply list_elem_of_In. by eapply list_elem_of_lookup_2.
Qed.

(** Whatever lies outside the window cannot be the key. *)
Lemma search_window_spec k fuel left size : (left + size <= length l)%nat -> (size < fuel)%nat ->
  (forall i a, l !! i = Some a -> key a = k -> (left <= i < left + size)%nat) ->
  match search_window key l k fuel left size with
  | Some i => exists a, l !! i = Some a /\ key a = k
  | None => forall i a, l !! i = Some a -> key a <> k
  end.
Proof.
  revert left size. induction fuel as [|fuel IH]; intros left size Hle Hfuel Hin; [lia|].
  cbn [search_window]. destruct size as [|size'].
  { intros i a Ha Hk. specialize (Hin i a Ha Hk). lia. }
  set (size := S size') in *. set (half := Nat.div2 size).
  assert (half < size)%nat as Hhalf by (apply Nat.lt_div2; lia).
  destruct (lookup_lt_is_Some_2 l (left + half)%nat) as [a Ha]; [lia|]. rewrite Ha.
  destruct (Z.eqb_spec (key a) k) as [Heq|Hne]; [by eauto|].
  destruct (Z.ltb_spec (key a) k) as [Hlt|Hge]; apply IH; try lia.
  - intros i b Hb Hk. specialize (Hin i b Hb Hk). destruct (decide (i <= left + half)%nat) as [Hi|]; [|lia].
    exfalso. destruct (decide (i = left + half)%nat) as [->|]; [congruence|].
    pose proof (sorted_lt i (left + half) b a ltac:(lia) Hb Ha). lia.
  - intros i b Hb Hk. specialize (Hin i b Hb Hk). destruct (decide (left + half <= i)%nat) as [Hi|]; [|lia].
    exfalso. destruct (decide (i = left + half)%nat) as [->|]; [congruence|].
    pose proof (sorted_lt (left + half) i a b ltac:(lia) Ha Hb). lia.
Qed.

Lemma binary_search_exact k i a : binary_search_by_key key l k = Some i /\ l !! i = Some a <->
  l !! i = Some a /\ key a = k.
Proof.
  pose proof (search_window_spec k (S (length l)) 0 (length l) ltac:(lia) ltac:(lia)) as Hspec.
  unfold binary_search_by_key. destruct (search_window _ _ _ _ _ _) as [j|].
  - destruct Hspec as (b & Hb & Hk); [intros ? ? ?%lookup_lt_Some _; lia|]. split.
    + intros [[= ->] Ha]. split; [done|]. congruence.
    + intros [Ha Hk']. split; [|done]. f_equal.
      destruct (lt_eq_lt_dec i j) as [[Hij|]|Hij]; [|done|].
      * pose proof (sorted_lt _ _ _ _ Hij Ha Hb). lia.
      * pose proof (sorted_lt _ _ _ _ Hij Hb Ha). lia.
  - split; [by intros [? _]|]. intros [Ha Hk]. by destruct (Hspec ltac:(intros ? ? ?%lookup_lt_Some _; lia) _ _ Ha).
Qed.
End Search.

Fixpoint increasing (l : list Z) : bool :=
  match l with
  | a :: ((b :: _) as l') => (a <? b) && increasing l'
  | _ => true
  end.

Lemma increasing_sorted l : increasing l = true -> StronglySorted Z.lt l.
Proof.
  intros Hl. apply Sorted_StronglySorted; [intros ???; lia|]. revert Hl.
  induction l as [|a [|b l] IH]; intros Hl; [constructor | repeat constructor |].
  cbn [increasing] in Hl. apply andb_true_iff in Hl as [Hab%Z.ltb_lt Hl].
  constructor; [by apply IH | by constructor].
Qed.

(** ** The partition point *)

Lemma partition_point_le {A} (f : A -> bool) l : (partition_point f l <= length l)%nat.
Proof. induction l; cbn; [lia|]. case_match; cbn; lia. Qed.
