(* ===== verification/GuestTypes.v ===== *)
(** * Guest addresses, ranges and permissions

    Models [exbawks-types]: the address newtypes and the checked range of
    [address.rs], and the permission flags, access kinds and build flavors of
    [execution.rs].  A newtype over [u32] is its underlying [Z]; the
    well-formedness of a value is [u32] of it. *)

From S2P Require Import Prelude.

(** ** Constants *)

Definition GUEST_PAGE_SHIFT : Z := 12.
Definition GUEST_PAGE_SIZE : Z := Z.shiftl 1 GUEST_PAGE_SHIFT.
Definition GUEST_PAGE_COUNT : Z := Z.shiftl 1 (32 - GUEST_PAGE_SHIFT).

(** ** Virtual addresses, physical addresses and pages *)

Abbreviation GuestVa := Z (only parsing).
Abbreviation GuestPa := Z (only parsing).
Abbreviation GuestPage := Z (only parsing).

Definition GuestVa_page (self : GuestVa) : GuestPage :=
  Z.shiftr self GUEST_PAGE_SHIFT.

Definition GuestVa_page_offset (self : GuestVa) : Z :=
  Z.land self (GUEST_PAGE_SIZE - 1).

Definition GuestVa_checked_add (self : GuestVa) (bytes : Z) : option GuestVa :=
  checked_add 32 self bytes.

Definition GuestPa_page (self : GuestPa) : GuestPage :=
  Z.shiftr self GUEST_PAGE_SHIFT.

Definition GuestPa_page_offset (self : GuestPa) : Z :=
  Z.land self (GUEST_PAGE_SIZE - 1).

(** The shift of a [u32] drops the bits above 31. *)
Definition GuestPage_start_va (self : GuestPage) : GuestVa :=
  wrap32 (Z.shiftl self GUEST_PAGE_SHIFT).

Definition GuestPage_start_pa (self : GuestPage) : GuestPa :=
  wrap32 (Z.shiftl self GUEST_PAGE_SHIFT).

(** ** Checked ranges *)

Inductive AddressError : Type :=
| EmptyRange
| RangeOverflow (start : GuestVa) (len : Z)
| UnalignedRange (start : GuestVa) (len : Z).

#[export] Instance AddressError_eq_dec : EqDecision AddressError.
Proof. solve_decision. Defined.

Record GuestRange : Type := mkGuestRange {
  range_start : GuestVa;
  range_len : Z;
}.

#[export] Instance GuestRange_eq_dec : EqDecision GuestRange.
Proof. solve_decision. Defined.

Definition GuestRange_new (start : GuestVa) (len : Z) : result AddressError GuestRange :=
  if len =? 0 then Err EmptyRange else
  bound ← ok_or (checked_add 64 start len) (RangeOverflow start len);
  if U32_MAX + 1 <? bound then Err (RangeOverflow start len) else
  Ok (mkGuestRange start len).

Definition GuestRange_end_exclusive (self : GuestRange) : Z :=
  range_start self + range_len self.

Definition GuestRange_require_page_alignment (self : GuestRange) : result AddressError unit :=
  let mask := GUEST_PAGE_SIZE - 1 in
  if has_bits (range_start self) mask || has_bits (range_len self) mask
  then Err (UnalignedRange (range_start self) (range_len self))
  else Ok tt.

Definition GuestRange_page_aligned (start : GuestVa) (len : Z) : result AddressError GuestRange :=
  range ← GuestRange_new start len;
  _ ← GuestRange_require_page_alignment range;
  Ok range.

Definition GuestRange_is_empty (self : GuestRange) : bool := range_len self =? 0.

Definition GuestRange_page_count (self : GuestRange) : Z :=
  let first := Z.shiftr (range_start self) GUEST_PAGE_SHIFT in
  let last := Z.shiftr (GuestRange_end_exclusive self - 1) GUEST_PAGE_SHIFT in
  last - first + 1.

Definition GuestRange_contains (self : GuestRange) (address : GuestVa) : bool :=
  (range_start self <=? address) && (address <? GuestRange_end_exclusive self).

(** The page iterator: a cursor and an exclusive bound. *)
Record GuestPageIter : Type := mkGuestPageIter {
  iter_next : Z;
  iter_end : Z;
}.

Definition GuestPageIter_next (self : GuestPageIter) : option (GuestPage * GuestPageIter) :=
  if iter_end self <=? iter_next self then None
  else Some (iter_next self, mkGuestPageIter (iter_next self + 1) (iter_end self)).

Definition GuestPageIter_size_hint (self : GuestPageIter) : Z :=
  iter_end self - iter_next self.

(** Drains the iterator, as a [for] loop does. *)
Fixpoint GuestPageIter_collect (fuel : nat) (self : GuestPageIter) : list GuestPage :=
  match fuel with
  | O => []
  | S fuel =>
    match GuestPageIter_next self with
    | None => []
    | Some (page, rest) => page :: GuestPageIter_collect fuel rest
    end
  end.

Definition GuestRange_pages_iter (self : GuestRange) : GuestPageIter :=
  let first := Z.shiftr (range_start self) GUEST_PAGE_SHIFT in
  let last_exclusive :=
    wrap32 (Z.shiftr (GuestRange_end_exclusive self - 1) GUEST_PAGE_SHIFT) + 1 in
  mkGuestPageIter first last_exclusive.

(** [range.pages()] run to its end; [size_hint] steps are enough, see
    [pages_iter_complete]. *)
Definition GuestRange_pages (self : GuestRange) : list GuestPage :=
  let iter := GuestRange_pages_iter self in
  GuestPageIter_collect (Z.to_nat (GuestPageIter_size_hint iter)) iter.

(** ** Permissions and access kinds *)

(** [MemoryPermissions] is a bit set in a [u8]; undefined bits are retained. *)
Abbreviation MemoryPermissions := Z (only parsing).
Definition PERM_READ : MemoryPermissions := Z.shiftl 1 0.
Definition PERM_WRITE : MemoryPermissions := Z.shiftl 1 1.
Definition PERM_EXECUTE : MemoryPermissions := Z.shiftl 1 2.

(** bitflags [contains]: every bit of [other] is set in [self]. *)
Definition permissions_contain (self other : MemoryPermissions) : bool :=
  Z.land self other =? other.

Inductive AccessKind : Type := Read | Write | Execute.

#[export] Instance AccessKind_eq_dec : EqDecision AccessKind.
Proof. solve_decision. Defined.

Definition AccessKind_required_permission (self : AccessKind) : MemoryPermissions :=
  match self with
  | Read => PERM_READ
  | Write => PERM_WRITE
  | Execute => PERM_EXECUTE
  end.

Inductive BuildFlavor : Type := Retail | Debug | Chihiro | Unknown.

#[export] Instance BuildFlavor_eq_dec : EqDecision BuildFlavor.
Proof. solve_decision. Defined.

(** ** Well-formed ranges *)

(** What [GuestRange::new] establishes. *)
Definition range_wf (r : GuestRange) : Prop :=
  u32 (range_start r) /\ 0 < range_len r /\ GuestRange_end_exclusive r <= 2 ^ 32.

(** Both ends on a page boundary. *)
Definition range_aligned (r : GuestRange) : Prop :=
  range_start r mod GUEST_PAGE_SIZE = 0 /\ range_len r mod GUEST_PAGE_SIZE = 0.

(** ** Facts about pages *)

Lemma page_size_val : GUEST_PAGE_SIZE = 4096.
Proof. done. Qed.
Lemma page_count_val : GUEST_PAGE_COUNT = 1048576.
Proof. done. Qed.

Ltac pages := rewrite ?page_size_val, ?page_count_val in *;
  change GUEST_PAGE_SHIFT with 12 in *; change (2 ^ 12) with 4096 in *;
  unfold is_u in *; dlia.

Lemma va_page_div a : GuestVa_page a = a / 4096.
Proof. unfold GuestVa_page. by rewrite Z.shiftr_div_pow2. Qed.

Lemma va_offset_mod a : GuestVa_page_offset a = a mod 4096.
Proof.
  unfold GuestVa_page_offset. change (GUEST_PAGE_SIZE - 1) with (Z.ones 12).
  by rewrite Z.land_ones.
Qed.

Lemma start_va_mul p : 0 <= p < GUEST_PAGE_COUNT -> GuestPage_start_va p = p * 4096.
Proof.
  intros. unfold GuestPage_start_va. rewrite Z.shiftl_mul_pow2 by done.
  apply wrap_small. pages.
Qed.

Lemma has_page_mask_mod x : has_bits x (GUEST_PAGE_SIZE - 1) = negb (x mod 4096 =? 0).
Proof.
  unfold has_bits. change (GUEST_PAGE_SIZE - 1) with (Z.ones 12).
  by rewrite Z.land_ones.
Qed.

Lemma alignment_ok_iff r :
  GuestRange_require_page_alignment r = Ok tt <-> range_aligned r.
Proof.
  unfold GuestRange_require_page_alignment, range_aligned.
  rewrite !has_page_mask_mod, page_size_val.
  destruct (Z.eqb_spec (range_start r mod 4096) 0),
    (Z.eqb_spec (range_len r mod 4096) 0); cbn; naive_solver.
Qed.

(** Draining the iterator yields the consecutive pages. *)
Lemma collect_seqZ n k b :
  Z.of_nat n = b - k -> GuestPageIter_collect n (mkGuestPageIter k b) = seqZ k (b - k).
Proof.
  revert k. induction n as [|n IH]; intros k Hn; cbn [GuestPageIter_collect].
  - rewrite <- Hn. done.
  - unfold GuestPageIter_next. cbn [iter_next iter_end].
    destruct (Z.leb_spec b k); [lia|].
    rewrite IH by lia. rewrite (seqZ_cons k (b - k)) by lia.
    unfold Z.succ, Z.pred. do 2 f_equal; lia.
Qed.

Lemma pages_seqZ r : range_wf r ->
  GuestRange_pages r = seqZ (GuestVa_page (range_start r)) (GuestRange_page_count r).
Proof.
  intros (? & ? & He). unfold GuestRange_pages, GuestRange_pages_iter, GuestRange_page_count.
  rewrite !Z.shiftr_div_pow2, va_page_div by done. cbn [GuestPageIter_size_hint iter_next iter_end].
  unfold GuestPageIter_size_hint, GuestRange_end_exclusive in *. cbn [iter_next iter_end].
  rewrite wrap_small by pages. change (2 ^ GUEST_PAGE_SHIFT) with 4096.
  rewrite collect_seqZ by pages. f_equal. lia.
Qed.

Lemma range_new_ok_iff start len : u32 start -> u64 len -> forall r,
  GuestRange_new start len = Ok r <->
  0 < len /\ start + len <= 2 ^ 32 /\ r = mkGuestRange start len.
Proof.
  intros Hs Hl r. unfold GuestRange_new, checked_add, is_u in *.
  destruct (Z.eqb_spec len 0); [naive_solver lia|].
  destruct (Z.ltb_spec (start + len) (2 ^ 64)) as [?|?];
    cbn [ok_or mbind result_bind]; [|naive_solver lia].
  destruct (Z.ltb_spec (U32_MAX + 1) (start + len)) as [?|?]; unfold U32_MAX in *;
    naive_solver lia.
Qed.

Lemma range_new_wf start len r :
  u32 start -> u64 len -> GuestRange_new start len = Ok r -> range_wf r.
Proof.
  intros Hs Hl (? & ? & ->)%range_new_ok_iff; [|done..].
  unfold range_wf, GuestRange_end_exclusive. cbn. words.
Qed.

(** The pages of a range are the pages of the addresses in it. *)
Lemma pages_elem r p : range_wf r ->
  p ∈ GuestRange_pages r <-> exists a, GuestRange_contains r a = true /\ GuestVa_page a = p.
Proof.
  intros Hr. rewrite pages_seqZ by done. destruct Hr as (? & ? & ?).
  rewrite elem_of_seqZ.
  unfold GuestRange_page_count, GuestRange_contains, GuestRange_end_exclusive in *.
  rewrite !Z.shiftr_div_pow2, va_page_div in * by done.
  change (2 ^ GUEST_PAGE_SHIFT) with 4096 in *. split.
  - intros Hp. exists (Z.max (range_start r) (p * 4096)).
    rewrite va_page_div, andb_true_iff, Z.leb_le, Z.ltb_lt. repeat split; pages.
  - intros (a & Ha & <-). rewrite va_page_div. bool_to_prop. pages.
Qed.

(** ** Theorems *)

(** [GuestRange::new] accepts exactly the non-empty ranges that end inside
    the 32-bit space, and its two errors are reported exactly on an empty
    length and on an end beyond [2^32] (the [u64] sum never wraps into
    acceptance). *)
Theorem guest_range_new_exact (start len : Z) :
  u32 start -> u64 len ->
  GuestRange_new start len =
    if decide (len = 0) then Err EmptyRange
    else if decide (start + len <= 2 ^ 32) then Ok (mkGuestRange start len)
    else Err (RangeOverflow start len).
Proof.
  intros Hs Hl. unfold GuestRange_new, checked_add, is_u in *.
  destruct (Z.eqb_spec len 0); [by rewrite decide_True|].
  rewrite (decide_False (P := len = 0)) by done.
  destruct (Z.ltb_spec (start + len) (2 ^ 64)); cbn [ok_or mbind result_bind];
    [|by rewrite decide_False by lia].
  unfold U32_MAX. destruct (Z.ltb_spec (4294967295 + 1) (start + len)); case_decide; done || lia.
Qed.

Lemma guest_range_new_exact_witness :
  GuestRange_new 0xFFFFF000 0x2000 = Err (RangeOverflow 0xFFFFF000 0x2000).
Proof. rewrite (guest_range_new_exact 0xFFFFF000 0x2000); [done | words | words]. Defined.

(** the pages a range iterates over are exactly the pages of the addresses
    it contains, each once, and [page_count] counts them. *)
Theorem guest_range_pages_cover (r : GuestRange) :
  range_wf r ->
  NoDup (GuestRange_pages r) /\
  Z.of_nat (length (GuestRange_pages r)) = GuestRange_page_count r /\
  forall p, p ∈ GuestRange_pages r <->
    exists a, GuestRange_contains r a = true /\ GuestVa_page a = p.
Proof.
  intros Hr. split_and!; [| |intros; by apply pages_elem];
    rewrite pages_seqZ by done; destruct Hr as (? & ? & ?).
  - apply NoDup_seqZ.
  - rewrite length_seqZ. unfold GuestRange_page_count, GuestRange_end_exclusive in *.
    rewrite !Z.shiftr_div_pow2 by done. pages.
Qed.

Lemma guest_range_pages_cover_witness :
  length (GuestRange_pages (mkGuestRange 0x1FFF 0x2002)) = 4%nat /\
  NoDup (GuestRange_pages (mkGuestRange 0x1FFF 0x2002)).
Proof.
  split; [reflexivity|].
  apply (guest_range_pages_cover (mkGuestRange 0x1FFF 0x2002)).
  unfold range_wf, GuestRange_end_exclusive, is_u; cbn; lia.
Defined.
