(* ===== verification/PageTable.v ===== *)
(** * Page descriptors and the page table

    Models [exbawks-memory/src/page_table.rs] (and the [MemoryError] of
    [error.rs]): the packed 64-bit descriptor with its accessors and updates,
    and the table with its mapping operations.

    The two atomic arrays have [GUEST_PAGE_COUNT] entries, all zero at first;
    they are finite maps in which an absent key is a zero entry.  Every
    operation takes the mutation lock for its whole body, so one operation is
    one step here.  The [Release]/[Acquire] orderings of the lock-free reads
    are not modelled. *)

From S2P Require Import Prelude GuestTypes.

(** ** Errors of the memory crate *)

(** The errors of the software address space; [Platform] wraps host failures
    that no operation modelled here returns. *)
Inductive MemoryError : Type :=
| AddressErr (error : AddressError)
| OutOfPhysicalMemory (requested_pages : Z)
| UnmappedErr (address : GuestVa) (access : AccessKind)
| AccessDenied (address : GuestVa) (access : AccessKind)
| MmioErr (address : GuestVa) (handler_id : Z)
| PhysicalOutOfRange (address : GuestPa)
| AlreadyMapped (address : GuestVa)
| HostSizeOverflow
| InvalidArenaBase (base : Z)
| InvalidPhysicalSize (bytes : Z)
| UnalignedPhysicalAddress (address : GuestPa)
| ArenaViewOverlap (address : GuestVa).

#[export] Instance MemoryError_eq_dec : EqDecision MemoryError.
Proof. solve_decision. Defined.

(** [MemoryError::from(AddressError)] under [?]. *)
Definition lift_address {A} (r : result AddressError A) : result MemoryError A :=
  map_err AddressErr r.

(** ** Packed descriptors *)

Definition KIND_SHIFT : Z := 0.
Definition KIND_MASK : Z := 7.
Definition PERMISSIONS_SHIFT : Z := 3.
Definition PERMISSIONS_MASK : Z := 7.
Definition PHYSICAL_PAGE_SHIFT : Z := 8.
Definition PHYSICAL_PAGE_MASK : Z := Z.shiftl 1 20 - 1.
Definition AUX_SHIFT : Z := 28.
Definition AUX_MASK : Z := Z.shiftl 1 16 - 1.
Definition GENERATION_SHIFT : Z := 44.
Definition GENERATION_MASK : Z := Z.shiftl 1 16 - 1.
Definition WATCH_SHIFT : Z := 60.
Definition WATCH_MASK : Z := 7.
Definition VALID_BIT : Z := Z.shiftl 1 63.

Inductive PageKind : Type := Unmapped | Ram | Mmio | Reserved.

#[export] Instance PageKind_eq_dec : EqDecision PageKind.
Proof. solve_decision. Defined.

(** The discriminant of the [repr(u8)] enum. *)
Definition PageKind_to_raw (k : PageKind) : Z :=
  match k with
  | Unmapped => 0
  | Ram => 1
  | Mmio => 2
  | Reserved => 3
  end.

Definition PageKind_from_raw (value : Z) : PageKind :=
  if value =? 1 then Ram
  else if value =? 2 then Mmio
  else if value =? 3 then Reserved
  else Unmapped.

Record WatchFlags : Type := mkWatchFlags {
  watch_read : bool;
  watch_write : bool;
  watch_execute : bool;
}.

Definition WatchFlags_NONE : WatchFlags := mkWatchFlags false false false.

Definition WatchFlags_to_raw (self : WatchFlags) : Z :=
  Z.lor (Z.lor (bool_u (watch_read self)) (Z.shiftl (bool_u (watch_write self)) 1))
    (Z.shiftl (bool_u (watch_execute self)) 2).

Definition WatchFlags_from_raw (value : Z) : WatchFlags :=
  mkWatchFlags (has_bits value 1) (has_bits value 2) (has_bits value 4).

(** [PageDescriptor] is a transparent [u64]. *)
Abbreviation PageDescriptor := Z (only parsing).

Definition PageDescriptor_pack (kind : PageKind) (permissions physical_page aux generation : Z)
    (watch : WatchFlags) : PageDescriptor :=
  let raw := VALID_BIT in
  let raw := Z.lor raw (Z.shiftl (PageKind_to_raw kind) KIND_SHIFT) in
  let raw := Z.lor raw (Z.shiftl (Z.land permissions PERMISSIONS_MASK) PERMISSIONS_SHIFT) in
  let raw := Z.lor raw (Z.shiftl (Z.land physical_page PHYSICAL_PAGE_MASK) PHYSICAL_PAGE_SHIFT) in
  let raw := Z.lor raw (Z.shiftl (Z.land aux AUX_MASK) AUX_SHIFT) in
  let raw := Z.lor raw (Z.shiftl (Z.land generation GENERATION_MASK) GENERATION_SHIFT) in
  Z.lor raw (Z.shiftl (Z.land (WatchFlags_to_raw watch) WATCH_MASK) WATCH_SHIFT).

Definition PageDescriptor_ram (physical_page : GuestPage) (permissions generation : Z)
  : PageDescriptor :=
  PageDescriptor_pack Ram permissions physical_page 0 generation WatchFlags_NONE.

Definition PageDescriptor_mmio (handler_id permissions generation : Z) : PageDescriptor :=
  PageDescriptor_pack Mmio permissions 0 handler_id generation WatchFlags_NONE.

Definition PageDescriptor_reserved (generation : Z) : PageDescriptor :=
  PageDescriptor_pack Reserved 0 0 0 generation WatchFlags_NONE.

Definition PageDescriptor_is_valid (self : PageDescriptor) : bool := has_bits self VALID_BIT.

Definition PageDescriptor_kind (self : PageDescriptor) : PageKind :=
  PageKind_from_raw (wrap8 (Z.land (Z.shiftr self KIND_SHIFT) KIND_MASK)).

Definition PageDescriptor_permissions (self : PageDescriptor) : MemoryPermissions :=
  wrap8 (Z.land (Z.shiftr self PERMISSIONS_SHIFT) PERMISSIONS_MASK).

Definition PageDescriptor_physical_page (self : PageDescriptor) : GuestPage :=
  wrap32 (Z.land (Z.shiftr self PHYSICAL_PAGE_SHIFT) PHYSICAL_PAGE_MASK).

Definition PageDescriptor_handler_id (self : PageDescriptor) : Z :=
  wrap16 (Z.land (Z.shiftr self AUX_SHIFT) AUX_MASK).

Definition PageDescriptor_generation (self : PageDescriptor) : Z :=
  wrap16 (Z.land (Z.shiftr self GENERATION_SHIFT) GENERATION_MASK).

Definition PageDescriptor_watch (self : PageDescriptor) : WatchFlags :=
  WatchFlags_from_raw (wrap8 (Z.land (Z.shiftr self WATCH_SHIFT) WATCH_MASK)).

Definition PageDescriptor_with_permissions (self : PageDescriptor) (permissions : Z)
  : PageDescriptor :=
  let raw := Z.land self (unot 64 (Z.shiftl PERMISSIONS_MASK PERMISSIONS_SHIFT)) in
  Z.lor raw (Z.shiftl (Z.land permissions PERMISSIONS_MASK) PERMISSIONS_SHIFT).

Definition PageDescriptor_with_generation (self : PageDescriptor) (generation : Z)
  : PageDescriptor :=
  let raw := Z.land self (unot 64 (Z.shiftl GENERATION_MASK GENERATION_SHIFT)) in
  Z.lor raw (Z.shiftl generation GENERATION_SHIFT).

Definition PageDescriptor_with_watch (self : PageDescriptor) (watch : WatchFlags)
  : PageDescriptor :=
  let raw := Z.land self (unot 64 (Z.shiftl WATCH_MASK WATCH_SHIFT)) in
  Z.lor raw (Z.shiftl (WatchFlags_to_raw watch) WATCH_SHIFT).

(** ** The table *)

Record PageTable : Type := mkPageTable {
  entries : gmap Z Z;
  physical_generations : gmap Z Z;
}.

Definition PageTable_new : PageTable := mkPageTable ∅ ∅.

(** A [GUEST_PAGE_COUNT]-entry array indexed by a page; [None] out of range. *)
Definition array_get (m : gmap Z Z) (page : GuestPage) : option Z :=
  if page <? GUEST_PAGE_COUNT then Some (default 0 (m !! page)) else None.

Definition PageTable_get (self : PageTable) (page : GuestPage) : PageDescriptor :=
  default 0 (array_get (entries self) page).

(** [set] stores one entry; the caller has validated the page ([set] panics
    on a page outside the table, see [set_in_range]). *)
Definition PageTable_set (self : PageTable) (page : GuestPage) (descriptor : PageDescriptor)
  : PageTable :=
  mkPageTable (<[page := descriptor]> (entries self)) (physical_generations self).

Definition PageTable_physical_generation (self : PageTable) (physical_page : GuestPage)
  : option Z :=
  array_get (physical_generations self) physical_page.

Definition PageTable_bump_physical_generation (self : PageTable) (physical_page : GuestPage)
  : option Z * PageTable :=
  match array_get (physical_generations self) physical_page with
  | None => (None, self)
  | Some generation =>
    let next_generation := wrap16 (generation + 1) in
    (Some next_generation,
     mkPageTable (entries self)
       (<[physical_page := next_generation]> (physical_generations self)))
  end.

(** The scan that opens the mapping operations: the first valid page. *)
Fixpoint check_unmapped (self : PageTable) (pages : list GuestPage) : result MemoryError unit :=
  match pages with
  | [] => Ok tt
  | page :: pages =>
    if PageDescriptor_is_valid (PageTable_get self page)
    then Err (AlreadyMapped (GuestPage_start_va page))
    else check_unmapped self pages
  end.

(** The scan of [protect]: the first page with no mapping. *)
Fixpoint check_mapped (self : PageTable) (pages : list GuestPage) : result MemoryError unit :=
  match pages with
  | [] => Ok tt
  | page :: pages =>
    if PageDescriptor_is_valid (PageTable_get self page)
    then check_mapped self pages
    else Err (UnmappedErr (GuestPage_start_va page) Read)
  end.

(** The store loop of [map_ram], which numbers the pages as it goes. *)
Fixpoint map_ram_loop (self : PageTable) (physical_start permissions offset : Z)
    (pages : list GuestPage) : result MemoryError unit * PageTable :=
  match pages with
  | [] => (Ok tt, self)
  | page :: pages =>
    match try_from_u 32 offset with
    | None => (Err HostSizeOverflow, self)
    | Some offset32 =>
      match checked_add 32 physical_start offset32 with
      | None => (Err HostSizeOverflow, self)
      | Some physical =>
        match PageTable_physical_generation self physical with
        | None => (Err (PhysicalOutOfRange (GuestPage_start_pa physical)), self)
        | Some generation =>
          map_ram_loop
            (PageTable_set self page (PageDescriptor_ram physical permissions generation))
            physical_start permissions (offset + 1) pages
        end
      end
    end
  end.

Definition PageTable_map_ram (self : PageTable) (range : GuestRange) (physical_start : GuestPage)
    (permissions : MemoryPermissions) : result MemoryError unit * PageTable :=
  match lift_address (GuestRange_require_page_alignment range) with
  | Err e => (Err e, self)
  | Ok _ =>
    match try_from_u 32 (GuestRange_page_count range) with
    | None => (Err HostSizeOverflow, self)
    | Some page_count =>
      match checked_add 32 physical_start page_count with
      | None => (Err (PhysicalOutOfRange (GuestPage_start_pa physical_start)), self)
      | Some physical_end =>
        if GUEST_PAGE_COUNT <? physical_end
        then (Err (PhysicalOutOfRange (GuestPage_start_pa physical_start)), self)
        else match check_unmapped self (GuestRange_pages range) with
             | Err e => (Err e, self)
             | Ok _ => map_ram_loop self physical_start permissions 0 (GuestRange_pages range)
             end
      end
    end
  end.

(** The store loops of the other operations: the same update on every page. *)
Definition store_pages (self : PageTable) (update : PageDescriptor -> PageDescriptor)
    (pages : list GuestPage) : PageTable :=
  foldl (fun table page => PageTable_set table page (update (PageTable_get table page)))
    self pages.

Definition PageTable_map_mmio (self : PageTable) (range : GuestRange) (handler_id : Z)
    (permissions : MemoryPermissions) : result MemoryError unit * PageTable :=
  match lift_address (GuestRange_require_page_alignment range) with
  | Err e => (Err e, self)
  | Ok _ =>
    match check_unmapped self (GuestRange_pages range) with
    | Err e => (Err e, self)
    | Ok _ =>
      (Ok tt, store_pages self (fun _ => PageDescriptor_mmio handler_id permissions 0)
                (GuestRange_pages range))
    end
  end.

Definition PageTable_reserve (self : PageTable) (range : GuestRange)
  : result MemoryError unit * PageTable :=
  match lift_address (GuestRange_require_page_alignment range) with
  | Err e => (Err e, self)
  | Ok _ =>
    match check_unmapped self (GuestRange_pages range) with
    | Err e => (Err e, self)
    | Ok _ =>
      (Ok tt, store_pages self (fun _ => PageDescriptor_reserved 0) (GuestRange_pages range))
    end
  end.

Definition PageTable_set_watch (self : PageTable) (page : GuestPage) (watch : WatchFlags)
  : result MemoryError unit * PageTable :=
  let descriptor := PageTable_get self page in
  if PageDescriptor_is_valid descriptor
  then (Ok tt, PageTable_set self page (PageDescriptor_with_watch descriptor watch))
  else (Err (UnmappedErr (GuestPage_start_va page) Read), self).

Definition PageTable_protect (self : PageTable) (range : GuestRange)
    (permissions : MemoryPermissions) : result MemoryError unit * PageTable :=
  match lift_address (GuestRange_require_page_alignment range) with
  | Err e => (Err e, self)
  | Ok _ =>
    match check_mapped self (GuestRange_pages range) with
    | Err e => (Err e, self)
    | Ok _ =>
      (Ok tt, store_pages self (fun current => PageDescriptor_with_permissions current permissions)
                (GuestRange_pages range))
    end
  end.

Definition PageTable_unmap (self : PageTable) (range : GuestRange)
  : result MemoryError unit * PageTable :=
  match lift_address (GuestRange_require_page_alignment range) with
  | Err e => (Err e, self)
  | Ok _ => (Ok tt, store_pages self (fun _ => 0) (GuestRange_pages range))
  end.

(** [byte_len]: eight descriptor bytes and two generation bytes per page. *)
Definition PageTable_byte_len : Z := GUEST_PAGE_COUNT * (8 + 2).

(** ** Descriptor fields *)

(** Every accessor is a bit field: [w] bits from bit [s]. *)
Definition field (s w x : Z) : Z := Z.land (Z.shiftr x s) (Z.ones w).

Lemma field_range s w x : 0 <= w -> is_u w (field s w x).
Proof. intros. apply is_u_land_r; auto using is_u_ones. Qed.

Lemma watch_raw_masked w : WatchFlags_to_raw w = Z.land (WatchFlags_to_raw w) (Z.ones 3).
Proof. by destruct w as [[|] [|] [|]]. Qed.

Lemma kind_raw_masked k : PageKind_to_raw k = Z.land (PageKind_to_raw k) (Z.ones 3).
Proof. by destruct k. Qed.

Lemma accessor_fields d :
  PageDescriptor_is_valid d = has_bits d (2 ^ 63) /\
  PageDescriptor_kind d = PageKind_from_raw (field 0 3 d) /\
  PageDescriptor_permissions d = field 3 3 d /\
  PageDescriptor_physical_page d = field 8 20 d /\
  PageDescriptor_handler_id d = field 28 16 d /\
  PageDescriptor_generation d = field 44 16 d /\
  PageDescriptor_watch d = WatchFlags_from_raw (field 60 3 d).
Proof.
  repeat split; unfold PageDescriptor_kind, PageDescriptor_permissions,
    PageDescriptor_physical_page, PageDescriptor_handler_id,
    PageDescriptor_generation, PageDescriptor_watch; try f_equal;
    (apply wrap_small; eapply is_u_weaken; [by apply field_range | lia]).
Qed.

Ltac normalise_fields :=
  unfold PageDescriptor_pack, PageDescriptor_with_permissions,
    PageDescriptor_with_generation, PageDescriptor_with_watch;
  change VALID_BIT with (Z.shiftl (Z.ones 1) 63);
  change PHYSICAL_PAGE_MASK with (Z.ones 20); change AUX_MASK with (Z.ones 16);
  change PERMISSIONS_MASK with (Z.ones 3); change WATCH_MASK with (Z.ones 3);
  change GENERATION_MASK with (Z.ones 16);
  change KIND_SHIFT with 0; change PERMISSIONS_SHIFT with 3;
  change PHYSICAL_PAGE_SHIFT with 8; change AUX_SHIFT with 28;
  change GENERATION_SHIFT with 44; change WATCH_SHIFT with 60.

Lemma field_lor s w a b : field s w (Z.lor a b) = Z.lor (field s w a) (field s w b).
Proof. unfold field. by rewrite Z.shiftr_lor, Z.land_lor_distr_l. Qed.

Lemma field_bits s w x i : 0 <= s -> 0 <= w -> 0 <= i ->
  Z.testbit (field s w x) i = (i <? w) && Z.testbit x (i + s).
Proof.
  intros. unfold field. rewrite Z.land_spec, Z.shiftr_spec by lia.
  destruct (Z.ltb_spec i w).
  - rewrite Z.ones_spec_low by lia. apply andb_true_r.
  - rewrite Z.ones_spec_high by lia. apply andb_false_r.
Qed.

Lemma slot_bits n t x i : 0 <= n -> 0 <= t -> 0 <= i ->
  Z.testbit (Z.shiftl (Z.land x (Z.ones n)) t) i =
  (t <=? i) && (i <? t + n) && Z.testbit x (i - t).
Proof.
  intros. rewrite Z.shiftl_spec by lia. destruct (Z.leb_spec t i).
  - rewrite Z.land_spec. destruct (Z.ltb_spec i (t + n)); cbn.
    + rewrite Z.ones_spec_low by lia. apply andb_true_r.
    + rewrite Z.ones_spec_high by lia. apply andb_false_r.
  - by rewrite Z.testbit_neg_r by lia.
Qed.

Lemma field_slot_same s w x : 0 <= s -> 0 <= w ->
  field s w (Z.shiftl (Z.land x (Z.ones w)) s) = Z.land x (Z.ones w).
Proof.
  intros. unfold field. rewrite Z.shiftr_shiftl_l, Z.sub_diag, Z.shiftl_0_r by lia.
  by rewrite <- Z.land_assoc, Z.land_diag.
Qed.

Lemma field_slot_other s w x n t :
  0 <= s -> 0 <= w -> 0 <= n -> 0 <= t -> t + n <= s \/ s + w <= t ->
  field s w (Z.shiftl (Z.land x (Z.ones n)) t) = 0.
Proof.
  intros. apply Z.bits_inj'. intros i Hi.
  rewrite field_bits, slot_bits, Z.bits_0 by lia.
  destruct (Z.ltb_spec i w), (Z.leb_spec t (i + s)), (Z.ltb_spec (i + s) (t + n));
    cbn; lia || done.
Qed.

Lemma field_clear_same s w x : 0 <= s -> 0 <= w -> s + w <= 64 ->
  field s w (Z.land x (unot 64 (Z.shiftl (Z.ones w) s))) = 0.
Proof.
  intros. apply Z.bits_inj'. intros i Hi.
  rewrite field_bits, Z.land_spec, unot_spec, Z.bits_0 by lia.
  destruct (Z.ltb_spec i w); cbn; [|done].
  rewrite Z.shiftl_spec, Z.ones_spec_low by lia.
  destruct (Z.ltb_spec (i + s) 64); [|lia]. apply andb_false_r.
Qed.

Lemma field_clear_other s w x n t :
  0 <= s -> 0 <= w -> 0 <= n -> 0 <= t -> s + w <= 64 -> t + n <= s \/ s + w <= t ->
  field s w (Z.land x (unot 64 (Z.shiftl (Z.ones n) t))) = field s w x.
Proof.
  intros. apply Z.bits_inj'. intros i Hi.
  rewrite !field_bits, Z.land_spec, unot_spec by lia.
  destruct (Z.ltb_spec i w); cbn; [|done].
  rewrite Z.shiftl_spec by lia. destruct (Z.ltb_spec (i + s) 64); [|lia].
  replace (Z.testbit (Z.ones n) (i + s - t)) with false; [apply andb_true_r|].
  symmetry. destruct (decide (i + s - t < 0)); [by apply Z.testbit_neg_r|].
  apply Z.ones_spec_high. lia.
Qed.

(** Reads a field through a stack of slots: its own slot gives the value, the
    others give zero. *)
Ltac solve_field :=
  rewrite ?field_lor;
  repeat first
    [ rewrite field_slot_same by lia
    | rewrite field_slot_other by lia
    | rewrite field_clear_same by lia
    | rewrite field_clear_other by lia ];
  rewrite ?Z.lor_0_r, ?Z.lor_0_l; try done.

(** The fields of a packed descriptor. *)
Lemma pack_fields k p ph aux g w :
  let d := PageDescriptor_pack k p ph aux g w in
  field 63 1 d = 1 /\ field 0 3 d = PageKind_to_raw k /\
  field 3 3 d = Z.land p (Z.ones 3) /\ field 8 20 d = Z.land ph (Z.ones 20) /\
  field 28 16 d = Z.land aux (Z.ones 16) /\ field 44 16 d = Z.land g (Z.ones 16) /\
  field 60 3 d = WatchFlags_to_raw w.
Proof.
  cbn zeta. normalise_fields.
  rewrite (kind_raw_masked k).
  change (Z.ones 1) with (Z.land 1 (Z.ones 1)).
  repeat split; solve_field. symmetry. apply watch_raw_masked.
Qed.

(** What the accessors see of a descriptor. *)
Record DescriptorView : Type := mkDescriptorView {
  view_valid : bool;
  view_kind : PageKind;
  view_permissions : Z;
  view_physical_page : Z;
  view_handler_id : Z;
  view_generation : Z;
  view_watch : WatchFlags;
}.

Definition descriptor_view (d : PageDescriptor) : DescriptorView :=
  mkDescriptorView (PageDescriptor_is_valid d) (PageDescriptor_kind d)
    (PageDescriptor_permissions d) (PageDescriptor_physical_page d)
    (PageDescriptor_handler_id d) (PageDescriptor_generation d) (PageDescriptor_watch d).

Lemma view_of_fields d :
  descriptor_view d =
  mkDescriptorView (field 63 1 d =? 1) (PageKind_from_raw (field 0 3 d)) (field 3 3 d)
    (field 8 20 d) (field 28 16 d) (field 44 16 d) (WatchFlags_from_raw (field 60 3 d)).
Proof.
  unfold descriptor_view.
  destruct (accessor_fields d) as (-> & -> & -> & -> & -> & -> & ->). f_equal.
  rewrite has_bits_pow2, Z.testbit_eqb by lia. unfold field.
  by rewrite Z.land_ones, Z.shiftr_div_pow2 by lia.
Qed.

Lemma kind_from_to_raw k : PageKind_from_raw (PageKind_to_raw k) = k.
Proof. by destruct k. Qed.

Lemma watch_from_to_raw w : WatchFlags_from_raw (WatchFlags_to_raw w) = w.
Proof. by destruct w as [[|] [|] [|]]. Qed.

Lemma pack_view k p ph aux g w :
  descriptor_view (PageDescriptor_pack k p ph aux g w) =
  mkDescriptorView true k (p mod 2 ^ 3) (ph mod 2 ^ 20) (aux mod 2 ^ 16) (g mod 2 ^ 16) w.
Proof.
  rewrite view_of_fields.
  destruct (pack_fields k p ph aux g w) as (-> & -> & -> & -> & -> & -> & ->).
  rewrite kind_from_to_raw, watch_from_to_raw, !Z.land_ones by lia. done.
Qed.

Lemma with_permissions_view d permissions :
  let v := descriptor_view d in
  descriptor_view (PageDescriptor_with_permissions d permissions) =
    mkDescriptorView (view_valid v) (view_kind v) (permissions mod 2 ^ 3)
      (view_physical_page v) (view_handler_id v) (view_generation v) (view_watch v).
Proof.
  cbn zeta. rewrite !view_of_fields. normalise_fields.
  rewrite <- (Z.land_ones permissions 3) by lia.
  cbn [view_valid view_kind view_permissions view_physical_page view_handler_id
       view_generation view_watch]. solve_field.
Qed.

(** packing then reading a descriptor gives every field back; undefined
    permission bits and page bits above 20 are dropped and cannot reach
    another field. *)
Theorem descriptor_pack_roundtrip k (p ph aux g : Z) w :
  descriptor_view (PageDescriptor_pack k p ph aux g w) =
  mkDescriptorView true k (p mod 2 ^ 3) (ph mod 2 ^ 20) (aux mod 2 ^ 16) (g mod 2 ^ 16) w.
Proof. apply pack_view. Qed.

(** the three field updates change their field and nothing else, whatever
    the descriptor held. *)
Theorem descriptor_updates_independent (d : Z) (permissions generation : Z) watch :
  u16 generation ->
  let v := descriptor_view d in
  descriptor_view (PageDescriptor_with_permissions d permissions) =
    mkDescriptorView (view_valid v) (view_kind v) (permissions mod 2 ^ 3)
      (view_physical_page v) (view_handler_id v) (view_generation v) (view_watch v) /\
  descriptor_view (PageDescriptor_with_generation d generation) =
    mkDescriptorView (view_valid v) (view_kind v) (view_permissions v)
      (view_physical_page v) (view_handler_id v) generation (view_watch v) /\
  descriptor_view (PageDescriptor_with_watch d watch) =
    mkDescriptorView (view_valid v) (view_kind v) (view_permissions v)
      (view_physical_page v) (view_handler_id v) (view_generation v) watch.
Proof.
  intros Hg. cbn zeta. rewrite !view_of_fields. normalise_fields.
  rewrite (watch_raw_masked watch).
  assert (generation = Z.land generation (Z.ones 16)) as Hm
    by (rewrite Z.land_ones by lia; symmetry; by apply wrap_small).
  rewrite Hm. rewrite <- (Z.land_ones permissions 3) by lia.
  cbn [view_valid view_kind view_permissions view_physical_page view_handler_id
       view_generation view_watch].
  repeat split; solve_field. by rewrite <- watch_raw_masked, watch_from_to_raw.
Qed.

Lemma descriptor_updates_independent_witness :
  view_physical_page (descriptor_view
    (PageDescriptor_with_permissions (PageDescriptor_ram 0x12345 7 7) 255)) = 0x12345.
Proof.
  destruct (descriptor_updates_independent (PageDescriptor_ram 0x12345 7 7) 255 7 WatchFlags_NONE)
    as [H _]; [unfold is_u; lia|].
  rewrite H. reflexivity.
Defined.

(** ** Table lemmas *)

Definition page_in_range (p : Z) : Prop := 0 <= p < GUEST_PAGE_COUNT.

Lemma get_set t p d q : page_in_range p ->
  PageTable_get (PageTable_set t p d) q = if decide (q = p) then d else PageTable_get t q.
Proof.
  intros Hp. unfold PageTable_get, array_get, PageTable_set. cbn [entries].
  destruct (Z.ltb_spec q GUEST_PAGE_COUNT) as [?|?].
  - case_decide; subst; cbn.
    + by rewrite lookup_insert_eq.
    + by rewrite lookup_insert_ne by done.
  - rewrite decide_False; [done|]. intros ->. destruct Hp. lia.
Qed.

Lemma range_pages_in_range r p : range_wf r -> p ∈ GuestRange_pages r -> page_in_range p.
Proof.
  intros Hr Hp. pose proof Hr as (? & ? & ?).
  rewrite pages_seqZ in Hp by done. apply elem_of_seqZ in Hp.
  unfold GuestRange_page_count, GuestRange_end_exclusive in *.
  rewrite !Z.shiftr_div_pow2, va_page_div in * by done.
  change (2 ^ GUEST_PAGE_SHIFT) with 4096 in *. unfold page_in_range. pages.
Qed.

(** No operation on a validated range reaches the [expect] of [set]. *)
Lemma set_in_range r : range_wf r -> Forall page_in_range (GuestRange_pages r).
Proof. intros Hr. apply list.Forall_forall. intros p Hp. by apply (range_pages_in_range r). Qed.

Lemma range_pages_NoDup r : range_wf r -> NoDup (GuestRange_pages r).
Proof. intros. rewrite pages_seqZ by done. apply NoDup_seqZ. Qed.

Lemma check_unmapped_ok t ps :
  check_unmapped t ps = Ok tt <->
  Forall (fun p => PageDescriptor_is_valid (PageTable_get t p) = false) ps.
Proof.
  induction ps as [|p ps IH]; cbn; [split; [by constructor | done]|].
  rewrite Forall_cons. destruct (PageDescriptor_is_valid (PageTable_get t p)); naive_solver.
Qed.

Lemma check_mapped_ok t ps :
  check_mapped t ps = Ok tt <->
  Forall (fun p => PageDescriptor_is_valid (PageTable_get t p) = true) ps.
Proof.
  induction ps as [|p ps IH]; cbn; [split; [by constructor | done]|].
  rewrite Forall_cons. destruct (PageDescriptor_is_valid (PageTable_get t p)); naive_solver.
Qed.

Lemma store_pages_spec t f ps : NoDup ps -> Forall page_in_range ps ->
  (forall q, PageTable_get (store_pages t f ps) q =
     if decide (q ∈ ps) then f (PageTable_get t q) else PageTable_get t q) /\
  physical_generations (store_pages t f ps) = physical_generations t.
Proof.
  revert t. induction ps as [|p ps IH]; intros t Hnd Hin; cbn.
  { split; [|done]. intros q. rewrite decide_False; [done|]. set_solver. }
  apply NoDup_cons in Hnd as [Hp Hnd]. apply Forall_cons in Hin as [Hpr Hin].
  destruct (IH (PageTable_set t p (f (PageTable_get t p)))) as [Hget Hgen]; [done..|].
  split; [|done]. intros q. rewrite Hget, get_set by done.
  repeat case_decide; subst; set_solver.
Qed.

Lemma physical_generation_some t p : page_in_range p ->
  exists g, PageTable_physical_generation t p = Some g.
Proof.
  intros [? ?]. unfold PageTable_physical_generation, array_get.
  destruct (Z.ltb_spec p GUEST_PAGE_COUNT); [eauto | lia].
Qed.

(** The store loop of [map_ram] on consecutive pages cannot fail, and stores
    consecutive physical pages with their current generation. *)
Lemma map_ram_loop_spec t phys perms off first n :
  0 <= off -> 0 <= phys -> phys + off + Z.of_nat n <= GUEST_PAGE_COUNT ->
  0 <= first -> first + Z.of_nat n <= GUEST_PAGE_COUNT ->
  exists t',
    map_ram_loop t phys perms off (seqZ first (Z.of_nat n)) = (Ok tt, t') /\
    physical_generations t' = physical_generations t /\
    forall q, PageTable_get t' q =
      if decide (first <= q < first + Z.of_nat n)
      then PageDescriptor_ram (phys + off + (q - first)) perms
             (default 0 (PageTable_physical_generation t (phys + off + (q - first))))
      else PageTable_get t q.
Proof.
  revert t off first. induction n as [|n IH]; intros t off first Ho Hp Hpe Hf Hfe.
  { exists t. split; [done|]. split; [done|]. intros q. rewrite decide_False; [done|lia]. }
  rewrite seqZ_cons by lia. cbn [map_ram_loop].
  rewrite page_count_val in *.
  rewrite try_from_u_some, checked_add_some by (unfold is_u; lia).
  destruct (physical_generation_some t (phys + off)) as [g Hg]; [split; pages|].
  rewrite Hg. set (t1 := PageTable_set t first _).
  replace (Z.pred (Z.of_nat (S n))) with (Z.of_nat n) by lia.
  destruct (IH t1 (off + 1) (Z.succ first)) as (t' & Hrun & Hgens & Hget); [lia..|].
  exists t'. split; [done|]. split; [done|]. intros q. rewrite Hget.
  assert (page_in_range first) by (unfold page_in_range; pages).
  destruct (decide (q = first)) as [->|].
  - rewrite decide_False, decide_True by lia. unfold t1.
    rewrite get_set, decide_True by done.
    rewrite Z.sub_diag, Z.add_0_r, Hg. done.
  - destruct (decide (Z.succ first <= q < Z.succ first + Z.of_nat n)).
    + rewrite decide_True by lia.
      replace (phys + (off + 1) + (q - Z.succ first)) with (phys + off + (q - first)) by lia.
      done.
    + rewrite decide_False by lia. unfold t1. by rewrite get_set, decide_False.
Qed.

Lemma map_err_ok {E F A} (f : E -> F) (r : result E A) a : map_err f r = Ok a <-> r = Ok a.
Proof. destruct r; cbn; naive_solver. Qed.

Lemma lift_align_ok r : lift_address (GuestRange_require_page_alignment r) = Ok tt <-> range_aligned r.
Proof. unfold lift_address. rewrite map_err_ok. apply alignment_ok_iff. Qed.

Lemma page_count_bounds r : range_wf r ->
  1 <= GuestRange_page_count r /\
  GuestVa_page (range_start r) + GuestRange_page_count r <= GUEST_PAGE_COUNT /\
  0 <= GuestVa_page (range_start r).
Proof.
  intros (? & ? & ?). unfold GuestRange_page_count, GuestRange_end_exclusive in *.
  rewrite !Z.shiftr_div_pow2, va_page_div by done.
  change (2 ^ GUEST_PAGE_SHIFT) with 4096. pages.
Qed.

(** The frame of a refused operation: an error, the table as it was, and the
    condition for success left to refute. *)
Ltac refused := split; [done|]; split; [split; [done|]|split; done].

(** ** Theorems: the mapping operations *)

Lemma map_ram_spec (t : PageTable) (r : GuestRange) (phys perms : Z) :
  range_wf r -> u32 phys ->
  exists res t', PageTable_map_ram t r phys perms = (res, t') /\
  (res = Ok tt <->
     range_aligned r /\ phys + GuestRange_page_count r <= GUEST_PAGE_COUNT /\
     Forall (fun p => PageDescriptor_is_valid (PageTable_get t p) = false)
       (GuestRange_pages r)) /\
  (res = Ok tt ->
     physical_generations t' = physical_generations t /\
     forall q, PageTable_get t' q =
       if decide (q ∈ GuestRange_pages r)
       then let physical := phys + (q - GuestVa_page (range_start r)) in
            PageDescriptor_ram physical perms
              (default 0 (PageTable_physical_generation t physical))
       else PageTable_get t q) /\
  (res <> Ok tt -> t' = t).
Proof.
  intros Hr Hphys. pose proof (page_count_bounds r Hr) as (Hc1 & Hc2 & Hc3).
  unfold PageTable_map_ram, is_u in *.
  destruct (lift_address (GuestRange_require_page_alignment r)) as [[]|e] eqn:Ea.
  2:{ exists (Err e), t. refused. rewrite <- lift_align_ok, Ea. by intros [? _]. }
  apply lift_align_ok in Ea.
  rewrite page_count_val in *. rewrite try_from_u_some by (unfold is_u; lia).
  destruct (decide (phys + GuestRange_page_count r < 2 ^ 32)).
  2:{ rewrite checked_add_none by lia. eexists (Err _), t. refused. lia. }
  rewrite checked_add_some by done.
  destruct (Z.ltb_spec 1048576 (phys + GuestRange_page_count r)) as [?|?].
  { eexists (Err _), t. refused. lia. }
  destruct (check_unmapped t (GuestRange_pages r)) as [[]|e] eqn:Ec.
  2:{ exists (Err e), t. refused. rewrite <- check_unmapped_ok, Ec. by intros (_ & _ & ?). }
  apply check_unmapped_ok in Ec.
  destruct (map_ram_loop_spec t phys perms 0 (GuestVa_page (range_start r))
              (Z.to_nat (GuestRange_page_count r))) as (t' & Hrun & Hgens & Hget);
    [pages..|].
  rewrite Z2Nat.id in * by lia. rewrite <- pages_seqZ in Hrun by done.
  exists (Ok tt), t'. split; [done|]. 
  split; [split; [intros _; split_and!; done || lia | done]|]. split; [|done].
  intros _. split; [done|]. intros q. rewrite Hget, pages_seqZ, Z.add_0_r by done.
  apply decide_ext. by rewrite elem_of_seqZ.
Qed.

(** [map_ram] succeeds exactly on an aligned range whose pages are all
    unmapped and whose physical pages lie inside the 32-bit space; it then maps
    page [i] of the range to physical page [physical_start + i] with that
    page's current generation, and leaves every other entry and every
    generation alone. *)
Theorem map_ram_correct (t : PageTable) (r : GuestRange) (phys perms : Z) :
  range_wf r -> u32 phys ->
  exists res t', PageTable_map_ram t r phys perms = (res, t') /\
  (res = Ok tt <->
     range_aligned r /\ phys + GuestRange_page_count r <= GUEST_PAGE_COUNT /\
     Forall (fun p => PageDescriptor_is_valid (PageTable_get t p) = false)
       (GuestRange_pages r)) /\
  (res = Ok tt ->
     physical_generations t' = physical_generations t /\
     forall q, PageTable_get t' q =
       if decide (q ∈ GuestRange_pages r)
       then let physical := phys + (q - GuestVa_page (range_start r)) in
            PageDescriptor_ram physical perms
              (default 0 (PageTable_physical_generation t physical))
       else PageTable_get t q) /\
  (res <> Ok tt -> t' = t).
Proof. apply map_ram_spec. Qed.

Lemma map_ram_correct_witness :
  exists t', PageTable_map_ram PageTable_new (mkGuestRange 0x2000 0x2000) 7 1 = (Ok tt, t') /\
    PageDescriptor_physical_page (PageTable_get t' 3) = 8.
Proof.
  destruct (map_ram_correct PageTable_new (mkGuestRange 0x2000 0x2000) 7 1)
    as (res & t' & Hrun & Hok & Hget & _).
  - unfold range_wf, GuestRange_end_exclusive, is_u; cbn; lia.
  - unfold is_u; lia.
  - assert (res = Ok tt) as ->.
    { apply Hok. split; [by split|]. split; [by vm_compute|]. by repeat constructor. }
    exists t'. split; [exact Hrun|]. destruct (Hget eq_refl) as [_ Hq]. by rewrite Hq.
Defined.

Lemma protect_spec (t : PageTable) (r : GuestRange) (perms : Z) :
  range_wf r ->
  exists res t', PageTable_protect t r perms = (res, t') /\
  (res = Ok tt <->
     range_aligned r /\
     Forall (fun p => PageDescriptor_is_valid (PageTable_get t p) = true)
       (GuestRange_pages r)) /\
  (res = Ok tt ->
     physical_generations t' = physical_generations t /\
     forall q, PageTable_get t' q =
       if decide (q ∈ GuestRange_pages r)
       then PageDescriptor_with_permissions (PageTable_get t q) perms
       else PageTable_get t q) /\
  (res <> Ok tt -> t' = t).
Proof.
  intros Hr. unfold PageTable_protect.
  destruct (lift_address (GuestRange_require_page_alignment r)) as [[]|e] eqn:Ea.
  2:{ exists (Err e), t. refused. rewrite <- lift_align_ok, Ea. by intros [? _]. }
  apply lift_align_ok in Ea.
  destruct (check_mapped t (GuestRange_pages r)) as [[]|e] eqn:Ec.
  2:{ exists (Err e), t. refused. rewrite <- check_mapped_ok, Ec. by intros (_ & ?). }
  apply check_mapped_ok in Ec. eexists (Ok tt), _. split; [done|].
  split; [split; [by intros | done]|]. split; [|done].
  intros _. edestruct store_pages_spec as [Hget Hgen];
    [by apply range_pages_NoDup | by apply set_in_range |]. by split.
Qed.

(** [protect] succeeds exactly on an aligned range whose pages are all
    mapped; it rewrites the permissions of those pages and nothing else, and a
    refused call leaves the table as it was. *)
Theorem protect_correct (t : PageTable) (r : GuestRange) (perms : Z) :
  range_wf r ->
  exists res t', PageTable_protect t r perms = (res, t') /\
  (res = Ok tt <->
     range_aligned r /\
     Forall (fun p => PageDescriptor_is_valid (PageTable_get t p) = true)
       (GuestRange_pages r)) /\
  (res = Ok tt ->
     physical_generations t' = physical_generations t /\
     forall q, PageTable_get t' q =
       if decide (q ∈ GuestRange_pages r)
       then PageDescriptor_with_permissions (PageTable_get t q) perms
       else PageTable_get t q) /\
  (res <> Ok tt -> t' = t).
Proof. apply protect_spec. Qed.

Lemma protect_correct_witness :
  exists t', PageTable_protect PageTable_new (mkGuestRange 0x1000 0x1000) 1 =
    (Err (UnmappedErr 0x1000 Read), t') /\ t' = PageTable_new.
Proof.
  destruct (protect_correct PageTable_new (mkGuestRange 0x1000 0x1000) 1)
    as (res & t' & Hrun & _ & _ & Herr).
  - unfold range_wf, GuestRange_end_exclusive, is_u; cbn; lia.
  - exists t'. assert (res = Err (UnmappedErr 0x1000 Read)) as ->
      by (vm_compute in Hrun; congruence).
    split; [exact Hrun|]. by apply Herr.
Defined.

(** Every stored descriptor is zero or carries the valid bit: what the
    operations maintain from [PageTable::new]. *)
Definition table_wf (t : PageTable) : Prop :=
  forall q, PageTable_get t q = 0 \/ PageDescriptor_is_valid (PageTable_get t q) = true.

(** The operations on a table, as one step of its life. *)
Inductive table_step : PageTable -> PageTable -> Prop :=
| step_map_ram t r phys perms res t' :
    range_wf r -> u32 phys -> PageTable_map_ram t r phys perms = (res, t') -> table_step t t'
| step_map_mmio t r id perms res t' :
    range_wf r -> PageTable_map_mmio t r id perms = (res, t') -> table_step t t'
| step_reserve t r res t' :
    range_wf r -> PageTable_reserve t r = (res, t') -> table_step t t'
| step_set_watch t p w res t' :
    0 <= p -> PageTable_set_watch t p w = (res, t') -> table_step t t'
| step_protect t r perms res t' :
    range_wf r -> PageTable_protect t r perms = (res, t') -> table_step t t'
| step_unmap t r res t' :
    range_wf r -> PageTable_unmap t r = (res, t') -> table_step t t'
| step_bump t p res t' :
    PageTable_bump_physical_generation t p = (res, t') -> table_step t t'.

Lemma pack_valid k p ph aux g w :
  PageDescriptor_is_valid (PageDescriptor_pack k p ph aux g w) = true.
Proof.
  pose proof (f_equal view_valid (view_of_fields (PageDescriptor_pack k p ph aux g w))) as H.
  cbn in H. rewrite H. destruct (pack_fields k p ph aux g w) as (-> & _). done.
Qed.

Lemma with_fields_valid d :
  (forall p, PageDescriptor_is_valid (PageDescriptor_with_permissions d p) =
     PageDescriptor_is_valid d) /\
  (forall w, PageDescriptor_is_valid (PageDescriptor_with_watch d w) =
     PageDescriptor_is_valid d).
Proof.
  assert (forall x, PageDescriptor_is_valid x = (field 63 1 x =? 1)) as Hv
    by (intros x; apply (f_equal view_valid (view_of_fields x))).
  split; intros v; rewrite !Hv; f_equal; normalise_fields; [|rewrite (watch_raw_masked v)];
    solve_field.
Qed.

Lemma store_pages_wf t f ps :
  NoDup ps -> Forall page_in_range ps -> table_wf t ->
  (forall q, q ∈ ps -> f (PageTable_get t q) = 0 \/
     PageDescriptor_is_valid (f (PageTable_get t q)) = true) ->
  table_wf (store_pages t f ps).
Proof.
  intros Hnd Hin Hwf Hf q. destruct (store_pages_spec t f ps) as [Hget _]; [done..|].
  rewrite Hget. case_decide; auto.
Qed.

Lemma table_step_wf t t' : table_step t t' -> table_wf t -> table_wf t'.
Proof.
  intros Hstep Hwf. destruct Hstep as
    [t r phys perms res t' Hr Hp Hrun|t r id perms res t' Hr Hrun|t r res t' Hr Hrun
    |t p w res t' Hp Hrun|t r perms res t' Hr Hrun|t r res t' Hr Hrun|t p res t' Hrun].
  - destruct (map_ram_spec t r phys perms) as (res' & t'' & Hrun' & _ & Hok & Herr); [done..|].
    rewrite Hrun in Hrun'. simplify_eq. destruct (decide (res' = Ok tt)) as [->|Hne].
    + intros q. destruct (Hok eq_refl) as [_ Hget]. rewrite Hget.
      case_decide; [right; apply pack_valid | apply Hwf].
    + by rewrite Herr.
  - unfold PageTable_map_mmio in Hrun. repeat case_match; simplify_eq; try done.
    apply store_pages_wf; [by apply range_pages_NoDup | by apply set_in_range | done |].
    intros. right. exact (pack_valid Mmio perms 0 id 0 WatchFlags_NONE).
  - unfold PageTable_reserve in Hrun. repeat case_match; simplify_eq; try done.
    apply store_pages_wf; [by apply range_pages_NoDup | by apply set_in_range | done |].
    intros. right. exact (pack_valid Reserved 0 0 0 0 WatchFlags_NONE).
  - unfold PageTable_set_watch in Hrun. case_match eqn:Hv; simplify_eq; [|done].
    assert (page_in_range p).
    { split; [done|]. unfold PageTable_get, array_get in Hv.
      destruct (Z.ltb_spec p GUEST_PAGE_COUNT); [done | by vm_compute in Hv]. }
    intros q. rewrite get_set by done.
    case_decide; [right; by rewrite (proj2 (with_fields_valid _)) | apply Hwf].
  - destruct (protect_spec t r perms) as (res' & t'' & Hrun' & Hiff & Hok & Herr); [done..|].
    rewrite Hrun in Hrun'. simplify_eq. destruct (decide (res' = Ok tt)) as [->|Hne].
    + destruct (proj1 Hiff eq_refl) as [_ Hall]. destruct (Hok eq_refl) as [_ Hget].
      intros q. rewrite Hget. case_decide as Hq; [|apply Hwf].
      right. rewrite (proj1 (with_fields_valid _)).
      rewrite list.Forall_forall in Hall. by apply Hall.
    + by rewrite Herr.
  - unfold PageTable_unmap in Hrun. case_match; simplify_eq; [|done].
    apply store_pages_wf; auto using range_pages_NoDup, set_in_range.
  - unfold PageTable_bump_physical_generation in Hrun. case_match; by simplify_eq.
Qed.

(** in every table reachable from [PageTable::new] by any sequence of
    table operations, an entry is zero or valid: no operation leaves stale
    mapping bits behind an invalid entry. *)
Theorem table_reachable_wf (t : PageTable) :
  rtc table_step PageTable_new t -> table_wf t.
Proof.
  intros Hreach. assert (table_wf PageTable_new) as Hnew.
  { intros q. left. unfold PageTable_get, array_get. by case_match. }
  induction Hreach as [|t t1 t2 Hstep _ IH] in Hnew |- *; eauto using table_step_wf.
Qed.

Lemma table_reachable_wf_witness :
  table_wf (PageTable_bump_physical_generation PageTable_new 7).2.
Proof.
  apply (table_reachable_wf (PageTable_bump_physical_generation PageTable_new 7).2).
  apply rtc_once. by apply (step_bump PageTable_new 7 (Some 1)).
Defined.

(** mapping a range and unmapping it gives back the table one started
    from, seen through every lookup and every generation. *)
Theorem map_unmap_roundtrip (t t1 t2 : PageTable) (r : GuestRange) (phys perms : Z) :
  range_wf r -> u32 phys -> table_wf t ->
  PageTable_map_ram t r phys perms = (Ok tt, t1) ->
  PageTable_unmap t1 r = (Ok tt, t2) ->
  (forall q, PageTable_get t2 q = PageTable_get t q) /\
  (forall p, PageTable_physical_generation t2 p = PageTable_physical_generation t p).
Proof.
  intros Hr Hp Hwf Hmap Hunmap.
  destruct (map_ram_spec t r phys perms) as (res' & t'' & Hrun' & Hiff & Hok & _); [done..|].
  rewrite Hmap in Hrun'. simplify_eq.
  destruct (proj1 Hiff eq_refl) as (_ & _ & Hinv). destruct (Hok eq_refl) as [Hgens Hget].
  unfold PageTable_unmap in Hunmap. case_match; simplify_eq.
  destruct (store_pages_spec t'' (fun _ => 0) (GuestRange_pages r)) as [Hget2 Hgens2];
    [by apply range_pages_NoDup | by apply set_in_range |].
  split.
  - intros q. rewrite Hget2, Hget. case_decide as Hq; [|done].
    rewrite list.Forall_forall in Hinv. specialize (Hinv q Hq).
    destruct (Hwf q); congruence.
  - intros p. unfold PageTable_physical_generation. by rewrite Hgens2, Hgens.
Qed.

Lemma map_unmap_roundtrip_witness :
  let r := mkGuestRange 0x2000 0x1000 in
  let t1 := (PageTable_map_ram PageTable_new r 7 3).2 in
  let t2 := (PageTable_unmap t1 r).2 in
  PageTable_get t1 2 <> PageTable_get PageTable_new 2 /\
  PageTable_get t2 2 = PageTable_get PageTable_new 2.
Proof.
  cbn zeta. split; [by vm_compute|].
  refine (proj1 (map_unmap_roundtrip PageTable_new
    (PageTable_map_ram PageTable_new (mkGuestRange 0x2000 0x1000) 7 3).2 _
    (mkGuestRange 0x2000 0x1000) 7 3 _ _ _ _ _) 2).
  - unfold range_wf, GuestRange_end_exclusive, is_u; cbn; lia.
  - unfold is_u; lia.
  - intros q. left. unfold PageTable_get, array_get. by case_match.
  - reflexivity.
  - reflexivity.
Defined.

Lemma bump_spec t p : page_in_range p ->
  exists g, PageTable_physical_generation t p = Some g /\
  PageTable_bump_physical_generation t p =
    (Some (wrap16 (g + 1)),
     mkPageTable (entries t) (<[p := wrap16 (g + 1)]> (physical_generations t))).
Proof.
  intros Hp. destruct (physical_generation_some t p Hp) as [g Hg].
  exists g. split; [done|]. unfold PageTable_bump_physical_generation.
  unfold PageTable_physical_generation in Hg. by rewrite Hg.
Qed.

Lemma generation_insert t e p g q : page_in_range p ->
  PageTable_physical_generation (mkPageTable e (<[p := g]> (physical_generations t))) q =
  if decide (q = p) then Some g else PageTable_physical_generation t q.
Proof.
  intros [? ?]. unfold PageTable_physical_generation, array_get. cbn [physical_generations].
  case_decide as Hq.
  - subst. rewrite (proj2 (Z.ltb_lt _ _)), lookup_insert_eq by done. done.
  - by rewrite lookup_insert_ne by done.
Qed.
