(* ===== verification/Allocator.v ===== *)
(** * The physical page allocator

    Models [exbawks-memory/src/allocator.rs]: a bump cursor with a pool of
    freed runs in front of it.  The pool is a [BTreeMap] from a run's first
    page to its length: an association list sorted by key. *)

From S2P Require Import Prelude GuestTypes PageTable.

(** ** Ordered maps: the [BTreeMap] operations the allocator uses *)

Abbreviation runs := (list (Z * Z)) (only parsing).

(** [insert]: replaces an equal key. *)
Fixpoint bt_insert (k v : Z) (m : runs) : runs :=
  match m with
  | [] => [(k, v)]
  | (k', v') :: rest =>
    if k <? k' then (k, v) :: m
    else if k =? k' then (k, v) :: rest
    else (k', v') :: bt_insert k v rest
  end.

Fixpoint bt_remove (k : Z) (m : runs) : runs :=
  match m with
  | [] => []
  | (k', v') :: rest => if k =? k' then rest else (k', v') :: bt_remove k rest
  end.

Fixpoint bt_get (k : Z) (m : runs) : option Z :=
  match m with
  | [] => None
  | (k', v') :: rest => if k =? k' then Some v' else bt_get k rest
  end.

(** [iter().find(|entry| *entry.1 >= requested)]: the first run that fits. *)
Fixpoint bt_find_fit (requested : Z) (m : runs) : option (Z * Z) :=
  match m with
  | [] => None
  | (k, v) :: rest => if requested <=? v then Some (k, v) else bt_find_fit requested rest
  end.

(** [range(..=k).next_back()]: the last entry with a key at most [k]. *)
Fixpoint bt_last_le (k : Z) (m : runs) : option (Z * Z) :=
  match m with
  | [] => None
  | (k', v') :: rest =>
    if k' <=? k
    then match bt_last_le k rest with
         | Some e => Some e
         | None => Some (k', v')
         end
    else None
  end.

(** ** The allocator *)

Record PhysicalAllocator : Type := mkPhysicalAllocator {
  next_page : Z;
  alloc_page_count : Z;
  free_runs : runs;
}.

Definition PhysicalAllocator_new (page_count : Z) : PhysicalAllocator :=
  mkPhysicalAllocator 0 page_count [].

Definition with_free_runs (self : PhysicalAllocator) (m : runs) : PhysicalAllocator :=
  mkPhysicalAllocator (next_page self) (alloc_page_count self) m.

Definition PhysicalAllocator_allocate (self : PhysicalAllocator) (requested_pages : Z)
  : result MemoryError GuestPage * PhysicalAllocator :=
  match bt_find_fit requested_pages (free_runs self) with
  | Some (start, length) =>
    let m := bt_remove start (free_runs self) in
    let m := if requested_pages <? length
             then bt_insert (start + requested_pages) (length - requested_pages) m
             else m in
    (Ok start, with_free_runs self m)
  | None =>
    match checked_add 32 (next_page self) requested_pages with
    | None => (Err (OutOfPhysicalMemory requested_pages), self)
    | Some bound =>
      if alloc_page_count self <? bound
      then (Err (OutOfPhysicalMemory requested_pages), self)
      else (Ok (next_page self),
            mkPhysicalAllocator bound (alloc_page_count self) (free_runs self))
    end
  end.

(** The tail of [free]: swallow a run that begins at [bound], then insert. *)
Definition swallow_following (m : runs) (bound : Z) : runs * Z :=
  match bt_get bound m with
  | Some following => (bt_remove bound m, saturating_add 32 bound following)
  | None => (m, bound)
  end.

Definition free_insert (self : PhysicalAllocator) (begin bound : Z) : PhysicalAllocator :=
  let '(m, bound) := swallow_following (free_runs self) bound in
  if begin <? bound then with_free_runs self (bt_insert begin (bound - begin) m)
  else with_free_runs self m.

Definition PhysicalAllocator_free (self : PhysicalAllocator) (start : GuestPage) (page_count : Z)
  : PhysicalAllocator :=
  if (page_count =? 0) || (next_page self <=? start) then self else
  let begin := start in
  let bound := Z.min (saturating_add 32 start page_count) (next_page self) in
  match bt_last_le begin (free_runs self) with
  | Some (previous, length) =>
    let previous_end := saturating_add 32 previous length in
    if bound <=? previous_end then self else
    let begin := if begin <? previous_end then previous_end else begin in
    if (previous_end =? begin) && bool_decide (is_Some (bt_get previous (free_runs self)))
    then let '(m, bound) := swallow_following (free_runs self) bound in
         with_free_runs self (bt_insert previous (bound - previous) m)
    else free_insert self begin bound
  | None => free_insert self begin bound
  end.

Definition PhysicalAllocator_rollback_last (self : PhysicalAllocator) (start : GuestPage)
    (page_count : Z) : PhysicalAllocator :=
  let bound := saturating_add 32 start page_count in
  if next_page self =? bound
  then mkPhysicalAllocator start (alloc_page_count self) (free_runs self)
  else PhysicalAllocator_free self start page_count.

(** ** The abstract contract: a set of available pages *)

Definition in_runs (m : runs) (p : Z) : Prop :=
  exists s l, (s, l) ∈ m /\ s <= p < s + l.

(** A page is available when a freed run holds it or the cursor has not
    reached it. *)
Definition available (a : PhysicalAllocator) (p : Z) : Prop :=
  in_runs (free_runs a) p \/ next_page a <= p < alloc_page_count a.

(** Runs in increasing order, non-empty, separated by at least one page (so
    adjacent runs are always coalesced), inside [lo, hi). *)
Fixpoint runs_ok (lo : Z) (m : runs) (hi : Z) : Prop :=
  match m with
  | [] => True
  | (s, l) :: rest => lo <= s /\ 0 < l /\ s + l <= hi /\ runs_ok (s + l + 1) rest hi
  end.

Definition alloc_wf (a : PhysicalAllocator) : Prop :=
  0 <= next_page a <= alloc_page_count a /\ alloc_page_count a < 2 ^ 32 /\
  runs_ok 0 (free_runs a) (next_page a).

(** ** Lemmas on ordered maps *)

Definition keys_lt (k : Z) (m : runs) : Prop := Forall (fun e => e.1 < k) m.
Definition keys_gt (k : Z) (m : runs) : Prop := Forall (fun e => k < e.1) m.

Lemma bt_insert_mid k v B A : keys_lt k B -> keys_gt k A ->
  bt_insert k v (B ++ A) = B ++ (k, v) :: A.
Proof.
  intros HB HA. induction HB as [|[k' v'] B Hk HB IH]; cbn.
  - destruct A as [|[k' v'] A]; [done|]. apply Forall_cons in HA as [Hk _]. cbn in *.
    by rewrite (proj2 (Z.ltb_lt _ _)).
  - cbn in Hk. rewrite (proj2 (Z.ltb_ge _ _)), (proj2 (Z.eqb_neq _ _)) by lia. by rewrite IH.
Qed.

Lemma bt_insert_replace k v v0 B A : keys_lt k B ->
  bt_insert k v (B ++ (k, v0) :: A) = B ++ (k, v) :: A.
Proof.
  intros HB. induction HB as [|[k' v'] B Hk HB IH]; cbn.
  - by rewrite Z.ltb_irrefl, Z.eqb_refl.
  - cbn in Hk. rewrite (proj2 (Z.ltb_ge _ _)), (proj2 (Z.eqb_neq _ _)) by lia. by rewrite IH.
Qed.

Lemma bt_remove_mid k v B A : keys_lt k B -> bt_remove k (B ++ (k, v) :: A) = B ++ A.
Proof.
  intros HB. induction HB as [|[k' v'] B Hk HB IH]; cbn.
  - by rewrite Z.eqb_refl.
  - cbn in Hk. rewrite (proj2 (Z.eqb_neq _ _)) by lia. by rewrite IH.
Qed.

Lemma bt_get_mid k v B A : keys_lt k B -> bt_get k (B ++ (k, v) :: A) = Some v.
Proof.
  intros HB. induction HB as [|[k' v'] B Hk HB IH]; cbn.
  - by rewrite Z.eqb_refl.
  - cbn in Hk. by rewrite (proj2 (Z.eqb_neq _ _)) by lia.
Qed.

Lemma bt_get_none k B A : keys_lt k B -> keys_gt k A -> bt_get k (B ++ A) = None.
Proof.
  intros HB HA. induction HB as [|[k' v'] B Hk HB IH]; cbn.
  - induction HA as [|[k' v'] A Hk HA IH]; cbn; [done|]. cbn in Hk.
    by rewrite (proj2 (Z.eqb_neq _ _)) by lia.
  - cbn in Hk. by rewrite (proj2 (Z.eqb_neq _ _)) by lia.
Qed.

Lemma bt_last_le_app k B A : Forall (fun e => e.1 <= k) B -> keys_gt k A ->
  bt_last_le k (B ++ A) = last B.
Proof.
  intros HB HA. induction HB as [|[k' v'] B Hk HB IH].
  - destruct A as [|[k' v'] A]; [done|]. apply Forall_cons in HA as [Hk _]. cbn in *.
    by rewrite (proj2 (Z.leb_gt _ _)) by lia.
  - cbn in Hk. rewrite last_cons. cbn [app bt_last_le].
    by rewrite (proj2 (Z.leb_le _ _)), IH by lia.
Qed.

Lemma bt_find_fit_spec n m s l : bt_find_fit n m = Some (s, l) ->
  exists B A, m = B ++ (s, l) :: A /\ n <= l.
Proof.
  induction m as [|[k v] m IH]; cbn; [done|]. destruct (Z.leb_spec n v).
  - intros. simplify_eq. by exists [], m.
  - intros (B & A & -> & ?)%IH. by exists ((k, v) :: B), A.
Qed.

Lemma bt_find_fit_none n m : bt_find_fit n m = None <-> Forall (fun e => e.2 < n) m.
Proof.
  induction m as [|[k v] m IH]; cbn; [split; [by constructor | done]|].
  rewrite Forall_cons, <- IH. cbn. destruct (Z.leb_spec n v); naive_solver lia.
Qed.

(** ** Lemmas on runs *)

Fixpoint runs_end (lo : Z) (m : runs) : Z :=
  match m with
  | [] => lo
  | (s, l) :: rest => runs_end (s + l + 1) rest
  end.

Lemma runs_ok_app lo B A hi :
  runs_ok lo (B ++ A) hi <-> runs_ok lo B hi /\ runs_ok (runs_end lo B) A hi.
Proof.
  revert lo. induction B as [|[s l] B IH]; intros lo; cbn; [naive_solver|].
  rewrite IH. naive_solver.
Qed.

Lemma runs_ok_weaken lo lo' m hi hi' :
  runs_ok lo m hi -> lo' <= lo -> hi <= hi' -> runs_ok lo' m hi'.
Proof.
  revert lo lo'. induction m as [|[s l] m IH]; intros lo lo'; cbn; [done|].
  intros (? & ? & ? & ?) ? ?. split_and!; [lia..|]. eapply IH; eauto. lia.
Qed.

Lemma runs_ok_bounds lo m hi s l : runs_ok lo m hi -> (s, l) ∈ m -> lo <= s /\ 0 < l /\ s + l <= hi.
Proof.
  revert lo. induction m as [|[s' l'] m IH]; intros lo Hok Hin; [set_solver|].
  cbn in Hok. destruct Hok as (? & ? & ? & Hok). apply elem_of_cons in Hin as [Heq|Hin].
  - simplify_eq. lia.
  - specialize (IH _ Hok Hin). lia.
Qed.

Lemma runs_end_ge lo B hi : runs_ok lo B hi -> lo <= runs_end lo B.
Proof.
  revert lo. induction B as [|[s l] B IH]; intros lo; cbn; [lia|].
  intros (? & ? & ? & Hok). specialize (IH _ Hok). lia.
Qed.

Lemma runs_ok_keys_lt lo B hi : runs_ok lo B hi -> keys_lt (runs_end lo B) B.
Proof.
  revert lo. induction B as [|[s l] B IH]; intros lo; cbn; [by constructor|].
  intros (? & ? & ? & Hok). constructor; [|by apply IH]. cbn.
  pose proof (runs_end_ge _ _ _ Hok). lia.
Qed.

Lemma runs_ok_keys_gt lo A hi k : runs_ok lo A hi -> k < lo -> keys_gt k A.
Proof.
  intros Hok ?. apply list.Forall_forall. intros [s l] Hin.
  apply (runs_ok_bounds _ _ _ _ _ Hok) in Hin. cbn. lia.
Qed.

Lemma keys_lt_weaken k k' B : keys_lt k B -> k <= k' -> keys_lt k' B.
Proof. intros. eapply Forall_impl; [done|]. intros [] ?. cbn in *. lia. Qed.

Lemma in_runs_nil p : in_runs [] p <-> False.
Proof. split; [|done]. intros (s & l & Hin & _). set_solver. Qed.

Lemma in_runs_cons s l m p : in_runs ((s, l) :: m) p <-> s <= p < s + l \/ in_runs m p.
Proof.
  unfold in_runs. split.
  - intros (s' & l' & [?|Hin]%elem_of_cons & ?); simplify_eq; eauto.
  - intros [?|(s' & l' & Hin & ?)].
    + exists s, l. split; [by left | done].
    + exists s', l'. split; [by right | done].
Qed.

Lemma in_runs_app B A p : in_runs (B ++ A) p <-> in_runs B p \/ in_runs A p.
Proof. unfold in_runs. set_solver. Qed.

Lemma in_runs_bounds lo m hi p : runs_ok lo m hi -> in_runs m p -> lo <= p < hi.
Proof. intros Hok (s & l & Hin & ?). pose proof (runs_ok_bounds _ _ _ _ _ Hok Hin). lia. Qed.

Lemma in_runs_before lo B hi p : runs_ok lo B hi -> in_runs B p -> p < runs_end lo B - 1.
Proof.
  revert lo. induction B as [|[s l] B IH]; intros lo; cbn; [by rewrite in_runs_nil|].
  intros (? & ? & ? & Hok). rewrite in_runs_cons. intros [?|Hin].
  - pose proof (runs_end_ge _ _ _ Hok). lia.
  - by eapply IH.
Qed.

Lemma runs_ok_middle lo B s l A hi : runs_ok lo (B ++ (s, l) :: A) hi ->
  runs_ok lo B hi /\ runs_end lo B <= s /\ 0 < l /\ s + l <= hi /\
  runs_ok (s + l + 1) A hi /\ keys_lt s B /\ keys_gt (s + l) A.
Proof.
  rewrite runs_ok_app. cbn. intros (HB & ? & ? & ? & HA). split_and!; try done.
  - eapply keys_lt_weaken; [by eapply runs_ok_keys_lt | done].
  - eapply runs_ok_keys_gt; [done | lia].
Qed.

(** Consecutive freed pages lie in one run: the pool is coalesced. *)
Lemma consecutive_in_one_run lo m hi s n : runs_ok lo m hi -> 0 < n ->
  (forall p, s <= p < s + n -> in_runs m p) ->
  exists k v, (k, v) ∈ m /\ k <= s /\ s + n <= k + v.
Proof.
  revert lo. induction m as [|[k v] m IH]; intros lo Hok Hn Hin.
  { exfalso. apply (in_runs_nil s), Hin. lia. }
  cbn in Hok. destruct Hok as (? & ? & ? & Hok).
  destruct (decide (s < k + v)).
  - exists k, v. split; [by left|].
    pose proof (Hin s ltac:(lia)) as [?|Hs]%in_runs_cons.
    + split; [lia|]. destruct (decide (s + n <= k + v)); [done|]. exfalso.
      pose proof (Hin (k + v) ltac:(lia)) as [?|Hk]%in_runs_cons; [lia|].
      apply (in_runs_bounds _ _ _ _ Hok) in Hk. lia.
    + apply (in_runs_bounds _ _ _ _ Hok) in Hs. lia.
  - destruct (IH (k + v + 1)) as (k' & v' & ? & ? & ?); [done | done | |].
    + intros p Hp. pose proof (Hin p ltac:(lia)) as [?|?]%in_runs_cons; [lia | done].
    + exists k', v'. split; [by right | done].
Qed.

(** The behaviour of [allocate] on a well-formed allocator, branch by branch. *)
Lemma allocate_spec a n : alloc_wf a -> 0 < n ->
  match PhysicalAllocator_allocate a n with
  | (Ok s, a') =>
    alloc_wf a' /\ alloc_page_count a' = alloc_page_count a /\
    next_page a <= next_page a' /\ 0 <= s /\ s + n <= next_page a' /\
    (forall p, s <= p < s + n -> available a p) /\
    (forall p, available a' p <-> available a p /\ ~ (s <= p < s + n))
  | (Err e, a') =>
    a' = a /\ e = OutOfPhysicalMemory n /\ alloc_page_count a < next_page a + n /\
    forall s, ~ (forall p, s <= p < s + n -> in_runs (free_runs a) p)
  end.
Proof.
  intros (Hnext & Hcount & Hruns) Hn. unfold PhysicalAllocator_allocate.
  destruct (bt_find_fit n (free_runs a)) as [[s l]|] eqn:Hfit.
  - apply bt_find_fit_spec in Hfit as (B & A & Hm & Hle). rewrite Hm in *.
    apply runs_ok_middle in Hruns as (HB & Hend & Hl & Hhi & HA & HkB & HkA).
    pose proof (runs_end_ge _ _ _ HB).
    rewrite bt_remove_mid by done.
    destruct (Z.ltb_spec n l).
    + rewrite bt_insert_mid by (eapply keys_lt_weaken + eapply runs_ok_keys_gt; done || lia).
      unfold alloc_wf, available. cbn [with_free_runs next_page alloc_page_count free_runs].
      rewrite Hm, runs_ok_app. cbn [runs_ok]. split_and!; try done || lia.
      { by replace (s + n + (l - n) + 1) with (s + l + 1) by lia. }
      * intros p Hp. left. apply in_runs_app. right. apply in_runs_cons. left. lia.
      * intros p. rewrite !in_runs_app, !in_runs_cons.
        assert (in_runs B p -> p < s) by (intros ?%(in_runs_before _ _ _ _ HB); lia).
        assert (in_runs A p -> s + l < p) by (intros ?%(in_runs_bounds _ _ _ _ HA); lia).
        destruct (decide (s <= p < s + n)); naive_solver lia.
    + assert (n = l) as -> by lia.
      unfold alloc_wf, available. cbn [with_free_runs next_page alloc_page_count free_runs].
      rewrite Hm, runs_ok_app. split_and!; try done || lia.
      * eapply runs_ok_weaken; [done | lia..].
      * intros p Hp. left. apply in_runs_app. right. apply in_runs_cons. left. lia.
      * intros p. rewrite !in_runs_app, !in_runs_cons.
        assert (in_runs B p -> p < s) by (intros ?%(in_runs_before _ _ _ _ HB); lia).
        assert (in_runs A p -> s + l < p) by (intros ?%(in_runs_bounds _ _ _ _ HA); lia).
        destruct (decide (s <= p < s + l)); naive_solver lia.
  - apply bt_find_fit_none in Hfit.
    assert (forall s, ~ (forall p, s <= p < s + n -> in_runs (free_runs a) p)) as Hnone.
    { intros s Hs.
      destruct (consecutive_in_one_run _ _ _ _ _ Hruns Hn Hs) as (k & v & Hin & ? & ?).
      rewrite list.Forall_forall in Hfit. apply Hfit in Hin. cbn in Hin. lia. }
    destruct (decide (next_page a + n < 2 ^ 32)).
    2:{ rewrite checked_add_none by lia. split_and!; done || lia. }
    rewrite checked_add_some by done.
    destruct (Z.ltb_spec (alloc_page_count a) (next_page a + n)).
    { split_and!; done || lia. }
    unfold alloc_wf, available. cbn [next_page alloc_page_count free_runs].
    split_and!; try done || lia.
    + eapply runs_ok_weaken; [done | lia..].
    + intros p. pose proof (in_runs_bounds _ _ _ p Hruns). naive_solver lia.
Qed.

(** ** Freeing *)

(** Disjointness from a run [b, e) splits the pool around it. *)
Lemma split_runs lo m hi b e : runs_ok lo m hi -> b < e -> lo <= b + 1 ->
  (forall p, b <= p < e -> ~ in_runs m p) ->
  exists B A, m = B ++ A /\ Forall (fun r => r.1 <= b) B /\ keys_gt b A /\
    runs_end lo B <= b + 1 /\ runs_ok e A hi.
Proof.
  revert lo. induction m as [|[s l] m IH]; intros lo Hok Hbe Hlo Hdis.
  { exists [], []. split_and!; try done; by constructor. }
  pose proof Hok as (? & ? & ? & Hrest).
  destruct (decide (s <= b)).
  - assert (s + l <= b).
    { destruct (decide (s + l <= b)); [done|]. exfalso.
      apply (Hdis b); [lia|]. apply in_runs_cons. left. lia. }
    destruct (IH (s + l + 1)) as (B & A & -> & ? & ? & ? & ?); [done | done | lia | |].
    { intros p Hp Hin. apply (Hdis p Hp), in_runs_cons. by right. }
    exists ((s, l) :: B), A. split_and!; try done. by constructor.
  - assert (e <= s).
    { destruct (decide (e <= s)); [done|]. exfalso.
      apply (Hdis s); [lia|]. apply in_runs_cons. left. lia. }
    assert (runs_ok e ((s, l) :: m) hi) as Hok' by (cbn; split_and!; done || lia).
    exists [], ((s, l) :: m). split_and!; try done; try (by constructor).
    by apply (runs_ok_keys_gt _ _ _ b Hok').
Qed.

Lemma swallow_spec B A hi e : keys_lt e B -> runs_ok e A hi -> hi < 2 ^ 32 -> e <= hi ->
  exists A' f, swallow_following (B ++ A) e = (B ++ A', f) /\ e <= f <= hi /\
    runs_ok (f + 1) A' hi /\ forall p, in_runs A p <-> e <= p < f \/ in_runs A' p.
Proof.
  intros HB HA Hhi He. unfold swallow_following.
  destruct A as [|[s l] A].
  { rewrite bt_get_none by (done || constructor).
    exists [], e. split_and!; try done || lia. intros. rewrite in_runs_nil. naive_solver lia. }
  cbn in HA. destruct HA as (? & ? & ? & HA).
  destruct (decide (s = e)) as [->|].
  - rewrite bt_get_mid, bt_remove_mid by done.
    exists A, (e + l). unfold saturating_add. rewrite Z.min_l by lia.
    split_and!; try done || lia. intros. apply in_runs_cons.
  - assert (keys_gt e ((s, l) :: A)).
    { constructor; [cbn; lia|]. eapply runs_ok_keys_gt; [done | lia]. }
    rewrite bt_get_none by done. exists ((s, l) :: A), e.
    cbn. split_and!; try done || lia. naive_solver lia.
Qed.

(** The shape of the pool after a well-behaved [free]: one run holds the freed
    pages and whatever touched them. *)
Lemma free_shape a b n : alloc_wf a -> 0 <= b -> 0 < n -> b + n <= next_page a ->
  (forall p, b <= p < b + n -> ~ in_runs (free_runs a) p) ->
  exists B b' f A',
    PhysicalAllocator_free a b n = with_free_runs a (B ++ (b', f - b') :: A') /\
    runs_ok 0 B (next_page a) /\ runs_end 0 B <= b' <= b /\
    b + n <= f <= next_page a /\ runs_ok (f + 1) A' (next_page a) /\
    forall p, in_runs (free_runs a) p \/ b <= p < b + n <->
              in_runs B p \/ b' <= p < f \/ in_runs A' p.
Proof.
  intros (Hnext & Hcount & Hruns) Hb Hn He Hdis.
  destruct (split_runs _ _ _ b (b + n) Hruns) as (B & A & Hm & HkB & HkA & HeB & HA);
    [lia | lia | done |].
  unfold PhysicalAllocator_free, free_insert.
  rewrite (proj2 (Z.eqb_neq n 0)), (proj2 (Z.leb_gt (next_page a) b)) by lia. cbn [orb].
  cbn zeta. assert (Z.min (saturating_add 32 b n) (next_page a) = b + n) as ->
    by (unfold saturating_add; lia).
  rewrite Hm, bt_last_le_app by done.
  assert (HkB' : keys_lt (b + n) B).
  { eapply Forall_impl; [done|]. intros [] ?. cbn in *. lia. }
  rewrite Hm, runs_ok_app in Hruns. destruct Hruns as [HB _].
  destruct (swallow_spec B A (next_page a) (b + n)) as (A' & f & Hsw & Hf & HA' & HinA);
    [done | done | lia | lia |].
  rewrite Hsw. setoid_rewrite in_runs_app. setoid_rewrite HinA.
  assert (HkA' : keys_gt b A') by (eapply runs_ok_keys_gt; [done | lia]).
  assert (Hnew : keys_lt b B -> runs_end 0 B <= b ->
    exists B0 b' f0 A0,
      (if b <? f then with_free_runs a (bt_insert b (f - b) (B ++ A'))
       else with_free_runs a (B ++ A')) = with_free_runs a (B0 ++ (b', f0 - b') :: A0) /\
      runs_ok 0 B0 (next_page a) /\ runs_end 0 B0 <= b' <= b /\
      b + n <= f0 <= next_page a /\ runs_ok (f0 + 1) A0 (next_page a) /\
      forall p, (in_runs B p \/ b + n <= p < f \/ in_runs A' p) \/ b <= p < b + n <->
                in_runs B0 p \/ b' <= p < f0 \/ in_runs A0 p).
  { intros. exists B, b, f, A'. rewrite (proj2 (Z.ltb_lt b f)), bt_insert_mid by (done || lia).
    split_and!; try done || lia. intros p. destruct (decide (b <= p < f)); naive_solver lia. }
  destruct B as [|[ps pl] B _] using rev_ind; [apply Hnew; [by constructor | cbn; lia]|].
  rewrite last_snoc. clear HkB HkB'.
  assert (runs_end 0 (B ++ [(ps, pl)]) = ps + pl + 1) as Hre.
  { clear. generalize 0. induction B as [|[] B IH]; intros; cbn; auto. }
  apply runs_ok_middle in HB as (HB & ? & ? & ? & _ & HkB & _).
  unfold saturating_add. rewrite Z.min_l by lia.
  rewrite (proj2 (Z.leb_gt _ _)) by lia.
  rewrite (proj2 (Z.ltb_ge b (ps + pl))) by lia.
  destruct (Z.eqb_spec (ps + pl) b) as [Hadj|]; cbn [andb].
  - rewrite <- !app_assoc. cbn [app]. rewrite bt_get_mid, bool_decide_eq_true_2 by done.
    rewrite bt_insert_replace by done.
    exists B, ps, f, A'. split_and!; try done || lia.
    intros p. rewrite !in_runs_app, in_runs_cons, in_runs_nil.
    destruct (decide (ps <= p < f)); naive_solver lia.
  - apply Hnew; [|lia]. apply Forall_app. split; [eapply keys_lt_weaken; [done | lia]|].
    constructor; [cbn; lia | constructor].
Qed.

Lemma free_spec a b n : alloc_wf a -> 0 <= b -> 0 < n -> b + n <= next_page a ->
  (forall p, b <= p < b + n -> ~ in_runs (free_runs a) p) ->
  let a' := PhysicalAllocator_free a b n in
  alloc_wf a' /\ next_page a' = next_page a /\ alloc_page_count a' = alloc_page_count a /\
  forall p, in_runs (free_runs a') p <-> in_runs (free_runs a) p \/ b <= p < b + n.
Proof.
  intros Hwf Hb Hn He Hdis. cbn zeta.
  destruct (free_shape a b n) as (B & b' & f & A' & -> & HB & Hb' & Hf & HA' & Hin); [done..|].
  destruct Hwf as (Hnext & Hcount & _).
  unfold alloc_wf. cbn [with_free_runs next_page alloc_page_count free_runs].
  split_and!; try done || lia.
  - rewrite runs_ok_app. cbn. split_and!; try done || lia.
    by replace (b' + (f - b') + 1) with (f + 1) by lia.
  - intros p. rewrite in_runs_app, in_runs_cons, Hin.
    replace (b' + (f - b')) with f by lia. done.
Qed.

(** ** Rollback *)

Lemma runs_ok_shrink lo m b n : runs_ok lo m (b + n) -> 0 < n ->
  (forall p, b <= p < b + n -> ~ in_runs m p) -> runs_ok lo m b.
Proof.
  intros Hok Hn Hdis. revert lo Hok. induction m as [|[s l] m IH]; intros lo; cbn; [done|].
  intros (? & ? & ? & Hok). split_and!; try done.
  - destruct (decide (s + l <= b)); [done|]. exfalso.
    apply (Hdis (s + l - 1)); [lia|]. apply in_runs_cons. left. lia.
  - apply IH; [|done]. intros p Hp Hin. apply (Hdis p Hp), in_runs_cons. by right.
Qed.

Lemma rollback_spec a b n : alloc_wf a -> 0 <= b -> 0 < n -> b + n <= next_page a ->
  (forall p, b <= p < b + n -> ~ in_runs (free_runs a) p) ->
  let a' := PhysicalAllocator_rollback_last a b n in
  alloc_wf a' /\ alloc_page_count a' = alloc_page_count a /\
  forall p, available a' p <-> available a p \/ b <= p < b + n.
Proof.
  intros Hwf Hb Hn He Hdis. cbn zeta. unfold PhysicalAllocator_rollback_last.
  pose proof Hwf as (? & ? & Hruns).
  unfold saturating_add. rewrite Z.min_l by lia.
  destruct (Z.eqb_spec (next_page a) (b + n)) as [Hend|].
  - unfold alloc_wf, available. cbn [next_page alloc_page_count free_runs]. split_and!; try lia.
    + apply (runs_ok_shrink _ _ _ n); [by rewrite <- Hend | done..].
    + intros p. naive_solver lia.
  - destruct (free_spec a b n Hwf Hb Hn He Hdis) as (Hwf' & Hnext & Hcount & Hin).
    split_and!; [done..|]. intros p. unfold available. rewrite Hnext, Hcount, Hin. tauto.
Qed.

(** ** A client of the allocator

    A client holds the runs it was given; it frees or rolls back only what it
    holds.  This is the discipline [map_anonymous], [allocate_physical] and
    [free_physical] callers follow. *)

Record AllocClient : Type := mkAllocClient {
  heap : PhysicalAllocator;
  live : runs;
}.

Inductive client_step : AllocClient -> AllocClient -> Prop :=
| client_allocate h n s h' live :
    0 < n -> PhysicalAllocator_allocate h n = (Ok s, h') ->
    client_step (mkAllocClient h live) (mkAllocClient h' ((s, n) :: live))
| client_refused h n e h' live :
    0 < n -> PhysicalAllocator_allocate h n = (Err e, h') ->
    client_step (mkAllocClient h live) (mkAllocClient h' live)
| client_free h L1 s n L2 :
    client_step (mkAllocClient h (L1 ++ (s, n) :: L2))
      (mkAllocClient (PhysicalAllocator_free h s n) (L1 ++ L2))
| client_rollback h L1 s n L2 :
    client_step (mkAllocClient h (L1 ++ (s, n) :: L2))
      (mkAllocClient (PhysicalAllocator_rollback_last h s n) (L1 ++ L2)).

(** How many live runs hold a page. *)
Definition run_holds (p : Z) (r : Z * Z) : nat :=
  if decide (r.1 <= p < r.1 + r.2) then 1%nat else 0%nat.
Definition owners (l : runs) (p : Z) : nat := sum_list_with (run_holds p) l.

(** Every page of RAM is either available or held by exactly one live run. *)
Definition client_inv (c : AllocClient) : Prop :=
  alloc_wf (heap c) /\
  Forall (fun r => 0 <= r.1 /\ 0 < r.2 /\ r.1 + r.2 <= alloc_page_count (heap c)) (live c) /\
  forall p, 0 <= p < alloc_page_count (heap c) ->
    (owners (live c) p <= 1)%nat /\ (available (heap c) p <-> owners (live c) p = 0%nat).

Lemma owners_middle L1 s n L2 p :
  owners (L1 ++ (s, n) :: L2) p = (run_holds p (s, n) + owners (L1 ++ L2) p)%nat.
Proof. unfold owners. rewrite !sum_list_with_app. cbn. lia. Qed.

Lemma run_holds_in p s n : s <= p < s + n -> run_holds p (s, n) = 1%nat.
Proof. intros. unfold run_holds. by rewrite decide_True. Qed.

Lemma run_holds_out p s n : ~ (s <= p < s + n) -> run_holds p (s, n) = 0%nat.
Proof. intros. unfold run_holds. by rewrite decide_False. Qed.

(** A live run satisfies the preconditions of [free] and [rollback_last]. *)
Lemma live_run_releasable h L1 s n L2 : client_inv (mkAllocClient h (L1 ++ (s, n) :: L2)) ->
  0 <= s /\ 0 < n /\ s + n <= next_page h /\
  (forall p, s <= p < s + n -> ~ in_runs (free_runs h) p).
Proof.
  intros (Hwf & Hlive & Hpart). cbn [heap live] in *.
  apply Forall_app in Hlive as [_ Hlive]. apply Forall_cons in Hlive as [(? & ? & ?) _].
  cbn in *.
  assert (forall p, s <= p < s + n -> ~ available h p) as Hna.
  { intros p Hp. destruct (Hpart p ltac:(lia)) as [_ ->].
    rewrite owners_middle, run_holds_in by done. lia. }
  split_and!; try done.
  - destruct (decide (s + n <= next_page h)); [done|]. exfalso.
    apply (Hna (s + n - 1)); [lia|]. right. lia.
  - intros p Hp Hin. apply (Hna p Hp). by left.
Qed.

Lemma release_inv h h' L1 s n L2 :
  client_inv (mkAllocClient h (L1 ++ (s, n) :: L2)) ->
  alloc_wf h' -> alloc_page_count h' = alloc_page_count h ->
  (forall p, available h' p <-> available h p \/ s <= p < s + n) ->
  client_inv (mkAllocClient h' (L1 ++ L2)).
Proof.
  intros (Hwf & Hlive & Hpart) Hwf' Hcount Hav. unfold client_inv. cbn [heap live] in *.
  rewrite Hcount. split_and!; [done| |].
  - rewrite Forall_app, Forall_cons in Hlive. rewrite Forall_app. tauto.
  - intros p Hp. specialize (Hpart p Hp). rewrite owners_middle in Hpart. rewrite Hav.
    destruct (decide (s <= p < s + n)) as [?|?].
    + rewrite run_holds_in in Hpart by done. destruct Hpart as [? _].
      split; [lia|]. split; [lia | tauto].
    + rewrite run_holds_out in Hpart by done. cbn in Hpart. tauto.
Qed.

Lemma client_step_inv c c' : client_step c c' -> client_inv c -> client_inv c'.
Proof.
  intros Hstep Hinv. destruct Hstep as [h n s h' live Hn Hrun|h n e h' live Hn Hrun
    |h L1 s n L2|h L1 s n L2].
  - destruct Hinv as (Hwf & Hlive & Hpart). unfold client_inv. cbn [heap Allocator.live] in *.
    pose proof (allocate_spec h n Hwf Hn) as Hspec. rewrite Hrun in Hspec.
    destruct Hspec as (Hwf' & Hcount & ? & ? & ? & Hav & Hav').
    pose proof Hwf' as ([? ?] & _). rewrite Hcount. split_and!; [done| |].
    + constructor; [cbn; lia | done].
    + intros p Hp. specialize (Hpart p Hp). rewrite Hav'. unfold owners in *. cbn.
      destruct (decide (s <= p < s + n)) as [?|?].
      * rewrite run_holds_in by done. specialize (Hav p ltac:(lia)).
        assert (sum_list_with (run_holds p) live = 0%nat) as -> by tauto. naive_solver lia.
      * rewrite run_holds_out by done. cbn. tauto.
  - pose proof (allocate_spec h n (proj1 Hinv) Hn) as Hspec. rewrite Hrun in Hspec.
    by destruct Hspec as (-> & _).
  - destruct (live_run_releasable _ _ _ _ _ Hinv) as (Hs & Hn & He & Hdis).
    destruct (free_spec h s n (proj1 Hinv) Hs Hn He Hdis) as (Hwf' & Hnext & Hcount & Hin).
    eapply release_inv; [done..|]. intros p. unfold available. rewrite Hnext, Hcount, Hin. tauto.
  - destruct (live_run_releasable _ _ _ _ _ Hinv) as (Hs & Hn & He & Hdis).
    destruct (rollback_spec h s n (proj1 Hinv) Hs Hn He Hdis) as (Hwf' & Hcount & Hin).
    by eapply release_inv.
Qed.

(** ** Theorems *)

(** C6: whatever a client that frees only what it holds does, every page of
    RAM is at all times either available or held by exactly one of its live
    runs: the allocator never hands a page out twice and never loses one. *)
Theorem allocator_partition (page_count : Z) (c : AllocClient) :
  u32 page_count ->
  rtc client_step (mkAllocClient (PhysicalAllocator_new page_count) []) c ->
  client_inv c.
Proof.
  intros Hpc Hreach.
  assert (client_inv (mkAllocClient (PhysicalAllocator_new page_count) [])) as Hinit.
  { unfold client_inv, alloc_wf, available, is_u in *. cbn.
    split_and!; try done || lia. }
  revert Hinit. induction Hreach; eauto using client_step_inv.
Qed.

Definition demo_client : AllocClient :=
  let a0 := PhysicalAllocator_new 64 in
  let a1 := (PhysicalAllocator_allocate a0 4).2 in
  let a2 := (PhysicalAllocator_allocate a1 4).2 in
  mkAllocClient (PhysicalAllocator_free a2 0 4) [(4, 4)].

Lemma allocator_partition_witness : client_inv demo_client.
Proof.
  apply (allocator_partition 64); [unfold is_u; lia|].
  eapply rtc_l; [by apply (client_allocate _ 4 0)|].
  eapply rtc_l; [by apply (client_allocate _ 4 4)|].
  eapply rtc_l; [by apply (client_free _ [(4, 4)] 0 4 [])|]. apply rtc_refl.
Defined.

(** [allocate] is refused exactly when the request fits neither between
    the cursor and the end of RAM nor in [n] consecutive freed pages:
    coalescing loses no freed room. *)
Theorem allocate_refused_iff (a : PhysicalAllocator) (n : Z) :
  alloc_wf a -> 0 < n ->
  (exists a', PhysicalAllocator_allocate a n = (Err (OutOfPhysicalMemory n), a')) <->
  alloc_page_count a < next_page a + n /\
  forall s, ~ (forall p, s <= p < s + n -> in_runs (free_runs a) p).
Proof.
  intros Hwf Hn. pose proof (allocate_spec a n Hwf Hn) as Hspec.
  destruct (PhysicalAllocator_allocate a n) as [[s|e] a'] eqn:Hrun.
  - split; [by intros [? ?]|]. intros [Hlt Hnone].
    destruct Hspec as (Hwf' & Hcount & _ & _ & Hend & _). exfalso.
    unfold PhysicalAllocator_allocate in Hrun.
    destruct (bt_find_fit n (free_runs a)) as [[k l]|] eqn:Hfit.
    + apply bt_find_fit_spec in Hfit as (B & A & Hm & ?). apply (Hnone k).
      intros p Hp. rewrite Hm, in_runs_app, in_runs_cons. right. left. lia.
    + unfold checked_add in Hrun. repeat case_match; simplify_eq. bool_to_prop. lia.
  - destruct Hspec as (-> & -> & ? & ?). split; [done|]. intros. by exists a.
Qed.

Lemma allocate_refused_iff_witness :
  exists a', PhysicalAllocator_allocate (mkPhysicalAllocator 8 8 [(2, 3)]) 4 =
    (Err (OutOfPhysicalMemory 4), a').
Proof.
  apply (allocate_refused_iff (mkPhysicalAllocator 8 8 [(2, 3)]) 4).
  - unfold alloc_wf. cbn. lia.
  - lia.
  - cbn [next_page alloc_page_count free_runs]. split; [lia|]. intros s Hs.
    pose proof (Hs s ltac:(lia)) as [H1|H1]%in_runs_cons; [|by apply in_runs_nil in H1].
    pose proof (Hs (s + 3) ltac:(lia)) as [H2|H2]%in_runs_cons; [|by apply in_runs_nil in H2].
    lia.
Defined.

(** rolling an allocation back makes exactly its pages available again,
    whether it came from the cursor or from the pool. *)
Theorem rollback_restores (a a1 : PhysicalAllocator) (s n : Z) :
  alloc_wf a -> 0 < n -> PhysicalAllocator_allocate a n = (Ok s, a1) ->
  let a2 := PhysicalAllocator_rollback_last a1 s n in
  alloc_wf a2 /\ forall p, available a2 p <-> available a p.
Proof.
  intros Hwf Hn Hrun. cbn zeta.
  pose proof (allocate_spec a n Hwf Hn) as Hspec. rewrite Hrun in Hspec.
  destruct Hspec as (Hwf' & Hcount & ? & ? & ? & Hav & Hav').
  destruct (rollback_spec a1 s n) as (Hwf2 & _ & Hback); [done..| |].
  - intros p Hp Hin. apply (proj1 (Hav' p)); [by left | done].
  - split; [done|]. intros p. rewrite Hback, Hav'.
    destruct (decide (s <= p < s + n)); naive_solver.
Qed.

Lemma rollback_restores_witness :
  let a := mkPhysicalAllocator 8 16 [(0, 4)] in
  let a1 := (PhysicalAllocator_allocate a 4).2 in
  available (PhysicalAllocator_rollback_last a1 0 4) 2.
Proof.
  cbn zeta.
  apply (rollback_restores (mkPhysicalAllocator 8 16 [(0, 4)])
    (PhysicalAllocator_allocate (mkPhysicalAllocator 8 16 [(0, 4)]) 4).2 0 4).
  - unfold alloc_wf. cbn. lia.
  - lia.
  - reflexivity.
  - left. exists 0, 4. split; [by left | lia].
Defined.

(** [free] tolerates a repeated free of the same run, but not a free whose
    range strictly contains an already freed run: the pool then holds the
    inner run twice and two later allocations receive the same pages.  (The
    comment on [free] says the pool ignores overlap with existing runs.) *)
Theorem free_around_freed_run_duplicates (a : PhysicalAllocator) (b n k m : Z) :
  alloc_wf a -> free_runs a = [(k, m)] -> 0 <= b -> b < k -> k + m < b + n ->
  b + n <= next_page a -> 0 < m ->
  let a1 := PhysicalAllocator_free a b n in
  free_runs a1 = [(b, n); (k, m)] /\
  exists a2 a3,
    PhysicalAllocator_allocate a1 n = (Ok b, a2) /\
    PhysicalAllocator_allocate a2 m = (Ok k, a3) /\
    forall p, k <= p < k + m -> b <= p < b + n.
Proof.
  intros (Hnext & Hcount & Hruns) Hm Hb Hbk Hend He Hm0. cbn zeta.
  assert (PhysicalAllocator_free a b n = with_free_runs a [(b, n); (k, m)]) as ->.
  { unfold PhysicalAllocator_free, free_insert, swallow_following, saturating_add.
    rewrite (proj2 (Z.eqb_neq n 0)), (proj2 (Z.leb_gt (next_page a) b)) by lia.
    cbn [orb]. rewrite Hm. cbn. rewrite (proj2 (Z.leb_gt k b)) by lia.
    rewrite (Z.min_l (b + n) (2 ^ 32 - 1)), (Z.min_l (b + n)) by lia.
    rewrite (proj2 (Z.eqb_neq (b + n) k)) by lia.
    rewrite (proj2 (Z.ltb_lt b (b + n))) by lia. cbn [bt_insert].
    rewrite (proj2 (Z.ltb_lt b k)) by lia.
    by replace (b + n - b) with n by lia. }
  split; [done|].
  exists (with_free_runs a [(k, m)]), (with_free_runs a []).
  unfold PhysicalAllocator_allocate. cbn.
  rewrite !Z.leb_refl, !Z.eqb_refl, !Z.ltb_irrefl. split_and!; try done. lia.
Qed.

Lemma free_around_freed_run_duplicates_witness :
  let a := mkPhysicalAllocator 8 8 [(4, 2)] in
  exists a2 a3,
    PhysicalAllocator_allocate (PhysicalAllocator_free a 0 8) 8 = (Ok 0, a2) /\
    PhysicalAllocator_allocate a2 2 = (Ok 4, a3) /\
    forall p, 4 <= p < 4 + 2 -> 0 <= p < 0 + 8.
Proof.
  cbn zeta.
  refine (proj2 (free_around_freed_run_duplicates (mkPhysicalAllocator 8 8 [(4, 2)]) 0 8 4 2
    _ _ _ _ _ _ _)).
  - unfold alloc_wf. cbn. lia.
  - reflexivity.
  - lia.
  - lia.
  - lia.
  - cbn. lia.
  - lia.
Defined.
