(* ===== verification/GuestMemory.v ===== *)
(** * The guest memory interface

    Models the trait [GuestMemory] of [exbawks-memory/src/software.rs], the
    only way the CPU and the kernel services reach guest memory.  The
    operations are a class; what a client may rely on is a second class of
    laws, which [SoftwareSpace] discharges for the software backend and the
    interpreter's theorems are proved against. *)

From S2P Require Import Prelude GuestTypes PageTable.

(** [read] and [fetch] fill a buffer of the given length; [write] changes the
    memory behind the shared reference, so it returns the new state. *)
Class GuestMemory (Mem : Type) : Type := {
  mem_read : Mem -> GuestVa -> nat -> result MemoryError (list Z);
  mem_fetch : Mem -> GuestVa -> nat -> result MemoryError (list Z);
  mem_write : Mem -> GuestVa -> list Z -> result MemoryError unit * Mem;
  mem_page_table : Mem -> PageTable;
}.

Section DefaultMethods.
Context {Mem : Type} `{GuestMemory Mem}.

(** Reads one little-endian 32-bit value. *)
Definition mem_read_u32 (m : Mem) (address : GuestVa) : result MemoryError Z :=
  bytes ← mem_read m address 4;
  Ok (from_le_bytes bytes).

(** Writes one little-endian 32-bit value. *)
Definition mem_write_u32 (m : Mem) (address : GuestVa) (value : Z)
  : result MemoryError unit * Mem :=
  mem_write m address (to_le_bytes 4 value).
End DefaultMethods.

(** What every backend promises, over the states that satisfy its invariant:
    reads give bytes, and writes keep the invariant. *)
Class GuestMemoryTyped (Mem : Type) `{GuestMemory Mem} : Type := {
  mem_ok : Mem -> Prop;
  (** A successful read fills the buffer with bytes. *)
  read_bytes m a n bs : mem_ok m -> u32 a -> mem_read m a n = Ok bs ->
    length bs = n /\ Forall u8 bs;
  fetch_bytes m a n bs : mem_ok m -> u32 a -> mem_fetch m a n = Ok bs ->
    length bs = n /\ Forall u8 bs;
  write_ok m a bs r m' : mem_ok m -> u32 a -> Forall u8 bs ->
    mem_write m a bs = (r, m') -> mem_ok m';
}.

(** What memory promises besides, and devices need not. *)
Class GuestMemoryLaws (Mem : Type) `{GuestMemoryTyped Mem} : Prop := {
  (** A refused write changes nothing. *)
  write_refused m a bs e m' : mem_ok m -> u32 a ->
    mem_write m a bs = (Err e, m') -> m' = m;
  (** Writing never changes which reads are permitted. *)
  read_permitted m a bs r m' b n : mem_ok m -> u32 a -> Forall u8 bs -> u32 b ->
    mem_write m a bs = (r, m') ->
    is_ok (mem_read m' b n) = is_ok (mem_read m b n);
  (** What was written, up to a page of it, reads back where reading is
      permitted. *)
  read_back m a bs m' : mem_ok m -> u32 a -> Forall u8 bs -> (length bs <= 4096)%nat ->
    mem_write m a bs = (Ok tt, m') -> is_ok (mem_read m a (length bs)) = true ->
    mem_read m' a (length bs) = Ok bs;
}.

Lemma read_u32_range `{GuestMemoryTyped Mem} m a v :
  mem_ok m -> u32 a -> mem_read_u32 m a = Ok v -> u32 v.
Proof.
  intros Hok Ha Hrun. unfold mem_read_u32 in Hrun. invert_ok. subst.
  edestruct read_bytes as [Hlen Hb]; [done..|].
  pose proof (from_le_bytes_range _ Hb) as Hr. by rewrite Hlen in Hr.
Qed.

(** A 32-bit value written is the value read. *)
Lemma write_read_u32 `{GuestMemoryLaws Mem} m a v m' :
  mem_ok m -> u32 a -> u32 v -> is_ok (mem_read m a 4) = true ->
  mem_write_u32 m a v = (Ok tt, m') -> mem_read_u32 m' a = Ok v.
Proof.
  intros Hok Ha Hv Hread Hw. unfold mem_read_u32.
  pose proof (length_to_le_bytes 4 v) as Hlen.
  assert (mem_read m' a (length (to_le_bytes 4 v)) = Ok (to_le_bytes 4 v)) as Hback.
  { eapply (read_back m a _ m'); rewrite ?Hlen; try done; [apply to_le_bytes_u8 | lia]. }
  rewrite Hlen in Hback. rewrite Hback. cbn [mbind result_bind].
  f_equal. rewrite from_to_le_bytes. apply wrap_small, Hv.
Qed.
