(* ===== verification/SoftwareSpace.v ===== *)
(** * The software guest address space

    Models [exbawks-memory/src/access.rs] (the page walk every access makes)
    and [software.rs] ([SoftwareAddressSpace]).

    Physical RAM is a zero-initialised buffer of [physical_len] bytes: a
    finite map from offsets to bytes in which an absent offset is zero.  The
    page walk is a loop over page-sized chunks; it is shown equal to a byte by
    byte translation, which is the contract the theorems are stated with.

    The locks are not modelled: each public operation holds the lock it takes
    for the whole time it touches RAM, so one operation is one step. *)

From S2P Require Import Prelude GuestTypes PageTable Allocator GuestMemory.

(** ** [access.rs] *)

Definition checked_descriptor (table : PageTable) (address : GuestVa) (access : AccessKind)
  : result MemoryError PageDescriptor :=
  let descriptor := PageTable_get table (GuestVa_page address) in
  if negb (PageDescriptor_is_valid descriptor) ||
     bool_decide (PageDescriptor_kind descriptor = Unmapped)
  then Err (UnmappedErr address access)
  else if negb (permissions_contain (PageDescriptor_permissions descriptor)
                  (AccessKind_required_permission access))
  then Err (AccessDenied address access)
  else match PageDescriptor_kind descriptor with
       | Ram => Ok descriptor
       | Mmio => Err (MmioErr address (PageDescriptor_handler_id descriptor))
       | Reserved | Unmapped => Err (UnmappedErr address access)
       end.

(** One chunk of a walk: start address, checked descriptor, buffer offset,
    chunk length. *)
Definition visitor (S : Type) : Type :=
  GuestVa -> PageDescriptor -> Z -> Z -> S -> result MemoryError unit * S.

(** The loop of [walk_pages]; [None] when the fuel runs out. *)
Fixpoint walk_pages_loop {S} (fuel : nat) (table : PageTable) (access : AccessKind)
    (guest : Z) (buffer_offset len : Z) (visit : visitor S) (s : S)
  : option (result MemoryError unit * S) :=
  match fuel with
  | O => None
  | S fuel =>
    if buffer_offset <? len then
      let current := guest in
      match checked_descriptor table current access with
      | Err e => Some (Err e, s)
      | Ok descriptor =>
        let page_remaining := GUEST_PAGE_SIZE - GuestVa_page_offset current in
        let chunk := Z.min page_remaining (len - buffer_offset) in
        match visit current descriptor buffer_offset chunk s with
        | (Err e, s) => Some (Err e, s)
        | (Ok _, s) =>
          let buffer_offset := buffer_offset + chunk in
          if buffer_offset <? len then
            match checked_add 32 guest chunk with
            | None => Some (Err HostSizeOverflow, s)
            | Some guest => walk_pages_loop fuel table access guest buffer_offset len visit s
            end
          else walk_pages_loop fuel table access guest buffer_offset len visit s
        end
      end
    else Some (Ok tt, s)
  end.

(** Every iteration consumes at least one byte, so [len + 1] rounds are
    enough ([walk_pages_bytewise]). *)
Definition walk_pages {S} (table : PageTable) (access : AccessKind) (address : GuestVa)
    (len : Z) (visit : visitor S) (s : S) : result MemoryError unit * S :=
  default (Err HostSizeOverflow, s)
    (walk_pages_loop (Datatypes.S (Z.to_nat len)) table access address 0 len visit s).

Definition physical_offset (page : GuestPage) (page_offset : Z) : result MemoryError Z :=
  base ← ok_or (checked_mul 64 page GUEST_PAGE_SIZE) HostSizeOverflow;
  ok_or (checked_add 64 base page_offset) HostSizeOverflow.

Definition align_up (value alignment : Z) : result MemoryError Z :=
  let mask := alignment - 1 in
  sum ← ok_or (checked_add 64 value mask) HostSizeOverflow;
  Ok (Z.land sum (unot 64 mask)).

(** The body of [bump_written_generations] for one page. *)
Definition bump_page (table : PageTable) (page : GuestPage) : PageTable :=
  let descriptor := PageTable_get table page in
  if PageDescriptor_is_valid descriptor && bool_decide (PageDescriptor_kind descriptor = Ram)
  then (PageTable_bump_physical_generation table (PageDescriptor_physical_page descriptor)).2
  else table.

Definition bump_written_generations (table : PageTable) (address : GuestVa) (len : Z)
  : PageTable :=
  match try_from_u 64 len with
  | None => table
  | Some length =>
    match GuestRange_new address length with
    | Err _ => table
    | Ok range => foldl bump_page table (GuestRange_pages range)
    end
  end.

(** ** Physical RAM as a byte buffer *)

Definition ram_byte (ram : gmap Z Z) (offset : Z) : Z := default 0 (ram !! offset).

(** [physical.get(start..stop)] and the bytes of the slice. *)
Definition ram_slice (ram : gmap Z Z) (physical_len start stop : Z) : option (list Z) :=
  if (start <=? stop) && (stop <=? physical_len)
  then Some (map (ram_byte ram) (seqZ start (stop - start)))
  else None.

(** [destination.copy_from_slice(bytes)] at [start]. *)
Fixpoint ram_store (ram : gmap Z Z) (start : Z) (bytes : list Z) : gmap Z Z :=
  match bytes with
  | [] => ram
  | b :: bytes => ram_store (<[start := b]> ram) (start + 1) bytes
  end.

(** [slice.fill(0)]. *)
Definition ram_fill_zero (ram : gmap Z Z) (start stop : Z) : gmap Z Z :=
  ram_store ram start (replicate (Z.to_nat (stop - start)) 0).

(** ** The three walks of an access *)

Definition validate_access (table : PageTable) (physical_len : Z) (access : AccessKind)
    (address : GuestVa) (len : Z) : result MemoryError unit :=
  (walk_pages table access address len
    (fun current descriptor _ chunk (s : unit) =>
       match physical_offset (PageDescriptor_physical_page descriptor)
               (GuestVa_page_offset current) with
       | Err e => (Err e, s)
       | Ok offset =>
         match checked_add 64 offset chunk with
         | None => (Err HostSizeOverflow, s)
         | Some stop =>
           if physical_len <? stop
           then (Err (PhysicalOutOfRange
                        (GuestPage_start_pa (PageDescriptor_physical_page descriptor))), s)
           else (Ok tt, s)
         end
       end) tt).1.

Definition clamp_u32 (offset : Z) : Z := default U32_MAX (try_from_u 32 offset).

(** The state of this walk is the caller's output buffer. *)
Definition copy_from_guest (table : PageTable) (ram : gmap Z Z) (physical_len : Z)
    (access : AccessKind) (address : GuestVa) (output : list Z)
  : result MemoryError unit * list Z :=
  walk_pages table access address (Z.of_nat (length output))
    (fun current descriptor buffer_offset chunk out =>
       match physical_offset (PageDescriptor_physical_page descriptor)
               (GuestVa_page_offset current) with
       | Err e => (Err e, out)
       | Ok offset =>
         match checked_add 64 offset chunk with
         | None => (Err HostSizeOverflow, out)
         | Some stop =>
           match ram_slice ram physical_len offset stop with
           | None => (Err (PhysicalOutOfRange (clamp_u32 offset)), out)
           | Some source =>
             (Ok tt, take (Z.to_nat buffer_offset) out ++ source ++
                     drop (Z.to_nat (buffer_offset + chunk)) out)
           end
         end
       end) output.

(** The state of this walk is physical RAM. *)
Definition copy_to_guest (table : PageTable) (ram : gmap Z Z) (physical_len : Z)
    (access : AccessKind) (address : GuestVa) (input : list Z)
  : result MemoryError unit * gmap Z Z :=
  walk_pages table access address (Z.of_nat (length input))
    (fun current descriptor buffer_offset chunk r =>
       match physical_offset (PageDescriptor_physical_page descriptor)
               (GuestVa_page_offset current) with
       | Err e => (Err e, r)
       | Ok offset =>
         match checked_add 64 offset chunk with
         | None => (Err HostSizeOverflow, r)
         | Some stop =>
           if (offset <=? stop) && (stop <=? physical_len)
           then (Ok tt, ram_store r offset
                          (take (Z.to_nat chunk) (drop (Z.to_nat buffer_offset) input)))
           else (Err (PhysicalOutOfRange (clamp_u32 offset)), r)
         end
       end) ram.

(** ** [SoftwareAddressSpace] *)

Definition CACHED_WINDOW : Z := 0x80000000.
Definition GUEST_ARENA_SIZE : Z := Z.shiftl 1 32.

Record SoftwareAddressSpace : Type := mkSpace {
  physical : gmap Z Z;
  physical_len : Z;
  table : PageTable;
  allocator : PhysicalAllocator;
  mapping_epoch : Z;
}.

Definition with_physical (s : SoftwareAddressSpace) (ram : gmap Z Z) : SoftwareAddressSpace :=
  mkSpace ram (physical_len s) (table s) (allocator s) (mapping_epoch s).
Definition with_table (s : SoftwareAddressSpace) (t : PageTable) : SoftwareAddressSpace :=
  mkSpace (physical s) (physical_len s) t (allocator s) (mapping_epoch s).
Definition with_allocator (s : SoftwareAddressSpace) (a : PhysicalAllocator)
  : SoftwareAddressSpace :=
  mkSpace (physical s) (physical_len s) (table s) a (mapping_epoch s).

(** [AlignedBuffer::new_zeroed]: whether the host grants the allocation is an
    argument. *)
Definition AlignedBuffer_new_zeroed (host_alloc : bool) (len : Z) : option (gmap Z Z) :=
  if (len =? 0) || negb (len mod 4096 =? 0) then None
  else if host_alloc then Some ∅ else None.

Definition SoftwareAddressSpace_new (host_alloc : bool) (physical_bytes : Z)
  : result MemoryError SoftwareAddressSpace :=
  if (physical_bytes =? 0) || negb (physical_bytes mod GUEST_PAGE_SIZE =? 0)
  then Err (AddressErr (UnalignedRange 0 physical_bytes))
  else if GUEST_ARENA_SIZE <? physical_bytes
  then Err (InvalidPhysicalSize physical_bytes)
  else
    page_count ← ok_or (try_from_u 32 (physical_bytes / GUEST_PAGE_SIZE)) HostSizeOverflow;
    ram ← ok_or (AlignedBuffer_new_zeroed host_alloc physical_bytes)
            (InvalidPhysicalSize physical_bytes);
    Ok (mkSpace ram physical_bytes PageTable_new (PhysicalAllocator_new page_count) 0).

(** The epoch is an [AtomicU64]. *)
Definition bump_mapping_epoch (s : SoftwareAddressSpace) : SoftwareAddressSpace :=
  mkSpace (physical s) (physical_len s) (table s) (allocator s) (wrap64 (mapping_epoch s + 1)).

Definition allocate_physical (s : SoftwareAddressSpace) (bytes : Z)
  : result MemoryError GuestPa * SoftwareAddressSpace :=
  let pages := div_ceil (Z.max bytes 1) GUEST_PAGE_SIZE in
  match PhysicalAllocator_allocate (allocator s) pages with
  | (Ok page, a) => (Ok (GuestPage_start_pa page), with_allocator s a)
  | (Err e, a) => (Err e, with_allocator s a)
  end.

Definition bump_physical_generations (s : SoftwareAddressSpace) (phys length : Z)
  : SoftwareAddressSpace :=
  with_table s (bump_written_generations (table s) (Z.lor CACHED_WINDOW phys) length).

(** [pages * GUEST_PAGE_SIZE] is a [u32] product: it wraps for a request above
    [0xFFFFF000] bytes. *)
Definition free_physical (s : SoftwareAddressSpace) (start : GuestPa) (bytes : Z)
  : SoftwareAddressSpace :=
  let pages := div_ceil (Z.max bytes 1) GUEST_PAGE_SIZE in
  let first := start / GUEST_PAGE_SIZE in
  let begin := first * GUEST_PAGE_SIZE in
  let stop := saturating_add 64 begin (pages * GUEST_PAGE_SIZE) in
  let stop := Z.min stop (physical_len s) in
  let s := if begin <=? stop
           then with_physical s (ram_fill_zero (physical s) begin stop)
           else s in
  let s := bump_physical_generations s (first * GUEST_PAGE_SIZE)
             (wrap32 (pages * GUEST_PAGE_SIZE)) in
  with_allocator s (PhysicalAllocator_free (allocator s) first pages).

(** The [while] loop of [reserve_physical_through]. *)
Fixpoint reserve_loop (fuel : nat) (a : PhysicalAllocator) (target : Z)
  : option PhysicalAllocator :=
  match fuel with
  | O => None
  | S fuel =>
    if next_page a <? target then
      match PhysicalAllocator_allocate a 1 with
      | (Err _, a) => Some a
      | (Ok _, a) => reserve_loop fuel a target
      end
    else Some a
  end.

(** Every round takes an available page, so [page_count + 1] rounds are
    enough ([reserve_loop_total]). *)
Definition reserve_physical_through (s : SoftwareAddressSpace) (bound : GuestPa)
  : SoftwareAddressSpace :=
  let a := allocator s in
  let target := Z.min (div_ceil bound GUEST_PAGE_SIZE) (alloc_page_count a) in
  with_allocator s
    (default a (reserve_loop (S (Z.to_nat (alloc_page_count a))) a target)).

Definition map_anonymous (s : SoftwareAddressSpace) (range : GuestRange)
    (permissions : MemoryPermissions) : result MemoryError GuestPa * SoftwareAddressSpace :=
  match lift_address (GuestRange_require_page_alignment range) with
  | Err e => (Err e, s)
  | Ok _ =>
    match try_from_u 32 (GuestRange_page_count range) with
    | None => (Err HostSizeOverflow, s)
    | Some page_count =>
      match PhysicalAllocator_allocate (allocator s) page_count with
      | (Err e, a) => (Err e, with_allocator s a)
      | (Ok physical_page, a) =>
        match PageTable_map_ram (table s) range physical_page permissions with
        | (Err e, t) =>
          (Err e, with_allocator (with_table s t)
                    (PhysicalAllocator_rollback_last a physical_page page_count))
        | (Ok _, t) =>
          (Ok (GuestPage_start_pa physical_page),
           bump_mapping_epoch (with_allocator (with_table s t) a))
        end
      end
    end
  end.

Definition map_alias (s : SoftwareAddressSpace) (range : GuestRange) (physical_start : GuestPa)
    (permissions : MemoryPermissions) : result MemoryError unit * SoftwareAddressSpace :=
  match lift_address (GuestRange_require_page_alignment range) with
  | Err e => (Err e, s)
  | Ok _ =>
    if negb (GuestPa_page_offset physical_start =? 0)
    then (Err (UnalignedPhysicalAddress physical_start), s)
    else match checked_add 64 physical_start (range_len range) with
         | None => (Err (PhysicalOutOfRange physical_start), s)
         | Some physical_end =>
           if physical_len s <? physical_end
           then (Err (PhysicalOutOfRange physical_start), s)
           else match PageTable_map_ram (table s) range (GuestPa_page physical_start)
                        permissions with
                | (Err e, t) => (Err e, with_table s t)
                | (Ok _, t) => (Ok tt, bump_mapping_epoch (with_table s t))
                end
         end
  end.

Definition map_physical_window (s : SoftwareAddressSpace)
  : result MemoryError unit * SoftwareAddressSpace :=
  match lift_address (GuestRange_page_aligned 0x80000000 (physical_len s)) with
  | Err e => (Err e, s)
  | Ok range => map_alias s range 0 (Z.lor PERM_READ PERM_WRITE)
  end.

Definition space_protect (s : SoftwareAddressSpace) (range : GuestRange)
    (permissions : MemoryPermissions) : result MemoryError unit * SoftwareAddressSpace :=
  match PageTable_protect (table s) range permissions with
  | (Err e, t) => (Err e, with_table s t)
  | (Ok _, t) => (Ok tt, bump_mapping_epoch (with_table s t))
  end.

(** [access] on a read buffer of [len] bytes, zeroed by the caller. *)
Definition access_read (s : SoftwareAddressSpace) (access : AccessKind) (address : GuestVa)
    (len : nat) : result MemoryError (list Z) :=
  if Z.of_nat len =? 0 then Ok [] else
  length ← ok_or (try_from_u 64 (Z.of_nat len)) HostSizeOverflow;
  _ ← lift_address (GuestRange_new address length);
  _ ← validate_access (table s) (physical_len s) access address (Z.of_nat len);
  match copy_from_guest (table s) (physical s) (physical_len s) access address
          (replicate len 0) with
  | (Ok _, output) => Ok output
  | (Err e, _) => Err e
  end.

(** [access] on a write buffer. *)
Definition access_write (s : SoftwareAddressSpace) (access : AccessKind) (address : GuestVa)
    (input : list Z) : result MemoryError unit * SoftwareAddressSpace :=
  let len := Z.of_nat (length input) in
  if len =? 0 then (Ok tt, s) else
  match (length ← ok_or (try_from_u 64 len) HostSizeOverflow;
         _ ← lift_address (GuestRange_new address length);
         validate_access (table s) (physical_len s) access address len) with
  | Err e => (Err e, s)
  | Ok _ =>
    match copy_to_guest (table s) (physical s) (physical_len s) access address input with
    | (Err e, ram) => (Err e, with_physical s ram)
    | (Ok _, ram) =>
      (Ok tt, with_table (with_physical s ram)
                (bump_written_generations (table s) address len))
    end
  end.

Definition space_read (s : SoftwareAddressSpace) (address : GuestVa) (len : nat)
  : result MemoryError (list Z) := access_read s Read address len.
Definition space_fetch (s : SoftwareAddressSpace) (address : GuestVa) (len : nat)
  : result MemoryError (list Z) := access_read s Execute address len.
Definition space_write (s : SoftwareAddressSpace) (address : GuestVa) (input : list Z)
  : result MemoryError unit * SoftwareAddressSpace := access_write s Write address input.

#[export] Instance SoftwareAddressSpace_GuestMemory : GuestMemory SoftwareAddressSpace := {
  mem_read := space_read;
  mem_fetch := space_fetch;
  mem_write := space_write;
  mem_page_table := table;
}.

Definition load_region (s : SoftwareAddressSpace) (address : GuestVa) (virtual_size : Z)
    (initial : list Z) (permissions : MemoryPermissions)
  : result MemoryError GuestPa * SoftwareAddressSpace :=
  if virtual_size <? Z.of_nat (length initial) then (Err HostSizeOverflow, s) else
  match (rounded_size ← align_up virtual_size GUEST_PAGE_SIZE;
         lift_address (GuestRange_page_aligned address rounded_size)) with
  | Err e => (Err e, s)
  | Ok range =>
    let temporary_permissions := Z.lor permissions PERM_WRITE in
    match map_anonymous s range temporary_permissions with
    | (Err e, s) => (Err e, s)
    | (Ok phys, s) =>
      match space_write s address initial with
      | (Err e, s) => (Err e, s)
      | (Ok _, s) =>
        match space_protect s range permissions with
        | (Err e, s) => (Err e, s)
        | (Ok _, s) => (Ok phys, s)
        end
      end
    end
  end.
