(* ===== verification/SoftwareSpaceProofs.v ===== *)
(** * Correctness of the software address space

    The page walk equals a byte by byte walk; an access therefore refines the
    reference semantics [translate_all]: translate every byte, then copy.
    The laws of [GuestMemory] follow for [SoftwareAddressSpace]. *)

From S2P Require Import Prelude GuestTypes PageTable Allocator GuestMemory SoftwareSpace.

(** ** The reference semantics *)

(** The physical offset of one guest byte. *)
Definition translate (t : PageTable) (plen : Z) (access : AccessKind) (a : GuestVa)
  : result MemoryError Z :=
  d ← checked_descriptor t a access;
  let offset := PageDescriptor_physical_page d * 4096 + a mod 4096 in
  if plen <=? offset
  then Err (PhysicalOutOfRange (GuestPage_start_pa (PageDescriptor_physical_page d)))
  else Ok offset.

(** The offsets of [n] consecutive bytes, or the first error. *)
Fixpoint translate_all (t : PageTable) (plen : Z) (access : AccessKind) (a : GuestVa) (n : nat)
  : result MemoryError (list Z) :=
  match n with
  | O => Ok []
  | S n =>
    o ← translate t plen access a;
    os ← translate_all t plen access (a + 1) n;
    Ok (o :: os)
  end.

(** Bytes stored at offsets, in order. *)
Fixpoint store_at (ram : gmap Z Z) (offsets bytes : list Z) : gmap Z Z :=
  match offsets, bytes with
  | o :: offsets, b :: bytes => store_at (<[o := b]> ram) offsets bytes
  | _, _ => ram
  end.

(** ** The page walk, byte by byte *)

(** What a visitor does with one byte. *)
Definition byte_visitor (S : Type) : Type :=
  GuestVa -> PageDescriptor -> Z -> S -> result MemoryError unit * S.

Fixpoint chunk_fold {S} (bv : byte_visitor S) (n : nat) (g : Z) (d : PageDescriptor) (j : Z)
    (s : S) : result MemoryError unit * S :=
  match n with
  | O => (Ok tt, s)
  | Datatypes.S n =>
    match bv g d j s with
    | (Err e, s) => (Err e, s)
    | (Ok _, s) => chunk_fold bv n (g + 1) d (j + 1) s
    end
  end.

Fixpoint byte_walk {S} (t : PageTable) (access : AccessKind) (bv : byte_visitor S) (n : nat)
    (g j : Z) (s : S) : result MemoryError unit * S :=
  match n with
  | O => (Ok tt, s)
  | Datatypes.S n =>
    match checked_descriptor t g access with
    | Err e => (Err e, s)
    | Ok d =>
      match bv g d j s with
      | (Err e, s) => (Err e, s)
      | (Ok _, s) => byte_walk t access bv n (g + 1) (j + 1) s
      end
    end
  end.

Lemma checked_descriptor_same_page t a b access d :
  GuestVa_page a = GuestVa_page b ->
  checked_descriptor t a access = Ok d -> checked_descriptor t b access = Ok d.
Proof.
  intros Hp. unfold checked_descriptor. rewrite Hp. repeat case_match; congruence.
Qed.

Lemma checked_descriptor_ok t a access d : checked_descriptor t a access = Ok d ->
  d = PageTable_get t (GuestVa_page a) /\ PageDescriptor_is_valid d = true /\
  PageDescriptor_kind d = Ram.
Proof.
  unfold checked_descriptor. intros H.
  destruct (negb _ || _) eqn:E1; [done|]. destruct (negb (permissions_contain _ _)); [done|].
  bool_to_prop. destruct (PageDescriptor_kind _) eqn:?; try done. injection H as <-. done.
Qed.

Section Walk.
Context {S : Type} (t : PageTable) (access : AccessKind).
Context (visit : visitor S) (bv : byte_visitor S) (Inv : S -> Prop) (len : Z).

(** A chunk inside one page and inside the buffer is its bytes in order. *)
Hypothesis visit_bytes : forall g d j c s, Inv s ->
  0 <= g -> 0 < c -> g mod 4096 + c <= 4096 -> 0 <= j -> j + c <= len ->
  checked_descriptor t g access = Ok d ->
  visit g d j c s = chunk_fold bv (Z.to_nat c) g d j s.
Hypothesis bv_inv : forall g d j s r s', Inv s -> bv g d j s = (r, s') -> Inv s'.

Lemma chunk_fold_inv n g d j s r s' :
  Inv s -> chunk_fold bv n g d j s = (r, s') -> Inv s'.
Proof.
  revert g j s. induction n as [|n IH]; intros g j s Hs; cbn; [congruence|].
  destruct (bv g d j s) as [[?|?] s1] eqn:Hb; intros; simplify_eq; eauto.
Qed.

Lemma byte_walk_chunk c n g d j s :
  g mod 4096 + Z.of_nat c <= 4096 ->
  checked_descriptor t g access = Ok d ->
  byte_walk t access bv (c + n) g j s =
  match chunk_fold bv c g d j s with
  | (Err e, s) => (Err e, s)
  | (Ok _, s) => byte_walk t access bv n (g + Z.of_nat c) (j + Z.of_nat c) s
  end.
Proof.
  intros Hpage Hd.
  assert (forall k i s, (i + k = c)%nat ->
    byte_walk t access bv (k + n) (g + Z.of_nat i) (j + Z.of_nat i) s =
    match chunk_fold bv k (g + Z.of_nat i) d (j + Z.of_nat i) s with
    | (Err e, s) => (Err e, s)
    | (Ok _, s) => byte_walk t access bv n (g + Z.of_nat c) (j + Z.of_nat c) s
    end) as Hgen.
  { induction k as [|k IH]; intros i s0 Hik; cbn.
    - by replace i with c by lia.
    - rewrite (checked_descriptor_same_page t g _ access d)
        by (done || (rewrite !va_page_div; dlia)).
      destruct (bv _ d _ s0) as [[[]|e] s1]; [|done].
      specialize (IH (Datatypes.S i) s1 ltac:(lia)).
      replace (g + Z.of_nat i + 1) with (g + Z.of_nat (Datatypes.S i)) by lia.
      replace (j + Z.of_nat i + 1) with (j + Z.of_nat (Datatypes.S i)) by lia.
      done. }
  specialize (Hgen c 0%nat s ltac:(lia)). cbn in Hgen. by rewrite !Z.add_0_r in Hgen.
Qed.

Lemma walk_loop_bytes fuel g bo s : Inv s ->
  (Z.to_nat (len - bo) < fuel)%nat -> 0 <= bo -> 0 <= g -> g + (len - bo) <= 2 ^ 32 ->
  walk_pages_loop fuel t access g bo len visit s =
  Some (byte_walk t access bv (Z.to_nat (len - bo)) g bo s).
Proof.
  revert g bo s. induction fuel as [|fuel IH]; intros g bo s Hs Hfuel Hbo Hg Hend; [lia|].
  cbn [walk_pages_loop]. destruct (Z.ltb_spec bo len) as [Hlt|Hge].
  2:{ by replace (Z.to_nat (len - bo)) with 0%nat by lia. }
  destruct (checked_descriptor t g access) as [d|e] eqn:Hd.
  2:{ replace (Z.to_nat (len - bo)) with (Datatypes.S (Z.to_nat (len - bo - 1))) by lia.
      cbn. by rewrite Hd. }
  rewrite va_offset_mod, page_size_val.
  pose proof (Z.mod_pos_bound g 4096 ltac:(lia)).
  set (chunk := Z.min (4096 - g mod 4096) (len - bo)).
  assert (0 < chunk) by lia. assert (g mod 4096 + chunk <= 4096) by lia.
  rewrite visit_bytes by (done || lia).
  replace (Z.to_nat (len - bo)) with (Z.to_nat chunk + Z.to_nat (len - (bo + chunk)))%nat
    by lia.
  rewrite (byte_walk_chunk _ _ _ d) by (done || lia).
  destruct (chunk_fold bv _ g d bo s) as [[[]|e] s1] eqn:Hc; [|done].
  apply (chunk_fold_inv _ _ _ _ _ _ _ Hs) in Hc. rewrite Z2Nat.id by lia.
  destruct (Z.ltb_spec (bo + chunk) len).
  - rewrite checked_add_some by lia. apply IH; done || lia.
  - replace (Z.to_nat (len - (bo + chunk))) with 0%nat by lia.
    destruct fuel as [|fuel]; [lia|]. cbn [walk_pages_loop].
    rewrite (proj2 (Z.ltb_ge _ _)) by lia. done.
Qed.

(** The walk visits every byte once, in order, and always finishes. *)
Lemma walk_pages_bytewise a s : Inv s ->
  0 <= a -> 0 <= len -> a + len <= 2 ^ 32 ->
  walk_pages t access a len visit s = byte_walk t access bv (Z.to_nat len) a 0 s.
Proof.
  intros. unfold walk_pages. rewrite walk_loop_bytes by (done || lia).
  by rewrite Z.sub_0_r.
Qed.
End Walk.

(** ** The three visitors *)

Lemma physical_page_range d : 0 <= PageDescriptor_physical_page d < GUEST_PAGE_COUNT.
Proof.
  destruct (accessor_fields d) as (_ & _ & _ & -> & _).
  apply (field_range 8 20). lia.
Qed.

Lemma physical_offset_ok d g :
  physical_offset (PageDescriptor_physical_page d) (GuestVa_page_offset g) =
  Ok (PageDescriptor_physical_page d * 4096 + g mod 4096).
Proof.
  pose proof (physical_page_range d). pose proof (Z.mod_pos_bound g 4096 ltac:(lia)).
  unfold physical_offset, checked_mul. rewrite va_offset_mod, page_size_val, page_count_val in *.
  rewrite (proj2 (Z.ltb_lt _ _)) by lia. cbn [ok_or mbind result_bind].
  by rewrite checked_add_some by lia.
Qed.

(** The offset of a byte whose page is already translated. *)
Definition byte_offset (d : PageDescriptor) (g : GuestVa) : Z :=
  PageDescriptor_physical_page d * 4096 + g mod 4096.

Lemma byte_offset_succ d g i : 0 <= i -> g mod 4096 + i < 4096 ->
  byte_offset d (g + i) = byte_offset d g + i.
Proof. intros. unfold byte_offset. dlia. Qed.

Lemma byte_offset_bounds d g : 0 <= byte_offset d g < 2 ^ 32.
Proof.
  pose proof (physical_page_range d). pose proof (Z.mod_pos_bound g 4096 ltac:(lia)).
  unfold byte_offset. rewrite page_count_val in *. lia.
Qed.

(** RAM is whole pages, so a page is inside it or outside it as a whole. *)
Lemma page_inside plen d g c : plen mod 4096 = 0 -> 0 < c -> g mod 4096 + c <= 4096 ->
  (plen <? byte_offset d g + c) = (plen <=? byte_offset d g).
Proof.
  intros. pose proof (Z.mod_pos_bound g 4096 ltac:(lia)). unfold byte_offset.
  destruct (Z.ltb_spec plen (PageDescriptor_physical_page d * 4096 + g mod 4096 + c)),
    (Z.leb_spec plen (PageDescriptor_physical_page d * 4096 + g mod 4096)); try done; dlia.
Qed.

Section Visitors.
Context (t : PageTable) (access : AccessKind) (ram : gmap Z Z) (plen : Z).
Hypothesis plen_pages : plen mod 4096 = 0.

Definition bv_validate : byte_visitor unit := fun g d _ s =>
  if plen <=? byte_offset d g
  then (Err (PhysicalOutOfRange (GuestPage_start_pa (PageDescriptor_physical_page d))), s)
  else (Ok tt, s).

Definition bv_read : byte_visitor (list Z) := fun g d j out =>
  if plen <=? byte_offset d g
  then (Err (PhysicalOutOfRange (byte_offset d g)), out)
  else (Ok tt, <[Z.to_nat j := ram_byte ram (byte_offset d g)]> out).

Definition bv_write (input : list Z) : byte_visitor (gmap Z Z) := fun g d j r =>
  if plen <=? byte_offset d g
  then (Err (PhysicalOutOfRange (byte_offset d g)), r)
  else (Ok tt, <[byte_offset d g := nth (Z.to_nat j) input 0]> r).

Lemma inside_next d g i : byte_offset d g < plen -> 0 <= i -> g mod 4096 + i < 4096 ->
  byte_offset d (g + i) < plen.
Proof.
  intros Hin Hi Hpage. rewrite byte_offset_succ by lia.
  pose proof (Z.mod_pos_bound g 4096 ltac:(lia)).
  pose proof (page_inside plen d g (i + 1) plen_pages ltac:(lia) ltac:(lia)) as Hp.
  rewrite (proj2 (Z.leb_gt _ _)) in Hp by lia. bool_to_prop. lia.
Qed.

Lemma inside_step d g : byte_offset d g < plen -> g mod 4096 + 1 < 4096 ->
  byte_offset d (g + 1) < plen /\ (g + 1) mod 4096 = g mod 4096 + 1 /\
  byte_offset d (g + 1) = byte_offset d g + 1.
Proof.
  intros. pose proof (Z.mod_pos_bound g 4096 ltac:(lia)).
  split_and!; [by apply inside_next | dlia | apply byte_offset_succ; lia].
Qed.

Lemma fold_validate n d g j s : byte_offset d g < plen -> g mod 4096 + Z.of_nat n <= 4096 ->
  chunk_fold bv_validate n g d j s = (Ok tt, s).
Proof.
  revert g j. induction n as [|n IH]; intros g j Hin Hpage; cbn; [done|].
  unfold bv_validate at 1. rewrite (proj2 (Z.leb_gt _ _)) by done.
  destruct n as [|n]; [done|]. destruct (inside_step d g) as (? & ? & _); [done | lia|].
  apply IH; [done | lia].
Qed.

Lemma fold_read n d g j out : byte_offset d g < plen -> g mod 4096 + Z.of_nat n <= 4096 ->
  0 <= j -> (Z.to_nat j + n <= length out)%nat ->
  chunk_fold bv_read n g d j out =
  (Ok tt, take (Z.to_nat j) out ++
          map (ram_byte ram) (seqZ (byte_offset d g) (Z.of_nat n)) ++
          drop (Z.to_nat j + n) out).
Proof.
  revert g j out. induction n as [|n IH]; intros g j out Hin Hpage Hj Hlen.
  - rewrite seqZ_nil, Nat.add_0_r by lia. cbn. by rewrite take_drop.
  - cbn [chunk_fold]. unfold bv_read at 1. rewrite (proj2 (Z.leb_gt _ _)) by done.
    rewrite (seqZ_cons _ (Z.of_nat (S n))) by lia. cbn [map].
    replace (Z.pred (Z.of_nat (S n))) with (Z.of_nat n) by lia.
    assert (chunk_fold bv_read n (g + 1) d (j + 1)
              (<[Z.to_nat j := ram_byte ram (byte_offset d g)]> out) =
      (Ok tt, take (Z.to_nat (j + 1)) (<[Z.to_nat j := ram_byte ram (byte_offset d g)]> out) ++
        map (ram_byte ram) (seqZ (Z.succ (byte_offset d g)) (Z.of_nat n)) ++
        drop (Z.to_nat (j + 1) + n) (<[Z.to_nat j := ram_byte ram (byte_offset d g)]> out)))
      as ->.
    { destruct n as [|n].
      - rewrite seqZ_nil, Nat.add_0_r by lia. cbn. by rewrite take_drop.
      - destruct (inside_step d g) as (? & ? & Hoff); [done | lia|].
        unfold Z.succ. rewrite <- Hoff. apply IH; try done || lia.
        rewrite length_insert. lia. }
    replace (Z.to_nat (j + 1)) with (S (Z.to_nat j)) by lia.
    rewrite (take_S_r _ _ (ram_byte ram (byte_offset d g))).
    2:{ apply list_lookup_insert_eq. lia. }
    rewrite take_insert_ge, drop_insert_lt by lia.
    rewrite <- app_assoc. cbn [app]. do 4 f_equal. f_equal. lia.
Qed.

Lemma fold_write input n d g j r :
  byte_offset d g < plen -> g mod 4096 + Z.of_nat n <= 4096 ->
  0 <= j -> (Z.to_nat j + n <= length input)%nat ->
  chunk_fold (bv_write input) n g d j r =
  (Ok tt, ram_store r (byte_offset d g) (take n (drop (Z.to_nat j) input))).
Proof.
  revert g j r. induction n as [|n IH]; intros g j r Hin Hpage Hj Hlen; [done|].
  cbn [chunk_fold]. unfold bv_write at 1. rewrite (proj2 (Z.leb_gt _ _)) by done.
  destruct (drop (Z.to_nat j) input) as [|b rest] eqn:Hdrop.
  { apply (f_equal length) in Hdrop. rewrite length_drop in Hdrop. cbn in Hdrop. lia. }
  assert (nth (Z.to_nat j) input 0 = b) as ->.
  { rewrite nth_lookup, <- (Nat.add_0_r (Z.to_nat j)), <- lookup_drop, Hdrop. done. }
  assert (rest = drop (Z.to_nat (j + 1)) input) as ->.
  { replace (Z.to_nat (j + 1)) with (Z.to_nat j + 1)%nat by lia.
    by rewrite <- drop_drop, Hdrop. }
  cbn [take ram_store].
  destruct n as [|n]; [done|].
  destruct (inside_step d g) as (? & ? & Hoff); [done | lia|].
  rewrite <- Hoff. apply IH; done || lia.
Qed.
End Visitors.

Lemma clamp_u32_offset d g : clamp_u32 (byte_offset d g) = byte_offset d g.
Proof. unfold clamp_u32. by rewrite try_from_u_some by apply byte_offset_bounds. Qed.

Lemma length_translate_all t plen access a n os :
  translate_all t plen access a n = Ok os -> length os = n.
Proof.
  revert a os. induction n as [|n IH]; intros a os H; cbn in H; [by simplify_eq|].
  invert_ok. subst. cbn. f_equal. eauto.
Qed.

Section Accesses.
Context (t : PageTable) (access : AccessKind) (plen : Z).
Hypothesis plen_pages : plen mod 4096 = 0.

Lemma byte_walk_validate n g j :
  (byte_walk t access (bv_validate plen) n g j tt).1 =
  match translate_all t plen access g n with
  | Ok _ => Ok tt
  | Err e => Err e
  end.
Proof.
  revert g j. induction n as [|n IH]; intros g j; cbn; [done|].
  unfold translate. destruct (checked_descriptor t g access) as [d|e] eqn:Hd; cbn; [|done].
  unfold bv_validate at 1, byte_offset. destruct (Z.leb_spec plen
    (PageDescriptor_physical_page d * 4096 + g mod 4096)); cbn; [done|].
  rewrite IH. by destruct (translate_all _ _ _ _ n).
Qed.

Lemma validate_access_translates a len :
  0 <= a -> 0 <= len -> a + len <= 2 ^ 32 ->
  validate_access t plen access a len =
  match translate_all t plen access a (Z.to_nat len) with
  | Ok _ => Ok tt
  | Err e => Err e
  end.
Proof.
  intros. unfold validate_access.
  rewrite (walk_pages_bytewise t access _ (bv_validate plen) (fun _ => True) len);
    [apply byte_walk_validate | | done..].
  intros g d j c s _ Hg Hc Hpage Hj _ Hd.
  rewrite physical_offset_ok. fold (byte_offset d g).
  pose proof (byte_offset_bounds d g). pose proof (Z.mod_pos_bound g 4096 ltac:(lia)).
  rewrite checked_add_some by lia. rewrite page_inside by (done || lia).
  destruct (Z.leb_spec plen (byte_offset d g)) as [Hout|Hin].
  - destruct (Z.to_nat c) as [|k] eqn:Hk; [lia|]. cbn.
    unfold bv_validate at 1. by rewrite (proj2 (Z.leb_le _ _)).
  - by rewrite fold_validate by (done || lia).
Qed.

Lemma byte_walk_read ram n g os pre suf :
  translate_all t plen access g n = Ok os -> length suf = n ->
  byte_walk t access (bv_read ram plen) n g (Z.of_nat (length pre)) (pre ++ suf) =
  (Ok tt, pre ++ map (ram_byte ram) os).
Proof.
  revert g os pre suf. induction n as [|n IH]; intros g os pre suf Htr Hlen.
  { cbn in Htr. simplify_eq. destruct suf; [by cbn | done]. }
  destruct suf as [|x suf]; [done|]. cbn [translate_all] in Htr.
  apply bind_ok_inv in Htr as (o & Ho & Htr). apply bind_ok_inv in Htr as (os' & Hos & Htr).
  simplify_eq. unfold translate in Ho. apply bind_ok_inv in Ho as (d & Hd & Ho).
  cbn [byte_walk]. rewrite Hd. unfold bv_read at 1. fold (byte_offset d g) in Ho.
  destruct (plen <=? byte_offset d g); [done|]. simplify_eq.
  rewrite Nat2Z.id, insert_app_r_alt, Nat.sub_diag by lia. cbn [insert list_insert].
  specialize (IH (g + 1) os' (pre ++ [ram_byte ram (byte_offset d g)]) suf Hos ltac:(cbn in *; lia)).
  rewrite length_app in IH. cbn [length] in IH.
  rewrite <- !app_assoc in IH. cbn [app] in IH. cbn [map].
  replace (Z.of_nat (length pre) + 1) with (Z.of_nat (length pre + 1)) by lia. exact IH.
Qed.

Lemma copy_from_guest_translates ram a n os :
  0 <= a -> a + Z.of_nat n <= 2 ^ 32 -> translate_all t plen access a n = Ok os ->
  copy_from_guest t ram plen access a (replicate n 0) = (Ok tt, map (ram_byte ram) os).
Proof.
  intros Ha Hend Htr. unfold copy_from_guest. rewrite length_replicate.
  rewrite (walk_pages_bytewise t access _ (bv_read ram plen)
    (fun out => length out = n) (Z.of_nat n)).
  - rewrite Nat2Z.id. apply (byte_walk_read ram n a os [] (replicate n 0)); [done|].
    apply length_replicate.
  - intros g d j c out Hout Hg Hc Hpage Hj Hjc Hd.
    rewrite physical_offset_ok. fold (byte_offset d g).
    pose proof (byte_offset_bounds d g). pose proof (Z.mod_pos_bound g 4096 ltac:(lia)).
    rewrite checked_add_some by lia.
    unfold ram_slice. rewrite (proj2 (Z.leb_le _ _)) by lia. cbn [andb].
    pose proof (page_inside plen d g c plen_pages Hc Hpage) as Hpi.
    destruct (Z.leb_spec plen (byte_offset d g)) as [Hx|Hin]; bool_to_prop.
    + rewrite (proj2 (Z.leb_gt _ _)) by lia. rewrite clamp_u32_offset.
      destruct (Z.to_nat c) as [|k] eqn:Hk; [lia|]. cbn.
      unfold bv_read at 1. by rewrite (proj2 (Z.leb_le _ _)).
    + rewrite (proj2 (Z.leb_le _ _)) by lia.
      rewrite fold_read by (done || lia). do 3 f_equal; [do 2 f_equal; lia | f_equal; lia].
  - intros g d j s r s' Hs Hb. unfold bv_read in Hb. case_match; simplify_eq; [done|].
    apply length_insert.
  - apply length_replicate.
  - done.
  - lia.
  - done.
Qed.

Lemma byte_walk_write input n g os j r :
  translate_all t plen access g n = Ok os -> 0 <= j -> (Z.to_nat j + n = length input)%nat ->
  byte_walk t access (bv_write plen input) n g j r =
  (Ok tt, store_at r os (drop (Z.to_nat j) input)).
Proof.
  revert g os j r. induction n as [|n IH]; intros g os j r Htr Hj Hlen.
  { cbn in Htr. by simplify_eq. }
  cbn [translate_all] in Htr.
  apply bind_ok_inv in Htr as (o & Ho & Htr). apply bind_ok_inv in Htr as (os' & Hos & Htr).
  simplify_eq. unfold translate in Ho. apply bind_ok_inv in Ho as (d & Hd & Ho).
  cbn [byte_walk]. rewrite Hd. unfold bv_write at 1. fold (byte_offset d g) in Ho.
  destruct (plen <=? byte_offset d g); [done|]. simplify_eq.
  rewrite (IH (g + 1) os' (j + 1)) by (done || lia).
  replace (Z.to_nat (j + 1)) with (S (Z.to_nat j)) by lia.
  destruct (lookup_lt_is_Some_2 input (Z.to_nat j)) as [b Hb]; [lia|].
  rewrite (drop_S _ _ _ Hb). cbn [store_at]. by rewrite (nth_lookup_Some _ _ _ _ Hb).
Qed.

Lemma copy_to_guest_translates ram a input os :
  0 <= a -> a + Z.of_nat (length input) <= 2 ^ 32 ->
  translate_all t plen access a (length input) = Ok os ->
  copy_to_guest t ram plen access a input = (Ok tt, store_at ram os input).
Proof.
  intros Ha Hend Htr. unfold copy_to_guest.
  rewrite (walk_pages_bytewise t access _ (bv_write plen input)
    (fun _ => True) (Z.of_nat (length input))); [| |done..|lia|done].
  - rewrite Nat2Z.id. by rewrite (byte_walk_write input _ a os).
  - intros g d j c r _ Hg Hc Hpage Hj Hjc Hd.
    rewrite physical_offset_ok. fold (byte_offset d g).
    pose proof (byte_offset_bounds d g). pose proof (Z.mod_pos_bound g 4096 ltac:(lia)).
    rewrite checked_add_some by lia.
    rewrite (proj2 (Z.leb_le (byte_offset d g) _)) by lia. cbn [andb].
    pose proof (page_inside plen d g c plen_pages Hc Hpage) as Hpi.
    destruct (Z.leb_spec plen (byte_offset d g)) as [Hx|Hin]; bool_to_prop.
    + rewrite (proj2 (Z.leb_gt _ _)) by lia. rewrite clamp_u32_offset.
      destruct (Z.to_nat c) as [|k] eqn:Hk; [lia|]. cbn.
      unfold bv_write at 1. by rewrite (proj2 (Z.leb_le _ _)).
    + rewrite (proj2 (Z.leb_le _ _)) by lia. by rewrite fold_write by (done || lia).
Qed.
End Accesses.
