(* ===== verification/SpaceTheorems.v ===== *)
(** * What the software address space promises

    The refinement of every access to the byte by byte semantics, the laws of
    [GuestMemory], the written generations, aliases, and the mapping
    operations with their failure paths. *)

From S2P Require Import Prelude GuestTypes PageTable Allocator GuestMemory SoftwareSpace SoftwareSpaceProofs.

(** ** The contract of an access *)

(** RAM is whole pages of bytes. *)
Definition ram_ok (s : SoftwareAddressSpace) : Prop :=
  physical_len s mod 4096 = 0 /\ map_Forall (fun _ b => u8 b) (physical s).

(** The offsets an access touches, or the error it reports. *)
Definition access_offsets (s : SoftwareAddressSpace) (access : AccessKind) (a : GuestVa)
    (n : nat) : result MemoryError (list Z) :=
  if decide (n = 0%nat) then Ok []
  else if decide (a + Z.of_nat n <= 2 ^ 32)
  then translate_all (table s) (physical_len s) access a n
  else if decide (Z.of_nat n < 2 ^ 64)
  then Err (AddressErr (RangeOverflow a (Z.of_nat n)))
  else Err HostSizeOverflow.

Lemma range_new_nonzero a n : u32 a -> 0 < n < 2 ^ 64 ->
  lift_address (GuestRange_new a n) =
  if decide (a + n <= 2 ^ 32) then Ok (mkGuestRange a n)
  else Err (AddressErr (RangeOverflow a n)).
Proof.
  intros Ha Hn. pose proof (range_new_ok_iff a n Ha ltac:(unfold is_u; lia)) as Hiff.
  destruct (GuestRange_new a n) as [r|e] eqn:Hr.
  - destruct (proj1 (Hiff r) eq_refl) as (? & ? & ->). by rewrite decide_True.
  - case_decide as Hle.
    + discriminate (proj2 (Hiff (mkGuestRange a n)) (conj (proj1 Hn) (conj Hle eq_refl))).
    + unfold GuestRange_new in Hr. rewrite (proj2 (Z.eqb_neq _ _)) in Hr by lia.
      apply bind_err_inv in Hr as [Hr|(b & _ & Hr)]; [|by case_match; simplify_eq].
      unfold ok_or in Hr. by case_match; simplify_eq.
Qed.

Lemma access_read_spec s access a n : ram_ok s -> u32 a ->
  access_read s access a n = map (ram_byte (physical s)) <$> access_offsets s access a n.
Proof.
  intros [Hp _] Ha. unfold access_read, access_offsets.
  destruct (decide (n = 0%nat)) as [->|Hn]; [done|].
  rewrite (proj2 (Z.eqb_neq _ _)) by lia.
  destruct (decide (Z.of_nat n < 2 ^ 64)) as [Hlt|].
  2:{ unfold try_from_u. rewrite (proj2 (Z.ltb_ge _ _)), andb_false_r by lia.
      unfold is_u in Ha. rewrite decide_False by lia. done. }
  rewrite try_from_u_some by (unfold is_u; lia). cbn [ok_or mbind result_bind].
  rewrite range_new_nonzero by (done || lia).
  case_decide as Hend; cbn [mbind result_bind]; [|done].
  rewrite validate_access_translates by (done || unfold is_u in *; lia). rewrite Nat2Z.id.
  destruct (translate_all _ _ _ _ _) as [os|e] eqn:Htr; cbn [mbind result_bind]; [|done].
  rewrite (copy_from_guest_translates _ _ _ Hp _ _ _ os) by (done || unfold is_u in *; lia).
  done.
Qed.

Lemma access_write_spec s access a bs : ram_ok s -> u32 a ->
  access_write s access a bs =
  match access_offsets s access a (length bs) with
  | Err e => (Err e, s)
  | Ok os =>
    (Ok tt, with_table (with_physical s (store_at (physical s) os bs))
              (bump_written_generations (table s) a (Z.of_nat (length bs))))
  end.
Proof.
  intros [Hp _] Ha. unfold access_write, access_offsets.
  destruct (decide (length bs = 0%nat)) as [Hn|Hn].
  { rewrite Hn. by destruct s. }
  rewrite (proj2 (Z.eqb_neq _ _)) by lia.
  destruct (decide (Z.of_nat (length bs) < 2 ^ 64)) as [Hlt|].
  2:{ unfold try_from_u. rewrite (proj2 (Z.ltb_ge _ _)), andb_false_r by lia.
      unfold is_u in Ha. rewrite decide_False by lia. done. }
  rewrite try_from_u_some by (unfold is_u; lia). cbn [ok_or mbind result_bind].
  rewrite range_new_nonzero by (done || lia).
  case_decide as Hend; cbn [mbind result_bind]; [|done].
  rewrite validate_access_translates by (done || unfold is_u in *; lia). rewrite Nat2Z.id.
  destruct (translate_all _ _ _ _ _) as [os|e] eqn:Htr; [|done].
  by rewrite (copy_to_guest_translates _ _ _ Hp _ _ _ os) by (done || unfold is_u in *; lia).
Qed.

(** C1: every access of the software address space is the byte by byte
    semantics: a read or fetch translates each byte in order and copies RAM at
    those offsets, a write stores at them, and the first untranslatable byte
    decides the error; a refused write leaves the whole space as it was. *)
Theorem space_access_refines (s : SoftwareAddressSpace) (a : GuestVa) :
  ram_ok s -> u32 a ->
  (forall n, space_read s a n = map (ram_byte (physical s)) <$> access_offsets s Read a n) /\
  (forall n, space_fetch s a n = map (ram_byte (physical s)) <$> access_offsets s Execute a n) /\
  (forall bs, space_write s a bs =
     match access_offsets s Write a (length bs) with
     | Err e => (Err e, s)
     | Ok os =>
       (Ok tt, with_table (with_physical s (store_at (physical s) os bs))
                 (bump_written_generations (table s) a (Z.of_nat (length bs))))
     end).
Proof.
  intros Hs Ha. split_and!; intros.
  - by apply access_read_spec.
  - by apply access_read_spec.
  - by apply access_write_spec.
Qed.

(** ** What a write does to RAM *)

(** The value the last store to an offset left there. *)
Fixpoint last_written (os bs : list Z) (o : Z) : option Z :=
  match os, bs with
  | o' :: os, b :: bs =>
    match last_written os bs o with
    | Some v => Some v
    | None => if decide (o = o') then Some b else None
    end
  | _, _ => None
  end.

Lemma store_at_byte ram os bs o :
  ram_byte (store_at ram os bs) o = default (ram_byte ram o) (last_written os bs o).
Proof.
  revert ram bs. induction os as [|o' os IH]; intros ram [|b bs]; cbn; [done..|].
  rewrite IH. destruct (last_written os bs o); [done|]. cbn. unfold ram_byte.
  case_decide as Ho.
  - subst. by rewrite lookup_insert_eq.
  - by rewrite lookup_insert_ne by done.
Qed.

Lemma last_written_none os bs o : o ∉ os -> last_written os bs o = None.
Proof.
  revert bs. induction os as [|o' os IH]; intros [|b bs] Ho; cbn; [done..|].
  apply not_elem_of_cons in Ho as [? ?]. rewrite IH by done. by rewrite decide_False.
Qed.

Lemma last_written_nodup os bs i o b : NoDup os -> os !! i = Some o -> bs !! i = Some b ->
  last_written os bs o = Some b.
Proof.
  revert bs i. induction os as [|o' os IH]; intros bs i Hnd Ho Hb; [done|].
  apply NoDup_cons in Hnd as [Hnin Hnd]. destruct bs as [|b' bs]; [done|].
  destruct i as [|i]; cbn in *; simplify_eq.
  - rewrite last_written_none by done. by rewrite decide_True.
  - by rewrite (IH bs i).
Qed.

Lemma last_written_all os bs : NoDup os -> length os = length bs ->
  forall ram, map (fun o => default (ram_byte ram o) (last_written os bs o)) os = bs.
Proof.
  intros Hnd Hlen ram. apply list_eq. intros i. rewrite list_lookup_fmap.
  destruct (os !! i) as [o|] eqn:Ho; cbn.
  - destruct (lookup_lt_is_Some_2 bs i) as [b Hb].
    { apply lookup_lt_Some in Ho. lia. }
    by rewrite (last_written_nodup os bs i o b), Hb.
  - symmetry. apply lookup_ge_None. apply lookup_ge_None in Ho. lia.
Qed.

Lemma store_at_u8 ram os bs : Forall u8 bs -> map_Forall (fun _ b => u8 b) ram ->
  map_Forall (fun _ b => u8 b) (store_at ram os bs).
Proof.
  revert ram bs. induction os as [|o os IH]; intros ram [|b bs] Hbs Hram; try done.
  apply Forall_cons in Hbs as [? ?]. cbn. apply IH; [done|].
  by apply map_Forall_insert_2.
Qed.

Lemma ram_byte_u8 ram o : map_Forall (fun _ b => u8 b) ram -> u8 (ram_byte ram o).
Proof.
  intros H. unfold ram_byte. destruct (ram !! o) as [b|] eqn:Hb; cbn.
  - by apply (H o).
  - unfold is_u. lia.
Qed.

(** Translation keeps the offset inside the page, so the offsets of a page's
    worth of bytes are distinct, whatever the mapping. *)
Lemma translate_mod t plen access a o : translate t plen access a = Ok o -> o mod 4096 = a mod 4096.
Proof.
  unfold translate. intros (d & _ & H)%bind_ok_inv. case_match; simplify_eq.
  rewrite Z.add_comm, Z.mod_add by lia. apply Z.mod_mod. lia.
Qed.

Lemma translate_all_lookup t plen access a n os i o :
  translate_all t plen access a n = Ok os -> os !! i = Some o ->
  translate t plen access (a + Z.of_nat i) = Ok o.
Proof.
  revert a os i. induction n as [|n IH]; intros a os i Htr Ho; cbn in Htr.
  { by simplify_eq. }
  apply bind_ok_inv in Htr as (o1 & Ho1 & Htr). apply bind_ok_inv in Htr as (os1 & Hos & Htr).
  simplify_eq. destruct i as [|i]; cbn in Ho.
  - simplify_eq. by rewrite Z.add_0_r.
  - replace (a + Z.of_nat (S i)) with (a + 1 + Z.of_nat i) by lia. by eapply IH.
Qed.

Lemma translate_all_nodup t plen access a n os :
  translate_all t plen access a n = Ok os -> (n <= 4096)%nat -> NoDup os.
Proof.
  intros Htr Hn. pose proof (length_translate_all _ _ _ _ _ _ Htr) as Hlen.
  apply NoDup_alt. intros i j o Hi Hj.
  pose proof (lookup_lt_Some _ _ _ Hi). pose proof (lookup_lt_Some _ _ _ Hj).
  apply (translate_all_lookup _ _ _ _ _ _ _ _ Htr), translate_mod in Hi.
  apply (translate_all_lookup _ _ _ _ _ _ _ _ Htr), translate_mod in Hj. dlia.
Qed.

(** ** Written generations *)

Lemma bump_entries t p : entries (PageTable_bump_physical_generation t p).2 = entries t.
Proof. unfold PageTable_bump_physical_generation. by case_match. Qed.

Lemma get_entries t t' p : entries t' = entries t -> PageTable_get t' p = PageTable_get t p.
Proof. unfold PageTable_get. by intros ->. Qed.

Lemma bump_page_entries t q : entries (bump_page t q) = entries t.
Proof. unfold bump_page. case_match; [apply bump_entries | done]. Qed.

Lemma foldl_bump_entries ps t : entries (foldl bump_page t ps) = entries t.
Proof.
  revert t. induction ps as [|q ps IH]; intros t; cbn; [done|]. by rewrite IH, bump_page_entries.
Qed.

Lemma bump_written_entries t a n : entries (bump_written_generations t a n) = entries t.
Proof. unfold bump_written_generations. repeat case_match; auto using foldl_bump_entries. Qed.

Lemma translate_entries t t' plen access a : entries t' = entries t ->
  translate t' plen access a = translate t plen access a.
Proof.
  intros He. unfold translate, checked_descriptor. by rewrite (get_entries t t' _ He).
Qed.

Lemma translate_all_entries t t' plen access a n : entries t' = entries t ->
  translate_all t' plen access a n = translate_all t plen access a n.
Proof.
  intros He. revert a. induction n as [|n IH]; intros a; cbn; [done|].
  rewrite (translate_entries t t') by done. destruct (translate t plen access a); cbn; [|done].
  by rewrite IH.
Qed.

(** The generation of a physical page. *)
Definition generation_of (t : PageTable) (p : GuestPage) : Z :=
  default 0 (PageTable_physical_generation t p).

Definition generations_ok (t : PageTable) : Prop :=
  map_Forall (fun _ g => u16 g) (physical_generations t).

(** Virtual page [q] maps RAM page [p]. *)
Definition maps_ram_page (t : PageTable) (p q : GuestPage) : bool :=
  let d := PageTable_get t q in
  PageDescriptor_is_valid d && bool_decide (PageDescriptor_kind d = Ram) &&
  (PageDescriptor_physical_page d =? p).

(** How many pages of a list map a RAM page. *)
Definition hits (t : PageTable) (p : GuestPage) (ps : list GuestPage) : Z :=
  Z.of_nat (length (filter (fun q => maps_ram_page t p q = true) ps)).

Lemma generation_u16 t p : generations_ok t -> u16 (generation_of t p).
Proof.
  intros Hg. unfold generation_of, PageTable_physical_generation, array_get.
  case_match; [|unfold is_u; cbn; lia]. cbn.
  destruct (physical_generations t !! p) as [g|] eqn:E; cbn; [by apply (Hg p)|].
  unfold is_u. lia.
Qed.

Lemma bump_page_generation t q p : page_in_range p -> generations_ok t ->
  generations_ok (bump_page t q) /\
  generation_of (bump_page t q) p =
    if maps_ram_page t p q then wrap16 (generation_of t p + 1) else generation_of t p.
Proof.
  intros Hp Hok. unfold bump_page, maps_ram_page.
  destruct (PageDescriptor_is_valid _ && _) eqn:Hram; cbn [andb]; [|done].
  set (d := PageTable_get t q) in *.
  assert (page_in_range (PageDescriptor_physical_page d)) as Hd by apply physical_page_range.
  destruct (bump_spec t _ Hd) as (g & Hg & ->). cbn [snd]. split.
  - apply map_Forall_insert_2; [by apply wrap_range | done].
  - unfold generation_of. rewrite generation_insert by done.
    destruct (Z.eqb_spec (PageDescriptor_physical_page d) p) as [<-|];
      [rewrite decide_True by done; by rewrite Hg | by rewrite decide_False by congruence].
Qed.

Lemma maps_ram_entries t t' p q : entries t' = entries t ->
  maps_ram_page t' p q = maps_ram_page t p q.
Proof. intros He. unfold maps_ram_page. by rewrite (get_entries t t' _ He). Qed.

Lemma foldl_bump_generation ps t p : page_in_range p -> generations_ok t ->
  generations_ok (foldl bump_page t ps) /\
  generation_of (foldl bump_page t ps) p = wrap16 (generation_of t p + hits t p ps).
Proof.
  intros Hp. revert t. induction ps as [|q ps IH]; intros t Hok.
  { split; [done|]. unfold hits. cbn. rewrite Z.add_0_r.
    symmetry. by apply wrap_small, generation_u16. }
  destruct (bump_page_generation t q p Hp Hok) as [Hok' Hgen].
  destruct (IH (bump_page t q) Hok') as [Hok2 Hgen2]. split; [done|].
  cbn [foldl]. rewrite Hgen2, Hgen.
  assert (hits (bump_page t q) p ps = hits t p ps) as ->.
  { unfold hits. do 2 f_equal. apply list_filter_iff. intros x.
    by rewrite (maps_ram_entries t) by apply bump_page_entries. }
  unfold hits. destruct (maps_ram_page t p q) eqn:Hq.
  - rewrite filter_cons_True by done. cbn [length].
    unfold wrap. rewrite Zplus_mod_idemp_l. f_equal. lia.
  - by rewrite filter_cons_False by congruence.
Qed.

Lemma hits_positive t p ps : 0 < hits t p ps <-> exists q, q ∈ ps /\ maps_ram_page t p q = true.
Proof.
  unfold hits. split.
  - intros H. destruct (filter _ ps) as [|q l] eqn:Hf; cbn in H; [lia|].
    exists q. assert (q ∈ filter (fun q => maps_ram_page t p q = true) ps) as Hq
      by (rewrite Hf; left). apply list_elem_of_filter in Hq. tauto.
  - intros (q & Hq & Hm). assert (q ∈ filter (fun q => maps_ram_page t p q = true) ps) as Hf
      by by apply list_elem_of_filter.
    destruct (filter _ ps); [set_solver | cbn; lia].
Qed.

Lemma hits_bound t p r : range_wf r -> hits t p (GuestRange_pages r) <= range_len r / 4096 + 2.
Proof.
  intros Hr. unfold hits. pose proof (length_filter (fun q => maps_ram_page t p q = true)
    (GuestRange_pages r)) as Hl. rewrite pages_seqZ, length_seqZ in Hl by done.
  rewrite pages_seqZ by done. destruct Hr as (? & ? & ?).
  unfold GuestRange_page_count, GuestRange_end_exclusive in *.
  rewrite !Z.shiftr_div_pow2 in * by done. change (2 ^ GUEST_PAGE_SHIFT) with 4096 in *.
  enough (Z.of_nat (Z.to_nat ((range_start r + range_len r - 1) / 4096 -
    range_start r / 4096 + 1)) <= range_len r / 4096 + 2) by lia.
  pages.
Qed.

(** A byte the write reaches, and the page that maps it. *)
Lemma translate_maps t plen access a o : translate t plen access a = Ok o ->
  maps_ram_page t (o / 4096) (GuestVa_page a) = true.
Proof.
  unfold translate. intros (d & Hd & H)%bind_ok_inv. case_match; simplify_eq.
  apply checked_descriptor_ok in Hd as (-> & Hv & Hk). unfold maps_ram_page.
  rewrite Hv, Hk. cbn [andb]. rewrite bool_decide_eq_true_2 by done. cbn [andb].
  apply Z.eqb_eq. rewrite Z.add_comm, Z.div_add, Z.div_small by
    (lia || apply Z.mod_pos_bound; lia). lia.
Qed.

Lemma maps_ram_page_inj t p p' q :
  maps_ram_page t p q = true -> maps_ram_page t p' q = true -> p = p'.
Proof. unfold maps_ram_page. intros. bool_to_prop. congruence. Qed.

(** The facts about a non-empty write that succeeded. *)
Lemma space_write_ok_inv s a bs s' : ram_ok s -> u32 a -> bs <> [] ->
  space_write s a bs = (Ok tt, s') ->
  exists os, translate_all (table s) (physical_len s) Write a (length bs) = Ok os /\
    range_wf (mkGuestRange a (Z.of_nat (length bs))) /\
    s' = with_table (with_physical s (store_at (physical s) os bs))
           (foldl bump_page (table s)
              (GuestRange_pages (mkGuestRange a (Z.of_nat (length bs))))).
Proof.
  intros Hs Ha Hbs Hw. unfold space_write in Hw. rewrite access_write_spec in Hw by done.
  unfold access_offsets in Hw. assert (length bs <> 0%nat) by by destruct bs.
  rewrite (decide_False (P := length bs = 0%nat)) in Hw by done.
  unfold is_u in Ha. case_decide as Hend; [|by repeat case_decide; simplify_eq].
  destruct (translate_all _ _ _ _ _) as [os|e] eqn:Htr; simplify_eq.
  exists os. split; [done|]. split.
  - unfold range_wf, GuestRange_end_exclusive, is_u. cbn. lia.
  - f_equal. unfold bump_written_generations.
    rewrite try_from_u_some by (unfold is_u; lia).
    destruct (GuestRange_new a (Z.of_nat (length bs))) as [r|e] eqn:Hr.
    + apply range_new_ok_iff in Hr as (_ & _ & ->); [done | unfold is_u; lia..].
    + pose proof (range_new_nonzero a (Z.of_nat (length bs))) as Hn.
      rewrite Hr, decide_True in Hn by lia. discriminate Hn; unfold is_u; lia.
Qed.

Lemma written_page_iff s a n os p :
  translate_all (table s) (physical_len s) Write a n = Ok os ->
  range_wf (mkGuestRange a (Z.of_nat n)) ->
  0 < hits (table s) p (GuestRange_pages (mkGuestRange a (Z.of_nat n))) <->
  exists i o, (i < n)%nat /\
    translate (table s) (physical_len s) Write (a + Z.of_nat i) = Ok o /\ o / 4096 = p.
Proof.
  intros Htr Hr. rewrite hits_positive. pose proof (length_translate_all _ _ _ _ _ _ Htr).
  split.
  - intros (q & Hq & Hm). apply pages_elem in Hq as (g & Hg & <-); [|done].
    unfold GuestRange_contains, GuestRange_end_exclusive in Hg. cbn in Hg. bool_to_prop.
    destruct (lookup_lt_is_Some_2 os (Z.to_nat (g - a))) as [o Ho]; [lia|].
    apply (translate_all_lookup _ _ _ _ _ _ _ _ Htr) in Ho. exists (Z.to_nat (g - a)), o.
    split; [lia|]. split; [done|]. apply translate_maps in Ho.
    replace (a + Z.of_nat (Z.to_nat (g - a))) with g in Ho by lia.
    by eapply maps_ram_page_inj.
  - intros (i & o & Hi & Ho & <-). exists (GuestVa_page (a + Z.of_nat i)). split.
    + apply pages_elem; [done|]. eexists. split; [|done].
      unfold GuestRange_contains, GuestRange_end_exclusive. cbn.
      rewrite andb_true_iff, Z.leb_le, Z.ltb_lt. lia.
    + by eapply translate_maps.
Qed.

Lemma wrap16_moves g c : u16 g -> 0 <= c < 65536 -> wrap16 (g + c) <> g <-> 0 < c.
Proof. unfold is_u, wrap. intros. change (2 ^ 16) with 65536 in *. dlia. Qed.

(** C35: a successful write changes no mapping and adds, for every RAM page,
    one to its generation per written virtual page that maps it (modulo the
    16-bit counter).  For a write of less than 65534 pages a page's generation
    therefore changes exactly when some written byte lies in it, whichever
    alias was written through: this is what invalidates cached code. *)
Theorem write_bumps_exactly_written_pages (s s' : SoftwareAddressSpace) (a : GuestVa)
    (bs : list Z) (p : GuestPage) :
  ram_ok s -> generations_ok (table s) -> u32 a -> bs <> [] -> page_in_range p ->
  space_write s a bs = (Ok tt, s') ->
  entries (table s') = entries (table s) /\
  generation_of (table s') p =
    wrap16 (generation_of (table s) p +
            hits (table s) p (GuestRange_pages (mkGuestRange a (Z.of_nat (length bs))))) /\
  (Z.of_nat (length bs) <= 65533 * 4096 ->
   (generation_of (table s') p <> generation_of (table s) p <->
    exists i o, (i < length bs)%nat /\
      translate (table s) (physical_len s) Write (a + Z.of_nat i) = Ok o /\ o / 4096 = p)).
Proof.
  intros Hs Hg Ha Hbs Hp Hw.
  destruct (space_write_ok_inv s a bs s' Hs Ha Hbs Hw) as (os & Htr & Hr & ->).
  cbn [with_table table]. set (r := mkGuestRange a (Z.of_nat (length bs))) in *.
  destruct (foldl_bump_generation (GuestRange_pages r) (table s) p Hp Hg) as [_ Hgen].
  split_and!; [apply foldl_bump_entries | done |].
  intros Hlen. rewrite Hgen. rewrite <- (written_page_iff s a (length bs) os) by done.
  pose proof (hits_bound (table s) p r Hr) as Hb. unfold r in *. cbn [range_len] in Hb.
  apply wrap16_moves; [by apply generation_u16|]. split; [unfold hits; lia|].
  assert (Z.of_nat (length bs) / 4096 <= (65533 * 4096) / 4096)
    by (apply Z.div_le_mono; lia).
  change ((65533 * 4096) / 4096) with 65533 in *. lia.
Qed.

(** ** The laws of [GuestMemory] *)

Lemma access_offsets_write s os bs gens access a n :
  access_offsets (with_table (with_physical s (store_at (physical s) os bs)) gens) access a n =
  if decide (n = 0%nat) then Ok []
  else if decide (a + Z.of_nat n <= 2 ^ 32)
  then translate_all gens (physical_len s) access a n
  else if decide (Z.of_nat n < 2 ^ 64)
  then Err (AddressErr (RangeOverflow a (Z.of_nat n)))
  else Err HostSizeOverflow.
Proof. done. Qed.

(** A write moves no access: the same offsets, the same errors. *)
Lemma write_keeps_offsets s a bs r s' access b n : ram_ok s -> u32 a ->
  space_write s a bs = (r, s') -> access_offsets s' access b n = access_offsets s access b n.
Proof.
  intros Hs Ha Hw. unfold space_write in Hw. rewrite access_write_spec in Hw by done.
  destruct (access_offsets s Write a (length bs)) as [os|e]; simplify_eq; [|done].
  rewrite access_offsets_write. unfold access_offsets. repeat case_decide; try done.
  by apply translate_all_entries, bump_written_entries.
Qed.

Lemma write_ram_ok s a bs r s' : ram_ok s -> u32 a -> Forall u8 bs ->
  space_write s a bs = (r, s') -> ram_ok s'.
Proof.
  intros Hs Ha Hbs Hw. unfold space_write in Hw. rewrite access_write_spec in Hw by done.
  destruct (access_offsets s Write a (length bs)) as [os|e]; simplify_eq; [|done].
  destruct Hs as [? ?]. split; [done|]. by apply store_at_u8.
Qed.

Lemma offsets_length s access a n os : access_offsets s access a n = Ok os -> length os = n.
Proof.
  unfold access_offsets. repeat case_decide; intros; simplify_eq; [done|].
  by eapply length_translate_all.
Qed.

Lemma access_read_bytes s access a n bs : ram_ok s -> u32 a ->
  access_read s access a n = Ok bs -> length bs = n /\ Forall u8 bs.
Proof.
  intros Hs Ha Hr. rewrite access_read_spec in Hr by done.
  destruct (access_offsets s access a n) as [os|e] eqn:Ho; cbn in Hr; simplify_eq.
  rewrite length_map. split; [by eapply offsets_length|].
  apply Forall_map, Forall_true. intros. by apply ram_byte_u8, Hs.
Qed.

(** Where both translate, reading and writing reach the same byte. *)
Lemma translate_agree t plen access access' a o o' :
  translate t plen access a = Ok o -> translate t plen access' a = Ok o' -> o = o'.
Proof.
  unfold translate. intros (d & Hd & H)%bind_ok_inv (d' & Hd' & H')%bind_ok_inv.
  apply checked_descriptor_ok in Hd as (-> & _). apply checked_descriptor_ok in Hd' as (-> & _).
  repeat case_match; congruence.
Qed.

Lemma translate_all_agree t plen access access' a n os os' :
  translate_all t plen access a n = Ok os -> translate_all t plen access' a n = Ok os' -> os = os'.
Proof.
  revert a os os'. induction n as [|n IH]; intros a os os' H H'; cbn in *; [congruence|].
  apply bind_ok_inv in H as (o & Ho & H). apply bind_ok_inv in H as (os1 & Hos & H).
  apply bind_ok_inv in H' as (o' & Ho' & H'). apply bind_ok_inv in H' as (os1' & Hos' & H').
  simplify_eq. f_equal; [by eapply translate_agree | by eapply IH].
Qed.

Lemma offsets_agree s access access' a n os os' :
  access_offsets s access a n = Ok os -> access_offsets s access' a n = Ok os' -> os = os'.
Proof.
  unfold access_offsets. repeat case_decide; intros; simplify_eq; [done|].
  by eapply translate_all_agree.
Qed.

Lemma offsets_nodup s access a n os :
  access_offsets s access a n = Ok os -> (n <= 4096)%nat -> NoDup os.
Proof.
  unfold access_offsets. repeat case_decide; intros; simplify_eq; [constructor|].
  by eapply translate_all_nodup.
Qed.

(** Distinct offsets read back what was stored. *)
Lemma space_read_back s a bs os s' access : ram_ok s -> u32 a -> Forall u8 bs ->
  access_offsets s Write a (length bs) = Ok os -> NoDup os ->
  space_write s a bs = (Ok tt, s') -> is_ok (access_read s access a (length bs)) = true ->
  access_read s' access a (length bs) = Ok bs.
Proof.
  intros Hs Ha Hbs Hos Hnd Hw Hr. pose proof (write_ram_ok _ _ _ _ _ Hs Ha Hbs Hw) as Hs'.
  rewrite access_read_spec in * by done. rewrite (write_keeps_offsets s a bs (Ok tt)) by done.
  destruct (access_offsets s access a (length bs)) as [os'|e] eqn:Ho; [|done].
  rewrite <- (offsets_agree _ _ _ _ _ _ _ Hos Ho). cbn. f_equal.
  unfold space_write in Hw. rewrite access_write_spec, Hos in Hw by done. simplify_eq.
  cbn [with_table with_physical physical].
  rewrite <- (last_written_all os bs Hnd (offsets_length _ _ _ _ _ Hos) (physical s)) at 2.
  apply map_ext. intros o. apply store_at_byte.
Qed.

#[export] Instance SoftwareAddressSpace_typed : GuestMemoryTyped SoftwareAddressSpace.
Proof.
  refine {| mem_ok := ram_ok |}; cbn [mem_read mem_fetch mem_write
    SoftwareAddressSpace_GuestMemory].
  - intros m a n bs. apply access_read_bytes.
  - intros m a n bs. apply access_read_bytes.
  - intros m a bs r m'. apply write_ram_ok.
Defined.

#[export] Instance SoftwareAddressSpace_laws : GuestMemoryLaws SoftwareAddressSpace.
Proof.
  split; cbn [mem_read mem_fetch mem_write mem_ok SoftwareAddressSpace_GuestMemory
    SoftwareAddressSpace_typed].
  - intros m a bs e m' Hs Ha Hw. unfold space_write in Hw.
    rewrite access_write_spec in Hw by done.
    destruct (access_offsets _ _ _ _); congruence.
  - intros m a bs r m' b n Hs Ha Hbs Hb Hw.
    pose proof (write_ram_ok _ _ _ _ _ Hs Ha Hbs Hw) as Hs'.
    unfold space_read. rewrite !access_read_spec by done.
    rewrite (write_keeps_offsets m a bs r) by done. by destruct (access_offsets _ _ _ _).
  - intros m a bs m' Hs Ha Hbs Hlen Hw Hr.
    destruct (access_offsets m Write a (length bs)) as [os|e] eqn:Hos.
    + eapply space_read_back; try done. by eapply offsets_nodup.
    + unfold space_write in Hw. rewrite access_write_spec, Hos in Hw by done. done.
Qed.

(** aliases are coherent.  After a write of up to a page through one
    virtual address, a byte read through any virtual address that translates
    to a written byte gives the value written, and a read of a byte that was
    not written gives what it gave before. *)
Theorem alias_coherent (s s' : SoftwareAddressSpace) (a b : GuestVa) (bs : list Z) (o : Z) :
  ram_ok s -> u32 a -> u32 b -> Forall u8 bs -> (length bs <= 4096)%nat ->
  space_write s a bs = (Ok tt, s') ->
  translate (table s) (physical_len s) Read b = Ok o ->
  (forall i v, bs !! i = Some v ->
     translate (table s) (physical_len s) Write (a + Z.of_nat i) = Ok o ->
     space_read s' b 1 = Ok [v]) /\
  ((forall i, (i < length bs)%nat ->
     translate (table s) (physical_len s) Write (a + Z.of_nat i) <> Ok o) ->
   space_read s' b 1 = space_read s b 1).
Proof.
  intros Hs Ha Hb Hbs Hlen Hw Ho. destruct (decide (bs = [])) as [->|Hne].
  { change (space_write s a []) with (@Ok MemoryError unit tt, s) in Hw. simplify_eq.
    split; [by intros i v Hv; rewrite lookup_nil in Hv | done]. }
  pose proof (write_ram_ok _ _ _ _ _ Hs Ha Hbs Hw) as Hs'.
  assert (access_offsets s Read b 1 = Ok [o]) as Hob.
  { unfold access_offsets, is_u in *.
    rewrite (decide_False (P := 1%nat = 0%nat)), decide_True by lia. cbn. by rewrite Ho. }
  unfold space_read. rewrite !access_read_spec, (write_keeps_offsets s a bs (Ok tt)), Hob by done.
  destruct (space_write_ok_inv s a bs s' Hs Ha Hne Hw) as (os & Htr & Hr & ->).
  cbn [with_table with_physical physical fmap result_fmap map].
  pose proof (length_translate_all _ _ _ _ _ _ Htr) as Hl. rewrite store_at_byte. split.
  - intros i v Hv Hi. destruct (lookup_lt_is_Some_2 os i) as [o' Ho'].
    { apply lookup_lt_Some in Hv. lia. }
    pose proof (translate_all_lookup _ _ _ _ _ _ _ _ Htr Ho').
    assert (o' = o) as -> by congruence.
    rewrite (last_written_nodup os bs i o v); [done| |done..].
    by eapply translate_all_nodup.
  - intros Hno. rewrite last_written_none; [done|]. intros (i & Hi)%list_elem_of_lookup.
    apply (Hno i).
    + apply lookup_lt_Some in Hi. lia.
    + by eapply translate_all_lookup.
Qed.

(** ** Mapping *)

Definition space_wf (s : SoftwareAddressSpace) : Prop :=
  ram_ok s /\ alloc_wf (allocator s) /\
  physical_len s = 4096 * alloc_page_count (allocator s) /\ physical_len s <= 2 ^ 32.

Lemma ram_descriptor_facts phys perms gen : page_in_range phys ->
  let d := PageDescriptor_ram phys perms gen in
  PageDescriptor_is_valid d = true /\ PageDescriptor_kind d = Ram /\
  PageDescriptor_permissions d = perms mod 8 /\ PageDescriptor_physical_page d = phys.
Proof.
  intros Hp. cbn zeta. pose proof (pack_view Ram perms phys 0 gen WatchFlags_NONE) as Hv.
  unfold descriptor_view in Hv. injection Hv as Hv1 Hv2 Hv3 Hv4 _ _ _.
  unfold PageDescriptor_ram. rewrite Hv1, Hv2, Hv3, Hv4. split_and!; try done.
  apply Z.mod_small. unfold page_in_range in Hp. by rewrite page_count_val in Hp.
Qed.

Lemma translate_ram t plen access a d :
  PageTable_get t (GuestVa_page a) = d ->
  PageDescriptor_is_valid d = true -> PageDescriptor_kind d = Ram ->
  permissions_contain (PageDescriptor_permissions d) (AccessKind_required_permission access) = true ->
  PageDescriptor_physical_page d * 4096 + a mod 4096 < plen ->
  translate t plen access a = Ok (PageDescriptor_physical_page d * 4096 + a mod 4096).
Proof.
  intros Hd Hv Hk Hp Hlt. unfold translate, checked_descriptor. rewrite Hd, Hv, Hk, Hp.
  rewrite bool_decide_eq_false_2 by done. cbn [negb orb mbind result_bind].
  by rewrite (proj2 (Z.leb_gt _ _)) by done.
Qed.

(** Which accesses a permission set grants. *)
Definition grants (perms : Z) (access : AccessKind) : bool :=
  permissions_contain (perms mod 8) (AccessKind_required_permission access).

(** ** A concrete space

    Eight pages of RAM behind the cached window, and two anonymous pages at
    [0x1000] that the window aliases at [0x80000000]. *)

Definition demo_space : SoftwareAddressSpace :=
  match SoftwareAddressSpace_new true 0x8000 with
  | Ok s =>
    (map_anonymous (map_physical_window s).2 (mkGuestRange 0x1000 0x2000)
       (Z.lor PERM_READ PERM_WRITE)).2
  | Err _ => mkSpace ∅ 0 PageTable_new (PhysicalAllocator_new 0) 0
  end.

Lemma demo_space_wf : space_wf demo_space.
Proof.
  assert (physical demo_space = ∅ /\ physical_len demo_space = 0x8000 /\
          allocator demo_space = mkPhysicalAllocator 2 8 []) as (Hp & Hl & Ha)
    by (vm_compute; done).
  unfold space_wf, ram_ok, alloc_wf. rewrite Hp, Hl, Ha. cbn. split_and!; try done || lia.
Defined.

Lemma space_access_refines_witness :
  space_read demo_space 0x2FFF 2 = Err (UnmappedErr 0x3000 Read).
Proof.
  destruct (space_access_refines demo_space 0x2FFF (proj1 demo_space_wf)) as [H _];
    [unfold is_u; lia|].
  rewrite H. by vm_compute.
Defined.

Lemma write_bumps_exactly_written_pages_witness :
  let s' := (space_write demo_space 0x1FFE [1; 2; 3]).2 in
  generation_of (table s') 1 = 1 /\
  entries (table s') = entries (table demo_space).
Proof.
  destruct (write_bumps_exactly_written_pages demo_space
    (space_write demo_space 0x1FFE [1; 2; 3]).2 0x1FFE [1; 2; 3] 1
    (proj1 demo_space_wf)) as (He & Hg & _).
  - by vm_compute.
  - unfold is_u; lia.
  - done.
  - by unfold page_in_range.
  - by vm_compute.
  - split; [rewrite Hg; by vm_compute | exact He].
Defined.

Lemma alias_coherent_witness :
  space_read (space_write demo_space 0x1FFE [1; 2; 3]).2 0x80001000 1 = Ok [3].
Proof.
  refine (proj1 (alias_coherent demo_space (space_write demo_space 0x1FFE [1; 2; 3]).2
    0x1FFE 0x80001000 [1; 2; 3] 0x1000 (proj1 demo_space_wf) _ _ _ _ _ _) 2%nat 3 _ _).
  - unfold is_u; lia.
  - unfold is_u; lia.
  - repeat constructor; unfold is_u; lia.
  - cbn. lia.
  - by vm_compute.
  - by vm_compute.
  - done.
  - by vm_compute.
Defined.
