(* ===== verification/MappingTheorems.v ===== *)
(** * Mapping, loading and freeing guest memory

    What [map_anonymous], [load_region], [free_physical] and
    [reserve_physical_through] of [software.rs] do to the mappings, to RAM and
    to the set of available pages, on success and on failure. *)

From S2P Require Import Prelude GuestTypes PageTable Allocator GuestMemory SoftwareSpace SoftwareSpaceProofs SpaceTheorems.

(** ** [map_anonymous] *)

Lemma aligned_count r : range_wf r -> range_aligned r ->
  GuestRange_page_count r * 4096 = range_len r /\ GuestVa_page (range_start r) * 4096 = range_start r.
Proof.
  intros (? & ? & ?) [? ?]. unfold GuestRange_page_count, GuestRange_end_exclusive in *.
  rewrite !Z.shiftr_div_pow2, va_page_div in * by done.
  change (2 ^ GUEST_PAGE_SHIFT) with 4096 in *. rewrite page_size_val in *. split; dlia.
Qed.

(** The pages of a range map consecutive RAM pages from [phys]. *)
Definition maps_linear (t : PageTable) (r : GuestRange) (phys perms : Z) : Prop :=
  forall q, q ∈ GuestRange_pages r ->
    let d := PageTable_get t q in
    PageDescriptor_is_valid d = true /\ PageDescriptor_kind d = Ram /\
    PageDescriptor_permissions d = perms mod 8 /\
    PageDescriptor_physical_page d = phys + (q - GuestVa_page (range_start r)).

Lemma map_ram_linear t t' r phys perms : range_wf r -> u32 phys ->
  phys + GuestRange_page_count r <= GUEST_PAGE_COUNT ->
  PageTable_map_ram t r phys perms = (Ok tt, t') -> maps_linear t' r phys perms.
Proof.
  intros Hr Hp Hend Hrun q Hq. cbn zeta.
  destruct (map_ram_spec t r phys perms Hr Hp) as (res & t1 & Hrun' & _ & Hok & _).
  rewrite Hrun in Hrun'. injection Hrun' as <- <-. destruct (Hok eq_refl) as [_ ->].
  rewrite decide_True by done. cbn zeta. apply ram_descriptor_facts.
  rewrite pages_seqZ in Hq by done. apply elem_of_seqZ in Hq.
  unfold page_in_range, is_u in *. lia.
Qed.

Lemma protect_linear t t' r phys perms perms' : range_wf r ->
  maps_linear t r phys perms -> PageTable_protect t r perms' = (Ok tt, t') ->
  maps_linear t' r phys perms'.
Proof.
  intros Hr Hmap Hrun q Hq. destruct (Hmap q Hq) as (Hv & Hk & _ & Hp). cbn zeta.
  destruct (protect_spec t r perms' Hr) as (res & t1 & Hrun' & _ & Hok & _).
  rewrite Hrun in Hrun'. injection Hrun' as <- <-. destruct (Hok eq_refl) as [_ ->].
  rewrite decide_True by done.
  pose proof (with_permissions_view (PageTable_get t q) perms') as Hview.
  unfold descriptor_view in Hview. cbn in Hview. injection Hview as -> -> -> -> _ _ _. done.
Qed.

(** A linear mapping grants what its permissions grant, and translates it by
    adding a constant. *)
Lemma translate_linear t r phys perms plen g access :
  range_wf r -> range_aligned r -> 0 <= phys -> phys * 4096 + range_len r <= plen ->
  maps_linear t r phys perms -> GuestRange_contains r g = true ->
  translate t plen access g =
  if grants perms access then Ok (phys * 4096 + (g - range_start r))
  else Err (AccessDenied g access).
Proof.
  intros Hr Hal Hp0 Hp Hmap Hg. pose proof (aligned_count r Hr Hal) as [Hc Hs].
  assert (GuestVa_page g ∈ GuestRange_pages r) as Hq by (apply pages_elem; eauto).
  destruct (Hmap _ Hq) as (Hv & Hk & Hpm & Hpp). cbn zeta in *.
  unfold GuestRange_contains, GuestRange_end_exclusive in Hg. bool_to_prop.
  destruct (grants perms access) eqn:Hgr; unfold grants in Hgr.
  - rewrite (translate_ram _ _ _ _ _ eq_refl Hv Hk); rewrite ?Hpm, ?Hpp;
      rewrite ?va_page_div in *; [f_equal; dlia | done | dlia].
  - unfold translate, checked_descriptor. by rewrite Hv, Hk, Hpm, Hgr.
Qed.

Lemma map_anonymous_spec s r perms : space_wf s -> range_wf r ->
  match map_anonymous s r perms with
  | (Err e, s') =>
    physical s' = physical s /\ physical_len s' = physical_len s /\ table s' = table s /\
    mapping_epoch s' = mapping_epoch s /\ space_wf s' /\
    forall p, available (allocator s') p <-> available (allocator s) p
  | (Ok pa, s') =>
    space_wf s' /\ physical s' = physical s /\ physical_len s' = physical_len s /\
    range_aligned r /\ pa mod 4096 = 0 /\ 0 <= pa /\ pa + range_len r <= physical_len s /\
    (forall p, pa / 4096 <= p < pa / 4096 + GuestRange_page_count r ->
       available (allocator s) p) /\
    (forall p, available (allocator s') p <->
       available (allocator s) p /\ ~ (pa / 4096 <= p < pa / 4096 + GuestRange_page_count r)) /\
    maps_linear (table s') r (pa / 4096) perms /\
    (forall q, q ∉ GuestRange_pages r -> PageTable_get (table s') q = PageTable_get (table s) q)
  end.
Proof.
  intros (Hram & Halloc & Hlen & Hmax) Hr. unfold map_anonymous.
  pose proof (page_count_bounds r Hr) as (Hc1 & Hc2 & Hc3).
  destruct (lift_address (GuestRange_require_page_alignment r)) as [[]|e] eqn:Ea.
  2:{ by split_and!. }
  apply lift_align_ok in Ea. rewrite page_count_val in *.
  rewrite try_from_u_some by (unfold is_u; lia).
  pose proof (allocate_spec (allocator s) (GuestRange_page_count r) Halloc ltac:(lia)) as Hspec.
  destruct (PhysicalAllocator_allocate _ _) as [[page|e] a'] eqn:Hrun.
  2:{ destruct Hspec as (-> & _). destruct s. by split_and!. }
  destruct Hspec as (Hwf' & Hcount & Hnext & Hpage & Hend & Hav & Hav').
  pose proof Hwf' as ([_ Hle] & _).
  pose proof (aligned_count r Hr Ea) as [Hbytes _].
  assert (GuestPage_start_pa page = page * 4096) as Hpa
    by (apply start_va_mul; rewrite page_count_val; lia).
  destruct (map_ram_spec (table s) r page perms) as (res & t' & Hmap & Hiff & Hok & Herr);
    [done | unfold is_u; lia |].
  rewrite Hmap. destruct res as [[]|e].
  - destruct (Hok eq_refl) as [Hgens Hget].
    rewrite Hpa. cbn [bump_mapping_epoch with_allocator with_table physical physical_len table
      allocator].
    split_and!; try done; try lia.
    + unfold space_wf. cbn. rewrite Hcount. by split_and!.
    + by rewrite Z.mod_mul.
    + intros p. rewrite Z.div_mul by lia. apply Hav.
    + intros p. rewrite Z.div_mul by lia. apply Hav'.
    + rewrite Z.div_mul by lia. apply (map_ram_linear (table s)); [done | unfold is_u; lia | |].
      * rewrite page_count_val. lia.
      * exact Hmap.
    + intros q Hq. by rewrite Hget, decide_False.
  - rewrite (Herr ltac:(done)).
    destruct (rollback_spec a' page (GuestRange_page_count r)) as (Hwf2 & Hcount2 & Hback);
      [done | done | lia | done | |].
    { intros p Hp Hin. apply (proj1 (Hav' p)); [by left | done]. }
    cbn. split_and!; try done.
    + unfold space_wf. cbn. rewrite Hcount2, Hcount. by split_and!.
    + intros p. rewrite Hback, Hav'. specialize (Hav p).
      destruct (decide (page <= p < page + GuestRange_page_count r)); tauto.
Qed.

(** [map_anonymous] on success takes pages that were available, maps the
    range linearly onto them with the requested permissions and leaves every
    other mapping alone; on failure (misaligned, out of memory, or overlapping
    a mapping) RAM, the table, the epoch and the set of available pages are
    what they were, so a failed mapping leaks nothing. *)
Theorem map_anonymous_correct (s : SoftwareAddressSpace) (r : GuestRange) (perms : Z) :
  space_wf s -> range_wf r ->
  match map_anonymous s r perms with
  | (Err e, s') =>
    physical s' = physical s /\ physical_len s' = physical_len s /\ table s' = table s /\
    mapping_epoch s' = mapping_epoch s /\ space_wf s' /\
    forall p, available (allocator s') p <-> available (allocator s) p
  | (Ok pa, s') =>
    space_wf s' /\ physical s' = physical s /\
    (forall p, pa / 4096 <= p < pa / 4096 + GuestRange_page_count r ->
       available (allocator s) p /\ ~ available (allocator s') p) /\
    (forall g access, GuestRange_contains r g = true ->
       translate (table s') (physical_len s) access g =
       if grants perms access then Ok (pa + (g - range_start r))
       else Err (AccessDenied g access)) /\
    (forall q, q ∉ GuestRange_pages r -> PageTable_get (table s') q = PageTable_get (table s) q)
  end.
Proof.
  intros Hs Hr. pose proof (map_anonymous_spec s r perms Hs Hr) as H.
  destruct (map_anonymous s r perms) as [[pa|e] s']; [|exact H].
  destruct H as (Hwf & Hram & _ & Hal & Hpa & Hpa0 & Hend & Hav & Hav' & Hmap & Hfr).
  split_and!; [done | done | | | done].
  - intros p Hp. split; [by apply Hav|]. rewrite Hav'. tauto.
  - intros g access Hg. assert (pa = pa / 4096 * 4096) as Hpa' by dlia.
    rewrite (translate_linear _ r (pa / 4096) perms) by (done || dlia).
    by rewrite <- Hpa'.
Qed.

(** ** [load_region] *)

Lemma align_up_page v : u32 v ->
  align_up v GUEST_PAGE_SIZE = Ok ((v + 4095) / 4096 * 4096).
Proof.
  intros Hv. unfold align_up, is_u in *. rewrite page_size_val.
  rewrite checked_add_some by lia. cbn [ok_or mbind result_bind]. f_equal.
  change (4096 - 1) with (Z.ones 12). set (x := v + Z.ones 12).
  assert (is_u 64 x) as Hx by (unfold x, is_u; change (Z.ones 12) with 4095; lia).
  assert (Z.land x (unot 64 (Z.ones 12)) = Z.ldiff x (Z.ones 12)) as ->.
  { apply Z.bits_inj'. intros i Hi. rewrite Z.land_spec, Z.ldiff_spec, unot_spec by lia.
    destruct (Z.ltb_spec i 64); [by rewrite xorb_true_r|].
    by rewrite (is_u_high_bit 64 x) by (done || lia). }
  by rewrite Z.ldiff_ones_r, Z.shiftl_mul_pow2, Z.shiftr_div_pow2 by lia.
Qed.

Lemma translate_all_linear t plen access a n delta :
  (forall g, a <= g < a + Z.of_nat n -> translate t plen access g = Ok (g + delta)) ->
  translate_all t plen access a n = Ok (seqZ (a + delta) (Z.of_nat n)).
Proof.
  revert a. induction n as [|n IH]; intros a Ht; [done|].
  cbn [translate_all]. rewrite Ht by lia. cbn [mbind result_bind]. rewrite IH.
  2:{ intros. apply Ht. lia. }
  cbn [mbind result_bind]. rewrite (seqZ_cons _ (Z.of_nat (S n))) by lia.
  repeat f_equal; lia.
Qed.

Lemma offsets_linear s r phys perms access n :
  range_wf r -> range_aligned r -> 0 <= phys -> phys * 4096 + range_len r <= physical_len s ->
  maps_linear (table s) r phys perms -> grants perms access = true ->
  Z.of_nat n <= range_len r ->
  access_offsets s access (range_start r) n = Ok (seqZ (phys * 4096) (Z.of_nat n)).
Proof.
  intros Hr Hal Hp Hend Hmap Hgr Hn. unfold access_offsets. pose proof Hr as (? & ? & He).
  unfold GuestRange_end_exclusive in He.
  destruct (decide (n = 0%nat)) as [->|]; [done|]. rewrite decide_True by lia.
  rewrite (translate_all_linear _ _ _ _ _ (phys * 4096 - range_start r)).
  - do 2 f_equal. lia.
  - intros g Hg. rewrite (translate_linear _ r phys perms), Hgr; try done; [f_equal; lia|].
    unfold GuestRange_contains, GuestRange_end_exclusive.
    rewrite andb_true_iff, Z.leb_le, Z.ltb_lt. lia.
Qed.

Lemma maps_linear_entries t t' r phys perms : entries t' = entries t ->
  maps_linear t r phys perms -> maps_linear t' r phys perms.
Proof. intros He Hmap q Hq. rewrite (get_entries t) by done. by apply Hmap. Qed.

Lemma grants_temporary perms : grants (Z.lor perms PERM_WRITE) Write = true.
Proof.
  unfold grants, permissions_contain. cbn [AccessKind_required_permission].
  apply Z.eqb_eq. change 8 with (2 ^ 3). rewrite <- Z.land_ones by lia.
  rewrite Z.land_lor_distr_l, Z.land_lor_distr_l.
  change (Z.land (Z.land PERM_WRITE (Z.ones 3)) PERM_WRITE) with PERM_WRITE.
  apply Z.bits_inj'. intros i Hi. rewrite Z.lor_spec, !Z.land_spec.
  by destruct (Z.testbit perms i), (Z.testbit (Z.ones 3) i), (Z.testbit PERM_WRITE i).
Qed.

Lemma seqZ_store ram o bs i b : bs !! i = Some b ->
  ram_byte (store_at ram (seqZ o (Z.of_nat (length bs))) bs) (o + Z.of_nat i) = b.
Proof.
  intros Hb. pose proof (lookup_lt_Some _ _ _ Hb).
  rewrite store_at_byte, (last_written_nodup _ bs i _ b); [done| | |done].
  - apply NoDup_seqZ.
  - apply lookup_seqZ. lia.
Qed.

(** The write and the protection that follow a successful mapping succeed. *)
Lemma load_write_protect s r phys perms init :
  ram_ok s -> range_wf r -> range_aligned r -> 0 <= phys ->
  phys * 4096 + range_len r <= physical_len s ->
  maps_linear (table s) r phys (Z.lor perms PERM_WRITE) ->
  Z.of_nat (length init) <= range_len r ->
  exists s1 s2, space_write s (range_start r) init = (Ok tt, s1) /\
    space_protect s1 r perms = (Ok tt, s2) /\
    maps_linear (table s2) r phys perms /\ physical_len s2 = physical_len s /\
    allocator s2 = allocator s /\
    physical s2 = store_at (physical s) (seqZ (phys * 4096) (Z.of_nat (length init))) init.
Proof.
  intros Hs Hr Hal Hp Hend Hmap Hn. pose proof Hr as (Hstart & _).
  unfold space_write. rewrite access_write_spec by done.
  rewrite (offsets_linear s r phys (Z.lor perms PERM_WRITE) Write)
    by auto using grants_temporary.
  set (t1 := bump_written_generations (table s) (range_start r) (Z.of_nat (length init))).
  assert (maps_linear t1 r phys (Z.lor perms PERM_WRITE)) as Hmap1
    by exact (maps_linear_entries (table s) t1 r phys _ (bump_written_entries _ _ _) Hmap).
  destruct (protect_spec t1 r perms Hr) as (res & t2 & Hrun & Hiff & _).
  assert (res = Ok tt) as ->.
  { apply Hiff. split; [done|]. apply list.Forall_forall. intros q Hq. by apply Hmap1. }
  eexists _, _. split; [done|]. unfold space_protect. cbn [with_table table]. rewrite Hrun.
  split; [done|]. split_and!; try done. by eapply protect_linear.
Qed.

(** [load_region] refuses a bad request without changing RAM, the table
    or the set of available pages; otherwise the region is mapped onto
    consecutive pages, holds the initial bytes, and grants exactly the
    requested permissions: the temporary write permission used for the copy
    is gone. *)
Theorem load_region_correct (s : SoftwareAddressSpace) (a virtual_size : Z) (init : list Z)
    (perms : Z) :
  space_wf s -> u32 a -> u32 virtual_size -> Forall u8 init ->
  match load_region s a virtual_size init perms with
  | (Err e, s') =>
    physical s' = physical s /\ table s' = table s /\
    forall p, available (allocator s') p <-> available (allocator s) p
  | (Ok pa, s') =>
    Z.of_nat (length init) <= virtual_size /\
    (forall i b, init !! i = Some b -> ram_byte (physical s') (pa + Z.of_nat i) = b) /\
    (grants perms Read = true -> space_read s' a (length init) = Ok init) /\
    (forall g access, a <= g < a + virtual_size ->
       translate (table s') (physical_len s') access g =
       if grants perms access then Ok (pa + (g - a)) else Err (AccessDenied g access))
  end.
Proof.
  intros Hs Ha Hvs Hinit. unfold load_region. pose proof Hs as (Hram & _).
  destruct (Z.ltb_spec virtual_size (Z.of_nat (length init))) as [?|Hle]; [done|].
  rewrite align_up_page by done. cbn [mbind result_bind]. unfold is_u in *.
  set (rounded := (virtual_size + 4095) / 4096 * 4096).
  assert (virtual_size <= rounded < 2 ^ 33) as Hrnd by (unfold rounded; dlia).
  destruct (lift_address (GuestRange_page_aligned a rounded)) as [r|e] eqn:Hr; [|done].
  unfold lift_address in Hr. rewrite map_err_ok in Hr. unfold GuestRange_page_aligned in Hr.
  invert_ok. subst.
  match goal with H : GuestRange_new _ _ = Ok _ |- _ => rename H into Hnew end.
  pose proof (range_new_wf a rounded r ltac:(unfold is_u; lia) ltac:(unfold is_u; lia) Hnew) as Hwf.
  apply range_new_ok_iff in Hnew as (_ & _ & ->); [|unfold is_u; lia..].
  pose proof (map_anonymous_spec s _ (Z.lor perms PERM_WRITE) Hs Hwf) as Hmap.
  destruct (map_anonymous s _ _) as [[pa|e] s1].
  2:{ destruct Hmap as (? & _ & ? & _ & _ & ?). done. }
  destruct Hmap as (Hs1 & Hram1 & Hlen1 & Hal & Hpa & Hpa0 & Hend & _ & _ & Hmap & _).
  assert (pa = pa / 4096 * 4096) as Hpa' by dlia. cbn [range_len] in *.
  destruct (load_write_protect s1 _ (pa / 4096) perms init (proj1 Hs1) Hwf Hal)
    as (s2 & s3 & Hw & Hprot & Hmap3 & Hlen3 & _ & Hphys);
    [dlia | cbn [range_len]; lia | done | cbn [range_len]; lia |].
  cbn [range_start] in *. rewrite Hw, Hprot. rewrite <- Hpa' in Hphys.
  split_and!; [done| | |].
  - intros i b Hb. rewrite Hphys. by apply seqZ_store.
  - intros Hgr. unfold space_read. rewrite access_read_spec.
    + pose proof (offsets_linear s3 _ (pa / 4096) perms Read (length init) Hwf Hal) as Ho.
      cbn [range_start range_len] in Ho. rewrite Ho by (done || lia || dlia). cbn. f_equal.
      rewrite <- Hpa', Hphys. apply list_eq. intros i. rewrite list_lookup_fmap.
      destruct (init !! i) as [b|] eqn:Hb.
      * pose proof (lookup_lt_Some _ _ _ Hb). rewrite lookup_seqZ_lt by lia. cbn.
        f_equal. by apply seqZ_store.
      * apply lookup_ge_None in Hb. by rewrite lookup_seqZ_ge by lia.
    + split; [rewrite Hlen3; apply Hs1|]. rewrite Hphys. apply store_at_u8; [done|].
      apply Hs1.
    + unfold is_u. lia.
  - intros g access Hg.
    rewrite (translate_linear _ _ (pa / 4096) perms _ g access Hwf Hal); try done.
    + cbn [range_start]. by rewrite <- Hpa'.
    + dlia.
    + cbn [range_len]. lia.
    + unfold GuestRange_contains, GuestRange_end_exclusive. cbn [range_start range_len].
      rewrite andb_true_iff, Z.leb_le, Z.ltb_lt. lia.
Qed.

(** ** [reserve_physical_through] *)

(** The pages of the freed pool. *)
Definition pool_size (m : list (Z * Z)) : Z := foldr (fun e acc => e.2 + acc) 0 m.

Lemma pool_size_app B A : pool_size (B ++ A) = pool_size B + pool_size A.
Proof. unfold pool_size. induction B as [|e B IH]; cbn; [done|]. lia. Qed.

Lemma pool_size_bounds lo m hi : runs_ok lo m hi -> lo <= hi -> 0 <= pool_size m <= hi - lo.
Proof.
  revert lo. induction m as [|[s l] m IH]; intros lo Hok Hlo; cbn in *; [lia|].
  destruct Hok as (? & ? & ? & Hok). destruct m as [|[s' l'] m'].
  - cbn. lia.
  - specialize (IH (s + l + 1) Hok). cbn in *. lia.
Qed.

(** Taking one page either shrinks the pool or, once it is empty, moves the
    cursor by one. *)
Lemma allocate_one a : alloc_wf a -> next_page a < alloc_page_count a ->
  exists p a', PhysicalAllocator_allocate a 1 = (Ok p, a') /\ alloc_wf a' /\
    alloc_page_count a' = alloc_page_count a /\
    ((pool_size (free_runs a') = pool_size (free_runs a) - 1 /\ next_page a' = next_page a) \/
     (free_runs a = [] /\ free_runs a' = [] /\ next_page a' = next_page a + 1)).
Proof.
  intros Hwf Hlt. pose proof (allocate_spec a 1 Hwf ltac:(lia)) as Hspec.
  pose proof Hwf as (Hnext & Hcount & Hruns).
  destruct (PhysicalAllocator_allocate a 1) as [[p|e] a'] eqn:Hrun.
  2:{ destruct Hspec as (_ & _ & ? & _). lia. }
  destruct Hspec as (Hwf' & Hcount' & _). exists p, a'. split_and!; [done..|].
  unfold PhysicalAllocator_allocate in Hrun.
  destruct (bt_find_fit 1 (free_runs a)) as [[s l]|] eqn:Hfit.
  - left. apply bt_find_fit_spec in Hfit as (B & A & Hm & Hl). rewrite Hm in *.
    apply runs_ok_middle in Hruns as (_ & _ & _ & _ & HA & HkB & HkA).
    rewrite bt_remove_mid in Hrun by done. injection Hrun as <- <-. cbn.
    split; [|done]. rewrite pool_size_app. cbn. fold (pool_size A).
    destruct (Z.ltb_spec 1 l).
    + rewrite bt_insert_mid.
      * rewrite pool_size_app. cbn. fold (pool_size A). lia.
      * eapply keys_lt_weaken; [done | lia].
      * eapply runs_ok_keys_gt; [done | lia].
    + rewrite pool_size_app. lia.
  - right. apply bt_find_fit_none in Hfit.
    assert (free_runs a = []) as Hnil.
    { destruct (free_runs a) as [|[s l] m]; [done|]. cbn in Hruns.
      apply Forall_cons in Hfit as [? _]. cbn in *. lia. }
    rewrite checked_add_some in Hrun by lia. rewrite (proj2 (Z.ltb_ge _ _)) in Hrun by lia.
    injection Hrun as <- <-. by cbn.
Qed.

Lemma reserve_loop_spec fuel a target : alloc_wf a -> target <= alloc_page_count a ->
  next_page a < target ->
  pool_size (free_runs a) + (target - next_page a) < Z.of_nat fuel ->
  exists a', reserve_loop fuel a target = Some a' /\ next_page a' = target /\
    free_runs a' = [] /\ alloc_page_count a' = alloc_page_count a.
Proof.
  revert a. induction fuel as [|fuel IH]; intros a Hwf Hmax Hlt Hfuel.
  { pose proof Hwf as (? & _ & Hr). apply pool_size_bounds in Hr; lia. }
  cbn [reserve_loop]. rewrite (proj2 (Z.ltb_lt _ _)) by done.
  destruct (allocate_one a Hwf ltac:(lia)) as (p & a1 & -> & Hwf1 & Hcount1 & Hcase).
  destruct (decide (next_page a1 < target)).
  - destruct (IH a1) as (a' & Hrun & ? & ? & ?); [done | lia | done | |].
    { destruct Hcase as [[? ?]|(Hn & Hn' & ?)]; [|rewrite Hn, ?Hn' in *]; cbn in *; lia. }
    exists a'. split_and!; try done. lia.
  - destruct Hcase as [[? ?]|(Hnil & Hnil' & ?)]; [lia|].
    exists a1. destruct fuel as [|fuel]; [rewrite Hnil in Hfuel; cbn in Hfuel; lia|].
    cbn. rewrite (proj2 (Z.ltb_ge _ _)) by lia. split_and!; try done. lia.
Qed.

(** [reserve_physical_through] always finishes.  When the cursor is below
    the target it takes every page below it, freed ones included; when the
    cursor has already passed the target it changes nothing, so pages below
    the bound that had been freed stay available (the comment says every page
    below the bound is spoken for). *)
Theorem reserve_physical_through_exact (s : SoftwareAddressSpace) (bound : Z) :
  space_wf s -> u32 bound ->
  let a := allocator s in
  let s' := reserve_physical_through s bound in
  let target := Z.min (div_ceil bound GUEST_PAGE_SIZE) (alloc_page_count a) in
  physical s' = physical s /\ table s' = table s /\
  (next_page a < target ->
     forall p, available (allocator s') p <-> target <= p < alloc_page_count a) /\
  (target <= next_page a -> allocator s' = a).
Proof.
  intros (_ & Hwf & Hlen & Hmax) Hb. cbn zeta. unfold reserve_physical_through.
  set (target := Z.min _ _). cbn [with_allocator physical table allocator].
  split_and!; [done..| |].
  - intros Hlt. pose proof Hwf as (? & ? & Hr). apply pool_size_bounds in Hr; [|lia].
    destruct (reserve_loop_spec (S (Z.to_nat (alloc_page_count (allocator s)))) (allocator s)
      target) as (a' & -> & Hnext & Hruns & Hcount); [done | lia | done | lia |].
    cbn. intros p. unfold available. rewrite Hnext, Hruns, Hcount, in_runs_nil. tauto.
  - intros Hge. cbn [reserve_loop]. by rewrite (proj2 (Z.ltb_ge _ _)).
Qed.

(** ** [free_physical] *)

Lemma ram_store_byte ram start bs o :
  ram_byte (ram_store ram start bs) o =
  if decide (start <= o < start + Z.of_nat (length bs))
  then nth (Z.to_nat (o - start)) bs 0 else ram_byte ram o.
Proof.
  revert ram start. induction bs as [|b bs IH]; intros ram start; cbn [ram_store length].
  { by rewrite decide_False by lia. }
  rewrite IH. destruct (decide (o = start)) as [->|].
  - rewrite decide_False, decide_True by lia. rewrite Z.sub_diag. cbn. unfold ram_byte.
    by rewrite lookup_insert_eq.
  - destruct (decide (start + 1 <= o < start + 1 + Z.of_nat (length bs))).
    + rewrite decide_True by lia.
      replace (Z.to_nat (o - start)) with (S (Z.to_nat (o - (start + 1)))) by lia. done.
    + rewrite decide_False by lia. unfold ram_byte. by rewrite lookup_insert_ne by done.
Qed.

Lemma ram_store_u8 ram start bs : Forall u8 bs -> map_Forall (fun _ b => u8 b) ram ->
  map_Forall (fun _ b => u8 b) (ram_store ram start bs).
Proof.
  intros Hbs. revert ram start. induction Hbs as [|b bs ? ? IH]; intros; cbn; [done|].
  apply IH. by apply map_Forall_insert_2.
Qed.

Lemma ram_fill_zero_byte ram start stop o : start <= stop ->
  ram_byte (ram_fill_zero ram start stop) o =
  if decide (start <= o < stop) then 0 else ram_byte ram o.
Proof.
  intros Hle. unfold ram_fill_zero. rewrite ram_store_byte, length_replicate, Z2Nat.id by lia.
  replace (start + (stop - start)) with stop by lia. case_decide; [|done].
  by rewrite (nth_lookup_Some _ _ _ 0) by (apply lookup_replicate_2; lia).
Qed.

(** The cached window: RAM page [p] at virtual page [0x80000 + p]. *)
Definition window_mapped (s : SoftwareAddressSpace) : Prop :=
  forall p, 0 <= p < alloc_page_count (allocator s) ->
    maps_ram_page (table s) p (0x80000 + p) = true.

Lemma window_address phys : 0 <= phys < 2 ^ 31 ->
  Z.lor CACHED_WINDOW phys = CACHED_WINDOW + phys.
Proof.
  intros Hp. assert (Z.land CACHED_WINDOW phys = 0) as Hl.
  { apply Z.bits_inj'. intros i Hi. rewrite Z.land_spec, Z.bits_0.
    change CACHED_WINDOW with (2 ^ 31). rewrite Z.pow2_bits_eqb by lia.
    destruct (Z.eqb_spec 31 i) as [<-|]; [|done].
    by rewrite (is_u_high_bit 31 phys) by (unfold is_u; lia). }
  by rewrite <- Z.lxor_lor, <- Z.add_nocarry_lxor by done.
Qed.

Lemma bump_written_moves t a len p q :
  generations_ok t -> u32 a -> 0 < len <= 65533 * 4096 -> a + len <= 2 ^ 32 ->
  page_in_range p -> maps_ram_page t p q = true -> a <= q * 4096 < a + len ->
  generation_of (bump_written_generations t a len) p <> generation_of t p.
Proof.
  intros Hg Ha Hlen Hend Hp Hq Hin. unfold bump_written_generations, is_u in *.
  rewrite try_from_u_some by (unfold is_u; lia).
  rewrite (proj2 (range_new_ok_iff a len Ha ltac:(unfold is_u; lia) (mkGuestRange a len)))
    by (split_and!; done || lia).
  set (r := mkGuestRange a len).
  assert (range_wf r) as Hr by (unfold range_wf, GuestRange_end_exclusive, is_u; cbn; lia).
  destruct (foldl_bump_generation (GuestRange_pages r) t p Hp Hg) as [_ ->].
  pose proof (hits_bound t p r Hr) as Hb. unfold r in Hb at 2. cbn [range_len] in Hb.
  apply wrap16_moves; [by apply generation_u16| |].
  - split; [unfold hits; lia|].
    assert (len / 4096 <= 65533 * 4096 / 4096) by (apply Z.div_le_mono; lia).
    change (65533 * 4096 / 4096) with 65533 in *. lia.
  - apply hits_positive. exists q. split; [|done]. apply pages_elem; [done|].
    exists (q * 4096). split.
    + unfold GuestRange_contains, GuestRange_end_exclusive. cbn.
      rewrite andb_true_iff, Z.leb_le, Z.ltb_lt. lia.
    + rewrite va_page_div. apply Z.div_mul. lia.
Qed.

(** freeing an allocated run of pages zeroes exactly its bytes, gives
    exactly its pages back to the allocator, changes no mapping, and, with the
    cached window mapped, moves the written generation of every page of the
    run, so no translation of code that lived there survives. *)
Theorem free_physical_scrubs (s : SoftwareAddressSpace) (start bytes : Z) :
  space_wf s -> generations_ok (table s) -> window_mapped s -> physical_len s <= 2 ^ 28 - 2 ^ 14 ->
  u32 bytes -> 0 <= start ->
  let first := start / 4096 in
  let n := div_ceil (Z.max bytes 1) GUEST_PAGE_SIZE in
  first + n <= next_page (allocator s) ->
  (forall p, first <= p < first + n -> ~ in_runs (free_runs (allocator s)) p) ->
  let s' := free_physical s start bytes in
  space_wf s' /\ entries (table s') = entries (table s) /\
  (forall o, ram_byte (physical s') o =
     if decide (first * 4096 <= o < (first + n) * 4096) then 0 else ram_byte (physical s) o) /\
  (forall p, available (allocator s') p <->
     available (allocator s) p \/ first <= p < first + n) /\
  (forall p, first <= p < first + n ->
     generation_of (table s') p <> generation_of (table s) p).
Proof.
  intros (Hram & Hwf & Hlen & Hmax) Hgen Hwin Hcap Hb Hst first n Hend Hdis. cbn zeta.
  pose proof Hwf as ([Hn0 Hnc] & _ & _).
  assert (1 <= n) as Hn by (unfold n, div_ceil; rewrite page_size_val; dlia).
  assert (0 <= first) as Hf by (unfold first; dlia).
  destruct (free_spec (allocator s) first n Hwf Hf ltac:(lia) Hend Hdis)
    as (Hwf' & Hnext & Hcount & Hin).
  unfold free_physical. fold n. rewrite page_size_val. fold first.
  unfold saturating_add. rewrite (Z.min_l (first * 4096 + n * 4096)) by lia.
  rewrite (Z.min_l (first * 4096 + n * 4096)) by lia.
  rewrite (proj2 (Z.leb_le _ _)) by lia.
  rewrite wrap_small by (unfold is_u; lia).
  unfold bump_physical_generations. rewrite window_address by lia.
  cbn [with_allocator with_table with_physical physical table allocator physical_len].
  split_and!.
  - unfold space_wf, ram_ok. cbn [with_allocator with_table with_physical physical table
      allocator physical_len]. rewrite Hcount. split_and!; try done; [apply Hram|].
    apply ram_store_u8; [|apply Hram]. apply Forall_replicate. unfold is_u. lia.
  - apply bump_written_entries.
  - intros o. rewrite ram_fill_zero_byte by lia. apply decide_ext. lia.
  - intros p. unfold available. rewrite Hnext, Hcount, Hin. tauto.
  - intros p Hp. apply bump_written_moves with (0x80000 + p); try done.
    + unfold is_u. change CACHED_WINDOW with (2 ^ 31). lia.
    + lia.
    + change CACHED_WINDOW with (2 ^ 31). lia.
    + unfold page_in_range. rewrite page_count_val. lia.
    + apply Hwin. lia.
    + change CACHED_WINDOW with (0x80000 * 4096). lia.
Qed.

(** ** Witnesses *)

Lemma map_anonymous_correct_witness :
  let r := mkGuestRange 0x2000 0x1000 in
  (map_anonymous demo_space r 1).1 = Err (AlreadyMapped 0x2000) /\
  forall p, available (allocator (map_anonymous demo_space r 1).2) p <->
    available (allocator demo_space) p.
Proof.
  cbn zeta. split; [by vm_compute|].
  assert (range_wf (mkGuestRange 0x2000 0x1000)) as Hr
    by (unfold range_wf, GuestRange_end_exclusive, is_u; cbn; lia).
  pose proof (map_anonymous_correct demo_space (mkGuestRange 0x2000 0x1000) 1
    demo_space_wf Hr) as H.
  assert ((map_anonymous demo_space (mkGuestRange 0x2000 0x1000) 1).1 =
    Err (AlreadyMapped 0x2000)) as He by by vm_compute.
  destruct (map_anonymous demo_space (mkGuestRange 0x2000 0x1000) 1) as [[pa|e] s'];
    cbn [fst snd] in *; [discriminate He|]. apply H.
Defined.

Lemma load_region_correct_witness :
  space_read (load_region demo_space 0x10000 0x1234 [1; 2; 3] PERM_READ).2 0x10000 3 = Ok [1; 2; 3].
Proof.
  assert (Forall u8 [1; 2; 3]) as Hb by (repeat constructor; unfold is_u; lia).
  pose proof (load_region_correct demo_space 0x10000 0x1234 [1; 2; 3] PERM_READ demo_space_wf
    ltac:(unfold is_u; lia) ltac:(unfold is_u; lia) Hb) as H.
  assert ((load_region demo_space 0x10000 0x1234 [1; 2; 3] PERM_READ).1 = Ok 0x2000) as He
    by by vm_compute.
  destruct (load_region demo_space 0x10000 0x1234 [1; 2; 3] PERM_READ) as [[pa|e] s'];
    cbn [fst snd] in *; [|discriminate He]. apply H. reflexivity.
Defined.

Lemma reserve_physical_through_exact_witness :
  available (allocator (reserve_physical_through demo_space 0x4001)) 6 /\
  ~ available (allocator (reserve_physical_through demo_space 0x4001)) 3.
Proof.
  destruct (reserve_physical_through_exact demo_space 0x4001 demo_space_wf) as (_ & _ & H & _);
    [unfold is_u; lia|].
  assert (next_page (allocator demo_space) = 2) as Hn by by vm_compute.
  assert (alloc_page_count (allocator demo_space) = 8) as Hc by by vm_compute.
  rewrite Hn, Hc in H.
  change (Z.min (div_ceil 0x4001 GUEST_PAGE_SIZE) 8) with 5 in H.
  rewrite !H by lia. lia.
Defined.

Lemma free_physical_scrubs_witness :
  let s' := free_physical demo_space 0x1000 1 in
  available (allocator s') 1 /\ generation_of (table s') 1 <> generation_of (table demo_space) 1.
Proof.
  cbn zeta.
  assert (next_page (allocator demo_space) = 2) as Hn by by vm_compute.
  assert (alloc_page_count (allocator demo_space) = 8) as Hc by by vm_compute.
  assert (free_runs (allocator demo_space) = []) as Hr by by vm_compute.
  destruct (free_physical_scrubs demo_space 0x1000 1 demo_space_wf) as (_ & _ & _ & Hav & Hgen).
  - by vm_compute.
  - intros p Hp. rewrite Hc in Hp.
    assert (p = 0 \/ p = 1 \/ p = 2 \/ p = 3 \/ p = 4 \/ p = 5 \/ p = 6 \/ p = 7)
      as Hcases by lia.
    repeat destruct Hcases as [->|Hcases]; try subst; by vm_compute.
  - by vm_compute.
  - unfold is_u; lia.
  - lia.
  - rewrite Hn. by vm_compute.
  - intros p _. rewrite Hr, in_runs_nil. tauto.
  - split; [apply Hav; right; split; by vm_compute | apply Hgen; split; by vm_compute].
Defined.
