(* ===== verification/Xbe.v ===== *)
(** * The XBE image parser

    Models [exbawks-xbe]: the bounded reader of [reader.rs], the header and
    section types of [format.rs], and [XbeImage::parse] with its validation in
    [image.rs].  A file is a list of bytes; [usize] is 64 bits wide. *)

From stdpp Require Import strings.
From S2P Require Import Prelude GuestTypes.

Local Open Scope string_scope.
Local Open Scope Z_scope.

(** ** Errors *)

Inductive XbeError : Type :=
| Truncated (field : string) (offset : Z)
| InvalidMagic
| InvalidHeader (what : string)
| InvalidEncodedAddress (field : string)
| HeaderAddressOutOfRange (field : string) (address : GuestVa)
| SectionLimit (count limit : Z)
| SectionRawRange (section_index : Z)
| SectionVirtualRange (section_index : Z)
| InvalidSectionName (section_index : Z).

#[export] Instance XbeError_eq_dec : EqDecision XbeError.
Proof. solve_decision. Defined.

(** ** The reader *)

(** [bytes.len()]. *)
Definition file_len (bytes : list Z) : Z := Z.of_nat (length bytes).

(** [bytes.get(start..stop)]. *)
Definition slice (bytes : list Z) (start stop : Z) : option (list Z) :=
  if (start <=? stop) && (stop <=? file_len bytes)
  then Some (take (Z.to_nat (stop - start)) (drop (Z.to_nat start) bytes))
  else None.

Definition read_array (n : Z) (bytes : list Z) (offset : Z) (field : string)
  : result XbeError (list Z) :=
  stop ← ok_or (checked_add 64 offset n) (Truncated field offset);
  ok_or (slice bytes offset stop) (Truncated field offset).

Definition read_u32 (bytes : list Z) (offset : Z) (field : string) : result XbeError Z :=
  value ← read_array 4 bytes offset field;
  Ok (from_le_bytes value).

(** [iter().position(|byte| *byte == 0).unwrap_or(len)], then the prefix. *)
Fixpoint until_nul (bytes : list Z) : list Z :=
  match bytes with
  | [] => []
  | b :: bytes => if b =? 0 then [] else b :: until_nul bytes
  end.

Definition in_range (lo hi b : Z) : bool := (lo <=? b) && (b <=? hi).

(** [std::str::from_utf8] accepts exactly the well-formed UTF-8 byte
    sequences: the table of the Unicode standard. *)
Fixpoint from_utf8 (bytes : list Z) : bool :=
  match bytes with
  | [] => true
  | b0 :: rest0 =>
    if b0 <? 0x80 then from_utf8 rest0 else
    match rest0 with
    | [] => false
    | b1 :: rest1 =>
      if in_range 0xC2 0xDF b0 then in_range 0x80 0xBF b1 && from_utf8 rest1 else
      match rest1 with
      | [] => false
      | b2 :: rest2 =>
        if b0 =? 0xE0 then in_range 0xA0 0xBF b1 && in_range 0x80 0xBF b2 && from_utf8 rest2
        else if b0 =? 0xED
        then in_range 0x80 0x9F b1 && in_range 0x80 0xBF b2 && from_utf8 rest2
        else if in_range 0xE1 0xEF b0
        then in_range 0x80 0xBF b1 && in_range 0x80 0xBF b2 && from_utf8 rest2
        else
        match rest2 with
        | [] => false
        | b3 :: rest3 =>
          let tail := in_range 0x80 0xBF b2 && in_range 0x80 0xBF b3 && from_utf8 rest3 in
          if b0 =? 0xF0 then in_range 0x90 0xBF b1 && tail
          else if in_range 0xF1 0xF3 b0 then in_range 0x80 0xBF b1 && tail
          else if b0 =? 0xF4 then in_range 0x80 0x8F b1 && tail
          else false
        end
      end
    end
  end.

Definition read_c_string (bytes : list Z) (offset maximum_len : Z) (field : string)
  : result XbeError (list Z) :=
  available ← ok_or (slice bytes offset (file_len bytes)) (Truncated field offset);
  let bounded := take (Z.to_nat (Z.min (file_len available) maximum_len)) available in
  let text := until_nul bounded in
  if from_utf8 text then Ok text else Err (InvalidHeader "invalid UTF-8 string").

(** ** Header and sections *)

Record XbeHeader : Type := mkXbeHeader {
  base_address : GuestVa;
  size_of_headers : Z;
  size_of_image : Z;
  size_of_image_header : Z;
  time_date_stamp : Z;
  certificate_address : GuestVa;
  section_count : Z;
  section_headers_address : GuestVa;
  initialization_flags : Z;
  encoded_entry_point : Z;
  entry_point : GuestVa;
  build_flavor : BuildFlavor;
  tls_address : GuestVa;
  stack_size : Z;
  heap_reserve : Z;
  heap_commit : Z;
  encoded_kernel_thunk_address : Z;
  kernel_thunk_address : GuestVa;
}.

Record XbeSection : Type := mkXbeSection {
  index : Z;
  name : list Z;
  flags : Z;
  virtual_address : GuestVa;
  virtual_size : Z;
  raw_address : Z;
  raw_size : Z;
  name_address : GuestVa;
  reference_count : Z;
  digest : list Z;
}.

Record XbeImage : Type := mkXbeImage {
  header : XbeHeader;
  sections : list XbeSection;
  file_size : Z;
}.

Definition XBE_MAGIC : list Z := [0x58; 0x42; 0x45; 0x48].
Definition MINIMUM_HEADER_SIZE : Z := 0x178.
Definition SECTION_HEADER_SIZE : Z := 0x38.
Definition MAXIMUM_SECTION_COUNT : Z := 4096.
Definition ENTRY_RETAIL_XOR : Z := 0xA8FC57AB.
Definition ENTRY_DEBUG_XOR : Z := 0x94859D4B.
Definition KERNEL_RETAIL_XOR : Z := 0x5B6D40B6.
Definition KERNEL_DEBUG_XOR : Z := 0xEFB1F152.

Definition validate_header_sizes (bytes : list Z)
    (size_of_headers size_of_image size_of_image_header : Z) : result XbeError unit :=
  if size_of_image_header <? MINIMUM_HEADER_SIZE
  then Err (InvalidHeader "image header is smaller than 0x178 bytes")
  else if size_of_headers <? size_of_image_header
  then Err (InvalidHeader "header size is smaller than image-header size")
  else if size_of_image <? size_of_headers
  then Err (InvalidHeader "image size is smaller than header size")
  else if match try_from_u 64 size_of_headers with
          | None => true
          | Some size => file_len bytes <? size
          end
  then Err (InvalidHeader "file does not contain all declared header bytes")
  else Ok tt.

Definition image_contains (base : GuestVa) (image_size : Z) (address : GuestVa) : bool :=
  let start := base in
  let stop := start + image_size in
  (start <=? address) && (address <? stop).

Definition decode_entry_point (encoded : Z) (base : GuestVa) (image_size : Z)
  : result XbeError (BuildFlavor * GuestVa) :=
  let candidates := [(Retail, Z.lxor encoded ENTRY_RETAIL_XOR);
                     (Debug, Z.lxor encoded ENTRY_DEBUG_XOR)] in
  ok_or (snd <$> list_find (fun c => image_contains base image_size c.2 = true) candidates)
    (InvalidEncodedAddress "entry point").

Definition decode_kernel_thunk (encoded : Z) (flavor : BuildFlavor) (base : GuestVa)
    (image_size : Z) : result XbeError GuestVa :=
  let checked key :=
    let address := Z.lxor encoded key in
    if image_contains base image_size address then Ok address
    else Err (InvalidEncodedAddress "kernel thunk address") in
  match flavor with
  | Retail => checked KERNEL_RETAIL_XOR
  | Debug => checked KERNEL_DEBUG_XOR
  | Chihiro | Unknown => Err (InvalidEncodedAddress "kernel thunk address")
  end.

Definition validate_section_ranges (bytes : list Z) (index virtual_address virtual_size
    raw_address raw_size : Z) : result XbeError unit :=
  let raw_end := raw_address + raw_size in
  if file_len bytes <? raw_end then Err (SectionRawRange index) else
  let virtual_end := virtual_address + virtual_size in
  if U32_MAX + 1 <? virtual_end then Err (SectionVirtualRange index) else
  Ok tt.

Definition header_va_to_file_offset (header : XbeHeader) (address : GuestVa) (field : string)
  : result XbeError Z :=
  relative ← ok_or (checked_sub address (base_address header))
               (HeaderAddressOutOfRange field address);
  if size_of_headers header <=? relative
  then Err (HeaderAddressOutOfRange field address)
  else ok_or (try_from_u 64 relative) (HeaderAddressOutOfRange field address).

(** The body of the section loop. *)
Definition parse_section (bytes : list Z) (header : XbeHeader) (table_offset index : Z)
  : result XbeError XbeSection :=
  let offset := table_offset + index * SECTION_HEADER_SIZE in
  flags ← read_u32 bytes offset "section flags";
  virtual_address ← read_u32 bytes (offset + 0x04) "section virtual address";
  virtual_size ← read_u32 bytes (offset + 0x08) "section virtual size";
  raw_address ← read_u32 bytes (offset + 0x0C) "section raw address";
  raw_size ← read_u32 bytes (offset + 0x10) "section raw size";
  name_address ← read_u32 bytes (offset + 0x14) "section name address";
  reference_count ← read_u32 bytes (offset + 0x18) "section reference count";
  digest ← read_array 20 bytes (offset + 0x24) "section digest";
  _ ← validate_section_ranges bytes index virtual_address virtual_size raw_address raw_size;
  name_offset ← header_va_to_file_offset header name_address "section name";
  name ← map_err (fun _ => InvalidSectionName index)
           (read_c_string bytes name_offset 256 "section name");
  Ok (mkXbeSection index name flags virtual_address virtual_size raw_address raw_size
        name_address reference_count digest).

(** [for index in 0..section_count], collecting into the vector. *)
Fixpoint parse_sections_loop (bytes : list Z) (header : XbeHeader) (table_offset : Z)
    (indices : list Z) : result XbeError (list XbeSection) :=
  match indices with
  | [] => Ok []
  | index :: indices =>
    section ← parse_section bytes header table_offset index;
    rest ← parse_sections_loop bytes header table_offset indices;
    Ok (section :: rest)
  end.

Definition parse_sections (bytes : list Z) (header : XbeHeader)
  : result XbeError (list XbeSection) :=
  table_offset ← header_va_to_file_offset header (section_headers_address header)
                   "section header table";
  count ← ok_or (try_from_u 64 (section_count header))
            (InvalidHeader "section count does not fit in usize");
  table_size ← ok_or (checked_mul 64 count SECTION_HEADER_SIZE)
                 (InvalidHeader "section table size overflow");
  table_end ← ok_or (checked_add 64 table_offset table_size)
                (InvalidHeader "section table range overflow");
  header_end ← ok_or (try_from_u 64 (size_of_headers header))
                 (InvalidHeader "header size does not fit in usize");
  if header_end <? table_end
  then Err (InvalidHeader "section header table extends past the declared headers")
  else if file_len bytes <? table_end
  then Err (Truncated "section header table" table_offset)
  else parse_sections_loop bytes header table_offset (seqZ 0 (section_count header)).

Definition XbeImage_parse (bytes : list Z) : result XbeError XbeImage :=
  if negb (bool_decide (slice bytes 0 4 = Some XBE_MAGIC)) then Err InvalidMagic else
  if file_len bytes <? MINIMUM_HEADER_SIZE
  then Err (Truncated "image header" (file_len bytes)) else
  base_address ← read_u32 bytes 0x104 "base address";
  size_of_headers ← read_u32 bytes 0x108 "size of headers";
  size_of_image ← read_u32 bytes 0x10C "size of image";
  size_of_image_header ← read_u32 bytes 0x110 "size of image header";
  time_date_stamp ← read_u32 bytes 0x114 "time date stamp";
  certificate_address ← read_u32 bytes 0x118 "certificate address";
  section_count ← read_u32 bytes 0x11C "section count";
  section_headers_address ← read_u32 bytes 0x120 "section headers address";
  initialization_flags ← read_u32 bytes 0x124 "initialization flags";
  encoded_entry_point ← read_u32 bytes 0x128 "encoded entry point";
  tls_address ← read_u32 bytes 0x12C "TLS address";
  stack_size ← read_u32 bytes 0x130 "stack size";
  heap_reserve ← read_u32 bytes 0x134 "heap reserve";
  heap_commit ← read_u32 bytes 0x138 "heap commit";
  encoded_kernel_thunk_address ← read_u32 bytes 0x158 "kernel thunk address";
  _ ← validate_header_sizes bytes size_of_headers size_of_image size_of_image_header;
  if MAXIMUM_SECTION_COUNT <? section_count
  then Err (SectionLimit section_count MAXIMUM_SECTION_COUNT) else
  entry ← decode_entry_point encoded_entry_point base_address size_of_image;
  let '(build_flavor, entry_point) := entry in
  kernel_thunk_address ← decode_kernel_thunk encoded_kernel_thunk_address build_flavor
                           base_address size_of_image;
  let header := mkXbeHeader base_address size_of_headers size_of_image size_of_image_header
                  time_date_stamp certificate_address section_count section_headers_address
                  initialization_flags encoded_entry_point entry_point build_flavor tls_address
                  stack_size heap_reserve heap_commit encoded_kernel_thunk_address
                  kernel_thunk_address in
  sections ← parse_sections bytes header;
  Ok (mkXbeImage header sections (default U64_MAX (try_from_u 64 (file_len bytes)))).

Definition section_data (bytes : list Z) (section : XbeSection) : result XbeError (list Z) :=
  start ← ok_or (try_from_u 64 (raw_address section)) (SectionRawRange (index section));
  size ← ok_or (try_from_u 64 (raw_size section)) (SectionRawRange (index section));
  stop ← ok_or (checked_add 64 start size) (SectionRawRange (index section));
  ok_or (slice bytes start stop) (SectionRawRange (index section)).

(** ** Lemmas *)

Lemma slice_some bytes start stop : 0 <= start <= stop -> stop <= file_len bytes ->
  exists bs, slice bytes start stop = Some bs /\ Z.of_nat (length bs) = stop - start /\
    bs = take (Z.to_nat (stop - start)) (drop (Z.to_nat start) bytes).
Proof.
  intros ? ?. unfold slice, file_len in *.
  rewrite (proj2 (Z.leb_le _ _)), (proj2 (Z.leb_le _ _)) by lia. cbn [andb].
  eexists. split_and!; [done| |done]. rewrite length_take, length_drop. lia.
Qed.

(** A read inside a file of realistic size succeeds. *)
Lemma read_array_ok n bytes offset field : 0 <= n -> 0 <= offset ->
  offset + n <= file_len bytes -> file_len bytes < 2 ^ 64 ->
  exists bs, read_array n bytes offset field = Ok bs /\ Z.of_nat (length bs) = n /\
    bs = take (Z.to_nat n) (drop (Z.to_nat offset) bytes).
Proof.
  intros. unfold read_array. rewrite checked_add_some by lia. cbn [ok_or mbind result_bind].
  destruct (slice_some bytes offset (offset + n)) as (bs & -> & ? & ->); [lia..|].
  eexists. split_and!; [done|lia|]. by replace (offset + n - offset) with n by lia.
Qed.

Lemma read_u32_ok bytes offset field : Forall u8 bytes -> 0 <= offset ->
  offset + 4 <= file_len bytes -> file_len bytes < 2 ^ 64 ->
  exists v, read_u32 bytes offset field = Ok v /\ u32 v.
Proof.
  intros Hb ? ? ?. unfold read_u32.
  destruct (read_array_ok 4 bytes offset field) as (bs & -> & Hlen & ->); [lia..|].
  eexists. split; [done|].
  pose proof (from_le_bytes_range (take (Z.to_nat 4) (drop (Z.to_nat offset) bytes))) as Hr.
  replace (8 * Z.of_nat (length (take (Z.to_nat 4) (drop (Z.to_nat offset) bytes)))) with 32
    in Hr by lia.
  by apply Hr, Forall_take, Forall_drop.
Qed.

(** Consumes one field read: it succeeds with a 32-bit value. *)
Ltac read_field Hb :=
  match goal with
  | |- context [read_u32 ?bytes ?o ?f] =>
    let v := fresh "v" in let Hv := fresh "Hv" in
    destruct (read_u32_ok bytes o f Hb) as (v & -> & Hv); [lia..|];
    cbn [mbind result_bind]
  end.

Lemma until_nul_spec bs :
  (length (until_nul bs) <= length bs)%nat /\ Forall (fun b => b <> 0) (until_nul bs).
Proof.
  induction bs as [|b bs [? ?]]; cbn; [by split|].
  destruct (Z.eqb_spec b 0); cbn; split; try lia; by constructor.
Qed.

Lemma read_c_string_spec bytes offset maximum field text :
  0 <= maximum -> read_c_string bytes offset maximum field = Ok text ->
  from_utf8 text = true /\ Forall (fun b => b <> 0) text /\ Z.of_nat (length text) <= maximum.
Proof.
  intros Hm Hr. unfold read_c_string in Hr. apply bind_ok_inv in Hr as (av & _ & Hr).
  cbn zeta in Hr. destruct (from_utf8 _) eqn:Hu; [|done]. injection Hr as <-.
  destruct (until_nul_spec (take (Z.to_nat (Z.min (file_len av) maximum)) av)) as [Hl Hn].
  split_and!; [done..|]. rewrite length_take in Hl. lia.
Qed.

(** The candidates are tried in order. *)
Lemma decode_entry_cases encoded base size :
  decode_entry_point encoded base size =
  if image_contains base size (Z.lxor encoded ENTRY_RETAIL_XOR)
  then Ok (Retail, Z.lxor encoded ENTRY_RETAIL_XOR)
  else if image_contains base size (Z.lxor encoded ENTRY_DEBUG_XOR)
  then Ok (Debug, Z.lxor encoded ENTRY_DEBUG_XOR)
  else Err (InvalidEncodedAddress "entry point").
Proof.
  unfold decode_entry_point. cbn [list_find snd].
  destruct (image_contains base size (Z.lxor encoded ENTRY_RETAIL_XOR));
    [by rewrite decide_True|]. rewrite decide_False by done.
  destruct (image_contains base size (Z.lxor encoded ENTRY_DEBUG_XOR));
    [by rewrite decide_True | by rewrite decide_False].
Qed.

Lemma decode_thunk_inside encoded flavor base size address :
  decode_kernel_thunk encoded flavor base size = Ok address ->
  image_contains base size address = true.
Proof.
  unfold decode_kernel_thunk. cbn zeta. intros H.
  destruct flavor; try done; destruct (image_contains _ _ _) eqn:?; congruence.
Qed.

(** An error that is neither a truncation nor a wrong magic. *)
Definition late_error (e : XbeError) : Prop :=
  match e with
  | Truncated _ _ | InvalidMagic => False
  | _ => True
  end.

(** What the parser guarantees about one section. *)
Definition section_ok (bytes : list Z) (section : XbeSection) : Prop :=
  raw_address section + raw_size section <= file_len bytes /\
  virtual_address section + virtual_size section <= 2 ^ 32 /\
  u32 (virtual_address section) /\ u32 (virtual_size section) /\
  u32 (raw_address section) /\ u32 (raw_size section) /\
  from_utf8 (name section) = true /\ Forall (fun b => b <> 0) (name section) /\
  (length (name section) <= 256)%nat /\ length (digest section) = 20%nat.

Section Sections.
Context (bytes : list Z) (header : XbeHeader) (table_offset : Z).
Hypothesis bytes_u8 : Forall u8 bytes.
Hypothesis bytes_len : file_len bytes < 2 ^ 64.
Hypothesis table_offset_pos : 0 <= table_offset.

(** A section header inside the file: success gives a well-formed section,
    and failure is never a truncation. *)
Lemma parse_section_spec i : 0 <= i -> table_offset + (i + 1) * 0x38 <= file_len bytes ->
  match parse_section bytes header table_offset i with
  | Ok section => section_ok bytes section /\ index section = i
  | Err e => late_error e
  end.
Proof.
  intros Hi Hend. unfold parse_section. change SECTION_HEADER_SIZE with 0x38.
  do 7 read_field bytes_u8.
  destruct (read_array_ok 20 bytes (table_offset + i * 56 + 36) "section digest")
    as (dg & -> & Hdg & _); [lia..|]. cbn [mbind result_bind].
  unfold validate_section_ranges. cbn zeta.
  destruct (Z.ltb_spec (file_len bytes) (v2 + v1)); cbn [mbind result_bind]; [exact I|].
  destruct (Z.ltb_spec (U32_MAX + 1) (v4 + v3)); cbn [mbind result_bind]; [exact I|].
  destruct (header_va_to_file_offset header v0 "section name") as [no|e] eqn:Hno;
    cbn [mbind result_bind].
  2:{ unfold header_va_to_file_offset in Hno.
      apply bind_err_inv in Hno as [Hno|(r & _ & Hno)]; unfold ok_or in Hno;
        repeat case_match; simplify_eq; exact I. }
  destruct (read_c_string bytes no 256 "section name") as [nm|e] eqn:Hnm;
    cbn [map_err mbind result_bind]; [|exact I].
  apply read_c_string_spec in Hnm as (? & ? & ?); [|lia].
  unfold section_ok, U32_MAX in *. cbn. split_and!; done || lia.
Qed.

Lemma parse_sections_loop_spec n k : 0 <= k ->
  table_offset + (k + Z.of_nat n) * 0x38 <= file_len bytes ->
  match parse_sections_loop bytes header table_offset (seqZ k (Z.of_nat n)) with
  | Ok l => length l = n /\
      forall i s, l !! i = Some s -> section_ok bytes s /\ index s = k + Z.of_nat i
  | Err e => late_error e
  end.
Proof.
  revert k. induction n as [|n IH]; intros k Hk Hend; [done|].
  rewrite seqZ_cons by lia. cbn [parse_sections_loop].
  pose proof (parse_section_spec k Hk ltac:(lia)) as Hsec.
  destruct (parse_section _ _ _ k) as [s|e]; cbn [mbind result_bind]; [|done].
  specialize (IH (Z.succ k) ltac:(lia) ltac:(lia)).
  replace (Z.pred (Z.of_nat (S n))) with (Z.of_nat n) by lia.
  destruct (parse_sections_loop _ _ _ _) as [l|e]; cbn [mbind result_bind]; [|done].
  destruct IH as [Hlen Hall]. split; [cbn; lia|]. intros [|i] s' Hs; cbn in Hs.
  - simplify_eq. destruct Hsec as [? ->]. split; [done | lia].
  - destruct (Hall i s' Hs) as [? ->]. split; [done | lia].
Qed.
End Sections.

Lemma header_offset_ok header address field o : 0 <= base_address header ->
  header_va_to_file_offset header address field = Ok o ->
  o = address - base_address header /\ 0 <= o < size_of_headers header.
Proof.
  intros Hb H. unfold header_va_to_file_offset, checked_sub, try_from_u in H.
  destruct (Z.leb_spec (base_address header) address); cbn [ok_or mbind result_bind] in H; [|done].
  destruct (Z.leb_spec (size_of_headers header) (address - base_address header)); [done|].
  case_match; cbn in H; simplify_eq. lia.
Qed.

Lemma parse_sections_spec bytes header :
  Forall u8 bytes -> file_len bytes < 2 ^ 64 -> u32 (base_address header) ->
  u32 (section_count header) -> section_count header <= 4096 ->
  size_of_headers header <= file_len bytes ->
  match parse_sections bytes header with
  | Ok l => Z.of_nat (length l) = section_count header /\
      forall i s, l !! i = Some s -> section_ok bytes s /\ index s = Z.of_nat i
  | Err e => late_error e
  end.
Proof.
  intros Hb Hl Hbase Hc Hmax Hh. unfold parse_sections.
  destruct (header_va_to_file_offset _ _ _) as [off|e] eqn:Ho; cbn [mbind result_bind].
  2:{ unfold header_va_to_file_offset in Ho.
      apply bind_err_inv in Ho as [Ho|(r & _ & Ho)]; unfold ok_or in Ho;
        repeat case_match; simplify_eq; exact I. }
  apply header_offset_ok in Ho as [-> [? ?]]; [|apply Hbase].
  set (off := section_headers_address header - base_address header) in *.
  unfold is_u in *. rewrite (try_from_u_some 64 (section_count header)) by (unfold is_u; lia).
  cbn [ok_or mbind result_bind]. change SECTION_HEADER_SIZE with 0x38.
  unfold checked_mul. rewrite (proj2 (Z.ltb_lt _ _)) by lia. cbn [ok_or mbind result_bind].
  destruct (checked_add 64 off (section_count header * 56)) as [te|] eqn:Hte;
    cbn [ok_or mbind result_bind]; [|exact I].
  assert (te = off + section_count header * 56) as ->.
  { unfold checked_add in Hte. by case_match; simplify_eq. }
  rewrite (try_from_u_some 64 (size_of_headers header)) by (unfold is_u; lia).
  cbn [ok_or mbind result_bind].
  destruct (Z.ltb_spec (size_of_headers header) (off + section_count header * 56));
    [exact I|].
  rewrite (proj2 (Z.ltb_ge _ _)) by lia.
  pose proof (parse_sections_loop_spec bytes header off Hb Hl ltac:(lia)
    (Z.to_nat (section_count header)) 0 ltac:(lia)) as Hloop.
  rewrite Z2Nat.id in Hloop by lia. specialize (Hloop ltac:(lia)).
  destruct (parse_sections_loop _ _ _ _) as [l|e]; [|done].
  destruct Hloop as [Hlen Hall]. split; [lia | done].
Qed.

(** What a parsed image promises its loader. *)
Definition image_ok (bytes : list Z) (image : XbeImage) : Prop :=
  let h := header image in
  u32 (base_address h) /\ 0x178 <= size_of_image_header h /\ size_of_image_header h <= size_of_headers h /\
  size_of_headers h <= size_of_image h /\ size_of_headers h <= file_len bytes /\
  image_contains (base_address h) (size_of_image h) (entry_point h) = true /\
  image_contains (base_address h) (size_of_image h) (kernel_thunk_address h) = true /\
  section_count h <= 4096 /\ Z.of_nat (length (sections image)) = section_count h /\
  file_size image = file_len bytes /\
  forall i s, sections image !! i = Some s -> section_ok bytes s /\ index s = Z.of_nat i.

(** The classification of the parser's outcomes. *)
Definition outcome_ok (bytes : list Z) (r : result XbeError XbeImage) : Prop :=
  match r with
  | Ok image => slice bytes 0 4 = Some XBE_MAGIC /\ image_ok bytes image
  | Err InvalidMagic => slice bytes 0 4 <> Some XBE_MAGIC
  | Err (Truncated f o) => f = "image header" /\ o = file_len bytes /\ file_len bytes < 0x178
  | Err _ => slice bytes 0 4 = Some XBE_MAGIC /\ 0x178 <= file_len bytes
  end.

Lemma late_outcome bytes e : slice bytes 0 4 = Some XBE_MAGIC -> 0x178 <= file_len bytes ->
  late_error e -> outcome_ok bytes (Err e).
Proof. by destruct e. Qed.

(** From the decoded entry point on. *)
Lemma parse_tail bytes base flavor entry thunk_enc size mk :
  Forall u8 bytes -> file_len bytes < 2 ^ 64 -> slice bytes 0 4 = Some XBE_MAGIC ->
  0x178 <= file_len bytes -> u32 base -> image_contains base size entry = true ->
  (forall thunk, let h := mk flavor entry thunk in
     base_address h = base /\ size_of_image h = size /\ entry_point h = entry /\
     kernel_thunk_address h = thunk /\ u32 (section_count h) /\ section_count h <= 4096 /\
     0x178 <= size_of_image_header h /\ size_of_image_header h <= size_of_headers h /\
     size_of_headers h <= size /\ size_of_headers h <= file_len bytes) ->
  outcome_ok bytes
    (e ← Ok (flavor, entry);
     let '(build_flavor, entry_point) := e in
     thunk ← decode_kernel_thunk thunk_enc build_flavor base size;
     l ← parse_sections bytes (mk build_flavor entry_point thunk);
     Ok (mkXbeImage (mk build_flavor entry_point thunk) l
           (default U64_MAX (try_from_u 64 (file_len bytes))))).
Proof.
  intros Hb Hl Hm Hmin Hbase Hin Hmk. cbn [mbind result_bind].
  destruct (decode_kernel_thunk _ _ _ _) as [thunk|e] eqn:Ht; cbn [mbind result_bind].
  2:{ apply late_outcome; [done..|]. unfold decode_kernel_thunk in Ht.
      destruct flavor; repeat case_match; simplify_eq; exact I. }
  apply decode_thunk_inside in Ht.
  destruct (Hmk thunk) as (Hbase' & Hsize & Hentry & Hthunk & Hc & Hmax & H1 & H2 & H3 & H4).
  pose proof (parse_sections_spec bytes (mk flavor entry thunk) Hb Hl
    ltac:(by rewrite Hbase') Hc Hmax H4) as Hsec.
  destruct (parse_sections _ _) as [l|e]; cbn [mbind result_bind];
    [|by apply late_outcome].
  destruct Hsec as [Hlen Hall]. split; [done|]. unfold image_ok. cbn [header sections file_size].
  rewrite Hbase', Hsize, Hentry, Hthunk.
  rewrite try_from_u_some by (unfold is_u, file_len in *; lia). by split_and!.
Qed.

Lemma parse_spec bytes : Forall u8 bytes -> file_len bytes < 2 ^ 64 ->
  outcome_ok bytes (XbeImage_parse bytes).
Proof.
  intros Hb Hl. unfold XbeImage_parse.
  destruct (bool_decide (slice bytes 0 4 = Some XBE_MAGIC)) eqn:Hm; cbn [negb];
    bool_to_prop; [|done].
  destruct (Z.ltb_spec (file_len bytes) MINIMUM_HEADER_SIZE) as [|Hmin]; [done|].
  unfold MINIMUM_HEADER_SIZE in Hmin. do 15 read_field Hb. unfold validate_header_sizes.
  destruct (Z.ltb_spec v10 MINIMUM_HEADER_SIZE); cbn [mbind result_bind]; [done|].
  destruct (Z.ltb_spec v12 v10); cbn [mbind result_bind]; [done|].
  destruct (Z.ltb_spec v11 v12); cbn [mbind result_bind]; [done|].
  rewrite (try_from_u_some 64 v12) by (unfold is_u in *; lia).
  destruct (Z.ltb_spec (file_len bytes) v12); cbn [mbind result_bind]; [done|].
  destruct (Z.ltb_spec MAXIMUM_SECTION_COUNT v7); [done|].
  rewrite decode_entry_cases.
  destruct (image_contains v13 v11 (Z.lxor v4 ENTRY_RETAIL_XOR)) eqn:Hr.
  1: apply parse_tail with (1 := Hb); try done; lia.
  destruct (image_contains v13 v11 (Z.lxor v4 ENTRY_DEBUG_XOR)) eqn:Hd.
  1: apply parse_tail with (1 := Hb); try done; lia.
  cbn [mbind result_bind]. done.
Qed.

Lemma section_data_ok bytes s : file_len bytes < 2 ^ 64 -> section_ok bytes s ->
  exists data, section_data bytes s = Ok data /\ Z.of_nat (length data) = raw_size s /\
    data = take (Z.to_nat (raw_size s)) (drop (Z.to_nat (raw_address s)) bytes).
Proof.
  intros Hl (Hraw & _ & _ & _ & Ha & Hs & _). unfold section_data, is_u in *.
  rewrite !try_from_u_some by (unfold is_u; lia). cbn [ok_or mbind result_bind].
  rewrite checked_add_some by lia. cbn [ok_or mbind result_bind].
  destruct (slice_some bytes (raw_address s) (raw_address s + raw_size s))
    as (bs & -> & Hlen & ->); [lia..|]. eexists. split_and!; [done | lia |].
  by replace (raw_address s + raw_size s - raw_address s) with (raw_size s) by lia.
Qed.

(** ** Theorems *)

(** C40: parsing either yields an image whose header sizes nest and lie in the
    file, whose entry point and thunk table lie in the image, and whose
    sections (at most 4096, numbered in order) lie in the file and in the
    address space with NUL-free UTF-8 names; or it reports one error of its
    class: the wrong magic exactly when the magic is wrong, and a truncation
    only for a file shorter than the fixed header.  No later read can run off
    the file. *)
Theorem xbe_parse_classified (bytes : list Z) :
  Forall u8 bytes -> file_len bytes < 2 ^ 64 ->
  outcome_ok bytes (XbeImage_parse bytes).
Proof. apply parse_spec. Qed.

(** the data of every section of a parsed image is available: exactly its
    [raw_size] bytes from its raw offset. *)
Theorem xbe_section_data_total (bytes : list Z) (image : XbeImage) (s : XbeSection) :
  Forall u8 bytes -> file_len bytes < 2 ^ 64 ->
  XbeImage_parse bytes = Ok image -> s ∈ sections image ->
  exists data, section_data bytes s = Ok data /\ Z.of_nat (length data) = raw_size s /\
    data = take (Z.to_nat (raw_size s)) (drop (Z.to_nat (raw_address s)) bytes).
Proof.
  intros Hb Hl Hp [i Hi]%list_elem_of_lookup. apply section_data_ok; [done|].
  pose proof (parse_spec bytes Hb Hl) as H. rewrite Hp in H.
  destruct H as [_ (_ & _ & _ & _ & _ & _ & _ & _ & _ & _ & Hall)]. by apply (Hall i).
Qed.

Lemma lxor_cancel x k : Z.lxor (Z.lxor x k) k = x.
Proof. by rewrite Z.lxor_assoc, Z.lxor_nilpotent, Z.lxor_0_r. Qed.

(** Exchanging the two keys moves an address by at least 0x3863520: bit 29
    of the difference of the keys outweighs the bits below it by that much. *)
Lemma key_distance x :
  0x3863520 <= Z.abs (Z.lxor x (Z.lxor ENTRY_DEBUG_XOR ENTRY_RETAIL_XOR) - x).
Proof.
  change (Z.lxor ENTRY_DEBUG_XOR ENTRY_RETAIL_XOR) with 0x3C79CAE0.
  pose proof (Z.add_lxor_2land x 0x3C79CAE0) as Hx.
  assert (Z.land x 0x3C79CAE0 = Z.land x (2 ^ 29) + Z.land x 0x1C79CAE0) as Hsplit.
  { rewrite Z.add_nocarry_lxor.
    - change 0x3C79CAE0 with (Z.lxor (2 ^ 29) 0x1C79CAE0).
      apply Z.bits_inj'. intros i Hi. rewrite !Z.lxor_spec, !Z.land_spec, Z.lxor_spec.
      by destruct (Z.testbit x i), (Z.testbit (2 ^ 29) i), (Z.testbit 0x1C79CAE0 i).
    - rewrite (Z.land_comm x), <- Z.land_assoc, (Z.land_assoc x x), Z.land_diag.
      rewrite (Z.land_comm x), Z.land_assoc. apply Z.land_0_l. }
  assert (Z.land x (2 ^ 29) = 0 \/ Z.land x (2 ^ 29) = 2 ^ 29) as Hbit.
  { destruct (Z.testbit x 29) eqn:Hb; [right | left]; apply Z.bits_inj'; intros i Hi;
      rewrite Z.land_spec, Z.pow2_bits_eqb, ?Z.bits_0 by lia;
      destruct (Z.eqb_spec 29 i) as [<-|]; rewrite ?Hb; done || apply andb_false_r. }
  pose proof (land_le_mask x 0x1C79CAE0 ltac:(lia)). lia.
Qed.

(** encoding an address with the key of a flavor and decoding it gives
    the flavor and the address back, for every entry point and thunk address
    inside an image of at most 0x3863520 bytes (a debug entry point of a larger
    image could be taken for a retail one). *)
Theorem xbe_encoding_roundtrip (base size entry thunk : Z) :
  image_contains base size entry = true -> image_contains base size thunk = true ->
  size <= 0x3863520 ->
  decode_entry_point (Z.lxor entry ENTRY_RETAIL_XOR) base size = Ok (Retail, entry) /\
  decode_entry_point (Z.lxor entry ENTRY_DEBUG_XOR) base size = Ok (Debug, entry) /\
  decode_kernel_thunk (Z.lxor thunk KERNEL_RETAIL_XOR) Retail base size = Ok thunk /\
  decode_kernel_thunk (Z.lxor thunk KERNEL_DEBUG_XOR) Debug base size = Ok thunk.
Proof.
  intros He Ht Hsize. rewrite !decode_entry_cases. unfold decode_kernel_thunk. cbn zeta.
  rewrite !lxor_cancel, He, Ht. split_and!; [done| |done..].
  assert (image_contains base size
    (Z.lxor (Z.lxor entry ENTRY_DEBUG_XOR) ENTRY_RETAIL_XOR) = false) as ->; [|done].
  rewrite Z.lxor_assoc. pose proof (key_distance entry) as Hd.
  unfold image_contains in *. apply andb_true_iff in He as [?%Z.leb_le ?%Z.ltb_lt].
  apply andb_false_iff. rewrite Z.leb_gt, Z.ltb_ge. lia.
Qed.

Lemma xbe_encoding_roundtrip_witness :
  decode_entry_point (Z.lxor 0x11000 ENTRY_DEBUG_XOR) 0x10000 0x4000 = Ok (Debug, 0x11000).
Proof. apply (xbe_encoding_roundtrip 0x10000 0x4000 0x11000 0x11200); done. Defined.

(** ** A synthetic image: one executable section of two bytes *)

Definition write_at (bytes : list Z) (offset : nat) (value : list Z) : list Z :=
  take offset bytes ++ value ++ drop (offset + length value) bytes.
Definition write_u32 (bytes : list Z) (offset : nat) (value : Z) : list Z :=
  write_at bytes offset (to_le_bytes 4 value).

Definition synthetic_xbe : list Z :=
  let bytes := write_at (replicate 0x282 0) 0 XBE_MAGIC in
  let words := [(0x104, 0x10000); (0x108, 0x280); (0x10C, 0x4000); (0x110, 0x178);
                (0x118, 0x10178); (0x11C, 1); (0x120, 0x10200);
                (0x128, Z.lxor 0x11000 ENTRY_RETAIL_XOR); (0x130, 0x10000);
                (0x134, 0x100000); (0x138, 0x1000);
                (0x158, Z.lxor 0x11200 KERNEL_RETAIL_XOR);
                (0x200, 4); (0x204, 0x11000); (0x208, 2); (0x20C, 0x280); (0x210, 2);
                (0x214, 0x10238)] in
  let bytes := foldl (fun bs w => write_u32 bs (Z.to_nat w.1) w.2) bytes words in
  let bytes := write_at bytes 0x238 [0x2E; 0x74; 0x65; 0x78; 0x74; 0] in
  write_at bytes 0x280 [0x90; 0xC3].

Lemma synthetic_xbe_u8 : Forall u8 synthetic_xbe.
Proof.
  assert (forallb (fun b => (0 <=? b) && (b <? 256)) synthetic_xbe = true) as H
    by by vm_compute.
  apply list.Forall_forall. intros b Hb. rewrite forallb_forall in H.
  specialize (H b ltac:(by apply list_elem_of_In)). bool_to_prop. unfold is_u. lia.
Defined.

Lemma xbe_parse_classified_witness :
  outcome_ok synthetic_xbe (XbeImage_parse synthetic_xbe) /\
  is_ok (XbeImage_parse synthetic_xbe) = true.
Proof.
  split; [|by vm_compute].
  apply (xbe_parse_classified synthetic_xbe synthetic_xbe_u8). by vm_compute.
Defined.

Definition synthetic_image : XbeImage :=
  match XbeImage_parse synthetic_xbe with
  | Ok image => image
  | Err _ => mkXbeImage (mkXbeHeader 0 0 0 0 0 0 0 0 0 0 0 Unknown 0 0 0 0 0 0) [] 0
  end.
Definition synthetic_section : XbeSection :=
  default (mkXbeSection 0 [] 0 0 0 0 0 0 0 []) (head (sections synthetic_image)).

Lemma xbe_section_data_total_witness :
  exists data, section_data synthetic_xbe synthetic_section = Ok data /\ data = [0x90; 0xC3].
Proof.
  destruct (xbe_section_data_total synthetic_xbe synthetic_image synthetic_section)
    as (data & Hd & _ & ->).
  - exact synthetic_xbe_u8.
  - by vm_compute.
  - by vm_compute.
  - vm_compute. left.
  - eexists. split; [exact Hd | by vm_compute].
Defined.
