(* ===== verification/Iced.v ===== *)
(** * Decoded instructions

    The interpreter reads instructions through the accessors of the
    third-party crate [iced-x86].  This file states the part of that interface
    the interpreter uses: the enumerations, with the constructors the sources
    name and one constructor for the rest, a record of accessor results, and
    a class for the two functions of the crate that are not accessors
    ([Register::size] and the decoder) with the documented facts the theorems
    rely on as a second class. *)

From S2P Require Import Prelude.

Module Register.
Inductive t : Type :=
| None
| AL | CL | DL | BL | AH | CH | DH | BH
| AX | CX | DX | BX | SP | BP | SI | DI
| EAX | ECX | EDX | EBX | ESP | EBP | ESI | EDI
| ES | CS | SS | DS | FS | GS
| Other (n : Z).

(** [register == Register::None]. *)
Definition is_none (r : t) : bool := match r with None => true | _ => false end.
End Register.

Module Mnemonic.
Inductive t : Type :=
| Jmp | Call | Ret | Loop | Loope | Loopne | Jecxz
| Nop | Pause | Wbinvd | Invd | Clflush | Cli | Sti
| Mov | Movzx | Movsx | Lea | Xchg | Xadd | Cmpxchg | Cmpxchg8b
| Add | Adc | Sub | Sbb | And | Or | Xor | Cmp | Test
| Inc | Dec | Neg | Not
| Shl | Sal | Shr | Sar | Rol | Ror | Rcl | Rcr | Shld | Shrd
| Mul | Imul | Div | Idiv | Bswap | Bt | Bts | Btr | Btc | Bsf | Bsr
| Cbw | Cwde | Cwd | Cdq | Clc | Stc | Cmc | Cld | Std | Lahf | Sahf
| Push | Pop | Pushad | Popad
| Movsb | Movsw | Movsd | Stosb | Stosw | Stosd | Lodsb | Lodsw | Lodsd
| Scasb | Scasw | Scasd | Cmpsb | Cmpsw | Cmpsd
| Cpuid | Rdtsc | Pushfd | Popfd | Fldcw | Wait | Leave
| Seta | Setae | Setb | Setbe | Sete | Setg | Setge | Setl | Setle | Setne | Setno | Setnp
| Setns | Seto | Setp | Sets
| Cmova | Cmovae | Cmovb | Cmovbe | Cmove | Cmovg | Cmovge | Cmovl | Cmovle | Cmovne | Cmovno
| Cmovnp | Cmovns | Cmovo | Cmovp | Cmovs
| In | Out
| Other (n : Z).
End Mnemonic.

Module Code.
Inductive t : Type :=
| Retnd | Retnd_imm16
| Loop_rel8_32_ECX | Loope_rel8_32_ECX | Loopne_rel8_32_ECX | Jecxz_rel8_32
| Jmp_rm32 | Call_rm32 | Leaved
| Imul_rm8 | Imul_rm16 | Imul_rm32
| Imul_r16_rm16 | Imul_r32_rm32 | Imul_r16_rm16_imm8 | Imul_r32_rm32_imm8
| Imul_r16_rm16_imm16 | Imul_r32_rm32_imm32
| Other (n : Z).
End Code.

Module OpKind.
Inductive t : Type :=
| Register | NearBranch32 | Memory
| Immediate8 | Immediate8to16 | Immediate8to32 | Immediate16 | Immediate32
| MemoryESEDI | MemorySegESI
| Other (n : Z).

#[global] Instance t_eq_dec : EqDecision t.
Proof. solve_decision. Defined.
End OpKind.

Module ConditionCode.
Inductive t : Type :=
| None | o | no | b | ae | e | ne | be | a | s | ns | p | np | l | ge | le | g.

Definition is_none (c : t) : bool := match c with None => true | _ => false end.
End ConditionCode.

(** What the accessors of [iced_x86::Instruction] return for one instruction.
    Immediates are unsigned except the sign-extending ones, which are the
    signed value. *)
Record Instruction : Type := mkInstruction {
  mnemonic : Mnemonic.t;
  code : Code.t;
  ip : Z;
  len : Z;
  op_count : Z;
  op_kind : Z -> OpKind.t;
  op_register : Z -> Register.t;
  immediate8 : Z;
  immediate16 : Z;
  immediate32 : Z;
  immediate8to16 : Z;
  immediate8to32 : Z;
  near_branch32 : Z;
  memory_base : Register.t;
  memory_index : Register.t;
  memory_index_scale : Z;
  memory_displacement32 : Z;
  memory_displacement64 : Z;
  memory_segment : Register.t;
  memory_size : Z;
  condition_code : ConditionCode.t;
  has_rep_prefix : bool;
  has_repne_prefix : bool;
}.

(** Accessor results have the width of their Rust type. *)
Definition instruction_wf (i : Instruction) : Prop :=
  u64 (ip i) /\ 1 <= len i <= 15 /\ u8 (immediate8 i) /\ u16 (immediate16 i) /\
  u32 (immediate32 i) /\ -128 <= immediate8to16 i < 128 /\ -128 <= immediate8to32 i < 128 /\
  u32 (near_branch32 i) /\ u32 (memory_index_scale i) /\ u32 (memory_displacement32 i).

(** What the decoder guarantees of the exchanges: the second operand of XCHG
    and XADD is a register (the instruction set has no other encoding). *)
Definition exchange_ok (i : Instruction) : Prop :=
  match mnemonic i with
  | Mnemonic.Xchg | Mnemonic.Xadd => op_kind i 1 = OpKind.Register
  | _ => True
  end.

(** Why decoding stopped. *)
Inductive DecoderError : Type := DecNone | InvalidInstructionBytes | NoMoreBytes.

(** [decode bytes ip]: an instruction, or the decoder's last error. *)
Class Iced : Type := {
  register_size : Register.t -> Z;
  iced_decode : list Z -> Z -> result DecoderError Instruction;
}.

(** Documented facts: register sizes in bytes, and a decoded instruction is
    well formed, no longer than the bytes given, and of an encoding that
    exists; where the decoder asked for more bytes, the instruction is longer
    than the bytes it had; and an instruction knows the address it was decoded
    at. *)
Class IcedLaws `{Iced} : Prop := {
  size8 r : r ∈ [Register.AL; Register.CL; Register.DL; Register.BL;
                 Register.AH; Register.CH; Register.DH; Register.BH] -> register_size r = 1;
  size16 r : r ∈ [Register.AX; Register.CX; Register.DX; Register.BX;
                  Register.SP; Register.BP; Register.SI; Register.DI] -> register_size r = 2;
  size32 r : r ∈ [Register.EAX; Register.ECX; Register.EDX; Register.EBX;
                  Register.ESP; Register.EBP; Register.ESI; Register.EDI] -> register_size r = 4;
  decode_wf bytes at_ip i : u64 at_ip -> iced_decode bytes at_ip = Ok i ->
    instruction_wf i /\ len i <= Z.of_nat (length bytes) /\ exchange_ok i;
  decode_longer bytes rest at_ip i : u64 at_ip -> iced_decode bytes at_ip = Err NoMoreBytes ->
    iced_decode (bytes ++ rest) at_ip = Ok i -> Z.of_nat (length bytes) < len i;
  decode_ip bytes at_ip i : u64 at_ip -> iced_decode bytes at_ip = Ok i -> ip i = at_ip;
}.

(** A concrete instance: the register sizes, and a decoder that knows the
    one-byte [nop] and [ret]. *)
Definition demo_register_size (r : Register.t) : Z :=
  match r with
  | Register.None | Register.Other _ => 0
  | Register.AL | Register.CL | Register.DL | Register.BL
  | Register.AH | Register.CH | Register.DH | Register.BH => 1
  | Register.EAX | Register.ECX | Register.EDX | Register.EBX
  | Register.ESP | Register.EBP | Register.ESI | Register.EDI => 4
  | _ => 2
  end.

(** An instruction without operands. *)
Definition plain_instruction (mn : Mnemonic.t) (c : Code.t) (at_ip length : Z) : Instruction :=
  mkInstruction mn c at_ip length 0 (fun _ => OpKind.Register) (fun _ => Register.None)
    0 0 0 0 0 0 Register.None Register.None 1 0 0 Register.DS 0 ConditionCode.None false false.

Definition demo_decode (bytes : list Z) (at_ip : Z) : result DecoderError Instruction :=
  match bytes with
  | [] => Err NoMoreBytes
  | 0x90 :: _ => Ok (plain_instruction Mnemonic.Nop (Code.Other 0) at_ip 1)
  | 0xC3 :: _ => Ok (plain_instruction Mnemonic.Ret Code.Retnd at_ip 1)
  | _ => Err InvalidInstructionBytes
  end.

Definition DemoIced : Iced := {|
  register_size := demo_register_size;
  iced_decode := demo_decode;
|}.

Lemma plain_wf mn c at_ip : u64 at_ip -> instruction_wf (plain_instruction mn c at_ip 1).
Proof. unfold instruction_wf, is_u. cbn. lia. Qed.

Lemma demo_iced_laws : @IcedLaws DemoIced.
Proof.
  split.
  1-3: intros r Hr; cbn [register_size DemoIced];
    repeat (apply elem_of_cons in Hr as [->|Hr]; [done|]); by apply not_elem_of_nil in Hr.
  - intros bytes at_ip i Hip Hd. cbn [iced_decode DemoIced] in Hd. unfold demo_decode in Hd.
    destruct bytes as [|b bytes]; [done|].
    repeat case_match; simplify_eq; (split; [by apply plain_wf | cbn; split; [lia|done]]).
  - intros bytes rest at_ip i Hip Hn Hd. cbn [iced_decode DemoIced] in *.
    unfold demo_decode in Hn. destruct bytes as [|b bytes]; [|by repeat case_match].
    unfold demo_decode in Hd. cbn in Hd. repeat case_match; simplify_eq; cbn; lia.
  - intros bytes at_ip i _ Hd. cbn [iced_decode DemoIced] in Hd. unfold demo_decode in Hd.
    destruct bytes as [|b bytes]; [done|]. by repeat case_match; simplify_eq.
Qed.
