(* ===== verification/CpuState.v ===== *)
(** * Guest CPU state

    Models [exbawks-cpu/src/state.rs] and the masks of [flags.rs]: the
    register file in encoding order, EIP, EFLAGS, the cached segments, the
    vector and floating-point registers, and the virtual time-stamp counter.
    The fixed-size arrays are lists of that length. *)

From S2P Require Import Prelude.

(** ** EFLAGS *)

Definition CARRY : Z := Z.shiftl 1 0.
Definition PARITY : Z := Z.shiftl 1 2.
Definition AUXILIARY : Z := Z.shiftl 1 4.
Definition ZERO : Z := Z.shiftl 1 6.
Definition SIGN : Z := Z.shiftl 1 7.
Definition INTERRUPT : Z := Z.shiftl 1 9.
Definition DIRECTION : Z := Z.shiftl 1 10.
Definition OVERFLOW : Z := Z.shiftl 1 11.
Definition ALIGNMENT_CHECK : Z := Z.shiftl 1 18.
Definition ID : Z := Z.shiftl 1 21.

Definition ARITHMETIC : Z :=
  Z.lor (Z.lor (Z.lor (Z.lor (Z.lor CARRY PARITY) AUXILIARY) ZERO) SIGN) OVERFLOW.
Definition LOGIC_DEFINED : Z :=
  Z.lor (Z.lor (Z.lor (Z.lor CARRY PARITY) ZERO) SIGN) OVERFLOW.

(** ** Registers *)

Inductive Gpr : Type := Eax | Ecx | Edx | Ebx | Esp | Ebp | Esi | Edi.

(** [register as usize]. *)
Definition Gpr_index (register : Gpr) : nat :=
  match register with
  | Eax => 0 | Ecx => 1 | Edx => 2 | Ebx => 3 | Esp => 4 | Ebp => 5 | Esi => 6 | Edi => 7
  end%nat.

Inductive Segment : Type := Es | Cs | Ss | Ds | Fs | Gs.

Definition Segment_index (segment : Segment) : nat :=
  match segment with
  | Es => 0 | Cs => 1 | Ss => 2 | Ds => 3 | Fs => 4 | Gs => 5
  end%nat.

Record SegmentState : Type := mkSegmentState {
  selector : Z;
  attributes : Z;
  base : Z;
  limit : Z;
}.

Definition SegmentState_default : SegmentState := mkSegmentState 0 0 0 0.

Record X87State : Type := mkX87State {
  control : Z;
  status : Z;
  tag : Z;
  opcode : Z;
  registers : list (list Z);
}.

Definition X87State_default : X87State :=
  mkX87State 0x037F 0 0xFFFF 0 (replicate 8 (replicate 16 0)).

Record CpuState : Type := mkCpuState {
  gpr : list Z;
  eip : Z;
  eflags : Z;
  segments : list SegmentState;
  xmm : list Z;
  mxcsr : Z;
  x87 : X87State;
  tsc : Z;
}.

Definition CpuState_default : CpuState :=
  mkCpuState (replicate 8 0) 0 0x202 (replicate 6 SegmentState_default) (replicate 8 0) 0x1F80
    X87State_default 0.

(** Functional record updates. *)
Definition with_gpr (s : CpuState) (v : list Z) : CpuState :=
  mkCpuState v (eip s) (eflags s) (segments s) (xmm s) (mxcsr s) (x87 s) (tsc s).
Definition with_eip (s : CpuState) (v : Z) : CpuState :=
  mkCpuState (gpr s) v (eflags s) (segments s) (xmm s) (mxcsr s) (x87 s) (tsc s).
Definition with_eflags (s : CpuState) (v : Z) : CpuState :=
  mkCpuState (gpr s) (eip s) v (segments s) (xmm s) (mxcsr s) (x87 s) (tsc s).
Definition with_segments (s : CpuState) (v : list SegmentState) : CpuState :=
  mkCpuState (gpr s) (eip s) (eflags s) v (xmm s) (mxcsr s) (x87 s) (tsc s).
Definition with_x87 (s : CpuState) (v : X87State) : CpuState :=
  mkCpuState (gpr s) (eip s) (eflags s) (segments s) (xmm s) (mxcsr s) v (tsc s).
Definition with_tsc (s : CpuState) (v : Z) : CpuState :=
  mkCpuState (gpr s) (eip s) (eflags s) (segments s) (xmm s) (mxcsr s) (x87 s) v.

(** [state.gpr[index]] and [state.gpr[index] = value]. *)
Definition gpr_at (s : CpuState) (index : nat) : Z := nth index (gpr s) 0.
Definition set_gpr (s : CpuState) (index : nat) (value : Z) : CpuState :=
  with_gpr s (<[index := value]> (gpr s)).

Definition CpuState_get (s : CpuState) (register : Gpr) : Z := gpr_at s (Gpr_index register).
Definition CpuState_set (s : CpuState) (register : Gpr) (value : Z) : CpuState :=
  set_gpr s (Gpr_index register) value.

Definition CpuState_segment (s : CpuState) (segment : Segment) : SegmentState :=
  nth (Segment_index segment) (segments s) SegmentState_default.
Definition CpuState_set_segment (s : CpuState) (segment : Segment) (value : SegmentState)
  : CpuState :=
  with_segments s (<[Segment_index segment := value]> (segments s)).

(** ** Well-formed states: every field has the width of its Rust type *)

Definition cpu_wf (s : CpuState) : Prop :=
  length (gpr s) = 8%nat /\ Forall u32 (gpr s) /\ u32 (eip s) /\ u32 (eflags s) /\
  length (segments s) = 6%nat /\ Forall (fun g => u32 (base g)) (segments s) /\ u64 (tsc s).

Lemma cpu_default_wf : cpu_wf CpuState_default.
Proof.
  unfold cpu_wf, is_u. cbn. split_and!; try done || lia; repeat constructor; cbn; lia.
Qed.

(** ** Register file lemmas *)

Lemma gpr_at_set s i v j : (i < length (gpr s))%nat ->
  gpr_at (set_gpr s i v) j = if decide (j = i) then v else gpr_at s j.
Proof.
  intros Hi. unfold gpr_at, set_gpr. cbn [gpr with_gpr]. rewrite !nth_lookup.
  case_decide as Hj.
  - subst. by rewrite list_lookup_insert_eq.
  - by rewrite list_lookup_insert_ne by congruence.
Qed.

Lemma gpr_at_wf s i : cpu_wf s -> u32 (gpr_at s i).
Proof.
  intros (_ & Hg & _). unfold gpr_at. rewrite nth_lookup.
  destruct (gpr s !! i) as [v|] eqn:Hv; cbn.
  - by eapply Forall_lookup_1 in Hg.
  - unfold is_u. lia.
Qed.

Lemma set_gpr_wf s i v : cpu_wf s -> u32 v -> cpu_wf (set_gpr s i v).
Proof.
  intros (Hl & Hg & Hrest) Hv. unfold cpu_wf, set_gpr. cbn [gpr with_gpr].
  rewrite length_insert. split; [done|]. split; [by apply Forall_insert | exact Hrest].
Qed.

Lemma with_eip_wf s v : cpu_wf s -> u32 v -> cpu_wf (with_eip s v).
Proof. intros (? & ? & _ & ? & ? & ? & ?) Hv. by unfold cpu_wf. Qed.

Lemma with_eflags_wf s v : cpu_wf s -> u32 v -> cpu_wf (with_eflags s v).
Proof. intros (? & ? & ? & _ & ? & ? & ?) Hv. by unfold cpu_wf. Qed.

Lemma with_tsc_wf s v : cpu_wf s -> u64 v -> cpu_wf (with_tsc s v).
Proof. intros (? & ? & ? & ? & ? & ? & _) Hv. by unfold cpu_wf. Qed.

Lemma with_x87_wf s v : cpu_wf s -> cpu_wf (with_x87 s v).
Proof. intros (? & ? & ? & ? & ? & ? & ?). by unfold cpu_wf. Qed.

Lemma segment_base_wf s g : cpu_wf s -> u32 (base (CpuState_segment s g)).
Proof.
  intros (_ & _ & _ & _ & _ & Hs & _). unfold CpuState_segment. rewrite nth_lookup.
  destruct (segments s !! _) as [v|] eqn:Hv; cbn.
  - by eapply Forall_lookup_1 in Hs.
  - unfold is_u. lia.
Qed.

Lemma eflags_wf s : cpu_wf s -> u32 (eflags s).
Proof. by intros (_ & _ & _ & ? & _). Qed.
Lemma eip_wf s : cpu_wf s -> u32 (eip s).
Proof. by intros (_ & _ & ? & _). Qed.
Lemma gpr_length s : cpu_wf s -> length (gpr s) = 8%nat.
Proof. by intros (? & _). Qed.

#[export] Hint Resolve gpr_at_wf set_gpr_wf with_eip_wf with_eflags_wf with_tsc_wf with_x87_wf
  segment_base_wf eflags_wf eip_wf : word.
