(* ===== verification/ExecCore.v ===== *)
(** * The tier-0 interpreter: machine, operands and flags

    Models the first half of [exbawks-cpu/src/exec.rs]: the error type, the
    operand widths, operand resolution, register and memory access, and the
    flag computations.  An interpreter function takes the CPU state by mutable
    reference and guest memory (and the port bus) by shared reference to an
    object with interior state; it may fail at any point and keep what it
    already changed.  That is the monad [Exec]: a failed run still returns the
    machine. *)

From S2P Require Import Prelude GuestTypes PageTable GuestMemory Iced CpuState.

(** ** Errors *)

Inductive ExecError : Type :=
| Unsupported (address : GuestVa)
| InvalidInstruction (address : GuestVa)
| Memory (error : MemoryError)
| Divide (address : GuestVa).

(** ** The machine and its monad *)

Record Machine (Mem Ports : Type) : Type := mkMachine {
  cpu : CpuState;
  mem : Mem;
  bus : Ports;
}.
Arguments mkMachine {Mem Ports}.
Arguments cpu {Mem Ports}.
Arguments mem {Mem Ports}.
Arguments bus {Mem Ports}.

Definition with_cpu {Mem Ports} (m : Machine Mem Ports) (s : CpuState) : Machine Mem Ports :=
  mkMachine s (mem m) (bus m).
Definition with_mem {Mem Ports} (m : Machine Mem Ports) (x : Mem) : Machine Mem Ports :=
  mkMachine (cpu m) x (bus m).
Definition with_bus {Mem Ports} (m : Machine Mem Ports) (p : Ports) : Machine Mem Ports :=
  mkMachine (cpu m) (mem m) p.

Definition Exec (Mem Ports A : Type) : Type :=
  Machine Mem Ports -> result ExecError A * Machine Mem Ports.

#[export] Instance exec_ret {Mem Ports} : MRet (Exec Mem Ports) := fun A a m => (Ok a, m).

#[export] Instance exec_bind {Mem Ports} : MBind (Exec Mem Ports) := fun A B f e m =>
  match e m with
  | (Ok a, m) => f a m
  | (Err err, m) => (Err err, m)
  end.

(** A computation on the state alone. *)
Definition lift {Mem Ports A} (r : result ExecError A) : Exec Mem Ports A := fun m => (r, m).
Definition fail {Mem Ports A} (e : ExecError) : Exec Mem Ports A := fun m => (Err e, m).
Definition gets {Mem Ports A} (f : CpuState -> A) : Exec Mem Ports A :=
  fun m => (Ok (f (cpu m)), m).
Definition try_gets {Mem Ports A} (f : CpuState -> result ExecError A) : Exec Mem Ports A :=
  fun m => (f (cpu m), m).
Definition modify {Mem Ports} (f : CpuState -> CpuState) : Exec Mem Ports unit :=
  fun m => (Ok tt, with_cpu m (f (cpu m))).

(** [state.gpr[i]] and [state.gpr[i] = v]. *)
Definition get_gpr {Mem Ports} (i : nat) : Exec Mem Ports Z := gets (fun s => gpr_at s i).
Definition put_gpr {Mem Ports} (i : nat) (v : Z) : Exec Mem Ports unit :=
  modify (fun s => set_gpr s i v).

(** [state.eflags = f(state.eflags)]. *)
Definition update_eflags {Mem Ports} (f : Z -> Z) : Exec Mem Ports unit :=
  modify (fun s => with_eflags s (f (eflags s))).

(** ** Operand widths *)

Inductive Width : Type := B | W | D.

#[export] Instance Width_eq_dec : EqDecision Width.
Proof. solve_decision. Defined.

Definition Width_bytes (w : Width) : Z := match w with B => 1 | W => 2 | D => 4 end.
Definition Width_bits (w : Width) : Z := match w with B => 8 | W => 16 | D => 32 end.
Definition Width_mask (w : Width) : Z :=
  match w with B => 0xFF | W => 0xFFFF | D => 0xFFFFFFFF end.
Definition Width_sign_bit (w : Width) : Z := Z.shiftl 1 (Width_bits w - 1).
Definition Width_from_bytes (bytes : Z) : option Width :=
  match bytes with 1 => Some B | 2 => Some W | 4 => Some D | _ => None end.

Inductive Operand : Type :=
| OpRegister (register : Register.t)
| OpMemory (location : GuestVa)
| OpImmediate (value : Z).

Inductive Flow : Type := Next | Jumped.

(** ** Registers *)

Definition gpr_index (register : Register.t) : option nat :=
  match register with
  | Register.EAX => Some 0
  | Register.ECX => Some 1
  | Register.EDX => Some 2
  | Register.EBX => Some 3
  | Register.ESP => Some 4
  | Register.EBP => Some 5
  | Register.ESI => Some 6
  | Register.EDI => Some 7
  | _ => None
  end%nat.

Inductive RegisterSlot : Type :=
| Low8 (index : nat)
| High8 (index : nat)
| Wide16 (index : nat)
| Wide32 (index : nat).

Definition register_slot (register : Register.t) : option RegisterSlot :=
  match register with
  | Register.AL => Some (Low8 0)
  | Register.CL => Some (Low8 1)
  | Register.DL => Some (Low8 2)
  | Register.BL => Some (Low8 3)
  | Register.AH => Some (High8 0)
  | Register.CH => Some (High8 1)
  | Register.DH => Some (High8 2)
  | Register.BH => Some (High8 3)
  | Register.AX => Some (Wide16 0)
  | Register.CX => Some (Wide16 1)
  | Register.DX => Some (Wide16 2)
  | Register.BX => Some (Wide16 3)
  | Register.SP => Some (Wide16 4)
  | Register.BP => Some (Wide16 5)
  | Register.SI => Some (Wide16 6)
  | Register.DI => Some (Wide16 7)
  | Register.EAX => Some (Wide32 0)
  | Register.ECX => Some (Wide32 1)
  | Register.EDX => Some (Wide32 2)
  | Register.EBX => Some (Wide32 3)
  | Register.ESP => Some (Wide32 4)
  | Register.EBP => Some (Wide32 5)
  | Register.ESI => Some (Wide32 6)
  | Register.EDI => Some (Wide32 7)
  | _ => None
  end.

Definition read_register (state : CpuState) (register : Register.t) (address : GuestVa)
  : result ExecError Z :=
  slot ← ok_or (register_slot register) (Unsupported address);
  match slot with
  | Low8 index => Ok (Z.land (gpr_at state index) 0xFF)
  | High8 index => Ok (Z.land (Z.shiftr (gpr_at state index) 8) 0xFF)
  | Wide16 index => Ok (Z.land (gpr_at state index) 0xFFFF)
  | Wide32 index => Ok (gpr_at state index)
  end.

(** The pure state change of [write_register]; [None] when the register has
    no slot. *)
Definition write_register_state (state : CpuState) (register : Register.t) (value : Z)
  : option CpuState :=
  match register_slot register with
  | None => None
  | Some (Low8 index) =>
    Some (set_gpr state index
            (Z.lor (Z.land (gpr_at state index) 0xFFFFFF00) (Z.land value 0xFF)))
  | Some (High8 index) =>
    Some (set_gpr state index
            (Z.lor (Z.land (gpr_at state index) 0xFFFF00FF) (Z.shiftl (Z.land value 0xFF) 8)))
  | Some (Wide16 index) =>
    Some (set_gpr state index
            (Z.lor (Z.land (gpr_at state index) 0xFFFF0000) (Z.land value 0xFFFF)))
  | Some (Wide32 index) => Some (set_gpr state index value)
  end.

Definition write_register {Mem Ports} (register : Register.t) (value : Z) (address : GuestVa)
  : Exec Mem Ports unit := fun m =>
  match write_register_state (cpu m) register value with
  | None => (Err (Unsupported address), m)
  | Some s => (Ok tt, with_cpu m s)
  end.

(** ** Addresses *)

Definition segment_base (state : CpuState) (segment : Register.t) (address : GuestVa)
  : result ExecError Z :=
  match segment with
  | Register.ES => Ok (base (CpuState_segment state Es))
  | Register.CS => Ok (base (CpuState_segment state Cs))
  | Register.SS => Ok (base (CpuState_segment state Ss))
  | Register.DS => Ok (base (CpuState_segment state Ds))
  | Register.FS => Ok (base (CpuState_segment state Fs))
  | Register.GS => Ok (base (CpuState_segment state Gs))
  | _ => Err (Unsupported address)
  end.

Definition register_value (state : CpuState) (register : Register.t) (address : GuestVa)
  : result ExecError Z :=
  ok_or (gpr_at state <$> gpr_index register) (Unsupported address).

Section Operands.
Context `{Iced}.

Definition effective_address (state : CpuState) (instruction : Instruction) (address : GuestVa)
    (with_segment : bool) : result ExecError GuestVa :=
  let base := memory_base instruction in
  let index := memory_index instruction in
  if negb (Register.is_none base) && negb (register_size base =? 4)
  then Err (Unsupported address) else
  if negb (Register.is_none index) && negb (register_size index =? 4)
  then Err (Unsupported address) else
  let offset := memory_displacement32 instruction in
  offset ← (if Register.is_none base then Ok offset else
            v ← register_value state base address;
            Ok (wrapping_add32 offset v));
  offset ← (if Register.is_none index then Ok offset else
            v ← register_value state index address;
            Ok (wrapping_add32 offset (wrapping_mul32 v (memory_index_scale instruction))));
  if with_segment then
    b ← segment_base state (memory_segment instruction) address;
    Ok (wrapping_add32 offset b)
  else Ok offset.

Definition operand (state : CpuState) (instruction : Instruction) (index : Z) (address : GuestVa)
  : result ExecError Operand :=
  match op_kind instruction index with
  | OpKind.Register => Ok (OpRegister (op_register instruction index))
  | OpKind.Memory =>
    location ← effective_address state instruction address true;
    Ok (OpMemory location)
  | OpKind.Immediate8 => Ok (OpImmediate (immediate8 instruction))
  | OpKind.Immediate8to16 => Ok (OpImmediate (wrap16 (immediate8to16 instruction)))
  | OpKind.Immediate8to32 => Ok (OpImmediate (wrap32 (immediate8to32 instruction)))
  | OpKind.Immediate16 => Ok (OpImmediate (immediate16 instruction))
  | OpKind.Immediate32 => Ok (OpImmediate (immediate32 instruction))
  | _ => Err (Unsupported address)
  end.

Definition operand_width (instruction : Instruction) (index : Z) (address : GuestVa)
  : result ExecError Width :=
  match op_kind instruction index with
  | OpKind.Register =>
    ok_or (Width_from_bytes (register_size (op_register instruction index)))
      (Unsupported address)
  | OpKind.Memory => ok_or (Width_from_bytes (memory_size instruction)) (Unsupported address)
  | _ => Err (Unsupported address)
  end.
End Operands.

(** ** Memory and operand access *)

Section Access.
Context {Mem Ports : Type} `{GuestMemory Mem}.
Abbreviation M := (Exec Mem Ports).

(** [memory.read(location, ..)] and [memory.write(location, ..)] with the
    error converted by [?]. *)
Definition mem_read_bytes (location : GuestVa) (n : nat) : M (list Z) := fun m =>
  (map_err Memory (mem_read (mem m) location n), m).
Definition mem_write_bytes (location : GuestVa) (bytes : list Z) : M unit := fun m =>
  match mem_write (mem m) location bytes with
  | (r, x) => (map_err Memory r, with_mem m x)
  end.

(** The buffer is four zero bytes of which the first [width] are read. *)
Definition read_memory (location : GuestVa) (width : Width) : M Z :=
  bytes ← mem_read_bytes location (Z.to_nat (Width_bytes width));
  mret (from_le_bytes (bytes ++ replicate (Z.to_nat (4 - Width_bytes width)) 0)).

Definition write_memory (location : GuestVa) (width : Width) (value : Z) : M unit :=
  mem_write_bytes location (take (Z.to_nat (Width_bytes width)) (to_le_bytes 4 value)).

Definition read_operand (op : Operand) (width : Width) : M Z :=
  match op with
  | OpRegister register => try_gets (fun s => read_register s register (eip s))
  | OpMemory location => read_memory location width
  | OpImmediate value => mret (Z.land value (Width_mask width))
  end.

Definition write_operand (op : Operand) (width : Width) (value : Z) : M unit :=
  match op with
  | OpRegister register =>
    address ← gets eip;
    write_register register (Z.land value (Width_mask width)) address
  | OpMemory location => write_memory location width value
  | OpImmediate _ =>
    address ← gets eip;
    fail (Unsupported address)
  end.

Definition push_value (width : Width) (value : Z) : M unit :=
  esp ← get_gpr 4;
  let new_esp := wrapping_sub32 esp (Width_bytes width) in
  _ ← write_memory new_esp width value;
  put_gpr 4 new_esp.

Definition pop_value (width : Width) : M Z :=
  esp ← get_gpr 4;
  value ← read_memory esp width;
  _ ← put_gpr 4 (wrapping_add32 esp (Width_bytes width));
  mret value.
End Access.

(** ** Flags *)

Definition merge_flags {Mem Ports} (defined values : Z) : Exec Mem Ports unit :=
  update_eflags (fun old => Z.lor (Z.land old (not32 defined)) (Z.land values defined)).

(** [if cond { bits |= flag }]. *)
Definition flag_if (cond : bool) (flag : Z) : Z := if cond then flag else 0.

(** [(masked as u8).count_ones().is_multiple_of(2)]. *)
Definition even_parity (masked : Z) : bool := count_ones8 (wrap8 masked) mod 2 =? 0.

Definition result_bits (result : Z) (width : Width) : Z :=
  let masked := Z.land result (Width_mask width) in
  Z.lor (Z.lor (flag_if (masked =? 0) ZERO)
               (flag_if (has_bits masked (Width_sign_bit width)) SIGN))
        (flag_if (even_parity masked) PARITY).

Definition add_bits (a b carry_in : Z) (width : Width) : Z * Z :=
  let mask := Width_mask width in
  let a := Z.land a mask in
  let b := Z.land b mask in
  let wide := a + b + carry_in in
  let result := Z.land (wrap32 wide) mask in
  let bits := result_bits result width in
  let bits := Z.lor bits (flag_if (mask <? wide) CARRY) in
  let bits := Z.lor bits (flag_if (has_bits (Z.lxor (Z.lxor a b) result) 0x10) AUXILIARY) in
  let bits := Z.lor bits
    (flag_if (has_bits (Z.land (Z.lxor a result) (Z.lxor b result)) (Width_sign_bit width))
       OVERFLOW) in
  (result, bits).

Definition sub_bits (a b borrow_in : Z) (width : Width) : Z * Z :=
  let mask := Width_mask width in
  let a := Z.land a mask in
  let b := Z.land b mask in
  let result := Z.land (wrapping_sub32 (wrapping_sub32 a b) borrow_in) mask in
  let bits := result_bits result width in
  let bits := Z.lor bits (flag_if (a <? b + borrow_in) CARRY) in
  let bits := Z.lor bits (flag_if (has_bits (Z.lxor (Z.lxor a b) result) 0x10) AUXILIARY) in
  let bits := Z.lor bits
    (flag_if (has_bits (Z.land (Z.lxor a b) (Z.lxor a result)) (Width_sign_bit width))
       OVERFLOW) in
  (result, bits).

Definition logic_bits (result : Z) (width : Width) : Z := result_bits result width.

(** [state.eflags & flag != 0]. *)
Definition flag_set (flags flag : Z) : bool := has_bits flags flag.

Definition condition_met (flags : Z) (code : ConditionCode.t) : bool :=
  let carry := flag_set flags CARRY in
  let zero := flag_set flags ZERO in
  let sign := flag_set flags SIGN in
  let overflow := flag_set flags OVERFLOW in
  let parity := flag_set flags PARITY in
  match code with
  | ConditionCode.None => false
  | ConditionCode.o => overflow
  | ConditionCode.no => negb overflow
  | ConditionCode.b => carry
  | ConditionCode.ae => negb carry
  | ConditionCode.e => zero
  | ConditionCode.ne => negb zero
  | ConditionCode.be => carry || zero
  | ConditionCode.a => negb carry && negb zero
  | ConditionCode.s => sign
  | ConditionCode.ns => negb sign
  | ConditionCode.p => parity
  | ConditionCode.np => negb parity
  | ConditionCode.l => xorb sign overflow
  | ConditionCode.ge => eqb sign overflow
  | ConditionCode.le => zero || xorb sign overflow
  | ConditionCode.g => negb zero && eqb sign overflow
  end.

(** [value as u8 as i8 as i32] and its siblings. *)
Definition sign_extend (value : Z) (width : Width) : Z := signed (Width_bits width) value.
