(* ===== verification/ExecOps.v ===== *)
(** * The tier-0 interpreter: instruction families

    Models the instruction families of [exbawks-cpu/src/exec.rs]: the binary
    ALU, moves, exchanges, shifts and rotates, multiplication and division,
    bit operations, conditional moves and sets, and the string operations with
    their repeat loop. *)

From S2P Require Import Prelude GuestTypes PageTable GuestMemory Iced CpuState ExecCore.

(** ** Pure parts *)

Inductive AluKind : Type := Add | Adc | Sub | Sbb | And | Or | Xor | Cmp | Test.

(** Result, defined flags, flag values, and whether the destination is
    written. *)
Definition alu_result (kind : AluKind) (a b carry : Z) (width : Width) : Z * Z * Z * bool :=
  match kind with
  | Add => let '(result, bits) := add_bits a b 0 width in (result, ARITHMETIC, bits, true)
  | Adc => let '(result, bits) := add_bits a b carry width in (result, ARITHMETIC, bits, true)
  | Sub => let '(result, bits) := sub_bits a b 0 width in (result, ARITHMETIC, bits, true)
  | Sbb => let '(result, bits) := sub_bits a b carry width in (result, ARITHMETIC, bits, true)
  | And => (Z.land a b, LOGIC_DEFINED, logic_bits (Z.land a b) width, true)
  | Or => (Z.lor a b, LOGIC_DEFINED, logic_bits (Z.lor a b) width, true)
  | Xor => (Z.lxor a b, LOGIC_DEFINED, logic_bits (Z.lxor a b) width, true)
  | Cmp => let '(result, bits) := sub_bits a b 0 width in (result, ARITHMETIC, bits, false)
  | Test => (Z.land a b, LOGIC_DEFINED, logic_bits (Z.land a b) width, false)
  end.

Inductive ShiftKind : Type := Shl | Shr | Sar | Rol | Ror | Rcl | Rcr.

(** [u32::checked_shr(n).unwrap_or(0)] and [checked_shl]. *)
Definition checked_shr_or_0 (a n : Z) : Z := if n <? 32 then Z.shiftr a n else 0.
Definition checked_shl_or_0 (a n : Z) : Z := if n <? 32 then wrap32 (Z.shiftl a n) else 0.

(** The rotate-through-carry loops. *)
Fixpoint rcl_loop (n : nat) (value carry : Z) (width : Width) : Z * Z :=
  match n with
  | O => (value, carry)
  | S n =>
    let out := bool_u (has_bits value (Width_sign_bit width)) in
    let value := Z.land (Z.lor (wrap32 (Z.shiftl value 1)) carry) (Width_mask width) in
    rcl_loop n value out width
  end.

Fixpoint rcr_loop (n : nat) (value carry : Z) (width : Width) : Z * Z :=
  match n with
  | O => (value, carry)
  | S n =>
    let out := Z.land value 1 in
    let value := Z.lor (Z.shiftr value 1) (Z.shiftl carry (Width_bits width - 1)) in
    rcr_loop n value out width
  end.

(** Result, carry out and count-one overflow of a shift by [count > 0]. *)
Definition shift_result (kind : ShiftKind) (a count carry_in : Z) (width : Width)
  : Z * Z * bool :=
  let bits := Width_bits width in
  let mask := Width_mask width in
  let sign v := bool_u (has_bits v (Width_sign_bit width)) in
  match kind with
  | Shl =>
    let wide := Z.shiftl a count in
    let result := Z.land (wrap32 wide) mask in
    let carry := Z.land (Z.shiftr wide bits) 1 in
    (result, carry, negb (Z.lxor carry (sign result) =? 0))
  | Shr =>
    let result := if 32 <=? count then 0 else Z.land (Z.shiftr a count) mask in
    let carry := if 32 <? count then 0 else Z.land (Z.shiftr a (count - 1)) 1 in
    (result, carry, has_bits a (Width_sign_bit width))
  | Sar =>
    let extended := sign_extend a width in
    let result := Z.land (wrap32 (Z.shiftr extended (Z.min count 63))) mask in
    let carry := wrap32 (Z.land (Z.shiftr extended (Z.min (count - 1) 63)) 1) in
    (result, carry, false)
  | Rol =>
    let rotation := count mod bits in
    let result := Z.land (Z.lor (wrap32 (Z.shiftl a rotation))
                                (checked_shr_or_0 a (bits - rotation))) mask in
    let carry := Z.land result 1 in
    (result, carry, negb (Z.lxor carry (sign result) =? 0))
  | Ror =>
    let rotation := count mod bits in
    let result := Z.land (Z.lor (Z.shiftr a rotation)
                                (checked_shl_or_0 a (bits - rotation))) mask in
    let carry := sign result in
    let next := bool_u (has_bits result (Z.shiftr (Width_sign_bit width) 1)) in
    (result, carry, negb (Z.lxor carry next =? 0))
  | Rcl =>
    let rotation := count mod (bits + 1) in
    let '(value, carry) := rcl_loop (Z.to_nat rotation) a carry_in width in
    (value, carry, negb (Z.lxor carry (sign value) =? 0))
  | Rcr =>
    let overflow := negb (Z.lxor carry_in (sign a) =? 0) in
    let rotation := count mod (bits + 1) in
    let '(value, carry) := rcr_loop (Z.to_nat rotation) a carry_in width in
    (value, carry, overflow)
  end.

(** The flags a shift by [count > 0] defines, and their values. *)
Definition shift_flags (kind : ShiftKind) (count result carry_out : Z) (overflow : bool)
    (width : Width) : Z * Z :=
  let '(defined, values) :=
    match kind with
    | Rol | Ror | Rcl | Rcr => (CARRY, carry_out * CARRY)
    | _ =>
      let defined := Z.lor (Z.lor (Z.lor CARRY SIGN) ZERO) PARITY in
      let defined :=
        match kind with
        | Shl | Shr => if Width_bits width <=? count then Z.land defined (not32 CARRY) else defined
        | _ => defined
        end in
      (defined, Z.lor (result_bits result width) (carry_out * CARRY))
    end in
  if count =? 1
  then (Z.lor defined OVERFLOW, Z.lor values (bool_u overflow * OVERFLOW))
  else (defined, values).

(** [i32::wrapping_div] at width [w]; the remainder needs no wrap. *)
Definition wrapping_div (w a b : Z) : Z := signed w (Z.quot a b).
Definition wrapping_rem (a b : Z) : Z := Z.rem a b.

(** [u32::swap_bytes], [trailing_zeros] of a non-zero value and
    [leading_zeros]. *)
Definition swap_bytes (v : Z) : Z := from_le_bytes (rev (to_le_bytes 4 v)).

Fixpoint trailing_zeros_from (n : nat) (i v : Z) : Z :=
  match n with
  | O => 32
  | S n => if Z.testbit v i then i else trailing_zeros_from n (i + 1) v
  end.
Definition trailing_zeros (v : Z) : Z := trailing_zeros_from 32 0 v.
Definition leading_zeros (v : Z) : Z := if v =? 0 then 32 else 31 - Z.log2 v.

(** [(bit * CARRY) | (bit * OVERFLOW)] for the multiplications. *)
Definition overflow_bits (overflowed : bool) : Z :=
  let bit := bool_u overflowed in
  Z.lor (bit * CARRY) (bit * OVERFLOW).

Inductive BitOp : Type := BitTest | BitSet | BitReset | BitComplement.

Definition bit_update (op : BitOp) (value bit : Z) : option Z :=
  match op with
  | BitTest => None
  | BitSet => Some (Z.lor value (Z.shiftl 1 bit))
  | BitReset => Some (Z.land value (not32 (Z.shiftl 1 bit)))
  | BitComplement => Some (Z.lxor value (Z.shiftl 1 bit))
  end.

(** ** Families *)

Section Families.
Context {Mem Ports : Type} `{GuestMemory Mem} `{Iced}.
Abbreviation M := (Exec Mem Ports).

Definition binary_alu (instruction : Instruction) (address : GuestVa) (kind : AluKind) : M unit :=
  width ← lift (operand_width instruction 0 address);
  dst ← try_gets (fun s => operand s instruction 0 address);
  src ← try_gets (fun s => operand s instruction 1 address);
  a ← read_operand dst width;
  b ← read_operand src width;
  flags ← gets eflags;
  let carry := bool_u (flag_set flags CARRY) in
  let '(result, defined, bits, writes) := alu_result kind a b carry width in
  _ ← (if writes : bool then write_operand dst width result else mret tt);
  merge_flags defined bits.

Definition mov (instruction : Instruction) (address : GuestVa) : M unit :=
  width ← lift (operand_width instruction 0 address);
  src ← try_gets (fun s => operand s instruction 1 address);
  value ← read_operand src width;
  dst ← try_gets (fun s => operand s instruction 0 address);
  write_operand dst width value.

Definition widen (instruction : Instruction) (address : GuestVa) (extend : bool) : M unit :=
  dst_width ← lift (operand_width instruction 0 address);
  src_width ← lift (operand_width instruction 1 address);
  src ← try_gets (fun s => operand s instruction 1 address);
  raw ← read_operand src src_width;
  let raw := Z.land raw (Width_mask src_width) in
  let value := if extend
               then match src_width with
                    | B | W => wrap32 (sign_extend raw src_width)
                    | D => raw
                    end
               else raw in
  dst ← try_gets (fun s => operand s instruction 0 address);
  write_operand dst dst_width value.

Definition lea (instruction : Instruction) (address : GuestVa) : M unit :=
  if negb (bool_decide (op_kind instruction 0 = OpKind.Register)) ||
     negb (bool_decide (op_kind instruction 1 = OpKind.Memory))
  then fail (Unsupported address) else
  let register := op_register instruction 0 in
  width ← lift (ok_or (Width_from_bytes (register_size register)) (Unsupported address));
  offset ← try_gets (fun s => effective_address s instruction address false);
  write_register register (Z.land offset (Width_mask width)) address.

Definition xchg (instruction : Instruction) (address : GuestVa) : M unit :=
  width ← lift (operand_width instruction 0 address);
  first ← try_gets (fun s => operand s instruction 0 address);
  second ← try_gets (fun s => operand s instruction 1 address);
  a ← read_operand first width;
  b ← read_operand second width;
  _ ← write_operand first width b;
  write_operand second width a.

Definition xadd (instruction : Instruction) (address : GuestVa) : M unit :=
  width ← lift (operand_width instruction 0 address);
  dst ← try_gets (fun s => operand s instruction 0 address);
  src ← try_gets (fun s => operand s instruction 1 address);
  a ← read_operand dst width;
  b ← read_operand src width;
  let '(sum, bits) := add_bits a b 0 width in
  _ ← match dst with
      | OpMemory _ =>
        _ ← write_operand dst width sum;
        write_operand src width a
      | _ =>
        _ ← write_operand src width a;
        write_operand dst width sum
      end;
  merge_flags ARITHMETIC bits.

(** AL, AX or EAX. *)
Definition accumulator_register (width : Width) : Register.t :=
  match width with B => Register.AL | W => Register.AX | D => Register.EAX end.

Definition cmpxchg (instruction : Instruction) (address : GuestVa) : M unit :=
  width ← lift (operand_width instruction 0 address);
  dst ← try_gets (fun s => operand s instruction 0 address);
  src ← try_gets (fun s => operand s instruction 1 address);
  current ← read_operand dst width;
  accumulator ← try_gets (fun s => read_register s (accumulator_register width) address);
  let '(_, bits) := sub_bits accumulator current 0 width in
  _ ← (if accumulator =? current then
         replacement ← read_operand src width;
         write_operand dst width replacement
       else
         _ ← write_operand dst width current;
         write_register (accumulator_register width) current address);
  merge_flags ARITHMETIC bits.

Definition cmpxchg8b (instruction : Instruction) (address : GuestVa) : M unit :=
  if negb (bool_decide (op_kind instruction 0 = OpKind.Memory))
  then fail (Unsupported address) else
  location ← try_gets (fun s => effective_address s instruction address true);
  current ← mem_read_bytes location 8;
  let low := from_le_bytes (take 4 current) in
  let high := from_le_bytes (drop 4 current) in
  eax ← get_gpr 0;
  edx ← get_gpr 2;
  if (low =? eax) && (high =? edx) then
    ebx ← get_gpr 3;
    ecx ← get_gpr 1;
    _ ← mem_write_bytes location (to_le_bytes 4 ebx ++ to_le_bytes 4 ecx);
    update_eflags (fun old => Z.lor old ZERO)
  else
    _ ← mem_write_bytes location current;
    _ ← put_gpr 0 low;
    _ ← put_gpr 2 high;
    update_eflags (fun old => Z.land old (not32 ZERO)).

Definition step_by_one (instruction : Instruction) (address : GuestVa) (increment : bool)
  : M unit :=
  width ← lift (operand_width instruction 0 address);
  dst ← try_gets (fun s => operand s instruction 0 address);
  a ← read_operand dst width;
  let '(result, bits) := if increment then add_bits a 1 0 width else sub_bits a 1 0 width in
  _ ← write_operand dst width result;
  merge_flags (Z.land ARITHMETIC (not32 CARRY)) bits.

Definition neg (instruction : Instruction) (address : GuestVa) : M unit :=
  width ← lift (operand_width instruction 0 address);
  dst ← try_gets (fun s => operand s instruction 0 address);
  a ← read_operand dst width;
  let '(result, bits) := sub_bits 0 a 0 width in
  _ ← write_operand dst width result;
  merge_flags ARITHMETIC bits.

Definition not (instruction : Instruction) (address : GuestVa) : M unit :=
  width ← lift (operand_width instruction 0 address);
  dst ← try_gets (fun s => operand s instruction 0 address);
  a ← read_operand dst width;
  write_operand dst width (not32 a).

(** The count operand of a shift: an immediate or CL, modulo 32. *)
Definition shift_count (state : CpuState) (instruction : Instruction) (index : Z)
    (address : GuestVa) : result ExecError Z :=
  match op_kind instruction index, op_register instruction index with
  | OpKind.Immediate8, _ => Ok (Z.land (immediate8 instruction) 0x1F)
  | OpKind.Register, Register.CL => Ok (Z.land (gpr_at state 1) 0x1F)
  | _, _ => Err (Unsupported address)
  end.

Definition shift (instruction : Instruction) (address : GuestVa) (kind : ShiftKind) : M unit :=
  width ← lift (operand_width instruction 0 address);
  count ← try_gets (fun s => shift_count s instruction 1 address);
  dst ← try_gets (fun s => operand s instruction 0 address);
  a ← read_operand dst width;
  let a := Z.land a (Width_mask width) in
  if count =? 0 then write_operand dst width a else
  flags ← gets eflags;
  let carry_in := bool_u (flag_set flags CARRY) in
  let '(result, carry_out, overflow) := shift_result kind a count carry_in width in
  _ ← write_operand dst width result;
  let '(defined, values) := shift_flags kind count result carry_out overflow width in
  merge_flags defined values.

Definition double_shift (instruction : Instruction) (address : GuestVa) (left : bool) : M unit :=
  width ← lift (operand_width instruction 0 address);
  if bool_decide (width = B) then fail (Unsupported address) else
  count ← try_gets (fun s => shift_count s instruction 2 address);
  dst ← try_gets (fun s => operand s instruction 0 address);
  src ← try_gets (fun s => operand s instruction 1 address);
  a ← read_operand dst width;
  let a := Z.land a (Width_mask width) in
  b ← read_operand src width;
  let b := Z.land b (Width_mask width) in
  if count =? 0 then write_operand dst width (wrap32 a) else
  let bits := Width_bits width in
  let mask := Width_mask width in
  let '(result, carry) :=
    if left then
      let wide := Z.lor (Z.shiftl a bits) b in
      let shifted := Z.shiftl wide count in
      (Z.land (wrap32 (Z.shiftr shifted bits)) mask,
       Z.land (Z.shiftr shifted (2 * bits)) 1)
    else
      let wide := Z.lor (Z.shiftl b bits) a in
      (Z.land (wrap32 (Z.shiftr wide count)) mask, Z.land (Z.shiftr wide (count - 1)) 1) in
  _ ← write_operand dst width result;
  let defined := Z.lor (Z.lor (Z.lor CARRY SIGN) ZERO) PARITY in
  let values := Z.lor (result_bits result width) (carry * CARRY) in
  if count =? 1 then
    let sign_changed := has_bits (Z.lxor (wrap32 a) result) (Width_sign_bit width) in
    merge_flags (Z.lor defined OVERFLOW) (Z.lor values (bool_u sign_changed * OVERFLOW))
  else merge_flags defined values.

(** [state.gpr[i] = (state.gpr[i] & 0xFFFF_0000) | low]. *)
Definition put_low16 (i : nat) (low : Z) : M unit :=
  old ← get_gpr i;
  put_gpr i (Z.lor (Z.land old 0xFFFF0000) low).

Definition mul (instruction : Instruction) (address : GuestVa) : M unit :=
  width ← lift (operand_width instruction 0 address);
  src ← try_gets (fun s => operand s instruction 0 address);
  b ← read_operand src width;
  let b := Z.land b (Width_mask width) in
  eax ← get_gpr 0;
  overflowed ←
    match width with
    | B =>
      let product := Z.land eax 0xFF * b in
      _ ← put_low16 0 (Z.land (wrap32 product) 0xFFFF);
      mret (0xFF <? product)
    | W =>
      let product := Z.land eax 0xFFFF * b in
      _ ← put_low16 0 (Z.land (wrap32 product) 0xFFFF);
      _ ← put_low16 2 (Z.land (wrap32 (Z.shiftr product 16)) 0xFFFF);
      mret (0xFFFF <? product)
    | D =>
      let product := eax * b in
      _ ← put_gpr 0 (wrap32 product);
      _ ← put_gpr 2 (wrap32 (Z.shiftr product 32));
      mret (0xFFFFFFFF <? product)
    end;
  merge_flags (Z.lor CARRY OVERFLOW) (overflow_bits overflowed).

(** The one-operand form. *)
Definition imul_wide (instruction : Instruction) (address : GuestVa) : M unit :=
  width ← lift (operand_width instruction 0 address);
  src ← try_gets (fun s => operand s instruction 0 address);
  raw ← read_operand src width;
  let b := sign_extend raw width in
  eax ← get_gpr 0;
  let product := sign_extend eax width * b in
  _ ← match width with
      | B => put_low16 0 (Z.land (wrap32 product) 0xFFFF)
      | W =>
        _ ← put_low16 0 (Z.land (wrap32 product) 0xFFFF);
        put_low16 2 (Z.land (wrap32 (Z.shiftr product 16)) 0xFFFF)
      | D =>
        _ ← put_gpr 0 (wrap32 product);
        put_gpr 2 (wrap32 (Z.shiftr product 32))
      end;
  let overflowed := negb (product =? signed (Width_bits width) product) in
  merge_flags (Z.lor CARRY OVERFLOW) (overflow_bits overflowed).

(** The two- and three-operand forms. *)
Definition imul_narrow (instruction : Instruction) (address : GuestVa) : M unit :=
  width ← lift (operand_width instruction 0 address);
  let '(a_index, b_index) := if op_count instruction =? 2 then (0, 1) else (1, 2) in
  a_operand ← try_gets (fun s => operand s instruction a_index address);
  a_raw ← read_operand a_operand width;
  let a := sign_extend a_raw width in
  b_operand ← try_gets (fun s => operand s instruction b_index address);
  b_raw ← read_operand b_operand width;
  let b := sign_extend b_raw width in
  let product := a * b in
  let truncated := Z.land (wrap32 product) (Width_mask width) in
  let overflowed := negb (product =? sign_extend truncated width) in
  dst ← try_gets (fun s => operand s instruction 0 address);
  _ ← write_operand dst width truncated;
  merge_flags (Z.lor CARRY OVERFLOW) (overflow_bits overflowed).

Definition imul (instruction : Instruction) (address : GuestVa) : M unit :=
  match code instruction with
  | Code.Imul_rm8 | Code.Imul_rm16 | Code.Imul_rm32 => imul_wide instruction address
  | Code.Imul_r16_rm16 | Code.Imul_r32_rm32 | Code.Imul_r16_rm16_imm8
  | Code.Imul_r32_rm32_imm8 | Code.Imul_r16_rm16_imm16 | Code.Imul_r32_rm32_imm32 =>
    imul_narrow instruction address
  | _ => fail (Unsupported address)
  end.

(** Quotient and remainder at one width: [full] is the width of the dividend,
    [half] that of the divisor; [None] is the divide error. *)
Definition divide (full half dividend divisor_raw : Z) (is_signed : bool) : option (Z * Z) :=
  if is_signed then
    let dividend := signed full dividend in
    let divisor := signed half divisor_raw in
    let quotient := wrapping_div (Z.max full 32) dividend divisor in
    if (2 ^ (half - 1) - 1 <? quotient) || (quotient <? - 2 ^ (half - 1)) then None
    else Some (wrap half (wrap32 quotient), wrap half (wrap32 (wrapping_rem dividend divisor)))
  else
    let quotient := dividend / divisor_raw in
    if 2 ^ half - 1 <? quotient then None else Some (quotient, dividend mod divisor_raw).

Definition div (instruction : Instruction) (address : GuestVa) (is_signed : bool) : M unit :=
  width ← lift (operand_width instruction 0 address);
  src ← try_gets (fun s => operand s instruction 0 address);
  raw ← read_operand src width;
  let divisor_raw := Z.land raw (Width_mask width) in
  if divisor_raw =? 0 then fail (Divide address) else
  eax ← get_gpr 0;
  edx ← get_gpr 2;
  match width with
  | B =>
    let dividend := Z.land eax 0xFFFF in
    qr ← lift (ok_or (divide 16 8 dividend divisor_raw is_signed) (Divide address));
    let '(quotient, remainder) := qr in
    put_gpr 0 (Z.lor (Z.lor (Z.land eax 0xFFFF0000) (Z.shiftl remainder 8)) quotient)
  | W =>
    let dividend := Z.lor (Z.shiftl (Z.land edx 0xFFFF) 16) (Z.land eax 0xFFFF) in
    qr ← lift (ok_or (divide 32 16 dividend divisor_raw is_signed) (Divide address));
    let '(quotient, remainder) := qr in
    _ ← put_gpr 0 (Z.lor (Z.land eax 0xFFFF0000) quotient);
    put_gpr 2 (Z.lor (Z.land edx 0xFFFF0000) remainder)
  | D =>
    let dividend := Z.lor (Z.shiftl edx 32) eax in
    qr ← lift (ok_or (divide 64 32 dividend divisor_raw is_signed) (Divide address));
    let '(quotient, remainder) := qr in
    _ ← put_gpr 0 quotient;
    put_gpr 2 remainder
  end.

Definition bswap (instruction : Instruction) (address : GuestVa) : M unit :=
  let register := op_register instruction 0 in
  if negb (register_size register =? 4) then fail (Unsupported address) else
  value ← try_gets (fun s => read_register s register address);
  write_register register (swap_bytes value) address.

(** The operand and bit a bit instruction addresses. *)
Definition bit_location (instruction : Instruction) (address : GuestVa) (width : Width)
  : M (Operand * Z) :=
  let bits := Width_bits width in
  match op_kind instruction 0, op_kind instruction 1 with
  | OpKind.Register, _ =>
    index ← try_gets (fun s => operand s instruction 1 address);
    index ← read_operand index width;
    target ← try_gets (fun s => operand s instruction 0 address);
    mret (target, Z.land index (bits - 1))
  | OpKind.Memory, OpKind.Immediate8 =>
    location ← try_gets (fun s => effective_address s instruction address true);
    mret (OpMemory location, Z.land (immediate8 instruction) (bits - 1))
  | OpKind.Memory, OpKind.Register =>
    location ← try_gets (fun s => effective_address s instruction address true);
    raw ← try_gets (fun s => read_register s (op_register instruction 1) address);
    let index := sign_extend raw width in
    let element := Z.shiftr index (trailing_zeros bits) in
    let byte_offset := wrap32 (element * Width_bytes width) in
    mret (OpMemory (wrapping_add32 location byte_offset), Z.land (wrap32 index) (bits - 1))
  | _, _ => fail (Unsupported address)
  end.

Definition bit_test (instruction : Instruction) (address : GuestVa) (op : BitOp) : M unit :=
  width ← lift (operand_width instruction 0 address);
  if bool_decide (width = B) then fail (Unsupported address) else
  place ← bit_location instruction address width;
  let '(target, bit) := place in
  value ← read_operand target width;
  let carry := Z.land (Z.shiftr value bit) 1 in
  _ ← match bit_update op value bit with
      | None => mret tt
      | Some updated => write_operand target width updated
      end;
  merge_flags CARRY (carry * CARRY).

Definition bit_scan (instruction : Instruction) (address : GuestVa) (forward : bool) : M unit :=
  width ← lift (operand_width instruction 0 address);
  src ← try_gets (fun s => operand s instruction 1 address);
  raw ← read_operand src width;
  let value := Z.land raw (Width_mask width) in
  if value =? 0 then merge_flags ZERO ZERO else
  let index := if forward then trailing_zeros value else 31 - leading_zeros value in
  dst ← try_gets (fun s => operand s instruction 0 address);
  _ ← write_operand dst width index;
  merge_flags ZERO 0.

Definition cpuid (state : CpuState) : CpuState :=
  let '(a, b, c, d) :=
    match gpr_at state 0 with
    | 0 => (2, 0x756E6547, 0x6C65746E, 0x49656E69)
    | 1 => (0x0000068A, 0, 0, 0x0383F9FF)
    | _ => (0x03020101, 0, 0, 0x0C040843)
    end in
  set_gpr (set_gpr (set_gpr (set_gpr state 0 a) 3 b) 1 c) 2 d.
End Families.

(** ** [SETcc] and [CMOVcc] *)

Inductive ConditionalClass : Type := ClassSet | ClassMov.

Definition mnemonic_class (mn : Mnemonic.t) : option ConditionalClass :=
  match mn with
  | Mnemonic.Seta | Mnemonic.Setae | Mnemonic.Setb | Mnemonic.Setbe | Mnemonic.Sete
  | Mnemonic.Setg | Mnemonic.Setge | Mnemonic.Setl | Mnemonic.Setle | Mnemonic.Setne
  | Mnemonic.Setno | Mnemonic.Setnp | Mnemonic.Setns | Mnemonic.Seto | Mnemonic.Setp
  | Mnemonic.Sets => Some ClassSet
  | Mnemonic.Cmova | Mnemonic.Cmovae | Mnemonic.Cmovb | Mnemonic.Cmovbe | Mnemonic.Cmove
  | Mnemonic.Cmovg | Mnemonic.Cmovge | Mnemonic.Cmovl | Mnemonic.Cmovle | Mnemonic.Cmovne
  | Mnemonic.Cmovno | Mnemonic.Cmovnp | Mnemonic.Cmovns | Mnemonic.Cmovo | Mnemonic.Cmovp
  | Mnemonic.Cmovs => Some ClassMov
  | _ => None
  end.

Section Conditional.
Context {Mem Ports : Type} `{GuestMemory Mem} `{Iced}.
Abbreviation M := (Exec Mem Ports).

Definition conditional (instruction : Instruction) (address : GuestVa) : M unit :=
  flags ← gets eflags;
  let met := condition_met flags (condition_code instruction) in
  match mnemonic_class (mnemonic instruction) with
  | Some ClassSet =>
    dst ← try_gets (fun s => operand s instruction 0 address);
    write_operand dst B (bool_u met)
  | Some ClassMov =>
    width ← lift (operand_width instruction 0 address);
    src ← try_gets (fun s => operand s instruction 1 address);
    value ← read_operand src width;
    if met then
      dst ← try_gets (fun s => operand s instruction 0 address);
      write_operand dst width value
    else mret tt
  | None => fail (Unsupported address)
  end.
End Conditional.

(** ** String operations *)

Inductive StringKind : Type := Movs | Stos | Lods | Scas | Cmps.

Definition MAX_REP_ITERATIONS_PER_STEP : Z := 0x10000.

Section Strings.
Context {Mem Ports : Type} `{GuestMemory Mem}.
Abbreviation M := (Exec Mem Ports).

(** [state.gpr[i] = state.gpr[i].wrapping_add(delta)]. *)
Definition advance (i : nat) (delta : Z) : M unit :=
  old ← get_gpr i;
  put_gpr i (wrapping_add32 old delta).

(** One iteration: the [match kind] of the loop body. *)
Definition string_element (address : GuestVa) (kind : StringKind) (width : Width)
    (source_base destination_base : Z) : M unit :=
  flags ← gets eflags;
  let delta := if flag_set flags DIRECTION then wrapping_sub32 0 (Width_bytes width)
               else Width_bytes width in
  esi ← get_gpr 6;
  edi ← get_gpr 7;
  let source := wrapping_add32 source_base esi in
  let destination := wrapping_add32 destination_base edi in
  let accumulator := accumulator_register width in
  match kind with
  | Movs =>
    value ← read_memory source width;
    _ ← write_memory destination width value;
    _ ← advance 6 delta;
    advance 7 delta
  | Stos =>
    value ← try_gets (fun s => read_register s accumulator address);
    _ ← write_memory destination width value;
    advance 7 delta
  | Lods =>
    value ← read_memory source width;
    _ ← write_register accumulator value address;
    advance 6 delta
  | Scas =>
    value ← read_memory destination width;
    a ← try_gets (fun s => read_register s accumulator address);
    let '(_, bits) := sub_bits a value 0 width in
    _ ← merge_flags ARITHMETIC bits;
    advance 7 delta
  | Cmps =>
    a ← read_memory source width;
    b ← read_memory destination width;
    let '(_, bits) := sub_bits a b 0 width in
    _ ← merge_flags ARITHMETIC bits;
    _ ← advance 6 delta;
    advance 7 delta
  end.

Definition kind_conditional (kind : StringKind) : bool :=
  match kind with Scas | Cmps => true | _ => false end.

(** The loop of [string_op]; [None] when the fuel runs out. *)
Fixpoint string_loop (fuel : nat) (instruction : Instruction) (address : GuestVa)
    (kind : StringKind) (width : Width) (source_base destination_base : Z)
    (repeated continue_on_zero : bool) (iterations : Z) (m : Machine Mem Ports)
  : option (result ExecError unit * Machine Mem Ports) :=
  match fuel with
  | O => None
  | S fuel =>
    if repeated && (gpr_at (cpu m) 1 =? 0) then Some (Ok tt, m) else
    if repeated && (iterations =? MAX_REP_ITERATIONS_PER_STEP) then
      Some (Ok tt, with_cpu m (with_eip (cpu m)
                     (wrapping_sub32 (eip (cpu m)) (len instruction))))
    else
    match string_element address kind width source_base destination_base m with
    | (Err e, m) => Some (Err e, m)
    | (Ok _, m) =>
      if negb repeated then Some (Ok tt, m) else
      let m := with_cpu m (set_gpr (cpu m) 1 (wrapping_sub32 (gpr_at (cpu m) 1) 1)) in
      if kind_conditional kind &&
         negb (eqb (flag_set (eflags (cpu m)) ZERO) continue_on_zero)
      then Some (Ok tt, m)
      else string_loop fuel instruction address kind width source_base destination_base
             repeated continue_on_zero (iterations + 1) m
    end
  end.

Definition string_operands_valid (instruction : Instruction) (kind : StringKind) : bool :=
  let op0 := op_kind instruction 0 in
  let op1 := op_kind instruction 1 in
  match kind with
  | Movs => bool_decide (op0 = OpKind.MemoryESEDI) && bool_decide (op1 = OpKind.MemorySegESI)
  | Stos => bool_decide (op0 = OpKind.MemoryESEDI)
  | Lods => bool_decide (op1 = OpKind.MemorySegESI)
  | Scas => bool_decide (op1 = OpKind.MemoryESEDI)
  | Cmps => bool_decide (op0 = OpKind.MemorySegESI) && bool_decide (op1 = OpKind.MemoryESEDI)
  end.

(** The loop makes at most [MAX_REP_ITERATIONS_PER_STEP] iterations, so one
    more round than that is enough ([string_loop_total]). *)
Definition string_fuel : nat := Z.to_nat (MAX_REP_ITERATIONS_PER_STEP + 1).

Lemma string_fuel_succ : string_fuel = S (Z.to_nat MAX_REP_ITERATIONS_PER_STEP).
Proof. unfold string_fuel. by rewrite <- Z2Nat.inj_succ by done. Qed.

Definition run_string (instruction : Instruction) (address : GuestVa) (kind : StringKind)
    (width : Width) (source_base destination_base : Z) (repeated continue_on_zero : bool)
  : M unit := fun m =>
  default (Err (Unsupported address), m)
    (string_loop string_fuel instruction address kind width source_base destination_base
       repeated continue_on_zero 0 m).

Definition string_op (instruction : Instruction) (address : GuestVa) (kind : StringKind)
    (width : Width) : M unit :=
  if negb (string_operands_valid instruction kind) then fail (Unsupported address) else
  let repeated := has_rep_prefix instruction || has_repne_prefix instruction in
  let continue_on_zero := negb (has_repne_prefix instruction) in
  source_base ← try_gets (fun s => segment_base s (memory_segment instruction) address);
  destination_base ← gets (fun s => base (CpuState_segment s Es));
  run_string instruction address kind width source_base destination_base repeated
    continue_on_zero.
End Strings.
