(* ===== verification/Exec.v ===== *)
(** * The tier-0 interpreter: dispatch and stepping

    Models the dispatch of [exbawks-cpu/src/exec.rs]: decoding at EIP, the
    branch families, the straight-line dispatch, port I/O, and the step
    functions.  The floating-point and vector units ([x87.rs], [sse.rs]) are
    arguments of the dispatch: a unit answers [None] for a mnemonic it does
    not own. *)

From S2P Require Import Prelude GuestTypes PageTable GuestMemory Iced CpuState ExecCore ExecOps.

(** ** The port bus *)

(** [port_read port bytes] and [port_write port bytes value] on a device with
    interior state. *)
Class PortBus (Ports : Type) : Type := {
  port_read : Ports -> Z -> Z -> Z * Ports;
  port_write : Ports -> Z -> Z -> Z -> Ports;
}.

(** [NoPorts]: reads are zero, writes vanish. *)
#[export] Instance NoPorts : PortBus unit := {
  port_read := fun p _ _ => (0, p);
  port_write := fun p _ _ _ => p;
}.

(** A coprocessor: [crate::x87::execute] or [crate::sse::execute]. *)
Definition Unit_execute (Mem Ports : Type) : Type :=
  Instruction -> GuestVa -> Machine Mem Ports ->
  option (result ExecError unit * Machine Mem Ports).

Section Dispatch.
Context {Mem Ports : Type} `{GuestMemory Mem} `{PortBus Ports} `{Iced}.
Abbreviation M := (Exec Mem Ports).

(** ** Decoding *)

Definition MAX_INSTRUCTION_LEN : Z := 15.

(** The first fetch stays on the page of EIP; the second is made only when
    the decoder ran out of bytes. *)
Definition decode_at (pc : Z) (memory : Mem) (address : GuestVa)
  : result ExecError Instruction :=
  let page_mask := GUEST_PAGE_SIZE - 1 in
  let to_page_end := GUEST_PAGE_SIZE - Z.land pc page_mask in
  let first := Z.min MAX_INSTRUCTION_LEN to_page_end in
  buffer ← map_err Memory (mem_fetch memory address (Z.to_nat first));
  match iced_decode buffer pc with
  | Ok instruction => Ok instruction
  | Err NoMoreBytes =>
    if first <? MAX_INSTRUCTION_LEN then
      rest ← map_err Memory (mem_fetch memory (wrapping_add32 pc first)
                               (Z.to_nat (MAX_INSTRUCTION_LEN - first)));
      match iced_decode (buffer ++ rest) pc with
      | Ok instruction => Ok instruction
      | Err _ => Err (InvalidInstruction address)
      end
    else Err (InvalidInstruction address)
  | Err _ => Err (InvalidInstruction address)
  end.

Definition decode_one (pc : Z) (memory : Mem) : result ExecError Instruction :=
  decode_at pc memory pc.

(** ** Branches *)

Definition put_eip (v : Z) : M unit := modify (fun s => with_eip s v).

Definition jump_if (instruction : Instruction) (taken : bool) : M Flow :=
  if taken then
    _ ← put_eip (near_branch32 instruction);
    mret Jumped
  else mret Next.

Definition branch_target (instruction : Instruction) (address : GuestVa) : M Z :=
  match op_kind instruction 0 with
  | OpKind.NearBranch32 => mret (near_branch32 instruction)
  | OpKind.Register =>
    value ← try_gets (fun s => read_register s (op_register instruction 0) address);
    if register_size (op_register instruction 0) =? 4 then mret value
    else fail (Unsupported address)
  | OpKind.Memory =>
    match code instruction with
    | Code.Jmp_rm32 | Code.Call_rm32 =>
      location ← try_gets (fun s => effective_address s instruction address true);
      read_memory location D
    | _ => fail (Unsupported address)
    end
  | _ => fail (Unsupported address)
  end.

Definition branch (instruction : Instruction) (address : GuestVa) : M (option Flow) :=
  let fallthrough := wrapping_add32 address (len instruction) in
  match mnemonic instruction with
  | Mnemonic.Jmp =>
    target ← branch_target instruction address;
    _ ← put_eip target;
    mret (Some Jumped)
  | Mnemonic.Call =>
    target ← branch_target instruction address;
    _ ← push_value D fallthrough;
    _ ← put_eip target;
    mret (Some Jumped)
  | Mnemonic.Ret =>
    match code instruction with
    | Code.Retnd =>
      target ← pop_value D;
      _ ← put_eip target;
      mret (Some Jumped)
    | Code.Retnd_imm16 =>
      target ← pop_value D;
      esp ← get_gpr 4;
      _ ← put_gpr 4 (wrapping_add32 esp (immediate16 instruction));
      _ ← put_eip target;
      mret (Some Jumped)
    | _ => fail (Unsupported address)
    end
  | Mnemonic.Loop | Mnemonic.Loope | Mnemonic.Loopne =>
    match code instruction with
    | Code.Loop_rel8_32_ECX | Code.Loope_rel8_32_ECX | Code.Loopne_rel8_32_ECX =>
      ecx ← get_gpr 1;
      let counter := wrapping_sub32 ecx 1 in
      _ ← put_gpr 1 counter;
      flags ← gets eflags;
      let zero := flag_set flags ZERO in
      let taken := negb (counter =? 0) &&
                   match mnemonic instruction with
                   | Mnemonic.Loope => zero
                   | Mnemonic.Loopne => negb zero
                   | _ => true
                   end in
      flow ← jump_if instruction taken;
      mret (Some flow)
    | _ => fail (Unsupported address)
    end
  | Mnemonic.Jecxz =>
    match code instruction with
    | Code.Jecxz_rel8_32 =>
      ecx ← get_gpr 1;
      flow ← jump_if instruction (ecx =? 0);
      mret (Some flow)
    | _ => fail (Unsupported address)
    end
  | mn =>
    match ConditionCode.is_none (condition_code instruction), mnemonic_class mn with
    | false, None =>
      if bool_decide (op_kind instruction 0 = OpKind.NearBranch32) then
        flags ← gets eflags;
        flow ← jump_if instruction (condition_met flags (condition_code instruction));
        mret (Some flow)
      else fail (Unsupported address)
    | _, _ => mret None
    end
  end.

(** ** Straight-line instructions *)

(** Runs [e]; on failure the machine passes through [h]. *)
Definition on_error {A} (e : M A) (h : CpuState -> CpuState) : M A := fun m =>
  match e m with
  | (Ok a, m) => (Ok a, m)
  | (Err err, m) => (Err err, with_cpu m (h (cpu m)))
  end.

Definition push (instruction : Instruction) (address : GuestVa) : M unit :=
  match op_kind instruction 0 with
  | OpKind.Immediate8to32 => push_value D (wrap32 (immediate8to32 instruction))
  | OpKind.Immediate32 => push_value D (immediate32 instruction)
  | OpKind.Immediate8to16 => push_value W (wrap16 (immediate8to16 instruction))
  | OpKind.Immediate16 => push_value W (immediate16 instruction)
  | _ =>
    width ← lift (operand_width instruction 0 address);
    source ← try_gets (fun s => operand s instruction 0 address);
    value ← read_operand source width;
    push_value width value
  end.

Definition pop (instruction : Instruction) (address : GuestVa) : M unit :=
  width ← lift (operand_width instruction 0 address);
  old_esp ← get_gpr 4;
  value ← read_memory old_esp width;
  _ ← put_gpr 4 (wrapping_add32 old_esp (Width_bytes width));
  on_error
    (dst ← try_gets (fun s => operand s instruction 0 address);
     write_operand dst width value)
    (fun s => set_gpr s 4 old_esp).

(** The frame [pushad] stores, from the lowest address up. *)
Definition pushad_frame (s : CpuState) : list Z :=
  flat_map (fun i => to_le_bytes 4 (gpr_at s i)) [7; 6; 5; 4; 3; 2; 1; 0]%nat.

Definition pushad : M unit :=
  esp ← get_gpr 4;
  frame ← gets pushad_frame;
  let base := wrapping_sub32 esp 32 in
  _ ← mem_write_bytes base frame;
  put_gpr 4 base.

(** [value(slot)] of the frame. *)
Definition frame_value (frame : list Z) (slot : nat) : Z :=
  from_le_bytes (take 4 (drop (slot * 4) frame)).

Definition popad : M unit :=
  esp ← get_gpr 4;
  frame ← mem_read_bytes esp 32;
  _ ← put_gpr 7 (frame_value frame 0);
  _ ← put_gpr 6 (frame_value frame 1);
  _ ← put_gpr 5 (frame_value frame 2);
  _ ← put_gpr 3 (frame_value frame 4);
  _ ← put_gpr 2 (frame_value frame 5);
  _ ← put_gpr 1 (frame_value frame 6);
  _ ← put_gpr 0 (frame_value frame 7);
  put_gpr 4 (wrapping_add32 esp 32).

Definition POPFD_WRITABLE : Z :=
  Z.lor (Z.lor (Z.lor (Z.lor ARITHMETIC DIRECTION) INTERRUPT) ALIGNMENT_CHECK) ID.

Definition popfd : M unit :=
  value ← pop_value D;
  update_eflags (fun old =>
    Z.lor (Z.lor (Z.land value POPFD_WRITABLE) (Z.land old (not32 POPFD_WRITABLE))) 0x02).

Definition leave (instruction : Instruction) (address : GuestVa) : M unit :=
  match code instruction with
  | Code.Leaved =>
    frame ← get_gpr 5;
    value ← read_memory frame D;
    _ ← put_gpr 4 (wrapping_add32 frame 4);
    put_gpr 5 value
  | _ => fail (Unsupported address)
  end.

Definition fldcw (instruction : Instruction) (address : GuestVa) : M unit :=
  source ← try_gets (fun s => operand s instruction 0 address);
  value ← read_operand source W;
  modify (fun s => with_x87 s (mkX87State (wrap16 value) (status (x87 s)) (tag (x87 s))
                                 (opcode (x87 s)) (registers (x87 s)))).

Definition execute_straightline (instruction : Instruction) (address : GuestVa) : M unit :=
  match mnemonic instruction with
  | Mnemonic.Nop | Mnemonic.Pause => mret tt
  | Mnemonic.Wbinvd | Mnemonic.Invd | Mnemonic.Clflush => mret tt
  | Mnemonic.Cli => update_eflags (fun f => Z.land f (not32 INTERRUPT))
  | Mnemonic.Sti => update_eflags (fun f => Z.lor f INTERRUPT)
  | Mnemonic.Mov => mov instruction address
  | Mnemonic.Movzx => widen instruction address false
  | Mnemonic.Movsx => widen instruction address true
  | Mnemonic.Lea => lea instruction address
  | Mnemonic.Xchg => xchg instruction address
  | Mnemonic.Xadd => xadd instruction address
  | Mnemonic.Cmpxchg => cmpxchg instruction address
  | Mnemonic.Cmpxchg8b => cmpxchg8b instruction address
  | Mnemonic.Add => binary_alu instruction address Add
  | Mnemonic.Adc => binary_alu instruction address Adc
  | Mnemonic.Sub => binary_alu instruction address Sub
  | Mnemonic.Sbb => binary_alu instruction address Sbb
  | Mnemonic.And => binary_alu instruction address And
  | Mnemonic.Or => binary_alu instruction address Or
  | Mnemonic.Xor => binary_alu instruction address Xor
  | Mnemonic.Cmp => binary_alu instruction address Cmp
  | Mnemonic.Test => binary_alu instruction address Test
  | Mnemonic.Inc => step_by_one instruction address true
  | Mnemonic.Dec => step_by_one instruction address false
  | Mnemonic.Neg => neg instruction address
  | Mnemonic.Not => not instruction address
  | Mnemonic.Shl | Mnemonic.Sal => shift instruction address Shl
  | Mnemonic.Shr => shift instruction address Shr
  | Mnemonic.Sar => shift instruction address Sar
  | Mnemonic.Rol => shift instruction address Rol
  | Mnemonic.Ror => shift instruction address Ror
  | Mnemonic.Rcl => shift instruction address Rcl
  | Mnemonic.Rcr => shift instruction address Rcr
  | Mnemonic.Shld => double_shift instruction address true
  | Mnemonic.Shrd => double_shift instruction address false
  | Mnemonic.Mul => mul instruction address
  | Mnemonic.Imul => imul instruction address
  | Mnemonic.Div => div instruction address false
  | Mnemonic.Idiv => div instruction address true
  | Mnemonic.Bswap => bswap instruction address
  | Mnemonic.Bt => bit_test instruction address BitTest
  | Mnemonic.Bts => bit_test instruction address BitSet
  | Mnemonic.Btr => bit_test instruction address BitReset
  | Mnemonic.Btc => bit_test instruction address BitComplement
  | Mnemonic.Bsf => bit_scan instruction address true
  | Mnemonic.Bsr => bit_scan instruction address false
  | Mnemonic.Cbw =>
    eax ← get_gpr 0;
    put_gpr 0 (Z.lor (Z.land eax 0xFFFF0000) (Z.land (wrap32 (sign_extend eax B)) 0xFFFF))
  | Mnemonic.Cwde =>
    eax ← get_gpr 0;
    put_gpr 0 (wrap32 (sign_extend eax W))
  | Mnemonic.Cwd =>
    eax ← get_gpr 0;
    edx ← get_gpr 2;
    put_gpr 2 (Z.lor (Z.land edx 0xFFFF0000) (if has_bits eax 0x8000 then 0xFFFF else 0))
  | Mnemonic.Cdq =>
    eax ← get_gpr 0;
    put_gpr 2 (if has_bits eax 0x80000000 then 0xFFFFFFFF else 0)
  | Mnemonic.Clc => update_eflags (fun f => Z.land f (not32 CARRY))
  | Mnemonic.Stc => update_eflags (fun f => Z.lor f CARRY)
  | Mnemonic.Cmc => update_eflags (fun f => Z.lxor f CARRY)
  | Mnemonic.Cld => update_eflags (fun f => Z.land f (not32 DIRECTION))
  | Mnemonic.Std => update_eflags (fun f => Z.lor f DIRECTION)
  | Mnemonic.Lahf =>
    flags ← gets eflags;
    let low := Z.lor (Z.land flags 0xD5) 0x02 in
    eax ← get_gpr 0;
    put_gpr 0 (Z.lor (Z.land eax 0xFFFF00FF) (Z.shiftl low 8))
  | Mnemonic.Sahf =>
    eax ← get_gpr 0;
    let ah := Z.land (Z.shiftr eax 8) 0xFF in
    update_eflags (fun f => Z.lor (Z.lor (Z.land f (not32 0xD5)) (Z.land ah 0xD5)) 0x02)
  | Mnemonic.Push => push instruction address
  | Mnemonic.Pop => pop instruction address
  | Mnemonic.Pushad => pushad
  | Mnemonic.Popad => popad
  | Mnemonic.Movsb => string_op instruction address Movs B
  | Mnemonic.Movsw => string_op instruction address Movs W
  | Mnemonic.Movsd => string_op instruction address Movs D
  | Mnemonic.Stosb => string_op instruction address Stos B
  | Mnemonic.Stosw => string_op instruction address Stos W
  | Mnemonic.Stosd => string_op instruction address Stos D
  | Mnemonic.Lodsb => string_op instruction address Lods B
  | Mnemonic.Lodsw => string_op instruction address Lods W
  | Mnemonic.Lodsd => string_op instruction address Lods D
  | Mnemonic.Scasb => string_op instruction address Scas B
  | Mnemonic.Scasw => string_op instruction address Scas W
  | Mnemonic.Scasd => string_op instruction address Scas D
  | Mnemonic.Cmpsb => string_op instruction address Cmps B
  | Mnemonic.Cmpsw => string_op instruction address Cmps W
  | Mnemonic.Cmpsd => string_op instruction address Cmps D
  | Mnemonic.Cpuid => modify cpuid
  | Mnemonic.Rdtsc =>
    counter ← gets tsc;
    _ ← put_gpr 0 (wrap32 counter);
    put_gpr 2 (wrap32 (Z.shiftr counter 32))
  | Mnemonic.Pushfd =>
    flags ← gets eflags;
    push_value D flags
  | Mnemonic.Popfd => popfd
  | Mnemonic.Fldcw => fldcw instruction address
  | Mnemonic.Wait => mret tt
  | Mnemonic.Leave => leave instruction address
  | _ =>
    if ConditionCode.is_none (condition_code instruction)
    then fail (Unsupported address)
    else conditional instruction address
  end.

(** ** Port I/O *)

Definition execute_port_io (instruction : Instruction) (address : GuestVa)
    (accumulator_first : bool) : M unit :=
  let port_operand := bool_u accumulator_first in
  port ← match op_kind instruction port_operand, op_register instruction port_operand with
         | OpKind.Immediate8, _ => mret (immediate8 instruction)
         | OpKind.Register, Register.DX =>
           edx ← get_gpr 2;
           mret (Z.land edx 0xFFFF)
         | _, _ => fail (Unsupported address)
         end;
  let accumulator := op_register instruction (if accumulator_first then 0 else 1) in
  bytes ← match accumulator with
          | Register.AL => mret 1
          | Register.AX => mret 2
          | Register.EAX => mret 4
          | _ => fail (Unsupported address)
          end;
  let mask := match bytes with 1 => 0xFF | 2 => 0xFFFF | _ => U32_MAX end in
  eax ← get_gpr 0;
  if accumulator_first then
    value ← (fun m => let '(v, p) := port_read (bus m) port bytes in (Ok v, with_bus m p));
    put_gpr 0 (Z.lor (Z.land eax (not32 mask)) (Z.land value mask))
  else
    fun m => (Ok tt, with_bus m (port_write (bus m) port bytes (Z.land eax mask))).

(** ** Stepping *)

Context (x87_execute sse_execute : Unit_execute Mem Ports).

Definition execute (instruction : Instruction) (address : GuestVa) : M Flow :=
  taken ← branch instruction address;
  match taken with
  | Some flow => mret flow
  | None => fun m =>
    match x87_execute instruction address m with
    | Some (Ok _, m) => (Ok Next, m)
    | Some (Err e, m) => (Err e, m)
    | None =>
      match sse_execute instruction address m with
      | Some (Ok _, m) => (Ok Next, m)
      | Some (Err e, m) => (Err e, m)
      | None =>
        match execute_straightline instruction address m with
        | (Ok _, m) => (Ok Next, m)
        | (Err e, m) => (Err e, m)
        end
      end
    end
  end.

(** [eip += len] and [tsc += 1]. *)
Definition advance_eip (instruction : Instruction) : M unit :=
  modify (fun s => with_eip s (wrapping_add32 (eip s) (len instruction))).
Definition advance_tsc : M unit := modify (fun s => with_tsc s (wrap64 (tsc s + 1))).

Definition step_decoded (instruction : Instruction) (address : GuestVa) : M unit :=
  match mnemonic instruction with
  | Mnemonic.Out =>
    _ ← execute_port_io instruction address false;
    _ ← advance_eip instruction;
    advance_tsc
  | Mnemonic.In =>
    _ ← execute_port_io instruction address true;
    _ ← advance_eip instruction;
    advance_tsc
  | _ =>
    flow ← execute instruction address;
    _ ← match flow with
        | Next => advance_eip instruction
        | Jumped => mret tt
        end;
    advance_tsc
  end.

Definition step_instruction (instruction : Instruction) : M unit :=
  address ← gets eip;
  step_decoded instruction address.

Definition step_with_ports : M unit :=
  address ← gets eip;
  instruction ← (fun m => (decode_at address (mem m) address, m));
  step_decoded instruction address.
End Dispatch.

(** [step]: no device on the port bus. *)
Definition step {Mem} `{GuestMemory Mem} `{Iced} (x87_execute sse_execute : Unit_execute Mem unit)
  : Exec Mem unit unit := step_with_ports x87_execute sse_execute.
