(* ===== verification/AluTheorems.v ===== *)
(** * Arithmetic and flags of the interpreter

    The flag computations of [exec.rs] against the architectural meaning of
    the flags, and the condition codes against the comparisons they name. *)

From S2P Require Import Prelude GuestTypes Iced CpuState ExecCore ExecOps.

(** ** Flags as a record *)

Record FlagView : Type := mkFlagView {
  flag_c : bool;
  flag_p : bool;
  flag_a : bool;
  flag_z : bool;
  flag_s : bool;
  flag_o : bool;
}.

Definition flag_view (flags : Z) : FlagView :=
  mkFlagView (flag_set flags CARRY) (flag_set flags PARITY) (flag_set flags AUXILIARY)
    (flag_set flags ZERO) (flag_set flags SIGN) (flag_set flags OVERFLOW).

Lemma flag_if_bit c j k : 0 <= j -> Z.testbit (flag_if c (2 ^ j)) k = c && (j =? k).
Proof.
  intros. unfold flag_if. destruct c; cbn [andb].
  - by apply Z.pow2_bits_eqb.
  - apply Z.bits_0.
Qed.

Lemma flag_set_bit flags j : 0 <= j -> flag_set flags (2 ^ j) = Z.testbit flags j.
Proof. apply has_bits_pow2. Qed.

Ltac flag_bits :=
  change CARRY with (2 ^ 0) in *; change PARITY with (2 ^ 2) in *;
  change AUXILIARY with (2 ^ 4) in *; change ZERO with (2 ^ 6) in *;
  change SIGN with (2 ^ 7) in *; change OVERFLOW with (2 ^ 11) in *;
  change DIRECTION with (2 ^ 10) in *;
  repeat rewrite flag_set_bit by lia; repeat rewrite Z.lor_spec;
  repeat rewrite flag_if_bit by lia.

(** The flags assembled from six conditions are those conditions. *)
Lemma assembled_flags z s p c a o :
  flag_view (Z.lor (Z.lor (Z.lor (Z.lor (Z.lor (flag_if z ZERO) (flag_if s SIGN))
    (flag_if p PARITY)) (flag_if c CARRY)) (flag_if a AUXILIARY)) (flag_if o OVERFLOW)) =
  mkFlagView c p a z s o.
Proof.
  unfold flag_view. flag_bits. cbn [Z.eqb Pos.eqb].
  by destruct z, s, p, c, a, o.
Qed.

(** ** Widths *)

Lemma width_bits_range w : 8 <= Width_bits w <= 32.
Proof. destruct w; cbn; lia. Qed.

Lemma width_mask w : Width_mask w = Z.ones (Width_bits w).
Proof. by destruct w. Qed.

Lemma land_mask x w : Z.land x (Width_mask w) = wrap (Width_bits w) x.
Proof. rewrite width_mask. apply Z.land_ones. pose proof (width_bits_range w). lia. Qed.

Lemma width_sign_bit w : Width_sign_bit w = 2 ^ (Width_bits w - 1).
Proof. by destruct w. Qed.

Lemma sign_bit_set x w : is_u (Width_bits w) x ->
  has_bits x (Width_sign_bit w) = (2 ^ (Width_bits w - 1) <=? x).
Proof.
  intros. pose proof (width_bits_range w).
  rewrite width_sign_bit, has_bits_pow2 by lia. apply testbit_top; [lia | done].
Qed.

Lemma mask_is_u x w : is_u (Width_bits w) (wrap (Width_bits w) x).
Proof. apply wrap_range. pose proof (width_bits_range w). lia. Qed.

Lemma result_bits_view r w c a o : is_u (Width_bits w) r ->
  flag_view (Z.lor (Z.lor (Z.lor (result_bits r w) (flag_if c CARRY))
    (flag_if a AUXILIARY)) (flag_if o OVERFLOW)) =
  mkFlagView c (even_parity r) a (r =? 0) (2 ^ (Width_bits w - 1) <=? r) o.
Proof.
  intros Hr. unfold result_bits. rewrite land_mask, (wrap_small _ r) by done.
  rewrite assembled_flags. by rewrite sign_bit_set.
Qed.

(** ** Addition *)

Lemma bit4_of_sum n a b c : 5 <= n -> 0 <= a -> 0 <= b -> 0 <= c <= 1 ->
  has_bits (Z.lxor (Z.lxor a b) (wrap n (a + b + c))) 0x10 =
  (16 <=? a mod 16 + b mod 16 + c).
Proof.
  intros Hn Ha Hb Hc. change 0x10 with (2 ^ 4). rewrite has_bits_pow2, !Z.lxor_spec by lia.
  unfold wrap. rewrite Z.mod_pow2_bits_low by lia. rewrite !Z.testbit_eqb by lia.
  change (2 ^ 4) with 16. destruct (Z.leb_spec 16 (a mod 16 + b mod 16 + c));
    destruct (Z.eqb_spec ((a / 16) mod 2) 1), (Z.eqb_spec ((b / 16) mod 2) 1),
      (Z.eqb_spec (((a + b + c) / 16) mod 2) 1); try done; exfalso; dlia.
Qed.

Lemma wrap_wrap n m x : 0 <= n <= m -> wrap n (wrap m x) = wrap n x.
Proof.
  intros. unfold wrap. apply Z.mod_mod_divide. exists (2 ^ (m - n)).
  rewrite <- Z.pow_add_r by lia. f_equal. lia.
Qed.

(** The three-operand sign test both flag functions use, as sign comparisons. *)
Lemma sign_test x y z t w :
  is_u (Width_bits w) x -> is_u (Width_bits w) y -> is_u (Width_bits w) z ->
  is_u (Width_bits w) t ->
  has_bits (Z.land (Z.lxor x y) (Z.lxor z t)) (Width_sign_bit w) =
  xorb (2 ^ (Width_bits w - 1) <=? x) (2 ^ (Width_bits w - 1) <=? y) &&
  xorb (2 ^ (Width_bits w - 1) <=? z) (2 ^ (Width_bits w - 1) <=? t).
Proof.
  intros. pose proof (width_bits_range w).
  rewrite width_sign_bit, has_bits_pow2, Z.land_spec, !Z.lxor_spec by lia.
  by rewrite !testbit_top by (done || lia).
Qed.

Lemma signed_cases n x : 0 < n -> is_u n x ->
  signed n x = if 2 ^ (n - 1) <=? x then x - 2 ^ n else x.
Proof.
  intros Hn Hx. unfold signed. rewrite wrap_small by done.
  destruct (Z.ltb_spec x (2 ^ (n - 1))), (Z.leb_spec (2 ^ (n - 1)) x); done || lia.
Qed.

Lemma signed_wrap n x : 0 <= n -> signed n (wrap n x) = signed n x.
Proof. intros. unfold signed. by rewrite wrap_id. Qed.

(** A signed value of [n] bits. *)
Definition fits (n v : Z) : bool := (- 2 ^ (n - 1) <=? v) && (v <? 2 ^ (n - 1)).

(** Halving the range: everything about signs is linear in [h]. *)
Lemma half_range w : 2 ^ Width_bits w = 2 * 2 ^ (Width_bits w - 1).
Proof. pose proof (width_bits_range w). rewrite <- Z.pow_succ_r by lia. f_equal. lia. Qed.

(** Decides the comparisons in the goal, innermost first, then closes each
    case. *)
Ltac no_branch t := lazymatch t with context [if _ then _ else _] => fail | _ => idtac end.
Ltac decide_comparisons :=
  repeat match goal with
  | |- context [?x <=? ?y] => no_branch x; no_branch y; destruct (Z.leb_spec x y)
  | |- context [?x <? ?y] => no_branch x; no_branch y; destruct (Z.ltb_spec x y)
  | |- context [?x =? ?y] => no_branch x; no_branch y; destruct (Z.eqb_spec x y)
  end; try done; try lia.

Lemma mod_once s m : 0 <= s < 2 * m -> s mod m = if m <=? s then s - m else s.
Proof.
  intros. destruct (Z.leb_spec m s).
  - symmetry. apply (Z.mod_unique s m 1); lia.
  - apply Z.mod_small. lia.
Qed.

Lemma mod_once_neg s m : - m <= s < m -> s mod m = if s <? 0 then s + m else s.
Proof.
  intros. destruct (Z.ltb_spec s 0).
  - symmetry. apply (Z.mod_unique s m (-1)); lia.
  - apply Z.mod_small. lia.
Qed.

Lemma add_overflow x y c w : is_u (Width_bits w) x -> is_u (Width_bits w) y -> 0 <= c <= 1 ->
  let r := wrap (Width_bits w) (x + y + c) in
  let h := 2 ^ (Width_bits w - 1) in
  xorb (h <=? x) (h <=? r) && xorb (h <=? y) (h <=? r) =
  negb (fits (Width_bits w) (signed (Width_bits w) x + signed (Width_bits w) y + c)).
Proof.
  intros Hx Hy Hc. cbn zeta. pose proof (width_bits_range w).
  rewrite !signed_cases by (done || lia). unfold fits, wrap, is_u in *.
  rewrite half_range in *. set (h := 2 ^ (Width_bits w - 1)) in *.
  rewrite mod_once by lia. decide_comparisons.
Qed.

Lemma sub_overflow x y c w : is_u (Width_bits w) x -> is_u (Width_bits w) y -> 0 <= c <= 1 ->
  let r := wrap (Width_bits w) (x - y - c) in
  let h := 2 ^ (Width_bits w - 1) in
  xorb (h <=? x) (h <=? y) && xorb (h <=? x) (h <=? r) =
  negb (fits (Width_bits w) (signed (Width_bits w) x - signed (Width_bits w) y - c)).
Proof.
  intros Hx Hy Hc. cbn zeta. pose proof (width_bits_range w).
  rewrite !signed_cases by (done || lia). unfold fits, wrap, is_u in *.
  rewrite half_range in *. set (h := 2 ^ (Width_bits w - 1)) in *.
  assert (1 <= h) by (unfold h; lia).
  destruct (decide (x - y - c < - (2 * h))).
  { assert (x = 0 /\ y = 2 * h - 1 /\ c = 1) as (-> & -> & ->) by lia. lia. }
  rewrite mod_once_neg by lia. decide_comparisons.
Qed.

Lemma add_bits_spec a b c w : 0 <= c <= 1 ->
  let n := Width_bits w in
  let x := wrap n a in
  let y := wrap n b in
  let r := wrap n (x + y + c) in
  exists bits, add_bits a b c w = (r, bits) /\
  flag_view bits =
    mkFlagView (2 ^ n <=? x + y + c) (even_parity r) (16 <=? x mod 16 + y mod 16 + c) (r =? 0)
      (2 ^ (n - 1) <=? r) (negb (fits n (signed n a + signed n b + c))).
Proof.
  intros Hc. cbn zeta. pose proof (width_bits_range w). unfold add_bits. cbn zeta.
  rewrite !land_mask, wrap_wrap by lia.
  pose proof (mask_is_u a w) as Hx. pose proof (mask_is_u b w) as Hy.
  set (x := wrap (Width_bits w) a) in *. set (y := wrap (Width_bits w) b) in *.
  set (r := wrap (Width_bits w) (x + y + c)).
  assert (is_u (Width_bits w) r) as Hr by apply mask_is_u.
  eexists. split; [done|]. rewrite result_bits_view by done. f_equal.
  - rewrite width_mask, Z.ones_equiv. decide_comparisons.
  - apply bit4_of_sum; unfold is_u in *; lia.
  - rewrite sign_test by done. unfold r. rewrite add_overflow by done.
    unfold x, y. by rewrite !signed_wrap by lia.
Qed.

Lemma bit4_of_difference n a b c : 5 <= n -> 0 <= a -> 0 <= b -> 0 <= c <= 1 ->
  has_bits (Z.lxor (Z.lxor a b) (wrap n (a - b - c))) 0x10 = (a mod 16 <? b mod 16 + c).
Proof.
  intros Hn Ha Hb Hc. change 0x10 with (2 ^ 4). rewrite has_bits_pow2, !Z.lxor_spec by lia.
  unfold wrap. rewrite Z.mod_pow2_bits_low by lia. rewrite !Z.testbit_eqb by lia.
  change (2 ^ 4) with 16. destruct (Z.ltb_spec (a mod 16) (b mod 16 + c));
    destruct (Z.eqb_spec ((a / 16) mod 2) 1), (Z.eqb_spec ((b / 16) mod 2) 1),
      (Z.eqb_spec (((a - b - c) / 16) mod 2) 1); try done; exfalso; dlia.
Qed.

Lemma sub_bits_spec a b c w : 0 <= c <= 1 ->
  let n := Width_bits w in
  let x := wrap n a in
  let y := wrap n b in
  let r := wrap n (x - y - c) in
  exists bits, sub_bits a b c w = (r, bits) /\
  flag_view bits =
    mkFlagView (x <? y + c) (even_parity r) (x mod 16 <? y mod 16 + c) (r =? 0)
      (2 ^ (n - 1) <=? r) (negb (fits n (signed n a - signed n b - c))).
Proof.
  intros Hc. cbn zeta. pose proof (width_bits_range w). unfold sub_bits. cbn zeta.
  rewrite !land_mask.
  pose proof (mask_is_u a w) as Hx. pose proof (mask_is_u b w) as Hy.
  set (x := wrap (Width_bits w) a) in *. set (y := wrap (Width_bits w) b) in *.
  assert (wrap (Width_bits w) (wrapping_sub32 (wrapping_sub32 x y) c) =
          wrap (Width_bits w) (x - y - c)) as ->.
  { unfold wrapping_sub32. rewrite wrap_wrap by lia. unfold wrap.
    rewrite <- (Zminus_mod_idemp_l (_ mod _)), Z.mod_mod_divide, Zminus_mod_idemp_l; [done|].
    exists (2 ^ (32 - Width_bits w)). rewrite <- Z.pow_add_r by lia. f_equal. lia. }
  set (r := wrap (Width_bits w) (x - y - c)).
  assert (is_u (Width_bits w) r) as Hr by apply mask_is_u.
  eexists. split; [done|]. rewrite result_bits_view by done. f_equal.
  - apply bit4_of_difference; unfold is_u in *; lia.
  - rewrite sign_test by done. unfold r. rewrite sub_overflow by done.
    unfold x, y. by rewrite !signed_wrap by lia.
Qed.

(** ** Theorems *)

(** the addition the ALU performs at every width is addition modulo
    [2^n], and its six flags are the architectural ones: carry out of the
    width, even parity of the low byte, carry out of bit 3, zero, sign, and
    signed overflow. *)
Theorem add_flags_correct (a b c : Z) (w : Width) :
  0 <= c <= 1 ->
  let n := Width_bits w in
  let x := wrap n a in
  let y := wrap n b in
  let r := wrap n (x + y + c) in
  exists bits, add_bits a b c w = (r, bits) /\
  flag_view bits =
    mkFlagView (2 ^ n <=? x + y + c) (even_parity r) (16 <=? x mod 16 + y mod 16 + c) (r =? 0)
      (2 ^ (n - 1) <=? r) (negb (fits n (signed n a + signed n b + c))).
Proof. apply add_bits_spec. Qed.

Lemma add_flags_correct_witness :
  exists bits, add_bits 0x7F 0x01 0 B = (0x80, bits) /\
    flag_view bits = mkFlagView false false true false true true.
Proof.
  destruct (add_flags_correct 0x7F 0x01 0 B ltac:(lia)) as (bits & Hb & Hf).
  exists bits. split; [exact Hb | rewrite Hf; reflexivity].
Defined.

(** subtraction and comparison: the result modulo [2^n], the borrow, the
    borrow into bit 3, and signed overflow are the architectural ones. *)
Theorem sub_flags_correct (a b c : Z) (w : Width) :
  0 <= c <= 1 ->
  let n := Width_bits w in
  let x := wrap n a in
  let y := wrap n b in
  let r := wrap n (x - y - c) in
  exists bits, sub_bits a b c w = (r, bits) /\
  flag_view bits =
    mkFlagView (x <? y + c) (even_parity r) (x mod 16 <? y mod 16 + c) (r =? 0)
      (2 ^ (n - 1) <=? r) (negb (fits n (signed n a - signed n b - c))).
Proof. apply sub_bits_spec. Qed.

Lemma sub_flags_correct_witness :
  exists bits, sub_bits 0 1 0 W = (0xFFFF, bits) /\
    flag_view bits = mkFlagView true true true false true false.
Proof.
  destruct (sub_flags_correct 0 1 0 W ltac:(lia)) as (bits & Hb & Hf).
  exists bits. split; [exact Hb | rewrite Hf; reflexivity].
Defined.

(** The conditions named after an order. *)
Lemma compare_orders (a b : Z) (w : Width) :
  let n := Width_bits w in
  let flags := (sub_bits a b 0 w).2 in
  condition_met flags ConditionCode.e = (wrap n a =? wrap n b) /\
  condition_met flags ConditionCode.ne = negb (wrap n a =? wrap n b) /\
  condition_met flags ConditionCode.b = (wrap n a <? wrap n b) /\
  condition_met flags ConditionCode.ae = (wrap n b <=? wrap n a) /\
  condition_met flags ConditionCode.be = (wrap n a <=? wrap n b) /\
  condition_met flags ConditionCode.a = (wrap n b <? wrap n a) /\
  condition_met flags ConditionCode.l = (signed n a <? signed n b) /\
  condition_met flags ConditionCode.ge = (signed n b <=? signed n a) /\
  condition_met flags ConditionCode.le = (signed n a <=? signed n b) /\
  condition_met flags ConditionCode.g = (signed n b <? signed n a).
Proof.
  cbn zeta. destruct (sub_bits_spec a b 0 w ltac:(lia)) as (bits & -> & Hv).
  pose proof (width_bits_range w). cbn [snd] in *. unfold condition_met.
  injection Hv as -> _ _ -> -> ->.
  pose proof (mask_is_u a w) as Hx. pose proof (mask_is_u b w) as Hy.
  rewrite <- (signed_wrap _ a), <- (signed_wrap _ b) by lia.
  rewrite !signed_cases by (done || lia). unfold fits.
  set (x := wrap (Width_bits w) a) in *. set (y := wrap (Width_bits w) b) in *.
  unfold wrap, is_u in *. rewrite half_range in *. set (h := 2 ^ (Width_bits w - 1)) in *.
  rewrite Z.sub_0_r, mod_once_neg by lia.
  split_and!; decide_comparisons.
Qed.

(** A byte has an even number of ones when its bits cancel out. *)
Lemma even_parity_bits x : even_parity x = negb (foldr xorb false (map (Z.testbit x) (seqZ 0 8))).
Proof.
  unfold even_parity. assert (map (Z.testbit x) (seqZ 0 8) = map (Z.testbit (wrap8 x)) (seqZ 0 8)) as ->.
  { apply map_ext_in. intros i Hi%list_elem_of_In%elem_of_seqZ. unfold wrap8, wrap. by rewrite Z.mod_pow2_bits_low by lia. }
  assert (Forall (fun v => (count_ones8 v mod 2 =? 0) = negb (foldr xorb false (map (Z.testbit v) (seqZ 0 8)))) (seqZ 0 256))
    as Hall by (apply (bool_decide_unpack _); by vm_compute).
  rewrite Forall_forall in Hall. apply Hall, elem_of_seqZ. unfold wrap8, wrap. pose proof (Z.mod_pos_bound x (2 ^ 8)). lia.
Qed.

(** The conditions named after one flag. *)
Lemma compare_status (a b : Z) (w : Width) :
  let n := Width_bits w in
  let flags := (sub_bits a b 0 w).2 in
  let even := negb (foldr xorb false (map (Z.testbit (a - b)) (seqZ 0 8))) in
  condition_met flags ConditionCode.o = negb (fits n (signed n a - signed n b)) /\
  condition_met flags ConditionCode.no = fits n (signed n a - signed n b) /\
  condition_met flags ConditionCode.s = (signed n (a - b) <? 0) /\
  condition_met flags ConditionCode.ns = (0 <=? signed n (a - b)) /\
  condition_met flags ConditionCode.p = even /\
  condition_met flags ConditionCode.np = negb even.
Proof.
  cbn zeta. destruct (sub_bits_spec a b 0 w ltac:(lia)) as (bits & -> & Hv).
  pose proof (width_bits_range w) as Hw. cbn [snd] in *. unfold condition_met. injection Hv as _ Hp _ _ Hs Ho.
  rewrite Hp, Hs, Ho, Z.sub_0_r.
  assert (wrap (Width_bits w) (wrap (Width_bits w) a - wrap (Width_bits w) b - 0) = wrap (Width_bits w) (a - b)) as ->.
  { rewrite Z.sub_0_r. unfold wrap. by rewrite Zminus_mod_idemp_l, Zminus_mod_idemp_r. }
  assert (even_parity (wrap (Width_bits w) (a - b)) = negb (foldr xorb false (map (Z.testbit (a - b)) (seqZ 0 8)))) as ->.
  { rewrite even_parity_bits. do 2 f_equal. apply map_ext_in. intros i Hi%list_elem_of_In%elem_of_seqZ.
    unfold wrap. apply Z.mod_pow2_bits_low. destruct w; cbn; lia. }
  pose proof (mask_is_u (a - b) w) as Hu. pose proof (half_range w) as Hh.
  assert ((signed (Width_bits w) (a - b) <? 0) = (2 ^ (Width_bits w - 1) <=? wrap (Width_bits w) (a - b))) as Hsign.
  { unfold signed, is_u in *. cbn zeta. set (r := wrap (Width_bits w) (a - b)) in *.
    set (h := 2 ^ (Width_bits w - 1)) in *. rewrite Hh in *. clearbody r h. destruct (Z.ltb_spec r h); decide_comparisons. }
  rewrite negb_involutive, <- Hsign. split_and!; try done. lia.
Qed.

(** C37: after comparing [a] with [b] at any width each of the sixteen
    condition codes decides what it is named after: the unsigned orders, the
    signed orders and equality; whether the signed difference overflows the
    width; the sign of the difference at that width; and whether its low byte
    has an even number of ones. *)
Theorem compare_decides_conditions (a b : Z) (w : Width) (code : ConditionCode.t) :
  let n := Width_bits w in
  let even := negb (foldr xorb false (map (Z.testbit (a - b)) (seqZ 0 8))) in
  condition_met (sub_bits a b 0 w).2 code =
  match code with
  | ConditionCode.None => false
  | ConditionCode.e => wrap n a =? wrap n b
  | ConditionCode.ne => negb (wrap n a =? wrap n b)
  | ConditionCode.b => wrap n a <? wrap n b
  | ConditionCode.ae => wrap n b <=? wrap n a
  | ConditionCode.be => wrap n a <=? wrap n b
  | ConditionCode.a => wrap n b <? wrap n a
  | ConditionCode.l => signed n a <? signed n b
  | ConditionCode.ge => signed n b <=? signed n a
  | ConditionCode.le => signed n a <=? signed n b
  | ConditionCode.g => signed n b <? signed n a
  | ConditionCode.o => negb (fits n (signed n a - signed n b))
  | ConditionCode.no => fits n (signed n a - signed n b)
  | ConditionCode.s => signed n (a - b) <? 0
  | ConditionCode.ns => 0 <=? signed n (a - b)
  | ConditionCode.p => even
  | ConditionCode.np => negb even
  end.
Proof.
  cbn zeta. pose proof (compare_orders a b w) as (? & ? & ? & ? & ? & ? & ? & ? & ? & ?).
  pose proof (compare_status a b w) as (? & ? & ? & ? & ? & ?). by destruct code.
Qed.

(** ** Division *)

Lemma signed_range n x : 0 < n -> - 2 ^ (n - 1) <= signed n x < 2 ^ (n - 1).
Proof.
  intros. rewrite <- signed_wrap, signed_cases by (lia || apply wrap_range; lia).
  pose proof (wrap_range n x ltac:(lia)) as Hu. unfold is_u in Hu.
  assert (2 ^ n = 2 * 2 ^ (n - 1)) by (rewrite <- Z.pow_succ_r by lia; f_equal; lia).
  decide_comparisons.
Qed.

Lemma signed_small n v : 0 < n -> - 2 ^ (n - 1) <= v < 2 ^ (n - 1) -> signed n v = v.
Proof.
  intros Hn Hv.
  assert (2 ^ n = 2 * 2 ^ (n - 1)) as Hp by (rewrite <- Z.pow_succ_r by lia; f_equal; lia).
  unfold signed, wrap. rewrite Hp, mod_once_neg by lia. decide_comparisons.
Qed.

Lemma signed_of_wrap n v : 0 < n -> - 2 ^ (n - 1) <= v < 2 ^ (n - 1) -> signed n (wrap n v) = v.
Proof. intros. rewrite signed_wrap by lia. by apply signed_small. Qed.

Lemma signed_nonzero n x : 0 < n -> is_u n x -> x <> 0 -> signed n x <> 0.
Proof.
  intros Hn Hx Hx0. rewrite signed_cases by done. unfold is_u in *. decide_comparisons.
Qed.

(** A truncated quotient is no larger than its dividend. *)
Lemma quot_abs_le n d : d <> 0 -> Z.abs (Z.quot n d) <= Z.abs n.
Proof.
  intros Hd. rewrite <- Z.quot_abs by done. apply Z.quot_le_upper_bound; nia.
Qed.

Lemma divide_unsigned full half N d : 0 < half -> 0 <= N -> 0 < d < 2 ^ half ->
  match divide full half N d false with
  | Some (q, r) => is_u half q /\ is_u half r /\ N = q * d + r /\ 0 <= r < d
  | None => 2 ^ half <= N / d
  end.
Proof.
  intros Hh HN Hd. unfold divide. cbn zeta.
  destruct (Z.ltb_spec (2 ^ half - 1) (N / d)); [lia|].
  pose proof (Z.div_mod N d ltac:(lia)). pose proof (Z.mod_pos_bound N d ltac:(lia)).
  pose proof (Z.div_pos N d HN ltac:(lia)). unfold is_u. lia.
Qed.

Lemma divide_signed full half N D :
  0 < half <= 32 -> full = 2 * half -> is_u full N -> 0 < D < 2 ^ half ->
  let n := signed full N in
  let d := signed half D in
  match divide full half N D true with
  | Some (q, r) => is_u half q /\ is_u half r /\
      n = signed half q * d + signed half r /\ Z.abs (signed half r) < Z.abs d /\
      0 <= signed half r * n
  | None => fits half (Z.quot n d) = false
  end.
Proof.
  intros Hh Hf HN HD. cbn zeta. unfold divide. cbn zeta.
  set (n := signed full N). set (d := signed half D).
  assert (d <> 0) as Hd by (apply signed_nonzero; unfold is_u; lia).
  assert (- 2 ^ (half - 1) <= d < 2 ^ (half - 1)) as Hdr by (apply signed_range; lia).
  assert (- 2 ^ (full - 1) <= n < 2 ^ (full - 1)) as Hnr by (apply signed_range; lia).
  pose proof (Z.quot_rem n d Hd) as Hqr. pose proof (Z.rem_bound_abs n d Hd) as Hrb.
  pose proof (quot_abs_le n d Hd) as Hqa.
  assert (0 <= Z.rem n d * n) as Hsg by (apply Z.rem_sign_mul; done).
  assert (2 ^ (full - 1) <= 2 ^ (Z.max full 32 - 1)) as Hw by (apply Z.pow_le_mono_r; lia).
  assert (2 ^ (half - 1) < 2 ^ (Z.max full 32 - 1)) as Hh2 by (apply Z.pow_lt_mono_r; lia).
  unfold wrapping_div, wrapping_rem.
  destruct (decide (Z.quot n d = 2 ^ (Z.max full 32 - 1))) as [Hmax|Hne].
  - assert (signed (Z.max full 32) (Z.quot n d) = - 2 ^ (Z.max full 32 - 1)) as ->.
    { rewrite Hmax, signed_cases by (unfold is_u; try split; try lia;
        apply Z.pow_lt_mono_r; lia).
      rewrite Z.leb_refl.
      assert (2 ^ Z.max full 32 = 2 * 2 ^ (Z.max full 32 - 1)) as ->
        by (rewrite <- Z.pow_succ_r by lia; f_equal; lia). lia. }
    rewrite (proj2 (Z.ltb_lt (- 2 ^ (Z.max full 32 - 1)) _)), orb_true_r by lia.
    unfold fits. rewrite Hmax. decide_comparisons.
  - rewrite signed_small by lia. unfold fits.
    destruct (Z.ltb_spec (2 ^ (half - 1) - 1) (Z.quot n d)),
      (Z.ltb_spec (Z.quot n d) (- 2 ^ (half - 1))); cbn [orb]; try by decide_comparisons.
    rewrite !wrap_wrap by lia. rewrite !signed_of_wrap by lia.
    split_and!; [apply wrap_range; lia | apply wrap_range; lia | lia | lia | lia].
Qed.

(** [div] and [idiv] at every width: quotient and remainder satisfy the
    division equation, with the remainder smaller than the divisor and, signed,
    of the dividend's sign; the divide error is raised exactly when the true
    quotient does not fit, the [MIN / -1] overflow included. *)
Theorem divide_correct (half N D : Z) :
  half = 8 \/ half = 16 \/ half = 32 -> is_u (2 * half) N -> 0 < D < 2 ^ half ->
  match divide (2 * half) half N D false with
  | Some (q, r) => is_u half q /\ is_u half r /\ N = q * D + r /\ 0 <= r < D
  | None => 2 ^ half <= N / D
  end /\
  let n := signed (2 * half) N in
  let d := signed half D in
  match divide (2 * half) half N D true with
  | Some (q, r) => is_u half q /\ is_u half r /\
      n = signed half q * d + signed half r /\ Z.abs (signed half r) < Z.abs d /\
      0 <= signed half r * n
  | None => fits half (Z.quot n d) = false
  end.
Proof.
  intros Hh HN HD. split.
  - apply divide_unsigned; [lia | apply HN | done].
  - apply divide_signed; [lia | done | done | done].
Qed.

Lemma divide_correct_witness :
  divide 64 32 0xFFFFFFFFFFFFFFF9 2 true = Some (0xFFFFFFFD, 0xFFFFFFFF) /\
  signed 64 0xFFFFFFFFFFFFFFF9 = signed 32 0xFFFFFFFD * signed 32 2 + signed 32 0xFFFFFFFF.
Proof.
  split; [reflexivity|].
  exact (proj1 (proj2 (proj2 (proj2 (divide_correct 32 0xFFFFFFFFFFFFFFF9 2
    ltac:(lia) ltac:(unfold is_u; lia) ltac:(lia)))))).
Defined.

(** ** Sub-registers *)

(** Register index, first bit and number of bits of a slot. *)
Definition slot_extent (slot : RegisterSlot) : nat * Z * Z :=
  match slot with
  | Low8 i => (i, 0, 8)
  | High8 i => (i, 8, 8)
  | Wide16 i => (i, 0, 16)
  | Wide32 i => (i, 0, 32)
  end.

Definition slot_index (slot : RegisterSlot) : nat := (slot_extent slot).1.1.

Lemma slot_index_bound r slot : register_slot r = Some slot -> (slot_index slot < 8)%nat.
Proof. destruct r; intros H; cbn in H; simplify_eq; cbn; lia. Qed.

(** Replacing [n] bits from bit [lo]. *)
Lemma replace_bits old v lo n k : 0 <= lo -> 0 <= n -> 0 <= k < 32 ->
  Z.testbit (Z.lor (Z.land old (not32 (Z.shiftl (Z.ones n) lo)))
                   (Z.shiftl (Z.land v (Z.ones n)) lo)) k =
  if decide (lo <= k < lo + n) then Z.testbit v (k - lo) else Z.testbit old k.
Proof.
  intros Hlo Hn Hk.
  rewrite Z.lor_spec, Z.land_spec, unot_spec, !Z.shiftl_spec, Z.land_spec by lia.
  rewrite (proj2 (Z.ltb_lt k 32)) by lia. rewrite Z.testbit_ones by lia.
  case_decide; decide_comparisons; cbn;
    rewrite ?andb_true_r, ?andb_false_r, ?orb_false_r, ?orb_false_l; done.
Qed.

Lemma write_register_value s r v s' slot :
  register_slot r = Some slot -> write_register_state s r v = Some s' ->
  let '(i, lo, n) := slot_extent slot in
  s' = set_gpr s i (if n =? 32 then v
                    else Z.lor (Z.land (gpr_at s i) (not32 (Z.shiftl (Z.ones n) lo)))
                               (Z.shiftl (Z.land v (Z.ones n)) lo)).
Proof.
  intros Hs Hw. unfold write_register_state in Hw. rewrite Hs in Hw.
  destruct slot; cbn [slot_extent Z.eqb Pos.eqb]; simplify_eq; rewrite ?Z.shiftl_0_r; done.
Qed.

Lemma write_register_bits s r v s' slot j k :
  cpu_wf s -> register_slot r = Some slot -> write_register_state s r v = Some s' ->
  0 <= k < 32 ->
  let '(i, lo, n) := slot_extent slot in
  Z.testbit (gpr_at s' j) k =
  if decide (j = i /\ lo <= k < lo + n) then Z.testbit v (k - lo) else Z.testbit (gpr_at s j) k.
Proof.
  intros Hs Hslot Hw Hk. pose proof (write_register_value s r v s' slot Hslot Hw) as Hv.
  pose proof (slot_index_bound r slot Hslot) as Hi. unfold slot_index in Hi.
  assert (let '(_, lo, n) := slot_extent slot in 0 <= lo /\ 0 <= n /\ (n = 32 -> lo = 0)) as Hb
    by (destruct slot; cbn; lia).
  destruct (slot_extent slot) as [[i lo] n]. cbv beta iota in *. cbn in Hi. subst s'.
  rewrite gpr_at_set by (rewrite gpr_length by done; lia).
  destruct (decide (j = i)) as [->|].
  2:{ rewrite decide_False by tauto. done. }
  clear Hw. destruct (Z.eqb_spec n 32) as [->|].
  - rewrite decide_True by (split; [done | lia]). f_equal. lia.
  - rewrite replace_bits by lia. apply decide_ext. tauto.
Qed.

(** A value read from a register is its slot of the register file. *)
Lemma read_register_bits s r slot address k : cpu_wf s -> register_slot r = Some slot -> 0 <= k ->
  let '(i, lo, n) := slot_extent slot in
  exists v, read_register s r address = Ok v /\ is_u n v /\
    Z.testbit v k = (k <? n) && Z.testbit (gpr_at s i) (k + lo).
Proof.
  intros Hs Hslot Hk. unfold read_register. rewrite Hslot. cbn [ok_or mbind result_bind].
  pose proof (gpr_at_wf s (slot_index slot) Hs) as Hg.
  destruct slot as [i|i|i|i]; cbn [slot_extent slot_index fst] in *.
  1-3: match goal with |- exists v, Ok (Z.land ?x ?m) = _ /\ is_u ?n _ /\ _ =>
         change m with (Z.ones n); exists (Z.land x (Z.ones n)) end;
       (split; [done|]); (split; [apply is_u_land_r; [lia | by apply is_u_ones]|]);
       rewrite Z.land_spec, Z.testbit_ones, (proj2 (Z.leb_le 0 k)), andb_comm by lia;
       rewrite ?Z.shiftr_spec by lia; rewrite ?Z.add_0_r; done.
  exists (gpr_at s i). split_and!; [done | done |]. rewrite Z.add_0_r.
  destruct (Z.ltb_spec k 32); [done|]. by rewrite (is_u_high_bit 32) by (done || lia).
Qed.

(** the 8-, 16- and 32-bit registers are slices of one register file.
    Writing a register changes exactly the bits of its slice, whatever else
    overlaps it, touches nothing else of the state, and reading it gives the
    written value truncated to its width. *)
Theorem subregister_store (s s' : CpuState) (r : Register.t) (v : Z) (slot : RegisterSlot)
    (address : GuestVa) :
  cpu_wf s -> register_slot r = Some slot -> write_register_state s r v = Some s' ->
  let '(i, lo, n) := slot_extent slot in
  (forall j k, 0 <= k < 32 ->
     Z.testbit (gpr_at s' j) k =
     if decide (j = i /\ lo <= k < lo + n) then Z.testbit v (k - lo)
     else Z.testbit (gpr_at s j) k) /\
  (u32 v -> read_register s' r address = Ok (wrap n v)) /\
  s' = with_gpr s (gpr s').
Proof.
  intros Hs Hslot Hw.
  pose proof (fun j k => write_register_bits s r v s' slot j k Hs Hslot Hw) as Hbits.
  pose proof (write_register_value s r v s' slot Hslot Hw) as Hval.
  assert (let '(_, lo, n) := slot_extent slot in 0 <= lo /\ 0 <= n /\ lo + n <= 32) as Hb
    by (destruct slot; cbn; lia).
  assert (forall k, u32 v -> 0 <= k ->
    let '(i, lo, n) := slot_extent slot in
    exists u, read_register s' r address = Ok u /\ is_u n u /\
      Z.testbit u k = (k <? n) && Z.testbit (gpr_at s' i) (k + lo)) as Hread.
  { intros k Hv Hk. apply read_register_bits; [|done..]. clear Hbits Hb.
    destruct (slot_extent slot) as [[i lo] n] eqn:He. cbv beta iota in *. rewrite Hval.
    apply set_gpr_wf; [done|]. destruct (Z.eqb_spec n 32); [done|].
    destruct slot; cbn in He; simplify_eq; try done;
      (apply is_u_lor; [lia | apply is_u_land_l; [lia | by apply gpr_at_wf] |]);
      rewrite Z.land_ones by lia; unfold is_u; rewrite Z.shiftl_mul_pow2 by lia;
      pose proof (Z.mod_pos_bound v (2 ^ 8) ltac:(lia));
      pose proof (Z.mod_pos_bound v (2 ^ 16) ltac:(lia)); lia. }
  destruct (slot_extent slot) as [[i lo] n]. cbv beta iota in *. split_and!; [done| |].
  - intros Hv. destruct (Hread 0 Hv ltac:(lia)) as (u & Hu & Hun & _). rewrite Hu. f_equal.
    apply Z.bits_inj'. intros k Hk. destruct (Hread k Hv Hk) as (u' & Hu' & _ & Hk').
    assert (u' = u) as -> by congruence. rewrite Hk'. unfold wrap. destruct (Z.ltb_spec k n); cbn [andb].
    + rewrite Hbits, decide_True, Z.mod_pow2_bits_low by lia. f_equal. lia.
    + by rewrite Z.mod_pow2_bits_high by lia.
  - rewrite Hval. by destruct s.
Qed.

Lemma subregister_store_witness :
  exists s', write_register_state (set_gpr CpuState_default 0 0x11223344) Register.AH 0xAB = Some s' /\
    read_register s' Register.AH 0 = Ok (wrap 8 0xAB) /\ gpr_at s' 0 = 0x1122AB44.
Proof.
  eexists. split; [reflexivity|]. split; [|reflexivity].
  refine (proj1 (proj2 (subregister_store (set_gpr CpuState_default 0 0x11223344) _
    Register.AH 0xAB (High8 0) 0 _ eq_refl eq_refl)) _).
  - apply set_gpr_wf; [apply cpu_default_wf | unfold is_u; lia].
  - unfold is_u; lia.
Defined.
