(* ===== verification/ShiftTheorems.v ===== *)
(** * Shifts, rotates, bit scans and byte swaps of the interpreter

    The pure results of [shift], [double_shift]'s building blocks, [bit_scan]
    and [bswap] of [exec.rs] against their bitwise meaning. *)

From S2P Require Import Prelude GuestTypes Iced CpuState ExecCore ExecOps AluTheorems.

Lemma land1_bit x : Z.land x 1 = Z.b2z (Z.testbit x 0).
Proof.
  change 1 with (Z.ones 1). rewrite Z.land_ones, Z.bit0_mod by lia. done.
Qed.

Lemma shiftr_land1 x k : 0 <= k -> Z.land (Z.shiftr x k) 1 = Z.b2z (Z.testbit x k).
Proof. intros. by rewrite land1_bit, Z.shiftr_spec, Z.add_0_l by lia. Qed.

Lemma bool_u_b2z b : bool_u b = Z.b2z b.
Proof. by destruct b. Qed.

Lemma sign_b2z x w : bool_u (has_bits x (Width_sign_bit w)) = Z.b2z (Z.testbit x (Width_bits w - 1)).
Proof.
  pose proof (width_bits_range w).
  by rewrite bool_u_b2z, width_sign_bit, has_bits_pow2 by lia.
Qed.

(** Bits of a masked value. *)
Lemma land_mask_bit x w k : 0 <= k ->
  Z.testbit (Z.land x (Width_mask w)) k = Z.testbit x k && (k <? Width_bits w).
Proof.
  intros. pose proof (width_bits_range w). rewrite width_mask, Z.land_spec, Z.testbit_ones by lia.
  by rewrite (proj2 (Z.leb_le 0 k)).
Qed.

Lemma wrap32_bit x k : 0 <= k -> Z.testbit (wrap32 x) k = Z.testbit x k && (k <? 32).
Proof.
  intros. unfold wrap. destruct (Z.ltb_spec k 32).
  - by rewrite Z.mod_pow2_bits_low, andb_true_r by lia.
  - by rewrite Z.mod_pow2_bits_high, andb_false_r by lia.
Qed.

(** ** Rotates *)

(** Bit [k] of a rotation to the left by [r]: it was bit [k - r] modulo the
    width. *)
Lemma rol_bit a r w k : is_u (Width_bits w) a -> 0 <= r < Width_bits w -> 0 <= k < Width_bits w ->
  Z.testbit (Z.land (Z.lor (wrap32 (Z.shiftl a r)) (checked_shr_or_0 a (Width_bits w - r)))
               (Width_mask w)) k =
  Z.testbit a ((k - r) mod Width_bits w).
Proof.
  intros Ha Hr Hk. pose proof (width_bits_range w).
  rewrite land_mask_bit, (proj2 (Z.ltb_lt k _)), andb_true_r by lia.
  rewrite Z.lor_spec, wrap32_bit, Z.shiftl_spec, (proj2 (Z.ltb_lt k 32)), andb_true_r by lia.
  rewrite mod_once_neg by lia. unfold checked_shr_or_0.
  assert (forall j, Width_bits w <= j -> Z.testbit a j = false) as Hhigh
    by (intros; apply (is_u_high_bit (Width_bits w)); done || lia).
  destruct (Z.ltb_spec (k - r) 0).
  - rewrite (Z.testbit_neg_r a) by lia. cbn [orb].
    rewrite (proj2 (Z.ltb_lt _ 32)), Z.shiftr_spec by lia. f_equal. lia.
  - destruct (Z.ltb_spec (Width_bits w - r) 32).
    + rewrite Z.shiftr_spec, (Hhigh (k + _)) by lia. apply orb_false_r.
    + by rewrite Z.bits_0, orb_false_r.
Qed.

Lemma ror_bit a r w k : is_u (Width_bits w) a -> 0 <= r < Width_bits w -> 0 <= k < Width_bits w ->
  Z.testbit (Z.land (Z.lor (Z.shiftr a r) (checked_shl_or_0 a (Width_bits w - r)))
               (Width_mask w)) k =
  Z.testbit a ((k + r) mod Width_bits w).
Proof.
  intros Ha Hr Hk. pose proof (width_bits_range w).
  rewrite land_mask_bit, (proj2 (Z.ltb_lt k _)), andb_true_r by lia.
  rewrite Z.lor_spec, Z.shiftr_spec by lia. unfold checked_shl_or_0.
  rewrite mod_once by lia.
  assert (forall j, Width_bits w <= j -> Z.testbit a j = false) as Hhigh
    by (intros; apply (is_u_high_bit (Width_bits w)); done || lia).
  destruct (Z.leb_spec (Width_bits w) (k + r)).
  - rewrite Hhigh by lia. cbn [orb]. rewrite (proj2 (Z.ltb_lt _ 32)) by lia.
    rewrite wrap32_bit, Z.shiftl_spec, (proj2 (Z.ltb_lt k 32)), andb_true_r by lia. f_equal. lia.
  - destruct (Z.ltb_spec (Width_bits w - r) 32).
    + rewrite wrap32_bit, Z.shiftl_spec, (Z.testbit_neg_r a (k - _)) by lia. apply orb_false_r.
    + by rewrite Z.bits_0, orb_false_r.
Qed.

(** A rotation through carry acts on the value with the carry as its top
    bit. *)
Definition with_carry (w : Width) (value carry : Z) (k : Z) : bool :=
  if k =? Width_bits w then Z.testbit carry 0 else Z.testbit value k.

(** A value of the width and a carry bit. *)
Definition rotation_state (w : Width) (value carry : Z) : Prop :=
  is_u (Width_bits w) value /\ (carry = 0 \/ carry = 1).

Definition rcl_once (w : Width) (value carry : Z) : Z * Z :=
  (Z.land (Z.lor (wrap32 (Z.shiftl value 1)) carry) (Width_mask w),
   bool_u (has_bits value (Width_sign_bit w))).

Definition rcr_once (w : Width) (value carry : Z) : Z * Z :=
  (Z.lor (Z.shiftr value 1) (Z.shiftl carry (Width_bits w - 1)), Z.land value 1).

Lemma carry_bit c k : c = 0 \/ c = 1 -> 0 <= k -> Z.testbit c k = (c =? 1) && (k =? 0).
Proof.
  intros [-> | ->] Hk; [by rewrite Z.bits_0|]. change 1 with (2 ^ 0) at 1.
  rewrite Z.pow2_bits_eqb by lia. cbn [andb]. apply Z.eqb_sym.
Qed.

Lemma b2z_carry b : Z.b2z b = 0 \/ Z.b2z b = 1.
Proof. destruct b; cbn; lia. Qed.

Lemma b2z_bit0 b : Z.testbit (Z.b2z b) 0 = b.
Proof. by destruct b. Qed.

Lemma rcl_once_spec w v c k : rotation_state w v c -> 0 <= k <= Width_bits w ->
  let '(v', c') := rcl_once w v c in
  rotation_state w v' c' /\
  with_carry w v' c' k = with_carry w v c ((k - 1) mod (Width_bits w + 1)).
Proof.
  intros [Hv Hc] Hk. pose proof (width_bits_range w). unfold rcl_once, rotation_state.
  rewrite sign_b2z. split.
  { split; [rewrite land_mask; apply mask_is_u | apply b2z_carry]. }
  unfold with_carry. rewrite mod_once_neg, b2z_bit0 by lia.
  destruct (Z.eqb_spec k (Width_bits w)) as [->|].
  - rewrite (proj2 (Z.ltb_ge _ 0)) by lia. rewrite (proj2 (Z.eqb_neq _ _)) by lia. done.
  - rewrite land_mask_bit, (proj2 (Z.ltb_lt k _)), andb_true_r by lia.
    rewrite Z.lor_spec, wrap32_bit, Z.shiftl_spec, (proj2 (Z.ltb_lt k 32)), andb_true_r by lia.
    rewrite (carry_bit c k) by (done || lia). destruct (Z.eqb_spec k 0) as [->|].
    + rewrite (Z.testbit_neg_r v) by lia. cbn [orb]. change (0 - 1 <? 0) with true.
      rewrite (proj2 (Z.eqb_eq (0 - 1 + (Width_bits w + 1)) _)) by lia.
      by rewrite (carry_bit c 0) by (done || lia).
    + rewrite (proj2 (Z.ltb_ge _ 0)) by lia. rewrite (proj2 (Z.eqb_neq (k - 1) _)) by lia.
      by rewrite andb_false_r, orb_false_r.
Qed.

Lemma rcr_once_spec w v c k : rotation_state w v c -> 0 <= k <= Width_bits w ->
  let '(v', c') := rcr_once w v c in
  rotation_state w v' c' /\
  with_carry w v' c' k = with_carry w v c ((k + 1) mod (Width_bits w + 1)).
Proof.
  intros [Hv Hc] Hk. pose proof (width_bits_range w). unfold rcr_once, rotation_state.
  rewrite land1_bit. split.
  { split; [|apply b2z_carry]. apply is_u_lor; [lia | |];
      unfold is_u in *; rewrite half_range in *; set (h := 2 ^ (Width_bits w - 1)) in *.
    - rewrite Z.shiftr_div_pow2 by lia. change (2 ^ 1) with 2. dlia.
    - rewrite Z.shiftl_mul_pow2 by lia. fold h. destruct Hc as [-> | ->]; lia. }
  unfold with_carry. rewrite mod_once, b2z_bit0 by lia.
  destruct (Z.eqb_spec k (Width_bits w)) as [->|].
  - rewrite (proj2 (Z.leb_le _ _)) by lia.
    rewrite (proj2 (Z.eqb_neq _ _)) by lia. f_equal. lia.
  - rewrite (proj2 (Z.leb_gt _ _)) by lia.
    rewrite Z.lor_spec, Z.shiftr_spec, Z.shiftl_spec by lia.
    destruct (Z.eqb_spec (k + 1) (Width_bits w)) as [He|].
    + rewrite He, (is_u_high_bit (Width_bits w) v) by (done || lia). cbn [orb].
      f_equal. lia.
    + rewrite (Z.testbit_neg_r c) by lia. apply orb_false_r.
Qed.

Lemma rcl_loop_spec n : forall w v c k, rotation_state w v c -> 0 <= k <= Width_bits w ->
  let '(v', c') := rcl_loop n v c w in
  rotation_state w v' c' /\
  with_carry w v' c' k = with_carry w v c ((k - Z.of_nat n) mod (Width_bits w + 1)).
Proof.
  induction n as [|n IH]; intros w v c k Hs Hk; cbn [rcl_loop]; pose proof (width_bits_range w).
  { split; [done|]. by rewrite Z.sub_0_r, Z.mod_small by lia. }
  pose proof (fun j => rcl_once_spec w v c j Hs) as Hone. unfold rcl_once in Hone.
  destruct (Hone k Hk) as [Hs' _].
  specialize (IH w _ _ k Hs' Hk). destruct (rcl_loop n _ _ w) as [v' c'].
  destruct IH as [Hs2 ->]. split; [done|].
  destruct (Hone ((k - Z.of_nat n) mod (Width_bits w + 1))) as [_ ->].
  { pose proof (Z.mod_pos_bound (k - Z.of_nat n) (Width_bits w + 1) ltac:(lia)). lia. }
  f_equal. rewrite Zminus_mod_idemp_l. f_equal. lia.
Qed.

Lemma rcr_loop_spec n : forall w v c k, rotation_state w v c -> 0 <= k <= Width_bits w ->
  let '(v', c') := rcr_loop n v c w in
  rotation_state w v' c' /\
  with_carry w v' c' k = with_carry w v c ((k + Z.of_nat n) mod (Width_bits w + 1)).
Proof.
  induction n as [|n IH]; intros w v c k Hs Hk; cbn [rcr_loop]; pose proof (width_bits_range w).
  { split; [done|]. by rewrite Z.add_0_r, Z.mod_small by lia. }
  pose proof (fun j => rcr_once_spec w v c j Hs) as Hone. unfold rcr_once in Hone.
  destruct (Hone k Hk) as [Hs' _].
  specialize (IH w _ _ k Hs' Hk). destruct (rcr_loop n _ _ w) as [v' c'].
  destruct IH as [Hs2 ->]. split; [done|].
  destruct (Hone ((k + Z.of_nat n) mod (Width_bits w + 1))) as [_ ->].
  { pose proof (Z.mod_pos_bound (k + Z.of_nat n) (Width_bits w + 1) ltac:(lia)). lia. }
  f_equal. rewrite Zplus_mod_idemp_l. f_equal. lia.
Qed.

(** ** Theorems *)

(** the rotates at every width and count: [rol] and [ror] move bit [k] by
    the count modulo the width, and [rcl] and [rcr] do the same to the value
    with the carry flag as its top bit, so they rotate width plus one bits. *)
Theorem rotates_correct (a count carry_in : Z) (w : Width) :
  rotation_state w a carry_in -> 0 <= count ->
  let n := Width_bits w in
  (let '(r, _, _) := shift_result Rol a count carry_in w in
   is_u n r /\ forall k, 0 <= k < n -> Z.testbit r k = Z.testbit a ((k - count) mod n)) /\
  (let '(r, _, _) := shift_result Ror a count carry_in w in
   is_u n r /\ forall k, 0 <= k < n -> Z.testbit r k = Z.testbit a ((k + count) mod n)) /\
  (let '(r, c, _) := shift_result Rcl a count carry_in w in
   rotation_state w r c /\ forall k, 0 <= k <= n ->
     with_carry w r c k = with_carry w a carry_in ((k - count) mod (n + 1))) /\
  (let '(r, c, _) := shift_result Rcr a count carry_in w in
   rotation_state w r c /\ forall k, 0 <= k <= n ->
     with_carry w r c k = with_carry w a carry_in ((k + count) mod (n + 1))).
Proof.
  intros Hs Hcount. cbn zeta. pose proof (width_bits_range w).
  pose proof (Z.mod_pos_bound count (Width_bits w) ltac:(lia)).
  pose proof (Z.mod_pos_bound count (Width_bits w + 1) ltac:(lia)).
  unfold shift_result. cbn zeta. split; [|split; [|split]].
  - split; [rewrite land_mask; apply mask_is_u|]. intros k Hk.
    rewrite rol_bit by (apply Hs || lia). by rewrite Zminus_mod_idemp_r.
  - split; [rewrite land_mask; apply mask_is_u|]. intros k Hk.
    rewrite ror_bit by (apply Hs || lia). by rewrite Zplus_mod_idemp_r.
  - pose proof (fun k => rcl_loop_spec (Z.to_nat (count mod (Width_bits w + 1))) w a carry_in k Hs)
      as Hl. destruct (rcl_loop _ a carry_in w) as [r c].
    split; [apply (Hl 0); lia|]. intros k Hk. destruct (Hl k Hk) as [_ ->].
    by rewrite Z2Nat.id, Zminus_mod_idemp_r by lia.
  - pose proof (fun k => rcr_loop_spec (Z.to_nat (count mod (Width_bits w + 1))) w a carry_in k Hs)
      as Hl. destruct (rcr_loop _ a carry_in w) as [r c].
    split; [apply (Hl 0); lia|]. intros k Hk. destruct (Hl k Hk) as [_ ->].
    by rewrite Z2Nat.id, Zplus_mod_idemp_r by lia.
Qed.

Lemma rotates_correct_witness :
  shift_result Rcl 0x80 1 0 B = (0, 1, true) /\
  with_carry B 0 1 8 = with_carry B 0x80 0 ((8 - 1) mod 9).
Proof.
  split; [reflexivity|].
  refine (proj2 (proj1 (proj2 (proj2 (rotates_correct 0x80 1 0 B _ _)))) 8 _).
  - unfold rotation_state, is_u; cbn; lia.
  - lia.
  - cbn; lia.
Defined.

(** the shifts at every width and count from 1 to 31: [shl] multiplies
    modulo [2^n], [shr] divides, [sar] divides the signed value rounding down,
    and the carry out is the last bit shifted out. *)
Theorem shifts_correct (a count carry_in : Z) (w : Width) :
  is_u (Width_bits w) a -> 1 <= count <= 31 ->
  let n := Width_bits w in
  (shift_result Shl a count carry_in w).1 =
    (wrap n (a * 2 ^ count), Z.b2z (Z.testbit a (n - count))) /\
  (shift_result Shr a count carry_in w).1 =
    (a / 2 ^ count, Z.b2z (Z.testbit a (count - 1))) /\
  (shift_result Sar a count carry_in w).1 =
    (wrap n (signed n a / 2 ^ count), Z.b2z (Z.testbit (signed n a) (count - 1))).
Proof.
  intros Ha Hc. cbn zeta. pose proof (width_bits_range w). unfold shift_result. cbn zeta.
  split_and!; cbn [fst]; f_equal.
  - rewrite land_mask, wrap_wrap, Z.shiftl_mul_pow2 by lia. done.
  - rewrite shiftr_land1, Z.shiftl_spec by lia. done.
  - rewrite (proj2 (Z.leb_gt _ _)), land_mask, Z.shiftr_div_pow2 by lia.
    apply wrap_small. rewrite <- Z.shiftr_div_pow2 by lia. apply is_u_shiftr; done || lia.
  - rewrite (proj2 (Z.ltb_ge _ _)) by lia. apply shiftr_land1. lia.
  - rewrite Z.min_l, land_mask, wrap_wrap, Z.shiftr_div_pow2 by lia. done.
  - rewrite Z.min_l, shiftr_land1 by lia. apply wrap_small. destruct (Z.testbit _ _); by unfold is_u.
Qed.

Lemma shifts_correct_witness :
  (shift_result Sar 0xF1 2 0 B).1 = (wrap 8 (signed 8 0xF1 / 2 ^ 2), 0).
Proof. apply (shifts_correct 0xF1 2 0 B); [unfold is_u; cbn; lia | lia]. Defined.

(** ** Bit scans and byte swaps *)

Lemma trailing_zeros_from_spec n : forall i v, 0 <= i ->
  (forall j, i <= j < i + Z.of_nat n -> Z.testbit v j = false) \/
  let t := trailing_zeros_from n i v in
  i <= t < i + Z.of_nat n /\ Z.testbit v t = true /\
  forall j, i <= j < t -> Z.testbit v j = false.
Proof.
  induction n as [|n IH]; intros i v Hi; cbn [trailing_zeros_from]; [left; lia|].
  destruct (Z.testbit v i) eqn:Hb.
  - right. split_and!; [lia | lia | done | lia].
  - destruct (IH (i + 1) v ltac:(lia)) as [Hnone|(Ht & Hbit & Hlow)].
    + left. intros j Hj. destruct (decide (j = i)) as [->|]; [done|]. apply Hnone. lia.
    + right. cbn zeta in *. split_and!; [lia | lia | done |]. intros j Hj.
      destruct (decide (j = i)) as [->|]; [done|]. apply Hlow. lia.
Qed.

Lemma swap_bytes_involutive v : u32 v -> swap_bytes (swap_bytes v) = v.
Proof.
  intros Hv. unfold swap_bytes.
  assert (Forall u8 (rev (to_le_bytes 4 v))) as Hu
    by (apply Forall_rev, to_le_bytes_u8).
  pose proof (to_from_le_bytes _ Hu) as Hr. rewrite length_rev, length_to_le_bytes in Hr.
  rewrite Hr, rev_involutive, from_to_le_bytes. by apply wrap_small.
Qed.

(** [bsf] finds the lowest set bit and [bsr] the highest of a non-zero
    value, and [bswap] is its own inverse. *)
Theorem bit_scan_finds (v : Z) :
  u32 v -> v <> 0 ->
  (let t := trailing_zeros v in
   0 <= t < 32 /\ Z.testbit v t = true /\ forall j, 0 <= j < t -> Z.testbit v j = false) /\
  (let t := 31 - leading_zeros v in
   0 <= t < 32 /\ Z.testbit v t = true /\ forall j, t < j -> Z.testbit v j = false) /\
  swap_bytes (swap_bytes v) = v.
Proof.
  intros Hv Hne. split_and!; [| |by apply swap_bytes_involutive]; cbn zeta.
  - unfold trailing_zeros. destruct (trailing_zeros_from_spec 32 0 v ltac:(lia)) as [Hz|Ht]; [|done].
    exfalso. apply Hne, Z.bits_inj'. intros j Hj. rewrite Z.bits_0.
    destruct (decide (j < 32)); [apply Hz; lia|]. apply (is_u_high_bit 32); [done | lia].
  - unfold leading_zeros. rewrite (proj2 (Z.eqb_neq _ _)) by done.
    replace (31 - (31 - Z.log2 v)) with (Z.log2 v) by lia. unfold is_u in Hv.
    pose proof (Z.log2_nonneg v). assert (Z.log2 v < 32) by (apply Z.log2_lt_pow2; lia).
    split_and!; [lia | lia | apply Z.bit_log2; lia |].
    intros j Hj. apply Z.bits_above_log2; lia.
Qed.

Lemma bit_scan_finds_witness : Z.testbit 0x50 (trailing_zeros 0x50) = true.
Proof. apply (bit_scan_finds 0x50); [unfold is_u; lia | lia]. Defined.
