(* ===== verification/ExecPrecise.v ===== *)
(** * Precise faults

    A failed instruction leaves the machine as it was: registers, flags, EIP,
    memory and devices.  Three properties of interpreter programs compose:
    reading only, never failing, and failing without effect. *)

From S2P Require Import Prelude GuestTypes PageTable GuestMemory Iced CpuState ExecCore ExecOps Exec AluTheorems.

(** ** Program properties *)

Section Properties.
Context {Mem Ports : Type} `{GuestMemoryLaws Mem}.
Abbreviation M := (Exec Mem Ports).

(** The machine is never changed. *)
Definition reads_only {A} (e : M A) : Prop := forall m, (e m).2 = m.

(** The program always succeeds. *)
Definition no_fail {A} (e : M A) : Prop := forall m, exists a m', e m = (Ok a, m').

(** Failure changes nothing. *)
Definition precise {A} (e : M A) : Prop := forall m err m',
  mem_ok (mem m) -> e m = (Err err, m') -> m' = m.

Lemma reads_only_precise {A} (e : M A) : reads_only e -> precise e.
Proof. intros He m err m' _ Hr. specialize (He m). by rewrite Hr in He. Qed.

Lemma no_fail_precise {A} (e : M A) : no_fail e -> precise e.
Proof. intros He m err m' _ Hr. destruct (He m) as (a & m1 & Ha). congruence. Qed.

Lemma reads_only_ret {A} (a : A) : reads_only (mret a : M A).
Proof. done. Qed.
Lemma reads_only_lift {A} (r : result ExecError A) : reads_only (lift r : M A).
Proof. done. Qed.
Lemma reads_only_fail {A} e : reads_only (fail e : M A).
Proof. done. Qed.
Lemma reads_only_gets {A} (f : CpuState -> A) : reads_only (gets f : M A).
Proof. done. Qed.
Lemma reads_only_try_gets {A} (f : CpuState -> result ExecError A) : reads_only (try_gets f : M A).
Proof. done. Qed.
Lemma reads_only_get_gpr i : reads_only (get_gpr i : M Z).
Proof. done. Qed.
Lemma reads_only_read_bytes a n : reads_only (mem_read_bytes a n : M (list Z)).
Proof. done. Qed.

Lemma reads_only_bind {A C} (e : M A) (k : A -> M C) :
  reads_only e -> (forall a, reads_only (k a)) -> reads_only (e ≫= k).
Proof.
  intros He Hk m. unfold mbind, exec_bind. specialize (He m).
  destruct (e m) as [[a|err] m1]; cbn in He; subst; [apply Hk | done].
Qed.

Lemma reads_only_read_memory a w : reads_only (read_memory a w : M Z).
Proof. apply reads_only_bind; intros; done. Qed.

Lemma reads_only_read_operand op w : reads_only (read_operand op w : M Z).
Proof. destruct op; [done | apply reads_only_read_memory | done]. Qed.

Lemma no_fail_ret {A} (a : A) : no_fail (mret a : M A).
Proof. intros m. by eexists _, _. Qed.
Lemma no_fail_gets {A} (f : CpuState -> A) : no_fail (gets f : M A).
Proof. intros m. by eexists _, _. Qed.
Lemma no_fail_modify f : no_fail (modify f : M unit).
Proof. intros m. by eexists _, _. Qed.
Lemma no_fail_get_gpr i : no_fail (get_gpr i : M Z).
Proof. intros m. by eexists _, _. Qed.
Lemma no_fail_put_gpr i v : no_fail (put_gpr i v : M unit).
Proof. apply no_fail_modify. Qed.
Lemma no_fail_update_eflags f : no_fail (update_eflags f : M unit).
Proof. apply no_fail_modify. Qed.
Lemma no_fail_merge_flags d v : no_fail (merge_flags d v : M unit).
Proof. apply no_fail_modify. Qed.
Lemma no_fail_put_eip v : no_fail (put_eip v : M unit).
Proof. apply no_fail_modify. Qed.

Lemma no_fail_bind {A C} (e : M A) (k : A -> M C) :
  no_fail e -> (forall a, no_fail (k a)) -> no_fail (e ≫= k).
Proof.
  intros He Hk m. unfold mbind, exec_bind. destruct (He m) as (a & m1 & ->). apply Hk.
Qed.

Lemma no_fail_put_low16 i v : no_fail (put_low16 i v : M unit).
Proof. apply no_fail_bind; intros; [apply no_fail_get_gpr | apply no_fail_put_gpr]. Qed.

Lemma no_fail_advance i d : no_fail (advance i d : M unit).
Proof. apply no_fail_bind; intros; [apply no_fail_get_gpr | apply no_fail_put_gpr]. Qed.

(** The two ways sequencing preserves precision. *)
Lemma precise_read_bind {A C} (e : M A) (k : A -> M C) :
  reads_only e -> (forall a, precise (k a)) -> precise (e ≫= k).
Proof.
  intros He Hk m err m' Hok. unfold mbind, exec_bind. specialize (He m).
  destruct (e m) as [[a|err'] m1]; cbn in He; subst; [by apply Hk | congruence].
Qed.

Lemma precise_effect_bind {A C} (e : M A) (k : A -> M C) :
  precise e -> (forall a, no_fail (k a)) -> precise (e ≫= k).
Proof.
  intros He Hk m err m' Hok. unfold mbind, exec_bind.
  destruct (e m) as [[a|err'] m1] eqn:Hem.
  - intros Hr. destruct (Hk a m1) as (c & m2 & Hc). congruence.
  - intros Hr. simplify_eq. by eapply He.
Qed.

(** A read whose result is known to come from the function. *)
Lemma precise_try_bind {A C} (f : CpuState -> result ExecError A) (k : A -> M C) :
  (forall s a, f s = Ok a -> precise (k a)) -> precise (try_gets f ≫= k).
Proof.
  intros Hk m err m' Hok. unfold mbind, exec_bind, try_gets.
  destruct (f (cpu m)) as [a|e] eqn:Hf; [by eapply Hk | congruence].
Qed.

Lemma precise_write_bytes a bs : u32 a -> precise (mem_write_bytes a bs : M unit).
Proof.
  intros Ha m err m' Hok Hr. unfold mem_write_bytes in Hr.
  destruct (mem_write (mem m) a bs) as [[u|e] x] eqn:Hw; cbn in Hr; simplify_eq.
  apply write_refused in Hw; [|done..]. subst. by destruct m.
Qed.

Lemma precise_write_memory a w v : u32 a -> precise (write_memory a w v : M unit).
Proof. apply precise_write_bytes. Qed.

Lemma precise_write_register r v a : precise (write_register r v a : M unit).
Proof. intros m err m' _ Hr. unfold write_register in Hr. case_match; congruence. Qed.

Lemma no_fail_write_register r slot v a : register_slot r = Some slot ->
  no_fail (write_register r v a : M unit).
Proof.
  intros Hs m. unfold write_register, write_register_state. rewrite Hs.
  destruct slot; by eexists _, _.
Qed.

(** An operand whose location, if any, is an address. *)
Definition operand_ok (op : Operand) : Prop :=
  match op with
  | OpMemory location => u32 location
  | _ => True
  end.

Lemma precise_write_operand op w v : operand_ok op -> precise (write_operand op w v : M unit).
Proof.
  intros Hop. destruct op; cbn in *.
  - apply precise_read_bind; [done|]. intros. apply precise_write_register.
  - by apply precise_write_memory.
  - by apply reads_only_precise.
Qed.

(** A register that can be read can be written: after reading it, writing it
    back cannot fail. *)
Lemma precise_read_register_then {C} r w (k : Z -> M C) :
  (forall slot a, register_slot r = Some slot -> precise (k a)) ->
  precise (read_operand (OpRegister r) w ≫= k).
Proof.
  intros Hk. apply precise_try_bind. intros s a Ha. unfold read_register in Ha.
  destruct (register_slot r) as [slot|] eqn:Hs; [by eapply Hk | done].
Qed.

Lemma no_fail_write_register_operand r slot w v : register_slot r = Some slot ->
  no_fail (write_operand (OpRegister r) w v : M unit).
Proof.
  intros Hs. apply no_fail_bind; intros; [apply no_fail_gets|].
  by eapply no_fail_write_register.
Qed.

Lemma precise_push_value w v : precise (push_value w v : M unit).
Proof.
  apply precise_read_bind; [done|]. intros esp.
  apply precise_effect_bind; [apply precise_write_memory, u32_wrapping_sub|].
  intros. apply no_fail_put_gpr.
Qed.

Lemma precise_pop_value w : precise (pop_value w : M Z).
Proof.
  apply precise_read_bind; [done|]. intros esp.
  apply precise_read_bind; [apply reads_only_read_memory|]. intros v.
  apply no_fail_precise, no_fail_bind; intros; [apply no_fail_put_gpr | apply no_fail_ret].
Qed.
End Properties.

Lemma effective_address_u32 `{Iced} s i a b loc : instruction_wf i ->
  effective_address s i a b = Ok loc -> u32 loc.
Proof.
  intros Hi He. unfold effective_address in He. repeat (case_match; [done|]).
  apply bind_ok_inv in He as (o1 & Hbase & He). apply bind_ok_inv in He as (o2 & Hindex & He).
  assert (u32 (memory_displacement32 i)) as Hd by apply Hi.
  assert (u32 o1) as Ho1.
  { destruct (Register.is_none (memory_base i)); [by simplify_eq|].
    apply bind_ok_inv in Hbase as (v & _ & Hbase). simplify_eq. apply u32_wrapping_add. }
  assert (u32 o2) as Ho2.
  { destruct (Register.is_none (memory_index i)); [by simplify_eq|].
    apply bind_ok_inv in Hindex as (v & _ & Hindex). simplify_eq. apply u32_wrapping_add. }
  destruct b; [|by simplify_eq].
  apply bind_ok_inv in He as (v & _ & He). simplify_eq. apply u32_wrapping_add.
Qed.

Lemma operand_operand_ok `{Iced} s i k a op : instruction_wf i ->
  operand s i k a = Ok op -> operand_ok op.
Proof.
  intros Hi Ho. unfold operand in Ho. case_match; simplify_eq; try done.
  apply bind_ok_inv in Ho as (loc & Hloc & Ho). simplify_eq. by eapply effective_address_u32.
Qed.

(** ** Automation *)

(** Closes a goal that a program reads only; the head of the program selects
    the lemma. *)
Ltac reading := lazymatch goal with
  | |- reads_only (lift _) => apply reads_only_lift
  | |- reads_only (gets _) => apply reads_only_gets
  | |- reads_only (get_gpr _) => apply reads_only_get_gpr
  | |- reads_only (try_gets _) => apply reads_only_try_gets
  | |- reads_only (read_operand _ _) => apply reads_only_read_operand
  | |- reads_only (read_memory _ _) => apply reads_only_read_memory
  | |- reads_only (mem_read_bytes _ _) => apply reads_only_read_bytes
  | |- reads_only (mret _) => apply reads_only_ret
  | |- reads_only (fail _) => apply reads_only_fail
  | |- reads_only (_ ≫= _) => apply reads_only_bind; [reading | intros ?; reading]
  | |- reads_only (match ?x with _ => _ end) => destruct x; reading
  end.

(** Closes a goal that a program never fails. *)
Ltac never_fails := cbn zeta; lazymatch goal with
  | |- no_fail (mret _) => apply no_fail_ret
  | |- no_fail (merge_flags _ _) => apply no_fail_merge_flags
  | |- no_fail (put_gpr _ _) => apply no_fail_put_gpr
  | |- no_fail (put_low16 _ _) => apply no_fail_put_low16
  | |- no_fail (advance _ _) => apply no_fail_advance
  | |- no_fail (update_eflags _) => apply no_fail_update_eflags
  | |- no_fail (get_gpr _) => apply no_fail_get_gpr
  | |- no_fail (gets _) => apply no_fail_gets
  | |- no_fail (put_eip _) => apply no_fail_put_eip
  | |- no_fail (modify _) => apply no_fail_modify
  | |- no_fail (write_register _ _ _) => by eapply no_fail_write_register
  | |- no_fail (write_operand (OpRegister _) _ _) => by eapply no_fail_write_register_operand
  | |- no_fail (_ ≫= _) => apply no_fail_bind; [never_fails | intros ?; never_fails]
  | |- no_fail (match ?x with _ => _ end) => destruct x; never_fails
  end.

(** One step of a precision proof: a leaf by its lemma, a sequence by reading
    first or by nothing failing after its first effect, a branch by cases. *)
Ltac precise_step := cbn zeta; lazymatch goal with
  | |- precise (push_value _ _) => apply precise_push_value
  | |- precise (pop_value _) => apply precise_pop_value
  | |- precise (write_register _ _ _) => apply precise_write_register
  | |- precise (write_operand _ _ _) =>
    apply precise_write_operand; by eauto using operand_operand_ok
  | |- precise (write_memory _ _ _) =>
    apply precise_write_memory; by eauto using effective_address_u32, u32_wrapping_add
  | |- precise (mem_write_bytes _ _) =>
    apply precise_write_bytes; by eauto using effective_address_u32, u32_wrapping_sub
  | |- precise (read_operand (OpRegister _) _ ≫= _) => apply precise_read_register_then; intros ? ? ?
  | |- precise (try_gets _ ≫= _) => apply precise_try_bind; intros ? ? ?
  | |- precise (_ ≫= _) => first
    [ apply precise_read_bind; [reading | intros ?]
    | apply precise_effect_bind; [|intros ?; never_fails] ]
  | |- precise (match ?x with _ => _ end) => destruct x eqn:?
  | |- precise _ => first
    [ apply reads_only_precise; reading | apply no_fail_precise; never_fails ]
  end.

Section FamilyPrecision.
Context {Mem Ports : Type} `{GuestMemoryLaws Mem} `{Iced}.
Context (i : Instruction) (address : GuestVa).
Hypothesis i_wf : instruction_wf i.
Abbreviation precise_in := (@precise Mem Ports _ _ unit).

Lemma precise_binary_alu kind : precise_in (binary_alu i address kind).
Proof. unfold binary_alu. repeat precise_step. Qed.

Lemma precise_mov : precise_in (mov i address).
Proof. unfold mov. repeat precise_step. Qed.

Lemma precise_widen x : precise_in (widen i address x).
Proof. unfold widen. repeat precise_step. Qed.

Lemma precise_lea : precise_in (lea i address).
Proof. unfold lea. repeat precise_step. Qed.

Lemma precise_cmpxchg8b : precise_in (cmpxchg8b i address).
Proof. unfold cmpxchg8b. repeat precise_step. Qed.

Lemma precise_step_by_one x : precise_in (step_by_one i address x).
Proof. unfold step_by_one. repeat precise_step. Qed.

Lemma precise_neg : precise_in (neg i address).
Proof. unfold neg. repeat precise_step. Qed.

Lemma precise_not : precise_in (not i address).
Proof. unfold not. repeat precise_step. Qed.

Lemma precise_shift kind : precise_in (shift i address kind).
Proof. unfold shift. repeat precise_step. Qed.

Lemma precise_double_shift x : precise_in (double_shift i address x).
Proof. unfold double_shift. repeat precise_step. Qed.

Lemma precise_mul : precise_in (mul i address).
Proof. unfold mul. repeat precise_step. Qed.

Lemma precise_imul : precise_in (imul i address).
Proof. unfold imul, imul_wide, imul_narrow. repeat precise_step. Qed.

Lemma precise_div x : precise_in (div i address x).
Proof. unfold div. repeat precise_step. Qed.

Lemma precise_bswap : precise_in (bswap i address).
Proof. unfold bswap. repeat precise_step. Qed.

Lemma precise_bit_scan x : precise_in (bit_scan i address x).
Proof. unfold bit_scan. repeat precise_step. Qed.

Lemma precise_conditional : precise_in (conditional i address).
Proof. unfold conditional. repeat precise_step. Qed.

Lemma precise_push : precise_in (push i address).
Proof. unfold push. repeat precise_step. Qed.

Lemma precise_pushad : precise_in pushad.
Proof. unfold pushad. repeat precise_step. Qed.

Lemma precise_popad : precise_in popad.
Proof. unfold popad. repeat precise_step. Qed.

Lemma precise_popfd : precise_in popfd.
Proof. unfold popfd. repeat precise_step. Qed.

Lemma precise_leave : precise_in (leave i address).
Proof. unfold leave. repeat precise_step. Qed.

Lemma precise_fldcw : precise_in (fldcw i address).
Proof. unfold fldcw. repeat precise_step. Qed.

(** The two writes of [xchg] and [xadd]: the register is written last, or
    both operands are registers already read. *)
Lemma operand_register s k op : op_kind i k = OpKind.Register ->
  operand s i k address = Ok op -> op = OpRegister (op_register i k).
Proof. unfold operand. intros ->. by intros [= <-]. Qed.

Lemma operand_width_not_immediate s k op w : operand_width i k address = Ok w ->
  operand s i k address = Ok op -> forall v, op <> OpImmediate v.
Proof.
  unfold operand_width, operand. intros Hw Ho v ->. repeat case_match; try done.
  apply bind_ok_inv in Ho as (loc & _ & Ho). done.
Qed.

Lemma precise_lift_bind {C} {A} (r : result ExecError A) (k : A -> Exec Mem Ports C) :
  (forall a, r = Ok a -> precise (k a)) -> precise (lift r ≫= k).
Proof.
  intros Hk m err m' Hok. unfold mbind, exec_bind, lift.
  destruct r as [a|e]; [by apply Hk | congruence].
Qed.

Lemma precise_xchg : op_kind i 1 = OpKind.Register -> precise_in (xchg i address).
Proof.
  intros Hreg. unfold xchg. precise_step. precise_step.
  apply precise_try_bind. intros s2 second Hsecond.
  apply operand_register in Hsecond as ->; [|done]. repeat precise_step.
Qed.

Lemma precise_xadd : op_kind i 1 = OpKind.Register -> precise_in (xadd i address).
Proof.
  intros Hreg. unfold xadd. apply precise_lift_bind. intros w Hw.
  apply precise_try_bind. intros s1 dst Hdst.
  apply precise_try_bind. intros s2 src Hsrc. apply operand_register in Hsrc as ->; [|done].
  pose proof (operand_width_not_immediate _ _ _ _ Hw Hdst) as Hni.
  destruct dst as [r|location|v]; [| |by destruct (Hni v)]; repeat precise_step.
Qed.

Lemma accumulator_slot w : exists slot, register_slot (accumulator_register w) = Some slot.
Proof. destruct w; by eexists. Qed.

Lemma precise_cmpxchg : precise_in (cmpxchg i address).
Proof. unfold cmpxchg. pose proof accumulator_slot as Hacc. do 4 precise_step.
  precise_step.
  edestruct (Hacc a) as [slot Hslot]. repeat precise_step. Qed.

(** A read whose result is known to come from the program. *)
Lemma precise_read_bind_ok {A C} (e : Exec Mem Ports A) (k : A -> Exec Mem Ports C) :
  reads_only e -> (forall m a, (e m).1 = Ok a -> precise (k a)) -> precise (e ≫= k).
Proof.
  intros He Hk m err m' Hok. unfold mbind, exec_bind. specialize (He m).
  destruct (e m) as [[a|err'] m1] eqn:Hem; cbn in He; subst; [|congruence].
  apply (Hk m); [by rewrite Hem | done].
Qed.

Lemma reads_only_bit_location w : reads_only (bit_location i address w : Exec Mem Ports _).
Proof. unfold bit_location. repeat case_match; repeat (apply reads_only_bind; [reading|intros ?]); reading. Qed.

Lemma bit_location_ok w (m : Machine Mem Ports) target bit :
  (bit_location i address w m).1 = Ok (target, bit) -> operand_ok target.
Proof.
  unfold bit_location, mbind, exec_bind, try_gets. intros Hb.
  repeat case_match; simplify_eq/=; try done; eauto using operand_operand_ok, effective_address_u32, u32_wrapping_add.
Qed.

Lemma precise_bit_test op : precise_in (bit_test i address op).
Proof.
  unfold bit_test. precise_step. precise_step; [precise_step|].
  apply precise_read_bind_ok; [apply reads_only_bit_location|]. intros m [target bit] Hb.
  apply bit_location_ok in Hb. repeat precise_step.
Qed.

(** [pop] restores ESP when its destination faults. *)
Lemma set_gpr_back s k x : set_gpr (set_gpr s k x) k (gpr_at s k) = s.
Proof.
  unfold set_gpr, gpr_at, with_gpr. cbn. rewrite list_insert_insert_eq.
  destruct s as [g ? ? ? ? ? ? ?]. cbn. f_equal. rewrite nth_lookup.
  destruct (g !! k) as [v|] eqn:Hv; cbn.
  - by apply list_insert_id.
  - by apply list_insert_ge, lookup_ge_None.
Qed.

Lemma precise_on_error_put_gpr {A} k x y (e : Exec Mem Ports A) m err m' :
  precise e -> gpr_at (cpu m) k = y -> mem_ok (mem m) ->
  (put_gpr k x ≫= fun _ => on_error e (fun s => set_gpr s k y)) m = (Err err, m') -> m' = m.
Proof.
  intros He <- Hok. unfold mbind, exec_bind, put_gpr, modify, on_error.
  destruct (e _) as [[a|e'] m1] eqn:Hem; intros Hr; [done|].
  apply He in Hem; [|done]. simplify_eq. destruct m as [c me b]. unfold with_cpu. cbn.
  by rewrite set_gpr_back.
Qed.

Lemma precise_pop : precise_in (pop i address).
Proof.
  unfold pop. precise_step. intros m err m' Hok.
  unfold get_gpr at 1, gets. unfold mbind at 1, exec_bind at 1.
  unfold mbind at 1, exec_bind at 1.
  pose proof (reads_only_read_memory (gpr_at (cpu m) 4) a m) as Hread.
  destruct (read_memory (gpr_at (cpu m) 4) a m) as [[v|e] m1]; cbn in Hread; subst; [|congruence].
  apply precise_on_error_put_gpr; [|done..]. repeat precise_step.
Qed.

Lemma precise_branch : @precise Mem Ports _ _ _ (branch i address).
Proof.
  unfold branch, branch_target, jump_if.
  destruct (mnemonic i); try (repeat precise_step).
Qed.

(** Without a repeat prefix a string instruction is one element. *)
Lemma precise_string_element kind w sb db :
  precise_in (string_element address kind w sb db).
Proof.
  unfold string_element. destruct (accumulator_slot w) as [slot Hslot].
  destruct kind; repeat precise_step.
Qed.
End FamilyPrecision.

Create HintDb precise discriminated.
#[export] Hint Constants Opaque : precise.
#[export] Hint Resolve precise_binary_alu precise_mov precise_widen precise_lea
  precise_cmpxchg precise_cmpxchg8b precise_step_by_one precise_neg precise_not
  precise_shift precise_double_shift precise_mul precise_imul precise_div precise_bswap
  precise_bit_test precise_bit_scan precise_conditional precise_push precise_pop
  precise_pushad precise_popad precise_popfd precise_leave precise_fldcw precise_branch
  : precise.

(** ** Dispatch *)

(** The mnemonics [string_op] serves. *)
Definition is_string (mn : Mnemonic.t) : bool :=
  match mn with
  | Mnemonic.Movsb | Mnemonic.Movsw | Mnemonic.Movsd
  | Mnemonic.Stosb | Mnemonic.Stosw | Mnemonic.Stosd
  | Mnemonic.Lodsb | Mnemonic.Lodsw | Mnemonic.Lodsd
  | Mnemonic.Scasb | Mnemonic.Scasw | Mnemonic.Scasd
  | Mnemonic.Cmpsb | Mnemonic.Cmpsw | Mnemonic.Cmpsd => true
  | _ => false
  end.

(** A repeat prefix, as [string_op] computes it. *)
Definition is_repeated (i : Instruction) : bool := has_rep_prefix i || has_repne_prefix i.

Section DispatchPrecision.
Context {Mem Ports : Type} `{GuestMemoryLaws Mem} `{PortBus Ports} `{Iced}.
Context (i : Instruction) (address : GuestVa).
Hypothesis i_wf : instruction_wf i.

Lemma precise_run_string kind w sb db z :
  precise (run_string i address kind w sb db false z : Exec Mem Ports unit).
Proof.
  intros m err m' Hok. unfold run_string. rewrite string_fuel_succ. cbn [string_loop andb negb].
  destruct (string_element _ _ _ _ _ m) as [[[]|e] m1] eqn:He; cbn [default id]; [done|].
  intros Hr. simplify_eq. by eapply precise_string_element.
Qed.

Lemma precise_string_op kind w : is_repeated i = false ->
  precise (string_op i address kind w : Exec Mem Ports unit).
Proof.
  intros Hrep. unfold string_op. fold (is_repeated i). rewrite Hrep.
  repeat (precise_step || apply precise_run_string).
Qed.

Lemma precise_straightline : exchange_ok i -> is_string (mnemonic i) && is_repeated i = false ->
  precise (execute_straightline i address : Exec Mem Ports unit).
Proof.
  unfold exchange_ok, execute_straightline. intros Hx Hrep.
  destruct (mnemonic i); lazymatch goal with
    | |- precise (string_op _ _ _ _) => by apply precise_string_op
    | |- precise (xchg _ _) => by apply precise_xchg
    | |- precise (xadd _ _) => by apply precise_xadd
    | |- precise (if ConditionCode.is_none _ then _ else _) =>
      precise_step; [precise_step | by auto with precise]
    | _ => first [ solve [auto with precise] | repeat precise_step ]
    end.
Qed.

Lemma precise_port_io first : precise (execute_port_io i address first : Exec Mem Ports unit).
Proof.
  unfold execute_port_io. apply precise_read_bind; [repeat case_match; reading|]. intros port.
  apply precise_read_bind; [repeat case_match; reading|]. intros bytes.
  apply precise_read_bind; [reading|]. intros eax.
  destruct first; apply no_fail_precise; [apply no_fail_bind|].
  - intros m. destruct (port_read _ _ _). by eexists _, _.
  - intros v. never_fails.
  - intros m. by eexists _, _.
Qed.

Context (x87_execute sse_execute : Unit_execute Mem Ports).

(** A coprocessor that leaves the machine as it was when it fails. *)
Definition unit_precise (u : Unit_execute Mem Ports) : Prop := forall i a m err m',
  mem_ok (mem m) -> u i a m = Some (Err err, m') -> m' = m.

Hypothesis x87_precise : unit_precise x87_execute.
Hypothesis sse_precise : unit_precise sse_execute.

(** [branch] that answers [None] changed nothing. *)
Lemma branch_none (m : Machine Mem Ports) m' : branch i address m = (Ok None, m') -> m' = m.
Proof.
  unfold branch, branch_target, jump_if, pop_value, push_value, mbind, exec_bind, mret, exec_ret,
    get_gpr, put_gpr, put_eip, gets, modify, fail.
  intros Hb. destruct (mnemonic i); cbn in Hb; repeat case_match; simplify_eq; done.
Qed.

Lemma precise_execute : exchange_ok i -> is_string (mnemonic i) && is_repeated i = false ->
  precise (execute x87_execute sse_execute i address).
Proof.
  intros Hx Hrep m err m' Hok. unfold execute, mbind, exec_bind.
  destruct (branch i address m) as [[[flow|]|e] m1] eqn:Hb.
  - done.
  - apply branch_none in Hb as ->.
    destruct (x87_execute i address m) as [[[u|e] m2]|] eqn:Hf; [done| |].
    { intros Hr. simplify_eq. by eapply x87_precise. }
    destruct (sse_execute i address m) as [[[u|e] m2]|] eqn:Hs; [done| |].
    { intros Hr. simplify_eq. by eapply sse_precise. }
    destruct (execute_straightline i address m) as [[u|e] m2] eqn:He; [done|].
    intros Hr. simplify_eq. by eapply precise_straightline.
  - intros Hr. simplify_eq. by eapply precise_branch.
Qed.

Lemma precise_step_decoded : exchange_ok i -> is_string (mnemonic i) && is_repeated i = false ->
  precise (step_decoded x87_execute sse_execute i address).
Proof.
  intros Hx Hrep. unfold step_decoded, advance_eip, advance_tsc.
  pose proof (precise_execute Hx Hrep) as Hexec.
  destruct (mnemonic i); apply precise_effect_bind;
    first [apply precise_port_io | exact Hexec | intros ?; never_fails].
Qed.
End DispatchPrecision.
