(* ===== verification/ExecInvariant.v ===== *)
(** * The machine invariant

    Every field of the register file keeps the width of its Rust type and the
    memory backend keeps its invariant, across every instruction.  [sound]
    is the program logic: a program run in a good machine ends in a good
    machine, and its result satisfies the postcondition. *)

From S2P Require Import Prelude GuestTypes PageTable GuestMemory Iced CpuState ExecCore ExecOps Exec AluTheorems ExecPrecise.

(** Succeeds when [x] mentions no variable. *)
Ltac closed x := tryif (match x with context [?v] => is_var v end) then fail else idtac.

(** Decides the width of a word built from the bitwise operations. *)
Ltac uword := first
  [ assumption
  | lazymatch goal with
    | |- is_u _ (Z.lor _ _) => apply is_u_lor; [lia | uword | uword]
    | |- is_u _ (Z.lxor _ _) => apply is_u_lxor; [lia | uword | uword]
    | |- is_u _ (unot _ _) => apply is_u_unot; [lia | uword]
    | |- is_u _ (Z.land _ _) =>
      first [ apply is_u_land_r; [lia | uword] | apply is_u_land_l; [lia | uword] ]
    | |- is_u _ (Z.shiftr _ _) => apply is_u_shiftr; [lia | uword]
    | |- is_u _ (wrapping_add32 _ _) => apply u32_wrapping_add
    | |- is_u _ (wrapping_sub32 _ _) => apply u32_wrapping_sub
    | |- is_u _ (wrapping_mul32 _ _) => apply u32_wrapping_mul
    | |- is_u 64 (wrap 32 _) => apply (is_u_weaken 32); [apply wrap_range; lia | lia]
    | |- is_u _ (wrap _ _) => apply wrap_range; lia
    | |- is_u _ (if _ then _ else _) => apply is_u_if; uword
    | |- is_u _ (bool_u _) => apply is_u_bool; lia
    | |- is_u _ ?x => first
      [ unfold is_u; lia
      | tryif closed x then (vm_compute; split; congruence) else fail ]
    end ].

Lemma land_low_u w k x mask : 0 <= k -> mask = Z.ones k -> k <= w -> is_u w (Z.land x mask).
Proof.
  intros Hk -> Hw. rewrite Z.land_ones by done. apply (is_u_weaken k); [|done].
  by apply wrap_range.
Qed.

Lemma from_le_bytes_u32 bs : Forall u8 bs -> (length bs <= 4)%nat -> u32 (from_le_bytes bs).
Proof. intros Hb Hl. eapply is_u_weaken; [by apply from_le_bytes_range | lia]. Qed.

Lemma Width_mask_u32 w : u32 (Width_mask w).
Proof. destruct w; cbn [Width_mask]; unfold is_u; lia. Qed.

(** ** The program logic *)

Section Soundness.
Context {Mem Ports : Type} `{GuestMemoryTyped Mem}.
Abbreviation M := (Exec Mem Ports).

Definition machine_ok (m : Machine Mem Ports) : Prop := mem_ok (mem m) /\ cpu_wf (cpu m).

Definition sound {A} (e : M A) (Q : A -> Prop) : Prop := forall m r m',
  machine_ok m -> e m = (r, m') -> machine_ok m' /\ forall a, r = Ok a -> Q a.

Lemma sound_ret {A} (a : A) (Q : A -> Prop) : Q a -> sound (mret a) Q.
Proof. intros Ha m r m' Hm Hr. injection Hr as <- <-. split; [done|]. congruence. Qed.

Lemma sound_lift {A} (x : result ExecError A) (Q : A -> Prop) :
  (forall a, x = Ok a -> Q a) -> sound (lift x) Q.
Proof. intros Hx m r m' Hm Hr. injection Hr as <- <-. done. Qed.

(** The strongest postconditions. *)
Lemma sound_ret_eq {A} (a : A) : sound (mret a) (eq a).
Proof. by apply sound_ret. Qed.
Lemma sound_lift_eq {A} (x : result ExecError A) : sound (lift x) (fun a => x = Ok a).
Proof. by apply sound_lift. Qed.

Lemma sound_fail {A} err (Q : A -> Prop) : sound (fail err) Q.
Proof. intros m r m' Hm Hr. injection Hr as <- <-. split; [done|]. congruence. Qed.

Lemma sound_gets {A} (f : CpuState -> A) (Q : A -> Prop) :
  (forall s, cpu_wf s -> Q (f s)) -> sound (gets f) Q.
Proof.
  intros Hf m r m' Hm Hr. injection Hr as <- <-. split; [done|].
  intros a [= <-]. apply Hf, Hm.
Qed.

Lemma sound_try_gets {A} (f : CpuState -> result ExecError A) (Q : A -> Prop) :
  (forall s a, cpu_wf s -> f s = Ok a -> Q a) -> sound (try_gets f) Q.
Proof. intros Hf m r m' Hm Hr. injection Hr as <- <-. split; [done|]. intros a Ha. eapply Hf, Ha. apply Hm. Qed.

Lemma sound_modify f (Q : unit -> Prop) :
  (forall s, cpu_wf s -> cpu_wf (f s)) -> Q tt -> sound (modify f) Q.
Proof.
  intros Hf HQ m r m' [Hmem Hcpu] Hr. injection Hr as <- <-. split.
  - split; [done | by apply Hf].
  - by intros [] _.
Qed.

Lemma sound_bind {A C} (e : M A) (k : A -> M C) (P : A -> Prop) (Q : C -> Prop) :
  sound e P -> (forall a, P a -> sound (k a) Q) -> sound (e ≫= k) Q.
Proof.
  intros He Hk m r m' Hm. unfold mbind, exec_bind.
  destruct (e m) as [[a|err] m1] eqn:Hem; intros Hr.
  - apply He in Hem as [Hm1 Ha]; [|done]. by eapply Hk; [apply Ha|..].
  - apply He in Hem as [Hm1 _]; [|done]. simplify_eq. split; [done|]. congruence.
Qed.

Lemma sound_get_gpr i : sound (get_gpr i) u32.
Proof. apply sound_gets. intros. by apply gpr_at_wf. Qed.

Lemma sound_put_gpr i v : u32 v -> sound (put_gpr i v) (fun _ => True).
Proof. intros. apply sound_modify; [|done]. intros. by apply set_gpr_wf. Qed.

Lemma sound_put_eip v : u32 v -> sound (put_eip v) (fun _ => True).
Proof. intros. apply sound_modify; [|done]. intros. by apply with_eip_wf. Qed.

Lemma sound_eflags : sound (gets eflags) u32.
Proof. apply sound_gets. apply eflags_wf. Qed.

Lemma sound_update_eflags f : (forall old, u32 old -> u32 (f old)) ->
  sound (update_eflags f) (fun _ => True).
Proof. intros Hf. apply sound_modify; [|done]. intros. by apply with_eflags_wf, Hf, eflags_wf. Qed.

Lemma sound_merge_flags d v : u32 d -> sound (merge_flags d v) (fun _ => True).
Proof. intros. apply sound_update_eflags. intros. uword. Qed.

Lemma sound_read_bytes a n : u32 a ->
  sound (mem_read_bytes a n) (fun bs => length bs = n /\ Forall u8 bs).
Proof.
  intros Ha m r m' [Hmem Hcpu] Hr. unfold mem_read_bytes in Hr.
  destruct (mem_read (mem m) a n) as [bs|e] eqn:Hread; cbn in Hr; simplify_eq; split; try done.
  intros bs' [= <-]. by eapply read_bytes.
Qed.

Lemma sound_write_bytes a bs : u32 a -> Forall u8 bs ->
  sound (mem_write_bytes a bs) (fun _ => True).
Proof.
  intros Ha Hbs m r m' [Hmem Hcpu] Hr. unfold mem_write_bytes in Hr.
  destruct (mem_write (mem m) a bs) as [r1 x] eqn:Hw. injection Hr as <- <-.
  split; [|done]. split; [|done]. by eapply write_ok.
Qed.

Lemma sound_write_memory a w v : u32 a -> sound (write_memory a w v) (fun _ => True).
Proof. intros. apply sound_write_bytes; [done|]. apply Forall_take, to_le_bytes_u8. Qed.

Lemma sound_read_memory a w : u32 a -> sound (read_memory a w) u32.
Proof.
  intros. eapply sound_bind; [by apply sound_read_bytes|]. intros bs [Hlen Hbs].
  apply sound_ret. replace 32 with (8 * Z.of_nat 4) by done.
  assert (Forall u8 (bs ++ replicate (Z.to_nat (4 - Width_bytes w)) 0)) as Hall.
  { apply Forall_app. split; [done|]. apply Forall_replicate. unfold is_u. lia. }
  pose proof (from_le_bytes_range _ Hall) as Hrange.
  rewrite length_app, length_replicate, Hlen in Hrange.
  by destruct w.
Qed.
End Soundness.

Lemma read_register_u32 s r a v : cpu_wf s -> read_register s r a = Ok v -> u32 v.
Proof.
  intros Hs Hr. unfold read_register in Hr. apply bind_ok_inv in Hr as (slot & _ & Hr).
  assert (forall k, u32 (gpr_at s k)) by (intros; by apply gpr_at_wf).
  destruct slot; simplify_eq; try done; apply is_u_land_r; unfold is_u; lia.
Qed.

Lemma write_register_state_wf s r v s' : cpu_wf s -> u32 v ->
  write_register_state s r v = Some s' -> cpu_wf s'.
Proof.
  intros Hs Hv Hw. unfold write_register_state in Hw.
  assert (forall k, u32 (gpr_at s k)) by (intros; by apply gpr_at_wf).
  assert (forall x, u32 (Z.shiftl (Z.land x 0xFF) 8)) as Hsh.
  { intros x. rewrite Z.shiftl_mul_pow2 by lia.
    assert (u8 (Z.land x 0xFF)) as Hb by uword. unfold is_u in *. lia. }
  repeat case_match; simplify_eq; apply set_gpr_wf; try done; uword || (apply is_u_lor; [lia|uword|apply Hsh]).
Qed.

Section OperandSoundness.
Context {Mem Ports : Type} `{GuestMemoryTyped Mem} `{Iced}.
Abbreviation M := (Exec Mem Ports).

Lemma sound_write_register r v a : u32 v -> sound (write_register r v a : M unit) (fun _ => True).
Proof.
  intros Hv m res m' [Hmem Hcpu] Hr. unfold write_register in Hr.
  destruct (write_register_state (cpu m) r v) as [s|] eqn:Hw; simplify_eq; split; try done.
  split; [done|]. by eapply write_register_state_wf.
Qed.

Lemma sound_read_register r (f : CpuState -> GuestVa) :
  sound (try_gets (fun s => read_register s r (f s)) : M Z) u32.
Proof. apply sound_try_gets. intros s v. apply read_register_u32. Qed.

Lemma sound_operand i k a : instruction_wf i ->
  sound (try_gets (fun s => operand s i k a) : M Operand) operand_ok.
Proof. intros Hi. apply sound_try_gets. intros. by eapply operand_operand_ok. Qed.

Lemma sound_effective_address i a b : instruction_wf i ->
  sound (try_gets (fun s => effective_address s i a b) : M Z) u32.
Proof. intros Hi. apply sound_try_gets. intros. by eapply effective_address_u32. Qed.

Lemma sound_read_operand op w : operand_ok op -> sound (read_operand op w : M Z) u32.
Proof.
  intros Hop. destruct op; cbn [read_operand].
  - apply (sound_read_register _ eip).
  - by apply sound_read_memory.
  - apply sound_ret, is_u_land_r; [lia | apply Width_mask_u32].
Qed.

Lemma sound_write_operand op w v : operand_ok op ->
  sound (write_operand op w v : M unit) (fun _ => True).
Proof.
  intros Hop. destruct op; cbn [write_operand].
  - eapply sound_bind; [apply sound_gets, eip_wf|]. intros a _.
    apply sound_write_register, is_u_land_r; [lia | apply Width_mask_u32].
  - by apply sound_write_memory.
  - eapply sound_bind; [apply sound_gets, eip_wf|]. intros. apply sound_fail.
Qed.

Lemma sound_push_value w v : sound (push_value w v : M unit) (fun _ => True).
Proof.
  eapply sound_bind; [apply sound_get_gpr|]. intros esp _.
  eapply sound_bind; [apply sound_write_memory; uword|]. intros _ _. apply sound_put_gpr. uword.
Qed.

Lemma sound_pop_value w : sound (pop_value w : M Z) u32.
Proof.
  eapply sound_bind; [apply sound_get_gpr|]. intros esp Hesp.
  eapply sound_bind; [by apply sound_read_memory|]. intros v Hv.
  eapply sound_bind; [apply sound_put_gpr; uword|]. intros _ _. by apply sound_ret.
Qed.

Lemma sound_put_low16 k v : u32 v -> sound (put_low16 k v : M unit) (fun _ => True).
Proof.
  intros. eapply sound_bind; [apply sound_get_gpr|]. intros old Hold. apply sound_put_gpr. uword.
Qed.

Lemma sound_advance k d : sound (advance k d : M unit) (fun _ => True).
Proof.
  eapply sound_bind; [apply sound_get_gpr|]. intros old Hold. apply sound_put_gpr. uword.
Qed.
End OperandSoundness.

(** ** Automation *)

(** Runs through a program: each command by its lemma, the widths of the
    values it stores by [uword]. *)
Ltac sound_leaf := lazymatch goal with
  | |- sound (mret _) _ => first [ apply sound_ret_eq | apply sound_ret; try done ]
  | |- sound (lift _) _ => first [ apply sound_lift_eq | apply sound_lift; intros ? ?; try done ]
  | |- sound (fail _) _ => apply sound_fail
  | |- sound (gets eflags) _ => apply sound_eflags
  | |- sound (get_gpr _) _ => apply sound_get_gpr
  | |- sound (put_gpr _ _) _ => apply sound_put_gpr; try uword
  | |- sound (put_eip _) _ => apply sound_put_eip; try uword
  | |- sound (put_low16 _ _) _ => apply sound_put_low16; try uword
  | |- sound (advance _ _) _ => apply sound_advance
  | |- sound (update_eflags _) _ => apply sound_update_eflags; intros ? ?; try uword
  | |- sound (merge_flags _ _) _ => apply sound_merge_flags; try uword
  | |- sound (push_value _ _) _ => apply sound_push_value
  | |- sound (pop_value _) _ => apply sound_pop_value
  | |- sound (mem_read_bytes _ _) _ => apply sound_read_bytes; try uword
  | |- sound (mem_write_bytes _ _) _ => apply sound_write_bytes; try uword
  | |- sound (read_memory _ _) _ => apply sound_read_memory; try uword
  | |- sound (write_memory _ _ _) _ => apply sound_write_memory; try uword
  | |- sound (read_operand _ _) _ => apply sound_read_operand; try done
  | |- sound (write_operand _ _ _) _ => apply sound_write_operand; try done
  | |- sound (write_register _ _ _) _ => apply sound_write_register; try uword
  | |- sound (try_gets (fun s => operand s _ _ _)) _ => apply sound_operand; try done
  | |- sound (try_gets (fun s => effective_address s _ _ _)) _ =>
    apply sound_effective_address; try done
  | |- sound (try_gets (fun s => read_register s _ ?a)) _ =>
    apply (sound_read_register _ (fun _ => a))
  end.

Ltac sound_step := cbn zeta; lazymatch goal with
  | |- sound (_ ≫= _) _ => first
    [ eapply sound_bind; [sound_leaf | let Hpost := fresh in intros ? Hpost; cbv beta in Hpost]
    | apply (sound_bind _ _ (fun _ => True)); [|intros ? _] ]
  | |- sound (match ?x with _ => _ end) _ => destruct x eqn:?
  | |- _ => sound_leaf
  end.

Section FamilySoundness.
Context {Mem Ports : Type} `{GuestMemoryTyped Mem} `{Iced}.
Context (i : Instruction) (address : GuestVa).
Hypothesis i_wf : instruction_wf i.
Abbreviation keeps e := (@sound Mem Ports _ _ unit e (fun _ => True)).

Lemma sound_mov : keeps (mov i address).
Proof. unfold mov. repeat sound_step. Qed.

Lemma sound_widen x : keeps (widen i address x).
Proof. unfold widen. repeat sound_step. Qed.

Lemma sound_lea : keeps (lea i address).
Proof. unfold lea. repeat sound_step. Qed.

Lemma sound_xchg : keeps (xchg i address).
Proof. unfold xchg. repeat sound_step. Qed.

Lemma sound_xadd : keeps (xadd i address).
Proof. unfold xadd. repeat sound_step. Qed.

Lemma alu_result_flags kind a b c w : u32 (alu_result kind a b c w).1.1.2.
Proof. destruct kind; cbn; repeat case_match; cbn; uword. Qed.

Lemma sound_binary_alu kind : keeps (binary_alu i address kind).
Proof.
  unfold binary_alu. do 6 sound_step. cbn zeta.
  pose proof (alu_result_flags kind a2 a3 (bool_u (flag_set a4 CARRY)) a) as Hd.
  destruct (alu_result _ _ _ _ _) as [[[r d] bits] wr]. repeat sound_step.
Qed.

Lemma sound_cmpxchg : keeps (cmpxchg i address).
Proof. unfold cmpxchg. repeat sound_step. Qed.

Lemma sound_cmpxchg8b : keeps (cmpxchg8b i address).
Proof.
  unfold cmpxchg8b. sound_step; [sound_step|]. do 2 sound_step.
  match goal with H : _ /\ Forall u8 _ |- _ => destruct H as [Hlen Hb] end.
  repeat sound_step.
  - apply Forall_app. split; apply to_le_bytes_u8.
  - apply from_le_bytes_u32; [by apply Forall_take | rewrite length_take; lia].
  - apply from_le_bytes_u32; [by apply Forall_drop | rewrite length_drop; lia].
Qed.

Lemma sound_step_by_one x : keeps (step_by_one i address x).
Proof. unfold step_by_one. repeat sound_step. Qed.

Lemma sound_neg : keeps (neg i address).
Proof. unfold neg. repeat sound_step. Qed.

Lemma sound_not : keeps (not i address).
Proof. unfold not. repeat sound_step. Qed.

Lemma shift_flags_u32 kind count r c o w : u32 (shift_flags kind count r c o w).1.
Proof. unfold shift_flags. destruct kind; repeat case_match; simplify_eq/=; uword. Qed.

Lemma sound_shift kind : keeps (shift i address kind).
Proof.
  unfold shift. sound_step.
  apply (sound_bind _ _ (fun _ => True)); [by apply sound_try_gets|]. intros count _.
  do 2 sound_step. sound_step; [sound_step|]. sound_step. cbn zeta.
  destruct (shift_result _ _ _ _ _) as [[r c] o]. sound_step.
  pose proof (shift_flags_u32 kind count r c o a) as Hd.
  destruct (shift_flags _ _ _ _ _ _) as [d v]. sound_step.
Qed.

Lemma sound_double_shift x : keeps (double_shift i address x).
Proof.
  unfold double_shift. do 2 sound_step; [sound_step|].
  apply (sound_bind _ _ (fun _ => True)); [by apply sound_try_gets|]. intros count _.
  repeat sound_step.
Qed.

Lemma sound_mul : keeps (mul i address).
Proof. unfold mul. repeat sound_step. Qed.

Lemma sound_imul : keeps (imul i address).
Proof. unfold imul, imul_wide, imul_narrow. repeat sound_step. Qed.

Lemma sound_bswap : keeps (bswap i address).
Proof.
  unfold bswap. repeat sound_step.
  apply from_le_bytes_u32; [apply Forall_rev, to_le_bytes_u8 | by rewrite length_rev, length_to_le_bytes].
Qed.

Lemma sound_bit_scan x : keeps (bit_scan i address x).
Proof. unfold bit_scan. repeat sound_step. Qed.

Lemma sound_conditional : keeps (conditional i address).
Proof. unfold conditional. repeat sound_step. Qed.

Lemma divide_range full half dividend d sg q r : 0 < half <= 32 -> 0 <= dividend ->
  0 < d < 2 ^ half -> divide full half dividend d sg = Some (q, r) -> is_u half q /\ is_u half r.
Proof.
  intros Hh Hn Hd Hq. unfold divide in Hq. destruct sg.
  - case_match; simplify_eq. split; apply wrap_range; lia.
  - destruct (Z.ltb_spec (2 ^ half - 1) (dividend / d)); simplify_eq. split.
    + split; [by apply Z.div_pos; lia | lia].
    + pose proof (Z.mod_pos_bound dividend d). unfold is_u. lia.
Qed.

Lemma divisor_range x w : (Z.land x (Width_mask w) =? 0) = false ->
  0 < Z.land x (Width_mask w) < 2 ^ Width_bits w.
Proof.
  intros Hnz%Z.eqb_neq.
  assert (is_u (Width_bits w) (Z.land x (Width_mask w))) as [? ?]; [|lia].
  apply (land_low_u _ (Width_bits w)); by destruct w.
Qed.

Lemma sound_div sg : keeps (div i address sg).
Proof.
  unfold div. do 3 sound_step. cbn zeta. sound_step; [sound_step|]. do 2 sound_step.
  match goal with H : (_ =? 0) = false |- _ => apply divisor_range in H as Hd end.
  assert (0 <= a2 /\ 0 <= a3) as [Ha2 Ha3] by (unfold is_u in *; lia).
  sound_step; (sound_step; destruct a4 as [q r];
    match goal with H : ok_or _ _ = Ok _ |- _ => apply ok_or_ok, divide_range in H as [Hq Hr] end;
    [ | lia | rewrite ?Z.lor_nonneg, ?Z.shiftl_nonneg, ?Z.land_nonneg; lia | exact Hd]).
  - apply sound_put_gpr. assert (u32 (Z.shiftl r 8)).
    { rewrite Z.shiftl_mul_pow2 by lia. unfold is_u in *. lia. }
    assert (u32 q) by (apply (is_u_weaken 8); [done|lia]). uword.
  - assert (u32 q) by (apply (is_u_weaken 16); [done|lia]).
    assert (u32 r) by (apply (is_u_weaken 16); [done|lia]). repeat sound_step.
  - repeat sound_step.
Qed.

Lemma sound_bit_location w :
  sound (bit_location i address w : Exec Mem Ports _) (fun place => operand_ok place.1).
Proof.
  intros m r m' Hm Hr. pose proof (reads_only_bit_location i address w m) as Hro.
  rewrite Hr in Hro. cbn in Hro. subst. split; [done|]. intros [target bit] ->.
  eapply bit_location_ok; [done|]. by rewrite Hr.
Qed.

Lemma sound_bit_test op : keeps (bit_test i address op).
Proof.
  unfold bit_test. do 2 sound_step; [sound_step|].
  eapply sound_bind; [apply sound_bit_location|]. intros [target bit] Ht. cbn [fst] in Ht.
  repeat sound_step.
Qed.

Lemma sound_push : keeps (push i address).
Proof. unfold push. repeat sound_step. Qed.

Lemma sound_on_error {A} (e : Exec Mem Ports A) h (Q : A -> Prop) : sound e Q ->
  (forall s, cpu_wf s -> cpu_wf (h s)) -> sound (on_error e h) Q.
Proof.
  intros He Hh m r m' Hm Hr. unfold on_error in Hr.
  destruct (e m) as [[a|err] m1] eqn:Hem; apply He in Hem as [[Hmem Hcpu] Ha]; [|done| |done];
    simplify_eq; (split; [|done]); split; try done. by apply Hh.
Qed.

Lemma sound_pop : keeps (pop i address).
Proof.
  unfold pop. do 4 sound_step. apply sound_on_error; [repeat sound_step|].
  intros. by apply set_gpr_wf.
Qed.

Lemma sound_pushad : keeps pushad.
Proof.
  unfold pushad. sound_step.
  apply (sound_bind _ _ (Forall u8)); [|intros; repeat sound_step].
  apply sound_gets. intros s _. unfold pushad_frame. cbn [flat_map].
  rewrite !Forall_app. split_and!; try apply to_le_bytes_u8. constructor.
Qed.

Lemma frame_value_u32 frame k : Forall u8 frame -> u32 (frame_value frame k).
Proof.
  intros. apply from_le_bytes_u32; [by apply Forall_take, Forall_drop|].
  rewrite length_take. lia.
Qed.

Lemma sound_popad : keeps popad.
Proof.
  unfold popad. do 2 sound_step.
  match goal with H : _ /\ Forall u8 _ |- _ => destruct H as [_ Hb] end.
  repeat sound_step; by apply frame_value_u32.
Qed.

Lemma sound_popfd : keeps popfd.
Proof. unfold popfd. repeat sound_step. Qed.

Lemma sound_leave : keeps (leave i address).
Proof. unfold leave. repeat sound_step. Qed.

Lemma sound_fldcw : keeps (fldcw i address).
Proof. unfold fldcw. do 2 sound_step. apply sound_modify; [|done]. intros. by apply with_x87_wf. Qed.

Lemma sound_string_element kind w sb db : keeps (string_element address kind w sb db).
Proof. unfold string_element. destruct kind; repeat sound_step. Qed.

Lemma sound_branch : sound (branch i address : Exec Mem Ports (option Flow)) (fun _ => True).
Proof.
  assert (u32 (near_branch32 i)) by apply i_wf.
  unfold branch, jump_if. destruct (mnemonic i); cbn zeta;
    repeat lazymatch goal with
    | |- sound (branch_target _ _ ≫= _) _ => apply (sound_bind _ _ u32); [|intros ? ?]
    | |- sound (branch_target _ _) _ => unfold branch_target
    | |- _ => sound_step
    end.
Qed.
End FamilySoundness.

(** ** Repeated strings *)

Section StringLoop.
Context {Mem Ports : Type} `{GuestMemoryTyped Mem} `{Iced}.
Context (i : Instruction) (address : GuestVa) (kind : StringKind) (w : Width).
Context (sb db : Z) (repeated continue_on_zero : bool).
Abbreviation loop := (string_loop (Mem := Mem) (Ports := Ports)).
Abbreviation element := (string_element (Mem := Mem) (Ports := Ports) address kind w sb db).

Lemma decrement_ecx_ok (m : Machine Mem Ports) v : machine_ok m ->
  machine_ok (with_cpu m (set_gpr (cpu m) 1 (wrapping_sub32 v 1))).
Proof. intros [? ?]. split; [done|]. by apply set_gpr_wf; [|apply u32_wrapping_sub]. Qed.

Lemma string_loop_sound fuel n m r m' : machine_ok m ->
  loop fuel i address kind w sb db repeated continue_on_zero n m = Some (r, m') -> machine_ok m'.
Proof.
  revert n m. induction fuel as [|fuel IH]; intros n m Hm Hl; cbn [string_loop] in Hl; [done|].
  case_match; [by simplify_eq|]. case_match.
  { simplify_eq. destruct Hm. split; [done|]. apply with_eip_wf; [done | apply u32_wrapping_sub]. }
  destruct (string_element _ _ _ _ _ m) as [[[]|e] m1] eqn:He;
    apply sound_string_element in He as [Hm1 _]; [|done| |done]; [|by simplify_eq].
  case_match; [by simplify_eq|]. case_match; [by simplify_eq; apply decrement_ecx_ok|].
  eapply IH, Hl. by apply decrement_ecx_ok.
Qed.

(** The fuel is enough: the loop ends within the iteration bound. *)
Lemma string_loop_total fuel n m : 0 <= n <= MAX_REP_ITERATIONS_PER_STEP ->
  MAX_REP_ITERATIONS_PER_STEP - n < Z.of_nat fuel ->
  is_Some (loop fuel i address kind w sb db repeated continue_on_zero n m).
Proof.
  revert n m. induction fuel as [|fuel IH]; intros n m Hn Hf; [lia|]. cbn [string_loop].
  case_match; [done|].
  destruct (repeated && (n =? MAX_REP_ITERATIONS_PER_STEP)) eqn:Hmax; [done|].
  destruct (string_element _ _ _ _ _ m) as [[u|e] m1]; [|done].
  destruct repeated; [|done]. cbn [negb andb] in *. apply Z.eqb_neq in Hmax.
  case_match; [done|]. apply IH; lia.
Qed.

Lemma run_string_loop m :
  loop string_fuel i address kind w sb db repeated continue_on_zero 0 m =
  Some (run_string i address kind w sb db repeated continue_on_zero m).
Proof.
  unfold run_string.
  destruct (string_loop_total string_fuel 0 m) as [x Hx].
  - unfold MAX_REP_ITERATIONS_PER_STEP. lia.
  - unfold string_fuel, MAX_REP_ITERATIONS_PER_STEP. lia.
  - by rewrite Hx.
Qed.

Lemma sound_run_string :
  sound (run_string i address kind w sb db repeated continue_on_zero : Exec Mem Ports unit)
    (fun _ => True).
Proof.
  intros m r m' Hm Hr. split; [|done]. eapply (string_loop_sound string_fuel 0 m); [done|].
  rewrite run_string_loop. by rewrite Hr.
Qed.
End StringLoop.

(** ** Dispatch *)

Create HintDb sound discriminated.
#[export] Hint Constants Opaque : sound.
#[export] Hint Resolve sound_binary_alu sound_mov sound_widen sound_lea sound_xchg sound_xadd
  sound_cmpxchg sound_cmpxchg8b sound_step_by_one sound_neg sound_not sound_shift
  sound_double_shift sound_mul sound_imul sound_div sound_bswap sound_bit_test sound_bit_scan
  sound_conditional sound_push sound_pop sound_pushad sound_popad sound_popfd sound_leave
  sound_fldcw sound_run_string : sound.

Section DispatchSoundness.
Context {Mem Ports : Type} `{GuestMemoryTyped Mem} `{PortBus Ports} `{Iced}.
Context (i : Instruction) (address : GuestVa).
Hypothesis i_wf : instruction_wf i.
Abbreviation keeps e := (@sound Mem Ports _ _ unit e (fun _ => True)).

Lemma sound_string_op kind w : keeps (string_op i address kind w).
Proof.
  unfold string_op. sound_step; [sound_step|]. cbn zeta.
  apply (sound_bind _ _ (fun _ => True)); [by apply sound_try_gets|]. intros ? _.
  apply (sound_bind _ _ (fun _ => True)); [by apply sound_gets|]. intros ? _.
  apply sound_run_string.
Qed.

Lemma cpuid_wf s : cpu_wf s -> cpu_wf (cpuid s).
Proof. intros Hs. unfold cpuid. repeat case_match; simplify_eq; repeat apply set_gpr_wf; try done; uword. Qed.

Lemma shl_byte_u32 low : u8 low -> u32 (Z.shiftl low 8).
Proof. intros Hl. rewrite Z.shiftl_mul_pow2 by lia. unfold is_u in *. lia. Qed.

Lemma sound_straightline : keeps (execute_straightline i address).
Proof.
  unfold execute_straightline. destruct (mnemonic i); lazymatch goal with
    | |- sound (string_op _ _ _ _) _ => apply sound_string_op
    | |- sound (modify cpuid) _ => apply sound_modify; [apply cpuid_wf | done]
    | |- sound (if ConditionCode.is_none _ then _ else _) _ =>
      sound_step; [sound_step | by auto with sound]
    | |- sound (gets tsc ≫= _) _ =>
      apply (sound_bind _ _ (fun _ => True)); [by apply sound_gets | intros ? _; repeat sound_step]
    | _ => first [ solve [auto with sound] | repeat sound_step ]
    end.
  apply is_u_lor; [lia | uword | apply shl_byte_u32; uword].
Qed.

Lemma sound_port_io first : keeps (execute_port_io i address first).
Proof.
  unfold execute_port_io. apply (sound_bind _ _ (fun _ => True)); [repeat sound_step|]. intros port _.
  apply (sound_bind _ _ (fun _ => True)); [repeat sound_step|]. intros bytes _.
  sound_step. cbn zeta.
  assert (u32 (match bytes with 1 => 0xFF | 2 => 0xFFFF | _ => U32_MAX end)) as Hmask.
  { unfold U32_MAX. repeat case_match; uword. }
  destruct first.
  - apply (sound_bind _ _ (fun _ => True)); [|intros v _; sound_step].
    intros m r m' Hm Hr. destruct (port_read (bus m) port bytes) as [v p].
    injection Hr as <- <-. by split.
  - intros m r m' Hm Hr. injection Hr as <- <-. by split.
Qed.

Context (x87_execute sse_execute : Unit_execute Mem Ports).

(** A coprocessor that keeps the machine invariant. *)
Definition unit_sound (u : Unit_execute Mem Ports) : Prop := forall i a m r m',
  machine_ok m -> u i a m = Some (r, m') -> machine_ok m'.

Hypothesis x87_sound : unit_sound x87_execute.
Hypothesis sse_sound : unit_sound sse_execute.

Lemma sound_execute : sound (execute x87_execute sse_execute i address) (fun _ => True).
Proof.
  unfold execute. eapply sound_bind; [by apply sound_branch|]. intros [flow|] _; [sound_step|].
  intros m r m' Hm Hr. split; [|done].
  destruct (x87_execute i address m) as [[[u|e] m1]|] eqn:Hf;
    [simplify_eq; by eapply x87_sound.. |].
  destruct (sse_execute i address m) as [[[u|e] m1]|] eqn:Hs;
    [simplify_eq; by eapply sse_sound.. |].
  destruct (execute_straightline i address m) as [[u|e] m1] eqn:He; simplify_eq;
    by eapply sound_straightline.
Qed.

Lemma sound_advance_eip : keeps (advance_eip i).
Proof. apply sound_modify; [|done]. intros. apply with_eip_wf; [done | apply u32_wrapping_add]. Qed.

Lemma sound_advance_tsc : keeps advance_tsc.
Proof. apply sound_modify; [|done]. intros. apply with_tsc_wf; [done|]. by apply wrap_range. Qed.

Lemma sound_step_decoded : keeps (step_decoded x87_execute sse_execute i address).
Proof.
  unfold step_decoded. destruct (mnemonic i);
    (eapply sound_bind; [first [apply sound_execute | apply sound_port_io]|]; intros ? _);
    (eapply sound_bind; [|intros; apply sound_advance_tsc]); try apply sound_advance_eip;
    (case_match; [apply sound_advance_eip | by apply sound_ret]).
Qed.
End DispatchSoundness.

(** ** Decoding *)

Section Decoding.
Context {Mem : Type} `{GuestMemoryTyped Mem} `{IcedLaws}.

Lemma decode_at_wf pc (m : Mem) a i : u32 pc -> decode_at pc m a = Ok i ->
  instruction_wf i /\ exchange_ok i.
Proof.
  intros Hpc Hd. assert (u64 pc) as Hpc64 by (apply (is_u_weaken 32); [done|lia]).
  unfold decode_at in Hd. apply bind_ok_inv in Hd as (buffer & _ & Hd).
  destruct (iced_decode buffer pc) as [j|[]] eqn:Hj; simplify_eq.
  - by apply decode_wf in Hj as (? & _ & ?).
  - case_match; [|done]. apply bind_ok_inv in Hd as (rest & _ & Hd).
    destruct (iced_decode (buffer ++ rest) pc) as [j|] eqn:Hj2; simplify_eq.
    by apply decode_wf in Hj2 as (? & _ & ?).
Qed.
End Decoding.

Lemma sound_step_with_ports {Mem Ports} `{GuestMemoryTyped Mem} `{PortBus Ports} `{IcedLaws}
    (x87_execute sse_execute : Unit_execute Mem Ports) :
  unit_sound x87_execute -> unit_sound sse_execute ->
  sound (step_with_ports x87_execute sse_execute) (fun _ => True).
Proof.
  intros Hf Hs. unfold step_with_ports. eapply sound_bind; [apply sound_gets, eip_wf|].
  intros pc Hpc. apply (sound_bind _ _ instruction_wf).
  - intros m r m' Hm Hr. injection Hr as <- <-. split; [done|].
    intros i Hi. by apply decode_at_wf in Hi as [? _].
  - intros i Hi. by apply sound_step_decoded.
Qed.

