(* ===== verification/StepTheorems.v ===== *)
(** * Whole steps

    What one step of the interpreter guarantees, for any memory backend, any
    decoder and any coprocessors that keep their contracts: precise faults, with
    restartable string instructions. *)

From S2P Require Import Prelude GuestTypes PageTable GuestMemory SoftwareSpace SpaceTheorems Iced CpuState ExecCore ExecOps Exec AluTheorems ExecPrecise ExecInvariant.

(** ** The coprocessor contract *)

(** What [x87::execute] and [sse::execute] promise the dispatcher: a fault
    leaves the machine as it was, the invariant is kept, and whether a unit
    owns an instruction does not depend on the machine. *)
Class Coprocessor {Mem Ports} `{GuestMemoryTyped Mem} (u : Unit_execute Mem Ports) : Prop := {
  co_precise : unit_precise u;
  co_sound : unit_sound u;
  co_static i a m m' : u i a m = None -> u i a m' = None;
}.

(** The unit that owns nothing. *)
Definition no_unit {Mem Ports} : Unit_execute Mem Ports := fun _ _ _ => None.
#[export] Instance no_unit_coprocessor {Mem Ports} `{GuestMemoryTyped Mem} :
  Coprocessor (no_unit (Mem := Mem) (Ports := Ports)).
Proof. by split. Qed.

(** ** What a string element leaves alone *)

(** Everything but the general registers and the flags. *)
Definition same_control (s s' : CpuState) : Prop :=
  eip s' = eip s /\ segments s' = segments s /\ xmm s' = xmm s /\ mxcsr s' = mxcsr s /\
  x87 s' = x87 s /\ tsc s' = tsc s.

Section Framed.
Context {Mem Ports : Type} `{GuestMemory Mem}.
Abbreviation M := (Exec Mem Ports).

Definition framed {A} (e : M A) : Prop := forall m, same_control (cpu m) (cpu (e m).2).

Lemma framed_reads {A} (e : M A) : reads_only e -> framed e.
Proof. intros He m. rewrite He. by unfold same_control. Qed.

Lemma framed_bind {A C} (e : M A) (k : A -> M C) :
  framed e -> (forall a, framed (k a)) -> framed (e ≫= k).
Proof.
  intros He Hk m. specialize (He m). unfold mbind, exec_bind.
  destruct (e m) as [[a|err] m1]; cbn [snd] in *; [|done].
  specialize (Hk a m1). unfold same_control in *. intuition congruence.
Qed.

Lemma framed_put_gpr k v : framed (put_gpr k v : M unit).
Proof. intros m. by unfold same_control. Qed.
Lemma framed_merge_flags d v : framed (merge_flags d v : M unit).
Proof. intros m. by unfold same_control. Qed.
Lemma framed_advance k d : framed (advance k d : M unit).
Proof. apply framed_bind; [by apply framed_reads|]. intros. apply framed_put_gpr. Qed.
Lemma framed_write_register r v a : framed (write_register r v a : M unit).
Proof.
  intros m. unfold write_register, write_register_state.
  destruct (register_slot r) as [[]|]; by unfold same_control.
Qed.
Lemma framed_write_memory a w v : framed (write_memory a w v : M unit).
Proof.
  intros m. unfold write_memory, mem_write_bytes. destruct (mem_write (mem m) _ _). by unfold same_control.
Qed.

Lemma framed_string_element a kind w sb db : framed (string_element a kind w sb db : M unit).
Proof.
  unfold string_element. destruct kind; repeat (cbn zeta; lazymatch goal with
    | |- framed (merge_flags _ _) => apply framed_merge_flags
    | |- framed (advance _ _) => apply framed_advance
    | |- framed (write_register _ _ _) => apply framed_write_register
    | |- framed (write_memory _ _ _) => apply framed_write_memory
    | |- framed (_ ≫= _) => apply framed_bind; [|intros ?]
    | |- framed (match ?x with _ => _ end) => destruct x
    | |- framed _ => apply framed_reads; reading
    end).
Qed.
End Framed.

(** ** Faults *)

Section Faults.
Context {Mem Ports : Type} `{GuestMemoryLaws Mem} `{PortBus Ports} `{Iced}.
Context (i : Instruction) (address : GuestVa).
Hypothesis i_wf : instruction_wf i.

(** A repeated string stops in the element that faults: running it again from
    there faults at once, with nothing changed. *)
Lemma string_loop_fault fuel kind w sb db z n (m : Machine Mem Ports) err m' : machine_ok m ->
  string_loop fuel i address kind w sb db true z n m = Some (Err err, m') ->
  same_control (cpu m) (cpu m') /\
  run_string i address kind w sb db true z m' = (Err err, m').
Proof.
  revert n m. induction fuel as [|fuel IH]; intros n m Hm Hl; cbn [string_loop andb] in Hl; [done|].
  destruct (gpr_at (cpu m) 1 =? 0) eqn:Hecx; [done|].
  case_match; [done|].
  destruct (string_element _ _ _ _ _ m) as [[[]|e] m1] eqn:He.
  - pose proof (framed_string_element address kind w sb db m) as Hf. rewrite He in Hf.
    apply sound_string_element in He as [Hm1 _]; [|done].
    cbn [negb snd] in *. case_match; [done|].
    apply IH in Hl as [Hc Hr]; [|by apply decrement_ecx_ok].
    split; [|done]. unfold same_control in *. cbn in *. intuition congruence.
  - simplify_eq. assert (m' = m) as ->.
    { eapply precise_string_element; [apply Hm | exact He]. }
    split; [by unfold same_control|]. unfold run_string.
    generalize string_fuel_succ. generalize (Z.to_nat MAX_REP_ITERATIONS_PER_STEP).
    intros k ->. cbn [string_loop andb]. by rewrite Hecx, He.
Qed.

Lemma string_op_fault kind w (m : Machine Mem Ports) err m' : machine_ok m ->
  is_repeated i = true -> string_op i address kind w m = (Err err, m') ->
  same_control (cpu m) (cpu m') /\ string_op i address kind w m' = (Err err, m').
Proof.
  intros Hm Hrep. unfold string_op. fold (is_repeated i). rewrite Hrep.
  destruct (string_operands_valid i kind); cbn [negb].
  2: { intros [= <- <-]. by split; [unfold same_control|]. }
  cbn zeta. unfold mbind, exec_bind, try_gets, gets.
  destruct (segment_base (cpu m) (memory_segment i) address) as [sb|e] eqn:Hsb.
  2: { intros [= <- <-]. rewrite Hsb. by split; [unfold same_control|]. }
  intros Hr. pose proof (run_string_loop i address kind w sb
    (base (CpuState_segment (cpu m) Es)) true (negb (has_repne_prefix i)) m) as Hl.
  rewrite Hr in Hl. apply string_loop_fault in Hl as [Hc Hagain]; [|done]. split; [done|].
  assert (segments (cpu m') = segments (cpu m)) as Hseg by apply Hc.
  assert (forall g, CpuState_segment (cpu m') g = CpuState_segment (cpu m) g) as Hg
    by (intros g; unfold CpuState_segment; by rewrite Hseg).
  assert (segment_base (cpu m') (memory_segment i) address = Ok sb) as ->.
  { rewrite <- Hsb. unfold segment_base. by rewrite !Hg. }
  by rewrite Hg.
Qed.
End Faults.

Section StepFaults.
Context {Mem Ports : Type} `{GuestMemoryLaws Mem} `{PortBus Ports} `{IcedLaws}.
Context (x87_execute sse_execute : Unit_execute Mem Ports).
Context `{!Coprocessor x87_execute} `{!Coprocessor sse_execute}.
Context (i : Instruction) (address : GuestVa).
Hypothesis i_wf : instruction_wf i.

(** A string mnemonic is never a branch in one machine and not in another. *)
Lemma string_branch_none (m m' : Machine Mem Ports) m1 : is_string (mnemonic i) = true ->
  branch i address m = (Ok None, m1) -> branch i address m' = (Ok None, m').
Proof.
  intros Hs. unfold branch. destruct (mnemonic i); try done; cbn zeta;
    cbn [mnemonic_class]; repeat case_match; try done;
    unfold jump_if, mbind, exec_bind, gets; cbn; repeat case_match; done.
Qed.

(** The straight-line part of a string instruction. *)
Lemma straightline_string : is_string (mnemonic i) = true -> exists kind w,
  execute_straightline (Mem := Mem) (Ports := Ports) i address = string_op i address kind w.
Proof. intros Hs. unfold execute_straightline. destruct (mnemonic i); try done; by eexists _, _. Qed.

Lemma execute_string_fault (m : Machine Mem Ports) err m' : machine_ok m ->
  is_string (mnemonic i) && is_repeated i = true ->
  execute x87_execute sse_execute i address m = (Err err, m') ->
  m' = m \/ same_control (cpu m) (cpu m') /\
            execute x87_execute sse_execute i address m' = (Err err, m').
Proof.
  intros Hm [Hs Hrep]%andb_true_iff. unfold execute at 1. unfold mbind, exec_bind.
  destruct (branch i address m) as [[[flow|]|e] m1] eqn:Hb; [done| |].
  2: { intros [= <- <-]. left. eapply precise_branch; [apply Hm | exact Hb]. }
  pose proof (branch_none i address m m1 Hb) as ->.
  destruct (x87_execute i address m) as [[[u|e] m2]|] eqn:Hx; [done| |].
  { intros [= <- <-]. left. by eapply (co_precise (u := x87_execute)); [apply Hm|]. }
  destruct (sse_execute i address m) as [[[u|e] m2]|] eqn:Hy; [done| |].
  { intros [= <- <-]. left. by eapply (co_precise (u := sse_execute)); [apply Hm|]. }
  destruct straightline_string as (kind & w & Heq); [done|]. rewrite Heq.
  destruct (string_op i address kind w m) as [[u|e] m2] eqn:Hop; [done|].
  intros [= <- <-]. right. apply string_op_fault in Hop as [Hc Hagain]; [|done..].
  split; [done|]. unfold execute, mbind, exec_bind.
  rewrite (string_branch_none _ m2 _ Hs Hb), (co_static _ _ _ m2 Hx), (co_static _ _ _ m2 Hy).
  by rewrite Heq, Hagain.
Qed.

(** A step fails exactly where its execution does. *)
Lemma step_decoded_string (m : Machine Mem Ports) err m' : is_string (mnemonic i) = true ->
  step_decoded x87_execute sse_execute i address m = (Err err, m') <->
  execute x87_execute sse_execute i address m = (Err err, m').
Proof.
  intros Hs. assert (step_decoded x87_execute sse_execute i address =
    (flow ← execute x87_execute sse_execute i address;
     _ ← match flow with Next => advance_eip i | Jumped => mret tt end; advance_tsc)) as ->.
  { unfold step_decoded. by destruct (mnemonic i). }
  unfold mbind, exec_bind.
  destruct (execute _ _ i address m) as [[[]|e] m1]; split; intros Hr; simplify_eq/=; done.
Qed.

Lemma step_decoded_fault (m : Machine Mem Ports) err m' : machine_ok m -> exchange_ok i ->
  step_decoded x87_execute sse_execute i address m = (Err err, m') ->
  m' = m \/ is_string (mnemonic i) && is_repeated i = true /\
    same_control (cpu m) (cpu m') /\
    step_decoded x87_execute sse_execute i address m' = (Err err, m').
Proof.
  intros Hm Hx Hr. destruct (is_string (mnemonic i) && is_repeated i) eqn:Hrep.
  - assert (is_string (mnemonic i) = true) as Hs by (by apply andb_true_iff in Hrep as [? _]).
    apply step_decoded_string in Hr; [|done].
    apply execute_string_fault in Hr as [->|[Hc Hagain]]; [by left| |done..].
    right. split; [done|]. split; [done|]. by apply step_decoded_string.
  - left. eapply precise_step_decoded; try done; try apply co_precise. apply Hm.
Qed.
End StepFaults.

(** ** Faults *)


(** ** A concrete machine *)

(** The demo space with an executable page at [0x5000] that holds
    [ret; nop]. *)
Definition demo_code_space : SoftwareAddressSpace :=
  (map_anonymous demo_space (mkGuestRange 0x5000 0x1000)
     (Z.lor (Z.lor PERM_READ PERM_WRITE) PERM_EXECUTE)).2.
Definition demo_code : SoftwareAddressSpace := (space_write demo_code_space 0x5000 [0xC3; 0x90]).2.

Definition demo_machine (pc esp : Z) : Machine SoftwareAddressSpace unit :=
  mkMachine (with_eip (set_gpr CpuState_default 4 esp) pc) demo_code tt.

#[local] Existing Instance DemoIced.
#[local] Existing Instance demo_iced_laws.

Lemma demo_code_ok : ram_ok demo_code.
Proof.
  apply (write_ram_ok demo_code_space 0x5000 [0xC3; 0x90] (Ok tt) demo_code).
  - assert (physical demo_code_space = ∅ /\ physical_len demo_code_space = 0x8000) as [Hp Hl]
      by (vm_compute; done).
    unfold ram_ok. rewrite Hp, Hl. split; [reflexivity | apply map_Forall_empty].
  - unfold is_u; lia.
  - repeat constructor; unfold is_u; lia.
  - by vm_compute.
Defined.

Lemma demo_machine_ok pc esp : u32 pc -> u32 esp -> machine_ok (demo_machine pc esp).
Proof.
  intros Hpc Hesp. split; [exact demo_code_ok|].
  apply with_eip_wf; [|done]. by apply set_gpr_wf; [apply cpu_default_wf|].
Qed.

