(* ===== verification/StringTheorems.v ===== *)
(** * Stack and string instructions

    Push and pop, [pushad] and [popad], call and return are inverse; a repeated
    string goes as far as its bound in one step, and resumes. *)

From S2P Require Import Prelude GuestTypes PageTable GuestMemory SoftwareSpace SpaceTheorems Iced CpuState ExecCore ExecOps Exec AluTheorems ExecPrecise ExecInvariant StepTheorems.

(** ** The stack *)

(** ** Writing, then reading back *)

Section WriteRead.
Context {Mem Ports : Type} `{GuestMemoryLaws Mem}.
Abbreviation machine := (Machine Mem Ports).

(** The guest may read [n] bytes at [a]. *)
Definition readable (m : machine) (a : GuestVa) (n : nat) : Prop :=
  is_ok (mem_read (mem m) a n) = true.

Lemma write_then_read a bs (m m1 : machine) : mem_ok (mem m) -> u32 a -> Forall u8 bs ->
  (length bs <= 4096)%nat -> readable m a (length bs) ->
  mem_write_bytes a bs m = (Ok tt, m1) ->
  m1 = with_mem m (mem m1) /\ mem_read_bytes a (length bs) m1 = (Ok bs, m1).
Proof.
  intros Hm Ha Hbs Hlen Hr. unfold mem_write_bytes, mem_read_bytes.
  destruct (mem_write (mem m) a bs) as [[[]|e] x] eqn:Hw; intros [= <-].
  cbn [mem with_mem]. split; [done|].
  by rewrite (read_back (mem m) a bs x) by done.
Qed.

(** The bytes a store of width [w] writes. *)
Lemma store_bytes w v :
  take (Z.to_nat (Width_bytes w)) (to_le_bytes 4 v) = to_le_bytes (Z.to_nat (Width_bytes w)) v.
Proof. by destruct w. Qed.

Lemma write_then_read_memory a w v (m m1 : machine) : mem_ok (mem m) -> u32 a ->
  readable m a (Z.to_nat (Width_bytes w)) -> write_memory a w v m = (Ok tt, m1) ->
  m1 = with_mem m (mem m1) /\ read_memory a w m1 = (Ok (wrap (Width_bits w) v), m1).
Proof.
  intros Hm Ha Hr. unfold write_memory, read_memory. rewrite store_bytes. intros Hw.
  apply write_then_read in Hw as [Hm1 Hread]; try done;
    rewrite ?length_to_le_bytes in *; try done; [|apply to_le_bytes_u8|destruct w; cbn; lia].
  split; [done|]. unfold mbind, exec_bind. rewrite Hread. unfold mret, exec_ret. f_equal. f_equal.
  rewrite from_le_bytes_app_zeros, from_to_le_bytes. by destruct w.
Qed.

Lemma push_value_inv w v (m m1 : machine) : push_value w v m = (Ok tt, m1) ->
  exists m0, write_memory (wrapping_sub32 (gpr_at (cpu m) 4) (Width_bytes w)) w v m = (Ok tt, m0) /\
    m1 = with_cpu m0 (set_gpr (cpu m0) 4 (wrapping_sub32 (gpr_at (cpu m) 4) (Width_bytes w))).
Proof.
  unfold push_value, get_gpr, put_gpr, gets, modify, mbind, exec_bind. cbn zeta.
  destruct (write_memory _ w v m) as [[[]|e] m0]; [|done]. intros [= <-]. by exists m0.
Qed.

Lemma gpr_at_esp s v : cpu_wf s -> gpr_at (set_gpr s 4 v) 4 = v.
Proof. intros Hs. rewrite gpr_at_set by (rewrite (gpr_length s); [lia|done]). by case_decide. Qed.

(** A read of memory depends on the memory alone. *)
Lemma read_memory_mem a w v (m m' : machine) : mem m' = mem m ->
  read_memory a w m = (Ok v, m) -> read_memory a w m' = (Ok v, m').
Proof.
  intros He. unfold read_memory, mem_read_bytes, mbind, exec_bind, mret, exec_ret. rewrite He.
  destruct (map_err Memory _); [|done]. by intros [= ->].
Qed.

(** The machine a push leaves, and what any machine with its memory and stack
    pointer then pops. *)
Lemma push_then_pop w v (m m1 : machine) : machine_ok m ->
  readable m (wrapping_sub32 (gpr_at (cpu m) 4) (Width_bytes w)) (Z.to_nat (Width_bytes w)) ->
  push_value w v m = (Ok tt, m1) ->
  cpu m1 = set_gpr (cpu m) 4 (wrapping_sub32 (gpr_at (cpu m) 4) (Width_bytes w)) /\
  bus m1 = bus m /\
  forall m' : machine, mem m' = mem m1 -> gpr_at (cpu m') 4 = gpr_at (cpu m1) 4 ->
    pop_value w m' = (Ok (wrap (Width_bits w) v),
                      with_cpu m' (set_gpr (cpu m') 4 (gpr_at (cpu m) 4))).
Proof.
  intros [Hmem Hcpu] Hr (m0 & Hw & ->)%push_value_inv.
  apply write_then_read_memory in Hw as [Hm0 Hread]; [|done|apply u32_wrapping_sub|done].
  assert (cpu m0 = cpu m /\ bus m0 = bus m) as [Hc Hb] by (by rewrite Hm0).
  cbn [cpu bus mem with_cpu]. rewrite Hc, Hb. split; [done|]. split; [done|].
  intros m' He Hsp. rewrite gpr_at_esp in Hsp by done.
  apply (read_memory_mem _ _ _ _ m') in Hread; [|done].
  unfold pop_value, get_gpr, put_gpr, gets, modify, mbind, exec_bind. rewrite Hsp, Hread.
  unfold mret, exec_ret. by rewrite wrapping_add_sub by by apply gpr_at_wf.
Qed.

(** ** [pushad] and [popad] *)

Lemma length_pushad_frame s : length (pushad_frame s) = 32%nat.
Proof. done. Qed.

Lemma pushad_frame_u8 s : Forall u8 (pushad_frame s).
Proof.
  unfold pushad_frame. cbn [flat_map]. rewrite !Forall_app.
  split_and!; try apply to_le_bytes_u8. constructor.
Qed.

Lemma frame_slot s (k : nat) : cpu_wf s -> (k < 8)%nat ->
  frame_value (pushad_frame s) k = gpr_at s (7 - k).
Proof.
  intros Hs Hk. assert (frame_value (pushad_frame s) k =
    from_le_bytes (to_le_bytes 4 (gpr_at s (7 - k)))) as ->.
  { do 8 (destruct k as [|k]; [done|]). lia. }
  rewrite from_to_le_bytes. by apply wrap_small, gpr_at_wf.
Qed.

(** A register file is its eight registers. *)
Lemma gpr_ext s s' : length (gpr s) = 8%nat -> length (gpr s') = 8%nat ->
  (forall k, (k < 8)%nat -> gpr_at s k = gpr_at s' k) -> gpr s = gpr s'.
Proof.
  intros Hs Hs' Hk. apply (nth_ext _ _ 0 0); [congruence|]. intros k Hlt. apply Hk. lia.
Qed.

Lemma popad_frame (m1 : machine) frame : machine_ok m1 ->
  mem_read_bytes (gpr_at (cpu m1) 4) 32 m1 = (Ok frame, m1) ->
  exists m2, popad m1 = (Ok tt, m2) /\ mem m2 = mem m1 /\ bus m2 = bus m1 /\
    length (gpr (cpu m2)) = 8%nat /\ same_control (cpu m1) (cpu m2) /\ eflags (cpu m2) = eflags (cpu m1) /\
    forall k, (k < 8)%nat -> gpr_at (cpu m2) k =
      if decide (k = 4%nat) then wrapping_add32 (gpr_at (cpu m1) 4) 32
      else frame_value frame (7 - k).
Proof.
  intros [_ Hcpu] Hread. unfold popad, mbind, exec_bind. cbn [get_gpr gets]. unfold get_gpr, gets.
  rewrite Hread. unfold put_gpr, modify. cbn [cpu with_cpu].
  eexists. split; [done|]. cbn [mem bus cpu with_cpu].
  assert (length (gpr (cpu m1)) = 8%nat) as Hl by by apply gpr_length.
  split_and!; try done.
  - unfold set_gpr. cbn [gpr with_gpr]. by rewrite !length_insert.
  - intros k Hk.
    repeat (rewrite gpr_at_set by (unfold set_gpr; cbn [gpr with_gpr]; rewrite ?length_insert; lia)).
    do 8 (destruct k as [|k]; [done|]). lia.
Qed.
End WriteRead.

(** [pushad] followed by [popad] restores the whole register file, ESP
    included, and changes only the memory below the stack pointer's old
    value. *)
Theorem pushad_popad_restores {Mem Ports} `{GuestMemoryLaws Mem} (m m1 : Machine Mem Ports) :
  machine_ok m -> readable m (wrapping_sub32 (gpr_at (cpu m) 4) 32) 32 ->
  pushad m = (Ok tt, m1) -> popad m1 = (Ok tt, mkMachine (cpu m) (mem m1) (bus m)).
Proof.
  intros Hm Hr Hpush.
  pose proof (proj1 (sound_pushad m _ _ Hm Hpush)) as Hm1.
  unfold pushad, mbind, exec_bind, get_gpr, put_gpr, gets, modify in Hpush.
  destruct (mem_write_bytes _ _ m) as [[[]|e] m0] eqn:Hw; [|done]. injection Hpush as <-.
  apply write_then_read in Hw as [Hm0 Hread]; [|apply Hm|apply u32_wrapping_sub
    |apply pushad_frame_u8|rewrite length_pushad_frame; lia|by rewrite length_pushad_frame].
  rewrite length_pushad_frame in Hread. rewrite Hm0 in *. destruct m as [s x b].
  cbn [cpu mem bus with_cpu with_mem] in *. destruct Hm as [_ Hs]. cbn [cpu] in Hs.
  match type of Hm1 with machine_ok ?m1 =>
    destruct (popad_frame m1 (pushad_frame s)) as (m2 & -> & Hmem & Hbus & Hlen & Hc & Hf & Hg)
  end; [exact Hm1 | |].
  { cbn [cpu with_cpu]. rewrite gpr_at_esp by done. unfold mem_read_bytes in *.
    cbn [mem with_cpu with_mem] in *. by injection Hread as ->. }
  f_equal. destruct m2 as [s2 x2 b2]. cbn [cpu mem bus with_cpu] in *. subst x2 b2. f_equal.
  unfold same_control in Hc. cbn in Hc.
  assert (gpr s2 = gpr s) as Hgpr.
  { apply gpr_ext; [done|by apply gpr_length|]. intros k Hk. rewrite Hg by done.
    case_decide as Hk4.
    - subst. rewrite gpr_at_esp by done. by apply wrapping_add_sub, gpr_at_wf.
    - rewrite frame_slot by (done || lia). f_equal. lia. }
  destruct s, s2; cbn in *. destruct_and!. by subst.
Qed.

(** ** Call and return *)

Section CallReturn.
Context {Mem Ports : Type} `{GuestMemoryLaws Mem} `{PortBus Ports} `{Iced}.
Context (x87_execute sse_execute : Unit_execute Mem Ports).

Lemma reads_only_branch_target i a : reads_only (branch_target i a : Exec Mem Ports Z).
Proof.
  unfold branch_target. repeat case_match; reading.
Qed.

(** A call that completes has pushed its return address. *)
Lemma call_inv i a (m m1 : Machine Mem Ports) : mnemonic i = Mnemonic.Call ->
  step_decoded x87_execute sse_execute i a m = (Ok tt, m1) ->
  exists m0 target, push_value D (wrapping_add32 a (len i)) m = (Ok tt, m0) /\
    m1 = with_cpu m0 (with_tsc (with_eip (cpu m0) target) (wrap64 (tsc (cpu m0) + 1))).
Proof.
  intros Hi. unfold step_decoded, execute, branch. rewrite Hi.
  unfold mbind, exec_bind. pose proof (reads_only_branch_target i a m) as Ht.
  destruct (branch_target i a m) as [[target|e] m2]; cbn in Ht; subst; [|done].
  destruct (push_value D _ m) as [[[]|e] m0]; [|done].
  cbn. intros [= <-]. by exists m0, target.
Qed.

Lemma ret_step i a v (m m1 : Machine Mem Ports) : mnemonic i = Mnemonic.Ret ->
  code i = Code.Retnd -> pop_value D m = (Ok v, m1) ->
  step_decoded x87_execute sse_execute i a m =
  (Ok tt, with_cpu m1 (with_tsc (with_eip (cpu m1) v) (wrap64 (tsc (cpu m1) + 1)))).
Proof.
  intros Hi Hc Hp. unfold step_decoded, execute, branch. rewrite Hi, Hc.
  unfold mbind, exec_bind. by rewrite Hp.
Qed.
End CallReturn.

(** a near call followed by a near return, at whatever address the return
    sits, continues at the instruction after the call with every general
    register, ESP included, and the flags as before the call. *)
Theorem call_ret_returns {Mem Ports} `{GuestMemoryLaws Mem} `{PortBus Ports} `{Iced}
    (x87_execute sse_execute : Unit_execute Mem Ports) call ret a b (m m1 : Machine Mem Ports) :
  machine_ok m -> mnemonic call = Mnemonic.Call ->
  mnemonic ret = Mnemonic.Ret -> code ret = Code.Retnd ->
  readable m (wrapping_sub32 (gpr_at (cpu m) 4) 4) 4 ->
  step_decoded x87_execute sse_execute call a m = (Ok tt, m1) ->
  exists m2, step_decoded x87_execute sse_execute ret b m1 = (Ok tt, m2) /\
    eip (cpu m2) = wrapping_add32 a (len call) /\ gpr (cpu m2) = gpr (cpu m) /\
    eflags (cpu m2) = eflags (cpu m) /\ mem m2 = mem m1.
Proof.
  intros Hm Hcall Hret Hcode Hr Hs. apply call_inv in Hs as (m0 & target & Hpush & ->); [|done].
  apply push_then_pop in Hpush as (Hc & _ & Hpop); [|done..].
  eexists. split.
  - eapply ret_step; [done..|]. by apply Hpop.
  - cbn. rewrite Hc. cbn [gpr set_gpr with_gpr eflags]. split_and!; try done.
    + rewrite wrap_small; [done|]. apply u32_wrapping_add.
    + pose proof (set_gpr_back (cpu m) 4 (wrapping_sub32 (gpr_at (cpu m) 4) 4)) as Hb.
      apply (f_equal gpr) in Hb. exact Hb.
Qed.

(** ** Push and pop *)

Section PushPop.
Context {Mem Ports : Type} `{GuestMemoryLaws Mem} `{IcedLaws}.

Lemma wide32_size r k : register_slot r = Some (Wide32 k) -> register_size r = 4.
Proof. intros Hr. apply size32. destruct r; try done; set_solver. Qed.

Lemma push_register i a src k (m : Machine Mem Ports) : op_kind i 0 = OpKind.Register ->
  op_register i 0 = src -> register_slot src = Some (Wide32 k) ->
  push i a m = push_value D (gpr_at (cpu m) k) m.
Proof.
  intros Hk <- Hs. unfold push, operand_width, operand. rewrite Hk, (wide32_size _ _ Hs).
  unfold mbind, exec_bind, lift, try_gets. cbn [Width_from_bytes ok_or read_operand].
  unfold try_gets, read_register. by rewrite Hs.
Qed.

Lemma pop_register j a dst k v (m m1 : Machine Mem Ports) : op_kind j 0 = OpKind.Register ->
  op_register j 0 = dst -> register_slot dst = Some (Wide32 k) -> u32 v ->
  pop_value D m = (Ok v, m1) -> pop j a m = (Ok tt, with_cpu m1 (set_gpr (cpu m1) k v)).
Proof.
  intros Hk <- Hs Hv. unfold pop, pop_value, operand_width, operand.
  rewrite Hk, (wide32_size _ _ Hs).
  unfold mbind, exec_bind, lift, get_gpr, gets, put_gpr, modify. cbn [Width_from_bytes ok_or].
  destruct (read_memory _ D m) as [[x|e] m2]; [|done]. intros [= -> <-].
  unfold on_error, try_gets, mbind, exec_bind. cbn [write_operand].
  unfold mbind, exec_bind, gets, write_register, write_register_state. rewrite Hs.
  do 4 f_equal. change (Width_mask D) with (Z.ones 32). rewrite Z.land_ones by lia.
  by apply Z.mod_small.
Qed.
End PushPop.

(** pushing one 32-bit register and popping into another moves the value
    and restores ESP; the rest of the register file is untouched.  Pushing ESP
    stores its old value, and popping into ESP leaves the popped value. *)
Theorem push_pop_moves {Mem Ports} `{GuestMemoryLaws Mem} `{IcedLaws}
    i j src dst k l a b (m m1 : Machine Mem Ports) :
  machine_ok m -> op_kind i 0 = OpKind.Register -> op_kind j 0 = OpKind.Register ->
  op_register i 0 = src -> op_register j 0 = dst ->
  register_slot src = Some (Wide32 k) -> register_slot dst = Some (Wide32 l) ->
  readable m (wrapping_sub32 (gpr_at (cpu m) 4) 4) 4 -> push i a m = (Ok tt, m1) ->
  pop j b m1 = (Ok tt, mkMachine (set_gpr (cpu m) l (gpr_at (cpu m) k)) (mem m1) (bus m)).
Proof.
  intros Hm Hi Hj Hsrc Hdst Hk Hl Hr Hpush.
  rewrite (push_register i a src k) in Hpush by done.
  apply push_then_pop in Hpush as (Hc & Hb & Hpop); [|done..].
  assert (u32 (gpr_at (cpu m) k)) as Hv by apply gpr_at_wf, Hm.
  specialize (Hpop m1 eq_refl eq_refl). rewrite wrap_small in Hpop by done.
  erewrite (pop_register j b dst l); [|done..|exact Hpop].
  unfold with_cpu. cbn [cpu mem bus]. by rewrite Hc, Hb, set_gpr_back.
Qed.

(** ** Witnesses *)

#[local] Existing Instance DemoIced.
#[local] Existing Instance demo_iced_laws.

Lemma run_ok {E A S} (x : result E A * S) a : x.1 = Ok a -> x = (Ok a, x.2).
Proof. destruct x. cbn. congruence. Qed.

Lemma pushad_popad_restores_witness :
  let m1 := (pushad (demo_machine 0x5000 0x2000)).2 in
  popad m1 = (Ok tt, mkMachine (cpu (demo_machine 0x5000 0x2000)) (mem m1) tt).
Proof.
  apply (pushad_popad_restores (demo_machine 0x5000 0x2000)).
  - apply demo_machine_ok; unfold is_u; lia.
  - by vm_compute.
  - apply run_ok. by vm_compute.
Defined.

(** [call 0x5001] at [0x5001] and [ret] at [0x5000]. *)
Definition demo_call : Instruction :=
  mkInstruction Mnemonic.Call (Code.Other 0) 0x5001 5 1 (fun _ => OpKind.NearBranch32)
    (fun _ => Register.None) 0 0 0 0 0 0 Register.None Register.None 1 0 0 Register.DS
    0x5000 ConditionCode.None false false.
Definition demo_ret : Instruction := plain_instruction Mnemonic.Ret Code.Retnd 0x5000 1.

Lemma call_ret_returns_witness : exists m2,
  step_decoded no_unit no_unit demo_ret 0x5000
    (step_decoded no_unit no_unit demo_call 0x5001 (demo_machine 0x5001 0x2000)).2 = (Ok tt, m2) /\
  eip (cpu m2) = 0x5006.
Proof.
  destruct (call_ret_returns no_unit no_unit demo_call demo_ret 0x5001 0x5000
    (demo_machine 0x5001 0x2000)
    (step_decoded no_unit no_unit demo_call 0x5001 (demo_machine 0x5001 0x2000)).2)
    as (m2 & Hs & He & _).
  - apply demo_machine_ok; unfold is_u; lia.
  - done.
  - done.
  - done.
  - by vm_compute.
  - apply run_ok. by vm_compute.
  - exists m2. split; [exact Hs|]. rewrite He. by vm_compute.
Defined.

(** [push] or [pop] of a register. *)
Definition demo_stack_op (mn : Mnemonic.t) (r : Register.t) : Instruction :=
  mkInstruction mn (Code.Other 0) 0x5000 1 1 (fun _ => OpKind.Register) (fun _ => r)
    0 0 0 0 0 0 Register.None Register.None 1 0 0 Register.DS 0 ConditionCode.None false false.

(** [push esp; pop eax]. *)
Lemma push_pop_moves_witness :
  let m1 := (push (demo_stack_op Mnemonic.Push Register.ESP) 0 (demo_machine 0x5000 0x2000)).2 in
  pop (demo_stack_op Mnemonic.Pop Register.EAX) 0 m1 =
  (Ok tt, mkMachine (set_gpr (cpu (demo_machine 0x5000 0x2000)) 0 0x2000) (mem m1) tt).
Proof.
  cbn zeta.
  apply (push_pop_moves (demo_stack_op Mnemonic.Push Register.ESP)
    (demo_stack_op Mnemonic.Pop Register.EAX) Register.ESP Register.EAX 4 0 0 0
    (demo_machine 0x5000 0x2000)).
  1: apply demo_machine_ok; unfold is_u; lia.
  1-6: reflexivity.
  - by vm_compute.
  - apply run_ok. by vm_compute.
Defined.

(** ** Strings *)

(** Which pointer an element moves. *)
Definition moves_source (kind : StringKind) : bool :=
  match kind with Movs | Lods | Cmps => true | Stos | Scas => false end.
Definition moves_destination (kind : StringKind) : bool :=
  match kind with Lods => false | _ => true end.

(** The signed stride of an element. *)
Definition stride (flags : Z) (w : Width) : Z :=
  if flag_set flags DIRECTION then - Width_bytes w else Width_bytes w.

(** A pointer after [n] elements. *)
Definition pointer_after (moves : bool) (p n d : Z) : Z :=
  if moves then wrapping_add32 p (n * d) else p.

Lemma pointer_after_step moves p n d :
  pointer_after moves (pointer_after moves p 1 d) n d = pointer_after moves p (n + 1) d.
Proof.
  unfold pointer_after. destruct moves; [|done]. rewrite wrapping_add_assoc. f_equal. lia.
Qed.

Lemma pointer_after_none moves p d : u32 p -> pointer_after moves p 0 d = p.
Proof.
  intros. unfold pointer_after, wrapping_add32. destruct moves; [|done].
  rewrite Z.mul_0_l, Z.add_0_r. by apply wrap_small.
Qed.

Lemma wrapping_stride p flags w :
  wrapping_add32 p (if flag_set flags DIRECTION then wrapping_sub32 0 (Width_bytes w)
                    else Width_bytes w) = wrapping_add32 p (1 * stride flags w).
Proof.
  unfold stride. destruct (flag_set flags DIRECTION); [|by rewrite Z.mul_1_l].
  unfold wrapping_add32, wrapping_sub32, wrap. rewrite Zplus_mod_idemp_r. f_equal. lia.
Qed.

(** ** One element *)

Section Element.
Context {Mem Ports : Type} `{GuestMemoryLaws Mem}.
Abbreviation machine := (Machine Mem Ports).

Lemma bind_inv {A C} (e : Exec Mem Ports A) (k : A -> Exec Mem Ports C) m c m' :
  (e ≫= k) m = (Ok c, m') -> exists a m1, e m = (Ok a, m1) /\ k a m1 = (Ok c, m').
Proof. unfold mbind, exec_bind. destruct (e m) as [[a|err] m1]; [by eauto | done]. Qed.

Lemma reads_inv {A} (e : Exec Mem Ports A) m r m' : reads_only e -> e m = (r, m') -> m' = m.
Proof. intros He Hr. specialize (He m). by rewrite Hr in He. Qed.

Lemma write_memory_cpu a w v (m m' : machine) r : write_memory a w v m = (r, m') -> cpu m' = cpu m.
Proof.
  unfold write_memory, mem_write_bytes. destruct (mem_write _ _ _). by intros [= <- <-].
Qed.

(** An accumulator store leaves the counter and the pointers. *)
Lemma write_accumulator_gpr w v a (m m' : machine) k : cpu_wf (cpu m) -> k <> 0%nat ->
  write_register (accumulator_register w) v a m = (Ok tt, m') ->
  gpr_at (cpu m') k = gpr_at (cpu m) k /\ eflags (cpu m') = eflags (cpu m) /\
  length (gpr (cpu m')) = 8%nat.
Proof.
  intros Hs Hk Hw. pose proof (gpr_length _ Hs) as Hl.
  unfold write_register in Hw. destruct w; cbn in Hw; injection Hw as <-; cbn [cpu with_cpu];
    (rewrite gpr_at_set by lia; case_decide; [done|]; split; [done|]; split; [done|];
     unfold set_gpr; cbn [gpr with_gpr]; by rewrite length_insert).
Qed.

Lemma advance_inv k d (m m' : machine) r : advance k d m = (r, m') ->
  m' = with_cpu m (set_gpr (cpu m) k (wrapping_add32 (gpr_at (cpu m) k) d)).
Proof. by intros [= <- <-]. Qed.

(** Splits a run into its commands. *)
Ltac run_inv := repeat match goal with
  | H : (_ ≫= _) _ = (Ok _, _) |- _ =>
    let a := fresh "a" in let m := fresh "m" in let H1 := fresh "H1" in let H2 := fresh "H2" in
    apply bind_inv in H as (a & m & H1 & H2); cbv beta zeta in H2
  | H : gets _ _ = (Ok _, _) |- _ => injection H as <- <-
  | H : get_gpr _ _ = (Ok _, _) |- _ => injection H as <- <-
  | H : read_memory _ _ _ = (_, _) |- _ => apply reads_inv in H; [|reading]; subst
  | H : try_gets _ _ = (_, _) |- _ => apply reads_inv in H; [|reading]; subst
  | H : advance _ _ _ = (_, _) |- _ => apply advance_inv in H; subst
  | H : write_memory _ _ _ _ = (_, _) |- _ => apply write_memory_cpu in H
  end.

Lemma element_counts address kind w sb db (m m' : machine) : cpu_wf (cpu m) ->
  kind_conditional kind = false ->
  string_element address kind w sb db m = (Ok tt, m') ->
  let d := stride (eflags (cpu m)) w in
  eflags (cpu m') = eflags (cpu m) /\ gpr_at (cpu m') 1 = gpr_at (cpu m) 1 /\
  gpr_at (cpu m') 6 = pointer_after (moves_source kind) (gpr_at (cpu m) 6) 1 d /\
  gpr_at (cpu m') 7 = pointer_after (moves_destination kind) (gpr_at (cpu m) 7) 1 d.
Proof.
  intros Hs Hk Hr d. subst d. pose proof (gpr_length _ Hs) as Hl.
  unfold string_element in Hr. destruct kind; try done; run_inv;
    cbn [pointer_after moves_source moves_destination cpu with_cpu].
  - match goal with Hc : cpu _ = cpu m |- _ => rewrite Hc end. rewrite !wrapping_stride.
    rewrite !gpr_at_set by (unfold set_gpr; cbn [gpr with_gpr]; rewrite ?length_insert; lia). done.
  - match goal with Hc : cpu _ = cpu m |- _ => rewrite Hc end. rewrite !wrapping_stride.
    rewrite !gpr_at_set by lia. done.
  - destruct a3. match goal with Hx : write_register _ _ _ _ = _ |- _ => rename Hx into Hw end.
    destruct (write_accumulator_gpr w _ _ _ _ 1 Hs ltac:(done) Hw) as (G1 & Hf & Hl').
    destruct (write_accumulator_gpr w _ _ _ _ 6 Hs ltac:(done) Hw) as (G6 & _).
    destruct (write_accumulator_gpr w _ _ _ _ 7 Hs ltac:(done) Hw) as (G7 & _).
    rewrite !wrapping_stride. rewrite !gpr_at_set by lia. cbn [decide decide_rel].
    by rewrite <- G1, <- G6, <- G7.
Qed.
End Element.

(** ** The loop *)

Section Loop.
Context {Mem Ports : Type} `{GuestMemoryLaws Mem}.
Context (i : Instruction) (address : GuestVa) (kind : StringKind) (w : Width) (sb db : Z) (z : bool).
Hypothesis kind_counts : kind_conditional kind = false.
Abbreviation machine := (Machine Mem Ports).

(** [m'] is [m] after [k] more elements of a count [n]; EIP is wound back when
    the count was not exhausted. *)
Definition string_done (m m' : machine) (k : Z) : Prop :=
  let s := cpu m in
  let d := stride (eflags s) w in
  gpr_at (cpu m') 1 = gpr_at s 1 - k /\ eflags (cpu m') = eflags s /\
  gpr_at (cpu m') 6 = pointer_after (moves_source kind) (gpr_at s 6) k d /\
  gpr_at (cpu m') 7 = pointer_after (moves_destination kind) (gpr_at s 7) k d /\
  eip (cpu m') = if k =? gpr_at s 1 then eip s else wrapping_sub32 (eip s) (len i).

(** One element and the decrement, then [k] more. *)
Lemma string_done_step (m m1 m' : machine) k : machine_ok m ->
  gpr_at (cpu m) 1 <> 0 -> string_element address kind w sb db m = (Ok tt, m1) ->
  string_done (with_cpu m1 (set_gpr (cpu m1) 1 (wrapping_sub32 (gpr_at (cpu m1) 1) 1))) m' k ->
  string_done m m' (k + 1).
Proof.
  intros Hm Hn He. pose proof (proj1 (sound_string_element _ _ _ _ _ m _ _ Hm He)) as [_ Hs1].
  pose proof (framed_string_element address kind w sb db m) as Hc. rewrite He in Hc.
  apply element_counts in He as (Hf & G1 & G6 & G7); [|apply Hm|done]. cbv zeta in *.
  pose proof (gpr_length _ Hs1) as Hl. pose proof (gpr_at_wf _ 1 (proj2 Hm)) as Hu.
  unfold string_done. cbn [cpu with_cpu eflags eip set_gpr with_gpr snd] in *.
  rewrite !gpr_at_set by lia. rewrite decide_True, !decide_False by done.
  change (eflags (set_gpr (cpu m1) 1 (wrapping_sub32 (gpr_at (cpu m1) 1) 1))) with (eflags (cpu m1)).
  rewrite Hf, G1, G6, G7, !pointer_after_step, (proj1 Hc).
  assert (wrapping_sub32 (gpr_at (cpu m) 1) 1 = gpr_at (cpu m) 1 - 1) as ->.
  { apply wrap_small. unfold is_u in *. lia. }
  intros (-> & -> & -> & -> & ->). split_and!; try done; try lia.
  destruct (Z.eqb_spec k (gpr_at (cpu m) 1 - 1)), (Z.eqb_spec (k + 1) (gpr_at (cpu m) 1));
    done || lia.
Qed.

Lemma string_loop_counts fuel n (m m' : machine) : machine_ok m ->
  0 <= n <= MAX_REP_ITERATIONS_PER_STEP ->
  string_loop fuel i address kind w sb db true z n m = Some (Ok tt, m') ->
  string_done m m' (Z.min (gpr_at (cpu m) 1) (MAX_REP_ITERATIONS_PER_STEP - n)).
Proof.
  revert n m. induction fuel as [|fuel IH]; intros n m Hm Hn Hl; cbn [string_loop andb] in Hl; [done|].
  pose proof (gpr_at_wf _ 1 (proj2 Hm)) as Hu.
  destruct (Z.eqb_spec (gpr_at (cpu m) 1) 0) as [Hz|Hz].
  { simplify_eq. rewrite Hz, Z.min_l by lia. unfold string_done. rewrite Hz, Z.eqb_refl.
    rewrite !pointer_after_none by apply gpr_at_wf, Hm. done. }
  destruct (Z.eqb_spec n MAX_REP_ITERATIONS_PER_STEP) as [->|Hmax].
  { simplify_eq. rewrite Z.sub_diag, Z.min_r by (unfold is_u in Hu; lia). unfold string_done.
    cbn [cpu with_cpu eip with_eip eflags].
    rewrite (proj2 (Z.eqb_neq 0 (gpr_at (cpu m) 1))) by congruence.
    rewrite !pointer_after_none by apply gpr_at_wf, Hm.
    change (gpr_at (with_eip ?s _) ?k) with (gpr_at s k). split_and!; try done. lia. }
  destruct (string_element _ _ _ _ _ m) as [[[]|e] m1] eqn:He; [|done].
  cbn [negb] in Hl. rewrite kind_counts in Hl. cbn [andb] in Hl.
  pose proof (proj1 (sound_string_element _ _ _ _ _ m _ _ Hm He)) as Hm1.
  apply IH in Hl; [|by apply decrement_ecx_ok|lia].
  pose proof (element_counts _ _ _ _ _ _ _ (proj2 Hm) kind_counts He) as (_ & G1 & _).
  apply (string_done_step m m1) in Hl; [|done..]. revert Hl.
  cbn [cpu with_cpu]. rewrite gpr_at_set by (rewrite (gpr_length _ (proj2 Hm1)); lia).
  case_decide; [|done]. rewrite G1.
  assert (wrapping_sub32 (gpr_at (cpu m) 1) 1 = gpr_at (cpu m) 1 - 1) as ->.
  { apply wrap_small. unfold is_u in *. lia. }
  by replace (Z.min (gpr_at (cpu m) 1 - 1) (MAX_REP_ITERATIONS_PER_STEP - (n + 1)) + 1)
    with (Z.min (gpr_at (cpu m) 1) (MAX_REP_ITERATIONS_PER_STEP - n)) by lia.
Qed.
End Loop.

(** C38: a repeated MOVS, STOS or LODS always finishes its step within the
    iteration bound; when no element faults it does exactly
    [min ECX 0x10000] elements: ECX falls by that many, ESI and EDI move by
    that many strides in the direction flag's direction modulo 2^32, the flags
    are untouched, and EIP is wound back to the instruction exactly when
    elements remain, so the next step resumes it. *)
Theorem rep_string_progress {Mem Ports} `{GuestMemoryLaws Mem} i address kind w sb db z
    (m : Machine Mem Ports) :
  machine_ok m -> kind_conditional kind = false ->
  exists r m', string_loop string_fuel i address kind w sb db true z 0 m = Some (r, m') /\
    (r = Ok tt -> string_done i kind w m m' (Z.min (gpr_at (cpu m) 1) 0x10000)).
Proof.
  intros Hm Hk. pose proof (run_string_loop i address kind w sb db true z m) as Hl.
  destruct (run_string _ _ _ _ _ _ _ _ m) as [r m']. exists r, m'. split; [exact Hl|].
  intros ->. apply string_loop_counts in Hl; [|done..].
  by change (MAX_REP_ITERATIONS_PER_STEP - 0) with 0x10000 in Hl.
Qed.

(** [rep stosw] of three elements, downwards from [0x1004]. *)
Definition demo_string_machine : Machine SoftwareAddressSpace unit :=
  mkMachine (with_eflags (set_gpr (set_gpr CpuState_default 1 3) 7 0x1004) 0x602) demo_code tt.

Lemma rep_string_progress_witness : exists m',
  run_string (plain_instruction Mnemonic.Stosw (Code.Other 0) 0x5000 2) 0x5000 Stos W 0 0 true true
    demo_string_machine = (Ok tt, m') /\
  gpr_at (cpu m') 1 = 0 /\ gpr_at (cpu m') 7 = 0xFFE.
Proof.
  destruct (rep_string_progress (plain_instruction Mnemonic.Stosw (Code.Other 0) 0x5000 2) 0x5000
    Stos W 0 0 true demo_string_machine) as (r & m' & Hl & Hdone).
  - split; [exact demo_code_ok|]. apply with_eflags_wf; [|unfold is_u; lia].
    repeat apply set_gpr_wf; try (unfold is_u; lia). apply cpu_default_wf.
  - reflexivity.
  - exists m'. assert (run_string (plain_instruction Mnemonic.Stosw (Code.Other 0) 0x5000 2)
      0x5000 Stos W 0 0 true true demo_string_machine = (r, m')) as Hr
      by (unfold run_string; by rewrite Hl).
    assert (r = Ok tt) as ->.
    { change r with (r, m').1. rewrite <- Hr. vm_compute. reflexivity. }
    split; [exact Hr|]. destruct (Hdone eq_refl) as (G1 & _ & _ & G7 & _).
    split; [rewrite G1; vm_compute; reflexivity | rewrite G7; vm_compute; reflexivity].
Defined.
