(* ===== verification/InsnCache.v ===== *)
(** * The decoded-instruction cache

    Models [exbawks-cpu/src/cache.rs] and [step_cached] of [exec.rs]: a
    direct-mapped cache of decodes, validated by the physical pages the bytes
    came from and their generations. *)

From S2P Require Import Prelude GuestTypes PageTable GuestMemory Iced CpuState ExecCore ExecOps Exec.

Record CacheEntry : Type := mkCacheEntry {
  entry_eip : Z;
  pages : list (GuestPage * Z);
  page_count : Z;
  entry_instruction : Instruction;
}.

Section Cache.
(** [Instruction::default()] of the decoder library. *)
Context (Instruction_default : Instruction).

Definition CacheEntry_default : CacheEntry :=
  mkCacheEntry U32_MAX (replicate 2 (0, 0)) 0 Instruction_default.

Definition CACHE_ENTRIES : Z := Z.shiftl 1 16.

(** The vector of [CACHE_ENTRIES] entries; an index never stored holds the
    default entry. *)
Definition InstructionCache : Type := gmap Z CacheEntry.

Definition InstructionCache_new : InstructionCache := ∅.

Definition InstructionCache_slot (eip : Z) : Z := Z.land eip (CACHE_ENTRIES - 1).

Definition cache_entry (self : InstructionCache) (slot : Z) : CacheEntry :=
  default CacheEntry_default (self !! slot).

(** The loop over the recorded pages; [index] counts from the first. *)
Fixpoint pages_valid (table : PageTable) (eip : Z) (index : Z) (recorded : list (GuestPage * Z))
  : bool :=
  match recorded with
  | [] => true
  | (page, generation) :: rest =>
    let virtual_page := eip / GUEST_PAGE_SIZE + index in
    if negb (PageDescriptor_physical_page (PageTable_get table virtual_page) =? page)
    then false
    else if negb (bool_decide (PageTable_physical_generation table page = Some generation))
    then false
    else pages_valid table eip (index + 1) rest
  end.

Definition InstructionCache_get (self : InstructionCache) (eip : Z) (table : PageTable)
  : option Instruction :=
  let entry := cache_entry self (InstructionCache_slot eip) in
  if negb (entry_eip entry =? eip) then None
  else if pages_valid table eip 0 (take (Z.to_nat (page_count entry)) (pages entry))
  then Some (entry_instruction entry)
  else None.

(** The loop of [put]: the recorded pages and their count, or [None] where it
    returns early. *)
Fixpoint record_pages (table : PageTable) (virtual_pages : list GuestPage)
    (recorded : list (GuestPage * Z)) (count : Z) : option (list (GuestPage * Z) * Z) :=
  match virtual_pages with
  | [] => Some (recorded, count)
  | virtual_page :: rest =>
    let descriptor := PageTable_get table virtual_page in
    if negb (bool_decide (PageDescriptor_kind descriptor = Ram)) then None else
    let physical := PageDescriptor_physical_page descriptor in
    match PageTable_physical_generation table physical with
    | None => None
    | Some generation =>
      let recorded := <[Z.to_nat count := (physical, generation)]> recorded in
      let count := count + 1 in
      if count =? 2 then Some (recorded, count) else record_pages table rest recorded count
    end
  end.

Definition InstructionCache_put {Mem} `{GuestMemory Mem} (self : InstructionCache) (eip : Z)
    (instruction : Instruction) (memory : Mem) : InstructionCache :=
  let table := mem_page_table memory in
  let first := eip / GUEST_PAGE_SIZE in
  let last := wrapping_sub32 (wrapping_add32 eip (len instruction)) 1 / GUEST_PAGE_SIZE in
  match record_pages table (seqZ first (Z.max last first - first + 1)) (replicate 2 (0, 0)) 0 with
  | None => self
  | Some (recorded, count) =>
    <[InstructionCache_slot eip := mkCacheEntry eip recorded count instruction]> self
  end.

(** [step_cached]: the cache is a second state beside the machine. *)
Definition step_cached {Mem Ports} `{GuestMemory Mem} `{PortBus Ports} `{Iced}
    (x87_execute sse_execute : Unit_execute Mem Ports) (cache : InstructionCache)
    (m : Machine Mem Ports) : result ExecError unit * Machine Mem Ports * InstructionCache :=
  let address := eip (cpu m) in
  match InstructionCache_get cache address (mem_page_table (mem m)) with
  | Some instruction => (step_decoded x87_execute sse_execute instruction address m, cache)
  | None =>
    match decode_at address (mem m) address with
    | Err e => ((Err e, m), cache)
    | Ok instruction =>
      let cache := InstructionCache_put cache address instruction (mem m) in
      (step_decoded x87_execute sse_execute instruction address m, cache)
    end
  end.
End Cache.
