(* ===== verification/CacheTheorems.v ===== *)
(** * Coherence of the decoded-instruction cache

    The generation protocol at work: writes bump the generation of every page
    they reach, the cache compares generations, and so a cached decode is the
    decode of the bytes now in memory. *)

From S2P Require Import Prelude GuestTypes PageTable Allocator GuestMemory SoftwareSpace SoftwareSpaceProofs SpaceTheorems Iced CpuState ExecCore ExecOps Exec ExecPrecise ExecInvariant StepTheorems InsnCache.

(** ** Sequences of guest writes *)

(** The virtual pages a write of [n] bytes covers. *)
Definition written_pages (a n : Z) : Z := Z.of_nat (length (GuestRange_pages (mkGuestRange a n))).

(** [s'] after writes that covered [n] pages in all. *)
Inductive writes : Z -> SoftwareAddressSpace -> SoftwareAddressSpace -> Prop :=
| writes_none s : writes 0 s s
| writes_one n s s1 s2 a bs : writes n s s1 -> u32 a -> Forall u8 bs -> bs <> [] ->
    space_write s1 a bs = (Ok tt, s2) ->
    writes (n + written_pages a (Z.of_nat (length bs))) s s2.

(** The bytes of a physical page are the same in both spaces. *)
Definition same_bytes (s s' : SoftwareAddressSpace) (p : GuestPage) : Prop :=
  forall o, o / 4096 = p -> ram_byte (physical s') o = ram_byte (physical s) o.

Definition space_ok (s : SoftwareAddressSpace) : Prop := ram_ok s /\ generations_ok (table s).

Lemma hits_le t p ps : 0 <= hits t p ps <= Z.of_nat (length ps).
Proof.
  unfold hits. pose proof (length_filter (fun q => maps_ram_page t p q = true) ps). lia.
Qed.

(** One write, as seen from one page. *)
Lemma write_one_page s s' a bs p : space_ok s -> u32 a -> Forall u8 bs -> bs <> [] ->
  page_in_range p -> space_write s a bs = (Ok tt, s') ->
  space_ok s' /\ entries (table s') = entries (table s) /\ physical_len s' = physical_len s /\
  exists k, 0 <= k <= written_pages a (Z.of_nat (length bs)) /\
    generation_of (table s') p = wrap16 (generation_of (table s) p + k) /\
    (k = 0 -> same_bytes s s' p).
Proof.
  intros [Hs Hg] Ha Hbs Hne Hp Hw.
  pose proof (write_ram_ok _ _ _ _ _ Hs Ha Hbs Hw) as Hs'.
  destruct (space_write_ok_inv s a bs s' Hs Ha Hne Hw) as (os & Htr & Hr & ->).
  destruct (foldl_bump_generation (GuestRange_pages (mkGuestRange a (Z.of_nat (length bs))))
    (table s) p Hp Hg) as [Hg' Hgen].
  split; [by split|]. cbn [with_table table with_physical physical_len physical].
  split; [apply foldl_bump_entries|]. split; [done|].
  eexists. split; [apply hits_le|]. split; [exact Hgen|]. intros Hz o Ho.
  cbn [with_table with_physical physical]. rewrite store_at_byte, last_written_none; [done|].
  intros [i Hi]%list_elem_of_lookup. pose proof (lookup_lt_Some _ _ _ Hi) as Hlt.
  rewrite (length_translate_all _ _ _ _ _ _ Htr) in Hlt.
  apply (translate_all_lookup _ _ _ _ _ _ _ _ Htr) in Hi.
  assert (0 < hits (table s) p (GuestRange_pages (mkGuestRange a (Z.of_nat (length bs))))); [|lia].
  apply (written_page_iff s a (length bs) os); eauto.
Qed.

Lemma wrap16_add_wrap g a b : wrap16 (wrap16 (g + a) + b) = wrap16 (g + (a + b)).
Proof. unfold wrap. rewrite Zplus_mod_idemp_l. f_equal. lia. Qed.

Lemma writes_page n s s' p : writes n s s' -> space_ok s -> page_in_range p ->
  space_ok s' /\ entries (table s') = entries (table s) /\ physical_len s' = physical_len s /\
  exists k, 0 <= k <= n /\
    generation_of (table s') p = wrap16 (generation_of (table s) p + k) /\
    (k = 0 -> same_bytes s s' p).
Proof.
  induction 1 as [s|n s s1 s2 a bs _ IH Ha Hbs Hne Hw]; intros Hs Hp.
  { split_and!; try done. exists 0. split; [lia|]. rewrite Z.add_0_r. split; [|done].
    symmetry. by apply wrap_small, generation_u16, Hs. }
  destruct (IH Hs Hp) as (Hs1 & He1 & Hl1 & k1 & Hk1 & Hg1 & Hb1).
  destruct (write_one_page s1 s2 a bs p) as (Hs2 & He2 & Hl2 & k2 & Hk2 & Hg2 & Hb2); [done..|].
  split_and!; try congruence; try apply Hs2. exists (k1 + k2). split; [lia|]. split.
  - by rewrite Hg2, Hg1, wrap16_add_wrap.
  - intros Hz o Ho. rewrite Hb2, Hb1; [done|lia|done|lia|done].
Qed.

(** A page whose generation is unchanged after fewer than 2^16 page writes has
    its bytes. *)
Lemma generation_unchanged n s s' p : writes n s s' -> n < 65536 -> space_ok s ->
  page_in_range p -> generation_of (table s') p = generation_of (table s) p -> same_bytes s s' p.
Proof.
  intros Hw Hn Hs Hp Hg. destruct (writes_page n s s' p Hw Hs Hp) as (_ & _ & _ & k & Hk & Hgk & Hb).
  apply Hb. destruct (decide (k = 0)); [done|]. exfalso.
  apply (wrap16_moves (generation_of (table s) p) k); [apply generation_u16, Hs|lia|lia|congruence].
Qed.

(** ** Fetching from unchanged pages *)

(** The physical page a virtual address is mapped to. *)
Definition backing (s : SoftwareAddressSpace) (a : GuestVa) : GuestPage :=
  PageDescriptor_physical_page (PageTable_get (table s) (GuestVa_page a)).

Lemma same_page a n i : 0 <= a -> a mod 4096 + n <= 4096 -> 0 <= i < n ->
  GuestVa_page (a + i) = GuestVa_page a.
Proof.
  intros. unfold GuestVa_page. rewrite !Z.shiftr_div_pow2 by done.
  change (2 ^ GUEST_PAGE_SHIFT) with 4096. dlia.
Qed.

Lemma fetch_unchanged s s' a n : space_ok s -> space_ok s' -> u32 a ->
  a mod 4096 + Z.of_nat n <= 4096 ->
  entries (table s') = entries (table s) -> physical_len s' = physical_len s ->
  same_bytes s s' (backing s a) -> space_fetch s' a n = space_fetch s a n.
Proof.
  intros [Hs _] [Hs' _] Ha Hn He Hl Hb. unfold space_fetch. rewrite !access_read_spec by done.
  assert (access_offsets s' Execute a n = access_offsets s Execute a n) as ->.
  { unfold access_offsets. by rewrite Hl, (translate_all_entries (table s)) by done. }
  destruct (access_offsets s Execute a n) as [os|e] eqn:Ho; cbn; [|done]. f_equal.
  apply map_ext_in. intros o Hin. apply Hb.
  apply list_elem_of_In, list_elem_of_lookup in Hin as [i Hi].
  pose proof (lookup_lt_Some _ _ _ Hi) as Hlt. rewrite (offsets_length _ _ _ _ _ Ho) in Hlt.
  unfold access_offsets in Ho. rewrite decide_False in Ho by lia.
  case_decide; [|by case_decide].
  apply (translate_all_lookup _ _ _ _ _ _ _ _ Ho), translate_maps in Hi.
  rewrite (same_page a (Z.of_nat n)) in Hi by (unfold is_u in Ha; lia).
  unfold maps_ram_page in Hi. bool_to_prop. symmetry. assumption.
Qed.

(** A successful fetch reads RAM. *)
Lemma fetch_backed s a n bs : space_ok s -> u32 a -> (0 < n)%nat -> space_fetch s a n = Ok bs ->
  PageDescriptor_kind (PageTable_get (table s) (GuestVa_page a)) = Ram.
Proof.
  intros [Hs _] Ha Hn Hf. unfold space_fetch in Hf. rewrite access_read_spec in Hf by done.
  destruct (access_offsets s Execute a n) as [os|e] eqn:Ho; [|done].
  pose proof (offsets_length _ _ _ _ _ Ho) as Hlen.
  unfold access_offsets in Ho. rewrite decide_False in Ho by lia.
  case_decide; [|by case_decide].
  destruct os as [|o os]; [cbn in Hlen; lia|].
  assert ((o :: os) !! 0%nat = Some o) as Hi by done.
  apply (translate_all_lookup _ _ _ _ _ _ _ _ Ho), translate_maps in Hi.
  rewrite Z.add_0_r in Hi. unfold maps_ram_page in Hi. by bool_to_prop.
Qed.

Lemma backing_in_range s a : page_in_range (backing s a).
Proof. apply physical_page_range. Qed.

Lemma generation_some t p : page_in_range p ->
  PageTable_physical_generation t p = Some (generation_of t p).
Proof.
  intros [? ?]. unfold generation_of, PageTable_physical_generation, array_get.
  by rewrite (proj2 (Z.ltb_lt _ _)).
Qed.

(** ** What [decode_at] reads *)

Section Decode.
Context `{IcedLaws}.

(** Bytes of the first fetch. *)
Definition first_len (pc : Z) : Z := Z.min MAX_INSTRUCTION_LEN (GUEST_PAGE_SIZE - pc mod 4096).

Lemma decode_first pc : first_len pc =
  Z.min MAX_INSTRUCTION_LEN (GUEST_PAGE_SIZE - Z.land pc (GUEST_PAGE_SIZE - 1)).
Proof.
  unfold first_len. change (GUEST_PAGE_SIZE - 1) with (Z.ones 12). by rewrite Z.land_ones by lia.
Qed.

Lemma first_len_bounds pc : 1 <= first_len pc <= 15 /\ pc mod 4096 + first_len pc <= 4096.
Proof.
  unfold first_len, MAX_INSTRUCTION_LEN. change GUEST_PAGE_SIZE with 4096.
  pose proof (Z.mod_pos_bound pc 4096 ltac:(lia)). lia.
Qed.

(** A decode either stays on its first page or reads the start of the next
    and yields an instruction that reaches it. *)
Lemma decode_cases (s : SoftwareAddressSpace) pc i : space_ok s -> u32 pc -> pc + 15 <= 2 ^ 32 ->
  decode_one pc s = Ok i ->
  exists bs, space_fetch s pc (Z.to_nat (first_len pc)) = Ok bs /\
  ((iced_decode bs pc = Ok i /\ 1 <= len i <= first_len pc) \/
   (iced_decode bs pc = Err NoMoreBytes /\ first_len pc < len i <= 15 /\
    pc mod 4096 + first_len pc = 4096 /\ first_len pc < 15 /\
    exists rest, space_fetch s (pc + first_len pc) (Z.to_nat (15 - first_len pc)) = Ok rest /\
      iced_decode (bs ++ rest) pc = Ok i)).
Proof.
  intros Hs Hpc Hend Hd. pose proof (first_len_bounds pc) as [Hb Hpage].
  assert (u64 pc) as H64 by (apply (is_u_weaken 32); [done|lia]).
  unfold decode_one, decode_at in Hd. rewrite <- decode_first in Hd. cbn zeta in Hd.
  change (@mem_fetch SoftwareAddressSpace _) with space_fetch in Hd.
  destruct (space_fetch s pc (Z.to_nat (first_len pc))) as [bs|e] eqn:Hf; [|done].
  cbn [map_err mbind result_bind] in Hd. exists bs. split; [done|].
  assert (length bs = Z.to_nat (first_len pc)) as Hlen.
  { eapply (access_read_bytes s Execute pc); [apply Hs|done|exact Hf]. }
  destruct (iced_decode bs pc) as [j|[]] eqn:Hj; try done.
  - simplify_eq. left. split; [done|]. destruct (decode_wf _ _ _ H64 Hj) as (Hwf & Hl & _).
    rewrite Hlen in Hl. split; [apply Hwf|lia].
  - right. destruct (Z.ltb_spec (first_len pc) MAX_INSTRUCTION_LEN) as [Hlt|]; [|done].
    unfold MAX_INSTRUCTION_LEN in Hlt, Hd.
    assert (pc mod 4096 + first_len pc = 4096) as Hedge.
    { unfold first_len, MAX_INSTRUCTION_LEN in *. change GUEST_PAGE_SIZE with 4096 in *. lia. }
    unfold wrapping_add32 in Hd. rewrite wrap_small in Hd by (unfold is_u in *; lia).
    destruct (space_fetch s (pc + first_len pc) _) as [rest|e] eqn:Hr; [|done].
    cbn [map_err mbind result_bind] in Hd.
    destruct (iced_decode (bs ++ rest) pc) as [j|] eqn:Hj2; [|done]. simplify_eq.
    assert (length rest = Z.to_nat (15 - first_len pc)) as Hlr.
    { eapply (access_read_bytes s Execute (pc + first_len pc)); [apply Hs|unfold is_u in *; lia|exact Hr]. }
    pose proof (decode_longer _ _ _ _ H64 Hj Hj2) as Hmore. rewrite Hlen in Hmore.
    destruct (decode_wf _ _ _ H64 Hj2) as (_ & Hl & _). rewrite length_app, Hlen, Hlr in Hl.
    split_and!; try done; try lia. exists rest. split; [done|]. congruence.
Qed.
End Decode.

(** ** What [put] records *)

Lemma page_div a : a / GUEST_PAGE_SIZE = GuestVa_page a.
Proof. unfold GuestVa_page. by rewrite Z.shiftr_div_pow2. Qed.

(** The pages of a decode: one, or two when the instruction crosses. *)
Definition decode_pages (s : SoftwareAddressSpace) (pc : Z) (i : Instruction)
  : list (GuestPage * Z) :=
  let page a := (backing s a, generation_of (table s) (backing s a)) in
  if len i <=? first_len pc then [page pc] else [page pc; page (pc + first_len pc)].

Section Put.
Context `{IcedLaws} (Instruction_default : Instruction).

Lemma next_page pc : pc mod 4096 + first_len pc = 4096 ->
  GuestVa_page (pc + first_len pc) = GuestVa_page pc + 1.
Proof.
  intros He. unfold GuestVa_page. rewrite !Z.shiftr_div_pow2 by done.
  change (2 ^ GUEST_PAGE_SHIFT) with 4096. dlia.
Qed.

Lemma last_page pc l : u32 pc -> pc + 15 <= 2 ^ 32 -> 1 <= l <= 15 ->
  wrapping_sub32 (wrapping_add32 pc l) 1 / GUEST_PAGE_SIZE =
  GuestVa_page pc + (if l <=? first_len pc then 0 else 1).
Proof.
  intros Hpc Hend Hl. pose proof (first_len_bounds pc) as [Hb Hp].
  assert (wrapping_sub32 (wrapping_add32 pc l) 1 = pc + l - 1) as ->.
  { unfold wrapping_sub32, wrapping_add32, wrap. rewrite Zminus_mod_idemp_l.
    apply Z.mod_small. unfold is_u in Hpc. lia. }
  unfold first_len, MAX_INSTRUCTION_LEN in *. rewrite <- page_div.
  change GUEST_PAGE_SIZE with 4096 in *.
  destruct (Z.leb_spec l (Z.min 15 (4096 - pc mod 4096))); dlia.
Qed.

Lemma put_records s pc i c : space_ok s -> u32 pc -> pc + 15 <= 2 ^ 32 ->
  decode_one pc s = Ok i ->
  exists recorded count, InstructionCache_put c pc i s =
    <[InstructionCache_slot pc := mkCacheEntry pc recorded count i]> c /\
    take (Z.to_nat count) recorded = decode_pages s pc i.
Proof.
  intros Hs Hpc Hend Hd. pose proof (first_len_bounds pc) as [Hb _].
  destruct (decode_cases s pc i Hs Hpc Hend Hd) as (bs & Hf & Hcase).
  apply fetch_backed in Hf as Hk; [|done|done|lia].
  unfold InstructionCache_put. change (mem_page_table s) with (table s). cbn zeta.
  rewrite page_div, last_page by (done || (destruct Hcase as [[_ ?]|(_ & ? & _)]; lia)).
  unfold decode_pages. destruct Hcase as [[_ Hl]|(_ & Hl & Hedge & Hlt & rest & Hr & _)].
  - rewrite (proj2 (Z.leb_le (len i) (first_len pc))) by lia.
    rewrite Z.add_0_r, Z.max_id, Z.sub_diag. change (seqZ (GuestVa_page pc) (0 + 1)) with [0 + GuestVa_page pc].
    rewrite Z.add_0_l. cbn [record_pages]. rewrite bool_decide_eq_true_2 by done. cbn [negb].
    change (PageDescriptor_physical_page (PageTable_get (table s) (GuestVa_page pc))) with (backing s pc).
    rewrite (generation_some _ _ (backing_in_range s pc)). cbn. eauto.
  - rewrite (proj2 (Z.leb_gt (len i) (first_len pc))) by lia.
    apply fetch_backed in Hr as Hk2; [|done|unfold is_u in *; lia|lia].
    rewrite next_page in Hk2 by done.
    replace (Z.max (GuestVa_page pc + 1) (GuestVa_page pc) - GuestVa_page pc + 1) with 2 by lia.
    change (seqZ (GuestVa_page pc) 2) with [0 + GuestVa_page pc; 1 + GuestVa_page pc].
    rewrite Z.add_0_l, (Z.add_comm 1). cbn [record_pages]. rewrite !bool_decide_eq_true_2 by done. cbn [negb].
    change (PageDescriptor_physical_page (PageTable_get (table s) (GuestVa_page pc))) with (backing s pc).
    assert (PageDescriptor_physical_page (PageTable_get (table s) (GuestVa_page pc + 1)) =
      backing s (pc + first_len pc)) as -> by (unfold backing; by rewrite next_page).
    rewrite !(generation_some _ _ (backing_in_range s _)). cbn. eauto.
Qed.

(** Valid pages are pages whose bytes are those of the decode. *)
Lemma decode_unchanged n s s' pc i : writes n s s' -> n < 65536 -> space_ok s ->
  u32 pc -> pc + 15 <= 2 ^ 32 -> decode_one pc s = Ok i ->
  pages_valid (table s') pc 0 (decode_pages s pc i) = true -> decode_one pc s' = Ok i.
Proof.
  intros Hw Hn Hs Hpc Hend Hd Hv.
  destruct (writes_page n s s' 0 Hw Hs ltac:(done)) as (Hs' & He & Hl & _).
  assert (forall a, PageTable_physical_generation (table s') (backing s a) =
    Some (generation_of (table s) (backing s a)) -> same_bytes s s' (backing s a)) as Hsame.
  { intros a Hg. rewrite (generation_some _ _ (backing_in_range s a)) in Hg. simplify_eq.
    eapply generation_unchanged; try done. apply backing_in_range. }
  destruct (decode_cases s pc i Hs Hpc Hend Hd) as (bs & Hf & Hcase).
  pose proof (first_len_bounds pc) as [Hb Hpage].
  assert (same_bytes s s' (backing s pc)) as H1.
  { unfold decode_pages in Hv. apply Hsame.
    case_match; cbn [pages_valid] in Hv; repeat case_match; try done;
      match goal with H : negb (bool_decide _) = false |- _ =>
        by apply negb_false_iff, bool_decide_eq_true in H end. }
  rewrite <- (fetch_unchanged s s' pc) in Hf by (done || lia).
  unfold decode_one, decode_at in *. rewrite <- decode_first in *. cbn zeta in *.
  change (@mem_fetch SoftwareAddressSpace _) with space_fetch in *.
  rewrite Hf. cbn [map_err mbind result_bind].
  destruct Hcase as [[Hj _]|(Hj & Hlen & Hedge & Hlt & rest & Hr & Hj2)]; rewrite Hj; [done|].
  rewrite (proj2 (Z.ltb_lt _ _)) by exact Hlt.
  unfold wrapping_add32. rewrite wrap_small by (unfold is_u in *; lia).
  unfold MAX_INSTRUCTION_LEN.
  rewrite (fetch_unchanged s s' (pc + first_len pc)), Hr; try done.
  - cbn [map_err mbind result_bind]. by rewrite Hj2.
  - unfold is_u in *; lia.
  - replace ((pc + first_len pc) mod 4096) with 0 by dlia. lia.
  - unfold decode_pages in Hv. rewrite (proj2 (Z.leb_gt (len i) (first_len pc))) in Hv by lia.
    apply Hsame. cbn [pages_valid] in Hv. repeat case_match; try done;
      match goal with H : negb (bool_decide (_ = Some (generation_of _ (backing _ (_ + _))))) = false |- _ =>
        by apply negb_false_iff, bool_decide_eq_true in H end.
Qed.
End Put.

(** ** The protocol *)

Section Protocol.
Context `{IcedLaws} (Instruction_default : Instruction).

(** A cache and a space after decodes recorded at their time and guest writes
    that covered [n] pages in all.  The top fifteen bytes of the address space
    are left out: there an instruction can wrap to address zero. *)
Inductive cache_reach : Z -> InstructionCache -> SoftwareAddressSpace -> Prop :=
| reach_new s : space_ok s -> cache_reach 0 InstructionCache_new s
| reach_put n c s pc i : cache_reach n c s -> u32 pc -> pc + 15 <= 2 ^ 32 ->
    decode_one pc s = Ok i -> cache_reach n (InstructionCache_put c pc i s) s
| reach_write n c s s' a bs : cache_reach n c s -> u32 a -> Forall u8 bs -> bs <> [] ->
    space_write s a bs = (Ok tt, s') ->
    cache_reach (n + written_pages a (Z.of_nat (length bs))) c s'.

(** Every stored entry is a decode of an earlier space. *)
Definition entry_recorded (n : Z) (s : SoftwareAddressSpace) (e : CacheEntry) : Prop :=
  exists k s0, k <= n /\ writes k s0 s /\ space_ok s0 /\ u32 (entry_eip e) /\
    entry_eip e + 15 <= 2 ^ 32 /\ decode_one (entry_eip e) s0 = Ok (entry_instruction e) /\
    take (Z.to_nat (page_count e)) (pages e) = decode_pages s0 (entry_eip e) (entry_instruction e).

Lemma reach_recorded n c s : cache_reach n c s ->
  space_ok s /\ 0 <= n /\ map_Forall (fun _ e => entry_recorded n s e) c.
Proof.
  induction 1 as [s Hs|n c s pc i _ (Hs & Hn & IH) Hpc Hend Hd
                 |n c s s' a bs _ (Hs & Hn & IH) Ha Hbs Hne Hw].
  - split; [done|]. split; [lia|]. apply map_Forall_empty.
  - split; [done|]. split; [done|].
    destruct (put_records s pc i c Hs Hpc Hend Hd) as (recorded & count & -> & Htake).
    apply map_Forall_insert_2; [|done]. exists 0, s. cbn. split_and!; try done. constructor.
  - destruct (write_one_page s s' a bs 0 Hs Ha Hbs Hne ltac:(done) Hw) as (Hs' & _).
    assert (0 <= written_pages a (Z.of_nat (length bs))) by (unfold written_pages; lia).
    split; [done|]. split; [lia|]. intros slot e He.
    destruct (IH slot e He) as (k & s0 & Hk & Hws & Hrest).
    exists (k + written_pages a (Z.of_nat (length bs))), s0. split; [lia|].
    split; [by eapply writes_one | done].
Qed.

(** A hit is the decode of the bytes now in memory. *)
Lemma cache_hit_current n c s pc i : cache_reach n c s -> n < 65536 -> pc + 15 <= 2 ^ 32 ->
  InstructionCache_get Instruction_default c pc (table s) = Some i -> decode_one pc s = Ok i.
Proof.
  intros Hc Hn Hpc Hg. apply reach_recorded in Hc as (Hs & Hn0 & Hall).
  unfold InstructionCache_get, cache_entry in Hg.
  destruct (c !! InstructionCache_slot pc) as [e|] eqn:He;
    cbn [default id entry_eip CacheEntry_default] in Hg.
  2: { destruct (Z.eqb_spec U32_MAX pc) as [<-|]; [unfold U32_MAX in Hpc; lia | done]. }
  destruct (Z.eqb_spec (entry_eip e) pc) as [<-|]; [|done]. cbn [negb] in Hg.
  destruct (Hall _ _ He) as (k & s0 & Hk & Hw & Hs0 & Hu & Hend & Hd & Htake).
  rewrite Htake in Hg. case_match; simplify_eq.
  eapply decode_unchanged; try done. lia.
Qed.
End Protocol.

(** C2: the decoded-instruction cache is transparent.  With any cache built by
    recording decodes, interleaved with guest writes covering fewer than 2^16
    pages in all, a cached step at an instruction pointer no higher than
    2^32 - 15, below which the longest instruction does not reach the top of
    the address space, does what an uncached step does, and the cache it leaves
    is again such a cache: self-modifying code, through whatever alias, is
    always decoded afresh.  At 2^32 - 1 an empty slot answers
    ([empty_slot_hit]). *)
Theorem cached_step_is_step {Ports} `{PortBus Ports} `{IcedLaws} Instruction_default
    (x87_execute sse_execute : Unit_execute SoftwareAddressSpace Ports) n c m :
  cache_reach n c (mem m) -> n < 65536 -> u32 (eip (cpu m)) -> eip (cpu m) + 15 <= 2 ^ 32 ->
  let '(outcome, c') := step_cached Instruction_default x87_execute sse_execute c m in
  outcome = step_with_ports x87_execute sse_execute m /\ cache_reach n c' (mem m).
Proof.
  intros Hc Hn Hu Hpc. unfold step_cached, step_with_ports, mbind, exec_bind, gets. cbn zeta.
  change (mem_page_table (mem m)) with (table (mem m)).
  destruct (InstructionCache_get _ c (eip (cpu m)) _) as [i|] eqn:Hg.
  - apply (cache_hit_current _ n) in Hg; [|done..]. unfold decode_one in Hg. by rewrite Hg.
  - destruct (decode_at (eip (cpu m)) (mem m) (eip (cpu m))) as [i|e] eqn:Hd; [|done].
    split; [done|]. by apply reach_put.
Qed.

(** ** Witness and the empty slot *)

#[local] Existing Instance DemoIced.
#[local] Existing Instance demo_iced_laws.

(** [nop] over the [ret]: the decode recorded before is not used after. *)
Definition demo_patched : SoftwareAddressSpace := (space_write demo_code 0x5000 [0x90]).2.

Lemma demo_code_space_ok : space_ok demo_code.
Proof.
  split; [exact demo_code_ok|].
  assert (physical_generations (table demo_code) = <[2 := 1]> ∅) as Hg by (by vm_compute).
  unfold generations_ok. rewrite Hg.
  apply map_Forall_insert_2; [unfold is_u; lia | apply map_Forall_empty].
Qed.

Lemma cached_step_is_step_witness :
  let ret := plain_instruction Mnemonic.Ret Code.Retnd 0x5000 1 in
  let c := InstructionCache_put InstructionCache_new 0x5000 ret demo_code in
  let m := mkMachine (with_eip CpuState_default 0x5000) demo_patched tt in
  InstructionCache_get ret c 0x5000 (table demo_patched) = None /\
  (step_cached ret no_unit no_unit c m).1 = step no_unit no_unit m.
Proof.
  cbn zeta. set (ret := plain_instruction Mnemonic.Ret Code.Retnd 0x5000 1).
  set (c := InstructionCache_put InstructionCache_new 0x5000 ret demo_code).
  split; [by vm_compute|].
  pose proof (cached_step_is_step ret no_unit no_unit
    (0 + written_pages 0x5000 (Z.of_nat (length [0x90]))) c
    (mkMachine (with_eip CpuState_default 0x5000) demo_patched tt)) as Hstep.
  destruct (step_cached ret no_unit no_unit c _) as [outcome c'].
  apply Hstep.
  - cbn [mem]. apply (reach_write 0 c demo_code); [|unfold is_u; lia | | |by vm_compute].
    + apply reach_put; [apply reach_new, demo_code_space_ok|unfold is_u; lia|lia|by vm_compute].
    + repeat constructor; unfold is_u; lia.
    + discriminate.
  - by vm_compute.
  - unfold is_u. cbn. lia.
  - cbn. lia.
Defined.

(** A space with [nop] in its last byte. *)
Definition demo_top : SoftwareAddressSpace :=
  (space_write
     (map_anonymous demo_space (mkGuestRange 0xFFFFF000 0x1000)
        (Z.lor (Z.lor PERM_READ PERM_WRITE) PERM_EXECUTE)).2 0xFFFFFFFF [0x90]).2.

(** the tag of an empty slot is an address instructions can be fetched
    from: a fresh cache answers [Instruction::default()] for EIP 0xFFFFFFFF,
    with no page compared, where the decoder finds a [nop] in memory. *)
Theorem empty_slot_hit (Instruction_default : Instruction) :
  InstructionCache_get Instruction_default InstructionCache_new 0xFFFFFFFF (table demo_top) =
    Some Instruction_default /\
  mnemonic <$> (match decode_one 0xFFFFFFFF demo_top with Ok i => Some i | Err _ => None end) =
    Some Mnemonic.Nop.
Proof. split; [reflexivity | by vm_compute]. Qed.
