(* ===== verification/RegisterSubset.v ===== *)
(** * The register-only subset

    Models [exbawks-cpu/src/subset.rs], the classifier of the instructions the
    direct emitter accepts, and [interpret.rs], the small interpreter of that
    subset that serves as its flag oracle; and shows that the oracle and the
    full interpreter agree. *)

From S2P Require Import Prelude GuestTypes PageTable GuestMemory SoftwareSpace SpaceTheorems Iced CpuState ExecCore ExecOps Exec AluTheorems ExecPrecise ExecInvariant StepTheorems.

Module Subset.

(** ** [subset.rs] *)

Inductive AluOp : Type := Add | Sub | And | Or | Xor.

Inductive RegisterOperand : Type :=
| OperandGpr (register : Gpr)
| OperandImmediate (value : Z).

Inductive RegisterOp : Type :=
| OpNop
| OpMov (dst : Gpr) (src : RegisterOperand)
| OpAlu (op : AluOp) (dst : Gpr) (src : RegisterOperand).

Definition gpr_from_register (register : Register.t) : option Gpr :=
  match register with
  | Register.EAX => Some Eax
  | Register.ECX => Some Ecx
  | Register.EDX => Some Edx
  | Register.EBX => Some Ebx
  | Register.ESP => Some Esp
  | Register.EBP => Some Ebp
  | Register.ESI => Some Esi
  | Register.EDI => Some Edi
  | _ => None
  end.

Definition gpr32 (instruction : Instruction) (operand : Z) : option Gpr :=
  if negb (bool_decide (op_kind instruction operand = OpKind.Register)) then None
  else gpr_from_register (op_register instruction operand).

Definition source (instruction : Instruction) : option RegisterOperand :=
  if negb (op_count instruction =? 2) then None else
  match op_kind instruction 1 with
  | OpKind.Register => OperandGpr <$> gpr_from_register (op_register instruction 1)
  | OpKind.Immediate32 => Some (OperandImmediate (immediate32 instruction))
  | OpKind.Immediate8to32 => Some (OperandImmediate (wrap32 (immediate8to32 instruction)))
  | _ => None
  end.

Definition alu (op : AluOp) (instruction : Instruction) : option RegisterOp :=
  dst ← gpr32 instruction 0;
  src ← source instruction;
  Some (OpAlu op dst src).

Definition classify_register_op (instruction : Instruction) : option RegisterOp :=
  match mnemonic instruction with
  | Mnemonic.Nop => if op_count instruction =? 0 then Some OpNop else None
  | Mnemonic.Mov =>
    dst ← gpr32 instruction 0;
    src ← source instruction;
    Some (OpMov dst src)
  | Mnemonic.Add => alu Add instruction
  | Mnemonic.Sub => alu Sub instruction
  | Mnemonic.And => alu And instruction
  | Mnemonic.Or => alu Or instruction
  | Mnemonic.Xor => alu Xor instruction
  | _ => None
  end.

(** The pointer slot of [call dword ptr [disp32]]. *)
Definition indirect_call_slot (instruction : Instruction) : option GuestVa :=
  match code instruction, op_kind instruction 0 with
  | Code.Call_rm32, OpKind.Memory =>
    if negb (Register.is_none (memory_base instruction)) ||
       negb (Register.is_none (memory_index instruction)) then None
    else try_from_u 32 (memory_displacement64 instruction)
  | _, _ => None
  end.

(** ** [interpret.rs] *)

Inductive InterpretError : Type := Unsupported (address : GuestVa).

Definition read (state : CpuState) (operand : RegisterOperand) : Z :=
  match operand with
  | OperandGpr register => CpuState_get state register
  | OperandImmediate value => value
  end.

Definition result_flags (result : Z) : Z :=
  Z.lor (Z.lor (flag_if (result =? 0) ZERO) (flag_if (has_bits result 0x80000000) SIGN))
        (flag_if (even_parity result) PARITY).

Definition logic (result : Z) : Z * Z * Z := (result, LOGIC_DEFINED, result_flags result).

Definition add_flags (a b result : Z) : Z :=
  let value := result_flags result in
  let value := Z.lor value (flag_if (result <? a) CARRY) in
  let value := Z.lor value (flag_if (has_bits (Z.lxor (Z.lxor a b) result) 0x10) AUXILIARY) in
  Z.lor value (flag_if (has_bits (Z.land (Z.lxor a result) (Z.lxor b result)) 0x80000000) OVERFLOW).

Definition sub_flags (a b result : Z) : Z :=
  let value := result_flags result in
  let value := Z.lor value (flag_if (a <? b) CARRY) in
  let value := Z.lor value (flag_if (has_bits (Z.lxor (Z.lxor a b) result) 0x10) AUXILIARY) in
  Z.lor value (flag_if (has_bits (Z.land (Z.lxor a b) (Z.lxor a result)) 0x80000000) OVERFLOW).

Definition apply_alu (op : AluOp) (a b : Z) : Z * Z * Z :=
  match op with
  | Add => let result := wrapping_add32 a b in (result, ARITHMETIC, add_flags a b result)
  | Sub => let result := wrapping_sub32 a b in (result, ARITHMETIC, sub_flags a b result)
  | And => logic (Z.land a b)
  | Or => logic (Z.lor a b)
  | Xor => logic (Z.lxor a b)
  end.

Definition apply (state : CpuState) (op : RegisterOp) : CpuState :=
  match op with
  | OpNop => state
  | OpMov dst src => CpuState_set state dst (read state src)
  | OpAlu op dst src =>
    let a := CpuState_get state dst in
    let b := read state src in
    let '(result, defined, value_flags) := apply_alu op a b in
    let state := CpuState_set state dst result in
    with_eflags state
      (Z.lor (Z.land (eflags state) (not32 defined)) (Z.land value_flags defined))
  end.

Definition step_register_only (state : CpuState) (instruction : Instruction)
  : result InterpretError unit * CpuState :=
  match classify_register_op instruction with
  | None => (Err (Unsupported (default U32_MAX (try_from_u 32 (ip instruction)))), state)
  | Some op =>
    let state := apply state op in
    (Ok tt, with_eip state (wrapping_add32 (eip state) (len instruction)))
  end.

(** ** The two interpreters agree *)

Lemma land_mask_u32 x : u32 x -> Z.land x (Width_mask D) = x.
Proof. intros Hx. rewrite land_mask. by apply wrap_small. Qed.

Lemma result_bits_oracle r : u32 r -> result_bits r D = result_flags r.
Proof.
  intros Hr. unfold result_bits, result_flags. rewrite land_mask_u32 by done.
  by change (Width_sign_bit D) with 0x80000000.
Qed.

Lemma add_bits_oracle a b : u32 a -> u32 b ->
  add_bits a b 0 D = (wrapping_add32 a b, add_flags a b (wrapping_add32 a b)).
Proof.
  intros Ha Hb. unfold add_bits. rewrite !(land_mask_u32 a), !(land_mask_u32 b) by done.
  cbn zeta. rewrite Z.add_0_r. rewrite (land_mask_u32 (wrap32 (a + b))) by by apply wrap_range.
  change (wrap32 (a + b)) with (wrapping_add32 a b).
  rewrite result_bits_oracle by apply u32_wrapping_add.
  assert ((Width_mask D <? a + b) = (wrapping_add32 a b <? a)) as ->.
  { unfold wrapping_add32, wrap, is_u in *. cbn [Width_mask].
    destruct (Z.ltb_spec 0xFFFFFFFF (a + b)), (Z.ltb_spec ((a + b) mod 2 ^ 32) a); try done; dlia. }
  by change (Width_sign_bit D) with 0x80000000.
Qed.

Lemma sub_bits_oracle a b : u32 a -> u32 b ->
  sub_bits a b 0 D = (wrapping_sub32 a b, sub_flags a b (wrapping_sub32 a b)).
Proof.
  intros Ha Hb. unfold sub_bits. rewrite !(land_mask_u32 a), !(land_mask_u32 b) by done.
  cbn zeta. rewrite Z.add_0_r.
  assert (wrapping_sub32 (wrapping_sub32 a b) 0 = wrapping_sub32 a b) as ->.
  { unfold wrapping_sub32 at 1. rewrite Z.sub_0_r. apply wrap_small, u32_wrapping_sub. }
  rewrite (land_mask_u32 (wrapping_sub32 a b)) by apply u32_wrapping_sub.
  rewrite result_bits_oracle by apply u32_wrapping_sub.
  by change (Width_sign_bit D) with 0x80000000.
Qed.

(** The full interpreter's operation of the same name. *)
Definition alu_kind (op : AluOp) : AluKind :=
  match op with
  | Add => ExecOps.Add | Sub => ExecOps.Sub | And => ExecOps.And
  | Or => ExecOps.Or | Xor => ExecOps.Xor
  end.

Lemma alu_result_oracle op a b c : u32 a -> u32 b ->
  alu_result (alu_kind op) a b c D =
  let '(result, defined, value_flags) := apply_alu op a b in (result, defined, value_flags, true).
Proof.
  intros Ha Hb. destruct op; cbn [alu_kind alu_result apply_alu logic].
  - by rewrite add_bits_oracle.
  - by rewrite sub_bits_oracle.
  - unfold logic_bits. by rewrite result_bits_oracle by uword.
  - unfold logic_bits. by rewrite result_bits_oracle by uword.
  - unfold logic_bits. by rewrite result_bits_oracle by uword.
Qed.

Section Agreement.
Context {Mem Ports : Type} `{GuestMemory Mem} `{PortBus Ports} `{IcedLaws}.
Context (i : Instruction) (address : GuestVa) (m : Machine Mem Ports).
Hypothesis i_wf : instruction_wf i.
Hypothesis cpu_ok : cpu_wf (cpu m).

Lemma gpr_slot r g : gpr_from_register r = Some g ->
  register_slot r = Some (Wide32 (Gpr_index g)) /\ register_size r = 4.
Proof.
  intros Hr. split; [|apply size32]; destruct r; simplify_eq/=; done || set_solver.
Qed.

Lemma gpr32_operand k g : gpr32 i k = Some g -> exists r,
  register_slot r = Some (Wide32 (Gpr_index g)) /\
  (forall s, operand s i k address = Ok (OpRegister r)) /\
  operand_width i k address = Ok D.
Proof.
  unfold gpr32. destruct (bool_decide_reflect (op_kind i k = OpKind.Register)) as [Hk|]; [|done].
  intros Hg. apply gpr_slot in Hg as [Hs Hz]. exists (op_register i k). split; [done|].
  unfold operand, operand_width. rewrite Hk, Hz. done.
Qed.

Lemma read_gpr_operand r g w (m' : Machine Mem Ports) :
  register_slot r = Some (Wide32 (Gpr_index g)) ->
  read_operand (OpRegister r) w m' = (Ok (CpuState_get (cpu m') g), m').
Proof. intros Hr. cbn [read_operand]. unfold try_gets, read_register. by rewrite Hr. Qed.

Lemma write_gpr_operand r g v (m' : Machine Mem Ports) :
  register_slot r = Some (Wide32 (Gpr_index g)) -> u32 v ->
  write_operand (OpRegister r) D v m' = (Ok tt, with_cpu m' (CpuState_set (cpu m') g v)).
Proof.
  intros Hr Hv. cbn [write_operand]. unfold mbind, exec_bind, gets, write_register.
  unfold write_register_state. rewrite Hr. by rewrite land_mask_u32.
Qed.

Lemma source_operand src : source i = Some src -> u32 (read (cpu m) src) /\ exists op,
  (forall s, operand s i 1 address = Ok op) /\ read_operand op D m = (Ok (read (cpu m) src), m).
Proof.
  unfold source. case_match; [done|]. intros Hs.
  assert (u32 (immediate32 i)) by apply i_wf.
  destruct (op_kind i 1) eqn:Hk; try done.
  - apply fmap_Some in Hs as (g & Hg & ->). apply gpr_slot in Hg as [Hr _].
    split; [by apply gpr_at_wf|]. eexists. unfold operand. rewrite Hk. split; [done|].
    by apply read_gpr_operand.
  - simplify_eq. split; [by apply wrap_range|]. eexists. unfold operand. rewrite Hk. split; [done|].
    cbn [read_operand read]. unfold mret, exec_ret. by rewrite land_mask_u32 by by apply wrap_range.
  - simplify_eq. split; [done|]. eexists. unfold operand. rewrite Hk. split; [done|].
    cbn [read_operand read]. unfold mret, exec_ret. by rewrite land_mask_u32.
Qed.

Lemma mov_oracle dst src : gpr32 i 0 = Some dst -> source i = Some src ->
  mov i address m = (Ok tt, with_cpu m (apply (cpu m) (OpMov dst src))).
Proof.
  intros (r & Hr & Hop & Hw)%gpr32_operand (Hv & op & Hsrc & Hread)%source_operand.
  unfold mov, mbind, exec_bind, lift, try_gets. rewrite Hw, Hsrc, Hread, Hop.
  by apply write_gpr_operand.
Qed.

Lemma apply_alu_u32 op a b : u32 a -> u32 b -> u32 (apply_alu op a b).1.1.
Proof. intros Ha Hb. destruct op; cbn; uword. Qed.

Lemma alu_oracle op dst src : gpr32 i 0 = Some dst -> source i = Some src ->
  binary_alu i address (alu_kind op) m = (Ok tt, with_cpu m (apply (cpu m) (OpAlu op dst src))).
Proof.
  intros (r & Hr & Hop & Hw)%gpr32_operand (Hv & sop & Hsrc & Hread)%source_operand.
  unfold binary_alu, mbind, exec_bind, lift, try_gets, gets.
  rewrite Hw, Hop, Hsrc, (read_gpr_operand r dst), Hread by done. cbn zeta.
  assert (u32 (CpuState_get (cpu m) dst)) as Ha by by apply gpr_at_wf.
  rewrite alu_result_oracle by done. cbn [apply].
  pose proof (apply_alu_u32 op _ _ Ha Hv) as Hu.
  destruct (apply_alu op _ _) as [[result defined] value_flags]. cbn [fst] in Hu.
  by rewrite (write_gpr_operand r dst).
Qed.

Lemma straightline_oracle op : classify_register_op i = Some op ->
  execute_straightline i address m = (Ok tt, with_cpu m (apply (cpu m) op)).
Proof.
  unfold classify_register_op, alu. intros Hc. unfold execute_straightline.
  destruct (mnemonic i); try done;
    try (apply bind_Some in Hc as (dst & Hdst & Hc); apply bind_Some in Hc as (src & Hsrc & Hc);
         simplify_eq; first [by apply mov_oracle | by apply (alu_oracle Add) | by apply (alu_oracle Sub)
           | by apply (alu_oracle And) | by apply (alu_oracle Or) | by apply (alu_oracle Xor)]).
  case_match; [|done]. simplify_eq. unfold mret, exec_ret, with_cpu. by destruct m.
Qed.

Lemma subset_not_branch op : classify_register_op i = Some op ->
  ConditionCode.is_none (condition_code i) = true -> branch i address m = (Ok None, m).
Proof.
  unfold classify_register_op, branch. intros Hc Hcc. by destruct (mnemonic i); rewrite ?Hcc.
Qed.

Lemma step_decoded_oracle (x87_execute sse_execute : Unit_execute Mem Ports) op :
  classify_register_op i = Some op -> ConditionCode.is_none (condition_code i) = true ->
  x87_execute i address m = None -> sse_execute i address m = None ->
  let s := apply (cpu m) op in
  step_decoded x87_execute sse_execute i address m =
  (Ok tt, with_cpu m (with_tsc (with_eip s (wrapping_add32 (eip s) (len i)))
                        (wrap64 (tsc s + 1)))).
Proof.
  intros Hc Hcc Hx Hs. cbn zeta.
  assert (step_decoded x87_execute sse_execute i address =
    (flow ← execute x87_execute sse_execute i address;
     _ ← match flow with Next => advance_eip i | Jumped => mret tt end; advance_tsc)) as ->.
  { unfold step_decoded. unfold classify_register_op in Hc. by destruct (mnemonic i). }
  unfold execute, mbind, exec_bind.
  by rewrite (subset_not_branch op), Hx, Hs, (straightline_oracle op).
Qed.
End Agreement.
End Subset.

(** C36: the flag oracle agrees with the interpreter.  On every instruction the
    register-only subset accepts, and no coprocessor owns, the oracle's
    registers, flags and EIP are those of the full interpreter, which only
    counts the time-stamp besides; on every other instruction the oracle
    changes nothing. *)
Theorem register_oracle_agrees {Mem Ports} `{GuestMemory Mem} `{PortBus Ports} `{IcedLaws}
    (x87_execute sse_execute : Unit_execute Mem Ports) i address (m : Machine Mem Ports) r s' :
  instruction_wf i -> cpu_wf (cpu m) -> ConditionCode.is_none (condition_code i) = true ->
  x87_execute i address m = None -> sse_execute i address m = None ->
  Subset.step_register_only (cpu m) i = (r, s') ->
  match r with
  | Ok _ => step_decoded x87_execute sse_execute i address m =
              (Ok tt, with_cpu m (with_tsc s' (wrap64 (tsc s' + 1))))
  | Err _ => s' = cpu m
  end.
Proof.
  intros Hi Hs Hcc Hx Hy Hr. unfold Subset.step_register_only in Hr.
  destruct (Subset.classify_register_op i) as [op|] eqn:Hc; simplify_eq; [|done].
  by apply Subset.step_decoded_oracle.
Qed.

#[local] Existing Instance DemoIced.
#[local] Existing Instance demo_iced_laws.

(** [add eax, esp]. *)
Definition demo_add : Instruction :=
  mkInstruction Mnemonic.Add (Code.Other 0) 0x5000 2 2 (fun _ => OpKind.Register)
    (fun k => if k =? 0 then Register.EAX else Register.ESP) 0 0 0 0 0 0
    Register.None Register.None 1 0 0 Register.DS 0 ConditionCode.None false false.

Lemma register_oracle_agrees_witness :
  (step_decoded no_unit no_unit demo_add 0x5000 (demo_machine 0x5000 0x80000000)).1 = Ok tt.
Proof.
  assert (instruction_wf demo_add) as Hwf by (unfold instruction_wf, is_u; cbn; lia).
  assert (cpu_wf (cpu (demo_machine 0x5000 0x80000000))) as Hcpu
    by (apply demo_machine_ok; unfold is_u; lia).
  pose proof (register_oracle_agrees no_unit no_unit demo_add 0x5000
    (demo_machine 0x5000 0x80000000) (Ok tt) _ Hwf Hcpu eq_refl eq_refl eq_refl eq_refl) as Hok.
  cbv beta iota in Hok. by rewrite Hok.
Defined.
