(* ===== verification/BlockDecode.v ===== *)
(** * The basic-block decoder

    Models [exbawks-cpu/src/decode.rs]: decoding a run of instructions from
    executable bytes under an instruction and a byte limit, up to the first
    instruction that leaves the straight line. *)

From S2P Require Import Prelude GuestTypes Iced.

(** The decoder library's classes of control flow. *)
Inductive FlowControl : Type :=
| FlowNext | UnconditionalBranch | IndirectBranch | ConditionalBranch | FlowReturn
| FlowCall | IndirectCall | Interrupt | XbeginXabortXend | Exception.

#[export] Instance FlowControl_eq_dec : EqDecision FlowControl.
Proof. solve_decision. Defined.

Record DecodeConfig : Type := mkDecodeConfig {
  max_instructions : Z;
  max_bytes : Z;
}.

Definition DecodeConfig_default : DecodeConfig := mkDecodeConfig 256 4096.

Inductive BlockStop : Type :=
| ControlFlow (flow : FlowControl)
| EndOfInput
| InstructionLimit
| ByteLimit.

Record DecodedBlock : Type := mkDecodedBlock {
  block_start : GuestVa;
  instructions : list Instruction;
  byte_len : Z;
  stop : BlockStop;
}.

(** [end]: the exclusive guest end, when it fits. *)
Definition DecodedBlock_end (self : DecodedBlock) : option GuestVa :=
  length ← try_from_u 32 (byte_len self);
  checked_add 32 (block_start self) length.

Inductive ConfigLimit : Type := MaxInstructionsZero | MaxBytesZero.

Inductive BlockDecodeError : Type :=
| InvalidConfiguration (limit : ConfigLimit)
| InvalidInstruction (address : GuestVa).

Section Decoder.
Context `{Iced} (flow_control : Instruction -> FlowControl).

(** The [while] loop over the decoder's position; [None] when the fuel runs
    out.  An undecodable position is reported at its own address. *)
Fixpoint decode_loop (fuel : nat) (config : DecodeConfig) (start : GuestVa) (window : list Z)
    (position : Z) (decoded : list Instruction)
  : option (result BlockDecodeError (list Instruction * Z * BlockStop)) :=
  match fuel with
  | O => None
  | S fuel =>
    if negb (position <? Z.of_nat (length window)) then Some (Ok (decoded, position, EndOfInput))
    else if max_instructions config <=? Z.of_nat (length decoded)
    then Some (Ok (decoded, position, InstructionLimit))
    else
    match iced_decode (drop (Z.to_nat position) window) (start + position) with
    | Err _ =>
      Some (Err (InvalidInstruction (default U32_MAX (try_from_u 32 (start + position)))))
    | Ok instruction =>
      let flow := flow_control instruction in
      let decoded := decoded ++ [instruction] in
      let position := position + len instruction in
      if negb (bool_decide (flow = FlowNext)) then Some (Ok (decoded, position, ControlFlow flow))
      else decode_loop fuel config start window position decoded
    end
  end.

(** Every instruction consumes a byte, so one round per byte and a last one
    are enough ([decode_loop_total]). *)
Definition decode_fuel (window : list Z) : nat := S (length window).

Definition BasicBlockDecoder_decode (config : DecodeConfig) (start : GuestVa) (bytes : list Z)
  : result BlockDecodeError DecodedBlock :=
  if max_instructions config =? 0 then Err (InvalidConfiguration MaxInstructionsZero) else
  if max_bytes config =? 0 then Err (InvalidConfiguration MaxBytesZero) else
  let window_len := Z.min (Z.of_nat (length bytes)) (max_bytes config) in
  let window := take (Z.to_nat window_len) bytes in
  loop ← default (Err (InvalidInstruction start))
           (decode_loop (decode_fuel window) config start window 0 []);
  let '(decoded, position, stop) := loop in
  let stop :=
    match stop with
    | EndOfInput => if window_len <? Z.of_nat (length bytes) then ByteLimit else EndOfInput
    | _ => stop
    end in
  Ok (mkDecodedBlock start decoded position stop).
End Decoder.

(** ** The block is the run of instructions at its start *)

Section Correctness.
Context `{IcedLaws} (flow_control : Instruction -> FlowControl).

(** Consecutive instructions of a window, from one position to another. *)
Inductive run_of (start : GuestVa) (window : list Z) : Z -> list Instruction -> Z -> Prop :=
| run_nil p : run_of start window p [] p
| run_snoc p js q i : run_of start window p js q -> 0 <= q < Z.of_nat (length window) ->
    iced_decode (drop (Z.to_nat q) window) (start + q) = Ok i ->
    run_of start window p (js ++ [i]) (q + len i).

(** Why a loop stopped where it did. *)
Definition stop_explained (config : DecodeConfig) (window : list Z) (js : list Instruction)
    (position : Z) (stop : BlockStop) : Prop :=
  match stop with
  | ControlFlow flow => flow <> FlowNext /\ exists pre i, js = pre ++ [i] /\ flow_control i = flow /\
      Forall (fun j => flow_control j = FlowNext) pre
  | EndOfInput => position = Z.of_nat (length window) /\
      Forall (fun j => flow_control j = FlowNext) js
  | InstructionLimit => Z.of_nat (length js) = max_instructions config /\
      position < Z.of_nat (length window) /\ Forall (fun j => flow_control j = FlowNext) js
  | ByteLimit => False
  end.

Context (config : DecodeConfig) (start : GuestVa) (window : list Z).
Hypothesis start_ok : u32 start.
Hypothesis window_ok : Z.of_nat (length window) < 2 ^ 32.
Hypothesis limit_ok : 0 < max_instructions config.

Lemma decode_advance q i : 0 <= q < Z.of_nat (length window) ->
  iced_decode (drop (Z.to_nat q) window) (start + q) = Ok i ->
  1 <= len i /\ q + len i <= Z.of_nat (length window).
Proof.
  intros Hq Hd. apply decode_wf in Hd as (Hwf & Hl & _); [|unfold is_u in *; lia].
  rewrite length_drop in Hl. destruct Hwf as (_ & ? & _). lia.
Qed.

Lemma decode_loop_total fuel position decoded : 0 <= position <= Z.of_nat (length window) ->
  Z.of_nat (length window) - position < Z.of_nat fuel ->
  is_Some (decode_loop flow_control fuel config start window position decoded).
Proof.
  revert position decoded. induction fuel as [|fuel IH]; intros position decoded Hp Hf; [lia|].
  cbn [decode_loop]. destruct (Z.ltb_spec position (Z.of_nat (length window))); cbn [negb]; [|done].
  case_match; [done|]. destruct (iced_decode _ _) as [i|] eqn:Hd; [|done].
  apply decode_advance in Hd; [|lia]. case_match; [done|]. apply IH; lia.
Qed.

Lemma decode_loop_run fuel position decoded js q stop :
  run_of start window 0 decoded position -> 0 <= position <= Z.of_nat (length window) ->
  Z.of_nat (length decoded) <= max_instructions config ->
  Forall (fun j => flow_control j = FlowNext) decoded ->
  decode_loop flow_control fuel config start window position decoded = Some (Ok (js, q, stop)) ->
  run_of start window 0 js q /\ 0 <= q <= Z.of_nat (length window) /\
  Z.of_nat (length js) <= max_instructions config /\ stop_explained config window js q stop.
Proof.
  revert position decoded. induction fuel as [|fuel IH]; intros position decoded Hrun Hp Hn Hall Hl;
    cbn [decode_loop] in Hl; [done|].
  destruct (Z.ltb_spec position (Z.of_nat (length window))); cbn [negb] in Hl.
  2: { simplify_eq. split_and!; try done; try lia. split; [lia|done]. }
  destruct (Z.leb_spec (max_instructions config) (Z.of_nat (length decoded))).
  { simplify_eq. split_and!; try done; try lia. split; [lia|done]. }
  destruct (iced_decode _ _) as [i|] eqn:Hd; [|done].
  pose proof (decode_advance position i ltac:(lia) Hd) as [Hl1 Hl2].
  assert (run_of start window 0 (decoded ++ [i]) (position + len i)) as Hrun'
    by (apply run_snoc; [done|lia|done]).
  case_bool_decide as Hflow; cbn [negb] in Hl.
  - eapply IH in Hl; [done|done|lia|rewrite length_app; cbn; lia|].
    apply Forall_app. by split; [|constructor].
  - simplify_eq. split_and!; try done; try lia; [rewrite length_app; cbn; lia|].
    split; [done|]. by exists decoded, i.
Qed.

Lemma address_clamped q : 0 <= q -> default U32_MAX (try_from_u 32 (start + q)) = Z.min (start + q) U32_MAX.
Proof.
  intros Hq. unfold try_from_u, U32_MAX, is_u in *.
  destruct (Z.ltb_spec (start + q) (2 ^ 32)); rewrite ?andb_true_r, ?andb_false_r; cbn [default];
    [rewrite (proj2 (Z.leb_le 0 (start + q))) by lia; cbn [default id]|]; lia.
Qed.

Lemma decode_loop_error fuel position decoded e : 0 <= position <= Z.of_nat (length window) ->
  decode_loop flow_control fuel config start window position decoded = Some (Err e) ->
  exists q err, 0 <= q < Z.of_nat (length window) /\
    iced_decode (drop (Z.to_nat q) window) (start + q) = Err err /\
    e = InvalidInstruction (Z.min (start + q) U32_MAX).
Proof.
  revert position decoded. induction fuel as [|fuel IH]; intros position decoded Hp Hl;
    cbn [decode_loop] in Hl; [done|].
  destruct (Z.ltb_spec position (Z.of_nat (length window))); cbn [negb] in Hl; [|done].
  case_match; [done|]. destruct (iced_decode _ _) as [i|err] eqn:Hd.
  - apply decode_advance in Hd; [|lia]. case_match; [done|]. eapply IH, Hl. lia.
  - rewrite address_clamped in Hl by lia. simplify_eq. exists position, err. split_and!; done || lia.
Qed.
End Correctness.

Lemma block_decode_spec `{IcedLaws} (flow_control : Instruction -> FlowControl)
    config start bytes :
  u32 start -> Z.of_nat (length bytes) < 2 ^ 32 ->
  0 < max_instructions config -> 0 < max_bytes config ->
  let window := take (Z.to_nat (Z.min (Z.of_nat (length bytes)) (max_bytes config))) bytes in
  match BasicBlockDecoder_decode flow_control config start bytes with
  | Err (InvalidInstruction a) => exists q e, 0 <= q < Z.of_nat (length window) /\
      iced_decode (drop (Z.to_nat q) window) (start + q) = Err e /\
      a = Z.min (start + q) U32_MAX
  | Err (InvalidConfiguration _) => False
  | Ok block =>
    block_start block = start /\
    run_of start window 0 (instructions block) (byte_len block) /\
    Z.of_nat (length (instructions block)) <= max_instructions config /\
    byte_len block <= Z.of_nat (length window) /\
    match stop block with
    | ByteLimit => byte_len block = max_bytes config /\ byte_len block < Z.of_nat (length bytes) /\
        Forall (fun j => flow_control j = FlowNext) (instructions block)
    | EndOfInput => byte_len block = Z.of_nat (length bytes) /\
        Forall (fun j => flow_control j = FlowNext) (instructions block)
    | other => stop_explained flow_control config window (instructions block) (byte_len block) other
    end
  end.
Proof.
  intros Hstart Hlen Hmi Hmb window. unfold BasicBlockDecoder_decode.
  rewrite (proj2 (Z.eqb_neq (max_instructions config) 0)), (proj2 (Z.eqb_neq (max_bytes config) 0))
    by lia. cbn zeta. fold window.
  assert (Z.of_nat (length window) = Z.min (Z.of_nat (length bytes)) (max_bytes config)) as Hwin
    by (unfold window; rewrite length_take; lia).
  destruct (decode_loop_total flow_control config start window Hstart ltac:(lia)
    (decode_fuel window) 0 []) as [res Hres]; [lia | unfold decode_fuel; lia |].
  rewrite Hres. cbn [default id]. destruct res as [[[js q] st]|e]; cbn [mbind result_bind].
  - destruct (decode_loop_run flow_control config start window Hstart ltac:(lia) _ _ _ _ _ _
      (run_nil _ _ 0) ltac:(lia) ltac:(cbn; lia) ltac:(constructor) Hres)
      as (Hrun & Hq & Hn & Hst).
    cbn [block_start instructions byte_len stop].
    split; [done|]. split; [done|]. split; [done|]. split; [lia|].
    destruct st as [flow| | |]; cbn [stop_explained] in Hst; try done.
    destruct Hst as [Hend Hall]. destruct (Z.ltb_spec
      (Z.min (Z.of_nat (length bytes)) (max_bytes config)) (Z.of_nat (length bytes)));
      split_and!; done || lia.
  - apply decode_loop_error in Hres as (p & err & Hp & Hd & ->); try done; try lia.
    by exists p, err.
Qed.

(** C39: block decoding.  With non-zero limits the decoder always answers: an
    error names a position where no instruction decodes, and a block is the
    run of consecutive instructions from its start, within both limits, none
    but the last leaving the straight line; the stop reason is the true one
    (a branch last, the input or the byte window used up, or the instruction
    limit reached with bytes left). *)
Theorem block_decode_correct `{IcedLaws} (flow_control : Instruction -> FlowControl)
    config start bytes :
  u32 start -> Z.of_nat (length bytes) < 2 ^ 32 ->
  0 < max_instructions config -> 0 < max_bytes config ->
  let window := take (Z.to_nat (Z.min (Z.of_nat (length bytes)) (max_bytes config))) bytes in
  match BasicBlockDecoder_decode flow_control config start bytes with
  | Err (InvalidInstruction a) => exists q e, 0 <= q < Z.of_nat (length window) /\
      iced_decode (drop (Z.to_nat q) window) (start + q) = Err e /\
      a = Z.min (start + q) U32_MAX
  | Err (InvalidConfiguration _) => False
  | Ok block =>
    block_start block = start /\
    run_of start window 0 (instructions block) (byte_len block) /\
    Z.of_nat (length (instructions block)) <= max_instructions config /\
    byte_len block <= Z.of_nat (length window) /\
    match stop block with
    | ByteLimit => byte_len block = max_bytes config /\ byte_len block < Z.of_nat (length bytes) /\
        Forall (fun j => flow_control j = FlowNext) (instructions block)
    | EndOfInput => byte_len block = Z.of_nat (length bytes) /\
        Forall (fun j => flow_control j = FlowNext) (instructions block)
    | other => stop_explained flow_control config window (instructions block) (byte_len block) other
    end
  end.
Proof. apply block_decode_spec. Qed.

(** [nop; nop; ret], with the byte limit inside it and beyond it. *)
#[local] Existing Instance DemoIced.
#[local] Existing Instance demo_iced_laws.

Definition demo_flow (i : Instruction) : FlowControl :=
  match mnemonic i with Mnemonic.Ret => FlowReturn | _ => FlowNext end.

Lemma block_decode_correct_witness :
  match BasicBlockDecoder_decode demo_flow DecodeConfig_default 0x5000 [0x90; 0x90; 0xC3] with
  | Ok block => run_of 0x5000 [0x90; 0x90; 0xC3] 0 (instructions block) 3 /\
      stop block = ControlFlow FlowReturn
  | Err _ => False
  end.
Proof.
  pose proof (block_decode_correct demo_flow DecodeConfig_default 0x5000 [0x90; 0x90; 0xC3])
    as Hok.
  specialize (Hok ltac:(unfold is_u; lia) ltac:(cbn; lia) ltac:(cbn; lia) ltac:(cbn; lia)).
  vm_compute in Hok |- *. split; [apply Hok | reflexivity].
Defined.
