(* ===== verification/KernelTypes.v ===== *)
(** * Requests, results and statuses of the kernel services

    Models the data of [exbawks-kernel/src/services.rs] (what an export and
    the runtime exchange), [status.rs] and the status mapping of [file.rs].
    Constructors that would shadow those of the memory errors live in the
    module [Svc]. *)

From stdpp Require Import strings.
From S2P Require Import Prelude GuestTypes.

(** ** [status.rs] *)

Module KernelStatus.
Definition SUCCESS : Z := 0x00000000.
Definition NOT_IMPLEMENTED : Z := 0xC0000002.
Definition INVALID_PARAMETER : Z := 0xC000000D.
Definition ACCESS_VIOLATION : Z := 0xC0000005.
Definition INSUFFICIENT_RESOURCES : Z := 0xC000009A.
Definition NO_MEMORY : Z := 0xC0000017.
Definition INVALID_HANDLE : Z := 0xC0000008.
Definition BUFFER_TOO_SMALL : Z := 0xC0000023.
Definition ACCESS_DENIED : Z := 0xC0000022.
Definition OBJECT_NAME_NOT_FOUND : Z := 0xC0000034.
Definition END_OF_FILE : Z := 0xC0000011.

Definition is_success (self : Z) : bool := Z.shiftr self 31 =? 0.
End KernelStatus.

(** ** [services.rs] *)

Module Svc.
Inductive KernelServiceError : Type :=
| Unsupported | ResourceExhausted | NotFound | AccessDenied | InvalidHandle.

#[global] Instance KernelServiceError_eq_dec : EqDecision KernelServiceError.
Proof. solve_decision. Defined.
End Svc.

Record ThreadCreateRequest : Type := mkThreadCreateRequest {
  thread_extension_size : Z;
  kernel_stack_size : Z;
  tls_data_size : Z;
  start_routine : GuestVa;
  start_context1 : Z;
  start_context2 : Z;
  create_suspended : bool;
}.

Record ThreadCreated : Type := mkThreadCreated {
  created_handle : Z;
  created_thread_id : Z;
  created_kthread : GuestVa;
}.

Record VirtualAllocRequest : Type := mkVirtualAllocRequest {
  req_base : Z;
  req_size : Z;
  req_allocation_type : Z;
  req_protect : Z;
}.

Record VirtualAllocation : Type := mkVirtualAllocation {
  alloc_base : GuestVa;
  alloc_size : Z;
}.

Record FileOpenRequest : Type := mkFileOpenRequest {
  open_path : string;
  write_access : bool;
  create : bool;
  directory : bool;
}.

Record FileOpened : Type := mkFileOpened {
  opened_handle : Z;
  opened_created : bool;
}.

Record FileInfo : Type := mkFileInfo {
  info_size : Z;
  info_position : Z;
  info_directory : bool;
}.

Record InterruptRoutine : Type := mkInterruptRoutine {
  int_object : Z;
  int_routine : Z;
  int_context : Z;
  int_vector : Z;
}.

Record DisplayMode : Type := mkDisplayMode {
  frame_buffer : Z;
  display_format : Z;
  pitch : Z;
  display_mode_word : Z;
}.

Inductive WaitOutcome : Type := Signaled | Pending | TimedOut.

Inductive MultiWaitOutcome : Type :=
| MultiSatisfied (index : Z)
| MultiTimedOut
| MultiPending.

#[export] Instance WaitOutcome_eq_dec : EqDecision WaitOutcome.
Proof. solve_decision. Defined.
#[export] Instance MultiWaitOutcome_eq_dec : EqDecision MultiWaitOutcome.
Proof. solve_decision. Defined.

(** [open_error_status] of [file.rs]. *)
Definition open_error_status (error : Svc.KernelServiceError) : Z :=
  match error with
  | Svc.AccessDenied => KernelStatus.ACCESS_DENIED
  | Svc.InvalidHandle => KernelStatus.INVALID_HANDLE
  | Svc.ResourceExhausted => KernelStatus.INSUFFICIENT_RESOURCES
  | Svc.NotFound | Svc.Unsupported => KernelStatus.OBJECT_NAME_NOT_FOUND
  end.
