(* ===== verification/HostFiles.v ===== *)
(** * The host-backed file device

    Models [exbawks-kernel/src/hostfs.rs]: the confinement of guest paths to
    a mount, symbolic links, and the open-file table.

    The host file system is not code of the repository: it is the class
    [HostOs] of the calls the device makes, on a state of the host that the
    calls may change.  A Rust string is the [string] of its UTF-8 bytes, and a
    host path the list of its components.  Slicing a string inside a character
    panics in Rust; an operation that may do so answers [None] then, and
    [Some] of its Rust result otherwise.  Pushing a component onto a path
    appends it, as on a host without drive letters; on Windows a component such
    as [C:] replaces the path, and the checks of [locate] are made on what
    results. *)

From Stdlib Require Import Ascii.
From stdpp Require Import strings.
From S2P Require Import Prelude GuestTypes KernelTypes.

(** ** Strings *)

Definition byte_of (c : ascii) : Z := Z.of_N (N_of_ascii c).

(** The bytes [0x80..=0xBF] continue a UTF-8 character. *)
Definition continues_char (c : ascii) : bool := (0x80 <=? byte_of c) && (byte_of c <=? 0xBF).

(** The rest of the text after [n] bytes. *)
Fixpoint str_drop (n : nat) (text : string) : string :=
  match n, text with
  | O, _ => text
  | S n, String _ text => str_drop n text
  | S _, EmptyString => EmptyString
  end.

Fixpoint str_take (n : nat) (text : string) : string :=
  match n, text with
  | S n, String c text => String c (str_take n text)
  | _, _ => EmptyString
  end.

(** [text.is_char_boundary(n)] for [n <= text.len()]. *)
Definition is_char_boundary (text : string) (n : nat) : bool :=
  match n, str_drop n text with
  | O, _ | _, EmptyString => true
  | _, String c _ => negb (continues_char c)
  end.

Definition to_ascii_uppercase_char (c : ascii) : ascii :=
  if (97 <=? byte_of c) && (byte_of c <=? 122)
  then ascii_of_N (Z.to_N (byte_of c - 32)) else c.

Fixpoint to_ascii_uppercase (text : string) : string :=
  match text with
  | EmptyString => EmptyString
  | String c text => String (to_ascii_uppercase_char c) (to_ascii_uppercase text)
  end.

Definition eq_ignore_ascii_case (a b : string) : bool :=
  bool_decide (to_ascii_uppercase a = to_ascii_uppercase b).

Definition is_separator (c : ascii) : bool := (byte_of c =? 92) || (byte_of c =? 47).

(** [rest.is_empty() || rest.starts_with('\\') || rest.starts_with('/')]. *)
Definition at_separator (rest : string) : bool :=
  match rest with
  | EmptyString => true
  | String c _ => is_separator c
  end.

(** [remainder.split(['\\', '/'])]. *)
Fixpoint split_separators (text : string) : list string :=
  match text with
  | EmptyString => [EmptyString]
  | String c text =>
    if is_separator c then EmptyString :: split_separators text
    else match split_separators text with
         | word :: words => String c word :: words
         | [] => [String c EmptyString]
         end
  end.

Fixpoint contains_nul (text : string) : bool :=
  match text with
  | EmptyString => false
  | String c text => (byte_of c =? 0) || contains_nul text
  end.

(** The slice panics when it would cut a character. *)
Definition strip_prefix_ci (text prefix : string) : option (option string) :=
  let n := String.length prefix in
  if (n <=? String.length text)%nat then
    if is_char_boundary text n then
      Some (if eq_ignore_ascii_case (str_take n text) prefix
            then Some (str_drop n text) else None)
    else None
  else Some None.

(** [strip_prefix_ci] where the rest must also begin at a separator. *)
Definition strip_device (text prefix : string) : option (option string) :=
  rest ← strip_prefix_ci text prefix;
  Some (rest ← rest; if at_separator rest then Some rest else None).

(** ** The sandbox *)

(** One round of the loop of [sandbox_components]; [components.pop()?]
    leaves the function on an empty stack. *)
Definition sandbox_step (components : list string) (raw : string) : option (list string) :=
  if bool_decide (raw = EmptyString) || bool_decide (raw = ".") then Some components
  else if bool_decide (raw = "..") then
    match components with
    | [] => None
    | _ => Some (removelast components)
    end
  else if contains_nul raw then None
  else Some (components ++ [raw]).

Fixpoint sandbox_loop (components : list string) (raws : list string) : option (list string) :=
  match raws with
  | [] => Some components
  | raw :: raws => components ← sandbox_step components raw; sandbox_loop components raws
  end.

Definition sandbox_components (remainder : string) : option (list string) :=
  sandbox_loop [] (split_separators remainder).

(** ** The host *)

Abbreviation path := (list string) (only parsing).

(** What one [read] call of the host answers. *)
Inductive ReadResult : Type :=
| ReadBytes (bytes : list Z)
| ReadInterrupted
| ReadFailed.

Class HostOs : Type := {
  World : Type;
  File : Type;
  canonicalize : World -> path -> option path;
  is_file : World -> path -> bool;
  is_dir : World -> path -> bool;
  (** [File::options().read(true).write(w).open(p)]. *)
  os_open : World -> path -> bool -> option File;
  (** [File::options().read(true).write(true).create(true).truncate(false).open(p)]. *)
  os_create : World -> path -> option File * World;
  create_dir_all : World -> path -> bool * World;
  seek : World -> File -> Z -> option File;
  write_all : World -> File -> list Z -> bool * File * World;
  set_len : World -> File -> Z -> bool * World;
  read_some : World -> File -> nat -> ReadResult * File;
  file_len : World -> File -> option Z;
  (** The order in which a [HashMap] of links is iterated. *)
  link_order : gmap string string -> list (string * string);
}.

Definition FILE_HANDLE_BASE : Z := 0x00000100.
Definition FILE_HANDLE_STEP : Z := 4.
Definition MAX_READ_BYTES : Z := 64 * 1024 * 1024.

Definition DISC_PREFIXES : list string :=
  ["\Device\CdRom0"; "\??\D:"; "\??\CdRom0:"; "D:"]%string.
Definition HDD_PREFIX : string := "\Device\Harddisk0\Partition1".
Definition CACHE_LETTERS : list string :=
  ["X:"; "Y:"; "Z:"; "\??\X:"; "\??\Y:"; "\??\Z:"]%string.

Section Device.
Context `{HostOs}.

Record OpenFile : Type := mkOpenFile {
  file : option File;
  position : Z;
}.

Record HostFileSystem : Type := mkHostFileSystem {
  disc_root : option path;
  hdd_root : option path;
  files : gmap Z OpenFile;
  next_handle : Z;
  links : gmap string string;
  link_objects : gmap Z string;
}.

Definition HostFileSystem_new (disc hdd : option path) : HostFileSystem :=
  mkHostFileSystem disc hdd ∅ FILE_HANDLE_BASE ∅ ∅.

Definition with_files (s : HostFileSystem) (m : gmap Z OpenFile) : HostFileSystem :=
  mkHostFileSystem (disc_root s) (hdd_root s) m (next_handle s) (links s) (link_objects s).
Definition with_links (s : HostFileSystem) (m : gmap string string) : HostFileSystem :=
  mkHostFileSystem (disc_root s) (hdd_root s) (files s) (next_handle s) m (link_objects s).

(** [self.next_handle] and its advance. *)
Definition take_handle (s : HostFileSystem) : Z * HostFileSystem :=
  (next_handle s,
   mkHostFileSystem (disc_root s) (hdd_root s) (files s)
     (wrapping_add32 (next_handle s) FILE_HANDLE_STEP) (links s) (link_objects s)).

Definition open_link_object (s : HostFileSystem) (name : string)
  : result Svc.KernelServiceError Z * HostFileSystem :=
  match links s !! to_ascii_uppercase name with
  | None => (Err Svc.NotFound, s)
  | Some target =>
    let '(handle, s) := take_handle s in
    (Ok handle,
     mkHostFileSystem (disc_root s) (hdd_root s) (files s) (next_handle s) (links s)
       (<[handle := target]> (link_objects s)))
  end.

Definition link_target (s : HostFileSystem) (handle : Z)
  : result Svc.KernelServiceError string :=
  ok_or (link_objects s !! handle) Svc.InvalidHandle.

Definition create_link (s : HostFileSystem) (name target : string) : HostFileSystem :=
  with_links s (<[to_ascii_uppercase name := target]> (links s)).

Definition delete_link (s : HostFileSystem) (name : string) : bool * HostFileSystem :=
  let name := to_ascii_uppercase name in
  (bool_decide (is_Some (links s !! name)), with_links s (delete name (links s))).

(** The inner [for] of [apply_links]: the first link whose name matches. *)
Fixpoint rewrite_link (order : list (string * string)) (current : string)
  : option (option string) :=
  match order with
  | [] => Some None
  | (name, target) :: order =>
    rest ← strip_device current name;
    match rest with
    | Some rest => Some (Some (target +:+ rest)%string)
    | None => rewrite_link order current
    end
  end.

Definition MAX_HOPS : nat := 4.

Fixpoint apply_links_hops (hops : nat) (s : HostFileSystem) (current : string)
  : option string :=
  match hops with
  | O => Some current
  | S hops =>
    rewritten ← rewrite_link (link_order (links s)) current;
    match rewritten with
    | Some next => apply_links_hops hops s next
    | None => Some current
    end
  end.

Definition apply_links (s : HostFileSystem) (p : string) : option string :=
  apply_links_hops MAX_HOPS s p.

(** [letter.chars().rev().nth(1).unwrap_or('Z')]. *)
Definition drive_letter (letter : string) : ascii :=
  match rev (String.list_ascii_of_string letter) with
  | _ :: c :: _ => c
  | _ => "Z"%char
  end.

Fixpoint mount_cache (s : HostFileSystem) (p : string) (letters : list string)
  : option (option (path * string * bool)) :=
  match letters with
  | [] => Some None
  | letter :: letters =>
    rest ← strip_device p letter;
    match rest, hdd_root s with
    | Some rest, Some root =>
      Some (Some (root, String "\" (String (drive_letter letter) rest), true))
    | _, _ => mount_cache s p letters
    end
  end.

Fixpoint mount_disc (root : path) (p : string) (prefixes : list string)
  : option (option (path * string * bool)) :=
  match prefixes with
  | [] => Some None
  | prefix :: prefixes =>
    rest ← strip_device p prefix;
    match rest with
    | Some rest => Some (Some (root, rest, false))
    | None => mount_disc root p prefixes
    end
  end.

Definition mount_for (s : HostFileSystem) (p : string)
  : option (option (path * string * bool)) :=
  rest ← strip_device p HDD_PREFIX;
  match rest with
  | Some rest =>
    match hdd_root s with
    | Some root => Some (Some (root, rest, true))
    | None => Some (root ← disc_root s; Some (root, rest, false))
    end
  | None =>
    cached ← mount_cache s p CACHE_LETTERS;
    match cached with
    | Some mount => Some (Some mount)
    | None =>
      match disc_root s with
      | None => Some None
      | Some root => mount_disc root p DISC_PREFIXES
      end
    end
  end.

(** [canonical.starts_with(&canonical_root)]: by components. *)
Definition path_starts_with (p root : path) : bool := bool_decide (root `prefix_of` p).

(** The [while let Some(parent)] loop of [locate]: [ancestor] loses its last
    component until some parent exists on the host. *)
Fixpoint ancestor_inside (w : World) (canonical_root : path) (reversed : list string) : bool :=
  match reversed with
  | [] => false
  | _ :: parent =>
    match canonicalize w (rev parent) with
    | Some canonical => path_starts_with canonical canonical_root
    | None => ancestor_inside w canonical_root parent
    end
  end.

Definition locate (s : HostFileSystem) (w : World) (p : string)
  : option (option (path * bool * bool)) :=
  p ← apply_links s p;
  mount ← mount_for s p;
  Some
    ('(root, remainder, writable) ← mount;
     components ← sandbox_components remainder;
     canonical_root ← canonicalize w root;
     let resolved := root ++ components in
     match canonicalize w resolved with
     | Some canonical =>
       if path_starts_with canonical canonical_root
       then Some (canonical, true, writable) else None
     | None =>
       if ancestor_inside w canonical_root (rev resolved)
       then Some (resolved, false, writable) else None
     end).

(** [Path::parent]. *)
Definition path_parent (p : path) : option path :=
  match p with
  | [] => None
  | _ => Some (removelast p)
  end.

(** What [open] makes of a located object: the open file (or the marker of a
    directory) and whether it was created. *)
Definition open_object (w : World) (request : FileOpenRequest) (resolved : path) (exists_ : bool)
  : result Svc.KernelServiceError (option File * bool) * World :=
  if exists_ && is_file w resolved then
    match os_open w resolved (write_access request) with
    | Some handle => (Ok (Some handle, false), w)
    | None => (Err Svc.NotFound, w)
    end
  else if exists_ && is_dir w resolved then (Ok (None, false), w)
  else if negb exists_ && create request then
    if directory request then
      match create_dir_all w resolved with
      | (true, w) => (Ok (None, true), w)
      | (false, w) => (Err Svc.AccessDenied, w)
      end
    else
      let '(made, w) :=
        match path_parent resolved with
        | Some parent => create_dir_all w parent
        | None => (true, w)
        end in
      if made then
        match os_create w resolved with
        | (Some handle, w) => (Ok (Some handle, true), w)
        | (None, w) => (Err Svc.AccessDenied, w)
        end
      else (Err Svc.AccessDenied, w)
  else (Err Svc.NotFound, w).

Definition fs_open (s : HostFileSystem) (w : World) (request : FileOpenRequest)
  : option (result Svc.KernelServiceError FileOpened * HostFileSystem * World) :=
  located ← locate s w (open_path request);
  Some
    (match located with
     | None => (Err Svc.NotFound, s, w)
     | Some (resolved, exists_, writable) =>
       if (write_access request || (create request && negb exists_)) && negb writable
       then (Err Svc.AccessDenied, s, w)
       else match open_object w request resolved exists_ with
            | (Err e, w) => (Err e, s, w)
            | (Ok (f, created), w) =>
              let '(handle, s) := take_handle s in
              (Ok (mkFileOpened handle created),
               with_files s (<[handle := mkOpenFile f 0]> (files s)), w)
            end
     end).

Definition set_position (s : HostFileSystem) (handle offset : Z)
  : result Svc.KernelServiceError unit * HostFileSystem :=
  match files s !! handle with
  | None => (Err Svc.InvalidHandle, s)
  | Some entry =>
    (Ok tt, with_files s (<[handle := mkOpenFile (file entry) offset]> (files s)))
  end.

Definition set_length (s : HostFileSystem) (w : World) (handle length : Z)
  : result Svc.KernelServiceError unit * World :=
  match files s !! handle with
  | None => (Err Svc.InvalidHandle, w)
  | Some entry =>
    match file entry with
    | None => (Err Svc.AccessDenied, w)
    | Some f =>
      let '(done, w) := set_len w f length in
      (if done then Ok tt else Err Svc.AccessDenied, w)
    end
  end.

(** The host's own cursor of the file moves with each call, also when the
    call after it fails. *)
Definition fs_write (s : HostFileSystem) (w : World) (handle : Z) (offset : option Z)
    (bytes : list Z) : result Svc.KernelServiceError Z * HostFileSystem * World :=
  match files s !! handle with
  | None => (Err Svc.InvalidHandle, s, w)
  | Some entry =>
    match file entry with
    | None => (Err Svc.AccessDenied, s, w)
    | Some f =>
      let start := default (position entry) offset in
      match seek w f start with
      | None => (Err Svc.AccessDenied, s, w)
      | Some f =>
        let '(done, f, w) := write_all w f bytes in
        let len := Z.of_nat (length bytes) in
        if done
        then (Ok (wrap32 len),
              with_files s (<[handle := mkOpenFile (Some f) (saturating_add 64 start len)]>
                              (files s)), w)
        else (Err Svc.AccessDenied,
              with_files s (<[handle := mkOpenFile (Some f) (position entry)]> (files s)), w)
      end
    end
  end.

(** The [while filled < want] loop of [read]; [None] when the fuel runs out. *)
Fixpoint read_loop (fuel : nat) (w : World) (f : File) (want : nat) (filled : list Z)
  : option (result Svc.KernelServiceError (list Z) * File) :=
  match fuel with
  | O => None
  | S fuel =>
    if (length filled <? want)%nat then
      match read_some w f (want - length filled)%nat with
      | (ReadBytes [], f) => Some (Ok filled, f)
      | (ReadBytes bytes, f) => read_loop fuel w f want (filled ++ bytes)
      | (ReadInterrupted, f) => read_loop fuel w f want filled
      | (ReadFailed, f) => Some (Err Svc.AccessDenied, f)
      end
    else Some (Ok filled, f)
  end.

Definition fs_read (fuel : nat) (s : HostFileSystem) (w : World) (handle : Z)
    (offset : option Z) (len : Z)
  : option (result Svc.KernelServiceError (list Z) * HostFileSystem) :=
  match files s !! handle with
  | None => Some (Err Svc.InvalidHandle, s)
  | Some entry =>
    match file entry with
    | None => Some (Ok [], s)
    | Some f =>
      let start := default (position entry) offset in
      match seek w f start with
      | None => Some (Err Svc.AccessDenied, s)
      | Some f =>
        '(r, f) ← read_loop fuel w f (Z.to_nat (Z.min len MAX_READ_BYTES)) [];
        let moved :=
          match r with
          | Ok bytes => saturating_add 64 start (Z.of_nat (length bytes))
          | Err _ => position entry
          end in
        Some (r, with_files s (<[handle := mkOpenFile (Some f) moved]> (files s)))
      end
    end
  end.

Definition fs_info (s : HostFileSystem) (w : World) (handle : Z)
  : result Svc.KernelServiceError FileInfo :=
  entry ← ok_or (files s !! handle) Svc.InvalidHandle;
  size ← match file entry with
         | Some f => ok_or (file_len w f) Svc.AccessDenied
         | None => Ok 0
         end;
  Ok (mkFileInfo size (position entry) (bool_decide (file entry = None))).

(** [files.remove(..).is_some() || link_objects.remove(..).is_some()]. *)
Definition fs_close (s : HostFileSystem) (handle : Z) : bool * HostFileSystem :=
  if bool_decide (is_Some (files s !! handle))
  then (true, with_files s (delete handle (files s)))
  else (bool_decide (is_Some (link_objects s !! handle)),
        mkHostFileSystem (disc_root s) (hdd_root s) (files s) (next_handle s) (links s)
          (delete handle (link_objects s))).
End Device.
