(* ===== verification/HostFileTheorems.v ===== *)
(** * What the host-backed file device guarantees

    Confinement: what [sandbox_components] accepts and what it returns, and
    what [locate] may name on the host, whatever the host answers.  The disc
    mount stays read-only.  Reading ends, and returns what the host gave. *)

From Stdlib Require Import Ascii.
From stdpp Require Import strings.
From S2P Require Import Prelude GuestTypes KernelTypes HostFiles.

(** ** Components *)

Fixpoint no_separator (text : string) : bool :=
  match text with
  | EmptyString => true
  | String c text => negb (is_separator c) && no_separator text
  end.

(** A path component that names an entry of the directory it is looked up in. *)
Definition clean_component (c : string) : Prop :=
  c <> EmptyString /\ c <> "."%string /\ c <> ".."%string /\
  contains_nul c = false /\ no_separator c = true.

(** The change of depth one raw component stands for. *)
Definition component_depth (raw : string) : Z :=
  if bool_decide (raw = EmptyString) || bool_decide (raw = "."%string) then 0
  else if bool_decide (raw = ".."%string) then -1 else 1.

Definition depth (raws : list string) : Z :=
  foldr (fun raw acc => component_depth raw + acc) 0 raws.

(** Components joined by the guest's separator. *)
Fixpoint join_components (cs : list string) : string :=
  match cs with
  | [] => EmptyString
  | c :: cs => (String "\" c +:+ join_components cs)%string
  end.

Lemma split_no_separator text : Forall (fun w => no_separator w = true) (split_separators text).
Proof.
  induction text as [|c text IH]; cbn [split_separators]; [by repeat constructor|].
  destruct (is_separator c) eqn:Hc; [by constructor|].
  destruct (split_separators text) as [|w ws]; [by constructor; cbn; rewrite ?Hc|].
  inversion_clear IH as [|? ? Hw Hws]. constructor; [|done]. cbn. by rewrite Hc.
Qed.

Lemma length_removelast {A} (l : list A) : l <> [] ->
  Z.of_nat (length (removelast l)) = Z.of_nat (length l) - 1.
Proof.
  intros Hl. destruct (exists_last Hl) as (l' & x & ->).
  rewrite removelast_last, length_app. cbn. lia.
Qed.

(** One round: refused exactly at an escape or a NUL, and otherwise the
    stack moves by the component's depth. *)
Lemma sandbox_step_spec cs raw :
  match sandbox_step cs raw with
  | None => (contains_nul raw = true) \/ Z.of_nat (length cs) + component_depth raw < 0
  | Some cs' => contains_nul raw = false /\
      Z.of_nat (length cs') = Z.of_nat (length cs) + component_depth raw /\
      (no_separator raw = true -> Forall clean_component cs -> Forall clean_component cs')
  end.
Proof.
  unfold sandbox_step, component_depth.
  destruct (bool_decide (raw = EmptyString)) eqn:He;
    [apply bool_decide_eq_true in He as ->; cbn; split_and!; auto with lia|].
  destruct (bool_decide (raw = "."%string)) eqn:Hd;
    [apply bool_decide_eq_true in Hd as ->; cbn; split_and!; auto with lia|].
  cbn [orb]. destruct (bool_decide (raw = ".."%string)) eqn:Hp.
  - apply bool_decide_eq_true in Hp as ->. destruct cs as [|c cs]; [right; cbn; lia|].
    split_and!; [done | by rewrite length_removelast by done; lia |].
    intros _ Hcs. destruct (exists_last (l := c :: cs) ltac:(done)) as (l & x & Heq).
    rewrite Heq in *. rewrite removelast_last. by apply Forall_app in Hcs as [? _].
  - destruct (contains_nul raw) eqn:Hn; [by left|].
    bool_to_prop. split_and!; [done | rewrite length_app; cbn; lia |].
    intros Hs Hcs. apply Forall_app. split; [done|]. by repeat constructor.
Qed.

Lemma sandbox_loop_spec raws cs :
  match sandbox_loop cs raws with
  | None => Exists (fun raw => contains_nul raw = true) raws \/
      exists k, Z.of_nat (length cs) + depth (take k raws) < 0
  | Some cs' => Forall (fun raw => contains_nul raw = false) raws /\
      (forall k, 0 <= Z.of_nat (length cs) + depth (take k raws)) /\
      Z.of_nat (length cs') = Z.of_nat (length cs) + depth raws /\
      (Forall (fun w => no_separator w = true) raws -> Forall clean_component cs ->
       Forall clean_component cs')
  end.
Proof.
  revert cs. induction raws as [|raw raws IH]; intros cs; cbn [sandbox_loop].
  - split_and!; auto with lia. 2: cbn; lia. intros k. rewrite take_nil. cbn. lia.
  - pose proof (sandbox_step_spec cs raw) as Hstep.
    destruct (sandbox_step cs raw) as [cs1|]; cbn [mbind option_bind].
    + destruct Hstep as (Hn & Hlen & Hclean). specialize (IH cs1).
      destruct (sandbox_loop cs1 raws) as [cs2|].
      * destruct IH as (Hn' & Hk & Hlen' & Hclean'). split_and!.
        -- by constructor.
        -- intros [|k]; cbn [take depth foldr]; [lia|]. specialize (Hk k). unfold depth in *. lia.
        -- cbn [depth foldr]. unfold depth in *. lia.
        -- intros Hs Hcs. inversion_clear Hs. auto.
      * destruct IH as [IH|[k Hk]]; [left; by constructor 2|].
        right. exists (S k). cbn [take depth foldr]. unfold depth in *. lia.
    + destruct Hstep as [Hs|Hs]; [left; by constructor|].
      right. exists 1%nat. cbn [take depth foldr]. rewrite firstn_O. cbn. lia.
Qed.

Lemma sandbox_components_clean remainder cs :
  sandbox_components remainder = Some cs -> Forall clean_component cs.
Proof.
  unfold sandbox_components. intros Hrun.
  pose proof (sandbox_loop_spec (split_separators remainder) []) as Hspec.
  rewrite Hrun in Hspec. destruct Hspec as (_ & _ & _ & Hspec).
  apply Hspec; [apply split_no_separator | constructor].
Qed.

Lemma str_app_cons c s t : (String c s +:+ t = String c (s +:+ t))%string.
Proof. reflexivity. Qed.

Lemma split_word_app c rest : no_separator c = true ->
  split_separators (c +:+ String "\" rest)%string = c :: split_separators rest.
Proof.
  induction c as [|x c IH]; [done|]. cbn [no_separator]. intros Hc.
  apply andb_true_iff in Hc as [Hx Hc]. apply negb_true_iff in Hx.
  rewrite str_app_cons.
  cbn [split_separators]. rewrite Hx. by rewrite IH.
Qed.

Lemma str_app_nil s : (s +:+ EmptyString)%string = s.
Proof. induction s as [|c s IH]; [done|]. by rewrite str_app_cons, IH. Qed.

Lemma split_word c : no_separator c = true -> split_separators c = [c].
Proof.
  induction c as [|x c IH]; [done|]. cbn [no_separator]. intros Hc.
  apply andb_true_iff in Hc as [Hx Hc]. apply negb_true_iff in Hx.
  cbn [split_separators]. rewrite Hx. by rewrite IH.
Qed.

Lemma split_join cs : Forall (fun c => no_separator c = true) cs ->
  split_separators (join_components cs) = EmptyString :: cs.
Proof.
  intros Hcs. destruct cs as [|c cs]; [done|].
  cbn [join_components]. rewrite str_app_cons. cbn [split_separators].
  change (is_separator "\") with true. cbn match. f_equal.
  revert c Hcs. induction cs as [|d cs IH]; intros c Hcs; cbn [join_components].
  - rewrite str_app_nil. apply split_word. by inversion Hcs.
  - inversion_clear Hcs. rewrite str_app_cons,  split_word_app by done. f_equal. by apply IH.
Qed.

Lemma sandbox_step_clean cs c : clean_component c -> sandbox_step cs c = Some (cs ++ [c]).
Proof.
  intros (He & Hd & Hp & Hn & _). unfold sandbox_step.
  by rewrite !bool_decide_eq_false_2, Hn by done.
Qed.

Lemma sandbox_loop_clean cs acc : Forall clean_component cs ->
  sandbox_loop acc cs = Some (acc ++ cs).
Proof.
  intros Hcs. revert acc. induction Hcs as [|c cs Hc Hcs IH]; intros acc; cbn [sandbox_loop].
  - by rewrite app_nil_r.
  - rewrite sandbox_step_clean by done. cbn [mbind option_bind]. rewrite IH.
    by rewrite <- app_assoc.
Qed.

(** [sandbox_components] accepts a remainder exactly when no component
    holds a NUL and no prefix of the components climbs above the mount root;
    every component it returns names an entry of one directory (not empty,
    not [.] or [..], no NUL, no separator), as many as the remaining depth;
    and the components, joined and resolved again, are themselves. *)
Theorem sandbox_components_exact (remainder : string) :
  let raws := split_separators remainder in
  (is_Some (sandbox_components remainder) <->
     Forall (fun raw => contains_nul raw = false) raws /\
     forall k, 0 <= depth (take k raws)) /\
  (forall cs, sandbox_components remainder = Some cs ->
     Forall clean_component cs /\ Z.of_nat (length cs) = depth raws /\
     sandbox_components (join_components cs) = Some cs).
Proof.
  intros raws. split.
  - pose proof (sandbox_loop_spec raws []) as Hspec. unfold sandbox_components.
    fold raws. destruct (sandbox_loop [] raws) as [cs|].
    + destruct Hspec as (Hn & Hk & _). split; [done|]. by eauto.
    + split; [by intros []|]. intros [Hn Hk]. destruct Hspec as [Hs|[k Hs]].
      * apply Exists_exists in Hs as (raw & Hin & Hraw).
        rewrite Forall_forall in Hn. rewrite (Hn raw Hin) in Hraw. done.
      * specialize (Hk k). cbn in Hs. lia.
  - intros cs Hcs. pose proof (sandbox_components_clean _ _ Hcs) as Hclean.
    split_and!; [done | |].
    + pose proof (sandbox_loop_spec raws []) as Hspec. unfold sandbox_components in Hcs.
      fold raws in Hcs. rewrite Hcs in Hspec. destruct Hspec as (_ & _ & Hlen & _).
      cbn in Hlen. lia.
    + unfold sandbox_components. rewrite split_join.
      * cbn [sandbox_loop]. change (sandbox_step [] EmptyString) with (Some (@nil string)).
        cbn [mbind option_bind]. by rewrite sandbox_loop_clean.
      * eapply Forall_impl; [exact Hclean|]. by intros c (_ & _ & _ & _ & ?).
Qed.

(** ** Confinement *)

Section Confined.
Context `{HostOs}.

(** The mount a located object belongs to. *)
Definition mount_root (s : HostFileSystem) (writable : bool) (root : list string) : Prop :=
  if writable then hdd_root s = Some root else disc_root s = Some root.

Lemma mount_cache_root s p letters root rest writable :
  mount_cache s p letters = Some (Some (root, rest, writable)) -> mount_root s writable root.
Proof.
  induction letters as [|letter letters IH]; cbn [mount_cache]; [done|].
  destruct (strip_device p letter) as [[r|]|]; cbn [mbind option_bind]; [|done..].
  destruct (hdd_root s) eqn:Hroot; [|done]. intros [= <- <- <-]. exact Hroot.
Qed.

Lemma mount_disc_root root p prefixes m :
  mount_disc root p prefixes = Some (Some m) -> m.1.1 = root /\ m.2 = false.
Proof.
  induction prefixes as [|prefix prefixes IH]; cbn [mount_disc]; [done|].
  destruct (strip_device p prefix) as [[r|]|]; cbn [mbind option_bind]; [|done..].
  by intros [= <-].
Qed.

Lemma mount_for_root s p root rest writable :
  mount_for s p = Some (Some (root, rest, writable)) -> mount_root s writable root.
Proof.
  unfold mount_for. destruct (strip_device p HDD_PREFIX) as [[r|]|]; cbn [mbind option_bind]; [| |done].
  - destruct (hdd_root s) as [hdd|] eqn:Hhdd; [by intros [= <- <- <-]|].
    destruct (disc_root s) as [disc|] eqn:Hdisc; cbn; [|done]. by intros [= <- <- <-].
  - destruct (mount_cache s p CACHE_LETTERS) as [[m|]|] eqn:Hc; cbn [mbind option_bind]; [| |done].
    + intros [= ->]. by eapply mount_cache_root.
    + destruct (disc_root s) as [disc|] eqn:Hdisc; [|done].
      intros Hm. apply mount_disc_root in Hm as [Hr Hw]. cbn in Hr, Hw. by subst.
Qed.

(** The deepest existing proper ancestor is the one that is checked. *)
Lemma ancestor_inside_spec w croot reversed :
  ancestor_inside w croot reversed = true ->
  exists n canonical, (n < length reversed)%nat /\
    canonicalize w (take n (rev reversed)) = Some canonical /\ croot `prefix_of` canonical /\
    forall m, (n < m < length reversed)%nat -> canonicalize w (take m (rev reversed)) = None.
Proof.
  induction reversed as [|c parent IH]; cbn [ancestor_inside]; [done|].
  rewrite <- rev_length in IH. cbn [rev length]. rewrite <- rev_length.
  assert (forall m, (m <= length (rev parent))%nat ->
    take m (rev parent ++ [c]) = take m (rev parent)) as Htake
    by (intros m Hm; by rewrite take_app_le).
  destruct (canonicalize w (rev parent)) as [canonical|] eqn:Hc.
  - intros Hin. apply bool_decide_eq_true in Hin. exists (length (rev parent)), canonical.
    rewrite Htake, firstn_all by lia. split_and!; [lia | done | done |]. intros m ?. lia.
  - intros Hin. destruct (IH Hin) as (n & canonical & Hn & Hcan & Hpre & Hdeep).
    exists n, canonical. rewrite Htake by lia. split_and!; [lia | done | done |].
    intros m Hm. rewrite Htake by lia.
    destruct (decide (m = length (rev parent))) as [->|]; [by rewrite firstn_all|].
    apply Hdeep. lia.
Qed.

(** C30: Whatever the host answers, [locate] names only objects inside a
    mount: an existing object's canonical path lies under the canonical root
    of its mount; a creation target is the mount root followed by components
    that each name one directory entry, and its deepest existing ancestor
    lies under that canonical root.  Only the hard-disk mount is writable. *)
Theorem locate_confined (s : HostFileSystem) (w : World) (p : string)
    (q : list string) (exists_ writable : bool) :
  locate s w p = Some (Some (q, exists_, writable)) ->
  exists root canonical_root components,
    mount_root s writable root /\ canonicalize w root = Some canonical_root /\
    Forall clean_component components /\
    if exists_
    then canonicalize w (root ++ components) = Some q /\ canonical_root `prefix_of` q
    else q = root ++ components /\
      exists n canonical, (n < length q)%nat /\ canonicalize w (take n q) = Some canonical /\
        canonical_root `prefix_of` canonical /\
        forall m, (n < m <= length q)%nat -> canonicalize w (take m q) = None.
Proof.
  unfold locate. destruct (apply_links s p) as [p'|]; cbn [mbind option_bind]; [|done].
  destruct (mount_for s p') as [[[[root rest] wr]|]|] eqn:Hm; cbn; [|done..].
  destruct (sandbox_components rest) as [cs|] eqn:Hcs; cbn [mbind option_bind]; [|done].
  destruct (canonicalize w root) as [croot|] eqn:Hroot; cbn [mbind option_bind]; [|done].
  intros Hrun. assert (mount_root s wr root) as Hmount by by eapply mount_for_root.
  pose proof (sandbox_components_clean _ _ Hcs) as Hclean.
  destruct (canonicalize w (root ++ cs)) as [canonical|] eqn:Hcan.
  - destruct (path_starts_with canonical croot) eqn:Hin; [|done].
    injection Hrun as <- <- <-. apply bool_decide_eq_true in Hin. by exists root, croot, cs.
  - destruct (ancestor_inside w croot (rev (root ++ cs))) eqn:Hin; [|done].
    injection Hrun as <- <- <-. exists root, croot, cs.
    apply ancestor_inside_spec in Hin as (n & canonical & Hn & Hc & Hpre & Hdeep).
    rewrite rev_involutive in *. rewrite rev_length in *. split_and!; [done..|].
    exists n, canonical. split_and!; [done..|]. intros m Hlt.
    destruct (decide (m = length (root ++ cs))) as [->|]; [by rewrite firstn_all|].
    apply Hdeep. lia.
Qed.

(** The disc stays read-only: an open of an object on a mount that is not
    writable leaves the host as it was; it is denied when it asks for write
    access or would create, and what it does open existed already and is
    opened for reading only. *)
Theorem disc_open_read_only (s s' : HostFileSystem) (w w' : World) (request : FileOpenRequest)
    (q : list string) (exists_ : bool) (r : result Svc.KernelServiceError FileOpened) :
  locate s w (open_path request) = Some (Some (q, exists_, false)) ->
  fs_open s w request = Some (r, s', w') ->
  w' = w /\
  (write_access request = true \/ create request = true /\ exists_ = false ->
     r = Err Svc.AccessDenied /\ s' = s) /\
  (forall opened, r = Ok opened ->
     write_access request = false /\ exists_ = true /\ opened_created opened = false).
Proof.
  unfold fs_open. intros ->. cbn [mbind option_bind negb].
  destruct (write_access request) eqn:Hw; cbn [orb andb];
    [by intros [= <- <- <-]; split_and!|].
  destruct (create request && negb exists_) eqn:Hc; cbn [andb];
    [by intros [= <- <- <-]; split_and!|].
  unfold open_object. rewrite Hw.
  destruct exists_; cbn [andb negb].
  - intros Hrun. repeat (case_match || simplify_eq/=); split_and!; try done; naive_solver.
  - rewrite andb_true_r in Hc. rewrite Hc. intros [= <- <- <-]. split_and!; try done. naive_solver.
Qed.

(** ** Reading *)

(** The reader's contract: a read returns at most what was asked for, and
    [left f] bounds how often the call is still interrupted by a signal. *)
Class ReaderLaws (left : File -> nat) : Prop := {
  read_at_most w f n bytes f' : read_some w f n = (ReadBytes bytes, f') ->
    (length bytes <= n)%nat /\ (left f' <= left f)%nat;
  read_interrupts w f n f' : read_some w f n = (ReadInterrupted, f') ->
    (left f' < left f)%nat;
}.

Lemma read_loop_total left `{!ReaderLaws left} fuel w f want filled :
  (length filled <= want)%nat -> (want - length filled + left f < fuel)%nat ->
  exists r f', read_loop fuel w f want filled = Some (r, f') /\
    forall bytes, r = Ok bytes -> (length bytes <= want)%nat /\ filled `prefix_of` bytes.
Proof.
  revert f filled. induction fuel as [|fuel IH]; intros f filled Hle Hfuel; [lia|].
  cbn [read_loop]. destruct (Nat.ltb_spec (length filled) want).
  - destruct (read_some w f (want - length filled)) as [[bytes| |] f'] eqn:Hread.
    + destruct (read_at_most _ _ _ _ _ Hread) as [Hlen Hleft].
      destruct bytes as [|b bytes].
      * exists (Ok filled), f'. split; [done|]. intros ? [= <-]. split; [lia | done].
      * destruct (IH f' (filled ++ b :: bytes)) as (r & f'' & Hrun & Hr);
          [rewrite length_app; cbn in *; lia.. |].
        exists r, f''. split; [done|]. intros bs Hbs. destruct (Hr bs Hbs) as [? Hpre].
        split; [done|]. etrans; [|exact Hpre]. by eexists.
    + pose proof (read_interrupts _ _ _ _ Hread). apply IH; lia.
    + exists (Err Svc.AccessDenied), f'. by split.
  - exists (Ok filled), f. split; [done|]. intros ? [= <-]. split; [lia | done].
Qed.

(** [read] ends: with a host that returns at most what is asked for and
    interrupts finitely often, it has an answer; a successful read of an open
    file returns at most the requested length and the device's own bound, and
    moves the file pointer to just after the bytes it returned. *)
Theorem fs_read_returns (left : File -> nat) `{!ReaderLaws left} (s : HostFileSystem)
    (w : World) (handle len : Z) (offset : option Z) :
  0 <= len ->
  exists fuel r s', fs_read fuel s w handle offset len = Some (r, s') /\
    forall bytes, r = Ok bytes ->
      Z.of_nat (length bytes) <= len /\ Z.of_nat (length bytes) <= MAX_READ_BYTES /\
      forall entry f, files s !! handle = Some entry -> file entry = Some f ->
        exists f', files s' !! handle =
          Some (mkOpenFile (Some f') (saturating_add 64 (default (position entry) offset)
                                        (Z.of_nat (length bytes)))).
Proof.
  intros Hlen. assert (0 <= MAX_READ_BYTES) by (unfold MAX_READ_BYTES; lia).
  unfold fs_read. destruct (files s !! handle) as [entry|] eqn:He;
    [|exists 1%nat; do 2 eexists; by split].
  destruct (file entry) as [f|] eqn:Hf.
  2: { exists 1%nat. do 2 eexists. split; [done|]. intros ? [= <-]. cbn. split_and!; [lia..|].
       intros ? ? [= <-]. congruence. }
  destruct (seek w f (default (position entry) offset)) as [f1|];
    [|exists 1%nat; do 2 eexists; by split].
  set (want := Z.to_nat (Z.min len MAX_READ_BYTES)).
  destruct (read_loop_total left (S (want + left f1)) w f1 want []) as (r & f2 & Hrun & Hr);
    [cbn; lia..|].
  exists (S (want + left f1)). rewrite Hrun. cbn [mbind option_bind].
  do 2 eexists. split; [done|]. intros bytes ->. destruct (Hr bytes eq_refl) as [Hb _].
  unfold want in Hb. split_and!; [lia..|]. intros entry' f' [= <-] _.
  exists f2. cbn [files with_files]. by rewrite lookup_insert_eq.
Qed.
End Confined.

(** ** Panics

    [strip_prefix_ci] slices at the prefix's length, which panics inside a
    multi-byte character. *)

Fixpoint ascii_only (text : string) : bool :=
  match text with
  | EmptyString => true
  | String c text => (byte_of c <? 0x80) && ascii_only text
  end.

Lemma ascii_drop n text : ascii_only text = true -> ascii_only (str_drop n text) = true.
Proof.
  revert text. induction n as [|n IH]; intros [|c text] Ht; try done.
  cbn [ascii_only str_drop] in *. apply andb_true_iff in Ht as [_ Ht]. auto.
Qed.

Lemma ascii_app a b : ascii_only a = true -> ascii_only b = true ->
  ascii_only (a +:+ b)%string = true.
Proof.
  induction a as [|c a IH]; [done|]. rewrite str_app_cons. cbn [ascii_only].
  intros [Hc Ha]%andb_true_iff Hb. apply andb_true_iff. auto.
Qed.

Lemma ascii_boundary text n : ascii_only text = true -> is_char_boundary text n = true.
Proof.
  intros Ht. unfold is_char_boundary. destruct n as [|n]; [done|].
  pose proof (ascii_drop (S n) text Ht) as Hd.
  destruct (str_drop (S n) text) as [|c rest]; [done|].
  cbn [ascii_only] in Hd. apply andb_true_iff in Hd as [Hc _]. bool_to_prop.
  unfold continues_char. apply negb_true_iff, andb_false_iff. left. apply Z.leb_gt. lia.
Qed.

(** On an ASCII text the strip answers, and what remains is ASCII. *)
Lemma strip_device_ascii text prefix : ascii_only text = true ->
  exists rest, strip_device text prefix = Some rest /\
    forall r, rest = Some r -> ascii_only r = true.
Proof.
  intros Ht. unfold strip_device, strip_prefix_ci.
  destruct (_ <=? _)%nat; [|by exists None].
  rewrite ascii_boundary by done. cbn [mbind option_bind].
  destruct (eq_ignore_ascii_case _ _); cbn; [|by exists None].
  destruct (at_separator _); eexists; split; [done | | done |]; try done.
  intros ? [= <-]. by apply ascii_drop.
Qed.

Section Panics.
Context `{HostOs}.

Lemma rewrite_link_ascii order current : ascii_only current = true ->
  Forall (fun l => ascii_only l.2 = true) order ->
  exists r, rewrite_link order current = Some r /\ forall n, r = Some n -> ascii_only n = true.
Proof.
  intros Hc. induction 1 as [|[name target] order Ht Ho IH]; cbn [rewrite_link]; [by exists None|].
  destruct (strip_device_ascii current name Hc) as (rest & -> & Hrest). cbn [mbind option_bind].
  destruct rest as [rest|]; [|done]. eexists. split; [done|]. intros ? [= <-].
  apply ascii_app; [done | by apply Hrest].
Qed.

Lemma apply_links_ascii s hops p : ascii_only p = true ->
  Forall (fun l => ascii_only l.2 = true) (link_order (links s)) ->
  exists q, apply_links_hops hops s p = Some q /\ ascii_only q = true.
Proof.
  intros Hp Hlinks. revert p Hp. induction hops as [|hops IH]; intros p Hp; cbn [apply_links_hops];
    [by exists p|].
  destruct (rewrite_link_ascii _ p Hp Hlinks) as (r & -> & Hr). cbn [mbind option_bind].
  destruct r as [next|]; [by apply IH, Hr | by exists p].
Qed.

Lemma mount_cache_ascii s p letters : ascii_only p = true -> is_Some (mount_cache s p letters).
Proof.
  intros Hp. induction letters as [|l ls IH]; cbn [mount_cache]; [done|].
  destruct (strip_device_ascii p l Hp) as (rest & -> & _). cbn [mbind option_bind].
  destruct rest, (hdd_root s); done.
Qed.

Lemma mount_disc_ascii root p prefixes : ascii_only p = true -> is_Some (mount_disc root p prefixes).
Proof.
  intros Hp. induction prefixes as [|l ls IH]; cbn [mount_disc]; [done|].
  destruct (strip_device_ascii p l Hp) as (rest & -> & _). cbn [mbind option_bind].
  by destruct rest.
Qed.

Lemma mount_for_ascii s p : ascii_only p = true -> is_Some (mount_for s p).
Proof.
  intros Hp. unfold mount_for.
  destruct (strip_device_ascii p HDD_PREFIX Hp) as (rest & -> & _). cbn [mbind option_bind].
  destruct rest; [by destruct (hdd_root s)|].
  destruct (mount_cache_ascii s p CACHE_LETTERS Hp) as [[m|] ->]; cbn [mbind option_bind]; [done|].
  destruct (disc_root s); [by apply mount_disc_ascii | done].
Qed.

(** Resolving an ASCII path never panics, provided the links the guest
    created have ASCII targets.  A path of one letter followed by a character
    of three bytes panics in every device without links: the drive-letter
    tests cut the text at byte two, inside that character. *)
Theorem locate_panics (s : HostFileSystem) (w : World) (p : string) :
  ascii_only p = true -> Forall (fun l => ascii_only l.2 = true) (link_order (links s)) ->
  is_Some (locate s w p) /\
  forall letter b1 b2 b3 : ascii, continues_char b2 = true -> continues_char b3 = true ->
    link_order (links s) = [] ->
    locate s w (String letter (String b1 (String b2 (String b3 EmptyString)))) = None.
Proof.
  intros Hp Hlinks. split.
  - unfold locate, apply_links.
    destruct (apply_links_ascii s MAX_HOPS p Hp Hlinks) as (q & -> & Hq). cbn [mbind option_bind].
    destruct (mount_for_ascii s q Hq) as [m ->]. done.
  - intros letter b1 b2 b3 Hb2 Hb3 Hnone. unfold locate, apply_links. cbn [apply_links_hops MAX_HOPS].
    rewrite Hnone. cbn [rewrite_link mbind option_bind].
    set (text := String letter _). unfold mount_for.
    assert (strip_device text HDD_PREFIX = Some None) as -> by reflexivity.
    assert (strip_device text "X:" = None) as Hx
      by (unfold strip_device, strip_prefix_ci, text; cbn; by rewrite Hb2).
    cbn [mbind option_bind CACHE_LETTERS mount_cache]. by rewrite Hx.
Qed.
End Panics.

(** ** A host to evaluate the device on

    A host whose state lists the paths that exist (directories) and whose
    files are cursors into one text. *)
Definition demo_host : HostOs := {|
  World := list (list string);
  File := list Z;
  canonicalize w p := if decide (p ∈ w) then Some p else None;
  is_file w p := false;
  is_dir w p := bool_decide (p ∈ w);
  os_open w p _ := Some [1; 2; 3];
  os_create w p := (Some [], p :: w);
  create_dir_all w p := (true, p :: w);
  seek w f o := Some f;
  write_all w f bytes := (true, f, w);
  set_len w f n := (true, w);
  read_some w f n := (ReadBytes (take n (map wrap8 f)), drop n f);
  file_len w f := Some 3;
  link_order m := map_to_list m;
|}.

Definition demo_world : list (list string) := [["mnt"]; ["mnt"; "disc"]; ["hdd"]]%string.

Definition demo_device : @HostFileSystem demo_host :=
  @HostFileSystem_new demo_host (Some ["mnt"; "disc"]%string) (Some ["hdd"]%string).

Lemma demo_reader : @ReaderLaws demo_host (fun _ => 0%nat).
Proof.
  split; cbn; intros.
  - simplify_eq. rewrite length_take. lia.
  - simplify_eq.
Qed.

Lemma locate_confined_witness :
  @locate demo_host demo_device demo_world "X:\save\..\a\b"%string =
    Some (Some (["hdd"; "X"; "a"; "b"]%string, false, true)) /\
  exists root canonical_root components,
    @mount_root demo_host demo_device true root /\
    @canonicalize demo_host demo_world root = Some canonical_root /\
    Forall clean_component components /\
    ["hdd"; "X"; "a"; "b"]%string = root ++ components.
Proof.
  assert (@locate demo_host demo_device demo_world "X:\save\..\a\b"%string =
    Some (Some (["hdd"; "X"; "a"; "b"]%string, false, true))) as Hrun by by vm_compute.
  split; [exact Hrun|].
  destruct (@locate_confined demo_host demo_device demo_world _ _ _ _ Hrun)
    as (root & croot & cs & Hm & Hc & Hcs & Hq & _).
  exists root, croot, cs. exact (conj Hm (conj Hc (conj Hcs Hq))).
Defined.

Definition demo_write_request : FileOpenRequest :=
  mkFileOpenRequest "D:"%string true false false.

Lemma disc_open_read_only_witness :
  @fs_open demo_host demo_device demo_world demo_write_request =
    Some (Err Svc.AccessDenied, demo_device, demo_world).
Proof.
  destruct (@fs_open demo_host demo_device demo_world demo_write_request)
    as [[[r s'] w']|] eqn:Hrun; [|by vm_compute in Hrun].
  destruct (@disc_open_read_only demo_host demo_device s' demo_world w' demo_write_request
    ["mnt"; "disc"]%string true r) as (Hw & Hd & _); [by vm_compute | exact Hrun |].
  destruct (Hd (or_introl eq_refl)) as [Hr Hs]. by rewrite Hw, Hr, Hs.
Defined.

Lemma fs_read_returns_witness :
  let s := @with_files demo_host demo_device {[0x100 := @mkOpenFile demo_host (Some [1; 2; 3]) 0]} in
  exists fuel r s', @fs_read demo_host fuel s demo_world 0x100 None 2 = Some (r, s').
Proof.
  intros s.
  destruct (@fs_read_returns demo_host (fun _ => 0%nat) demo_reader s demo_world 0x100 2 None)
    as (fuel & r & s' & Hrun & _); [lia|].
  by exists fuel, r, s'.
Defined.

Lemma locate_panics_witness :
  is_Some (@locate demo_host demo_device demo_world "D:\media"%string) /\
  @locate demo_host demo_device demo_world
    (String "D" (String (ascii_of_nat 239) (String (ascii_of_nat 191)
      (String (ascii_of_nat 189) EmptyString)))) = None.
Proof.
  destruct (@locate_panics demo_host demo_device demo_world "D:\media"%string) as [Hok Hpanic];
    [done | by vm_compute |].
  split; [exact Hok|]. by apply Hpanic; vm_compute.
Defined.
