(* ===== verification/Runtime.v ===== *)
(** * The guest thread table and the kernel services

    Models [exbawks-kernel/src/runtime.rs]: [ThreadManager], the runtime that
    kernel exports dispatch against.  It keeps the schedulable threads, waits
    and wakes, timers and deferred procedures, events and mutants, and hands
    out kernel blocks and user reservations of the guest address space.

    A method that changes the manager returns the new manager with its result;
    one that may fail part way keeps what it changed.  Maps and sets are
    [gmap] and [gset]; [Vec]s are lists; [usize] indices are [nat].  The files
    of the manager are those of [HostFiles].  [thread_report] and
    [describe_threads], which render text, are left out, and so is tracing. *)

From Stdlib Require Import Ascii.
From stdpp Require Import strings.
From S2P Require Import Prelude GuestTypes PageTable Allocator GuestMemory SoftwareSpace CpuState KernelTypes HostFiles.

(** ** Constants *)

Definition THREAD_EXIT_SENTINEL : GuestVa := 0xFFBFFFF4.
Definition KERNEL_WINDOW_BASE : Z := 0x80000000.
Definition USER_ALLOC_BASE : Z := 0x10000000.
Definition USER_ALLOC_END : Z := 0x7F000000.
Definition MEM_COMMIT : Z := 0x00001000.
Definition RESERVE_ALIGN : Z := 0x10000.
Definition KTHREAD_OFFSET : Z := 0x200.
Definition DISPATCHER_SIGNAL_STATE : Z := 0x04.
Definition THREAD_OBJECT_TYPE : Z := 6.
Definition DISPATCHER_WAIT_LIST : Z := 0x08.
Definition KTHREAD_EXIT_STATUS : Z := 0x120.
Definition STILL_ACTIVE : Z := 0x103.
Definition MAX_TLS_BYTES : Z := 1024 * 1024.
Definition PRCB_OFFSET : Z := 0x28.
Definition MINIMUM_STACK_BYTES : Z := 16 * 1024.
Definition STACK_SCRATCH : Z := 16.
Definition STATUS_TIMEOUT : Z := 0x00000102.
Definition SYNCHRONIZATION_EVENT_TYPE : Z := 1.
Definition EVENT_HANDLE_BASE : Z := 0x0000A000.
Definition MUTANT_HANDLE_BASE : Z := 0x0000B000.
Definition CURRENT_THREAD_PSEUDO_HANDLE : Z := 0xFFFFFFFE.
Definition THREAD_HANDLE_BASE : Z := 0x0000E000.
Definition LAUNCH_DATA_PAGE_ORDINAL : Z := 164.
Definition KE_TICK_COUNT_ORDINAL : Z := 156.

(** ** Standard library operations the manager uses *)

Definition saturating_sub (a b : Z) : Z := Z.max 0 (a - b).
Definition saturating_mul32 (a b : Z) : Z := Z.min (a * b) U32_MAX.

(** [Iterator::position]. *)
Fixpoint iter_position {A} (f : A -> bool) (l : list A) : option nat :=
  match l with
  | [] => None
  | x :: l => if f x then Some O else S <$> iter_position f l
  end.

(** [iter_mut().find(f)] and the assignment through it: the first element that
    satisfies [f] is replaced. *)
Fixpoint update_first {A} (f : A -> bool) (g : A -> A) (l : list A) : option (list A) :=
  match l with
  | [] => None
  | x :: l => if f x then Some (g x :: l) else (x ::.) <$> update_first f g l
  end.

(** [u32::next_multiple_of]. *)
Definition next_multiple_of32 (a b : Z) : Z :=
  if a mod b =? 0 then a else wrapping_add32 a (b - a mod b).

(** ** Data *)

Record TlsTemplate : Type := mkTlsTemplate {
  raw_start : Z;
  raw_end : Z;
  zero_fill : Z;
}.

Record WaitBlock : Type := mkWaitBlock {
  keys : list Z;
  wait_all : bool;
  deadline : option Z;
  timeout_status : Z;
}.

Inductive ThreadState : Type :=
| Ready
| Running
| Suspended
| Waiting (block : WaitBlock)
| Terminated.

#[export] Instance WaitBlock_eq_dec : EqDecision WaitBlock.
Proof. solve_decision. Defined.
#[export] Instance ThreadState_eq_dec : EqDecision ThreadState.
Proof. solve_decision. Defined.

Record GuestThread : Type := mkGuestThread {
  th_cpu : CpuState;
  th_state : ThreadState;
  th_id : Z;
  th_kpcr : GuestVa;
  th_exits_on_null_return : bool;
}.

Definition set_state (st : ThreadState) (t : GuestThread) : GuestThread :=
  mkGuestThread (th_cpu t) st (th_id t) (th_kpcr t) (th_exits_on_null_return t).
Definition set_cpu (cpu : CpuState) (t : GuestThread) : GuestThread :=
  mkGuestThread cpu (th_state t) (th_id t) (th_kpcr t) (th_exits_on_null_return t).

Definition is_ready (t : GuestThread) : bool := bool_decide (th_state t = Ready).

Inductive PendingAction : Type :=
| PendingExit (status : Z)
| PendingWait (block : WaitBlock).

Record ArmedTimer : Type := mkArmedTimer {
  timer_object : Z;
  timer_dpc : Z;
  due_at : Z;
  period : Z;
}.

Section Manager.
Context `{HostOs}.

Record ThreadManager : Type := mkThreadManager {
  memory : SoftwareAddressSpace;
  threads : list GuestThread;
  current : nat;
  pending : option PendingAction;
  user_cursor : Z;
  handles : gset Z;
  host_files : HostFileSystem;
  dpc_queue : list Z;
  timers : list ArmedTimer;
  elapsed_ms : Z;
  interrupts : list (InterruptRoutine * bool);
  persisted : list (Z * Z);
  launch_data_page_cell : option GuestVa;
  tick_count_cell : option GuestVa;
  tls_template : option TlsTemplate;
  pool_sizes : gmap Z Z;
  gpu_instance : option (GuestVa * Z);
  events : gmap Z (bool * bool);
  next_event_handle : Z;
  mutants : gmap Z (option (nat * Z));
  next_mutant_handle : Z;
  display_mode : option DisplayMode;
}.

Definition with_memory (s : ThreadManager) (v : SoftwareAddressSpace) : ThreadManager :=
  mkThreadManager v (threads s) (current s) (pending s) (user_cursor s) (handles s)
    (host_files s) (dpc_queue s) (timers s) (elapsed_ms s) (interrupts s) (persisted s)
    (launch_data_page_cell s) (tick_count_cell s) (tls_template s) (pool_sizes s)
    (gpu_instance s) (events s) (next_event_handle s) (mutants s) (next_mutant_handle s)
    (display_mode s).
Definition with_threads (s : ThreadManager) (v : list GuestThread) : ThreadManager :=
  mkThreadManager (memory s) v (current s) (pending s) (user_cursor s) (handles s)
    (host_files s) (dpc_queue s) (timers s) (elapsed_ms s) (interrupts s) (persisted s)
    (launch_data_page_cell s) (tick_count_cell s) (tls_template s) (pool_sizes s)
    (gpu_instance s) (events s) (next_event_handle s) (mutants s) (next_mutant_handle s)
    (display_mode s).
Definition with_current (s : ThreadManager) (v : nat) : ThreadManager :=
  mkThreadManager (memory s) (threads s) v (pending s) (user_cursor s) (handles s)
    (host_files s) (dpc_queue s) (timers s) (elapsed_ms s) (interrupts s) (persisted s)
    (launch_data_page_cell s) (tick_count_cell s) (tls_template s) (pool_sizes s)
    (gpu_instance s) (events s) (next_event_handle s) (mutants s) (next_mutant_handle s)
    (display_mode s).
Definition with_pending (s : ThreadManager) (v : option PendingAction) : ThreadManager :=
  mkThreadManager (memory s) (threads s) (current s) v (user_cursor s) (handles s)
    (host_files s) (dpc_queue s) (timers s) (elapsed_ms s) (interrupts s) (persisted s)
    (launch_data_page_cell s) (tick_count_cell s) (tls_template s) (pool_sizes s)
    (gpu_instance s) (events s) (next_event_handle s) (mutants s) (next_mutant_handle s)
    (display_mode s).
Definition with_user_cursor (s : ThreadManager) (v : Z) : ThreadManager :=
  mkThreadManager (memory s) (threads s) (current s) (pending s) v (handles s) (host_files
    s) (dpc_queue s) (timers s) (elapsed_ms s) (interrupts s) (persisted s)
    (launch_data_page_cell s) (tick_count_cell s) (tls_template s) (pool_sizes s)
    (gpu_instance s) (events s) (next_event_handle s) (mutants s) (next_mutant_handle s)
    (display_mode s).
Definition with_handles (s : ThreadManager) (v : gset Z) : ThreadManager :=
  mkThreadManager (memory s) (threads s) (current s) (pending s) (user_cursor s) v
    (host_files s) (dpc_queue s) (timers s) (elapsed_ms s) (interrupts s) (persisted s)
    (launch_data_page_cell s) (tick_count_cell s) (tls_template s) (pool_sizes s)
    (gpu_instance s) (events s) (next_event_handle s) (mutants s) (next_mutant_handle s)
    (display_mode s).
Definition with_host_files (s : ThreadManager) (v : HostFileSystem) : ThreadManager :=
  mkThreadManager (memory s) (threads s) (current s) (pending s) (user_cursor s) (handles s)
    v (dpc_queue s) (timers s) (elapsed_ms s) (interrupts s) (persisted s)
    (launch_data_page_cell s) (tick_count_cell s) (tls_template s) (pool_sizes s)
    (gpu_instance s) (events s) (next_event_handle s) (mutants s) (next_mutant_handle s)
    (display_mode s).
Definition with_dpc_queue (s : ThreadManager) (v : list Z) : ThreadManager :=
  mkThreadManager (memory s) (threads s) (current s) (pending s) (user_cursor s) (handles s)
    (host_files s) v (timers s) (elapsed_ms s) (interrupts s) (persisted s)
    (launch_data_page_cell s) (tick_count_cell s) (tls_template s) (pool_sizes s)
    (gpu_instance s) (events s) (next_event_handle s) (mutants s) (next_mutant_handle s)
    (display_mode s).
Definition with_timers (s : ThreadManager) (v : list ArmedTimer) : ThreadManager :=
  mkThreadManager (memory s) (threads s) (current s) (pending s) (user_cursor s) (handles s)
    (host_files s) (dpc_queue s) v (elapsed_ms s) (interrupts s) (persisted s)
    (launch_data_page_cell s) (tick_count_cell s) (tls_template s) (pool_sizes s)
    (gpu_instance s) (events s) (next_event_handle s) (mutants s) (next_mutant_handle s)
    (display_mode s).
Definition with_elapsed_ms (s : ThreadManager) (v : Z) : ThreadManager :=
  mkThreadManager (memory s) (threads s) (current s) (pending s) (user_cursor s) (handles s)
    (host_files s) (dpc_queue s) (timers s) v (interrupts s) (persisted s)
    (launch_data_page_cell s) (tick_count_cell s) (tls_template s) (pool_sizes s)
    (gpu_instance s) (events s) (next_event_handle s) (mutants s) (next_mutant_handle s)
    (display_mode s).
Definition with_interrupts (s : ThreadManager) (v : list (InterruptRoutine * bool)) : ThreadManager :=
  mkThreadManager (memory s) (threads s) (current s) (pending s) (user_cursor s) (handles s)
    (host_files s) (dpc_queue s) (timers s) (elapsed_ms s) v (persisted s)
    (launch_data_page_cell s) (tick_count_cell s) (tls_template s) (pool_sizes s)
    (gpu_instance s) (events s) (next_event_handle s) (mutants s) (next_mutant_handle s)
    (display_mode s).
Definition with_persisted (s : ThreadManager) (v : list (Z * Z)) : ThreadManager :=
  mkThreadManager (memory s) (threads s) (current s) (pending s) (user_cursor s) (handles s)
    (host_files s) (dpc_queue s) (timers s) (elapsed_ms s) (interrupts s) v
    (launch_data_page_cell s) (tick_count_cell s) (tls_template s) (pool_sizes s)
    (gpu_instance s) (events s) (next_event_handle s) (mutants s) (next_mutant_handle s)
    (display_mode s).
Definition with_launch_data_page_cell (s : ThreadManager) (v : option GuestVa) : ThreadManager :=
  mkThreadManager (memory s) (threads s) (current s) (pending s) (user_cursor s) (handles s)
    (host_files s) (dpc_queue s) (timers s) (elapsed_ms s) (interrupts s) (persisted s) v
    (tick_count_cell s) (tls_template s) (pool_sizes s) (gpu_instance s) (events s)
    (next_event_handle s) (mutants s) (next_mutant_handle s) (display_mode s).
Definition with_tick_count_cell (s : ThreadManager) (v : option GuestVa) : ThreadManager :=
  mkThreadManager (memory s) (threads s) (current s) (pending s) (user_cursor s) (handles s)
    (host_files s) (dpc_queue s) (timers s) (elapsed_ms s) (interrupts s) (persisted s)
    (launch_data_page_cell s) v (tls_template s) (pool_sizes s) (gpu_instance s) (events s)
    (next_event_handle s) (mutants s) (next_mutant_handle s) (display_mode s).
Definition with_tls_template (s : ThreadManager) (v : option TlsTemplate) : ThreadManager :=
  mkThreadManager (memory s) (threads s) (current s) (pending s) (user_cursor s) (handles s)
    (host_files s) (dpc_queue s) (timers s) (elapsed_ms s) (interrupts s) (persisted s)
    (launch_data_page_cell s) (tick_count_cell s) v (pool_sizes s) (gpu_instance s) (events
    s) (next_event_handle s) (mutants s) (next_mutant_handle s) (display_mode s).
Definition with_pool_sizes (s : ThreadManager) (v : gmap Z Z) : ThreadManager :=
  mkThreadManager (memory s) (threads s) (current s) (pending s) (user_cursor s) (handles s)
    (host_files s) (dpc_queue s) (timers s) (elapsed_ms s) (interrupts s) (persisted s)
    (launch_data_page_cell s) (tick_count_cell s) (tls_template s) v (gpu_instance s)
    (events s) (next_event_handle s) (mutants s) (next_mutant_handle s) (display_mode s).
Definition with_gpu_instance (s : ThreadManager) (v : option (GuestVa * Z)) : ThreadManager :=
  mkThreadManager (memory s) (threads s) (current s) (pending s) (user_cursor s) (handles s)
    (host_files s) (dpc_queue s) (timers s) (elapsed_ms s) (interrupts s) (persisted s)
    (launch_data_page_cell s) (tick_count_cell s) (tls_template s) (pool_sizes s) v (events
    s) (next_event_handle s) (mutants s) (next_mutant_handle s) (display_mode s).
Definition with_events (s : ThreadManager) (v : gmap Z (bool * bool)) : ThreadManager :=
  mkThreadManager (memory s) (threads s) (current s) (pending s) (user_cursor s) (handles s)
    (host_files s) (dpc_queue s) (timers s) (elapsed_ms s) (interrupts s) (persisted s)
    (launch_data_page_cell s) (tick_count_cell s) (tls_template s) (pool_sizes s)
    (gpu_instance s) v (next_event_handle s) (mutants s) (next_mutant_handle s)
    (display_mode s).
Definition with_next_event_handle (s : ThreadManager) (v : Z) : ThreadManager :=
  mkThreadManager (memory s) (threads s) (current s) (pending s) (user_cursor s) (handles s)
    (host_files s) (dpc_queue s) (timers s) (elapsed_ms s) (interrupts s) (persisted s)
    (launch_data_page_cell s) (tick_count_cell s) (tls_template s) (pool_sizes s)
    (gpu_instance s) (events s) v (mutants s) (next_mutant_handle s) (display_mode s).
Definition with_mutants (s : ThreadManager) (v : gmap Z (option (nat * Z))) : ThreadManager :=
  mkThreadManager (memory s) (threads s) (current s) (pending s) (user_cursor s) (handles s)
    (host_files s) (dpc_queue s) (timers s) (elapsed_ms s) (interrupts s) (persisted s)
    (launch_data_page_cell s) (tick_count_cell s) (tls_template s) (pool_sizes s)
    (gpu_instance s) (events s) (next_event_handle s) v (next_mutant_handle s) (display_mode
    s).
Definition with_next_mutant_handle (s : ThreadManager) (v : Z) : ThreadManager :=
  mkThreadManager (memory s) (threads s) (current s) (pending s) (user_cursor s) (handles s)
    (host_files s) (dpc_queue s) (timers s) (elapsed_ms s) (interrupts s) (persisted s)
    (launch_data_page_cell s) (tick_count_cell s) (tls_template s) (pool_sizes s)
    (gpu_instance s) (events s) (next_event_handle s) (mutants s) v (display_mode s).
Definition with_display_mode (s : ThreadManager) (v : option DisplayMode) : ThreadManager :=
  mkThreadManager (memory s) (threads s) (current s) (pending s) (user_cursor s) (handles s)
    (host_files s) (dpc_queue s) (timers s) (elapsed_ms s) (interrupts s) (persisted s)
    (launch_data_page_cell s) (tick_count_cell s) (tls_template s) (pool_sizes s)
    (gpu_instance s) (events s) (next_event_handle s) (mutants s) (next_mutant_handle s) v.

Definition ThreadManager_new (mem : SoftwareAddressSpace) (disc hdd : option (list string))
  : ThreadManager :=
  mkThreadManager mem [] 0 None USER_ALLOC_BASE ∅ (HostFileSystem_new disc hdd) [] [] 0 [] []
    None None None ∅ None ∅ EVENT_HANDLE_BASE ∅ MUTANT_HANDLE_BASE None.

(** [if let Some(thread) = self.threads.get_mut(index)]: the thread at the
    index changes, and no thread does where there is none. *)
Definition alter_thread (index : nat) (f : GuestThread -> GuestThread) (s : ThreadManager)
  : ThreadManager :=
  with_threads s (alter f index (threads s)).

Definition thread_state (s : ThreadManager) (index : nat) : option ThreadState :=
  th_state <$> threads s !! index.

Definition set_tls_template (s : ThreadManager) (template : TlsTemplate) : ThreadManager :=
  with_tls_template s (Some template).

(** ** Switching threads *)

(** The context switch of [exit_active], [park_active] and
    [resume_any_ready]: the time-stamp counter stays with the processor. *)
Definition switch_to (s : ThreadManager) (active_cpu : CpuState) (next : nat)
  : ThreadManager * CpuState :=
  let s := alter_thread next (set_state Running) s in
  let cpu := match threads s !! next with
             | Some thread => with_tsc (th_cpu thread) (tsc active_cpu)
             | None => active_cpu
             end in
  (with_current s next, cpu).

(** [self.threads[index].state == ThreadState::Ready]. *)
Definition ready_at (s : ThreadManager) (index : nat) : bool :=
  match threads s !! index with
  | Some thread => is_ready thread
  | None => false
  end.

(** [(1..count).map(|offset| (self.current + offset) % count)]. *)
Definition rotation (s : ThreadManager) : list nat :=
  let count := length (threads s) in
  map (fun offset => (current s + offset) mod count)%nat (seq 1 (count - 1)).

Definition rotate_active (s : ThreadManager) (cpu : CpuState) : bool * ThreadManager * CpuState :=
  let count := length (threads s) in
  if (count <? 2)%nat then (false, s, cpu) else
  match find (ready_at s) (rotation s) with
  | None => (false, s, cpu)
  | Some next =>
    let s := alter_thread (current s) (set_cpu cpu) s in
    let s := if bool_decide (thread_state s (current s) = Some Running)
             then alter_thread (current s) (set_state Ready) s else s in
    let s := alter_thread next (set_state Running) s in
    let cpu := match threads s !! next with
               | Some thread => th_cpu thread
               | None => cpu
               end in
    (true, with_current s next, cpu)
  end.

Definition active_exits_on_null_return (s : ThreadManager) : bool :=
  match threads s !! current s with
  | Some thread => th_exits_on_null_return thread
  | None => false
  end.

(** ** Keys: what a wait may name *)

Definition thread_index (s : ThreadManager) (handle : Z) : option nat :=
  if (handle <? 0x0000E000) || negb (bool_decide (handle ∈ handles s)) then None
  else
    let index := Z.to_nat ((handle - 0x0000E000) / 4) in
    if (index <? length (threads s))%nat then Some index else None.

Definition ready_thread_with (s : ThreadManager) (index : nat) (eax : Z) : ThreadManager :=
  alter_thread index (fun t => set_state Ready (set_cpu (set_gpr (th_cpu t) 0 eax) t)) s.

Definition key_signaled (s : ThreadManager) (key : Z) (for_thread : nat) : bool :=
  match events s !! key with
  | Some (_, signaled) => signaled
  | None =>
    match mutants s !! key with
    | Some None => true
    | Some (Some (holder, _)) => (holder =? for_thread)%nat
    | None =>
      match thread_index s key with
      | Some index => bool_decide (thread_state s index = Some Terminated)
      | None =>
        match mem_read_u32 (memory s) (wrapping_add32 key DISPATCHER_SIGNAL_STATE) with
        | Ok state => negb (state =? 0)
        | Err _ => false
        end
      end
    end
  end.

Definition consume_key (s : ThreadManager) (key : Z) (for_thread : nat) : ThreadManager :=
  match events s !! key with
  | Some (manual_reset, signaled) =>
    if (manual_reset : bool) then s else with_events s (<[key := (manual_reset, false)]> (events s))
  | None =>
    match mutants s !! key with
    | Some None => with_mutants s (<[key := Some (for_thread, 1)]> (mutants s))
    | _ => s
    end
  end.

(** [for k in keys { self.consume_key(k, index) }]. *)
Definition consume_keys (s : ThreadManager) (ks : list Z) (for_thread : nat) : ThreadManager :=
  foldl (fun s k => consume_key s k for_thread) s ks.

(** ** The wake arbiter *)

Definition waits_on (key : Z) (t : GuestThread) : bool :=
  match th_state t with
  | Waiting block => bool_decide (key ∈ keys block)
  | _ => false
  end.

(** The indices of the threads that satisfy [f], in table order. *)
Definition thread_indices (f : GuestThread -> bool) (s : ThreadManager) : list nat :=
  (filter (fun p => f p.2 = true) (imap pair (threads s))).*1.

(** One candidate of [wake_by_key]: whether it woke, and the manager. *)
Definition wake_candidate (s : ThreadManager) (key : Z) (index : nat) : bool * ThreadManager :=
  match thread_state s index with
  | Some (Waiting block) =>
    if wait_all block then
      if forallb (fun k => key_signaled s k index) (keys block)
      then (true, ready_thread_with (consume_keys s (keys block) index) index 0)
      else (false, s)
    else
      let position := default O (iter_position (fun k => k =? key) (keys block)) in
      (true, ready_thread_with (consume_key s key index) index (wrap32 (Z.of_nat position)))
  | _ => (false, s)
  end.

Fixpoint wake_loop (s : ThreadManager) (key : Z) (wake_all : bool) (candidates : list nat)
    (woken : nat) : nat * ThreadManager :=
  match candidates with
  | [] => (woken, s)
  | index :: candidates =>
    match thread_state s index with
    | Some (Waiting _) =>
      let '(woke, s) := wake_candidate s key index in
      let woken := if woke then S woken else woken in
      if negb wake_all && (0 <? woken)%nat then (woken, s)
      else wake_loop s key wake_all candidates woken
    | _ => wake_loop s key wake_all candidates woken
    end
  end.

Definition wake_by_key (s : ThreadManager) (key : Z) (wake_all : bool) : nat * ThreadManager :=
  wake_loop s key wake_all (thread_indices (waits_on key) s) 0.

(** ** Parking, exiting, resuming *)

Definition take_pending (s : ThreadManager) : option PendingAction * ThreadManager :=
  (pending s, with_pending s None).

Definition park_pending (s : ThreadManager) (ks : list Z) (all : bool) (timeout_ms : option Z)
    (status : Z) : ThreadManager :=
  let deadline := (fun ms => saturating_add 64 (elapsed_ms s) (Z.max ms 1)) <$> timeout_ms in
  with_pending s (Some (PendingWait (mkWaitBlock ks all deadline status))).

Definition park_active (s : ThreadManager) (block : WaitBlock) (active_cpu : CpuState)
  : bool * ThreadManager * CpuState :=
  let s := alter_thread (current s) (fun t => set_state (Waiting block) (set_cpu active_cpu t)) s in
  match find (fun index => negb (index =? current s)%nat && ready_at s index)
          (seq 0 (length (threads s))) with
  | None => (false, s, active_cpu)
  | Some next => let '(s, cpu) := switch_to s active_cpu next in (true, s, cpu)
  end.

Definition active_runnable (s : ThreadManager) : bool :=
  bool_decide (thread_state s (current s) = Some Running).

Definition resume_any_ready (s : ThreadManager) (active_cpu : CpuState)
  : bool * ThreadManager * CpuState :=
  if active_runnable s then (true, s, active_cpu) else
  match iter_position is_ready (threads s) with
  | None => (false, s, active_cpu)
  | Some next => let '(s, cpu) := switch_to s active_cpu next in (true, s, cpu)
  end.

(** The two stores stop at the first that fails; a failure is only reported. *)
Definition publish_thread_exit (s : ThreadManager) (index : nat) (status : Z) : ThreadManager :=
  match threads s !! index with
  | None => s
  | Some thread =>
    let kthread := wrapping_add32 (th_kpcr thread) KTHREAD_OFFSET in
    match mem_write_u32 (memory s) (wrapping_add32 kthread KTHREAD_EXIT_STATUS) status with
    | (Err _, mem) => with_memory s mem
    | (Ok _, mem) =>
      with_memory s
        (mem_write_u32 mem (wrapping_add32 kthread DISPATCHER_SIGNAL_STATE) 1).2
    end
  end.

(** [THREAD_HANDLE_BASE + (index as u32) * 4]. *)
Definition thread_handle (index : nat) : Z :=
  wrapping_add32 THREAD_HANDLE_BASE (wrapping_mul32 (wrap32 (Z.of_nat index)) 4).

Definition exit_active (s : ThreadManager) (active_cpu : CpuState) (status : Z)
  : bool * ThreadManager * CpuState :=
  let s := alter_thread (current s) (set_state Terminated) s in
  let s := publish_thread_exit s (current s) status in
  let s := (wake_by_key s (thread_handle (current s)) true).2 in
  let s := match threads s !! current s with
           | Some thread =>
             (wake_by_key s (wrapping_add32 (th_kpcr thread) KTHREAD_OFFSET) true).2
           | None => s
           end in
  match iter_position is_ready (threads s) with
  | None => (false, s, active_cpu)
  | Some next => let '(s, cpu) := switch_to s active_cpu next in (true, s, cpu)
  end.

(** [consider], folded over the wake times. *)
Definition consider (next : option Z) (at_ : Z) : option Z :=
  Some (match next with Some known => Z.min known at_ | None => at_ end).

Definition wake_hint (s : ThreadManager) : option Z * bool * bool :=
  let next := foldl (fun next timer => consider next (due_at timer)) None (timers s) in
  let '(next, any_waiting) :=
    foldl (fun '(next, any_waiting) thread =>
             match th_state thread with
             | Waiting block =>
               (match deadline block with
                | Some at_ => consider next at_
                | None => next
                end, true)
             | _ => (next, any_waiting)
             end) (next, false) (threads s) in
  (next, existsb snd (interrupts s), any_waiting).

Definition live_threads (s : ThreadManager) : nat :=
  length (filter (fun t => th_state t <> Terminated) (threads s)).

(** ** Interrupts, timers, deferred procedures *)

Definition interrupt_routine (s : ThreadManager) (vector : Z) : option InterruptRoutine :=
  fst <$> find (fun e => e.2 && (int_vector e.1 =? vector)) (interrupts s).

Definition queue_dpc (s : ThreadManager) (dpc : Z) : bool * ThreadManager :=
  if bool_decide (dpc ∈ dpc_queue s) then (false, s)
  else (true, with_dpc_queue s (dpc_queue s ++ [dpc])).

(** The threads whose deadline has passed, with their wake status. *)
Definition expired (s : ThreadManager) (now : Z) : list (nat * Z) :=
  omap (fun p => match th_state p.2 with
                 | Waiting block =>
                   match deadline block with
                   | Some at_ => if at_ <=? now then Some (p.1, timeout_status block) else None
                   | None => None
                   end
                 | _ => None
                 end) (imap pair (threads s)).

(** The closure of [retain_mut] over the timers: the timers kept and the
    deferred procedures that are due. *)
Fixpoint retain_due (now : Z) (ts : list ArmedTimer) : list ArmedTimer * list Z :=
  match ts with
  | [] => ([], [])
  | timer :: ts =>
    let '(kept, due) := retain_due now ts in
    if now <? due_at timer then (timer :: kept, due)
    else
      let due := if timer_dpc timer =? 0 then due else timer_dpc timer :: due in
      if 0 <? period timer
      then (mkArmedTimer (timer_object timer) (timer_dpc timer)
              (saturating_add 64 now (period timer)) (period timer) :: kept, due)
      else (kept, due)
  end.

Definition advance_timers (s : ThreadManager) (milliseconds : Z) : ThreadManager :=
  let s := with_elapsed_ms s (saturating_add 64 (elapsed_ms s) milliseconds) in
  if milliseconds =? 0 then s else
  let now := elapsed_ms s in
  let s := foldl (fun s p => ready_thread_with s p.1 p.2) s (expired s now) in
  match timers s with
  | [] => s
  | _ =>
    let '(kept, due) := retain_due now (timers s) in
    foldl (fun s dpc => (queue_dpc s dpc).2) (with_timers s kept) due
  end.

Definition take_dpc (s : ThreadManager) : option Z * ThreadManager :=
  match dpc_queue s with
  | [] => (None, s)
  | dpc :: queue => (Some dpc, with_dpc_queue s queue)
  end.

Definition has_queued_dpc (s : ThreadManager) : bool := negb (bool_decide (dpc_queue s = [])).

Definition set_interrupt_routine (s : ThreadManager) (interrupt : InterruptRoutine)
  : ThreadManager :=
  match update_first (fun e => int_object e.1 =? int_object interrupt)
          (fun e => (interrupt, e.2)) (interrupts s) with
  | Some interrupts => with_interrupts s interrupts
  | None => with_interrupts s (interrupts s ++ [(interrupt, false)])
  end.

Definition connect_interrupt (s : ThreadManager) (object : Z) (connected : bool)
  : ThreadManager :=
  match update_first (fun e => int_object e.1 =? object) (fun e => (e.1, connected))
          (interrupts s) with
  | Some interrupts => with_interrupts s interrupts
  | None => s
  end.

Definition set_timer (s : ThreadManager) (timer due period dpc : Z) : bool * ThreadManager :=
  let delay_ms := if due <? 0 then Z.min (Z.abs due / 10000) U32_MAX else 0 in
  let due_at := saturating_add 64 (elapsed_ms s) delay_ms in
  let armed := mkArmedTimer timer dpc due_at period in
  match update_first (fun known => timer_object known =? timer) (fun _ => armed) (timers s) with
  | Some timers => (true, with_timers s timers)
  | None => (false, with_timers s (timers s ++ [armed]))
  end.

Definition cancel_timer (s : ThreadManager) (timer : Z) : bool * ThreadManager :=
  let kept := filter (fun known => timer_object known <> timer) (timers s) in
  (negb (length (timers s) =? length kept)%nat, with_timers s kept).

Definition set_display_mode (s : ThreadManager) (mode : DisplayMode) : ThreadManager :=
  with_display_mode s (Some mode).

(** ** Handles, events, mutants, suspension *)

Definition exit_current_thread (s : ThreadManager) (status : Z) : ThreadManager :=
  with_pending s (Some (PendingExit status)).

Definition close_handle (s : ThreadManager) (handle : Z) : bool * ThreadManager :=
  if bool_decide (handle ∈ handles s)
  then (true, with_handles s (handles s ∖ {[handle]}))
  else
    let '(closed, files) := fs_close (host_files s) handle in
    let s := with_host_files s files in
    if closed then (true, s)
    else (bool_decide (is_Some (events s !! handle)), with_events s (delete handle (events s))).

Definition create_event (s : ThreadManager) (manual_reset initially_signaled : bool)
  : Z * ThreadManager :=
  let handle := next_event_handle s in
  let s := with_next_event_handle s (wrapping_add32 (next_event_handle s) 4) in
  (handle, with_events s (<[handle := (manual_reset, initially_signaled)]> (events s))).

Definition set_event (s : ThreadManager) (handle : Z)
  : result Svc.KernelServiceError bool * ThreadManager :=
  match events s !! handle with
  | None => (Err Svc.InvalidHandle, s)
  | Some (manual, previous) =>
    let s := with_events s (<[handle := (manual, true)]> (events s)) in
    let '(woke, s) := wake_by_key s handle manual in
    let s := if (0 <? woke)%nat && negb manual then
               match events s !! handle with
               | Some (m, _) => with_events s (<[handle := (m, false)]> (events s))
               | None => s
               end
             else s in
    (Ok previous, s)
  end.

Definition resume_thread (s : ThreadManager) (handle : Z)
  : result Svc.KernelServiceError Z * ThreadManager :=
  match thread_index s handle with
  | None => (Err Svc.InvalidHandle, s)
  | Some index =>
    if bool_decide (thread_state s index = Some Suspended)
    then (Ok 1, alter_thread index (set_state Ready) s)
    else (Ok 0, s)
  end.

Definition suspend_thread (s : ThreadManager) (handle : Z)
  : result Svc.KernelServiceError Z * ThreadManager :=
  match thread_index s handle with
  | None => (Err Svc.InvalidHandle, s)
  | Some index =>
    if (index =? current s)%nat then (Err Svc.AccessDenied, s)
    else if ready_at s index
    then (Ok 0, alter_thread index (set_state Suspended) s)
    else (Ok 1, s)
  end.

Definition create_mutant (s : ThreadManager) (initially_owned : bool) : Z * ThreadManager :=
  let handle := next_mutant_handle s in
  let s := with_next_mutant_handle s (wrapping_add32 (next_mutant_handle s) 4) in
  let owner := if initially_owned then Some (current s, 1) else None in
  let s := with_mutants s (<[handle := owner]> (mutants s)) in
  (handle, with_handles s ({[handle]} ∪ handles s)).

(** [recursion - 1] is a [u32] difference. *)
Definition release_mutant (s : ThreadManager) (handle : Z)
  : result Svc.KernelServiceError Z * ThreadManager :=
  match mutants s !! handle with
  | None => (Err Svc.InvalidHandle, s)
  | Some None => (Err Svc.AccessDenied, s)
  | Some (Some (holder, recursion)) =>
    if negb (holder =? current s)%nat then (Err Svc.AccessDenied, s)
    else
      let owner := if 1 <? recursion then Some (holder, recursion - 1) else None in
      let s := with_mutants s (<[handle := owner]> (mutants s)) in
      let s := match owner with
               | None => (wake_by_key s handle false).2
               | Some _ => s
               end in
      (Ok (wrapping_sub32 recursion 1), s)
  end.

(** ** Waits *)

Definition wait_for_dispatcher_object (s : ThreadManager) (address : Z) (timeout_ms : option Z)
  : WaitOutcome * ThreadManager :=
  if bool_decide (timeout_ms = Some 0) then (TimedOut, s)
  else (Pending, park_pending s [address] false timeout_ms STATUS_TIMEOUT).

Definition signal_dispatcher_object (s : ThreadManager) (address : Z) : ThreadManager :=
  let kind := match mem_read_u32 (memory s) address with
              | Ok word => Z.land word 0xFF
              | Err _ => 0
              end in
  let auto := kind =? SYNCHRONIZATION_EVENT_TYPE in
  let '(woke, s) := wake_by_key s address (negb auto) in
  if auto && (0 <? woke)%nat
  then with_memory s
         (mem_write_u32 (memory s) (wrapping_add32 address DISPATCHER_SIGNAL_STATE) 0).2
  else s.

Definition transfer_section_wake (s : ThreadManager) (address : Z) : option Z * ThreadManager :=
  match iter_position (waits_on address) (threads s) with
  | None => (None, s)
  | Some index =>
    let s := ready_thread_with s index 0 in
    ((fun t => wrapping_add32 (th_kpcr t) KTHREAD_OFFSET) <$> threads s !! index, s)
  end.

Definition object_for_handle (s : ThreadManager) (handle : Z) : option Z :=
  thread ← (if handle =? CURRENT_THREAD_PSEUDO_HANDLE then threads s !! current s
            else (index ← checked_sub handle THREAD_HANDLE_BASE;
                  threads s !! Z.to_nat (index / 4)));
  Some (wrapping_add32 (th_kpcr thread) KTHREAD_OFFSET).

Definition yield_thread (s : ThreadManager) : bool := existsb (ready_at s) (rotation s).

(** What [wait_for_object] and [wait_for_objects] accept as a handle. *)
Definition known_key (s : ThreadManager) (key : Z) : bool :=
  bool_decide (is_Some (events s !! key)) || bool_decide (is_Some (mutants s !! key)) ||
  bool_decide (is_Some (thread_index s key)).

Definition wait_for_object (s : ThreadManager) (handle : Z) (timeout_ms : option Z)
  : result Svc.KernelServiceError WaitOutcome * ThreadManager :=
  let held :=
    match mutants s !! handle with
    | Some (Some (holder, recursion)) =>
      if (holder =? current s)%nat then Some (holder, recursion) else None
    | _ => None
    end in
  match held with
  | Some (holder, recursion) =>
    (Ok Signaled,
     with_mutants s (<[handle := Some (holder, wrapping_add32 recursion 1)]> (mutants s)))
  | None =>
    if negb (known_key s handle) then (Err Svc.InvalidHandle, s)
    else if key_signaled s handle (current s)
    then (Ok Signaled, consume_key s handle (current s))
    else if bool_decide (timeout_ms = Some 0) then (Ok TimedOut, s)
    else (Ok Pending, park_pending s [handle] false timeout_ms STATUS_TIMEOUT)
  end.

(** The result of a satisfied multi-wait, or [None] where it must wait. *)
Definition multi_satisfied (s : ThreadManager) (ks : list Z) (all : bool)
  : option (Z * ThreadManager) :=
  if all then
    if forallb (fun key => key_signaled s key (current s)) ks
    then Some (0, consume_keys s ks (current s)) else None
  else
    position ← iter_position (fun key => key_signaled s key (current s)) ks;
    key ← ks !! position;
    Some (wrap32 (Z.of_nat position), consume_key s key (current s)).

Definition wait_for_objects (s : ThreadManager) (ks : list Z) (all : bool)
    (timeout_ms : option Z) : result Svc.KernelServiceError MultiWaitOutcome * ThreadManager :=
  if negb (forallb (known_key s) ks) then (Err Svc.InvalidHandle, s)
  else match multi_satisfied s ks all with
       | Some (index, s) => (Ok (MultiSatisfied index), s)
       | None =>
         if bool_decide (timeout_ms = Some 0) then (Ok MultiTimedOut, s)
         else (Ok MultiPending, park_pending s ks all timeout_ms STATUS_TIMEOUT)
       end.

Definition sleep_thread (s : ThreadManager) (timeout_ms : Z) : WaitOutcome * ThreadManager :=
  if timeout_ms =? 0 then (Signaled, s)
  else (Pending, park_pending s [] false (Some timeout_ms) 0).
End Manager.
