(* ===== verification/RuntimeMemory.v ===== *)
(** * Kernel blocks, thread creation and virtual memory of the runtime

    The second half of [exbawks-kernel/src/runtime.rs]: the kernel-object
    allocator, the kernel variables, the pages and stack of a new thread, the
    contiguous pool and [NtAllocateVirtualMemory]'s service.

    These methods change the manager step by step and leave at the first
    error with what they have done: [KM] is the state and error monad of such
    a method, and its bind is the [?] operator. *)

From Stdlib Require Import Ascii.
From stdpp Require Import strings.
From S2P Require Import Prelude GuestTypes PageTable Allocator GuestMemory SoftwareSpace CpuState KernelTypes HostFiles Runtime.

Section Blocks.
Context `{HostOs}.

Definition KM (E A : Type) : Type := ThreadManager -> result E A * ThreadManager.

#[global] Instance KM_ret {E} : MRet (KM E) := fun A a s => (Ok a, s).
#[global] Instance KM_bind {E} : MBind (KM E) := fun A B f m s =>
  match m s with
  | (Ok a, s) => f a s
  | (Err e, s) => (Err e, s)
  end.

Definition throw {E A} (e : E) : KM E A := fun s => (Err e, s).
Definition lift {E A} (r : result E A) : KM E A := fun s => (r, s).
Definition gets {E A} (f : ThreadManager -> A) : KM E A := fun s => (Ok (f s), s).
Definition modify {E} (f : ThreadManager -> ThreadManager) : KM E unit := fun s => (Ok tt, f s).
(** [.map_err(|_| e)]. *)
Definition or_err {E F A} (e : F) (m : KM E A) : KM F A := fun s =>
  match m s with
  | (Ok a, s) => (Ok a, s)
  | (Err _, s) => (Err e, s)
  end.

(** An operation of the shared address space. *)
Definition on_memory {A} (f : SoftwareAddressSpace -> result MemoryError A * SoftwareAddressSpace)
  : KM MemoryError A := fun s =>
  let '(r, mem) := f (memory s) in (r, with_memory s mem).

Definition write_u32 (address value : Z) : KM MemoryError unit :=
  on_memory (fun mem => mem_write_u32 mem address value).
Definition write_bytes (address : Z) (bytes : list Z) : KM MemoryError unit :=
  on_memory (fun mem => mem_write mem address bytes).

(** ** Kernel blocks *)

Definition allocate_kernel_block (bytes : Z) : KM MemoryError GuestRange :=
  let rounded := saturating_mul32 (div_ceil (Z.max bytes 1) GUEST_PAGE_SIZE) GUEST_PAGE_SIZE in
  physical ← on_memory (fun mem => allocate_physical mem rounded);
  let base := Z.lor KERNEL_WINDOW_BASE physical in
  range ← lift (lift_address (GuestRange_new base rounded));
  write_bytes base (replicate (Z.to_nat rounded) 0);;
  mret range.

(** The result of the allocation is dropped, not its effect. *)
Definition reserve_guard_page : KM MemoryError unit := fun s =>
  (Ok tt, with_memory s (allocate_physical (memory s) GUEST_PAGE_SIZE).2).

(** ** Kernel variables *)

Definition initialize_kernel_variable (ordinal : Z) (cell : GuestVa) (name_addr name_len : Z)
  : KM MemoryError unit :=
  if ordinal =? 157 then write_u32 cell 10000
  else if ordinal =? 324 then
    write_bytes (wrapping_add32 cell 0) (to_le_bytes 2 1);;
    write_bytes (wrapping_add32 cell 2) (to_le_bytes 2 0);;
    write_bytes (wrapping_add32 cell 4) (to_le_bytes 2 5838);;
    write_bytes (wrapping_add32 cell 6) (to_le_bytes 2 1)
  else if ordinal =? 326 then
    write_bytes cell (to_le_bytes 2 name_len);;
    write_bytes (wrapping_add32 cell 2) (to_le_bytes 2 name_len);;
    write_u32 (wrapping_add32 cell 4) name_addr
  else mret tt.

Definition CELL : Z := 64.

(** The [for] loop of [build_kernel_variables] from [index] on. *)
Fixpoint variable_cells (base name_addr name_len index : Z) (ordinals : list Z)
    (variables : gmap Z GuestVa) : KM MemoryError (gmap Z GuestVa) :=
  match ordinals with
  | [] => mret variables
  | ordinal :: ordinals =>
    let cell := wrapping_add32 base (wrapping_mul32 (wrap32 index) CELL) in
    initialize_kernel_variable ordinal cell name_addr (wrap16 name_len);;
    (if ordinal =? LAUNCH_DATA_PAGE_ORDINAL
     then modify (fun s => with_launch_data_page_cell s (Some cell)) else mret tt);;
    (if ordinal =? KE_TICK_COUNT_ORDINAL
     then modify (fun s => with_tick_count_cell s (Some cell)) else mret tt);;
    variable_cells base name_addr name_len (index + 1) ordinals (<[ordinal := cell]> variables)
  end.

Definition build_kernel_variables (data_ordinals : list Z) (image_name : list Z)
  : KM MemoryError (gmap Z GuestVa) :=
  if bool_decide (data_ordinals = []) then mret ∅ else
  let cells := default U32_MAX (try_from_u 32 (Z.of_nat (length data_ordinals))) in
  let name_len := Z.min (default 0 (try_from_u 32 (Z.of_nat (length image_name)))) 0xFF in
  let region_bytes :=
    saturating_add 32 (saturating_add 32 (saturating_mul32 cells CELL) name_len) CELL in
  region ← allocate_kernel_block region_bytes;
  let base := range_start region in
  let name_addr := wrapping_add32 base (saturating_mul32 cells CELL) in
  write_bytes name_addr (take (Z.to_nat name_len) image_name);;
  variable_cells base name_addr name_len 0 data_ordinals ∅.

(** ** Thread pages *)

(** [align16(data + zero_fill)] and the template's initialised bytes, as
    [tls_reserve_bytes] and [initialize_stack_tls] compute them. *)
Definition tls_data_bytes (template : TlsTemplate) : Z :=
  Z.min (saturating_sub (raw_end template) (raw_start template)) MAX_TLS_BYTES.
Definition tls_aligned (template : TlsTemplate) : Z :=
  Z.land (saturating_add 32 (saturating_add 32 (tls_data_bytes template)
                               (Z.min (zero_fill template) MAX_TLS_BYTES)) 15) (not32 15).

Definition tls_reserve_bytes (s : ThreadManager) : Z :=
  match tls_template s with
  | None => 0
  | Some template => saturating_add 32 (tls_aligned template) 16
  end.

Definition initialize_stack_tls (stack_top : Z) : KM MemoryError Z :=
  template ← gets tls_template;
  match template with
  | None => mret 0
  | Some template =>
    let data_bytes := tls_data_bytes template in
    let size := saturating_add 32 (tls_aligned template) 4 in
    let slot := saturating_sub stack_top size in
    let data := saturating_add 32 slot 4 in
    write_u32 slot data;;
    (if 0 <? data_bytes then
       read ← gets (fun s => mem_read (memory s) (raw_start template) (Z.to_nat data_bytes));
       match read with
       | Ok bytes => write_bytes data bytes
       | Err _ => mret tt
       end
     else mret tt);;
    mret data
  end.

Definition build_thread_pages (stack_base : GuestVa) (stack_bytes : Z) : KM MemoryError GuestVa :=
  kpcr_range ← allocate_kernel_block GUEST_PAGE_SIZE;
  let kpcr := range_start kpcr_range in
  let kthread := wrapping_add32 kpcr KTHREAD_OFFSET in
  let stack_top := wrapping_add32 stack_base stack_bytes in
  write_u32 kpcr 0xFFFFFFFF;;
  write_u32 (wrapping_add32 kpcr 0x04) stack_top;;
  write_u32 (wrapping_add32 kpcr 0x08) stack_base;;
  write_u32 (wrapping_add32 kpcr 0x18) kpcr;;
  write_u32 (wrapping_add32 kpcr 0x1C) kpcr;;
  write_u32 (wrapping_add32 kpcr 0x20) (wrapping_add32 kpcr PRCB_OFFSET);;
  write_u32 (wrapping_add32 kpcr PRCB_OFFSET) kthread;;
  write_u32 kthread THREAD_OBJECT_TYPE;;
  write_u32 (wrapping_add32 kthread DISPATCHER_SIGNAL_STATE) 0;;
  write_u32 (wrapping_add32 kthread KTHREAD_EXIT_STATUS) STILL_ACTIVE;;
  let wait_list := wrapping_add32 kthread DISPATCHER_WAIT_LIST in
  write_u32 wait_list wait_list;;
  write_u32 (wrapping_add32 wait_list 4) wait_list;;
  write_u32 (wrapping_add32 kthread 0x1C) stack_top;;
  write_u32 (wrapping_add32 kthread 0x20) stack_base;;
  tls_data ← initialize_stack_tls stack_top;
  write_u32 (wrapping_add32 kthread 0x28) tls_data;;
  mret kpcr.

Definition push_thread (t : GuestThread) (s : ThreadManager) : ThreadManager :=
  with_threads s (threads s ++ [t]).

Definition create_boot_environment (stack_base : GuestVa) (stack_bytes : Z)
  : KM MemoryError GuestVa :=
  kpcr ← build_thread_pages stack_base stack_bytes;
  modify (push_thread (mkGuestThread CpuState_default Running 1 kpcr true));;
  modify (fun s => with_current s 0%nat);;
  mret kpcr.

Definition create_thread (request : ThreadCreateRequest)
  : KM Svc.KernelServiceError ThreadCreated :=
  let stack_bytes := Z.max (kernel_stack_size request) MINIMUM_STACK_BYTES in
  or_err Svc.ResourceExhausted reserve_guard_page;;
  stack ← or_err Svc.ResourceExhausted (allocate_kernel_block stack_bytes);
  kpcr ← or_err Svc.ResourceExhausted
           (build_thread_pages (range_start stack) (wrap32 (range_len stack)));
  let kthread := wrapping_add32 kpcr KTHREAD_OFFSET in
  let stack_top := wrapping_add32 (range_start stack) (wrap32 (range_len stack)) in
  reserve ← gets tls_reserve_bytes;
  let esp := saturating_sub (saturating_sub (saturating_sub stack_top reserve) STACK_SCRATCH) 12 in
  or_err Svc.ResourceExhausted
    (write_u32 esp THREAD_EXIT_SENTINEL;;
     write_u32 (wrapping_add32 esp 4) (start_context1 request);;
     write_u32 (wrapping_add32 esp 8) (start_context2 request));;
  let cpu := with_eip CpuState_default (start_routine request) in
  let cpu := set_gpr cpu 4 esp in
  let cpu := CpuState_set_segment cpu Fs (mkSegmentState 0 0 kpcr 0) in
  index ← gets (fun s => length (threads s));
  let id := wrapping_add32 (wrap32 (Z.of_nat index)) 1 in
  let handle := thread_handle index in
  modify (fun s => with_handles s ({[handle]} ∪ handles s));;
  modify (push_thread (mkGuestThread cpu (if create_suspended request then Suspended else Ready)
                         id kpcr false));;
  mret (mkThreadCreated handle id kthread).

(** ** The contiguous pool *)

Definition persist_memory (s : ThreadManager) (base size : Z) : ThreadManager :=
  match update_first (fun e => e.1 =? base) (fun e => (e.1, Z.max e.2 size)) (persisted s) with
  | Some persisted => with_persisted s persisted
  | None => with_persisted s (persisted s ++ [(base, size)])
  end.

Definition allocate_contiguous (bytes : Z) : KM Svc.KernelServiceError GuestVa :=
  range ← or_err Svc.ResourceExhausted (allocate_kernel_block bytes);
  modify (fun s => with_pool_sizes s
                     (<[range_start range := wrap32 (range_len range)]> (pool_sizes s)));;
  mret (range_start range).

Definition free_contiguous (address : Z) : KM Svc.KernelServiceError unit := fun s =>
  match pool_sizes s !! address with
  | None => (Err Svc.NotFound, s)
  | Some size =>
    let s := with_pool_sizes s (delete address (pool_sizes s)) in
    let physical := Z.land address 0x1FFFFFFF in
    if existsb (fun e => (e.1 <=? address) && (address <? saturating_add 32 e.1 e.2))
         (persisted s)
    then (Ok tt, s)
    else (Ok tt, with_memory s (free_physical (memory s) physical size))
  end.

Definition pool_block_size (s : ThreadManager) (address : Z) : result Svc.KernelServiceError Z :=
  ok_or (pool_sizes s !! address) Svc.NotFound.

Definition claim_gpu_instance (bytes : Z) : KM Svc.KernelServiceError GuestVa :=
  base ← allocate_contiguous bytes;
  size ← gets (fun s => default bytes (pool_sizes s !! base));
  modify (fun s => with_gpu_instance s (Some (base, size)));;
  mret base.

(** ** Virtual memory *)

Definition protect_to_permissions (protect : Z) : MemoryPermissions :=
  let mode := Z.land protect 0xFF in
  if mode =? 0x01 then 0
  else if (mode =? 0x02) || (mode =? 0x08) then PERM_READ
  else if mode =? 0x10 then PERM_EXECUTE
  else if mode =? 0x20 then Z.lor PERM_READ PERM_EXECUTE
  else if (mode =? 0x40) || (mode =? 0x80) then Z.lor (Z.lor PERM_READ PERM_WRITE) PERM_EXECUTE
  else Z.lor PERM_READ PERM_WRITE.

(** One page of a commit: mapped, or re-protected where it cannot be. *)
Definition commit_page (cursor : Z) (permissions : MemoryPermissions)
  : KM Svc.KernelServiceError unit := fun s =>
  match GuestRange_new cursor GUEST_PAGE_SIZE with
  | Err _ => (Err Svc.ResourceExhausted, s)
  | Ok range =>
    match map_anonymous (memory s) range permissions with
    | (Ok _, mem) => (Ok tt, with_memory s mem)
    | (Err _, mem) =>
      match space_protect mem range permissions with
      | (Ok _, mem) => (Ok tt, with_memory s mem)
      | (Err _, mem) => (Err Svc.ResourceExhausted, with_memory s mem)
      end
    end
  end.

(** The [while cursor < end] loop; [None] when the fuel runs out. *)
Fixpoint commit_loop (fuel : nat) (cursor stop : Z) (permissions : MemoryPermissions)
    (s : ThreadManager) : option (result Svc.KernelServiceError unit * ThreadManager) :=
  match fuel with
  | O => None
  | S fuel =>
    if cursor <? stop then
      match commit_page cursor permissions s with
      | (Err e, s) => Some (Err e, s)
      | (Ok _, s) => commit_loop fuel (saturating_add 32 cursor GUEST_PAGE_SIZE) stop permissions s
      end
    else Some (Ok tt, s)
  end.

(** A round takes one page, and saturates at the end of the space. *)
Lemma commit_loop_total k : forall cursor stop permissions s, stop <= U32_MAX -> stop - cursor <= 4096 * Z.of_nat k ->
  commit_loop (S k) cursor stop permissions s <> None.
Proof.
  induction k as [|k IH]; intros cursor stop permissions s Hstop Hspan; cbn [commit_loop];
    destruct (Z.ltb_spec cursor stop); try done; [lia|].
  destruct (commit_page cursor permissions s) as [[u|e] s']; [|done]. apply IH; [done|].
  change GUEST_PAGE_SIZE with 4096. change U32_MAX with (2 ^ 32 - 1) in Hstop.
  unfold saturating_add. lia.
Qed.

(** The base of the placement: a fresh 64 KiB aligned reservation, or the page
    of the requested base. *)
Definition place_allocation (request : VirtualAllocRequest) (offset rounded : Z)
  : KM Svc.KernelServiceError Z := fun s =>
  if req_base request =? 0 then
    let start := next_multiple_of32 (user_cursor s) RESERVE_ALIGN in
    match checked_add 32 start rounded with
    | Some stop =>
      if stop <=? USER_ALLOC_END then (Ok start, with_user_cursor s stop)
      else (Err Svc.ResourceExhausted, s)
    | None => (Err Svc.ResourceExhausted, s)
    end
  else (Ok (req_base request - offset), s).

(** A page is one round, so the pages of the range and one more round are
    enough fuel ([commit_loop_total]). *)
Definition commit_range (base rounded : Z) (permissions : MemoryPermissions)
  : KM Svc.KernelServiceError unit := fun s =>
  match checked_add 32 base rounded with
  | None => (Err Svc.ResourceExhausted, s)
  | Some stop =>
    default (Err Svc.ResourceExhausted, s)
      (commit_loop (S (Z.to_nat (div_ceil rounded GUEST_PAGE_SIZE))) base stop permissions s)
  end.

Definition allocate_virtual_memory (request : VirtualAllocRequest)
  : KM Svc.KernelServiceError VirtualAllocation :=
  let offset := req_base request mod GUEST_PAGE_SIZE in
  let span := saturating_add 32 (req_size request) offset in
  let rounded := saturating_mul32 (div_ceil (Z.max span 1) GUEST_PAGE_SIZE) GUEST_PAGE_SIZE in
  base ← place_allocation request offset rounded;
  (if has_bits (req_allocation_type request) MEM_COMMIT
   then commit_range base rounded (protect_to_permissions (req_protect request))
   else mret tt);;
  mret (mkVirtualAllocation base rounded).

(** ** Files

    The file services delegate to the device; the host's state is threaded
    through. *)

Definition open_file (s : ThreadManager) (w : World) (request : FileOpenRequest)
  : option (result Svc.KernelServiceError FileOpened * ThreadManager * World) :=
  '(r, fs, w) ← fs_open (host_files s) w request; Some (r, with_host_files s fs, w).

Definition read_file (fuel : nat) (s : ThreadManager) (w : World) (handle : Z)
    (offset : option Z) (len : Z)
  : option (result Svc.KernelServiceError (list Z) * ThreadManager) :=
  '(r, fs) ← fs_read fuel (host_files s) w handle offset len; Some (r, with_host_files s fs).

Definition file_info (s : ThreadManager) (w : World) (handle : Z)
  : result Svc.KernelServiceError FileInfo := fs_info (host_files s) w handle.

Definition write_file (s : ThreadManager) (w : World) (handle : Z) (offset : option Z)
    (bytes : list Z) : result Svc.KernelServiceError Z * ThreadManager * World :=
  let '(r, fs, w) := fs_write (host_files s) w handle offset bytes in
  (r, with_host_files s fs, w).

Definition create_symbolic_link (s : ThreadManager) (name target : string) : ThreadManager :=
  with_host_files s (create_link (host_files s) name target).

Definition delete_symbolic_link (s : ThreadManager) (name : string) : bool * ThreadManager :=
  let '(r, fs) := delete_link (host_files s) name in (r, with_host_files s fs).

Definition open_symbolic_link (s : ThreadManager) (name : string)
  : result Svc.KernelServiceError Z * ThreadManager :=
  let '(r, fs) := open_link_object (host_files s) name in (r, with_host_files s fs).

Definition query_symbolic_link (s : ThreadManager) (handle : Z)
  : result Svc.KernelServiceError string := link_target (host_files s) handle.

Definition set_file_position (s : ThreadManager) (handle offset : Z)
  : result Svc.KernelServiceError unit * ThreadManager :=
  let '(r, fs) := set_position (host_files s) handle offset in (r, with_host_files s fs).

Definition set_file_length (s : ThreadManager) (w : World) (handle len : Z)
  : result Svc.KernelServiceError unit * World := set_length (host_files s) w handle len.
End Blocks.
