(* ===== verification/SchedulerSteps.v ===== *)
(** * The scheduler's invariant

    The well-formedness of a [ThreadManager]: only the current thread may be
    running, identifiers follow the table, saved contexts and mutant owners are
    in range, and the queues of deferred procedures, timers and interrupt
    routines hold one entry per object.  Each operation keeps it; the step
    relation of [SchedulerReach] collects them with guest code in between. *)

From Stdlib Require Import Ascii.
From stdpp Require Import strings.
From S2P Require Import Prelude GuestTypes PageTable Allocator GuestMemory SoftwareSpace CpuState KernelTypes HostFiles Runtime RuntimeMemory.

(** ** The invariant *)

(** ** Lists *)

Lemma iter_position_some {A} (f : A -> bool) l i : iter_position f l = Some i ->
  exists x, l !! i = Some x /\ f x = true /\ forall j y, (j < i)%nat -> l !! j = Some y -> f y = false.
Proof.
  revert i. induction l as [|a l IH]; intros i; cbn [iter_position]; [done|].
  destruct (f a) eqn:Ha.
  - intros [= <-]. exists a. split_and!; [done | done |]. intros; lia.
  - destruct (iter_position f l) as [k|]; cbn; [|done]. intros [= <-].
    destruct (IH k eq_refl) as (x & Hx & Hfx & Hlt). exists x. split_and!; [done | done |].
    intros [|j] y Hj Hy; cbn in Hy; [by simplify_eq | apply (Hlt j); [lia | done]].
Qed.

Lemma iter_position_none {A} (f : A -> bool) l : iter_position f l = None ->
  Forall (fun x => f x = false) l.
Proof.
  induction l as [|a l IH]; cbn [iter_position]; [by constructor|].
  destruct (f a) eqn:Ha; [done|]. destruct (iter_position f l); [done|]. by constructor; auto.
Qed.

Lemma update_first_fmap {A B} (f : A -> bool) (g : A -> A) (h : A -> B) l l' :
  (forall x, f x = true -> h (g x) = h x) -> update_first f g l = Some l' -> h <$> l' = h <$> l.
Proof.
  intros Hg. revert l'. induction l as [|a l IH]; intros l'; cbn [update_first]; [done|].
  destruct (f a) eqn:Ha; [intros [= <-]; cbn; by rewrite Hg|].
  destruct (update_first f g l) as [m|]; cbn; [|done]. intros [= <-]. cbn. f_equal. by apply IH.
Qed.

Lemma update_first_none {A} (f : A -> bool) (g : A -> A) l : update_first f g l = None ->
  Forall (fun x => f x = false) l.
Proof.
  induction l as [|a l IH]; cbn [update_first]; [by constructor|].
  destruct (f a) eqn:Ha; [done|]. destruct (update_first f g l); [done|]. by constructor; auto.
Qed.

Lemma elem_imap_pair {A} (l : list A) i x : (i, x) ∈ imap pair l <-> l !! i = Some x.
Proof.
  rewrite list_elem_of_lookup. split.
  - intros [j Hj]. rewrite list_lookup_imap in Hj. destruct (l !! j) as [y|] eqn:Hy; [|done].
    cbn in Hj. by simplify_eq.
  - intros Hi. exists i. by rewrite list_lookup_imap, Hi.
Qed.

(** ** Changing one thread *)

Section Threads.
Context `{HostOs}.

Lemma threads_alter i f s j :
  threads (alter_thread i f s) !! j = (if decide (i = j) then f else id) <$> threads s !! j.
Proof.
  unfold alter_thread. cbn [threads with_threads]. destruct (decide (i = j)) as [->|].
  - by rewrite list_lookup_alter_eq.
  - rewrite list_lookup_alter_ne by done. by destruct (threads s !! j).
Qed.

Lemma length_alter_thread i f s : length (threads (alter_thread i f s)) = length (threads s).
Proof. apply length_alter. Qed.

Lemma state_alter i f s j : thread_state (alter_thread i f s) j =
  if decide (i = j) then th_state ∘ f <$> threads s !! j else thread_state s j.
Proof.
  unfold thread_state. rewrite threads_alter. destruct (decide (i = j)); by destruct (threads s !! j).
Qed.

Lemma thread_indices_elem f s i :
  i ∈ thread_indices f s <-> exists t, threads s !! i = Some t /\ f t = true.
Proof.
  unfold thread_indices. rewrite list_elem_of_fmap. split.
  - intros ([j t] & -> & Hin). apply list_elem_of_filter in Hin as [Hf Hin].
    apply elem_imap_pair in Hin. by exists t.
  - intros (t & Ht & Hf). exists (i, t). split; [done|].
    apply list_elem_of_filter. split; [done|]. by apply elem_imap_pair.
Qed.

(** ** What a wake may change

    A woken thread was waiting; it is ready and only EAX of its context
    differs.  Beside threads, a wake changes events and mutants only. *)

Definition woken_or_same (t t' : GuestThread) : Prop :=
  t' = t \/ exists block eax, th_state t = Waiting block /\ u32 eax /\
    t' = set_state Ready (set_cpu (set_gpr (th_cpu t) 0 eax) t).

(** Mutants keep their owner or are taken once by one of [n] threads. *)
Definition owners_from (n : nat) (m m' : gmap Z (option (nat * Z))) : Prop :=
  forall k o, m' !! k = Some o -> m !! k = Some o \/ exists i, (i < n)%nat /\ o = Some (i, 1).

Definition wake_frame (s s' : ThreadManager) : Prop :=
  exists ts ev mu, s' = with_mutants (with_events (with_threads s ts) ev) mu /\
    Forall2 woken_or_same (threads s) ts /\
    owners_from (length (threads s)) (mutants s) mu.

#[global] Instance woken_or_same_refl : Reflexive woken_or_same.
Proof. intros t. by left. Qed.

#[global] Instance woken_or_same_trans : Transitive woken_or_same.
Proof.
  intros t1 t2 t3 [->|(b & e & Hb & He & ->)] H2; [done|].
  destruct H2 as [->|(b' & e' & Hb' & _)]; [right; by exists b, e|]. done.
Qed.

#[global] Instance wake_frame_refl : Reflexive wake_frame.
Proof.
  intros s. exists (threads s), (events s), (mutants s). split_and!; [by destruct s | done |].
  intros k o. by left.
Qed.

#[global] Instance wake_frame_trans : Transitive wake_frame.
Proof.
  intros s1 s2 s3 (ts & ev & mu & -> & H1 & M1) (ts' & ev' & mu' & -> & H2 & M2).
  cbn in H2, M2. exists ts', ev', mu'. split_and!; [done | by etrans |].
  rewrite <- (Forall2_length _ _ _ H1) in M2. intros k o Hk.
  destruct (M2 k o Hk) as [Ho|]; auto.
Qed.

Lemma consume_key_frame s key i : (i < length (threads s))%nat ->
  wake_frame s (consume_key s key i).
Proof.
  intros Hi. exists (threads s), (events (consume_key s key i)), (mutants (consume_key s key i)).
  split_and!; [unfold consume_key; by destruct s; repeat case_match | done |].
  intros k o. unfold consume_key. repeat case_match; auto. cbn [mutants with_mutants].
  intros [[<- <-]|[_ ?]]%lookup_insert_Some; eauto.
Qed.


Lemma ready_thread_frame s i eax block : thread_state s i = Some (Waiting block) -> u32 eax ->
  wake_frame s (ready_thread_with s i eax).
Proof.
  intros Hst Heax. unfold thread_state in Hst.
  destruct (threads s !! i) as [t|] eqn:Ht; [|done]. cbn in Hst.
  exists (threads (ready_thread_with s i eax)), (events s), (mutants s).
  split_and!; [by destruct s | | by intros k o; left].
  apply Forall2_same_length_lookup. unfold ready_thread_with.
  split; [by rewrite length_alter_thread|]. intros j x y Hx. rewrite threads_alter.
  destruct (decide (i = j)) as [->|].
  - rewrite Hx. rewrite Ht in Hx. simplify_eq/=. intros [= <-]. right. eauto.
  - rewrite Hx. cbn. intros [= <-]. by left.
Qed.

(** Consuming keys leaves every thread where it was. *)
Lemma consume_key_threads s key i : threads (consume_key s key i) = threads s.
Proof. unfold consume_key. by repeat case_match. Qed.

Lemma consume_keys_threads s ks i : threads (consume_keys s ks i) = threads s.
Proof.
  unfold consume_keys. revert s. induction ks as [|k ks IH]; intros s; cbn [foldl]; [done|].
  by rewrite IH, consume_key_threads.
Qed.

Lemma consume_keys_frame s ks i : (i < length (threads s))%nat ->
  wake_frame s (consume_keys s ks i).
Proof.
  unfold consume_keys. revert s. induction ks as [|k ks IH]; intros s Hi; cbn [foldl]; [reflexivity|].
  etrans; [by apply consume_key_frame | apply IH]. by rewrite consume_key_threads.
Qed.

Lemma state_in_range s i st : thread_state s i = Some st -> (i < length (threads s))%nat.
Proof.
  unfold thread_state. intros Hst. destruct (threads s !! i) eqn:Ht; [|done].
  by eapply lookup_lt_Some.
Qed.

Lemma state_consume_keys s ks i j : thread_state (consume_keys s ks i) j = thread_state s j.
Proof. unfold thread_state. by rewrite consume_keys_threads. Qed.

Lemma state_consume_key s k i j : thread_state (consume_key s k i) j = thread_state s j.
Proof. unfold thread_state. by rewrite consume_key_threads. Qed.

Lemma wake_candidate_frame s key i : wake_frame s (wake_candidate s key i).2.
Proof.
  unfold wake_candidate. destruct (thread_state s i) as [[| | |block|]|] eqn:Hst; try reflexivity.
  pose proof (state_in_range _ _ _ Hst) as Hi. destruct (wait_all block).
  - destruct (forallb _ _); [|reflexivity]. cbn [snd].
    etrans; [by apply consume_keys_frame|].
    eapply ready_thread_frame; [by rewrite state_consume_keys | unfold is_u; lia].
  - cbn [snd]. etrans; [by apply consume_key_frame|].
    eapply ready_thread_frame; [by rewrite state_consume_key | by apply wrap_range].
Qed.

Lemma wake_loop_frame s key all cs n : wake_frame s (wake_loop s key all cs n).2.
Proof.
  revert s n. induction cs as [|i cs IH]; intros s n; cbn [wake_loop]; [reflexivity|].
  destruct (thread_state s i) as [[| | |block|]|]; auto.
  pose proof (wake_candidate_frame s key i) as Hc.
  destruct (wake_candidate s key i) as [woke s1]. cbn [snd] in Hc.
  destruct (negb all && _); [done|]. etrans; [exact Hc | apply IH].
Qed.

Lemma wake_by_key_frame s key all : wake_frame s (wake_by_key s key all).2.
Proof. apply wake_loop_frame. Qed.

(** ** Methods that change the memory only *)

Definition memory_only {E A} (Q : A -> Prop) (m : KM E A) : Prop :=
  forall s, (exists mem, (m s).2 = with_memory s mem) /\ forall a, (m s).1 = Ok a -> Q a.

Lemma memory_only_ret {E A} (Q : A -> Prop) a : Q a -> memory_only Q (mret a : KM E A).
Proof. intros Ha s. split; [exists (memory s); by destruct s | by intros ? [= <-]]. Qed.

Lemma memory_only_gets {E A} (Q : A -> Prop) (f : ThreadManager -> A) :
  (forall s, Q (f s)) -> memory_only Q (gets f : KM E A).
Proof. intros Hf s. split; [exists (memory s); by destruct s | by intros ? [= <-]]. Qed.

Lemma memory_only_lift {E A} (Q : A -> Prop) (r : result E A) :
  (forall a, r = Ok a -> Q a) -> memory_only Q (lift r).
Proof. intros Hr s. split; [exists (memory s); by destruct s | exact Hr]. Qed.

Lemma memory_only_on {A} (Q : A -> Prop) f :
  (forall mem a, (f mem).1 = Ok a -> Q a) -> memory_only Q (on_memory (A := A) f).
Proof.
  intros Hf s. unfold on_memory. specialize (Hf (memory s)).
  destruct (f (memory s)) as [r mem]. split; [by exists mem | exact Hf].
Qed.

Lemma memory_only_bind {E A B} (P : A -> Prop) (Q : B -> Prop) (m : KM E A) (k : A -> KM E B) :
  memory_only P m -> (forall a, P a -> memory_only Q (k a)) -> memory_only Q (m ≫= k).
Proof.
  intros Hm Hk s. unfold mbind, KM_bind. destruct (Hm s) as [[mem Hs] HP].
  destruct (m s) as [[a|e] s1]; cbn in Hs, HP; subst s1.
  - destruct (Hk a (HP a eq_refl) (with_memory s mem)) as [[mem' ->] HQ]. split; [by exists mem' | done].
  - split; [by exists mem | done].
Qed.

Lemma memory_only_or_err {E F A} (Q : A -> Prop) (e : F) (m : KM E A) :
  memory_only Q m -> memory_only Q (or_err e m).
Proof.
  intros Hm s. unfold or_err. specialize (Hm s).
  destruct (m s) as [[a|e'] s1]; destruct Hm as [Hm HQ]; split; try done. intros b [= <-]. by apply HQ.
Qed.

Lemma memory_only_weaken {E A} (P Q : A -> Prop) (m : KM E A) :
  (forall a, P a -> Q a) -> memory_only P m -> memory_only Q m.
Proof. intros HPQ Hm s. destruct (Hm s). split; auto. Qed.

Lemma write_u32_only a v : memory_only (fun _ => True) (write_u32 a v).
Proof. by apply memory_only_on. Qed.
Lemma write_bytes_only a v : memory_only (fun _ => True) (write_bytes a v).
Proof. by apply memory_only_on. Qed.

End Threads.

(** Walks a monadic body: known heads by their lemma, binds in between. *)
Ltac memory_step :=
  lazymatch goal with
  | |- memory_only _ (mret _) => apply memory_only_ret; auto
  | |- memory_only _ (write_u32 _ _) => eapply memory_only_weaken; [done | apply write_u32_only]
  | |- memory_only _ (write_bytes _ _) => eapply memory_only_weaken; [done | apply write_bytes_only]
  | |- memory_only _ (mbind _ (write_u32 _ _)) =>
    eapply memory_only_bind; [apply write_u32_only | intros ? _]
  | |- memory_only _ (mbind _ (write_bytes _ _)) =>
    eapply memory_only_bind; [apply write_bytes_only | intros ? _]
  | |- memory_only _ (mbind _ (gets _)) =>
    eapply memory_only_bind; [by apply (memory_only_gets (fun _ => True)) | intros ? _]
  | |- memory_only _ (if ?b then _ else _) => destruct b
  | |- memory_only _ (match ?x with _ => _ end) => destruct x
  end.

Section Blocks.
Context `{HostOs}.

Lemma lifted_range start len r : lift_address (GuestRange_new start len) = Ok r ->
  r = mkGuestRange start len.
Proof.
  unfold lift_address, map_err, GuestRange_new. intros Hr.
  destruct (len =? 0); [done|].
  destruct (checked_add 64 start len) as [b|]; cbn in Hr; [|done].
  destruct (U32_MAX + 1 <? b); [done|]. by injection Hr as <-.
Qed.

Lemma allocate_kernel_block_only bytes :
  memory_only (fun r => u32 (range_start r)) (allocate_kernel_block bytes).
Proof.
  unfold allocate_kernel_block. eapply (memory_only_bind u32).
  - apply memory_only_on. intros mem a. unfold allocate_physical.
    destruct (PhysicalAllocator_allocate _ _) as [[page|e] al]; cbn; [|done].
    intros [= <-]. by apply wrap_range.
  - intros physical Hp. eapply (memory_only_bind (fun r => u32 (range_start r))).
    + apply memory_only_lift. intros r ->%lifted_range. cbn [range_start].
      apply is_u_lor; [lia | unfold is_u, KERNEL_WINDOW_BASE; lia | done].
    + intros r Hr. repeat memory_step.
Qed.

Lemma initialize_stack_tls_only top : memory_only (fun _ => True) (initialize_stack_tls top).
Proof.
  unfold initialize_stack_tls. memory_step. memory_step; [|memory_step].
  memory_step. eapply (memory_only_bind (fun _ => True)); [|intros; memory_step].
  repeat memory_step.
Qed.

Lemma build_thread_pages_only stack_base stack_bytes :
  memory_only u32 (build_thread_pages stack_base stack_bytes).
Proof.
  unfold build_thread_pages. eapply memory_only_bind; [apply allocate_kernel_block_only|].
  intros r Hr. cbn zeta. repeat memory_step.
  eapply memory_only_bind; [apply initialize_stack_tls_only|]. intros. repeat memory_step.
Qed.
End Blocks.

(** ** The operations *)

Section Steps.
Context `{HostOs}.

(** ** The invariant *)

Definition block_ok (b : WaitBlock) : Prop := u32 (timeout_status b).

Definition thread_ok (t : GuestThread) : Prop :=
  cpu_wf (th_cpu t) /\ forall b, th_state t = Waiting b -> block_ok b.

Definition owners_ok (n : nat) (m : gmap Z (option (nat * Z))) : Prop :=
  map_Forall (fun _ o => forall i c, o = Some (i, c) -> (i < n)%nat /\ u32 c) m.

Record tm_ok (s : ThreadManager) : Prop := {
  ok_current : (current s < length (threads s))%nat;
  ok_running : forall i, thread_state s i = Some Running -> i = current s;
  ok_ids : forall i t, threads s !! i = Some t -> th_id t = wrap32 (Z.of_nat i + 1);
  ok_threads : Forall thread_ok (threads s);
  ok_mutants : owners_ok (length (threads s)) (mutants s);
  ok_pending : forall b, pending s = Some (PendingWait b) -> block_ok b;
  ok_dpcs : NoDup (dpc_queue s);
  ok_timers : NoDup (timer_object <$> timers s);
  ok_interrupts : NoDup ((fun e => int_object e.1) <$> interrupts s);
  ok_cursor : USER_ALLOC_BASE <= user_cursor s <= USER_ALLOC_END;
  ok_elapsed : u64 (elapsed_ms s);
}.

(** No thread runs: the state between parking one and switching to another. *)
Definition quiet (s : ThreadManager) : Prop := forall i, thread_state s i <> Some Running.

(** ** Changing threads *)

Lemma alter_ok i f s : tm_ok s ->
  (forall t, threads s !! i = Some t -> thread_ok (f t) /\ th_id (f t) = th_id t /\
     (th_state (f t) = Running -> i = current s)) ->
  tm_ok (alter_thread i f s).
Proof.
  intros [] Hf. split; cbn [alter_thread with_threads current threads mutants pending
    dpc_queue timers interrupts user_cursor elapsed_ms]; rewrite ?length_alter; try done.
  - intros j. rewrite state_alter. destruct (decide (i = j)) as [->|]; [|apply ok_running0].
    destruct (threads s !! j) as [t|] eqn:Ht; [|done]. cbn. intros [= Hr]. by apply (Hf t).
  - intros j t Ht. change (threads (alter_thread i f s) !! j = Some t) in Ht.
    rewrite threads_alter in Ht. destruct (threads s !! j) as [u|] eqn:Hu; [|done].
    destruct (decide (i = j)) as [->|]; cbn in Ht; simplify_eq; [|by apply ok_ids0].
    destruct (Hf u Hu) as (_ & -> & _). by apply ok_ids0.
  - apply Forall_lookup. intros j t Ht. change (threads (alter_thread i f s) !! j = Some t) in Ht.
    rewrite threads_alter in Ht. destruct (threads s !! j) as [u|] eqn:Hu; [|done].
    destruct (decide (i = j)) as [->|]; cbn in Ht; simplify_eq; [by apply Hf|].
    by eapply Forall_lookup_1.
Qed.

Lemma thread_ok_state t st : thread_ok t -> (forall b, st = Waiting b -> block_ok b) ->
  thread_ok (set_state st t).
Proof. by intros [Hc _] Hb. Qed.

Lemma thread_ok_cpu t cpu : thread_ok t -> cpu_wf cpu -> thread_ok (set_cpu cpu t).
Proof. by intros [_ Hb] Hc. Qed.

Lemma thread_at_ok s i t : tm_ok s -> threads s !! i = Some t -> thread_ok t.
Proof. intros Hok Ht. eapply Forall_lookup_1; [apply (ok_threads _ Hok) | exact Ht]. Qed.

(** Setting a state other than [Running] anywhere. *)
Lemma set_state_ok s i st : tm_ok s -> st <> Running -> (forall b, st = Waiting b -> block_ok b) ->
  tm_ok (alter_thread i (set_state st) s).
Proof.
  intros Hok Hst Hb. apply alter_ok; [done|]. intros t Ht. split_and!; [|done|done].
  apply thread_ok_state; [by eapply thread_at_ok | done].
Qed.

Lemma with_current_ok s i : tm_ok s -> (i < length (threads s))%nat ->
  (forall j, thread_state s j = Some Running -> j = i) -> tm_ok (with_current s i).
Proof. by intros []; split. Qed.

Lemma switch_ok s cpu next : tm_ok s -> quiet s -> (next < length (threads s))%nat ->
  cpu_wf cpu -> tm_ok (switch_to s cpu next).1 /\ cpu_wf (switch_to s cpu next).2.
Proof.
  intros Hok Hq Hn Hcpu. unfold switch_to. cbn [fst snd].
  destruct (threads s !! next) as [t|] eqn:Ht; [|apply lookup_lt_is_Some in Hn as [? ?]; congruence].
  rewrite threads_alter, decide_True, Ht by done. cbn [fmap option_fmap option_map].
  split.
  - destruct Hok. split; cbn; rewrite ?length_alter; try done.
    + intros j. change (thread_state (alter_thread next (set_state Running) s) j = Some Running ->
        j = next). rewrite state_alter. destruct (decide (next = j)); [done|]. by intros ?%Hq.
    + intros j u Hu. change (threads (alter_thread next (set_state Running) s) !! j = Some u) in Hu.
      rewrite threads_alter in Hu. destruct (threads s !! j) as [v|] eqn:Hv; [|done].
      apply ok_ids0 in Hv. destruct (decide (next = j)); cbn in Hu; by simplify_eq.
    + apply Forall_alter; [done|]. intros u _ Hu. by apply thread_ok_state.
  - apply with_tsc_wf; [|by destruct Hcpu as (_ & _ & _ & _ & _ & _ & ?)].
    by destruct (thread_at_ok _ _ _ Hok Ht).
Qed.

(** ** Wakes *)

Lemma woken_ok t t' : thread_ok t -> woken_or_same t t' ->
  thread_ok t' /\ th_id t' = th_id t /\ (th_state t' = Running -> th_state t = Running).
Proof.
  intros Ht [->|(b & eax & Hb & He & ->)]; [done|]. split_and!; [|done|done].
  apply thread_ok_state; [|done]. apply thread_ok_cpu; [done|]. destruct Ht. auto with word.
Qed.

Lemma frame_lookup s s' i t' : wake_frame s s' -> threads s' !! i = Some t' ->
  exists t, threads s !! i = Some t /\ woken_or_same t t'.
Proof.
  intros (ts & ev & mu & -> & Hts & _) Ht. cbn in Ht.
  by apply (Forall2_lookup_r _ _ _ _ _ Hts Ht).
Qed.

Lemma frame_quiet s s' : wake_frame s s' -> quiet s -> quiet s'.
Proof.
  intros Hf Hq i Hi. unfold thread_state in Hi. destruct (threads s' !! i) as [t'|] eqn:Ht; [|done].
  destruct (frame_lookup _ _ _ _ Hf Ht) as (t & Hs & [->|(b & e & _ & _ & ->)]); [|done].
  apply (Hq i). unfold thread_state. by rewrite Hs.
Qed.

Lemma frame_ok s s' : wake_frame s s' -> tm_ok s -> tm_ok s'.
Proof.
  intros Hf Hok. pose proof Hf as (ts & ev & mu & -> & Hts & Hmu).
  pose proof (Forall2_length _ _ _ Hts) as Hlen. destruct Hok. split; cbn; rewrite <- ?Hlen; try done.
  - intros i Hi. unfold thread_state in Hi. cbn in Hi.
    destruct (ts !! i) as [t'|] eqn:Ht; [|done]. injection Hi as Hi.
    destruct (frame_lookup _ _ _ _ Hf Ht) as (t & Hs & Hw). apply ok_running0.
    unfold thread_state. rewrite Hs. cbn. f_equal. apply (woken_ok t t'); auto.
    by eapply Forall_lookup_1.
  - intros i t' Ht. destruct (frame_lookup _ _ _ _ Hf Ht) as (t & Hs & Hw).
    destruct (woken_ok t t') as (_ & -> & _); [by eapply Forall_lookup_1 | done |]. by apply ok_ids0.
  - apply Forall_lookup. intros i t' Ht. destruct (frame_lookup _ _ _ _ Hf Ht) as (t & Hs & Hw).
    apply (woken_ok t t'); [by eapply Forall_lookup_1 | done].
  - intros k o Hk i c ->. destruct (Hmu k _ Hk) as [Hold|(j & Hj & [= -> ->])].
    + by apply (ok_mutants0 k _ Hold).
    + split; [done | unfold is_u; lia].
Qed.

Lemma wake_ok s key all : tm_ok s -> tm_ok (wake_by_key s key all).2.
Proof. apply frame_ok, wake_by_key_frame. Qed.

Lemma consume_ok s key : tm_ok s -> tm_ok (consume_key s key (current s)).
Proof. intros Hok. eapply frame_ok; [|done]. apply consume_key_frame, Hok. Qed.

Lemma memory_ok s mem : tm_ok s -> tm_ok (with_memory s mem).
Proof. by intros []; split. Qed.

Lemma publish_ok s i st : tm_ok s -> tm_ok (publish_thread_exit s i st).
Proof.
  unfold publish_thread_exit. intros Hok. repeat case_match; auto using memory_ok.
Qed.

Lemma publish_threads s i st : threads (publish_thread_exit s i st) = threads s.
Proof. unfold publish_thread_exit. by repeat case_match. Qed.

(** ** Switching operations *)

Lemma ready_at_state s i : ready_at s i = true -> thread_state s i = Some Ready.
Proof.
  unfold ready_at, thread_state. destruct (threads s !! i) as [t|]; [|done].
  unfold is_ready. intros Hr%bool_decide_eq_true. cbn. by rewrite Hr.
Qed.

Lemma first_ready s i : iter_position is_ready (threads s) = Some i -> thread_state s i = Some Ready.
Proof.
  intros (t & Ht & Hr & _)%iter_position_some. apply ready_at_state. unfold ready_at. by rewrite Ht.
Qed.

(** The end of [exit_active], [park_active] and [resume_any_ready]. *)
Lemma switch_result_ok s cpu (next : option nat) : tm_ok s -> quiet s -> cpu_wf cpu ->
  (forall i, next = Some i -> thread_state s i = Some Ready) ->
  let r := match next with
           | None => (false, s, cpu)
           | Some next => let '(s, cpu) := switch_to s cpu next in (true, s, cpu)
           end in
  tm_ok r.1.2 /\ cpu_wf r.2.
Proof.
  intros Hok Hq Hcpu Hn. destruct next as [i|]; [|done]. cbn zeta.
  destruct (switch_ok s cpu i Hok Hq) as [Hs Hc]; [by eapply state_in_range, Hn | done |].
  by destruct (switch_to s cpu i).
Qed.

(** Taking the current thread off the processor leaves no thread running. *)
Lemma stop_current_quiet s f : tm_ok s -> (forall t, th_state (f t) <> Running) ->
  quiet (alter_thread (current s) f s).
Proof.
  intros Hok Hf i Hi. rewrite state_alter in Hi. destruct (decide (current s = i)) as [<-|Hne].
  - destruct (threads s !! current s) as [t|]; [|done]. cbn in Hi. injection Hi as Hi. by apply (Hf t).
  - apply Hne. symmetry. by apply (ok_running _ Hok).
Qed.

Lemma park_ok s block cpu : tm_ok s -> cpu_wf cpu -> block_ok block ->
  tm_ok (park_active s block cpu).1.2 /\ cpu_wf (park_active s block cpu).2.
Proof.
  intros Hok Hcpu Hb. unfold park_active.
  set (s1 := alter_thread _ _ s). assert (tm_ok s1) as Hs1.
  { apply alter_ok; [done|]. intros t Ht. split_and!; [|done|done].
    apply thread_ok_state; [|by intros ? [= <-]].
    apply thread_ok_cpu; [by eapply thread_at_ok | done]. }
  apply switch_result_ok; [done | | done |].
  - by apply stop_current_quiet.
  - intros i Hi. apply find_some in Hi as [_ Hi]. apply andb_true_iff in Hi as [_ Hi].
    by apply ready_at_state.
Qed.

Lemma not_runnable_quiet s : tm_ok s -> active_runnable s = false -> quiet s.
Proof.
  unfold active_runnable. intros Hok Hr i Hi. apply bool_decide_eq_false in Hr.
  rewrite <- (ok_running _ Hok i Hi) in Hr. done.
Qed.

Lemma resume_any_ok s cpu : tm_ok s -> cpu_wf cpu ->
  tm_ok (resume_any_ready s cpu).1.2 /\ cpu_wf (resume_any_ready s cpu).2.
Proof.
  intros Hok Hcpu. unfold resume_any_ready. destruct (active_runnable s) eqn:Hr; [done|].
  apply switch_result_ok; auto using not_runnable_quiet, first_ready.
Qed.

(** The manager an exit reaches before it looks for the next thread. *)
Definition exit_prefix (s : ThreadManager) (status : Z) : ThreadManager :=
  let s := alter_thread (current s) (set_state Terminated) s in
  let s := publish_thread_exit s (current s) status in
  let s := (wake_by_key s (thread_handle (current s)) true).2 in
  match threads s !! current s with
  | Some thread => (wake_by_key s (wrapping_add32 (th_kpcr thread) KTHREAD_OFFSET) true).2
  | None => s
  end.

Lemma publish_quiet s i st : quiet s -> quiet (publish_thread_exit s i st).
Proof. intros Hq j. unfold thread_state. rewrite publish_threads. apply Hq. Qed.

Lemma exit_prefix_ok s status : tm_ok s -> tm_ok (exit_prefix s status) /\ quiet (exit_prefix s status).
Proof.
  intros Hok. unfold exit_prefix.
  set (s1 := alter_thread (current s) (set_state Terminated) s).
  assert (tm_ok s1) as Hs1 by by apply set_state_ok.
  assert (quiet s1) as Hq1 by by apply stop_current_quiet.
  pose proof (publish_ok s1 (current s1) status Hs1) as Hs2.
  pose proof (publish_quiet s1 (current s1) status Hq1) as Hq2.
  generalize dependent (publish_thread_exit s1 (current s1) status). intros s2 Hs2 Hq2.
  pose proof (wake_ok s2 (thread_handle (current s2)) true Hs2) as Hs3.
  pose proof (frame_quiet _ _ (wake_by_key_frame s2 (thread_handle (current s2)) true) Hq2) as Hq3.
  generalize dependent (wake_by_key s2 (thread_handle (current s2)) true).2. intros s3 Hs3 Hq3.
  destruct (threads s3 !! current s3); [|done]. split; [by apply wake_ok|].
  eapply frame_quiet; [apply wake_by_key_frame | done].
Qed.

Lemma exit_ok s cpu status : tm_ok s -> cpu_wf cpu ->
  tm_ok (exit_active s cpu status).1.2 /\ cpu_wf (exit_active s cpu status).2.
Proof.
  intros Hok Hcpu. destruct (exit_prefix_ok s status Hok) as [Hs Hq].
  change (exit_active s cpu status) with
    (let s := exit_prefix s status in
     match iter_position is_ready (threads s) with
     | None => (false, s, cpu)
     | Some next => let '(s, cpu) := switch_to s cpu next in (true, s, cpu)
     end).
  apply switch_result_ok; auto using first_ready.
Qed.

Lemma rotate_ok s cpu : tm_ok s -> cpu_wf cpu ->
  tm_ok (rotate_active s cpu).1.2 /\ cpu_wf (rotate_active s cpu).2.
Proof.
  intros Hok Hcpu. unfold rotate_active. destruct (_ <? 2)%nat; [done|].
  destruct (find _ _) as [next|] eqn:Hf; [|done].
  apply find_some in Hf as [_ Hready]. apply ready_at_state, state_in_range in Hready as Hlt.
  set (s1 := alter_thread (current s) (set_cpu cpu) s). assert (tm_ok s1) as Hs1.
  { apply alter_ok; [done|]. intros t Ht. split_and!; [|done|done].
    apply thread_ok_cpu; [by eapply thread_at_ok | done]. }
  change (current s) with (current s1).
  set (s2 := if bool_decide _ then _ else s1).
  assert (tm_ok s2 /\ quiet s2 /\ length (threads s2) = length (threads s)) as (Hs2 & Hq & Hlen).
  { unfold s2. destruct (bool_decide _) eqn:Hb.
    - split_and!; [by apply set_state_ok | by apply stop_current_quiet |].
      rewrite length_alter_thread. apply length_alter_thread.
    - split_and!; [done | by apply not_runnable_quiet | apply length_alter_thread]. }
  destruct (switch_ok s2 cpu next) as [Hs3 _]; [done | done | lia | done |].
  split; [exact Hs3|]. cbn [snd]. destruct (threads _ !! next) as [t|] eqn:Ht; [|done].
  by destruct (thread_at_ok _ _ _ Hs3 Ht).
Qed.
(** ** Timers, deferred procedures, interrupts *)

Lemma ready_ok s i eax : tm_ok s -> u32 eax -> tm_ok (ready_thread_with s i eax).
Proof.
  intros Hok He. apply alter_ok; [done|]. intros t Ht.
  pose proof (thread_at_ok _ _ _ Hok Ht) as Htok. split_and!; [|done|done].
  apply thread_ok_state; [|done]. apply thread_ok_cpu; [done|]. destruct Htok. auto with word.
Qed.

Lemma queue_dpc_ok s dpc : tm_ok s -> tm_ok (queue_dpc s dpc).2.
Proof.
  unfold queue_dpc. destruct (bool_decide _) eqn:Hd; [done|]. apply bool_decide_eq_false in Hd.
  intros []. split; try done. cbn. apply NoDup_app. split_and!; [done | | by apply NoDup_singleton].
  intros x Hx Hd'. apply list_elem_of_singleton in Hd'. by subst.
Qed.

Lemma foldl_ok {A} (f : ThreadManager -> A -> ThreadManager) l s :
  (forall s x, x ∈ l -> tm_ok s -> tm_ok (f s x)) -> tm_ok s -> tm_ok (foldl f s l).
Proof.
  revert s. induction l as [|x l IH]; intros s Hf Hs; cbn [foldl]; [done|].
  apply IH; [intros; apply Hf; [by constructor | done] | apply Hf; [by constructor | done]].
Qed.

Lemma retain_due_objects now ts :
  timer_object <$> (retain_due now ts).1 `sublist_of` timer_object <$> ts.
Proof.
  induction ts as [|t ts IH]; cbn [retain_due]; [done|].
  destruct (retain_due now ts) as [kept due]. cbn [fst] in IH.
  repeat case_match; cbn; by constructor.
Qed.

Lemma expired_status s now i st : tm_ok s -> (i, st) ∈ expired s now -> u32 st.
Proof.
  intros Hok Hin. unfold expired in Hin. apply list_elem_of_omap in Hin as ([j t] & Hin & Ht).
  apply elem_imap_pair in Hin. cbn in Ht. destruct (th_state t) as [| | |b|] eqn:Hst; try done.
  destruct (deadline b); [|done]. destruct (_ <=? now); [|done]. simplify_eq.
  by apply (proj2 (thread_at_ok _ _ _ Hok Hin)).
Qed.

Lemma advance_ok s ms : tm_ok s -> 0 <= ms -> tm_ok (advance_timers s ms).
Proof.
  intros Hok Hms. unfold advance_timers.
  set (s1 := with_elapsed_ms _ _). assert (tm_ok s1) as Hs1.
  { destruct Hok. split; try done. cbn. unfold saturating_add. unfold is_u in *. lia. }
  destruct (ms =? 0); [done|].
  set (s2 := foldl _ s1 _). assert (tm_ok s2) as Hs2.
  { apply foldl_ok; [|done]. intros s' [i st] Hin Hs'. cbn. apply ready_ok; [done|].
    by apply (expired_status s1 (elapsed_ms s1) i st). }
  destruct (timers s2) eqn:Ht; [done|]. rewrite <- Ht.
  pose proof (retain_due_objects (elapsed_ms s1) (timers s2)) as Hsub.
  destruct (retain_due (elapsed_ms s1) (timers s2)) as [kept due]. cbn [fst] in Hsub.
  apply foldl_ok; [intros; by apply queue_dpc_ok|]. destruct Hs2. split; try done.
  eapply sublist_NoDup; [exact ok_timers0 | exact Hsub].
Qed.

Lemma take_dpc_ok s : tm_ok s -> tm_ok (take_dpc s).2.
Proof.
  unfold take_dpc. destruct (dpc_queue s) as [|d q] eqn:Hq; [done|]. intros []. split; try done.
  cbn. rewrite Hq in ok_dpcs0. by apply NoDup_cons in ok_dpcs0 as [_ ?].
Qed.

(** An object without an entry gets one; an object with one keeps it. *)
Lemma NoDup_snoc_fresh {A} (key : A -> Z) l x : NoDup (key <$> l) ->
  Forall (fun y => (key y =? key x) = false) l -> NoDup (key <$> (l ++ [x])).
Proof.
  intros Hl Hx. rewrite fmap_app. apply NoDup_app. split_and!; [done | | by apply NoDup_singleton].
  intros k Hk Hk'. apply list_elem_of_singleton in Hk' as ->.
  apply list_elem_of_fmap in Hk as (y & Hy & Hin). rewrite Forall_forall in Hx.
  specialize (Hx y Hin). bool_to_prop. congruence.
Qed.

Lemma set_timer_ok s timer due per dpc : tm_ok s -> tm_ok (set_timer s timer due per dpc).2.
Proof.
  unfold set_timer. destruct (update_first _ _ _) as [ts|] eqn:Hu; intros []; split; try done; cbn.
  - erewrite update_first_fmap; [exact ok_timers0 | | exact Hu]. cbn. intros x Hx. by bool_to_prop.
  - apply NoDup_snoc_fresh; [done|]. by apply update_first_none in Hu.
Qed.

Lemma cancel_timer_ok s timer : tm_ok s -> tm_ok (cancel_timer s timer).2.
Proof.
  intros []; split; try done. cbn. eapply sublist_NoDup; [exact ok_timers0|].
  apply fmap_sublist, sublist_filter.
Qed.

Lemma set_interrupt_ok s r : tm_ok s -> tm_ok (set_interrupt_routine s r).
Proof.
  unfold set_interrupt_routine.
  destruct (update_first _ _ _) as [l|] eqn:Hu; intros []; split; try done; cbn.
  - erewrite update_first_fmap; [exact ok_interrupts0 | | exact Hu]. cbn. intros x Hx. by bool_to_prop.
  - apply (NoDup_snoc_fresh (fun e => int_object e.1) _ (r, false)); [done|].
    by apply update_first_none in Hu.
Qed.

Lemma connect_interrupt_ok s o c : tm_ok s -> tm_ok (connect_interrupt s o c).
Proof.
  unfold connect_interrupt. destruct (update_first _ _ _) as [l|] eqn:Hu; [|done].
  intros []; split; try done; cbn.
  by erewrite update_first_fmap; [exact ok_interrupts0 | | exact Hu].
Qed.

(** ** Objects and waits *)

Lemma close_ok s h : tm_ok s -> tm_ok (close_handle s h).2.
Proof.
  unfold close_handle. intros Hok. case_match; [by destruct Hok; split|].
  destruct (fs_close _ _) as [c fs]. case_match; by destruct Hok; split.
Qed.

Lemma events_ok s ev : tm_ok s -> tm_ok (with_events s ev).
Proof. by intros []; split. Qed.

Lemma create_event_ok s m i : tm_ok s -> tm_ok (create_event s m i).2.
Proof. by intros []; split. Qed.

Lemma set_event_ok s h : tm_ok s -> tm_ok (set_event s h).2.
Proof.
  unfold set_event. intros Hok. destruct (events s !! h) as [[m p]|]; [|done].
  pose proof (wake_ok (with_events s (<[h:=(m, true)]> (events s))) h m
    (events_ok _ _ Hok)) as Hw.
  destruct (wake_by_key _ h m) as [woke s1]. cbn [snd] in *.
  repeat case_match; auto using events_ok.
Qed.

Lemma resume_ok s h : tm_ok s -> tm_ok (resume_thread s h).2.
Proof. unfold resume_thread. intros. repeat case_match; auto. by apply set_state_ok. Qed.

Lemma suspend_ok s h : tm_ok s -> tm_ok (suspend_thread s h).2.
Proof. unfold suspend_thread. intros. repeat case_match; auto. by apply set_state_ok. Qed.

Lemma mutant_ok s h i c : tm_ok s -> (i < length (threads s))%nat -> u32 c ->
  tm_ok (with_mutants s (<[h := Some (i, c)]> (mutants s))).
Proof.
  intros [] Hi Hc; split; try done. cbn. apply map_Forall_insert_2; [|done].
  by intros ? ? [= <- <-].
Qed.

Lemma free_mutant_ok s h : tm_ok s -> tm_ok (with_mutants s (<[h := None]> (mutants s))).
Proof. intros []; split; try done. cbn. by apply map_Forall_insert_2. Qed.

Lemma create_mutant_ok s o : tm_ok s -> tm_ok (create_mutant s o).2.
Proof.
  intros Hok. unfold create_mutant. cbn [snd]. set (s1 := with_next_mutant_handle _ _).
  assert (tm_ok s1) as Hs1 by by destruct Hok; split.
  assert (tm_ok (with_mutants s1 (<[next_mutant_handle s :=
    if o then Some (current s1, 1) else None]> (mutants s1)))) as Hs2.
  { destruct o; [|by apply free_mutant_ok]. apply mutant_ok; [done | apply Hs1 | unfold is_u; lia]. }
  by destruct Hs2; split.
Qed.

Lemma held_in_range s h i c : tm_ok s -> mutants s !! h = Some (Some (i, c)) ->
  (i < length (threads s))%nat /\ u32 c.
Proof. intros Hok Hm. by apply (ok_mutants _ Hok h _ Hm). Qed.

Lemma release_ok s h : tm_ok s -> tm_ok (release_mutant s h).2.
Proof.
  unfold release_mutant. intros Hok.
  destruct (mutants s !! h) as [[[i c]|]|] eqn:Hm; try done. destruct (negb _); [done|].
  destruct (held_in_range _ _ _ _ Hok Hm) as [Hi Hc]. destruct (Z.ltb_spec 1 c); cbn [snd].
  - apply mutant_ok; [done | done |]. unfold is_u in *. lia.
  - by apply wake_ok, free_mutant_ok.
Qed.

Lemma park_pending_ok s ks all ms st : tm_ok s -> u32 st -> tm_ok (park_pending s ks all ms st).
Proof. intros [] Hst; split; try done. by intros b [= <-]. Qed.

Lemma timeout_u32 : u32 STATUS_TIMEOUT.
Proof. unfold is_u, STATUS_TIMEOUT. lia. Qed.

Lemma wait_dispatcher_ok s a ms : tm_ok s -> tm_ok (wait_for_dispatcher_object s a ms).2.
Proof.
  unfold wait_for_dispatcher_object. intros. case_match; [done|].
  apply park_pending_ok; [done | apply timeout_u32].
Qed.

Lemma signal_dispatcher_ok s a : tm_ok s -> tm_ok (signal_dispatcher_object s a).
Proof.
  unfold signal_dispatcher_object. intros Hok.
  set (b := negb _). pose proof (wake_ok s a b Hok) as Hw.
  destruct (wake_by_key s a b) as [woke s1]. case_match; auto using memory_ok.
Qed.

Lemma transfer_ok s a : tm_ok s -> tm_ok (transfer_section_wake s a).2.
Proof.
  unfold transfer_section_wake. intros. case_match; [|done].
  apply ready_ok; [done | unfold is_u; lia].
Qed.

Lemma wait_object_ok s h ms : tm_ok s -> tm_ok (wait_for_object s h ms).2.
Proof.
  unfold wait_for_object. intros Hok.
  destruct (mutants s !! h) as [[[i c]|]|] eqn:Hm; [destruct (i =? current s)%nat|..].
  - cbn [snd]. destruct (held_in_range _ _ _ _ Hok Hm). apply mutant_ok; [done | done | apply u32_wrapping_add].
  - repeat case_match; cbn [snd]; auto using consume_ok, park_pending_ok, timeout_u32.
  - repeat case_match; cbn [snd]; auto using consume_ok, park_pending_ok, timeout_u32.
  - repeat case_match; cbn [snd]; auto using consume_ok, park_pending_ok, timeout_u32.
Qed.

Lemma wait_objects_ok s ks all ms : tm_ok s -> tm_ok (wait_for_objects s ks all ms).2.
Proof.
  unfold wait_for_objects. intros Hok. destruct (negb _); [done|].
  assert (forall i s', multi_satisfied s ks all = Some (i, s') -> tm_ok s') as Hm.
  { unfold multi_satisfied. intros i s'. destruct all.
    - case_match; [|done]. intros [= <- <-]. eapply frame_ok; [|done].
      apply consume_keys_frame, Hok.
    - destruct (iter_position _ ks) as [k|]; cbn [mbind option_bind]; [|done].
      destruct (ks !! k); cbn [mbind option_bind]; [|done]. intros [= <- <-]. by apply consume_ok. }
  destruct (multi_satisfied s ks all) as [[i s']|]; [by eapply Hm|].
  case_match; [done|]. apply park_pending_ok; [done | apply timeout_u32].
Qed.

Lemma sleep_ok s ms : tm_ok s -> tm_ok (sleep_thread s ms).2.
Proof.
  unfold sleep_thread. intros. case_match; [done|].
  apply park_pending_ok; [done | unfold is_u; lia].
Qed.
End Steps.
