(* ===== verification/SchedulerReach.v ===== *)
(** * Every reachable thread manager is well formed

    The methods that build threads and memory keep the invariant of
    [SchedulerSteps]; the step relation [tm_step] has a rule for every
    operation of the runtime and one for guest code; the invariant holds in
    every state reached from a booted manager. *)

From Stdlib Require Import Ascii.
From stdpp Require Import strings.
From S2P Require Import Prelude GuestTypes PageTable Allocator GuestMemory SoftwareSpace CpuState KernelTypes HostFiles Runtime RuntimeMemory SchedulerSteps HostFileTheorems SpaceTheorems MappingTheorems.

Section Reach.
Context `{HostOs}.

(** ** Methods in the monad *)

Definition keeps {E A} (P : ThreadManager -> Prop) (m : KM E A) : Prop :=
  forall s, P s -> P (m s).2.

(** A property that no store changes. *)
Class MemoryStable (P : ThreadManager -> Prop) : Prop :=
  memory_stable s mem : P s -> P (with_memory s mem).

#[local] Instance tm_ok_stable : MemoryStable tm_ok.
Proof. intros s mem. apply memory_ok. Qed.

Section Keeps.
Context (P : ThreadManager -> Prop) `{!MemoryStable P}.

Lemma keeps_bind {E A B} (Q : A -> Prop) (m : KM E A) (k : A -> KM E B) :
  memory_only Q m -> (forall a, Q a -> keeps P (k a)) -> keeps P (m ≫= k).
Proof.
  intros Hm Hk s Hs. unfold mbind, KM_bind. destruct (Hm s) as [[mem Heq] HQ].
  destruct (m s) as [[a|e] s1]; cbn [fst snd] in *; subst s1.
  - apply Hk; [by apply HQ | by apply memory_stable].
  - by apply memory_stable.
Qed.

Lemma keeps_then {E A B} (m : KM E A) (k : A -> KM E B) :
  keeps P m -> (forall a, keeps P (k a)) -> keeps P (m ≫= k).
Proof.
  intros Hm Hk s Hs. unfold mbind, KM_bind. specialize (Hm s Hs).
  destruct (m s) as [[a|e] s1]; [by apply Hk | done].
Qed.

Lemma keeps_modify {E} (f : ThreadManager -> ThreadManager) :
  (forall s, P s -> P (f s)) -> keeps P (modify f : KM E unit).
Proof. intros Hf s Hs. by apply Hf. Qed.

Lemma keeps_ret {E A} (a : A) : keeps P (mret a : KM E A).
Proof. by intros s Hs. Qed.

Lemma keeps_gets {E A B} (f : ThreadManager -> A) (k : A -> KM E B) :
  (forall s, P s -> P (k (f s) s).2) -> keeps P (gets f ≫= k).
Proof. intros Hk s Hs. by apply Hk. Qed.

(** The kernel variables change the memory and the two captured cells. *)
Context (Hlaunch : forall s c, P s -> P (with_launch_data_page_cell s c)).
Context (Htick : forall s c, P s -> P (with_tick_count_cell s c)).

Lemma initialize_variable_only ordinal cell a n :
  memory_only (fun _ => True) (initialize_kernel_variable ordinal cell a n).
Proof. unfold initialize_kernel_variable. repeat memory_step. Qed.

Lemma variable_cells_keeps base a n index ordinals vars :
  keeps P (variable_cells base a n index ordinals vars).
Proof.
  revert index vars. induction ordinals as [|o os IH]; intros index vars; cbn [variable_cells];
    [apply keeps_ret|].
  eapply keeps_bind; [apply initialize_variable_only|]. intros _ _.
  apply keeps_then; [case_match; [apply keeps_modify; auto | apply keeps_ret]|].
  intros _. apply keeps_then; [|intros _; apply IH].
  case_match; [apply keeps_modify; auto | apply keeps_ret].
Qed.

Lemma build_kernel_variables_keeps ordinals name : keeps P (build_kernel_variables ordinals name).
Proof.
  unfold build_kernel_variables. case_match; [apply keeps_ret|].
  eapply keeps_bind; [apply allocate_kernel_block_only|]. intros r _. cbn zeta.
  eapply keeps_bind; [apply write_bytes_only|]. intros _ _. apply variable_cells_keeps.
Qed.
End Keeps.

(** A new thread goes to the end of the table. *)
Lemma push_ok s t : tm_ok s -> thread_ok t -> th_state t <> Running ->
  th_id t = wrap32 (Z.of_nat (length (threads s)) + 1) -> tm_ok (push_thread t s).
Proof.
  intros [Hcur Hrun Hids Hth Hmu Hpe Hd Hti Hin Hcu Hel] Ht Hr Hid. split; cbn; rewrite ?length_app; cbn; try done; [lia | | | |].
  - intros i. unfold thread_state. cbn. destruct (decide (i < length (threads s))%nat).
    + rewrite lookup_app_l by done. apply Hrun.
    + rewrite lookup_app_r by lia. destruct (i - length (threads s))%nat; cbn; [by intros [= ?]|done].
  - intros i u. rewrite lookup_app_Some. intros [Hu|[Hi Hu]]; [by apply Hids|].
    apply list_lookup_singleton_Some in Hu as [Hi' <-]. rewrite Hid. do 3 f_equal. lia.
  - apply Forall_app. split; [done | by apply Forall_singleton].
  - eapply map_Forall_impl; [exact Hmu|]. cbn. intros k o Ho i c ->.
    destruct (Ho i c eq_refl). split; [lia | done].
Qed.

Definition request_ok (r : ThreadCreateRequest) : Prop := u32 (start_routine r).

Lemma saturating_sub_u32 a b : u32 a -> 0 <= b -> u32 (saturating_sub a b).
Proof. unfold is_u, saturating_sub. lia. Qed.

Lemma tls_reserve_nonneg s : 0 <= tls_reserve_bytes s.
Proof.
  unfold tls_reserve_bytes. destruct (tls_template s) as [t|]; [|lia].
  unfold saturating_add. assert (0 <= tls_aligned t); [|lia].
  unfold tls_aligned. apply Z.land_nonneg. right.
  assert (u32 (not32 15)) as [? _]; [|done]. apply is_u_unot; unfold is_u; lia.
Qed.

Lemma fresh_cpu_wf eip_ esp kpcr : u32 eip_ -> u32 esp -> u32 kpcr ->
  cpu_wf (CpuState_set_segment (set_gpr (with_eip CpuState_default eip_) 4 esp) Fs
            (mkSegmentState 0 0 kpcr 0)).
Proof.
  intros He Hs Hk.
  assert (cpu_wf (set_gpr (with_eip CpuState_default eip_) 4 esp)) as Hwf
    by (apply set_gpr_wf, Hs; apply with_eip_wf, He; apply cpu_default_wf).
  destruct Hwf as (? & ? & ? & ? & Hl & Hb & ?). unfold cpu_wf, CpuState_set_segment.
  cbn [gpr eip eflags segments tsc with_segments]. rewrite length_insert.
  split_and!; try done. by apply Forall_insert.
Qed.

Lemma create_thread_ok request : request_ok request -> keeps tm_ok (create_thread request).
Proof.
  intros Hreq. unfold create_thread. cbn zeta.
  eapply keeps_bind; [apply _ | apply (memory_only_or_err (fun _ => True)); intros s; split; [by eexists | done]|].
  intros _ _. eapply keeps_bind; [apply _ | apply memory_only_or_err, allocate_kernel_block_only|].
  intros stack Hstack. eapply keeps_bind; [apply _ | apply memory_only_or_err, build_thread_pages_only|].
  intros kpcr Hkpcr.
  eapply keeps_bind; [apply _ | apply (memory_only_gets (fun n => 0 <= n)), tls_reserve_nonneg|].
  intros reserve Hres. set (esp := saturating_sub _ 12). assert (u32 esp) as Hesp.
  { repeat apply saturating_sub_u32; try done; apply u32_wrapping_add. }
  eapply keeps_bind; [apply _ | apply (memory_only_or_err (fun _ => True)); repeat memory_step|].
  intros [] _. apply keeps_gets. intros s Hs. unfold mbind, KM_bind, modify. cbn [snd mret KM_ret].
  apply push_ok; [by destruct Hs; split | | by destruct (create_suspended request) |].
  - split; [by apply fresh_cpu_wf | by destruct (create_suspended request)].
  - cbn. unfold wrapping_add32, wrap. by rewrite Zplus_mod_idemp_l.
Qed.
(** ** Contiguous and virtual memory *)

Lemma pool_ok s m : tm_ok s -> tm_ok (with_pool_sizes s m).
Proof. by intros []; split. Qed.

Lemma persist_ok s b n : tm_ok s -> tm_ok (persist_memory s b n).
Proof. unfold persist_memory. intros []. case_match; by split. Qed.

Lemma allocate_contiguous_ok bytes : keeps tm_ok (allocate_contiguous bytes).
Proof.
  unfold allocate_contiguous.
  eapply keeps_bind; [apply _ | apply memory_only_or_err, allocate_kernel_block_only|]. intros r _.
  apply keeps_then; [apply keeps_modify; auto using pool_ok | intros _; apply keeps_ret].
Qed.

Lemma free_contiguous_ok a : keeps tm_ok (free_contiguous a).
Proof. intros s Hs. unfold free_contiguous. repeat case_match; cbn [snd]; auto using pool_ok, memory_ok. Qed.

Lemma claim_gpu_ok bytes : keeps tm_ok (claim_gpu_instance bytes).
Proof.
  unfold claim_gpu_instance. apply keeps_then; [apply allocate_contiguous_ok|]. intros base.
  eapply keeps_bind; [apply _ | by apply (memory_only_gets (fun _ => True))|]. intros size _.
  apply keeps_then; [apply keeps_modify; by intros s []; split | intros _; apply keeps_ret].
Qed.

Lemma commit_page_only cursor perms : memory_only (fun _ => True) (commit_page cursor perms).
Proof.
  intros s. split; [|done]. unfold commit_page.
  repeat case_match; eexists; try reflexivity. instantiate (1 := memory s). by destruct s.
Qed.

Lemma commit_loop_only fuel cursor stop perms s r s' :
  commit_loop fuel cursor stop perms s = Some (r, s') -> exists mem, s' = with_memory s mem.
Proof.
  revert cursor s. induction fuel as [|fuel IH]; intros cursor s; cbn [commit_loop]; [done|].
  destruct (cursor <? stop).
  - destruct (commit_page_only cursor perms s) as [[mem Hs] _].
    destruct (commit_page cursor perms s) as [[[]|e] s1]; cbn in Hs; subst s1.
    + intros Hrun. destruct (IH _ _ Hrun) as [mem' ->]. by exists mem'.
    + intros [= <- <-]. by exists mem.
  - intros [= <- <-]. exists (memory s). by destruct s.
Qed.

Lemma commit_range_only base rounded perms : memory_only (fun _ => True) (commit_range base rounded perms).
Proof.
  intros s. split; [|done]. unfold commit_range.
  assert (exists mem, s = with_memory s mem) as Hsame by (exists (memory s); by destruct s).
  destruct (checked_add 32 base rounded) as [stop|]; [|done].
  destruct (commit_loop _ base stop perms s) as [[r s']|] eqn:Hrun; [|done].
  by eapply commit_loop_only.
Qed.

Lemma next_multiple_ge a : USER_ALLOC_BASE <= a <= USER_ALLOC_END ->
  a <= next_multiple_of32 a RESERVE_ALIGN < a + RESERVE_ALIGN /\
  next_multiple_of32 a RESERVE_ALIGN mod RESERVE_ALIGN = 0.
Proof.
  unfold USER_ALLOC_BASE, USER_ALLOC_END, RESERVE_ALIGN, next_multiple_of32. intros Ha.
  destruct (Z.eqb_spec (a mod 65536) 0); [lia|].
  unfold wrapping_add32. rewrite wrap_small by (unfold is_u; dlia). dlia.
Qed.

Lemma place_ok request offset rounded : 0 <= rounded -> keeps tm_ok (place_allocation request offset rounded).
Proof.
  intros Hr s Hs. unfold place_allocation. destruct (req_base request =? 0); [|done].
  unfold checked_add. pose proof (next_multiple_ge _ (ok_cursor _ Hs)) as [Hge _].
  destruct (_ <? 2 ^ 32); [|done]. destruct (Z.leb_spec (next_multiple_of32 (user_cursor s) RESERVE_ALIGN
    + rounded) USER_ALLOC_END); [|done].
  destruct Hs as [? ? ? ? ? ? ? ? ? Hcu ?]. split; try done. cbn. lia.
Qed.

Lemma rounded_nonneg n : 0 <= n -> 0 <= saturating_mul32 (div_ceil (Z.max n 1) GUEST_PAGE_SIZE) GUEST_PAGE_SIZE.
Proof.
  intros. unfold saturating_mul32, div_ceil, U32_MAX. rewrite page_size_val. dlia.
Qed.

Lemma allocate_virtual_ok request : 0 <= req_size request -> keeps tm_ok (allocate_virtual_memory request).
Proof.
  intros Hsize. unfold allocate_virtual_memory. apply keeps_then.
  - apply place_ok, rounded_nonneg. unfold saturating_add.
    assert (0 <= req_base request mod GUEST_PAGE_SIZE) by (rewrite page_size_val; dlia). lia.
  - intros base. eapply keeps_bind; [apply _ | |intros; apply keeps_ret].
    case_match; [apply commit_range_only | by apply memory_only_ret].
Qed.

(** ** The step relation

    One rule for each operation of the runtime that changes it, and one for
    the guest code that runs in between: it leaves any register file of the
    right widths and any memory. *)

Inductive tm_step : ThreadManager * CpuState -> ThreadManager * CpuState -> Prop :=
| step_guest s cpu cpu' mem : cpu_wf cpu' -> tm_step (s, cpu) (with_memory s mem, cpu')
| step_rotate s cpu : tm_step (s, cpu) ((rotate_active s cpu).1.2, (rotate_active s cpu).2)
| step_exit s cpu status :
    tm_step (s, cpu) ((exit_active s cpu status).1.2, (exit_active s cpu status).2)
| step_park s cpu block : pending s = Some (PendingWait block) ->
    tm_step (s, cpu) ((park_active (take_pending s).2 block cpu).1.2,
                      (park_active (take_pending s).2 block cpu).2)
| step_take_pending s cpu : tm_step (s, cpu) ((take_pending s).2, cpu)
| step_resume_any s cpu :
    tm_step (s, cpu) ((resume_any_ready s cpu).1.2, (resume_any_ready s cpu).2)
| step_advance s cpu ms : 0 <= ms -> tm_step (s, cpu) (advance_timers s ms, cpu)
| step_take_dpc s cpu : tm_step (s, cpu) ((take_dpc s).2, cpu)
| step_queue_dpc s cpu dpc : tm_step (s, cpu) ((queue_dpc s dpc).2, cpu)
| step_set_interrupt s cpu r : tm_step (s, cpu) (set_interrupt_routine s r, cpu)
| step_connect s cpu o c : tm_step (s, cpu) (connect_interrupt s o c, cpu)
| step_set_timer s cpu t due per dpc : tm_step (s, cpu) ((set_timer s t due per dpc).2, cpu)
| step_cancel_timer s cpu t : tm_step (s, cpu) ((cancel_timer s t).2, cpu)
| step_display s cpu mode : tm_step (s, cpu) (set_display_mode s mode, cpu)
| step_exit_current s cpu status : tm_step (s, cpu) (exit_current_thread s status, cpu)
| step_close s cpu h : tm_step (s, cpu) ((close_handle s h).2, cpu)
| step_create_event s cpu m i : tm_step (s, cpu) ((create_event s m i).2, cpu)
| step_set_event s cpu h : tm_step (s, cpu) ((set_event s h).2, cpu)
| step_resume s cpu h : tm_step (s, cpu) ((resume_thread s h).2, cpu)
| step_suspend s cpu h : tm_step (s, cpu) ((suspend_thread s h).2, cpu)
| step_create_mutant s cpu o : tm_step (s, cpu) ((create_mutant s o).2, cpu)
| step_release s cpu h : tm_step (s, cpu) ((release_mutant s h).2, cpu)
| step_wait_dispatcher s cpu a ms : tm_step (s, cpu) ((wait_for_dispatcher_object s a ms).2, cpu)
| step_signal s cpu a : tm_step (s, cpu) (signal_dispatcher_object s a, cpu)
| step_transfer s cpu a : tm_step (s, cpu) ((transfer_section_wake s a).2, cpu)
| step_wait s cpu h ms : tm_step (s, cpu) ((wait_for_object s h ms).2, cpu)
| step_wait_multi s cpu ks all ms : tm_step (s, cpu) ((wait_for_objects s ks all ms).2, cpu)
| step_sleep s cpu ms : tm_step (s, cpu) ((sleep_thread s ms).2, cpu)
| step_create_thread s cpu r : request_ok r -> tm_step (s, cpu) ((create_thread r s).2, cpu)
| step_variables s cpu os name : tm_step (s, cpu) ((build_kernel_variables os name s).2, cpu)
| step_persist s cpu b n : tm_step (s, cpu) (persist_memory s b n, cpu)
| step_contiguous s cpu n : tm_step (s, cpu) ((allocate_contiguous n s).2, cpu)
| step_free_contiguous s cpu a : tm_step (s, cpu) ((free_contiguous a s).2, cpu)
| step_claim s cpu n : tm_step (s, cpu) ((claim_gpu_instance n s).2, cpu)
| step_virtual s cpu r : 0 <= req_size r -> tm_step (s, cpu) ((allocate_virtual_memory r s).2, cpu)
| step_files s cpu fs : tm_step (s, cpu) (with_host_files s fs, cpu).

(** A manager before its boot thread: whatever stores and cells it has. *)
Definition unbooted (s : ThreadManager) : Prop :=
  exists mem disc hdd launch tick tls,
    s = with_tls_template (with_tick_count_cell (with_launch_data_page_cell
          (ThreadManager_new mem disc hdd) launch) tick) tls.

(** The loader's order: a fresh manager, its TLS template, the kernel
    variables, stores and mappings of its own, the boot thread; then any
    steps. *)
Inductive reachable : ThreadManager * CpuState -> Prop :=
| reach_boot mem mem' disc hdd tls ordinals name vars stack_base stack_bytes kpcr s0 s cpu :
    build_kernel_variables ordinals name
      (with_tls_template (ThreadManager_new mem disc hdd) tls) = (Ok vars, s0) ->
    create_boot_environment stack_base stack_bytes (with_memory s0 mem') = (Ok kpcr, s) ->
    cpu_wf cpu -> reachable (s, cpu)
| reach_step c c' : reachable c -> tm_step c c' -> reachable c'.

#[local] Instance unbooted_stable : MemoryStable unbooted.
Proof. intros s mem (m & d & h & l & t & tl & ->). by exists mem, d, h, l, t, tl. Qed.

Lemma variables_unbooted ordinals name s vars s' : unbooted s ->
  build_kernel_variables ordinals name s = (Ok vars, s') -> unbooted s'.
Proof.
  intros Hs Hrun.
  assert (s' = (build_kernel_variables ordinals name s).2) as -> by by rewrite Hrun.
  apply (build_kernel_variables_keeps unbooted); [| |done];
    intros ? c (m & d & h & l & t & tl & ->); [by exists m, d, h, c, t, tl | by exists m, d, h, l, c, tl].
Qed.

Lemma boot_ok s0 stack_base stack_bytes kpcr s : unbooted s0 ->
  create_boot_environment stack_base stack_bytes s0 = (Ok kpcr, s) -> tm_ok s.
Proof.
  intros Hs0. unfold create_boot_environment. unfold mbind at 1, KM_bind at 1.
  destruct (build_thread_pages_only stack_base stack_bytes s0) as [[mem' Hs] _].
  destruct (build_thread_pages stack_base stack_bytes s0) as [[k|e] s1];
    cbn in Hs; subst s1; [|done].
  destruct Hs0 as (m & d & h & l & t & tl & ->).
  cbn. intros [= <- <-]. split; cbn; try done; try (by constructor).
  - intros [|i]; [done|]. unfold thread_state. by destruct i.
  - intros [|i] u; cbn; [by intros [= <-] | by destruct i].
  - apply Forall_singleton. split; [apply cpu_default_wf | done].
Qed.

Lemma step_ok c c' : tm_step c c' -> tm_ok c.1 -> cpu_wf c.2 -> tm_ok c'.1 /\ cpu_wf c'.2.
Proof.
  intros Hstep Hok Hcpu. destruct Hstep; cbn [fst snd] in *; try (split; [|done]);
    auto using memory_ok, rotate_ok, exit_ok, resume_any_ok, advance_ok, take_dpc_ok, queue_dpc_ok,
      set_interrupt_ok, connect_interrupt_ok, set_timer_ok, cancel_timer_ok, close_ok,
      create_event_ok, set_event_ok, resume_ok, suspend_ok, create_mutant_ok, release_ok,
      wait_dispatcher_ok, signal_dispatcher_ok, transfer_ok, wait_object_ok, wait_objects_ok,
      sleep_ok, persist_ok.
  - destruct (ok_pending _ Hok _ H0).
    apply park_ok; [by destruct Hok; split | done | by apply (ok_pending _ Hok)].
  - by destruct Hok; split.
  - by destruct Hok; split.
  - by destruct Hok; split.
  - by apply create_thread_ok.
  - apply (build_kernel_variables_keeps tm_ok); try done; by intros ? ? []; split.
  - by apply allocate_contiguous_ok.
  - by apply free_contiguous_ok.
  - by apply claim_gpu_ok.
  - by apply allocate_virtual_ok.
  - by destruct Hok; split.
Qed.

Lemma reachable_ok c : reachable c -> tm_ok c.1 /\ cpu_wf c.2.
Proof.
  induction 1 as [mem mem' disc hdd tls os name vars b n kpcr s0 s cpu Hvars Hboot Hcpu
                 |c c' _ [Hok Hcpu] Hstep].
  { split; [|done]. eapply boot_ok; [|exact Hboot]. apply memory_stable.
    eapply variables_unbooted; [|exact Hvars].
    by exists mem, disc, hdd, None, None, tls. }
  by eapply step_ok.
Qed.

(** C17: In every reachable manager at most one thread runs and it is the
    current one, the current index names a thread, thread identifiers follow
    the table, and no deferred procedure, timer object or interrupt object is
    listed twice. *)
Theorem scheduler_invariant (s : ThreadManager) (cpu : CpuState) : reachable (s, cpu) ->
  (current s < length (threads s))%nat /\
  (forall i, thread_state s i = Some Running -> i = current s) /\
  (forall i t, threads s !! i = Some t -> th_id t = wrap32 (Z.of_nat i + 1)) /\
  NoDup (dpc_queue s) /\ NoDup (timer_object <$> timers s) /\
  NoDup ((fun e => int_object e.1) <$> interrupts s).
Proof. intros Hr. destruct (reachable_ok _ Hr) as [[] _]. done. Qed.

(** C33: Every reachable manager is well typed: the live and the saved register
    files have their widths, mutant owners are threads of the table with a
    32-bit count, a parked thread resumes with a 32-bit status, the clock is a
    64-bit number and the user cursor stays in the user range. *)
Theorem manager_well_typed (s : ThreadManager) (cpu : CpuState) : reachable (s, cpu) ->
  cpu_wf cpu /\ Forall (fun t => cpu_wf (th_cpu t)) (threads s) /\
  (forall h i c, mutants s !! h = Some (Some (i, c)) -> (i < length (threads s))%nat /\ u32 c) /\
  (forall i b, thread_state s i = Some (Waiting b) -> u32 (timeout_status b)) /\
  u64 (elapsed_ms s) /\ USER_ALLOC_BASE <= user_cursor s <= USER_ALLOC_END.
Proof.
  intros Hr. destruct (reachable_ok _ Hr) as [Hok Hcpu]. cbn [fst snd] in *. split_and!.
  - done.
  - eapply Forall_impl; [apply (ok_threads _ Hok)|]. by intros t [].
  - intros h i c Hm. by eapply held_in_range.
  - intros i b. unfold thread_state. destruct (threads s !! i) as [t|] eqn:Ht; [|done]. cbn.
    intros [= Hst]. by apply (proj2 (thread_at_ok _ _ _ Hok Ht)).
  - apply (ok_elapsed _ Hok).
  - apply (ok_cursor _ Hok).
  - apply (ok_cursor _ Hok).
Qed.

(** ** Reservations only move up *)

Lemma frame_cursor s s' : wake_frame s s' -> user_cursor s' = user_cursor s.
Proof. by intros (? & ? & ? & -> & _). Qed.

Lemma wake_cursor s key all : user_cursor (wake_by_key s key all).2 = user_cursor s.
Proof. apply frame_cursor, wake_by_key_frame. Qed.

Lemma foldl_cursor {A} (f : ThreadManager -> A -> ThreadManager) l s :
  (forall s x, user_cursor (f s x) = user_cursor s) -> user_cursor (foldl f s l) = user_cursor s.
Proof.
  intros Hf. revert s. induction l as [|x l IH]; intros s; cbn [foldl]; [done|]. by rewrite IH, Hf.
Qed.

Lemma switch_cursor s cpu (next : option nat) :
  user_cursor (match next with
               | None => (false, s, cpu)
               | Some next => let '(s, cpu) := switch_to s cpu next in (true, s, cpu)
               end).1.2 = user_cursor s.
Proof. by destruct next. Qed.

Lemma publish_cursor s i st : user_cursor (publish_thread_exit s i st) = user_cursor s.
Proof. unfold publish_thread_exit. by repeat case_match. Qed.

Lemma exit_cursor s cpu st : user_cursor (exit_active s cpu st).1.2 = user_cursor s.
Proof.
  unfold exit_active. rewrite switch_cursor.
  case_match; rewrite ?wake_cursor; rewrite publish_cursor; done.
Qed.

Lemma rotate_cursor s cpu : user_cursor (rotate_active s cpu).1.2 = user_cursor s.
Proof.
  unfold rotate_active. destruct (_ <? 2)%nat; [done|]. destruct (find _ _); [|done].
  by destruct (bool_decide _).
Qed.

Lemma resume_any_cursor s cpu : user_cursor (resume_any_ready s cpu).1.2 = user_cursor s.
Proof. unfold resume_any_ready. destruct (active_runnable s); [done | apply switch_cursor]. Qed.

Lemma queue_cursor s dpc : user_cursor (queue_dpc s dpc).2 = user_cursor s.
Proof. unfold queue_dpc. by case_match. Qed.

Lemma advance_cursor s ms : user_cursor (advance_timers s ms) = user_cursor s.
Proof.
  unfold advance_timers. destruct (ms =? 0); [done|]. set (s2 := foldl _ _ _).
  assert (user_cursor s2 = user_cursor s) as Hs2 by by unfold s2; rewrite foldl_cursor.
  destruct (timers s2) eqn:Ht; [done|]. destruct (retain_due _ _) as [kept due].
  rewrite foldl_cursor; [done | intros; apply queue_cursor].
Qed.

Lemma consume_cursor s k i : user_cursor (consume_key s k i) = user_cursor s.
Proof. unfold consume_key. by repeat case_match. Qed.

Lemma consumes_cursor s ks i : user_cursor (consume_keys s ks i) = user_cursor s.
Proof. apply foldl_cursor. intros. apply consume_cursor. Qed.

Lemma set_event_cursor s h : user_cursor (set_event s h).2 = user_cursor s.
Proof.
  unfold set_event. destruct (events s !! h) as [[m p]|]; [|done].
  set (s1 := with_events _ _). pose proof (wake_cursor s1 h m) as Hw.
  destruct (wake_by_key s1 h m) as [n s2]. cbn [snd] in *. by repeat case_match.
Qed.

Lemma signal_cursor s a : user_cursor (signal_dispatcher_object s a) = user_cursor s.
Proof.
  unfold signal_dispatcher_object. set (b := negb _). pose proof (wake_cursor s a b) as Hw.
  destruct (wake_by_key s a b). by case_match.
Qed.

Lemma release_cursor s h : user_cursor (release_mutant s h).2 = user_cursor s.
Proof.
  unfold release_mutant. destruct (mutants s !! h) as [[[i c]|]|]; try done.
  destruct (negb _); [done|]. destruct (1 <? c); cbn [snd]; [done|]. by rewrite wake_cursor.
Qed.

Lemma wait_cursor s h ms : user_cursor (wait_for_object s h ms).2 = user_cursor s.
Proof. unfold wait_for_object. repeat case_match; cbn [snd]; auto using consume_cursor. Qed.

Lemma wait_multi_cursor s ks all ms : user_cursor (wait_for_objects s ks all ms).2 = user_cursor s.
Proof.
  unfold wait_for_objects. destruct (negb _); [done|]. unfold multi_satisfied.
  destruct all.
  - destruct (forallb _ _); cbn [snd]; [apply consumes_cursor | by case_match].
  - destruct (iter_position _ ks) as [k|]; cbn [mbind option_bind]; [|by case_match].
    destruct (ks !! k); cbn [mbind option_bind snd]; [apply consume_cursor | by case_match].
Qed.

(** The methods of the monad other than the virtual allocator. *)
Definition cursor_is (n : Z) (s : ThreadManager) : Prop := user_cursor s = n.
#[local] Instance cursor_is_stable n : MemoryStable (cursor_is n).
Proof. by intros s mem. Qed.

Lemma create_thread_cursor r s : user_cursor (create_thread r s).2 = user_cursor s.
Proof.
  revert s. enough (forall n, keeps (cursor_is n) (create_thread r)) as Hk by by intros s; apply (Hk _ s).
  intros n. unfold create_thread. cbn zeta.
  eapply keeps_bind; [apply _ | apply (memory_only_or_err (fun _ => True)); intros s;
    split; [by eexists | done]|]. intros _ _.
  eapply keeps_bind; [apply _ | apply memory_only_or_err, allocate_kernel_block_only|].
  intros stack _. eapply keeps_bind; [apply _ | apply memory_only_or_err, build_thread_pages_only|].
  intros kpcr _. eapply keeps_bind; [apply _ | by apply (memory_only_gets (fun _ => True))|].
  intros reserve _. eapply keeps_bind;
    [apply _ | apply (memory_only_or_err (fun _ => True)); repeat memory_step|].
  intros _ _. apply keeps_gets. by intros s Hs.
Qed.

Lemma allocate_contiguous_cursor n s : user_cursor (allocate_contiguous n s).2 = user_cursor s.
Proof.
  revert s. enough (forall m, keeps (cursor_is m) (allocate_contiguous n)) as Hk by by intros s; apply (Hk _ s).
  intros m. unfold allocate_contiguous.
  eapply keeps_bind; [apply _ | apply memory_only_or_err, allocate_kernel_block_only|]. intros r _.
  apply keeps_then; [by apply keeps_modify | intros _; apply keeps_ret].
Qed.

Lemma claim_cursor n s : user_cursor (claim_gpu_instance n s).2 = user_cursor s.
Proof.
  unfold claim_gpu_instance, mbind, KM_bind. pose proof (allocate_contiguous_cursor n s) as Ha.
  by destruct (allocate_contiguous n s) as [[b|e] s1].
Qed.

(** What a fresh reservation is, when there is room for it. *)
Lemma place_fresh request offset rounded s base s' : tm_ok s -> 0 <= rounded ->
  req_base request = 0 -> place_allocation request offset rounded s = (Ok base, s') ->
  user_cursor s <= base /\ base mod RESERVE_ALIGN = 0 /\
  user_cursor s' = base + rounded /\ base + rounded <= USER_ALLOC_END.
Proof.
  intros Hok Hr Hb. unfold place_allocation. rewrite Hb. cbn [Z.eqb].
  destruct (next_multiple_ge _ (ok_cursor _ Hok)) as [Hge Hal].
  unfold checked_add. destruct (_ <? 2 ^ 32); [|done].
  destruct (Z.leb_spec (next_multiple_of32 (user_cursor s) RESERVE_ALIGN + rounded) USER_ALLOC_END); [|done].
  intros [= <- <-]. cbn. split_and!; [lia | done | done | done].
Qed.

Lemma commit_cursor (b : bool) base rounded perms s (r : result Svc.KernelServiceError unit) s' :
  (if b then commit_range base rounded perms else mret tt) s = (r, s') -> user_cursor s' = user_cursor s.
Proof.
  destruct b; [|by intros [= <- <-]]. intros Hrun.
  destruct (commit_range_only base rounded perms s) as [[mem Hs] _]. rewrite Hrun in Hs. cbn in Hs.
  by subst.
Qed.

Lemma virtual_fresh request s a s' : tm_ok s -> 0 <= req_size request -> req_base request = 0 ->
  allocate_virtual_memory request s = (Ok a, s') ->
  user_cursor s <= alloc_base a /\ alloc_base a mod RESERVE_ALIGN = 0 /\
  user_cursor s' = alloc_base a + alloc_size a /\ alloc_base a + alloc_size a <= USER_ALLOC_END.
Proof.
  intros Hok Hsize Hb. unfold allocate_virtual_memory, mbind at 1, KM_bind at 1.
  set (offset := req_base request mod _). set (rounded := saturating_mul32 _ _).
  assert (0 <= rounded) as Hr.
  { apply rounded_nonneg. unfold saturating_add, offset. rewrite Hb, page_size_val. dlia. }
  destruct (place_allocation request offset rounded s) as [[base|e] s1] eqn:Hp; [|done].
  destruct (place_fresh _ _ _ _ _ _ Hok Hr Hb Hp) as (H1 & H2 & H3 & H4).
  unfold mbind, KM_bind. set (m := if has_bits _ _ then _ else _).
  destruct (m s1) as [[[]|e] s2] eqn:Hc; [|done].
  intros [= <- <-]. apply commit_cursor in Hc. cbn. by rewrite Hc.
Qed.

Lemma virtual_cursor request s : tm_ok s -> 0 <= req_size request ->
  user_cursor s <= user_cursor (allocate_virtual_memory request s).2.
Proof.
  intros Hok Hsize. unfold allocate_virtual_memory, mbind at 1, KM_bind at 1.
  set (offset := req_base request mod _). set (rounded := saturating_mul32 _ _).
  assert (0 <= rounded) as Hr.
  { apply rounded_nonneg. unfold saturating_add, offset. rewrite page_size_val. dlia. }
  assert (user_cursor s <= user_cursor (place_allocation request offset rounded s).2) as Hp.
  { unfold place_allocation. destruct (req_base request =? 0); [|done].
    destruct (next_multiple_ge _ (ok_cursor _ Hok)) as [Hge Hal].
    repeat case_match; cbn; try lia. unfold checked_add in *. case_match; simplify_eq. lia. }
  destruct (place_allocation request offset rounded s) as [[base|e] s1]; [|done]. cbn [snd] in Hp.
  unfold mbind, KM_bind. set (m := if has_bits _ _ then _ else _).
  destruct (m s1) as [[[]|e] s2] eqn:Hc; apply commit_cursor in Hc; cbn; lia.
Qed.

Lemma step_cursor c c' : tm_step c c' -> tm_ok c.1 -> user_cursor c.1 <= user_cursor c'.1.
Proof.
  intros Hstep Hok. destruct Hstep; cbn [fst snd] in *; try done;
    rewrite ?rotate_cursor, ?exit_cursor, ?resume_any_cursor, ?advance_cursor, ?queue_cursor,
      ?set_event_cursor, ?signal_cursor, ?release_cursor, ?wait_cursor, ?wait_multi_cursor,
      ?create_thread_cursor, ?allocate_contiguous_cursor, ?claim_cursor; try done.
  - unfold park_active. by rewrite switch_cursor.
  - unfold take_dpc. by case_match.
  - unfold set_interrupt_routine. by case_match.
  - unfold connect_interrupt. by case_match.
  - unfold set_timer. by case_match.
  - unfold close_handle. case_match; [done|]. destruct (fs_close _ _). by case_match.
  - unfold resume_thread. by repeat case_match.
  - unfold suspend_thread. by repeat case_match.
  - unfold wait_for_dispatcher_object. by case_match.
  - unfold transfer_section_wake. by case_match.
  - unfold sleep_thread. by case_match.
  - apply Z.eq_le_incl. symmetry. by apply (build_kernel_variables_keeps (cursor_is (user_cursor s))).
  - unfold persist_memory. by case_match.
  - unfold free_contiguous. by repeat case_match.
  - by apply virtual_cursor.
Qed.

Lemma run_ok_cursor c c' : rtc tm_step c c' -> tm_ok c.1 -> cpu_wf c.2 ->
  tm_ok c'.1 /\ user_cursor c.1 <= user_cursor c'.1.
Proof.
  induction 1 as [c|c1 c2 c3 Hstep _ IH]; intros Hok Hcpu; [done|].
  destruct (step_ok _ _ Hstep Hok Hcpu) as [Hok2 Hcpu2]. destruct (IH Hok2 Hcpu2).
  pose proof (step_cursor _ _ Hstep Hok). split; [done | lia].
Qed.

(** C34: Fresh reservations never overlap: each starts on a 64 KiB boundary of
    the user range and ends inside it, and one made after any further run of
    the system starts at or after the end of the earlier one. *)
Theorem reservations_disjoint (s1 s1' s2 s2' : ThreadManager) (cpu1 cpu2 : CpuState)
    (r1 r2 : VirtualAllocRequest) (a1 a2 : VirtualAllocation) :
  reachable (s1, cpu1) -> 0 <= req_size r1 -> 0 <= req_size r2 ->
  req_base r1 = 0 -> req_base r2 = 0 ->
  allocate_virtual_memory r1 s1 = (Ok a1, s1') ->
  rtc tm_step (s1', cpu1) (s2, cpu2) ->
  allocate_virtual_memory r2 s2 = (Ok a2, s2') ->
  alloc_base a1 mod RESERVE_ALIGN = 0 /\ alloc_base a2 mod RESERVE_ALIGN = 0 /\
  USER_ALLOC_BASE <= alloc_base a1 /\
  alloc_base a1 + alloc_size a1 <= alloc_base a2 /\
  alloc_base a2 + alloc_size a2 <= USER_ALLOC_END.
Proof.
  intros Hr Hs1 Hs2 Hb1 Hb2 Ha1 Hrun Ha2. destruct (reachable_ok _ Hr) as [Hok Hcpu]. cbn [fst snd] in *.
  pose proof (ok_cursor _ Hok). destruct (virtual_fresh _ _ _ _ Hok Hs1 Hb1 Ha1) as (? & ? & Hc & ?).
  pose proof (allocate_virtual_ok r1 Hs1 s1 Hok) as Hok1. rewrite Ha1 in Hok1. cbn [snd] in Hok1.
  destruct (run_ok_cursor _ _ Hrun Hok1 Hcpu) as [Hok2 Hle]. cbn [fst] in *.
  destruct (virtual_fresh _ _ _ _ Hok2 Hs2 Hb2 Ha2) as (? & ? & ? & ?).
  split_and!; try done; lia.
Qed.
End Reach.

(** ** A booted manager *)

(** Thirty-two pages of RAM, all aliased by the kernel window. *)
Definition demo_ram : SoftwareAddressSpace :=
  match SoftwareAddressSpace_new true 0x20000 with
  | Ok s => (map_physical_window s).2
  | Err _ => demo_space
  end.

Definition demo_unbooted : @ThreadManager demo_host :=
  @ThreadManager_new demo_host demo_ram None None.

Definition demo_booted : @ThreadManager demo_host :=
  (@create_boot_environment demo_host 0x20000 0x4000 demo_unbooted).2.

Definition demo_kpcr : Z := 0x80000000.

Lemma demo_boots : @create_boot_environment demo_host 0x20000 0x4000 demo_unbooted =
  (Ok demo_kpcr, demo_booted).
Proof.
  assert ((@create_boot_environment demo_host 0x20000 0x4000 demo_unbooted).1 = Ok demo_kpcr) as Hb
    by (vm_compute; reflexivity).
  unfold demo_booted. rewrite <- Hb. apply surjective_pairing.
Qed.

Lemma demo_reachable : @reachable demo_host (demo_booted, CpuState_default).
Proof.
  eapply (@reach_boot demo_host demo_ram demo_ram None None None [] [] ∅ 0x20000 0x4000 demo_kpcr
    demo_unbooted); [reflexivity | exact demo_boots | exact cpu_default_wf].
Qed.

Lemma scheduler_invariant_witness :
  (current demo_booted < length (threads demo_booted))%nat /\
  (forall i, thread_state demo_booted i = Some Running -> i = current demo_booted).
Proof.
  destruct (@scheduler_invariant demo_host demo_booted CpuState_default demo_reachable)
    as (Hc & Hr & _).
  exact (conj Hc Hr).
Defined.

Lemma manager_well_typed_witness :
  Forall (fun t => cpu_wf (th_cpu t)) (threads demo_booted) /\ u64 (elapsed_ms demo_booted).
Proof.
  destruct (@manager_well_typed demo_host demo_booted CpuState_default demo_reachable)
    as (_ & Ht & _ & _ & He & _).
  exact (conj Ht He).
Defined.

Definition demo_reserve : VirtualAllocRequest := mkVirtualAllocRequest 0 0x1800 0x2000 0x04.

Definition demo_reserved : result Svc.KernelServiceError VirtualAllocation * @ThreadManager demo_host :=
  @allocate_virtual_memory demo_host demo_reserve demo_booted.

Lemma reservations_disjoint_witness :
  exists a1 a2, demo_reserved.1 = Ok a1 /\
    (@allocate_virtual_memory demo_host demo_reserve demo_reserved.2).1 = Ok a2 /\
    alloc_base a1 + alloc_size a1 <= alloc_base a2.
Proof.
  exists (mkVirtualAllocation 0x10000000 0x2000), (mkVirtualAllocation 0x10010000 0x2000).
  assert (demo_reserved.1 = Ok (mkVirtualAllocation 0x10000000 0x2000)) as H1
    by (vm_compute; reflexivity).
  assert ((@allocate_virtual_memory demo_host demo_reserve demo_reserved.2).1 =
    Ok (mkVirtualAllocation 0x10010000 0x2000)) as H2 by (vm_compute; reflexivity).
  split; [exact H1|]. split; [exact H2|].
  apply (@reservations_disjoint demo_host demo_booted demo_reserved.2 demo_reserved.2
    (@allocate_virtual_memory demo_host demo_reserve demo_reserved.2).2 CpuState_default
    CpuState_default demo_reserve demo_reserve); try exact demo_reachable; try (cbn; lia).
  - rewrite <- H1. apply surjective_pairing.
  - apply rtc_refl.
  - rewrite <- H2. apply surjective_pairing.
Defined.
