(* ===== verification/WaitTheorems.v ===== *)
(** * Waits, wakes, mutants and deadlines

    What the wake arbiter [wake_by_key] does exactly, for signals that one
    waiter takes and for signals that stay; how a mutant is handed over and
    how nested acquisitions pair with releases; and that a wait with a
    deadline ends when the clock reaches it. *)

From Stdlib Require Import Ascii.
From stdpp Require Import strings.
From S2P Require Import Prelude GuestTypes PageTable Allocator GuestMemory SoftwareSpace CpuState KernelTypes HostFiles Runtime RuntimeMemory SchedulerSteps HostFileTheorems SchedulerReach.

Section Waits.
Context `{HostOs}.

(** ** One signal, one waiter *)

(** Thread [i] waits on [key] with [block]. *)
Definition waiting_on (s : ThreadManager) (key : Z) (i : nat) (block : WaitBlock) : Prop :=
  thread_state s i = Some (Waiting block) /\ key ∈ keys block.

(** The arbiter may satisfy the block now: any wait-any block, and a wait-all
    block whose keys all read signaled. *)
Definition satisfiable (s : ThreadManager) (i : nat) (block : WaitBlock) : Prop :=
  wait_all block = true -> Forall (fun k => key_signaled s k i = true) (keys block).

(** The manager after thread [i] is woken by [key]. *)
Definition woken_by (s : ThreadManager) (key : Z) (i : nat) (block : WaitBlock) : ThreadManager :=
  if wait_all block
  then ready_thread_with (consume_keys s (keys block) i) i 0
  else ready_thread_with (consume_key s key i) i
         (wrap32 (Z.of_nat (default O (iter_position (fun k => k =? key) (keys block))))).

Lemma forallb_Forall {A} (f : A -> bool) l : forallb f l = true <-> Forall (fun x => f x = true) l.
Proof.
  rewrite forallb_forall, Forall_forall. split; intros Hf x Hx; apply Hf; by apply list_elem_of_In.
Qed.

Lemma wake_candidate_spec s key i block : thread_state s i = Some (Waiting block) ->
  wake_candidate s key i = (true, woken_by s key i block) /\ satisfiable s i block \/
  wake_candidate s key i = (false, s) /\ ~ satisfiable s i block.
Proof.
  intros Hst. unfold wake_candidate, woken_by, satisfiable. rewrite Hst.
  destruct (wait_all block); [|by left].
  destruct (forallb _ _) eqn:Hall.
  - left. split; [done|]. intros _. by apply forallb_Forall.
  - right. split; [done|]. intros Hf. apply not_true_iff_false in Hall. apply Hall.
    by apply forallb_Forall, Hf.
Qed.

Lemma candidate_iff s key i : i ∈ thread_indices (waits_on key) s <-> exists b, waiting_on s key i b.
Proof.
  rewrite thread_indices_elem. unfold waiting_on, thread_state, waits_on. split.
  - intros (t & Ht & Hw). destruct (th_state t) as [| | |b|] eqn:Hst; try done.
    apply bool_decide_eq_true in Hw. exists b. rewrite Ht. cbn. by rewrite Hst.
  - intros (b & Hst & Hk). destruct (threads s !! i) as [t|]; [|done]. injection Hst as Hst.
    exists t. split; [done|]. rewrite Hst. by apply bool_decide_eq_true.
Qed.

(** The candidates come in table order. *)
Lemma filtered_sorted {A} (f : A -> bool) (l : list A) g i j x y :
  let c := (filter (fun p => f p.2 = true) (imap (fun n z => (g + n, z))%nat l)).*1 in
  c !! i = Some x -> c !! j = Some y -> (i < j)%nat -> (x < y)%nat.
Proof.
  revert g i j. induction l as [|a l IH]; intros g i j c; [done|].
  assert ((imap (fun n z => (g + n, z))%nat (a :: l)) =
    (g + 0, a)%nat :: imap (fun n z => (S g + n, z))%nat l) as Hl.
  { rewrite imap_cons. f_equal. apply imap_ext. intros n z _. cbn. f_equal. lia. }
  subst c. rewrite Hl. rewrite filter_cons. destruct (decide _).
  - destruct i as [|i], j as [|j]; try lia; cbn [fmap list_fmap lookup list_lookup fst]; intros Hx Hy Hij.
    + simplify_eq. apply list_elem_of_lookup_2 in Hy. apply list_elem_of_fmap in Hy as ([n z] & -> & Hin).
      apply list_elem_of_filter in Hin as [_ Hin]. apply list_elem_of_lookup in Hin as [k Hk].
      rewrite list_lookup_imap in Hk. destruct (l !! k); cbn in Hk; simplify_eq. cbn. lia.
    + eapply (IH (S g) i j); [exact Hx | exact Hy | lia].
  - apply IH.
Qed.

Lemma candidates_sorted s f i j x y : thread_indices f s !! i = Some x ->
  thread_indices f s !! j = Some y -> (i < j)%nat -> (x < y)%nat.
Proof. apply (filtered_sorted f (threads s) 0). Qed.

(** The loop that stops at the first thread it wakes. *)
Lemma wake_one_loop s key cs :
  (forall i, i ∈ cs -> exists b, waiting_on s key i b) ->
  (wake_loop s key false cs 0 = (O, s) /\
     forall i b, i ∈ cs -> waiting_on s key i b -> ~ satisfiable s i b) \/
  exists k i b, cs !! k = Some i /\ waiting_on s key i b /\ satisfiable s i b /\
    (forall j i' b', (j < k)%nat -> cs !! j = Some i' -> waiting_on s key i' b' -> ~ satisfiable s i' b') /\
    wake_loop s key false cs 0 = (1%nat, woken_by s key i b).
Proof.
  induction cs as [|i cs IH]; intros Hcs; cbn [wake_loop].
  - left. split; [done|]. intros i b Hin. by apply elem_of_nil in Hin.
  - destruct (Hcs i ltac:(by constructor)) as [b Hb]. pose proof Hb as [Hst _]. rewrite Hst.
    destruct (wake_candidate_spec s key i b Hst) as [[-> Hsat]|[-> Hsat]].
    + right. exists O, i, b. split_and!; [done..| |done]. intros; lia.
    + cbn [negb andb Nat.ltb Nat.leb].
      destruct IH as [[-> Hno]|(k & i' & b' & Hk & Hw & Hs & Hfirst & ->)].
      * intros j Hj. apply Hcs. by constructor.
      * left. split; [done|]. intros j bj Hj Hwj. apply elem_of_cons in Hj as [->|Hj]; [|by apply Hno].
        destruct Hwj as [Hst' _]. by simplify_eq.
      * right. exists (S k), i', b'. split_and!; [done..| |done].
        intros [|j] ij bj Hj Hij Hwj; cbn in Hij.
        -- simplify_eq. destruct Hwj as [Hst' _]. by simplify_eq.
        -- by eapply (Hfirst j); [lia|..].
Qed.

Lemma wake_one_spec s key :
  (wake_by_key s key false = (O, s) /\
     forall i b, waiting_on s key i b -> ~ satisfiable s i b) \/
  exists i b, waiting_on s key i b /\ satisfiable s i b /\
    (forall j b', (j < i)%nat -> waiting_on s key j b' -> ~ satisfiable s j b') /\
    wake_by_key s key false = (1%nat, woken_by s key i b).
Proof.
  unfold wake_by_key. set (cs := thread_indices (waits_on key) s).
  destruct (wake_one_loop s key cs) as [[-> Hno]|(k & i & b & Hk & Hw & Hs & Hfirst & ->)].
  - intros i. by apply candidate_iff.
  - left. split; [done|]. intros i b Hw. apply Hno; [|done]. apply candidate_iff. by exists b.
  - right. exists i, b. split_and!; [done..| |done]. intros j b' Hj Hw'.
    assert (j ∈ cs) as Hin by (apply candidate_iff; by exists b').
    apply list_elem_of_lookup in Hin as [n Hn]. apply (Hfirst n); [|done|done].
    destruct (decide (n < k)%nat) as [|Hge]; [done|].
    destruct (decide (n = k)) as [->|]; [simplify_eq; lia|].
    assert (i < j)%nat; [|lia]. eapply (candidates_sorted s _ k n); [done | done | lia].
Qed.

Lemma woken_by_ready s key i b st : thread_state s i = Some st ->
  thread_state (woken_by s key i b) i = Some Ready.
Proof.
  unfold thread_state at 1. intros Hst. unfold woken_by, ready_thread_with.
  destruct (wait_all b); rewrite state_alter, decide_True by done;
    rewrite ?consume_keys_threads, ?consume_key_threads; by destruct (threads s !! i).
Qed.

Lemma woken_by_others s key i b j : j <> i ->
  threads (woken_by s key i b) !! j = threads s !! j.
Proof.
  intros Hj. unfold woken_by, ready_thread_with.
  destruct (wait_all b); rewrite threads_alter, decide_False by done;
    rewrite ?consume_keys_threads, ?consume_key_threads; by destruct (threads s !! j).
Qed.

(** C28: A signal that one waiter takes wakes exactly one thread: the first, in
    table order, whose wait-any block names the key or whose wait-all block
    has every key signaled.  That thread becomes ready with the index of the
    object that satisfied it (zero for wait-all) in EAX, having consumed what
    it waited for; where there is no such thread nothing changes. *)
Theorem wake_one_exact (s : ThreadManager) (key : Z) :
  (wake_by_key s key false = (O, s) /\
     forall i b, waiting_on s key i b -> ~ satisfiable s i b) \/
  exists i b, waiting_on s key i b /\ satisfiable s i b /\
    (forall j b', (j < i)%nat -> waiting_on s key j b' -> ~ satisfiable s j b') /\
    wake_by_key s key false = (1%nat, woken_by s key i b) /\
    thread_state (woken_by s key i b) i = Some Ready /\
    forall j, j <> i -> threads (woken_by s key i b) !! j = threads s !! j.
Proof.
  destruct (wake_one_spec s key) as [?|(i & b & Hw & Hs & Hfirst & Heq)]; [by left|].
  right. exists i, b. split_and!; try done.
  - eapply woken_by_ready, Hw.
  - intros j. apply woken_by_others.
Qed.

(** ** A signal that stays *)

Lemma candidates_NoDup s f : NoDup (thread_indices f s).
Proof.
  apply NoDup_alt. intros i j x Hi Hj. destruct (decide (i < j)%nat); [|destruct (decide (j < i)%nat)].
  - pose proof (candidates_sorted s f i j x x Hi Hj). lia.
  - pose proof (candidates_sorted s f j i x x Hj Hi). lia.
  - lia.
Qed.

(** A thread woken with [eax]. *)
Definition resumed (eax : Z) (t : GuestThread) : GuestThread :=
  set_state Ready (set_cpu (set_gpr (th_cpu t) 0 eax) t).

(** The index of [key] among the keys of a block, as EAX reports it. *)
Definition key_index (key : Z) (block : WaitBlock) : Z :=
  wrap32 (Z.of_nat (default O (iter_position (fun k => k =? key) (keys block)))).

Lemma wake_candidate_others s key i j : j <> i ->
  threads (wake_candidate s key i).2 !! j = threads s !! j.
Proof.
  intros Hj. unfold wake_candidate, ready_thread_with.
  repeat case_match; try done; cbn [snd]; rewrite threads_alter, decide_False by done;
    rewrite ?consume_keys_threads, ?consume_key_threads; by destruct (threads s !! j).
Qed.

Lemma wake_candidate_any s key i t b : threads s !! i = Some t -> th_state t = Waiting b ->
  wait_all b = false ->
  threads (wake_candidate s key i).2 !! i = Some (resumed (key_index key b) t).
Proof.
  intros Ht Hst Hall. unfold wake_candidate, thread_state. rewrite Ht. cbn. rewrite Hst, Hall. cbn [snd].
  unfold ready_thread_with. rewrite threads_alter, decide_True, consume_key_threads, Ht by done. done.
Qed.

Lemma wake_candidate_all s key i t b : threads s !! i = Some t -> th_state t = Waiting b ->
  wait_all b = true ->
  threads (wake_candidate s key i).2 !! i = Some t \/
  threads (wake_candidate s key i).2 !! i = Some (resumed 0 t).
Proof.
  intros Ht Hst Hall. unfold wake_candidate, thread_state. rewrite Ht. cbn. rewrite Hst, Hall.
  destruct (forallb _ _); cbn [snd]; [|by left]. right.
  unfold ready_thread_with. rewrite threads_alter, decide_True, consume_keys_threads, Ht by done. done.
Qed.

Lemma wake_loop_all_cons s key i cs n : exists n',
  wake_loop s key true (i :: cs) n = wake_loop (wake_candidate s key i).2 key true cs n'.
Proof.
  cbn [wake_loop]. unfold wake_candidate at 2.
  destruct (thread_state s i) as [[| | |b|]|] eqn:Hst; try (by exists n).
  unfold wake_candidate. rewrite Hst. cbn [negb andb].
  destruct (wait_all b); [destruct (forallb _ _)|]; by eexists.
Qed.

Lemma wake_all_loop s key cs n : NoDup cs ->
  let s' := (wake_loop s key true cs n).2 in
  (forall i, i ∉ cs -> threads s' !! i = threads s !! i) /\
  (forall i t b, i ∈ cs -> threads s !! i = Some t -> th_state t = Waiting b ->
     if wait_all b
     then threads s' !! i = Some t \/ threads s' !! i = Some (resumed 0 t)
     else threads s' !! i = Some (resumed (key_index key b) t)).
Proof.
  intros Hnd. revert s n. induction Hnd as [|i cs Hi Hnd IH]; intros s n; cbn [wake_loop].
  - split; [done|]. intros i t b Hin. by apply elem_of_nil in Hin.
  - destruct (wake_loop_all_cons s key i cs n) as [n' Hn]. cbn [wake_loop] in Hn. rewrite Hn.
    pose proof (fun j => wake_candidate_others s key i j) as Hoth.
    pose proof (wake_candidate_any s key i) as Hany. pose proof (wake_candidate_all s key i) as Hall.
    generalize dependent (wake_candidate s key i).2. intros s1 _ Hoth Hany Hall.
    destruct (IH s1 n') as [IH1 IH2]. split.
    + intros j Hj. apply not_elem_of_cons in Hj as [Hji Hj]. rewrite IH1 by done. by apply Hoth.
    + intros j t bj Hj Ht Hs. apply elem_of_cons in Hj as [->|Hj].
      * rewrite IH1 by done. destruct (wait_all bj) eqn:Hb; eauto.
      * apply IH2; [done | | done]. rewrite Hoth; [done|]. by intros ->.
Qed.

(** A signal that stays loses no waiter: every thread that waits on the
    key for any of its objects becomes ready with the key's index in EAX; one
    that waits for all of them becomes ready with zero or stays as it was; and
    a thread that does not wait on the key is untouched. *)
Theorem wake_all_complete (s : ThreadManager) (key : Z) (i : nat) (t : GuestThread) :
  let s' := (wake_by_key s key true).2 in
  threads s !! i = Some t ->
  match th_state t with
  | Waiting b =>
    if bool_decide (key ∈ keys b) then
      if wait_all b
      then threads s' !! i = Some t \/ threads s' !! i = Some (resumed 0 t)
      else threads s' !! i = Some (resumed (key_index key b) t)
    else threads s' !! i = Some t
  | _ => threads s' !! i = Some t
  end.
Proof.
  intros s' Ht. destruct (wake_all_loop s key _ 0 (candidates_NoDup s (waits_on key))) as [Hout Hin].
  fold (wake_by_key s key true) in Hout, Hin. fold s' in Hout, Hin.
  assert (i ∈ thread_indices (waits_on key) s <-> waits_on key t = true) as Hc.
  { rewrite thread_indices_elem. split; [by intros (u & Hu & Hw); simplify_eq | by exists t]. }
  unfold waits_on in Hc. destruct (th_state t) as [| | |b|] eqn:Hst;
    try (rewrite Hout; [done|]; by rewrite Hc).
  destruct (bool_decide (key ∈ keys b)) eqn:Hk.
  - by apply (Hin i t b); [apply Hc| |].
  - rewrite Hout; [done|]. by rewrite Hc.
Qed.

(** ** Mutants *)

Lemma consume_key_events_dom s k i key : events s !! key = None ->
  events (consume_key s k i) !! key = None.
Proof.
  intros Hk. unfold consume_key. destruct (events s !! k) as [[m g]|] eqn:He.
  - destruct m; [done|]. cbn. rewrite lookup_insert_ne; [done|]. intros ->. congruence.
  - by repeat case_match.
Qed.

(** A key that names a mutant and no event: waiting takes it when it is free
    and leaves it alone when it is not. *)
Lemma consume_key_mutant s k i key : events s !! key = None ->
  mutants (consume_key s k i) !! key =
    match mutants s !! key with
    | Some None => if decide (k = key) then Some (Some (i, 1)) else Some None
    | o => o
    end.
Proof.
  intros Hk. unfold consume_key. destruct (decide (k = key)) as [->|Hne].
  - rewrite Hk. destruct (mutants s !! key) as [[[j c]|]|] eqn:Hm; cbn; rewrite ?Hm; try done.
    by rewrite lookup_insert_eq.
  - destruct (events s !! k) as [[m g]|].
    + destruct m; cbn; by destruct (mutants s !! key) as [[]|].
    + destruct (mutants s !! k) as [[|]|]; cbn; rewrite ?lookup_insert_ne by done;
        by destruct (mutants s !! key) as [[]|].
Qed.

Lemma consume_keys_mutant s ks i key : events s !! key = None ->
  mutants s !! key = Some (Some (i, 1)) \/ mutants s !! key = Some None /\ key ∈ ks ->
  mutants (consume_keys s ks i) !! key = Some (Some (i, 1)).
Proof.
  revert s. induction ks as [|k ks IH]; intros s Hev Hm.
  - by destruct Hm as [?|[_ Hin%elem_of_nil]].
  - cbn [consume_keys foldl]. apply IH; [by apply consume_key_events_dom|].
    rewrite consume_key_mutant by done. destruct Hm as [->|[-> Hin]]; [by left|].
    destruct (decide (k = key)); [by left|]. right. split; [done|].
    by apply elem_of_cons in Hin as [->|].
Qed.

Lemma woken_by_owner s h i b : events s !! h = None -> mutants s !! h = Some None -> h ∈ keys b ->
  mutants (woken_by s h i b) !! h = Some (Some (i, 1)).
Proof.
  intros Hev Hm Hin. unfold woken_by. destruct (wait_all b); cbn.
  - apply consume_keys_mutant; [done | by right].
  - rewrite consume_key_mutant, Hm, decide_True by done. done.
Qed.

(** C31: Releasing a mutant for the last time hands it over, where no event has
    the mutant's handle: the first thread, in table order, that may take it is
    its owner with a count of one from that moment, and is the only thread
    whose state changes; where no thread may take it, it becomes free and no
    thread changes. *)
Theorem mutant_handover (s : ThreadManager) (h : Z) :
  mutants s !! h = Some (Some (current s, 1)) -> events s !! h = None ->
  let freed := with_mutants s (<[h := None]> (mutants s)) in
  let s' := (release_mutant s h).2 in
  (release_mutant s h).1 = Ok 0 /\
  (((forall i b, waiting_on s h i b -> ~ satisfiable freed i b) /\
      mutants s' !! h = Some None /\ threads s' = threads s) \/
   exists i b, waiting_on s h i b /\ satisfiable freed i b /\
     (forall j b', (j < i)%nat -> waiting_on s h j b' -> ~ satisfiable freed j b') /\
     mutants s' !! h = Some (Some (i, 1)) /\ thread_state s' i = Some Ready /\
     forall j, j <> i -> threads s' !! j = threads s !! j).
Proof.
  intros Hm Hev freed s'. unfold s', release_mutant. rewrite Hm, Nat.eqb_refl. cbn [negb].
  change (1 <? 1) with false. cbn [fst snd]. fold freed. split; [done|].
  assert (mutants freed !! h = Some None) as Hfree by apply lookup_insert_eq.
  destruct (wake_one_spec freed h) as [[-> Hno]|(i & b & Hw & Hs & Hfirst & ->)]; cbn [snd];
    [left; split_and!; done|].
  right. exists i, b. split_and!; try done.
  - apply woken_by_owner; [done | done | apply Hw].
  - eapply woken_by_ready, Hw.
  - intros j Hj. by rewrite woken_by_others.
Qed.

Definition acquire (h : Z) (s : ThreadManager) : ThreadManager := (wait_for_object s h None).2.
Definition release (h : Z) (s : ThreadManager) : ThreadManager := (release_mutant s h).2.

Lemma mutant_known s h o : mutants s !! h = Some o -> known_key s h = true.
Proof.
  intros Hm. unfold known_key. rewrite Hm, (bool_decide_true (is_Some (Some o))) by done.
  by rewrite orb_true_r.
Qed.

Lemma acquire_free s h : events s !! h = None -> mutants s !! h = Some None ->
  wait_for_object s h None =
    (Ok Signaled, with_mutants s (<[h := Some (current s, 1)]> (mutants s))).
Proof.
  intros Hev Hm. unfold wait_for_object. rewrite (mutant_known s h None) by done.
  unfold key_signaled, consume_key. by rewrite Hm, Hev.
Qed.

Lemma acquire_held s h c : mutants s !! h = Some (Some (current s, c)) ->
  wait_for_object s h None =
    (Ok Signaled, with_mutants s (<[h := Some (current s, wrapping_add32 c 1)]> (mutants s))).
Proof. intros Hm. unfold wait_for_object. by rewrite Hm, Nat.eqb_refl. Qed.

Lemma acquired_n s h n : events s !! h = None -> mutants s !! h = Some None ->
  Z.of_nat (S n) < 2 ^ 32 ->
  let s' := Nat.iter (S n) (acquire h) s in
  mutants s' !! h = Some (Some (current s, Z.of_nat (S n))) /\ current s' = current s /\
  threads s' = threads s /\ events s' = events s.
Proof.
  intros Hev Hm. induction n as [|n IH]; intros Hn.
  - cbn zeta. change (Nat.iter 1 (acquire h) s) with (wait_for_object s h None).2.
    rewrite acquire_free by done. cbn. by rewrite lookup_insert_eq.
  - destruct IH as (Hm' & Hc & Ht & He); [lia|]. rewrite Nat.iter_succ.
    generalize dependent (Nat.iter (S n) (acquire h) s). intros s1 Hm' Hc Ht He.
    unfold acquire. rewrite (acquire_held _ _ (Z.of_nat (S n))) by by rewrite Hc.
    cbn. rewrite lookup_insert_eq, Hc. split_and!; [|done..].
    unfold wrapping_add32. rewrite wrap_small by (unfold is_u; lia). do 3 f_equal. lia.
Qed.

(** Nested waits of one thread on a mutant pair with its releases: after
    [n] waits on a free mutant the thread owns it [n] times, each of the next
    [n - 1] releases leaves it owned one time less and wakes no thread, and
    the count then is one, so that the last release frees it. *)
Theorem mutant_nesting (s : ThreadManager) (h : Z) (n k : nat) :
  events s !! h = None -> mutants s !! h = Some None ->
  (k < n)%nat -> Z.of_nat n < 2 ^ 32 ->
  let s' := Nat.iter k (release h) (Nat.iter n (acquire h) s) in
  mutants s' !! h = Some (Some (current s, Z.of_nat (n - k))) /\ threads s' = threads s.
Proof.
  intros Hev Hm Hk Hn. destruct n as [|n]; [lia|].
  destruct (acquired_n s h n Hev Hm) as (Hm1 & Hc1 & Ht1 & _); [done|].
  generalize dependent (Nat.iter (S n) (acquire h) s). intros s1 Hm1 Hc1 Ht1.
  enough (let s' := Nat.iter k (release h) s1 in
    mutants s' !! h = Some (Some (current s, Z.of_nat (S n - k))) /\ threads s' = threads s /\
    current s' = current s) as (? & ? & ?) by done.
  induction k as [|k IH]; [by rewrite Nat.sub_0_r|].
  rewrite Nat.iter_succ. destruct IH as (Hmk & Htk & Hck); [lia|].
  generalize dependent (Nat.iter k (release h) s1). intros s2 Hm2 Ht2 Hc2.
  unfold release, release_mutant. rewrite Hm2, Hc2, Nat.eqb_refl. cbn [negb].
  rewrite (proj2 (Z.ltb_lt _ _)) by lia. cbn. rewrite lookup_insert_eq. split_and!; [|done|done].
  do 3 f_equal. lia.
Qed.

(** A wait on several objects does not count a mutant its thread already
    holds: it succeeds and changes nothing, where a wait on that one object
    adds to the count.  One release after a single wait and a multiple wait
    therefore gives the mutant up. *)
Theorem multi_wait_uncounted (s : ThreadManager) (h c : Z) (all : bool) (ms : option Z) :
  events s !! h = None -> mutants s !! h = Some (Some (current s, c)) ->
  wait_for_objects s [h] all ms = (Ok (MultiSatisfied 0), s) /\
  wait_for_object s h ms =
    (Ok Signaled, with_mutants s (<[h := Some (current s, wrapping_add32 c 1)]> (mutants s))).
Proof.
  intros Hev Hm. split.
  - assert (key_signaled s h (current s) = true) as Hsig
      by (unfold key_signaled; by rewrite Hev, Hm, Nat.eqb_refl).
    assert (consume_key s h (current s) = s) as Hcons by (unfold consume_key; by rewrite Hev, Hm).
    unfold wait_for_objects, multi_satisfied. cbn [forallb].
    rewrite (mutant_known s h (Some (current s, c))) by done. cbn [andb negb].
    destruct all; cbn [forallb iter_position consume_keys foldl]; rewrite Hsig; cbn; by rewrite Hcons.
  - unfold wait_for_object. by rewrite Hm, Nat.eqb_refl.
Qed.
End Waits.

(** ** A manager with waiting threads *)

Definition demo_thread (st : ThreadState) (n : Z) : GuestThread :=
  mkGuestThread CpuState_default st n (0x80000000 + 0x1000 * n) false.

Definition demo_block (ks : list Z) (d : option Z) : WaitBlock :=
  mkWaitBlock ks false d STATUS_TIMEOUT.

(** Thread 0 runs and owns mutant [0xB000]; threads 1 and 2 wait for it, the
    second with a deadline; thread 2 waits for event [0xA000] too. *)
Definition demo_waits : @ThreadManager demo_host :=
  let s := @ThreadManager_new demo_host demo_ram None None in
  let s := with_threads s [demo_thread Running 1;
                           demo_thread (Waiting (demo_block [0xB000] None)) 2;
                           demo_thread (Waiting (demo_block [0xA000; 0xB000] (Some 40))) 3] in
  let s := with_events s {[0xA000 := (true, false)]} in
  with_mutants s {[0xB000 := Some (0%nat, 1)]}.

Lemma wake_all_complete_witness :
  threads (@wake_by_key demo_host demo_waits 0xB000 true).2 !! 2%nat =
    Some (resumed 1 (demo_thread (Waiting (demo_block [0xA000; 0xB000] (Some 40))) 3)).
Proof.
  exact (@wake_all_complete demo_host demo_waits 0xB000 2
    (demo_thread (Waiting (demo_block [0xA000; 0xB000] (Some 40))) 3) eq_refl).
Defined.

Lemma mutant_handover_witness :
  (@release_mutant demo_host demo_waits 0xB000).1 = Ok 0 /\
  mutants (@release_mutant demo_host demo_waits 0xB000).2 !! 0xB000 = Some (Some (1%nat, 1)).
Proof.
  split; [apply (@mutant_handover demo_host demo_waits 0xB000); reflexivity|].
  vm_compute. reflexivity.
Defined.

Definition demo_free_mutant : @ThreadManager demo_host :=
  with_mutants demo_waits {[0xB000 := None]}.

Lemma mutant_nesting_witness :
  mutants (Nat.iter 2 (@release demo_host 0xB000)
             (Nat.iter 3 (@acquire demo_host 0xB000) demo_free_mutant)) !! 0xB000 =
    Some (Some (0%nat, 1)).
Proof. apply (@mutant_nesting demo_host demo_free_mutant 0xB000 3 2); [reflexivity..| lia | lia]. Defined.

Lemma multi_wait_uncounted_witness :
  @wait_for_objects demo_host demo_waits [0xB000] false None = (Ok (MultiSatisfied 0), demo_waits).
Proof. apply (@multi_wait_uncounted demo_host demo_waits 0xB000 1 false None); reflexivity. Defined.
