(* ===== verification/ClockTheorems.v ===== *)
(** * The virtual clock: deadlines, timers, and what may wake a parked thread

    The exact effect of [advance_timers] on threads, timers and the queue of
    deferred procedures; that a timed wait ends when, and not before, the
    clock reaches its deadline; and that [wake_hint] is the earliest instant
    at which the clock alone can change anything. *)

From Stdlib Require Import Ascii.
From stdpp Require Import strings.
From S2P Require Import Prelude GuestTypes PageTable Allocator GuestMemory SoftwareSpace CpuState KernelTypes HostFiles Runtime RuntimeMemory SchedulerSteps HostFileTheorems SchedulerReach WaitTheorems.

Section Clock.
Context `{HostOs}.

(** ** Deadlines *)

(** The thread at virtual time [now], given the thread just before. *)
Definition wake_expired (now : Z) (t : GuestThread) : GuestThread :=
  match th_state t with
  | Waiting b =>
    match deadline b with
    | Some d => if d <=? now then resumed (timeout_status b) t else t
    | None => t
    end
  | _ => t
  end.

(** The entry of [expired] for one thread. *)
Definition expiry (now : Z) (t : GuestThread) : option Z :=
  match th_state t with
  | Waiting b =>
    match deadline b with
    | Some d => if d <=? now then Some (timeout_status b) else None
    | None => None
    end
  | _ => None
  end.

Lemma wake_expired_expiry now t : wake_expired now t =
  match expiry now t with Some st => resumed st t | None => t end.
Proof. unfold wake_expired, expiry. by repeat case_match. Qed.

Lemma ready_lookup s g st j : threads (ready_thread_with s g st) !! j =
  (if decide (g = j) then resumed st else id) <$> threads s !! j.
Proof. apply threads_alter. Qed.

(** Readying the entries of an index list touches each thread once. *)
Lemma ready_fold (f : GuestThread -> option Z) l g s :
  (forall n t, l !! n = Some t -> threads s !! (g + n)%nat = Some t) ->
  let entries := omap (fun p => (fun st => (p.1, st)) <$> f p.2) (imap (fun n t => (g + n, t))%nat l) in
  let s' := foldl (fun s p => ready_thread_with s p.1 p.2) s entries in
  forall i, threads s' !! i =
    (if decide (g <= i < g + length l)%nat
     then fun t => match f t with Some st => resumed st t | None => t end else id) <$> threads s !! i.
Proof.
  revert g s. induction l as [|a l IH]; intros g s Hl; cbn zeta.
  - intros i. cbn. rewrite decide_False by lia. by destruct (threads s !! i).
  - rewrite imap_cons. cbn [omap list_omap fst snd]. intros i.
    pose proof (Hl O a eq_refl) as Ha. rewrite Nat.add_0_r in Ha |- *.
    assert (imap ((fun n t => (g + n, t))%nat ∘ S) l = imap (fun n t => (S g + n, t))%nat l) as ->
      by (apply imap_ext; intros n t _; cbn; f_equal; lia).
    assert (forall s1, (forall j, (g < j)%nat -> threads s1 !! j = threads s !! j) ->
      threads s1 !! g = Some (match f a with Some st => resumed st a | None => a end) ->
      (forall j, (j < g)%nat -> threads s1 !! j = threads s !! j) ->
      threads (foldl (fun s p => ready_thread_with s p.1 p.2) s1
        (omap (fun p => (fun st => (p.1, st)) <$> f p.2) (imap (fun n t => (S g + n, t))%nat l))) !! i =
      (if decide (g <= i < g + length (a :: l))%nat
       then fun t => match f t with Some st => resumed st t | None => t end else id) <$> threads s !! i) as Hs1.
    { intros s1 Hgt Heq Hlt. rewrite (IH (S g) s1).
      2:{ intros n t Ht. rewrite Hgt by lia. specialize (Hl (S n) t Ht). by rewrite <- Hl, Nat.add_succ_r. }
      cbn [length]. destruct (decide (i = g)) as [->|Hne].
      - rewrite decide_False, decide_True by lia. by rewrite Heq, Ha.
      - destruct (decide (S g <= i < S g + length l)%nat).
        + rewrite decide_True by lia. by rewrite Hgt by lia.
        + rewrite decide_False by lia. destruct (decide (i < g)%nat); [by rewrite Hlt by lia|].
          by rewrite Hgt by lia. }
    destruct (f a) as [st|] eqn:Hf; cbn [fmap option_fmap option_map foldl fst snd].
    + apply Hs1; [intros j Hj | | intros j Hj]; rewrite ready_lookup.
      * by rewrite decide_False, option_fmap_id by lia.
      * by rewrite decide_True, Ha by done.
      * by rewrite decide_False, option_fmap_id by lia.
    + by apply Hs1.
Qed.

Lemma expired_entries s now : expired s now =
  omap (fun p => (fun st => (p.1, st)) <$> expiry now p.2) (imap (fun n t => (0 + n, t))%nat (threads s)).
Proof.
  change (imap (fun n t => (0 + n, t))%nat (threads s)) with (imap pair (threads s)).
  unfold expired. apply list_omap_ext, Forall_Forall2_diag, Forall_forall.
  intros [n t] _. cbn. unfold expiry. by repeat case_match.
Qed.

Lemma ready_fold_timers l s :
  let s' := foldl (fun s p => ready_thread_with s p.1 p.2) s l in
  timers s' = timers s /\ dpc_queue s' = dpc_queue s /\ elapsed_ms s' = elapsed_ms s /\
  current s' = current s.
Proof.
  revert s. induction l as [|x l IH]; intros s; [done|].
  exact (IH (ready_thread_with s x.1 x.2)).
Qed.

Lemma queue_fold_threads ds s : let s' := foldl (fun s d => (queue_dpc s d).2) s ds in
  threads s' = threads s /\ elapsed_ms s' = elapsed_ms s /\ timers s' = timers s /\
  current s' = current s.
Proof.
  revert s. induction ds as [|d ds IH]; intros s; [done|]. cbn [foldl].
  destruct (IH (queue_dpc s d).2) as (-> & -> & -> & ->). unfold queue_dpc. by case_match.
Qed.

Lemma advance_elapsed s ms :
  elapsed_ms (advance_timers s ms) = saturating_add 64 (elapsed_ms s) ms.
Proof.
  unfold advance_timers. destruct (ms =? 0); [done|].
  set (s1 := with_elapsed_ms _ _). set (s2 := foldl _ s1 _).
  assert (elapsed_ms s2 = elapsed_ms s1) as Hs2 by apply ready_fold_timers.
  destruct (timers s2); [done|]. destruct (retain_due _ _) as [kept due].
  destruct (queue_fold_threads due (with_timers s2 kept)) as (_ & -> & _). done.
Qed.

(** The threads after a step of the clock. *)
Lemma advance_threads s ms i : ms <> 0 -> threads (advance_timers s ms) !! i =
  wake_expired (saturating_add 64 (elapsed_ms s) ms) <$> threads s !! i.
Proof.
  intros Hms. unfold advance_timers. rewrite (proj2 (Z.eqb_neq _ _) Hms).
  set (s1 := with_elapsed_ms _ _). set (s2 := foldl _ s1 _).
  assert (threads s2 !! i = wake_expired (elapsed_ms s1) <$> threads s1 !! i) as Hs2.
  { unfold s2. rewrite expired_entries, (ready_fold (expiry (elapsed_ms s1)) (threads s1) 0 s1) by done.
    cbn [Nat.add]. destruct (threads s1 !! i) as [t|] eqn:Ht; [|done].
    rewrite decide_True by (apply lookup_lt_Some in Ht; lia). cbn. by rewrite wake_expired_expiry. }
  destruct (timers s2); [exact Hs2|]. destruct (retain_due _ _) as [kept due].
  destruct (queue_fold_threads due (with_timers s2 kept)) as (-> & _). exact Hs2.
Qed.

Definition ticks_sum (ticks : list Z) : Z := foldr Z.add 0 ticks.

(** C32: A timed wait ends: a thread parked [m] milliseconds before its
    deadline is, after any run of clock steps, ready with its timeout status
    in EAX when the steps add up to [m] or more, and still parked and
    unchanged when they add up to less. *)
Theorem timed_wait_ends (s : ThreadManager) (i : nat) (t : GuestThread) (b : WaitBlock) (m : Z)
    (ticks : list Z) :
  threads s !! i = Some t -> th_state t = Waiting b -> deadline b = Some (elapsed_ms s + m) ->
  0 < m -> Forall (fun ms => 0 < ms) ticks -> 0 <= elapsed_ms s ->
  elapsed_ms s + ticks_sum ticks < 2 ^ 64 ->
  threads (foldl advance_timers s ticks) !! i =
    Some (if m <=? ticks_sum ticks then resumed (timeout_status b) t else t).
Proof.
  intros Ht Hst Hd Hm Hticks Hel. revert s m Ht Hd Hm Hel.
  induction Hticks as [|ms ticks Hms Hticks IH]; intros s m Ht Hd Hm Hel Hsum.
  - cbn [ticks_sum foldr foldl]. by rewrite (proj2 (Z.leb_gt _ _)) by lia.
  - cbn [foldl]. cbn [ticks_sum foldr] in *. fold (ticks_sum ticks) in *.
    assert (0 <= ticks_sum ticks) as Hpos by (clear -Hticks; induction Hticks; cbn; [lia|]; unfold ticks_sum in *; lia).
    assert (saturating_add 64 (elapsed_ms s) ms = elapsed_ms s + ms) as Hnow
      by (unfold saturating_add; lia).
    pose proof (advance_threads s ms i) as Ha. rewrite Hnow, Ht in Ha. cbn in Ha.
    specialize (Ha ltac:(lia)). unfold wake_expired in Ha. rewrite Hst, Hd in Ha.
    destruct (Z.leb_spec (elapsed_ms s + m) (elapsed_ms s + ms)).
    + rewrite (proj2 (Z.leb_le _ _)) by lia.
      assert (forall l s', threads s' !! i = Some (resumed (timeout_status b) t) ->
        Forall (fun ms => 0 < ms) l -> threads (foldl advance_timers s' l) !! i =
          Some (resumed (timeout_status b) t)) as Hstay.
      { intros l s' Hs' Hl. revert s' Hs'. induction Hl as [|x l Hx Hl IHl]; intros s' Hs'; [done|].
        cbn [foldl]. apply IHl. rewrite advance_threads, Hs' by lia. done. }
      by apply Hstay.
    + rewrite (IH _ (m - ms)); rewrite ?advance_elapsed, ?Hnow; try done; try lia.
      * destruct (Z.leb_spec (m - ms) (ticks_sum ticks)), (Z.leb_spec m (ms + ticks_sum ticks));
          try done; lia.
      * rewrite Hd. f_equal. lia.
Qed.

(** ** Timers and deferred procedures *)

Definition rearmed (now : Z) (timer : ArmedTimer) : ArmedTimer :=
  mkArmedTimer (timer_object timer) (timer_dpc timer) (saturating_add 64 now (period timer))
    (period timer).

Definition keep_timer (now : Z) (timer : ArmedTimer) : option ArmedTimer :=
  if now <? due_at timer then Some timer
  else if 0 <? period timer then Some (rearmed now timer) else None.

Definition due_dpc (now : Z) (timer : ArmedTimer) : option Z :=
  if now <? due_at timer then None
  else if timer_dpc timer =? 0 then None else Some (timer_dpc timer).

Lemma retain_due_omap now ts :
  retain_due now ts = (omap (keep_timer now) ts, omap (due_dpc now) ts).
Proof.
  induction ts as [|a ts IH]; [done|]. cbn [retain_due omap list_omap]. rewrite IH.
  unfold keep_timer, due_dpc, rearmed. by repeat case_match.
Qed.

Lemma retain_due_spec now ts :
  (forall timer, timer ∈ (retain_due now ts).1 <->
     (timer ∈ ts /\ now < due_at timer) \/
     exists old, old ∈ ts /\ due_at old <= now /\ 0 < period old /\ timer = rearmed now old) /\
  (forall dpc, dpc ∈ (retain_due now ts).2 <->
     exists timer, timer ∈ ts /\ due_at timer <= now /\ timer_dpc timer = dpc /\ dpc <> 0).
Proof.
  rewrite retain_due_omap. cbn [fst snd]. split; intros x; rewrite list_elem_of_omap.
  - split.
    + intros (y & Hin & Hy). unfold keep_timer in Hy.
      destruct (Z.ltb_spec now (due_at y)); [simplify_eq; by left|].
      destruct (Z.ltb_spec 0 (period y)); [|done]. simplify_eq. right. by exists y.
    + intros [[Hin Hlt]|(y & Hin & Hle & Hp & ->)].
      * exists x. split; [done|]. unfold keep_timer. by rewrite (proj2 (Z.ltb_lt _ _)).
      * exists y. split; [done|]. unfold keep_timer.
        by rewrite (proj2 (Z.ltb_ge _ _)), (proj2 (Z.ltb_lt _ _)).
  - split.
    + intros (y & Hin & Hy). unfold due_dpc in Hy. destruct (Z.ltb_spec now (due_at y)); [done|].
      destruct (Z.eqb_spec (timer_dpc y) 0); [done|]. simplify_eq. by exists y.
    + intros (y & Hin & Hle & <- & Hne). exists y. split; [done|]. unfold due_dpc.
      by rewrite (proj2 (Z.ltb_ge _ _)), (proj2 (Z.eqb_neq _ _)).
Qed.

Lemma queue_fold_spec ds s : let q := dpc_queue (foldl (fun s d => (queue_dpc s d).2) s ds) in
  dpc_queue s `prefix_of` q /\ forall d, d ∈ q <-> d ∈ dpc_queue s \/ d ∈ ds.
Proof.
  revert s. induction ds as [|d ds IH]; intros s; cbn [foldl].
  { split; [done|]. intros d. rewrite elem_of_nil. naive_solver. }
  destruct (IH (queue_dpc s d).2) as [Hpre Hin].
  assert (dpc_queue s `prefix_of` dpc_queue (queue_dpc s d).2 /\
    forall x, x ∈ dpc_queue (queue_dpc s d).2 <-> x ∈ dpc_queue s \/ x = d) as [Hpre' Hin'].
  { unfold queue_dpc. destruct (bool_decide_reflect (d ∈ dpc_queue s)); cbn.
    - split; [done|]. naive_solver.
    - split; [by eexists|]. intros x. by rewrite elem_of_app, list_elem_of_singleton. }
  cbn zeta. split; [by etrans|]. intros x. rewrite Hin, Hin', elem_of_cons. naive_solver.
Qed.

Lemma advance_timers_spec (s : ThreadManager) (ms : Z) : ms <> 0 ->
  let now := saturating_add 64 (elapsed_ms s) ms in
  let s' := advance_timers s ms in
  (forall timer, timer ∈ timers s' <->
     (timer ∈ timers s /\ now < due_at timer) \/
     exists old, old ∈ timers s /\ due_at old <= now /\ 0 < period old /\ timer = rearmed now old) /\
  dpc_queue s `prefix_of` dpc_queue s' /\
  (forall dpc, dpc ∈ dpc_queue s' <-> dpc ∈ dpc_queue s \/
     exists timer, timer ∈ timers s /\ due_at timer <= now /\ timer_dpc timer = dpc /\ dpc <> 0).
Proof.
  intros Hms now s'. unfold s', advance_timers. rewrite (proj2 (Z.eqb_neq _ _) Hms).
  set (s1 := with_elapsed_ms _ _). change now with (elapsed_ms s1).
  set (s2 := foldl _ s1 _).
  destruct (ready_fold_timers (expired s1 (elapsed_ms s1)) s1) as (Ht & Hq & _). fold s2 in Ht, Hq.
  change (timers s1) with (timers s) in Ht. change (dpc_queue s1) with (dpc_queue s) in Hq. destruct (timers s2) as [|a ts] eqn:Hts.
  - rewrite Hts, Hq, <- Ht. split_and!; [|done|].
    + intros timer. setoid_rewrite elem_of_nil. naive_solver.
    + intros d. setoid_rewrite elem_of_nil. naive_solver.
  - destruct (retain_due_spec (elapsed_ms s1) (a :: ts)) as [Hk Hd].
    destruct (retain_due (elapsed_ms s1) (a :: ts)) as [kept due]. cbn [fst snd] in *.
    destruct (queue_fold_threads due (with_timers s2 kept)) as (_ & _ & -> & _).
    destruct (queue_fold_spec due (with_timers s2 kept)) as [Hpre Hin]. cbn zeta in Hpre, Hin.
    change (dpc_queue (with_timers s2 kept)) with (dpc_queue s2) in *. rewrite Hq in *. cbn [timers with_timers].
    rewrite <- Ht. split_and!; [done | done |]. intros d. by rewrite Hin, Hd.
Qed.

(** When the clock moves, a timer stays armed exactly when it is not yet
    due, or is due and periodic, re-armed one period after now; the deferred
    procedures of all timers that are due, and no others, join the queue
    behind those already in it. *)
Theorem advance_timers_exact (s : ThreadManager) (ms : Z) : ms <> 0 ->
  let now := saturating_add 64 (elapsed_ms s) ms in
  let s' := advance_timers s ms in
  (forall timer, timer ∈ timers s' <->
     (timer ∈ timers s /\ now < due_at timer) \/
     exists old, old ∈ timers s /\ due_at old <= now /\ 0 < period old /\ timer = rearmed now old) /\
  dpc_queue s `prefix_of` dpc_queue s' /\
  (forall dpc, dpc ∈ dpc_queue s' <-> dpc ∈ dpc_queue s \/
     exists timer, timer ∈ timers s /\ due_at timer <= now /\ timer_dpc timer = dpc /\ dpc <> 0).
Proof. apply advance_timers_spec. Qed.

(** ** The wake hint *)

(** The instants at which the clock alone changes something. *)
Definition wake_times (s : ThreadManager) : list Z :=
  map due_at (timers s) ++
  omap (fun t => match th_state t with Waiting b => deadline b | _ => None end) (threads s).

Definition minimum_of (l : list Z) (o : option Z) : Prop :=
  match o with
  | Some t => t ∈ l /\ Forall (fun x => t <= x) l
  | None => l = []
  end.

Lemma consider_minimum l o x : minimum_of l o -> minimum_of (l ++ [x]) (consider o x).
Proof.
  unfold minimum_of, consider. destruct o as [t|].
  - intros [Hin Hall]. split.
    + rewrite elem_of_app, list_elem_of_singleton. destruct (Z.min_spec t x) as [[_ ->]|[_ ->]]; auto.
    + apply Forall_app. split; [|apply Forall_singleton; lia].
      eapply Forall_impl; [exact Hall|]. cbn. lia.
  - intros ->. cbn. split; [by apply list_elem_of_singleton | apply Forall_singleton; lia].
Qed.

(** The minimum is the element that no other is below. *)
Lemma minimum_is l o x : minimum_of l o -> x ∈ l -> (forall y, y ∈ l -> x <= y) -> o = Some x.
Proof.
  intros Hmin Hin Hle. destruct o as [t|]; [|rewrite Hmin in Hin; by apply elem_of_nil in Hin].
  destruct Hmin as [Ht Hall]. rewrite Forall_forall in Hall. specialize (Hall x Hin).
  specialize (Hle t Ht). f_equal. lia.
Qed.

Lemma hint_timers ts l o : minimum_of l o ->
  minimum_of (l ++ map due_at ts) (foldl (fun next timer => consider next (due_at timer)) o ts).
Proof.
  revert l o. induction ts as [|a ts IH]; intros l o Hmin; cbn [map foldl]; [by rewrite app_nil_r|].
  replace (l ++ due_at a :: map due_at ts) with ((l ++ [due_at a]) ++ map due_at ts)
    by by rewrite <- app_assoc.
  apply IH, consider_minimum, Hmin.
Qed.

Lemma hint_threads ts l o any : minimum_of l o ->
  let r := foldl (fun '(next, any_waiting) thread =>
             match th_state thread with
             | Waiting block =>
               (match deadline block with
                | Some at_ => consider next at_
                | None => next
                end, true)
             | _ => (next, any_waiting)
             end) (o, any) ts in
  minimum_of (l ++ omap (fun t => match th_state t with Waiting b => deadline b | _ => None end) ts) r.1 /\
  (r.2 = true <-> any = true \/ exists t b, t ∈ ts /\ th_state t = Waiting b).
Proof.
  revert l o any. induction ts as [|a ts IH]; intros l o any Hmin; cbn [foldl omap list_omap].
  { rewrite app_nil_r. split; [done|]. cbn. split; [by left|].
    intros [?|(t & b & Hin & _)]; [done|]. by apply elem_of_nil in Hin. }
  assert ((exists t b, t ∈ a :: ts /\ th_state t = Waiting b) <->
    (exists b, th_state a = Waiting b) \/ exists t b, t ∈ ts /\ th_state t = Waiting b) as ->
    by (setoid_rewrite elem_of_cons; naive_solver).
  destruct (th_state a) as [| | |b|] eqn:Hst; cbn [omap list_omap].
  4: { destruct (deadline b) as [d|]; cbn [omap].
       - destruct (IH (l ++ [d]) (consider o d) true) as [H1 H2]; [by apply consider_minimum|].
         rewrite <- app_assoc in H1. split; [exact H1|]. rewrite H2. naive_solver.
       - destruct (IH l o true) as [H1 H2]; [done|]. split; [exact H1|]. rewrite H2. naive_solver. }
  all: destruct (IH l o any) as [H1 H2]; [done|]; split; [exact H1|]; rewrite H2.
  all: split; [intros [?|?]; auto | intros [?|[[? ?]|?]]; auto; done].
Qed.

Lemma wake_times_elem s x : x ∈ wake_times s <->
  (exists timer, timer ∈ timers s /\ due_at timer = x) \/
  exists i b, thread_state s i = Some (Waiting b) /\ deadline b = Some x.
Proof.
  unfold wake_times. rewrite elem_of_app, list_elem_of_omap, list_elem_of_In, in_map_iff.
  setoid_rewrite <- list_elem_of_In. split; (intros [Hx|Hx]; [left|right]).
  - destruct Hx as (t & ? & ?). by exists t.
  - destruct Hx as (t & Hin & Ht). destruct (th_state t) as [| | |b|] eqn:Hst; try done.
    apply list_elem_of_lookup in Hin as [i Hi]. exists i, b. unfold thread_state.
    by rewrite Hi; cbn; rewrite Hst.
  - destruct Hx as (t & ? & ?). by exists t.
  - destruct Hx as (i & b & Hst & Hd). unfold thread_state in Hst.
    destruct (threads s !! i) as [t|] eqn:Ht; [|done]. injection Hst as Hst. exists t.
    split; [by eapply list_elem_of_lookup_2 | by rewrite Hst].
Qed.

Lemma wake_hint_min s :
  let '(next, connected, waiting) := wake_hint s in
  minimum_of (wake_times s) next /\
  (waiting = true <-> exists i b, thread_state s i = Some (Waiting b)).
Proof.
  unfold wake_hint.
  pose proof (hint_timers (timers s) [] None eq_refl) as Hti. cbn [app] in Hti.
  pose proof (hint_threads (threads s) _ _ false Hti) as Hth. cbn zeta in Hth.
  fold (wake_times s) in Hth.
  destruct (foldl _ (_, false) (threads s)) as [next waiting]. cbn [fst snd] in Hth.
  destruct Hth as [Hmin Hw]. split; [done|]. rewrite Hw. split.
  - intros [?|(t & b & Hin & Hst)]; [done|]. apply list_elem_of_lookup in Hin as [i Hi].
    exists i, b. unfold thread_state. by rewrite Hi; cbn; rewrite Hst.
  - intros (i & b & Hst). right. unfold thread_state in Hst.
    destruct (threads s !! i) as [t|] eqn:Ht; [|done]. injection Hst as Hst.
    exists t, b. split; [by eapply list_elem_of_lookup_2 | done].
Qed.

Lemma wake_hint_interrupts s :
  (wake_hint s).1.2 = true <-> exists e, e ∈ interrupts s /\ e.2 = true.
Proof.
  unfold wake_hint. destruct (foldl _ (_, false) (threads s)) as [next waiting]. cbn [fst snd].
  rewrite existsb_exists. split; intros (e & Hin & He); exists e; by rewrite list_elem_of_In in *.
Qed.

(** [wake_hint] is the earliest instant at which the clock alone wakes
    something (none when no timer is armed and no parked thread has a
    deadline), with whether an interrupt routine is connected and whether any
    thread is parked.  Before that instant the clock changes no thread and
    queues nothing. *)
Theorem wake_hint_exact (s : ThreadManager) :
  let '(next, connected, waiting) := wake_hint s in
  minimum_of (wake_times s) next /\
  (connected = true <-> exists e, e ∈ interrupts s /\ e.2 = true) /\
  (waiting = true <-> exists i b, thread_state s i = Some (Waiting b)) /\
  (forall ms, 0 < ms -> 0 <= elapsed_ms s -> elapsed_ms s + ms < 2 ^ 64 ->
     (forall t, next = Some t -> elapsed_ms s + ms < t) ->
     threads (advance_timers s ms) = threads s /\
     forall d, d ∈ dpc_queue (advance_timers s ms) <-> d ∈ dpc_queue s).
Proof.
  pose proof (wake_hint_min s) as Hmin. pose proof (wake_hint_interrupts s) as Hint.
  destruct (wake_hint s) as [[next connected] waiting]. cbn [fst snd] in Hint.
  destruct Hmin as [Hmin Hw]. split_and!; [done | done | done |].
  - intros ms Hms Hel Hbound Hbefore.
    assert (saturating_add 64 (elapsed_ms s) ms = elapsed_ms s + ms) as Hnow
      by (unfold saturating_add; lia).
    assert (Forall (fun x => elapsed_ms s + ms < x) (wake_times s)) as Hall.
    { unfold minimum_of in Hmin. destruct next as [t|]; [|rewrite Hmin; constructor].
      eapply Forall_impl; [apply Hmin|]. specialize (Hbefore t eq_refl). cbn. lia. }
    unfold wake_times in Hall. apply Forall_app in Hall as [Hall1 Hall2].
    rewrite Forall_forall in Hall1, Hall2. split.
    + apply list_eq. intros i. rewrite advance_threads, Hnow by lia.
      destruct (threads s !! i) as [t|] eqn:Ht; [|done]. cbn. f_equal.
      unfold wake_expired. destruct (th_state t) as [| | |b|] eqn:Hst; try done.
      destruct (deadline b) as [d|] eqn:Hd; [|done].
      assert (elapsed_ms s + ms < d); [|by rewrite (proj2 (Z.leb_gt _ _))].
      apply Hall2. apply list_elem_of_omap. exists t. split; [by eapply list_elem_of_lookup_2|].
      by rewrite Hst.
    + intros d. destruct (advance_timers_spec s ms) as (_ & _ & Hq); [lia|]. rewrite Hq, Hnow.
      split; [|by left]. intros [?|(timer & Hin & Hdue & _)]; [done|].
      specialize (Hall1 (due_at timer)). rewrite list_elem_of_In in Hall1.
      specialize (Hall1 (in_map due_at _ _ (proj1 (list_elem_of_In _ _) Hin))). lia.
Qed.
End Clock.

Lemma timed_wait_ends_witness :
  threads (foldl (@advance_timers demo_host) demo_waits [16; 16]) !! 2%nat =
    Some (demo_thread (Waiting (demo_block [0xA000; 0xB000] (Some 40))) 3) /\
  threads (foldl (@advance_timers demo_host) demo_waits [16; 16; 16]) !! 2%nat =
    Some (resumed STATUS_TIMEOUT (demo_thread (Waiting (demo_block [0xA000; 0xB000] (Some 40))) 3)).
Proof.
  split.
  - apply (@timed_wait_ends demo_host demo_waits 2
      (demo_thread (Waiting (demo_block [0xA000; 0xB000] (Some 40))) 3)
      (demo_block [0xA000; 0xB000] (Some 40)) 40 [16; 16]); try reflexivity; try (cbn; lia).
    by repeat constructor.
  - apply (@timed_wait_ends demo_host demo_waits 2
      (demo_thread (Waiting (demo_block [0xA000; 0xB000] (Some 40))) 3)
      (demo_block [0xA000; 0xB000] (Some 40)) 40 [16; 16; 16]); try reflexivity; try (cbn; lia).
    by repeat constructor.
Defined.

Definition demo_timers : @ThreadManager demo_host :=
  with_timers demo_waits [mkArmedTimer 0x9000 0x9100 10 5; mkArmedTimer 0x9200 0 10 0].

Lemma advance_timers_exact_witness :
  0x9100 ∈ dpc_queue (@advance_timers demo_host demo_timers 10).
Proof.
  destruct (@advance_timers_exact demo_host demo_timers 10) as (_ & _ & Hq); [lia|].
  apply Hq. right. exists (mkArmedTimer 0x9000 0x9100 10 5). cbn.
  split_and!; [by constructor | unfold saturating_add; cbn; lia | done | lia].
Defined.
