(* ===== verification/CoreScheduling.v ===== *)
(** * Scheduling in the emulator core

    Models the parts of [exbawks-core/src/emulator.rs] that move threads: the
    action a kernel call recorded, thread exit, the idle step of the
    deterministic tier, and the delivery of interrupts and deferred
    procedures on the guest processor.  The emulator shares its address space
    with the thread manager, so the manager's memory is the one they use; the
    devices and the instruction tier are elsewhere. *)

From Stdlib Require Import Ascii.
From stdpp Require Import strings.
From S2P Require Import Prelude GuestTypes PageTable Allocator GuestMemory SoftwareSpace CpuState KernelTypes HostFiles Runtime RuntimeMemory SchedulerSteps HostFileTheorems SchedulerReach WaitTheorems ClockTheorems.

Inductive StopReason : Type :=
| GuestExit (code : Z)
| Reboot (routine : Z)
| UnsupportedInstruction (address : GuestVa)
| MissingKernelExport (ordinal : Z)
| UnimplementedKernelExport (ordinal : Z)
| GuestFault (address : GuestVa)
| GuestDeadlock
| BudgetExhausted
| HostRequested
| RuntimeIncomplete.

Definition INTERRUPT_RETURN_SENTINEL : GuestVa := 0xFFBFFFE8.

Section Core.
Context `{HostOs}.

(** The emulator's fields that scheduling uses. *)
Record Emulator : Type := mkEmulator {
  core_cpu : CpuState;
  core_threads : option ThreadManager;
  core_interrupted : option CpuState;
}.

Definition with_core_threads (c : Emulator) (tm : ThreadManager) : Emulator :=
  mkEmulator (core_cpu c) (Some tm) (core_interrupted c).

(** ** Pending actions *)

Definition core_exit_current_thread (c : Emulator) (status : Z) : option StopReason * Emulator :=
  match core_threads c with
  | None => (Some (GuestExit status), c)
  | Some tm =>
    let '(switched, tm, cpu) := exit_active tm (core_cpu c) status in
    let c := mkEmulator cpu (Some tm) (core_interrupted c) in
    if switched then (None, c)
    else if (wake_hint tm).2 then (None, c) else (Some (GuestExit status), c)
  end.

Definition apply_pending_scheduling (c : Emulator) : option StopReason * Emulator :=
  match core_threads c with
  | None => (None, c)
  | Some tm =>
    let '(action, tm) := take_pending tm in
    let c := with_core_threads c tm in
    match action with
    | None => (None, c)
    | Some (PendingExit status) => core_exit_current_thread c status
    | Some (PendingWait block) =>
      match core_interrupted c with
      | Some _ => (None, c)
      | None =>
        let '(parked, tm, cpu) := park_active tm block (core_cpu c) in
        (None, mkEmulator cpu (Some tm) None)
      end
    end
  end.

(** ** Interrupts and deferred procedures *)

(** The loop that pushes a call frame; a failing store ends it with what was
    stored before. *)
Fixpoint push_frame (mem : SoftwareAddressSpace) (esp : Z) (values : list Z)
  : option Z * SoftwareAddressSpace :=
  match values with
  | [] => (Some esp, mem)
  | value :: values =>
    let esp := wrapping_sub32 esp 4 in
    match mem_write_u32 mem esp value with
    | (Err _, mem) => (None, mem)
    | (Ok _, mem) => push_frame mem esp values
    end
  end.

(** Calls [routine] on the current stack with [values] pushed in order. *)
Definition call_guest (c : Emulator) (tm : ThreadManager) (values : list Z) (routine : Z)
  : bool * Emulator :=
  match push_frame (memory tm) (gpr_at (core_cpu c) 4) values with
  | (None, mem) => (false, with_core_threads c (with_memory tm mem))
  | (Some esp, mem) =>
    (true, mkEmulator (with_eip (set_gpr (core_cpu c) 4 esp) routine)
             (Some (with_memory tm mem)) (Some (core_cpu c)))
  end.

Definition deliver_interrupt (c : Emulator) (vector : Z) : bool * Emulator :=
  match core_interrupted c with
  | Some _ => (false, c)
  | None =>
    if Z.land (eflags (core_cpu c)) 0x200 =? 0 then (false, c)
    else match core_threads c with
         | None => (false, c)
         | Some tm =>
           match interrupt_routine tm vector with
           | None => (false, c)
           | Some routine =>
             call_guest c tm [int_context routine; int_object routine; INTERRUPT_RETURN_SENTINEL]
               (int_routine routine)
           end
         end
  end.

Definition deliver_dpc (c : Emulator) : bool * Emulator :=
  match core_interrupted c, core_threads c with
  | Some _, _ => (false, c)
  | None, None => (false, c)
  | None, Some tm =>
    match take_dpc tm with
    | (None, tm) => (false, with_core_threads c tm)
    | (Some dpc, tm) =>
      let c := with_core_threads c tm in
      let read offset := mem_read_u32 (memory tm) (wrapping_add32 dpc offset) in
      match read 0x0C, read 0x10, read 0x14, read 0x18 with
      | Ok routine, Ok context, Ok first, Ok second =>
        if routine =? 0 then (false, c)
        else call_guest c tm [second; first; context; dpc; INTERRUPT_RETURN_SENTINEL] routine
      | _, _, _, _ => (false, c)
      end
    end
  end.

Definition finish_interrupt (c : Emulator) : Emulator :=
  match core_interrupted c with
  | Some saved => mkEmulator saved (core_threads c) None
  | None => c
  end.

(** ** The idle step of the deterministic tier *)

Definition idle_step_deterministic (c : Emulator) : option StopReason * Emulator :=
  match core_threads c with
  | None => (Some GuestDeadlock, c)
  | Some tm =>
    let '(next_due, _, any_waiting) := wake_hint tm in
    if negb any_waiting then (Some (GuestExit (gpr_at (core_cpu c) 0)), c)
    else match next_due with
         | None => (Some GuestDeadlock, c)
         | Some due =>
           let tm := advance_timers tm (Z.max (saturating_sub due (elapsed_ms tm)) 1) in
           let '(resumed, tm, cpu) := resume_any_ready tm (core_cpu c) in
           let c := mkEmulator cpu (Some tm) (core_interrupted c) in
           if resumed then (None, c)
           else if has_queued_dpc tm then
             let '(delivered, c) := deliver_dpc c in
             if delivered then (None, c) else (Some GuestDeadlock, c)
           else (Some GuestDeadlock, c)
         end
  end.

(** ** What the switches do to the processor *)

Lemma switch_tsc s cpu next : tsc (switch_to s cpu next).2 = tsc cpu.
Proof. unfold switch_to. cbn [snd]. by case_match. Qed.

Lemma resume_any_tsc s cpu : tsc (resume_any_ready s cpu).2 = tsc cpu.
Proof.
  unfold resume_any_ready. destruct (active_runnable s); [done|].
  destruct (iter_position _ _); [apply switch_tsc | done].
Qed.

(** Parking, exiting and resuming keep the time-stamp counter of the
    processor; rotation does not: the counter it leaves is the one saved with
    the next thread, whatever the processor's was. *)
Theorem switches_and_tsc (s : ThreadManager) (cpu : CpuState) (block : WaitBlock) (status : Z) :
  tsc (park_active s block cpu).2 = tsc cpu /\
  tsc (exit_active s cpu status).2 = tsc cpu /\
  tsc (resume_any_ready s cpu).2 = tsc cpu /\
  forall s' cpu', rotate_active s cpu = (true, s', cpu') ->
    exists next t, find (ready_at s) (rotation s) = Some next /\ threads s !! next = Some t /\
      next <> current s /\ cpu' = th_cpu t.
Proof.
  split_and!.
  - unfold park_active. destruct (find _ _); [apply switch_tsc | done].
  - unfold exit_active. destruct (iter_position _ _); [apply switch_tsc | done].
  - apply resume_any_tsc.
  - intros s' cpu'. unfold rotate_active. destruct (Nat.ltb_spec (length (threads s)) 2); [done|].
    destruct (find _ _) as [next|] eqn:Hf; [|done].
    apply find_some in Hf as Hin. destruct Hin as [Hin Hr].
    assert (next <> current s) as Hne.
    { unfold rotation in Hin. apply in_map_iff in Hin as (o & <- & Ho). apply in_seq in Ho.
      intros Heq. set (n := length (threads s)) in *.
      destruct (decide (current s < n)%nat) as [Hlt|Hge].
      - destruct (decide (current s + o < n)%nat); [rewrite Nat.mod_small in Heq; lia|].
        assert ((current s + o) mod n = current s + o - n)%nat as Hm; [|lia].
        symmetry. apply (Nat.mod_unique _ _ 1); lia.
      - pose proof (Nat.mod_upper_bound (current s + o) n ltac:(lia)). lia. }
    unfold ready_at in Hr. destruct (threads s !! next) as [t|] eqn:Ht; [|done].
    set (s1 := if bool_decide _ then _ else _).
    assert (threads s1 !! next = Some t) as Hs1.
    { unfold s1. destruct (bool_decide _); rewrite !threads_alter, !decide_False by done;
        by rewrite !option_fmap_id. }
    assert (threads (alter_thread next (set_state Running) s1) !! next = Some (set_state Running t))
      as -> by by rewrite threads_alter, decide_True, Hs1.
    intros [= <- <-]. by exists next, t.
Qed.

(** ** The idle step *)

Lemma resume_any_finds s cpu i : thread_state s i = Some Ready ->
  (resume_any_ready s cpu).1.1 = true /\ active_runnable (resume_any_ready s cpu).1.2 = true.
Proof.
  intros Hi. unfold resume_any_ready. destruct (active_runnable s) eqn:Hr; [done|].
  destruct (iter_position is_ready (threads s)) as [next|] eqn:Hp.
  - cbn. split; [done|]. unfold active_runnable. apply bool_decide_eq_true. cbn.
    apply iter_position_some in Hp as (t & Ht & _).
    change (thread_state (alter_thread next (set_state Running) s) next = Some Running).
    by rewrite state_alter, decide_True, Ht by done.
  - apply iter_position_none in Hp. unfold thread_state in Hi.
    destruct (threads s !! i) as [t|] eqn:Ht; [|done]. injection Hi as Hi.
    pose proof (Forall_lookup_1 _ _ _ _ Hp Ht) as Hf. cbn in Hf. unfold is_ready in Hf.
    by rewrite bool_decide_true in Hf.
Qed.

Lemma wake_hint_waiting s i b : thread_state s i = Some (Waiting b) -> (wake_hint s).2 = true.
Proof.
  intros Hst. pose proof (wake_hint_min s) as Hh. destruct (wake_hint s) as [[n c] w].
  cbn. apply Hh. eauto.
Qed.

(** The clock value the idle step moves to. *)
Lemma idle_clock due now : 0 <= now < 2 ^ 64 -> 0 <= due < 2 ^ 64 ->
  due <= saturating_add 64 now (Z.max (saturating_sub due now) 1).
Proof. unfold saturating_add, saturating_sub. lia. Qed.

(** C29: When every thread is parked and the earliest wake is some thread's
    deadline, the idle step continues the run with a running thread: it moves
    the clock to that deadline and resumes a thread it made ready. *)
Theorem idle_step_wakes (c : Emulator) (tm : ThreadManager) (i : nat) (b : WaitBlock) (due : Z) :
  core_threads c = Some tm -> u64 (elapsed_ms tm) ->
  thread_state tm i = Some (Waiting b) -> deadline b = Some due -> u64 due ->
  (forall x, x ∈ wake_times tm -> due <= x) ->
  exists c' tm', idle_step_deterministic c = (None, c') /\ core_threads c' = Some tm' /\
    active_runnable tm' = true /\ tsc (core_cpu c') = tsc (core_cpu c).
Proof.
  intros Htm Hel Hst Hd Hdue Hmin. unfold idle_step_deterministic. rewrite Htm.
  pose proof (wake_hint_waiting tm i b Hst) as Hw. pose proof (wake_hint_min tm) as Hh.
  destruct (wake_hint tm) as [[next conn] w]. cbn in Hw. subst w. cbn [negb].
  destruct Hh as (Hnext & _).
  assert (next = Some due) as ->.
  { apply (minimum_is _ _ _ Hnext); [|exact Hmin]. apply wake_times_elem. right. by exists i, b. }
  unfold thread_state in Hst. destruct (threads tm !! i) as [t|] eqn:Ht; [|done]. injection Hst as Hst.
  set (ms := Z.max _ 1). assert (ms <> 0) as Hms by (unfold ms; lia).
  assert (thread_state (advance_timers tm ms) i = Some Ready) as Hready.
  { unfold thread_state. rewrite advance_threads, Ht by done. cbn. unfold wake_expired. rewrite Hst, Hd.
    rewrite (proj2 (Z.leb_le _ _)); [done|]. by apply idle_clock. }
  destruct (resume_any_finds _ (core_cpu c) i Hready) as [Hr Ha].
  pose proof (resume_any_tsc (advance_timers tm ms) (core_cpu c)) as Htsc.
  destruct (resume_any_ready (advance_timers tm ms) (core_cpu c)) as [[r tm'] cpu']. cbn in Hr, Ha, Htsc.
  subst r. eexists _, tm'. split_and!; done.
Qed.

(** The idle step never looks at a thread that is already ready.  With no
    thread parked it reports the guest's exit, ready threads or not: after a
    deferred procedure has woken the last parked thread, the run ends. *)
Theorem idle_step_ignores_ready (c : Emulator) (tm : ThreadManager) (ready : nat) :
  core_threads c = Some tm -> thread_state tm ready = Some Ready ->
  (forall i b, thread_state tm i <> Some (Waiting b)) ->
  idle_step_deterministic c = (Some (GuestExit (gpr_at (core_cpu c) 0)), c).
Proof.
  intros Htm _ Hno. unfold idle_step_deterministic. rewrite Htm.
  pose proof (wake_hint_min tm) as Hh. destruct (wake_hint tm) as [[next conn] w].
  destruct Hh as (_ & Hw). destruct w; [|done].
  destruct (proj1 Hw eq_refl) as (i & b & Hst). by destruct (Hno i b).
Qed.

(** The idle step reports a deadlock when the earliest wakes are timers
    without a deferred procedure, also when a parked thread has a later
    deadline: it moves the clock once, and does not look for the next wake. *)
Theorem idle_step_false_deadlock (c : Emulator) (tm : ThreadManager) (i : nat) (b : WaitBlock)
    (due later : Z) :
  core_threads c = Some tm -> u64 (elapsed_ms tm) -> elapsed_ms tm < due < 2 ^ 64 ->
  (forall j, thread_state tm j <> Some Running /\ thread_state tm j <> Some Ready) ->
  thread_state tm i = Some (Waiting b) -> deadline b = Some later -> due < later ->
  (forall j b' d, thread_state tm j = Some (Waiting b') -> deadline b' = Some d -> due < d) ->
  (exists timer, timer ∈ timers tm /\ due_at timer = due) ->
  (forall timer, timer ∈ timers tm ->
     due <= due_at timer /\ (due_at timer = due -> timer_dpc timer = 0)) ->
  dpc_queue tm = [] ->
  exists c' tm', idle_step_deterministic c = (Some GuestDeadlock, c') /\
    core_threads c' = Some tm' /\ thread_state tm' i = Some (Waiting b) /\ elapsed_ms tm' = due.
Proof.
  intros Htm Hel Hdue Hidle Hst Hd Hlater Hall (timer & Htimer & Hat) Htimers Hq.
  unfold idle_step_deterministic. rewrite Htm.
  pose proof (wake_hint_waiting tm i b Hst) as Hw. pose proof (wake_hint_min tm) as Hh.
  destruct (wake_hint tm) as [[next conn] w]. cbn in Hw. subst w. cbn [negb].
  destruct Hh as (Hnext & _).
  assert (next = Some due) as ->.
  { apply (minimum_is _ _ _ Hnext); [apply wake_times_elem; left; by exists timer|].
    intros y [(u & Hu & <-)|(j & bj & Hj & Hdj)]%wake_times_elem; [by apply Htimers|].
    specialize (Hall j bj y Hj Hdj). lia. }
  assert (Z.max (saturating_sub due (elapsed_ms tm)) 1 = due - elapsed_ms tm) as ->
    by (unfold saturating_sub; lia).
  set (ms := due - elapsed_ms tm). assert (ms <> 0) as Hms by (unfold ms; lia).
  assert (saturating_add 64 (elapsed_ms tm) ms = due) as Hnow
    by (unfold saturating_add, ms, is_u in *; lia).
  assert (threads (advance_timers tm ms) = threads tm) as Hthreads.
  { apply list_eq. intros j. rewrite advance_threads, Hnow by done.
    destruct (threads tm !! j) as [t|] eqn:Ht; [|done]. cbn. f_equal. unfold wake_expired.
    destruct (th_state t) as [| | |bj|] eqn:Hstj; try done. destruct (deadline bj) as [d|] eqn:Hdj; [|done].
    assert (due < d); [|by rewrite (proj2 (Z.leb_gt _ _))].
    apply (Hall j bj d); [unfold thread_state; by rewrite Ht; cbn; rewrite Hstj | done]. }
  assert (forall j, thread_state (advance_timers tm ms) j = thread_state tm j) as Hstates
    by (intros j; unfold thread_state; by rewrite Hthreads).
  assert (dpc_queue (advance_timers tm ms) = []) as Hq'.
  { destruct (advance_timers_spec tm ms Hms) as (_ & _ & Hin). rewrite Hnow in Hin.
    destruct (dpc_queue (advance_timers tm ms)) as [|d q]; [done|].
    destruct (proj1 (Hin d) ltac:(by constructor)) as [Hd0|(u & Hu & Hle & <- & Hne)].
    - rewrite Hq in Hd0. by apply elem_of_nil in Hd0.
    - destruct (Htimers u Hu) as [? Hz]. by destruct Hne; apply Hz; lia. }
  assert (elapsed_ms (advance_timers tm ms) = due) as Hel' by by rewrite advance_elapsed.
  generalize dependent (advance_timers tm ms). intros tm1 _ Hstates Hq' Hel'.
  unfold resume_any_ready. unfold active_runnable.
  rewrite bool_decide_false by (rewrite Hstates; apply Hidle).
  destruct (iter_position is_ready (threads tm1)) as [n|] eqn:Hp.
  { apply first_ready in Hp. rewrite Hstates in Hp. by destruct (Hidle n). }
  unfold has_queued_dpc. rewrite Hq'. cbn. eexists _, tm1. split_and!; try done. by rewrite Hstates.
Qed.
End Core.

(** ** Concrete runs *)

(** The processor runs nothing: thread 2's deadline is the next wake. *)
Definition demo_idle : @Emulator demo_host :=
  mkEmulator CpuState_default
    (Some (with_threads demo_waits [demo_thread Terminated 1;
             demo_thread (Waiting (demo_block [0xB000] None)) 2;
             demo_thread (Waiting (demo_block [0xA000] (Some 40))) 3])) None.

Lemma idle_step_wakes_witness :
  exists c', @idle_step_deterministic demo_host demo_idle = (None, c').
Proof.
  destruct (@idle_step_wakes demo_host demo_idle
    (with_threads demo_waits [demo_thread Terminated 1;
       demo_thread (Waiting (demo_block [0xB000] None)) 2;
       demo_thread (Waiting (demo_block [0xA000] (Some 40))) 3])
    2 (demo_block [0xA000] (Some 40)) 40) as (c' & tm' & Hrun & _);
    try reflexivity; try (unfold is_u; cbn; lia).
  - intros x Hx. apply list_elem_of_singleton in Hx. lia.
  - exists c'. exact Hrun.
Defined.

(** The last parked thread has been woken, and waits for the processor. *)
Definition demo_woken : @Emulator demo_host :=
  mkEmulator CpuState_default
    (Some (with_threads demo_waits [demo_thread Ready 1])) None.

Lemma idle_step_ignores_ready_witness :
  @idle_step_deterministic demo_host demo_woken = (Some (GuestExit 0), demo_woken).
Proof.
  apply (@idle_step_ignores_ready demo_host demo_woken
    (with_threads demo_waits [demo_thread Ready 1]) 0); [reflexivity | reflexivity |].
  intros [|[|i]] b; done.
Defined.

(** One thread sleeps until 40 and a timer without a procedure is due at 10. *)
Definition demo_sleeping : @ThreadManager demo_host :=
  with_timers (with_threads demo_waits [demo_thread (Waiting (demo_block [] (Some 40))) 1])
    [mkArmedTimer 0x9200 0 10 0].

Lemma idle_step_false_deadlock_witness :
  exists c', @idle_step_deterministic demo_host
    (mkEmulator CpuState_default (Some demo_sleeping) None) = (Some GuestDeadlock, c').
Proof.
  destruct (@idle_step_false_deadlock demo_host
    (mkEmulator CpuState_default (Some demo_sleeping) None) demo_sleeping 0
    (demo_block [] (Some 40)) 10 40) as (c' & tm' & Hrun & _);
    try reflexivity; try (unfold is_u; cbn; lia).
  - intros [|i]; [done|]. by destruct i.
  - intros [|i] b' d; [intros [= <-] [= <-]; lia | by destruct i].
  - exists (mkArmedTimer 0x9200 0 10 0). split; [by constructor | done].
  - intros timer Ht. apply list_elem_of_singleton in Ht as ->. by cbn.
  - exists c'. exact Hrun.
Defined.
