(* ===== verification/SystemTyping.v ===== *)
(** * RAM and pool sizes stay well typed

    What every kernel call keeps beside the thread table: RAM is whole pages
    of bytes, whatever address the guest passes, and the pool records 32-bit
    sizes.  Each operation of the address space and of the runtime keeps
    both. *)

From Stdlib Require Import Ascii.
From stdpp Require Import strings.
From S2P Require Import Prelude GuestTypes PageTable Allocator GuestMemory SoftwareSpace SpaceTheorems CpuState KernelTypes HostFiles Runtime RuntimeMemory SchedulerSteps SchedulerReach.

(** ** Any address *)

Lemma page_offset_range a : 0 <= GuestVa_page_offset a < GUEST_PAGE_SIZE.
Proof.
  unfold GuestVa_page_offset. rewrite page_size_val.
  change (4096 - 1) with (Z.ones 12). rewrite Z.land_ones by lia. apply Z.mod_pos_bound. lia.
Qed.

Section Walk.
Context {S : Type} (P : S -> Prop) (visit : visitor S) (len : Z).
Context (Hvisit : forall g d bo chunk s, 0 <= bo -> 0 <= chunk -> bo + chunk <= len -> P s ->
  P (visit g d bo chunk s).2).

Lemma walk_loop_keeps fuel t access g bo s r s' : 0 <= bo ->
  walk_pages_loop fuel t access g bo len visit s = Some (r, s') -> P s -> P s'.
Proof.
  revert g bo s. induction fuel as [|fuel IH]; intros g bo s Hbo; cbn [walk_pages_loop]; [done|].
  destruct (Z.ltb_spec bo len) as [Hlt|]; [|by intros [= <- <-]].
  destruct (checked_descriptor t g access) as [d|e]; [|by intros [= <- <-]].
  pose proof (page_offset_range g) as Hoff.
  set (chunk := Z.min _ _). assert (0 <= chunk /\ bo + chunk <= len) as [Hc Hle] by lia.
  pose proof (Hvisit g d bo chunk s Hbo Hc Hle) as Hv.
  destruct (visit g d bo chunk s) as [[[]|e] s1]; cbn in Hv; [|intros [= <- <-]; auto].
  destruct (bo + chunk <? len); [|intros Hrun Hs; eapply IH; [|exact Hrun|]; auto; lia].
  destruct (checked_add 32 g chunk); [|intros [= <- <-]; auto].
  intros Hrun Hs. eapply IH; [|exact Hrun|]; auto. lia.
Qed.

Lemma walk_pages_keeps t access a s : P s -> P (walk_pages t access a len visit s).2.
Proof.
  intros Hs. unfold walk_pages.
  destruct (walk_pages_loop _ t access a 0 len visit s) as [[r s']|] eqn:Hrun; [|done].
  by eapply walk_loop_keeps.
Qed.
End Walk.

Definition bytes_ok (ram : gmap Z Z) : Prop := map_Forall (fun _ b => u8 b) ram.

Lemma ram_store_bytes ram o bs : Forall u8 bs -> bytes_ok ram -> bytes_ok (ram_store ram o bs).
Proof.
  revert ram o. induction bs as [|b bs IH]; intros ram o; [done|]. intros [? ?]%Forall_cons Hr.
  apply IH; [done|]. by apply map_Forall_insert_2.
Qed.

Lemma fill_zero_u8 ram a b : bytes_ok ram -> bytes_ok (ram_fill_zero ram a b).
Proof.
  apply ram_store_bytes, Forall_replicate. unfold is_u. lia.
Qed.

Lemma write_any_ok s a bs : ram_ok s -> Forall u8 bs -> ram_ok (space_write s a bs).2.
Proof.
  intros [Hlen Hr] Hbs. unfold space_write, access_write.
  case_match; [done|]. case_match; [|done].
  unfold copy_to_guest. match goal with |- context [walk_pages ?t ?k ?ad ?n ?v ?ram] =>
    pose proof (walk_pages_keeps bytes_ok v n) as Hw end.
  match type of Hw with ?A -> _ => assert A as Hvis end.
  { intros g d bo chunk r _ _ _ Hb. repeat (case_match; cbn [snd]; try done).
    apply ram_store_bytes; [|done]. by apply Forall_take, Forall_drop. }
  specialize (Hw Hvis (table s) Write a (physical s) Hr).
  destruct (walk_pages _ _ _ _ _ _) as [[[]|e] ram]; cbn in Hw |- *; by split.
Qed.

Lemma read_any_bytes s a n bs : ram_ok s -> space_read s a n = Ok bs ->
  length bs = n /\ Forall u8 bs.
Proof.
  intros [_ Hr]. unfold space_read, access_read.
  destruct (Z.eqb_spec (Z.of_nat n) 0); [intros [= <-]; split; [cbn; lia | by constructor]|].
  intros (l & _ & Hrun)%bind_ok_inv. apply bind_ok_inv in Hrun as (? & _ & Hrun).
  apply bind_ok_inv in Hrun as (? & _ & Hrun).
  unfold copy_from_guest in Hrun. rewrite length_replicate in Hrun.
  match type of Hrun with context [walk_pages ?t ?k ?ad ?m ?v ?b] =>
    pose proof (walk_pages_keeps (fun out => length out = n /\ Forall u8 out) v m) as Hw end.
  match type of Hw with ?A -> _ => assert A as Hvis end.
  { intros g d bo chunk out Hbo Hc Hle [Hl Hb]. repeat (case_match; cbn [snd]; try done).
    all: match goal with H : ram_slice _ _ _ _ = Some _ |- _ => rename H into Hs end.
    unfold ram_slice in Hs. case_match; simplify_eq. bool_to_prop.
    match goal with H : checked_add 64 _ _ = Some _ |- _ => unfold checked_add in H; case_match; simplify_eq end.
    rewrite !length_app, length_take, length_map, length_seqZ, length_drop.
    split; [lia|]. rewrite !Forall_app, Forall_map. split_and!; [by apply Forall_take | | by apply Forall_drop].
    apply Forall_true. intros o. by apply ram_byte_u8. }
  specialize (Hw Hvis (table s) Read a (replicate n 0)).
  destruct (walk_pages _ _ _ _ _ _) as [[[]|e] out]; [|done]. simplify_eq.
  apply Hw. split; [apply length_replicate|]. apply Forall_replicate. unfold is_u. lia.
Qed.

Lemma read_u32_any s a v : ram_ok s -> mem_read_u32 s a = Ok v -> u32 v.
Proof.
  intros Hs Hr. unfold mem_read_u32 in Hr. apply bind_ok_inv in Hr as (bs & Hbs & [= <-]).
  destruct (read_any_bytes _ _ _ _ Hs Hbs) as [Hl Hb].
  pose proof (from_le_bytes_range _ Hb) as Hrange. by rewrite Hl in Hrange.
Qed.

(** ** Mapping operations *)

Lemma allocate_physical_ok s n : ram_ok s -> ram_ok (allocate_physical s n).2.
Proof. intros [? ?]. unfold allocate_physical. repeat case_match; by split. Qed.

Lemma map_anonymous_ok s r p : ram_ok s -> ram_ok (map_anonymous s r p).2.
Proof. intros [? ?]. unfold map_anonymous. repeat (case_match; try (by split)). Qed.

Lemma space_protect_ok s r p : ram_ok s -> ram_ok (space_protect s r p).2.
Proof. intros [? ?]. unfold space_protect. repeat case_match; by split. Qed.

Lemma free_physical_ok s a n : ram_ok s -> ram_ok (free_physical s a n).
Proof.
  intros [? ?]. unfold free_physical. cbn zeta. case_match; split; try done.
  by apply fill_zero_u8.
Qed.

(** ** The manager *)

Section System.
Context `{HostOs}.

Definition pool_u32 (s : ThreadManager) : Prop := map_Forall (fun _ n => u32 n) (pool_sizes s).

Definition routines_u32 (s : ThreadManager) : Prop := Forall (fun e => u32 (int_routine e.1)) (interrupts s).

Record sys_ok (s : ThreadManager) : Prop := {
  sys_ram : ram_ok (memory s);
  sys_pool : pool_u32 s;
  sys_routines : routines_u32 s;
}.

Lemma sys_same s s' : memory s' = memory s -> pool_sizes s' = pool_sizes s -> interrupts s' = interrupts s ->
  sys_ok s -> sys_ok s'.
Proof. intros Hm Hp Hi []. split; unfold pool_u32, routines_u32; by rewrite ?Hm, ?Hp, ?Hi. Qed.

Lemma update_first_Forall {A} (P : A -> Prop) p f (l l' : list A) : (forall x, P x -> P (f x)) ->
  update_first p f l = Some l' -> Forall P l -> Forall P l'.
Proof.
  intros Hf. revert l'. induction l as [|x l IH]; intros l'; cbn; [done|]. destruct (p x).
  - intros [= <-] [? ?]%Forall_cons. by constructor; [apply Hf|].
  - destruct (update_first p f l) as [l1|]; cbn; [|done]. intros [= <-] [? ?]%Forall_cons. constructor; [done|]. by apply IH.
Qed.

Lemma sys_set_interrupt s r : u32 (int_routine r) -> sys_ok s -> sys_ok (set_interrupt_routine s r).
Proof.
  intros Hr [Hm Hp Hi]. unfold set_interrupt_routine. destruct (update_first _ _ _) as [l|] eqn:Hu; split; try done.
  - by eapply update_first_Forall in Hu.
  - apply Forall_app. split; [done | by apply Forall_singleton].
Qed.

Lemma sys_connect s o c : sys_ok s -> sys_ok (connect_interrupt s o c).
Proof.
  intros [Hm Hp Hi]. unfold connect_interrupt. destruct (update_first _ _ _) as [l|] eqn:Hu; split; try done.
  by eapply update_first_Forall in Hu.
Qed.

Lemma interrupt_routine_u32 s v r : sys_ok s -> interrupt_routine s v = Some r -> u32 (int_routine r).
Proof.
  intros [_ _ Hi]. unfold interrupt_routine. destruct (find _ _) as [e|] eqn:Hf; cbn; [|done]. intros [= <-].
  apply find_some in Hf as [Hin _]. by apply (proj1 (List.Forall_forall _ _) Hi) in Hin.
Qed.

Lemma sys_memory s mem : sys_ok s -> ram_ok mem -> sys_ok (with_memory s mem).
Proof. intros [] ?. by split. Qed.

Lemma sys_write s a bs : sys_ok s -> Forall u8 bs ->
  sys_ok (with_memory s (mem_write (memory s) a bs).2).
Proof. intros Hs ?. apply sys_memory, write_any_ok; [done | apply Hs | done]. Qed.

Lemma sys_write_u32 s a v : sys_ok s -> sys_ok (with_memory s (mem_write_u32 (memory s) a v).2).
Proof. intros. apply sys_write, to_le_bytes_u8; done. Qed.

Lemma sys_frame s s' : wake_frame s s' -> sys_ok s -> sys_ok s'.
Proof. intros (ts & ev & mu & -> & _). by apply sys_same. Qed.

Lemma sys_wake s key all : sys_ok s -> sys_ok (wake_by_key s key all).2.
Proof. apply sys_frame, wake_by_key_frame. Qed.

Lemma sys_set_event s h : sys_ok s -> sys_ok (set_event s h).2.
Proof.
  intros Hs. unfold set_event. destruct (events s !! h) as [[m p]|]; [|done]. cbn zeta.
  set (s1 := with_events s _).
  assert (sys_ok (wake_by_key s1 h m).2) as Hw by (apply sys_wake; by apply (sys_same s)).
  destruct (wake_by_key s1 h m) as [n s2]. cbn [snd] in *.
  repeat case_match; try done; by apply (sys_same s2).
Qed.

Lemma sys_release s h : sys_ok s -> sys_ok (release_mutant s h).2.
Proof.
  intros Hs. unfold release_mutant.
  destruct (mutants s !! h) as [[[i n]|]|]; [|done..]. destruct (negb _); [done|]. cbn zeta.
  destruct (1 <? n); cbn [snd]; [|apply sys_wake]; by apply (sys_same s).
Qed.

Lemma sys_signal s a : sys_ok s -> sys_ok (signal_dispatcher_object s a).
Proof.
  intros Hs. unfold signal_dispatcher_object. cbn zeta.
  set (auto := _ =? _). pose proof (sys_wake s a (negb auto) Hs) as Hw.
  destruct (wake_by_key s a (negb auto)) as [n s1]. cbn [snd] in Hw.
  case_match; [by apply sys_write_u32 | done].
Qed.

Lemma sys_transfer s a : sys_ok s -> sys_ok (transfer_section_wake s a).2.
Proof. intros Hs. unfold transfer_section_wake. case_match; [by apply (sys_same s) | done]. Qed.

Lemma sys_set_timer s t due per dpc : sys_ok s -> sys_ok (set_timer s t due per dpc).2.
Proof.
  intros Hs. unfold set_timer. cbn zeta. destruct (update_first _ _ _); by apply (sys_same s).
Qed.

(** Operations that touch neither. *)
Lemma sys_consume s k i : sys_ok s -> sys_ok (consume_key s k i).
Proof. intros Hs. unfold consume_key. repeat case_match; try done; by apply (sys_same s). Qed.

Lemma sys_consume_keys s ks i : sys_ok s -> sys_ok (consume_keys s ks i).
Proof. revert s. induction ks as [|k ks IH]; intros s Hs; cbn; [done|]. by apply IH, sys_consume. Qed.

Lemma sys_wait s h ms : sys_ok s -> sys_ok (wait_for_object s h ms).2.
Proof.
  intros Hs. unfold wait_for_object. cbn zeta.
  repeat case_match; cbn [snd]; try done; try (by apply sys_consume); by apply (sys_same s).
Qed.

Lemma sys_wait_multi s ks all ms : sys_ok s -> sys_ok (wait_for_objects s ks all ms).2.
Proof.
  intros Hs. unfold wait_for_objects. destruct (negb _); [done|].
  destruct (multi_satisfied s ks all) as [[i s']|] eqn:Hm.
  - cbn [snd]. unfold multi_satisfied in Hm. destruct all.
    + destruct (forallb _ _); [|done]. simplify_eq. by apply sys_consume_keys.
    + destruct (iter_position _ _); [|done]. cbn in Hm. destruct (ks !! _); [|done].
      cbn in Hm. simplify_eq. by apply sys_consume.
  - case_match; [done | by apply (sys_same s)].
Qed.

(** ** Methods that allocate *)

Lemma keeps_on_memory {A} (f : SoftwareAddressSpace -> result MemoryError A * SoftwareAddressSpace) :
  (forall mem, ram_ok mem -> ram_ok (f mem).2) -> keeps sys_ok (on_memory f).
Proof.
  intros Hf s Hs. unfold on_memory. pose proof (Hf _ (sys_ram _ Hs)) as Hm.
  destruct (f (memory s)) as [r mem]. by apply sys_memory.
Qed.

Lemma keeps_write_bytes a bs : Forall u8 bs -> keeps sys_ok (write_bytes a bs).
Proof. intros Hb. apply keeps_on_memory. intros mem Hm. by apply write_any_ok. Qed.

Lemma keeps_write_u32 a v : keeps sys_ok (write_u32 a v).
Proof. apply keeps_on_memory. intros mem Hm. apply write_any_ok, to_le_bytes_u8. done. Qed.

Lemma keeps_or_err {E F A} (e : F) (m : KM E A) : keeps sys_ok m -> keeps sys_ok (or_err e m).
Proof. intros Hm s Hs. specialize (Hm s Hs). unfold or_err. by destruct (m s) as [[|] ?]. Qed.

Lemma keeps_lift {E A} (r : result E A) : keeps sys_ok (lift r).
Proof. by intros s Hs. Qed.

Lemma keeps_get {E A} (f : ThreadManager -> A) : keeps sys_ok (gets f : KM E A).
Proof. by intros s Hs. Qed.

Lemma sys_allocate_block bytes : keeps sys_ok (allocate_kernel_block bytes).
Proof.
  unfold allocate_kernel_block. cbn zeta.
  apply keeps_then; [apply keeps_on_memory; intros; by apply allocate_physical_ok|]. intros phys.
  apply keeps_then; [apply keeps_lift|]. intros range.
  apply keeps_then; [|intros _; apply keeps_ret].
  apply keeps_write_bytes, Forall_replicate. unfold is_u. lia.
Qed.

Lemma sys_stack_tls top : keeps sys_ok (initialize_stack_tls top).
Proof.
  unfold initialize_stack_tls. apply keeps_then; [apply keeps_get|]. intros [template|];
    [|apply keeps_ret]. cbn zeta.
  apply keeps_then; [apply keeps_write_u32|]. intros _.
  apply keeps_then; [|intros _; apply keeps_ret]. case_match; [|apply keeps_ret].
  apply keeps_gets. intros s Hs.
  destruct (mem_read (memory s) _ _) as [bytes|] eqn:Hr; [|done].
  apply keeps_write_bytes; [|done]. by apply (read_any_bytes _ _ _ _ (sys_ram _ Hs) Hr).
Qed.

Ltac keeps_writes := repeat (apply keeps_then; [apply keeps_write_u32 | intros _]).

Lemma sys_thread_pages b n : keeps sys_ok (build_thread_pages b n).
Proof.
  unfold build_thread_pages. apply keeps_then; [apply sys_allocate_block|]. intros range. cbn zeta.
  keeps_writes. apply keeps_then; [apply sys_stack_tls|]. intros tls. keeps_writes. apply keeps_ret.
Qed.

Lemma sys_create_thread r : keeps sys_ok (create_thread r).
Proof.
  unfold create_thread. cbn zeta.
  apply keeps_then; [apply keeps_or_err; intros s Hs; apply sys_memory, allocate_physical_ok; [done | apply Hs]|].
  intros _. apply keeps_then; [apply keeps_or_err, sys_allocate_block|]. intros stack.
  apply keeps_then; [apply keeps_or_err, sys_thread_pages|]. intros kpcr.
  apply keeps_then; [apply keeps_get|]. intros reserve.
  apply keeps_then; [apply keeps_or_err; keeps_writes; apply keeps_write_u32|]. intros _.
  apply keeps_then; [apply keeps_get|]. intros index.
  apply keeps_then; [apply keeps_modify; intros s; by apply sys_same|]. intros _.
  apply keeps_then; [apply keeps_modify; intros s; by apply sys_same|]. intros _. apply keeps_ret.
Qed.

Lemma sys_contiguous n : keeps sys_ok (allocate_contiguous n).
Proof.
  unfold allocate_contiguous. apply keeps_then; [apply keeps_or_err, sys_allocate_block|].
  intros range. apply keeps_then; [|intros _; apply keeps_ret]. apply keeps_modify.
  intros s [Hr Hp Hi]. split; [done| |done]. apply map_Forall_insert_2; [apply wrap_range; lia | done].
Qed.

Lemma sys_free_contiguous a : keeps sys_ok (free_contiguous a).
Proof.
  intros s [Hr Hp Hi]. unfold free_contiguous. case_match; [|done]. cbn zeta.
  assert (sys_ok (with_pool_sizes s (delete a (pool_sizes s)))) as Hs.
  { split; [done| |done]. by apply map_Forall_delete. }
  case_match; [done|]. apply sys_memory, free_physical_ok; [done | apply Hs].
Qed.

Lemma sys_claim n : keeps sys_ok (claim_gpu_instance n).
Proof.
  unfold claim_gpu_instance. apply keeps_then; [apply sys_contiguous|]. intros a.
  apply keeps_then; [apply keeps_get|]. intros size.
  apply keeps_then; [apply keeps_modify; intros s; by apply sys_same | intros _; apply keeps_ret].
Qed.

Lemma sys_commit_page cursor p : keeps sys_ok (commit_page cursor p).
Proof.
  intros s Hs. unfold commit_page. destruct (GuestRange_new _ _) as [range|]; [|done].
  pose proof (map_anonymous_ok _ range p (sys_ram _ Hs)) as Hmap.
  destruct (map_anonymous (memory s) range p) as [[phys|e] mem]; cbn [snd] in *;
    [by apply sys_memory|].
  pose proof (space_protect_ok _ range p Hmap) as Hprot.
  destruct (space_protect mem range p) as [[?|?] mem']; by apply sys_memory.
Qed.

Lemma sys_commit_loop fuel cursor stop p s r s' : sys_ok s ->
  commit_loop fuel cursor stop p s = Some (r, s') -> sys_ok s'.
Proof.
  revert cursor s. induction fuel as [|fuel IH]; intros cursor s Hs; cbn [commit_loop]; [done|].
  case_match; [|by intros [= <- <-]].
  pose proof (sys_commit_page cursor p s Hs) as Hp.
  destruct (commit_page cursor p s) as [[[]|e] s1]; cbn in Hp; [by apply IH | by intros [= <- <-]].
Qed.

Lemma sys_virtual r : keeps sys_ok (allocate_virtual_memory r).
Proof.
  unfold allocate_virtual_memory. cbn zeta. apply keeps_then.
  - intros s Hs. unfold place_allocation. repeat case_match; try done; by apply (sys_same s).
  - intros start. apply keeps_then; [|intros _; apply keeps_ret].
    case_match; [|apply keeps_ret]. intros s Hs. unfold commit_range.
    destruct (checked_add 32 _ _) as [stop|]; [|done].
    destruct (commit_loop _ _ stop _ s) as [[r' s']|] eqn:Hrun; [|done].
    by eapply sys_commit_loop.
Qed.
End System.
