(* ===== verification/KernelCalls.v ===== *)
(** * Kernel calls: context, exports, gate and registry

    Models [exbawks-kernel/src/context.rs], [export.rs], [gate.rs],
    [registry.rs], [error.rs] and the argument readers of [startup.rs].

    An export runs against the state it may change: the processor, the kernel
    services with the guest address space they share with the processor, the
    host behind the files, and a stop request.  [Call] is the monad of an
    export's body.  A body computes a value, leaves early with a status
    ([return KernelStatus]), or does not come back: the file device may panic
    on a path, and a host that interrupts reads forever never answers.

    The services are those of [ThreadManager]; the address space of the context
    is the one the manager shares.  Tracing has no effect on the state. *)

From Stdlib Require Import Ascii.
From stdpp Require Import strings.
From S2P Require Import Prelude GuestTypes PageTable Allocator GuestMemory SoftwareSpace CpuState KernelTypes HostFiles Runtime RuntimeMemory CoreScheduling.

(** ** The dispatch gate *)

Definition KERNEL_GATE_BASE : Z := 0xFF800000.
Definition KERNEL_GATE_END : Z := KERNEL_GATE_BASE + Z.shiftl (0xFFFF + 1) 2.

Definition gate_address (ordinal : Z) : GuestVa :=
  wrapping_add32 KERNEL_GATE_BASE (wrap32 (Z.shiftl ordinal 2)).

Definition gate_ordinal (address : GuestVa) : option Z :=
  if (address <? KERNEL_GATE_BASE) || (KERNEL_GATE_END <=? address) then None
  else
    let offset := address - KERNEL_GATE_BASE in
    if negb (Z.land offset 3 =? 0) then None
    else Some (wrap16 (Z.shiftr offset 2)).

(** [Result::ok]. *)
Definition result_ok {E A} (r : result E A) : option A :=
  match r with
  | Ok a => Some a
  | Err _ => None
  end.

(** [Option::filter]. *)
Definition opt_filter {A} (f : A -> bool) (o : option A) : option A :=
  a ← o; if f a then Some a else None.

Definition non_zero (v : Z) : bool := negb (v =? 0).

(** [(high as i64) << 32 | low as i64]: the sign is bit 31 of [high]. *)
Definition signed64 (high low : Z) : Z :=
  let v := Z.lor (wrap64 (Z.shiftl high 32)) low in
  if Z.testbit v 63 then v - 2 ^ 64 else v.

(** ** UTF-8

    [String::from_utf8_lossy]: every maximal invalid prefix of a character
    becomes U+FFFD, and valid text stays. *)

Definition in_range (lo hi b : Z) : bool := (lo <=? b) && (b <=? hi).
Definition is_cont (b : Z) : bool := in_range 0x80 0xBF b.

(** Whether [b1] may follow the first byte of a three or four byte character. *)
Definition second3 (b0 b1 : Z) : bool :=
  if b0 =? 0xE0 then in_range 0xA0 0xBF b1
  else if b0 =? 0xED then in_range 0x80 0x9F b1
  else is_cont b1.
Definition second4 (b0 b1 : Z) : bool :=
  if b0 =? 0xF0 then in_range 0x90 0xBF b1
  else if b0 =? 0xF4 then in_range 0x80 0x8F b1
  else is_cont b1.

Definition REPLACEMENT : list Z := [0xEF; 0xBF; 0xBD].

Fixpoint utf8_lossy (bytes : list Z) : list Z :=
  match bytes with
  | [] => []
  | b0 :: rest =>
    if b0 <? 0x80 then b0 :: utf8_lossy rest
    else if in_range 0xC2 0xDF b0 then
      match rest with
      | b1 :: rest1 =>
        if is_cont b1 then b0 :: b1 :: utf8_lossy rest1 else REPLACEMENT ++ utf8_lossy rest
      | [] => REPLACEMENT
      end
    else if in_range 0xE0 0xEF b0 then
      match rest with
      | b1 :: rest1 =>
        if second3 b0 b1 then
          match rest1 with
          | b2 :: rest2 =>
            if is_cont b2 then b0 :: b1 :: b2 :: utf8_lossy rest2
            else REPLACEMENT ++ utf8_lossy rest1
          | [] => REPLACEMENT
          end
        else REPLACEMENT ++ utf8_lossy rest
      | [] => REPLACEMENT
      end
    else if in_range 0xF0 0xF4 b0 then
      match rest with
      | b1 :: rest1 =>
        if second4 b0 b1 then
          match rest1 with
          | b2 :: rest2 =>
            if is_cont b2 then
              match rest2 with
              | b3 :: rest3 =>
                if is_cont b3 then b0 :: b1 :: b2 :: b3 :: utf8_lossy rest3
                else REPLACEMENT ++ utf8_lossy rest2
              | [] => REPLACEMENT
              end
            else REPLACEMENT ++ utf8_lossy rest1
          | [] => REPLACEMENT
          end
        else REPLACEMENT ++ utf8_lossy rest
      | [] => REPLACEMENT
      end
    else REPLACEMENT ++ utf8_lossy rest
  end.

Fixpoint string_of_bytes (bytes : list Z) : string :=
  match bytes with
  | [] => EmptyString
  | b :: bytes => String (ascii_of_N (Z.to_N b)) (string_of_bytes bytes)
  end.

(** [str::as_bytes]. *)
Fixpoint as_bytes (text : string) : list Z :=
  match text with
  | EmptyString => []
  | String c text => byte_of c :: as_bytes text
  end.

Definition from_utf8_lossy (bytes : list Z) : string := string_of_bytes (utf8_lossy bytes).

(** ** Context and monad *)

Inductive Outcome (A : Type) : Type :=
| Value (a : A)
| Return (status : Z)
| Aborts.
Arguments Value {A} a.
Arguments Return {A} status.
Arguments Aborts {A}.

Section Calls.
Context `{HostOs}.

Record KernelCallContext : Type := mkKernelCallContext {
  ctx_cpu : CpuState;
  services : ThreadManager;
  host : World;
  stop_request : option StopReason;
}.

Definition with_services (c : KernelCallContext) (s : ThreadManager) : KernelCallContext :=
  mkKernelCallContext (ctx_cpu c) s (host c) (stop_request c).
Definition with_host (c : KernelCallContext) (w : World) : KernelCallContext :=
  mkKernelCallContext (ctx_cpu c) (services c) w (stop_request c).
Definition with_stop (c : KernelCallContext) (stop : StopReason) : KernelCallContext :=
  mkKernelCallContext (ctx_cpu c) (services c) (host c) (Some stop).

(** [context.memory]. *)
Definition ctx_memory (c : KernelCallContext) : SoftwareAddressSpace := memory (services c).

Definition Call (A : Type) : Type := KernelCallContext -> Outcome A * KernelCallContext.

#[global] Instance Call_ret : MRet Call := fun A a c => (Value a, c).
#[global] Instance Call_bind : MBind Call := fun A B f m c =>
  match m c with
  | (Value a, c) => f a c
  | (Return status, c) => (Return status, c)
  | (Aborts, c) => (Aborts, c)
  end.

(** [return status;]. *)
Definition leave {A} (status : Z) : Call A := fun c => (Return status, c).
Definition ask {A} (f : KernelCallContext -> A) : Call A := fun c => (Value (f c), c).
(** [let Some(a) = f(context) else { return status }]. *)
Definition require {A} (f : KernelCallContext -> option A) (status : Z) : Call A := fun c =>
  match f c with
  | Some a => (Value a, c)
  | None => (Return status, c)
  end.
(** A service that changes the manager and answers. *)
Definition service {A} (f : ThreadManager -> A * ThreadManager) : Call A := fun c =>
  let '(a, s) := f (services c) in (Value a, with_services c s).
Definition service_unit (f : ThreadManager -> ThreadManager) : Call unit := fun c =>
  (Value tt, with_services c (f (services c))).
(** A store; the boolean is [is_ok()]. *)
Definition store (address : Z) (bytes : list Z) : Call bool := fun c =>
  let '(r, mem) := mem_write (ctx_memory c) address bytes in
  (Value (is_ok r), with_services c (with_memory (services c) mem)).
Definition store_u32 (address value : Z) : Call bool := store address (to_le_bytes 4 value).
(** [let _ = context.memory.write_u32(..)]. *)
Definition put_u32 (address value : Z) : Call unit := store_u32 address value;; mret tt.
Definition put_bytes (address : Z) (bytes : list Z) : Call unit := store address bytes;; mret tt.
(** [context.stop_request = Some(stop)]. *)
Definition request_stop (stop : StopReason) : Call unit := fun c => (Value tt, with_stop c stop).
Definition when (b : bool) (m : Call unit) : Call unit := if b then m else mret tt.

(** The status of a body that came back. *)
Definition run_call (m : Call Z) (c : KernelCallContext) : option Z * KernelCallContext :=
  match m c with
  | (Value status, c) | (Return status, c) => (Some status, c)
  | (Aborts, c) => (None, c)
  end.

(** ** Arguments *)

Definition ctx_read_u32 (address : Z) (c : KernelCallContext) : option Z :=
  result_ok (mem_read_u32 (ctx_memory c) address).

Definition stack_argument (index : Z) (c : KernelCallContext) : option Z :=
  above ← checked_add 32 (gpr_at (ctx_cpu c) 4) 4;
  offset ← checked_mul 32 index 4;
  address ← checked_add 32 above offset;
  ctx_read_u32 address c.

(** [stack_argument(context, index).unwrap_or(0)]. *)
Definition argument_or_zero (index : Z) (c : KernelCallContext) : Z :=
  default 0 (stack_argument index c).

(** [stack_argument(context, index).filter(|pointer| *pointer != 0)]. *)
Definition pointer_argument (index : Z) (c : KernelCallContext) : option Z :=
  opt_filter non_zero (stack_argument index c).

(** The interval of a negative [LARGE_INTEGER], in whole milliseconds. *)
Definition relative_ms (value : Z) : Z := Z.max (Z.abs value / 10000) 1.

Definition read_timeout_ms (index : Z) (c : KernelCallContext) : option (option Z) :=
  pointer ← stack_argument index c;
  if pointer =? 0 then Some None else
  low ← ctx_read_u32 pointer c;
  high ← ctx_read_u32 (wrapping_add32 pointer 4) c;
  let value := signed64 high low in
  if value =? 0 then Some (Some 0)
  else if 0 <? value then Some None
  else Some (Some (relative_ms value)).

Definition STRING_LIMIT : nat := 512.

(** The bounded loop of [read_guest_string]; the text is only traced, so its
    bytes are kept as they are. *)
Fixpoint read_string_loop (rounds : nat) (address : Z) (bytes : list Z) (c : KernelCallContext)
  : option (list Z) :=
  match rounds with
  | O => None
  | S rounds =>
    match mem_read (ctx_memory c) address 1 with
    | Ok [byte] =>
      if byte =? 0 then Some bytes
      else next ← checked_add 32 address 1; read_string_loop rounds next (bytes ++ [byte]) c
    | _ => None
    end
  end.

Definition read_guest_string (start : GuestVa) (c : KernelCallContext) : option (list Z) :=
  read_string_loop STRING_LIMIT start [] c.

(** ** Exports and their registry *)

Record KernelExport : Type := mkKernelExport {
  ordinal : Z;
  export_name : string;
  stack_bytes : Z;
  is_stub : bool;
  call : Call Z;
}.

(** [StubExport] and [SuccessExport]. *)
Definition StubExport (o : Z) (name : string) : KernelExport :=
  mkKernelExport o name 0 true (mret KernelStatus.NOT_IMPLEMENTED).
Definition SuccessExport (o : Z) (name : string) (bytes : Z) : KernelExport :=
  mkKernelExport o name bytes false (mret KernelStatus.SUCCESS).

Inductive KernelError : Type :=
| DuplicateOrdinal (o : Z)
| MissingOrdinal (o : Z).

(** The registry is the map behind the lock of [KernelRegistry]. *)
Definition register_shared (registry : gmap Z KernelExport) (export : KernelExport)
  : result KernelError (gmap Z KernelExport) :=
  match registry !! ordinal export with
  | Some _ => Err (DuplicateOrdinal (ordinal export))
  | None => Ok (<[ordinal export := export]> registry)
  end.

(** A sequence of [registry.register(..)?]. *)
Fixpoint register_all (registry : gmap Z KernelExport) (exports : list KernelExport)
  : result KernelError (gmap Z KernelExport) :=
  match exports with
  | [] => Ok registry
  | export :: exports => registry ← register_shared registry export; register_all registry exports
  end.

Definition dispatch (registry : gmap Z KernelExport) (o : Z) (c : KernelCallContext)
  : result KernelError (option Z * KernelCallContext) :=
  export ← ok_or (registry !! o) (MissingOrdinal o);
  Ok (run_call (call export) c).
End Calls.
