(* ===== verification/ThreadExports.v ===== *)
(** * Thread, wait, timer and interrupt exports

    Models the exports of [exbawks-kernel/src/startup.rs], [dispatcher.rs],
    [mutant.rs], [ke.rs] and [irql.rs], and the ordinals they register under.
    An export is the record of its ordinal, name, argument bytes and body. *)

From Stdlib Require Import Ascii.
From stdpp Require Import strings.
From S2P Require Import Prelude GuestTypes PageTable Allocator GuestMemory SoftwareSpace CpuState KernelTypes HostFiles Runtime RuntimeMemory CoreScheduling KernelCalls.

(** ** Ordinals *)

Module Ordinal.
Definition AV_GET_SAVED_DATA_ADDRESS : Z := 1.
Definition AV_SEND_TV_ENCODER_OPTION : Z := 2.
Definition AV_SET_DISPLAY_MODE : Z := 3.
Definition AV_SET_SAVED_DATA_ADDRESS : Z := 4.
Definition DBG_PRINT : Z := 8.
Definition EX_ALLOCATE_POOL : Z := 14.
Definition EX_ALLOCATE_POOL_WITH_TAG : Z := 15.
Definition EX_FREE_POOL : Z := 17.
Definition EX_QUERY_POOL_BLOCK_SIZE : Z := 23.
Definition EX_QUERY_NON_VOLATILE_SETTING : Z := 24.
Definition HAL_GET_INTERRUPT_VECTOR : Z := 44.
Definition HAL_READ_WRITE_PCI_SPACE : Z := 46.
Definition HAL_REGISTER_SHUTDOWN_NOTIFICATION : Z := 47.
Definition HAL_RETURN_TO_FIRMWARE : Z := 49.
Definition IO_CREATE_SYMBOLIC_LINK : Z := 67.
Definition IO_DELETE_SYMBOLIC_LINK : Z := 69.
Definition KE_DELAY_EXECUTION_THREAD : Z := 99.
Definition KE_CANCEL_TIMER : Z := 97.
Definition NT_YIELD_EXECUTION : Z := 238.
Definition OB_REFERENCE_OBJECT_BY_HANDLE : Z := 246.
Definition OBF_DEREFERENCE_OBJECT : Z := 250.
Definition KE_INITIALIZE_DPC : Z := 107.
Definition KE_INSERT_QUEUE_DPC : Z := 119.
Definition KE_INITIALIZE_TIMER_EX : Z := 113.
Definition KE_CONNECT_INTERRUPT : Z := 98.
Definition KE_DISCONNECT_INTERRUPT : Z := 100.
Definition KE_GET_CURRENT_IRQL : Z := 103.
Definition KE_INITIALIZE_INTERRUPT : Z := 109.
Definition KE_QUERY_SYSTEM_TIME : Z := 128.
Definition KE_RAISE_IRQL_TO_DPC_LEVEL : Z := 129.
Definition KE_SET_EVENT : Z := 145.
Definition KE_STALL_EXECUTION_PROCESSOR : Z := 151.
Definition KE_WAIT_FOR_SINGLE_OBJECT : Z := 159.
Definition KF_RAISE_IRQL : Z := 160.
Definition KF_LOWER_IRQL : Z := 161.
Definition KE_SET_TIMER : Z := 149.
Definition MM_ALLOCATE_CONTIGUOUS_MEMORY : Z := 165.
Definition MM_ALLOCATE_CONTIGUOUS_MEMORY_EX : Z := 166.
Definition MM_CLAIM_GPU_INSTANCE_MEMORY : Z := 168.
Definition MM_FREE_CONTIGUOUS_MEMORY : Z := 171.
Definition MM_GET_PHYSICAL_ADDRESS : Z := 173.
Definition MM_LOCK_UNLOCK_BUFFER_PAGES : Z := 175.
Definition MM_PERSIST_CONTIGUOUS_MEMORY : Z := 178.
Definition MM_QUERY_ALLOCATION_SIZE : Z := 180.
Definition MM_QUERY_STATISTICS : Z := 181.
Definition NT_ALLOCATE_VIRTUAL_MEMORY : Z := 184.
Definition NT_CLOSE : Z := 187.
Definition NT_CREATE_EVENT : Z := 189.
Definition NT_CREATE_FILE : Z := 190.
Definition NT_CREATE_MUTANT : Z := 192.
Definition NT_DEVICE_IO_CONTROL_FILE : Z := 196.
Definition NT_FREE_VIRTUAL_MEMORY : Z := 199.
Definition NT_OPEN_FILE : Z := 202.
Definition NT_OPEN_SYMBOLIC_LINK_OBJECT : Z := 203.
Definition NT_QUERY_SYMBOLIC_LINK_OBJECT : Z := 215.
Definition NT_QUERY_INFORMATION_FILE : Z := 211.
Definition NT_QUERY_VOLUME_INFORMATION_FILE : Z := 218.
Definition NT_READ_FILE : Z := 219.
Definition NT_RELEASE_MUTANT : Z := 221.
Definition NT_RESUME_THREAD : Z := 224.
Definition NT_SET_EVENT : Z := 225.
Definition NT_SET_INFORMATION_FILE : Z := 226.
Definition NT_SUSPEND_THREAD : Z := 231.
Definition NT_WAIT_FOR_SINGLE_OBJECT : Z := 233.
Definition NT_WAIT_FOR_SINGLE_OBJECT_EX : Z := 234.
Definition NT_WAIT_FOR_MULTIPLE_OBJECTS_EX : Z := 235.
Definition NT_WRITE_FILE : Z := 236.
Definition PS_CREATE_SYSTEM_THREAD_EX : Z := 255.
Definition PS_TERMINATE_SYSTEM_THREAD : Z := 258.
Definition RTL_ENTER_CRITICAL_SECTION : Z := 277.
Definition RTL_EQUAL_STRING : Z := 279.
Definition RTL_INIT_ANSI_STRING : Z := 289.
Definition RTL_INITIALIZE_CRITICAL_SECTION : Z := 291.
Definition RTL_LEAVE_CRITICAL_SECTION : Z := 294.
Definition RTL_NT_STATUS_TO_DOS_ERROR : Z := 301.
Definition XE_LOAD_SECTION : Z := 327.
Definition XE_UNLOAD_SECTION : Z := 328.
End Ordinal.

(** The address arithmetic of the exports is on [u32] and wraps. *)
#[local] Infix "+w" := wrapping_add32 (at level 50, left associativity).

Definition SIGNAL_STATE_OFFSET : Z := 4.
Definition SYNCHRONIZATION_EVENT : Z := 1.
Definition STATUS_NO_YIELD_PERFORMED : Z := 0x40000024.
Definition STATUS_MUTANT_NOT_OWNED : Z := 0xC0000046.
Definition MAXIMUM_WAIT_OBJECTS : Z := 64.

Section Exports.
Context `{HostOs}.

(** [bool] answered as a [u32]. *)
Definition flag (b : bool) : Z := if b then 1 else 0.

(** ** [startup.rs] *)

Definition KeDelayExecutionThread : KernelExport :=
  mkKernelExport Ordinal.KE_DELAY_EXECUTION_THREAD "KeDelayExecutionThread" 12 false (
    pointer ← require (pointer_argument 2) KernelStatus.INVALID_PARAMETER;
    low ← require (ctx_read_u32 pointer) KernelStatus.INVALID_PARAMETER;
    high ← require (ctx_read_u32 (pointer +w 4)) KernelStatus.INVALID_PARAMETER;
    let value := signed64 high low in
    let milliseconds := if value <? 0 then relative_ms value else 0 in
    service (fun s => sleep_thread s milliseconds);;
    mret KernelStatus.SUCCESS).

Definition DbgPrint : KernelExport :=
  mkKernelExport Ordinal.DBG_PRINT "DbgPrint" 0 false (
    pointer ← require (stack_argument 0) KernelStatus.INVALID_PARAMETER;
    require (read_guest_string pointer) KernelStatus.INVALID_PARAMETER;;
    mret KernelStatus.SUCCESS).

Definition HalReturnToFirmware : KernelExport :=
  mkKernelExport Ordinal.HAL_RETURN_TO_FIRMWARE "HalReturnToFirmware" 4 false (
    routine ← ask (argument_or_zero 0);
    let stop := if (routine =? 1) || (routine =? 2) then Reboot routine else GuestExit routine in
    request_stop stop;;
    mret KernelStatus.SUCCESS).

(** The ten arguments, or none where one cannot be read. *)
Definition stack_arguments (count : nat) (c : KernelCallContext) : option (list Z) :=
  mapM (fun index => stack_argument (Z.of_nat index) c) (seq 0 count).

Definition thread_request (arguments : list Z) : ThreadCreateRequest :=
  let at_ i := nth i arguments 0 in
  mkThreadCreateRequest (at_ 1%nat) (at_ 2%nat) (at_ 3%nat) (at_ 9%nat) (at_ 5%nat) (at_ 6%nat)
    (non_zero (at_ 7%nat)).

Definition PsCreateSystemThreadEx : KernelExport :=
  mkKernelExport Ordinal.PS_CREATE_SYSTEM_THREAD_EX "PsCreateSystemThreadEx" 40 false (
    arguments ← require (stack_arguments 10) KernelStatus.INVALID_PARAMETER;
    let handle_out := nth 0 arguments 0 in
    let id_out := nth 4 arguments 0 in
    probed ← store_u32 handle_out 0;
    if negb probed then mret KernelStatus.INVALID_PARAMETER else
    probed ← (if non_zero id_out then store_u32 id_out 0 else mret true);
    if negb probed then mret KernelStatus.INVALID_PARAMETER else
    created ← service (create_thread (thread_request arguments));
    match created with
    | Err _ => mret KernelStatus.INSUFFICIENT_RESOURCES
    | Ok created =>
      written ← store_u32 handle_out (created_handle created);
      if negb written then mret KernelStatus.INVALID_PARAMETER else
      written ← (if non_zero id_out then store_u32 id_out (created_thread_id created)
                 else mret true);
      if negb written then mret KernelStatus.INVALID_PARAMETER else mret KernelStatus.SUCCESS
    end).

Definition PsTerminateSystemThread : KernelExport :=
  mkKernelExport Ordinal.PS_TERMINATE_SYSTEM_THREAD "PsTerminateSystemThread" 4 false (
    status ← ask (argument_or_zero 0);
    service_unit (fun s => exit_current_thread s status);;
    mret KernelStatus.SUCCESS).

(** The answer of a service that reports a previous count or state through an
    optional out-pointer. *)
Definition report_previous (previous_out : Z) (r : result Svc.KernelServiceError Z) : Call Z :=
  match r with
  | Ok previous =>
    when (non_zero previous_out) (put_u32 previous_out previous);;
    mret KernelStatus.SUCCESS
  | Err _ => mret KernelStatus.INVALID_HANDLE
  end.

Definition NtResumeThread : KernelExport :=
  mkKernelExport Ordinal.NT_RESUME_THREAD "NtResumeThread" 8 false (
    handle ← require (stack_argument 0) KernelStatus.INVALID_PARAMETER;
    previous_out ← ask (argument_or_zero 1);
    r ← service (fun s => resume_thread s handle);
    report_previous previous_out r).

Definition ObReferenceObjectByHandle : KernelExport :=
  mkKernelExport Ordinal.OB_REFERENCE_OBJECT_BY_HANDLE "ObReferenceObjectByHandle" 12 false (
    handle ← require (pointer_argument 0) KernelStatus.INVALID_HANDLE;
    object ← require (fun c => object_for_handle (services c) handle) KernelStatus.INVALID_HANDLE;
    object_out ← ask (argument_or_zero 2);
    written ← (if non_zero object_out then store_u32 object_out object else mret true);
    mret (if (written : bool) then KernelStatus.SUCCESS else KernelStatus.INVALID_PARAMETER)).

Definition ObfDereferenceObject : KernelExport :=
  mkKernelExport Ordinal.OBF_DEREFERENCE_OBJECT "ObfDereferenceObject" 0 false
    (mret KernelStatus.SUCCESS).

Definition NtYieldExecution : KernelExport :=
  mkKernelExport Ordinal.NT_YIELD_EXECUTION "NtYieldExecution" 0 false (
    yielded ← ask (fun c => yield_thread (services c));
    mret (if (yielded : bool) then KernelStatus.SUCCESS else STATUS_NO_YIELD_PERFORMED)).

Definition NtSuspendThread : KernelExport :=
  mkKernelExport Ordinal.NT_SUSPEND_THREAD "NtSuspendThread" 8 false (
    handle ← require (stack_argument 0) KernelStatus.INVALID_PARAMETER;
    previous_out ← ask (argument_or_zero 1);
    r ← service (fun s => suspend_thread s handle);
    report_previous previous_out r).

Definition NtClose : KernelExport :=
  mkKernelExport Ordinal.NT_CLOSE "NtClose" 4 false (
    handle ← require (stack_argument 0) KernelStatus.INVALID_PARAMETER;
    closed ← service (fun s => close_handle s handle);
    mret (if (closed : bool) then KernelStatus.SUCCESS else KernelStatus.INVALID_HANDLE)).

Definition NtCreateEvent : KernelExport :=
  mkKernelExport Ordinal.NT_CREATE_EVENT "NtCreateEvent" 16 false (
    handle_out ← require (stack_argument 0) KernelStatus.INVALID_PARAMETER;
    event_type ← require (stack_argument 2) KernelStatus.INVALID_PARAMETER;
    initial ← require (stack_argument 3) KernelStatus.INVALID_PARAMETER;
    if handle_out =? 0 then mret KernelStatus.INVALID_PARAMETER else
    handle ← service (fun s => create_event s (event_type =? 0) (non_zero (Z.land initial 0xFF)));
    put_u32 handle_out handle;;
    mret KernelStatus.SUCCESS).

Definition NtSetEvent : KernelExport :=
  mkKernelExport Ordinal.NT_SET_EVENT "NtSetEvent" 8 false (
    handle ← require (stack_argument 0) KernelStatus.INVALID_PARAMETER;
    previous_out ← ask (argument_or_zero 1);
    r ← service (fun s => set_event s handle);
    report_previous previous_out (flag <$> r)).

Definition wait_for_single (timeout_index : Z) : Call Z :=
  handle ← require (stack_argument 0) KernelStatus.INVALID_PARAMETER;
  timeout_ms ← require (read_timeout_ms timeout_index) KernelStatus.INVALID_PARAMETER;
  r ← service (fun s => wait_for_object s handle timeout_ms);
  mret match r with
       | Ok Signaled | Ok Pending => KernelStatus.SUCCESS
       | Ok TimedOut => STATUS_TIMEOUT
       | Err _ => KernelStatus.INVALID_HANDLE
       end.

Definition NtWaitForSingleObject : KernelExport :=
  mkKernelExport Ordinal.NT_WAIT_FOR_SINGLE_OBJECT "NtWaitForSingleObject" 12 false
    (wait_for_single 2).

Definition NtWaitForSingleObjectEx : KernelExport :=
  mkKernelExport Ordinal.NT_WAIT_FOR_SINGLE_OBJECT_EX "NtWaitForSingleObjectEx" 16 false
    (wait_for_single 3).

(** The handles of a multiple wait: [handles + index * 4] for each index. *)
Definition read_handles (handles count : Z) (c : KernelCallContext) : option (list Z) :=
  mapM (fun index => ctx_read_u32 (handles +w wrapping_mul32 (Z.of_nat index) 4) c)
    (seq 0 (Z.to_nat count)).

Definition NtWaitForMultipleObjectsEx : KernelExport :=
  mkKernelExport Ordinal.NT_WAIT_FOR_MULTIPLE_OBJECTS_EX "NtWaitForMultipleObjectsEx" 24 false (
    count ← require (stack_argument 0) KernelStatus.INVALID_PARAMETER;
    handles ← require (stack_argument 1) KernelStatus.INVALID_PARAMETER;
    wait_type ← require (stack_argument 2) KernelStatus.INVALID_PARAMETER;
    if (count =? 0) || (MAXIMUM_WAIT_OBJECTS <? count) || (handles =? 0)
    then mret KernelStatus.INVALID_PARAMETER else
    ks ← require (read_handles handles count) KernelStatus.ACCESS_VIOLATION;
    timeout_ms ← require (read_timeout_ms 5) KernelStatus.INVALID_PARAMETER;
    r ← service (fun s => wait_for_objects s ks (wait_type =? 0) timeout_ms);
    mret match r with
         | Ok (MultiSatisfied index) => index
         | Ok MultiTimedOut => STATUS_TIMEOUT
         | Ok MultiPending => KernelStatus.SUCCESS
         | Err _ => KernelStatus.INVALID_HANDLE
         end).

(** ** [dispatcher.rs] *)

Definition signal_state (object : Z) (c : KernelCallContext) : option Z :=
  ctx_read_u32 (object +w SIGNAL_STATE_OFFSET) c.

Definition KeWaitForSingleObject : KernelExport :=
  mkKernelExport Ordinal.KE_WAIT_FOR_SINGLE_OBJECT "KeWaitForSingleObject" 20 false (
    object ← require (pointer_argument 0) KernelStatus.INVALID_PARAMETER;
    state ← require (signal_state object) KernelStatus.INVALID_PARAMETER;
    if non_zero state then
      kind ← ask (fun c => Z.land (default 0 (ctx_read_u32 object c)) 0xFF);
      when (kind =? SYNCHRONIZATION_EVENT) (put_u32 (object +w SIGNAL_STATE_OFFSET) 0);;
      mret KernelStatus.SUCCESS
    else
      timeout_ms ← require (read_timeout_ms 4) KernelStatus.INVALID_PARAMETER;
      outcome ← service (fun s => wait_for_dispatcher_object s object timeout_ms);
      mret match outcome with
           | Signaled | Pending => KernelStatus.SUCCESS
           | TimedOut => STATUS_TIMEOUT
           end).

Definition KeSetEvent : KernelExport :=
  mkKernelExport Ordinal.KE_SET_EVENT "KeSetEvent" 12 false (
    event ← require (pointer_argument 0) KernelStatus.INVALID_PARAMETER;
    previous ← require (signal_state event) KernelStatus.INVALID_PARAMETER;
    put_u32 (event +w SIGNAL_STATE_OFFSET) 1;;
    service_unit (fun s => signal_dispatcher_object s event);;
    mret previous).

(** ** [mutant.rs] *)

Definition NtCreateMutant : KernelExport :=
  mkKernelExport Ordinal.NT_CREATE_MUTANT "NtCreateMutant" 12 false (
    handle_out ← require (stack_argument 0) KernelStatus.INVALID_PARAMETER;
    initial_owner ← require (stack_argument 2) KernelStatus.INVALID_PARAMETER;
    if handle_out =? 0 then mret KernelStatus.INVALID_PARAMETER else
    handle ← service (fun s => create_mutant s (non_zero (Z.land initial_owner 0xFF)));
    put_u32 handle_out handle;;
    mret KernelStatus.SUCCESS).

Definition NtReleaseMutant : KernelExport :=
  mkKernelExport Ordinal.NT_RELEASE_MUTANT "NtReleaseMutant" 8 false (
    handle ← require (stack_argument 0) KernelStatus.INVALID_PARAMETER;
    previous_out ← ask (argument_or_zero 1);
    r ← service (fun s => release_mutant s handle);
    match r with
    | Err Svc.AccessDenied => mret STATUS_MUTANT_NOT_OWNED
    | _ => report_previous previous_out r
    end).

(** ** [ke.rs] *)

Definition DPC_OBJECT_TYPE : Z := 0x13.
Definition NOTIFICATION_TIMER_TYPE : Z := 8.
Definition SYSTEM_TIME_EPOCH : Z := 127173888000000000.
Definition TIMER_DUE_TIME : Z := 0x10.
Definition TIMER_DPC : Z := 0x20.

Definition virtual_system_time (c : KernelCallContext) : Z :=
  wrap64 (SYSTEM_TIME_EPOCH + tsc (ctx_cpu c)).

Definition KeQuerySystemTime : KernelExport :=
  mkKernelExport Ordinal.KE_QUERY_SYSTEM_TIME "KeQuerySystemTime" 4 false (
    out ← require (pointer_argument 0) KernelStatus.INVALID_PARAMETER;
    time ← ask virtual_system_time;
    put_u32 out (wrap32 time);;
    put_u32 (out +w 4) (wrap32 (Z.shiftr time 32));;
    mret KernelStatus.SUCCESS).

Definition KeInsertQueueDpc : KernelExport :=
  mkKernelExport Ordinal.KE_INSERT_QUEUE_DPC "KeInsertQueueDpc" 12 false (
    dpc ← require (stack_argument 0) 0;
    first ← require (stack_argument 1) 0;
    second ← require (stack_argument 2) 0;
    if dpc =? 0 then mret 0 else
    put_u32 (dpc +w 0x14) first;;
    put_u32 (dpc +w 0x18) second;;
    queued ← service (fun s => queue_dpc s dpc);
    mret (flag queued)).

Definition KeInitializeDpc : KernelExport :=
  mkKernelExport Ordinal.KE_INITIALIZE_DPC "KeInitializeDpc" 12 false (
    dpc ← require (stack_argument 0) KernelStatus.INVALID_PARAMETER;
    routine ← require (stack_argument 1) KernelStatus.INVALID_PARAMETER;
    deferred_context ← require (stack_argument 2) KernelStatus.INVALID_PARAMETER;
    if dpc =? 0 then mret KernelStatus.INVALID_PARAMETER else
    put_u32 dpc DPC_OBJECT_TYPE;;
    put_u32 (dpc +w 0x04) 0;;
    put_u32 (dpc +w 0x08) 0;;
    put_u32 (dpc +w 0x0C) routine;;
    put_u32 (dpc +w 0x10) deferred_context;;
    mret KernelStatus.SUCCESS).

(** [for offset in offsets { let _ = memory.write_u32(base + offset, value) }]. *)
Fixpoint put_fields (base : Z) (fields : list (Z * Z)) : Call unit :=
  match fields with
  | [] => mret tt
  | (offset, value) :: fields => put_u32 (base +w offset) value;; put_fields base fields
  end.

Definition KeInitializeTimerEx : KernelExport :=
  mkKernelExport Ordinal.KE_INITIALIZE_TIMER_EX "KeInitializeTimerEx" 8 false (
    timer ← require (stack_argument 0) KernelStatus.INVALID_PARAMETER;
    timer_type ← require (stack_argument 1) KernelStatus.INVALID_PARAMETER;
    if timer =? 0 then mret KernelStatus.INVALID_PARAMETER else
    let header :=
      Z.lor (Z.lor NOTIFICATION_TIMER_TYPE (Z.land timer_type 1)) (Z.shiftl 0x000A 16) in
    put_u32 timer header;;
    put_u32 (timer +w 0x04) 0;;
    put_u32 (timer +w 0x08) (timer +w 0x08);;
    put_u32 (timer +w 0x0C) (timer +w 0x08);;
    put_fields timer [(0x10, 0); (0x14, 0); (0x18, 0); (0x1C, 0); (0x20, 0); (0x24, 0)];;
    mret KernelStatus.SUCCESS).

Definition KeCancelTimer : KernelExport :=
  mkKernelExport Ordinal.KE_CANCEL_TIMER "KeCancelTimer" 4 false (
    timer ← require (pointer_argument 0) 0;
    cancelled ← service (fun s => cancel_timer s timer);
    mret (flag cancelled)).

Definition KeSetTimer : KernelExport :=
  mkKernelExport Ordinal.KE_SET_TIMER "KeSetTimer" 16 false (
    timer ← require (pointer_argument 0) KernelStatus.INVALID_PARAMETER;
    due_low ← ask (argument_or_zero 1);
    due_high ← ask (argument_or_zero 2);
    dpc ← ask (argument_or_zero 3);
    put_u32 (timer +w TIMER_DUE_TIME) due_low;;
    put_u32 (timer +w TIMER_DUE_TIME +w 4) due_high;;
    put_u32 (timer +w TIMER_DPC) dpc;;
    armed ← service (fun s => set_timer s timer (signed64 due_high due_low) 0 dpc);
    mret (flag armed)).

(** ** [irql.rs] *)

Definition KPCR_IRQL_OFFSET : Z := 0x24.
Definition DISPATCH_LEVEL : Z := 2.

Definition NV2A_ID : Z := 0x02A010DE.
Definition PCI_COMMAND : Z := 0x00000007.
Definition BAR0 : Z := 0xFD000000.
Definition BAR1 : Z := 0xF0000008.

(** One byte of the synthetic configuration space. *)
Definition config_byte (offset : Z) : Z :=
  let dword := offset / 4 in
  let byte_of v := nth (Z.to_nat (offset mod 4)) (to_le_bytes 4 v) 0 in
  if dword =? 0 then byte_of NV2A_ID
  else if dword =? 1 then byte_of PCI_COMMAND
  else if dword =? 4 then byte_of BAR0
  else if dword =? 5 then byte_of BAR1
  else 0.

Fixpoint put_config (register buffer offset : Z) (count : nat) : Call unit :=
  match count with
  | O => mret tt
  | S count =>
    put_bytes (buffer +w offset) [config_byte (register +w offset)];;
    put_config register buffer (offset + 1) count
  end.

Definition HalReadWritePCISpace : KernelExport :=
  mkKernelExport Ordinal.HAL_READ_WRITE_PCI_SPACE "HalReadWritePCISpace" 24 false (
    register ← ask (argument_or_zero 2);
    buffer ← ask (argument_or_zero 3);
    length ← ask (argument_or_zero 4);
    write ← ask (fun c => non_zero (Z.land (argument_or_zero 5 c) 0xFF));
    if (write : bool) || (buffer =? 0) then mret KernelStatus.SUCCESS else
    put_config register buffer 0 (Z.to_nat (Z.min length 256));;
    mret KernelStatus.SUCCESS).

Definition KeInitializeInterrupt : KernelExport :=
  mkKernelExport Ordinal.KE_INITIALIZE_INTERRUPT "KeInitializeInterrupt" 28 false (
    object ← ask (argument_or_zero 0);
    routine ← ask (argument_or_zero 1);
    service_context ← ask (argument_or_zero 2);
    vector ← ask (argument_or_zero 3);
    when (non_zero object && non_zero routine)
      (service_unit (fun s => set_interrupt_routine s
                                (mkInterruptRoutine object routine service_context vector)));;
    mret KernelStatus.SUCCESS).

Definition KeConnectInterrupt : KernelExport :=
  mkKernelExport Ordinal.KE_CONNECT_INTERRUPT "KeConnectInterrupt" 4 false (
    object ← ask (argument_or_zero 0);
    when (non_zero object) (service_unit (fun s => connect_interrupt s object true));;
    mret 1).

Definition KeDisconnectInterrupt : KernelExport :=
  mkKernelExport Ordinal.KE_DISCONNECT_INTERRUPT "KeDisconnectInterrupt" 4 false (mret 1).

Definition HalGetInterruptVector : KernelExport :=
  mkKernelExport Ordinal.HAL_GET_INTERRUPT_VECTOR "HalGetInterruptVector" 8 false (
    level ← ask (fun c => Z.land (argument_or_zero 0 c) 0xFF);
    irql_out ← ask (argument_or_zero 1);
    when (non_zero irql_out)
      (put_u32 irql_out (Z.max (saturating_sub 26 level) (DISPATCH_LEVEL + 1)));;
    mret (0x30 + level)).

Definition irql_cell (c : KernelCallContext) : GuestVa :=
  base (CpuState_segment (ctx_cpu c) Fs) +w KPCR_IRQL_OFFSET.

Definition exchange_irql (new_level : Z) : Call Z :=
  cell ← ask irql_cell;
  previous ← ask (fun c => Z.land (default 0 (ctx_read_u32 cell c)) 0xFF);
  put_u32 cell (Z.land new_level 0xFF);;
  mret previous.

Definition KfRaiseIrql : KernelExport :=
  mkKernelExport Ordinal.KF_RAISE_IRQL "KfRaiseIrql" 0 false (
    new_level ← ask (fun c => Z.land (gpr_at (ctx_cpu c) 1) 0xFF);
    exchange_irql new_level).

Definition KfLowerIrql : KernelExport :=
  mkKernelExport Ordinal.KF_LOWER_IRQL "KfLowerIrql" 0 false (
    new_level ← ask (fun c => Z.land (gpr_at (ctx_cpu c) 1) 0xFF);
    cell ← ask irql_cell;
    put_u32 cell new_level;;
    mret KernelStatus.SUCCESS).

Definition KeGetCurrentIrql : KernelExport :=
  mkKernelExport Ordinal.KE_GET_CURRENT_IRQL "KeGetCurrentIrql" 0 false (
    ask (fun c => Z.land (default 0 (ctx_read_u32 (irql_cell c) c)) 0xFF)).

Definition KeRaiseIrqlToDpcLevel : KernelExport :=
  mkKernelExport Ordinal.KE_RAISE_IRQL_TO_DPC_LEVEL "KeRaiseIrqlToDpcLevel" 0 false
    (exchange_irql DISPATCH_LEVEL).
End Exports.
