(* ===== verification/MemoryExports.v ===== *)
(** * Runtime-library, memory and console exports

    Models the exports of [exbawks-kernel/src/rtl.rs], [mm.rs], [vm.rs],
    [ex.rs], [xe.rs] and [av.rs]. *)

From Stdlib Require Import Ascii.
From stdpp Require Import strings.
From S2P Require Import Prelude GuestTypes PageTable Allocator GuestMemory SoftwareSpace CpuState KernelTypes HostFiles Runtime RuntimeMemory CoreScheduling KernelCalls ThreadExports.

#[local] Infix "+w" := wrapping_add32 (at level 50, left associativity).

Section Exports.
Context `{HostOs}.

(** ** [rtl.rs] *)

Definition LOCK_COUNT : Z := 0x10.
Definition RECURSION_COUNT : Z := 0x14.
Definition OWNING_THREAD : Z := 0x18.
Definition UNOWNED_LOCK_COUNT : Z := U32_MAX.
Definition ERROR_MR_MID_NOT_FOUND : Z := 317.

Definition current_thread (c : KernelCallContext) : option Z :=
  object_for_handle (services c) CURRENT_THREAD_PSEUDO_HANDLE.

(** The statuses with an error of their own, in the order of the match. *)
Definition dos_errors : list (Z * Z) :=
  [(0x00000000, 0); (0xC0000002, 120); (0xC0000005, 998); (0xC0000008, 6); (0xC000000D, 87);
   (0xC000000F, 2); (0xC0000011, 38); (0xC0000017, 8); (0xC0000023, 122); (0xC0000034, 2);
   (0xC0000035, 183); (0xC000003A, 3); (0xC000009A, 1450)].

Definition dos_error (status : Z) : Z :=
  match find (fun e => e.1 =? status) dos_errors with
  | Some (_, error) => error
  | None => if Z.shiftr status 31 =? 0 then 0 else ERROR_MR_MID_NOT_FOUND
  end.

Definition field (section offset : Z) (c : KernelCallContext) : Z :=
  default 0 (ctx_read_u32 (section +w offset) c).

Definition set_field (section offset value : Z) : Call unit :=
  put_u32 (section +w offset) value.

Definition RtlInitializeCriticalSection : KernelExport :=
  mkKernelExport Ordinal.RTL_INITIALIZE_CRITICAL_SECTION "RtlInitializeCriticalSection" 4 false (
    section ← require (pointer_argument 0) KernelStatus.INVALID_PARAMETER;
    set_field section LOCK_COUNT UNOWNED_LOCK_COUNT;;
    set_field section RECURSION_COUNT 0;;
    set_field section OWNING_THREAD 0;;
    set_field section 0x00 0;;
    set_field section 0x04 0;;
    set_field section 0x08 (section +w 0x08);;
    set_field section 0x0C (section +w 0x08);;
    mret KernelStatus.SUCCESS).

(** The owner and recursion count of a section just taken. *)
Definition take_section (section : Z) (owner : Z) : Call unit :=
  set_field section OWNING_THREAD owner;;
  set_field section RECURSION_COUNT 1.

Definition enter_critical_section : Call Z :=
  section ← require (pointer_argument 0) KernelStatus.INVALID_PARAMETER;
  lock ← ask (fun c => field section LOCK_COUNT c +w 1);
  set_field section LOCK_COUNT lock;;
  owner ← ask current_thread;
  if lock =? 0 then
    take_section section (default 0 owner);;
    mret KernelStatus.SUCCESS
  else
    held_by ← ask (field section OWNING_THREAD);
    if bool_decide (owner = Some held_by) then
      recursion ← ask (field section RECURSION_COUNT);
      set_field section RECURSION_COUNT (recursion +w 1);;
      mret KernelStatus.SUCCESS
    else
      outcome ← service (fun s => wait_for_dispatcher_object s section None);
      match outcome with
      | Pending => mret KernelStatus.SUCCESS
      | Signaled | TimedOut =>
        take_section section (default 0 owner);;
        mret KernelStatus.SUCCESS
      end.

Definition RtlEnterCriticalSection : KernelExport :=
  mkKernelExport Ordinal.RTL_ENTER_CRITICAL_SECTION "RtlEnterCriticalSection" 4 false
    enter_critical_section.

Definition leave_critical_section : Call Z :=
  section ← require (pointer_argument 0) KernelStatus.INVALID_PARAMETER;
  recursion ← ask (fun c => saturating_sub (field section RECURSION_COUNT c) 1);
  lock ← ask (fun c => wrapping_sub32 (field section LOCK_COUNT c) 1);
  set_field section RECURSION_COUNT recursion;;
  set_field section LOCK_COUNT lock;;
  when (recursion =? 0) (
    set_field section OWNING_THREAD 0;;
    when (negb (lock =? UNOWNED_LOCK_COUNT)) (
      next ← service (fun s => transfer_section_wake s section);
      match next with
      | Some kthread => take_section section kthread
      | None => service_unit (fun s => signal_dispatcher_object s section)
      end));;
  mret KernelStatus.SUCCESS.

Definition RtlLeaveCriticalSection : KernelExport :=
  mkKernelExport Ordinal.RTL_LEAVE_CRITICAL_SECTION "RtlLeaveCriticalSection" 4 false
    leave_critical_section.

Definition ansi_string_bytes (pointer : Z) (c : KernelCallContext) : option (list Z) :=
  word ← ctx_read_u32 pointer c;
  let length := Z.to_nat (Z.land word 0xFFFF) in
  buffer ← ctx_read_u32 (pointer +w 4) c;
  if (0 <? length)%nat then result_ok (mem_read (ctx_memory c) buffer length) else Some [].

Definition RtlEqualString : KernelExport :=
  mkKernelExport Ordinal.RTL_EQUAL_STRING "RtlEqualString" 12 false (
    first ← require (stack_argument 0) 0;
    second ← require (stack_argument 1) 0;
    case_insensitive ← ask (fun c => non_zero (Z.land (argument_or_zero 2 c) 0xFF));
    a ← require (ansi_string_bytes first) 0;
    b ← require (ansi_string_bytes second) 0;
    mret (flag (if (case_insensitive : bool)
                then eq_ignore_ascii_case (string_of_bytes a) (string_of_bytes b)
                else bool_decide (a = b)))).

Definition ANSI_LIMIT : Z := 0xFFFE.

(** The [while length < LIMIT] loop. *)
Fixpoint ansi_length (rounds : nat) (source length : Z) (c : KernelCallContext) : Z :=
  match rounds with
  | O => length
  | S rounds =>
    match mem_read (ctx_memory c) (source +w length) 1 with
    | Ok [byte] => if byte =? 0 then length else ansi_length rounds source (length + 1) c
    | _ => length
    end
  end.

Definition RtlInitAnsiString : KernelExport :=
  mkKernelExport Ordinal.RTL_INIT_ANSI_STRING "RtlInitAnsiString" 8 false (
    dest ← require (stack_argument 0) KernelStatus.INVALID_PARAMETER;
    source ← require (stack_argument 1) KernelStatus.INVALID_PARAMETER;
    if dest =? 0 then mret KernelStatus.INVALID_PARAMETER else
    length ← ask (fun c => if source =? 0 then 0
                           else ansi_length (Z.to_nat ANSI_LIMIT) source 0 c);
    let maximum := if source =? 0 then 0 else length + 1 in
    let packed := Z.lor (Z.land length 0xFFFF) (wrap32 (Z.shiftl (Z.land maximum 0xFFFF) 16)) in
    set_field dest 0 packed;;
    set_field dest 4 source;;
    mret KernelStatus.SUCCESS).

Definition RtlNtStatusToDosError : KernelExport :=
  mkKernelExport Ordinal.RTL_NT_STATUS_TO_DOS_ERROR "RtlNtStatusToDosError" 4 false (
    status ← ask (argument_or_zero 0);
    mret (dos_error status)).

(** ** [mm.rs] *)

Definition PHYSICAL_ADDRESS_MASK : Z := 0x1FFFFFFF.
Definition DEFAULT_CLAIM_BYTES : Z := 0x00110000.

(** A pointer or size answered in EAX, or zero on failure. *)
Definition or_null (r : result Svc.KernelServiceError Z) : Z := default 0 (result_ok r).

Definition MmClaimGpuInstanceMemory : KernelExport :=
  mkKernelExport Ordinal.MM_CLAIM_GPU_INSTANCE_MEMORY "MmClaimGpuInstanceMemory" 8 false (
    requested ← ask (argument_or_zero 0);
    padding_out ← ask (argument_or_zero 1);
    let bytes := if requested =? U32_MAX then DEFAULT_CLAIM_BYTES else requested in
    when (non_zero padding_out) (put_u32 padding_out 0);;
    r ← service (claim_gpu_instance (Z.max bytes GUEST_PAGE_SIZE));
    mret (or_null r)).

Definition MmQueryAllocationSize : KernelExport :=
  mkKernelExport Ordinal.MM_QUERY_ALLOCATION_SIZE "MmQueryAllocationSize" 4 false (
    address ← ask (argument_or_zero 0);
    r ← ask (fun c => pool_block_size (services c) address);
    mret (or_null r)).

Definition statistics : list Z :=
  [0x4000; 0x2000; 0x01000000; 0x02000000; 0x100; 0x100; 0x40; 0x800].

(** The fields of [MM_STATISTICS] that fit the caller's length. *)
Definition statistics_fields (length : Z) : list (Z * Z) :=
  filter (fun e => e.1 + 4 <= length)
    (imap (fun index value => (4 + Z.of_nat index * 4, value)) statistics).

Definition MmQueryStatistics : KernelExport :=
  mkKernelExport Ordinal.MM_QUERY_STATISTICS "MmQueryStatistics" 4 false (
    stats ← require (pointer_argument 0) KernelStatus.INVALID_PARAMETER;
    length ← require (ctx_read_u32 stats) KernelStatus.INVALID_PARAMETER;
    put_fields stats (statistics_fields length);;
    mret KernelStatus.SUCCESS).

Definition mm_allocate (bytes : Z) : Call Z :=
  r ← service (allocate_contiguous bytes);
  mret (or_null r).

Definition MmAllocateContiguousMemory : KernelExport :=
  mkKernelExport Ordinal.MM_ALLOCATE_CONTIGUOUS_MEMORY "MmAllocateContiguousMemory" 4 false (
    bytes ← ask (argument_or_zero 0);
    mm_allocate bytes).

Definition MmAllocateContiguousMemoryEx : KernelExport :=
  mkKernelExport Ordinal.MM_ALLOCATE_CONTIGUOUS_MEMORY_EX "MmAllocateContiguousMemoryEx" 20 false (
    bytes ← ask (argument_or_zero 0);
    mm_allocate bytes).

Definition MmFreeContiguousMemory : KernelExport :=
  mkKernelExport Ordinal.MM_FREE_CONTIGUOUS_MEMORY "MmFreeContiguousMemory" 4 false (
    address ← ask (argument_or_zero 0);
    when (non_zero address) (service (free_contiguous address);; mret tt);;
    mret KernelStatus.SUCCESS).

Definition MmPersistContiguousMemory : KernelExport :=
  mkKernelExport Ordinal.MM_PERSIST_CONTIGUOUS_MEMORY "MmPersistContiguousMemory" 12 false (
    address ← ask (argument_or_zero 0);
    size ← ask (argument_or_zero 1);
    persist ← ask (argument_or_zero 2);
    when (non_zero address && non_zero persist)
      (service_unit (fun s => persist_memory s address size));;
    mret KernelStatus.SUCCESS).

Definition physical_address (table : PageTable) (address : Z) : Z :=
  let descriptor := PageTable_get table (Z.shiftr address 12) in
  if bool_decide (PageDescriptor_kind descriptor = Ram)
  then Z.lor (wrap32 (Z.shiftl (PageDescriptor_physical_page descriptor) 12)) (Z.land address 0xFFF)
  else Z.land address PHYSICAL_ADDRESS_MASK.

Definition MmGetPhysicalAddress : KernelExport :=
  mkKernelExport Ordinal.MM_GET_PHYSICAL_ADDRESS "MmGetPhysicalAddress" 4 false (
    address ← ask (argument_or_zero 0);
    ask (fun c => physical_address (mem_page_table (ctx_memory c)) address)).

(** ** [vm.rs] *)

Definition NtFreeVirtualMemory : KernelExport :=
  mkKernelExport Ordinal.NT_FREE_VIRTUAL_MEMORY "NtFreeVirtualMemory" 12 false (
    base_pointer ← require (stack_argument 0) KernelStatus.INVALID_PARAMETER;
    size_pointer ← require (stack_argument 1) KernelStatus.INVALID_PARAMETER;
    if base_pointer =? 0 then mret KernelStatus.INVALID_PARAMETER else
    when (non_zero size_pointer) (
      size ← ask (fun c => default 0 (ctx_read_u32 size_pointer c));
      put_u32 size_pointer size);;
    mret KernelStatus.SUCCESS).

Definition NtAllocateVirtualMemory : KernelExport :=
  mkKernelExport Ordinal.NT_ALLOCATE_VIRTUAL_MEMORY "NtAllocateVirtualMemory" 20 false (
    base_ptr ← require (stack_argument 0) KernelStatus.INVALID_PARAMETER;
    size_ptr ← require (stack_argument 2) KernelStatus.INVALID_PARAMETER;
    allocation_type ← require (stack_argument 3) KernelStatus.INVALID_PARAMETER;
    protect ← require (stack_argument 4) KernelStatus.INVALID_PARAMETER;
    if (base_ptr =? 0) || (size_ptr =? 0) then mret KernelStatus.INVALID_PARAMETER else
    requested ← require (ctx_read_u32 base_ptr) KernelStatus.ACCESS_VIOLATION;
    size ← require (ctx_read_u32 size_ptr) KernelStatus.ACCESS_VIOLATION;
    if size =? 0 then mret KernelStatus.INVALID_PARAMETER else
    r ← service (allocate_virtual_memory
                   (mkVirtualAllocRequest requested size allocation_type protect));
    match r with
    | Ok allocation =>
      put_u32 base_ptr (alloc_base allocation);;
      put_u32 size_ptr (alloc_size allocation);;
      mret KernelStatus.SUCCESS
    | Err Svc.ResourceExhausted => mret KernelStatus.NO_MEMORY
    | Err _ => mret KernelStatus.INSUFFICIENT_RESOURCES
    end).

(** ** [ex.rs] *)

Definition REG_DWORD : Z := 4.
Definition AV_STANDARD_NTSC_M : Z := 0x00000100.
Definition GAME_REGION_NA : Z := 0x00000001.

Definition ExQueryPoolBlockSize : KernelExport :=
  mkKernelExport Ordinal.EX_QUERY_POOL_BLOCK_SIZE "ExQueryPoolBlockSize" 4 false (
    block ← ask (argument_or_zero 0);
    r ← ask (fun c => pool_block_size (services c) block);
    mret (or_null r)).

Definition allocate_pool : Call Z :=
  bytes ← ask (argument_or_zero 0);
  r ← service (allocate_contiguous bytes);
  mret (or_null r).

Definition ExAllocatePool : KernelExport :=
  mkKernelExport Ordinal.EX_ALLOCATE_POOL "ExAllocatePool" 4 false allocate_pool.

Definition ExAllocatePoolWithTag : KernelExport :=
  mkKernelExport Ordinal.EX_ALLOCATE_POOL_WITH_TAG "ExAllocatePoolWithTag" 8 false allocate_pool.

Definition ExFreePool : KernelExport :=
  mkKernelExport Ordinal.EX_FREE_POOL "ExFreePool" 4 false (mret KernelStatus.SUCCESS).

Definition setting_value (index : Z) : option Z :=
  snd <$> find (fun e => e.1 =? index)
    [(0x07, 1); (0x08, 0); (0x09, 0); (0x0A, 0); (0x0C, 0); (0x11, 0); (0x12, 1);
     (0x0103, AV_STANDARD_NTSC_M); (0x0104, GAME_REGION_NA)].

Definition ExQueryNonVolatileSetting : KernelExport :=
  mkKernelExport Ordinal.EX_QUERY_NON_VOLATILE_SETTING "ExQueryNonVolatileSetting" 20 false (
    index ← require (stack_argument 0) KernelStatus.INVALID_PARAMETER;
    type_ptr ← require (stack_argument 1) KernelStatus.INVALID_PARAMETER;
    value_ptr ← require (stack_argument 2) KernelStatus.INVALID_PARAMETER;
    value_len ← require (stack_argument 3) KernelStatus.INVALID_PARAMETER;
    result_len_ptr ← ask (argument_or_zero 4);
    when (non_zero type_ptr) (put_u32 type_ptr REG_DWORD);;
    when (non_zero result_len_ptr) (put_u32 result_len_ptr 4);;
    if value_len <? 4 then mret KernelStatus.BUFFER_TOO_SMALL else
    when (non_zero value_ptr) (put_u32 value_ptr (default 0 (setting_value index)));;
    mret KernelStatus.SUCCESS).

(** ** [xe.rs] *)

Definition SECTION_REF_COUNT : Z := 0x18.
Definition HEAD_REF_POINTER : Z := 0x1C.
Definition TAIL_REF_POINTER : Z := 0x20.

(** One more or one less of a [w]-bit count, saturating. *)
Definition adjust_count (w : Z) (up : bool) (count : Z) : Z :=
  if up then saturating_add w count 1 else saturating_sub count 1.

Definition adjust_shared_count (section offset : Z) (up : bool) : Call unit :=
  pointer ← ask (ctx_read_u32 (section +w offset));
  match pointer with
  | None => mret tt
  | Some pointer =>
    if pointer =? 0 then mret tt else
    bytes ← ask (fun c => mem_read (ctx_memory c) pointer 2);
    match bytes with
    | Err _ => mret tt
    | Ok bytes => put_bytes pointer (to_le_bytes 2 (adjust_count 16 up (from_le_bytes bytes)))
    end
  end.

Definition adjust_section (up : bool) : Call Z :=
  section ← require (pointer_argument 0) KernelStatus.INVALID_PARAMETER;
  count ← require (ctx_read_u32 (section +w SECTION_REF_COUNT)) KernelStatus.INVALID_PARAMETER;
  put_u32 (section +w SECTION_REF_COUNT) (adjust_count 32 up count);;
  adjust_shared_count section HEAD_REF_POINTER up;;
  adjust_shared_count section TAIL_REF_POINTER up;;
  mret KernelStatus.SUCCESS.

Definition XeLoadSection : KernelExport :=
  mkKernelExport Ordinal.XE_LOAD_SECTION "XeLoadSection" 4 false (adjust_section true).

Definition XeUnloadSection : KernelExport :=
  mkKernelExport Ordinal.XE_UNLOAD_SECTION "XeUnloadSection" 4 false (adjust_section false).

(** ** [av.rs] *)

Definition AV_QUERY_AV_CAPABILITIES : Z := 6.
Definition AV_CAPABILITIES : Z := 0x00400100.

Definition AvGetSavedDataAddress : KernelExport :=
  mkKernelExport Ordinal.AV_GET_SAVED_DATA_ADDRESS "AvGetSavedDataAddress" 0 false (mret 0).

Definition AvSendTVEncoderOption : KernelExport :=
  mkKernelExport Ordinal.AV_SEND_TV_ENCODER_OPTION "AvSendTVEncoderOption" 16 false (
    option ← ask (argument_or_zero 1);
    result_out ← ask (argument_or_zero 3);
    let value := if option =? AV_QUERY_AV_CAPABILITIES then AV_CAPABILITIES else 0 in
    when (non_zero result_out) (put_u32 result_out value);;
    mret KernelStatus.SUCCESS).

Definition AvSetDisplayMode : KernelExport :=
  mkKernelExport Ordinal.AV_SET_DISPLAY_MODE "AvSetDisplayMode" 24 false (
    mode ← ask (argument_or_zero 2);
    format ← ask (argument_or_zero 3);
    pitch ← ask (argument_or_zero 4);
    frame_buffer ← ask (argument_or_zero 5);
    service_unit (fun s => set_display_mode s (mkDisplayMode frame_buffer format pitch mode));;
    mret KernelStatus.SUCCESS).

Definition AvSetSavedDataAddress : KernelExport :=
  mkKernelExport Ordinal.AV_SET_SAVED_DATA_ADDRESS "AvSetSavedDataAddress" 4 false
    (mret KernelStatus.SUCCESS).
End Exports.
