(* ===== verification/FileExports.v ===== *)
(** * File and symbolic-link exports

    Models the exports of [exbawks-kernel/src/io.rs] and [file.rs].  The
    device panics on some paths ([HostFiles]): a body that opens such a path
    aborts, as it does when the host interrupts a read more often than the
    fuel of [read_file] allows. *)

From Stdlib Require Import Ascii.
From stdpp Require Import strings.
From S2P Require Import Prelude GuestTypes PageTable Allocator GuestMemory SoftwareSpace CpuState KernelTypes HostFiles Runtime RuntimeMemory CoreScheduling KernelCalls ThreadExports.

#[local] Infix "+w" := wrapping_add32 (at level 50, left associativity).

Section Exports.
Context `{HostOs}.
Context (fuel : nat).

(** A file service that also changes the host. *)
Definition host_service {A} (f : ThreadManager -> World -> option (A * ThreadManager * World))
  : Call A := fun c =>
  match f (services c) (host c) with
  | Some (a, s, w) => (Value a, with_host (with_services c s) w)
  | None => (Aborts, c)
  end.

(** ** [io.rs] *)

Definition MAX_STRING_BYTES : nat := 512.

(** The text of a guest string of at most [limit] bytes; [io.rs] and
    [file.rs] read it alike. *)
Definition bounded_string (limit : nat) (pointer : Z) (c : KernelCallContext) : option string :=
  word ← ctx_read_u32 pointer c;
  let length := Z.to_nat (Z.land word 0xFFFF) in
  buffer ← ctx_read_u32 (pointer +w 4) c;
  if (buffer =? 0) || (length =? 0)%nat then None else
  bytes ← result_ok (mem_read (ctx_memory c) buffer (length `min` limit));
  Some (from_utf8_lossy bytes).

Definition ansi_string (pointer : Z) (c : KernelCallContext) : option string :=
  if pointer =? 0 then None else bounded_string MAX_STRING_BYTES pointer c.

Definition IoCreateSymbolicLink : KernelExport :=
  mkKernelExport Ordinal.IO_CREATE_SYMBOLIC_LINK "IoCreateSymbolicLink" 8 false (
    name_ptr ← require (stack_argument 0) KernelStatus.INVALID_PARAMETER;
    target_ptr ← require (stack_argument 1) KernelStatus.INVALID_PARAMETER;
    name ← require (ansi_string name_ptr) KernelStatus.INVALID_PARAMETER;
    target ← require (ansi_string target_ptr) KernelStatus.INVALID_PARAMETER;
    service_unit (fun s => create_symbolic_link s name target);;
    mret KernelStatus.SUCCESS).

Definition IoDeleteSymbolicLink : KernelExport :=
  mkKernelExport Ordinal.IO_DELETE_SYMBOLIC_LINK "IoDeleteSymbolicLink" 4 false (
    name_ptr ← require (stack_argument 0) KernelStatus.INVALID_PARAMETER;
    name ← require (ansi_string name_ptr) KernelStatus.INVALID_PARAMETER;
    deleted ← service (fun s => delete_symbolic_link s name);
    mret (if (deleted : bool) then KernelStatus.SUCCESS else KernelStatus.OBJECT_NAME_NOT_FOUND)).

Definition NtOpenSymbolicLinkObject : KernelExport :=
  mkKernelExport Ordinal.NT_OPEN_SYMBOLIC_LINK_OBJECT "NtOpenSymbolicLinkObject" 8 false (
    handle_out ← require (stack_argument 0) KernelStatus.INVALID_PARAMETER;
    attributes ← require (stack_argument 1) KernelStatus.INVALID_PARAMETER;
    if (handle_out =? 0) || (attributes =? 0) then mret KernelStatus.INVALID_PARAMETER else
    name_pointer ← require (ctx_read_u32 (attributes +w 4)) KernelStatus.INVALID_PARAMETER;
    name ← require (ansi_string name_pointer) KernelStatus.OBJECT_NAME_NOT_FOUND;
    r ← service (fun s => open_symbolic_link s name);
    match r with
    | Ok handle => put_u32 handle_out handle;; mret KernelStatus.SUCCESS
    | Err _ => mret KernelStatus.OBJECT_NAME_NOT_FOUND
    end).

Definition NtQuerySymbolicLinkObject : KernelExport :=
  mkKernelExport Ordinal.NT_QUERY_SYMBOLIC_LINK_OBJECT "NtQuerySymbolicLinkObject" 12 false (
    handle ← require (stack_argument 0) KernelStatus.INVALID_PARAMETER;
    target_out ← require (stack_argument 1) KernelStatus.INVALID_PARAMETER;
    returned_out ← ask (argument_or_zero 2);
    target ← require (fun c => result_ok (query_symbolic_link (services c) handle))
               KernelStatus.INVALID_HANDLE;
    let bytes := as_bytes target in
    when (non_zero returned_out) (put_u32 returned_out (wrap32 (Z.of_nat (length bytes))));;
    packed ← require (ctx_read_u32 target_out) KernelStatus.INVALID_PARAMETER;
    let maximum := Z.land (Z.shiftr packed 16) 0xFFFF in
    buffer ← require (ctx_read_u32 (target_out +w 4)) KernelStatus.INVALID_PARAMETER;
    let copy := (length bytes `min` Z.to_nat maximum)%nat in
    when (non_zero buffer && (0 <? copy)%nat) (put_bytes buffer (take copy bytes));;
    put_u32 target_out (Z.lor (Z.land (Z.of_nat copy) 0xFFFF) (wrap32 (Z.shiftl maximum 16)));;
    mret (if (copy <? length bytes)%nat then KernelStatus.BUFFER_TOO_SMALL
          else KernelStatus.SUCCESS)).

(** ** [file.rs] *)

Definition MAX_PATH_BYTES : nat := 512.
Definition WRITE_ACCESS_BITS : Z := Z.lor (Z.lor (Z.lor 0x2 0x4) 0x40000000) 0x10000000.
Definition FILE_DIRECTORY_FILE : Z := 0x00000001.
Definition FILE_OPENED : Z := 1.
Definition FILE_CREATED : Z := 2.
Definition FILE_STANDARD_INFORMATION : Z := 5.
Definition FILE_POSITION_INFORMATION : Z := 14.
Definition FILE_NETWORK_OPEN_INFORMATION : Z := 34.
Definition ATTRIBUTE_NORMAL : Z := 0x80.
Definition ATTRIBUTE_DIRECTORY : Z := 0x10.

Definition disposition_writes (disposition : Z) : bool :=
  (disposition =? 0) || (disposition =? 4) || (disposition =? 5).
Definition disposition_creates (disposition : Z) : bool :=
  (disposition =? 0) || (disposition =? 2) || (disposition =? 3) || (disposition =? 5).

Definition object_path (attributes : Z) (c : KernelCallContext) : option string :=
  if attributes =? 0 then None else
  name ← ctx_read_u32 (attributes +w 0x04) c;
  if name =? 0 then None else bounded_string MAX_PATH_BYTES name c.

Definition write_io_status (iosb status info : Z) : Call unit :=
  if iosb =? 0 then mret tt else
  put_u32 iosb status;;
  put_u32 (iosb +w 0x04) info.

(** The answer of a failed file service. *)
Definition fail_io (iosb status : Z) : Call Z :=
  write_io_status iosb status 0;;
  mret status.

Definition buffer_too_small (iosb : Z) : Call Z := fail_io iosb KernelStatus.BUFFER_TOO_SMALL.

Definition write_u64 (address value : Z) : Call unit :=
  put_u32 address (wrap32 value);;
  put_u32 (address +w 4) (wrap32 (Z.shiftr value 32)).

Definition nt_open_file (handle_out attributes iosb : Z) (write create_ dir : bool) : Call Z :=
  if handle_out =? 0 then mret KernelStatus.INVALID_PARAMETER else
  path ← ask (object_path attributes);
  match path with
  | None => fail_io iosb KernelStatus.OBJECT_NAME_NOT_FOUND
  | Some path =>
    r ← host_service (fun s w => open_file s w (mkFileOpenRequest path write create_ dir));
    match r with
    | Ok opened =>
      put_u32 handle_out (opened_handle opened);;
      write_io_status iosb KernelStatus.SUCCESS
        (if opened_created opened then FILE_CREATED else FILE_OPENED);;
      mret KernelStatus.SUCCESS
    | Err error => fail_io iosb (open_error_status error)
    end
  end.

Definition NtOpenFile : KernelExport :=
  mkKernelExport Ordinal.NT_OPEN_FILE "NtOpenFile" 24 false (
    handle_out ← require (stack_argument 0) KernelStatus.INVALID_PARAMETER;
    access ← require (stack_argument 1) KernelStatus.INVALID_PARAMETER;
    attributes ← require (stack_argument 2) KernelStatus.INVALID_PARAMETER;
    iosb ← require (stack_argument 3) KernelStatus.INVALID_PARAMETER;
    options ← ask (argument_or_zero 5);
    nt_open_file handle_out attributes iosb (non_zero (Z.land access WRITE_ACCESS_BITS)) false
      (non_zero (Z.land options FILE_DIRECTORY_FILE))).

Definition NtCreateFile : KernelExport :=
  mkKernelExport Ordinal.NT_CREATE_FILE "NtCreateFile" 36 false (
    handle_out ← require (stack_argument 0) KernelStatus.INVALID_PARAMETER;
    access ← require (stack_argument 1) KernelStatus.INVALID_PARAMETER;
    attributes ← require (stack_argument 2) KernelStatus.INVALID_PARAMETER;
    iosb ← require (stack_argument 3) KernelStatus.INVALID_PARAMETER;
    disposition ← ask (fun c => default 1 (stack_argument 7 c));
    options ← ask (argument_or_zero 8);
    nt_open_file handle_out attributes iosb
      (non_zero (Z.land access WRITE_ACCESS_BITS) || disposition_writes disposition)
      (disposition_creates disposition)
      (non_zero (Z.land options FILE_DIRECTORY_FILE))).

Definition USE_FILE_POINTER_POSITION : Z := 0xFFFFFFFFFFFFFFFE.

(** The optional [ByteOffset] argument of a read or a write. *)
Definition byte_offset (c : KernelCallContext) : option Z :=
  let pointer := argument_or_zero 7 c in
  if pointer =? 0 then None else
  let low := default 0 (ctx_read_u32 pointer c) in
  let high := default 0 (ctx_read_u32 (pointer +w 4) c) in
  let value := Z.lor (Z.shiftl high 32) low in
  if value =? USE_FILE_POINTER_POSITION then None else Some value.

Definition NtReadFile : KernelExport :=
  mkKernelExport Ordinal.NT_READ_FILE "NtReadFile" 32 false (
    handle ← require (stack_argument 0) KernelStatus.INVALID_PARAMETER;
    iosb ← require (stack_argument 4) KernelStatus.INVALID_PARAMETER;
    buffer ← require (stack_argument 5) KernelStatus.INVALID_PARAMETER;
    length ← require (stack_argument 6) KernelStatus.INVALID_PARAMETER;
    offset ← ask byte_offset;
    r ← host_service (fun s w => '(r, s) ← read_file fuel s w handle offset length; Some (r, s, w));
    match r with
    | Ok bytes =>
      when (non_zero buffer && negb (bool_decide (bytes = []))) (put_bytes buffer bytes);;
      let read := wrap32 (Z.of_nat (List.length bytes)) in
      let status := if (read =? 0) && non_zero length then KernelStatus.END_OF_FILE
                    else KernelStatus.SUCCESS in
      write_io_status iosb status read;;
      mret status
    | Err error => fail_io iosb (open_error_status error)
    end).

Definition MAX_WRITE_BYTES : Z := 16 * 1024 * 1024.

Definition NtWriteFile : KernelExport :=
  mkKernelExport Ordinal.NT_WRITE_FILE "NtWriteFile" 32 false (
    handle ← require (stack_argument 0) KernelStatus.INVALID_PARAMETER;
    iosb ← require (stack_argument 4) KernelStatus.INVALID_PARAMETER;
    buffer ← require (stack_argument 5) KernelStatus.INVALID_PARAMETER;
    length ← require (stack_argument 6) KernelStatus.INVALID_PARAMETER;
    offset ← ask byte_offset;
    let want := Z.to_nat (Z.min length MAX_WRITE_BYTES) in
    bytes ← ask (fun c => if (0 <? want)%nat then mem_read (ctx_memory c) buffer want else Ok []);
    match bytes with
    | Err _ => fail_io iosb KernelStatus.ACCESS_VIOLATION
    | Ok bytes =>
      r ← host_service (fun s w => Some (write_file s w handle offset bytes));
      match r with
      | Ok written =>
        write_io_status iosb KernelStatus.SUCCESS written;;
        mret KernelStatus.SUCCESS
      | Err error => fail_io iosb (open_error_status error)
      end
    end).

(** [FileAllocationInformation] and [FileEndOfFileInformation]. *)
Definition sets_length (class : Z) : bool := (class =? 19) || (class =? 20).

Definition NtSetInformationFile : KernelExport :=
  mkKernelExport Ordinal.NT_SET_INFORMATION_FILE "NtSetInformationFile" 20 false (
    handle ← require (stack_argument 0) KernelStatus.INVALID_PARAMETER;
    iosb ← require (stack_argument 1) KernelStatus.INVALID_PARAMETER;
    info_in ← require (stack_argument 2) KernelStatus.INVALID_PARAMETER;
    length ← require (stack_argument 3) KernelStatus.INVALID_PARAMETER;
    class ← require (stack_argument 4) KernelStatus.INVALID_PARAMETER;
    if length <? 8 then buffer_too_small iosb else
    low ← ask (fun c => default 0 (ctx_read_u32 info_in c));
    high ← ask (fun c => default 0 (ctx_read_u32 (info_in +w 4) c));
    let value := Z.lor low (Z.shiftl high 32) in
    if negb ((class =? FILE_POSITION_INFORMATION) || sets_length class)
    then buffer_too_small iosb else
    outcome ← (if class =? FILE_POSITION_INFORMATION
               then service (fun s => set_file_position s handle value)
               else host_service (fun s w => let '(r, w) := set_file_length s w handle value in
                                             Some (r, s, w)));
    match outcome with
    | Ok _ => write_io_status iosb KernelStatus.SUCCESS 0;; mret KernelStatus.SUCCESS
    | Err Svc.InvalidHandle => mret KernelStatus.INVALID_HANDLE
    | Err _ => mret KernelStatus.ACCESS_DENIED
    end).

(** The three classes a query knows: what is stored and how many bytes. *)
Definition query_standard (info_out : Z) (info : FileInfo) : Call unit :=
  write_u64 info_out (info_size info);;
  write_u64 (info_out +w 8) (info_size info);;
  put_u32 (info_out +w 16) 1;;
  put_u32 (info_out +w 20) 0.

Definition query_network (info_out : Z) (info : FileInfo) : Call unit :=
  write_u64 (info_out +w 0) 0;;
  write_u64 (info_out +w 8) 0;;
  write_u64 (info_out +w 16) 0;;
  write_u64 (info_out +w 24) 0;;
  write_u64 (info_out +w 32) (info_size info);;
  write_u64 (info_out +w 40) (info_size info);;
  put_u32 (info_out +w 48) (if info_directory info then ATTRIBUTE_DIRECTORY else ATTRIBUTE_NORMAL);;
  put_u32 (info_out +w 52) 0.

(** The end of a successful query. *)
Definition finish_io (iosb written : Z) : Call Z :=
  write_io_status iosb KernelStatus.SUCCESS written;;
  mret KernelStatus.SUCCESS.

Definition NtQueryInformationFile : KernelExport :=
  mkKernelExport Ordinal.NT_QUERY_INFORMATION_FILE "NtQueryInformationFile" 20 false (
    handle ← require (stack_argument 0) KernelStatus.INVALID_PARAMETER;
    iosb ← require (stack_argument 1) KernelStatus.INVALID_PARAMETER;
    info_out ← require (stack_argument 2) KernelStatus.INVALID_PARAMETER;
    length ← require (stack_argument 3) KernelStatus.INVALID_PARAMETER;
    class ← require (stack_argument 4) KernelStatus.INVALID_PARAMETER;
    r ← ask (fun c => file_info (services c) (host c) handle);
    match r with
    | Err error => fail_io iosb (open_error_status error)
    | Ok info =>
      if class =? FILE_STANDARD_INFORMATION then
        if length <? 24 then buffer_too_small iosb
        else query_standard info_out info;; finish_io iosb 24
      else if class =? FILE_POSITION_INFORMATION then
        if length <? 8 then buffer_too_small iosb
        else write_u64 info_out (info_position info);; finish_io iosb 8
      else if class =? FILE_NETWORK_OPEN_INFORMATION then
        if length <? 56 then buffer_too_small iosb
        else query_network info_out info;; finish_io iosb 56
      else buffer_too_small iosb
    end).

Definition NtDeviceIoControlFile : KernelExport :=
  mkKernelExport Ordinal.NT_DEVICE_IO_CONTROL_FILE "NtDeviceIoControlFile" 40 false (
    iosb ← ask (argument_or_zero 4);
    output ← ask (argument_or_zero 8);
    output_len ← ask (argument_or_zero 9);
    when (non_zero output) (put_bytes output (replicate (Z.to_nat (Z.min output_len 4096)) 0));;
    finish_io iosb output_len).

Definition FILE_FS_SIZE_INFORMATION : Z := 3.
Definition FILE_FS_DEVICE_INFORMATION : Z := 4.
Definition VOLUME_BYTES_PER_SECTOR : Z := 512.
Definition VOLUME_SECTORS_PER_UNIT : Z := 32.
Definition VOLUME_TOTAL_UNITS : Z := 0x0004B000.
Definition VOLUME_FREE_UNITS : Z := 0x00010000.
Definition FILE_DEVICE_CD_ROM : Z := 0x00000002.
Definition DISC_CHARACTERISTICS : Z := Z.lor 0x00000001 0x00000002.

Definition NtQueryVolumeInformationFile : KernelExport :=
  mkKernelExport Ordinal.NT_QUERY_VOLUME_INFORMATION_FILE "NtQueryVolumeInformationFile" 20 false (
    iosb ← require (stack_argument 1) KernelStatus.INVALID_PARAMETER;
    info_out ← require (stack_argument 2) KernelStatus.INVALID_PARAMETER;
    length ← require (stack_argument 3) KernelStatus.INVALID_PARAMETER;
    class ← require (stack_argument 4) KernelStatus.INVALID_PARAMETER;
    if class =? FILE_FS_SIZE_INFORMATION then
      if length <? 24 then buffer_too_small iosb else
      write_u64 info_out VOLUME_TOTAL_UNITS;;
      write_u64 (info_out +w 8) VOLUME_FREE_UNITS;;
      put_u32 (info_out +w 16) VOLUME_SECTORS_PER_UNIT;;
      put_u32 (info_out +w 20) VOLUME_BYTES_PER_SECTOR;;
      finish_io iosb 24
    else if class =? FILE_FS_DEVICE_INFORMATION then
      if length <? 8 then buffer_too_small iosb else
      put_u32 info_out FILE_DEVICE_CD_ROM;;
      put_u32 (info_out +w 4) DISC_CHARACTERISTICS;;
      finish_io iosb 8
    else
      when (non_zero info_out)
        (put_bytes info_out (replicate (Z.to_nat (Z.min length 256)) 0));;
      finish_io iosb (Z.min length 256)).
End Exports.
