(* ===== verification/CoreTypes.v ===== *)
(** * Errors, configuration and the import table of the emulator core

    Models [exbawks-core/src/error.rs] with the error types it wraps
    ([exbawks-jit/src/error.rs], [exbawks-debug/src/source_map.rs],
    [exbawks-platform/src/error.rs]), [config.rs], and the thunk table reader
    of [thunk.rs]. *)

From stdpp Require Import strings.
From S2P Require Import Prelude GuestTypes PageTable GuestMemory Xbe BlockDecode.

Local Open Scope string_scope.
Local Open Scope Z_scope.

(** ** Errors *)

Inductive BackendKind : Type := DirectRewrite | Cranelift.

#[export] Instance BackendKind_eq_dec : EqDecision BackendKind.
Proof. solve_decision. Defined.

Inductive SourceMapError : Type :=
| EmptySourceRange (guest_ip : GuestVa)
| OverlappingRanges (guest_ip : GuestVa)
| DuplicateFaultSite (host_offset : Z).

Inductive PlatformError : Type :=
| PlatformUnsupported (what : string)
| InvalidArgument (what : string)
| Win32 (operation : string) (code : Z).

Inductive JitError : Type :=
| BackendUnavailable (backend : BackendKind) (reason : string)
| EmptyBlock
| BlockEndOverflow (start : GuestVa)
| MalformedExit (value : Z)
| MetadataOverflow (start : GuestVa)
| JitMetadata (error : SourceMapError)
| JitPlatform (error : PlatformError).

Inductive CoreError : Type :=
| CoreXbe (error : XbeError)
| CoreMemory (error : MemoryError)
| CoreDecode (error : BlockDecodeError)
| CoreJit (error : JitError)
| CoreInvalidConfiguration (what : string)
| ImageAlreadyLoaded
| NoImageLoaded
| Hypervisor (what : string)
| SectionRawExceedsVirtual (section_index raw_size virtual_size : Z)
| UnalignedSection (section_index : Z) (address : GuestVa)
| SectionByteOverlap (section_index : Z) (address : GuestVa)
| ImageLeavesGuestSpace (size_of_image : Z)
| RangeOutsideImage (section_index : option Z) (address : GuestVa)
| KernelThunkAddressOverflow (address : GuestVa)
| InvalidKernelThunk (address : GuestVa) (value : Z)
| KernelThunkLimit (limit : nat).

Definition lift_memory {A} (r : result MemoryError A) : result CoreError A := map_err CoreMemory r.
Definition lift_xbe {A} (r : result XbeError A) : result CoreError A := map_err CoreXbe r.

(** ** [config.rs] *)

Record EmulatorConfig : Type := mkEmulatorConfig {
  physical_memory_bytes : Z;
  config_backend : BackendKind;
  max_block_instructions : Z;
  max_block_bytes : Z;
  max_kernel_thunks : nat;
}.

Definition RETAIL_RAM_BYTES : Z := 64 * 1024 * 1024.
Definition DEVELOPMENT_RAM_BYTES : Z := 128 * 1024 * 1024.
Definition MAX_RAM_BYTES : Z := DEVELOPMENT_RAM_BYTES.

Definition physical_memory_is_aligned (c : EmulatorConfig) : bool :=
  negb (physical_memory_bytes c =? 0) && (physical_memory_bytes c mod GUEST_PAGE_SIZE =? 0) &&
  (physical_memory_bytes c <=? MAX_RAM_BYTES).

Definition EmulatorConfig_default : EmulatorConfig :=
  mkEmulatorConfig RETAIL_RAM_BYTES DirectRewrite 256 4096 (Z.to_nat 4096).

Definition validate_config (c : EmulatorConfig) : result CoreError unit :=
  if negb (physical_memory_is_aligned c)
  then Err (CoreInvalidConfiguration "physical_memory_bytes must use nonzero 4 KiB pages")
  else if max_block_instructions c =? 0
  then Err (CoreInvalidConfiguration "max_block_instructions must not be zero")
  else if max_block_bytes c =? 0
  then Err (CoreInvalidConfiguration "max_block_bytes must not be zero")
  else if (max_kernel_thunks c =? 0)%nat
  then Err (CoreInvalidConfiguration "max_kernel_thunks must not be zero")
  else Ok tt.

(** ** [thunk.rs] *)

Definition ORDINAL_BIT : Z := 0x80000000.

Record KernelThunk : Type := mkKernelThunk { thunk_slot : GuestVa; thunk_ordinal : Z }.

Section Thunks.
Context {M : Type} `{GuestMemory M}.

(** The [for] loop, [limit] rounds from [slot] on. *)
Fixpoint read_thunks (mem : M) (slot : GuestVa) (limit : nat) : result CoreError (option (list KernelThunk)) :=
  match limit with
  | O => Ok None
  | S limit =>
    value ← lift_memory (mem_read_u32 mem slot);
    if value =? 0 then Ok (Some [])
    else if negb (has_bits value ORDINAL_BIT) || has_bits value 0x7FFF0000
    then Err (InvalidKernelThunk slot value)
    else
      next ← ok_or (GuestVa_checked_add slot 4) (KernelThunkAddressOverflow slot);
      rest ← read_thunks mem next limit;
      Ok (option_map (cons (mkKernelThunk slot (wrap16 value))) rest)
  end.

Definition KernelThunkTable_read (mem : M) (start : GuestVa) (limit : nat)
  : result CoreError (list KernelThunk) :=
  if (limit =? 0)%nat
  then Err (CoreInvalidConfiguration "max_kernel_thunks must not be zero")
  else
    found ← read_thunks mem start limit;
    match found with
    | Some entries => Ok entries
    | None => Err (KernelThunkLimit limit)
    end.
End Thunks.
