(* ===== verification/KernelDispatch.v ===== *)
(** * Registering and dispatching kernel exports

    Models [register_startup_exports] of [exbawks-kernel/src/startup.rs] with
    the registrations of the other export files, and the kernel gate of
    [exbawks-core/src/emulator.rs]: a call through a patched import slot or a
    jump to a gate address runs one export, pops its frame and performs the
    scheduling it asked for.

    The thread manager is present, as it is once a title is loaded; tracing
    and the PRAMIN redirect of the graphics devices are elsewhere.  A
    dispatch answers [None] where its export does not come back. *)

From Stdlib Require Import Ascii.
From stdpp Require Import strings.
From S2P Require Import Prelude GuestTypes PageTable Allocator GuestMemory SoftwareSpace CpuState Iced RegisterSubset CoreTypes KernelTypes HostFiles Runtime RuntimeMemory CoreScheduling KernelCalls ThreadExports MemoryExports FileExports.

Section Dispatch.
Context `{HostOs}.

(** ** Registration *)

Definition rtl_exports : list KernelExport :=
  [RtlInitializeCriticalSection; RtlEnterCriticalSection; RtlLeaveCriticalSection;
   RtlNtStatusToDosError; RtlInitAnsiString; RtlEqualString].
Definition ke_exports : list KernelExport :=
  [KeInitializeDpc; KeInsertQueueDpc; KeCancelTimer; KeInitializeTimerEx; KeSetTimer;
   KeQuerySystemTime].
Definition ex_exports : list KernelExport :=
  [ExQueryNonVolatileSetting; ExAllocatePool; ExAllocatePoolWithTag; ExFreePool;
   ExQueryPoolBlockSize].
Definition vm_exports : list KernelExport := [NtAllocateVirtualMemory; NtFreeVirtualMemory].
Definition file_exports (fuel : nat) : list KernelExport :=
  [NtOpenFile; NtCreateFile; NtReadFile fuel; NtQueryInformationFile; NtSetInformationFile;
   NtDeviceIoControlFile; NtQueryVolumeInformationFile; NtWriteFile].
Definition mm_exports : list KernelExport :=
  [MmAllocateContiguousMemory; MmAllocateContiguousMemoryEx; MmFreeContiguousMemory;
   MmGetPhysicalAddress; MmPersistContiguousMemory; MmQueryStatistics; MmQueryAllocationSize;
   MmClaimGpuInstanceMemory].
Definition io_exports : list KernelExport :=
  [IoCreateSymbolicLink; IoDeleteSymbolicLink; NtOpenSymbolicLinkObject;
   NtQuerySymbolicLinkObject].
Definition xe_exports : list KernelExport := [XeLoadSection; XeUnloadSection].
Definition irql_exports : list KernelExport :=
  [KfRaiseIrql; KfLowerIrql; KeGetCurrentIrql; KeRaiseIrqlToDpcLevel; HalGetInterruptVector;
   KeInitializeInterrupt; KeConnectInterrupt; KeDisconnectInterrupt; HalReadWritePCISpace].
Definition av_exports : list KernelExport :=
  [AvGetSavedDataAddress; AvSendTVEncoderOption; AvSetDisplayMode; AvSetSavedDataAddress].
Definition dispatcher_exports : list KernelExport := [KeSetEvent; KeWaitForSingleObject].
Definition mutant_exports : list KernelExport := [NtCreateMutant; NtReleaseMutant].

Definition BENIGN_SUCCESS : list KernelExport :=
  [SuccessExport Ordinal.HAL_REGISTER_SHUTDOWN_NOTIFICATION "HalRegisterShutdownNotification" 8;
   SuccessExport Ordinal.KE_STALL_EXECUTION_PROCESSOR "KeStallExecutionProcessor" 4;
   SuccessExport Ordinal.MM_LOCK_UNLOCK_BUFFER_PAGES "MmLockUnlockBufferPages" 12].

(** The exports in the order of their registration. *)
Definition startup_exports (fuel : nat) : list KernelExport :=
  [DbgPrint; HalReturnToFirmware; PsCreateSystemThreadEx; PsTerminateSystemThread; NtClose;
   NtCreateEvent; NtSetEvent; NtResumeThread; NtSuspendThread; NtYieldExecution;
   ObReferenceObjectByHandle; ObfDereferenceObject; NtWaitForSingleObject;
   NtWaitForSingleObjectEx; NtWaitForMultipleObjectsEx]
  ++ rtl_exports ++ ke_exports ++ ex_exports ++ vm_exports ++ file_exports fuel ++ mm_exports
  ++ io_exports ++ xe_exports ++ irql_exports ++ av_exports ++ dispatcher_exports
  ++ mutant_exports ++ BENIGN_SUCCESS ++ [KeDelayExecutionThread].

Definition register_startup_exports (fuel : nat) (registry : gmap Z KernelExport)
  : result KernelError (gmap Z KernelExport) := register_all registry (startup_exports fuel).

(** ** The gate *)

Inductive GateAssist : Type :=
| Dispatched (ordinal : Z) (resume : GuestVa) (status : Z) (stop : option StopReason)
| MissingExport (ordinal : Z)
| NotAGateCall.

(** The emulator's part of a dispatch: processor, manager, host. *)
Record GateState : Type := mkGateState {
  gate_cpu : CpuState;
  gate_threads : ThreadManager;
  gate_host : World;
}.

Definition gate_memory (g : GateState) : SoftwareAddressSpace := memory (gate_threads g).

Definition dispatch_registered_export (g : GateState) (o : Z) (export : KernelExport)
  : option (result CoreError GateAssist * GateState) :=
  let context := mkKernelCallContext (gate_cpu g) (gate_threads g) (gate_host g) None in
  match run_call (call export) context with
  | (None, _) => None
  | (Some status, c) =>
    Some (
      match mem_read_u32 (ctx_memory c) (gpr_at (ctx_cpu c) 4) with
      | Err e => (Err (CoreMemory e), mkGateState (ctx_cpu c) (services c) (host c))
      | Ok return_address =>
        let esp := wrapping_add32 (wrapping_add32 (gpr_at (ctx_cpu c) 4) 4) (stack_bytes export) in
        let cpu := with_eip (set_gpr (ctx_cpu c) 4 esp) return_address in
        let cpu := set_gpr cpu 0 status in
        (Ok (Dispatched o return_address status (stop_request c)),
         mkGateState cpu (services c) (host c))
      end)
  end.

Definition gate_call_with (registry : gmap Z KernelExport) (g : GateState) (instruction : Instruction)
  : option (result CoreError GateAssist * GateState) :=
  let address := eip (gate_cpu g) in
  match Subset.indirect_call_slot instruction with
  | None => Some (Ok NotAGateCall, g)
  | Some slot =>
    match mem_read_u32 (gate_memory g) slot with
    | Err e => Some (Err (CoreMemory e), g)
    | Ok target =>
      match gate_ordinal target with
      | None => Some (Ok NotAGateCall, g)
      | Some o =>
        match registry !! o with
        | None => Some (Ok (MissingExport o), g)
        | Some export =>
          match checked_add 32 address (len instruction) with
          | None => Some (Err (KernelThunkAddressOverflow address), g)
          | Some resume =>
            let pushed_esp := wrapping_sub32 (gpr_at (gate_cpu g) 4) 4 in
            match mem_write_u32 (gate_memory g) pushed_esp resume with
            | (Err e, mem) =>
              Some (Err (CoreMemory e),
                    mkGateState (gate_cpu g) (with_memory (gate_threads g) mem) (gate_host g))
            | (Ok _, mem) =>
              dispatch_registered_export
                (mkGateState (set_gpr (gate_cpu g) 4 pushed_esp)
                   (with_memory (gate_threads g) mem) (gate_host g)) o export
            end
          end
        end
      end
    end
  end.

(** What the run loop does with a dispatch: [interrupted] is the context an
    interrupt routine displaced, if one runs. *)
Definition after_dispatch (assist : GateAssist) (g : GateState) (interrupted : option CpuState)
  : option StopReason * Emulator :=
  let core := mkEmulator (gate_cpu g) (Some (gate_threads g)) interrupted in
  match assist with
  | Dispatched _ _ _ (Some stop) => (Some stop, core)
  | Dispatched o _ status None =>
    if status =? KernelStatus.NOT_IMPLEMENTED
    then (Some (UnimplementedKernelExport o), core)
    else apply_pending_scheduling core
  | MissingExport o => (Some (MissingKernelExport o), core)
  | NotAGateCall => (None, core)
  end.

Definition dispatch_gate_by_eip (registry : gmap Z KernelExport) (g : GateState) (o : Z)
    (interrupted : option CpuState)
  : option (result CoreError (option StopReason) * Emulator * World) :=
  match registry !! o with
  | None => Some (Ok (Some (MissingKernelExport o)),
                  mkEmulator (gate_cpu g) (Some (gate_threads g)) interrupted, gate_host g)
  | Some export =>
    '(r, g) ← dispatch_registered_export g o export;
    Some (match r with
          | Err e => (Err e, mkEmulator (gate_cpu g) (Some (gate_threads g)) interrupted,
                      gate_host g)
          | Ok assist =>
            let '(stop, core) := after_dispatch assist g interrupted in (Ok stop, core, gate_host g)
          end)
  end.
End Dispatch.
