(* ===== verification/Ordinals.v ===== *)
(** * The kernel ordinal table

    Models [exbawks-kernel/src/ordinals.rs]: every kernel export with its
    linkage, its calling convention and the argument bytes it pops, and the
    binary search that finds one.  The startup exports are checked against it. *)

From Stdlib Require Import Ascii.
From stdpp Require Import strings sorting.
From S2P Require Import Prelude Slices KernelTypes HostFiles HostFileTheorems KernelCalls ThreadExports MemoryExports FileExports KernelDispatch.

Local Open Scope string_scope.
Local Open Scope Z_scope.

Inductive ExportKind : Type := Function | Data.
Inductive CallingConvention : Type := Stdcall | Fastcall | Cdecl.

#[export] Instance ExportKind_eq_dec : EqDecision ExportKind.
Proof. solve_decision. Defined.
#[export] Instance CallingConvention_eq_dec : EqDecision CallingConvention.
Proof. solve_decision. Defined.

Record KernelOrdinalInfo : Type := mkKernelOrdinalInfo {
  info_ordinal : Z;
  info_name : string;
  kind : ExportKind;
  convention : option CallingConvention;
  info_stack_bytes : Z;
}.

Definition stdcall (ordinal : Z) (name : string) (stack_bytes : Z) : KernelOrdinalInfo :=
  mkKernelOrdinalInfo ordinal name Function (Some Stdcall) stack_bytes.
Definition fastcall (ordinal : Z) (name : string) (stack_bytes : Z) : KernelOrdinalInfo :=
  mkKernelOrdinalInfo ordinal name Function (Some Fastcall) stack_bytes.
Definition cdecl (ordinal : Z) (name : string) : KernelOrdinalInfo :=
  mkKernelOrdinalInfo ordinal name Function (Some Cdecl) 0.
Definition data (ordinal : Z) (name : string) : KernelOrdinalInfo :=
  mkKernelOrdinalInfo ordinal name Data None 0.

Definition KERNEL_ORDINALS : list KernelOrdinalInfo := [
  stdcall 1 "AvGetSavedDataAddress" 0; stdcall 2 "AvSendTVEncoderOption" 16;
  stdcall 3 "AvSetDisplayMode" 24; stdcall 4 "AvSetSavedDataAddress" 4; stdcall 5 "DbgBreakPoint" 0;
  stdcall 6 "DbgBreakPointWithStatus" 4; stdcall 7 "DbgLoadImageSymbols" 12; cdecl 8 "DbgPrint";
  stdcall 9 "HalReadSMCTrayState" 8; stdcall 10 "DbgPrompt" 12;
  stdcall 11 "DbgUnLoadImageSymbols" 12; stdcall 12 "ExAcquireReadWriteLockExclusive" 4;
  stdcall 13 "ExAcquireReadWriteLockShared" 4; stdcall 14 "ExAllocatePool" 4;
  stdcall 15 "ExAllocatePoolWithTag" 8; data 16 "ExEventObjectType"; stdcall 17 "ExFreePool" 4;
  stdcall 18 "ExInitializeReadWriteLock" 4; stdcall 19 "ExInterlockedAddLargeInteger" 16;
  fastcall 20 "ExInterlockedAddLargeStatistic" 0; fastcall 21 "ExInterlockedCompareExchange64" 4;
  data 22 "ExMutantObjectType"; stdcall 23 "ExQueryPoolBlockSize" 4;
  stdcall 24 "ExQueryNonVolatileSetting" 20; stdcall 25 "ExReadWriteRefurbInfo" 12;
  stdcall 26 "ExRaiseException" 4; stdcall 27 "ExRaiseStatus" 4;
  stdcall 28 "ExReleaseReadWriteLock" 4; stdcall 29 "ExSaveNonVolatileSetting" 16;
  data 30 "ExSemaphoreObjectType"; data 31 "ExTimerObjectType";
  fastcall 32 "ExfInterlockedInsertHeadList" 0; fastcall 33 "ExfInterlockedInsertTailList" 0;
  fastcall 34 "ExfInterlockedRemoveHeadList" 0; stdcall 35 "FscGetCacheSize" 0;
  stdcall 36 "FscInvalidateIdleBlocks" 0; stdcall 37 "FscSetCacheSize" 4;
  fastcall 38 "HalClearSoftwareInterrupt" 0; stdcall 39 "HalDisableSystemInterrupt" 4;
  data 40 "HalDiskCachePartitionCount"; data 41 "HalDiskModelNumber"; data 42 "HalDiskSerialNumber";
  stdcall 43 "HalEnableSystemInterrupt" 8; stdcall 44 "HalGetInterruptVector" 8;
  stdcall 45 "HalReadSMBusValue" 16; stdcall 46 "HalReadWritePCISpace" 24;
  stdcall 47 "HalRegisterShutdownNotification" 8; fastcall 48 "HalRequestSoftwareInterrupt" 0;
  stdcall 49 "HalReturnToFirmware" 4; stdcall 50 "HalWriteSMBusValue" 16;
  fastcall 51 "InterlockedCompareExchange" 4; fastcall 52 "InterlockedDecrement" 0;
  fastcall 53 "InterlockedIncrement" 0; fastcall 54 "InterlockedExchange" 0;
  fastcall 55 "InterlockedExchangeAdd" 0; fastcall 56 "InterlockedFlushSList" 0;
  fastcall 57 "InterlockedPopEntrySList" 0; fastcall 58 "InterlockedPushEntrySList" 0;
  stdcall 59 "IoAllocateIrp" 4; stdcall 60 "IoBuildAsynchronousFsdRequest" 24;
  stdcall 61 "IoBuildDeviceIoControlRequest" 36; stdcall 62 "IoBuildSynchronousFsdRequest" 28;
  stdcall 63 "IoCheckShareAccess" 20; data 64 "IoCompletionObjectType";
  stdcall 65 "IoCreateDevice" 24; stdcall 66 "IoCreateFile" 40; stdcall 67 "IoCreateSymbolicLink" 8;
  stdcall 68 "IoDeleteDevice" 4; stdcall 69 "IoDeleteSymbolicLink" 4; data 70 "IoDeviceObjectType";
  data 71 "IoFileObjectType"; stdcall 72 "IoFreeIrp" 4; stdcall 73 "IoInitializeIrp" 12;
  stdcall 74 "IoInvalidDeviceRequest" 8; stdcall 75 "IoQueryFileInformation" 20;
  stdcall 76 "IoQueryVolumeInformation" 20; stdcall 77 "IoQueueThreadIrp" 4;
  stdcall 78 "IoRemoveShareAccess" 8; stdcall 79 "IoSetIoCompletion" 20;
  stdcall 80 "IoSetShareAccess" 16; stdcall 81 "IoStartNextPacket" 4;
  stdcall 82 "IoStartNextPacketByKey" 8; stdcall 83 "IoStartPacket" 12;
  stdcall 84 "IoSynchronousDeviceIoControlRequest" 32; stdcall 85 "IoSynchronousFsdRequest" 20;
  fastcall 86 "IofCallDriver" 0; fastcall 87 "IofCompleteRequest" 0; data 88 "KdDebuggerEnabled";
  data 89 "KdDebuggerNotPresent"; stdcall 90 "IoDismountVolume" 4;
  stdcall 91 "IoDismountVolumeByName" 4; stdcall 92 "KeAlertResumeThread" 4;
  stdcall 93 "KeAlertThread" 8; stdcall 94 "KeBoostPriorityThread" 8; stdcall 95 "KeBugCheck" 4;
  stdcall 96 "KeBugCheckEx" 20; stdcall 97 "KeCancelTimer" 4; stdcall 98 "KeConnectInterrupt" 4;
  stdcall 99 "KeDelayExecutionThread" 12; stdcall 100 "KeDisconnectInterrupt" 4;
  stdcall 101 "KeEnterCriticalRegion" 0; data 102 "MmGlobalData"; stdcall 103 "KeGetCurrentIrql" 0;
  stdcall 104 "KeGetCurrentThread" 0; stdcall 105 "KeInitializeApc" 28;
  stdcall 106 "KeInitializeDeviceQueue" 4; stdcall 107 "KeInitializeDpc" 12;
  stdcall 108 "KeInitializeEvent" 12; stdcall 109 "KeInitializeInterrupt" 28;
  stdcall 110 "KeInitializeMutant" 8; stdcall 111 "KeInitializeQueue" 8;
  stdcall 112 "KeInitializeSemaphore" 12; stdcall 113 "KeInitializeTimerEx" 8;
  stdcall 114 "KeInsertByKeyDeviceQueue" 12; stdcall 115 "KeInsertDeviceQueue" 8;
  stdcall 116 "KeInsertHeadQueue" 8; stdcall 117 "KeInsertQueue" 8;
  stdcall 118 "KeInsertQueueApc" 16; stdcall 119 "KeInsertQueueDpc" 12; data 120 "KeInterruptTime";
  stdcall 121 "KeIsExecutingDpc" 0; stdcall 122 "KeLeaveCriticalRegion" 0;
  stdcall 123 "KePulseEvent" 12; stdcall 124 "KeQueryBasePriorityThread" 4;
  stdcall 125 "KeQueryInterruptTime" 0; stdcall 126 "KeQueryPerformanceCounter" 0;
  stdcall 127 "KeQueryPerformanceFrequency" 0; stdcall 128 "KeQuerySystemTime" 4;
  stdcall 129 "KeRaiseIrqlToDpcLevel" 0; stdcall 130 "KeRaiseIrqlToSynchLevel" 0;
  stdcall 131 "KeReleaseMutant" 16; stdcall 132 "KeReleaseSemaphore" 16;
  stdcall 133 "KeRemoveByKeyDeviceQueue" 8; stdcall 134 "KeRemoveDeviceQueue" 4;
  stdcall 135 "KeRemoveEntryDeviceQueue" 8; stdcall 136 "KeRemoveQueue" 12;
  stdcall 137 "KeRemoveQueueDpc" 4; stdcall 138 "KeResetEvent" 4;
  stdcall 139 "KeRestoreFloatingPointState" 4; stdcall 140 "KeResumeThread" 4;
  stdcall 141 "KeRundownQueue" 4; stdcall 142 "KeSaveFloatingPointState" 4;
  stdcall 143 "KeSetBasePriorityThread" 8; stdcall 144 "KeSetDisableBoostThread" 8;
  stdcall 145 "KeSetEvent" 12; stdcall 146 "KeSetEventBoostPriority" 8;
  stdcall 147 "KeSetPriorityProcess" 8; stdcall 148 "KeSetPriorityThread" 8;
  stdcall 149 "KeSetTimer" 16; stdcall 150 "KeSetTimerEx" 20;
  stdcall 151 "KeStallExecutionProcessor" 4; stdcall 152 "KeSuspendThread" 4;
  stdcall 153 "KeSynchronizeExecution" 12; data 154 "KeSystemTime";
  stdcall 155 "KeTestAlertThread" 4; data 156 "KeTickCount"; data 157 "KeTimeIncrement";
  stdcall 158 "KeWaitForMultipleObjects" 32; stdcall 159 "KeWaitForSingleObject" 20;
  fastcall 160 "KfRaiseIrql" 0; fastcall 161 "KfLowerIrql" 0; data 162 "KiBugCheckData";
  fastcall 163 "KiUnlockDispatcherDatabase" 0; data 164 "LaunchDataPage";
  stdcall 165 "MmAllocateContiguousMemory" 4; stdcall 166 "MmAllocateContiguousMemoryEx" 20;
  stdcall 167 "MmAllocateSystemMemory" 8; stdcall 168 "MmClaimGpuInstanceMemory" 8;
  stdcall 169 "MmCreateKernelStack" 8; stdcall 170 "MmDeleteKernelStack" 8;
  stdcall 171 "MmFreeContiguousMemory" 4; stdcall 172 "MmFreeSystemMemory" 8;
  stdcall 173 "MmGetPhysicalAddress" 4; stdcall 174 "MmIsAddressValid" 4;
  stdcall 175 "MmLockUnlockBufferPages" 12; stdcall 176 "MmLockUnlockPhysicalPage" 8;
  stdcall 177 "MmMapIoSpace" 12; stdcall 178 "MmPersistContiguousMemory" 12;
  stdcall 179 "MmQueryAddressProtect" 4; stdcall 180 "MmQueryAllocationSize" 4;
  stdcall 181 "MmQueryStatistics" 4; stdcall 182 "MmSetAddressProtect" 12;
  stdcall 183 "MmUnmapIoSpace" 8; stdcall 184 "NtAllocateVirtualMemory" 20;
  stdcall 185 "NtCancelTimer" 8; stdcall 186 "NtClearEvent" 4; stdcall 187 "NtClose" 4;
  stdcall 188 "NtCreateDirectoryObject" 8; stdcall 189 "NtCreateEvent" 16;
  stdcall 190 "NtCreateFile" 36; stdcall 191 "NtCreateIoCompletion" 16;
  stdcall 192 "NtCreateMutant" 12; stdcall 193 "NtCreateSemaphore" 16;
  stdcall 194 "NtCreateTimer" 12; stdcall 195 "NtDeleteFile" 4;
  stdcall 196 "NtDeviceIoControlFile" 40; stdcall 197 "NtDuplicateObject" 12;
  stdcall 198 "NtFlushBuffersFile" 8; stdcall 199 "NtFreeVirtualMemory" 12;
  stdcall 200 "NtFsControlFile" 40; stdcall 201 "NtOpenDirectoryObject" 8;
  stdcall 202 "NtOpenFile" 24; stdcall 203 "NtOpenSymbolicLinkObject" 8;
  stdcall 204 "NtProtectVirtualMemory" 16; stdcall 205 "NtPulseEvent" 8;
  stdcall 206 "NtQueueApcThread" 20; stdcall 207 "NtQueryDirectoryFile" 40;
  stdcall 208 "NtQueryDirectoryObject" 24; stdcall 209 "NtQueryEvent" 8;
  stdcall 210 "NtQueryFullAttributesFile" 8; stdcall 211 "NtQueryInformationFile" 20;
  stdcall 212 "NtQueryIoCompletion" 8; stdcall 213 "NtQueryMutant" 8;
  stdcall 214 "NtQuerySemaphore" 8; stdcall 215 "NtQuerySymbolicLinkObject" 12;
  stdcall 216 "NtQueryTimer" 8; stdcall 217 "NtQueryVirtualMemory" 8;
  stdcall 218 "NtQueryVolumeInformationFile" 20; stdcall 219 "NtReadFile" 32;
  stdcall 220 "NtReadFileScatter" 32; stdcall 221 "NtReleaseMutant" 8;
  stdcall 222 "NtReleaseSemaphore" 12; stdcall 223 "NtRemoveIoCompletion" 20;
  stdcall 224 "NtResumeThread" 8; stdcall 225 "NtSetEvent" 8; stdcall 226 "NtSetInformationFile" 20;
  stdcall 227 "NtSetIoCompletion" 20; stdcall 228 "NtSetSystemTime" 8;
  stdcall 229 "NtSetTimerEx" 32; stdcall 230 "NtSignalAndWaitForSingleObjectEx" 20;
  stdcall 231 "NtSuspendThread" 8; stdcall 232 "NtUserIoApcDispatcher" 12;
  stdcall 233 "NtWaitForSingleObject" 12; stdcall 234 "NtWaitForSingleObjectEx" 16;
  stdcall 235 "NtWaitForMultipleObjectsEx" 24; stdcall 236 "NtWriteFile" 32;
  stdcall 237 "NtWriteFileGather" 32; stdcall 238 "NtYieldExecution" 0;
  stdcall 239 "ObCreateObject" 16; data 240 "ObDirectoryObjectType";
  stdcall 241 "ObInsertObject" 16; stdcall 242 "ObMakeTemporaryObject" 4;
  stdcall 243 "ObOpenObjectByName" 16; stdcall 244 "ObOpenObjectByPointer" 12;
  data 245 "ObpObjectHandleTable"; stdcall 246 "ObReferenceObjectByHandle" 12;
  stdcall 247 "ObReferenceObjectByName" 20; stdcall 248 "ObReferenceObjectByPointer" 8;
  data 249 "ObSymbolicLinkObjectType"; fastcall 250 "ObfDereferenceObject" 0;
  fastcall 251 "ObfReferenceObject" 0; stdcall 252 "PhyGetLinkState" 4;
  stdcall 253 "PhyInitialize" 8; stdcall 254 "PsCreateSystemThread" 20;
  stdcall 255 "PsCreateSystemThreadEx" 40; stdcall 256 "PsQueryStatistics" 4;
  stdcall 257 "PsSetCreateThreadNotifyRoutine" 4; stdcall 258 "PsTerminateSystemThread" 4;
  data 259 "PsThreadObjectType"; stdcall 260 "RtlAnsiStringToUnicodeString" 12;
  stdcall 261 "RtlAppendStringToString" 8; stdcall 262 "RtlAppendUnicodeStringToString" 8;
  stdcall 263 "RtlAppendUnicodeToString" 8; stdcall 264 "RtlAssert" 16;
  stdcall 265 "RtlCaptureContext" 4; stdcall 266 "RtlCaptureStackBackTrace" 16;
  stdcall 267 "RtlCharToInteger" 12; stdcall 268 "RtlCompareMemory" 12;
  stdcall 269 "RtlCompareMemoryUlong" 12; stdcall 270 "RtlCompareString" 12;
  stdcall 271 "RtlCompareUnicodeString" 12; stdcall 272 "RtlCopyString" 8;
  stdcall 273 "RtlCopyUnicodeString" 8; stdcall 274 "RtlCreateUnicodeString" 8;
  stdcall 275 "RtlDowncaseUnicodeChar" 4; stdcall 276 "RtlDowncaseUnicodeString" 12;
  stdcall 277 "RtlEnterCriticalSection" 4; stdcall 278 "RtlEnterCriticalSectionAndRegion" 4;
  stdcall 279 "RtlEqualString" 12; stdcall 280 "RtlEqualUnicodeString" 12;
  stdcall 281 "RtlExtendedIntegerMultiply" 12; stdcall 282 "RtlExtendedLargeIntegerDivide" 16;
  stdcall 283 "RtlExtendedMagicDivide" 20; stdcall 284 "RtlFillMemory" 12;
  stdcall 285 "RtlFillMemoryUlong" 12; stdcall 286 "RtlFreeAnsiString" 4;
  stdcall 287 "RtlFreeUnicodeString" 4; stdcall 288 "RtlGetCallersAddress" 8;
  stdcall 289 "RtlInitAnsiString" 8; stdcall 290 "RtlInitUnicodeString" 8;
  stdcall 291 "RtlInitializeCriticalSection" 4; stdcall 292 "RtlIntegerToChar" 16;
  stdcall 293 "RtlIntegerToUnicodeString" 12; stdcall 294 "RtlLeaveCriticalSection" 4;
  stdcall 295 "RtlLeaveCriticalSectionAndRegion" 4; stdcall 296 "RtlLowerChar" 4;
  stdcall 297 "RtlMapGenericMask" 8; stdcall 298 "RtlMoveMemory" 12;
  stdcall 299 "RtlMultiByteToUnicodeN" 20; stdcall 300 "RtlMultiByteToUnicodeSize" 12;
  stdcall 301 "RtlNtStatusToDosError" 4; stdcall 302 "RtlRaiseException" 4;
  stdcall 303 "RtlRaiseStatus" 4; stdcall 304 "RtlTimeFieldsToTime" 8;
  stdcall 305 "RtlTimeToTimeFields" 8; stdcall 306 "RtlTryEnterCriticalSection" 4;
  fastcall 307 "RtlUlongByteSwap" 0; stdcall 308 "RtlUnicodeStringToAnsiString" 12;
  stdcall 309 "RtlUnicodeStringToInteger" 12; stdcall 310 "RtlUnicodeToMultiByteN" 20;
  stdcall 311 "RtlUnicodeToMultiByteSize" 12; stdcall 312 "RtlUnwind" 16;
  stdcall 313 "RtlUpcaseUnicodeChar" 4; stdcall 314 "RtlUpcaseUnicodeString" 12;
  stdcall 315 "RtlUpcaseUnicodeToMultiByteN" 20; stdcall 316 "RtlUpperChar" 4;
  stdcall 317 "RtlUpperString" 8; fastcall 318 "RtlUshortByteSwap" 0;
  stdcall 319 "RtlWalkFrameChain" 12; stdcall 320 "RtlZeroMemory" 8; data 321 "XboxEEPROMKey";
  data 322 "XboxHardwareInfo"; data 323 "XboxHDKey"; data 324 "XboxKrnlVersion";
  data 325 "XboxSignatureKey"; data 326 "XeImageFileName"; stdcall 327 "XeLoadSection" 4;
  stdcall 328 "XeUnloadSection" 4; stdcall 329 "READ_PORT_BUFFER_UCHAR" 12;
  stdcall 330 "READ_PORT_BUFFER_USHORT" 12; stdcall 331 "READ_PORT_BUFFER_ULONG" 12;
  stdcall 332 "WRITE_PORT_BUFFER_UCHAR" 12; stdcall 333 "WRITE_PORT_BUFFER_USHORT" 12;
  stdcall 334 "WRITE_PORT_BUFFER_ULONG" 12; stdcall 335 "XcSHAInit" 4; stdcall 336 "XcSHAUpdate" 12;
  stdcall 337 "XcSHAFinal" 8; stdcall 338 "XcRC4Key" 12; stdcall 339 "XcRC4Crypt" 12;
  stdcall 340 "XcHMAC" 28; stdcall 341 "XcPKEncPublic" 12; stdcall 342 "XcPKDecPrivate" 12;
  stdcall 343 "XcPKGetKeyLen" 4; stdcall 344 "XcVerifyPKCS1Signature" 12; stdcall 345 "XcModExp" 20;
  stdcall 346 "XcDESKeyParity" 8; stdcall 347 "XcKeyTable" 12; stdcall 348 "XcBlockCrypt" 20;
  stdcall 349 "XcBlockCryptCBC" 28; stdcall 350 "XcCryptService" 8; stdcall 351 "XcUpdateCrypto" 8;
  stdcall 352 "RtlRip" 12; data 353 "XboxLANKey"; data 354 "XboxAlternateSignatureKeys";
  data 355 "XePublicKeyData"; data 356 "HalBootSMCVideoMode"; data 357 "IdexChannelObject";
  stdcall 358 "HalIsResetOrShutdownPending" 0; stdcall 359 "IoMarkIrpMustComplete" 4;
  stdcall 360 "HalInitiateShutdown" 0; cdecl 361 "RtlSnprintf"; cdecl 362 "RtlSprintf";
  cdecl 363 "RtlVsnprintf"; cdecl 364 "RtlVsprintf"; stdcall 365 "HalEnableSecureTrayEject" 0;
  stdcall 366 "HalWriteSMCScratchRegister" 4; stdcall 374 "MmDbgAllocateMemory" 8;
  stdcall 375 "MmDbgFreeMemory" 8; stdcall 376 "MmDbgQueryAvailablePages" 0;
  stdcall 377 "MmDbgReleaseAddress" 8; stdcall 378 "MmDbgWriteCheck" 8
].

Definition kernel_ordinal_info (ordinal : Z) : option KernelOrdinalInfo :=
  index ← binary_search_by_key info_ordinal KERNEL_ORDINALS ordinal;
  KERNEL_ORDINALS !! index.

(** ** The table *)

Lemma ordinals_sorted : StronglySorted Z.lt (map info_ordinal KERNEL_ORDINALS).
Proof. apply increasing_sorted. by vm_compute. Qed.

Lemma ordinal_lookup_spec o info : kernel_ordinal_info o = Some info <->
  info ∈ KERNEL_ORDINALS /\ info_ordinal info = o.
Proof.
  pose proof (binary_search_exact info_ordinal KERNEL_ORDINALS ordinals_sorted o) as Hex.
  unfold kernel_ordinal_info. rewrite list_elem_of_lookup. split.
  - destruct (binary_search_by_key _ _ _) as [i|] eqn:Hi; [|done]. cbn [mbind option_bind]. intros Hl.
    destruct (proj1 (Hex i info) (conj eq_refl Hl)). eauto.
  - intros [[i Hl] Ho]. destruct (proj2 (Hex i info) (conj Hl Ho)) as [-> _]. exact Hl.
Qed.

(** The binary search over the table answers exactly the table: it finds an
    ordinal if and only if a record has it, and then that record. *)
Theorem ordinal_lookup_exact (o : Z) (info : KernelOrdinalInfo) :
  kernel_ordinal_info o = Some info <-> info ∈ KERNEL_ORDINALS /\ info_ordinal info = o.
Proof. apply ordinal_lookup_spec. Qed.

(** ** The startup exports *)

Section Startup.
Context `{HostFiles.HostOs}.

Definition export_row (e : KernelExport) : Z * string * Z := (ordinal e, export_name e, stack_bytes e).
Definition info_row (i : KernelOrdinalInfo) : Z * string * Z := (info_ordinal i, info_name i, info_stack_bytes i).

(** Whether an export agrees with the record of its ordinal. *)
Definition row_agrees (r : Z * string * Z) : bool :=
  match kernel_ordinal_info r.1.1 with
  | Some i => bool_decide (info_row i = r) && bool_decide (kind i = Function)
  | None => false
  end.

Lemma startup_rows fuel : forallb row_agrees (map export_row (startup_exports fuel)) = true.
Proof. by vm_compute. Qed.

(** Every export registered at startup agrees with the kernel's export
    table: its ordinal names a function with the same name, and the gate pops
    exactly the argument bytes the table records, so a call through the import
    slot leaves the stack as the title's compiler expects. *)
Theorem startup_exports_match_table (fuel : nat) (e : KernelExport) :
  e ∈ startup_exports fuel -> exists info,
    kernel_ordinal_info (ordinal e) = Some info /\ kind info = Function /\
    info_name info = export_name e /\ info_stack_bytes info = stack_bytes e.
Proof.
  intros He. pose proof (startup_rows fuel) as Hrows. rewrite forallb_forall in Hrows.
  specialize (Hrows (export_row e) (in_map _ _ _ (proj1 (list_elem_of_In _ _) He))).
  unfold row_agrees in Hrows. cbn [export_row fst] in Hrows.
  destruct (kernel_ordinal_info (ordinal e)) as [info|]; [|done].
  apply andb_true_iff in Hrows as [Hrow%bool_decide_eq_true Hk%bool_decide_eq_true].
  exists info. unfold info_row, export_row in Hrow. injection Hrow as _ Hn Hs. by split_and!.
Qed.
End Startup.

Lemma startup_exports_match_table_witness :
  RtlInitializeCriticalSection ∈ startup_exports (H := demo_host) 1 /\
  exists info, kernel_ordinal_info (ordinal (RtlInitializeCriticalSection (H := demo_host))) = Some info /\
    info_stack_bytes info = 4.
Proof.
  assert (RtlInitializeCriticalSection ∈ startup_exports (H := demo_host) 1) as He.
  { apply list_elem_of_In. cbv [startup_exports rtl_exports app]. cbn [In]. tauto. }
  split; [exact He|].
  destruct (startup_exports_match_table (H := demo_host) 1 _ He) as (info & Hi & _ & _ & Hs).
  exists info. split; [exact Hi | exact Hs].
Defined.
