(* ===== verification/ExportSteps.v ===== *)
(** * Kernel calls are runs of the runtime

    Every export of the registry changes the kernel through the operations of
    the runtime only: a call is a sequence of steps of the relation of
    [SchedulerReach], and leaves the processor alone.  What holds of every
    reachable manager therefore holds after any kernel call. *)

From Stdlib Require Import Ascii.
From stdpp Require Import strings relations.
From S2P Require Import Prelude GuestTypes PageTable Allocator GuestMemory SoftwareSpace SpaceTheorems CpuState KernelTypes HostFiles Runtime RuntimeMemory SchedulerSteps SchedulerReach CoreScheduling SystemTyping KernelCalls ThreadExports MemoryExports FileExports KernelDispatch.

(** What the host's files hold are bytes. *)
Class HostBytes `{HostOs} : Prop :=
  host_reads_bytes w f n bytes f' : read_some w f n = (ReadBytes bytes, f') -> Forall u8 bytes.

Section Steps.
Context `{HostOs}.

(** ** A logic of steps

    [steps_at c m Q]: run in the well-typed context [c], the body [m] keeps
    the processor and the typing of the system, and takes the services along
    [tm_step]; a value satisfies [Q] and an early status is a 32-bit word. *)

Definition good (c : KernelCallContext) : Prop := sys_ok (services c) /\ cpu_wf (ctx_cpu c).

Definition runs (c c' : KernelCallContext) : Prop :=
  ctx_cpu c' = ctx_cpu c /\ rtc tm_step (services c, ctx_cpu c) (services c', ctx_cpu c) /\
  sys_ok (services c').

Definition outcome_ok {A} (Q : A -> Prop) (o : Outcome A) : Prop :=
  match o with
  | Value a => Q a
  | Return status => u32 status
  | Aborts => True
  end.

Definition steps_at {A} (c : KernelCallContext) (m : Call A) (Q : A -> Prop) : Prop :=
  good c -> runs c (m c).2 /\ outcome_ok Q (m c).1.

Abbreviation any := (fun _ => True).

Lemma runs_refl c : sys_ok (services c) -> runs c c.
Proof. intros Hs. by split_and!. Qed.

Lemma runs_trans c1 c2 c3 : runs c1 c2 -> runs c2 c3 -> runs c1 c3.
Proof.
  intros (E1 & R1 & _) (E2 & R2 & S2). split_and!; [congruence | | done].
  rewrite E1 in R2. by etrans.
Qed.

Lemma runs_good c c' : runs c c' -> good c -> good c'.
Proof. intros (E & _ & S) [_ Hc]. split; [done | by rewrite E]. Qed.

Lemma runs_step c s : tm_step (services c, ctx_cpu c) (s, ctx_cpu c) -> sys_ok s ->
  runs c (with_services c s).
Proof. intros Hs Hok. split_and!; [done | by apply rtc_once | done]. Qed.

Lemma steps_bind {A B} c (m : Call A) (k : A -> Call B) P Q : steps_at c m P ->
  (forall a c', m c = (Value a, c') -> P a -> steps_at c' (k a) Q) -> steps_at c (m ≫= k) Q.
Proof.
  intros Hm Hk Hc. destruct (Hm Hc) as [Hrun Hout]. unfold mbind, Call_bind.
  destruct (m c) as [[a|status|] c'] eqn:Heq; cbn [fst snd] in *; [|done..].
  destruct (Hk a c' eq_refl Hout (runs_good _ _ Hrun Hc)) as [Hrun' Hout'].
  split; [by eapply runs_trans | done].
Qed.

Lemma steps_ret {A} c (a : A) (Q : A -> Prop) : (good c -> Q a) -> steps_at c (mret a : Call A) Q.
Proof. intros Ha Hc. split; [apply runs_refl, Hc | by apply Ha]. Qed.

Lemma steps_ask {A B} c (f : KernelCallContext -> A) (k : A -> Call B) Q :
  steps_at c (k (f c)) Q -> steps_at c (ask f ≫= k) Q.
Proof. done. Qed.

Lemma steps_last_ask {A} c (f : KernelCallContext -> A) (Q : A -> Prop) :
  (good c -> Q (f c)) -> steps_at c (ask f) Q.
Proof. intros Ha Hc. split; [apply runs_refl, Hc | by apply Ha]. Qed.

Lemma steps_require {A B} c (f : KernelCallContext -> option A) status (k : A -> Call B) Q :
  u32 status -> (forall a, f c = Some a -> steps_at c (k a) Q) ->
  steps_at c (require f status ≫= k) Q.
Proof.
  intros Hst Hk. apply steps_bind with any.
  - intros Hc. unfold require. destruct (f c); (split; [apply runs_refl, Hc | done]).
  - intros a c'. unfold require. destruct (f c) eqn:Hf; [|done]. intros [= <- <-] _. by apply Hk.
Qed.

Lemma steps_store c a bs : Forall u8 bs -> steps_at c (store a bs) any.
Proof.
  intros Hb [Hs Hc]. unfold store. pose proof (sys_write _ a _ Hs Hb) as Hw.
  fold (ctx_memory c) in Hw.
  destruct (mem_write (ctx_memory c) a bs) as [r mem]. cbn [fst snd] in *.
  split; [|done]. apply runs_step; [by constructor | done].
Qed.

Lemma steps_store_u32 c a v : steps_at c (store_u32 a v) any.
Proof. apply steps_store, to_le_bytes_u8. Qed.

Lemma steps_put_bytes c a bs : Forall u8 bs -> steps_at c (put_bytes a bs) any.
Proof. intros. eapply steps_bind; [by apply steps_store | intros; by apply steps_ret]. Qed.

Lemma steps_put_u32 c a v : steps_at c (put_u32 a v) any.
Proof. apply steps_put_bytes, to_le_bytes_u8. Qed.

Lemma steps_stop c stop : steps_at c (request_stop stop) any.
Proof. intros [Hs _]. split; [|done]. by split_and!. Qed.

Lemma steps_when c b m : (b = true -> steps_at c m any) -> steps_at c (when b m) any.
Proof. destruct b; [auto | intros _; by apply steps_ret]. Qed.

Lemma steps_service {A} c (f : ThreadManager -> A * ThreadManager) :
  tm_step (services c, ctx_cpu c) ((f (services c)).2, ctx_cpu c) ->
  (sys_ok (services c) -> sys_ok (f (services c)).2) -> steps_at c (service f) any.
Proof.
  intros Hstep Hok [Hs _]. unfold service. specialize (Hok Hs).
  destruct (f (services c)). split; [by apply runs_step | done].
Qed.

Lemma steps_service_unit c (f : ThreadManager -> ThreadManager) :
  tm_step (services c, ctx_cpu c) (f (services c), ctx_cpu c) ->
  (sys_ok (services c) -> sys_ok (f (services c))) -> steps_at c (service_unit f) any.
Proof. intros Hstep Hok [Hs _]. split; [apply runs_step; auto | done]. Qed.

Lemma steps_set_interrupt c r : (good c -> u32 (int_routine r)) ->
  steps_at c (service_unit (fun s => set_interrupt_routine s r)) any.
Proof.
  intros Hr Hc. specialize (Hr Hc). revert Hc. apply steps_service_unit; [apply step_set_interrupt|].
  by apply sys_set_interrupt.
Qed.

(** The file services change the files of the manager only. *)
Lemma steps_host {A} c (f : ThreadManager -> World -> option (A * ThreadManager * World)) :
  (forall a s w, f (services c) (host c) = Some (a, s, w) ->
     exists fs, s = with_host_files (services c) fs) ->
  steps_at c (host_service f) any.
Proof.
  intros Hf [Hs _]. unfold host_service.
  destruct (f (services c) (host c)) as [[[a s] w]|]; [|split; [by apply runs_refl | done]].
  destruct (Hf _ _ _ eq_refl) as [fs ->].
  split; [|done]. split_and!; [done | apply rtc_once, step_files | by apply (sys_same (services c))].
Qed.

Lemma same_files s : s = with_host_files s (host_files s).
Proof. by destruct s. Qed.

(** A word of guest memory is a 32-bit number. *)
Lemma good_word c a v : good c -> ctx_read_u32 a c = Some v -> u32 v.
Proof.
  intros [Hs _]. unfold ctx_read_u32. destruct (mem_read_u32 (ctx_memory c) a) as [x|] eqn:Hr; [|done].
  intros [= <-]. by apply (read_u32_any _ _ _ (sys_ram _ Hs) Hr).
Qed.

Lemma good_argument c i v : good c -> stack_argument i c = Some v -> u32 v.
Proof.
  intros Hc. unfold stack_argument, checked_add, checked_mul.
  repeat (case_match; cbn [mbind option_bind]; try done); by apply good_word.
Qed.

Lemma good_arguments c n l : good c -> stack_arguments n c = Some l -> Forall u32 l.
Proof.
  intros Hc Hl. apply mapM_Some_1 in Hl. apply Forall_forall. intros v Hv.
  apply list_elem_of_lookup in Hv as [i Hi].
  destruct (Forall2_lookup_r _ _ _ _ _ Hl Hi) as (j & _ & Hj).
  by apply (good_argument c (Z.of_nat j)).
Qed.

Lemma good_argument_or_zero c i : good c -> u32 (argument_or_zero i c).
Proof.
  intros Hc. unfold argument_or_zero. destruct (stack_argument i c) eqn:Ha; cbn;
    [by eapply good_argument | unfold is_u; lia].
Qed.

Lemma land_byte_u32 x : u32 (Z.land x 0xFF).
Proof.
  change 0xFF with (Z.ones 8). rewrite Z.land_ones by lia. unfold is_u.
  pose proof (Z.mod_pos_bound x (2 ^ 8)). lia.
Qed.

Lemma flag_u32 b : u32 (flag b).
Proof. destruct b; unfold is_u, flag; lia. Qed.

Lemma zero_u32 : u32 0.
Proof. unfold is_u. lia. Qed.

(** What a service that answers an address or an index answers. *)
Lemma block_address_u32 n s a s' : allocate_contiguous n s = (Ok a, s') -> u32 a.
Proof.
  unfold allocate_contiguous, mbind, KM_bind, or_err.
  destruct (allocate_kernel_block_only n s) as [_ Hr].
  destruct (allocate_kernel_block n s) as [[r|e] s1]; [|done]. cbn. intros [= <- _]. by apply Hr.
Qed.

Lemma contiguous_status c n r c' :
  service (allocate_contiguous n) c = (Value r, c') -> u32 (or_null r).
Proof.
  unfold service. destruct (allocate_contiguous n (services c)) as [[a|e] s] eqn:Ha;
    intros [= <- _]; [by eapply block_address_u32 | apply zero_u32].
Qed.

Lemma claim_status c n r c' :
  service (claim_gpu_instance n) c = (Value r, c') -> u32 (or_null r).
Proof.
  unfold service, claim_gpu_instance, mbind, KM_bind, gets, modify.
  destruct (allocate_contiguous n (services c)) as [[a|e] s] eqn:Ha; cbn;
    intros [= <- _]; [by eapply block_address_u32 | apply zero_u32].
Qed.

Lemma pool_status c a : good c -> u32 (or_null (pool_block_size (services c) a)).
Proof.
  intros [[_ Hp] _]. unfold pool_block_size, or_null. destruct (pool_sizes (services c) !! a) eqn:Ha;
    cbn; [by apply (Hp a) | apply zero_u32].
Qed.

Lemma multi_status c ks all ms r c' :
  service (fun s => wait_for_objects s ks all ms) c = (Value r, c') ->
  u32 match r with
      | Ok (MultiSatisfied index) => index
      | Ok MultiTimedOut => STATUS_TIMEOUT
      | Ok MultiPending => KernelStatus.SUCCESS
      | Err _ => KernelStatus.INVALID_HANDLE
      end.
Proof.
  unfold service, wait_for_objects. destruct (negb _); [intros [= <- _]; done|].
  destruct (multi_satisfied (services c) ks all) as [[i s]|] eqn:Hm;
    [|destruct (bool_decide _); intros [= <- _]; done].
  intros [= <- _]. unfold multi_satisfied in Hm. destruct all.
  - destruct (forallb _ _); [|done]. simplify_eq. apply zero_u32.
  - destruct (iter_position _ _) as [p|]; [|done]. cbn in Hm. destruct (ks !! p); [|done].
    cbn in Hm. simplify_eq. apply wrap_range. lia.
Qed.

Lemma dos_error_u32 st : u32 (dos_error st).
Proof.
  unfold dos_error. destruct (find _ dos_errors) as [[k e]|] eqn:Hf.
  - apply find_some in Hf as [Hin _].
    assert (Forall (fun e => u32 e.2) dos_errors) as Hall
      by (repeat constructor; unfold is_u; cbn; lia).
    rewrite Forall_forall in Hall. by apply (Hall (k, e)), list_elem_of_In.
  - case_match; unfold is_u, ERROR_MR_MID_NOT_FOUND; lia.
Qed.

Lemma physical_address_u32 t a : u32 a -> u32 (physical_address t a).
Proof.
  intros Ha. unfold physical_address. case_match.
  - apply is_u_lor; [lia | apply wrap_range; lia|].
    change 0xFFF with (Z.ones 12). rewrite Z.land_ones by lia.
    pose proof (Z.mod_pos_bound a (2 ^ 12)). unfold is_u. lia.
  - change PHYSICAL_ADDRESS_MASK with (Z.ones 29). rewrite Z.land_ones by lia.
    pose proof (Z.mod_pos_bound a (2 ^ 29)). unfold is_u. lia.
Qed.

Lemma vector_u32 x : u32 (0x30 + Z.land x 0xFF).
Proof.
  change 0xFF with (Z.ones 8). rewrite Z.land_ones by lia. unfold is_u.
  pose proof (Z.mod_pos_bound x (2 ^ 8)). lia.
Qed.
End Steps.

Abbreviation any := (fun _ => True).

(** One rule of the logic, chosen by the head of the body. *)
Ltac service_step :=
  cbn beta;
  first [ apply step_queue_dpc | apply step_set_interrupt | apply step_connect
        | apply step_set_timer | apply step_cancel_timer | apply step_display
        | apply step_exit_current | apply step_close | apply step_create_event
        | apply step_set_event | apply step_resume | apply step_suspend
        | apply step_create_mutant | apply step_release | apply step_wait_dispatcher
        | apply step_signal | apply step_transfer | apply step_wait | apply step_wait_multi
        | apply step_sleep | apply step_persist | apply step_contiguous
        | apply step_free_contiguous | apply step_claim | apply step_create_thread
        | apply step_virtual | apply step_files ].

(** What the services keep of RAM and the pool. *)
Ltac system_step :=
  cbn beta;
  first [ apply sys_set_event | apply sys_release | apply sys_signal | apply sys_transfer
        | apply sys_wait | apply sys_wait_multi | apply sys_create_thread | apply sys_contiguous
        | apply sys_free_contiguous | apply sys_claim | apply sys_virtual
        | apply sys_set_timer | apply sys_connect
        | apply sys_same; [by cbv delta [queue_dpc cancel_timer close_handle
            resume_thread suspend_thread persist_memory
            sleep_thread wait_for_dispatcher_object delete_symbolic_link create_symbolic_link] beta;
            repeat case_match ..] ].

(** Statuses are 32-bit words. *)
Ltac status_step :=
  intros; try exact I; cbn beta;
  first [ done
        | apply flag_u32 | apply land_byte_u32
        | by eapply good_word | by eapply good_argument
        | by eapply contiguous_status | by eapply claim_status | by apply pool_status
        | by eapply multi_status | apply dos_error_u32 | apply vector_u32
        | by apply physical_address_u32, good_argument_or_zero
        | by repeat case_match ].

Ltac export_step :=
  lazymatch goal with
  | |- steps_at _ (mbind _ (require _ _)) _ => apply steps_require; [status_step | intros ? ?]
  | |- steps_at _ (mbind _ (ask _)) _ => apply steps_ask; cbn beta
  | |- steps_at _ (mbind _ _) _ => eapply (steps_bind _ _ _ any); [| intros ? ? ? _]
  | |- steps_at _ (when _ _) _ => apply steps_when; intros _
  | |- steps_at _ (service _) _ => apply steps_service; [service_step | system_step]
  | |- steps_at _ (service_unit (fun s => set_interrupt_routine s _)) _ =>
    apply steps_set_interrupt; apply good_argument_or_zero
  | |- steps_at _ (service_unit _) _ => apply steps_service_unit; [service_step | system_step]
  | |- steps_at _ (mret _) _ => apply steps_ret; status_step
  | |- steps_at _ (ask _) _ => apply steps_last_ask; status_step
  | |- steps_at _ (if ?b then _ else _) _ => destruct b
  | |- steps_at _ (match ?x with _ => _ end) _ => destruct x
  | |- steps_at _ _ _ => solve [auto with steps]
  end.

Create HintDb steps.
#[export] Hint Extern 1 (is_u 32 _) => done : steps.
#[export] Hint Resolve steps_store steps_store_u32 steps_put_bytes steps_put_u32 steps_stop : steps.

Section Exports.
Context `{HostOs}.

Lemma steps_fields c section fields : steps_at c (put_fields section fields) any.
Proof.
  revert c. induction fields as [|[o v] fields IH]; intros c; cbn [put_fields];
    [by apply steps_ret|]. export_step; [apply steps_put_u32 | apply IH].
Qed.

Lemma config_byte_u8 o : u8 (config_byte o).
Proof.
  assert (forall v, u8 (nth (Z.to_nat (o mod 4)) (to_le_bytes 4 v) 0)) as Hn.
  { intros v. destruct (nth_in_or_default (Z.to_nat (o mod 4)) (to_le_bytes 4 v) 0) as [Hin|Heq];
      [|rewrite Heq; unfold is_u; lia].
    apply list_elem_of_In in Hin. pose proof (to_le_bytes_u8 4 v) as Hu.
    rewrite Forall_forall in Hu. by apply Hu. }
  unfold config_byte. repeat case_match; auto. unfold is_u. lia.
Qed.

Lemma steps_config c register buffer offset n :
  steps_at c (put_config register buffer offset n) any.
Proof.
  revert c offset. induction n as [|n IH]; intros c offset; cbn [put_config];
    [by apply steps_ret|].
  export_step; [apply steps_put_bytes, Forall_singleton, config_byte_u8 | apply IH].
Qed.

#[local] Hint Resolve steps_fields steps_config : steps.

Lemma steps_report c out r : steps_at c (report_previous out r) u32.
Proof. unfold report_previous. repeat export_step. Qed.

Lemma steps_wait_single c i : steps_at c (wait_for_single i) u32.
Proof. unfold wait_for_single. repeat export_step. Qed.

Lemma steps_irql c n : steps_at c (exchange_irql n) u32.
Proof. unfold exchange_irql. repeat export_step. Qed.

#[local] Hint Resolve steps_report steps_wait_single steps_irql : steps.

Lemma steps_set_field c section offset v : steps_at c (set_field section offset v) any.
Proof. apply steps_put_u32. Qed.

#[local] Hint Resolve steps_set_field : steps.

Lemma steps_take_section c section owner : steps_at c (take_section section owner) any.
Proof. unfold take_section. repeat export_step. Qed.

#[local] Hint Resolve steps_take_section : steps.

Lemma steps_enter c : steps_at c enter_critical_section u32.
Proof. unfold enter_critical_section. repeat export_step. Qed.

Lemma steps_leave c : steps_at c leave_critical_section u32.
Proof. unfold leave_critical_section. repeat export_step. Qed.

Lemma steps_shared c section offset up : steps_at c (adjust_shared_count section offset up) any.
Proof.
  unfold adjust_shared_count. repeat export_step.
  apply steps_put_bytes, to_le_bytes_u8.
Qed.

#[local] Hint Resolve steps_shared : steps.

Lemma steps_adjust c up : steps_at c (adjust_section up) u32.
Proof. unfold adjust_section. repeat export_step. Qed.

Lemma steps_mm_allocate c n : steps_at c (mm_allocate n) u32.
Proof. unfold mm_allocate. repeat export_step. Qed.

Lemma steps_pool c : steps_at c allocate_pool u32.
Proof. unfold allocate_pool. repeat export_step. Qed.

#[local] Hint Resolve steps_enter steps_leave steps_adjust steps_mm_allocate steps_pool : steps.

Lemma steps_io_status c iosb st info : steps_at c (write_io_status iosb st info) any.
Proof. unfold write_io_status. repeat export_step. Qed.

#[local] Hint Resolve steps_io_status : steps.

Lemma steps_fail_io c iosb st : u32 st -> steps_at c (fail_io iosb st) u32.
Proof. intros. unfold fail_io. repeat export_step. Qed.

Lemma steps_finish_io c iosb n : steps_at c (finish_io iosb n) u32.
Proof. unfold finish_io. repeat export_step. Qed.

Lemma steps_write_u64 c a v : steps_at c (write_u64 a v) any.
Proof. unfold write_u64. repeat export_step. Qed.

#[local] Hint Resolve steps_fail_io steps_finish_io steps_write_u64 : steps.

Lemma steps_too_small c iosb : steps_at c (buffer_too_small iosb) u32.
Proof. by apply steps_fail_io. Qed.

Lemma open_error_u32 e : u32 (open_error_status e).
Proof. by destruct e. Qed.

Lemma steps_standard c a i : steps_at c (query_standard a i) any.
Proof. unfold query_standard. repeat export_step. Qed.

Lemma steps_network c a i : steps_at c (query_network a i) any.
Proof. unfold query_network. repeat export_step. Qed.

#[local] Hint Resolve steps_too_small steps_standard steps_network open_error_u32 : steps.

(** ** The file services *)

Lemma steps_open c r : steps_at c (host_service (fun s w => open_file s w r)) any.
Proof.
  apply steps_host. intros a s w. unfold open_file.
  destruct (fs_open _ _ _) as [[[r' fs] w']|]; cbn; [|done]. intros [= <- <- <-]. by exists fs.
Qed.

Lemma steps_read c fuel h o n : steps_at c (host_service (fun s w =>
  '(r, s) ← read_file fuel s w h o n; Some (r, s, w))) any.
Proof.
  apply steps_host. intros a s w. unfold read_file.
  destruct (fs_read _ _ _ _ _ _) as [[r fs]|]; cbn; [|done]. intros [= <- <- <-]. by exists fs.
Qed.

Lemma steps_write c h o bs :
  steps_at c (host_service (fun s w => Some (write_file s w h o bs))) any.
Proof.
  apply steps_host. intros a s w. unfold write_file.
  destruct (fs_write _ _ _ _ _) as [[r fs] w']. intros [= <- <- <-]. by exists fs.
Qed.

Lemma steps_set_length c h n : steps_at c (host_service (fun s w =>
  let '(r, w) := set_file_length s w h n in Some (r, s, w))) any.
Proof.
  apply steps_host. intros a s w. destruct (set_file_length _ _ _ _) as [r w'].
  intros [= <- <- <-]. exists (host_files (services c)). apply same_files.
Qed.

Lemma steps_files {A} c (f : ThreadManager -> A * ThreadManager) :
  (exists fs, (f (services c)).2 = with_host_files (services c) fs) -> steps_at c (service f) any.
Proof.
  intros [fs Hf]. apply steps_service; rewrite Hf; [apply step_files | by apply sys_same].
Qed.

Lemma steps_open_link c name : steps_at c (service (fun s => open_symbolic_link s name)) any.
Proof.
  apply steps_files. exists (open_link_object (host_files (services c)) name).2.
  unfold open_symbolic_link. by destruct (open_link_object _ _).
Qed.

Lemma steps_set_position c h o : steps_at c (service (fun s => set_file_position s h o)) any.
Proof.
  apply steps_files. exists (set_position (host_files (services c)) h o).2.
  unfold set_file_position. by destruct (set_position _ _ _).
Qed.

#[local] Hint Resolve steps_open steps_read steps_write steps_set_length : steps.

Lemma steps_nt_open c h a i w cr d : steps_at c (nt_open_file h a i w cr d) u32.
Proof. unfold nt_open_file. repeat export_step. Qed.

#[local] Hint Resolve steps_nt_open : steps.

(** The bytes the exports store. *)
Lemma as_bytes_u8 text : Forall u8 (as_bytes text).
Proof.
  induction text as [|ch text IH]; cbn; constructor; [|done]. unfold byte_of, is_u.
  pose proof (N_ascii_bounded ch). lia.
Qed.

Lemma zeros_u8 n : Forall u8 (replicate n 0).
Proof. apply Forall_replicate. unfold is_u. lia. Qed.

Lemma read_loop_u8 `{!HostBytes} fuel w f want filled r f' : Forall u8 filled ->
  read_loop fuel w f want filled = Some (Ok r, f') -> Forall u8 r.
Proof.
  revert f filled. induction fuel as [|fuel IH]; intros f filled Hf; cbn [read_loop]; [done|].
  destruct (_ <? _)%nat; [|by intros [= <- _]].
  destruct (read_some w f _) as [[bytes| |] f1] eqn:Hr; [|by apply IH|done].
  apply host_reads_bytes in Hr. destruct bytes; [by intros [= <- _]|].
  apply IH. by apply Forall_app.
Qed.

Lemma read_service_u8 `{!HostBytes} c fuel h o n bytes c' :
  host_service (fun s w => '(r, s) ← read_file fuel s w h o n; Some (r, s, w)) c =
    (Value (Ok bytes), c') -> Forall u8 bytes.
Proof.
  unfold host_service, read_file, fs_read.
  destruct (files _ !! h) as [entry|]; cbn; [|done].
  destruct (file entry) as [f|]; cbn; [|intros [= <- _]; by constructor].
  destruct (seek _ _ _) as [f1|]; cbn; [|done].
  destruct (read_loop _ _ _ _ _) as [[[bs|e] f2]|] eqn:Hl; cbn; [|done..].
  intros [= <- _]. eapply read_loop_u8; [|exact Hl]. by constructor.
Qed.

(** ** Every registered export *)

Definition stepwise (e : KernelExport) : Prop := forall c, steps_at c (call e) u32.

Lemma thread_request_ok l : Forall u32 l -> request_ok (thread_request l).
Proof.
  intros Hl. unfold request_ok, thread_request. cbn [start_routine].
  destruct (nth_in_or_default 9 l 0) as [Hin|Heq]; [|rewrite Heq; apply zero_u32].
  apply list_elem_of_In in Hin. rewrite Forall_forall in Hl. by apply Hl.
Qed.

(** A body may assume that its context is well typed. *)
Lemma steps_assume {A} c (m : Call A) Q : (good c -> steps_at c m Q) -> steps_at c m Q.
Proof. intros Hm Hc. by apply Hm. Qed.

Lemma create_thread_stepwise : stepwise PsCreateSystemThreadEx.
Proof.
  intros c. unfold PsCreateSystemThreadEx. cbn [call]. apply steps_assume. intros Hc.
  apply steps_require; [done|]. intros args Hargs. cbn zeta.
  pose proof (thread_request_ok _ (good_arguments _ _ _ Hc Hargs)) as Hreq.
  repeat export_step. done.
Qed.

Lemma allocate_virtual_stepwise : stepwise NtAllocateVirtualMemory.
Proof.
  intros c. unfold NtAllocateVirtualMemory. cbn [call]. apply steps_assume. intros Hc.
  do 4 (apply steps_require; [done|]; intros ? _).
  export_step; [by apply steps_ret|]. apply steps_require; [done|]. intros b _.
  apply steps_require; [done|]. intros size Hsize.
  pose proof (good_word _ _ _ Hc Hsize) as [Hlo _].
  repeat export_step. done.
Qed.

Lemma set_event_stepwise : stepwise KeSetEvent.
Proof.
  intros c. unfold KeSetEvent. cbn [call]. apply steps_assume. intros Hc.
  apply steps_require; [done|]. intros event _. apply steps_require; [done|]. intros previous Hp.
  pose proof (good_word _ _ _ Hc Hp) as Hu. repeat export_step.
Qed.

Lemma read_file_stepwise `{!HostBytes} fuel : stepwise (NtReadFile fuel).
Proof.
  intros c. unfold NtReadFile. cbn [call].
  do 4 (apply steps_require; [done|]; intros ? _). apply steps_ask. cbn beta.
  eapply (steps_bind _ _ _ any); [apply steps_read|]. intros r c' Hr _.
  destruct r as [bytes|e]; [|repeat export_step].
  apply read_service_u8 in Hr. repeat export_step.
Qed.

Ltac export_stepwise :=
  intros c;
  lazymatch goal with |- steps_at _ (call ?e) _ => let h := get_head e in unfold h; cbn [call] end;
  repeat export_step.

Ltac all_stepwise :=
  repeat lazymatch goal with
         | |- Forall stepwise (_ :: _) => apply Forall_cons; split
         | |- Forall stepwise [] => apply Forall_nil_2
         | |- stepwise PsCreateSystemThreadEx => apply create_thread_stepwise
         | |- stepwise KeSetEvent => apply set_event_stepwise
         | |- stepwise _ => export_stepwise
         end.

Lemma startup_stepwise : Forall stepwise
  [DbgPrint; HalReturnToFirmware; PsCreateSystemThreadEx; PsTerminateSystemThread; NtClose;
   NtCreateEvent; NtSetEvent; NtResumeThread; NtSuspendThread; NtYieldExecution;
   ObReferenceObjectByHandle; ObfDereferenceObject; NtWaitForSingleObject;
   NtWaitForSingleObjectEx; NtWaitForMultipleObjectsEx].
Proof. all_stepwise. Qed.

Lemma links_stepwise : Forall stepwise (io_exports ++ [NtSetInformationFile]).
Proof.
  cbn. all_stepwise; try apply steps_open_link; try apply steps_set_position.
  all: try (apply steps_put_bytes, Forall_take, as_bytes_u8).
Qed.

Lemma files_stepwise : Forall stepwise
  [NtOpenFile; NtCreateFile; NtQueryInformationFile; NtDeviceIoControlFile;
   NtQueryVolumeInformationFile; NtWriteFile].
Proof. all_stepwise; apply steps_put_bytes, zeros_u8. Qed.

Lemma others_stepwise : Forall stepwise
  (rtl_exports ++ ke_exports ++ ex_exports ++ mm_exports ++ xe_exports ++ irql_exports ++
   av_exports ++ dispatcher_exports ++ mutant_exports ++ BENIGN_SUCCESS ++
   [KeDelayExecutionThread; NtFreeVirtualMemory]).
Proof. cbn. all_stepwise. Qed.

Lemma registered_stepwise `{!HostBytes} fuel : Forall stepwise (startup_exports fuel).
Proof.
  pose proof startup_stepwise as H1. pose proof links_stepwise as H2.
  pose proof files_stepwise as H3. pose proof others_stepwise as H4.
  pose proof allocate_virtual_stepwise as H5. pose proof (read_file_stepwise fuel) as H6.
  unfold startup_exports, file_exports, vm_exports. rewrite ?Forall_app, ?Forall_cons in *.
  destruct_and!. split_and!; first [assumption | apply Forall_nil_2].
Qed.
End Exports.
