(* ===== verification/DispatchTheorems.v ===== *)
(** * What a kernel call does to the machine

    The gate addresses and ordinals correspond, the start-up registration
    succeeds with every export under its own ordinal, a dispatched call is a
    stdcall of its export, and the machine a call leaves, parked thread
    included, is a reachable and well-typed one. *)

From Stdlib Require Import Ascii.
From stdpp Require Import strings relations.
From S2P Require Import Prelude GuestTypes PageTable Allocator GuestMemory SoftwareSpace SpaceTheorems CpuState Iced RegisterSubset KernelTypes HostFiles HostFileTheorems Runtime RuntimeMemory SchedulerSteps SchedulerReach CoreScheduling SystemTyping KernelCalls ThreadExports MemoryExports FileExports CoreTypes KernelDispatch ExportSteps.

(** ** The gate *)

Lemma gate_address_value o : u16 o -> gate_address o = KERNEL_GATE_BASE + 4 * o.
Proof.
  intros Ho. unfold gate_address, KERNEL_GATE_BASE, is_u in *. rewrite Z.shiftl_mul_pow2 by lia.
  unfold wrapping_add32.
  rewrite (wrap_small 32 (o * 2 ^ 2)), wrap_small by (unfold is_u; lia). lia.
Qed.

Lemma gate_ordinal_address o : u16 o -> gate_ordinal (gate_address o) = Some o.
Proof.
  intros Ho. rewrite gate_address_value by done. unfold gate_ordinal, KERNEL_GATE_END.
  change (Z.shiftl (0xFFFF + 1) 2) with 262144. unfold is_u in Ho.
  rewrite (proj2 (Z.ltb_ge _ _)), (proj2 (Z.leb_gt _ _)) by (unfold KERNEL_GATE_BASE; lia).
  cbn [orb]. replace (KERNEL_GATE_BASE + 4 * o - KERNEL_GATE_BASE) with (o * 2 ^ 2) by lia.
  change 3 with (Z.ones 2). rewrite Z.land_ones, Z_mod_mult by lia. cbn [negb Z.eqb].
  rewrite Z.shiftr_div_pow2, Z.div_mul by lia. f_equal. apply wrap_small. unfold is_u. lia.
Qed.

Lemma gate_ordinal_some a o : gate_ordinal a = Some o -> u16 o /\ a = gate_address o.
Proof.
  unfold gate_ordinal, KERNEL_GATE_END. change (Z.shiftl (0xFFFF + 1) 2) with 262144.
  destruct (Z.ltb_spec a KERNEL_GATE_BASE), (Z.leb_spec (KERNEL_GATE_BASE + 262144) a);
    cbn [orb]; try done.
  change 3 with (Z.ones 2). rewrite Z.land_ones by lia.
  destruct (Z.eqb_spec ((a - KERNEL_GATE_BASE) mod 2 ^ 2) 0) as [Hm|]; cbn [negb]; [|done].
  rewrite Z.shiftr_div_pow2 by lia. intros [= <-].
  assert (u16 ((a - KERNEL_GATE_BASE) / 2 ^ 2)) as Hq.
  { unfold is_u. split; [apply Z.div_pos; lia | apply Z.div_lt_upper_bound; lia]. }
  rewrite wrap_small by done. split; [done|]. rewrite gate_address_value by done.
  pose proof (Z.div_mod (a - KERNEL_GATE_BASE) (2 ^ 2)). lia.
Qed.

(** The gate: exactly the 65536 addresses the loader may patch into an
    import slot name an ordinal, each its own, and every other address
    none. *)
Theorem gate_roundtrip (a : GuestVa) (o : Z) :
  (u16 o -> gate_ordinal (gate_address o) = Some o) /\
  (gate_ordinal a = Some o <-> u16 o /\ a = gate_address o).
Proof.
  split; [apply gate_ordinal_address|]. split; [apply gate_ordinal_some|].
  intros [Ho ->]. by apply gate_ordinal_address.
Qed.

(** ** The registry *)

Section Registry.
Context `{HostOs}.

Lemma register_all_ok registry exports : NoDup (ordinal <$> exports) ->
  (forall e, e ∈ exports -> registry !! ordinal e = None) ->
  exists registry', register_all registry exports = Ok registry' /\
    forall o, registry' !! o = match find (fun e => ordinal e =? o) exports with
                               | Some e => Some e
                               | None => registry !! o
                               end.
Proof.
  revert registry. induction exports as [|e exports IH]; intros registry Hnd Hnone; cbn.
  { by exists registry. }
  apply NoDup_cons in Hnd as [Hnotin Hnd].
  unfold register_shared. rewrite (Hnone e) by apply list_elem_of_here. cbn.
  destruct (IH (<[ordinal e := e]> registry) Hnd) as (registry' & -> & Hlook).
  { intros e' He'. rewrite lookup_insert_ne; [apply Hnone; by constructor|].
    intros Heq. apply Hnotin. rewrite Heq. by apply list_elem_of_fmap_2. }
  exists registry'. split; [done|]. intros o. rewrite Hlook.
  destruct (Z.eqb_spec (ordinal e) o) as [<-|Hne].
  - destruct (find _ exports) as [e'|] eqn:Hf; [|by rewrite lookup_insert_eq].
    apply find_some in Hf as [Hin Ho]. apply Z.eqb_eq in Ho. destruct Hnotin.
    rewrite <- Ho. by apply list_elem_of_fmap_2, list_elem_of_In.
  - destruct (find _ exports); [done | by rewrite lookup_insert_ne].
Qed.

#[local] Opaque register_startup_exports register_all.

Lemma startup_ordinals fuel : ordinal <$> startup_exports fuel =
  [8; 49; 255; 258; 187; 189; 225; 224; 231; 238; 246; 250; 233; 234; 235; 291; 277; 294; 301;
   289; 279; 107; 119; 97; 113; 149; 128; 24; 14; 15; 17; 23; 184; 199; 202; 190; 219; 211; 226;
   196; 218; 236; 165; 166; 171; 173; 178; 181; 180; 168; 67; 69; 203; 215; 327; 328; 160; 161;
   103; 129; 44; 109; 98; 100; 46; 1; 2; 3; 4; 145; 159; 192; 221; 47; 151; 175; 99].
Proof. reflexivity. Qed.

Lemma startup_nodup fuel : NoDup (ordinal <$> startup_exports fuel).
Proof. rewrite startup_ordinals. apply (bool_decide_unpack _). by vm_compute. Qed.

Lemma startup_registered fuel : exists registry,
  register_startup_exports fuel ∅ = Ok registry /\
  forall o e, registry !! o = Some e <-> e ∈ startup_exports fuel /\ ordinal e = o.
Proof.
  destruct (register_all_ok ∅ (startup_exports fuel) (startup_nodup fuel)) as (registry & Hr & Hl).
  { intros e _. apply lookup_empty. }
  exists registry. split; [exact Hr|]. clear Hr. intros o e. rewrite Hl, lookup_empty. split.
  - destruct (find _ _) as [e'|] eqn:Hf; [|done]. intros [= <-].
    apply find_some in Hf as [Hin Ho]. split; [by apply list_elem_of_In | by apply Z.eqb_eq].
  - intros [Hin Ho]. destruct (find _ (startup_exports fuel)) as [e'|] eqn:Hf.
    + apply find_some in Hf as [Hin' Ho']. apply Z.eqb_eq in Ho'. f_equal.
      apply list_elem_of_In in Hin'.
      apply list_elem_of_lookup in Hin as [i Hi]. apply list_elem_of_lookup in Hin' as [j Hj].
      assert (i = j) as ->; [|congruence].
      eapply (NoDup_lookup _ _ _ o (startup_nodup fuel));
        rewrite list_lookup_fmap, ?Hi, ?Hj; cbn; congruence.
    + apply list_elem_of_In in Hin. apply (find_none _ _ Hf) in Hin. by apply Z.eqb_neq in Hin.
Qed.

Lemma startup_plain fuel e : e ∈ startup_exports fuel -> u16 (ordinal e) /\ is_stub e = false.
Proof.
  intros He. split.
  - assert (Forall u16 (ordinal <$> startup_exports fuel)) as Hall.
    { rewrite startup_ordinals. repeat (apply Forall_cons; split; [unfold is_u; lia|]).
      apply Forall_nil_2. }
    rewrite Forall_fmap, Forall_forall in Hall. by apply Hall.
  - assert (is_stub <$> startup_exports fuel = replicate 77 false) as Hall by reflexivity.
    apply (list_elem_of_fmap_2 is_stub) in He. rewrite Hall in He.
    by apply elem_of_replicate_inv in He.
Qed.

Lemma registered_lookup fuel registry : register_startup_exports fuel ∅ = Ok registry ->
  forall o e, registry !! o = Some e <-> e ∈ startup_exports fuel /\ ordinal e = o.
Proof.
  intros Hr. destruct (startup_registered fuel) as (registry' & Hr' & Hl).
  rewrite Hr in Hr'. injection Hr' as <-. exact Hl.
Qed.

(** Start-up registration succeeds on an empty registry, holds exactly the
    77 exports, each under its own ordinal, reached through that ordinal's
    gate; registering any of them again is refused as a duplicate. *)
Theorem startup_registry_complete (fuel : nat) : exists registry,
  register_startup_exports fuel ∅ = Ok registry /\
  size registry = 77%nat /\
  (forall o e, registry !! o = Some e <-> e ∈ startup_exports fuel /\ ordinal e = o) /\
  (forall e, e ∈ startup_exports fuel ->
     gate_ordinal (gate_address (ordinal e)) = Some (ordinal e) /\ is_stub e = false /\
     register_shared registry e = Err (DuplicateOrdinal (ordinal e))).
Proof.
  destruct (startup_registered fuel) as (registry & Hr & Hl). exists registry.
  split; [exact Hr|]. clear Hr. split_and!; [|done|].
  - assert (dom registry = list_to_set (C := gset Z) (ordinal <$> startup_exports fuel)) as Hdom.
    { apply set_eq. intros o. rewrite elem_of_dom, elem_of_list_to_set, list_elem_of_fmap. split.
      - intros [e He]. apply Hl in He as [? ?]. by exists e.
      - intros (e & -> & He). exists e. by apply Hl. }
    by rewrite <- size_dom, Hdom, size_list_to_set, length_fmap by apply startup_nodup.
  - intros e He. assert (u16 (ordinal e) /\ is_stub e = false) as [Ho Hs].
    { by eapply startup_plain. }
    split_and!; [by apply gate_ordinal_address | done|].
    unfold register_shared. by rewrite (proj2 (Hl (ordinal e) e)).
Qed.
End Registry.

(** ** The machine after a call *)

Section Machine.
Context `{HostOs}.

Lemma with_same_memory s : with_memory s (memory s) = s.
Proof. by destruct s. Qed.

(** Whatever the guest's registers become, the manager stays reachable. *)
Lemma reachable_cpu s cpu cpu' : reachable (s, cpu) -> cpu_wf cpu' -> reachable (s, cpu').
Proof.
  intros Hr Hc. eapply reach_step; [exact Hr|].
  rewrite <- (with_same_memory s) at 2. by constructor.
Qed.

Lemma reachable_rtc c c' : rtc tm_step c c' -> reachable c -> reachable c'.
Proof. induction 1; [done|]. intros. by eauto using reach_step. Qed.

Definition machine_ok (cpu : CpuState) (tm : ThreadManager) : Prop :=
  reachable (tm, cpu) /\ sys_ok tm.

Lemma machine_cpu cpu tm : machine_ok cpu tm -> cpu_wf cpu.
Proof. intros [Hr _]. apply (reachable_ok _ Hr). Qed.

(** *** Pending actions *)

Lemma sys_publish s i st : sys_ok s -> sys_ok (publish_thread_exit s i st).
Proof.
  intros Hs. unfold publish_thread_exit. case_match; [|done]. cbn zeta.
  match goal with |- context [mem_write_u32 (memory s) ?a ?v] =>
    pose proof (sys_write_u32 s a v Hs) as Hw; destruct (mem_write_u32 (memory s) a v) as [[?|?] mem] end;
    [|done]. cbn [snd] in Hw.
  match goal with |- context [mem_write_u32 mem ?a ?v] =>
    apply (sys_write_u32 (with_memory s mem) a v Hw) end.
Qed.

Lemma sys_exit s cpu st : sys_ok s -> sys_ok (exit_active s cpu st).1.2.
Proof.
  intros Hs. unfold exit_active. cbn zeta.
  set (s1 := publish_thread_exit _ _ _).
  assert (sys_ok s1) as H1 by (apply sys_publish; by apply (sys_same s)).
  set (s2 := (wake_by_key s1 _ true).2). assert (sys_ok s2) as H2 by by apply sys_wake.
  match goal with |- context [iter_position is_ready (threads ?x)] => set (s3 := x) end.
  assert (sys_ok s3) as H3 by (unfold s3; case_match; [by apply sys_wake | done]).
  destruct (iter_position is_ready (threads s3)); [|done].
  by apply (sys_same s3).
Qed.

Lemma sys_park s b cpu : sys_ok s -> sys_ok (park_active s b cpu).1.2.
Proof.
  intros Hs. unfold park_active. cbn zeta. case_match; by apply (sys_same s).
Qed.

Lemma pending_machine core tm stop core' : core_threads core = Some tm ->
  machine_ok (core_cpu core) tm -> apply_pending_scheduling core = (stop, core') ->
  exists tm', core_threads core' = Some tm' /\ machine_ok (core_cpu core') tm'.
Proof.
  intros Htm [Hr Hs]. unfold apply_pending_scheduling. rewrite Htm.
  assert (sys_ok (take_pending tm).2) as Hs' by by apply (sys_same tm).
  assert (reachable ((take_pending tm).2, core_cpu core)) as Hr'
    by (eapply reach_step; [exact Hr | constructor]).
  unfold take_pending in *. cbn [snd] in *. destruct (pending tm) as [[status|block]|] eqn:Hp.
  - unfold core_exit_current_thread. cbn [core_threads with_core_threads core_cpu].
    pose proof (sys_exit _ (core_cpu core) status Hs') as Hse.
    pose proof (reach_step _ _ Hr' (step_exit _ _ status)) as Hre.
    destruct (exit_active _ _ _) as [[sw tm'] cpu']. cbn [fst snd] in *.
    repeat case_match; intros [= <- <-]; (eexists; split; [reflexivity | by split]).
  - cbn [core_interrupted with_core_threads core_cpu]. destruct (core_interrupted core).
    + intros [= <- <-]. eexists. split; [reflexivity | by split].
    + pose proof (sys_park _ block (core_cpu core) Hs') as Hsp.
      pose proof (reach_step _ _ Hr (step_park _ _ block Hp)) as Hrp. unfold take_pending in Hrp.
      cbn [snd core_cpu with_core_threads] in *.
      destruct (park_active _ _ _) as [[pk tm'] cpu']. cbn [fst snd] in *.
      intros [= <- <-]. eexists. split; [reflexivity | by split].
  - intros [= <- <-]. eexists. split; [reflexivity | by split].
Qed.

(** *** Dispatch *)

(** The registers a dispatch leaves: the frame is popped and the status is in
    EAX. *)
Definition returned (cpu : CpuState) (bytes return_address status : Z) : CpuState :=
  set_gpr (with_eip (set_gpr cpu 4 (wrapping_add32 (wrapping_add32 (gpr_at cpu 4) 4) bytes))
             return_address) 0 status.

Lemma returned_wf cpu n r st : cpu_wf cpu -> u32 r -> u32 st -> cpu_wf (returned cpu n r st).
Proof.
  intros Hc Hr Hst. unfold returned. apply set_gpr_wf; [|done]. apply with_eip_wf; [|done].
  apply set_gpr_wf; [done | apply u32_wrapping_add].
Qed.

Lemma returned_gpr cpu n r st k : length (gpr cpu) = 8%nat ->
  gpr_at (returned cpu n r st) k =
  if decide (k = 0%nat) then st
  else if decide (k = 4%nat) then wrapping_add32 (wrapping_add32 (gpr_at cpu 4) 4) n
  else gpr_at cpu k.
Proof.
  intros Hl. unfold returned. rewrite gpr_at_set by (cbn; rewrite length_insert; lia).
  destruct (decide (k = 0%nat)); [done|]. change (gpr_at (with_eip ?s ?v) k) with (gpr_at s k).
  by rewrite gpr_at_set by lia.
Qed.

Context `{!HostBytes}.

Lemma dispatch_machine fuel e g o r g' : e ∈ startup_exports fuel ->
  machine_ok (gate_cpu g) (gate_threads g) ->
  dispatch_registered_export g o e = Some (r, g') ->
  machine_ok (gate_cpu g') (gate_threads g') /\
  match r with
  | Err _ => gate_cpu g' = gate_cpu g
  | Ok (Dispatched o' resume status _) =>
    o' = o /\ mem_read_u32 (gate_memory g') (gpr_at (gate_cpu g) 4) = Ok resume /\
    gate_cpu g' = returned (gate_cpu g) (stack_bytes e) resume status
  | Ok _ => False
  end.
Proof.
  intros He Hm Hrun. pose proof (machine_cpu _ _ Hm) as Hcpu. destruct Hm as [Hr Hs].
  pose proof (registered_stepwise fuel) as Hall. rewrite Forall_forall in Hall.
  pose proof (Hall e He (mkKernelCallContext (gate_cpu g) (gate_threads g) (gate_host g) None))
    as Hstep.
  destruct Hstep as [(Hkeep & Hrtc & Hsys) Hout]; [by split|]. cbn [ctx_cpu services] in *.
  unfold dispatch_registered_export, run_call in Hrun.
  destruct (call e _) as [out c]. cbn [fst snd] in *.
  pose proof (reachable_rtc _ _ Hrtc Hr) as Hreach.
  assert (exists st, (out = Value st \/ out = Return st) /\ u32 st) as (st & Hst & Hu).
  { destruct out as [st|st|]; [exists st; auto .. | done]. }
  assert (Some (match mem_read_u32 (ctx_memory c) (gpr_at (ctx_cpu c) 4) with
      | Err e => (Err (CoreMemory e), mkGateState (ctx_cpu c) (services c) (host c))
      | Ok ra => (Ok (Dispatched o ra st (stop_request c)),
                  mkGateState (returned (ctx_cpu c) (stack_bytes e) ra st) (services c) (host c))
      end) = Some (r, g')) as Hres by (destruct Hst as [-> | ->]; exact Hrun).
  rewrite Hkeep in Hres. clear Hrun.
  destruct (mem_read_u32 (ctx_memory c) (gpr_at (gate_cpu g) 4)) as [ra|err] eqn:Hra;
    simplify_eq; cbn [gate_cpu gate_threads].
  - assert (u32 ra) as Hra32 by (eapply read_u32_any; [apply Hsys | exact Hra]).
    split; [|done]. split; [|done]. eapply reachable_cpu; [exact Hreach | by apply returned_wf].
  - split; [by split | done].
Qed.

(** C11: A kernel call keeps the machine: whatever ordinal the guest jumps to
    and whatever its arguments, stack and memory hold, if the call comes back
    then the machine it leaves, with the exit or the wait the export asked for
    performed, is again a reachable manager with well-typed registers, RAM and
    pool. *)
Theorem kernel_call_keeps_machine (fuel : nat) (registry : gmap Z KernelExport) (g : GateState)
    (o : Z) (interrupted : option CpuState) (r : result CoreError (option StopReason))
    (core : Emulator) (w : World) :
  register_startup_exports fuel ∅ = Ok registry ->
  machine_ok (gate_cpu g) (gate_threads g) ->
  dispatch_gate_by_eip registry g o interrupted = Some (r, core, w) ->
  exists tm, core_threads core = Some tm /\ reachable (tm, core_cpu core) /\ sys_ok tm /\
    cpu_wf (core_cpu core).
Proof.
  intros Hreg Hm Hrun. pose proof (registered_lookup _ _ Hreg) as Hl. clear Hreg.
  assert (exists tm, core_threads core = Some tm /\ machine_ok (core_cpu core) tm) as (tm & Htm & Hok).
  2: { exists tm. split; [done|]. pose proof (machine_cpu _ _ Hok). by destruct Hok. }
  unfold dispatch_gate_by_eip in Hrun. destruct (registry !! o) as [e|] eqn:He.
  - apply Hl in He as [Hin _].
    destruct (dispatch_registered_export g o e) as [[res g']|] eqn:Hd; cbn in Hrun; [|done].
    destruct (dispatch_machine fuel e g o res g' Hin Hm Hd) as [Hm' _].
    destruct res as [assist|err]; [|simplify_eq; by eexists].
    destruct (after_dispatch assist g' interrupted) as [stop core'] eqn:Ha. simplify_eq.
    unfold after_dispatch in Ha. destruct assist as [o' resume st [st'|]|o'|]; simplify_eq;
      try (eexists; split; [reflexivity | done]).
    destruct (st =? _); [simplify_eq; by eexists|].
    by eapply pending_machine in Ha.
  - simplify_eq. by eexists.
Qed.

(** C15: A call through an import slot is a stdcall: the slot holds the gate of
    a registered export, the call resumes at the word then in its return slot
    (the address after the instruction unless the export stored there), ESP
    moves up by exactly the export's argument bytes, EAX holds the status, and
    no other register changes. *)
Theorem gate_call_stdcall (fuel : nat) (registry : gmap Z KernelExport) (g g' : GateState)
    (i : Instruction) (o resume status : Z) (stop : option StopReason) :
  register_startup_exports fuel ∅ = Ok registry ->
  machine_ok (gate_cpu g) (gate_threads g) ->
  gate_call_with registry g i = Some (Ok (Dispatched o resume status stop), g') ->
  let esp := gpr_at (gate_cpu g) 4 in
  exists slot e, Subset.indirect_call_slot i = Some slot /\ e ∈ startup_exports fuel /\
    ordinal e = o /\ mem_read_u32 (gate_memory g) slot = Ok (gate_address o) /\
    mem_read_u32 (gate_memory g') (wrapping_sub32 esp 4) = Ok resume /\
    eip (gate_cpu g') = resume /\ gpr_at (gate_cpu g') 0 = status /\
    gpr_at (gate_cpu g') 4 = wrapping_add32 esp (stack_bytes e) /\
    (forall k, k <> 0%nat -> k <> 4%nat -> gpr_at (gate_cpu g') k = gpr_at (gate_cpu g) k) /\
    eflags (gate_cpu g') = eflags (gate_cpu g) /\ segments (gate_cpu g') = segments (gate_cpu g) /\
    tsc (gate_cpu g') = tsc (gate_cpu g) /\
    machine_ok (gate_cpu g') (gate_threads g').
Proof.
  intros Hreg Hm Hrun. pose proof (registered_lookup _ _ Hreg) as Hl. clear Hreg. cbn zeta. pose proof (machine_cpu _ _ Hm) as Hcpu. unfold gate_call_with in Hrun.
  destruct (Subset.indirect_call_slot i) as [slot|]; [|done].
  destruct (mem_read_u32 (gate_memory g) slot) as [target|] eqn:Hslot; [|done].
  destruct (gate_ordinal target) as [o'|] eqn:Ho; [|done]. apply gate_ordinal_some in Ho as [_ ->].
  destruct (registry !! o') as [e|] eqn:He; [|done]. apply Hl in He as [Hin Hoe].
  destruct (checked_add 32 _ _) as [next|] eqn:Hnext; [|done].
  set (esp := wrapping_sub32 _ 4) in *.
  destruct (mem_write_u32 (gate_memory g) esp next) as [[[]|err] mem] eqn:Hw; [|done].
  set (g1 := mkGateState _ _ _) in Hrun.
  assert (machine_ok (gate_cpu g1) (gate_threads g1)) as Hm1.
  { destruct Hm as [Hr Hs]. split; cbn.
    - eapply reach_step; [exact Hr|]. constructor. apply set_gpr_wf; [done | apply u32_wrapping_sub].
    - pose proof (sys_write_u32 _ esp next Hs) as Hsw. fold (gate_memory g) in Hsw.
      by rewrite Hw in Hsw. }
  destruct (dispatch_machine fuel e g1 o' _ g' Hin Hm1 Hrun) as [Hm' (<- & Hres & Hcpu')].
  assert (length (gpr (gate_cpu g)) = 8%nat) as Hlen by apply Hcpu.
  cbn [gate_cpu g1] in Hres, Hcpu'. rewrite gpr_at_set, decide_True in Hres by lia.
  assert (length (gpr (set_gpr (gate_cpu g) 4 esp)) = 8%nat) as Hlen' by (cbn; by rewrite length_insert).
  exists slot, e. rewrite Hcpu'. split_and!; try done.
  - by rewrite returned_gpr.
  - rewrite returned_gpr, gpr_at_set by lia.
    rewrite (decide_False (P := 4%nat = 0%nat)), !decide_True by done. unfold esp.
    by rewrite wrapping_add_sub by (apply gpr_at_wf, Hcpu).
  - intros k Hk0 Hk4. rewrite returned_gpr by done. rewrite !decide_False by done.
    rewrite gpr_at_set by lia. by rewrite decide_False.
  - by rewrite <- Hcpu'.
Qed.
End Machine.

(** ** A call in a booted machine *)

#[local] Instance demo_bytes : @HostBytes demo_host.
Proof.
  intros w f n bytes f' Hr. cbn in Hr. simplify_eq.
  apply Forall_take, Forall_map, Forall_true. intros b. apply wrap_range. lia.
Qed.

Lemma demo_sys : @sys_ok demo_host demo_booted.
Proof.
  assert (@sys_ok demo_host demo_unbooted) as Hu.
  { split; [|apply map_Forall_empty | apply Forall_nil_2]. unfold ram_ok.
    assert (physical_len demo_ram = 0x20000 /\ physical demo_ram = ∅) as [Hl Hp] by by vm_compute.
    cbn [memory demo_unbooted ThreadManager_new]. rewrite Hl, Hp. split; [done | apply map_Forall_empty]. }
  unfold demo_booted, create_boot_environment.
  apply (keeps_then (@sys_ok demo_host)); [apply sys_thread_pages| |done]. intros kpcr.
  apply keeps_then; [apply keeps_modify; intros s; by apply sys_same|]. intros _.
  apply keeps_then; [apply keeps_modify; intros s; by apply sys_same | intros _; apply keeps_ret].
Qed.

(** The slot at [0x80011000] holds the gate of [KeGetCurrentIrql]. *)
Definition demo_slot : Z := 0x80011000.
Definition demo_patched : @ThreadManager demo_host :=
  with_memory demo_booted (mem_write_u32 (memory demo_booted) demo_slot (gate_address 103)).2.
Definition demo_call_cpu : CpuState := set_gpr CpuState_default 4 0x80010000.
Definition demo_gate : @GateState demo_host := mkGateState demo_call_cpu demo_patched demo_world.
Definition demo_slot_call : Instruction :=
  mkInstruction Mnemonic.Call Code.Call_rm32 0 6 1 (fun _ => OpKind.Memory)
    (fun _ => Register.None) 0 0 0 0 0 0 Register.None Register.None 1 demo_slot demo_slot
    Register.DS 4 ConditionCode.None false false.

Lemma demo_machine : @machine_ok demo_host demo_call_cpu demo_patched.
Proof.
  split; [|apply sys_write_u32, demo_sys].
  eapply reach_step; [exact demo_reachable|]. constructor.
  apply set_gpr_wf; [exact cpu_default_wf | unfold is_u; lia].
Qed.

Lemma kernel_call_keeps_machine_witness : exists registry r core w tm,
  @register_startup_exports demo_host 0 ∅ = Ok registry /\
  dispatch_gate_by_eip registry demo_gate 103 None = Some (r, core, w) /\
  core_threads core = Some tm /\ reachable (tm, core_cpu core).
Proof.
  destruct (@startup_registered demo_host 0) as (registry & Hreg & Hl).
  assert (registry !! 103 = Some KeGetCurrentIrql) as He.
  { apply Hl. split; [|reflexivity]. do 58 apply list_elem_of_further. apply list_elem_of_here. }
  destruct (dispatch_gate_by_eip registry demo_gate 103 None) as [[[r core] w]|] eqn:Hd.
  - exists registry, r, core, w.
    destruct (@kernel_call_keeps_machine demo_host demo_bytes 0 registry demo_gate 103 None r core w
      Hreg demo_machine Hd) as (tm & Htm & Hr & _).
    exists tm. split_and!; [exact Hreg | exact Hd | exact Htm | exact Hr].
  - exfalso. unfold dispatch_gate_by_eip in Hd. rewrite He in Hd.
    assert (bool_decide (is_Some (dispatch_registered_export demo_gate 103 KeGetCurrentIrql)) = true)
      as Hs by by vm_compute.
    apply bool_decide_eq_true in Hs as [[r g'] Hs]. rewrite Hs in Hd. discriminate Hd.
Defined.

(** The dispatch of [demo_slot_call], the registry aside. *)
Definition demo_slot_dispatch : option (result CoreError GateAssist * @GateState demo_host) :=
  dispatch_registered_export
    (mkGateState (set_gpr demo_call_cpu 4 0x8000FFFC)
       (with_memory demo_patched (mem_write_u32 (memory demo_patched) 0x8000FFFC 6).2) demo_world)
    103 KeGetCurrentIrql.

Lemma demo_slot_call_runs (registry : gmap Z (@KernelExport demo_host)) :
  registry !! 103 = Some KeGetCurrentIrql ->
  gate_call_with registry demo_gate demo_slot_call = demo_slot_dispatch.
Proof.
  intros He. unfold gate_call_with, demo_slot_dispatch.
  change (Subset.indirect_call_slot demo_slot_call) with (Some demo_slot). cbn iota.
  assert (mem_read_u32 (gate_memory demo_gate) demo_slot = Ok (gate_address 103)) as -> by by vm_compute.
  rewrite gate_ordinal_address by (unfold is_u; lia). rewrite He.
  change (checked_add 32 (eip (gate_cpu demo_gate)) (len demo_slot_call)) with (Some 6). cbn iota.
  change (wrapping_sub32 (gpr_at (gate_cpu demo_gate) 4) 4) with 0x8000FFFC.
  assert ((mem_write_u32 (gate_memory demo_gate) 0x8000FFFC 6).1 = Ok tt) as Hw by by vm_compute.
  change (memory demo_patched) with (gate_memory demo_gate).
  destruct (mem_write_u32 (gate_memory demo_gate) 0x8000FFFC 6) as [r mem]. cbn [fst snd] in *.
  by rewrite Hw.
Qed.

Lemma gate_call_stdcall_witness : exists registry g',
  @register_startup_exports demo_host 0 ∅ = Ok registry /\
  gate_call_with registry demo_gate demo_slot_call = Some (Ok (Dispatched 103 6 0 None), g') /\
  eip (gate_cpu g') = 6 /\ gpr_at (gate_cpu g') 4 = 0x80010000.
Proof.
  destruct (@startup_registered demo_host 0) as (registry & Hreg & Hl).
  assert (registry !! 103 = Some KeGetCurrentIrql) as He.
  { apply Hl. split; [|reflexivity]. do 58 apply list_elem_of_further. apply list_elem_of_here. }
  assert (fst <$> demo_slot_dispatch = Some (Ok (Dispatched 103 6 0 None))) as Hres by by vm_compute.
  pose proof (demo_slot_call_runs registry He) as Hrun.
  destruct demo_slot_dispatch as [[r g']|]; [|discriminate Hres].
  cbn in Hres. injection Hres as ->.
  destruct (@gate_call_stdcall demo_host demo_bytes 0 registry demo_gate g' demo_slot_call 103 6 0
    None Hreg demo_machine Hrun) as (slot & e & _ & Hin & Ho & _ & _ & Heip & _ & Hesp & _).
  exists registry, g'. split_and!; [exact Hreg | exact Hrun | exact Heip |].
  rewrite Hesp. pose proof (proj2 (Hl 103 e) (conj Hin Ho)) as He'. rewrite He in He'.
  injection He' as <-. reflexivity.
Defined.
