(* ===== verification/CriticalSections.v ===== *)
(** * Critical sections

    [RtlEnterCriticalSection] and [RtlLeaveCriticalSection] keep their lock in
    guest memory and their waiters in the thread table.  The lock they promise
    is a recursive lock with a set of waiters; the exports, and the parking
    the run loop does for them, are a refinement of it: every call is a step
    of the abstract lock.

    The guest may map the pages of a section in any way: two words less than
    a page apart never share a byte. *)

From Stdlib Require Import Ascii.
From stdpp Require Import strings.
From S2P Require Import Prelude GuestTypes PageTable Allocator GuestMemory SoftwareSpace SoftwareSpaceProofs SpaceTheorems CpuState KernelTypes HostFiles HostFileTheorems Runtime RuntimeMemory SchedulerSteps CoreScheduling SchedulerReach SystemTyping KernelCalls ThreadExports MemoryExports DispatchTheorems.

#[local] Infix "+w" := wrapping_add32 (at level 50, left associativity).

(** ** Words of guest memory *)

Definition rw_word (mem : SoftwareAddressSpace) (a : Z) : Prop :=
  u32 a /\ is_ok (access_offsets mem Read a 4) = true /\
  is_ok (access_offsets mem Write a 4) = true.

(** Words whose bytes are near but apart. *)
Definition apart (a b : Z) : Prop := 4 <= Z.abs (a - b) <= 4092.

Lemma offsets_apart mem access access' a b os os' :
  access_offsets mem access a 4 = Ok os -> access_offsets mem access' b 4 = Ok os' ->
  apart a b -> forall o, o ∈ os -> o ∉ os'.
Proof.
  unfold access_offsets. cbn [decide]. intros Ha Hb Hab o Ho Ho'.
  repeat case_decide; simplify_eq; try lia.
  apply list_elem_of_lookup in Ho as [i Hi]. apply list_elem_of_lookup in Ho' as [j Hj].
  pose proof (length_translate_all _ _ _ _ _ _ Ha). pose proof (length_translate_all _ _ _ _ _ _ Hb).
  pose proof (lookup_lt_Some _ _ _ Hi). pose proof (lookup_lt_Some _ _ _ Hj).
  apply (translate_all_lookup _ _ _ _ _ _ _ _ Ha), translate_mod in Hi.
  apply (translate_all_lookup _ _ _ _ _ _ _ _ Hb), translate_mod in Hj.
  unfold apart in Hab. dlia.
Qed.

(** A store of a word: what it leaves there, and what it leaves alone. *)
Lemma put_word mem a v : ram_ok mem -> rw_word mem a -> u32 v ->
  exists mem', mem_write_u32 mem a v = (Ok tt, mem') /\ ram_ok mem' /\
    mem_read_u32 mem' a = Ok v /\
    (forall b, rw_word mem b -> rw_word mem' b) /\
    (forall b, u32 b -> apart a b -> mem_read_u32 mem' b = mem_read_u32 mem b).
Proof.
  intros Hm (Ha & Hr & Hw) Hv.
  destruct (mem_write_u32 mem a v) as [r mem'] eqn:Hrun. unfold mem_write_u32 in Hrun.
  cbn [mem_write SoftwareAddressSpace_GuestMemory] in Hrun. pose proof Hrun as Hspec.
  unfold space_write in Hspec. rewrite access_write_spec in Hspec by done.
  rewrite length_to_le_bytes in Hspec.
  destruct (access_offsets mem Write a 4) as [os|] eqn:Hos; [|done].
  assert (r = Ok tt) as -> by (by injection Hspec).
  pose proof (to_le_bytes_u8 4 v) as Hb8.
  pose proof (write_ram_ok _ _ _ _ _ Hm Ha Hb8 Hrun) as Hm'.
  assert (forall access b, access_offsets mem' access b 4 = access_offsets mem access b 4) as Hkeep
    by (intros; exact (write_keeps_offsets _ _ _ _ _ _ _ _ Hm Ha Hrun)).
  exists mem'. split_and!; [done | done | | |].
  - apply (write_read_u32 mem a v mem'); try done. cbn [mem_read SoftwareAddressSpace_GuestMemory].
    unfold space_read. rewrite access_read_spec by done. by destruct (access_offsets mem Read a 4).
  - intros b (? & ? & ?). unfold rw_word. by rewrite !Hkeep.
  - intros b Hb Hab. unfold mem_read_u32. cbn [mem_read SoftwareAddressSpace_GuestMemory].
    unfold space_read. rewrite !access_read_spec, Hkeep by done.
    destruct (access_offsets mem Read b 4) as [os'|] eqn:Hos'; [|done]. cbn. do 2 f_equal.
    injection Hspec as <-. cbn [with_table with_physical physical].
    apply map_ext_in. intros o Ho. rewrite store_at_byte, last_written_none; [done|].
    intros Hin. apply list_elem_of_In in Ho.
    exact (offsets_apart _ _ _ _ _ _ _ Hos Hos' Hab o Hin Ho).
Qed.

(** ** The lock that is promised *)

Inductive Lock : Type :=
| Free
| Held (owner depth : Z) (waiting : gset nat).

(** A thread with the control block [k] and the index [i] enters; the flag
    tells whether it has to wait. *)
Inductive lock_enter (k : Z) (i : nat) : Lock -> Lock -> bool -> Prop :=
| enter_free : lock_enter k i Free (Held k 1 ∅) false
| enter_again depth W : lock_enter k i (Held k depth W) (Held k (depth + 1) W) false
| enter_waits k' depth W : k' <> k ->
    lock_enter k i (Held k' depth W) (Held k' depth ({[i]} ∪ W)) true.

(** The owner leaves; the last leave hands the lock to one waiter. *)
Inductive lock_leave (block_of : nat -> option Z) (k : Z) : Lock -> Lock -> Prop :=
| leave_inner depth W : 1 < depth ->
    lock_leave block_of k (Held k depth W) (Held k (depth - 1) W)
| leave_last : lock_leave block_of k (Held k 1 ∅) Free
| leave_to i k' W : i ∈ W -> block_of i = Some k' ->
    lock_leave block_of k (Held k 1 W) (Held k' 1 (W ∖ {[i]})).

(** A decidable form of the words of a section being mapped. *)
Definition rw_word_check (mem : SoftwareAddressSpace) (a : Z) : bool :=
  (0 <=? a) && (a <? 2 ^ 32) && is_ok (access_offsets mem Read a 4) && is_ok (access_offsets mem Write a 4).

Lemma rw_words_check mem section offs :
  forallb (fun off => rw_word_check mem (section + off)) offs = true ->
  Forall (fun off => rw_word mem (section + off)) offs.
Proof.
  intros Hall. apply Forall_forall. intros off Hoff. rewrite forallb_forall in Hall.
  specialize (Hall off (proj1 (list_elem_of_In _ _) Hoff)). unfold rw_word_check in Hall.
  apply andb_true_iff in Hall as [Hall Hw]. apply andb_true_iff in Hall as [Hu Hr].
  split_and!; [unfold is_u; lia | exact Hr | exact Hw].
Qed.

Section Sections.
Context `{HostOs}.

(** ** How guest memory and the thread table represent it *)

Definition kthread (t : GuestThread) : Z := wrapping_add32 (th_kpcr t) KTHREAD_OFFSET.
Definition block_of (s : ThreadManager) (i : nat) : option Z := kthread <$> threads s !! i.
Definition waiters (s : ThreadManager) (section : Z) : gset nat :=
  list_to_set (thread_indices (waits_on section) s).

Definition header_words : list Z := [0x00; 0x04; 0x08; 0x0C; LOCK_COUNT; RECURSION_COUNT; OWNING_THREAD].

(** The structure lies in mapped memory. *)
Definition section_mapped (s : ThreadManager) (section : Z) : Prop :=
  ram_ok (memory s) /\ 0 <= section /\ section + 0x1C <= 2 ^ 32 /\
  Forall (fun off => rw_word (memory s) (section + off)) header_words.

Definition lock_words (s : ThreadManager) (section l r o : Z) : Prop :=
  mem_read_u32 (memory s) (section + LOCK_COUNT) = Ok l /\
  mem_read_u32 (memory s) (section + RECURSION_COUNT) = Ok r /\
  mem_read_u32 (memory s) (section + OWNING_THREAD) = Ok o.

Definition represents (s : ThreadManager) (section : Z) (L : Lock) : Prop :=
  section_mapped s section /\ Forall (fun t => kthread t <> 0) (threads s) /\
  match L with
  | Free => lock_words s section UNOWNED_LOCK_COUNT 0 0 /\ waiters s section = ∅
  | Held owner depth W =>
    lock_words s section (depth + Z.of_nat (size W) - 1) depth owner /\
    waiters s section = W /\ 1 <= depth /\ depth + Z.of_nat (size W) < 2 ^ 32 /\ owner <> 0
  end.

(** ** Running the fields *)

Lemma bind_run {A B} (m : Call A) (k : A -> Call B) c a c' :
  m c = (Value a, c') -> (m ≫= k) c = k a c'.
Proof. intros Hm. unfold mbind, Call_bind. by rewrite Hm. Qed.

Lemma header_apart section off off' : off ∈ header_words -> off' ∈ header_words -> off' <> off ->
  apart (section + off) (section + off').
Proof.
  unfold header_words, LOCK_COUNT, RECURSION_COUNT, OWNING_THREAD, apart. intros Ho Ho' Hne.
  repeat (apply elem_of_cons in Ho as [->|Ho];
    [repeat (apply elem_of_cons in Ho' as [->|Ho']; [lia|]); by apply not_elem_of_nil in Ho'|]).
  by apply not_elem_of_nil in Ho.
Qed.

Lemma section_address s section off : section_mapped s section -> off ∈ header_words ->
  wrapping_add32 section off = section + off /\ u32 (section + off) /\ rw_word (memory s) (section + off).
Proof.
  intros (_ & Hlo & Hhi & Hw) Hoff. rewrite Forall_forall in Hw. pose proof (Hw off Hoff) as Hrw.
  destruct (Hrw) as [Hu _]. split_and!; try done. by apply wrap_small.
Qed.

Lemma run_set_field c section off v : section_mapped (services c) section ->
  off ∈ header_words -> u32 v ->
  exists mem, set_field section off v c = (Value tt, with_services c (with_memory (services c) mem)) /\
    section_mapped (with_memory (services c) mem) section /\
    mem_read_u32 mem (section + off) = Ok v /\
    forall off', off' ∈ header_words -> off' <> off ->
      mem_read_u32 mem (section + off') = mem_read_u32 (memory (services c)) (section + off').
Proof.
  intros Hm Hoff Hv. destruct (section_address _ _ _ Hm Hoff) as (Ha & Hu & Hrw).
  destruct (put_word _ _ v (proj1 Hm) Hrw Hv) as (mem & Hw & Hok & Hread & Hkeep & Hframe).
  exists mem. split_and!.
  - unfold set_field, put_u32, store_u32. rewrite Ha. unfold store, mbind, Call_bind.
    change (mem_write (ctx_memory c) (section + off) (to_le_bytes 4 v))
      with (mem_write_u32 (memory (services c)) (section + off) v). by rewrite Hw.
  - destruct Hm as (_ & ? & ? & Hf). split_and!; [done | done | done |].
    eapply Forall_impl; [exact Hf|]. cbn. auto.
  - done.
  - intros off' Hoff' Hne. destruct (section_address _ _ _ Hm Hoff') as (_ & ? & _).
    by apply Hframe, header_apart.
Qed.

Definition mapped_words (s : ThreadManager) (section l r o : Z) : Prop :=
  section_mapped s section /\ lock_words s section l r o.

(** The lock word, the recursion word and the owner word are their own. *)
Ltac in_header := unfold header_words; repeat first [apply list_elem_of_here | apply list_elem_of_further].
Ltac set_word off :=
  let Hm := fresh in let Hl := fresh in let Hr := fresh in let Ho := fresh in
  intros (Hm & Hl & Hr & Ho) Hv;
  destruct (run_set_field _ _ off _ Hm ltac:(in_header) Hv) as (mem & Hrun & Hm' & Hat & Hframe);
  exists mem; split; [exact Hrun|]; split; [exact Hm'|];
  split_and!; cbn [memory with_memory];
  first [exact Hat | rewrite Hframe by (in_header || done); assumption].

Lemma set_lock_word c section l r o v : mapped_words (services c) section l r o -> u32 v ->
  exists mem, set_field section LOCK_COUNT v c =
      (Value tt, with_services c (with_memory (services c) mem)) /\
    mapped_words (with_memory (services c) mem) section v r o.
Proof. set_word LOCK_COUNT. Qed.

Lemma set_recursion_word c section l r o v : mapped_words (services c) section l r o -> u32 v ->
  exists mem, set_field section RECURSION_COUNT v c =
      (Value tt, with_services c (with_memory (services c) mem)) /\
    mapped_words (with_memory (services c) mem) section l v o.
Proof. set_word RECURSION_COUNT. Qed.

Lemma set_owner_word c section l r o v : mapped_words (services c) section l r o -> u32 v ->
  exists mem, set_field section OWNING_THREAD v c =
      (Value tt, with_services c (with_memory (services c) mem)) /\
    mapped_words (with_memory (services c) mem) section l r v.
Proof. set_word OWNING_THREAD. Qed.

Lemma read_words c section l r o : mapped_words (services c) section l r o ->
  field section LOCK_COUNT c = l /\ field section RECURSION_COUNT c = r /\
  field section OWNING_THREAD c = o.
Proof.
  intros (Hm & Hl & Hr & Ho). unfold field, ctx_read_u32, ctx_memory.
  destruct (section_address _ _ LOCK_COUNT Hm ltac:(in_header)) as (-> & _ & _).
  destruct (section_address _ _ RECURSION_COUNT Hm ltac:(in_header)) as (-> & _ & _).
  destruct (section_address _ _ OWNING_THREAD Hm ltac:(in_header)) as (-> & _ & _).
  by rewrite Hl, Hr, Ho.
Qed.

Lemma take_section_words c section l r o k : mapped_words (services c) section l r o -> u32 k ->
  exists mem, take_section section k c = (Value tt, with_services c (with_memory (services c) mem)) /\
    mapped_words (with_memory (services c) mem) section l 1 k.
Proof.
  intros Hw Hk. unfold take_section.
  destruct (set_owner_word _ _ _ _ _ k Hw Hk) as (mem1 & H1 & Hw1).
  destruct (set_recursion_word (with_services c (with_memory (services c) mem1)) _ _ _ _ 1 Hw1)
    as (mem2 & H2 & Hw2); [unfold is_u; lia|].
  exists mem2. rewrite (bind_run _ _ _ _ _ H1), H2. split; [done | exact Hw2].
Qed.

(** ** The waiters *)

Lemma elem_waiters s section i :
  i ∈ waiters s section <-> exists t, threads s !! i = Some t /\ waits_on section t = true.
Proof. unfold waiters. rewrite elem_of_list_to_set. apply thread_indices_elem. Qed.

Definition section_block (section : Z) : WaitBlock := mkWaitBlock [section] false None STATUS_TIMEOUT.

(** Marking a thread that does not wait as running or ready keeps the set. *)
Lemma waiters_alter s i f section t : threads s !! i = Some t ->
  waits_on section (f t) = waits_on section t ->
  waiters (alter_thread i f s) section = waiters s section.
Proof.
  intros Ht Hf. apply set_eq. intros j. rewrite !elem_waiters. setoid_rewrite threads_alter.
  destruct (decide (i = j)) as [<-|Hne].
  - rewrite Ht. cbn. split; intros (u & [= <-] & Hu); eexists; (split; [reflexivity|]); congruence.
  - by destruct (threads s !! j).
Qed.

Lemma waiters_park s section cpu : thread_state s (current s) = Some Running ->
  waiters (park_active s (section_block section) cpu).1.2 section =
  {[current s]} ∪ waiters s section.
Proof.
  intros Hrun. unfold thread_state in Hrun. destruct (threads s !! current s) as [t|] eqn:Ht; [|done].
  cbn in Hrun. injection Hrun as Hrun.
  set (g := fun t => set_state (Waiting (section_block section)) (set_cpu cpu t)).
  assert (waiters (alter_thread (current s) g s) section = {[current s]} ∪ waiters s section) as Hw.
  { apply set_eq. intros j. rewrite elem_of_union, elem_of_singleton, !elem_waiters.
    setoid_rewrite threads_alter. destruct (decide (current s = j)) as [<-|Hne].
    - rewrite Ht. split; [by left|]. intros _. eexists. split; [reflexivity|]. cbn.
      by rewrite bool_decide_eq_true_2 by set_solver.
    - destruct (threads s !! j); cbn; naive_solver. }
  unfold park_active. fold g. cbn zeta. destruct (find _ _) as [next|] eqn:Hfind; [|exact Hw].
  cbn [fst snd]. rewrite <- Hw. apply find_some in Hfind as [_ Hnext].
  apply andb_true_iff in Hnext as [_ Hnext]. unfold ready_at in Hnext.
  destruct (threads (alter_thread (current s) g s) !! next) as [u|] eqn:Hu; [|done].
  unfold is_ready in Hnext. apply bool_decide_eq_true in Hnext.
  change (waiters (with_current ?x next) section) with (waiters x section).
  apply (waiters_alter _ _ _ _ u Hu). unfold waits_on. cbn. by rewrite Hnext.
Qed.

Lemma named_alter s i f : (forall t, kthread (f t) = kthread t) ->
  Forall (fun t => kthread t <> 0) (threads s) ->
  Forall (fun t => kthread t <> 0) (threads (alter_thread i f s)).
Proof.
  intros Hf Hall. apply Forall_lookup. intros j u. rewrite threads_alter. rewrite Forall_lookup in Hall.
  destruct (threads s !! j) as [t|] eqn:Ht; [|done]. cbn. intros [= <-].
  destruct (decide (i = j)); cbn; [rewrite Hf|]; by apply (Hall j).
Qed.

Lemma named_park s b cpu : Forall (fun t => kthread t <> 0) (threads s) ->
  Forall (fun t => kthread t <> 0) (threads (park_active s b cpu).1.2).
Proof.
  intros Hall. unfold park_active. cbn zeta. destruct (find _ _); cbn [fst snd]; [|by apply named_alter].
  apply (named_alter (alter_thread _ _ _)); [done|]. by apply named_alter.
Qed.

Lemma current_thread_some c k : current_thread c = Some k ->
  exists t, threads (services c) !! current (services c) = Some t /\ k = kthread t /\ u32 k.
Proof.
  unfold current_thread, object_for_handle. rewrite Z.eqb_refl.
  destruct (threads (services c) !! current (services c)) as [t|]; [|done]. cbn. intros [= <-].
  exists t. split_and!; [done | done | apply u32_wrapping_add].
Qed.

(** ** Entering *)

(** The recursion count and the waiters fit the words. *)
Definition room (L : Lock) : Prop :=
  match L with
  | Free => True
  | Held _ depth W => depth + Z.of_nat (size W) + 1 < 2 ^ 32
  end.

Lemma size_add (W : gset nat) i : i ∉ W -> size ({[i]} ∪ W) = S (size W).
Proof. intros Hi. rewrite size_union by set_solver. by rewrite size_singleton. Qed.

Lemma current_not_waiting s section : thread_state s (current s) = Some Running ->
  current s ∉ waiters s section.
Proof.
  unfold thread_state. intros Hrun Hin. apply elem_waiters in Hin as (t & Ht & Hw).
  rewrite Ht in Hrun. cbn in Hrun. injection Hrun as Hrun. unfold waits_on in Hw. by rewrite Hrun in Hw.
Qed.

Definition enters (c : KernelCallContext) (section k : Z) (L : Lock) : Prop :=
  exists L' waits c', lock_enter k (current (services c)) L L' waits /\
    run_call enter_critical_section c = (Some KernelStatus.SUCCESS, c') /\
    if (waits : bool) then
      forall cpu, exists core s',
        apply_pending_scheduling (mkEmulator cpu (Some (services c')) None) = (None, core) /\
        core_threads core = Some s' /\ represents s' section L' /\
        thread_state s' (current (services c)) = Some (Waiting (section_block section))
    else represents (services c') section L' /\ pending (services c') = pending (services c).

Lemma represents_words s section L : represents s section L -> exists l r o,
  mapped_words s section l r o /\ u32 l /\ u32 r.
Proof.
  intros (Hm & _ & HL). destruct L as [|owner depth W].
  - destruct HL as [Hw _]. eexists _, _, _. split; [exact (conj Hm Hw)|]. done.
  - destruct HL as (Hw & _ & Hd & Hs & _). eexists _, _, _. split; [exact (conj Hm Hw)|].
    unfold is_u. lia.
Qed.

(** Parking a thread neither moves memory nor the control blocks. *)
Lemma park_words s block cpu section l r o : mapped_words s section l r o ->
  mapped_words (park_active s block cpu).1.2 section l r o.
Proof. intros Hw. unfold park_active. cbn zeta. by destruct (find _ _). Qed.

Lemma parked_waits s block cpu : thread_state s (current s) = Some Running ->
  thread_state (park_active s block cpu).1.2 (current s) = Some (Waiting block).
Proof.
  unfold thread_state. intros Hrun. destruct (threads s !! current s) as [t|] eqn:Ht; [|done].
  assert (forall g, threads (alter_thread (current s) g s) !! current s = Some (g t)) as Hself.
  { intros g. by rewrite threads_alter, decide_True, Ht. }
  unfold park_active. cbn zeta. destruct (find _ _) as [next|] eqn:Hfind; cbn [fst snd]; [|by rewrite Hself].
  apply find_some in Hfind as [_ Hnext]. apply andb_true_iff in Hnext as [Hne _].
  apply negb_true_iff, Nat.eqb_neq in Hne. unfold switch_to. cbn [fst snd].
  change (threads (with_current ?x _)) with (threads x).
  rewrite (threads_alter next), decide_False by exact Hne. by rewrite Hself.
Qed.

Lemma parks_on_section s section cpu owner depth W :
  mapped_words s section (depth + Z.of_nat (size ({[current s]} ∪ W)) - 1) depth owner ->
  waiters s section = W -> Forall (fun t => kthread t <> 0) (threads s) ->
  1 <= depth -> owner <> 0 -> depth + Z.of_nat (size ({[current s]} ∪ W)) < 2 ^ 32 ->
  thread_state s (current s) = Some Running ->
  represents (park_active s (section_block section) cpu).1.2 section
    (Held owner depth ({[current s]} ∪ W)).
Proof.
  intros Hw HW Hn Hd Ho Hs Hrun. destruct (park_words _ (section_block section) cpu _ _ _ _ Hw).
  split_and!; try done; [by apply named_park|]. by rewrite waiters_park, HW.
Qed.

Lemma schedule_wait cpu s block :
  apply_pending_scheduling (mkEmulator cpu (Some (with_pending s (Some (PendingWait block)))) None) =
  (None, mkEmulator (park_active (with_pending s None) block cpu).2
           (Some (park_active (with_pending s None) block cpu).1.2) None).
Proof.
  unfold apply_pending_scheduling. cbn [core_threads take_pending pending with_pending].
  change (with_pending (with_pending s _) None) with (with_pending s None). cbn [core_cpu with_core_threads].
  by destruct (park_active (with_pending s None) block cpu) as [[? ?] ?].
Qed.

Lemma run_with {A} (m : Call A) (f : A -> Call Z) c a c' r :
  m c = (Value a, c') -> run_call (f a) c' = r -> run_call (m ≫= f) c = r.
Proof. intros Hm <-. unfold run_call. by rewrite (bind_run _ _ _ _ _ Hm). Qed.

Lemma run_argument c section status f r : pointer_argument 0 c = Some section ->
  run_call (f section) c = r -> run_call (require (pointer_argument 0) status ≫= f) c = r.
Proof. intros Harg. apply run_with. unfold require. by rewrite Harg. Qed.

Definition stored (c : KernelCallContext) (mem : SoftwareAddressSpace) : KernelCallContext :=
  with_services c (with_memory (services c) mem).

(** The section and the threads of [s] when only guest memory moved. *)
Lemma represents_stored s mem section owner depth W :
  Forall (fun t => kthread t <> 0) (threads s) -> waiters s section = W ->
  mapped_words (with_memory s mem) section (depth + Z.of_nat (size W) - 1) depth owner ->
  1 <= depth -> depth + Z.of_nat (size W) < 2 ^ 32 -> owner <> 0 ->
  represents (with_memory s mem) section (Held owner depth W).
Proof. intros Hn HW [Hm Hw] Hd Hs Ho. split_and!; done. Qed.

Lemma plus_one v : 0 <= v < 2 ^ 32 - 1 -> (v +w 1) = v + 1.
Proof. intros Hv. apply wrap_small. unfold is_u. lia. Qed.

Lemma enter_free_spec c section k :
  pointer_argument 0 c = Some section -> current_thread c = Some k -> u32 k -> k <> 0 ->
  represents (services c) section Free -> enters c section k Free.
Proof.
  intros Harg Hk Hku Hk0 (Hm & Hn & Hw & HW).
  pose proof (conj Hm Hw : mapped_words _ _ _ _ _) as Hmw.
  destruct (set_lock_word c section _ _ _ 0 Hmw) as (mem1 & Hset & Hmw1); [done|].
  destruct (take_section_words (stored c mem1) section _ _ _ k Hmw1 Hku) as (mem2 & Htake & Hmw2).
  exists (Held k 1 ∅), false, (stored c mem2). split; [constructor|]. split.
  - unfold enter_critical_section. apply (run_argument _ _ _ _ _ Harg).
    eapply run_with; [reflexivity|]. rewrite (proj1 (read_words _ _ _ _ _ Hmw)).
    eapply run_with; [exact Hset|]. eapply run_with; [reflexivity|].
    change (current_thread (with_services c _)) with (current_thread c). rewrite Hk.
    eapply run_with; [exact Htake | reflexivity].
  - split; [|done]. by apply represents_stored.
Qed.

(** What is left to do once a held section's lock word is counted up. *)
Definition enter_held (section k owner : Z) : Call Z :=
  if bool_decide (Some k = Some owner) then
    recursion ← ask (field section RECURSION_COUNT);
    set_field section RECURSION_COUNT (recursion +w 1);;
    mret KernelStatus.SUCCESS
  else
    outcome ← service (fun s => wait_for_dispatcher_object s section None);
    match outcome with
    | Pending => mret KernelStatus.SUCCESS
    | Signaled | TimedOut => take_section section k;; mret KernelStatus.SUCCESS
    end.

Lemma enter_held_run c section k l depth owner :
  pointer_argument 0 c = Some section -> current_thread c = Some k ->
  mapped_words (services c) section l depth owner -> 0 <= l < 2 ^ 32 - 1 ->
  exists mem, mapped_words (services (stored c mem)) section (l + 1) depth owner /\
    run_call enter_critical_section c = run_call (enter_held section k owner) (stored c mem).
Proof.
  intros Harg Hk Hmw Hl.
  destruct (set_lock_word c section _ _ _ (l + 1) Hmw) as (mem & Hset & Hmw1); [unfold is_u; lia|].
  exists mem. split; [exact Hmw1|]. unfold enter_critical_section. apply (run_argument _ _ _ _ _ Harg).
  eapply run_with; [reflexivity|]. rewrite (proj1 (read_words _ _ _ _ _ Hmw)), plus_one by done.
  eapply run_with; [exact Hset|]. eapply run_with; [reflexivity|].
  change (current_thread (with_services c _)) with (current_thread c). rewrite Hk.
  destruct (l + 1 =? 0) eqn:Hz; [apply Z.eqb_eq in Hz; lia|].
  eapply run_with; [reflexivity|]. fold (stored c mem).
  by rewrite (proj2 (proj2 (read_words (stored c mem) _ _ _ _ Hmw1))).
Qed.

Lemma enter_held_spec c section k owner depth W :
  pointer_argument 0 c = Some section -> current_thread c = Some k ->
  thread_state (services c) (current (services c)) = Some Running ->
  represents (services c) section (Held owner depth W) -> room (Held owner depth W) ->
  enters c section k (Held owner depth W).
Proof.
  intros Harg Hk Hrun (Hm & Hn & Hw & HW & Hd & Hs & Ho) Hroom. cbn in Hroom.
  destruct (enter_held_run c section k _ _ _ Harg Hk (conj Hm Hw)) as (mem1 & Hmw1 & Henter); [lia|].
  unfold enters. setoid_rewrite Henter. unfold enter_held. destruct (decide (owner = k)) as [->|Hne].
  - destruct (set_recursion_word (stored c mem1) section _ _ _ (depth + 1) Hmw1)
      as (mem2 & Hset & Hmw2); [unfold is_u; lia|].
    exists (Held k (depth + 1) W), false, (stored c mem2). split; [constructor|]. split.
    + rewrite bool_decide_eq_true_2 by done. eapply run_with; [reflexivity|].
      rewrite (proj1 (proj2 (read_words (stored c mem1) _ _ _ _ Hmw1))), plus_one by lia.
      eapply run_with; [exact Hset | reflexivity].
    + split; [|reflexivity]. refine (represents_stored _ _ _ _ _ _ Hn HW _ _ _ Ho); [|lia..].
      replace (depth + 1 + Z.of_nat (size W) - 1) with (depth + Z.of_nat (size W) - 1 + 1) by lia.
      exact Hmw2.
  - eexists (Held owner depth ({[current (services c)]} ∪ W)), true, _. split; [by constructor|]. split.
    + rewrite bool_decide_eq_false_2 by congruence. eapply run_with; reflexivity.
    + intros cpu. pose proof (current_not_waiting _ section Hrun) as Hout. rewrite HW in Hout.
      set (s1 := with_pending (services (stored c mem1)) None).
      eexists _, _. split; [exact (schedule_wait cpu (services (stored c mem1)) (section_block section))|].
      split; [reflexivity|]. split; [|exact (parked_waits s1 _ cpu Hrun)].
      refine (parks_on_section s1 section cpu owner depth W _ HW Hn Hd Ho _ Hrun);
        cbn [s1 current with_pending]; rewrite size_add by exact Hout; [|lia].
      replace (depth + Z.of_nat (S (size W)) - 1) with (depth + Z.of_nat (size W) - 1 + 1) by lia.
      exact Hmw1.
Qed.

Lemma enter_spec c section k L :
  pointer_argument 0 c = Some section -> current_thread c = Some k ->
  thread_state (services c) (current (services c)) = Some Running ->
  represents (services c) section L -> room L -> enters c section k L.
Proof.
  intros Harg Hk Hrun Hrep Hroom. destruct L as [|owner depth W]; [|by apply enter_held_spec].
  destruct (current_thread_some _ _ Hk) as (t & Ht & -> & Hku). apply enter_free_spec; try done.
  destruct Hrep as (_ & Hn & _). rewrite Forall_lookup in Hn. exact (Hn _ _ Ht).
Qed.

(** ** Leaving *)

(** The section goes to a thread that waits for it, which becomes ready. *)
Lemma transfer_spec s section : waiters s section <> ∅ -> exists i k s',
  transfer_section_wake s section = (Some k, s') /\
  i ∈ waiters s section /\ block_of s i = Some k /\ u32 k /\
  waiters s' section = waiters s section ∖ {[i]} /\ thread_state s' i = Some Ready /\
  memory s' = memory s /\ map kthread (threads s') = map kthread (threads s).
Proof.
  intros Hsome. unfold transfer_section_wake.
  destruct (iter_position (waits_on section) (threads s)) as [i|] eqn:Hpos.
  - apply iter_position_some in Hpos as (t & Ht & Hwt & _).
    exists i, (kthread t), (ready_thread_with s i 0). unfold block_of. rewrite Ht.
    unfold ready_thread_with. split_and!; try reflexivity.
    + by rewrite threads_alter, decide_True, Ht.
    + apply elem_waiters. by exists t.
    + apply u32_wrapping_add.
    + apply set_eq. intros j. rewrite elem_of_difference, elem_of_singleton, !elem_waiters.
      setoid_rewrite threads_alter. destruct (decide (i = j)) as [<-|Hne].
      * rewrite Ht. cbn. split; [|by intros [_ []]]. by intros (u & [= <-] & Hu).
      * destruct (threads s !! j); cbn; naive_solver.
    + by rewrite state_alter, decide_True, Ht.
    + apply list_eq. intros j. rewrite !list_lookup_fmap, threads_alter.
      by destruct (decide (i = j)), (threads s !! j).
  - apply iter_position_none in Hpos. destruct Hsome. apply set_eq. intros j.
    rewrite elem_waiters. split; [|set_solver]. intros (t & Ht & Hw).
    rewrite Forall_lookup in Hpos. by rewrite (Hpos j t Ht) in Hw.
Qed.

Lemma named_map s s' : map kthread (threads s') = map kthread (threads s) ->
  Forall (fun t => kthread t <> 0) (threads s) -> Forall (fun t => kthread t <> 0) (threads s').
Proof. intros Heq. rewrite <- !(Forall_map kthread (fun k => k <> 0)). by rewrite Heq. Qed.

(** What is left to do once the counts are taken down. *)
Definition leave_counted (section recursion lock : Z) : Call Z :=
  when (recursion =? 0) (
    set_field section OWNING_THREAD 0;;
    when (negb (lock =? UNOWNED_LOCK_COUNT)) (
      next ← service (fun s => transfer_section_wake s section);
      match next with
      | Some kthread => take_section section kthread
      | None => service_unit (fun s => signal_dispatcher_object s section)
      end));;
  mret KernelStatus.SUCCESS.

Lemma leave_run c section l r o :
  pointer_argument 0 c = Some section -> mapped_words (services c) section l r o -> 1 <= r < 2 ^ 32 ->
  exists mem, mapped_words (services (stored c mem)) section (wrapping_sub32 l 1) (r - 1) o /\
    run_call leave_critical_section c =
    run_call (leave_counted section (r - 1) (wrapping_sub32 l 1)) (stored c mem).
Proof.
  intros Harg Hmw Hr.
  destruct (set_recursion_word c section _ _ _ (r - 1) Hmw) as (mem1 & Hset1 & Hmw1); [unfold is_u; lia|].
  destruct (set_lock_word (stored c mem1) section _ _ _ (wrapping_sub32 l 1) Hmw1)
    as (mem & Hset & Hmw2); [apply u32_wrapping_sub|].
  exists mem. split; [exact Hmw2|]. unfold leave_critical_section. apply (run_argument _ _ _ _ _ Harg).
  destruct (read_words _ _ _ _ _ Hmw) as (Hl & Hrec & _).
  eapply run_with; [reflexivity|]. eapply run_with; [reflexivity|]. rewrite Hl, Hrec.
  replace (saturating_sub r 1) with (r - 1) by (unfold saturating_sub; lia).
  eapply run_with; [exact Hset1|]. eapply run_with; [exact Hset | reflexivity].
Qed.

Definition leaves (c : KernelCallContext) (section k : Z) (L : Lock) : Prop :=
  exists L' c', lock_leave (block_of (services c)) k L L' /\
    run_call leave_critical_section c = (Some KernelStatus.SUCCESS, c') /\
    represents (services c') section L' /\
    forall i, i ∈ waiters (services c) section ->
      i ∈ waiters (services c') section \/ thread_state (services c') i = Some Ready.

Lemma leave_inner_spec c section k depth W :
  pointer_argument 0 c = Some section -> 1 < depth ->
  represents (services c) section (Held k depth W) -> leaves c section k (Held k depth W).
Proof.
  intros Harg Hd (Hm & Hn & Hw & HW & _ & Hs & Ho).
  destruct (leave_run c section _ _ _ Harg (conj Hm Hw)) as (mem & Hmw & Hleave); [lia|].
  assert (wrapping_sub32 (depth + Z.of_nat (size W) - 1) 1 = depth - 1 + Z.of_nat (size W) - 1) as Hl
    by (unfold wrapping_sub32; rewrite wrap_small; [lia | unfold is_u; lia]).
  rewrite Hl in Hmw, Hleave. exists (Held k (depth - 1) W), (stored c mem).
  split; [by constructor|]. split_and!.
  - rewrite Hleave. unfold leave_counted.
    by destruct (depth - 1 =? 0) eqn:Hz; [apply Z.eqb_eq in Hz; lia|].
  - refine (represents_stored _ _ _ _ _ _ Hn HW Hmw _ _ Ho); lia.
  - by left.
Qed.

(** The last leave clears the owner before it looks for a waiter. *)
Lemma leave_last_run c section n owner :
  pointer_argument 0 c = Some section -> mapped_words (services c) section n 1 owner ->
  exists mem, mapped_words (services (stored c mem)) section (wrapping_sub32 n 1) 0 0 /\
    run_call leave_critical_section c =
    run_call (when (negb (wrapping_sub32 n 1 =? UNOWNED_LOCK_COUNT)) (
      next ← service (fun s => transfer_section_wake s section);
      match next with
      | Some kthread => take_section section kthread
      | None => service_unit (fun s => signal_dispatcher_object s section)
      end);; mret KernelStatus.SUCCESS) (stored c mem).
Proof.
  intros Harg Hmw. destruct (leave_run c section _ _ _ Harg Hmw) as (mem1 & Hmw1 & Hleave); [lia|].
  destruct (set_owner_word (stored c mem1) section _ _ _ 0 Hmw1) as (mem & Hset & Hmw2); [done|].
  exists mem. split; [exact Hmw2|]. rewrite Hleave. unfold leave_counted, when.
  change (1 - 1 =? 0) with true. cbv iota. unfold run_call.
  rewrite <- (bind_run _ (fun _ => _) _ _ _ Hset). unfold mbind, Call_bind. by rewrite Hset.
Qed.

Lemma leave_free_spec c section k :
  pointer_argument 0 c = Some section ->
  represents (services c) section (Held k 1 ∅) -> leaves c section k (Held k 1 ∅).
Proof.
  intros Harg (Hm & Hn & Hw & HW & _ & Hs & Ho).
  destruct (leave_last_run c section _ _ Harg (conj Hm Hw)) as (mem & Hmw & Hleave).
  unfold leaves. setoid_rewrite Hleave. exists Free, (stored c mem). split; [constructor|].
  split_and!; try reflexivity.
  - split_and!; try done; apply Hmw.
  - rewrite HW. set_solver.
Qed.

Lemma leave_hand_over_spec c section k W : W <> ∅ ->
  pointer_argument 0 c = Some section ->
  represents (services c) section (Held k 1 W) -> leaves c section k (Held k 1 W).
Proof.
  intros Hne Harg (Hm & Hn & Hw & HW & _ & Hs & Ho).
  destruct (leave_last_run c section _ _ Harg (conj Hm Hw)) as (mem & Hmw & Hleave).
  set (c1 := stored c mem) in *.
  destruct (transfer_spec (services c1) section)
    as (i & k' & s' & Htr & Hi & Hb & Hk' & HW' & Hready & Hmem & Hmap); [by rewrite <- HW in Hne|].
  change (waiters (services c1) section) with (waiters (services c) section) in Hi, HW'. rewrite HW in Hi, HW'.
  assert (0 < size W)%nat as Hsize by (apply Nat.neq_0_lt_0, size_non_empty_iff; set_solver).
  assert (size (W ∖ {[i]}) = size W - 1)%nat as Hless
    by (by rewrite size_difference, size_singleton by set_solver).
  assert (wrapping_sub32 (1 + Z.of_nat (size W) - 1) 1 = 1 + Z.of_nat (size (W ∖ {[i]})) - 1) as Hl.
  { unfold wrapping_sub32. rewrite wrap_small; [lia | unfold is_u; lia]. }
  rewrite Hl in Hmw, Hleave.
  assert (mapped_words s' section (1 + Z.of_nat (size (W ∖ {[i]})) - 1) 0 0) as Hmw1.
  { unfold mapped_words, section_mapped, lock_words in *. by rewrite Hmem. }
  destruct (take_section_words (with_services c1 s') section _ _ _ k' Hmw1 Hk') as (mem2 & Htake & Hmw2).
  exists (Held k' 1 (W ∖ {[i]})), (stored (with_services c1 s') mem2).
  pose proof (named_map _ _ Hmap Hn) as Hn'. split; [by constructor|]. split_and!.
  - rewrite Hleave. unfold when. destruct (_ =? UNOWNED_LOCK_COUNT) eqn:Hz;
      [apply Z.eqb_eq in Hz; unfold UNOWNED_LOCK_COUNT, U32_MAX in Hz; lia|].
    cbn [negb]. eapply run_with; [|reflexivity]. rewrite (bind_run _ _ c1 (Some k') (with_services c1 s')); [exact Htake|].
    unfold service. by rewrite Htr.
  - refine (represents_stored _ _ _ _ _ _ Hn' HW' Hmw2 _ _ _); [lia | lia |].
    rewrite Forall_lookup in Hn. unfold block_of in Hb. apply fmap_Some in Hb as (t & Ht & ->).
    exact (Hn _ _ Ht).
  - intros j Hj. rewrite HW in Hj. change (services (stored (with_services c1 s') mem2))
      with (with_memory s' mem2). change (waiters (with_memory s' mem2)) with (waiters s').
    rewrite HW'. destruct (decide (j = i)) as [->|]; [by right | left; set_solver].
Qed.

Lemma leave_spec c section k depth W :
  pointer_argument 0 c = Some section ->
  represents (services c) section (Held k depth W) -> leaves c section k (Held k depth W).
Proof.
  intros Harg Hrep. destruct (decide (depth = 1)) as [->|Hd].
  - destruct (decide (W = ∅)) as [->|]; [by apply leave_free_spec | by apply leave_hand_over_spec].
  - apply leave_inner_spec; [done | | done]. destruct Hrep as (_ & _ & _ & _ & ? & _). lia.
Qed.

(** ** Initialising *)

(** A store to the event header keeps the three words. *)
Lemma set_header_word c section l r o off v : mapped_words (services c) section l r o -> u32 v ->
  off ∈ [0x00; 0x04; 0x08; 0x0C] ->
  exists mem, set_field section off v c = (Value tt, stored c mem) /\
    mapped_words (services (stored c mem)) section l r o.
Proof.
  intros (Hm & Hl & Hr & Ho) Hv Hoff.
  assert (off ∈ header_words /\ off <> LOCK_COUNT /\ off <> RECURSION_COUNT /\ off <> OWNING_THREAD)
    as (Hin & Hl' & Hr' & Ho').
  { unfold header_words, LOCK_COUNT, RECURSION_COUNT, OWNING_THREAD. set_unfold in Hoff.
    split; [set_solver | lia]. }
  destruct (run_set_field c section off v Hm Hin Hv) as (mem & Hrun & Hm' & _ & Hframe).
  exists mem. split; [exact Hrun|]. split; [exact Hm'|]. unfold lock_words, stored.
  cbn [services with_services memory with_memory].
  rewrite !Hframe by (in_header || by apply not_eq_sym). done.
Qed.

(** Initialising a section nobody waits for makes it free. *)
Lemma initialize_spec c section l r o : pointer_argument 0 c = Some section ->
  mapped_words (services c) section l r o ->
  Forall (fun t => kthread t <> 0) (threads (services c)) -> waiters (services c) section = ∅ ->
  exists c', run_call (call RtlInitializeCriticalSection) c = (Some KernelStatus.SUCCESS, c') /\
    represents (services c') section Free.
Proof.
  intros Harg Hmw Hn HW.
  destruct (set_lock_word c section _ _ _ UNOWNED_LOCK_COUNT Hmw) as (m1 & H1 & Hw1); [done|].
  destruct (set_recursion_word (stored c m1) section _ _ _ 0 Hw1) as (m2 & H2 & Hw2); [done|].
  destruct (set_owner_word (stored c m2) section _ _ _ 0 Hw2) as (m3 & H3 & Hw3); [done|].
  destruct (set_header_word (stored c m3) section _ _ _ 0x00 0 Hw3) as (m4 & H4 & Hw4); [done | set_solver|].
  destruct (set_header_word (stored c m4) section _ _ _ 0x04 0 Hw4) as (m5 & H5 & Hw5); [done | set_solver|].
  destruct (set_header_word (stored c m5) section _ _ _ 0x08 (section +w 0x08) Hw5)
    as (m6 & H6 & Hw6); [apply u32_wrapping_add | set_solver|].
  destruct (set_header_word (stored c m6) section _ _ _ 0x0C (section +w 0x08) Hw6)
    as (m7 & H7 & Hw7); [apply u32_wrapping_add | set_solver|].
  exists (stored c m7). split.
  - cbn [call RtlInitializeCriticalSection]. apply (run_argument _ _ _ _ _ Harg).
    do 2 (eapply run_with; [eassumption|]). eapply run_with; [eassumption|].
    do 4 (eapply run_with; [eassumption|]). reflexivity.
  - split; [apply Hw7|]. split; [exact Hn|]. split; [apply Hw7 | exact HW].
Qed.

(** C12: Critical sections are a recursive lock.  Whatever lock the words of a
    mapped section and the parked threads represent, [RtlEnterCriticalSection]
    is an enter of it: a free section is taken, its owner goes one deeper, and
    any other thread is parked on the section by the run loop, without touching
    the owner.  [RtlLeaveCriticalSection] by the owner is a leave: the last one
    frees the section, or hands it to one parked thread, which becomes ready
    already owning it.  No step makes a second owner. *)
Theorem critical_section_refines (c : KernelCallContext) (section k : Z) (L : Lock) :
  pointer_argument 0 c = Some section -> current_thread c = Some k ->
  thread_state (services c) (current (services c)) = Some Running ->
  represents (services c) section L -> room L ->
  enters c section k L /\
  (forall depth W, L = Held k depth W -> leaves c section k L).
Proof.
  intros Harg Hk Hrun Hrep Hroom. split; [by apply enter_spec|].
  intros depth W ->. by apply leave_spec.
Qed.
End Sections.

(** ** A section in a booted machine *)

Definition demo_section : Z := 0x80011000.
Definition demo_lock_cpu : CpuState := set_gpr CpuState_default 4 0x80010000.
Definition demo_argument : @ThreadManager demo_host :=
  with_memory demo_booted (mem_write_u32 (memory demo_booted) 0x80010004 demo_section).2.
Definition demo_lock_call : @KernelCallContext demo_host :=
  mkKernelCallContext demo_lock_cpu demo_argument demo_world None.
Definition demo_initialised : @KernelCallContext demo_host :=
  (run_call (call RtlInitializeCriticalSection) demo_lock_call).2.
Definition demo_entered : @KernelCallContext demo_host :=
  (run_call enter_critical_section demo_initialised).2.
Definition demo_block : Z := wrapping_add32 demo_kpcr KTHREAD_OFFSET.

Lemma demo_mapped : @section_mapped demo_host demo_argument demo_section.
Proof.
  split; [apply sys_write_u32, demo_sys|]. split_and!; [done | done |].
  apply rw_words_check. by vm_compute.
Qed.

Lemma demo_free : represents (services demo_initialised) demo_section Free.
Proof.
  destruct (mem_read_u32 (memory demo_argument) (demo_section + LOCK_COUNT)) as [l|] eqn:Hl;
    [|by vm_compute in Hl].
  destruct (mem_read_u32 (memory demo_argument) (demo_section + RECURSION_COUNT)) as [r|] eqn:Hr;
    [|by vm_compute in Hr].
  destruct (mem_read_u32 (memory demo_argument) (demo_section + OWNING_THREAD)) as [o|] eqn:Ho;
    [|by vm_compute in Ho].
  destruct (initialize_spec demo_lock_call demo_section l r o) as (c' & Hrun & Hrep).
  - by vm_compute.
  - exact (conj demo_mapped (conj Hl (conj Hr Ho))).
  - apply (bool_decide_unpack _). by vm_compute.
  - by vm_compute.
  - unfold demo_initialised. rewrite Hrun. exact Hrep.
Qed.

Lemma demo_owned : represents (services demo_entered) demo_section (Held demo_block 1 ∅).
Proof.
  destruct (enter_spec demo_initialised demo_section demo_block Free)
    as (L' & waits & c' & Hstep & Hrun & Hafter); [by vm_compute.. | exact demo_free | done |].
  inversion Hstep; subst. unfold demo_entered. rewrite Hrun. apply Hafter.
Qed.

(** The owner of a section enters it again and leaves it. *)
Lemma critical_section_refines_witness :
  represents (services demo_entered) demo_section (Held demo_block 1 ∅) /\
  enters demo_entered demo_section demo_block (Held demo_block 1 ∅) /\
  leaves demo_entered demo_section demo_block (Held demo_block 1 ∅).
Proof.
  split; [exact demo_owned|].
  destruct (critical_section_refines demo_entered demo_section demo_block (Held demo_block 1 ∅))
    as [Hin Hout]; [by vm_compute.. | exact demo_owned | by vm_compute |].
  split; [exact Hin | exact (Hout 1 ∅ eq_refl)].
Defined.
