(* ===== verification/UsbDevice.v ===== *)
(** * The gamepad and its sources

    Models [exbawks-usb/src/gamepad.rs], [device.rs] and [dualsense.rs]: the
    report a title reads, the answers of the device to control requests, the
    sources a run takes its input from, and the translation of a host
    controller's report.

    A signed sixteen-bit axis is a [Z]; its bytes are those of its two's
    complement. *)

From S2P Require Import Prelude Slices.

(** ** [gamepad.rs] *)

Module button.
Definition UP : Z := Z.shiftl 1 0.
Definition DOWN : Z := Z.shiftl 1 1.
Definition LEFT : Z := Z.shiftl 1 2.
Definition RIGHT : Z := Z.shiftl 1 3.
Definition START : Z := Z.shiftl 1 4.
Definition BACK : Z := Z.shiftl 1 5.
Definition LEFT_STICK : Z := Z.shiftl 1 6.
Definition RIGHT_STICK : Z := Z.shiftl 1 7.
End button.

Module analogue.
Definition A : nat := 0.
Definition B : nat := 1.
Definition X : nat := 2.
Definition Y : nat := 3.
Definition BLACK : nat := 4.
Definition WHITE : nat := 5.
Definition LEFT_TRIGGER : nat := 6.
Definition RIGHT_TRIGGER : nat := 7.
End analogue.

Record GamepadState : Type := mkGamepadState {
  buttons : Z;
  pressures : list Z;
  left_stick : Z * Z;
  right_stick : Z * Z;
}.

Definition GamepadState_default : GamepadState := mkGamepadState 0 (replicate 8 0) (0, 0) (0, 0).

Definition REPORT_BYTES : nat := 20.

Definition report (s : GamepadState) : list Z :=
  [0x00; Z.of_nat REPORT_BYTES] ++ to_le_bytes 2 (buttons s) ++ pressures s ++
  to_le_bytes 2 (left_stick s).1 ++ to_le_bytes 2 (left_stick s).2 ++
  to_le_bytes 2 (right_stick s).1 ++ to_le_bytes 2 (right_stick s).2.

(** A source of input: what it samples at a frame, and whether a run with it
    is reproducible. *)
Class InputSource (S : Type) : Type := {
  sample : S -> Z -> option GamepadState;
  deterministic : S -> bool;
}.

Inductive NoInput : Type := mkNoInput.

#[global] Instance NoInput_source : InputSource NoInput := {|
  sample := fun _ _ => None;
  deterministic := fun _ => true;
|}.

Record ScriptedInput : Type := mkScriptedInput { steps : list (Z * GamepadState) }.

(** [sort_by_key], which is stable: an entry goes before the first later entry
    that is not smaller. *)
Fixpoint insert_by_frame (e : Z * GamepadState) (l : list (Z * GamepadState)) :=
  match l with
  | [] => [e]
  | e' :: l' => if e.1 <=? e'.1 then e :: l else e' :: insert_by_frame e l'
  end.
Definition sort_by_frame (l : list (Z * GamepadState)) : list (Z * GamepadState) :=
  foldr insert_by_frame [] l.

Definition ScriptedInput_new (l : list (Z * GamepadState)) : ScriptedInput :=
  mkScriptedInput (sort_by_frame l).

Definition with_buttons (b : Z) : GamepadState :=
  mkGamepadState b (pressures GamepadState_default) (left_stick GamepadState_default)
    (right_stick GamepadState_default).

Definition press (frame b : Z) : ScriptedInput :=
  ScriptedInput_new [(0, GamepadState_default); (frame, with_buttons b)].

(** One press and its release. *)
Definition tap (hold : Z) (p : Z * GamepadState) : list (Z * GamepadState) :=
  [p; (saturating_add 64 p.1 (Z.max hold 1), GamepadState_default)].
Definition taps (presses : list (Z * GamepadState)) (hold : Z) : ScriptedInput :=
  ScriptedInput_new ((0, GamepadState_default) :: flat_map (tap hold) presses).

Definition scripted_sample (s : ScriptedInput) (frame : Z) : option GamepadState :=
  match steps s with
  | [] => None
  | first :: _ =>
    match partition_point (fun e => e.1 <=? frame) (steps s) with
    | O => Some first.2
    | S index => snd <$> steps s !! index
    end
  end.

#[global] Instance ScriptedInput_source : InputSource ScriptedInput := {|
  sample := scripted_sample;
  deterministic := fun _ => true;
|}.

(** ** [device.rs] *)

Module request.
Definition GET_DESCRIPTOR : Z := 6.
Definition SET_ADDRESS : Z := 5.
Definition SET_CONFIGURATION : Z := 9.
Definition GET_CONFIGURATION : Z := 8.
Definition GET_STATUS : Z := 0.
Definition SET_INTERFACE : Z := 11.
Definition GET_REPORT : Z := 1.
End request.

Module descriptor.
Definition DEVICE : Z := 1.
Definition CONFIGURATION : Z := 2.
Definition STRING : Z := 3.
Definition XID : Z := 0x42.
End descriptor.

Definition DEVICE_DESCRIPTOR : list Z :=
  [18; 0x01; 0x10; 0x01; 0x00; 0x00; 0x00; 0x08; 0x5E; 0x04; 0x89; 0x02; 0x00; 0x01; 0x00; 0x00;
   0x00; 0x01].

Definition CONFIGURATION_DESCRIPTOR : list Z :=
  [9; 0x02; 32; 0x00; 0x01; 0x01; 0x00; 0x80; 50;
   9; 0x04; 0x00; 0x00; 0x02; 0x58; 0x42; 0x00; 0x00;
   7; 0x05; 0x81; 0x03; 0x20; 0x00; 0x04;
   7; 0x05; 0x02; 0x03; 0x20; 0x00; 0x04].

Definition XID_DESCRIPTOR : list Z :=
  [16; 0x42; 0x00; 0x01; 0x01; 0x02; Z.of_nat REPORT_BYTES; 6; 0xFF; 0xFF; 0xFF; 0xFF; 0xFF; 0xFF;
   0xFF; 0xFF].

Record Setup : Type := mkSetup {
  request_type : Z;
  setup_request : Z;
  setup_value : Z;
  setup_index : Z;
  setup_length : Z;
}.

Definition Setup_parse (bytes : list Z) : option Setup :=
  match bytes with
  | b0 :: b1 :: b2 :: b3 :: b4 :: b5 :: b6 :: b7 :: _ =>
    Some (mkSetup b0 b1 (from_le_bytes [b2; b3]) (from_le_bytes [b4; b5]) (from_le_bytes [b6; b7]))
  | _ => None
  end.

Definition reads (s : Setup) : bool := has_bits (request_type s) 0x80.

Record GamepadDevice : Type := mkGamepadDevice {
  address : Z;
  configuration : Z;
}.

Definition GamepadDevice_default : GamepadDevice := mkGamepadDevice 0 0.

Definition configured (d : GamepadDevice) : bool := negb (configuration d =? 0).

(** The answer to the vendor request: which controls the pad has. *)
Definition capabilities : list Z :=
  [0x00; Z.of_nat REPORT_BYTES] ++ replicate (REPORT_BYTES - 2) 0xFF.

Definition get_descriptor (s : Setup) : option (list Z) :=
  let kind := wrap8 (Z.shiftr (setup_value s) 8) in
  if kind =? descriptor.DEVICE then Some DEVICE_DESCRIPTOR
  else if kind =? descriptor.CONFIGURATION then Some CONFIGURATION_DESCRIPTOR
  else if kind =? descriptor.XID then Some XID_DESCRIPTOR
  else None.

(** The answer before it is truncated to what the driver asked for. *)
Definition control_answer (d : GamepadDevice) (s : Setup) (state : list Z)
  : option (list Z) * GamepadDevice :=
  if reads s then
    if setup_request s =? request.GET_DESCRIPTOR then (get_descriptor s, d)
    else if setup_request s =? request.GET_CONFIGURATION then (Some [configuration d], d)
    else if setup_request s =? request.GET_STATUS then (Some [0; 0], d)
    else if setup_request s =? request.GET_REPORT then
      (Some (if Z.land (request_type s) 0x60 =? 0x40 then capabilities else state), d)
    else (None, d)
  else
    if setup_request s =? request.SET_ADDRESS then
      (Some [], mkGamepadDevice (Z.land (setup_value s) 0x7F) (configuration d))
    else if setup_request s =? request.SET_CONFIGURATION then
      (Some [], mkGamepadDevice (address d) (Z.land (setup_value s) 0xFF))
    else if setup_request s =? request.SET_INTERFACE then (Some [], d)
    else (None, d).

Definition control (d : GamepadDevice) (s : Setup) (state : list Z)
  : option (list Z) * GamepadDevice :=
  let '(answer, d) := control_answer d s state in
  (take (Z.to_nat (setup_length s)) <$> answer, d).

(** ** [dualsense.rs] *)

Definition WIRED_REPORT : Z := 0x01.

Module field.
Definition LEFT_X : nat := 1.
Definition LEFT_Y : nat := 2.
Definition RIGHT_X : nat := 3.
Definition RIGHT_Y : nat := 4.
Definition LEFT_TRIGGER : nat := 5.
Definition RIGHT_TRIGGER : nat := 6.
Definition FACE : nat := 8.
Definition SHOULDER : nat := 9.
End field.

Definition SQUARE : Z := Z.shiftl 1 4.
Definition CROSS : Z := Z.shiftl 1 5.
Definition CIRCLE : Z := Z.shiftl 1 6.
Definition TRIANGLE : Z := Z.shiftl 1 7.
Definition LEFT_SHOULDER : Z := Z.shiftl 1 0.
Definition RIGHT_SHOULDER : Z := Z.shiftl 1 1.
Definition CREATE : Z := Z.shiftl 1 4.
Definition OPTIONS : Z := Z.shiftl 1 5.
Definition LEFT_STICK : Z := Z.shiftl 1 6.
Definition RIGHT_STICK : Z := Z.shiftl 1 7.

Definition I16_MIN : Z := - 2 ^ 15.
Definition I16_MAX : Z := 2 ^ 15 - 1.
Definition clamp_i16 (x : Z) : Z := Z.max I16_MIN (Z.min x I16_MAX).

Definition axis (value : Z) : Z := clamp_i16 ((value - 128) * 258).
Definition saturating_neg (x : Z) : Z := clamp_i16 (- x).

Definition direction (position : Z) : Z :=
  match position with
  | 0 => button.UP
  | 1 => Z.lor button.UP button.RIGHT
  | 2 => button.RIGHT
  | 3 => Z.lor button.DOWN button.RIGHT
  | 4 => button.DOWN
  | 5 => Z.lor button.DOWN button.LEFT
  | 6 => button.LEFT
  | 7 => Z.lor button.UP button.LEFT
  | _ => 0
  end.

(** The two loops over pairs of a bit and what it maps to. *)
Definition map_buttons (byte : Z) (pairs : list (Z * Z)) (start : Z) : Z :=
  foldl (fun acc p => if has_bits byte p.1 then Z.lor acc p.2 else acc) start pairs.
Definition map_pressures (byte : Z) (pairs : list (Z * nat)) (start : list Z) : list Z :=
  foldl (fun acc p => if has_bits byte p.1 then <[p.2 := 0xFF]> acc else acc) start pairs.

Definition translate_controller_report (bytes : list Z) : option GamepadState :=
  first ← head bytes;
  if negb (first =? WIRED_REPORT) || (length bytes <=? field.SHOULDER)%nat then None else
  let at_ i := nth i bytes 0 in
  let face := at_ field.FACE in
  let shoulder := at_ field.SHOULDER in
  let bs := map_buttons shoulder
    [(OPTIONS, button.START); (CREATE, button.BACK); (LEFT_STICK, button.LEFT_STICK);
     (RIGHT_STICK, button.RIGHT_STICK)] (direction (Z.land face 0xF)) in
  let ps := map_pressures face
    [(CROSS, analogue.A); (CIRCLE, analogue.B); (SQUARE, analogue.X); (TRIANGLE, analogue.Y)]
    (replicate 8 0) in
  let ps := map_pressures shoulder
    [(LEFT_SHOULDER, analogue.WHITE); (RIGHT_SHOULDER, analogue.BLACK)] ps in
  let ps := <[analogue.RIGHT_TRIGGER := at_ field.RIGHT_TRIGGER]>
              (<[analogue.LEFT_TRIGGER := at_ field.LEFT_TRIGGER]> ps) in
  Some (mkGamepadState bs ps
    (axis (at_ field.LEFT_X), saturating_neg (axis (at_ field.LEFT_Y)))
    (axis (at_ field.RIGHT_X), saturating_neg (axis (at_ field.RIGHT_Y)))).
