(* ===== verification/Ohci.v ===== *)
(** * The USB host controller

    Models [exbawks-usb/src/ohci.rs]: the register file a driver programs, the
    root ports whose writes are commands, and the walk over the endpoint and
    transfer descriptors a driver builds in guest memory.

    Guest memory is reached through [UsbMemory], the trait of the source with
    its memory passed along.  Both walks are bounded in the source, so their
    bounds are the recursion arguments here and nothing can run out.  Tracing
    has no effect on the state. *)

From S2P Require Import Prelude UsbDevice.

Class UsbMemory (M : Type) : Type := {
  read_dword : M -> Z -> option Z;
  write_dword : M -> Z -> Z -> bool * M;
  write_bytes : M -> Z -> list Z -> bool * M;
}.

Definition ROOT_PORTS : nat := 4.
Definition GAMEPAD_PORT : nat := 0.

Module register.
Definition REVISION : Z := 0x00.
Definition CONTROL : Z := 0x04.
Definition COMMAND_STATUS : Z := 0x08.
Definition INTERRUPT_STATUS : Z := 0x0C.
Definition INTERRUPT_ENABLE : Z := 0x10.
Definition INTERRUPT_DISABLE : Z := 0x14.
Definition HCCA : Z := 0x18.
Definition CONTROL_HEAD_ED : Z := 0x20.
Definition BULK_HEAD_ED : Z := 0x28.
Definition DONE_HEAD : Z := 0x30.
Definition FM_INTERVAL : Z := 0x34.
Definition FM_REMAINING : Z := 0x38.
Definition FM_NUMBER : Z := 0x3C.
Definition RH_DESCRIPTOR_A : Z := 0x48.
Definition RH_STATUS : Z := 0x50.
Definition RH_PORT_STATUS : Z := 0x54.
Definition RH_PORT_STATUS_END : Z := RH_PORT_STATUS + 4 * Z.of_nat ROOT_PORTS.
End register.

Module port.
Definition CONNECTED : Z := Z.shiftl 1 0.
Definition ENABLED : Z := Z.shiftl 1 1.
Definition SUSPENDED : Z := Z.shiftl 1 2.
Definition POWERED : Z := Z.shiftl 1 8.
Definition CONNECT_CHANGE : Z := Z.shiftl 1 16.
Definition ENABLE_CHANGE : Z := Z.shiftl 1 17.
Definition RESET_CHANGE : Z := Z.shiftl 1 20.
Definition CLEAR_ENABLE : Z := Z.shiftl 1 0.
Definition SET_ENABLE : Z := Z.shiftl 1 1.
Definition SET_SUSPEND : Z := Z.shiftl 1 2.
Definition CLEAR_SUSPEND : Z := Z.shiftl 1 3.
Definition SET_RESET : Z := Z.shiftl 1 4.
Definition SET_POWER : Z := Z.shiftl 1 8.
Definition CLEAR_POWER : Z := Z.shiftl 1 9.
End port.

Definition STATE_MASK : Z := 0xC0.
Definition STATE_OPERATIONAL : Z := 0x80.
Definition COMMAND_RESET : Z := Z.shiftl 1 0.
Definition CONTROL_PERIODIC_ENABLE : Z := Z.shiftl 1 2.
Definition CONTROL_LIST_ENABLE : Z := Z.shiftl 1 4.
Definition CONTROL_BULK_ENABLE : Z := Z.shiftl 1 5.
Definition INTERRUPT_WRITEBACK_DONE : Z := Z.shiftl 1 1.
Definition INTERRUPT_START_OF_FRAME : Z := Z.shiftl 1 2.
Definition INTERRUPT_ROOT_HUB_CHANGE : Z := Z.shiftl 1 6.
Definition MAX_ENDPOINTS : nat := 64.
Definition MAX_TRANSFERS : nat := 64.
Definition MAX_TRANSFER_BYTES : Z := 4096.
Definition TD_TOGGLE_EXPLICIT : Z := Z.shiftl 1 25.
Definition TD_TOGGLE_VALUE : Z := Z.shiftl 1 24.
Definition ED_TOGGLE_CARRY : Z := Z.shiftl 1 1.
Definition TD_DELAY_SHIFT : Z := 21.
Definition TD_DELAY_NEVER : Z := 7.
Definition PID_SETUP : Z := 0.
Definition PID_OUT : Z := 1.
Definition PID_IN : Z := 2.

(** ** The controller *)

Record OhciController : Type := mkOhciController {
  registers : list Z;
  port_status : list Z;
  attached : bool;
  frame : Z;
  state : GamepadState;
  device : GamepadDevice;
  pending_bytes : list Z;
  port_writes : Z;
  completed : Z;
  done_delay : option Z;
  accesses : list (Z * Z);
}.

Definition with_registers (c : OhciController) (v : list Z) : OhciController :=
  mkOhciController v (port_status c) (attached c) (frame c) (state c) (device c) (pending_bytes c)
    (port_writes c) (completed c) (done_delay c) (accesses c).
Definition with_port_status (c : OhciController) (v : list Z) : OhciController :=
  mkOhciController (registers c) v (attached c) (frame c) (state c) (device c) (pending_bytes c)
    (port_writes c) (completed c) (done_delay c) (accesses c).
Definition with_attached (c : OhciController) (v : bool) : OhciController :=
  mkOhciController (registers c) (port_status c) v (frame c) (state c) (device c) (pending_bytes c)
    (port_writes c) (completed c) (done_delay c) (accesses c).
Definition with_frame (c : OhciController) (v : Z) : OhciController :=
  mkOhciController (registers c) (port_status c) (attached c) v (state c) (device c)
    (pending_bytes c) (port_writes c) (completed c) (done_delay c) (accesses c).
Definition set_state (c : OhciController) (v : GamepadState) : OhciController :=
  mkOhciController (registers c) (port_status c) (attached c) (frame c) v (device c)
    (pending_bytes c) (port_writes c) (completed c) (done_delay c) (accesses c).
Definition with_device (c : OhciController) (v : GamepadDevice) : OhciController :=
  mkOhciController (registers c) (port_status c) (attached c) (frame c) (state c) v
    (pending_bytes c) (port_writes c) (completed c) (done_delay c) (accesses c).
Definition with_pending_bytes (c : OhciController) (v : list Z) : OhciController :=
  mkOhciController (registers c) (port_status c) (attached c) (frame c) (state c) (device c) v
    (port_writes c) (completed c) (done_delay c) (accesses c).
Definition with_port_writes (c : OhciController) (v : Z) : OhciController :=
  mkOhciController (registers c) (port_status c) (attached c) (frame c) (state c) (device c)
    (pending_bytes c) v (completed c) (done_delay c) (accesses c).
Definition with_completed (c : OhciController) (v : Z) : OhciController :=
  mkOhciController (registers c) (port_status c) (attached c) (frame c) (state c) (device c)
    (pending_bytes c) (port_writes c) v (done_delay c) (accesses c).
Definition with_done_delay (c : OhciController) (v : option Z) : OhciController :=
  mkOhciController (registers c) (port_status c) (attached c) (frame c) (state c) (device c)
    (pending_bytes c) (port_writes c) (completed c) v (accesses c).
Definition with_accesses (c : OhciController) (v : list (Z * Z)) : OhciController :=
  mkOhciController (registers c) (port_status c) (attached c) (frame c) (state c) (device c)
    (pending_bytes c) (port_writes c) (completed c) (done_delay c) v.

Definition slot (offset : Z) : nat := Z.to_nat (offset / 4).
(** [self.registers[offset / 4]] at one of the named offsets. *)
Definition reg (c : OhciController) (offset : Z) : Z := nth (slot offset) (registers c) 0.
Definition set_reg (c : OhciController) (offset v : Z) : OhciController :=
  with_registers c (<[slot offset := v]> (registers c)).
Definition port_at (c : OhciController) (index : nat) : Z := nth index (port_status c) 0.
Definition set_port (c : OhciController) (index : nat) (v : Z) : OhciController :=
  with_port_status c (<[index := v]> (port_status c)).

(** [x &= !bits]. *)
Definition clear_bits (x bits : Z) : Z := Z.land x (unot 32 bits).

Definition OhciController_default : OhciController :=
  mkOhciController
    (<[slot register.FM_INTERVAL := 0x2EDF]>
      (<[slot register.RH_DESCRIPTOR_A := Z.lor 0x00001200 (Z.of_nat ROOT_PORTS)]>
        (<[slot register.REVISION := 0x10]> (replicate 32 0))))
    (replicate ROOT_PORTS port.POWERED)
    false 0 GamepadState_default GamepadDevice_default [] 0 0 None (replicate 32 (0, 0)).

Definition raise (c : OhciController) (bits : Z) : OhciController :=
  set_reg c register.INTERRUPT_STATUS (Z.lor (reg c register.INTERRUPT_STATUS) bits).

Definition set_attached (c : OhciController) (a : bool) : OhciController :=
  if Bool.eqb (attached c) a then c else
  let c := with_attached c a in
  let status := port_at c GAMEPAD_PORT in
  let status := if a then Z.lor status (Z.lor port.CONNECTED port.CONNECT_CHANGE)
                else Z.lor (clear_bits status (Z.lor port.CONNECTED port.ENABLED))
                       port.CONNECT_CHANGE in
  raise (set_port c GAMEPAD_PORT status) INTERRUPT_ROOT_HUB_CHANGE.

Definition operational (c : OhciController) : bool :=
  Z.land (reg c register.CONTROL) STATE_MASK =? STATE_OPERATIONAL.

Definition hcca (c : OhciController) : Z := clear_bits (reg c register.HCCA) 0xFF.

Definition in_ports (offset : Z) : bool :=
  (register.RH_PORT_STATUS <=? offset) && (offset <? register.RH_PORT_STATUS_END).
Definition port_index (offset : Z) : nat := Z.to_nat ((offset - register.RH_PORT_STATUS) / 4).

(** The two counters of a register; an offset past the file counts nowhere. *)
Definition count_access (f : Z * Z -> Z * Z) (c : OhciController) (offset : Z) : OhciController :=
  with_accesses c (alter f (slot offset) (accesses c)).

Definition ohci_read (c : OhciController) (offset : Z) : Z * OhciController :=
  let c := count_access (fun p => (saturating_add 64 p.1 1, p.2)) c offset in
  let value :=
    if in_ports offset then default 0 (port_status c !! port_index offset)
    else if offset =? register.FM_NUMBER then Z.land (frame c) 0xFFFF
    else if offset =? register.FM_REMAINING then Z.land (reg c register.FM_INTERVAL) 0x3FFF
    else if offset =? register.INTERRUPT_DISABLE then reg c register.INTERRUPT_ENABLE
    else default 0 (registers c !! slot offset) in
  (value, c).

Definition ohci_reset (c : OhciController) : OhciController :=
  let d := OhciController_default in
  let n := mkOhciController (registers d) (port_status d) (attached c) (frame d) (state c)
             (device d) (pending_bytes d) (port_writes c) (completed c) (done_delay d)
             (accesses c) in
  if attached c
  then raise (set_port n GAMEPAD_PORT
                (Z.lor (port_at n GAMEPAD_PORT) (Z.lor port.CONNECTED port.CONNECT_CHANGE)))
         INTERRUPT_ROOT_HUB_CHANGE
  else n.

(** The status word a port write leaves, before a reset. *)
Definition port_command (here : bool) (status value : Z) : Z :=
  let on bit := has_bits value bit in
  let s := clear_bits status (Z.land value 0x001F0000) in
  let s := if on port.CLEAR_ENABLE then clear_bits s port.ENABLED else s in
  let s := if on port.SET_ENABLE && here then Z.lor s port.ENABLED else s in
  let s := if on port.SET_SUSPEND then Z.lor s port.SUSPENDED else s in
  let s := if on port.CLEAR_SUSPEND then clear_bits s port.SUSPENDED else s in
  let s := if on port.SET_POWER then Z.lor s port.POWERED else s in
  if on port.CLEAR_POWER then clear_bits s port.POWERED else s.

Definition write_port (c : OhciController) (index : nat) (value : Z) : OhciController :=
  if (ROOT_PORTS <=? index)%nat then c else
  let c := with_port_writes c (saturating_add 64 (port_writes c) 1) in
  let here := attached c && (index =? GAMEPAD_PORT)%nat in
  let status := port_command here (port_at c index) value in
  if has_bits value port.SET_RESET then
    let c :=
      if here then
        with_pending_bytes
          (with_device
            (set_port c index
              (Z.lor status (Z.lor (Z.lor port.ENABLED port.RESET_CHANGE) port.ENABLE_CHANGE)))
            GamepadDevice_default) []
      else set_port c index (Z.lor status port.RESET_CHANGE) in
    raise c INTERRUPT_ROOT_HUB_CHANGE
  else set_port c index status.

Definition ohci_write (c : OhciController) (offset value : Z) : OhciController :=
  let c := count_access (fun p => (p.1, saturating_add 64 p.2 1)) c offset in
  if in_ports offset then write_port c (port_index offset) value
  else if offset =? register.INTERRUPT_STATUS then
    set_reg c register.INTERRUPT_STATUS (clear_bits (reg c register.INTERRUPT_STATUS) value)
  else if offset =? register.INTERRUPT_ENABLE then
    set_reg c register.INTERRUPT_ENABLE (Z.lor (reg c register.INTERRUPT_ENABLE) value)
  else if offset =? register.INTERRUPT_DISABLE then
    set_reg c register.INTERRUPT_ENABLE (clear_bits (reg c register.INTERRUPT_ENABLE) value)
  else if offset =? register.COMMAND_STATUS then
    let c := set_reg c register.COMMAND_STATUS
               (Z.lor (reg c register.COMMAND_STATUS) (clear_bits value COMMAND_RESET)) in
    if has_bits value COMMAND_RESET then ohci_reset c else c
  else if offset =? register.RH_STATUS then c
  else if (offset =? register.REVISION) || (offset =? register.FM_REMAINING) ||
          (offset =? register.FM_NUMBER) then c
  else if offset =? register.RH_DESCRIPTOR_A then
    let ports := Z.land (reg c register.RH_DESCRIPTOR_A) 0xFF in
    set_reg c register.RH_DESCRIPTOR_A (Z.lor (clear_bits value 0xFF) ports)
  else with_registers c (<[slot offset := value]> (registers c)).

Definition interrupt_pending (c : OhciController) : bool :=
  has_bits (reg c register.INTERRUPT_STATUS) (reg c register.INTERRUPT_ENABLE).

Definition list_enabled (c : OhciController) (bit : Z) : bool :=
  has_bits (reg c register.CONTROL) bit.

Definition enabled_head (c : OhciController) (bit offset : Z) : option Z :=
  let head := reg c offset in
  if list_enabled c bit && negb (head =? 0) then Some head else None.
Definition control_list (c : OhciController) : option Z :=
  enabled_head c CONTROL_LIST_ENABLE register.CONTROL_HEAD_ED.
Definition bulk_list (c : OhciController) : option Z :=
  enabled_head c CONTROL_BULK_ENABLE register.BULK_HEAD_ED.

(** ** Transfers *)

Section Transfers.
Context {M : Type} `{UsbMemory M}.

Definition aligned (a : Z) : Z := clear_bits a 0xF.

Definition complete (c : OhciController) (mem : M) (d : Z) : OhciController * M :=
  let c := with_completed c (saturating_add 64 (completed c) 1) in
  let previous := reg c register.DONE_HEAD in
  let mem := (write_dword mem (wrapping_add32 d 8) previous).2 in
  (raise (set_reg c register.DONE_HEAD d) INTERRUPT_WRITEBACK_DONE, mem).

(** One byte of a setup packet, out of the dword that holds it. *)
Definition packet_byte (mem : M) (buffer : Z) (index : nat) : option Z :=
  let i := Z.of_nat index in
  word ← read_dword mem (wrapping_add32 buffer (Z.land i (unot 32 3)));
  Some (wrap8 (Z.shiftr word (Z.land i 3 * 8))).
Definition read_packet (mem : M) (buffer : Z) : option (list Z) :=
  mapM (packet_byte mem buffer) (seq 0 8).

(** How many bytes a descriptor's buffer holds. *)
Definition transfer_length (buffer last : Z) : Z :=
  if (buffer =? 0) || (last <? buffer) then 0 else Z.min (last - buffer + 1) MAX_TRANSFER_BYTES.

Definition transfer_setup (c : OhciController) (packet : list Z) : OhciController :=
  match Setup_parse packet with
  | None => with_pending_bytes c []
  | Some setup =>
    let '(answer, d) := control (device c) setup (report (state c)) in
    with_pending_bytes (with_device c d) (default [] answer)
  end.

(** What an IN transfer sends, and the controller once it is taken. *)
Definition transfer_in (c : OhciController) (endpoint length_ : Z) : list Z * OhciController :=
  if endpoint =? 0 then
    let n := Z.to_nat length_ in
    (take n (pending_bytes c), with_pending_bytes c (drop n (pending_bytes c)))
  else if negb (configured (device c)) || (length_ <? Z.of_nat REPORT_BYTES) then ([], c)
  else (report (state c), c).

Definition retired_control (control : Z) : Z :=
  Z.lxor (Z.lor (Z.land control 0x03FFFFFF) TD_TOGGLE_EXPLICIT) TD_TOGGLE_VALUE.

Definition shortest_delay (waiting : option Z) (delay : Z) : option Z :=
  if delay =? TD_DELAY_NEVER then waiting
  else Some (match waiting with Some w => Z.min w delay | None => delay end).

(** The data stage of one descriptor; [None] leaves it queued. *)
Definition move_data (c : OhciController) (mem : M) (endpoint transfer control buffer last : Z)
  : option (OhciController * M) :=
  let direction := Z.land (Z.shiftr control 19) 3 in
  let length_ := transfer_length buffer last in
  let pointer := wrapping_add32 transfer 4 in
  if direction =? PID_SETUP then
    packet ← read_packet mem buffer;
    Some (transfer_setup c packet, (write_dword mem pointer 0).2)
  else if direction =? PID_IN then
    let '(bytes, c) := transfer_in c endpoint length_ in
    if negb (endpoint =? 0) && bool_decide (bytes = []) then None else
    let mem := (write_bytes mem buffer bytes).2 in
    let sent := Z.of_nat (length bytes) in
    let remaining := if sent <? length_ then wrapping_add32 buffer sent else 0 in
    Some (c, (write_dword mem pointer remaining).2)
  else if direction =? PID_OUT then Some (c, (write_dword mem pointer 0).2)
  else Some (c, mem).

Definition run_transfer (c : OhciController) (mem : M) (endpoint transfer : Z)
  : option (Z * Z) * (OhciController * M) :=
  match (control ← read_dword mem transfer;
         buffer ← read_dword mem (wrapping_add32 transfer 4);
         next ← read_dword mem (wrapping_add32 transfer 8);
         last ← read_dword mem (wrapping_add32 transfer 12);
         moved ← move_data c mem endpoint transfer control buffer last;
         Some (control, next, moved)) with
  | None => (None, (c, mem))
  | Some (control, next, (c, mem)) =>
    let retired := retired_control control in
    let mem := (write_dword mem transfer retired).2 in
    let delay := Z.land (Z.shiftr control TD_DELAY_SHIFT) 7 in
    let c := with_done_delay c (shortest_delay (done_delay c) delay) in
    (Some (next, retired), complete c mem transfer)
  end.

(** The queue of one endpoint: the head it leaves and whether it moved. *)
Fixpoint run_queue (rounds : nat) (c : OhciController) (mem : M) (number tail current : Z)
    (moved : bool) : Z * bool * (OhciController * M) :=
  match rounds with
  | O => (current, moved, (c, mem))
  | S rounds =>
    let transfer := aligned current in
    if (transfer =? 0) || (transfer =? aligned tail) then (current, moved, (c, mem)) else
    match run_transfer c mem number transfer with
    | (None, (c, mem)) => (current, moved, (c, mem))
    | (Some (following, retired), (c, mem)) =>
      let carry := if has_bits retired TD_TOGGLE_VALUE then ED_TOGGLE_CARRY else 0 in
      run_queue rounds c mem number tail (Z.lor (aligned following) carry) true
    end
  end.

Fixpoint walk_endpoints (rounds : nat) (c : OhciController) (mem : M) (endpoint : Z)
  : OhciController * M :=
  match rounds with
  | O => (c, mem)
  | S rounds =>
    if endpoint =? 0 then (c, mem) else
    match (control ← read_dword mem endpoint;
           tail ← read_dword mem (wrapping_add32 endpoint 4);
           current ← read_dword mem (wrapping_add32 endpoint 8);
           next ← read_dword mem (wrapping_add32 endpoint 12);
           Some (control, tail, current, next)) with
    | None => (c, mem)
    | Some (control, tail, current, next) =>
      let skip := has_bits control (Z.shiftl 1 14) in
      let halted := has_bits current 1 in
      let '(c, mem) :=
        if negb skip && negb halted then
          let number := Z.land (Z.shiftr control 7) 0xF in
          let '(current, moved, (c, mem)) := run_queue MAX_TRANSFERS c mem number tail current false in
          (c, if (moved : bool) then (write_dword mem (wrapping_add32 endpoint 8) current).2 else mem)
        else (c, mem) in
      walk_endpoints rounds c mem (aligned next)
    end
  end.

Definition walk_list (c : OhciController) (mem : M) (head : option Z) : OhciController * M :=
  match head with
  | Some head => walk_endpoints MAX_ENDPOINTS c mem (aligned head)
  | None => (c, mem)
  end.

(** The head of the periodic list for this frame. *)
Definition periodic_list (c : OhciController) (mem : M) : option Z :=
  if negb (hcca c =? 0) && list_enabled c CONTROL_PERIODIC_ENABLE then
    head ← read_dword mem (wrapping_add32 (hcca c) (frame c mod 32 * 4));
    if head =? 0 then None else Some head
  else None.

Definition service_lists (c : OhciController) (mem : M) : OhciController * M :=
  if negb (operational c) || negb (attached c) then (c, mem) else
  let '(c, mem) := walk_list c mem (control_list c) in
  let '(c, mem) := walk_list c mem (bulk_list c) in
  walk_list c mem (periodic_list c mem).

(** Whether the done queue may be handed over in this frame; a queue that has
    to wait waits one frame less. *)
Definition tick_delay (c : OhciController) : bool * OhciController :=
  match done_delay c with
  | None => (false, c)
  | Some remaining =>
    if remaining =? 0 then (true, c) else (false, with_done_delay c (Some (remaining - 1)))
  end.

Definition hand_over (c : OhciController) (mem : M) (area : Z) : OhciController * M :=
  let '(ready, c) := tick_delay c in
  let done := reg c register.DONE_HEAD in
  let taken := bool_decide (read_dword mem (wrapping_add32 area 0x84) = Some 0) in
  if ready && taken && negb (done =? 0) && negb (area =? 0) then
    let c := with_done_delay c None in
    let mem := (write_dword mem (wrapping_add32 area 0x84) done).2 in
    (raise (set_reg c register.DONE_HEAD 0) INTERRUPT_WRITEBACK_DONE, mem)
  else (c, mem).

Definition advance_frame (c : OhciController) (mem : M) : OhciController * M :=
  if negb (operational c) then (c, mem) else
  let c := with_frame c (wrap64 (frame c + 1)) in
  let area := hcca c in
  let mem := if negb (area =? 0)
             then (write_dword mem (wrapping_add32 area 0x80) (Z.land (frame c) 0xFFFF)).2
             else mem in
  let c := raise c INTERRUPT_START_OF_FRAME in
  let '(c, mem) := service_lists c mem in
  hand_over c mem area.
End Transfers.
