(* ===== verification/OhciInvariant.v ===== *)
(** * The controller's invariants

    The invariant of the register file and the root ports, proved by rule
    induction over every interaction: register reads and writes at aligned
    offsets, plugging, input samples and frames over any guest memory.

    A guest may write registers at any offset, so the hub invariant need not
    hold of its controller.  What always holds is that the pad's state and the
    answers in flight are bytes, and that frames over any memory keep whatever
    single stores keep. *)

From S2P Require Import Prelude UsbDevice Ohci.

(** ** The hub *)

(** ** Bits *)

Create HintDb usb discriminated.
#[export] Hint Constants Opaque : usb.

Lemma clear_bits_spec x b i : 0 <= i < 32 ->
  Z.testbit (clear_bits x b) i = Z.testbit x i && negb (Z.testbit b i).
Proof.
  intros Hi. unfold clear_bits. rewrite Z.land_spec, unot_spec by lia.
  destruct (Z.ltb_spec i 32); [|lia]. by destruct (Z.testbit b i).
Qed.

Lemma clear_bits_u32 x b : u32 x -> u32 (clear_bits x b).
Proof. apply is_u_land_l. lia. Qed.

Lemma lor_u32 a b : u32 a -> u32 b -> u32 (Z.lor a b).
Proof. apply is_u_lor. lia. Qed.

Lemma land_u32 a b : u32 a -> u32 (Z.land a b).
Proof. apply is_u_land_l. lia. Qed.

#[export] Hint Resolve clear_bits_u32 lor_u32 land_u32 : usb.
#[export] Hint Extern 0 (is_u _ ?c) => is_const c; solve [split; by vm_compute] : usb.
#[export] Hint Extern 2 (is_u _ _) => solve [unfold is_u; lia] : usb.

(** ** Well-formed parts *)

Definition i16 (x : Z) : Prop := I16_MIN <= x <= I16_MAX.

Definition gamepad_ok (s : GamepadState) : Prop :=
  u16 (buttons s) /\ length (pressures s) = 8%nat /\ Forall u8 (pressures s) /\
  i16 (left_stick s).1 /\ i16 (left_stick s).2 /\ i16 (right_stick s).1 /\ i16 (right_stick s).2.

Definition device_ok (d : GamepadDevice) : Prop := is_u 7 (address d) /\ u8 (configuration d).

(** A root port is enabled only while something is attached to it, and shows
    a connection exactly then. *)
Definition port_ok (here : bool) (status : Z) : Prop :=
  u32 status /\ Z.testbit status 0 = here /\ (Z.testbit status 1 = true -> here = true).

Definition occupied (c : OhciController) (i : nat) : bool := attached c && (i =? GAMEPAD_PORT)%nat.

Record ohci_ok (c : OhciController) : Prop := mk_ohci_ok {
  ok_count : length (registers c) = 32%nat;
  ok_registers : Forall u32 (registers c);
  ok_revision : reg c register.REVISION = 0x10;
  ok_ports_reported : Z.land (reg c register.RH_DESCRIPTOR_A) 0xFF = Z.of_nat ROOT_PORTS;
  ok_port_count : length (port_status c) = ROOT_PORTS;
  ok_ports : forall i st, port_status c !! i = Some st -> port_ok (occupied c i) st;
  ok_state : gamepad_ok (state c);
  ok_device : device_ok (device c);
  ok_pending : Forall u8 (pending_bytes c) /\ (length (pending_bytes c) <= 32)%nat;
  ok_delay : match done_delay c with Some d => 0 <= d < TD_DELAY_NEVER | None => True end;
  ok_accesses : length (accesses c) = 32%nat;
}.

Lemma report_ok s : gamepad_ok s -> Forall u8 (report s) /\ length (report s) = REPORT_BYTES.
Proof.
  intros (_ & Hl & Hp & _). unfold report. split.
  - repeat (apply Forall_app; split); auto using to_le_bytes_u8.
    repeat constructor; unfold is_u; cbn; lia.
  - rewrite !length_app, !length_to_le_bytes, Hl. done.
Qed.

Lemma default_gamepad_ok : gamepad_ok GamepadState_default.
Proof.
  split_and!; cbn; try (unfold is_u, i16, I16_MIN, I16_MAX; cbn; lia).
  repeat constructor; unfold is_u; lia.
Qed.

(** ** Registers and ports *)

Lemma reg_u32 c offset : ohci_ok c -> u32 (reg c offset).
Proof.
  intros Hc. unfold reg. destruct (decide (slot offset < length (registers c))%nat) as [Hlt|Hge].
  - pose proof (ok_registers c Hc) as Hall. rewrite Forall_nth in Hall. by apply Hall.
  - rewrite nth_overflow by lia. unfold is_u. lia.
Qed.

#[export] Hint Resolve reg_u32 : usb.

Lemma reg_set c offset offset' v : (slot offset' < length (registers c))%nat ->
  reg (set_reg c offset v) offset' = if decide (slot offset = slot offset') then v else reg c offset'.
Proof.
  intros Hlt. unfold reg, set_reg. cbn [registers with_registers].
  rewrite !nth_lookup. destruct (decide (slot offset = slot offset')) as [->|Hne].
  - by rewrite list_lookup_insert_eq.
  - by rewrite list_lookup_insert_ne.
Qed.

(** A register write that keeps the revision and the port count. *)
Lemma set_reg_ok c offset v : ohci_ok c -> u32 v ->
  slot offset <> slot register.REVISION ->
  (slot offset = slot register.RH_DESCRIPTOR_A -> Z.land v 0xFF = Z.of_nat ROOT_PORTS) ->
  ohci_ok (set_reg c offset v).
Proof.
  intros Hc Hv Hrev Hports. destruct (Hc). constructor; try done.
  - cbn. by rewrite length_insert.
  - apply Forall_insert; done.
  - rewrite reg_set by (rewrite ok_count0; apply Nat.ltb_lt; by vm_compute). by rewrite decide_False.
  - rewrite reg_set by (rewrite ok_count0; apply Nat.ltb_lt; by vm_compute). case_decide; auto.
Qed.

Lemma raise_ok c bits : ohci_ok c -> u32 bits -> ohci_ok (raise c bits).
Proof. intros. apply set_reg_ok; auto with usb; done. Qed.

Lemma port_at_ok c i : ohci_ok c -> (i < ROOT_PORTS)%nat -> port_ok (occupied c i) (port_at c i).
Proof.
  intros Hc Hi. unfold port_at. rewrite nth_lookup.
  destruct (lookup_lt_is_Some_2 (port_status c) i) as [st Hst]; [by rewrite (ok_port_count c Hc)|].
  rewrite Hst. exact (ok_ports c Hc i st Hst).
Qed.

Lemma set_port_ok c i st : ohci_ok c -> port_ok (occupied c i) st -> ohci_ok (set_port c i st).
Proof.
  intros Hc Hst. destruct (Hc). constructor; try done.
  - cbn. by rewrite length_insert.
  - intros j st'. cbn [port_status set_port with_port_status]. intros Hj.
    change (occupied (set_port c i st) j) with (occupied c j).
    destruct (decide (i = j)) as [<-|Hne].
    + apply list_lookup_insert_Some in Hj as [(_ & <- & _)|(? & _)]; done.
    + rewrite list_lookup_insert_ne in Hj by done. by apply ok_ports0.
Qed.

(** Bits that neither connect nor enable a port. *)
Lemma port_lor here st b : port_ok here st -> u32 b ->
  (Z.testbit b 0 = true -> here = true) -> (Z.testbit b 1 = true -> here = true) ->
  port_ok here (Z.lor st b).
Proof.
  intros (Hu & H0 & H1) Hb Hb0 Hb1. split; [auto with usb|]. rewrite !Z.lor_spec, H0.
  destruct here, (Z.testbit b 0), (Z.testbit b 1), (Z.testbit st 1); naive_solver.
Qed.

Lemma port_clear here st b : port_ok here st -> Z.testbit b 0 = false ->
  port_ok here (clear_bits st b).
Proof.
  intros (Hu & H0 & H1) Hb. split; [auto with usb|]. rewrite !clear_bits_spec by lia.
  rewrite H0, Hb, andb_true_r. split; [done|]. intros [? _]%andb_true_iff. auto.
Qed.

Lemma port_command_ok here st v : port_ok here st -> u32 v -> port_ok here (port_command here st v).
Proof.
  intros Hst Hv. unfold port_command.
  repeat match goal with
  | |- port_ok _ (if ?b then _ else _) => destruct b eqn:?
  | |- port_ok _ (Z.lor _ port.ENABLED) => apply port_lor; [| by auto with usb | done |]
  | |- port_ok _ (Z.lor _ _) => apply port_lor; [| by auto with usb | done | done]
  | |- port_ok _ (clear_bits _ _) => apply port_clear; [|try done]
  | |- port_ok _ _ => exact Hst
  end; try (intros _; by match goal with H : _ && _ = true |- _ => apply andb_true_iff in H as [_ H] end).
  all: rewrite Z.land_spec; apply andb_false_r.
Qed.

Lemma write_port_ok c i v : ohci_ok c -> u32 v -> ohci_ok (write_port c i v).
Proof.
  intros Hc Hv. unfold write_port. destruct (Nat.leb_spec ROOT_PORTS i) as [Hge|Hlt]; [done|].
  set (c1 := with_port_writes c _). assert (ohci_ok c1) as Hc1 by (destruct Hc; by constructor).
  change (attached c1 && _) with (occupied c1 i).
  pose proof (port_command_ok _ _ v (port_at_ok c1 i Hc1 Hlt) Hv) as Hcmd.
  destruct (has_bits v port.SET_RESET); [|by apply set_port_ok].
  apply raise_ok; [|by auto with usb]. destruct (occupied c1 i) eqn:Hhere.
  - assert (ohci_ok (set_port c1 i (Z.lor (port_command true (port_at c1 i) v)
      (Z.lor (Z.lor port.ENABLED port.RESET_CHANGE) port.ENABLE_CHANGE)))) as Hset.
    { apply set_port_ok; [done|]. rewrite Hhere. apply port_lor; [done | by auto with usb | done | done]. }
    destruct Hset. constructor; try done. split; [constructor | cbn; lia].
  - apply set_port_ok; [done|]. rewrite Hhere. apply port_lor; [done | by auto with usb | done | done].
Qed.

Lemma default_ok : ohci_ok OhciController_default.
Proof.
  constructor; try done.
  - repeat first [apply Forall_insert | apply Forall_replicate]; split; by vm_compute.
  - intros i st Hst. cbn [port_status OhciController_default] in Hst.
    apply lookup_replicate in Hst as [-> _]. split; [by auto with usb | done].
  - exact default_gamepad_ok.
  - split; [constructor | cbn; lia].
Qed.

Lemma reset_ok c : ohci_ok c -> ohci_ok (ohci_reset c).
Proof.
  intros Hc. unfold ohci_reset. set (n := mkOhciController _ _ _ _ _ _ _ _ _ _ _).
  assert (forall i st, port_status n !! i = Some st -> u32 st /\ Z.testbit st 0 = false /\ Z.testbit st 1 = false)
    as Hports.
  { intros i st Hst. cbn [port_status n OhciController_default] in Hst.
    apply lookup_replicate in Hst as [-> _]. split; [by auto with usb | done]. }
  pose proof default_ok as Hd. destruct (attached c) eqn:Ha.
  - apply raise_ok; [|by auto with usb]. destruct Hd, Hc. constructor; try done.
    intros i st. unfold occupied. cbn [attached set_port with_port_status n].
    cbn [port_status set_port with_port_status].
    destruct i as [|i]; intros Hst; [by injection Hst as <- | ].
    apply (Hports (S i)) in Hst as (Hu & H0 & H1). split; [done|]. by rewrite H0, H1.
  - destruct Hd, Hc. by constructor.
Qed.

Lemma set_attached_ok c a : ohci_ok c -> ohci_ok (set_attached c a).
Proof.
  intros Hc. unfold set_attached. destruct (Bool.eqb (attached c) a) eqn:Heq; [done|].
  apply eqb_false_iff in Heq. apply raise_ok; [|by auto with usb].
  pose proof (port_at_ok c GAMEPAD_PORT Hc) as (Hu & H0 & H1); [unfold ROOT_PORTS, GAMEPAD_PORT; lia|].
  destruct (Hc). constructor; try done; [cbn; by rewrite length_insert|].
  intros i st. unfold occupied. cbn [attached set_port with_port_status with_attached port_status].
  change (port_at (with_attached c a) GAMEPAD_PORT) with (port_at c GAMEPAD_PORT).
  unfold occupied in H0. rewrite Nat.eqb_refl, andb_true_r in H0. intros Hst.
  destruct (decide (i = GAMEPAD_PORT)) as [->|Hne].
  - apply list_lookup_insert_Some in Hst as [(_ & <- & _)|(? & _)]; [|done].
    rewrite Nat.eqb_refl, andb_true_r. destruct a; (split; [auto 6 with usb|]).
    + rewrite !Z.lor_spec. split; [apply orb_true_r | done].
    + rewrite !Z.lor_spec, !clear_bits_spec by lia. split; [by rewrite andb_false_r|].
      by rewrite andb_false_r.
  - rewrite list_lookup_insert_ne in Hst by done. apply ok_ports0 in Hst as (Hu' & Hb0 & Hb1).
    apply Nat.eqb_neq in Hne. unfold occupied in Hb0, Hb1. rewrite Hne, andb_false_r in *.
    by split_and!.
Qed.

Lemma count_access_ok f c offset : ohci_ok c -> ohci_ok (count_access f c offset).
Proof. intros Hc. destruct Hc. constructor; try done. cbn. by rewrite length_alter. Qed.

Lemma read_ok c offset : ohci_ok c -> ohci_ok (ohci_read c offset).2.
Proof. apply count_access_ok. Qed.

Lemma slot_aligned a b : 0 <= a -> 0 <= b -> a mod 4 = 0 -> b mod 4 = 0 -> a <> b -> slot a <> slot b.
Proof. unfold slot. intros. dlia. Qed.

(** Setting a register that is neither the revision nor the port count. *)
Lemma set_other_ok c offset v : ohci_ok c -> u32 v -> 0 <= offset -> offset mod 4 = 0 ->
  offset <> register.REVISION -> offset <> register.RH_DESCRIPTOR_A -> ohci_ok (set_reg c offset v).
Proof.
  intros Hc Hv Hpos Hal Hr Hd. apply set_reg_ok; [done | done | |].
  - by apply slot_aligned.
  - intros Heq. by destruct (slot_aligned offset register.RH_DESCRIPTOR_A).
Qed.

Lemma write_ok c offset v : ohci_ok c -> u32 v -> 0 <= offset -> offset mod 4 = 0 ->
  ohci_ok (ohci_write c offset v).
Proof.
  intros Hc0 Hv Hpos Hal. unfold ohci_write.
  set (c1 := count_access _ c offset). assert (ohci_ok c1) as Hc by by apply count_access_ok.
  destruct (in_ports offset); [by apply write_port_ok|].
  do 3 (case_match; [apply set_other_ok; auto with usb; done|]).
  case_match.
  { assert (ohci_ok (set_reg c1 register.COMMAND_STATUS (Z.lor (reg c1 register.COMMAND_STATUS)
      (clear_bits v COMMAND_RESET)))) by (apply set_other_ok; auto with usb; done).
    case_match; [by apply reset_ok | done]. }
  case_match; [done|]. case_match eqn:Hro; [done|].
  apply orb_false_iff in Hro as [Hro _]. apply orb_false_iff in Hro as [Hrev _]. apply Z.eqb_neq in Hrev.
  destruct (offset =? register.RH_DESCRIPTOR_A) eqn:Hd.
  - apply set_reg_ok; [done | auto with usb | done |]. intros _. rewrite <- (ok_ports_reported c1 Hc).
    apply Z.bits_inj'. intros i Hi. rewrite !Z.land_spec, Z.lor_spec, Z.land_spec.
    destruct (Z.ltb_spec i 32).
    + rewrite clear_bits_spec by lia. destruct (Z.testbit 0xFF i); [|by rewrite !andb_false_r].
      by rewrite !andb_false_r, !andb_true_r.
    + rewrite (is_u_high_bit 32 0xFF i); [by rewrite !andb_false_r | unfold is_u; lia | lia].
  - apply Z.eqb_neq in Hd. by apply (set_other_ok c1 offset v).
Qed.

(** ** Transfers *)

Section Memory.
Context {M : Type} `{UsbMemory M}.

(** What the memory promises: while it is [sane] it holds dwords, and the
    controller's writes keep it so. *)
Class UsbWords : Type := {
  sane : M -> Prop;
  read_dword_u32 : forall mem a v, sane mem -> read_dword mem a = Some v -> u32 v;
  write_dword_sane : forall mem a v, sane mem -> u32 a -> sane (write_dword mem a v).2;
  write_bytes_sane : forall mem a bs, sane mem -> u32 a -> Forall u8 bs -> sane (write_bytes mem a bs).2;
}.
Context `{!UsbWords}.

(** The controller and its memory. *)
Definition usb_ok (s : OhciController * M) : Prop := ohci_ok s.1 /\ sane s.2.

Lemma with_done_delay_ok c d : ohci_ok c ->
  match d with Some d => 0 <= d < TD_DELAY_NEVER | None => True end -> ohci_ok (with_done_delay c d).
Proof. intros Hc Hd. destruct Hc. by constructor. Qed.

Lemma with_pending_ok c bs : ohci_ok c -> Forall u8 bs -> (length bs <= 32)%nat ->
  ohci_ok (with_pending_bytes c bs).
Proof. intros Hc Hb Hl. destruct Hc. by constructor. Qed.

Lemma complete_ok c mem d : ohci_ok c -> u32 d -> ohci_ok (complete c mem d).1.
Proof.
  intros Hc Hd. unfold complete. cbn [fst]. apply raise_ok; [|by auto with usb].
  apply set_other_ok; try done. destruct Hc. by constructor.
Qed.

Lemma get_descriptor_ok s bs : get_descriptor s = Some bs -> Forall u8 bs /\ (length bs <= 32)%nat.
Proof.
  assert (forall l, forallb (fun b => (0 <=? b) && (b <? 2 ^ 8)) l && (length l <=? 32)%nat = true ->
    Forall u8 l /\ (length l <= 32)%nat) as Hcheck.
  { intros l [Hall Hl]%andb_true_iff. split; [|by apply Nat.leb_le].
    apply Forall_forall. intros b Hb%list_elem_of_In. rewrite forallb_forall in Hall.
    apply Hall in Hb. unfold is_u. lia. }
  unfold get_descriptor. repeat case_match; intros [= <-]; apply Hcheck; by vm_compute.
Qed.

Lemma control_answer_ok d s st : device_ok d -> Forall u8 st -> length st = REPORT_BYTES ->
  device_ok (control_answer d s st).2 /\
  forall bs, (control_answer d s st).1 = Some bs -> Forall u8 bs /\ (length bs <= 32)%nat.
Proof.
  intros [Ha Hc] Hst Hl. unfold REPORT_BYTES in Hl.
  assert (forall v, is_u 7 (Z.land v 0x7F)) by (intros v; pose proof (land_le_mask v 0x7F); unfold is_u; lia).
  assert (forall v, u8 (Z.land v 0xFF)) by (intros v; pose proof (land_le_mask v 0xFF); unfold is_u; lia).
  unfold control_answer. split; [repeat case_match; split; cbn; auto|].
  intros bs. repeat case_match; cbn [fst]; try (intros [= <-]); try done; try apply get_descriptor_ok.
  all: split; [| try rewrite Hl; cbn; lia].
  all: try done; repeat (apply Forall_cons; split; [try done; split; by vm_compute|]); by apply Forall_nil.
Qed.

Lemma transfer_setup_ok c packet : ohci_ok c -> ohci_ok (transfer_setup c packet).
Proof.
  intros Hc. unfold transfer_setup. destruct (Setup_parse packet) as [s|];
    [|apply with_pending_ok; [done | constructor | cbn; lia]].
  destruct (report_ok _ (ok_state c Hc)) as [Hb Hl]. unfold control.
  pose proof (control_answer_ok (device c) s _ (ok_device c Hc) Hb Hl) as [Hd Ha].
  destruct (control_answer _ _ _) as [answer d]. cbn [fst snd] in *.
  apply with_pending_ok; [destruct Hc; by constructor | |].
  - destruct answer as [bs|]; [|constructor]. apply Forall_take. by apply Ha.
  - destruct answer as [bs|]; [|cbn; lia]. cbn. rewrite length_take. destruct (Ha bs eq_refl). lia.
Qed.

Lemma transfer_in_ok c e n : ohci_ok c -> ohci_ok (transfer_in c e n).2.
Proof.
  intros Hc. unfold transfer_in. repeat case_match; try done. cbn [snd].
  destruct (ok_pending c Hc). apply with_pending_ok; [done | by apply Forall_drop |].
  rewrite length_drop. lia.
Qed.

Lemma transfer_in_bytes c e n : ohci_ok c ->
  Forall u8 (transfer_in c e n).1 /\ (length (transfer_in c e n).1 <= Z.to_nat n)%nat.
Proof.
  intros Hc. unfold transfer_in. destruct (ok_pending c Hc) as [Hp _].
  destruct (report_ok _ (ok_state c Hc)) as [Hr Hl].
  case_match; [cbn [fst]; split; [by apply Forall_take | rewrite length_take; lia]|].
  case_match; cbn [fst]; [split; [constructor | cbn; lia]|]. split; [done|]. rewrite Hl.
  match goal with Hb : _ || _ = false |- _ => apply orb_false_iff in Hb as [_ Hb]; apply Z.ltb_ge in Hb end.
  lia.
Qed.

Lemma move_data_ok c mem e t ctl b l c' mem' : ohci_ok c ->
  move_data c mem e t ctl b l = Some (c', mem') -> ohci_ok c'.
Proof.
  intros Hc. unfold move_data. cbn zeta. case_match.
  { destruct (read_packet mem b); cbn; [|done]. intros [= <- _]. by apply transfer_setup_ok. }
  case_match.
  { pose proof (transfer_in_ok c e (transfer_length b l) Hc) as Hin.
    destruct (transfer_in _ _ _) as [bytes c1]. case_match; [done|]. by intros [= <- _]. }
  case_match; by intros [= <- _].
Qed.

Lemma shortest_delay_ok w ctl : match w with Some d => 0 <= d < TD_DELAY_NEVER | None => True end ->
  match shortest_delay w (Z.land (Z.shiftr ctl TD_DELAY_SHIFT) 7) with
  | Some d => 0 <= d < TD_DELAY_NEVER | None => True end.
Proof.
  pose proof (land_le_mask (Z.shiftr ctl TD_DELAY_SHIFT) 7) as Hm. revert Hm.
  generalize (Z.land (Z.shiftr ctl TD_DELAY_SHIFT) 7). unfold shortest_delay, TD_DELAY_NEVER.
  intros d Hm Hw. destruct (Z.eqb_spec d 7); [done|]. destruct w; lia.
Qed.

Lemma retired_u32 ctl : u32 (retired_control ctl).
Proof.
  unfold retired_control. apply is_u_lxor; [lia | | by auto with usb].
  apply lor_u32; [|by auto with usb]. apply is_u_land_r; [lia | unfold is_u; lia].
Qed.

Lemma run_transfer_keeps c mem e t : ohci_ok c -> u32 t -> ohci_ok (run_transfer c mem e t).2.1.
Proof.
  intros Hc Ht. unfold run_transfer.
  destruct (mbind _ (read_dword mem t)) as [[[ctl next] [c1 mem1]]|] eqn:Hb; [|done]. cbn [fst snd].
  destruct (read_dword mem t) as [ctl'|]; [|done]. cbn [mbind option_bind] in Hb.
  destruct (read_dword mem (wrapping_add32 t 4)) as [b|]; [|done]. cbn [mbind option_bind] in Hb.
  destruct (read_dword mem (wrapping_add32 t 8)) as [n|]; [|done]. cbn [mbind option_bind] in Hb.
  destruct (read_dword mem (wrapping_add32 t 12)) as [l|]; [|done]. cbn [mbind option_bind] in Hb.
  destruct (move_data c mem e t ctl' b l) as [[c2 mem2]|] eqn:Hm; [|done]. cbn in Hb.
  injection Hb as -> -> -> ->. apply move_data_ok in Hm; [|done]. apply complete_ok; [|done].
  apply with_done_delay_ok; [done|]. apply shortest_delay_ok, Hm.
Qed.

Lemma run_transfer_next c mem e t next retired s : run_transfer c mem e t = (Some (next, retired), s) ->
  read_dword mem (wrapping_add32 t 8) = Some next.
Proof.
  unfold run_transfer. destruct (read_dword mem t); [|done]. cbn [mbind option_bind].
  destruct (read_dword mem (wrapping_add32 t 4)); [|done]. cbn [mbind option_bind].
  destruct (read_dword mem (wrapping_add32 t 8)); [|done]. cbn [mbind option_bind].
  destruct (read_dword mem (wrapping_add32 t 12)); [|done]. cbn [mbind option_bind].
  destruct (move_data _ _ _ _ _ _ _) as [[c2 mem2]|]; [|done]. cbn. by intros [= -> _ _].
Qed.

Lemma run_transfer_none c mem e t s : run_transfer c mem e t = (None, s) -> s = (c, mem).
Proof. unfold run_transfer. destruct (mbind _ _) as [[[? ?] [? ?]]|]; by intros [= <-]. Qed.

Lemma move_data_sane c mem e t ctl b l c' mem' : usb_ok (c, mem) -> u32 b ->
  move_data c mem e t ctl b l = Some (c', mem') -> sane mem'.
Proof.
  intros [Hc Hs] Hb. cbn [fst snd] in *. unfold move_data. cbn zeta.
  assert (forall a b, u32 (wrapping_add32 a b)) as Hw by apply u32_wrapping_add. case_match.
  { destruct (read_packet mem b); cbn; [|done]. intros [= _ <-]. by apply write_dword_sane. }
  case_match; [|case_match; intros [= _ <-]; [by apply write_dword_sane | done]].
  pose proof (transfer_in_bytes c e (transfer_length b l) Hc) as [Hu8 _].
  destruct (transfer_in _ _ _) as [bytes c1]. cbn [fst] in *. case_match; [done|]. intros [= _ <-].
  by apply write_dword_sane; [apply write_bytes_sane|].
Qed.

Lemma run_transfer_ok c mem e t : usb_ok (c, mem) -> u32 t -> usb_ok (run_transfer c mem e t).2.
Proof.
  intros [Hc Hs] Ht. split; [by apply run_transfer_keeps|]. cbn [fst snd] in *. unfold run_transfer.
  destruct (read_dword mem t) as [ctl|]; [|done]. cbn [mbind option_bind].
  destruct (read_dword mem (wrapping_add32 t 4)) as [b|] eqn:Hb; [|done]. cbn [mbind option_bind].
  destruct (read_dword mem (wrapping_add32 t 8)) as [n|]; [|done]. cbn [mbind option_bind].
  destruct (read_dword mem (wrapping_add32 t 12)) as [l|]; [|done]. cbn [mbind option_bind].
  destruct (move_data c mem e t ctl b l) as [[c1 mem1]|] eqn:Hm; [|done]. cbn [mbind option_bind snd complete].
  apply move_data_sane in Hm; [| by split | by eapply read_dword_u32].
  apply write_dword_sane; [|apply u32_wrapping_add]. by apply write_dword_sane.
Qed.

Lemma run_queue_ok rounds c mem n tail current moved : usb_ok (c, mem) -> u32 current ->
  usb_ok (run_queue rounds c mem n tail current moved).2.
Proof.
  revert c mem current moved. induction rounds as [|rounds IH]; intros c mem current moved Hc Hcur;
    cbn [run_queue]; [done|]. case_match; [done|].
  pose proof (run_transfer_ok c mem n (aligned current) Hc (clear_bits_u32 _ _ Hcur)) as Hok.
  destruct (run_transfer _ _ _ _) as [[[following retired]|] [c1 mem1]] eqn:Hrun; cbn [snd] in *; [|done].
  apply IH; [done|]. apply run_transfer_next, read_dword_u32 in Hrun; [|apply Hc].
  apply lor_u32; [by apply clear_bits_u32|].
  case_match; by auto with usb.
Qed.

Lemma walk_endpoints_ok rounds c mem e : usb_ok (c, mem) -> usb_ok (walk_endpoints rounds c mem e).
Proof.
  revert c mem e. induction rounds as [|rounds IH]; intros c mem e Hc; cbn [walk_endpoints]; [done|].
  case_match; [done|].
  destruct (read_dword mem e) as [ctl|]; [|done]. cbn [mbind option_bind].
  destruct (read_dword mem (wrapping_add32 e 4)) as [tail|]; [|done]. cbn [mbind option_bind].
  destruct (read_dword mem (wrapping_add32 e 8)) as [cur|] eqn:Hcur; [|done]. cbn [mbind option_bind].
  destruct (read_dword mem (wrapping_add32 e 12)) as [next|]; [|done]. cbn [mbind option_bind].
  destruct (negb _ && negb _); [|by apply IH]. apply read_dword_u32 in Hcur; [|apply Hc].
  pose proof (run_queue_ok MAX_TRANSFERS c mem (Z.land (Z.shiftr ctl 7) 0xF) tail cur false Hc Hcur)
    as [Hq Hs].
  destruct (run_queue _ _ _ _ _ _ _) as [[? moved] [c1 mem1]]. apply IH. split; [done|]. cbn [fst snd] in *.
  destruct moved; [|done]. apply write_dword_sane; [done | apply u32_wrapping_add].
Qed.

Lemma walk_list_ok c mem head : usb_ok (c, mem) -> usb_ok (walk_list c mem head).
Proof. destruct head; [apply walk_endpoints_ok | done]. Qed.

Lemma service_lists_ok c mem : usb_ok (c, mem) -> usb_ok (service_lists c mem).
Proof.
  intros Hc. unfold service_lists. case_match; [done|].
  pose proof (walk_list_ok c mem (control_list c) Hc). destruct (walk_list c mem _) as [c1 mem1].
  pose proof (walk_list_ok c1 mem1 (bulk_list c1)). destruct (walk_list c1 mem1 _) as [c2 mem2].
  auto using walk_list_ok.
Qed.

Lemma tick_delay_ok c : ohci_ok c -> ohci_ok (tick_delay c).2.
Proof.
  intros Hc. unfold tick_delay. pose proof (ok_delay c Hc) as Hd.
  destruct (done_delay c) as [d|]; [|done]. destruct (Z.eqb_spec d 0); [done|].
  apply with_done_delay_ok; [done | lia].
Qed.

Lemma hand_over_ok c mem area : usb_ok (c, mem) -> usb_ok (hand_over c mem area).
Proof.
  intros [Hc%tick_delay_ok Hs]. unfold hand_over. cbn [fst snd] in *.
  destruct (tick_delay c) as [ready c1]. cbn [snd] in Hc. case_match; [|by split]. split; cbn [fst snd].
  - apply raise_ok; [|by auto with usb]. apply set_other_ok; try done. by apply with_done_delay_ok.
  - apply write_dword_sane; [done | apply u32_wrapping_add].
Qed.

Lemma advance_frame_ok c mem : usb_ok (c, mem) -> usb_ok (advance_frame c mem).
Proof.
  intros [Hc Hs]. cbn [fst snd] in *. unfold advance_frame. case_match; [by split|]. cbn zeta.
  set (c1 := with_frame c _). assert (ohci_ok c1) as Hc1 by (destruct Hc; by constructor).
  set (mem1 := if negb (hcca c1 =? 0) then _ else _).
  assert (sane mem1) as Hs1
    by (unfold mem1; case_match; [apply write_dword_sane; [done | apply u32_wrapping_add] | done]).
  pose proof (service_lists_ok (raise c1 INTERRUPT_START_OF_FRAME) mem1) as Hserve.
  destruct (service_lists _ mem1) as [c2 mem2]. apply hand_over_ok, Hserve. split; [|done].
  apply raise_ok; [done | by auto with usb].
Qed.

(** ** Every interaction *)

(** The guest may change its memory between any two of them. *)
Inductive usb_step : OhciController * M -> OhciController * M -> Prop :=
| usb_read c mem offset : usb_step (c, mem) ((ohci_read c offset).2, mem)
| usb_write c mem offset v : u32 v -> 0 <= offset -> offset mod 4 = 0 ->
    usb_step (c, mem) (ohci_write c offset v, mem)
| usb_plug c mem a : usb_step (c, mem) (set_attached c a, mem)
| usb_input c mem s : gamepad_ok s -> usb_step (c, mem) (set_state c s, mem)
| usb_frame c mem : usb_step (c, mem) (advance_frame c mem)
| usb_guest c mem mem' : sane mem' -> usb_step (c, mem) (c, mem').

Definition usb_reachable (s : OhciController * M) : Prop :=
  exists mem, sane mem /\ rtc usb_step (OhciController_default, mem) s.

Lemma usb_step_ok s s' : usb_step s s' -> usb_ok s -> usb_ok s'.
Proof.
  intros Hstep [Hc Hs]. destruct Hstep; cbn [fst snd] in *.
  - split; [by apply read_ok | done].
  - split; [by apply write_ok | done].
  - split; [by apply set_attached_ok | done].
  - split; [destruct Hc; by constructor | done].
  - by apply advance_frame_ok.
  - by split.
Qed.

Lemma usb_reachable_ok s : usb_reachable s -> ohci_ok s.1.
Proof.
  intros (mem & Hs & Hrtc). remember (OhciController_default, mem) as s0 eqn:Hs0.
  assert (usb_ok s0) as Hok by (subst; split; [exact default_ok | done]). clear Hs0 Hs.
  induction Hrtc; [apply Hok|]. eauto using usb_step_ok.
Qed.

Lemma ohci_read_u32 c offset : ohci_ok c -> u32 (ohci_read c offset).1.
Proof.
  intros Hc. unfold ohci_read. set (c1 := count_access _ c offset).
  assert (ohci_ok c1) as Hc1 by by apply count_access_ok. cbn [fst]. case_match.
  - destruct (port_status c1 !! _) as [st|] eqn:Hst; [|split; by vm_compute].
    by apply (ok_ports c1 Hc1) in Hst as [? _].
  - repeat case_match; auto with usb.
    + apply is_u_land_r; [lia | unfold is_u; lia].
    + destruct (registers c1 !! _) as [v|] eqn:Hv; [|split; by vm_compute].
      pose proof (ok_registers c1 Hc1) as Hall. rewrite Forall_lookup in Hall. by apply (Hall _ _ Hv).
Qed.

(** C14: Whatever a driver does through aligned registers, whatever guest
    memory holds, and however the pad is plugged and unplugged, the controller
    stays an OHCI hub with four ports: it reports its revision and its port
    count, every register reads as a dword, a port shows a connection exactly
    while the pad is on it, and a port is enabled only then. *)
Theorem usb_hub_invariant (c : OhciController) (mem : M) : usb_reachable (c, mem) ->
  (ohci_read c register.REVISION).1 = 0x10 /\
  Z.land (ohci_read c register.RH_DESCRIPTOR_A).1 0xFF = Z.of_nat ROOT_PORTS /\
  (forall offset, u32 (ohci_read c offset).1) /\
  (forall i, (i < ROOT_PORTS)%nat ->
     let status := (ohci_read c (register.RH_PORT_STATUS + 4 * Z.of_nat i)).1 in
     Z.testbit status 0 = occupied c i /\ (Z.testbit status 1 = true -> occupied c i = true)).
Proof.
  intros Hc%usb_reachable_ok. cbn [fst] in Hc. split_and!.
  - rewrite <- (ok_revision c Hc). unfold ohci_read, reg. cbn -[nth slot]. rewrite nth_lookup. done.
  - rewrite <- (ok_ports_reported c Hc). unfold ohci_read, reg. cbn -[nth slot Z.land].
    rewrite nth_lookup. done.
  - intros offset. by apply ohci_read_u32.
  - intros i Hi. cbn zeta. destruct (port_at_ok c i Hc Hi) as (_ & Hb0 & Hb1).
    assert ((ohci_read c (register.RH_PORT_STATUS + 4 * Z.of_nat i)).1 = port_at c i) as ->; [|done].
    unfold ohci_read, in_ports, port_index, register.RH_PORT_STATUS_END, register.RH_PORT_STATUS. cbn [fst].
    unfold ROOT_PORTS in *. destruct (Z.leb_spec 0x54 (0x54 + 4 * Z.of_nat i)); [|lia].
    destruct (Z.ltb_spec (0x54 + 4 * Z.of_nat i) (0x54 + 4 * Z.of_nat 4)); [|lia]. cbn [andb].
    replace (Z.to_nat ((0x54 + 4 * Z.of_nat i - 0x54) / 4)) with i by dlia.
    unfold port_at. by rewrite nth_lookup.
Qed.
End Memory.

(** An access that is not aligned reaches the register below it past the
    guards: it renames the revision and the number of ports. *)
Lemma unaligned_write_renames_hub :
  let c := ohci_write OhciController_default (register.RH_DESCRIPTOR_A + 1) 0 in
  Z.land (ohci_read c register.RH_DESCRIPTOR_A).1 0xFF = 0 /\
  (ohci_read (ohci_write OhciController_default (register.REVISION + 1) 7) register.REVISION).1 = 7.
Proof. by vm_compute. Qed.

(** ** The pad *)

Record pad_ok (c : OhciController) : Prop := mk_pad_ok {
  pad_state : gamepad_ok (state c);
  pad_device : device_ok (device c);
  pad_pending : Forall u8 (pending_bytes c) /\ (length (pending_bytes c) <= 32)%nat;
}.

(** The parts of the controller it is about. *)
Lemma pad_same c c' : state c' = state c -> device c' = device c -> pending_bytes c' = pending_bytes c ->
  pad_ok c -> pad_ok c'.
Proof. intros Hs Hd Hp []. split; congruence. Qed.

Lemma pad_default : pad_ok OhciController_default.
Proof. destruct default_ok. by constructor. Qed.

Lemma pad_cleared c : gamepad_ok (state c) -> device c = GamepadDevice_default -> pending_bytes c = [] -> pad_ok c.
Proof.
  intros Hs Hd Hp. split; [done| |].
  - rewrite Hd. apply (pad_device _ pad_default).
  - rewrite Hp. split; [constructor | cbn; lia].
Qed.

Lemma pad_reset c : pad_ok c -> pad_ok (ohci_reset c).
Proof. intros [Hs _ _]. unfold ohci_reset. case_match; by apply pad_cleared. Qed.

Lemma pad_write_port c i v : pad_ok c -> pad_ok (write_port c i v).
Proof.
  intros Hc. unfold write_port. case_match; [done|]. cbn zeta. case_match; [|by apply (pad_same c)].
  case_match; [|by apply (pad_same c)]. apply pad_cleared; [apply (pad_state c Hc) | done | done].
Qed.

Lemma pad_write c offset v : pad_ok c -> pad_ok (ohci_write c offset v).
Proof.
  intros Hc. unfold ohci_write. set (c1 := count_access _ c offset).
  assert (pad_ok c1) as H1 by by apply (pad_same c).
  repeat case_match; try done; try by apply (pad_same c1).
  - by apply pad_write_port.
  - apply pad_reset. by apply (pad_same c1).
Qed.

Lemma pad_read c offset : pad_ok c -> pad_ok (ohci_read c offset).2.
Proof. by apply pad_same. Qed.

Lemma pad_attached c a : pad_ok c -> pad_ok (set_attached c a).
Proof. intros Hc. unfold set_attached. case_match; [done|]. by apply (pad_same c). Qed.

Lemma pad_set_state c s : gamepad_ok s -> pad_ok c -> pad_ok (set_state c s).
Proof. intros Hs []. by split. Qed.

(** ** Transfers *)

Lemma pad_report c : pad_ok c -> Forall u8 (report (state c)) /\ length (report (state c)) = REPORT_BYTES.
Proof. intros Hc. apply report_ok, (pad_state c Hc). Qed.

Lemma pad_setup c packet : pad_ok c -> pad_ok (transfer_setup c packet).
Proof.
  intros Hc. pose proof (pad_report c Hc) as [Hb Hl]. destruct Hc as [Hs Hd Hp].
  unfold transfer_setup. destruct (Setup_parse packet) as [s|]; [|split; try done; split; [constructor | cbn; lia]].
  unfold control. pose proof (control_answer_ok (device c) s _ Hd Hb Hl) as [Hd' Ha].
  destruct (control_answer _ _ _) as [answer d]. cbn [fst snd] in *. split; [done|done|].
  cbn [pending_bytes with_pending_bytes]. destruct answer as [bs|]; [|split; [constructor | cbn; lia]].
  destruct (Ha bs eq_refl). cbn. split; [by apply Forall_take | rewrite length_take; lia].
Qed.

Lemma pad_in c e n : pad_ok c -> Forall u8 (transfer_in c e n).1 /\ pad_ok (transfer_in c e n).2.
Proof.
  intros Hc. pose proof (pad_report c Hc) as [Hb _]. unfold transfer_in. destruct (pad_pending c Hc) as [Hp Hl].
  repeat case_match; cbn [fst snd]; try done.
  split; [by apply Forall_take|]. destruct Hc. split; try done. cbn.
  split; [by apply Forall_drop | rewrite length_drop; lia].
Qed.

Section Frames.
Context {M : Type} `{UsbMemory M} (P : M -> Prop).
Context (Hword : forall mem a v, P mem -> P (write_dword mem a v).2).
Context (Hbytes : forall mem a bs, P mem -> Forall u8 bs -> P (write_bytes mem a bs).2).

Definition frame_ok (s : OhciController * M) : Prop := pad_ok s.1 /\ P s.2.

Lemma frame_move c mem e t ctl b l s : frame_ok (c, mem) -> move_data c mem e t ctl b l = Some s -> frame_ok s.
Proof.
  intros [Hc Hm]. cbn [fst snd] in *. unfold move_data. cbn zeta. case_match.
  { destruct (read_packet mem b); cbn; [|done]. intros [= <-]. split; [by apply pad_setup | by apply Hword]. }
  case_match; [|case_match; intros [= <-]; split; cbn [fst snd]; auto].
  pose proof (pad_in c e (transfer_length b l) Hc) as [Hu Hp].
  destruct (transfer_in _ _ _) as [bytes c1]. cbn [fst snd] in *. case_match; [done|]. intros [= <-].
  split; [done|]. by apply Hword, Hbytes.
Qed.

Lemma frame_complete c mem d : frame_ok (c, mem) -> frame_ok (complete c mem d).
Proof. intros [Hc Hm]. split; [by apply (pad_same c) | by apply Hword]. Qed.

Lemma frame_transfer c mem e t : frame_ok (c, mem) -> frame_ok (run_transfer c mem e t).2.
Proof.
  intros Hc. unfold run_transfer. destruct (mbind _ _) as [[[ctl next] [c1 mem1]]|] eqn:Hb; [|done]. cbn [snd].
  apply bind_Some in Hb as (ctl' & _ & Hb). apply bind_Some in Hb as (b & _ & Hb).
  apply bind_Some in Hb as (n & _ & Hb). apply bind_Some in Hb as (l & _ & Hb).
  apply bind_Some in Hb as (s & Hm & [= -> -> ->]). apply frame_move in Hm as [Hp Hs]; [|done].
  apply frame_complete. split; [by apply (pad_same c1) | by apply Hword].
Qed.

Lemma frame_queue rounds c mem n tail current moved : frame_ok (c, mem) ->
  frame_ok (run_queue rounds c mem n tail current moved).2.
Proof.
  revert c mem current moved. induction rounds as [|rounds IH]; intros c mem current moved Hc;
    cbn [run_queue]; [done|]. case_match; [done|].
  pose proof (frame_transfer c mem n (aligned current) Hc) as Hok.
  destruct (run_transfer _ _ _ _) as [[[following retired]|] [c1 mem1]]; cbn [snd] in *; [by apply IH | done].
Qed.

Lemma frame_walk rounds c mem e : frame_ok (c, mem) -> frame_ok (walk_endpoints rounds c mem e).
Proof.
  revert c mem e. induction rounds as [|rounds IH]; intros c mem e Hc; cbn [walk_endpoints]; [done|].
  case_match; [done|]. destruct (mbind _ _) as [[[[ctl tail] cur] next]|]; [|done].
  destruct (negb _ && negb _); [|by apply IH].
  pose proof (frame_queue MAX_TRANSFERS c mem (Z.land (Z.shiftr ctl 7) 0xF) tail cur false Hc) as [Hq Hs].
  destruct (run_queue _ _ _ _ _ _ _) as [[? moved] [c1 mem1]]. apply IH. split; [done|]. cbn [fst snd] in *.
  destruct moved; [by apply Hword | done].
Qed.

Lemma frame_list c mem head : frame_ok (c, mem) -> frame_ok (walk_list c mem head).
Proof. destruct head; [apply frame_walk | done]. Qed.

Lemma frame_service c mem : frame_ok (c, mem) -> frame_ok (service_lists c mem).
Proof.
  intros Hc. unfold service_lists. case_match; [done|].
  pose proof (frame_list c mem (control_list c) Hc). destruct (walk_list c mem _) as [c1 mem1].
  pose proof (frame_list c1 mem1 (bulk_list c1)). destruct (walk_list c1 mem1 _) as [c2 mem2].
  auto using frame_list.
Qed.

(** A frame keeps the pad and whatever every store keeps. *)
Lemma frame_advance c mem : frame_ok (c, mem) -> frame_ok (advance_frame c mem).
Proof.
  intros [Hc Hs]. cbn [fst snd] in *. unfold advance_frame. case_match; [by split|]. cbn zeta.
  set (c1 := with_frame c _). set (mem1 := if negb (hcca c1 =? 0) then _ else _).
  assert (P mem1) as Hs1 by (unfold mem1; case_match; [by apply Hword | done]).
  pose proof (frame_service (raise c1 INTERRUPT_START_OF_FRAME) mem1) as Hserve.
  destruct (service_lists _ mem1) as [c2 mem2].
  assert (frame_ok (c2, mem2)) as [H2 Hs2] by (apply Hserve; split; [by apply (pad_same c) | done]).
  unfold hand_over, tick_delay. cbn [fst snd] in *. repeat case_match; simplify_eq;
    split; cbn [fst snd]; try done; first [by apply Hword | by match goal with Hp : pad_ok ?d |- _ => apply (pad_same d) end].
Qed.
End Frames.
