(* ===== verification/OhciQueue.v ===== *)
(** * Transfer queues and the done queue

    An endpoint's queue and the controller's done queue are linked lists of
    descriptors in guest memory, threaded through the same word.  The walk
    over an endpoint refines a transfer between two lists: it takes
    descriptors off the front of the one and puts them on the front of the
    other, and loses none.

    The theorems hold of any memory that keeps what [UsbMemoryLaws] says. *)

From S2P Require Import Prelude UsbDevice Ohci OhciInvariant.

(** ** What the controller needs of guest memory *)

(** Two words without a common byte. *)
Definition words_apart (a b : Z) : Prop := 4 <= Z.abs (a - b).
(** A word outside the [n] bytes at [a]. *)
Definition outside (a : Z) (n : nat) (w : Z) : Prop :=
  forall i, 0 <= i < Z.of_nat n -> ~ (w <= a + i < w + 4).

Class UsbMemoryLaws (M : Type) `{UsbMemory M} : Type := {
  holds : M -> Z -> Prop;
  holds_range : forall mem a, holds mem a -> 0 <= a /\ a + 4 <= 2 ^ 32;
  holds_read : forall mem a, holds mem a -> exists v, read_dword mem a = Some v /\ u32 v;
  write_dword_at : forall mem a v, holds mem a -> u32 v ->
    read_dword (write_dword mem a v).2 a = Some v;
  write_dword_frame : forall mem a v b, holds mem a -> u32 v -> holds mem b -> words_apart a b ->
    read_dword (write_dword mem a v).2 b = read_dword mem b;
  write_dword_holds : forall mem a v b, holds mem a -> u32 v -> holds mem b ->
    holds (write_dword mem a v).2 b;
  write_bytes_frame : forall mem a bs b, u32 a -> Forall u8 bs -> holds mem b ->
    outside a (length bs) b -> read_dword (write_bytes mem a bs).2 b = read_dword mem b;
  write_bytes_holds : forall mem a bs b, u32 a -> Forall u8 bs -> holds mem b ->
    holds (write_bytes mem a bs).2 b;
}.

Section Queues.
Context {M : Type} `{UsbMemoryLaws M}.

(** ** The two lists *)

Definition desc_words (t : Z) : list Z := [t; t + 4; t + 8; t + 12].

(** A descriptor: sixteen-byte aligned, not null, in memory. *)
Definition descriptor_at (mem : M) (t : Z) : Prop :=
  t <> 0 /\ aligned t = t /\ Forall (holds mem) (desc_words t).

(** A queued transfer: its buffer lies outside the descriptors [ts], and the
    setup packet it may send is in memory. *)
Definition transfer_ok (mem : M) (t : Z) (ts : list Z) : Prop :=
  exists ctl buffer last, read_dword mem t = Some ctl /\
    read_dword mem (t + 4) = Some buffer /\ read_dword mem (t + 12) = Some last /\
    (Z.land (Z.shiftr ctl 19) 3 = PID_SETUP -> holds mem buffer /\ holds mem (buffer + 4)) /\
    forall t' w, t' ∈ ts -> w ∈ desc_words t' ->
      outside buffer (Z.to_nat (transfer_length buffer last)) w.

Fixpoint queued (mem : M) (tail head : Z) (q : list Z) : Prop :=
  match q with
  | [] => head = aligned tail
  | t :: q => head = t /\ t <> aligned tail /\
              exists next, read_dword mem (t + 8) = Some next /\ queued mem tail (aligned next) q
  end.

Fixpoint done_chain (mem : M) (head : Z) (l : list Z) : Prop :=
  match l with
  | [] => head = 0
  | t :: l => head = t /\ exists next, read_dword mem (t + 8) = Some next /\ done_chain mem next l
  end.

Record lists_ok (mem : M) (q l : list Z) : Prop := mk_lists_ok {
  lists_distinct : NoDup (q ++ l);
  lists_descriptors : Forall (descriptor_at mem) (q ++ l);
  lists_transfers : Forall (fun t => transfer_ok mem t (q ++ l)) q;
}.

(** The whole state of one endpoint and the done queue. *)
Definition represents_queues (c : OhciController) (mem : M) (tail head : Z) (q l : list Z) : Prop :=
  lists_ok mem q l /\ queued mem tail head q /\ done_chain mem (reg c register.DONE_HEAD) l.

(** ** Frames *)

Definition same_word (mem mem' : M) (w : Z) : Prop :=
  read_dword mem' w = read_dword mem w /\ holds mem' w.

Lemma aligned_apart t t' w w' : aligned t = t -> aligned t' = t' -> t <> t' ->
  w ∈ desc_words t -> w' ∈ desc_words t' -> words_apart w w'.
Proof.
  assert (forall x, aligned x = x -> x mod 16 = 0) as Hmod.
  { intros x Hx. change 16 with (2 ^ 4). rewrite <- Z.land_ones by lia. rewrite <- Hx.
    unfold aligned. apply Z.bits_inj'. intros i Hi. rewrite Z.land_spec, Z.bits_0.
    destruct (Z.ltb_spec i 4).
    - rewrite clear_bits_spec by lia. replace (Z.testbit 0xF i) with true; [by rewrite andb_false_r|].
      change 0xF with (Z.ones 4). by rewrite Z.ones_spec_low by lia.
    - by rewrite Z.ones_spec_high, andb_false_r by lia. }
  intros Ht%Hmod Ht'%Hmod Hne Hw Hw'. unfold desc_words in *. set_unfold. unfold words_apart. dlia.
Qed.

Lemma word_wrap mem t : descriptor_at mem t -> wrapping_add32 t 4 = t + 4 /\
  wrapping_add32 t 8 = t + 8 /\ wrapping_add32 t 12 = t + 12 /\ u32 t.
Proof.
  intros (_ & _ & Hw). unfold desc_words in Hw. rewrite !Forall_cons in Hw.
  destruct Hw as (Hw0 & _ & _ & Hw12 & _). apply holds_range in Hw0, Hw12.
  split_and!; first [unfold is_u; lia | apply wrap_small; unfold is_u; lia].
Qed.

Lemma move_data_registers c mem e t ctl b l c' mem' :
  move_data c mem e t ctl b l = Some (c', mem') -> registers c' = registers c.
Proof.
  unfold move_data. cbn zeta. case_match.
  { destruct (read_packet mem b); cbn; [|done]. intros [= <- _]. unfold transfer_setup, control.
    destruct (Setup_parse _); [|done]. by destruct (control_answer _ _ _). }
  case_match; [|case_match; by intros [= <- _]].
  assert (registers (transfer_in c e (transfer_length b l)).2 = registers c) as Hin
    by (unfold transfer_in; by repeat case_match).
  destruct (transfer_in _ _ _) as [bytes c1]. case_match; [done|]. by intros [= <- _].
Qed.

(** The data stage writes the pointer word and the buffer, nothing else. *)
Lemma move_data_frame c mem e t ctl b l c' mem' : ohci_ok c -> descriptor_at mem t -> u32 b ->
  move_data c mem e t ctl b l = Some (c', mem') ->
  (forall w, holds mem w -> holds mem' w) /\
  (forall w, holds mem w -> words_apart (t + 4) w ->
     outside b (Z.to_nat (transfer_length b l)) w -> read_dword mem' w = read_dword mem w).
Proof.
  intros Hc Ht Hb. unfold move_data. cbn zeta. destruct (word_wrap _ _ Ht) as (-> & _).
  assert (holds mem (t + 4)) as H4.
  { destruct Ht as (_ & _ & Hw). rewrite Forall_forall in Hw. apply Hw. unfold desc_words. set_solver. }
  assert (forall v, u32 v -> (forall w, holds mem w -> holds (write_dword mem (t + 4) v).2 w) /\
    (forall w, holds mem w -> words_apart (t + 4) w -> outside b (Z.to_nat (transfer_length b l)) w ->
       read_dword (write_dword mem (t + 4) v).2 w = read_dword mem w)) as Hput.
  { intros v Hv. split; intros w Hw; [by apply write_dword_holds | intros Ha _; by apply write_dword_frame]. }
  assert (u32 0) as Hz by (unfold is_u; lia).
  case_match.
  { destruct (read_packet mem b); cbn; [|done]. intros [= _ <-]. by apply Hput. }
  case_match; [|case_match; intros [= _ <-]; [by apply Hput | done]].
  pose proof (transfer_in_bytes c e (transfer_length b l) Hc) as [Hu8 Hlen].
  destruct (transfer_in _ _ _) as [bytes c1]. cbn [fst] in *. case_match; [done|]. intros [= _ <-].
  assert (forall sent, u32 (if sent <? transfer_length b l then wrapping_add32 b sent else 0)) as Hptr.
  { intros sent. case_match; [apply u32_wrapping_add | done]. }
  split; intros w Hw.
  - apply write_dword_holds; [by apply write_bytes_holds | apply Hptr | by apply write_bytes_holds].
  - intros Ha Hout. rewrite write_dword_frame; [| by apply write_bytes_holds | apply Hptr | by apply write_bytes_holds | done].
    apply write_bytes_frame; try done. intros i Hi. apply Hout. lia.
Qed.

Lemma descriptor_holds mem t w : descriptor_at mem t -> w ∈ desc_words t -> holds mem w.
Proof. intros (_ & _ & Hw). rewrite Forall_forall in Hw. apply Hw. Qed.

Lemma own_words t : t ∈ desc_words t /\ t + 4 ∈ desc_words t /\ t + 8 ∈ desc_words t /\ t + 12 ∈ desc_words t.
Proof. unfold desc_words. set_solver. Qed.

Definition run_frames (mem mem' : M) (t b l : Z) : Prop :=
  (forall w, holds mem w -> holds mem' w) /\
  (forall w, holds mem w -> (forall w', w' ∈ desc_words t -> words_apart w' w) ->
     outside b (Z.to_nat (transfer_length b l)) w -> read_dword mem' w = read_dword mem w).

Lemma complete_at c mem d : descriptor_at mem d ->
  (complete c mem d).2 = (write_dword mem (d + 8) (reg c register.DONE_HEAD)).2 /\
  (length (registers c) = 32%nat -> reg (complete c mem d).1 register.DONE_HEAD = d).
Proof.
  intros Hd. unfold complete. cbn zeta. destruct (word_wrap _ _ Hd) as (_ & -> & _). split; [done|].
  intros Hl. cbn [fst]. unfold raise. rewrite reg_set, decide_False by
    (cbn; rewrite ?length_insert, ?Hl; try done; apply Nat.ltb_lt; by vm_compute).
  rewrite reg_set, decide_True by (cbn; rewrite ?Hl; try done; apply Nat.ltb_lt; by vm_compute). done.
Qed.

Lemma run_transfer_spec c mem e t b l : ohci_ok c -> descriptor_at mem t ->
  read_dword mem (t + 4) = Some b -> read_dword mem (t + 12) = Some l ->
  match run_transfer c mem e t with
  | (None, s) => s = (c, mem)
  | (Some (next, _), (c', mem')) =>
    read_dword mem (t + 8) = Some next /\ reg c' register.DONE_HEAD = t /\
    read_dword mem' (t + 8) = Some (reg c register.DONE_HEAD) /\ run_frames mem mem' t b l
  end.
Proof.
  intros Hc Ht Hb Hl. destruct (own_words t) as (Hw0 & Hw4 & Hw8 & Hw12).
  unfold run_transfer. destruct (word_wrap _ _ Ht) as (-> & -> & -> & _). rewrite Hb, Hl.
  destruct (holds_read mem t (descriptor_holds _ _ _ Ht Hw0)) as (ctl & -> & _).
  destruct (holds_read mem (t + 4) (descriptor_holds _ _ _ Ht Hw4)) as (b' & Hb' & Hbu).
  rewrite Hb in Hb'. injection Hb' as <-.
  destruct (read_dword mem (t + 8)) as [next|]; cbn [mbind option_bind]; [|done].
  destruct (move_data c mem e t ctl b l) as [[c1 mem1]|] eqn:Hm; cbn [mbind option_bind]; [|done].
  pose proof (move_data_registers _ _ _ _ _ _ _ _ _ Hm) as Hregs.
  pose proof (move_data_ok _ _ _ _ _ _ _ _ _ Hc Hm) as Hc1.
  destruct (move_data_frame _ _ _ _ _ _ _ _ _ Hc Ht Hbu Hm) as [Hh1 Hr1].
  set (c2 := with_done_delay c1 _). set (mem2 := (write_dword mem1 t _).2).
  assert (forall w, holds mem1 w -> holds mem2 w) as Hh2.
  { intros w Hw. apply write_dword_holds; [|apply retired_u32|done]. apply Hh1. by eapply descriptor_holds. }
  assert (descriptor_at mem2 t) as Ht2.
  { destruct Ht as (? & ? & Hw). split_and!; [done | done |]. eapply Forall_impl; [exact Hw|]. auto. }
  destruct (complete_at c2 mem2 t Ht2) as [Hmem Hdone].
  destruct (complete c2 mem2 t) as [c3 mem3]. cbn [fst snd] in Hmem, Hdone. subst mem3.
  assert (u32 (reg c2 register.DONE_HEAD)) as Hdu by (apply (reg_u32 c1); done).
  assert (holds mem2 (t + 8)) as H8 by by apply (descriptor_holds mem2 t).
  split_and!; [done | apply Hdone, Hc1 | |].
  - rewrite write_dword_at by done. unfold c2, reg. cbn [registers with_done_delay]. by rewrite Hregs.
  - split; intros w Hw; [apply write_dword_holds; auto|]. intros Hapart Hout.
    rewrite write_dword_frame; [|done|done|auto|by apply Hapart].
    unfold mem2. rewrite write_dword_frame; [|apply Hh1; by eapply descriptor_holds|apply retired_u32|auto|by apply Hapart].
    apply Hr1; auto.
Qed.

(** ** Descriptors that a step leaves alone *)

Definition kept (mem mem' : M) (ts : list Z) : Prop :=
  forall t w, t ∈ ts -> w ∈ desc_words t -> read_dword mem' w = read_dword mem w.

Lemma queued_kept mem mem' tail head q : kept mem mem' q -> queued mem tail head q ->
  queued mem' tail head q.
Proof.
  revert head. induction q as [|t q IH]; intros head Hk; [done|].
  intros (-> & Hne & next & Hnext & Hq). split_and!; [done | done |]. exists next. split.
  - rewrite (Hk t); [done | set_solver | apply own_words].
  - apply IH; [|done]. intros t' w Ht'. apply Hk. set_solver.
Qed.

Lemma done_kept mem mem' head l : kept mem mem' l -> done_chain mem head l -> done_chain mem' head l.
Proof.
  revert head. induction l as [|t l IH]; intros head Hk; [done|].
  intros (-> & next & Hnext & Hl). split; [done|]. exists next. split.
  - rewrite (Hk t); [done | set_solver | apply own_words].
  - apply IH; [|done]. intros t' w Ht'. apply Hk. set_solver.
Qed.

Lemma descriptor_kept mem mem' t : (forall w, holds mem w -> holds mem' w) ->
  descriptor_at mem t -> descriptor_at mem' t.
Proof. intros Hh (? & ? & Hw). split_and!; [done | done |]. eapply Forall_impl; [exact Hw | auto]. Qed.

(** The head of the queue moves to the head of the done queue. *)
Lemma lists_retire mem mem' t q l : lists_ok mem (t :: q) l ->
  (forall w, holds mem w -> holds mem' w) -> kept mem mem' (q ++ l) -> lists_ok mem' q (t :: l).
Proof.
  intros [Hnd Hds Hbs] Hh Hk.
  assert (t :: q ++ l ≡ₚ q ++ t :: l) as Hperm by (by rewrite Permutation_middle).
  constructor.
  - cbn in Hnd. by rewrite <- Hperm.
  - rewrite <- Hperm. eapply Forall_impl; [exact Hds|]. intros t'. by apply descriptor_kept.
  - apply Forall_cons in Hbs as [_ Hbs]. apply Forall_forall. intros t' Ht'.
    rewrite Forall_forall in Hbs. destruct (Hbs t' Ht') as (ctl & b & last & Hctl & Hb & Hl & Hsetup & Hout).
    assert (t' ∈ q ++ l) as Hin by (apply elem_of_app; by left).
    exists ctl, b, last. rewrite !(Hk t' _ Hin) by apply own_words. split_and!; try done.
    { intros Hd. destruct (Hsetup Hd). auto. }
    intros t2 w Ht2. apply Hout. rewrite <- Hperm in Ht2. exact Ht2.
Qed.

Lemma retire_kept c mem e t q l next retired c' mem' : ohci_ok c -> lists_ok mem (t :: q) l ->
  run_transfer c mem e t = (Some (next, retired), (c', mem')) ->
  read_dword mem (t + 8) = Some next /\ reg c' register.DONE_HEAD = t /\
  read_dword mem' (t + 8) = Some (reg c register.DONE_HEAD) /\
  (forall w, holds mem w -> holds mem' w) /\ kept mem mem' (q ++ l).
Proof.
  intros Hc [Hnd Hds Hbs] Hrun. apply Forall_cons in Hds as [Ht Hds]. apply Forall_cons in Hbs as [Hb _].
  destruct Hb as (ctl & b & last & _ & Hb & Hl & _ & Hout).
  pose proof (run_transfer_spec c mem e t b last Hc Ht Hb Hl) as Hspec. rewrite Hrun in Hspec.
  destruct Hspec as (Hnext & Hd & Hlink & Hh & Hframe). split_and!; try done.
  intros t' w Ht' Hw. rewrite Forall_forall in Hds. pose proof (Hds t' Ht') as Hdt'.
  apply Hframe; [by eapply descriptor_holds | | apply (Hout t'); [by right | done]].
  intros w' Hw'. destruct Ht as (_ & Hat & _), Hdt' as (_ & Hat' & _).
  apply (aligned_apart t t'); try done. intros ->. cbn in Hnd. by apply NoDup_cons in Hnd as [? _].
Qed.

(** ** The walk over one endpoint *)

Lemma aligned_carry f carry : carry = 0 \/ carry = ED_TOGGLE_CARRY ->
  aligned (Z.lor (aligned f) carry) = aligned f.
Proof.
  intros Hcarry. unfold aligned. apply Z.bits_inj'. intros i Hi. destruct (Z.ltb_spec i 32).
  - rewrite !clear_bits_spec, Z.lor_spec, clear_bits_spec by lia.
    assert (Z.testbit carry i = true -> Z.testbit 0xF i = true) as Hbit.
    { destruct Hcarry as [->| ->]; [by rewrite Z.bits_0|]. unfold ED_TOGGLE_CARRY.
      rewrite Z.shiftl_1_l, Z.pow2_bits_eqb by lia. by intros <-%Z.eqb_eq. }
    destruct (Z.testbit f i), (Z.testbit carry i), (Z.testbit 0xF i); naive_solver.
  - unfold clear_bits. rewrite !Z.land_spec, !unot_spec by lia.
    destruct (Z.ltb_spec i 32); [lia|].
    rewrite (is_u_high_bit 32 0xF i); [by rewrite !andb_false_r | unfold is_u; lia | lia].
Qed.

(** A transfer on the control endpoint always completes. *)
Lemma control_completes c mem t ts : descriptor_at mem t -> transfer_ok mem t ts ->
  (run_transfer c mem 0 t).1 <> None.
Proof.
  intros Ht (ctl & b & last & Hctl & Hb & Hl & Hsetup & _). unfold run_transfer.
  destruct (word_wrap _ _ Ht) as (-> & -> & -> & _). rewrite Hctl, Hb, Hl.
  destruct (holds_read mem (t + 8)) as (next & -> & _); [eapply descriptor_holds, own_words; done|].
  cbn [mbind option_bind].
  assert (move_data c mem 0 t ctl b last <> None) as Hsome.
  { unfold move_data. cbn zeta. destruct (Z.eqb_spec (Z.land (Z.shiftr ctl 19) 3) PID_SETUP) as [Hd|].
    - destruct (Hsetup Hd) as [Hb0 Hb4]. pose proof (holds_range _ _ Hb0). pose proof (holds_range _ _ Hb4).
      destruct (holds_read mem b Hb0) as (v & Hv & _), (holds_read mem (b + 4) Hb4) as (v' & Hv' & _).
      assert (is_Some (read_packet mem b)) as [packet ->]; [|done].
      unfold read_packet. apply mapM_is_Some_2, Forall_forall. intros i Hi%elem_of_seq.
      change (is_Some (packet_byte mem b i)). unfold packet_byte. cbn zeta. assert (wrapping_add32 b (Z.land (Z.of_nat i) (unot 32 3)) = b \/
        wrapping_add32 b (Z.land (Z.of_nat i) (unot 32 3)) = b + 4) as [-> | ->].
      { do 8 (destruct i as [|i]; [cbn [Z.of_nat]; first [left; change (Z.land _ _) with 0 | right; change (Z.land _ _) with 4];
          unfold wrapping_add32; rewrite wrap_small by (unfold is_u; lia); lia |]). lia. }
      + rewrite Hv. by eexists.
      + rewrite Hv'. by eexists.
    - destruct (_ =? PID_IN); [|by destruct (_ =? PID_OUT)].
      by destruct (transfer_in _ _ _). }
  by destruct (move_data c mem 0 t ctl b last) as [[c1 mem1]|].
Qed.

(** How many descriptors a walk retired, and where it stopped. *)
Definition queue_refines (mem : M) (n tail : Z) (rounds : nat) (q l : list Z)
    (c' : OhciController) (mem' : M) (head' : Z) : Prop :=
  (forall w, holds mem w -> holds mem' w) /\
  exists q1 q2, q = q1 ++ q2 /\ (length q1 <= rounds)%nat /\
    represents_queues c' mem' tail (aligned head') q2 (rev q1 ++ l) /\ ohci_ok c' /\
    (n = 0 -> q2 = [] \/ length q1 = rounds).

Lemma queue_stop c mem n tail current rounds q l : ohci_ok c ->
  represents_queues c mem tail (aligned current) q l -> (n = 0 -> q = [] \/ rounds = O) ->
  queue_refines mem n tail rounds q l c mem current.
Proof. intros Hc Hrep Hn. split; [done|]. exists [], q. split_and!; try done; [cbn; lia|]. cbn. naive_solver. Qed.

(** One descriptor moves from the queue to the done queue. *)
Lemma retire_step c mem e tail t q l next retired c' mem' : ohci_ok c ->
  represents_queues c mem tail t (t :: q) l ->
  run_transfer c mem e t = (Some (next, retired), (c', mem')) ->
  represents_queues c' mem' tail (aligned next) q (t :: l) /\ (forall w, holds mem w -> holds mem' w).
Proof.
  intros Hc (Hlists & (_ & Hne & next' & Hnext' & Hq) & Hdone) Hrun.
  destruct (retire_kept _ _ _ _ _ _ _ _ _ _ Hc Hlists Hrun) as (Hnext & Hd & Hlink & Hh & Hk).
  rewrite Hnext in Hnext'. injection Hnext' as <-. split; [|done]. split_and!.
  - by eapply lists_retire.
  - eapply queued_kept; [|exact Hq]. intros t' w Ht'. apply Hk. set_solver.
  - split; [done|]. eexists. split; [exact Hlink|]. eapply done_kept; [|exact Hdone].
    intros t' w Ht'. apply Hk. set_solver.
Qed.

Lemma run_queue_spec rounds c mem n tail current moved q l : ohci_ok c ->
  represents_queues c mem tail (aligned current) q l ->
  let '(head', moved', (c', mem')) := run_queue rounds c mem n tail current moved in
  queue_refines mem n tail rounds q l c' mem' head'.
Proof.
  revert c mem current moved q l.
  induction rounds as [|rounds IH]; intros c mem current moved q l Hc Hrep; cbn [run_queue];
    [apply queue_stop; auto|].
  destruct q as [|t q].
  { destruct Hrep as (Hlists & Hq & Hdone). cbn in Hq. rewrite Hq, Z.eqb_refl, orb_true_r.
    apply queue_stop; auto. by split_and!. }
  assert (aligned current = t /\ t <> aligned tail) as [Hcur Htail] by (by destruct Hrep as (_ & (? & ? & _) & _)).
  assert (descriptor_at mem t /\ exists ts, transfer_ok mem t ts) as [Hd [ts Hts]].
  { destruct Hrep as ([_ Hds Hts] & _). apply Forall_cons in Hds as [? _], Hts as [? _]. eauto. }
  rewrite Hcur in *. destruct (Z.eqb_spec t 0) as [->|_]; [by destruct Hd|].
  destruct (Z.eqb_spec t (aligned tail)); [done|]. cbn [orb].
  destruct (run_transfer c mem n t) as [[[next retired]|] [c' mem']] eqn:Hrun.
  - pose proof (retire_step _ _ _ _ _ _ _ _ _ _ _ Hc Hrep Hrun) as [Hrep' Hholds].
    assert (ohci_ok c') as Hc' .
    { pose proof (run_transfer_keeps c mem n t Hc) as Hr. rewrite Hrun in Hr. by apply Hr, (word_wrap _ _ Hd). }
    assert (forall b : bool, aligned (Z.lor (aligned next) (if b then ED_TOGGLE_CARRY else 0)) = aligned next)
      as Hal by (intros []; apply aligned_carry; auto).
    specialize (IH c' mem' (Z.lor (aligned next) (if has_bits retired TD_TOGGLE_VALUE then ED_TOGGLE_CARRY else 0))
      true q (t :: l) Hc'). rewrite Hal in IH. specialize (IH Hrep').
    destruct (run_queue rounds c' mem' _ _ _ _) as [[head' moved'] [c2 mem2]].
    destruct IH as (Hh2 & q1 & q2 & -> & Hlen & Hrep2 & Hc2 & Hall). split; [auto|]. exists (t :: q1), q2.
    split_and!; [done | cbn; lia | | done | intros Hn; destruct (Hall Hn); cbn; auto].
    cbn [rev]. by rewrite <- app_assoc.
  - pose proof Hrun as Hnone. apply run_transfer_none in Hrun as [= -> ->].
    apply queue_stop; [done | by rewrite Hcur |]. intros ->.
    destruct (control_completes c mem t ts Hd Hts). by rewrite Hnone.
Qed.

(** ** Handing the done queue over *)

Lemma hand_over_spec c mem area ts : ohci_ok c -> area <> 0 -> wrapping_add32 area 0x84 = area + 0x84 ->
  holds mem (area + 0x84) -> Forall (descriptor_at mem) ts ->
  (forall t w, t ∈ ts -> w ∈ desc_words t -> words_apart (area + 0x84) w) ->
  let '(c', mem') := hand_over c mem area in kept mem mem' ts /\
  ((reg c' register.DONE_HEAD = reg c register.DONE_HEAD /\ mem' = mem) \/
   (reg c' register.DONE_HEAD = 0 /\ read_dword mem (area + 0x84) = Some 0 /\
    Z.testbit (reg c' register.INTERRUPT_STATUS) 1 = true /\
    read_dword mem' (area + 0x84) = Some (reg c register.DONE_HEAD))).
Proof.
  intros Hc Ha Hwrap Harea Hds Hapart. unfold hand_over. rewrite Hwrap.
  pose proof (tick_delay_ok c Hc) as Hc1.
  assert (forall r, reg (tick_delay c).2 r = reg c r) as Hreg.
  { intros r. unfold tick_delay. destruct (done_delay c); [|done]. by case_match. }
  destruct (tick_delay c) as [ready c1]. cbn [snd] in *. rewrite Hreg.
  destruct (ready && _ && _ && _) eqn:Hgo; [|split; [done | left; split; [apply Hreg | done]]].
  rewrite !andb_true_iff in Hgo. destruct Hgo as [[[_ Htaken%bool_decide_eq_true] _] _].
  assert (u32 (reg c register.DONE_HEAD)) as Hu by by apply reg_u32.
  assert (length (registers c1) = 32%nat) as Hl by apply Hc1. split.
  - intros t w Ht Hw. apply write_dword_frame; [done | done | | by eapply Hapart].
    rewrite Forall_forall in Hds. by eapply descriptor_holds; [apply Hds|].
  - right. unfold raise. split_and!; [| done | | by apply write_dword_at].
    + rewrite reg_set, decide_False, reg_set, decide_True by
        (cbn; rewrite ?length_insert, ?Hl; try done; apply Nat.ltb_lt; by vm_compute). done.
    + rewrite reg_set, decide_True by
        (cbn; rewrite ?length_insert, ?Hl; try done; apply Nat.ltb_lt; by vm_compute).
      rewrite Z.lor_spec. apply orb_true_r.
Qed.

(** C13: No completion is lost.  Whatever an endpoint's queue holds, a walk
    takes some prefix of it and leaves the rest queued, and after the frame
    every descriptor taken is on the done queue, last one first, in front of
    those already there: either still the controller's, or handed over whole,
    with its interrupt raised, in a communication area the driver had emptied.
    On the control endpoint a queue of up to [MAX_TRANSFERS] is taken whole. *)
Theorem completions_never_lost (c : OhciController) (mem : M) (n tail current area : Z) (q l : list Z) :
  ohci_ok c -> represents_queues c mem tail (aligned current) q l ->
  area <> 0 -> wrapping_add32 area 0x84 = area + 0x84 -> holds mem (area + 0x84) ->
  (forall t w, t ∈ q ++ l -> w ∈ desc_words t -> words_apart (area + 0x84) w) ->
  let '(head', _, (c1, mem1)) := run_queue MAX_TRANSFERS c mem n tail current false in
  let '(c2, mem2) := hand_over c1 mem1 area in
  exists q1 q2, q = q1 ++ q2 /\ queued mem2 tail (aligned head') q2 /\
    (n = 0 -> (length q <= MAX_TRANSFERS)%nat -> q2 = []) /\
    (done_chain mem2 (reg c2 register.DONE_HEAD) (rev q1 ++ l) \/
     (reg c2 register.DONE_HEAD = 0 /\ read_dword mem1 (area + 0x84) = Some 0 /\
      Z.testbit (reg c2 register.INTERRUPT_STATUS) 1 = true /\
      exists head, read_dword mem2 (area + 0x84) = Some head /\ done_chain mem2 head (rev q1 ++ l))).
Proof.
  intros Hc Hrep Ha Hwrap Harea Hapart.
  pose proof (run_queue_spec MAX_TRANSFERS c mem n tail current false q l Hc Hrep) as Hrun.
  destruct (run_queue _ _ _ _ _ _ _) as [[head' moved] [c1 mem1]].
  destruct Hrun as (Hh & q1 & q2 & -> & Hlen & ([_ Hds _] & Hq & Hd) & Hc1 & Hall).
  pose proof (hand_over_spec c1 mem1 area (q2 ++ rev q1 ++ l) Hc1 Ha Hwrap (Hh _ Harea) Hds) as Hover.
  destruct (hand_over c1 mem1 area) as [c2 mem2]. destruct Hover as [Hk Hover].
  { intros t w Ht. apply Hapart. rewrite !elem_of_app, !list_elem_of_In, <- in_rev in Ht.
    rewrite !elem_of_app, !list_elem_of_In. tauto. }
  assert (done_chain mem2 (reg c1 register.DONE_HEAD) (rev q1 ++ l)) as Hd2.
  { eapply done_kept; [|exact Hd]. intros t w Ht. apply Hk. apply elem_of_app. by right. }
  exists q1, q2. split_and!; [done | | |].
  - eapply queued_kept; [|exact Hq]. intros t w Ht. apply Hk. apply elem_of_app. by left.
  - intros Hn Hle. destruct (Hall Hn) as [->|Heq]; [done|]. rewrite length_app in Hle.
    apply nil_length_inv. lia.
  - destruct Hover as [[-> ->]|(Hhead & Hz & Hbit & Hat)]; [by left|]. right. split_and!; eauto.
Qed.
End Queues.
