(* ===== verification/UsbWindow.v ===== *)
(** * The USB controller's view of guest memory

    Models [WindowMemory] of [exbawks-core/src/emulator.rs]: the controller
    reaches physical memory through the kernel window at [0x80000000].  Where
    the window maps every physical byte to itself, the address space keeps the
    promises the transfer walk relies on. *)

From S2P Require Import Prelude GuestTypes PageTable GuestMemory SoftwareSpace SoftwareSpaceProofs SpaceTheorems MappingTheorems SystemTyping UsbDevice Ohci OhciInvariant OhciQueue.

Definition WINDOW_BASE : Z := 0x80000000.
Definition WINDOW_BYTES : Z := 0x20000000.

Definition window_va (p : Z) : GuestVa := Z.lor WINDOW_BASE p.

#[global] Instance WindowMemory : UsbMemory SoftwareAddressSpace := {|
  read_dword := fun mem p =>
    if WINDOW_BYTES <=? p then None
    else match mem_read_u32 mem (window_va p) with Ok v => Some v | Err _ => None end;
  write_dword := fun mem p v =>
    if p <? WINDOW_BYTES then
      let '(r, mem) := mem_write_u32 mem (window_va p) v in (is_ok r, mem)
    else (false, mem);
  write_bytes := fun mem p bytes =>
    match try_from_u 32 (Z.of_nat (length bytes)) with
    | None => (false, mem)
    | Some n =>
      if WINDOW_BYTES <? saturating_add 32 p n then (false, mem)
      else let '(r, mem) := mem_write mem (window_va p) bytes in (is_ok r, mem)
    end;
|}.

(** ** A linear window *)

Lemma window_va_add p : 0 <= p < 2 ^ 31 -> window_va p = WINDOW_BASE + p.
Proof.
  intros Hp. unfold window_va. symmetry. rewrite Z.add_nocarry_lxor.
  - apply Z.bits_inj'. intros i Hi. rewrite Z.lxor_spec, Z.lor_spec. unfold WINDOW_BASE.
    change 0x80000000 with (2 ^ 31). rewrite Z.pow2_bits_eqb by lia.
    destruct (Z.eqb_spec 31 i) as [<-|]; [|by destruct (Z.testbit p i)].
    rewrite (is_u_high_bit 31 p 31); [done | unfold is_u; lia | lia].
  - apply Z.bits_inj'. intros i Hi. rewrite Z.land_spec, Z.bits_0. unfold WINDOW_BASE.
    change 0x80000000 with (2 ^ 31). rewrite Z.pow2_bits_eqb by lia.
    destruct (Z.eqb_spec 31 i) as [<-|]; [|done].
    rewrite (is_u_high_bit 31 p 31); [done | unfold is_u; lia | lia].
Qed.

(** Every byte of RAM is readable and writable at its window address, and no
    window address names another byte. *)
Definition window_ok (mem : SoftwareAddressSpace) : Prop :=
  ram_ok mem /\
  forall access p, (access = Read \/ access = Write) -> 0 <= p < WINDOW_BYTES ->
    match translate (table mem) (physical_len mem) access (WINDOW_BASE + p) with
    | Ok o => o = p
    | Err _ => physical_len mem <= p
    end.

Lemma window_offsets mem access p n : window_ok mem -> access = Read \/ access = Write ->
  0 <= p -> p + Z.of_nat n <= WINDOW_BYTES ->
  (forall os, access_offsets mem access (WINDOW_BASE + p) n = Ok os -> os = seqZ p (Z.of_nat n)) /\
  (p + Z.of_nat n <= physical_len mem ->
   access_offsets mem access (WINDOW_BASE + p) n = Ok (seqZ p (Z.of_nat n))).
Proof.
  intros [_ Hwin] Hacc Hp Hend. unfold access_offsets, WINDOW_BYTES, WINDOW_BASE in *.
  destruct (decide (n = 0%nat)) as [->|Hn]; [split; [by intros os [= <-] | done]|].
  rewrite decide_True by lia. clear Hn. revert p Hp Hend.
  induction n as [|n IH]; intros p Hp Hend; [split; [by intros os [= <-] | done]|].
  rewrite Nat2Z.inj_succ, seqZ_cons by lia. cbn [translate_all].
  specialize (Hwin access p Hacc ltac:(lia)). destruct (IH (p + 1)) as [IH1 IH2]; [lia..|].
  replace (Z.pred (Z.succ (Z.of_nat n))) with (Z.of_nat n) by lia.
  replace (0x80000000 + p + 1) with (0x80000000 + (p + 1)) by lia.
  change (Z.succ p) with (p + 1).
  destruct (translate _ _ access (0x80000000 + p)) as [o|e]; cbn [mbind result_bind].
  - subst o. split.
    + intros os Hos. apply bind_ok_inv in Hos as (os' & Hos' & [= <-]). f_equal. by apply IH1.
    + intros Hlen. by rewrite IH2 by lia.
  - split; [done | lia].
Qed.

Lemma base_u32 p n : 0 <= p -> p + n <= WINDOW_BYTES -> 0 <= n -> u32 (WINDOW_BASE + p).
Proof. unfold is_u, WINDOW_BASE, WINDOW_BYTES. lia. Qed.

Lemma window_write mem a bs r mem' : window_ok mem -> u32 a -> Forall u8 bs ->
  space_write mem a bs = (r, mem') -> window_ok mem' /\ physical_len mem' = physical_len mem.
Proof.
  intros [Hm Hwin] Ha Hbs Hw. pose proof (write_ram_ok _ _ _ _ _ Hm Ha Hbs Hw) as Hm'.
  assert (physical_len mem' = physical_len mem) as Hlen.
  { unfold space_write in Hw. rewrite access_write_spec in Hw by done. by case_match; simplify_eq. }
  split; [|done]. split; [done|]. intros access p Hacc Hp. rewrite Hlen.
  specialize (Hwin access p Hacc Hp).
  pose proof (write_keeps_offsets mem a bs r mem' access (WINDOW_BASE + p) 1 Hm Ha Hw) as Hkeep.
  unfold access_offsets, WINDOW_BASE, WINDOW_BYTES in *.
  destruct (decide (1%nat = 0%nat)); [lia|].
  rewrite !(decide_True (P := 0x80000000 + p + Z.of_nat 1 <= 2 ^ 32)) in Hkeep by lia.
  cbn [translate_all] in Hkeep. rewrite Hlen in Hkeep.
  destruct (translate (table mem') _ _ _), (translate (table mem) _ _ _);
    cbn [mbind result_bind] in Hkeep; by simplify_eq.
Qed.

(** ** The laws *)

Definition in_window (mem : SoftwareAddressSpace) (p : Z) : Prop :=
  window_ok mem /\ 0 <= p /\ p + 4 <= physical_len mem /\ p + 4 <= WINDOW_BYTES.

Lemma window_u32 p : 0 <= p <= WINDOW_BYTES -> window_va p = WINDOW_BASE + p /\ u32 (window_va p).
Proof.
  unfold WINDOW_BYTES. intros Hp. rewrite window_va_add by lia.
  unfold is_u, WINDOW_BASE. split; [done | lia].
Qed.

(** A dword of the window is the bytes at its own offsets. *)
Lemma window_read mem p : in_window mem p ->
  read_dword mem p = Some (from_le_bytes (map (ram_byte (physical mem)) (seqZ p 4))).
Proof.
  intros (Hwin & Hp & Hlen & Hend). cbn [read_dword WindowMemory].
  destruct (Z.leb_spec WINDOW_BYTES p); [lia|]. destruct (window_u32 p) as [-> Hu]; [lia|].
  destruct (window_offsets mem Read p 4 Hwin (or_introl eq_refl) Hp Hend) as [_ Hos].
  unfold mem_read_u32. cbn [mem_read SoftwareAddressSpace_GuestMemory]. unfold space_read.
  rewrite (access_read_spec _ _ _ _ (proj1 Hwin) (base_u32 p 4 Hp Hend ltac:(lia))). by rewrite Hos.
Qed.

(** A write at a window address stores there and nowhere else. *)
Lemma window_store mem p bs r mem' : window_ok mem -> 0 <= p -> p + Z.of_nat (length bs) <= WINDOW_BYTES ->
  Forall u8 bs -> space_write mem (WINDOW_BASE + p) bs = (r, mem') ->
  window_ok mem' /\ physical_len mem' = physical_len mem /\
  (forall o, ~ (p <= o < p + Z.of_nat (length bs)) ->
     ram_byte (physical mem') o = ram_byte (physical mem) o) /\
  (p + Z.of_nat (length bs) <= physical_len mem ->
     map (ram_byte (physical mem')) (seqZ p (Z.of_nat (length bs))) = bs).
Proof.
  intros Hwin Hp Hend Hbs Hw.
  pose proof (base_u32 p _ Hp Hend ltac:(lia)) as Hu.
  destruct (window_write _ _ _ _ _ Hwin Hu Hbs Hw) as [Hwin' Hlen].
  destruct (window_offsets mem Write p (length bs) Hwin (or_intror eq_refl) Hp Hend) as [Hos Hok].
  unfold space_write in Hw. rewrite (access_write_spec _ _ _ _ (proj1 Hwin) Hu) in Hw.
  split; [exact Hwin'|]. split; [exact Hlen|]. split.
  - intros o Ho. destruct (access_offsets _ _ _ _) as [os|]; [|by simplify_eq].
    rewrite (Hos os eq_refl) in Hw. injection Hw as <- <-. cbn [physical with_table with_physical].
    rewrite store_at_byte, last_written_none; [done|]. rewrite elem_of_seqZ. lia.
  - intros Hle. rewrite (Hok Hle) in Hw. injection Hw as <- <-. cbn [physical with_table with_physical].
    etrans; [|apply (last_written_all (seqZ p (Z.of_nat (length bs))) bs (NoDup_seqZ _ _)
      ltac:(rewrite length_seqZ; lia) (physical mem))].
    apply map_ext. intros o. apply store_at_byte.
Qed.

Lemma bytes_same mem mem' b n : (forall o, b <= o < b + n -> ram_byte (physical mem') o = ram_byte (physical mem) o) ->
  map (ram_byte (physical mem')) (seqZ b n) = map (ram_byte (physical mem)) (seqZ b n).
Proof. intros Heq. apply map_ext_in. intros o Ho%list_elem_of_In%elem_of_seqZ. by apply Heq. Qed.

Lemma window_write_dword mem p v : in_window mem p -> u32 v -> exists mem' r,
  write_dword mem p v = (r, mem') /\ space_write mem (WINDOW_BASE + p) (to_le_bytes 4 v) =
    (if r then Ok tt else Err HostSizeOverflow, mem').
Proof.
  intros (Hwin & Hp & Hlen & Hend) Hv. cbn [write_dword WindowMemory].
  destruct (Z.ltb_spec p WINDOW_BYTES); [|lia]. destruct (window_u32 p) as [-> Hu]; [lia|].
  unfold mem_write_u32. cbn [mem_write SoftwareAddressSpace_GuestMemory].
  destruct (window_offsets mem Write p 4 Hwin (or_intror eq_refl) Hp Hend) as [_ Hok].
  destruct (space_write mem (WINDOW_BASE + p) (to_le_bytes 4 v)) as [r mem'] eqn:Hw.
  pose proof Hw as Hspec. unfold space_write in Hspec.
  rewrite (access_write_spec _ _ _ _ (proj1 Hwin) (base_u32 p 4 Hp Hend ltac:(lia))) in Hspec.
  rewrite length_to_le_bytes, (Hok Hlen) in Hspec. injection Hspec as <- _. by exists mem', true.
Qed.

Lemma window_write_bytes mem a bs : u32 a ->
  (write_bytes mem a bs).2 = mem \/
  (a + Z.of_nat (length bs) <= WINDOW_BYTES /\ exists r,
     space_write mem (WINDOW_BASE + a) bs = (r, (write_bytes mem a bs).2)).
Proof.
  intros Ha. cbn [write_bytes WindowMemory]. destruct (try_from_u _ _) as [n|] eqn:Hn; [|by left].
  assert (n = Z.of_nat (length bs)) as -> by (unfold try_from_u in Hn; by case_match; simplify_eq).
  destruct (Z.ltb_spec WINDOW_BYTES (saturating_add 32 a (Z.of_nat (length bs)))) as [?|Hle]; [by left|].
  right. unfold saturating_add, is_u in *. unfold WINDOW_BYTES in *. split; [lia|].
  destruct (window_u32 a) as [-> _]; [unfold WINDOW_BYTES; lia|].
  cbn [mem_write SoftwareAddressSpace_GuestMemory]. destruct (space_write _ _ _) as [r mem']. by exists r.
Qed.

#[export] Instance WindowMemory_laws : UsbMemoryLaws SoftwareAddressSpace.
Proof.
  refine {| holds := in_window |}.
  - unfold in_window, WINDOW_BYTES. intros. lia.
  - intros mem a Ha. rewrite (window_read mem a Ha). eexists. split; [done|].
    pose proof (from_le_bytes_range (map (ram_byte (physical mem)) (seqZ a 4))) as Hr.
    rewrite length_map, length_seqZ in Hr. apply Hr. apply Forall_map, Forall_true. intros o.
    apply ram_byte_u8. destruct Ha as [[[_ ?] _] _]. done.
  - intros mem a v Ha Hv. destruct (window_write_dword mem a v Ha Hv) as (mem' & r & -> & Hw). cbn [snd].
    destruct Ha as (Hwin & Hp & Hlen & Hend).
    destruct (window_store _ _ (to_le_bytes 4 v) _ _ Hwin Hp Hend (to_le_bytes_u8 4 v) Hw) as (Hwin' & Hl' & _ & Hback).
    rewrite window_read by (split_and!; [done | done | by rewrite Hl' | done]).
    rewrite length_to_le_bytes in Hback. change (Z.of_nat 4) with 4 in Hback. rewrite (Hback Hlen).
    rewrite from_to_le_bytes. f_equal. by apply wrap_small.
  - intros mem a v b Ha Hv Hb Hab. destruct (window_write_dword mem a v Ha Hv) as (mem' & r & -> & Hw).
    cbn [snd]. rewrite (window_read mem b Hb). destruct Ha as (Hwin & Hp & Hlen & Hend), Hb as (_ & ? & ? & ?).
    destruct (window_store _ _ (to_le_bytes 4 v) _ _ Hwin Hp Hend (to_le_bytes_u8 4 v) Hw) as (Hwin' & Hl' & Hframe & _).
    rewrite window_read by (split_and!; [done | done | by rewrite Hl' | done]).
    f_equal. f_equal. apply bytes_same. intros o Ho. apply Hframe. rewrite length_to_le_bytes.
    unfold words_apart in Hab. lia.
  - intros mem a v b Ha Hv (_ & ? & ? & ?). destruct (window_write_dword mem a v Ha Hv) as (mem' & r & -> & Hw).
    cbn [snd]. destruct Ha as (Hwin & Hp & Hlen & Hend).
    destruct (window_store _ _ (to_le_bytes 4 v) _ _ Hwin Hp Hend (to_le_bytes_u8 4 v) Hw) as (Hwin' & Hl' & _).
    split_and!; [done | done | by rewrite Hl' | done].
  - intros mem a bs b Ha Hbs Hb Hout. destruct (window_write_bytes mem a bs Ha) as [->|(Hend & r & Hw)]; [done|].
    rewrite (window_read mem b Hb). destruct Hb as (Hwin & ? & ? & ?).
    destruct (window_store _ _ _ _ _ Hwin (proj1 Ha) Hend Hbs Hw) as (Hwin' & Hl' & Hframe & _).
    rewrite window_read by (split_and!; [done | done | by rewrite Hl' | done]).
    f_equal. f_equal. apply bytes_same. intros o Ho. apply Hframe. intros Hin. apply (Hout (o - a)); lia.
  - intros mem a bs b Ha Hbs Hb. destruct (window_write_bytes mem a bs Ha) as [->|(Hend & r & Hw)]; [done|].
    destruct Hb as (Hwin & ? & ? & ?).
    destruct (window_store _ _ _ _ _ Hwin (proj1 Ha) Hend Hbs Hw) as (Hwin' & Hl' & _).
    split_and!; [done | done | by rewrite Hl' | done].
Defined.

(** RAM of bytes is all the invariant of the controller needs. *)
#[export] Instance WindowMemory_words : @UsbWords SoftwareAddressSpace WindowMemory.
Proof.
  refine {| sane := ram_ok |}.
  - intros mem a v Hm. cbn [read_dword WindowMemory]. case_match; [done|].
    destruct (mem_read_u32 mem (window_va a)) as [v'|] eqn:Hv; [|done]. intros [= <-].
    by eapply read_u32_any.
  - intros mem a v Hm Ha. cbn [write_dword WindowMemory]. case_match; [|done].
    pose proof (write_any_ok mem (window_va a) _ Hm (to_le_bytes_u8 4 v)) as Hw.
    unfold mem_write_u32. cbn [mem_write SoftwareAddressSpace_GuestMemory].
    by destruct (space_write mem (window_va a) (to_le_bytes 4 v)).
  - intros mem a bs Hm Ha Hbs. cbn [write_bytes WindowMemory]. case_match; [|done]. case_match; [done|].
    pose proof (write_any_ok mem (window_va a) _ Hm Hbs) as Hw.
    cbn [mem_write SoftwareAddressSpace_GuestMemory]. by destruct (space_write mem (window_va a) bs).
Defined.

(** ** The window of a new space *)

Lemma new_space_parts n s : 0 <= n -> SoftwareAddressSpace_new true n = Ok s ->
  0 < n /\ n mod 4096 = 0 /\ s = mkSpace ∅ n PageTable_new (allocator s) 0.
Proof.
  intros Hn. unfold SoftwareAddressSpace_new, AlignedBuffer_new_zeroed. rewrite page_size_val.
  destruct (Z.eqb_spec n 0); [done|]. destruct (Z.eqb_spec (n mod 4096) 0) as [Hal|]; [|done]. cbn [orb negb].
  case_match; [done|]. destruct (try_from_u _ _); [|done]. cbn. intros [= <-]. split_and!; [lia | done | done].
Qed.

Lemma window_established n s s' : 0 <= n <= WINDOW_BYTES -> SoftwareAddressSpace_new true n = Ok s ->
  map_physical_window s = (Ok tt, s') -> window_ok s'.
Proof.
  intros Hn Hnew Hmap. destruct (new_space_parts n s (proj1 Hn) Hnew) as (Hpos & Hal & Hs).
  set (r := mkGuestRange WINDOW_BASE n).
  assert (range_wf r /\ range_aligned r) as [Hwf Hral].
  { unfold range_wf, range_aligned, GuestRange_end_exclusive, r, WINDOW_BASE, WINDOW_BYTES, is_u in *.
    cbn [range_start range_len]. rewrite page_size_val. split_and!; try lia. done. }
  unfold map_physical_window in Hmap.
  assert (lift_address (GuestRange_page_aligned 0x80000000 (physical_len s)) = Ok r) as Hr.
  { unfold GuestRange_page_aligned. rewrite Hs. cbn [physical_len].
    rewrite (proj2 (range_new_ok_iff 0x80000000 n ltac:(unfold is_u; lia) ltac:(unfold is_u, WINDOW_BYTES in *; lia) r))
      by (unfold WINDOW_BYTES in *; split_and!; [lia | lia | done]).
    cbn [mbind result_bind]. by rewrite (proj2 (alignment_ok_iff r) Hral). }
  rewrite Hr in Hmap. unfold map_alias in Hmap.
  destruct (lift_address (GuestRange_require_page_alignment r)) as [[]|]; [|discriminate].
  destruct (negb _); [discriminate|]. destruct (checked_add _ _ _); [|discriminate].
  destruct (_ <? _); [discriminate|].
  destruct (PageTable_map_ram _ _ _ _) as [[[]|e] t] eqn:Hrun; [|discriminate].
  injection Hmap as <-. rename Hrun into Hmap.
  replace (table s) with PageTable_new in Hmap by (by rewrite Hs).
  assert (physical_len s = n /\ physical s = ∅) as [Hlen Hphys] by (by rewrite Hs). clear Hs.
  change (GuestPa_page 0) with 0 in Hmap. pose proof (page_count_bounds r Hwf) as Hcount.
  destruct (map_ram_spec PageTable_new r 0 (Z.lor PERM_READ PERM_WRITE) Hwf) as (res & t1 & Hrun & Hiff & Hok & _);
    [unfold is_u; lia|].
  rewrite Hmap in Hrun. injection Hrun as <- <-. destruct (proj1 Hiff eq_refl) as (_ & Hfits & _).
  destruct (Hok eq_refl) as [_ Hget].
  pose proof (map_ram_linear _ _ _ _ _ Hwf (ltac:(unfold is_u; lia) : u32 0) Hfits Hmap) as Hlin.
  split; [split; cbn; rewrite ?Hlen, ?Hphys; [done | apply map_Forall_empty]|].
  intros access p Hacc Hp. cbn [table physical_len bump_mapping_epoch with_table]. rewrite Hlen.
  assert (GuestRange_contains r (WINDOW_BASE + p) = (p <? n)) as Hc.
  { unfold GuestRange_contains, GuestRange_end_exclusive, r. cbn [range_start range_len].
    destruct (Z.ltb_spec p n); lia. }
  destruct (Z.ltb_spec p n) as [Hlt|Hge].
  - rewrite (translate_linear t r 0 _ n (WINDOW_BASE + p) access Hwf Hral ltac:(lia) ltac:(cbn; lia) Hlin Hc).
    replace (grants _ access) with true by (by destruct Hacc as [-> | ->]; vm_compute).
    unfold r. cbn [range_start]. lia.
  - assert (PageTable_get t (GuestVa_page (WINDOW_BASE + p)) = PageTable_get PageTable_new (GuestVa_page (WINDOW_BASE + p))) as Heq.
    { rewrite Hget, decide_False; [done|]. rewrite pages_elem by done. intros (a & Ha & Hpage).
      unfold GuestRange_contains, GuestRange_end_exclusive, r in Ha. cbn [range_start range_len] in Ha.
      rewrite !va_page_div in Hpage. unfold WINDOW_BASE in *. clear -Ha Hpage Hge Hal Hpos.
      apply andb_true_iff in Ha as [Ha1 Ha2]. apply Z.leb_le in Ha1. apply Z.ltb_lt in Ha2. dlia. }
    assert (PageDescriptor_is_valid (PageTable_get t (GuestVa_page (WINDOW_BASE + p))) = false) as Hinv.
    { rewrite Heq. unfold PageTable_get, PageTable_new. cbn [entries].
      unfold array_get. case_match; [by rewrite lookup_empty | done]. }
    unfold translate, checked_descriptor. rewrite Hinv. exact Hge.
Qed.
