(* ===== verification/UsbTheorems.v ===== *)
(** * The gamepad's theorems, and a controller at work

    Scripted input samples the state of the last step reached, reports lose
    nothing of a state, and the translation of a host controller's report is
    exact at rest and monotone.  The last section runs the controller over a
    real address space. *)

From stdpp Require Import sorting.
From S2P Require Import Prelude Slices GuestTypes PageTable Allocator GuestMemory SoftwareSpace SpaceTheorems UsbDevice Ohci OhciInvariant OhciQueue UsbWindow.

(** ** Scripted input *)

(** The entry of the greatest frame not past [frame], the last one given of
    those with the same frame. *)
Fixpoint latest (frame : Z) (l : list (Z * GamepadState)) : option (Z * GamepadState) :=
  match l with
  | [] => None
  | e :: l =>
    match latest frame l with
    | Some b => Some (if (e.1 <=? frame) && (b.1 <? e.1) then e else b)
    | None => if e.1 <=? frame then Some e else None
    end
  end.

(** The entry of the least frame, the first one given. *)
Fixpoint earliest (l : list (Z * GamepadState)) : option (Z * GamepadState) :=
  match l with
  | [] => None
  | e :: l =>
    match earliest l with
    | Some b => Some (if e.1 <=? b.1 then e else b)
    | None => Some e
    end
  end.

Definition reference_sample (l : list (Z * GamepadState)) (frame : Z) : option GamepadState :=
  snd <$> match latest frame l with Some e => Some e | None => earliest l end.

(** The last entry of the prefix [partition_point] finds. *)
Fixpoint reached (frame : Z) (l : list (Z * GamepadState)) : option (Z * GamepadState) :=
  match l with
  | [] => None
  | e :: l => if e.1 <=? frame then match reached frame l with Some b => Some b | None => Some e end
              else None
  end.

Lemma reached_partition frame l :
  reached frame l = match partition_point (fun e => e.1 <=? frame) l with
                    | O => None
                    | S i => l !! i
                    end.
Proof.
  induction l as [|e l IH]; [done|]. cbn. rewrite IH. destruct (e.1 <=? frame); [|done].
  destruct (partition_point _ l) as [|i] eqn:Hp; [done|]. cbn.
  destruct (l !! i) eqn:Hi; [done|]. apply lookup_ge_None in Hi. exfalso.
  pose proof (partition_point_le (fun e : Z * GamepadState => e.1 <=? frame) l). lia.
Qed.

Abbreviation sorted := (Sorted (fun a b : Z * GamepadState => a.1 <= b.1)).

Lemma insert_sorted_frame e l : sorted l -> sorted (insert_by_frame e l).
Proof.
  induction l as [|x l IH]; intros Hs; cbn [insert_by_frame]; [repeat constructor|].
  destruct (Z.leb_spec e.1 x.1); [by constructor; [|constructor]|].
  apply Sorted_inv in Hs as [Hs Hx]. constructor; [by apply IH|].
  destruct l as [|y l]; cbn [insert_by_frame]; [constructor; lia|]. apply HdRel_inv in Hx.
  destruct (Z.leb_spec e.1 y.1); constructor; lia.
Qed.

Lemma sort_sorted l : sorted (sort_by_frame l).
Proof. induction l; [constructor | by apply insert_sorted_frame]. Qed.

Lemma reached_ge frame l x b : sorted (x :: l) -> reached frame l = Some b -> x.1 <= b.1.
Proof.
  revert x. induction l as [|y l IH]; intros x Hs; cbn; [done|].
  apply Sorted_inv in Hs as [Hs Hx]. apply HdRel_inv in Hx. case_match; [|done].
  destruct (reached frame l) as [b'|] eqn:Hr; intros [= <-]; [|done].
  specialize (IH y Hs eq_refl). lia.
Qed.

Lemma reached_insert frame e l : sorted l ->
  reached frame (insert_by_frame e l) =
  match reached frame l with
  | Some b => Some (if (e.1 <=? frame) && (b.1 <? e.1) then e else b)
  | None => if e.1 <=? frame then Some e else None
  end.
Proof.
  induction l as [|x l IH]; intros Hs; cbn [insert_by_frame]; [done|].
  destruct (Z.leb_spec e.1 x.1) as [Hle|Hgt].
  - cbn [reached]. destruct (Z.leb_spec e.1 frame), (Z.leb_spec x.1 frame); try done; try lia.
    destruct (reached frame l) as [b|] eqn:Hr; cbn [andb].
    + pose proof (reached_ge _ _ _ _ Hs Hr). by destruct (Z.ltb_spec b.1 e.1); [lia|].
    + by destruct (Z.ltb_spec x.1 e.1); [lia|].
  - apply Sorted_inv in Hs as [Hs Hx]. cbn [reached]. rewrite (IH Hs).
    destruct (Z.leb_spec x.1 frame) as [Hxf|]; [|by destruct (Z.leb_spec e.1 frame); [lia|]].
    destruct (reached frame l) as [b|]; [done|].
    destruct (Z.leb_spec e.1 frame); cbn [andb]; [|done]. by destruct (Z.ltb_spec x.1 e.1); [|lia].
Qed.

Lemma reached_sort frame l : reached frame (sort_by_frame l) = latest frame l.
Proof.
  induction l as [|e l IH]; [done|]. change (sort_by_frame (e :: l)) with (insert_by_frame e (sort_by_frame l)).
  rewrite (reached_insert frame e _ (sort_sorted l)), IH. done.
Qed.

Lemma head_sort l : head (sort_by_frame l) = earliest l.
Proof.
  induction l as [|e l IH]; [done|]. change (sort_by_frame (e :: l)) with (insert_by_frame e (sort_by_frame l)).
  cbn [earliest]. rewrite <- IH. destruct (sort_by_frame l) as [|x s]; cbn; [done|]. by case_match.
Qed.

(** A script given in any order samples, at every frame, the state of the
    last step reached: the greatest frame not past it, the later entry among
    equal frames, and before the first step the first one. *)
Theorem scripted_sample_latest (l : list (Z * GamepadState)) (frame : Z) :
  sample (ScriptedInput_new l) frame = reference_sample l frame.
Proof.
  cbn [sample ScriptedInput_source]. unfold scripted_sample, reference_sample, ScriptedInput_new. cbn [steps].
  rewrite <- reached_sort, <- head_sort, reached_partition.
  destruct (sort_by_frame l) as [|e s] eqn:Hs; [done|].
  destruct (partition_point _ (e :: s)) as [|i] eqn:Hp; [done|].
  destruct ((e :: s) !! i) eqn:Hi; [done|]. pose proof (reached_partition frame (e :: s)) as Hr.
  rewrite Hp, Hi in Hr. cbn in Hr, Hp. case_match; [|done]. by case_match.
Qed.

(** ** Reports *)

(** What a driver makes of a report. *)
Definition parse_report (bytes : list Z) : option GamepadState :=
  match bytes with
  | [0; 20; b0; b1; p0; p1; p2; p3; p4; p5; p6; p7; x0; x1; y0; y1; u0; u1; v0; v1] =>
    Some (mkGamepadState (from_le_bytes [b0; b1]) [p0; p1; p2; p3; p4; p5; p6; p7]
      (signed 16 (from_le_bytes [x0; x1]), signed 16 (from_le_bytes [y0; y1]))
      (signed 16 (from_le_bytes [u0; u1]), signed 16 (from_le_bytes [v0; v1])))
  | _ => None
  end.

Lemma axis_bytes x : i16 x -> exists b0 b1, to_le_bytes 2 x = [b0; b1] /\
  signed 16 (from_le_bytes [b0; b1]) = x.
Proof.
  intros Hx. destruct (to_le_bytes 2 x) as [|b0 [|b1 [|]]] eqn:Hb;
    pose proof (length_to_le_bytes 2 x) as Hl; rewrite Hb in Hl; try discriminate.
  exists b0, b1. split; [done|]. rewrite <- Hb, from_to_le_bytes. change (8 * Z.of_nat 2) with 16.
  unfold signed, wrap, i16, I16_MIN, I16_MAX in *. case_match; dlia.
Qed.

(** A report loses nothing of the pad's state: a driver that reads the
    twenty bytes as the layout says gets the buttons, the pressures and both
    sticks with their signs. *)
Theorem report_roundtrip (s : GamepadState) : gamepad_ok s -> parse_report (report s) = Some s.
Proof.
  intros (Hb & Hl & _ & Hlx & Hly & Hrx & Hry).
  destruct s as [b ps [lx ly] [rx ry]]. cbn [buttons pressures left_stick right_stick fst snd] in *.
  unfold report. cbn [buttons pressures left_stick right_stick fst snd].
  destruct (axis_bytes lx Hlx) as (x0 & x1 & -> & Elx), (axis_bytes ly Hly) as (y0 & y1 & -> & Ely).
  destruct (axis_bytes rx Hrx) as (u0 & u1 & -> & Erx), (axis_bytes ry Hry) as (v0 & v1 & -> & Ery).
  pose proof (from_to_le_bytes 2 b) as Eb. rewrite Z.mod_small in Eb by exact Hb.
  destruct (to_le_bytes 2 b) as [|b0 [|b1 [|]]] eqn:Hbb;
    pose proof (length_to_le_bytes 2 b) as Hbl; rewrite Hbb in Hbl; try discriminate.
  destruct ps as [|p0 [|p1 [|p2 [|p3 [|p4 [|p5 [|p6 [|p7 [|]]]]]]]]]; try discriminate.
  change (parse_report _) with (Some (mkGamepadState (from_le_bytes [b0; b1]) [p0; p1; p2; p3; p4; p5; p6; p7]
    (signed 16 (from_le_bytes [x0; x1]), signed 16 (from_le_bytes [y0; y1]))
    (signed 16 (from_le_bytes [u0; u1]), signed 16 (from_le_bytes [v0; v1])))).
  by rewrite Elx, Ely, Erx, Ery, Eb.
Qed.

(** ** Translated reports *)

Lemma axis_i16 v : i16 (axis v) /\ i16 (saturating_neg (axis v)).
Proof. unfold i16, saturating_neg, axis, clamp_i16, I16_MIN, I16_MAX. lia. Qed.

Lemma map_buttons_u16 byte pairs start : Forall (fun p => u16 p.2) pairs -> u16 start ->
  u16 (map_buttons byte pairs start).
Proof.
  unfold map_buttons. revert start. induction pairs as [|p pairs IH]; intros start Hp Hs; [done|].
  apply Forall_cons in Hp as [Hp Hps]. cbn [foldl]. apply IH; [done|].
  case_match; [|done]. apply is_u_lor; [lia | done | done].
Qed.

Lemma map_pressures_ok byte pairs start : length start = 8%nat -> Forall u8 start ->
  length (map_pressures byte pairs start) = 8%nat /\ Forall u8 (map_pressures byte pairs start).
Proof.
  unfold map_pressures. revert start. induction pairs as [|p pairs IH]; intros start Hl Hs; [done|].
  cbn [foldl]. case_match; [|by apply IH].
  apply IH; [by rewrite length_insert | apply Forall_insert; [done | unfold is_u; lia]].
Qed.

Lemma direction_u16 d : u16 (direction d).
Proof. unfold direction. repeat case_match; split; by vm_compute. Qed.

Lemma nth_u8 bytes i : Forall u8 bytes -> u8 (nth i bytes 0).
Proof.
  intros Hb. destruct (decide (i < length bytes)%nat).
  - rewrite Forall_nth in Hb. by apply Hb.
  - rewrite nth_overflow by lia. unfold is_u. lia.
Qed.

(** Whatever bytes a host controller sends, a report that translates gives
    a state inside the pad's ranges: a sixteen-bit button word, eight
    byte-wide pressures, and signed sixteen-bit sticks.  A stick pushed as far
    up as the wire allows saturates instead of wrapping to full down, and a
    stick at rest reads as the centre. *)
Theorem translated_state_bounds (bytes : list Z) (s : GamepadState) :
  Forall u8 bytes -> translate_controller_report bytes = Some s ->
  gamepad_ok s /\
  (nth field.LEFT_Y bytes 0 = 0 -> (left_stick s).2 = I16_MAX) /\
  (nth field.LEFT_Y bytes 0 = 128 -> (left_stick s).2 = 0) /\
  (nth field.RIGHT_Y bytes 0 = 0 -> (right_stick s).2 = I16_MAX) /\
  (nth field.RIGHT_Y bytes 0 = 128 -> (right_stick s).2 = 0).
Proof.
  intros Hb. unfold translate_controller_report. destruct bytes as [|first rest]; [done|].
  cbn [head mbind option_bind]. case_match; [done|]. cbn zeta. remember (first :: rest) as bytes eqn:Hbytes.
  clear Hbytes. set (face := nth field.FACE bytes 0). set (shoulder := nth field.SHOULDER bytes 0).
  destruct (map_pressures_ok face
    [(CROSS, analogue.A); (CIRCLE, analogue.B); (SQUARE, analogue.X); (TRIANGLE, analogue.Y)] (replicate 8 0))
    as [Hl1 Hp1]; [done | repeat constructor; unfold is_u; lia|].
  destruct (map_pressures_ok shoulder
    [(LEFT_SHOULDER, analogue.WHITE); (RIGHT_SHOULDER, analogue.BLACK)] _ Hl1 Hp1) as [Hl2 Hp2].
  intros <-%(inj Some). split.
  - unfold gamepad_ok. cbn [buttons pressures left_stick right_stick fst snd].
    refine (conj _ (conj _ (conj _ (conj _ (conj _ (conj _ _)))))); try apply axis_i16.
    + apply map_buttons_u16; [repeat constructor; by vm_compute | apply direction_u16].
    + by rewrite !length_insert.
    + apply Forall_insert; [apply Forall_insert; [done|] |]; by apply nth_u8.
  - cbn [left_stick right_stick snd]. split_and!; by intros ->.
Qed.

Lemma translated_state_bounds_witness :
  exists s, translate_controller_report [1; 128; 0; 128; 128; 0; 7; 0; 8; 0] = Some s /\ gamepad_ok s.
Proof.
  eexists. split; [reflexivity|].
  apply (translated_state_bounds [1; 128; 0; 128; 128; 0; 7; 0; 8; 0]); [|reflexivity].
  repeat constructor; vm_compute; discriminate.
Defined.

Definition demo_pad : GamepadState := mkGamepadState 0x81 [255; 0; 1; 2; 3; 4; 5; 6] (-32768, 32767) (-1, 0).

Lemma report_roundtrip_witness : gamepad_ok demo_pad /\ parse_report (report demo_pad) = Some demo_pad.
Proof.
  assert (gamepad_ok demo_pad) as Hok.
  { unfold gamepad_ok. split_and!; try (vm_compute; split; congruence);
      repeat constructor; vm_compute; congruence. }
  split; [exact Hok | exact (report_roundtrip demo_pad Hok)].
Defined.

(** ** A controller at work *)

(** Two megabits of RAM behind the window, with a setup packet queued on a
    control endpoint. *)
Definition usb_demo_space : SoftwareAddressSpace :=
  match SoftwareAddressSpace_new true 0x20000 with
  | Ok s => s
  | Err _ => mkSpace ∅ 0 PageTable_new (PhysicalAllocator_new 0) 0
  end.
Definition demo_window : SoftwareAddressSpace := (map_physical_window usb_demo_space).2.

(** A setup transfer at [0x2000] whose packet asks for the device descriptor,
    and the empty descriptor that ends the queue. *)
Definition demo_words : list (Z * Z) :=
  [(0x2000, 0); (0x2004, 0x3000); (0x2008, 0x2010); (0x200C, 0x3007);
   (0x3000, 0x01000680); (0x3004, 0x00120000)].
Definition put_words (mem : SoftwareAddressSpace) (l : list (Z * Z)) : SoftwareAddressSpace :=
  foldl (fun mem p => (write_dword mem p.1 p.2).2) mem l.
Definition demo_queue : SoftwareAddressSpace := put_words demo_window demo_words.

Lemma put_words_holds l mem b : Forall (fun p => holds mem p.1 /\ u32 p.2) l -> holds mem b ->
  holds (put_words mem l) b.
Proof.
  revert mem. induction l as [|[a v] l IH]; intros mem Hl Hb; [done|].
  apply Forall_cons in Hl as [[Ha Hv] Hl]. cbn [put_words foldl fst snd]. apply IH.
  - eapply Forall_impl; [exact Hl|]. intros p [Hp ?]. split; [by apply write_dword_holds | done].
  - by apply write_dword_holds.
Qed.

Lemma demo_window_ok : window_ok demo_window.
Proof.
  eapply (window_established 0x20000 usb_demo_space); [vm_compute; split; congruence | reflexivity |].
  assert ((map_physical_window usb_demo_space).1 = Ok tt) as <- by (by vm_compute).
  unfold demo_window. by destruct (map_physical_window usb_demo_space).
Qed.

Lemma demo_holds b : 0 <= b -> b + 4 <= 0x20000 -> holds demo_queue b.
Proof.
  assert (forall b, 0 <= b -> b + 4 <= 0x20000 -> holds demo_window b) as Hw.
  { intros b' H0 H1. split; [exact demo_window_ok|]. split; [exact H0|].
    replace (physical_len demo_window) with 0x20000 by (by vm_compute). unfold WINDOW_BYTES. lia. }
  intros H0 H1. apply put_words_holds; [|by apply Hw].
  repeat (apply Forall_cons; split; [split; cbn [fst snd]; [apply Hw; lia | unfold is_u; lia]|]).
  apply Forall_nil. exact I.
Qed.

Lemma demo_queue_represents : represents_queues OhciController_default demo_queue 0x2010 0x2000 [0x2000] [].
Proof.
  split; [|split; [split_and!; [done | by vm_compute | exists 0x2010; by vm_compute] | by vm_compute]].
  constructor; [apply NoDup_singleton | |]; apply Forall_singleton.
  - split; [discriminate|]. split; [by vm_compute|]. apply Forall_forall. intros w Hw.
    unfold desc_words in Hw. set_unfold. apply demo_holds; lia.
  - exists 0, 0x3000, 0x3007. refine (conj _ (conj _ (conj _ (conj _ _)))); [by vm_compute.. | |].
    + intros _. split; apply demo_holds; lia.
    + intros t w Ht%list_elem_of_singleton Hw i Hi. subst t.
      change (Z.of_nat (Z.to_nat (transfer_length 0x3000 0x3007))) with 8 in Hi.
      unfold desc_words in Hw. set_unfold. lia.
Qed.

(** The controller takes the one transfer and hands it over. *)
Lemma completions_never_lost_witness :
  represents_queues OhciController_default demo_queue 0x2010 (aligned 0x2000) [0x2000] [] /\
  let '(head', _, (c1, mem1)) := run_queue MAX_TRANSFERS OhciController_default demo_queue 0 0x2010 0x2000 false in
  exists q1 q2, [0x2000] = q1 ++ q2 /\ queued (hand_over c1 mem1 0x1000).2 0x2010 (aligned head') q2.
Proof.
  split; [exact demo_queue_represents|].
  pose proof (completions_never_lost OhciController_default demo_queue 0 0x2010 0x2000 0x1000 [0x2000] []
    default_ok demo_queue_represents ltac:(discriminate) eq_refl (demo_holds (0x1000 + 0x84) ltac:(lia) ltac:(lia))) as Hrun.
  destruct (run_queue _ _ _ _ _ _ _) as [[head' moved] [c1 mem1]]. destruct (hand_over c1 mem1 0x1000).
  destruct Hrun as (q1 & q2 & Hq & Hqueued & _); [|exists q1, q2; exact (conj Hq Hqueued)].
  intros t w Ht%list_elem_of_singleton Hw. subst t. unfold desc_words in Hw. unfold words_apart. set_unfold. lia.
Defined.

(** The pad is plugged in, its port enabled, and a frame runs over the queue. *)
Definition demo_control : OhciController :=
  ohci_write (set_attached OhciController_default true) register.RH_PORT_STATUS port.SET_ENABLE.

Lemma usb_demo_reachable : usb_reachable (demo_control, demo_window).
Proof.
  exists demo_window. split; [apply demo_window_ok|].
  eapply rtc_l; [apply (usb_plug _ _ true)|]. eapply rtc_l; [|apply rtc_refl].
  apply usb_write; [split; by vm_compute | by vm_compute | by vm_compute].
Qed.

Lemma usb_hub_invariant_witness : usb_reachable (demo_control, demo_window) /\
  (ohci_read demo_control register.REVISION).1 = 0x10 /\
  Z.testbit (ohci_read demo_control register.RH_PORT_STATUS).1 1 = true.
Proof.
  split; [exact usb_demo_reachable|].
  destruct (usb_hub_invariant demo_control demo_window usb_demo_reachable) as [Hrev _].
  split; [exact Hrev | by vm_compute].
Defined.
