(* ===== verification/ImageLoader.v ===== *)
(** * Loading an image into guest memory

    Models the loader of [exbawks-core/src/emulator.rs]: the extents of an
    image ([image_extents]), their pages ([map_covered_pages]), their merged
    permissions ([apply_merged_permissions]), the import slots
    ([patch_kernel_thunks]) and the synthetic kernel image.

    The loader leaves at the first error with what it has done to the address
    space; [LM] is the state and error monad of such a function.  [usize] is
    64 bits wide, so the conversions of a [u32] size cannot fail. *)

From stdpp Require Import strings.
From S2P Require Import Prelude GuestTypes PageTable Allocator GuestMemory SoftwareSpace Xbe CoreTypes KernelCalls.

Local Open Scope string_scope.
Local Open Scope Z_scope.

Definition LM (A : Type) : Type := SoftwareAddressSpace -> result CoreError A * SoftwareAddressSpace.

#[global] Instance LM_ret : MRet LM := fun A a s => (Ok a, s).
#[global] Instance LM_bind : MBind LM := fun A B f m s =>
  match m s with
  | (Ok a, s) => f a s
  | (Err e, s) => (Err e, s)
  end.

Definition lm_lift {A} (r : result CoreError A) : LM A := fun s => (r, s).
Definition lm_gets {A} (f : SoftwareAddressSpace -> A) : LM A := fun s => (Ok (f s), s).
(** An operation of the address space, its error lifted. *)
Definition lm_memory {A} (f : SoftwareAddressSpace -> result MemoryError A * SoftwareAddressSpace) : LM A :=
  fun s => let '(r, s) := f s in (lift_memory r, s).
(** A [for] loop. *)
Fixpoint lm_for {A} (l : list A) (f : A -> LM unit) : LM unit :=
  match l with
  | [] => mret tt
  | a :: l => f a;; lm_for l f
  end.

(** ** Extents *)

Module XbeSectionFlags.
Definition WRITABLE : Z := 0x00000001.
Definition PRELOAD : Z := 0x00000002.
Definition EXECUTABLE : Z := 0x00000004.
Definition INSERTED_FILE : Z := 0x00000008.
Definition HEAD_PAGE_READ_ONLY : Z := 0x00000010.
Definition TAIL_PAGE_READ_ONLY : Z := 0x00000020.
End XbeSectionFlags.

Record ImageExtent : Type := mkImageExtent {
  ext_start : Z;
  ext_virtual_size : Z;
  ext_data : list Z;
  ext_permissions : MemoryPermissions;
  head_page_read_only : bool;
  tail_page_read_only : bool;
  ext_section_index : option Z;
}.

Definition page_bounds (e : ImageExtent) : Z * Z :=
  let last_byte := ext_start e + ext_virtual_size e - 1 in
  (Z.shiftr (ext_start e) GUEST_PAGE_SHIFT, wrap32 (Z.shiftr last_byte GUEST_PAGE_SHIFT)).

(** [first..=last]. *)
Definition extent_pages (e : ImageExtent) : list Z :=
  let '(first, last) := page_bounds e in seqZ first (last - first + 1).

Definition writes_page (e : ImageExtent) (page : Z) : bool :=
  if negb (permissions_contain (ext_permissions e) PERM_WRITE) then false else
  let '(head, tail) := page_bounds e in
  if (page =? head) && head_page_read_only e then false
  else if (page =? tail) && tail_page_read_only e then false
  else true.

Definition require_within_image (start virtual_size base image_end : Z) (section : option Z)
  : result CoreError unit :=
  if (start <? base) || (image_end <? start + virtual_size)
  then Err (RangeOutsideImage section start) else Ok tt.

Definition header_extents (image : XbeImage) (bytes : list Z) (base image_end : Z)
  : result CoreError (list ImageExtent) :=
  let h := header image in
  if size_of_headers h =? 0 then Ok [] else
  _ ← require_within_image (base_address h) (size_of_headers h) base image_end None;
  data ← ok_or (slice bytes 0 (size_of_headers h))
           (CoreInvalidConfiguration "XBE header size exceeds the file");
  Ok [mkImageExtent (base_address h) (size_of_headers h) data PERM_READ false false None].

Definition section_permissions (flags : Z) : MemoryPermissions :=
  let p := PERM_READ in
  let p := if permissions_contain flags XbeSectionFlags.WRITABLE then Z.lor p PERM_WRITE else p in
  if permissions_contain flags XbeSectionFlags.EXECUTABLE then Z.lor p PERM_EXECUTE else p.

Fixpoint section_extents (bytes : list Z) (base image_end : Z) (sections : list XbeSection)
  : result CoreError (list ImageExtent) :=
  match sections with
  | [] => Ok []
  | s :: sections =>
    if virtual_size s =? 0 then section_extents bytes base image_end sections
    else if virtual_size s <? raw_size s
    then Err (SectionRawExceedsVirtual (index s) (raw_size s) (virtual_size s))
    else
      _ ← require_within_image (virtual_address s) (virtual_size s) base image_end (Some (index s));
      data ← lift_xbe (section_data bytes s);
      rest ← section_extents bytes base image_end sections;
      Ok (mkImageExtent (virtual_address s) (virtual_size s) data (section_permissions (flags s))
            (permissions_contain (flags s) XbeSectionFlags.HEAD_PAGE_READ_ONLY)
            (permissions_contain (flags s) XbeSectionFlags.TAIL_PAGE_READ_ONLY)
            (Some (index s)) :: rest)
  end.

(** [sort_by_key], which is stable. *)
Fixpoint insert_extent (e : ImageExtent) (l : list ImageExtent) : list ImageExtent :=
  match l with
  | [] => [e]
  | e' :: l' => if ext_start e <=? ext_start e' then e :: l else e' :: insert_extent e l'
  end.
Definition sort_extents (l : list ImageExtent) : list ImageExtent := foldr insert_extent [] l.

(** [windows(2)] over the ordered extents. *)
Fixpoint check_windows (l : list ImageExtent) : result CoreError unit :=
  match l with
  | a :: ((b :: _) as l') =>
    if ext_start b <? ext_start a + ext_virtual_size a
    then Err (SectionByteOverlap (default U32_MAX (ext_section_index b)) (ext_start b))
    else check_windows l'
  | _ => Ok tt
  end.

Definition reject_byte_overlap (extents : list ImageExtent) : result CoreError unit :=
  check_windows (sort_extents extents).

Definition image_extents (image : XbeImage) (bytes : list Z) : result CoreError (list ImageExtent) :=
  let h := header image in
  let base := base_address h in
  let image_end := base + size_of_image h in
  if U32_MAX + 1 <? image_end then Err (ImageLeavesGuestSpace (size_of_image h)) else
  first ← header_extents image bytes base image_end;
  rest ← section_extents bytes base image_end (sections image);
  let extents := (first ++ rest)%list in
  _ ← reject_byte_overlap extents;
  Ok extents.

(** ** Pages *)

(** [sort_unstable] and [dedup]: equal pages are indistinguishable, so the
    order of equal ones cannot be seen. *)
Fixpoint insert_page (page : Z) (l : list Z) : list Z :=
  match l with
  | [] => [page]
  | p :: l' => if page <=? p then page :: l else p :: insert_page page l'
  end.
Definition sort_pages (l : list Z) : list Z := foldr insert_page [] l.
Fixpoint dedup_pages (l : list Z) : list Z :=
  match l with
  | a :: ((b :: _) as l') => if a =? b then dedup_pages l' else a :: dedup_pages l'
  | _ => l
  end.

Definition covered_pages (extents : list ImageExtent) : list Z :=
  dedup_pages (sort_pages (flat_map extent_pages extents)).

(** The maximal runs of consecutive pages with the same value, from the run
    [start..last] on; both loops that group pages are this one, the first
    with nothing to compare. *)
Fixpoint runs_from {A} `{EqDecision A} (start last : Z) (value : A) (l : list (Z * A))
  : list (Z * Z * A) :=
  match l with
  | [] => [(start, last, value)]
  | (page, v) :: l' =>
    if (page =? last + 1) && bool_decide (v = value)
    then runs_from start page value l'
    else (start, last, value) :: runs_from page page v l'
  end.
Definition page_runs {A} `{EqDecision A} (l : list (Z * A)) : list (Z * Z * A) :=
  match l with
  | [] => []
  | (page, v) :: l => runs_from page page v l
  end.

(** The guest range of a run of pages. *)
Definition run_range (run_start run_end : Z) : result CoreError GuestRange :=
  lift_memory (lift_address (GuestRange_page_aligned
    (wrap32 (Z.shiftl run_start GUEST_PAGE_SHIFT)) ((run_end - run_start + 1) * GUEST_PAGE_SIZE))).

Definition map_covered_pages (extents : list ImageExtent) : LM unit :=
  lm_for (page_runs (map (fun p => (p, tt)) (covered_pages extents))) (fun run =>
    range ← lm_lift (run_range run.1.1 run.1.2);
    _ ← lm_memory (fun s => map_anonymous s range (Z.lor PERM_READ PERM_WRITE));
    mret tt).

(** ** Permissions *)

(** [page_perms.entry(page).or_insert(empty)] and [|=]. *)
Fixpoint or_permission (page perm : Z) (m : list (Z * Z)) : list (Z * Z) :=
  match m with
  | [] => [(page, perm)]
  | (p, v) :: m' =>
    if page <? p then (page, perm) :: m
    else if page =? p then (p, Z.lor v perm) :: m'
    else (p, v) :: or_permission page perm m'
  end.

(** What one extent contributes to one page. *)
Definition contribution (e : ImageExtent) (page : Z) : MemoryPermissions :=
  let perm := PERM_READ in
  let perm := if permissions_contain (ext_permissions e) PERM_EXECUTE
              then Z.lor perm PERM_EXECUTE else perm in
  if writes_page e page then Z.lor perm PERM_WRITE else perm.

Definition add_extent (m : list (Z * Z)) (e : ImageExtent) : list (Z * Z) :=
  foldl (fun m page => or_permission page (contribution e page) m) m (extent_pages e).
Definition page_permissions (extents : list ImageExtent) : list (Z * Z) := foldl add_extent [] extents.

Definition apply_merged_permissions (extents : list ImageExtent) : LM unit :=
  lm_for (page_runs (page_permissions extents)) (fun run =>
    range ← lm_lift (run_range run.1.1 run.1.2);
    lm_memory (fun s => space_protect s range run.2)).

(** ** The image *)

Definition copy_extents (extents : list ImageExtent) : LM unit :=
  lm_for extents (fun e =>
    if bool_decide (ext_data e = []) then mret tt
    else lm_memory (fun s => mem_write s (ext_start e) (ext_data e))).

Definition map_xbe (image : XbeImage) (bytes : list Z) : LM unit :=
  extents ← lm_lift (image_extents image bytes);
  if bool_decide (extents = []) then mret tt else
  map_covered_pages extents;;
  copy_extents extents;;
  apply_merged_permissions extents.

(** ** Import slots *)

(** The pages of a slot, made writable; what each one's permissions were. *)
Fixpoint open_pages (pages : list GuestPage) : LM (list (GuestRange * MemoryPermissions)) :=
  match pages with
  | [] => mret []
  | page :: pages =>
    original ← lm_gets (fun s => PageDescriptor_permissions (PageTable_get (table s) page));
    range ← lm_lift (lift_memory (lift_address
              (GuestRange_page_aligned (GuestPage_start_va page) GUEST_PAGE_SIZE)));
    lm_memory (fun s => space_protect s range (Z.lor original PERM_WRITE));;
    rest ← open_pages pages;
    mret ((range, original) :: rest)
  end.

Definition thunk_target (data_variables : gmap Z GuestVa) (ordinal : Z) : GuestVa :=
  match data_variables !! ordinal with
  | Some address => address
  | None => gate_address ordinal
  end.

Definition patch_thunk (data_variables : gmap Z GuestVa) (t : KernelThunk) : LM unit :=
  span ← lm_lift (lift_memory (lift_address (GuestRange_new (thunk_slot t) 4)));
  originals ← open_pages (GuestRange_pages span);
  lm_memory (fun s => mem_write_u32 s (thunk_slot t) (thunk_target data_variables (thunk_ordinal t)));;
  lm_for originals (fun p => lm_memory (fun s => space_protect s p.1 p.2)).

Definition patch_kernel_thunks (entries : list KernelThunk) (data_variables : gmap Z GuestVa) : LM unit :=
  lm_for entries (patch_thunk data_variables).

(** ** The synthetic kernel image *)

Definition KERNEL_IMAGE_BASE : Z := 0x80010000.
Definition E_LFANEW : Z := 0x40.

Definition map_synthetic_kernel_image : LM unit :=
  let base := KERNEL_IMAGE_BASE in
  let write a bs := lm_memory (fun s => mem_write s a bs) in
  range ← lm_lift (lift_memory (lift_address (GuestRange_page_aligned base GUEST_PAGE_SIZE)));
  write base [0x4D; 0x5A];;
  lm_memory (fun s => mem_write_u32 s (base + 0x3C) E_LFANEW);;
  let nt := base + E_LFANEW in
  write nt [0x50; 0x45; 0; 0];;
  write (nt + 4) (to_le_bytes 2 0x014C);;
  write (nt + 6) (to_le_bytes 2 1);;
  write (nt + 0x14) (to_le_bytes 2 0xE0);;
  write (nt + 0x18) (to_le_bytes 2 0x010B);;
  lm_memory (fun s => space_protect s range (Z.lor PERM_READ PERM_EXECUTE)).
