(* ===== verification/LoaderTheorems.v ===== *)
(** * The loader

    The pure half of the loader: the overlap check over sorted neighbours
    decides whether any two extents share a byte, the grouped page runs are
    the covered pages, and the merged permissions are the union of what the
    extents contribute.

    Then what [map_xbe] of [exbawks-core/src/emulator.rs] leaves in guest
    memory: every covered page has a frame of its own, every byte of every
    extent is the file's byte or zero, and every page grants the union of what
    its extents contribute; and the import slots: patching puts the gate
    address in the slot and nothing else changes. *)

From stdpp Require Import sorting.
From stdpp Require Import strings.
From S2P Require Import Prelude GuestTypes PageTable Allocator GuestMemory SoftwareSpace SoftwareSpaceProofs SpaceTheorems MappingTheorems Xbe KernelCalls CoreTypes ImageLoader.

(** ** Extents and pages *)

(** ** Overlap *)

Definition extent_end (e : ImageExtent) : Z := ext_start e + ext_virtual_size e.
Definition apart (a b : ImageExtent) : Prop := extent_end a <= ext_start b \/ extent_end b <= ext_start a.

(** No two extents at different positions share a byte. *)
Fixpoint disjoint_extents (l : list ImageExtent) : Prop :=
  match l with
  | [] => True
  | a :: l => Forall (apart a) l /\ disjoint_extents l
  end.

#[export] Instance apart_symm : Symmetric apart.
Proof. intros a b [?|?]; [by right | by left]. Qed.

#[export] Instance disjoint_extents_proper : Proper ((≡ₚ) ==> iff) disjoint_extents.
Proof.
  intros l l' Hp. induction Hp; cbn [disjoint_extents]; [done | | | by etrans].
  - rewrite IHHp. by rewrite Hp.
  - rewrite !Forall_cons. pose proof (symmetry (R := apart) (x := x) (y := y)).
    pose proof (symmetry (R := apart) (x := y) (y := x)). tauto.
Qed.

Lemma disjoint_lookup l i j a b : disjoint_extents l -> i <> j -> l !! i = Some a -> l !! j = Some b -> apart a b.
Proof.
  revert i j. induction l as [|x l IH]; intros i j; [done|]. cbn [disjoint_extents]. intros [Hx Hl] Hij Ha Hb.
  destruct i as [|i], j as [|j]; cbn in Ha, Hb; [done | | | eapply (IH i j); [done | lia | done | done]].
  - injection Ha as ->. rewrite Forall_forall in Hx. by apply Hx, (list_elem_of_lookup_2 _ j).
  - injection Hb as ->. symmetry. rewrite Forall_forall in Hx. by apply Hx, (list_elem_of_lookup_2 _ i).
Qed.

Abbreviation by_start := (Sorted (fun a b : ImageExtent => ext_start a <= ext_start b)).

Lemma insert_extent_perm e l : insert_extent e l ≡ₚ e :: l.
Proof.
  induction l as [|x l IH]; [done|]. cbn [insert_extent]. case_match; [done|]. rewrite IH. constructor.
Qed.

Lemma sort_extents_perm l : sort_extents l ≡ₚ l.
Proof.
  induction l as [|e l IH]; [done|]. change (sort_extents (e :: l)) with (insert_extent e (sort_extents l)).
  by rewrite insert_extent_perm, IH.
Qed.

Lemma insert_extent_sorted e l : by_start l -> by_start (insert_extent e l).
Proof.
  induction l as [|x l IH]; intros Hs; cbn [insert_extent]; [repeat constructor|].
  destruct (Z.leb_spec (ext_start e) (ext_start x)); [by constructor; [|constructor]|].
  apply Sorted_inv in Hs as [Hs Hx]. constructor; [by apply IH|].
  destruct l as [|y l]; cbn [insert_extent]; [constructor; lia|]. apply HdRel_inv in Hx.
  destruct (Z.leb_spec (ext_start e) (ext_start y)); constructor; lia.
Qed.

Lemma sort_extents_sorted l : by_start (sort_extents l).
Proof. induction l; [constructor | by apply insert_extent_sorted]. Qed.

(** Of extents in order of their start, the neighbours decide. *)
Lemma check_windows_exact l : Forall (fun e => 0 < ext_virtual_size e) l -> by_start l ->
  check_windows l = Ok tt <-> disjoint_extents l.
Proof.
  intros Hpos Hs. apply Sorted_StronglySorted in Hs; [|intros ???; lia].
  induction Hs as [|a l Hs IH Ha]; [done|]. apply Forall_cons in Hpos as [Hpa Hpos]. specialize (IH Hpos).
  destruct l as [|b l]; [by repeat constructor|]. cbn [check_windows].
  apply Forall_cons in Ha as [Hab Ha]. apply Forall_cons in Hpos as [Hpb _].
  destruct (Z.ltb_spec (ext_start b) (ext_start a + ext_virtual_size a)) as [Hlt|Hge].
  - split; [done|]. intros [[[?|?] _]%Forall_cons _]; unfold extent_end in *; lia.
  - rewrite IH. cbn [disjoint_extents]. split; [|tauto]. intros Hd. split; [|done].
    apply Forall_cons. split; [by left|]. apply StronglySorted_inv in Hs as [_ Hb].
    eapply Forall_impl; [exact Hb|]. cbn. intros e He. left. unfold extent_end. lia.
Qed.

Lemma reject_overlap_spec l : Forall (fun e => 0 < ext_virtual_size e) l ->
  reject_byte_overlap l = Ok tt <-> disjoint_extents l.
Proof.
  intros Hpos. unfold reject_byte_overlap. rewrite check_windows_exact.
  - by rewrite sort_extents_perm.
  - by rewrite sort_extents_perm.
  - apply sort_extents_sorted.
Qed.

(** ** Runs *)

Definition run_pages {A} (r : Z * Z * A) : list (Z * A) :=
  map (fun p => (p, r.2)) (seqZ r.1.1 (r.1.2 - r.1.1 + 1)).

Lemma seqZ_snoc a n : 0 <= n -> seqZ a (n + 1) = seqZ a n ++ [a + n].
Proof. intros Hn. rewrite seqZ_app by lia. f_equal. Qed.

Section Runs.
Context {A : Type} `{EqDecision A}.

Lemma runs_from_flat (start last : Z) (v : A) l : start <= last ->
  flat_map run_pages (runs_from start last v l) = map (fun p => (p, v)) (seqZ start (last - start + 1)) ++ l /\
  Forall (fun r => r.1.1 <= r.1.2) (runs_from start last v l).
Proof.
  revert start last v. induction l as [|[page w] l IH]; intros start last v Hle; cbn [runs_from].
  { cbn [flat_map]. unfold run_pages. cbn [fst snd]. split; [done|]. by repeat constructor. }
  destruct ((page =? last + 1) && bool_decide (w = v)) eqn:Hgo.
  - apply andb_true_iff in Hgo as [->%Z.eqb_eq ->%bool_decide_eq_true].
    destruct (IH start (last + 1) v) as [-> Hall]; [lia|]. split; [|done].
    replace (last + 1 - start + 1) with (last - start + 1 + 1) by lia.
    rewrite seqZ_snoc, map_app, <- app_assoc by lia. cbn [map app].
    by replace (start + (last - start + 1)) with (last + 1) by lia.
  - destruct (IH page page w) as [Hf Hall]; [lia|]. cbn [flat_map]. rewrite Hf. split.
    + unfold run_pages at 1. cbn [fst snd]. f_equal.
      replace (page - page + 1) with 1 by lia. done.
    + by constructor.
Qed.

Lemma page_runs_flat (l : list (Z * A)) :
  flat_map run_pages (page_runs l) = l /\ Forall (fun r => r.1.1 <= r.1.2) (page_runs l).
Proof.
  destruct l as [|[page v] l]; [done|]. cbn [page_runs]. destruct (runs_from_flat page page v l) as [Hf Hall]; [lia|].
  split; [|done]. rewrite Hf. replace (page - page + 1) with 1 by lia. done.
Qed.
End Runs.

(** ** Covered pages *)

Abbreviation increasing_list := (StronglySorted Z.lt).

Lemma insert_page_elem p q l : q ∈ insert_page p l <-> q = p \/ q ∈ l.
Proof. induction l as [|x l IH]; cbn [insert_page]; [set_solver|]. case_match; set_solver. Qed.

Lemma sort_pages_elem q l : q ∈ sort_pages l <-> q ∈ l.
Proof.
  induction l as [|p l IH]; [done|]. change (sort_pages (p :: l)) with (insert_page p (sort_pages l)).
  rewrite insert_page_elem, IH. set_solver.
Qed.

Lemma sort_pages_sorted l : Sorted Z.le (sort_pages l).
Proof.
  induction l as [|p l IH]; [constructor|]. change (sort_pages (p :: l)) with (insert_page p (sort_pages l)).
  induction (sort_pages l) as [|x s IHs]; cbn [insert_page]; [repeat constructor|].
  destruct (Z.leb_spec p x); [by constructor; [|constructor]|].
  apply Sorted_inv in IH as [Hs Hx]. constructor; [by apply IHs|].
  destruct s as [|y s]; cbn [insert_page]; [constructor; lia|]. apply HdRel_inv in Hx.
  destruct (Z.leb_spec p y); constructor; lia.
Qed.

Lemma dedup_pages_elem q l : q ∈ dedup_pages l <-> q ∈ l.
Proof.
  induction l as [|a [|b l] IH]; [done | done |]. cbn [dedup_pages]. destruct (Z.eqb_spec a b) as [->|].
  - rewrite IH. set_solver.
  - rewrite !elem_of_cons, IH, elem_of_cons. done.
Qed.

Lemma dedup_pages_increasing l : Sorted Z.le l -> increasing_list (dedup_pages l).
Proof.
  intros Hs. apply Sorted_StronglySorted in Hs; [|intros ???; lia].
  induction Hs as [|a l Hs IH Ha]; [constructor|]. destruct l as [|b l]; [repeat constructor|].
  cbn [dedup_pages]. destruct (Z.eqb_spec a b) as [|Hne]; [done|]. constructor; [done|].
  apply Forall_forall. intros q Hq%(dedup_pages_elem q (b :: l)).
  apply Forall_cons in Ha as [Hab Ha]. apply StronglySorted_inv in Hs as [_ Hb].
  apply elem_of_cons in Hq as [->|Hq]; [lia|]. rewrite Forall_forall in Hb. specialize (Hb q Hq). lia.
Qed.

Lemma covered_pages_spec extents q :
  q ∈ covered_pages extents <-> exists e, e ∈ extents /\ q ∈ extent_pages e.
Proof.
  unfold covered_pages. rewrite dedup_pages_elem, sort_pages_elem.
  rewrite list_elem_of_In, in_flat_map. setoid_rewrite list_elem_of_In. done.
Qed.

Lemma covered_pages_increasing extents : increasing_list (covered_pages extents).
Proof. apply dedup_pages_increasing, sort_pages_sorted. Qed.

Lemma increasing_NoDup l : increasing_list l -> NoDup l.
Proof.
  induction 1 as [|a l Hs IH Ha]; constructor; [|done]. intros Hin. rewrite Forall_forall in Ha.
  specialize (Ha a Hin). lia.
Qed.

(** ** Merged permissions *)

Fixpoint perm_at (m : list (Z * Z)) (q : Z) : option Z :=
  match m with
  | [] => None
  | (p, v) :: m => if p =? q then Some v else perm_at m q
  end.

Lemma perm_at_none m q : q ∉ map fst m -> perm_at m q = None.
Proof.
  induction m as [|[p v] m IH]; [done|]. cbn. intros Hq. destruct (Z.eqb_spec p q) as [->|]; [set_solver|].
  apply IH. set_solver.
Qed.

Lemma perm_at_elem m q v : NoDup (map fst m) -> (q, v) ∈ m <-> perm_at m q = Some v.
Proof.
  induction m as [|[p w] m IH]; [set_solver|]. cbn. intros [Hp Hnd]%NoDup_cons. rewrite elem_of_cons, (IH Hnd).
  destruct (Z.eqb_spec p q) as [->|Hne]; [|naive_solver].
  rewrite (perm_at_none m q Hp). naive_solver.
Qed.

Lemma or_permission_keys page perm m q : q ∈ map fst (or_permission page perm m) <-> q = page \/ q ∈ map fst m.
Proof.
  induction m as [|[p v] m IH]; cbn; [set_solver|]. case_match; [set_solver|].
  destruct (Z.eqb_spec page p) as [->|]; cbn; set_solver.
Qed.

Lemma or_permission_spec page perm m : increasing_list (map fst m) ->
  increasing_list (map fst (or_permission page perm m)) /\
  forall q, perm_at (or_permission page perm m) q =
    if q =? page then Some (Z.lor (default 0 (perm_at m page)) perm) else perm_at m q.
Proof.
  induction m as [|[p v] m IH]; intros Hs; cbn [or_permission map fst].
  { split; [repeat constructor|]. intros q. cbn. rewrite (Z.eqb_sym page q). by case_match. }
  pose proof (StronglySorted_inv Hs) as [Hm Hp]. cbn [fst] in Hp. specialize (IH Hm). destruct IH as [IHs IHl].
  destruct (Z.ltb_spec page p) as [Hlt|Hge].
  { split.
    - cbn. constructor; [done|]. constructor; [done|]. eapply Forall_impl; [exact Hp|]. intros ??. lia.
    - intros q. cbn. rewrite (Z.eqb_sym page q). destruct (Z.eqb_spec q page) as [->|]; [|done].
      destruct (Z.eqb_spec p page); [lia|]. rewrite perm_at_none; [done|].
      rewrite Forall_forall in Hp. intros Hin. specialize (Hp page Hin). lia. }
  destruct (Z.eqb_spec page p) as [->|Hne].
  { split; [done|]. intros q. cbn. rewrite Z.eqb_refl, (Z.eqb_sym p q). by case_match. }
  split.
  - cbn. constructor; [done|]. apply Forall_forall. intros q [->|Hq]%or_permission_keys; [lia|].
    rewrite Forall_forall in Hp. by apply Hp.
  - intros q. cbn. rewrite IHl. destruct (Z.eqb_spec p page); [lia|].
    destruct (Z.eqb_spec p q) as [->|]; [|done]. by destruct (Z.eqb_spec q page); [lia|].
Qed.

(** What [m] holds after every page of [pages] got the contribution of [e]. *)
Lemma add_pages_spec e pages m : increasing_list (map fst m) ->
  let m' := foldl (fun m page => or_permission page (contribution e page) m) m pages in
  increasing_list (map fst m') /\
  forall q, match perm_at m' q with
            | Some v => (is_Some (perm_at m q) \/ q ∈ pages) /\
                (forall i, Z.testbit v i = Z.testbit (default 0 (perm_at m q)) i ||
                   (bool_decide (q ∈ pages) && Z.testbit (contribution e q) i))
            | None => perm_at m q = None /\ q ∉ pages
            end.
Proof.
  revert m. induction pages as [|p pages IH]; intros m Hs; cbn zeta; cbn [foldl].
  { split; [done|]. intros q. destruct (perm_at m q) as [v|]; [|set_solver]. split; [eauto|]. intros i.
    rewrite bool_decide_false by set_solver. cbn. by rewrite orb_false_r. }
  destruct (or_permission_spec p (contribution e p) m Hs) as [Hs' Hl]. destruct (IH _ Hs') as [Hs2 Hq].
  split; [done|]. intros q. specialize (Hq q). rewrite Hl in Hq. cbn zeta in Hq.
  destruct (perm_at (foldl _ _ pages) q) as [v|].
  - destruct Hq as [Hin Hbits]. destruct (Z.eqb_spec q p) as [->|Hne].
    + split; [right; set_solver|]. intros i. rewrite Hbits. change (default 0 (Some ?x)) with x. rewrite Z.lor_spec.
      rewrite (bool_decide_true (p ∈ p :: pages)) by set_solver. cbn [andb].
      destruct (Z.testbit (contribution e p) i); rewrite ?orb_true_r; [done|].
      by rewrite !andb_false_r, !orb_false_r.
    + split; [destruct Hin; set_solver|]. intros i. rewrite Hbits.
      by rewrite (bool_decide_ext (q ∈ p :: pages) (q ∈ pages)) by set_solver.
  - destruct (Z.eqb_spec q p) as [|Hne]; [by destruct Hq|]. destruct Hq as [? ?]. split; [done | set_solver].
Qed.

(** The merged permissions of an image: a page is listed exactly when an
    extent covers it, and holds exactly what the extents contribute. *)
Lemma page_permissions_spec extents :
  increasing_list (map fst (page_permissions extents)) /\
  forall q, match perm_at (page_permissions extents) q with
            | Some v => (exists e, e ∈ extents /\ q ∈ extent_pages e) /\
                forall i, Z.testbit v i = true <->
                  exists e, e ∈ extents /\ q ∈ extent_pages e /\ Z.testbit (contribution e q) i = true
            | None => forall e, e ∈ extents -> q ∉ extent_pages e
            end.
Proof.
  unfold page_permissions. induction extents as [|e extents IH] using rev_ind; [split; [constructor|]; set_solver|].
  rewrite foldl_app. cbn [foldl]. destruct IH as [Hs Hq]. unfold add_extent at 1.
  destruct (add_pages_spec e (extent_pages e) _ Hs) as [Hs' Hq']. split; [exact Hs'|]. intros q.
  specialize (Hq q). specialize (Hq' q). cbn zeta in Hq'. fold (add_extent (foldl add_extent [] extents) e) in Hq' |- *.
  destruct (perm_at (add_extent _ e) q) as [v|].
  - destruct Hq' as [Hin Hbits]. split.
    + destruct Hin as [[w Hw]|Hin]; [|exists e; split; [apply elem_of_app; right; by apply list_elem_of_singleton | done]].
      rewrite Hw in Hq. destruct Hq as [(e' & ? & ?) _]. exists e'. split; [apply elem_of_app; by left | done].
    + intros i. rewrite Hbits, orb_true_iff, andb_true_iff, bool_decide_eq_true.
      assert (Z.testbit (default 0 (perm_at (foldl add_extent [] extents) q)) i = true <->
        exists e, e ∈ extents /\ q ∈ extent_pages e /\ Z.testbit (contribution e q) i = true) as ->.
      { destruct (perm_at _ q) as [w|]; [apply (proj2 Hq i)|]. cbn [default]. rewrite Z.bits_0.
        split; [done|]. intros (e' & He' & Hin' & _). by destruct (Hq e' He'). }
      setoid_rewrite elem_of_app. setoid_rewrite list_elem_of_singleton. split.
      * intros [(e' & ? & ? & ?)|[? ?]]; [exists e' | exists e]; auto.
      * intros (e' & [He'|He'] & ? & ?); [left; eauto | subst; by right].
  - destruct Hq' as [Hnone Hout]. rewrite Hnone in Hq. intros e'. rewrite elem_of_app, list_elem_of_singleton. intros [He'|He']; [by apply Hq | by subst].
Qed.

(** ** The loaded image *)

(** ** Runs of the loader that succeed *)

Lemma lm_bind_ok {A B} (m : LM A) (f : A -> LM B) s b s' : (m ≫= f) s = (Ok b, s') ->
  exists a s1, m s = (Ok a, s1) /\ f a s1 = (Ok b, s').
Proof. unfold mbind, LM_bind. destruct (m s) as [[a|e] s1]; [eauto | done]. Qed.

Lemma lm_lift_ok {A} (r : result CoreError A) s a s' : lm_lift r s = (Ok a, s') -> r = Ok a /\ s' = s.
Proof. unfold lm_lift. by intros [= -> ->]. Qed.

Lemma lm_memory_ok {A} (f : SoftwareAddressSpace -> result MemoryError A * SoftwareAddressSpace) s a s' :
  lm_memory f s = (Ok a, s') -> f s = (Ok a, s').
Proof. unfold lm_memory. destruct (f s) as [[x|e] s1]; [by intros [= -> ->] | done]. Qed.

(** ** Well-formed extents *)

Record extent_ok (e : ImageExtent) : Prop := mk_extent_ok {
  extent_start_ok : 0 <= ext_start e;
  extent_size_ok : 0 < ext_virtual_size e;
  extent_end_ok : extent_end e <= 2 ^ 32;
  extent_data_ok : Z.of_nat (length (ext_data e)) <= ext_virtual_size e;
  extent_bytes_ok : Forall u8 (ext_data e);
}.

Lemma extent_pages_spec e q : extent_ok e ->
  q ∈ extent_pages e <-> ext_start e / 4096 <= q <= (extent_end e - 1) / 4096.
Proof.
  intros [Hs Hp He _ _]. unfold extent_pages, page_bounds, extent_end in *.
  rewrite !Z.shiftr_div_pow2 by done. change (2 ^ GUEST_PAGE_SHIFT) with 4096.
  rewrite wrap_small by (unfold is_u; dlia). rewrite elem_of_seqZ. lia.
Qed.

Lemma extent_page_of e g : extent_ok e -> ext_start e <= g < extent_end e -> GuestVa_page g ∈ extent_pages e.
Proof. intros He Hg. rewrite extent_pages_spec, va_page_div by done. dlia. Qed.

Lemma extent_pages_in_range e q : extent_ok e -> q ∈ extent_pages e -> 0 <= q < GUEST_PAGE_COUNT.
Proof.
  intros He Hq. rewrite extent_pages_spec in Hq by done. destruct He. rewrite page_count_val. dlia.
Qed.

(** ** Runs of pages *)

Lemma run_range_spec a b : 0 <= a -> a <= b < GUEST_PAGE_COUNT -> exists r, run_range a b = Ok r /\
  range_wf r /\ range_aligned r /\ GuestRange_pages r = seqZ a (b - a + 1).
Proof.
  rewrite page_count_val. intros Ha Hb. unfold run_range. rewrite Z.shiftl_mul_pow2 by done.
  change (2 ^ GUEST_PAGE_SHIFT) with 4096. rewrite wrap_small by (unfold is_u; lia). rewrite page_size_val.
  set (r := mkGuestRange (a * 4096) ((b - a + 1) * 4096)). exists r.
  assert (range_wf r) as Hwf.
  { unfold range_wf, GuestRange_end_exclusive, is_u, r. cbn [range_start range_len]. lia. }
  assert (range_aligned r) as Hal.
  { unfold range_aligned, r. cbn [range_start range_len]. rewrite page_size_val. split; apply Z.mod_mul; lia. }
  split_and!; try done.
  - unfold GuestRange_page_aligned.
    rewrite (proj2 (range_new_ok_iff (a * 4096) ((b - a + 1) * 4096) ltac:(unfold is_u; lia) ltac:(unfold is_u; lia) r))
      by (split_and!; [lia | lia | done]).
    cbn [mbind result_bind]. by rewrite (proj2 (alignment_ok_iff r) Hal).
  - rewrite pages_seqZ by done. destruct (aligned_count r Hwf Hal) as [Hc Hs].
    unfold r in *. cbn [range_start range_len] in *. f_equal; lia.
Qed.

(** ** Frames *)

Definition frame (s : SoftwareAddressSpace) (q : Z) : Z :=
  PageDescriptor_physical_page (PageTable_get (table s) q).

(** Every page of [D] is RAM inside the space, each at a frame of its own. *)
Record placed (s : SoftwareAddressSpace) (D : list Z) : Prop := mk_placed {
  placed_ram : forall q, q ∈ D -> PageDescriptor_is_valid (PageTable_get (table s) q) = true /\
    PageDescriptor_kind (PageTable_get (table s) q) = Ram;
  placed_frame : forall q, q ∈ D -> 0 <= frame s q /\ frame s q * 4096 + 4096 <= physical_len s;
  placed_inj : forall q q', q ∈ D -> q' ∈ D -> frame s q = frame s q' -> q = q';
}.

Definition perms_are (s : SoftwareAddressSpace) (D : list Z) (perm : Z -> Z) : Prop :=
  forall q, q ∈ D -> PageDescriptor_permissions (PageTable_get (table s) q) = perm q mod 8.

(** Where a guest byte of a placed page lives. *)
Definition byte_at (s : SoftwareAddressSpace) (g : Z) : Z := frame s (GuestVa_page g) * 4096 + g mod 4096.

Lemma byte_at_frame s g : byte_at s g / GUEST_PAGE_SIZE = frame s (GuestVa_page g).
Proof. unfold byte_at. change GUEST_PAGE_SIZE with 4096. pose proof (Z.mod_pos_bound g 4096). symmetry. apply (Z.div_unique _ _ _ (g mod 4096)); lia. Qed.

Lemma placed_translate s D perm access g : placed s D -> perms_are s D perm -> GuestVa_page g ∈ D ->
  translate (table s) (physical_len s) access g =
  if grants (perm (GuestVa_page g)) access then Ok (byte_at s g) else Err (AccessDenied g access).
Proof.
  intros [Hram Hframe _] Hperm Hg. destruct (Hram _ Hg) as [Hv Hk]. specialize (Hframe _ Hg).
  specialize (Hperm _ Hg). unfold grants. destruct (permissions_contain (_ mod 8) _) eqn:Hgr.
  - apply translate_ram; rewrite ?Hperm; try done. unfold frame in Hframe. dlia.
  - unfold translate, checked_descriptor. by rewrite Hv, Hk, Hperm, Hgr.
Qed.

Lemma byte_at_inj s D g g' : placed s D -> GuestVa_page g ∈ D -> GuestVa_page g' ∈ D ->
  byte_at s g = byte_at s g' -> g = g'.
Proof.
  intros Hp Hg Hg' Heq. unfold byte_at in Heq.
  assert (frame s (GuestVa_page g) = frame s (GuestVa_page g') /\ g mod 4096 = g' mod 4096) as [Hf Hm] by dlia.
  apply (placed_inj s D Hp) in Hf; [|done..]. rewrite !va_page_div in Hf. dlia.
Qed.

(** ** Mapping the covered pages *)

(** Invariant of the mapping loop: the pages mapped so far hold frames the
    allocator gave up, everything else is as at the start. *)
Record map_inv (s0 s : SoftwareAddressSpace) (D : list Z) : Prop := mk_map_inv {
  inv_wf : space_wf s;
  inv_physical : physical s = physical s0;
  inv_len : physical_len s = physical_len s0;
  inv_placed : placed s D;
  inv_perms : perms_are s D (fun _ => Z.lor PERM_READ PERM_WRITE);
  inv_taken : forall q, q ∈ D -> available (allocator s0) (frame s q) /\ ~ available (allocator s) (frame s q);
  inv_pool : forall p, available (allocator s) p -> available (allocator s0) p;
  inv_other : forall q, q ∉ D -> PageTable_get (table s) q = PageTable_get (table s0) q;
}.

Lemma map_inv_start s : space_wf s -> map_inv s s [].
Proof. intros Hs. constructor; try done; [constructor; intros; set_solver | | ]; intros q Hq; set_solver. Qed.

Lemma map_run_step s0 s D r pa s' : map_inv s0 s D -> range_wf r ->
  (forall q, q ∈ GuestRange_pages r -> q ∉ D) ->
  map_anonymous s r (Z.lor PERM_READ PERM_WRITE) = (Ok pa, s') ->
  map_inv s0 s' (GuestRange_pages r ++ D).
Proof.
  intros [Hwf Hphys Hlen Hpl Hperm Htaken Hpool Hother] Hr Hfresh Hrun.
  pose proof (map_anonymous_spec s r (Z.lor PERM_READ PERM_WRITE) Hwf Hr) as Hspec. rewrite Hrun in Hspec.
  destruct Hspec as (Hwf' & Hp' & Hl' & Hal & Hpa & Hpa0 & Hend & Hav & Hav' & Hmap & Hfr).
  destruct (aligned_count r Hr Hal) as [Hcount Hstart]. pose proof (page_count_bounds r Hr) as Hc.
  assert (forall q, q ∈ D -> PageTable_get (table s') q = PageTable_get (table s) q) as Hold.
  { intros q Hq. apply Hfr. intros Hin. by apply (Hfresh q). }
  assert (forall q, q ∈ D -> frame s' q = frame s q) as Holdf by (intros q Hq; unfold frame; by rewrite Hold).
  assert (forall q, q ∈ GuestRange_pages r -> frame s' q = pa / 4096 + (q - GuestVa_page (range_start r)) /\
    pa / 4096 <= frame s' q < pa / 4096 + GuestRange_page_count r) as Hnew.
  { intros q Hq. destruct (Hmap q Hq) as (_ & _ & _ & Hf). cbn zeta in Hf. unfold frame. rewrite Hf. split; [done|].
    rewrite pages_seqZ in Hq by done. apply elem_of_seqZ in Hq. lia. }
  constructor.
  - done.
  - congruence.
  - congruence.
  - constructor.
    + intros q [Hq|Hq]%elem_of_app; [destruct (Hmap q Hq) as (? & ? & _); done|].
      rewrite Hold by done. by apply (placed_ram s D).
    + rewrite Hl'. intros q [Hq|Hq]%elem_of_app.
      * destruct (Hnew q Hq) as [_ ?]. dlia.
      * rewrite Holdf by done. by apply (placed_frame s D).
    + intros q q' [Hq|Hq]%elem_of_app [Hq'|Hq']%elem_of_app.
      * destruct (Hnew q Hq) as [-> _], (Hnew q' Hq') as [-> _]. lia.
      * rewrite (Holdf q') by done. intros Heq. destruct (Htaken q' Hq') as [_ Hno]. exfalso. apply Hno.
        rewrite <- Heq. by apply Hav, Hnew.
      * rewrite (Holdf q) by done. intros Heq. destruct (Htaken q Hq) as [_ Hno]. exfalso. apply Hno.
        rewrite Heq. by apply Hav, Hnew.
      * rewrite !Holdf by done. by apply (placed_inj s D).
  - intros q [Hq|Hq]%elem_of_app; [by destruct (Hmap q Hq) as (_ & _ & ? & _)|].
    rewrite Hold by done. by apply Hperm.
  - intros q [Hq|Hq]%elem_of_app.
    + destruct (Hnew q Hq) as [_ Hin]. split; [by apply Hpool, Hav|]. rewrite Hav'. tauto.
    + rewrite Holdf by done. destruct (Htaken q Hq) as [? Hno]. split; [done|]. rewrite Hav'. tauto.
  - intros p [Hp _]%Hav'. by apply Hpool.
  - intros q Hq. rewrite elem_of_app in Hq. rewrite Hfr by tauto. apply Hother. tauto.
Qed.

Lemma map_runs_inv runs s0 s D s' : map_inv s0 s D ->
  Forall (fun r : Z * Z * unit => r.1.1 <= r.1.2) runs ->
  (forall q, q ∈ map fst (flat_map run_pages runs) -> 0 <= q < GUEST_PAGE_COUNT) ->
  NoDup (map fst (flat_map run_pages runs) ++ D) ->
  lm_for runs (fun run =>
    range ← lm_lift (run_range run.1.1 run.1.2);
    _ ← lm_memory (fun s => map_anonymous s range (Z.lor PERM_READ PERM_WRITE));
    mret tt) s = (Ok tt, s') ->
  exists D', map_inv s0 s' D' /\ forall q, q ∈ D' <-> q ∈ map fst (flat_map run_pages runs) \/ q ∈ D.
Proof.
  revert s D. induction runs as [|[[a b] v] runs IH]; intros s D Hinv Hle Hrange Hnd Hrun.
  { injection Hrun as <-. exists D. split; [done|]. set_solver. }
  apply Forall_cons in Hle as [Hab Hle]. cbn [fst snd] in Hab.
  assert (map fst (run_pages (a, b, v)) = seqZ a (b - a + 1)) as Hpages.
  { unfold run_pages. cbn [fst snd]. rewrite map_map. apply map_id. }
  cbn [flat_map] in *. rewrite map_app, Hpages in *.
  destruct (run_range_spec a b) as (r & Hr & Hwf & Hal & Hrp).
  { apply (Hrange a). apply elem_of_app. left. apply elem_of_seqZ. lia. }
  { split; [done|]. apply (Hrange b). apply elem_of_app. left. apply elem_of_seqZ. lia. }
  cbn [lm_for fst snd] in Hrun. apply lm_bind_ok in Hrun as (? & s1 & Hrun1 & Hrun).
  apply lm_bind_ok in Hrun1 as (r' & s2 & [Hr' ->]%lm_lift_ok & Hrun1). rewrite Hr in Hr'. injection Hr' as <-.
  apply lm_bind_ok in Hrun1 as (pa & s3 & Hmap%lm_memory_ok & [= _ ->]).
  apply (map_run_step s0 s D r pa s1) in Hmap; [|done|done|].
  2:{ intros q Hq. rewrite Hrp in Hq. rewrite <- app_assoc in Hnd. apply NoDup_app in Hnd as (_ & Hd & _).
      specialize (Hd q Hq). set_solver. }
  rewrite Hrp in Hmap. destruct (IH s1 (seqZ a (b - a + 1) ++ D)) as (D' & HD' & Hel); [done | done | | | exact Hrun |].
  - intros q Hq. apply Hrange. apply elem_of_app. by right.
  - by rewrite (Permutation_app_comm (seqZ a _) D), (app_assoc _ D), (Permutation_app_comm _ (seqZ a _)), app_assoc.
  - exists D'. split; [done|]. intros q. rewrite Hel, !elem_of_app. tauto.
Qed.

(** ** Copying the extents *)

Lemma translate_all_map t plen access a n (f : Z -> Z) :
  (forall g, a <= g < a + Z.of_nat n -> translate t plen access g = Ok (f g)) ->
  translate_all t plen access a n = Ok (map f (seqZ a (Z.of_nat n))).
Proof.
  revert a. induction n as [|n IH]; intros a Ht; [done|].
  cbn [translate_all]. rewrite Ht by lia. cbn [mbind result_bind]. rewrite IH by (intros; apply Ht; lia).
  cbn [mbind result_bind]. rewrite (seqZ_cons _ (Z.of_nat (S n))) by lia. cbn [map].
  by replace (Z.pred (Z.of_nat (S n))) with (Z.of_nat n) by lia.
Qed.

(** Two spaces with the same mappings. *)
Definition same_map (s s' : SoftwareAddressSpace) : Prop :=
  physical_len s' = physical_len s /\ forall q, PageTable_get (table s') q = PageTable_get (table s) q.

Lemma same_map_placed s s' D : same_map s s' -> placed s D -> placed s' D.
Proof.
  intros [Hl Hg] [Hr Hf Hi]. constructor; unfold frame in *.
  - intros q. rewrite Hg. apply Hr.
  - intros q. rewrite Hg, Hl. apply Hf.
  - intros q q'. rewrite !Hg. apply Hi.
Qed.

Lemma same_map_perms s s' D perm : same_map s s' -> perms_are s D perm -> perms_are s' D perm.
Proof. intros [_ Hg] Hp q. rewrite Hg. apply Hp. Qed.

Lemma same_map_byte s s' g : same_map s s' -> byte_at s' g = byte_at s g.
Proof. intros [_ Hg]. unfold byte_at, frame. by rewrite Hg. Qed.

(** The permissions of a page. *)
Definition perm_of (s : SoftwareAddressSpace) (q : Z) : Z := PageDescriptor_permissions (PageTable_get (table s) q).

Lemma permissions_range d : 0 <= PageDescriptor_permissions d < 8.
Proof.
  unfold PageDescriptor_permissions. change PERMISSIONS_MASK with 7.
  pose proof (land_le_mask (Z.shiftr d PERMISSIONS_SHIFT) 7 ltac:(lia)).
  rewrite wrap_small by (unfold is_u; lia). lia.
Qed.

Lemma perm_of_own s D : perms_are s D (perm_of s).
Proof. intros q _. symmetry. apply Z.mod_small, permissions_range. Qed.

Lemma same_map_perm_of s s' q : same_map s s' -> perm_of s' q = perm_of s q.
Proof. intros [_ Hg]. unfold perm_of. by rewrite Hg. Qed.

(** A range whose pages are placed and grant [access]. *)
Definition reachable (s : SoftwareAddressSpace) (D : list Z) (access : AccessKind) (a n : Z) : Prop :=
  0 <= a /\ a + n <= 2 ^ 32 /\
  forall g, a <= g < a + n -> GuestVa_page g ∈ D /\ grants (perm_of s (GuestVa_page g)) access = true.

Lemma placed_offsets s D access a n : placed s D -> reachable s D access a (Z.of_nat n) ->
  access_offsets s access a n = Ok (map (byte_at s) (seqZ a (Z.of_nat n))).
Proof.
  intros Hpl (Ha & Hend & Hin). unfold access_offsets. destruct (decide (n = 0%nat)) as [->|]; [done|].
  rewrite decide_True by lia. apply translate_all_map. intros g Hg. destruct (Hin g Hg) as [Hd Hgr].
  by rewrite (placed_translate s D _ access g Hpl (perm_of_own s D) Hd), Hgr.
Qed.

Lemma placed_read s D a n : ram_ok s -> placed s D -> reachable s D Read a (Z.of_nat n) -> u32 a ->
  mem_read s a n = Ok (map (fun g => ram_byte (physical s) (byte_at s g)) (seqZ a (Z.of_nat n))).
Proof.
  intros Hs Hpl Hin Ha. cbn [mem_read SoftwareAddressSpace_GuestMemory]. unfold space_read.
  rewrite (access_read_spec _ _ _ _ Hs Ha), (placed_offsets s D Read a n Hpl Hin). cbn. by rewrite map_map.
Qed.

(** A write to placed pages that grant it lands, and touches nothing else. *)
Lemma placed_write s D a bs : ram_ok s -> placed s D -> Forall u8 bs -> u32 a ->
  reachable s D Write a (Z.of_nat (length bs)) ->
  exists s1, mem_write s a bs = (Ok tt, s1) /\ ram_ok s1 /\ same_map s s1 /\ allocator s1 = allocator s /\
  forall g, GuestVa_page g ∈ D -> ram_byte (physical s1) (byte_at s g) =
    if (a <=? g) && (g <? a + Z.of_nat (length bs)) then nth (Z.to_nat (g - a)) bs 0
    else ram_byte (physical s) (byte_at s g).
Proof.
  intros Hs Hpl Hu8 Hu Hreach. cbn [mem_write SoftwareAddressSpace_GuestMemory].
  destruct (space_write s a bs) as [r s1] eqn:Hw. exists s1.
  pose proof (write_ram_ok _ _ _ _ _ Hs Hu Hu8 Hw) as Hs1.
  pose proof (placed_offsets s D Write a (length bs) Hpl Hreach) as Hos. destruct Hreach as (Ha & Hend & Hin).
  set (n := length bs) in *. unfold space_write in Hw. rewrite (access_write_spec _ _ _ _ Hs Hu) in Hw. fold n in Hw.
  rewrite Hos in Hw. injection Hw as <- <-. split; [done|]. split; [done|]. split; [|split; [done|]].
  { split; [done|]. intros q. cbn [table with_table with_physical]. apply get_entries, bump_written_entries. }
  intros g Hg. cbn [physical with_table with_physical]. rewrite store_at_byte.
  destruct ((a <=? g) && (g <? a + Z.of_nat n)) eqn:Hd.
  - bool_to_prop. set (i := Z.to_nat (g - a)).
    assert (NoDup (map (byte_at s) (seqZ a (Z.of_nat n)))) as Hnd.
    { apply (NoDup_fmap_2_strong (byte_at s)); [|apply NoDup_seqZ].
      intros x y Hx%elem_of_seqZ Hy%elem_of_seqZ. apply (byte_at_inj s D); [done | by apply Hin..]. }
    destruct (lookup_lt_is_Some_2 bs i) as [b Hb]; [unfold i; lia|].
    rewrite (last_written_nodup _ _ i (byte_at s g) b Hnd); [| |done].
    + cbn. by rewrite nth_lookup, Hb.
    + rewrite list_lookup_fmap, lookup_seqZ_lt by (unfold i; lia). cbn. do 2 f_equal. unfold i. lia.
  - rewrite last_written_none; [done|]. intros (x & Hx & Hxin)%list_elem_of_fmap. apply elem_of_seqZ in Hxin.
    apply (byte_at_inj s D) in Hx; [|done | done | by apply Hin]. subst x. destruct (Z.leb_spec a g); [|lia].
    destruct (Z.ltb_spec g (a + Z.of_nat n)); [done | lia].
Qed.

(** Whether [g] is one of the bytes the file gives for [e]. *)
Definition in_data (e : ImageExtent) (g : Z) : bool :=
  (ext_start e <=? g) && (g <? ext_start e + Z.of_nat (length (ext_data e))).
Definition data_at (e : ImageExtent) (g : Z) : Z := nth (Z.to_nat (g - ext_start e)) (ext_data e) 0.

Abbreviation RW := (fun _ : Z => Z.lor PERM_READ PERM_WRITE).

Lemma copy_step s D e r s1 : ram_ok s -> placed s D -> perms_are s D RW -> extent_ok e ->
  (forall q, q ∈ extent_pages e -> q ∈ D) -> mem_write s (ext_start e) (ext_data e) = (r, s1) ->
  r = Ok tt /\ ram_ok s1 /\ same_map s s1 /\
  forall g, GuestVa_page g ∈ D -> ram_byte (physical s1) (byte_at s g) =
    if in_data e g then data_at e g else ram_byte (physical s) (byte_at s g).
Proof.
  intros Hs Hpl Hperm He Hcov Hw. pose proof He as [Hst Hsz Hend Hlen Hu8]. unfold extent_end in Hend.
  destruct (placed_write s D (ext_start e) (ext_data e)) as (s2 & Hw2 & Hs2 & Hsame & _ & Hb); try done.
  - unfold is_u. lia.
  - split_and!; [done | lia |]. intros g Hg.
    assert (GuestVa_page g ∈ D) as Hd by (apply Hcov, extent_page_of; [done|]; unfold extent_end; lia).
    split; [done|]. unfold perm_of. rewrite (Hperm _ Hd). done.
  - rewrite Hw in Hw2. injection Hw2 as -> <-. split_and!; try done.
Qed.

(** The extent whose data holds [g]; disjoint extents have at most one. *)
Definition holder (es : list ImageExtent) (g : Z) : option ImageExtent := find (fun e => in_data e g) es.

Lemma in_data_unique e es g : disjoint_extents (e :: es) -> Forall extent_ok (e :: es) ->
  in_data e g = true -> holder es g = None.
Proof.
  intros [Hd _] Hok He. unfold holder. destruct (find _ es) as [e'|] eqn:Hf; [|done]. exfalso.
  apply find_some in Hf as [Hin Hg]. apply list_elem_of_In in Hin. rewrite Forall_forall in Hd.
  specialize (Hd e' Hin). rewrite Forall_forall in Hok.
  pose proof (extent_data_ok e (Hok e ltac:(set_solver))). pose proof (extent_data_ok e' (Hok e' ltac:(set_solver))).
  unfold in_data, apart, extent_end in *. bool_to_prop. lia.
Qed.

Lemma copy_extents_spec es s D s' : ram_ok s -> placed s D -> perms_are s D RW -> Forall extent_ok es ->
  disjoint_extents es -> (forall e q, e ∈ es -> q ∈ extent_pages e -> q ∈ D) ->
  copy_extents es s = (Ok tt, s') ->
  ram_ok s' /\ same_map s s' /\ forall g, GuestVa_page g ∈ D -> ram_byte (physical s') (byte_at s g) =
    match holder es g with Some e => data_at e g | None => ram_byte (physical s) (byte_at s g) end.
Proof.
  revert s. induction es as [|e es IH]; intros s Hs Hpl Hperm Hok Hdis Hcov Hrun.
  { injection Hrun as <-. by split_and!. }
  pose proof Hok as Hok'. apply Forall_cons in Hok as [He Hok]. pose proof Hdis as [_ Hdis'].
  assert (exists s1, copy_extents es s1 = (Ok tt, s') /\ ram_ok s1 /\ same_map s s1 /\
    forall g, GuestVa_page g ∈ D -> ram_byte (physical s1) (byte_at s g) =
      if in_data e g then data_at e g else ram_byte (physical s) (byte_at s g)) as (s1 & Hrun1 & Hs1 & Hsame & Hb).
  { unfold copy_extents in Hrun. cbn [lm_for] in Hrun. apply lm_bind_ok in Hrun as ([] & s1 & Hstep & Hrun).
    exists s1. split; [exact Hrun|]. destruct (bool_decide (ext_data e = [])) eqn:Hempty.
    - injection Hstep as <-. apply bool_decide_eq_true in Hempty. split_and!; try done.
      intros g _. unfold in_data. rewrite Hempty. change (Z.of_nat (length [])) with 0.
      destruct (Z.leb_spec (ext_start e) g), (Z.ltb_spec g (ext_start e + 0)); try done; lia.
    - apply lm_memory_ok in Hstep. apply (copy_step s D) in Hstep; try done; [|set_solver].
      by destruct Hstep as (_ & ? & ? & ?). }
  destruct (IH s1) as (Hs' & Hsame' & Hb'); [done | by apply (same_map_placed s) | by apply (same_map_perms s) | done | done | set_solver | done |].
  split; [done|]. split; [destruct Hsame as [? Hg], Hsame' as [? Hg']; split; [congruence | intros; by rewrite Hg']|].
  intros g Hg. rewrite <- (same_map_byte s s1 g Hsame), Hb' by done. rewrite (same_map_byte s s1 g Hsame), Hb by done.
  unfold holder at 2. cbn [find]. destruct (in_data e g) eqn:Hd; [|done].
  by rewrite (in_data_unique e es g).
Qed.

(** ** Merging the permissions *)

(** What stays when only permissions change. *)
Definition same_frames (s s' : SoftwareAddressSpace) : Prop :=
  physical s' = physical s /\ physical_len s' = physical_len s /\
  forall q, frame s' q = frame s q /\
    PageDescriptor_is_valid (PageTable_get (table s') q) = PageDescriptor_is_valid (PageTable_get (table s) q) /\
    PageDescriptor_kind (PageTable_get (table s') q) = PageDescriptor_kind (PageTable_get (table s) q).

#[export] Instance same_frames_preorder : PreOrder same_frames.
Proof.
  split; [by intros s; split_and!|].
  intros s1 s2 s3 (? & ? & H1) (? & ? & H2). split; [congruence|]. split; [congruence|].
  intros q. destruct (H1 q) as (? & ? & ?), (H2 q) as (? & ? & ?). split_and!; congruence.
Qed.

Lemma same_frames_placed s s' D : same_frames s s' -> placed s D -> placed s' D.
Proof.
  intros (_ & Hl & Hg) [Hr Hf Hi]. constructor.
  - intros q Hq. destruct (Hg q) as (_ & -> & ->). by apply Hr.
  - intros q. rewrite (proj1 (Hg q)), Hl. apply Hf.
  - intros q q'. rewrite (proj1 (Hg q)), (proj1 (Hg q')). apply Hi.
Qed.

Lemma with_permissions_facts d perms :
  let d' := PageDescriptor_with_permissions d perms in
  PageDescriptor_is_valid d' = PageDescriptor_is_valid d /\ PageDescriptor_kind d' = PageDescriptor_kind d /\
  PageDescriptor_permissions d' = perms mod 8 /\ PageDescriptor_physical_page d' = PageDescriptor_physical_page d.
Proof.
  cbn zeta. pose proof (with_permissions_view d perms) as Hview. unfold descriptor_view in Hview. cbn in Hview.
  injection Hview as -> -> -> -> _ _ _. done.
Qed.

Lemma protect_step s r v s1 : range_wf r -> space_protect s r v = (Ok tt, s1) ->
  same_frames s s1 /\ allocator s1 = allocator s /\
  (forall q, q ∈ GuestRange_pages r -> PageDescriptor_permissions (PageTable_get (table s1) q) = v mod 8) /\
  (forall q, q ∉ GuestRange_pages r -> PageTable_get (table s1) q = PageTable_get (table s) q).
Proof.
  intros Hr. unfold space_protect. destruct (protect_spec (table s) r v Hr) as (res & t' & -> & _ & Hok & _).
  destruct res as [[]|]; [|done]. intros [= <-]. destruct (Hok eq_refl) as [_ Hget]. cbn [table bump_mapping_epoch with_table].
  split; [|split; [done|split]].
  - split_and!; try done. intros q. unfold frame. cbn [table bump_mapping_epoch with_table]. rewrite Hget.
    case_decide; [|done]. by destruct (with_permissions_facts (PageTable_get (table s) q) v) as (-> & -> & _ & ->).
  - intros q Hq. rewrite Hget, decide_True by done. apply with_permissions_facts.
  - intros q Hq. by rewrite Hget, decide_False.
Qed.

Lemma perm_at_app m m' q :
  perm_at (m ++ m') q = match perm_at m q with Some v => Some v | None => perm_at m' q end.
Proof. induction m as [|[p v] m IH]; [done|]. cbn. by destruct (p =? q). Qed.

Lemma perm_at_run a b v q : perm_at (run_pages (a, b, v)) q = if bool_decide (q ∈ seqZ a (b - a + 1)) then Some v else None.
Proof.
  unfold run_pages. cbn [fst snd]. induction (seqZ a (b - a + 1)) as [|p l IH]; [done|]. cbn. rewrite IH.
  destruct (Z.eqb_spec p q) as [->|]; [by rewrite bool_decide_true by set_solver|].
  by rewrite (bool_decide_ext (q ∈ p :: l) (q ∈ l)) by set_solver.
Qed.

Lemma protect_runs_spec runs s s' : Forall (fun r : Z * Z * Z => r.1.1 <= r.1.2) runs ->
  (forall q, q ∈ map fst (flat_map run_pages runs) -> 0 <= q < GUEST_PAGE_COUNT) ->
  NoDup (map fst (flat_map run_pages runs)) ->
  lm_for runs (fun run =>
    range ← lm_lift (run_range run.1.1 run.1.2);
    lm_memory (fun s => space_protect s range run.2)) s = (Ok tt, s') ->
  same_frames s s' /\ allocator s' = allocator s /\
  forall q, match perm_at (flat_map run_pages runs) q with
            | Some v => PageDescriptor_permissions (PageTable_get (table s') q) = v mod 8
            | None => PageTable_get (table s') q = PageTable_get (table s) q
            end.
Proof.
  revert s. induction runs as [|[[a b] v] runs IH]; intros s Hle Hrange Hnd Hrun.
  { injection Hrun as <-. split_and!; try done. }
  apply Forall_cons in Hle as [Hab Hle]. cbn [fst snd] in Hab.
  assert (map fst (run_pages (a, b, v)) = seqZ a (b - a + 1)) as Hpages.
  { unfold run_pages. cbn [fst snd]. rewrite map_map. apply map_id. }
  cbn [flat_map] in *. rewrite map_app, Hpages in Hrange, Hnd.
  destruct (run_range_spec a b) as (r & Hr & Hwf & Hal & Hrp).
  { apply (Hrange a). apply elem_of_app. left. apply elem_of_seqZ. lia. }
  { split; [done|]. apply (Hrange b). apply elem_of_app. left. apply elem_of_seqZ. lia. }
  cbn [lm_for fst snd] in Hrun. apply lm_bind_ok in Hrun as ([] & s1 & Hrun1 & Hrun).
  apply lm_bind_ok in Hrun1 as (r' & s2 & [Hr' ->]%lm_lift_ok & Hprot%lm_memory_ok).
  rewrite Hr in Hr'. injection Hr' as <-. apply NoDup_app in Hnd as (_ & Hsep & Hnd).
  destruct (protect_step s r v s1 Hwf Hprot) as (Hsame & Hall & Hin & Hout). rewrite Hrp in Hin, Hout.
  destruct (IH s1 Hle) as (Hsame' & Hall' & Hperm); [|done|exact Hrun|].
  { intros q Hq. apply Hrange, elem_of_app. by right. }
  split; [by etrans|]. split; [congruence|]. intros q. rewrite perm_at_app, perm_at_run. specialize (Hperm q).
  destruct (bool_decide (q ∈ seqZ a (b - a + 1))) eqn:Hq.
  - apply bool_decide_eq_true in Hq. rewrite (perm_at_none _ q (Hsep q Hq)) in Hperm. rewrite Hperm. by apply Hin.
  - apply bool_decide_eq_false in Hq. destruct (perm_at (flat_map run_pages runs) q); [done|].
    rewrite Hperm. by apply Hout.
Qed.

(** ** The extents of a parsed image *)

Lemma within_image_ok start size base stop sec : require_within_image start size base stop sec = Ok tt ->
  base <= start /\ start + size <= stop.
Proof.
  unfold require_within_image. destruct (Z.ltb_spec start base), (Z.ltb_spec stop (start + size)); done || lia.
Qed.

Lemma section_extents_ok bytes base stop l es : Forall u8 bytes -> file_len bytes < 2 ^ 64 ->
  0 <= base -> stop <= 2 ^ 32 -> Forall (section_ok bytes) l ->
  section_extents bytes base stop l = Ok es -> Forall extent_ok es.
Proof.
  intros Hb Hlen Hbase Hstop Hl. revert es. induction Hl as [|s l Hs Hl IH]; intros es Hes; cbn [section_extents] in Hes.
  { injection Hes as <-. constructor. }
  destruct (Z.eqb_spec (virtual_size s) 0) as [|Hnz]; [by apply IH|].
  destruct (Z.ltb_spec (virtual_size s) (raw_size s)) as [|Hle]; [done|].
  apply bind_ok_inv in Hes as ([] & Hwithin%within_image_ok & Hes).
  apply bind_ok_inv in Hes as (data & Hdata & Hes). apply bind_ok_inv in Hes as (rest & Hrest & [= <-]).
  constructor; [|by apply IH]. destruct (section_data_ok bytes s Hlen Hs) as (data' & Hdata' & Hdl & ->).
  rewrite Hdata' in Hdata. injection Hdata as <-. destruct Hs as (_ & _ & _ & Hvs & _). unfold is_u in Hvs.
  constructor; unfold extent_end; cbn [ext_start ext_virtual_size ext_data]; try lia.
  by apply Forall_take, Forall_drop.
Qed.

Lemma image_extents_ok image bytes es : Forall u8 bytes -> file_len bytes < 2 ^ 64 ->
  XbeImage_parse bytes = Ok image -> image_extents image bytes = Ok es ->
  Forall extent_ok es /\ disjoint_extents es.
Proof.
  intros Hb Hlen Hparse Hes. pose proof (parse_spec bytes Hb Hlen) as Hok. rewrite Hparse in Hok.
  destruct Hok as [_ (Hbase & Hh1 & Hh2 & Hh3 & Hh4 & _ & _ & _ & _ & _ & Hsec)]. unfold image_extents in Hes.
  set (h := header image) in *. unfold is_u in Hbase.
  destruct (Z.ltb_spec (U32_MAX + 1) (base_address h + size_of_image h)) as [|Hend]; [done|].
  unfold U32_MAX in Hend. apply bind_ok_inv in Hes as (first & Hfirst & Hes).
  apply bind_ok_inv in Hes as (rest & Hrest & Hes). cbn zeta in Hes.
  apply bind_ok_inv in Hes as ([] & Hrej & [= <-]).
  assert (Forall extent_ok (first ++ rest)) as Hall.
  { apply Forall_app. split.
    - unfold header_extents in Hfirst. fold h in Hfirst. destruct (Z.eqb_spec (size_of_headers h) 0); [by simplify_eq|].
      apply bind_ok_inv in Hfirst as ([] & Hwithin%within_image_ok & Hfirst).
      apply bind_ok_inv in Hfirst as (data & Hdata%ok_or_ok & [= <-]). apply Forall_singleton.
      destruct (slice_some bytes 0 (size_of_headers h)) as (bs & Hbs & Hbl & Hbe); [lia | lia |].
      rewrite Hbs in Hdata. injection Hdata as <-.
      constructor; unfold extent_end; cbn [ext_start ext_virtual_size ext_data]; try lia.
      rewrite Hbe. by apply Forall_take, Forall_drop.
    - eapply section_extents_ok; [exact Hb | exact Hlen | | | | exact Hrest]; [lia | lia |].
      apply Forall_forall. intros s [i Hi]%list_elem_of_lookup. by apply (Hsec i). }
  split; [done|]. apply reject_overlap_spec; [|done]. eapply Forall_impl; [exact Hall|]. by intros e [].
Qed.

(** ** The loaded image *)

(** Whether some extent gives [access] to page [q]. *)
Definition contributes (e : ImageExtent) (q : Z) (access : AccessKind) : bool :=
  match access with
  | Read => true
  | Write => writes_page e q
  | Execute => permissions_contain (ext_permissions e) PERM_EXECUTE
  end.
Definition image_grants (es : list ImageExtent) (q : Z) (access : AccessKind) : bool :=
  existsb (fun e => bool_decide (q ∈ extent_pages e) && contributes e q access) es.

Definition access_bit (access : AccessKind) : Z :=
  match access with Read => 0 | Write => 1 | Execute => 2 end.

Lemma grants_bit v access : grants v access = Z.testbit v (access_bit access).
Proof.
  unfold grants, permissions_contain. change 8 with (2 ^ 3). rewrite <- Z.land_ones by lia.
  assert (AccessKind_required_permission access = 2 ^ access_bit access) as -> by by destruct access.
  assert (0 <= access_bit access < 3) as Hb by (destruct access; cbn; lia).
  rewrite Z.land_ones, <- (Z.mod_pow2_bits_low v 3) by lia.
  set (x := v mod 2 ^ 3). destruct (Z.testbit x (access_bit access)) eqn:Ht.
  - apply Z.eqb_eq. apply Z.bits_inj'. intros i Hi. rewrite Z.land_spec, Z.pow2_bits_eqb by lia.
    destruct (Z.eqb_spec (access_bit access) i) as [<-|]; [by rewrite Ht | by rewrite andb_false_r].
  - apply Z.eqb_neq. intros Heq. apply (f_equal (fun z => Z.testbit z (access_bit access))) in Heq.
    rewrite Z.land_spec, Ht, Z.pow2_bits_true in Heq by lia. done.
Qed.

Lemma contribution_bit e q access : Z.testbit (contribution e q) (access_bit access) = contributes e q access.
Proof.
  unfold contribution, contributes. destruct (permissions_contain (ext_permissions e) PERM_EXECUTE), (writes_page e q), access; done.
Qed.

Lemma page_permissions_grants es q v : perm_at (page_permissions es) q = Some v -> forall access,
  grants v access = image_grants es q access.
Proof.
  intros Hq access. pose proof (proj2 (page_permissions_spec es) q) as Hspec. rewrite Hq in Hspec.
  destruct Hspec as [_ Hbits]. rewrite grants_bit. apply eq_bool_prop_intro. rewrite !Is_true_true.
  rewrite Hbits. unfold image_grants. rewrite existsb_exists. setoid_rewrite <- list_elem_of_In.
  setoid_rewrite andb_true_iff. setoid_rewrite bool_decide_eq_true. setoid_rewrite contribution_bit. done.
Qed.

(** The byte the image has at an offset of one of its extents. *)
Lemma image_byte es e i before : Forall extent_ok es -> disjoint_extents es -> e ∈ es -> 0 <= i < ext_virtual_size e ->
  match holder es (ext_start e + i) with Some e' => data_at e' (ext_start e + i) | None => before end =
  default before (ext_data e !! Z.to_nat i).
Proof.
  intros Hok Hdis He Hi. unfold holder. destruct (find _ es) as [e'|] eqn:Hf.
  - apply find_some in Hf as [Hin Hd]. apply list_elem_of_In in Hin. rewrite Forall_forall in Hok.
    pose proof (extent_data_ok e' (Hok e' Hin)). apply list_elem_of_lookup in He as [j Hj], Hin as [j' Hj'].
    destruct (decide (j = j')) as [<-|Hne].
    + rewrite Hj in Hj'. injection Hj' as <-. unfold data_at, in_data in *. bool_to_prop.
      replace (ext_start e + i - ext_start e) with i by lia.
      destruct (lookup_lt_is_Some_2 (ext_data e) (Z.to_nat i)) as [x Hx]; [lia|]. rewrite Hx. by apply nth_lookup_Some.
    + pose proof (disjoint_lookup es j j' e e' Hdis Hne Hj Hj') as Hap.
      unfold in_data, apart, extent_end in *. bool_to_prop. lia.
  - pose proof (find_none _ _ Hf e (proj1 (list_elem_of_In _ _) He)) as Hno. cbn in Hno. unfold in_data in Hno.
    rewrite lookup_ge_None_2; [done|]. destruct (Z.leb_spec (ext_start e) (ext_start e + i)); [|lia].
    destruct (Z.ltb_spec (ext_start e + i) (ext_start e + Z.of_nat (length (ext_data e)))); [done | lia].
Qed.

Lemma perm_at_some m q : q ∈ map fst m -> perm_at m q <> None.
Proof.
  induction m as [|[p v] m IH]; [set_solver|]. cbn. intros Hq. destruct (Z.eqb_spec p q); [done|].
  apply IH. set_solver.
Qed.

(** The three passes over extents that are well formed. *)
Lemma load_extents_spec es s s1 s2 s' : space_wf s -> Forall extent_ok es -> disjoint_extents es ->
  map_covered_pages es s = (Ok tt, s1) -> copy_extents es s1 = (Ok tt, s2) ->
  apply_merged_permissions es s2 = (Ok tt, s') ->
  exists D, (forall q, q ∈ D <-> q ∈ covered_pages es) /\ placed s' D /\
    (forall q access, q ∈ D -> grants (PageDescriptor_permissions (PageTable_get (table s') q)) access = image_grants es q access) /\
    (forall g, GuestVa_page g ∈ D -> ram_byte (physical s') (byte_at s' g) =
       match holder es g with Some e => data_at e g | None => ram_byte (physical s) (byte_at s' g) end) /\
    (forall q, q ∈ D -> available (allocator s) (frame s' q)) /\
    (forall q, q ∉ D -> PageTable_get (table s') q = PageTable_get (table s) q).
Proof.
  intros Hs Hok Hdis Hmap Hcopy Hperm.
  assert (forall q, q ∈ covered_pages es -> 0 <= q < GUEST_PAGE_COUNT) as Hrange.
  { intros q (e & He & Hq)%covered_pages_spec. rewrite Forall_forall in Hok. exact (extent_pages_in_range e q (Hok e He) Hq). }
  destruct (page_runs_flat (map (fun p => (p, tt)) (covered_pages es))) as [Hflat Hle].
  assert (map fst (map (fun p => (p, tt)) (covered_pages es)) = covered_pages es) as Hfst
    by (rewrite map_map; apply map_id).
  unfold map_covered_pages in Hmap.
  apply (map_runs_inv _ s s [] s1 (map_inv_start s Hs) Hle) in Hmap as (D & [Hwf1 Hp1 Hl1 Hpl1 Hperm1 Htaken _ Hother1] & HD).
  2:{ rewrite Hflat, Hfst. exact Hrange. }
  2:{ rewrite Hflat, Hfst, app_nil_r. apply increasing_NoDup, covered_pages_increasing. }
  rewrite Hflat, Hfst in HD.
  assert (forall q, q ∈ D <-> q ∈ covered_pages es) as HD' by (intros q; rewrite HD; set_solver). clear HD.
  destruct (copy_extents_spec es s1 D s2) as (Hs2 & Hsame & Hbytes); try done; [apply Hwf1 | |].
  { intros e q He Hq. apply HD', covered_pages_spec. eauto. }
  destruct (page_permissions_spec es) as [Hinc Hpp].
  destruct (page_runs_flat (page_permissions es)) as [Hflat2 Hle2].
  destruct (protect_runs_spec (page_runs (page_permissions es)) s2 s' Hle2) as (Hframes & Hal & Hperms).
  { rewrite Hflat2. intros q Hq. apply Hrange, covered_pages_spec.
    specialize (Hpp q). destruct (perm_at (page_permissions es) q) eqn:Hat; [apply Hpp|].
    exfalso. by apply (perm_at_some (page_permissions es) q). }
  { rewrite Hflat2. by apply increasing_NoDup. }
  { exact Hperm. }
  rewrite Hflat2 in Hperms. pose proof Hframes as (Hphys & Hl & Hfr).
  assert (forall q, frame s' q = frame s1 q) as Hf.
  { intros q. rewrite (proj1 (Hfr q)). unfold frame. by rewrite (proj2 Hsame). }
  assert (forall g, byte_at s' g = byte_at s1 g) as Hba by (intros g; unfold byte_at; by rewrite Hf).
  exists D. split_and!.
  - done.
  - apply (same_frames_placed s2); [done|]. by apply (same_map_placed s1).
  - intros q access Hq. specialize (Hperms q). destruct (perm_at (page_permissions es) q) as [v|] eqn:Hat.
    + rewrite Hperms, <- (page_permissions_grants es q v Hat). unfold grants. by rewrite Z.mod_mod by lia.
    + apply HD', covered_pages_spec in Hq as (e & He & Hqe). specialize (Hpp q). rewrite Hat in Hpp. by destruct (Hpp e He).
  - intros g Hg. rewrite Hphys, Hba, Hbytes by done. by rewrite Hp1.
  - intros q Hq. rewrite Hf. by apply Htaken.
  - intros q Hq. specialize (Hperms q). specialize (Hpp q). destruct (perm_at (page_permissions es) q) as [v|].
    + destruct Hpp as [Hcov _]. destruct Hq. by apply HD', covered_pages_spec.
    + rewrite Hperms, (proj2 Hsame). by apply Hother1.
Qed.

(** C9: Loading an image that parses puts the image in memory and changes no
    other mapping.  Every byte of every extent, the headers and the sections,
    has one place in RAM, in a frame that was free before the load; the place
    holds the file's byte, or past the file's data what the frame held, which
    is zero in RAM that was never written; an access to it is granted exactly
    when an extent that shares its page asks for it (read always, write and
    execute by the section's flags, minus the read-only head and tail pages),
    and refused as denied otherwise; no two guest bytes of the image share a
    place; and the page-table entry of every other page is what it was. *)
Theorem image_loads_exactly (s s' : SoftwareAddressSpace) (image : XbeImage) (bytes : list Z)
    (es : list ImageExtent) :
  space_wf s -> Forall u8 bytes -> file_len bytes < 2 ^ 64 ->
  XbeImage_parse bytes = Ok image -> image_extents image bytes = Ok es ->
  map_xbe image bytes s = (Ok tt, s') ->
  exists place : Z -> Z,
    (forall e i, e ∈ es -> 0 <= i < ext_virtual_size e ->
       let g := ext_start e + i in
       available (allocator s) (place g / GUEST_PAGE_SIZE) /\
       ram_byte (physical s') (place g) = default (ram_byte (physical s) (place g)) (ext_data e !! Z.to_nat i) /\
       forall access, translate (table s') (physical_len s') access g =
         if image_grants es (GuestVa_page g) access then Ok (place g) else Err (AccessDenied g access)) /\
    (forall e i e' i', e ∈ es -> e' ∈ es -> 0 <= i < ext_virtual_size e -> 0 <= i' < ext_virtual_size e' ->
       place (ext_start e + i) = place (ext_start e' + i') -> ext_start e + i = ext_start e' + i') /\
    (forall q, q ∉ covered_pages es -> PageTable_get (table s') q = PageTable_get (table s) q).
Proof.
  intros Hs Hb Hlen Hparse Hes Hrun.
  destruct (image_extents_ok image bytes es Hb Hlen Hparse Hes) as [Hok Hdis].
  unfold map_xbe in Hrun. apply lm_bind_ok in Hrun as (es' & s0 & [Hes' ->]%lm_lift_ok & Hrun).
  rewrite Hes in Hes'. injection Hes' as <-. destruct (bool_decide (es = [])) eqn:Hempty.
  { apply bool_decide_eq_true in Hempty as ->. injection Hrun as <-. exists id. split_and!; try done; set_solver. }
  apply lm_bind_ok in Hrun as ([] & s1 & Hmap & Hrun). apply lm_bind_ok in Hrun as ([] & s2 & Hcopy & Hperm).
  destruct (load_extents_spec es s s1 s2 s' Hs Hok Hdis Hmap Hcopy Hperm) as (D & HD & Hpl & Hgr & Hbytes & Hfree & Hother).
  rewrite Forall_forall in Hok.
  assert (forall e i, e ∈ es -> 0 <= i < ext_virtual_size e -> GuestVa_page (ext_start e + i) ∈ D) as Hin.
  { intros e i He Hi. apply HD, covered_pages_spec. exists e. split; [done|].
    apply extent_page_of; [by apply Hok|]. unfold extent_end. lia. }
  exists (byte_at s'). split; [|split].
  - intros e i He Hi. cbn zeta. specialize (Hin e i He Hi). split; [|split].
    + rewrite byte_at_frame. by apply Hfree.
    + rewrite (Hbytes _ Hin). apply image_byte; [by apply Forall_forall | done..].
    + intros access. rewrite (placed_translate s' D (fun q => PageDescriptor_permissions (PageTable_get (table s') q)));
        [by rewrite Hgr | done | apply perm_of_own | done].
  - intros e i e' i' He He' Hi Hi'. apply (byte_at_inj s' D); auto.
  - intros q Hq. apply Hother. by rewrite HD.
Qed.

(** ** A concrete load *)

(** Memory as [load_xbe] prepares it: the low pages taken, the window mapped. *)
Definition demo_memory : SoftwareAddressSpace :=
  match SoftwareAddressSpace_new true 0x40000 with
  | Ok s => (map_physical_window (allocate_physical s 0x11000).2).2
  | Err _ => mkSpace ∅ 0 PageTable_new (PhysicalAllocator_new 0) 0
  end.

Lemma demo_memory_wf : space_wf demo_memory /\ physical demo_memory = ∅.
Proof.
  assert (physical demo_memory = ∅ /\ physical_len demo_memory = 0x40000 /\
          allocator demo_memory = mkPhysicalAllocator 17 64 []) as (Hp & Hl & Ha) by (vm_compute; done).
  split; [|exact Hp]. unfold space_wf, ram_ok, alloc_wf. rewrite Hp, Hl, Ha. cbn. split_and!; try done || lia.
Qed.

Definition demo_extents : list ImageExtent :=
  match image_extents synthetic_image synthetic_xbe with Ok es => es | Err _ => [] end.
Definition demo_loaded : SoftwareAddressSpace := (map_xbe synthetic_image synthetic_xbe demo_memory).2.

Lemma image_loads_exactly_witness : exists place,
  ram_byte (physical demo_loaded) (place 0x10000) = 0x58 /\
  ram_byte (physical demo_loaded) (place 0x11001) = 0xC3 /\
  translate (table demo_loaded) (physical_len demo_loaded) Execute 0x11001 = Ok (place 0x11001) /\
  translate (table demo_loaded) (physical_len demo_loaded) Write 0x11001 = Err (AccessDenied 0x11001 Write).
Proof.
  destruct (image_loads_exactly demo_memory demo_loaded synthetic_image synthetic_xbe demo_extents
    (proj1 demo_memory_wf) synthetic_xbe_u8 ltac:(vm_compute; reflexivity)
    ltac:(vm_compute; reflexivity) ltac:(vm_compute; reflexivity)
    ltac:(rewrite (surjective_pairing (map_xbe _ _ _)); f_equal; vm_compute; reflexivity)) as (place & Hbytes & _).
  exists place.
  assert (exists e e', demo_extents = [e; e'] /\ ext_start e = 0x10000 /\ ext_virtual_size e = 0x280 /\
    ext_start e' = 0x11000 /\ ext_virtual_size e' = 2 /\ ext_data e !! 0%nat = Some 0x58 /\ ext_data e' !! 1%nat = Some 0xC3)
    as (e & e' & Hes & Hs & Hv & Hs' & Hv' & Hb & Hb')
    by (eexists _, _; split; [vm_compute; reflexivity | vm_compute; done]).
  assert (e ∈ demo_extents /\ e' ∈ demo_extents) as [He He'].
  { rewrite Hes. split; apply list_elem_of_lookup; [by exists 0%nat | by exists 1%nat]. }
  assert (0 <= 0 < ext_virtual_size e /\ 0 <= 1 < ext_virtual_size e') as [Hr Hr'] by (clear -Hv Hv'; lia).
  destruct (Hbytes e 0 He Hr) as (_ & H0 & _). destruct (Hbytes e' 1 He' Hr') as (_ & H1 & Ht). cbn zeta in H0, H1, Ht.
  rewrite Hs in H0. rewrite Hs' in H1, Ht. change (0x11000 + 1) with 0x11001 in *. change (0x10000 + 0) with 0x10000 in *.
  change (Z.to_nat 0) with 0%nat in H0. change (Z.to_nat 1) with 1%nat in H1. rewrite Hb in H0. rewrite Hb' in H1.
  split; [exact H0|]. split; [exact H1|].
  split; [rewrite Ht | rewrite Ht]; vm_compute; reflexivity.
Defined.
