(* ===== verification/ImportTheorems.v ===== *)
(** * Imports of a loaded image

    The import table a title carries is read until its terminator, and every
    slot is replaced by the address of its kernel variable or of its dispatch
    gate, on pages the title itself may not write. *)

From stdpp Require Import strings.
From S2P Require Import Prelude GuestTypes PageTable Allocator GuestMemory SoftwareSpace SoftwareSpaceProofs SpaceTheorems MappingTheorems Xbe CoreTypes KernelCalls DispatchTheorems ImageLoader LoaderTheorems.

(** ** One page at a time *)

Definition page_range (q : Z) : GuestRange := mkGuestRange (q * 4096) 4096.

Lemma page_range_spec q : 0 <= q < GUEST_PAGE_COUNT ->
  GuestRange_page_aligned (GuestPage_start_va q) GUEST_PAGE_SIZE = Ok (page_range q) /\
  range_wf (page_range q) /\ range_aligned (page_range q) /\ GuestRange_pages (page_range q) = [q].
Proof.
  intros Hq. rewrite (start_va_mul q Hq), page_size_val. rewrite page_count_val in Hq.
  assert (range_wf (page_range q)) as Hwf
    by (unfold range_wf, page_range, GuestRange_end_exclusive, is_u; cbn [range_start range_len]; lia).
  assert (range_aligned (page_range q)) as Hal.
  { unfold range_aligned, page_range. cbn [range_start range_len]. rewrite page_size_val. split; [apply Z.mod_mul; lia | done]. }
  split_and!; try done.
  - unfold GuestRange_page_aligned.
    rewrite (proj2 (range_new_ok_iff (q * 4096) 4096 ltac:(unfold is_u; lia) ltac:(unfold is_u; lia) (page_range q)))
      by (split_and!; [lia | lia | done]).
    cbn [mbind result_bind]. by rewrite (proj2 (alignment_ok_iff _) Hal).
  - rewrite pages_seqZ by done. destruct (aligned_count _ Hwf Hal) as [Hc Hs].
    unfold page_range in *. cbn [range_start range_len] in *.
    replace (GuestRange_page_count _) with 1 by lia. by replace (GuestVa_page (q * 4096)) with q by lia.
Qed.

Definition pages_below (D : list Z) : Prop := forall q, q ∈ D -> 0 <= q < GUEST_PAGE_COUNT.

Lemma protect_page s D q v : placed s D -> pages_below D -> q ∈ D ->
  exists s1, space_protect s (page_range q) v = (Ok tt, s1) /\ same_frames s s1 /\ allocator s1 = allocator s /\
    perm_of s1 q = v mod 8 /\ forall q', q' <> q -> perm_of s1 q' = perm_of s q'.
Proof.
  intros Hpl Hbelow Hq. destruct (page_range_spec q (Hbelow q Hq)) as (_ & Hwf & Hal & Hpages).
  destruct (protect_spec (table s) (page_range q) v Hwf) as (res & t & Hrun & Hiff & _).
  assert (res = Ok tt) as ->.
  { apply Hiff. split; [done|]. rewrite Hpages. apply Forall_singleton. by apply (placed_ram s D Hpl). }
  eexists. assert (space_protect s (page_range q) v = (Ok tt, bump_mapping_epoch (with_table s t))) as Hp
    by (unfold space_protect; by rewrite Hrun). split; [exact Hp|].
  destruct (protect_step s _ v _ Hwf Hp) as (Hf & Hal' & Hin & Hout). rewrite Hpages in Hin, Hout.
  split_and!; [done | done | apply Hin; set_solver |]. intros q' Hne. unfold perm_of. rewrite Hout; [done|set_solver].
Qed.

Lemma open_pages_spec pages s D : placed s D -> pages_below D -> NoDup pages -> (forall q, q ∈ pages -> q ∈ D) ->
  exists s1, open_pages pages s = (Ok (map (fun q => (page_range q, perm_of s q)) pages), s1) /\
    same_frames s s1 /\ allocator s1 = allocator s /\
    (forall q, q ∈ pages -> perm_of s1 q = Z.lor (perm_of s q) PERM_WRITE mod 8) /\
    (forall q, q ∉ pages -> perm_of s1 q = perm_of s q).
Proof.
  revert s. induction pages as [|q pages IH]; intros s Hpl Hbelow Hnd Hin.
  { exists s. split_and!; try done. set_solver. }
  apply NoDup_cons in Hnd as [Hq Hnd]. assert (q ∈ D) as HqD by set_solver.
  destruct (protect_page s D q (Z.lor (perm_of s q) PERM_WRITE) Hpl Hbelow HqD) as (s1 & Hp & Hf1 & Ha1 & Hq1 & Ho1).
  destruct (IH s1) as (s2 & Hrun & Hf2 & Ha2 & Hin2 & Hout2);
    [by apply (same_frames_placed s) | done | done | set_solver |].
  exists s2. split.
  - cbn [open_pages]. unfold mbind, LM_bind, lm_gets, lm_lift, lm_memory. fold (perm_of s q).
    destruct (page_range_spec q (Hbelow q HqD)) as (-> & _). cbn [lift_address map_err lift_memory].
    rewrite Hp, Hrun. unfold lift_memory, map_err, mret, LM_ret. cbn [map]. do 3 f_equal.
    apply map_ext_in. intros q' Hq'%list_elem_of_In. rewrite Ho1; [done|]. by intros ->.
  - split; [by etrans|]. split; [congruence|]. split.
    + intros q' [->|Hq']%elem_of_cons; [by rewrite Hout2|]. rewrite Hin2 by done. by rewrite Ho1 by (intros ->; done).
    + intros q' Hq'. rewrite Hout2, Ho1 by set_solver. done.
Qed.

Lemma close_pages_spec pages (f : Z -> Z) s D : placed s D -> pages_below D -> NoDup pages ->
  (forall q, q ∈ pages -> q ∈ D) ->
  exists s1, lm_for (map (fun q => (page_range q, f q)) pages)
      (fun p => lm_memory (fun s => space_protect s p.1 p.2)) s = (Ok tt, s1) /\
    same_frames s s1 /\ allocator s1 = allocator s /\
    (forall q, q ∈ pages -> perm_of s1 q = f q mod 8) /\ (forall q, q ∉ pages -> perm_of s1 q = perm_of s q).
Proof.
  revert s. induction pages as [|q pages IH]; intros s Hpl Hbelow Hnd Hin.
  { exists s. split_and!; try done. set_solver. }
  apply NoDup_cons in Hnd as [Hq Hnd]. assert (q ∈ D) as HqD by set_solver.
  destruct (protect_page s D q (f q) Hpl Hbelow HqD) as (s1 & Hp & Hf1 & Ha1 & Hq1 & Ho1).
  destruct (IH s1) as (s2 & Hrun & Hf2 & Ha2 & Hin2 & Hout2);
    [by apply (same_frames_placed s) | done | done | set_solver |].
  exists s2. split.
  - cbn [map lm_for]. unfold mbind, LM_bind, lm_memory at 1. cbn [fst snd]. rewrite Hp. exact Hrun.
  - split; [by etrans|]. split; [congruence|]. split.
    + intros q' [->|Hq']%elem_of_cons; [by rewrite Hout2 | by apply Hin2].
    + intros q' Hq'. rewrite Hout2, Ho1 by set_solver. done.
Qed.

(** ** One slot *)

Definition in_slot (slot g : Z) : bool := (slot <=? g) && (g <? slot + 4).
Definition slot_placed (D : list Z) (slot : Z) : Prop :=
  0 <= slot /\ slot + 4 <= 2 ^ 32 /\ forall g, slot <= g < slot + 4 -> GuestVa_page g ∈ D.

(** Patching keeps every page what it was, and every other byte. *)
Definition patched (s s' : SoftwareAddressSpace) (D : list Z) (f : Z -> option Z) : Prop :=
  ram_ok s' /\ physical_len s' = physical_len s /\ placed s' D /\ allocator s' = allocator s /\
  (forall q, frame s' q = frame s q /\ perm_of s' q = perm_of s q) /\
  forall g, GuestVa_page g ∈ D -> ram_byte (physical s') (byte_at s g) = default (ram_byte (physical s) (byte_at s g)) (f g).

Definition slot_bytes (slot v g : Z) : option Z :=
  if in_slot slot g then Some (nth (Z.to_nat (g - slot)) (to_le_bytes 4 v) 0) else None.

Lemma lor_write_grants v : grants (Z.lor v PERM_WRITE mod 8) Write = true.
Proof.
  pose proof (grants_temporary v) as Hg. unfold grants in *. by rewrite Z.mod_mod by lia.
Qed.

Lemma frames_same_byte s s1 g : same_frames s s1 -> byte_at s1 g = byte_at s g.
Proof. intros (_ & _ & Hf). unfold byte_at. by rewrite (proj1 (Hf _)). Qed.

Lemma patch_thunk_spec vars t s D : ram_ok s -> placed s D -> pages_below D -> slot_placed D (thunk_slot t) ->
  exists s', patch_thunk vars t s = (Ok tt, s') /\
    patched s s' D (slot_bytes (thunk_slot t) (thunk_target vars (thunk_ordinal t))).
Proof.
  intros Hs Hpl Hbelow (Hs0 & Hs4 & Hin). set (slot := thunk_slot t) in *. set (v := thunk_target vars (thunk_ordinal t)).
  assert (u32 slot) as Hu by (unfold is_u; lia).
  set (span := mkGuestRange slot 4).
  assert (GuestRange_new slot 4 = Ok span) as Hspan.
  { apply range_new_ok_iff; [done | unfold is_u; lia |]. split_and!; [lia | lia | done]. }
  assert (range_wf span) as Hwf
    by (unfold range_wf, span, GuestRange_end_exclusive; cbn [range_start range_len]; split_and!; [done | lia | lia]).
  assert (forall q, q ∈ GuestRange_pages span -> q ∈ D) as Hpages.
  { intros q (g & Hg & <-)%pages_elem; [|done]. apply Hin.
    unfold GuestRange_contains, GuestRange_end_exclusive, span in Hg. cbn [range_start range_len] in Hg. bool_to_prop. lia. }
  pose proof (range_pages_NoDup span Hwf) as Hnd.
  destruct (open_pages_spec _ s D Hpl Hbelow Hnd Hpages) as (s1 & Hopen & Hf1 & Ha1 & Hw1 & Ho1).
  pose proof (same_frames_placed s s1 D Hf1 Hpl) as Hpl1.
  assert (ram_ok s1) as Hs1 by (destruct Hf1 as (Hph & Hl & _), Hs as [? ?]; split; by rewrite ?Hph, ?Hl).
  destruct (placed_write s1 D slot (to_le_bytes 4 v)) as (s2 & Hw & Hs2 & Hsame & Ha2 & Hb); try done.
  { apply to_le_bytes_u8. }
  { rewrite length_to_le_bytes. split_and!; [done | done |]. intros g Hg. split; [by apply Hin|].
    rewrite Hw1; [apply lor_write_grants|]. apply pages_elem; [done|]. exists g. split; [|done].
    unfold GuestRange_contains, GuestRange_end_exclusive, span. cbn [range_start range_len].
    destruct (Z.leb_spec slot g), (Z.ltb_spec g (slot + 4)); try done; lia. }
  pose proof (same_map_placed s1 s2 D Hsame Hpl1) as Hpl2.
  destruct (close_pages_spec _ (perm_of s) s2 D Hpl2 Hbelow Hnd Hpages) as (s3 & Hclose & Hf3 & Ha3 & Hin3 & Hout3).
  exists s3. split.
  - unfold patch_thunk. fold slot. unfold mbind at 1, LM_bind at 1, lm_lift at 1. rewrite Hspan. cbn [lift_address map_err lift_memory].
    unfold mbind at 1, LM_bind at 1. rewrite Hopen. unfold mbind, LM_bind, lm_memory at 1, mem_write_u32.
    fold v. rewrite Hw. cbn [map_err lift_memory]. exact Hclose.
  - destruct Hf3 as (Hph3 & Hl3 & Hfr3). destruct Hsame as [Hl2 Hg2].
    pose proof Hf1 as (Hph1 & Hl1 & Hfr1). split_and!.
    + destruct Hs2 as [? ?]. split; by rewrite ?Hph3, ?Hl3.
    + congruence.
    + apply (same_frames_placed s2); [by split_and! | done].
    + congruence.
    + intros q. rewrite (proj1 (Hfr3 q)). assert (frame s2 q = frame s1 q) as -> by (unfold frame; by rewrite Hg2).
      split; [apply Hfr1|]. destruct (decide (q ∈ GuestRange_pages span)) as [Hq|Hq].
      * rewrite Hin3 by done. apply Z.mod_small, permissions_range.
      * rewrite Hout3 by done. unfold perm_of at 1. rewrite Hg2. by apply Ho1.
    + intros g Hg. rewrite Hph3, <- (frames_same_byte s s1 g Hf1), Hb, Hph1 by done.
      rewrite length_to_le_bytes. unfold slot_bytes, in_slot. change (Z.of_nat 4) with 4.
      by destruct ((slot <=? g) && (g <? slot + 4)).
Qed.

(** ** Every slot *)

Definition slots_apart (l : list KernelThunk) : Prop :=
  forall i j t t', i <> j -> l !! i = Some t -> l !! j = Some t' ->
    thunk_slot t + 4 <= thunk_slot t' \/ thunk_slot t' + 4 <= thunk_slot t.

(** The byte the patched table has at [g]. *)
Definition table_bytes (vars : gmap Z GuestVa) (l : list KernelThunk) (g : Z) : option Z :=
  match find (fun t => in_slot (thunk_slot t) g) l with
  | Some t => slot_bytes (thunk_slot t) (thunk_target vars (thunk_ordinal t)) g
  | None => None
  end.

Lemma slots_apart_tail t l : slots_apart (t :: l) -> slots_apart l.
Proof. intros Hap i j a b Hij Ha Hb. apply (Hap (S i) (S j)); [lia | done | done]. Qed.

Lemma table_bytes_head vars t l g : slots_apart (t :: l) -> in_slot (thunk_slot t) g = true -> table_bytes vars l g = None.
Proof.
  intros Hap Ht. unfold table_bytes. destruct (find _ l) as [t'|] eqn:Hf; [|done]. exfalso.
  apply find_some in Hf as [Hin Hg]. apply list_elem_of_In, list_elem_of_lookup in Hin as [j Hj].
  pose proof (Hap 0%nat (S j) t t' ltac:(lia) eq_refl Hj). unfold in_slot in *. bool_to_prop. lia.
Qed.

Lemma patched_trans s s1 s2 D f g h : patched s s1 D f -> patched s1 s2 D g ->
  (forall x, h x = match g x with Some b => Some b | None => f x end) -> patched s s2 D h.
Proof.
  intros (? & ? & ? & Ha1 & Hp1 & Hb1) (? & ? & ? & Ha2 & Hp2 & Hb2) Hh.
  assert (forall x, byte_at s1 x = byte_at s x) as Hb by (intros x; unfold byte_at; by rewrite (proj1 (Hp1 _))).
  split_and!; try done; [congruence | congruence | |].
  - intros q. destruct (Hp1 q), (Hp2 q). split; congruence.
  - intros x Hx. rewrite <- Hb, Hb2, Hb, Hb1, Hh by done. by destruct (g x).
Qed.

Lemma patch_table_spec vars l s D : ram_ok s -> placed s D -> pages_below D ->
  Forall (fun t => slot_placed D (thunk_slot t)) l -> slots_apart l ->
  exists s', patch_kernel_thunks l vars s = (Ok tt, s') /\ patched s s' D (table_bytes vars l).
Proof.
  revert s. induction l as [|t l IH]; intros s Hs Hpl Hbelow Hin Hap.
  { exists s. split; [done|]. by split_and!. }
  apply Forall_cons in Hin as [Ht Hin].
  destruct (patch_thunk_spec vars t s D Hs Hpl Hbelow Ht) as (s1 & Hrun1 & Hp1).
  pose proof Hp1 as (Hs1 & _ & Hpl1 & _).
  destruct (IH s1 Hs1 Hpl1 Hbelow Hin (slots_apart_tail t l Hap)) as (s2 & Hrun2 & Hp2).
  exists s2. split.
  - unfold patch_kernel_thunks in *. cbn [lm_for]. unfold mbind, LM_bind. rewrite Hrun1. exact Hrun2.
  - eapply patched_trans; [exact Hp1 | exact Hp2 |]. intros g. unfold table_bytes at 1. cbn [find].
    destruct (in_slot (thunk_slot t) g) eqn:Hg.
    + rewrite (table_bytes_head vars t l g Hap Hg). unfold slot_bytes. by rewrite Hg.
    + fold (table_bytes vars l g). unfold slot_bytes at 1. rewrite Hg. by destruct (table_bytes vars l g).
Qed.

(** ** Reading the table *)

(** Entry [i] of a table at [start] came from a word of the ordinal form. *)
Lemma read_thunks_spec {M} `{GuestMemory M} (mem : M) limit start entries : u32 start ->
  read_thunks mem start limit = Ok (Some entries) ->
  start + 4 * Z.of_nat (length entries) < 2 ^ 32 /\ (length entries < limit)%nat /\
  mem_read_u32 mem (start + 4 * Z.of_nat (length entries)) = Ok 0 /\
  forall i t, entries !! i = Some t -> thunk_slot t = start + 4 * Z.of_nat i /\
    exists v, mem_read_u32 mem (thunk_slot t) = Ok v /\ thunk_ordinal t = wrap16 v /\
      has_bits v ORDINAL_BIT = true /\ has_bits v 0x7FFF0000 = false.
Proof.
  revert start entries. induction limit as [|limit IH]; intros start entries Hu Hrun; [done|].
  cbn [read_thunks] in Hrun. apply bind_ok_inv in Hrun as (v & Hv & Hrun).
  unfold lift_memory in Hv. rewrite map_err_ok in Hv.
  destruct (Z.eqb_spec v 0) as [->|Hnz].
  { injection Hrun as <-. cbn. rewrite Z.add_0_r. unfold is_u in Hu. split_and!; [lia | lia | done |]. intros i t. by rewrite lookup_nil. }
  destruct (negb (has_bits v ORDINAL_BIT) || has_bits v 0x7FFF0000) eqn:Hform; [done|].
  apply orb_false_iff in Hform as [Hbit%negb_false_iff Hhigh].
  apply bind_ok_inv in Hrun as (next & Hnext%ok_or_ok & Hrun).
  unfold GuestVa_checked_add, checked_add in Hnext. destruct (Z.ltb_spec (start + 4) (2 ^ 32)); [|done]. injection Hnext as <-.
  apply bind_ok_inv in Hrun as (rest & Hrest & [= Hent]). destruct rest as [rest|]; [|done]. injection Hent as <-.
  destruct (IH (start + 4) rest) as (Hend & Hlen & Hzero & Hall); [unfold is_u in *; lia | done |].
  cbn [length]. replace (start + 4 * Z.of_nat (S (length rest))) with (start + 4 + 4 * Z.of_nat (length rest)) by lia.
  split_and!; [lia | lia | done |]. intros [|i] t; cbn.
  - intros [= <-]. cbn [thunk_slot thunk_ordinal]. split; [lia|]. eauto.
  - intros Ht. destruct (Hall i t Ht) as [Hslot Hv']. split; [lia | done].
Qed.

Lemma thunk_table_ok {M} `{GuestMemory M} (mem : M) start limit entries :
  KernelThunkTable_read mem start limit = Ok entries -> read_thunks mem start limit = Ok (Some entries).
Proof.
  unfold KernelThunkTable_read. destruct (limit =? 0)%nat; [done|]. intros Hrun.
  apply bind_ok_inv in Hrun as (found & -> & Hfound). destruct found; [by injection Hfound as -> | done].
Qed.

(** A word that could be read lies on pages that grant reading. *)
Lemma read_grants s D a v : ram_ok s -> placed s D -> slot_placed D a -> mem_read_u32 s a = Ok v ->
  reachable s D Read a 4.
Proof.
  intros Hs Hpl (Ha & Hend & Hin) Hr. split_and!; [done | done |]. intros g Hg. split; [by apply Hin|].
  unfold mem_read_u32 in Hr. apply bind_ok_inv in Hr as (bs & Hr & _).
  cbn [mem_read SoftwareAddressSpace_GuestMemory] in Hr. unfold space_read in Hr.
  rewrite access_read_spec in Hr by (done || unfold is_u; lia).
  unfold access_offsets in Hr. rewrite decide_False, decide_True in Hr by lia.
  destruct (translate_all _ _ Read a 4) as [os|] eqn:Hos; [|done].
  destruct (lookup_lt_is_Some_2 os (Z.to_nat (g - a))) as [o Ho]; [rewrite (length_translate_all _ _ _ _ _ _ Hos); lia|].
  pose proof (translate_all_lookup _ _ _ _ _ _ _ _ Hos Ho) as Ht.
  replace (a + Z.of_nat (Z.to_nat (g - a))) with g in Ht by lia.
  rewrite (placed_translate s D _ Read g Hpl (perm_of_own s D) (Hin g Hg)) in Ht. by case_match.
Qed.

Lemma patched_read vars l s s' D t : patched s s' D (table_bytes vars l) -> slots_apart l -> t ∈ l ->
  slot_placed D (thunk_slot t) -> reachable s D Read (thunk_slot t) 4 ->
  u32 (thunk_target vars (thunk_ordinal t)) ->
  mem_read_u32 s' (thunk_slot t) = Ok (thunk_target vars (thunk_ordinal t)).
Proof.
  intros (Hs' & _ & Hpl' & _ & Hsame & Hb) Hap Ht (Ha & Hend & Hin) (_ & _ & Hgr) Hu.
  set (a := thunk_slot t) in *. set (v := thunk_target vars (thunk_ordinal t)) in *.
  unfold mem_read_u32. rewrite (placed_read s' D a 4 Hs' Hpl').
  - cbn [mbind result_bind]. f_equal.
    replace (map _ (seqZ a (Z.of_nat 4))) with (to_le_bytes 4 v);
      [rewrite from_to_le_bytes; apply Z.mod_small; exact Hu|].
    apply list_eq. intros i. rewrite list_lookup_fmap. destruct (decide (i < 4)%nat) as [Hi|Hi].
    + rewrite lookup_seqZ_lt by lia. cbn [fmap option_fmap option_map].
      assert (byte_at s' (a + Z.of_nat i) = byte_at s (a + Z.of_nat i)) as ->
        by (unfold byte_at; by rewrite (proj1 (Hsame _))).
      rewrite Hb by (apply Hin; lia).
      assert (table_bytes vars l (a + Z.of_nat i) = slot_bytes a v (a + Z.of_nat i)) as ->.
      { unfold table_bytes. destruct (find _ l) as [t'|] eqn:Hf.
        - apply find_some in Hf as [Ht' Hg]. apply list_elem_of_In in Ht'.
          apply list_elem_of_lookup in Ht as [j Hj], Ht' as [j' Hj']. destruct (decide (j = j')) as [<-|Hne].
          + rewrite Hj in Hj'. injection Hj' as <-. done.
          + pose proof (Hap j j' t t' Hne Hj Hj'). unfold in_slot in Hg. bool_to_prop. lia.
        - pose proof (find_none _ _ Hf t (proj1 (list_elem_of_In _ _) Ht)) as Hno. unfold in_slot in Hno. cbn beta in Hno.
          fold a in Hno. destruct (Z.leb_spec a (a + Z.of_nat i)), (Z.ltb_spec (a + Z.of_nat i) (a + 4)); try done; lia. }
      unfold slot_bytes, in_slot. rewrite (proj2 (Z.leb_le _ _)), (proj2 (Z.ltb_lt _ _)) by lia. cbn [andb default].
      replace (Z.to_nat (a + Z.of_nat i - a)) with i by lia.
      destruct (lookup_lt_is_Some_2 (to_le_bytes 4 v) i) as [b Hib]; [by rewrite length_to_le_bytes|].
      by rewrite nth_lookup, Hib.
    + rewrite lookup_seqZ_ge by lia. apply lookup_ge_None. rewrite length_to_le_bytes. lia.
  - split_and!; [done | done |]. intros g Hg. rewrite (proj2 (Hsame _)). apply Hgr. lia.
  - unfold is_u. lia.
Qed.

Lemma gate_address_u32 o : u16 o -> u32 (gate_address o).
Proof. intros Ho. rewrite gate_address_value by done. unfold is_u, KERNEL_GATE_BASE in *. lia. Qed.

(** C16: An import table on placed pages that reads at all is patched without
    fail, also where its pages are read-only.  Afterwards every slot, the
    words from the table's start to its terminator, holds its kernel variable
    or the gate of its ordinal, so that a call through it dispatches the
    export the title imported; page permissions are back to what they were,
    and no other byte of the image changed. *)
Theorem imports_resolve (s : SoftwareAddressSpace) (D : list Z) (start : GuestVa) (limit : nat)
    (entries : list KernelThunk) (vars : gmap Z GuestVa) :
  ram_ok s -> placed s D -> pages_below D -> u32 start -> map_Forall (fun _ a => u32 a) vars ->
  KernelThunkTable_read s start limit = Ok entries ->
  (forall g, start <= g < start + 4 * Z.of_nat (length entries) -> GuestVa_page g ∈ D) ->
  exists s', patch_kernel_thunks entries vars s = (Ok tt, s') /\
    (forall i t, entries !! i = Some t ->
       thunk_slot t = start + 4 * Z.of_nat i /\
       match vars !! thunk_ordinal t with
       | Some cell => mem_read_u32 s' (thunk_slot t) = Ok cell
       | None => exists target, mem_read_u32 s' (thunk_slot t) = Ok target /\
                   gate_ordinal target = Some (thunk_ordinal t)
       end) /\
    (forall q, q ∈ D -> perm_of s' q = perm_of s q /\ frame s' q = frame s q) /\
    (forall g, GuestVa_page g ∈ D -> ~ (start <= g < start + 4 * Z.of_nat (length entries)) ->
       ram_byte (physical s') (byte_at s g) = ram_byte (physical s) (byte_at s g)).
Proof.
  intros Hs Hpl Hbelow Hu Hvars Hread%thunk_table_ok Hin.
  destruct (read_thunks_spec s limit start entries Hu Hread) as (Hend & _ & _ & Hall). unfold is_u in Hu.
  assert (forall i t, entries !! i = Some t -> slot_placed D (thunk_slot t)) as Hslots.
  { intros i t Ht. destruct (Hall i t Ht) as [-> _]. apply lookup_lt_Some in Ht. split_and!; [lia | lia |].
    intros g Hg. apply Hin. lia. }
  assert (slots_apart entries) as Hap.
  { intros i j t t' Hij Ht Ht'. destruct (Hall i t Ht) as [-> _], (Hall j t' Ht') as [-> _]. lia. }
  destruct (patch_table_spec vars entries s D Hs Hpl Hbelow) as (s' & Hrun & Hp); [|done|].
  { apply Forall_forall. intros t [i Ht]%list_elem_of_lookup. by apply (Hslots i). }
  exists s'. split; [done|]. split; [|split].
  - intros i t Ht. destruct (Hall i t Ht) as [Hslot (v & Hv & Hord & _)]. split; [done|].
    assert (u16 (thunk_ordinal t)) as Ho by (rewrite Hord; apply wrap_range; lia).
    pose proof (read_grants s D _ v Hs Hpl (Hslots i t Ht) Hv) as Hgr.
    assert (u32 (thunk_target vars (thunk_ordinal t)) ->
      mem_read_u32 s' (thunk_slot t) = Ok (thunk_target vars (thunk_ordinal t))) as Hback.
    { intros Hu'. apply (patched_read vars entries s s' D t); try done; [by eapply list_elem_of_lookup_2 | by apply (Hslots i)]. }
    unfold thunk_target in Hback. destruct (vars !! thunk_ordinal t) as [cell|] eqn:Hcell.
    + apply Hback. by apply (map_Forall_lookup_1 _ _ _ _ Hvars Hcell).
    + exists (gate_address (thunk_ordinal t)). split; [by apply Hback, gate_address_u32 | by apply gate_ordinal_address].
  - intros q _. destruct Hp as (_ & _ & _ & _ & Hsame & _). destruct (Hsame q). done.
  - intros g Hg Hout. destruct Hp as (_ & _ & _ & _ & _ & Hb). rewrite (Hb g Hg).
    unfold table_bytes. destruct (find _ entries) as [t|] eqn:Hf; [|done]. exfalso. apply Hout.
    apply find_some in Hf as [Ht Hg']. apply list_elem_of_In, list_elem_of_lookup in Ht as [i Ht].
    destruct (Hall i t Ht) as [Hslot _]. apply lookup_lt_Some in Ht. unfold in_slot in Hg'. bool_to_prop. lia.
Qed.

(** ** A table of two imports *)

Definition demo_page : SoftwareAddressSpace := (map_anonymous demo_memory (mkGuestRange 0x11000 0x1000) (Z.lor PERM_READ PERM_WRITE)).2.
Definition demo_import_words : list Z := to_le_bytes 4 0x80000004 ++ to_le_bytes 4 0x8000009C ++ to_le_bytes 4 0.
Definition demo_table : SoftwareAddressSpace := (mem_write demo_page 0x11200 demo_import_words).2.
Definition demo_thunks : list KernelThunk := [mkKernelThunk 0x11200 4; mkKernelThunk 0x11204 0x9C].

Lemma demo_table_placed : ram_ok demo_table /\ placed demo_table [0x11].
Proof.
  set (r := mkGuestRange 0x11000 0x1000).
  assert (range_wf r) as Hr by (vm_compute; split_and!; done).
  assert (GuestRange_pages r = [0x11]) as Hpages by (vm_compute; done).
  destruct (map_anonymous demo_memory r (Z.lor PERM_READ PERM_WRITE)) as [res s1] eqn:Hrun.
  assert (res = Ok 0x11000) as ->
    by (change res with (res, s1).1; rewrite <- Hrun; vm_compute; done).
  pose proof (map_run_step demo_memory demo_memory [] r 0x11000 s1 (map_inv_start _ (proj1 demo_memory_wf)) Hr
    (fun q _ => not_elem_of_nil q) Hrun) as [Hwf _ _ Hpl Hperm _ _ _]. rewrite Hpages in Hpl, Hperm. cbn [app] in Hpl, Hperm.
  assert (demo_page = s1) as Hpage by (unfold demo_page; fold r; by rewrite Hrun).
  destruct (placed_write s1 [0x11] 0x11200 demo_import_words) as (s2 & Hw & Hs2 & Hsame & _);
    [exact (proj1 Hwf) | exact Hpl | unfold demo_import_words; apply Forall_app; split;
       [|apply Forall_app; split]; apply to_le_bytes_u8 | unfold is_u; lia | |].
  - change (Z.of_nat (length demo_import_words)) with 12. split_and!; [lia | lia |]. intros g Hg.
    assert (GuestVa_page g = 0x11) as -> by (clear -Hg; rewrite va_page_div; dlia).
    assert (0x11 ∈ [0x11]) as Hin by by apply list_elem_of_singleton.
    split; [exact Hin|]. unfold perm_of. rewrite (Hperm 0x11 Hin). reflexivity.
  - unfold demo_table. rewrite Hpage, Hw. cbn [snd]. split; [exact Hs2 | exact (same_map_placed s1 s2 _ Hsame Hpl)].
Qed.

Lemma imports_resolve_witness : exists s' target,
  patch_kernel_thunks demo_thunks {[0x9C := 0x80020000]} demo_table = (Ok tt, s') /\
  mem_read_u32 s' 0x11200 = Ok target /\ gate_ordinal target = Some 4 /\ mem_read_u32 s' 0x11204 = Ok 0x80020000.
Proof.
  destruct (imports_resolve demo_table [0x11] 0x11200 4 demo_thunks {[0x9C := 0x80020000]}
    (proj1 demo_table_placed) (proj2 demo_table_placed)) as (s' & Hrun & Hslots & _).
  - intros q Hq%list_elem_of_singleton. subst q. vm_compute. split; congruence.
  - vm_compute. split; congruence.
  - apply map_Forall_singleton. vm_compute. split; congruence.
  - vm_compute. reflexivity.
  - intros g Hg. change (Z.of_nat (length demo_thunks)) with 2 in Hg. apply list_elem_of_singleton. rewrite va_page_div. dlia.
  - destruct (Hslots 0%nat (mkKernelThunk 0x11200 4) eq_refl) as [_ H0].
    destruct (Hslots 1%nat (mkKernelThunk 0x11204 0x9C) eq_refl) as [_ H1].
    destruct H0 as (target & Ht & Hg). exists s', target. exact (conj Hrun (conj Ht (conj Hg H1))).
Defined.
