(* ===== verification/SourceMap.v ===== *)
(** * Source maps of translated blocks

    Models [exbawks-debug/src/source_map.rs]: the sorted, validated metadata
    of one sealed block, and the searches that map a host offset back to the
    guest instruction that produced it. *)

From stdpp Require Import sorting.
From S2P Require Import Prelude Slices GuestTypes CoreTypes.

Record SourceRange : Type := mkSourceRange {
  host_start : Z;
  host_end : Z;
  range_guest_ip : GuestVa;
  guest_len : Z;
}.

Record FaultSite : Type := mkFaultSite {
  host_offset_of : Z;
  host_len : Z;
  fault_guest_ip : GuestVa;
  fault_access : AccessKind;
  fault_width : Z;
  fault_register : Z;
  resume_offset : Z;
  slow_stub_offset : Z;
}.

Record BlockSourceMap : Type := mkBlockSourceMap {
  ranges : list SourceRange;
  faults : list FaultSite;
}.

(** [sort_unstable_by_key]: the order of entries with equal keys is open, and
    both validations below refuse such entries. *)
Fixpoint insert_by {A} (key : A -> Z) (a : A) (l : list A) : list A :=
  match l with
  | [] => [a]
  | b :: l' => if key a <=? key b then a :: l else b :: insert_by key a l'
  end.
Definition sort_by_key {A} (key : A -> Z) (l : list A) : list A := foldr (insert_by key) [] l.

(** The loop over the sorted ranges, [previous] being the one before. *)
Fixpoint check_ranges (previous : option SourceRange) (l : list SourceRange)
  : result SourceMapError unit :=
  match l with
  | [] => Ok tt
  | range :: l =>
    if host_end range <=? host_start range then Err (EmptySourceRange (range_guest_ip range))
    else if match previous with Some p => host_start range <? host_end p | None => false end
    then Err (OverlappingRanges (range_guest_ip range))
    else check_ranges (Some range) l
  end.

Fixpoint check_faults (l : list FaultSite) : result SourceMapError unit :=
  match l with
  | a :: ((b :: _) as l') =>
    if host_offset_of a =? host_offset_of b then Err (DuplicateFaultSite (host_offset_of b))
    else check_faults l'
  | _ => Ok tt
  end.

Definition BlockSourceMap_new (rs : list SourceRange) (fs : list FaultSite)
  : result SourceMapError BlockSourceMap :=
  let rs := sort_by_key host_start rs in
  _ ← check_ranges None rs;
  let fs := sort_by_key host_offset_of fs in
  _ ← check_faults fs;
  Ok (mkBlockSourceMap rs fs).

Definition source_for_host_offset (self : BlockSourceMap) (offset : Z) : option SourceRange :=
  match partition_point (fun range => host_start range <=? offset) (ranges self) with
  | O => None
  | S candidate =>
    range ← ranges self !! candidate;
    if offset <? host_end range then Some range else None
  end.

Definition fault_for_host_offset (self : BlockSourceMap) (offset : Z) : option FaultSite :=
  index ← binary_search_by_key host_offset_of (faults self) offset;
  faults self !! index.

(** ** A valid map answers exactly *)

(** In host order, not empty, one after the other. *)
Definition ranges_ok (l : list SourceRange) : Prop :=
  Forall (fun r => host_start r < host_end r) l /\
  StronglySorted (fun a b => host_end a <= host_start b) l.

Section Sorting.
Context {A : Type} (key : A -> Z).

Lemma insert_by_perm a l : insert_by key a l ≡ₚ a :: l.
Proof.
  induction l as [|b l IH]; cbn [insert_by]; [done|]. destruct (key a <=? key b); [done|].
  rewrite IH. apply Permutation_swap.
Qed.

Lemma sort_by_key_perm l : sort_by_key key l ≡ₚ l.
Proof. induction l as [|a l IH]; [done|]. cbn [sort_by_key foldr]. rewrite insert_by_perm. by constructor. Qed.

Lemma insert_by_sorted a l : StronglySorted (fun x y => key x <= key y) l ->
  StronglySorted (fun x y => key x <= key y) (insert_by key a l).
Proof.
  induction 1 as [|b l Hs IH Hall]; cbn [insert_by]; [by repeat constructor|].
  destruct (Z.leb_spec (key a) (key b)).
  - constructor; [by constructor|]. constructor; [done|]. eapply Forall_impl; [exact Hall|]. cbn. lia.
  - constructor; [done|]. rewrite insert_by_perm. constructor; [lia | done].
Qed.

Lemma sort_by_key_sorted l : StronglySorted (fun x y => key x <= key y) (sort_by_key key l).
Proof. induction l; [constructor|]. by apply insert_by_sorted. Qed.

(** Entries already in order stay where they are. *)
Lemma sort_by_key_id l : StronglySorted (fun x y => key x <= key y) l -> sort_by_key key l = l.
Proof.
  induction 1 as [|a l Hs IH Hall]; [done|]. cbn [sort_by_key foldr]. fold (sort_by_key key l). rewrite IH.
  destruct l as [|b l]; [done|]. cbn [insert_by]. apply Forall_cons in Hall as [Hab _].
  by rewrite (proj2 (Z.leb_le _ _)).
Qed.
End Sorting.

Lemma check_ranges_spec l : check_ranges None l = Ok tt <-> ranges_ok l.
Proof.
  assert (forall p l, check_ranges (Some p) l = Ok tt <->
            ranges_ok l /\ Forall (fun r => host_end p <= host_start r) l) as Hsome.
  { clear l. intros p l. revert p. induction l as [|r l IH]; intros p; cbn [check_ranges].
    { split; [|done]. intros _. split; [split; constructor | constructor]. }
    destruct (Z.leb_spec (host_end r) (host_start r)).
    { split; [done|]. intros [[Hne _] _]. apply Forall_cons in Hne as [? _]. lia. }
    destruct (Z.ltb_spec (host_start r) (host_end p)).
    { split; [done|]. intros [_ [? _]%Forall_cons]. lia. }
    rewrite IH. unfold ranges_ok. rewrite !Forall_cons. split.
    - intros [[Hne Hs] Hall]. split_and!; try done; [by constructor|].
      eapply Forall_impl; [exact Hall|]. cbn. lia.
    - intros [[[_ Hne] Hs] _]. apply StronglySorted_inv in Hs as [Hs Hall]. done. }
  destruct l as [|r l]; cbn [check_ranges]; [split; [intros _; split; constructor | done]|].
  destruct (Z.leb_spec (host_end r) (host_start r)).
  { split; [done|]. intros [[? _]%Forall_cons _]. lia. }
  rewrite Hsome. unfold ranges_ok. rewrite Forall_cons. split.
  - intros [[Hne Hs] Hall]. split; [done|]. by constructor.
  - intros [[_ Hne] Hs]. apply StronglySorted_inv in Hs as [Hs Hall]. done.
Qed.

Lemma partition_point_spec {A} (f : A -> bool) l n :
  partition_point f l = S n -> exists a, l !! n = Some a /\ f a = true.
Proof.
  revert n. induction l as [|b l IH]; intros n; cbn [partition_point]; [done|].
  destruct (f b) eqn:Hb; [|done]. intros [= Hn]. destruct n as [|n]; [by exists b|]. by apply IH in Hn.
Qed.

(** The range that contains an offset is the last one that starts before it. *)
Lemma partition_at l offset i r : ranges_ok l -> l !! i = Some r ->
  host_start r <= offset < host_end r ->
  partition_point (fun r => host_start r <=? offset) l = S i.
Proof.
  intros [Hne Hs]. revert i. induction Hs as [|b l Hs IH Hall]; intros i Hi Ho; [done|].
  apply Forall_cons in Hne as [Hb Hne]. cbn [partition_point]. destruct i as [|i].
  - injection Hi as ->. rewrite (proj2 (Z.leb_le _ _)) by lia. f_equal.
    destruct l as [|c l]; [done|]. cbn [partition_point]. apply Forall_cons in Hall as [Hc _].
    rewrite (proj2 (Z.leb_gt _ _)) by lia. done.
  - cbn in Hi. assert (host_end b <= host_start r) as Hbr.
    { rewrite Forall_forall in Hall. eapply Hall, list_elem_of_lookup_2, Hi. }
    rewrite (proj2 (Z.leb_le _ _)) by lia. f_equal. by apply IH.
Qed.

(** The search over the ranges of a valid map finds the one range that
    contains the offset, and finds none only where none does. *)
Lemma source_lookup_spec rs fs sm offset r : BlockSourceMap_new rs fs = Ok sm ->
  source_for_host_offset sm offset = Some r <->
  r ∈ rs /\ host_start r <= offset < host_end r.
Proof.
  unfold BlockSourceMap_new. intros Hnew. invert_ok. subst sm. cbn [ranges].
  match goal with H : check_ranges _ _ = Ok ?u |- _ => destruct u; apply check_ranges_spec in H as Hok end.
  set (l := sort_by_key host_start rs) in *.
  assert (r ∈ rs <-> r ∈ l) as ->.
  { subst l. by rewrite (sort_by_key_perm host_start rs). }
  unfold source_for_host_offset. cbn [ranges]. split.
  - destruct (partition_point _ l) as [|n] eqn:Hp; [done|].
    apply partition_point_spec in Hp as (a & Ha & Hf%Z.leb_le). rewrite Ha. cbn [mbind option_bind].
    destruct (Z.ltb_spec offset (host_end a)); [|done]. intros [= <-].
    split; [by eapply list_elem_of_lookup_2 | lia].
  - intros [[i Hi]%list_elem_of_lookup Ho]. rewrite (partition_at l offset i r) by done.
    rewrite Hi. cbn [mbind option_bind]. by rewrite (proj2 (Z.ltb_lt _ _)) by lia.
Qed.
