(* ===== verification/CodeBuffer.v ===== *)
(** * Code buffers

    Models [exbawks-platform/src/code_memory.rs]: a buffer that is written
    first and executed after it is sealed.  [CodeAllocation] is the interface
    of the module's two implementations: the one over the Windows memory
    calls, whose outcomes are parameters, and the portable one, which refuses.
    A sealed owner offers no write. *)

From stdpp Require Import strings.
From S2P Require Import Prelude CoreTypes.

Local Open Scope string_scope.
Local Open Scope Z_scope.

Class CodeAllocation (A : Type) : Type := {
  code_new : Z -> result PlatformError A;
  code_capacity : A -> Z;
  code_write_at : A -> Z -> list Z -> result PlatformError A;
  code_seal : A -> result PlatformError A;
  (** What the processor fetches from the allocation. *)
  code_contents : A -> list Z;
}.

(** What the buffers rely on: an allocation has the capacity asked for, a
    write that succeeds stores its bytes and keeps the others, and sealing
    keeps them all. *)
Class CodeAllocationLaws A `{CodeAllocation A} : Prop := {
  code_new_capacity n a : code_new n = Ok a -> code_capacity a = n /\ length (code_contents a) = Z.to_nat n;
  code_write_contents a offset bytes a' :
    0 <= offset -> offset + Z.of_nat (length bytes) <= code_capacity a ->
    code_write_at a offset bytes = Ok a' ->
    code_capacity a' = code_capacity a /\
    (length (code_contents a) = Z.to_nat (code_capacity a) ->
     code_contents a' = (take (Z.to_nat offset) (code_contents a) ++ bytes ++
                          drop (Z.to_nat offset + length bytes) (code_contents a))%list);
  code_seal_contents a a' : code_seal a = Ok a' -> code_contents a' = code_contents a;
}.

Section Buffers.
Context {A : Type} `{CodeAllocation A}.

Record WritableCodeBuffer : Type := mkWritableCodeBuffer { wcb_imp : A; wcb_len : Z }.
Record ExecutableCodeBuffer : Type := mkExecutableCodeBuffer { ecb_imp : A; ecb_len : Z }.

Definition WritableCodeBuffer_new (capacity : Z) : result PlatformError WritableCodeBuffer :=
  if capacity =? 0 then Err (InvalidArgument "code buffer capacity must not be zero")
  else imp ← code_new capacity; Ok (mkWritableCodeBuffer imp 0).

Definition WritableCodeBuffer_push (self : WritableCodeBuffer) (bytes : list Z)
  : result PlatformError (Z * WritableCodeBuffer) :=
  let offset := wcb_len self in
  stop ← ok_or (checked_add 64 offset (Z.of_nat (length bytes)))
           (InvalidArgument "code buffer write overflows");
  if code_capacity (wcb_imp self) <? stop
  then Err (InvalidArgument "code buffer capacity is exhausted")
  else imp ← code_write_at (wcb_imp self) offset bytes; Ok (offset, mkWritableCodeBuffer imp stop).

Definition WritableCodeBuffer_seal (self : WritableCodeBuffer) : result PlatformError ExecutableCodeBuffer :=
  imp ← code_seal (wcb_imp self); Ok (mkExecutableCodeBuffer imp (wcb_len self)).

Definition ExecutableCodeBuffer_is_empty (self : ExecutableCodeBuffer) : bool := ecb_len self =? 0.

(** The code of a sealed buffer. *)
Definition executable_bytes (self : ExecutableCodeBuffer) : list Z :=
  take (Z.to_nat (ecb_len self)) (code_contents (ecb_imp self)).
End Buffers.
Arguments WritableCodeBuffer : clear implicits.
Arguments ExecutableCodeBuffer : clear implicits.

(** ** The implementations *)

(** The outcomes of [VirtualAlloc], [VirtualProtect] and
    [FlushInstructionCache]: a failed call has an error code. *)
Class WindowsMemory : Type := {
  virtual_alloc : Z -> option Z;
  virtual_protect : Z -> option Z;
  flush_instruction_cache : Z -> option Z;
}.

Record WindowsAllocation : Type := mkWindowsAllocation { wa_capacity : Z; wa_contents : list Z }.

Section Windows.
Context `{WindowsMemory}.

Definition windows_new (capacity : Z) : result PlatformError WindowsAllocation :=
  match virtual_alloc capacity with
  | Some code => Err (Win32 "VirtualAlloc" code)
  | None => Ok (mkWindowsAllocation capacity (replicate (Z.to_nat capacity) 0))
  end.

Definition windows_write_at (self : WindowsAllocation) (offset : Z) (bytes : list Z)
  : result PlatformError WindowsAllocation :=
  stop ← ok_or (checked_add 64 offset (Z.of_nat (length bytes)))
           (InvalidArgument "code buffer write overflows");
  if wa_capacity self <? stop
  then Err (InvalidArgument "code buffer write exceeds capacity")
  else Ok (mkWindowsAllocation (wa_capacity self)
             (take (Z.to_nat offset) (wa_contents self) ++ bytes ++
              drop (Z.to_nat offset + length bytes) (wa_contents self)))%list.

Definition windows_seal (self : WindowsAllocation) : result PlatformError WindowsAllocation :=
  match virtual_protect (wa_capacity self) with
  | Some code => Err (Win32 "VirtualProtect" code)
  | None =>
    match flush_instruction_cache (wa_capacity self) with
    | Some code => Err (Win32 "FlushInstructionCache" code)
    | None => Ok self
    end
  end.

#[export] Instance windows_code : CodeAllocation WindowsAllocation := {
  code_new := windows_new;
  code_capacity := wa_capacity;
  code_write_at := windows_write_at;
  code_seal := windows_seal;
  code_contents := wa_contents;
}.

#[export] Instance windows_code_laws : CodeAllocationLaws WindowsAllocation.
Proof.
  split.
  - intros n a. cbn. unfold windows_new. case_match; [done|]. intros [= <-]. cbn. by rewrite length_replicate.
  - intros a offset bytes a' _ Hle. cbn. unfold windows_write_at. intros Hw. invert_ok. subst a'. done.
  - intros a a'. cbn. unfold windows_seal. repeat case_match; try done. by intros [= <-].
Qed.
End Windows.

(** Hosts without code buffers. *)
Definition portable_refusal : PlatformError := PlatformUnsupported "code buffers require Windows".

Definition portable_code : CodeAllocation Z := {|
  code_new _ := Err portable_refusal;
  code_capacity capacity := capacity;
  code_write_at _ _ _ := Err portable_refusal;
  code_seal _ := Err portable_refusal;
  code_contents _ := [];
|}.

(** ** What a sealed buffer holds *)

Section Contents.
Context {A : Type} `{CodeAllocationLaws A}.

(** A buffer made for some bytes, filled with them and sealed holds exactly
    those bytes. *)
Lemma sealed_bytes bytes w o w' e :
  WritableCodeBuffer_new (Z.of_nat (length bytes)) = Ok w ->
  WritableCodeBuffer_push w bytes = Ok (o, w') -> WritableCodeBuffer_seal w' = Ok e ->
  executable_bytes e = bytes /\ ecb_len e = Z.of_nat (length bytes) /\ bytes <> [].
Proof.
  unfold WritableCodeBuffer_new, WritableCodeBuffer_push, WritableCodeBuffer_seal. intros Hn Hp Hs.
  invert_ok. simplify_eq. cbn [wcb_imp wcb_len ecb_len] in *.
  match goal with Ha : code_new _ = Ok ?a |- _ => pose proof (code_new_capacity _ _ Ha) as [Hcap Hlen] end.
  match goal with Hw : code_write_at _ _ _ = Ok _ |- _ =>
    apply code_write_contents in Hw as [Hcap' Hc]; [|lia..] end.
  match goal with Ha : code_seal _ = Ok _ |- _ => pose proof (code_seal_contents _ _ Ha) as Hse end.
  unfold executable_bytes. cbn [ecb_imp ecb_len]. unfold checked_add in *. case_match; [|done].
  simplify_eq. rewrite Hse, Hc by (rewrite Hcap; exact Hlen).
  split; [|split]; [| lia | by intros ->]. change (Z.to_nat 0) with 0%nat. rewrite take_0, app_nil_l, Z.add_0_l, Nat2Z.id.
  apply take_app_length.
Qed.
End Contents.
