(* ===== verification/HostX86.v ===== *)
(** * The host processor

    What the emitter relies on of the processor its code runs on: the
    documented effect of the x86-64 encodings it uses, as an interface
    ([HostProcessor], [HostLaws]), and an executable processor that satisfies
    it ([X86Processor]).  The flags of a logical operation leave the auxiliary
    carry undefined, so the laws do.

    [RCX] holds the address of the guest's [CpuState] (the calling convention
    of [dispatch.rs]), so a host operand [rcx + disp8] is a field of the guest
    state; [cpu_load] and [cpu_store] are the field layout of that [repr(C)]
    structure ([exbawks-cpu/src/state.rs]). *)

From S2P Require Import Prelude GuestTypes Iced CpuState ExecCore ExecOps AluTheorems RegisterSubset.

Import Subset.

(** ** The layout of the guest state *)

Definition GPR_OFFSET : Z := 0.
Definition EIP_OFFSET : Z := GPR_OFFSET + 8 * 4.
Definition EFLAGS_OFFSET : Z := EIP_OFFSET + 4.

Definition gpr_offset (register : Gpr) : Z := GPR_OFFSET + Z.of_nat (Gpr_index register) * 4.

(** The dword at a byte offset; the emitter uses no other field. *)
Definition cpu_load (s : CpuState) (disp : Z) : option Z :=
  if disp =? EIP_OFFSET then Some (eip s)
  else if disp =? EFLAGS_OFFSET then Some (eflags s)
  else if (0 <=? disp) && (disp mod 4 =? 0) then gpr s !! Z.to_nat (disp / 4)
  else None.

Definition cpu_store (s : CpuState) (disp v : Z) : option CpuState :=
  if disp =? EIP_OFFSET then Some (with_eip s v)
  else if disp =? EFLAGS_OFFSET then Some (with_eflags s v)
  else if (0 <=? disp) && (disp mod 4 =? 0) && (disp <? EIP_OFFSET)
  then Some (set_gpr s (Z.to_nat (disp / 4)) v)
  else None.

(** ** The processor *)

(** The registers the code uses, the stack below the return address, and the
    guest state it points to. *)
Record HostState : Type := mkHost {
  rip : nat;
  rax : Z;
  rdx : Z;
  rflags : Z;
  host_stack : list Z;
  guest : CpuState;
}.

Inductive HostOutcome : Type :=
| HostNext (h : HostState)
| HostReturn (h : HostState)
| HostFault.

Class HostProcessor : Type := { host_step : list Z -> HostState -> HostOutcome }.

(** The instruction bytes at the instruction pointer. *)
Definition fetches (code : list Z) (h : HostState) (enc : list Z) : Prop :=
  exists rest, drop (rip h) code = enc ++ rest.

Definition imm32 (v : Z) : list Z := to_le_bytes 4 v.

(** The architecture's number of each operation, in the encodings of the
    arithmetic group. *)
Definition alu_digit (op : AluOp) : Z :=
  match op with Add => 0 | Or => 1 | And => 4 | Sub => 5 | Xor => 6 end.

Definition alu_value (op : AluOp) (a b : Z) : Z :=
  match op with
  | Add => wrap32 (a + b)
  | Sub => wrap32 (a - b)
  | And => Z.land a b
  | Or => Z.lor a b
  | Xor => Z.lxor a b
  end.

(** The flags an operation on two dwords defines. *)
Definition alu_sets (op : AluOp) (a b f : Z) : Prop :=
  let r := alu_value op a b in
  match op with
  | Add => flag_view f = mkFlagView (2 ^ 32 <=? a + b) (even_parity r) (16 <=? a mod 16 + b mod 16)
             (r =? 0) (2 ^ 31 <=? r) (negb (fits 32 (signed 32 a + signed 32 b)))
  | Sub => flag_view f = mkFlagView (a <? b) (even_parity r) (a mod 16 <? b mod 16)
             (r =? 0) (2 ^ 31 <=? r) (negb (fits 32 (signed 32 a - signed 32 b)))
  | _ => exists undefined, flag_view f =
           mkFlagView false (even_parity r) undefined (r =? 0) (2 ^ 31 <=? r) false
  end.

(** A register operand: [eax] is 0, [edx] is 2. *)
Definition reg_value (h : HostState) (edx : bool) : Z := wrap32 (if edx then rdx h else rax h).
Definition reg_code (edx : bool) : Z := if edx then 2 else 0.
Definition set_reg (h : HostState) (edx : bool) (v : Z) : HostState :=
  if edx then mkHost (rip h) (rax h) v (rflags h) (host_stack h) (guest h)
  else mkHost (rip h) v (rdx h) (rflags h) (host_stack h) (guest h).
Definition set_rflags (h : HostState) (f : Z) : HostState :=
  mkHost (rip h) (rax h) (rdx h) f (host_stack h) (guest h).
Definition set_host_stack (h : HostState) (st : list Z) : HostState :=
  mkHost (rip h) (rax h) (rdx h) (rflags h) st (guest h).
Definition set_guest (h : HostState) (s : CpuState) : HostState :=
  mkHost (rip h) (rax h) (rdx h) (rflags h) (host_stack h) s.
Definition advance (n : nat) (h : HostState) : HostState :=
  mkHost (rip h + n) (rax h) (rdx h) (rflags h) (host_stack h) (guest h).

(** The documented effect of each encoding; a 32-bit destination clears the
    upper half of its register. *)
Class HostLaws `{HostProcessor} : Prop := {
  law_nop code h : fetches code h [0x90] -> host_step code h = HostNext (advance 1 h);
  law_load code h edx d v : fetches code h [0x8B; 0x41 + 8 * reg_code edx; d] -> 0 <= d < 0x80 ->
    cpu_load (guest h) d = Some v ->
    host_step code h = HostNext (advance 3 (set_reg h edx v));
  law_store code h d s : fetches code h [0x89; 0x41; d] -> 0 <= d < 0x80 ->
    cpu_store (guest h) d (reg_value h false) = Some s ->
    host_step code h = HostNext (advance 3 (set_guest h s));
  law_mov_imm code h v : fetches code h (0xB8 :: imm32 v) -> u32 v ->
    host_step code h = HostNext (advance 5 (set_reg h false v));
  law_alu code h op : fetches code h [8 * alu_digit op + 1; 0xD0] -> exists f,
    alu_sets op (reg_value h false) (reg_value h true) f /\
    host_step code h = HostNext (advance 2 (set_rflags
      (set_reg h false (alu_value op (reg_value h false) (reg_value h true))) f));
  law_alu_imm code h op edx v :
    fetches code h (0x81 :: 0xC0 + 8 * alu_digit op + reg_code edx :: imm32 v) -> u32 v -> exists f,
    alu_sets op (reg_value h edx) v f /\
    host_step code h = HostNext (advance 6 (set_rflags
      (set_reg h edx (alu_value op (reg_value h edx) v)) f));
  law_and_eax code h v : fetches code h (0x25 :: imm32 v) -> u32 v -> exists f,
    host_step code h = HostNext (advance 5 (set_rflags
      (set_reg h false (Z.land (reg_value h false) v)) f));
  law_pushfq code h : fetches code h [0x9C] ->
    host_step code h = HostNext (advance 1 (set_host_stack h (rflags h :: host_stack h)));
  law_pop_rdx code h v st : fetches code h [0x5A] -> host_stack h = v :: st ->
    host_step code h = HostNext (advance 1 (set_reg (set_host_stack h st) true v));
  law_store_imm code h d v s : fetches code h (0xC7 :: 0x41 :: d :: imm32 v) -> 0 <= d < 0x80 -> u32 v ->
    cpu_store (guest h) d v = Some s ->
    host_step code h = HostNext (advance 7 (set_guest h s));
  law_ret code h : fetches code h [0xC3] -> host_stack h = [] -> host_step code h = HostReturn h;
}.

(** ** Running code *)

Section Run.
Context `{HostProcessor}.

Fixpoint host_run (fuel : nat) (code : list Z) (h : HostState) : option HostState :=
  match fuel with
  | O => None
  | S fuel =>
    match host_step code h with
    | HostNext h => host_run fuel code h
    | HostReturn h => Some h
    | HostFault => None
    end
  end.

(** [n] instructions, none of them a return. *)
Inductive host_steps (code : list Z) : nat -> HostState -> HostState -> Prop :=
| steps_refl h : host_steps code 0 h h
| steps_next n h h' h'' : host_step code h = HostNext h' -> host_steps code n h' h'' ->
    host_steps code (S n) h h''.

Lemma host_steps_trans code n m h h' h'' :
  host_steps code n h h' -> host_steps code m h' h'' -> host_steps code (n + m) h h''.
Proof. induction 1; intros; cbn; [done|]. econstructor; eauto. Qed.

Lemma host_steps_run code n h h' fuel :
  host_steps code n h h' -> host_run (n + fuel) code h = host_run fuel code h'.
Proof. induction 1 as [|n h h1 h2 Hs _ IH]; [done|]. cbn [Nat.add host_run]. by rewrite Hs. Qed.

Lemma host_run_mono code n m h r : host_run n code h = Some r -> (n <= m)%nat -> host_run m code h = Some r.
Proof.
  revert m h. induction n as [|n IH]; intros [|m] h Hr Hle; try done; [lia|].
  cbn [host_run] in *. destruct (host_step code h); try done. apply IH; [done | lia].
Qed.
End Run.

(** ** An executable processor *)

Definition assemble_flags (v : FlagView) : Z :=
  Z.lor (Z.lor (Z.lor (Z.lor (Z.lor (flag_if (flag_z v) ZERO) (flag_if (flag_s v) SIGN))
    (flag_if (flag_p v) PARITY)) (flag_if (flag_c v) CARRY)) (flag_if (flag_a v) AUXILIARY))
    (flag_if (flag_o v) OVERFLOW).

Definition x86_flags (op : AluOp) (a b : Z) : Z :=
  let r := alu_value op a b in
  assemble_flags match op with
  | Add => mkFlagView (2 ^ 32 <=? a + b) (even_parity r) (16 <=? a mod 16 + b mod 16)
             (r =? 0) (2 ^ 31 <=? r) (negb (fits 32 (signed 32 a + signed 32 b)))
  | Sub => mkFlagView (a <? b) (even_parity r) (a mod 16 <? b mod 16)
             (r =? 0) (2 ^ 31 <=? r) (negb (fits 32 (signed 32 a - signed 32 b)))
  | _ => mkFlagView false (even_parity r) false (r =? 0) (2 ^ 31 <=? r) false
  end.

Definition alu_of_digit (d : Z) : option AluOp :=
  if d =? 0 then Some Add else if d =? 1 then Some Or else if d =? 4 then Some And
  else if d =? 5 then Some Sub else if d =? 6 then Some Xor else None.

Definition x86_alu (h : HostState) (op : AluOp) (edx : bool) (a b : Z) (n : nat) : HostOutcome :=
  HostNext (advance n (set_rflags (set_reg h edx (alu_value op a b)) (x86_flags op a b))).

Definition x86_field (o : option HostState) (n : nat) : HostOutcome :=
  match o with
  | Some h => HostNext (advance n h)
  | None => HostFault
  end.

Definition x86_step (code : list Z) (h : HostState) : HostOutcome :=
  let disp d := if (0 <=? d) && (d <? 0x80) then Some d else None in
  match drop (rip h) code with
  | [] => HostFault
  | b0 :: l =>
    let b1 := nth 0 l (-1) in
    let b2 := nth 1 l (-1) in
    let imm n := from_le_bytes (take 4 (drop n l)) in
    if b0 =? 0x90 then HostNext (advance 1 h)
    else if (b0 =? 0x8B) && ((b1 =? 0x41) || (b1 =? 0x51)) then
      x86_field (d ← disp b2; v ← cpu_load (guest h) d; Some (set_reg h (b1 =? 0x51) v)) 3
    else if (b0 =? 0x89) && (b1 =? 0x41) then
      x86_field (d ← disp b2; s ← cpu_store (guest h) d (reg_value h false); Some (set_guest h s)) 3
    else if b0 =? 0xB8 then HostNext (advance 5 (set_reg h false (imm 0%nat)))
    else if b0 =? 0x25 then x86_alu h And false (reg_value h false) (imm 0%nat) 5
    else if b0 =? 0x9C then HostNext (advance 1 (set_host_stack h (rflags h :: host_stack h)))
    else if b0 =? 0x5A then
      match host_stack h with
      | [] => HostFault
      | v :: st => HostNext (advance 1 (set_reg (set_host_stack h st) true v))
      end
    else if (b0 =? 0xC7) && (b1 =? 0x41) then
      x86_field (d ← disp b2; s ← cpu_store (guest h) d (imm 2%nat); Some (set_guest h s)) 7
    else if b0 =? 0xC3 then
      match host_stack h with [] => HostReturn h | _ => HostFault end
    else if b0 =? 0x81 then
      let r := (b1 - 0xC0) mod 8 in
      match alu_of_digit ((b1 - 0xC0) / 8) with
      | Some op => if (r =? 0) || (r =? 2)
                   then x86_alu h op (r =? 2) (reg_value h (r =? 2)) (imm 1%nat) 6 else HostFault
      | None => HostFault
      end
    else if (b1 =? 0xD0) && (b0 mod 8 =? 1) then
      match alu_of_digit (b0 / 8) with
      | Some op => x86_alu h op false (reg_value h false) (reg_value h true) 2
      | None => HostFault
      end
    else HostFault
  end.

Definition X86Processor : HostProcessor := {| host_step := x86_step |}.

Lemma assemble_flags_view v : flag_view (assemble_flags v) = v.
Proof. unfold assemble_flags. rewrite assembled_flags. by destruct v. Qed.

Lemma x86_flags_sets op a b : alu_sets op a b (x86_flags op a b).
Proof.
  unfold alu_sets, x86_flags. cbn zeta. rewrite assemble_flags_view. destruct op; try done; by eexists.
Qed.

Lemma imm32_read v rest : u32 v -> from_le_bytes (take 4 (imm32 v ++ rest)) = v.
Proof.
  intros Hv. unfold imm32. rewrite take_app_le by (rewrite length_to_le_bytes; lia).
  rewrite take_ge by (rewrite length_to_le_bytes; lia). rewrite from_to_le_bytes. by apply wrap_small.
Qed.

Lemma alu_of_digit_of op : alu_of_digit (alu_digit op) = Some op.
Proof. by destruct op. Qed.

Lemma X86_laws : @HostLaws X86Processor.
Proof.
  split; intros code h; intros *; unfold host_step, X86Processor, x86_step; intros [rest ->];
    cbn [app nth drop]; intros.
  - done.
  - assert ((0 <=? d) && (d <? 0x80) = true) as -> by (apply andb_true_iff; split; [apply Z.leb_le | apply Z.ltb_lt]; lia).
    cbn [mbind option_bind]. by destruct edx; cbn; match goal with Hl : cpu_load _ _ = _ |- _ => rewrite Hl end.
  - assert ((0 <=? d) && (d <? 0x80) = true) as -> by (apply andb_true_iff; split; [apply Z.leb_le | apply Z.ltb_lt]; lia).
    cbn. by match goal with Hl : cpu_store _ _ _ = _ |- _ => rewrite Hl end.
  - rewrite drop_0, imm32_read by done. done.
  - exists (x86_flags op (reg_value h false) (reg_value h true)). split; [apply x86_flags_sets|]. by destruct op.
  - exists (x86_flags op (reg_value h edx) v). split; [apply x86_flags_sets|].
    change (drop 0 (imm32 v ++ rest)) with (imm32 v ++ rest). rewrite imm32_read by done. by destruct op, edx.
  - exists (x86_flags And (reg_value h false) v). rewrite drop_0, imm32_read by done. done.
  - done.
  - by match goal with Hl : host_stack h = _ |- _ => rewrite Hl end.
  - rewrite drop_0, imm32_read by done.
    assert ((0 <=? d) && (d <? 0x80) = true) as -> by (apply andb_true_iff; split; [apply Z.leb_le | apply Z.ltb_lt]; lia).
    cbn. by match goal with Hl : cpu_store _ _ _ = _ |- _ => rewrite Hl end.
  - by match goal with Hl : host_stack h = _ |- _ => rewrite Hl end.
Qed.
