(* ===== verification/Emitter.v ===== *)
(** * Translation of blocks to host code

    Models [exbawks-jit]: the exits of a block ([exit.rs]), the planner
    ([plan.rs]), the assembler and the emitter ([emit.rs]), the backends
    ([backend.rs]) and the entry into sealed code ([dispatch.rs]).

    The assembler appends bytes to its buffer; every operation below returns
    the buffer after it. *)

From stdpp Require Import strings.
From S2P Require Import Prelude GuestTypes Iced CpuState RegisterSubset BlockDecode CoreTypes SourceMap CodeBuffer HostX86.

Import Subset.

(** ** [exit.rs] *)

Module BlockExit.
Inductive Exit : Type :=
| DirectSuccessor | ConditionalSuccessor | IndirectSuccessor | KernelCall
| MemorySlowPath | UnsupportedInstruction | BudgetExhausted.

Definition from_raw (value : Z) : option Exit :=
  if 6 <? value then None else
  Some (if value =? 0 then DirectSuccessor
        else if value =? 1 then ConditionalSuccessor
        else if value =? 2 then IndirectSuccessor
        else if value =? 3 then KernelCall
        else if value =? 4 then MemorySlowPath
        else if value =? 5 then UnsupportedInstruction
        else BudgetExhausted).

Definition to_raw (self : Exit) : Z :=
  match self with
  | DirectSuccessor => 0 | ConditionalSuccessor => 1 | IndirectSuccessor => 2 | KernelCall => 3
  | MemorySlowPath => 4 | UnsupportedInstruction => 5 | BudgetExhausted => 6
  end.
End BlockExit.

(** ** The assembler *)

Definition BlockAssembler : Type := list Z.

(** [as u8]: every offset is below 0x80. *)
Definition gpr_disp (register : Gpr) : Z := gpr_offset register mod 256.
Definition eip_disp : Z := EIP_OFFSET mod 256.
Definition eflags_disp : Z := EFLAGS_OFFSET mod 256.

Definition alu_register_opcode (op : AluOp) : Z :=
  match op with Add => 0x01 | Or => 0x09 | And => 0x21 | Sub => 0x29 | Xor => 0x31 end.

Definition alu_immediate_modrm (op : AluOp) : Z :=
  match op with Add => 0xC0 | Or => 0xC8 | And => 0xE0 | Sub => 0xE8 | Xor => 0xF0 end.

Definition defined_flags (op : AluOp) : Z :=
  match op with
  | Add | Sub => ARITHMETIC
  | And | Or | Xor => LOGIC_DEFINED
  end.

Definition load_gpr_eax (a : BlockAssembler) (register : Gpr) : BlockAssembler :=
  a ++ [0x8B; 0x41; gpr_disp register].
Definition load_gpr_edx (a : BlockAssembler) (register : Gpr) : BlockAssembler :=
  a ++ [0x8B; 0x51; gpr_disp register].
Definition store_gpr_eax (a : BlockAssembler) (register : Gpr) : BlockAssembler :=
  a ++ [0x89; 0x41; gpr_disp register].

Definition load_eax (a : BlockAssembler) (src : RegisterOperand) : BlockAssembler :=
  match src with
  | OperandGpr source => load_gpr_eax a source
  | OperandImmediate value => (a ++ [0xB8]) ++ to_le_bytes 4 value
  end.

Definition merge_flags (a : BlockAssembler) (mask : Z) : BlockAssembler :=
  let a := a ++ [0x5A] in
  let a := (a ++ [0x81; 0xE2]) ++ to_le_bytes 4 mask in
  let a := a ++ [0x8B; 0x41; eflags_disp] in
  let a := (a ++ [0x25]) ++ to_le_bytes 4 (not32 mask) in
  let a := a ++ [0x09; 0xD0] in
  a ++ [0x89; 0x41; eflags_disp].

Definition register_op (a : BlockAssembler) (op : RegisterOp) : BlockAssembler :=
  match op with
  | OpNop => a ++ [0x90]
  | OpMov dst src => store_gpr_eax (load_eax a src) dst
  | OpAlu op dst src =>
    let a := load_gpr_eax a dst in
    let a := match src with
             | OperandGpr source => load_gpr_edx a source ++ [alu_register_opcode op; 0xD0]
             | OperandImmediate value => (a ++ [0x81; alu_immediate_modrm op]) ++ to_le_bytes 4 value
             end in
    let a := a ++ [0x9C] in
    let a := store_gpr_eax a dst in
    merge_flags a (defined_flags op)
  end.

Definition epilogue (a : BlockAssembler) (exit_eip : GuestVa) (exit : BlockExit.Exit) : BlockAssembler :=
  let a := (a ++ [0xC7; 0x41; eip_disp]) ++ to_le_bytes 4 exit_eip in
  let a := (a ++ [0xB8]) ++ to_le_bytes 4 (BlockExit.to_raw exit) in
  a ++ [0xC3].

(** ** The emitter *)

(** [u32::try_from(value)] of a length. *)
Definition host_offset (start : GuestVa) (value : Z) : result JitError Z :=
  ok_or (try_from_u 32 value) (MetadataOverflow start).

(** [u32::try_from(instruction.ip()).unwrap_or(u32::MAX)]. *)
Definition ip32 (i : Instruction) : GuestVa := default U32_MAX (try_from_u 32 (ip i)).

(** What the loop over the instructions has built. *)
Record EmitProgress : Type := mkEmitProgress {
  assembler : BlockAssembler;
  source_ranges : list SourceRange;
  translated : Z;
  progress_exit : BlockExit.Exit;
  progress_eip : GuestVa;
}.

Fixpoint emit_instructions (start : GuestVa) (l : list Instruction) (p : EmitProgress)
  : result JitError EmitProgress :=
  match l with
  | [] => Ok p
  | i :: l =>
    match classify_register_op i with
    | None => Ok (mkEmitProgress (assembler p) (source_ranges p) (translated p)
                    BlockExit.UnsupportedInstruction (ip32 i))
    | Some op =>
      hs ← host_offset start (Z.of_nat (length (assembler p)));
      let a := register_op (assembler p) op in
      he ← host_offset start (Z.of_nat (length a));
      gl ← host_offset start (len i);
      emit_instructions start l
        (mkEmitProgress a (source_ranges p ++ [mkSourceRange hs he (ip32 i) gl]) (translated p + 1)
           (progress_exit p) (progress_eip p))
    end
  end.

Section Jit.
Context {A : Type} `{CodeAllocation A}.

Record EmittedBlock : Type := mkEmittedBlock {
  emitted_code : ExecutableCodeBuffer A;
  emitted_bytes : list Z;
  emitted_start : GuestVa;
  exit_eip : GuestVa;
  static_exit : BlockExit.Exit;
  translated_instructions : Z;
  emitted_map : BlockSourceMap;
}.

Definition emit (block : DecodedBlock) : result JitError EmittedBlock :=
  if bool_decide (instructions block = []) then Err EmptyBlock else
  stop ← ok_or (DecodedBlock_end block) (BlockEndOverflow (block_start block));
  p ← emit_instructions (block_start block) (instructions block)
        (mkEmitProgress [] [] 0 BlockExit.DirectSuccessor stop);
  let bytes := epilogue (assembler p) (progress_eip p) (progress_exit p) in
  sm ← map_err JitMetadata (BlockSourceMap_new (source_ranges p) []);
  buffer ← map_err JitPlatform (WritableCodeBuffer_new (Z.of_nat (length bytes)));
  pushed ← map_err JitPlatform (WritableCodeBuffer_push buffer bytes);
  code ← map_err JitPlatform (WritableCodeBuffer_seal pushed.2);
  Ok (mkEmittedBlock code bytes (block_start block) (progress_eip p) (progress_exit p)
        (translated p) sm).

(** ** [plan.rs] *)

Inductive RewriteClass : Type := NativeCandidate | RewriteMemory | RewriteControlFlow.

Record TranslationAction : Type := mkTranslationAction {
  action_ip : GuestVa;
  action_length : Z;
  action_text : string;
  action_class : RewriteClass;
}.

Record TranslationPlan : Type := mkTranslationPlan {
  plan_backend : BackendKind;
  plan_start : GuestVa;
  plan_actions : list TranslationAction;
}.

(** The library's flow class, its list of used memory, and its formatter. *)
Context (flow_control : Instruction -> FlowControl) (uses_memory : Instruction -> bool)
  (format_instruction : Instruction -> string).

Definition rewrite_class (i : Instruction) : RewriteClass :=
  if negb (bool_decide (flow_control i = FlowNext)) then RewriteControlFlow
  else if uses_memory i then RewriteMemory
  else NativeCandidate.

Definition DirectRewritePlanner_plan (block : DecodedBlock) : TranslationPlan :=
  mkTranslationPlan DirectRewrite (block_start block)
    (map (fun i => mkTranslationAction (ip32 i) (len i) (format_instruction i) (rewrite_class i))
       (instructions block)).

(** ** [backend.rs] *)

Inductive CompilationState : Type := Planned | Executable.

Record CompiledBlock : Type := mkCompiledBlock {
  plan : TranslationPlan;
  machine_code : list Z;
  compilation_state : CompilationState;
  executable : option EmittedBlock;
}.

Definition direct_rewrite_compile (block : DecodedBlock) : result JitError CompiledBlock :=
  if bool_decide (instructions block = []) then Err EmptyBlock else
  let plan := DirectRewritePlanner_plan block in
  match emit block with
  | Ok emitted => Ok (mkCompiledBlock plan (emitted_bytes emitted) Executable (Some emitted))
  | Err (JitPlatform (PlatformUnsupported _)) => Ok (mkCompiledBlock plan [] Planned None)
  | Err error => Err error
  end.

Definition cranelift_compile (_ : DecodedBlock) : result JitError CompiledBlock :=
  Err (BackendUnavailable Cranelift
         "the normalized guest IR and Cranelift emitter are not implemented").

(** [make_backend] and the backend's [compile]. *)
Definition backend_compile (kind : BackendKind) : DecodedBlock -> result JitError CompiledBlock :=
  match kind with
  | DirectRewrite => direct_rewrite_compile
  | Cranelift => cranelift_compile
  end.

(** ** [dispatch.rs] *)

(** Entry into a block with whatever the host registers hold; [None] when the
    code does not come back within the fuel. *)
Definition Dispatcher_run `{HostProcessor} (fuel : nat) (entry_rax entry_rdx entry_flags : Z)
    (block : EmittedBlock) (state : CpuState) : option (result JitError BlockExit.Exit * CpuState) :=
  if ExecutableCodeBuffer_is_empty (emitted_code block) then Some (Err EmptyBlock, state) else
  h ← host_run fuel (executable_bytes (emitted_code block))
        (mkHost 0 entry_rax entry_rdx entry_flags [] state);
  Some (ok_or (BlockExit.from_raw (rax h)) (MalformedExit (rax h)), guest h).
End Jit.
Arguments EmittedBlock : clear implicits.
Arguments CompiledBlock : clear implicits.
