(* ===== verification/EmitterTheorems.v ===== *)
(** * Translated code computes what the interpreter does

    The bytes the emitter assembles, run on a processor that does what the
    architecture documents, leave the guest state the register-only oracle
    leaves, instruction by instruction, and report the exit it reports. *)

From stdpp Require Import strings sorting.
From S2P Require Import Prelude Slices GuestTypes Iced CpuState ExecCore ExecOps AluTheorems ExecInvariant RegisterSubset BlockDecode CoreTypes SourceMap CodeBuffer HostX86 Emitter.

Import Subset.

(** ** Flags *)

(** The arithmetic flags of a word are its view. *)
Lemma land_arithmetic f : Z.land f ARITHMETIC = assemble_flags (flag_view f).
Proof.
  apply Z.bits_inj'. intros n Hn. unfold assemble_flags, flag_view, ARITHMETIC.
  cbn [flag_c flag_p flag_a flag_z flag_s flag_o]. rewrite Z.land_spec. flag_bits.
  rewrite !Z.pow2_bits_eqb by lia.
  destruct (Z.eqb_spec 0 n), (Z.eqb_spec 2 n), (Z.eqb_spec 4 n), (Z.eqb_spec 6 n), (Z.eqb_spec 7 n),
    (Z.eqb_spec 11 n); subst; try lia; by rewrite ?andb_true_r, ?andb_false_r, ?orb_false_r.
Qed.

Lemma logic_in_arithmetic : Z.land ARITHMETIC LOGIC_DEFINED = LOGIC_DEFINED.
Proof. by vm_compute. Qed.

(** The undefined auxiliary carry is not among the flags a logical operation
    keeps. *)
Lemma logic_ignores_auxiliary c p a a' z s o :
  Z.land (assemble_flags (mkFlagView c p a z s o)) LOGIC_DEFINED =
  Z.land (assemble_flags (mkFlagView c p a' z s o)) LOGIC_DEFINED.
Proof. by destruct c, p, a, a', z, s, o. Qed.

Lemma add_oracle_view a b : u32 a -> u32 b -> alu_sets Add a b (add_flags a b (wrapping_add32 a b)).
Proof.
  intros Ha Hb. pose proof (add_bits_oracle a b Ha Hb) as Ho.
  destruct (add_bits_spec a b 0 D ltac:(lia)) as (bits & Hs & Hv). rewrite Ho in Hs. injection Hs as _ <-.
  cbn [Width_bits] in Hv. rewrite !(wrap_small 32) in Hv by done. by rewrite !Z.add_0_r in Hv.
Qed.

Lemma sub_oracle_view a b : u32 a -> u32 b -> alu_sets Sub a b (sub_flags a b (wrapping_sub32 a b)).
Proof.
  intros Ha Hb. pose proof (sub_bits_oracle a b Ha Hb) as Ho.
  destruct (sub_bits_spec a b 0 D ltac:(lia)) as (bits & Hs & Hv). rewrite Ho in Hs. injection Hs as _ <-.
  cbn [Width_bits] in Hv. rewrite !(wrap_small 32) in Hv by done. by rewrite !Z.add_0_r, !Z.sub_0_r in Hv.
Qed.

Lemma logic_oracle_view r : u32 r -> flag_view (result_flags r) =
  mkFlagView false (even_parity r) false (r =? 0) (2 ^ 31 <=? r) false.
Proof.
  intros Hr. rewrite <- result_bits_oracle by done.
  pose proof (result_bits_view r D false false false Hr) as Hv. cbn [flag_if Width_bits] in Hv.
  by rewrite !Z.lor_0_r in Hv.
Qed.

(** What the processor computes is what the oracle computes, in the value and
    in every flag the operation defines. *)
Lemma alu_oracle_value op a b : (apply_alu op a b).1 = (alu_value op a b, defined_flags op).
Proof. by destruct op. Qed.

Lemma alu_oracle_flags op a b f : u32 a -> u32 b -> alu_sets op a b f ->
  Z.land f (defined_flags op) = Z.land (apply_alu op a b).2 (defined_flags op).
Proof.
  intros Ha Hb Hf.
  assert (forall r undefined, u32 r ->
    flag_view f = mkFlagView false (even_parity r) undefined (r =? 0) (2 ^ 31 <=? r) false ->
    Z.land f LOGIC_DEFINED = Z.land (result_flags r) LOGIC_DEFINED) as Hlogic.
  { intros r x Hr Hv. rewrite <- logic_in_arithmetic, !Z.land_assoc, !land_arithmetic, Hv, logic_oracle_view by done.
    apply logic_ignores_auxiliary. }
  destruct op; cbn [apply_alu snd logic defined_flags].
  - rewrite !land_arithmetic. f_equal. rewrite Hf. symmetry. by apply add_oracle_view.
  - rewrite !land_arithmetic. f_equal. rewrite Hf. symmetry. by apply sub_oracle_view.
  - destruct Hf as [x Hf]. eapply Hlogic; [|exact Hf]. uword.
  - destruct Hf as [x Hf]. eapply Hlogic; [|exact Hf]. uword.
  - destruct Hf as [x Hf]. eapply Hlogic; [|exact Hf]. uword.
Qed.

Lemma land_wrap f mask : u32 mask -> Z.land (wrap32 f) mask = Z.land f mask.
Proof.
  intros Hm. unfold wrap. rewrite <- Z.land_ones, <- Z.land_assoc by lia. f_equal.
  rewrite Z.land_comm, Z.land_ones by lia. by apply wrap_small.
Qed.

Lemma defined_flags_u32 op : u32 (defined_flags op).
Proof. by destruct op. Qed.

(** ** The guest state seen by the host *)

Lemma load_gpr_field s r : length (gpr s) = 8%nat -> cpu_load s (gpr_disp r) = Some (CpuState_get s r).
Proof.
  intros Hl. unfold CpuState_get, gpr_at.
  assert (cpu_load s (gpr_disp r) = gpr s !! Gpr_index r) as -> by by destruct r.
  rewrite nth_lookup. destruct (lookup_lt_is_Some_2 (gpr s) (Gpr_index r)) as [v ->]; [|done].
  rewrite Hl. destruct r; cbn; lia.
Qed.

Lemma store_gpr_field s r v : cpu_store s (gpr_disp r) v = Some (CpuState_set s r v).
Proof. by destruct r. Qed.

Lemma gpr_disp_range r : 0 <= gpr_disp r < 0x80.
Proof. by destruct r. Qed.

Lemma to_raw_round e : BlockExit.from_raw (BlockExit.to_raw e) = Some e /\ u32 (BlockExit.to_raw e).
Proof. by destruct e. Qed.

(** ** Executing a piece of code *)

Section Execution.
Context `{HostLaws}.
Context (code : list Z).

(** The bytes at the instruction pointer take the processor past them, into a
    state that satisfies [Q]. *)
Definition exec (bytes : list Z) (h : HostState) (Q : HostState -> Prop) : Prop :=
  forall rest, drop (rip h) code = bytes ++ rest ->
    exists n h', (n <= length bytes)%nat /\ host_steps code n h h' /\
      rip h' = (rip h + length bytes)%nat /\ Q h'.

Lemma exec_nil h (Q : HostState -> Prop) : Q h -> exec [] h Q.
Proof. intros HQ rest _. exists 0%nat, h. split_and!; [done | constructor | cbn; lia | done]. Qed.

Lemma exec_app b1 b2 h R : exec b1 h (fun h1 => exec b2 h1 R) -> exec (b1 ++ b2) h R.
Proof.
  intros H1 rest Hd. rewrite <- app_assoc in Hd. destruct (H1 _ Hd) as (n & h1 & Hn & Hs & Hr & H2).
  assert (drop (rip h1) code = b2 ++ rest) as Hd1.
  { rewrite Hr, <- drop_drop, Hd. apply drop_app_length. }
  destruct (H2 _ Hd1) as (m & h2 & Hm & Hs' & Hr' & HR). exists (n + m)%nat, h2.
  rewrite length_app. split_and!; [lia | by eapply host_steps_trans | lia | done].
Qed.

Lemma exec_weaken bytes h (Q R : HostState -> Prop) : exec bytes h Q -> (forall h', Q h' -> R h') -> exec bytes h R.
Proof. intros He HQ rest Hd. destruct (He rest Hd) as (n & h' & ? & ? & ? & ?). exists n, h'. auto. Qed.

Lemma exec_step bytes h (Q : HostState -> Prop) : bytes <> [] ->
  (fetches code h bytes -> exists h', host_step code h = HostNext (advance (length bytes) h') /\
     rip h' = rip h /\ Q (advance (length bytes) h')) ->
  exec bytes h Q.
Proof.
  intros Hne Hlaw rest Hd. destruct (Hlaw (ex_intro _ rest Hd)) as (h' & Hs & Hr & HQ).
  exists 1%nat, (advance (length bytes) h'). split_and!; [| |by cbn; rewrite Hr | done].
  - destruct bytes; [done|]. cbn. lia.
  - econstructor; [exact Hs | constructor].
Qed.

(** One lemma per encoding: what holds after it. *)
Lemma exec_nop h (Q : HostState -> Prop) : Q (advance 1 h) -> exec [0x90] h Q.
Proof. intros HQ. apply exec_step; [done|]. intros Hf. exists h. split_and!; [by eapply law_nop; [exact Hf|..] | done..]. Qed.

Lemma exec_load h edx d v (Q : HostState -> Prop) : 0 <= d < 0x80 -> cpu_load (guest h) d = Some v ->
  Q (advance 3 (set_reg h edx v)) -> exec [0x8B; 0x41 + 8 * reg_code edx; d] h Q.
Proof.
  intros Hd Hv HQ. apply exec_step; [done|]. intros Hf. exists (set_reg h edx v).
  split_and!; [by eapply law_load; [exact Hf|..] | by destruct edx | done].
Qed.

Lemma exec_store h d s (Q : HostState -> Prop) : 0 <= d < 0x80 ->
  cpu_store (guest h) d (reg_value h false) = Some s ->
  Q (advance 3 (set_guest h s)) -> exec [0x89; 0x41; d] h Q.
Proof.
  intros Hd Hs HQ. apply exec_step; [done|]. intros Hf. exists (set_guest h s).
  split_and!; [by eapply law_store; [exact Hf|..] | done..].
Qed.

Lemma exec_mov_imm h v (Q : HostState -> Prop) : u32 v -> Q (advance 5 (set_reg h false v)) ->
  exec (0xB8 :: imm32 v) h Q.
Proof.
  intros Hv HQ. apply exec_step; [done|]. intros Hf. exists (set_reg h false v).
  split_and!; [by eapply law_mov_imm; [exact Hf|..] | done..].
Qed.

Lemma exec_alu h op (Q : HostState -> Prop) :
  (forall f, alu_sets op (reg_value h false) (reg_value h true) f ->
     Q (advance 2 (set_rflags (set_reg h false
          (alu_value op (reg_value h false) (reg_value h true))) f))) ->
  exec [8 * alu_digit op + 1; 0xD0] h Q.
Proof.
  intros HQ. apply exec_step; [done|]. intros (f & Hf & Hs)%law_alu. eexists. split_and!; [exact Hs | done | by apply HQ].
Qed.

Lemma exec_alu_imm h op edx v (Q : HostState -> Prop) : u32 v ->
  (forall f, alu_sets op (reg_value h edx) v f ->
     Q (advance 6 (set_rflags (set_reg h edx (alu_value op (reg_value h edx) v)) f))) ->
  exec (0x81 :: 0xC0 + 8 * alu_digit op + reg_code edx :: imm32 v) h Q.
Proof.
  intros Hv HQ. apply exec_step; [done|]. intros Hf. destruct (law_alu_imm code h op edx v Hf Hv) as (f & Hset & Hs).
  eexists. split_and!; [exact Hs | by destruct edx | by apply HQ].
Qed.

Lemma exec_and_eax h v (Q : HostState -> Prop) : u32 v ->
  (forall f, Q (advance 5 (set_rflags (set_reg h false (Z.land (reg_value h false) v)) f))) ->
  exec (0x25 :: imm32 v) h Q.
Proof.
  intros Hv HQ. apply exec_step; [done|]. intros Hf. destruct (law_and_eax code h v Hf Hv) as (f & Hs).
  eexists. split_and!; [exact Hs | done | by apply HQ].
Qed.

Lemma exec_pushfq h (Q : HostState -> Prop) :
  Q (advance 1 (set_host_stack h (rflags h :: host_stack h))) -> exec [0x9C] h Q.
Proof.
  intros HQ. apply exec_step; [done|]. intros Hf. eexists.
  split_and!; [by eapply law_pushfq; [exact Hf|..] | done..].
Qed.

Lemma exec_pop_rdx h v st (Q : HostState -> Prop) : host_stack h = v :: st ->
  Q (advance 1 (set_reg (set_host_stack h st) true v)) -> exec [0x5A] h Q.
Proof.
  intros Hst HQ. apply exec_step; [done|]. intros Hf. eexists.
  split_and!; [by eapply law_pop_rdx; [exact Hf|..] | done..].
Qed.

Lemma exec_store_imm h d v s (Q : HostState -> Prop) : 0 <= d < 0x80 -> u32 v ->
  cpu_store (guest h) d v = Some s -> Q (advance 7 (set_guest h s)) ->
  exec (0xC7 :: 0x41 :: d :: imm32 v) h Q.
Proof.
  intros Hd Hv Hs HQ. apply exec_step; [done|]. intros Hf. exists (set_guest h s).
  split_and!; [by eapply law_store_imm; [exact Hf|..] | done..].
Qed.

(** ** The pieces the assembler emits *)

(** After a piece: the stack is what it was and the guest is [s]. *)
Definition left_with (st : list Z) (s : CpuState) (h : HostState) : Prop :=
  host_stack h = st /\ guest h = s.

(** The flags pushed by [pushfq] merged into the guest's under a mask. *)
Lemma exec_merge h mask f st : u32 mask -> host_stack h = f :: st -> u32 (eflags (guest h)) ->
  exec (merge_flags [] mask) h (left_with st (with_eflags (guest h)
    (Z.lor (Z.land (eflags (guest h)) (not32 mask)) (Z.land f mask)))).
Proof.
  intros Hm Hst He. assert (u32 (not32 mask)) as Hn by (apply is_u_unot; [lia | done]).
  change (merge_flags [] mask) with
    ([0x5A] ++ (0x81 :: 0xC0 + 8 * alu_digit And + reg_code true :: imm32 mask) ++
     [0x8B; 0x41 + 8 * reg_code false; eflags_disp] ++ (0x25 :: imm32 (not32 mask)) ++
     [8 * alu_digit Or + 1; 0xD0] ++ [0x89; 0x41; eflags_disp]).
  apply exec_app. eapply exec_pop_rdx; [exact Hst|].
  apply exec_app. apply (exec_alu_imm _ And true); [done|]. intros f1 _.
  apply exec_app. apply (exec_load _ false _ (eflags (guest h))); [done | done |].
  apply exec_app. apply exec_and_eax; [done|]. intros f2.
  apply exec_app. apply (exec_alu _ Or). intros f3 _.
  eapply exec_store; [done | reflexivity |]. split; [done|]. cbn.
  f_equal. unfold reg_value. cbn. rewrite (wrap_small 32 (eflags _)), land_wrap by done.
  rewrite !(wrap_small 32); [done | uword..].
Qed.

(** The operand and the ALU instruction: the result in EAX, the flags pushed. *)
Definition operand_bytes (op : AluOp) (src : RegisterOperand) : list Z :=
  match src with
  | OperandGpr source => load_gpr_edx [] source ++ [alu_register_opcode op; 0xD0]
  | OperandImmediate value => [0x81; alu_immediate_modrm op] ++ to_le_bytes 4 value
  end.

Lemma exec_operand h op src a : cpu_wf (guest h) -> u32 (read (guest h) src) -> reg_value h false = a ->
  forall Q : HostState -> Prop,
  (forall h', host_stack h' = host_stack h -> guest h' = guest h ->
     rax h' = alu_value op a (read (guest h) src) -> alu_sets op a (read (guest h) src) (rflags h') -> Q h') ->
  exec (operand_bytes op src) h Q.
Proof.
  intros Hwf Hb Ha Q HQ. destruct src as [source|v]; cbn [read operand_bytes] in *.
  - apply exec_app. apply (exec_load _ true _ (CpuState_get (guest h) source));
      [apply gpr_disp_range | by apply load_gpr_field, gpr_length |].
    replace [alu_register_opcode op; 0xD0] with [8 * alu_digit op + 1; 0xD0] by by destruct op.
    apply exec_alu. intros f Hf.
    assert (reg_value (advance 3 (set_reg h true (CpuState_get (guest h) source))) false = a) as Hr by exact Ha.
    assert (reg_value (advance 3 (set_reg h true (CpuState_get (guest h) source))) true =
              CpuState_get (guest h) source) as Hr' by by apply wrap_small.
    rewrite Hr, Hr' in *. by apply HQ.
  - replace ([0x81; alu_immediate_modrm op] ++ to_le_bytes 4 v)
      with (0x81 :: 0xC0 + 8 * alu_digit op + reg_code false :: imm32 v) by by destruct op.
    apply exec_alu_imm; [done|]. intros f Hf. rewrite Ha in *. by apply HQ.
Qed.

(** Every operation of the subset: the guest state is the oracle's. *)
Lemma exec_register_op h op : cpu_wf (guest h) ->
  match op with OpNop => True | OpMov _ src | OpAlu _ _ src => u32 (read (guest h) src) end ->
  exec (register_op [] op) h (left_with (host_stack h) (apply (guest h) op)).
Proof.
  intros Hwf Hsrc. destruct op as [|dst src|op dst src].
  - by apply exec_nop.
  - change (register_op [] (OpMov dst src)) with (load_eax [] src ++ [0x89; 0x41; gpr_disp dst]).
    apply exec_app. cbn [apply].
    assert (forall h', host_stack h' = host_stack h -> guest h' = guest h -> rax h' = read (guest h) src ->
      exec [0x89; 0x41; gpr_disp dst] h'
        (left_with (host_stack h) (CpuState_set (guest h) dst (read (guest h) src)))) as Hst.
    { intros h' Hs Hg Hr. eapply exec_store; [apply gpr_disp_range | apply store_gpr_field |].
      split; [done|]. cbn. rewrite Hg. f_equal. unfold reg_value. rewrite Hr. by apply wrap_small. }
    destruct src as [source|v]; cbn [read load_eax] in *.
    + apply (exec_load _ false _ (CpuState_get (guest h) source));
        [apply gpr_disp_range | by apply load_gpr_field, gpr_length | by apply Hst].
    + apply exec_mov_imm; [done | by apply Hst].
  - replace (register_op [] (OpAlu op dst src)) with
      ([0x8B; 0x41; gpr_disp dst] ++ operand_bytes op src ++ [0x9C] ++ [0x89; 0x41; gpr_disp dst] ++
       merge_flags [] (defined_flags op)) by (by destruct src).
    set (a := CpuState_get (guest h) dst). set (b := read (guest h) src) in *.
    assert (u32 a) as Ha by by apply gpr_at_wf.
    apply exec_app. apply (exec_load _ false _ a); [apply gpr_disp_range | by apply load_gpr_field, gpr_length |].
    apply exec_app. apply (exec_operand _ op src a); [done | done | by apply wrap_small |].
    intros h1 Hs1 Hg1 Hr1 Hf1. cbn [guest host_stack advance set_reg] in Hs1, Hg1, Hr1, Hf1.
    fold b in Hr1, Hf1.
    assert (u32 (alu_value op a b)) as Hr by (destruct op; cbn [alu_value]; first [by apply wrap_range | uword]).
    apply exec_app. apply exec_pushfq. apply exec_app.
    eapply exec_store; [apply gpr_disp_range | apply store_gpr_field |].
    assert (reg_value (advance 1 (set_host_stack h1 (rflags h1 :: host_stack h1))) false = alu_value op a b) as ->.
    { unfold reg_value. cbn. rewrite Hr1. by apply wrap_small. }
    eapply exec_weaken; [eapply exec_merge; [apply defined_flags_u32 | reflexivity | cbn; rewrite Hg1; by apply eflags_wf]|].
    cbn. intros h2 [Hsk Hg]. split; [by rewrite Hsk|]. rewrite Hg, Hg1.
    cbn [apply]. fold a b. pose proof (alu_oracle_value op a b) as Hv. pose proof (alu_oracle_flags op a b _ Ha Hsrc Hf1) as Hfl.
    destruct (apply_alu op a b) as [[r d] vf]. cbn [fst snd] in *. injection Hv as -> ->. by rewrite Hfl.
Qed.

Lemma exec_epilogue h eip_ exit : u32 eip_ -> forall rest, drop (rip h) code = epilogue [] eip_ exit ++ rest ->
  host_stack h = [] -> exists n h', (n < length (epilogue [] eip_ exit))%nat /\
    host_run (S n) code h = Some h' /\ rax h' = BlockExit.to_raw exit /\ guest h' = with_eip (guest h) eip_.
Proof.
  intros He rest Hd Hst. destruct (to_raw_round exit) as [_ Hx].
  assert (exec ((0xC7 :: 0x41 :: eip_disp :: imm32 eip_) ++ (0xB8 :: imm32 (BlockExit.to_raw exit))) h
    (fun h' => host_stack h' = [] /\ rax h' = BlockExit.to_raw exit /\ guest h' = with_eip (guest h) eip_)) as Hex.
  { apply exec_app. eapply exec_store_imm; [done | done | reflexivity |]. by apply exec_mov_imm. }
  destruct (Hex (0xC3 :: rest)) as (n & h' & Hn & Hs & Hr & Hst' & Hrax & Hg); [exact Hd|].
  exists n, h'. split_and!; [| |done..].
  - eapply Nat.le_lt_trans; [exact Hn|]. cbn. lia.
  - replace (S n) with (n + 1)%nat by lia. rewrite (host_steps_run code n h h') by done.
    cbn [host_run]. rewrite law_ret; [done | | done]. exists rest.
    rewrite Hr, <- drop_drop.
    change (epilogue [] eip_ exit ++ rest) with (((0xC7 :: 0x41 :: eip_disp :: imm32 eip_) ++
      (0xB8 :: imm32 (BlockExit.to_raw exit))) ++ 0xC3 :: rest) in Hd.
    rewrite Hd. apply drop_app_length.
Qed.
End Execution.

(** ** The emitter's loop *)

Lemma register_op_app a op : register_op a op = a ++ register_op [] op.
Proof.
  destruct op as [|dst src|op dst src]; cbn [register_op]; [done| |];
    unfold store_gpr_eax, load_eax, load_gpr_eax, load_gpr_edx, merge_flags; destruct src;
    rewrite <- ?app_assoc; done.
Qed.

Lemma epilogue_app a e x : epilogue a e x = a ++ epilogue [] e x.
Proof. unfold epilogue. by rewrite <- !app_assoc. Qed.

(** The code of a list of operations. *)
Definition ops_bytes (ops : list RegisterOp) : list Z := flat_map (register_op []) ops.

(** The longest operation takes 46 bytes. *)
Lemma register_op_length op : (1 <= length (register_op [] op) <= 46)%nat.
Proof. destruct op as [|? []|? ? []]; cbn; lia. Qed.

(** Each translated instruction has the range of its code, in order. *)
Fixpoint ranges_of (offset : Z) (l : list (Instruction * RegisterOp)) : list SourceRange :=
  match l with
  | [] => []
  | (i, op) :: l =>
    let next := offset + Z.of_nat (length (register_op [] op)) in
    mkSourceRange offset next (ip32 i) (len i) :: ranges_of next l
  end.

(** The translated prefix of a block, with its operations. *)
Fixpoint translated_prefix (l : list Instruction) : list (Instruction * RegisterOp) :=
  match l with
  | [] => []
  | i :: l => match classify_register_op i with
              | Some op => (i, op) :: translated_prefix l
              | None => []
              end
  end.

(** Where the block is left, and how. *)
Fixpoint block_exit (l : list Instruction) (stop : GuestVa) : BlockExit.Exit * GuestVa :=
  match l with
  | [] => (BlockExit.DirectSuccessor, stop)
  | i :: l => match classify_register_op i with
              | Some _ => block_exit l stop
              | None => (BlockExit.UnsupportedInstruction, ip32 i)
              end
  end.

Lemma host_offset_ok start v : u32 v -> host_offset start v = Ok v.
Proof. intros Hv. unfold host_offset. by rewrite try_from_u_some. Qed.

(** With lengths that fit the metadata the loop succeeds, and this is what it
    builds. *)
Lemma emit_instructions_spec start l p : progress_exit p = BlockExit.DirectSuccessor ->
  Forall (fun i => u32 (len i)) l ->
  Z.of_nat (length (assembler p)) + 46 * Z.of_nat (length l) < 2 ^ 32 ->
  emit_instructions start l p =
  Ok (mkEmitProgress (assembler p ++ ops_bytes (snd <$> translated_prefix l))
        (source_ranges p ++ ranges_of (Z.of_nat (length (assembler p))) (translated_prefix l))
        (translated p + Z.of_nat (length (translated_prefix l)))
        (block_exit l (progress_eip p)).1 (block_exit l (progress_eip p)).2).
Proof.
  revert p. induction l as [|i l IH]; intros p Hx Hlen Hsize; cbn [emit_instructions translated_prefix block_exit].
  { cbn. rewrite !app_nil_r, Z.add_0_r. destruct p; cbn in *. by subst. }
  apply Forall_cons in Hlen as [Hi Hlen]. cbn [length] in Hsize.
  destruct (classify_register_op i) as [op|] eqn:Hc.
  2: { cbn. by rewrite !app_nil_r, Z.add_0_r. }
  pose proof (register_op_length op) as Ho. rewrite register_op_app.
  assert (length (assembler p ++ register_op [] op) = (length (assembler p) + length (register_op [] op))%nat)
    as Hl by apply length_app.
  rewrite !host_offset_ok; [|unfold is_u; lia..|done]. cbn [mbind result_bind].
  rewrite IH; cbn [assembler source_ranges translated progress_exit progress_eip]; [|done|done|lia].
  cbn [fmap list_fmap fst snd ops_bytes flat_map ranges_of length]. f_equal. f_equal.
  - by rewrite <- app_assoc.
  - rewrite <- app_assoc. cbn [app]. rewrite Hl, Nat2Z.inj_add. done.
  - lia.
Qed.

(** ** The source map of a block *)

Lemma ranges_of_sorted offset l : ranges_ok (ranges_of offset l) /\
  Forall (fun r => offset <= host_start r) (ranges_of offset l).
Proof.
  revert offset. induction l as [|[i op] l IH]; intros offset; cbn [ranges_of].
  { split; [split; constructor | constructor]. }
  set (next := offset + Z.of_nat (length (register_op [] op))). pose proof (register_op_length op) as Ho.
  destruct (IH next) as [[Hne Hs] Hall]. split; [split|].
  - constructor; [cbn; lia | done].
  - constructor; [done | exact Hall].
  - constructor; [cbn; lia|]. eapply Forall_impl; [exact Hall|]. cbn. lia.
Qed.

Lemma ranges_of_map offset l : BlockSourceMap_new (ranges_of offset l) [] = Ok (mkBlockSourceMap (ranges_of offset l) []).
Proof.
  destruct (ranges_of_sorted offset l) as [Hok _]. unfold BlockSourceMap_new.
  rewrite sort_by_key_id; [by rewrite (proj2 (check_ranges_spec _) Hok)|].
  destruct Hok as [Hne Hs]. induction Hs as [|r rs Hs IH Hall]; [constructor|].
  apply Forall_cons in Hne as [Hr Hne]. constructor; [by apply IH|]. eapply Forall_impl; [exact Hall|]. cbn. lia.
Qed.

(** ** The oracle over a block *)

(** The register-only interpreter over the instructions of a block, up to the
    first it does not know. *)
Fixpoint oracle_run (s : CpuState) (l : list Instruction) : CpuState * BlockExit.Exit :=
  match l with
  | [] => (s, BlockExit.DirectSuccessor)
  | i :: l =>
    match step_register_only s i with
    | (Ok _, s) => oracle_run s l
    | (Err _, s) => (s, BlockExit.UnsupportedInstruction)
    end
  end.

(** Instructions one after the other from an address. *)
Fixpoint chained (a : Z) (l : list Instruction) : Prop :=
  match l with
  | [] => True
  | i :: l => ip i = a /\ instruction_wf i /\ chained (a + len i) l
  end.
Definition total_len (l : list Instruction) : Z := foldr (fun i n => len i + n) 0 l.

Lemma total_len_app l l' : total_len (l ++ l') = total_len l + total_len l'.
Proof. induction l as [|i l IH]; [done|]. cbn [total_len app foldr] in *. unfold total_len in *. lia. Qed.

Lemma total_len_nonneg a l : chained a l -> 0 <= total_len l.
Proof.
  revert a. induction l as [|i l IH]; intros a Hc; cbn [total_len foldr]; [lia|].
  destruct Hc as (_ & (_ & ? & _) & Hc). apply IH in Hc. unfold total_len in Hc. lia.
Qed.

Lemma chained_app a l i : chained a l -> ip i = a + total_len l -> instruction_wf i -> chained a (l ++ [i]).
Proof.
  revert a. induction l as [|j l IH]; intros a Hc Hi Hwf; cbn [chained app].
  { cbn in Hi. rewrite Z.add_0_r in Hi. done. }
  destruct Hc as (Hj & Hjw & Hc). split_and!; [done..|]. apply IH; [done | | done].
  cbn [total_len foldr] in Hi. unfold total_len. lia.
Qed.

(** A decoded run is chained. *)
Lemma run_chained `{IcedLaws} start window p l q : u32 start -> Z.of_nat (length window) < 2 ^ 32 -> 0 <= p ->
  run_of start window p l q -> chained (start + p) l /\ q = p + total_len l.
Proof.
  intros Hs Hw Hp. unfold is_u in Hs. induction 1 as [p|p js q i Hrun IH Hq Hd]; [cbn; split; [done | lia]|].
  destruct (IH Hp) as [Hc Heq]. assert (u64 (start + q)) as Hu by (unfold is_u; lia).
  pose proof (decode_ip _ _ _ Hu Hd) as Hip. apply decode_wf in Hd as (Hwf & _); [|done]. split.
  - apply chained_app; [done | lia | done].
  - rewrite total_len_app. cbn. lia.
Qed.

Lemma operand_u32 i op s : classify_register_op i = Some op -> instruction_wf i -> cpu_wf s ->
  match op with OpNop => True | OpMov _ src | OpAlu _ _ src => u32 (read s src) end.
Proof.
  intros Hc Hi Hs.
  assert (forall src, source i = Some src -> u32 (read s src)) as Hsrc.
  { intros src. unfold source. case_match; [done|]. destruct (op_kind i 1); try done.
    - intros (g & _ & ->)%fmap_Some. by apply gpr_at_wf.
    - intros [= <-]. by apply wrap_range.
    - intros [= <-]. apply Hi. }
  unfold classify_register_op, alu in Hc. destruct (mnemonic i); try done;
    try (apply bind_Some in Hc as (dst & _ & Hc); apply bind_Some in Hc as (src & ?%Hsrc & Hc); by simplify_eq).
  case_match; by simplify_eq.
Qed.

Lemma apply_wf s op : cpu_wf s ->
  match op with OpNop => True | OpMov _ src | OpAlu _ _ src => u32 (read s src) end -> cpu_wf (apply s op).
Proof.
  intros Hs Hsrc. destruct op as [|dst src|op dst src]; cbn [apply]; [done | by apply set_gpr_wf |].
  assert (u32 (CpuState_get s dst)) as Ha by by apply gpr_at_wf.
  pose proof (apply_alu_u32 op _ _ Ha Hsrc) as Hr. pose proof (alu_oracle_value op (CpuState_get s dst) (read s src)) as Hv.
  destruct (apply_alu _ _ _) as [[r d] vf]. cbn [fst] in *. injection Hv as _ ->.
  assert (cpu_wf (CpuState_set s dst r)) as Hs' by by apply set_gpr_wf.
  apply with_eflags_wf; [done|]. apply is_u_lor; [lia | apply is_u_land_l; [lia | by apply eflags_wf] |].
  apply is_u_land_r; [lia | apply defined_flags_u32].
Qed.

Lemma apply_eip s op e : apply (with_eip s e) op = with_eip (apply s op) e /\ eip (apply s op) = eip s.
Proof. destruct op as [|dst []|op dst []]; cbn; try done; by destruct (apply_alu _ _ _) as [[r d] vf]. Qed.

(** The oracle over a block is the operations of its translated prefix, with
    EIP past them. *)
Lemma oracle_run_spec l a stop s : chained a l -> u32 a -> a + total_len l = stop -> stop < 2 ^ 32 -> eip s = a ->
  oracle_run s l = (with_eip (foldl apply s (snd <$> translated_prefix l)) (block_exit l stop).2, (block_exit l stop).1) /\
  u32 (block_exit l stop).2.
Proof.
  revert a s. induction l as [|i l IH]; intros a s Hc Ha Hstop Hlt He; cbn [oracle_run translated_prefix block_exit].
  { cbn in *. split; [|unfold is_u in *; lia]. rewrite <- Hstop, Z.add_0_r, <- He. by destruct s. }
  destruct Hc as (Hip & Hwf & Hc). pose proof (total_len_nonneg _ _ Hc). cbn [total_len foldr] in Hstop. fold (total_len l) in Hstop.
  unfold step_register_only. destruct (classify_register_op i) as [op|] eqn:Hop.
  2: { cbn. unfold ip32. rewrite Hip, try_from_u_some by done. cbn. split; [|done]. rewrite <- He. by destruct s. }
  destruct Hwf as (_ & Hlen & _). unfold is_u in Ha.
  destruct (apply_eip s op 0) as [_ He']. rewrite He', He.
  assert (wrapping_add32 a (len i) = a + len i) as -> by (apply wrap_small; unfold is_u; lia).
  destruct (IH (a + len i) (with_eip (apply s op) (a + len i))) as [-> Hu]; try done; try (unfold is_u; lia).
  split; [|done]. cbn [fmap list_fmap snd foldl]. f_equal.
  generalize (snd <$> translated_prefix l) as ops. generalize (apply s op) as t. clear.
  intros t ops. revert t. induction ops as [|o ops IH]; intros t; cbn [foldl]; [done|].
  rewrite (proj1 (apply_eip t o _)). apply IH.
Qed.

(** ** Running an emitted block *)

Section Block.
Context `{HostLaws}.

Lemma exec_ops code l a h : chained a l -> cpu_wf (guest h) ->
  exec code (ops_bytes (snd <$> translated_prefix l)) h
    (left_with (host_stack h) (foldl apply (guest h) (snd <$> translated_prefix l))).
Proof.
  revert a h. induction l as [|i l IH]; intros a h Hc Hs; cbn [translated_prefix]; [by apply exec_nil|].
  destruct Hc as (_ & Hwf & Hc). destruct (classify_register_op i) as [op|] eqn:Hop; [|by apply exec_nil].
  cbn [fmap list_fmap snd ops_bytes flat_map foldl]. pose proof (operand_u32 i op (guest h) Hop Hwf Hs) as Hsrc.
  apply exec_app. eapply exec_weaken; [by apply exec_register_op|]. intros h1 [Hst Hg].
  eapply exec_weaken; [eapply IH; [exact Hc | rewrite Hg; by apply apply_wf]|].
  intros h2 [Hst2 Hg2]. split; [by rewrite Hst2 | by rewrite Hg2, Hg].
Qed.

(** The whole code of a block, from its first byte. *)
Lemma run_block l a stop s r d f fuel : chained a l -> u32 a -> a + total_len l = stop -> stop < 2 ^ 32 ->
  cpu_wf s -> eip s = a ->
  let code := epilogue (ops_bytes (snd <$> translated_prefix l)) (block_exit l stop).2 (block_exit l stop).1 in
  (length code <= fuel)%nat ->
  exists h, host_run fuel code (mkHost 0 r d f [] s) = Some h /\
    rax h = BlockExit.to_raw (block_exit l stop).1 /\ guest h = (oracle_run s l).1.
Proof.
  intros Hc Ha Hstop Hlt Hs He code Hfuel.
  destruct (oracle_run_spec l a stop s Hc Ha Hstop Hlt He) as [-> Hu].
  set (body := ops_bytes (snd <$> translated_prefix l)) in *.
  assert (code = body ++ epilogue [] (block_exit l stop).2 (block_exit l stop).1) as Hcode by apply epilogue_app.
  destruct (exec_ops code l a (mkHost 0 r d f [] s) Hc Hs (epilogue [] (block_exit l stop).2 (block_exit l stop).1))
    as (n & h1 & Hn & Hs1 & Hr1 & Hst1 & Hg1); [by rewrite drop_0|].
  destruct (exec_epilogue code h1 (block_exit l stop).2 (block_exit l stop).1 Hu []) as (m & h2 & Hm & Hrun & Hrax & Hg2).
  { rewrite Hr1. cbn [rip Nat.add]. rewrite app_nil_r. subst code. rewrite Hcode. apply drop_app_length. }
  { exact Hst1. }
  exists h2. split_and!; [|done|by rewrite Hg2, Hg1].
  apply (host_run_mono _ (n + S m)); [by rewrite (host_steps_run _ n _ h1)|].
  rewrite Hcode, length_app in Hfuel. fold body in Hn. lia.
Qed.
End Block.

(** ** The theorem *)

Section Emission.
Context {A : Type} `{CodeAllocationLaws A}.

(** What emission answers for a chained block: the code of its translated
    prefix in a sealed buffer, or the reason there is none. *)
Lemma emit_spec block : chained (block_start block) (instructions block) ->
  byte_len block = total_len (instructions block) -> u32 (block_start block) -> byte_len block <= 2 ^ 24 ->
  match emit block with
  | Ok e => block_start block + byte_len block < 2 ^ 32 /\
      let stop := block_start block + byte_len block in
      executable_bytes (emitted_code e) = emitted_bytes e /\ ecb_len (emitted_code e) <> 0 /\
      emitted_bytes e = epilogue (ops_bytes (snd <$> translated_prefix (instructions block)))
                          (block_exit (instructions block) stop).2 (block_exit (instructions block) stop).1 /\
      exit_eip e = (block_exit (instructions block) stop).2 /\
      static_exit e = (block_exit (instructions block) stop).1 /\
      translated_instructions e = Z.of_nat (length (translated_prefix (instructions block))) /\
      emitted_map e = mkBlockSourceMap (ranges_of 0 (translated_prefix (instructions block))) []
  | Err EmptyBlock => instructions block = []
  | Err (BlockEndOverflow a) => a = block_start block /\ 2 ^ 32 <= block_start block + byte_len block
  | Err (JitPlatform _) => True
  | Err _ => False
  end.
Proof.
  intros Hc Hlen Hu Hb. unfold emit. case_bool_decide as Hne; [done|].
  assert (0 <= byte_len block) as Hnn by (rewrite Hlen; by eapply total_len_nonneg).
  unfold DecodedBlock_end. rewrite try_from_u_some by (unfold is_u; lia). cbn [mbind option_bind].
  unfold checked_add. destruct (Z.ltb_spec (block_start block + byte_len block) (2 ^ 32)); [|done].
  cbn [ok_or mbind result_bind].
  assert (Forall (fun i => u32 (len i)) (instructions block) /\
          Z.of_nat (length (instructions block)) <= total_len (instructions block)) as [Hu32 Hcount].
  { clear -Hc. generalize dependent (block_start block). induction (instructions block) as [|i l IH]; intros a Hc.
    - split; [constructor | done].
    - destruct Hc as (_ & (_ & Hi & _) & Hc). destruct (IH _ Hc). cbn [length total_len foldr].
      split; [constructor; [unfold is_u; lia | done]|]. unfold total_len in *. lia. }
  rewrite emit_instructions_spec; cbn [assembler source_ranges translated progress_exit progress_eip length];
    [|done|done|lia].
  cbn [mbind result_bind app assembler source_ranges translated progress_exit progress_eip].
  rewrite ranges_of_map. cbn [map_err mbind result_bind].
  set (bytes := epilogue _ _ _).
  destruct (WritableCodeBuffer_new (Z.of_nat (length bytes))) as [w|] eqn:Hw; [|done].
  cbn [map_err mbind result_bind]. destruct (WritableCodeBuffer_push w bytes) as [[o w']|] eqn:Hp; [|done].
  cbn [map_err mbind result_bind snd]. destruct (WritableCodeBuffer_seal w') as [e|] eqn:He; [|done].
  cbn [map_err mbind result_bind emitted_code emitted_bytes exit_eip static_exit translated_instructions emitted_map].
  destruct (sealed_bytes bytes w o w' e Hw Hp He) as (Hx & Hl & Hn). split_and!; try done.
  rewrite Hl. destruct bytes; [done|]. cbn [length]. lia.
Qed.
End Emission.

(** C7: Translated code refines the interpreter.  Take any bytes and the block
    the decoder makes of them.  Either emission names its reason (an empty
    block, a block that reaches the end of the guest space, a host that
    refuses code memory), or the code it seals, entered with any host register
    contents on a processor that does what the architecture documents, comes
    back: the guest's registers, flags and EIP are exactly those the
    register-only interpreter computes over the block up to the first
    instruction it does not know, every other field is untouched, the host
    stack is balanced, and the exit reported says whether the block was run to
    its end. *)
Theorem translated_block_refines `{IcedLaws} {A} `{CodeAllocationLaws A} `{HostLaws}
    (flow_control : Instruction -> FlowControl) config start bytes block s :
  u32 start -> Z.of_nat (length bytes) <= 2 ^ 24 -> 0 < max_instructions config -> 0 < max_bytes config ->
  BasicBlockDecoder_decode flow_control config start bytes = Ok block ->
  cpu_wf s -> eip s = start ->
  match emit (A := A) block with
  | Ok e => forall fuel r d f, (length (emitted_bytes e) <= fuel)%nat ->
      Dispatcher_run fuel r d f e s =
        Some (Ok (oracle_run s (instructions block)).2, (oracle_run s (instructions block)).1) /\
      static_exit e = (oracle_run s (instructions block)).2 /\
      exit_eip e = eip (oracle_run s (instructions block)).1
  | Err EmptyBlock => instructions block = []
  | Err (BlockEndOverflow a) => a = start /\ 2 ^ 32 <= start + byte_len block
  | Err (JitPlatform _) => True
  | Err _ => False
  end.
Proof.
  intros Hstart Hlen Hmi Hmb Hdec Hs Heip.
  pose proof (block_decode_spec flow_control config start bytes Hstart ltac:(lia) Hmi Hmb) as Hd.
  cbn zeta in Hd. rewrite Hdec in Hd. destruct Hd as (Hst & Hrun & _ & Hle & _).
  rewrite length_take in Hle. apply run_chained in Hrun as [Hc Hb]; [|done|rewrite length_take; lia|lia].
  rewrite Z.add_0_r in Hc. rewrite <- Hst in Hc, Hstart, Heip |- *. cbn [Z.add] in Hb.
  pose proof (emit_spec (A := A) block Hc Hb Hstart ltac:(lia)) as He.
  destruct (emit block) as [e|[]]; try done. destruct He as (Hlt & Hx & Hn & Hby & Hee & Hse & _).
  intros fuel r d f Hfuel. set (stop := block_start block + byte_len block) in *.
  destruct (run_block (instructions block) (block_start block) stop s r d f fuel)
    as (h & Hh & Hrax & Hg); try done; [subst stop; lia | by rewrite <- Hby|].
  destruct (oracle_run_spec (instructions block) (block_start block) stop s) as [Ho _]; try done; [subst stop; lia|].
  rewrite Ho in *. cbn [fst snd] in *. split_and!; [|done|done].
  unfold Dispatcher_run, ExecutableCodeBuffer_is_empty. rewrite (proj2 (Z.eqb_neq _ _)) by done.
  rewrite Hx, Hby, Hh. cbn [mbind option_bind]. rewrite Hrax, Hg. by rewrite (proj1 (to_raw_round _)).
Qed.

(** ** A block at work: [nop; add eax, ebx; ret] *)

Definition add_eax_ebx (at_ip : Z) : Instruction :=
  mkInstruction Mnemonic.Add (Code.Other 0) at_ip 2 2 (fun _ => OpKind.Register)
    (fun k => if k =? 0 then Register.EAX else Register.EBX) 0 0 0 0 0 0
    Register.None Register.None 1 0 0 Register.DS 0 ConditionCode.None false false.

Definition jit_demo_decode (bytes : list Z) (at_ip : Z) : result DecoderError Instruction :=
  match bytes with
  | b :: rest =>
    if b =? 0x01 then
      match rest with
      | [] => Err NoMoreBytes
      | b' :: _ => if b' =? 0xD8 then Ok (add_eax_ebx at_ip) else Err InvalidInstructionBytes
      end
    else demo_decode bytes at_ip
  | [] => Err NoMoreBytes
  end.

Definition JitIced : Iced := {| register_size := demo_register_size; iced_decode := jit_demo_decode |}.

Lemma jit_demo_cases bytes at_ip : jit_demo_decode bytes at_ip = demo_decode bytes at_ip \/
  (bytes = [0x01] /\ jit_demo_decode bytes at_ip = Err NoMoreBytes) \/
  (exists rest, bytes = 0x01 :: 0xD8 :: rest /\ jit_demo_decode bytes at_ip = Ok (add_eax_ebx at_ip)).
Proof.
  destruct bytes as [|b [|b' rest]]; cbn [jit_demo_decode]; [by left | |].
  - destruct (Z.eqb_spec b 0x01) as [->|]; [right; left; done | by left].
  - destruct (Z.eqb_spec b 0x01) as [->|]; [|by left]. destruct (Z.eqb_spec b' 0xD8) as [->|].
    + right. right. by exists rest.
    + by left.
Qed.

Lemma jit_iced_laws : @IcedLaws JitIced.
Proof.
  split.
  - exact (@size8 DemoIced demo_iced_laws).
  - exact (@size16 DemoIced demo_iced_laws).
  - exact (@size32 DemoIced demo_iced_laws).
  - intros bytes at_ip i Hip Hd. cbn [iced_decode JitIced] in Hd.
    destruct (jit_demo_cases bytes at_ip) as [He|[[_ He]|(rest & -> & He)]]; rewrite He in Hd; [|done|].
    + by eapply (@decode_wf DemoIced demo_iced_laws).
    + injection Hd as <-. unfold instruction_wf, is_u in *. cbn in *. split_and!; lia || done.
  - intros bytes rest at_ip i Hip Hn Hd. cbn [iced_decode JitIced] in *.
    destruct bytes as [|b [|b' bytes]].
    + destruct (jit_demo_cases rest at_ip) as [He|[[-> He]|(rest' & -> & He)]];
        cbn [app] in Hd; rewrite He in Hd; [|done|injection Hd as <-; cbn; lia].
      by eapply (@decode_longer DemoIced demo_iced_laws [] rest).
    + destruct (decide (b = 0x01)) as [->|Hb].
      * destruct (jit_demo_cases ([0x01] ++ rest) at_ip) as [He|[[Hr He]|(rest' & Hr & He)]]; rewrite He in Hd.
        -- done.
        -- done.
        -- injection Hd as <-. cbn. lia.
      * destruct (jit_demo_cases [b] at_ip) as [He|[[Hr _]|(? & Hr & _)]]; [|congruence|done].
        rewrite He in Hn. unfold demo_decode in Hn. by repeat case_match.
    + destruct (jit_demo_cases (b :: b' :: bytes) at_ip) as [He|[[Hr _]|(? & Hr & He)]]; [|done|congruence].
      rewrite He in Hn. unfold demo_decode in Hn. by repeat case_match.
  - intros bytes at_ip i Hip Hd. cbn [iced_decode JitIced] in Hd.
    destruct (jit_demo_cases bytes at_ip) as [He|[[_ He]|(rest & -> & He)]]; rewrite He in Hd; [|done|].
    + by eapply (@decode_ip DemoIced demo_iced_laws).
    + by injection Hd as <-.
Qed.

(** A host that always has memory. *)
Definition willing_host : WindowsMemory :=
  {| virtual_alloc _ := None; virtual_protect _ := None; flush_instruction_cache _ := None |}.

(** EAX is [-1], EBX is 1. *)
Definition jit_demo_state : CpuState :=
  with_eip (set_gpr (set_gpr CpuState_default 0 0xFFFFFFFF) 3 1) 0x1000.

Lemma translated_block_refines_witness : exists block e,
  BasicBlockDecoder_decode (H := JitIced) demo_flow DecodeConfig_default 0x1000 [0x90; 0x01; 0xD8; 0xC3] = Ok block /\
  emit (H := windows_code (H := willing_host)) block = Ok e /\
  exists s', Dispatcher_run (H := windows_code (H := willing_host)) (H0 := X86Processor) 200 7 8 9 e jit_demo_state =
    Some (Ok BlockExit.UnsupportedInstruction, s') /\
    gpr_at s' 0 = 0 /\ eip s' = 0x1003 /\ Z.land (eflags s') ARITHMETIC = Z.lor (Z.lor (Z.lor CARRY ZERO) PARITY) AUXILIARY.
Proof.
  set (run := BasicBlockDecoder_decode (H := JitIced) demo_flow DecodeConfig_default 0x1000 [0x90; 0x01; 0xD8; 0xC3]).
  destruct run as [block|] eqn:Hb; [|vm_compute in Hb; discriminate].
  assert (cpu_wf jit_demo_state) as Hwf.
  { unfold jit_demo_state. apply with_eip_wf; [|unfold is_u; lia]. repeat apply set_gpr_wf; try (unfold is_u; lia).
    apply cpu_default_wf. }
  pose proof (translated_block_refines (H := JitIced) (H0 := jit_iced_laws) (A := WindowsAllocation)
    (H1 := windows_code (H := willing_host)) (H2 := windows_code_laws (H := willing_host)) (H3 := X86Processor)
    (H4 := X86_laws) demo_flow DecodeConfig_default 0x1000 [0x90; 0x01; 0xD8; 0xC3] block jit_demo_state
    ltac:(unfold is_u; lia) ltac:(cbn; lia) ltac:(cbn; lia) ltac:(cbn; lia) Hb Hwf eq_refl) as Hok.
  vm_compute in Hb. injection Hb as <-.
  destruct (emit (H := windows_code (H := willing_host)) _) as [e|] eqn:He; [|vm_compute in He; discriminate].
  eexists _, e. split; [reflexivity|]. split; [exact He|].
  destruct (Hok 200%nat 7 8 9) as (Hrun & _ & _).
  { vm_compute in He. injection He as <-. cbn. lia. }
  eexists. split; [exact Hrun|]. vm_compute. split_and!; reflexivity.
Defined.
