(* ===== verification/CodeCache.v ===== *)
(** * The code cache

    Models [exbawks-jit/src/cache.rs] and the part of
    [exbawks-core/src/emulator.rs] that compiles a block through it:
    [fetch_executable], [physical_dependencies] and [compiled_block_at].

    The lock around the entries serialises the operations, so each of them is
    one function of the map. *)

From stdpp Require Import strings sorting.
From S2P Require Import Prelude GuestTypes PageTable GuestMemory SoftwareSpace Iced CpuState BlockDecode CoreTypes CodeBuffer HostX86 Emitter.

(** ** [cache.rs] *)

Record BlockKey : Type := mkBlockKey {
  guest_start : GuestVa;
  address_space_epoch : Z;
  key_backend : BackendKind;
}.

#[export] Instance BlockKey_eq_dec : EqDecision BlockKey.
Proof. solve_decision. Defined.

#[export] Instance BackendKind_countable : Countable BackendKind.
Proof.
  refine (inj_countable' (fun k => match k with DirectRewrite => false | Cranelift => true end)
    (fun b => if b : bool then Cranelift else DirectRewrite) _). by intros [].
Defined.

#[export] Instance BlockKey_countable : Countable BlockKey.
Proof.
  refine (inj_countable' (fun k => (guest_start k, address_space_epoch k, key_backend k))
    (fun t => mkBlockKey t.1.1 t.1.2 t.2) _). by intros [].
Defined.

Record PhysicalPageDependency : Type := mkDependency { dep_page : GuestPage; dep_generation : Z }.

Section Cache.
Context {A : Type} `{CodeAllocation A}.

Record CachedBlock : Type := mkCachedBlock {
  cached_block : CompiledBlock A;
  dependencies : list PhysicalPageDependency;
}.

Definition generations_match (self : CachedBlock) (table : PageTable) : bool :=
  forallb (fun d => match PageTable_physical_generation table (dep_page d) with
                    | Some generation => generation =? dep_generation d
                    | None => false
                    end) (dependencies self).

Definition CodeCache : Type := gmap BlockKey CachedBlock.
Definition CodeCache_default : CodeCache := ∅.

Definition CodeCache_insert (self : CodeCache) (key : BlockKey) (block : CompiledBlock A)
    (deps : list PhysicalPageDependency) : CodeCache :=
  <[key := mkCachedBlock block deps]> self.

Definition CodeCache_get (self : CodeCache) (key : BlockKey) (table : PageTable)
  : option (CompiledBlock A) :=
  entry ← self !! key;
  if generations_match entry table then Some (cached_block entry) else None.

Definition depends_on (page : GuestPage) (entry : CachedBlock) : bool :=
  existsb (fun d => dep_page d =? page) (dependencies entry).

(** The number of entries removed, and the cache without them. *)
Definition invalidate_physical_page (self : CodeCache) (page : GuestPage) : Z * CodeCache :=
  let after := filter (fun e => depends_on page e.2 = false) self in
  (Z.of_nat (size self) - Z.of_nat (size after), after).

Definition CodeCache_len (self : CodeCache) : Z := Z.of_nat (size self).
Definition CodeCache_is_empty (self : CodeCache) : bool := CodeCache_len self =? 0.
Definition CodeCache_clear (_ : CodeCache) : CodeCache := ∅.
End Cache.
Arguments CachedBlock : clear implicits.
Arguments CodeCache : clear implicits.

(** ** Compiling through the cache *)

Definition fetch_executable (memory : SoftwareAddressSpace) (start : GuestVa) (max_len : Z)
  : result CoreError (list Z) :=
  let to_top := U32_MAX - start + 1 in
  let want := Z.min max_len to_top in
  match mem_fetch memory start (Z.to_nat want) with
  | Ok bytes => Ok bytes
  | Err _ =>
    let page_remaining := GUEST_PAGE_SIZE - GuestVa_page_offset start in
    lift_memory (mem_fetch memory start (Z.to_nat (Z.min want page_remaining)))
  end.

(** [pages.entry(page).or_insert(generation)] of an ordered map. *)
Fixpoint or_insert_page (page generation : Z) (l : list PhysicalPageDependency)
  : list PhysicalPageDependency :=
  match l with
  | [] => [mkDependency page generation]
  | d :: l' =>
    if page <? dep_page d then mkDependency page generation :: l
    else if page =? dep_page d then l
    else d :: or_insert_page page generation l'
  end.

Fixpoint collect_dependencies (table : PageTable) (pages : list GuestPage)
    (deps : list PhysicalPageDependency) : result CoreError (list PhysicalPageDependency) :=
  match pages with
  | [] => Ok deps
  | page :: pages =>
    let descriptor := PageTable_get table page in
    if negb (bool_decide (PageDescriptor_kind descriptor = Ram))
    then Err (CoreMemory (UnmappedErr (GuestPage_start_va page) Execute))
    else
      let physical_page := PageDescriptor_physical_page descriptor in
      let generation := default 0 (PageTable_physical_generation table physical_page) in
      collect_dependencies table pages (or_insert_page physical_page generation deps)
  end.

Definition physical_dependencies (table : PageTable) (decoded : DecodedBlock)
  : result CoreError (list PhysicalPageDependency) :=
  range ← lift_memory (lift_address (GuestRange_new (block_start decoded) (byte_len decoded)));
  collect_dependencies table (GuestRange_pages range) [].

Section Compile.
Context `{Iced} {A : Type} `{CodeAllocation A}.
Context (flow_control : Instruction -> FlowControl) (uses_memory : Instruction -> bool)
  (format_instruction : Instruction -> string).
Context (config : EmulatorConfig).

Definition block_limits : DecodeConfig :=
  mkDecodeConfig (max_block_instructions config) (max_block_bytes config).

(** The decoded block at an address. *)
Definition decoded_block_at (memory : SoftwareAddressSpace) (start : GuestVa)
  : result CoreError DecodedBlock :=
  bytes ← fetch_executable memory start (max_block_bytes config);
  map_err CoreDecode (BasicBlockDecoder_decode flow_control block_limits start bytes).

Definition compiled_block_at (memory : SoftwareAddressSpace) (epoch : Z) (backend : BackendKind)
    (cache : CodeCache A) (start : GuestVa)
  : result CoreError (DecodedBlock * CompiledBlock A) * CodeCache A :=
  match decoded_block_at memory start with
  | Err e => (Err e, cache)
  | Ok decoded =>
    let key := mkBlockKey start epoch backend in
    match CodeCache_get cache key (mem_page_table memory) with
    | Some compiled => (Ok (decoded, compiled), cache)
    | None =>
      match physical_dependencies (mem_page_table memory) decoded with
      | Err e => (Err e, cache)
      | Ok deps =>
        match backend_compile flow_control uses_memory format_instruction backend decoded with
        | Err e => (Err (CoreJit e), cache)
        | Ok compiled =>
          (Ok (decoded, compiled), CodeCache_insert cache key compiled deps)
        end
      end
    end
  end.
End Compile.
