(* ===== verification/CodeCacheTheorems.v ===== *)
(** * Coherence of the code cache

    A block compiled through the cache is the block compiled now: whatever the
    guest has written since an entry was made, through whatever alias, an entry
    that still answers was made from the bytes now in memory. *)

From stdpp Require Import strings sorting.
From S2P Require Import Prelude GuestTypes PageTable Allocator GuestMemory SoftwareSpace SoftwareSpaceProofs SpaceTheorems Iced CpuState StepTheorems CacheTheorems BlockDecode CoreTypes CodeBuffer HostX86 Emitter EmitterTheorems CodeCache.

(** What the decoder documents besides [IcedLaws]: an instruction is
    determined by its own bytes. *)
Class IcedPrefix `{Iced} : Prop := {
  decode_prefix bytes bytes' at_ip i : u64 at_ip -> iced_decode bytes at_ip = Ok i ->
    take (Z.to_nat (len i)) bytes' = take (Z.to_nat (len i)) bytes -> iced_decode bytes' at_ip = Ok i;
}.

(** ** Blocks depend on their own bytes *)

Section Prefix.
Context `{IcedLaws} `{!IcedPrefix} (flow_control : Instruction -> FlowControl).

Lemma take_take_eq {T} (l l' : list T) n m : (m <= n)%nat -> take n l' = take n l -> take m l' = take m l.
Proof. intros Hm Heq. rewrite <- (Nat.min_l m n Hm), <- !take_take. by rewrite Heq. Qed.

Lemma decode_loop_prefix fuel config start window window' position decoded js q stop :
  u32 start -> Z.of_nat (length window) < 2 ^ 32 -> 0 <= position <= Z.of_nat (length window) ->
  length window' = length window -> take (Z.to_nat q) window' = take (Z.to_nat q) window ->
  decode_loop flow_control fuel config start window position decoded = Some (Ok (js, q, stop)) ->
  position <= q /\ decode_loop flow_control fuel config start window' position decoded = Some (Ok (js, q, stop)).
Proof.
  intros Hs Hw Hp Hlen Hq. unfold is_u in Hs. revert position decoded Hp.
  induction fuel as [|fuel IH]; intros position decoded Hp; cbn [decode_loop]; [done|]. rewrite Hlen.
  destruct (Z.ltb_spec position (Z.of_nat (length window))); cbn [negb].
  2: { intros [= -> -> ->]. done. }
  destruct (max_instructions config <=? _). { intros [= -> -> ->]. done. }
  destruct (iced_decode (drop (Z.to_nat position) window) (start + position)) as [i|e] eqn:Hd; [|done].
  assert (u64 (start + position)) as Hu by (unfold is_u; lia).
  pose proof (decode_wf _ _ _ Hu Hd) as ((_ & Hl & _) & Hle & _). rewrite length_drop in Hle.
  assert (position + len i <= q -> iced_decode (drop (Z.to_nat position) window') (start + position) = Ok i) as Hd'.
  { intros Hle'. eapply decode_prefix; [done | exact Hd|]. rewrite !take_drop_commute.
    f_equal. apply (take_take_eq window window' (Z.to_nat q)); [lia | done]. }
  destruct (bool_decide (flow_control i = FlowNext)) eqn:Hf; cbn [negb].
  - intros Hl'. destruct (IH (position + len i) (decoded ++ [i]) ltac:(lia) Hl') as [Hpq Hrun].
    split; [lia|]. rewrite Hd', Hf by lia. exact Hrun.
  - intros [= <- <- <-]. split; [lia|]. rewrite Hd', Hf by lia. done.
Qed.

(** The same bytes as far as the block goes, in a window of the same length,
    give the same block. *)
Lemma block_prefix config start bytes bytes' block : u32 start -> Z.of_nat (length bytes) < 2 ^ 32 ->
  0 <= max_bytes config -> length bytes' = length bytes ->
  take (Z.to_nat (byte_len block)) bytes' = take (Z.to_nat (byte_len block)) bytes ->
  BasicBlockDecoder_decode flow_control config start bytes = Ok block ->
  BasicBlockDecoder_decode flow_control config start bytes' = Ok block.
Proof.
  intros Hs Hb Hmb Hlen Hq. unfold BasicBlockDecoder_decode. rewrite Hlen.
  destruct (_ =? 0); [done|]. destruct (_ =? 0); [done|]. cbn zeta.
  set (w := Z.min (Z.of_nat (length bytes)) (max_bytes config)).
  assert (length (take (Z.to_nat w) bytes') = length (take (Z.to_nat w) bytes)) as Hl
    by (rewrite !length_take; lia).
  assert (decode_fuel (take (Z.to_nat w) bytes') = decode_fuel (take (Z.to_nat w) bytes)) as ->
    by (unfold decode_fuel; by rewrite Hl).
  destruct (decode_loop flow_control _ config start (take (Z.to_nat w) bytes) 0 []) as [[[[js q] st]|e]|] eqn:Hloop;
    cbn [default mbind result_bind id]; try done. intros Hok.
  assert (byte_len block = q) as Hbq by (injection Hok as <-; done). rewrite Hbq in Hq.
  eapply (decode_loop_prefix _ _ _ _ (take (Z.to_nat w) bytes')) in Hloop as [_ Hloop'];
    [| done | rewrite length_take; lia | lia | done |].
  - rewrite Hloop'. exact Hok.
  - rewrite !take_take. apply (take_take_eq bytes bytes' (Z.to_nat q)); [lia | done].
Qed.
End Prefix.

(** ** Fetching *)

(** Two spaces with the same mappings fetch alike: both fail, or both succeed
    and agree on every byte whose physical page is unchanged. *)
Lemma fetch_agrees s s' a n : space_ok s -> space_ok s' -> u32 a ->
  entries (table s') = entries (table s) -> physical_len s' = physical_len s ->
  match space_fetch s a n, space_fetch s' a n with
  | Ok bs, Ok bs' => length bs = n /\ length bs' = n /\
      (forall i, (i < n)%nat -> same_bytes s s' (backing s (a + Z.of_nat i)) -> bs' !! i = bs !! i) /\
      (forall i, (i < n)%nat -> PageDescriptor_kind (PageTable_get (table s) (GuestVa_page (a + Z.of_nat i))) = Ram)
  | Err e, Err e' => e = e'
  | _, _ => False
  end.
Proof.
  intros [Hs _] [Hs' _] Ha He Hl. unfold space_fetch. rewrite !access_read_spec by done.
  assert (access_offsets s' Execute a n = access_offsets s Execute a n) as ->.
  { unfold access_offsets. by rewrite Hl, (translate_all_entries (table s)) by done. }
  destruct (access_offsets s Execute a n) as [os|e] eqn:Ho; cbn; [|done].
  pose proof (offsets_length _ _ _ _ _ Ho) as Hlen. rewrite !length_map. split_and!; [done..| |].
  all: intros i Hi; destruct (lookup_lt_is_Some_2 os i) as [o Hoi]; [lia|];
    unfold access_offsets in Ho; rewrite decide_False in Ho by lia; (case_decide; [|by case_decide]);
    pose proof (translate_maps _ _ _ _ _ (translate_all_lookup _ _ _ _ _ _ _ _ Ho Hoi)) as Hm;
    unfold maps_ram_page in Hm; bool_to_prop; try done.
  intros Hb. rewrite !list_lookup_fmap, Hoi. cbn. f_equal. by apply Hb.
Qed.

(** The window [fetch_executable] returns has one length for both spaces. *)
Lemma executable_agrees s s' a n bs : space_ok s -> space_ok s' -> u32 a -> 0 < n ->
  entries (table s') = entries (table s) -> physical_len s' = physical_len s ->
  fetch_executable s a n = Ok bs -> exists bs',
    fetch_executable s' a n = Ok bs' /\ length bs' = length bs /\ (0 < length bs)%nat /\
    Z.of_nat (length bs) <= n /\
    (forall i, (i < length bs)%nat -> same_bytes s s' (backing s (a + Z.of_nat i)) -> bs' !! i = bs !! i) /\
    (forall i, (i < length bs)%nat ->
       PageDescriptor_kind (PageTable_get (table s) (GuestVa_page (a + Z.of_nat i))) = Ram).
Proof.
  intros Hs Hs' Ha Hn He Hl. unfold fetch_executable. change (mem_fetch s) with (space_fetch s).
  change (mem_fetch s') with (space_fetch s'). cbn zeta.
  set (want := Z.min n (U32_MAX - a + 1)).
  assert (0 < want) as Hw by (unfold want, U32_MAX, is_u in *; lia).
  pose proof (fetch_agrees s s' a (Z.to_nat want) Hs Hs' Ha He Hl) as H1.
  destruct (space_fetch s a (Z.to_nat want)) as [b1|e1], (space_fetch s' a (Z.to_nat want)) as [b1'|e1']; try done.
  - intros [= <-]. destruct H1 as (Hb & Hb' & Hi & Hr). exists b1'. rewrite Hb in *. split_and!; try done; lia.
  - assert (1 <= GUEST_PAGE_SIZE - GuestVa_page_offset a) as Hoff.
    { unfold GuestVa_page_offset. change (GUEST_PAGE_SIZE - 1) with (Z.ones 12). rewrite Z.land_ones by lia.
      pose proof (Z.mod_pos_bound a (2 ^ 12) ltac:(lia)). change GUEST_PAGE_SIZE with 4096. lia. }
    set (m := Z.min want (GUEST_PAGE_SIZE - GuestVa_page_offset a)) in *.
    pose proof (fetch_agrees s s' a (Z.to_nat m) Hs Hs' Ha He Hl) as H2.
    destruct (space_fetch s a (Z.to_nat m)) as [b2|], (space_fetch s' a (Z.to_nat m)) as [b2'|]; cbn; try done.
    intros [= <-]. destruct H2 as (Hb & Hb' & Hi & Hr). exists b2'. rewrite Hb in *.
    split_and!; try done; lia.
Qed.

(** ** Dependencies *)

(** Every recorded generation is the table's. *)
Definition deps_current (table : PageTable) (deps : list PhysicalPageDependency) : Prop :=
  Forall (fun d => dep_generation d = generation_of table (dep_page d)) deps.

Lemma or_insert_spec page generation deps (P : PhysicalPageDependency -> Prop) :
  Forall P deps -> P (mkDependency page generation) ->
  Forall P (or_insert_page page generation deps) /\
  page ∈ map dep_page (or_insert_page page generation deps) /\
  map dep_page deps ⊆ map dep_page (or_insert_page page generation deps).
Proof.
  intros Hall HP. induction Hall as [|d deps Hd Hall IH]; cbn [or_insert_page map].
  { split_and!; [by constructor | set_solver | set_solver]. }
  destruct (page <? dep_page d); [split_and!; [by repeat constructor | set_solver | set_solver]|].
  destruct (Z.eqb_spec page (dep_page d)) as [->|]; [split_and!; [by constructor | set_solver | done]|].
  destruct IH as (IH1 & IH2 & IH3). cbn [map]. split_and!; [by constructor | set_solver | set_solver].
Qed.

Lemma collect_spec table pages deps0 : deps_current table deps0 ->
  match collect_dependencies table pages deps0 with
  | Ok deps => deps_current table deps /\ map dep_page deps0 ⊆ map dep_page deps /\
      (forall p, p ∈ pages -> PageDescriptor_kind (PageTable_get table p) = Ram /\
         PageDescriptor_physical_page (PageTable_get table p) ∈ map dep_page deps)
  | Err _ => exists p, p ∈ pages /\ PageDescriptor_kind (PageTable_get table p) <> Ram
  end.
Proof.
  revert deps0. induction pages as [|p pages IH]; intros deps0 Hd; cbn [collect_dependencies].
  { split_and!; [done | done | set_solver]. }
  case_bool_decide as Hk; cbn [negb]; [|exists p; set_solver].
  destruct (or_insert_spec (PageDescriptor_physical_page (PageTable_get table p))
    (default 0 (PageTable_physical_generation table (PageDescriptor_physical_page (PageTable_get table p))))
    deps0 _ Hd eq_refl) as (Hd' & Hin & Hsub).
  specialize (IH _ Hd'). destruct (collect_dependencies _ _ _) as [deps|e].
  - destruct IH as (H1 & H2 & H3). split_and!; [done | set_solver|].
    intros q [->|Hq]%elem_of_cons; [|by apply H3]. split; [done | set_solver].
  - destruct IH as (q & Hq & Hnk). exists q. set_solver.
Qed.

(** ** The protocol *)

Section Protocol.
Context `{IcedLaws} `{!IcedPrefix} {A : Type} `{CodeAllocation A}.
Context (flow_control : Instruction -> FlowControl) (uses_memory : Instruction -> bool)
  (format_instruction : Instruction -> string).
Context (config : EmulatorConfig).
Hypothesis config_ok : 0 < max_block_instructions config /\ 0 < max_block_bytes config < 2 ^ 32.

#[local] Abbreviation compiled := (compiled_block_at flow_control uses_memory format_instruction config).
#[local] Abbreviation decoded_at := (decoded_block_at flow_control config).

(** Compilation without a cache. *)
Definition compiled_afresh (memory : SoftwareAddressSpace) (backend : BackendKind) (start : GuestVa)
  : result CoreError (DecodedBlock * CompiledBlock A) :=
  decoded ← decoded_at memory start;
  _ ← physical_dependencies (table memory) decoded;
  block ← map_err CoreJit (backend_compile flow_control uses_memory format_instruction backend decoded);
  Ok (decoded, block).

(** A cache after compilations at their time and guest writes that covered [n]
    pages in all. *)
Inductive code_cache_reach : Z -> CodeCache A -> SoftwareAddressSpace -> Prop :=
| code_reach_new s : space_ok s -> code_cache_reach 0 CodeCache_default s
| code_reach_compile n c s epoch backend start : code_cache_reach n c s -> u32 start ->
    code_cache_reach n (compiled s epoch backend c start).2 s
| code_reach_invalidate n c s page : code_cache_reach n c s ->
    code_cache_reach n (invalidate_physical_page c page).2 s
| code_reach_write n c s s' a bs : code_cache_reach n c s -> u32 a -> Forall u8 bs -> bs <> [] ->
    space_write s a bs = (Ok tt, s') ->
    code_cache_reach (n + written_pages a (Z.of_nat (length bs))) c s'.

(** Every stored block was compiled from an earlier space. *)
Definition block_recorded (n : Z) (s : SoftwareAddressSpace) (key : BlockKey) (e : CachedBlock A) : Prop :=
  exists k s0 decoded, k <= n /\ writes k s0 s /\ space_ok s0 /\ u32 (guest_start key) /\
    decoded_at s0 (guest_start key) = Ok decoded /\
    physical_dependencies (table s0) decoded = Ok (dependencies e) /\
    backend_compile flow_control uses_memory format_instruction (key_backend key) decoded = Ok (cached_block e).

Lemma code_reach_recorded n c s : code_cache_reach n c s ->
  space_ok s /\ 0 <= n /\ map_Forall (block_recorded n s) c.
Proof.
  induction 1 as [s Hs|n c s epoch backend start _ (Hs & Hn & IH) Hu|n c s page _ (Hs & Hn & IH)
                 |n c s s' a bs _ (Hs & Hn & IH) Ha Hbs Hne Hw].
  - split; [done|]. split; [lia|]. apply (map_Forall_empty (M := gmap BlockKey)).
  - split; [done|]. split; [done|]. unfold compiled_block_at.
    destruct (decoded_block_at _ _ s start) as [decoded|] eqn:Hd; [|done].
    destruct (CodeCache_get _ _ _); [done|].
    destruct (physical_dependencies _ decoded) as [deps|] eqn:Hdep; [|done].
    destruct (backend_compile _ _ _ backend decoded) as [b|] eqn:Hb; [|done].
    apply (map_Forall_insert_2 (M := gmap BlockKey)); [|done]. exists 0, s, decoded. cbn. split_and!; try done. constructor.
  - split; [done|]. split; [done|]. cbn. intros key e He. apply IH. by apply (map_lookup_filter_Some (M := gmap BlockKey)) in He as [? _].
  - destruct (write_one_page s s' a bs 0 Hs Ha Hbs Hne ltac:(done) Hw) as (Hs' & _).
    assert (0 <= written_pages a (Z.of_nat (length bs))) by (unfold written_pages; lia).
    split; [done|]. split; [lia|]. intros key e He. destruct (IH key e He) as (k & s0 & d & Hk & Hws & Hrest).
    exists (k + written_pages a (Z.of_nat (length bs))), s0, d. split; [lia|].
    split; [by eapply writes_one | done].
Qed.

(** The window a block was decoded from. *)
Lemma decoded_window s start decoded : space_ok s -> u32 start -> decoded_at s start = Ok decoded ->
  exists bytes, fetch_executable s start (max_block_bytes config) = Ok bytes /\
    BasicBlockDecoder_decode flow_control (block_limits config) start bytes = Ok decoded /\
    block_start decoded = start /\ 0 <= byte_len decoded <= Z.of_nat (length bytes) /\ Z.of_nat (length bytes) < 2 ^ 32.
Proof.
  intros Hs Hu Hd. unfold decoded_block_at in Hd. apply bind_ok_inv in Hd as (bytes & Hf & Hd).
  destruct (BasicBlockDecoder_decode _ _ _ _) as [b|] eqn:Hdec; [|done]. injection Hd as ->.
  destruct (executable_agrees s s start (max_block_bytes config) bytes) as (_ & _ & _ & _ & Hlen & _); try done; [lia|].
  exists bytes. pose proof (block_decode_spec flow_control (block_limits config) start bytes Hu ltac:(lia)
    ltac:(cbn; lia) ltac:(cbn; lia)) as Hspec. cbn zeta in Hspec. rewrite Hdec in Hspec.
  destruct Hspec as (Hst & Hrun & _ & Hle & _). rewrite length_take in Hle.
  apply run_chained in Hrun as [Hc Hb]; [|done | rewrite length_take; lia | lia].
  pose proof (total_len_nonneg _ _ Hc). split_and!; try done; lia.
Qed.

(** The dependencies of a decoded block name the page of every byte. *)
Lemma dependencies_cover s start decoded deps : u32 start ->
  block_start decoded = start -> 0 <= byte_len decoded < 2 ^ 32 ->
  physical_dependencies (table s) decoded = Ok deps ->
  deps_current (table s) deps /\
  (forall i, 0 <= i < byte_len decoded -> backing s (start + i) ∈ map dep_page deps) /\
  forall s', entries (table s') = entries (table s) -> is_ok (physical_dependencies (table s') decoded) = true.
Proof.
  intros Hu Hst Hlen Hdep. unfold physical_dependencies in *. rewrite Hst in *.
  apply bind_ok_inv in Hdep as (range & Hr & Hdep).
  destruct (GuestRange_new start (byte_len decoded)) as [r|] eqn:Hnew; [|done]. injection Hr as <-.
  assert (u64 (byte_len decoded)) as Hb64 by (unfold is_u; lia).
  pose proof (range_new_wf _ _ _ Hu Hb64 Hnew) as Hwf. apply range_new_ok_iff in Hnew as (Hpos & Hend & ->); [|done..].
  pose proof (collect_spec (table s) (GuestRange_pages (mkGuestRange start (byte_len decoded))) []
    ltac:(constructor)) as Hspec. rewrite Hdep in Hspec. destruct Hspec as (Hcur & _ & Hcov).
  split; [done|]. split.
  - intros i Hi. apply Hcov. apply pages_elem; [done|]. exists (start + i). split; [|done].
    unfold GuestRange_contains, GuestRange_end_exclusive. cbn. apply andb_true_iff. split; [apply Z.leb_le | apply Z.ltb_lt]; lia.
  - intros s' He. cbn [lift_address lift_memory map_err mbind result_bind].
    pose proof (collect_spec (table s') (GuestRange_pages (mkGuestRange start (byte_len decoded))) []
      ltac:(constructor)) as Hspec. destruct (collect_dependencies (table s') _ _) as [|e]; [done|].
    destruct Hspec as (p & Hp & Hk). destruct Hk. unfold PageTable_get. rewrite He. by apply Hcov.
Qed.

(** An entry that answers was compiled from what is decoded now. *)
Lemma code_hit_current n c s epoch backend start b decoded : code_cache_reach n c s -> n < 65536 -> u32 start ->
  decoded_at s start = Ok decoded ->
  CodeCache_get c (mkBlockKey start epoch backend) (table s) = Some b ->
  backend_compile flow_control uses_memory format_instruction backend decoded = Ok b /\
  is_ok (physical_dependencies (table s) decoded) = true.
Proof.
  intros Hc Hn Hu Hdec Hget. apply code_reach_recorded in Hc as (Hs & _ & Hall).
  unfold CodeCache_get in Hget. destruct (c !! _) as [e|] eqn:He; [|done]. cbn [mbind option_bind] in Hget.
  destruct (generations_match e (table s)) eqn:Hm; [|done]. injection Hget as <-.
  destruct (Hall _ _ He) as (k & s0 & d0 & Hk & Hw & Hs0 & _ & Hd0 & Hdep & Hcomp). cbn [guest_start key_backend] in *.
  destruct (decoded_window s0 start d0 Hs0 Hu Hd0) as (bytes0 & Hf0 & Hdec0 & Hst & Hlen & Hmax).
  destruct (dependencies_cover s0 start d0 _ Hu Hst ltac:(lia) Hdep) as (Hcur & Hcov & Hok).
  destruct (writes_page k s0 s 0 Hw Hs0 ltac:(done)) as (_ & Hent & Hplen & _).
  destruct (executable_agrees s0 s start (max_block_bytes config) bytes0) as (bytes & Hf & Hl & _ & _ & Hsame & _);
    try done; [lia|].
  assert (d0 = decoded) as <-.
  2: { split; [done|]. by apply Hok. }
  unfold decoded_block_at in Hdec. rewrite Hf in Hdec. cbn [mbind result_bind] in Hdec.
  rewrite (block_prefix flow_control (block_limits config) start bytes0 bytes d0) in Hdec;
    [by injection Hdec | done | done | cbn; lia | done | | done].
  apply list_eq. intros i. destruct (decide (i < Z.to_nat (byte_len d0))%nat) as [Hi|].
  2: { rewrite !lookup_take_ge by lia. done. }
  rewrite !lookup_take_lt by done. apply Hsame; [lia|].
  assert (backing s0 (start + Z.of_nat i) ∈ map dep_page (dependencies e)) as Hin by (apply Hcov; lia).
  apply (generation_unchanged k); [done | lia | done | apply backing_in_range|].
  apply list_elem_of_fmap in Hin as (dep & Hp & Hdin). rewrite Hp.
  unfold deps_current in Hcur. rewrite Forall_forall in Hcur. rewrite <- (Hcur _ Hdin).
  unfold generations_match in Hm. rewrite forallb_forall in Hm. specialize (Hm dep (proj1 (list_elem_of_In _ _) Hdin)).
  unfold generation_of. destruct (PageTable_physical_generation (table s) (dep_page dep)); [|done].
  by apply Z.eqb_eq in Hm.
Qed.
End Protocol.

(** C8: The code cache is transparent.  With any cache built by compiling
    blocks, dropping pages, and guest writes covering fewer than 2^16 pages in
    all, compiling a block through the cache answers what compiling it afresh
    answers, errors included: a block whose bytes changed, through whatever
    alias, is never served from the cache.  The cache it leaves is again such
    a cache. *)
Theorem code_cache_transparent `{IcedLaws} `{!IcedPrefix} {A} `{CodeAllocation A}
    (flow_control : Instruction -> FlowControl) (uses_memory : Instruction -> bool)
    (format_instruction : Instruction -> string) config n c s epoch backend start :
  0 < max_block_instructions config /\ 0 < max_block_bytes config < 2 ^ 32 ->
  code_cache_reach (A := A) flow_control uses_memory format_instruction config n c s ->
  n < 65536 -> u32 start ->
  let '(outcome, c') := compiled_block_at flow_control uses_memory format_instruction config s epoch backend c start in
  outcome = compiled_afresh flow_control uses_memory format_instruction config s backend start /\
  code_cache_reach flow_control uses_memory format_instruction config n c' s.
Proof.
  intros Hcfg Hc Hn Hu.
  destruct (compiled_block_at _ _ _ config s epoch backend c start) as [outcome c'] eqn:Hrun. split.
  2: { replace c' with (compiled_block_at flow_control uses_memory format_instruction config s epoch backend c start).2
         by (by rewrite Hrun). by constructor. }
  unfold compiled_block_at in Hrun. unfold compiled_afresh.
  destruct (decoded_block_at flow_control config s start) as [decoded|e] eqn:Hd; [|by simplify_eq].
  cbn [mbind result_bind]. change (mem_page_table s) with (table s) in Hrun.
  destruct (CodeCache_get c _ (table s)) as [b|] eqn:Hget.
  - destruct (code_hit_current _ _ _ _ Hcfg _ _ _ _ _ _ _ _ Hc Hn Hu Hd Hget) as [-> Hok].
    destruct (physical_dependencies (table s) decoded); [|done]. by simplify_eq.
  - destruct (physical_dependencies (table s) decoded) as [deps|]; [|by simplify_eq].
    cbn [mbind result_bind]. destruct (backend_compile _ _ _ backend decoded); by simplify_eq.
Qed.

(** ** Patched code: [nop] over the [ret] of a compiled block *)

Lemma demo_iced_prefix : @IcedPrefix DemoIced.
Proof.
  split. intros bytes bytes' at_ip i _ Hd Htake. cbn [iced_decode DemoIced] in *.
  assert (len i = 1) as Hl.
  { unfold demo_decode in Hd. repeat case_match; by simplify_eq. }
  rewrite Hl in Htake. change (Z.to_nat 1) with 1%nat in Htake.
  destruct bytes as [|b bytes]; [done|]. destruct bytes' as [|b' bytes']; [done|]. by injection Htake as ->.
Qed.

#[local] Existing Instance DemoIced.
#[local] Existing Instance demo_iced_laws.
#[local] Existing Instance demo_iced_prefix.
#[local] Existing Instance portable_code.

Definition demo_config : EmulatorConfig := mkEmulatorConfig 0x8000 DirectRewrite 2 16 1.

Definition demo_compile (s : SoftwareAddressSpace) (c : CodeCache Z) :=
  compiled_block_at demo_flow (fun _ => false) (fun _ => EmptyString) demo_config s 1 DirectRewrite c 0x5000.

Definition action_count (r : result CoreError (DecodedBlock * CompiledBlock Z)) : option nat :=
  match r with Ok p => Some (length (plan_actions (plan p.2))) | Err _ => None end.

Lemma code_cache_transparent_witness :
  let first := demo_compile demo_code CodeCache_default in
  action_count first.1 = Some 1%nat /\
  action_count (demo_compile demo_patched first.2).1 = Some 2%nat /\
  (demo_compile demo_patched first.2).1 =
    compiled_afresh demo_flow (fun _ => false) (fun _ => EmptyString) demo_config demo_patched DirectRewrite 0x5000.
Proof.
  cbn zeta. split; [by vm_compute|]. split; [by vm_compute|].
  pose proof (code_cache_transparent demo_flow (fun _ => false) (fun _ => EmptyString) demo_config
    (0 + written_pages 0x5000 (Z.of_nat (length [0x90]))) (demo_compile demo_code CodeCache_default).2
    demo_patched 1 DirectRewrite 0x5000) as Hok.
  unfold demo_compile at 1. destruct (compiled_block_at _ _ _ _ demo_patched _ _ _ _) as [outcome c'].
  apply Hok.
  - cbn. lia.
  - apply (code_reach_write _ _ _ _ 0 _ demo_code); [|unfold is_u; lia | | |by vm_compute].
    + apply code_reach_compile; [apply code_reach_new, demo_code_space_ok | unfold is_u; lia].
    + repeat constructor; unfold is_u; lia.
    + discriminate.
  - by vm_compute.
  - unfold is_u. lia.
Defined.
