(* ===== verification/Mmio.v ===== *)
(** * Device space

    Models [exbawks-core/src/mmio.rs]: the regions of device space, the
    latched registers with their overrides, the display controller's
    interrupt, the pushbuffer submissions, the DSP mailbox pages, the claimed
    instance memory behind the [PRAMIN] window, and the view that lays device
    space over RAM; and [DevicePorts] of [emulator.rs].

    Every field of [DeviceSpace] has its own lock and no operation of the
    machine is concurrent with another, so an operation is a function of the
    record.  The latched I/O ports are reached through [DevicePorts] only and
    are kept apart from the rest.  A caller's buffer is zeroed, so the bytes a
    read does not fill are zero. *)

From S2P Require Import Prelude GuestTypes PageTable Allocator GuestMemory SoftwareSpace Exec UsbDevice Ohci.

Definition DEVICE_SPACE_START : Z := 0xFD000000.
Definition DEVICE_SPACE_END : Z := 0xFF000000.
Definition USB_BASE : Z := 0xFED00000.
Definition USB_LAST : Z := USB_BASE + 0x0FFF.

Inductive DeviceRegion : Type := Gpu | Usb | Apu | Ac97 | OtherDevice.

#[export] Instance DeviceRegion_eq_dec : EqDecision DeviceRegion.
Proof. solve_decision. Defined.

(** [lo..=hi]. *)
Definition within (lo hi x : Z) : bool := (lo <=? x) && (x <=? hi).

Definition DeviceRegion_of (address : Z) : DeviceRegion :=
  if within 0xFD000000 0xFDFFFFFF address then Gpu
  else if within USB_BASE USB_LAST address then Usb
  else if within 0xFE800000 0xFE87FFFF address then Apu
  else if within 0xFEC00000 0xFEC0FFFF address then Ac97
  else OtherDevice.

Definition PMC_INTR : Z := 0xFD000100.
Definition PMC_INTR_ENABLE : Z := 0xFD000140.
Definition PMC_INTR_PCRTC : Z := Z.shiftl 1 24.
Definition PCRTC_INTR : Z := 0xFD600100.
Definition PCRTC_INTR_ENABLE : Z := 0xFD600140.
Definition PCRTC_INTR_VBLANK : Z := Z.shiftl 1 0.

Record Vblank : Type := mkVblank {
  vblank_pending : bool;
  vblank_enable : Z;
  master_enable : Z;
}.

Definition PRAMIN_BASE : Z := 0xFD700000.
Definition NV_USER_START : Z := 0xFD800000.
Definition NV_USER_END : Z := 0xFDA00000.
Definition APU_GP_COMM_BASE : Z := 0xFE820808.
Definition GP_MAILBOX_PAGE_OFFSET : Z := 0x1000.

(** Reads and writes of a region. *)
Definition RegionStats : Type := Z * Z.

Record DeviceSpace : Type := mkDeviceSpace {
  stats : list RegionStats;
  vblank : Vblank;
  read_counts : gmap Z Z;
  usb : OhciController;
  dev_registers : gmap Z Z;
  mailbox_pages : list Z;
  mailbox_head : option Z;
  pramin : option (Z * Z);
  submissions : list (Z * Z * Z);
}.

Definition DeviceSpace_default : DeviceSpace :=
  mkDeviceSpace (replicate 5 (0, 0)) (mkVblank false 0 0) ∅ OhciController_default ∅ [] None None [].

Definition with_stats (d : DeviceSpace) v : DeviceSpace :=
  mkDeviceSpace v (vblank d) (read_counts d) (usb d) (dev_registers d) (mailbox_pages d) (mailbox_head d) (pramin d) (submissions d).
Definition with_vblank (d : DeviceSpace) v : DeviceSpace :=
  mkDeviceSpace (stats d) v (read_counts d) (usb d) (dev_registers d) (mailbox_pages d) (mailbox_head d) (pramin d) (submissions d).
Definition with_read_counts (d : DeviceSpace) v : DeviceSpace :=
  mkDeviceSpace (stats d) (vblank d) v (usb d) (dev_registers d) (mailbox_pages d) (mailbox_head d) (pramin d) (submissions d).
Definition with_usb (d : DeviceSpace) v : DeviceSpace :=
  mkDeviceSpace (stats d) (vblank d) (read_counts d) v (dev_registers d) (mailbox_pages d) (mailbox_head d) (pramin d) (submissions d).
Definition with_dev_registers (d : DeviceSpace) v : DeviceSpace :=
  mkDeviceSpace (stats d) (vblank d) (read_counts d) (usb d) v (mailbox_pages d) (mailbox_head d) (pramin d) (submissions d).
Definition with_mailbox_pages (d : DeviceSpace) v : DeviceSpace :=
  mkDeviceSpace (stats d) (vblank d) (read_counts d) (usb d) (dev_registers d) v (mailbox_head d) (pramin d) (submissions d).
Definition with_mailbox_head (d : DeviceSpace) v : DeviceSpace :=
  mkDeviceSpace (stats d) (vblank d) (read_counts d) (usb d) (dev_registers d) (mailbox_pages d) v (pramin d) (submissions d).
Definition with_pramin (d : DeviceSpace) v : DeviceSpace :=
  mkDeviceSpace (stats d) (vblank d) (read_counts d) (usb d) (dev_registers d) (mailbox_pages d) (mailbox_head d) v (submissions d).
Definition with_submissions (d : DeviceSpace) v : DeviceSpace :=
  mkDeviceSpace (stats d) (vblank d) (read_counts d) (usb d) (dev_registers d) (mailbox_pages d) (mailbox_head d) (pramin d) v.

(** ** Classification *)

Definition device_contains (address : Z) (len : nat) : bool :=
  (DEVICE_SPACE_START <=? address) && (address + Z.of_nat len <=? DEVICE_SPACE_END).

Definition region_slot (region : DeviceRegion) : nat :=
  match region with
  | Gpu => 0 | Apu => 1 | Ac97 => 2 | Usb => 3 | OtherDevice => 4
  end%nat.

(** [stats[slot].reads += 1] and [.writes += 1]. *)
Definition count_read (d : DeviceSpace) (region : DeviceRegion) : DeviceSpace :=
  with_stats d (alter (fun s => (wrap64 (s.1 + 1), s.2)) (region_slot region) (stats d)).
Definition count_write (d : DeviceSpace) (region : DeviceRegion) : DeviceSpace :=
  with_stats d (alter (fun s => (s.1, wrap64 (s.2 + 1))) (region_slot region) (stats d)).

(** ** The USB controller and the display *)

Definition set_gamepad_attached (d : DeviceSpace) (attached : bool) : DeviceSpace :=
  with_usb d (set_attached (usb d) attached).
Definition set_gamepad_state (d : DeviceSpace) (state : GamepadState) : DeviceSpace :=
  with_usb d (set_state (usb d) state).

Definition raise_vblank (d : DeviceSpace) : DeviceSpace :=
  if has_bits (vblank_enable (vblank d)) PCRTC_INTR_VBLANK
  then with_vblank d (mkVblank true (vblank_enable (vblank d)) (master_enable (vblank d))) else d.

Definition vblank_interrupt_pending (d : DeviceSpace) : bool :=
  vblank_pending (vblank d) && has_bits (vblank_enable (vblank d)) PCRTC_INTR_VBLANK &&
  has_bits (master_enable (vblank d)) 1.

Definition usb_interrupt_pending (d : DeviceSpace) : bool := interrupt_pending (usb d).
Definition usb_operational (d : DeviceSpace) : bool := operational (usb d).
Definition usb_hcca (d : DeviceSpace) : Z := hcca (usb d).
Definition usb_frame (d : DeviceSpace) : Z := frame (usb d).
Definition usb_accesses (d : DeviceSpace) : list (Z * Z) := accesses (usb d).
Definition usb_port (d : DeviceSpace) : Z * Z := (port_at (usb d) GAMEPAD_PORT, port_writes (usb d)).
Definition usb_device_state (d : DeviceSpace) : Z * bool := (address (device (usb d)), configured (device (usb d))).

(** [for _ in 0..frames { usb.advance_frame(memory) }]. *)
Fixpoint advance_usb_frames {M} `{UsbMemory M} (d : DeviceSpace) (mem : M) (frames : nat) : DeviceSpace * M :=
  match frames with
  | O => (d, mem)
  | S frames =>
    let '(u, mem) := advance_frame (usb d) mem in advance_usb_frames (with_usb d u) mem frames
  end.

Definition latched (d : DeviceSpace) (address : Z) : option Z := dev_registers d !! address.
Definition register_value (d : DeviceSpace) (address : Z) : option Z := dev_registers d !! address.

(** ** Registers *)

(** The registers of the interrupt controllers, served from [Vblank]. *)
Definition is_interrupt_register (address : Z) : bool :=
  (address =? PMC_INTR) || (address =? PMC_INTR_ENABLE) ||
  (address =? PCRTC_INTR) || (address =? PCRTC_INTR_ENABLE).

Definition interrupt_value (v : Vblank) (address : Z) : Z :=
  if address =? PCRTC_INTR then bool_u (vblank_pending v) * PCRTC_INTR_VBLANK
  else if address =? PCRTC_INTR_ENABLE then vblank_enable v
  else if address =? PMC_INTR_ENABLE then master_enable v
  else if vblank_pending v && has_bits (vblank_enable v) PCRTC_INTR_VBLANK then PMC_INTR_PCRTC else 0.

Definition interrupt_write (v : Vblank) (address value : Z) : Vblank :=
  if address =? PCRTC_INTR then
    if has_bits value PCRTC_INTR_VBLANK then mkVblank false (vblank_enable v) (master_enable v) else v
  else if address =? PCRTC_INTR_ENABLE then mkVblank (vblank_pending v) value (master_enable v)
  else if address =? PMC_INTR_ENABLE then mkVblank (vblank_pending v) (vblank_enable v) value
  else v.

Definition READY_OVERRIDES : list Z := [0xFE820010; 0xFEC00130].
Definition VALUE_OVERRIDES : list (Z * Z) :=
  [(0xFD002080, 0x10); (0xFD002400, 0x10); (0xFD003214, 0x10); (0xFD003220, 0x101)].
Definition SELF_CLEAR : list Z := [0xFD100410; 0xFD002100; 0xFD009100; 0xFD400100].

Definition ac97_channel_control (address : Z) : bool :=
  within 0xFEC00100 0xFEC001FF address && (Z.land address 0xF =? 0xB).

(** A zeroed buffer of [n] bytes with a word copied to its start, as much of
    it as fits. *)
Definition word_into (value : Z) (n : nat) : list Z :=
  take n (to_le_bytes 4 value) ++ replicate (n - 4) 0.

(** [counts.entry(address).or_insert(0) += 1], at most 4096 registers. *)
Definition count_register_read (counts : gmap Z Z) (address : Z) : gmap Z Z :=
  if (Z.of_nat (size counts) <? 4096) || bool_decide (is_Some (counts !! address))
  then <[address := wrap64 (default 0 (counts !! address) + 1)]> counts else counts.

(** The registers read most: by falling count, then by rising address. *)
Definition busier (a b : Z * Z) : bool := (b.2 <? a.2) || ((b.2 =? a.2) && (a.1 <=? b.1)).
Fixpoint insert_busy (e : Z * Z) (l : list (Z * Z)) : list (Z * Z) :=
  match l with
  | [] => [e]
  | b :: l' => if busier e b then e :: l else b :: insert_busy e l'
  end.
Definition busiest_reads (d : DeviceSpace) (limit : nat) : list (Z * Z) :=
  take limit (foldr insert_busy [] (map_to_list (read_counts d))).

(** What an ordinary register reads. *)
Definition register_bytes (d : DeviceSpace) (address : Z) (n : nat) : list Z :=
  if bool_decide (address ∈ READY_OVERRIDES) then replicate n 0xFF
  else match List.find (fun p => p.1 =? address) VALUE_OVERRIDES with
  | Some (_, value) => word_into value n
  | None =>
    if ac97_channel_control address || bool_decide (address ∈ SELF_CLEAR) then replicate n 0
    else match dev_registers d !! address with
         | Some value => word_into value n
         | None => replicate n 0
         end
  end.

Definition device_read (d : DeviceSpace) (address : Z) (n : nat) : list Z * DeviceSpace :=
  let d := with_read_counts d (count_register_read (read_counts d) address) in
  if is_interrupt_register address
  then (word_into (interrupt_value (vblank d) address) n, count_read d Gpu)
  else if bool_decide (DeviceRegion_of address = Usb) then
    let '(value, u) := ohci_read (usb d) (address - USB_BASE) in
    (word_into value n, count_read (with_usb d u) Usb)
  else (register_bytes d address n, count_read d (DeviceRegion_of address)).

Definition is_dma_put (address : Z) : bool :=
  (NV_USER_START <=? address) && (address <? NV_USER_END) && (Z.land address 0xFFFF =? 0x40).

(** A pushbuffer submission: GET snaps to PUT. *)
Definition submit_pushbuffer (d : DeviceSpace) (address value : Z) : DeviceSpace :=
  let get_register := address + 4 in
  let get_before := default value (dev_registers d !! get_register) in
  let d := with_dev_registers d (<[get_register := value]> (dev_registers d)) in
  with_submissions d (submissions d ++ [(Z.land address (not32 0xFFFF), get_before, value)]).

(** A comm region's mailbox page. *)
Definition identify_mailbox (d : DeviceSpace) (value : Z) : DeviceSpace :=
  let page := Z.land (wrapping_add32 (Z.lor 0x80000000 value) GP_MAILBOX_PAGE_OFFSET) (not32 0xFFF) in
  if bool_decide (page ∈ mailbox_pages d) then d
  else with_mailbox_pages d (mailbox_pages d ++ [page]).

(** The first four bytes of the input, the missing ones zero. *)
Definition write_value (input : list Z) : Z := from_le_bytes (take 4 input ++ replicate (4 - length input) 0).

Definition device_write (d : DeviceSpace) (address : Z) (input : list Z) : DeviceSpace :=
  let value := write_value input in
  if is_interrupt_register address
  then count_write (with_vblank d (interrupt_write (vblank d) address value)) Gpu
  else if bool_decide (DeviceRegion_of address = Usb)
  then count_write (with_usb d (ohci_write (usb d) (address - USB_BASE) value)) Usb
  else
    let d := if is_dma_put address then submit_pushbuffer d address value else d in
    let d := if (address =? APU_GP_COMM_BASE) && negb (value =? 0) then identify_mailbox d value else d in
    let d := with_dev_registers d (<[address := value]> (dev_registers d)) in
    count_write d (DeviceRegion_of address).

Definition set_pramin (d : DeviceSpace) (base_va size : Z) : DeviceSpace := with_pramin d (Some (base_va, size)).

Definition pramin_target (d : DeviceSpace) (address : Z) (len : nat) : option Z :=
  region ← pramin d;
  let '(base_va, size) := region in
  offset ← checked_sub address PRAMIN_BASE;
  if offset + Z.of_nat len <=? size then Some (wrapping_add32 base_va offset) else None.

Definition take_submissions (d : DeviceSpace) : list (Z * Z * Z) * DeviceSpace :=
  (submissions d, with_submissions d []).

Definition pramin_region (d : DeviceSpace) : option (Z * Z) := pramin d.

Definition in_mailbox (d : DeviceSpace) (address : Z) (len : nat) : bool :=
  existsb (fun page => (page <=? address) && (address + Z.of_nat len <=? page + 0x1000)) (mailbox_pages d).

Definition routes (d : DeviceSpace) (address : Z) : bool :=
  device_contains address 1 || in_mailbox d address 1.

Definition consume_mailbox_write (d : DeviceSpace) (address : Z) : DeviceSpace :=
  with_mailbox_head d (Some address).
Definition mailbox_consumed (d : DeviceSpace) (address : Z) : bool :=
  bool_decide (mailbox_head d = Some address).

(** ** The view *)

Record MmioView : Type := mkMmioView { view_ram : SoftwareAddressSpace; view_devices : DeviceSpace }.

Definition with_view_ram (v : MmioView) (s : SoftwareAddressSpace) : MmioView := mkMmioView s (view_devices v).
Definition with_view_devices (v : MmioView) (d : DeviceSpace) : MmioView := mkMmioView (view_ram v) d.

(** A read with the counters it moves. *)
Definition view_read (v : MmioView) (address : GuestVa) (n : nat)
  : result MemoryError (list Z) * MmioView :=
  match pramin_target (view_devices v) address n with
  | Some target => (mem_read (view_ram v) target n, v)
  | None =>
    if in_mailbox (view_devices v) address n then
      if mailbox_consumed (view_devices v) address then (Ok (replicate n 0), v)
      else (mem_read (view_ram v) address n, v)
    else if device_contains address n then
      let '(bytes, d) := device_read (view_devices v) address n in (Ok bytes, with_view_devices v d)
    else (mem_read (view_ram v) address n, v)
  end.

Definition view_write (v : MmioView) (address : GuestVa) (input : list Z)
  : result MemoryError unit * MmioView :=
  let ram_write v a := let '(r, s) := mem_write (view_ram v) a input in (r, with_view_ram v s) in
  match pramin_target (view_devices v) address (length input) with
  | Some target => ram_write v target
  | None =>
    if in_mailbox (view_devices v) address (length input)
    then ram_write (with_view_devices v (consume_mailbox_write (view_devices v) address)) address
    else if device_contains address (length input)
    then (Ok tt, with_view_devices v (device_write (view_devices v) address input))
    else ram_write v address
  end.

(** The interpreter's memory.  What a read moves are counters no guest access
    sees ([counters_unobservable]), so the interface's read leaves them. *)
#[export] Instance MmioView_GuestMemory : GuestMemory MmioView := {
  mem_read := fun v a n => (view_read v a n).1;
  mem_fetch := fun v a n => mem_fetch (view_ram v) a n;
  mem_write := view_write;
  mem_page_table := fun v => mem_page_table (view_ram v);
}.

(** ** Ports *)

Definition DevicePorts : Type := gmap Z Z.

Definition device_port_read (d : DevicePorts) (port : Z) : Z := default 0 (d !! port).
Definition device_port_write (d : DevicePorts) (port value : Z) : DevicePorts := <[port := value]> d.

#[export] Instance DevicePorts_bus : PortBus DevicePorts := {
  port_read := fun d port _ => (device_port_read d port, d);
  port_write := fun d port _ value => device_port_write d port value;
}.
