(* ===== verification/MmioTheorems.v ===== *)
(** * What device space remembers

    The view is a memory the interpreter can run on; its counters cannot be
    observed; registers remember exactly what was last written to them; and
    the pushbuffer ranges handed to the graphics engine join up. *)

From S2P Require Import Prelude GuestTypes PageTable Allocator GuestMemory SoftwareSpace SpaceTheorems Exec UsbDevice Ohci OhciInvariant Mmio.

(** ** A memory for the interpreter *)

Lemma word_into_bytes value n : length (word_into value n) = n /\ Forall u8 (word_into value n).
Proof.
  unfold word_into. split.
  - rewrite length_app, length_take, length_replicate, length_to_le_bytes. lia.
  - apply Forall_app. split; [apply Forall_take, to_le_bytes_u8|]. apply Forall_replicate. unfold is_u. lia.
Qed.

Lemma replicate_bytes n b : u8 b -> length (replicate n b) = n /\ Forall u8 (replicate n b).
Proof. intros. split; [apply length_replicate | by apply Forall_replicate]. Qed.

Lemma register_bytes_bytes d a n : length (register_bytes d a n) = n /\ Forall u8 (register_bytes d a n).
Proof.
  unfold register_bytes.
  repeat case_match; first [apply word_into_bytes | apply replicate_bytes; unfold is_u; lia].
Qed.

Lemma device_read_bytes d a n : length (device_read d a n).1 = n /\ Forall u8 (device_read d a n).1.
Proof.
  unfold device_read. case_match; [apply word_into_bytes|]. case_match; [|apply register_bytes_bytes].
  destruct (ohci_read _ _). apply word_into_bytes.
Qed.

Lemma pramin_target_u32 d a n t : pramin_target d a n = Some t -> u32 t.
Proof.
  unfold pramin_target. intros ([base size] & _ & Ht)%bind_Some. apply bind_Some in Ht as (o & _ & Ht).
  case_match; [|done]. injection Ht as <-. apply u32_wrapping_add.
Qed.

Lemma device_write_pad d a bs : pad_ok (usb d) -> pad_ok (usb (device_write d a bs)).
Proof.
  intros Hd. unfold device_write. case_match; [done|]. case_match; [by apply pad_write|].
  unfold submit_pushbuffer, identify_mailbox. by repeat case_match.
Qed.

(** Reads through the view are typed and writes keep RAM well formed, so the
    interpreter's invariant holds over devices too.  The rest of what memory
    promises does not: registers clear themselves, and a mailbox write that
    RAM refuses has already moved the head. *)
#[export] Instance MmioView_typed : GuestMemoryTyped MmioView.
Proof.
  refine {| mem_ok := fun v => ram_ok (view_ram v) /\ pad_ok (usb (view_devices v)) |}; cbn [mem_read mem_fetch mem_write MmioView_GuestMemory].
  - intros v a n bs [Hv _] Ha. unfold view_read. destruct (pramin_target _ _ _) as [t|] eqn:Ht.
    { apply (read_bytes (Mem := SoftwareAddressSpace)); [done | by eapply pramin_target_u32]. }
    case_match; [case_match|].
    + intros [= <-]. apply replicate_bytes. unfold is_u. lia.
    + by apply (read_bytes (Mem := SoftwareAddressSpace)).
    + case_match; [|by apply (read_bytes (Mem := SoftwareAddressSpace))].
      pose proof (device_read_bytes (view_devices v) a n). destruct (device_read _ _ _) as [bytes d].
      intros [= <-]. done.
  - intros v a n bs [Hv _] Ha. by apply (fetch_bytes (Mem := SoftwareAddressSpace)).
  - intros v a bs r v' [Hv Hp] Ha Hbs.
    assert (forall (w : MmioView) t, u32 t -> ram_ok (view_ram w) -> pad_ok (usb (view_devices w)) ->
      (let '(r, s) := mem_write (view_ram w) t bs in (r, with_view_ram w s)) = (r, v') ->
      ram_ok (view_ram v') /\ pad_ok (usb (view_devices v'))) as Hram.
    { intros w t Ht Hw Hpw. destruct (mem_write (view_ram w) t bs) as [r' s] eqn:Hrun. intros [= <- <-].
      split; [|done]. by eapply (GuestMemory.write_ok (Mem := SoftwareAddressSpace)) in Hrun. }
    unfold view_write. destruct (pramin_target _ _ _) as [t|] eqn:Ht.
    { apply Hram; [by eapply pramin_target_u32 | done | done]. }
    case_match; [by apply Hram|]. case_match; [|by apply Hram].
    intros [= <- <-]. split; [done | by apply device_write_pad].
Defined.

(** ** Counters cannot be observed *)

(** The state without its access counters. *)
Definition forget_usb (c : OhciController) : OhciController := with_accesses c [].
Definition forget (d : DeviceSpace) : DeviceSpace :=
  with_stats (with_read_counts (with_usb d (forget_usb (usb d))) ∅) [].

(** Equal but for the counters. *)
#[export] Instance DeviceSpace_equiv : Equiv DeviceSpace := fun d d' => forget d = forget d'.
#[export] Instance DeviceSpace_equivalence : Equivalence (≡@{DeviceSpace}).
Proof. split; unfold equiv, DeviceSpace_equiv; congruence. Qed.

#[export] Instance MmioView_equiv : Equiv MmioView := fun v v' =>
  view_ram v = view_ram v' /\ view_devices v ≡ view_devices v'.
#[export] Instance MmioView_equivalence : Equivalence (≡@{MmioView}).
Proof.
  split.
  - intros v. by split.
  - intros v v' [? ?]. split; by symmetry.
  - intros v v' v'' [? ?] [? ?]. split; [congruence | by etransitivity].
Qed.

Lemma write_port_accesses c l i v : write_port (with_accesses c l) i v = with_accesses (write_port c i v) l.
Proof.
  unfold write_port. destruct (ROOT_PORTS <=? i)%nat; [done|]. cbn zeta.
  change (attached (with_port_writes (with_accesses c l) ?x)) with (attached c).
  change (attached (with_port_writes c ?x)) with (attached c).
  destruct (has_bits v port.SET_RESET), (attached c && (i =? GAMEPAD_PORT)%nat); reflexivity.
Qed.

Lemma ohci_reset_accesses c l : ohci_reset (with_accesses c l) = with_accesses (ohci_reset c) l.
Proof. unfold ohci_reset. cbn zeta. change (attached (with_accesses c l)) with (attached c). by destruct (attached c). Qed.

Lemma ohci_write_accesses c l o v :
  ohci_write (with_accesses c l) o v =
  with_accesses (ohci_write c o v) (alter (fun p => (p.1, saturating_add 64 p.2 1)) (slot o) l).
Proof.
  set (l' := alter _ (slot o) l).
  assert (count_access (fun p => (p.1, saturating_add 64 p.2 1)) (with_accesses c l) o =
          with_accesses (count_access (fun p => (p.1, saturating_add 64 p.2 1)) c o) l') as Hc by done.
  unfold ohci_write. rewrite Hc. set (c1 := count_access _ c o).
  destruct (in_ports o); [apply write_port_accesses|].
  destruct (o =? register.INTERRUPT_STATUS); [done|].
  destruct (o =? register.INTERRUPT_ENABLE); [done|].
  destruct (o =? register.INTERRUPT_DISABLE); [done|].
  destruct (o =? register.COMMAND_STATUS).
  { destruct (has_bits v COMMAND_RESET); [|done]. rewrite <- ohci_reset_accesses. done. }
  destruct (o =? register.RH_STATUS); [done|].
  destruct (_ || (o =? register.FM_NUMBER)); [done|].
  destruct (o =? register.RH_DESCRIPTOR_A); done.
Qed.

Lemma forget_usb_write c c' o v : forget_usb c = forget_usb c' ->
  forget_usb (ohci_write c o v) = forget_usb (ohci_write c' o v).
Proof.
  intros Heq.
  assert (forall c, forget_usb (ohci_write c o v) = forget_usb (ohci_write (forget_usb c) o v)) as Hf.
  { intros c0. unfold forget_usb at 3. rewrite ohci_write_accesses. done. }
  by rewrite (Hf c), (Hf c'), Heq.
Qed.

Lemma forget_usb_read c c' o : forget_usb c = forget_usb c' ->
  (ohci_read c o).1 = (ohci_read c' o).1 /\ forget_usb (ohci_read c o).2 = forget_usb c.
Proof.
  intros Heq. split; [|done].
  assert (registers c = registers c') as Hr by exact (f_equal registers Heq).
  assert (port_status c = port_status c') as Hp by exact (f_equal port_status Heq).
  assert (frame c = frame c') as Hf by exact (f_equal frame Heq).
  unfold ohci_read, reg, count_access. cbn [fst registers port_status frame with_accesses]. by rewrite Hr, Hp, Hf.
Qed.

(** The parts two equivalent device spaces share. *)
Lemma forget_parts d d' : d ≡ d' <->
  vblank d = vblank d' /\ forget_usb (usb d) = forget_usb (usb d') /\ dev_registers d = dev_registers d' /\
  mailbox_pages d = mailbox_pages d' /\ mailbox_head d = mailbox_head d' /\ pramin d = pramin d' /\
  submissions d = submissions d'.
Proof.
  unfold equiv, DeviceSpace_equiv, forget. split.
  - intros Heq. split_and!;
      [exact (f_equal vblank Heq) | exact (f_equal usb Heq) | exact (f_equal dev_registers Heq)
      |exact (f_equal mailbox_pages Heq) | exact (f_equal mailbox_head Heq) | exact (f_equal pramin Heq)
      |exact (f_equal submissions Heq)].
  - intros (Hv & Hu & Hr & Hp & Hh & Hpr & Hs). unfold with_stats, with_read_counts, with_usb. cbn. congruence.
Qed.

Lemma device_read_equiv d d' a n : d ≡ d' ->
  (device_read d a n).1 = (device_read d' a n).1 /\ (device_read d a n).2 ≡ d.
Proof.
  intros Hd. pose proof Hd as (Hv & Hu & Hr & _)%forget_parts. unfold device_read. cbn [vblank usb with_read_counts].
  destruct (is_interrupt_register a); [split; [by rewrite Hv | by apply forget_parts]|].
  case_bool_decide.
  - destruct (forget_usb_read _ _ (a - USB_BASE) Hu) as [Hval Hst].
    destruct (ohci_read (usb d) _) as [x u], (ohci_read (usb d') _) as [x' u']. cbn in *. subst x'.
    split; [done|]. by apply forget_parts.
  - split; [|by apply forget_parts]. unfold register_bytes. cbn [dev_registers with_read_counts]. by rewrite Hr.
Qed.

#[export] Instance device_write_proper : Proper ((≡) ==> (=) ==> (=) ==> (≡)) device_write.
Proof.
  intros d d' Hd a _ <- bs _ <-. apply forget_parts in Hd as (Hv & Hu & Hr & Hp & Hh & Hpr & Hs).
  unfold device_write. destruct (is_interrupt_register a).
  { apply forget_parts. cbn. by rewrite Hv. }
  case_bool_decide.
  { apply forget_parts. cbn. split_and!; try done. by apply forget_usb_write. }
  apply forget_parts. unfold submit_pushbuffer, identify_mailbox.
  destruct (is_dma_put a); cbn zeta; (destruct (_ && negb _)); cbn;
    repeat (case_bool_decide; cbn); rewrite ?Hv, ?Hr, ?Hp, ?Hh, ?Hpr, ?Hs in *; done.
Qed.

Lemma routing_equiv d d' a n : d ≡ d' ->
  pramin_target d a n = pramin_target d' a n /\ in_mailbox d a n = in_mailbox d' a n /\
  mailbox_consumed d a = mailbox_consumed d' a.
Proof.
  intros (_ & _ & _ & Hp & Hh & Hpr & _)%forget_parts. unfold pramin_target, in_mailbox, mailbox_consumed.
  by rewrite Hp, Hh, Hpr.
Qed.

Lemma view_read_equiv v v' a n : v ≡ v' ->
  (view_read v a n).1 = (view_read v' a n).1 /\ (view_read v a n).2 ≡ v.
Proof.
  intros [Hram Hd]. unfold view_read. destruct (routing_equiv _ _ a n Hd) as (Hp & Hm & Hc). rewrite <- Hp, <- Hm, <- Hc, <- Hram.
  destruct (pramin_target _ _ _); [done|]. destruct (in_mailbox _ _ _).
  { by destruct (mailbox_consumed _ _). }
  destruct (device_contains a n); [|done]. destruct (device_read_equiv _ _ a n Hd) as [Hb Hs].
  destruct (device_read (view_devices v) a n) as [bs d], (device_read (view_devices v') a n) as [bs' d'].
  cbn in *. subst. done.
Qed.

Lemma view_write_equiv v v' a bs : v ≡ v' ->
  (view_write v a bs).1 = (view_write v' a bs).1 /\ (view_write v a bs).2 ≡ (view_write v' a bs).2.
Proof.
  intros [Hram Hd]. unfold view_write. destruct (routing_equiv _ _ a (length bs) Hd) as (Hp & Hm & _). rewrite <- Hp, <- Hm.
  destruct (pramin_target _ _ _) as [t|].
  { rewrite <- Hram. by destruct (mem_write (view_ram v) t bs). }
  destruct (in_mailbox _ _ _).
  { cbn [view_ram with_view_devices]. rewrite <- Hram. destruct (mem_write (view_ram v) a bs) as [r s]. split; [done|].
    split; [done|]. apply forget_parts in Hd as (? & ? & ? & ? & ? & ? & ?). by apply forget_parts. }
  destruct (device_contains a (length bs)).
  { split; [done|]. split; [done|]. cbn. by rewrite Hd. }
  rewrite <- Hram. by destruct (mem_write (view_ram v) a bs).
Qed.

(** One access of a guest, and its outcome. *)
Inductive Access : Type :=
| ReadAccess (a : GuestVa) (n : nat)
| FetchAccess (a : GuestVa) (n : nat)
| WriteAccess (a : GuestVa) (bs : list Z).

(** The access as the code performs it, counters and all. *)
Definition access_counted (v : MmioView) (x : Access) : result MemoryError (list Z) * MmioView :=
  match x with
  | ReadAccess a n => view_read v a n
  | FetchAccess a n => (mem_fetch (view_ram v) a n, v)
  | WriteAccess a bs => let '(r, v) := view_write v a bs in (_ ← r; Ok [], v)
  end.
(** The access through the interpreter's interface. *)
Definition access_interface (v : MmioView) (x : Access) : result MemoryError (list Z) * MmioView :=
  match x with
  | ReadAccess a n => (mem_read v a n, v)
  | FetchAccess a n => (mem_fetch v a n, v)
  | WriteAccess a bs => let '(r, v) := mem_write v a bs in (_ ← r; Ok [], v)
  end.

Fixpoint accesses_with (step : MmioView -> Access -> result MemoryError (list Z) * MmioView)
    (v : MmioView) (l : list Access) : list (result MemoryError (list Z)) * MmioView :=
  match l with
  | [] => ([], v)
  | x :: l => let '(r, v) := step v x in
              let '(rs, v) := accesses_with step v l in (r :: rs, v)
  end.

(** C27: Device counters cannot be observed.  Any sequence of reads, fetches
    and writes of a guest gives the same answers whether or not its reads move
    the counters of the regions, of the registers and of the USB controller,
    and leaves RAM and every device register the same: the interpreter may
    take a device read for a pure one. *)
Theorem counters_unobservable (v v' : MmioView) (l : list Access) : v ≡ v' ->
  (accesses_with access_counted v l).1 = (accesses_with access_interface v' l).1 /\
  (accesses_with access_counted v l).2 ≡ (accesses_with access_interface v' l).2.
Proof.
  revert v v'. induction l as [|x l IH]; intros v v' Hv; cbn [accesses_with]; [done|].
  assert ((access_counted v x).1 = (access_interface v' x).1 /\ (access_counted v x).2 ≡ (access_interface v' x).2) as [Hr Hs].
  { destruct x as [a n|a n|a bs]; cbn [access_counted access_interface mem_read mem_fetch mem_write MmioView_GuestMemory].
    - destruct (view_read_equiv v v' a n Hv) as [-> Heq]. split; [done|]. by rewrite Heq.
    - by rewrite (proj1 Hv).
    - destruct (view_write_equiv v v' a bs Hv) as [H1 H2].
      destruct (view_write v a bs), (view_write v' a bs). cbn in *. by subst. }
  destruct (access_counted v x) as [r1 v1], (access_interface v' x) as [r2 v2]. cbn [fst snd] in *. subst r2.
  destruct (IH v1 v2 Hs) as [H1 H2].
  destruct (accesses_with access_counted v1 l), (accesses_with access_interface v2 l). cbn in *. by subst.
Qed.

(** ** Registers remember *)

(** What the machine does to its devices. *)
Inductive DeviceOp : Type :=
| DevRead (a : Z) (n : nat)
| DevWrite (a : Z) (bs : list Z)
| DevVblank
| DevTake
| DevPramin (base size : Z).

Definition device_step (d : DeviceSpace) (op : DeviceOp) : DeviceSpace :=
  match op with
  | DevRead a n => (device_read d a n).2
  | DevWrite a bs => device_write d a bs
  | DevVblank => raise_vblank d
  | DevTake => (take_submissions d).2
  | DevPramin base size => set_pramin d base size
  end.

(** A register that is neither modelled apart nor overridden. *)
Definition latching (a : Z) : bool :=
  negb (is_interrupt_register a) && negb (bool_decide (DeviceRegion_of a = Usb)).
Definition plain_register (a : Z) : bool :=
  latching a && negb (bool_decide (a ∈ READY_OVERRIDES)) &&
  bool_decide (a ∉ map fst VALUE_OVERRIDES) && negb (ac97_channel_control a) && negb (bool_decide (a ∈ SELF_CLEAR)).

(** The value a register holds after one operation, from what it held: the
    word written to it, or the PUT of the channel whose GET it is. *)
Definition remember (a : Z) (held : option Z) (op : DeviceOp) : option Z :=
  match op with
  | DevWrite b bs =>
    if negb (latching b) then held
    else if b =? a then Some (write_value bs)
    else if is_dma_put b && (b + 4 =? a) then Some (write_value bs)
    else held
  | _ => held
  end.

Lemma registers_step d op a : dev_registers (device_step d op) !! a = remember a (dev_registers d !! a) op.
Proof.
  destruct op as [b n|b bs| | |base size]; cbn [device_step remember]; try done.
  - unfold device_read. destruct (is_interrupt_register b); [done|]. case_bool_decide; [|done]. by destruct (ohci_read _ _).
  - unfold device_write, latching. destruct (is_interrupt_register b); [done|]. case_bool_decide; [done|]. cbn [andb negb].
    cbn [count_write with_stats dev_registers with_dev_registers].
    destruct (Z.eqb_spec b a) as [->|Hne]; [by rewrite lookup_insert_eq|]. rewrite lookup_insert_ne by done.
    assert (forall d0 : DeviceSpace, dev_registers (if (b =? APU_GP_COMM_BASE) && negb (write_value bs =? 0)
      then identify_mailbox d0 (write_value bs) else d0) = dev_registers d0) as ->.
    { intros d0. unfold identify_mailbox. by repeat case_match. }
    destruct (is_dma_put b); cbn [andb]; [|done]. unfold submit_pushbuffer. cbn.
    destruct (Z.eqb_spec (b + 4) a) as [->|]; [by rewrite lookup_insert_eq | by rewrite lookup_insert_ne].
  - unfold raise_vblank. by case_match.
Qed.

Lemma registers_history d ops a :
  dev_registers (foldl device_step d ops) !! a = foldl (remember a) (dev_registers d !! a) ops.
Proof.
  revert d. induction ops as [|op ops IH]; intros d; cbn [foldl]; [done|]. by rewrite IH, registers_step.
Qed.

(** The submission an operation makes, given what GET held. *)
Definition submission_of (d : DeviceSpace) (op : DeviceOp) : list (Z * Z * Z) :=
  match op with
  | DevWrite b bs =>
    if latching b && is_dma_put b
    then [(Z.land b (not32 0xFFFF), default (write_value bs) (dev_registers d !! (b + 4)), write_value bs)] else []
  | _ => []
  end.

Lemma submissions_step d op : submissions (device_step d op) =
  match op with DevTake => [] | _ => submissions d ++ submission_of d op end.
Proof.
  destruct op as [b n|b bs| | |base size]; cbn [device_step submission_of]; rewrite ?app_nil_r; try done.
  - unfold device_read. destruct (is_interrupt_register b); [done|]. case_bool_decide; [|done]. by destruct (ohci_read _ _).
  - unfold device_write, latching. destruct (is_interrupt_register b); [by rewrite app_nil_r|].
    case_bool_decide; [by rewrite app_nil_r|]. cbn [andb negb]. cbn [count_write with_stats submissions with_dev_registers].
    assert (forall d0 : DeviceSpace, submissions (if (b =? APU_GP_COMM_BASE) && negb (write_value bs =? 0)
      then identify_mailbox d0 (write_value bs) else d0) = submissions d0) as ->.
    { intros d0. unfold identify_mailbox. by repeat case_match. }
    destruct (is_dma_put b); [done | by rewrite app_nil_r].
  - unfold raise_vblank. by case_match.
Qed.

(** The ranges the engine is handed: those taken, and those still pending. *)
Fixpoint taken (d : DeviceSpace) (ops : list DeviceOp) : list (Z * Z * Z) :=
  match ops with
  | [] => []
  | op :: ops =>
    match op with DevTake => (take_submissions d).1 | _ => [] end ++ taken (device_step d op) ops
  end.
Definition handed (d : DeviceSpace) (ops : list DeviceOp) : list (Z * Z * Z) :=
  taken d ops ++ submissions (foldl device_step d ops).

(** The ranges made on the way. *)
Fixpoint produced (d : DeviceSpace) (ops : list DeviceOp) : list (Z * Z * Z) :=
  match ops with
  | [] => []
  | op :: ops => submission_of d op ++ produced (device_step d op) ops
  end.

Lemma handed_produced d ops : handed d ops = submissions d ++ produced d ops.
Proof.
  unfold handed. revert d. induction ops as [|op ops IH]; intros d; cbn [taken produced foldl]; [by rewrite app_nil_r|].
  rewrite <- app_assoc, IH, submissions_step. destruct op; cbn [take_submissions fst app]; rewrite <- ?app_assoc; done.
Qed.

(** The ranges of one channel, oldest first. *)
Definition channel_ranges (channel : Z) (l : list (Z * Z * Z)) : list (Z * Z) :=
  omap (fun e => if e.1.1 =? channel then Some (e.1.2, e.2) else None) l.

(** Ranges that join up: each starts where the one before ended. *)
Fixpoint joined (held : option Z) (l : list (Z * Z)) : Prop :=
  match l with
  | [] => True
  | (get, put) :: l => get = default put held /\ joined (Some put) l
  end.

Lemma channel_of_put b : u32 b -> is_dma_put b = true -> Z.land b (not32 0xFFFF) = b - 0x40.
Proof.
  intros Hb Hput. unfold is_dma_put in Hput. bool_to_prop.
  assert (b mod 65536 = 0x40) as Hm.
  { change 65536 with (2 ^ 16). rewrite <- Z.land_ones by lia. assumption. }
  assert (Z.land b (not32 0xFFFF) = Z.shiftl (Z.shiftr b 16) 16) as ->.
  { apply Z.bits_inj'. intros n Hn. rewrite Z.land_spec, Z.shiftl_spec by done.
    change 0xFFFF with (Z.ones 16). rewrite unot_spec by lia.
    destruct (decide (n < 16)).
    - rewrite (Z.testbit_neg_r _ (n - 16)) by lia. rewrite Z.ones_spec_low by lia.
      destruct (Z.ltb_spec n 32); [|lia]. by destruct (Z.testbit b n).
    - rewrite Z.shiftr_spec by lia. replace (n - 16 + 16) with n by lia. rewrite Z.ones_spec_high by lia.
      destruct (Z.ltb_spec n 32); cbn; [by rewrite andb_true_r|]. by rewrite (is_u_high_bit 32) by (done || lia). }
  rewrite Z.shiftl_mul_pow2, Z.shiftr_div_pow2 by lia. change (2 ^ 16) with 65536. dlia.
Qed.

(** Only the pusher moves a channel's GET register. *)
Definition leaves_get (channel : Z) (op : DeviceOp) : Prop :=
  match op with DevWrite b _ => u32 b /\ b <> channel + 0x44 | _ => True end.

Lemma produced_joined d ops channel : Forall (leaves_get channel) ops ->
  joined (dev_registers d !! (channel + 0x44)) (channel_ranges channel (produced d ops)).
Proof.
  intros Hall. revert d. induction Hall as [|op ops Hop _ IH]; intros d; cbn [produced]; [done|].
  specialize (IH (device_step d op)). rewrite registers_step in IH.
  destruct op as [b n|b bs| | |base size]; cbn [submission_of remember app] in *; try exact IH.
  destruct Hop as [Hb Hne]. rewrite (proj2 (Z.eqb_neq b (channel + 0x44))) in IH by done.
  destruct (latching b); cbn [andb negb] in *; [|exact IH].
  destruct (is_dma_put b) eqn:Hput; cbn [andb app] in *; [|exact IH].
  rewrite channel_of_put by done. unfold channel_ranges. cbn [omap list_omap fst snd].
  destruct (Z.eqb_spec (b - 0x40) channel) as [<-|Hother].
  - replace (b - 0x40 + 0x44) with (b + 4) in * by lia. rewrite Z.eqb_refl in IH. by split.
  - rewrite (proj2 (Z.eqb_neq (b + 4) (channel + 0x44))) in IH by lia. exact IH.
Qed.

(** C22: Device registers remember.  After any history of reads, writes,
    vertical blanks and drained submissions, a plain register reads the word
    last stored in it, by a write to it, whose bytes are zero-extended where it
    is narrower than a word, or, for a channel's GET, by the PUT that made it
    catch up, and zero if there was none.  And from a device with no range
    pending, over a history in which the guest does not itself write a
    channel's GET, the pushbuffer ranges of that channel handed to the graphics
    engine join up, from where GET stood: each range starts where the one
    before ended, so no command is skipped or run twice, however the engine's
    drains are interleaved. *)
Theorem device_registers_remember (d : DeviceSpace) (ops : list DeviceOp) :
  (forall a, plain_register a = true ->
     (device_read (foldl device_step d ops) a 4).1 =
     to_le_bytes 4 (default 0 (foldl (remember a) (dev_registers d !! a) ops))) /\
  (forall channel, submissions d = [] -> Forall (leaves_get channel) ops ->
     joined (dev_registers d !! (channel + 0x44)) (channel_ranges channel (handed d ops))).
Proof.
  split.
  - intros a Ha. unfold plain_register, latching in Ha. bool_to_prop.
    unfold device_read. match goal with Hi : is_interrupt_register a = false |- _ => rewrite Hi end.
    rewrite bool_decide_eq_false_2 by done. cbn [fst]. unfold register_bytes.
    rewrite bool_decide_eq_false_2 by done.
    destruct (List.find _ VALUE_OVERRIDES) as [[b x]|] eqn:Hf.
    + apply find_some in Hf as [Hin Heq]. cbn [fst] in Heq. apply Z.eqb_eq in Heq as ->.
      match goal with Hn : a ∉ map fst _ |- _ => destruct Hn end. apply list_elem_of_In, (in_map fst _ _ Hin).
    + cbn [dev_registers with_read_counts]. rewrite registers_history.
      match goal with Hc : ac97_channel_control a = false |- _ => rewrite Hc end. cbn [orb].
      rewrite bool_decide_eq_false_2 by done.
      destruct (foldl (remember a) (dev_registers d !! a) ops) as [x|]; cbn [default id]; [|done].
      unfold word_into. rewrite take_ge by (rewrite length_to_le_bytes; lia). apply app_nil_r.
  - intros channel Hnone Hall. rewrite handed_produced, Hnone. cbn [app]. by apply produced_joined.
Qed.

(** ** A device at work *)

(** Two submissions with a drain between them, and a latched register. *)
Definition demo_ops : list DeviceOp :=
  [DevWrite 0xFD800044 [0x00; 0x10; 0; 0]; DevWrite 0xFE800200 [0xEF; 0xBE; 0xAD; 0xDE];
   DevRead 0xFE800200 4].
Definition demo_submissions : list DeviceOp :=
  [DevWrite 0xFD800040 [0x40; 0x10; 0; 0]; DevTake; DevVblank; DevWrite 0xFD800040 [0x80; 0x10; 0; 0]].

Definition demo_devices : DeviceSpace := foldl device_step DeviceSpace_default demo_ops.

Lemma device_registers_remember_witness :
  (device_read demo_devices 0xFE800200 4).1 = [0xEF; 0xBE; 0xAD; 0xDE] /\
  channel_ranges 0xFD800000 (handed demo_devices demo_submissions) = [(0x1000, 0x1040); (0x1040, 0x1080)] /\
  joined (Some 0x1000) (channel_ranges 0xFD800000 (handed demo_devices demo_submissions)).
Proof.
  destruct (device_registers_remember DeviceSpace_default demo_ops) as [Hread _].
  destruct (device_registers_remember demo_devices demo_submissions) as [_ Hjoin].
  split; [exact (Hread 0xFE800200 eq_refl)|]. split; [by vm_compute|].
  apply (Hjoin 0xFD800000); [by vm_compute|].
  repeat constructor; cbn; unfold is_u; lia.
Defined.

Lemma counters_unobservable_witness :
  let v := mkMmioView demo_space DeviceSpace_default in
  let l := [WriteAccess 0xFE800200 [1; 2; 3; 4]; ReadAccess 0xFE800200 4; ReadAccess 0xFED00000 4; ReadAccess 0xFE820010 2] in
  (accesses_with access_counted v l).1 = (accesses_with access_interface v l).1 /\
  (accesses_with access_interface v l).1 = [Ok []; Ok [1; 2; 3; 4]; Ok [0x10; 0; 0; 0]; Ok [0xFF; 0xFF]].
Proof.
  cbn zeta. set (v := mkMmioView demo_space DeviceSpace_default). split; [|by vm_compute].
  apply (counters_unobservable v v). reflexivity.
Defined.
