(* ===== verification/GpuMemory.v ===== *)
(** * Guest memory as the graphics engine sees it

    Models the trait [Nv2aMemory] of [exbawks-gpu/src/nv2a.rs] with its
    default fill, and the two memories of [exbawks-core/src/emulator.rs] that
    implement it: [PhysicalMemory], RAM borrowed as little-endian dwords, and
    [WindowMemory], the address space through the kernel window.  The view by
    dwords is shown to be byte-addressed RAM, straddling accesses included. *)

From S2P Require Import Prelude GuestTypes PageTable GuestMemory SoftwareSpace SpaceTheorems MappingTheorems SystemTyping UsbWindow.

Class Nv2aMemory (M : Type) : Type := {
  nv_read_dword : M -> Z -> option Z;
  nv_write_dword : M -> Z -> Z -> bool * M;
  nv_fill_dwords : M -> Z -> Z -> Z -> Z * M;
}.

(** The trait's own fill: a store per dword until one is refused. *)
Fixpoint fill_default {M} (write : M -> Z -> Z -> bool * M) (m : M) (physical value index : Z) (count : nat)
  : Z * M :=
  match count with
  | O => (index, m)
  | S count =>
    match write m (wrapping_add32 physical (wrap32 (index * 4))) value with
    | (false, m) => (index, m)
    | (true, m) => fill_default write m physical value (index + 1) count
    end
  end.

(** ** [PhysicalMemory] *)

Record PhysicalMemory : Type := mkPhysicalMemory { dword_ram : gmap Z Z; dword_bytes : Z }.

(** [self.0.get(index)] of the [len / 4] dwords. *)
Definition load_dword (m : PhysicalMemory) (index : Z) : option Z :=
  if index <? dword_bytes m / 4
  then Some (from_le_bytes (map (ram_byte (dword_ram m)) (seqZ (index * 4) 4))) else None.
Definition store_dword (m : PhysicalMemory) (index value : Z) : PhysicalMemory :=
  mkPhysicalMemory (ram_store (dword_ram m) (index * 4) (to_le_bytes 4 value)) (dword_bytes m).

Definition dword_read (m : PhysicalMemory) (physical : Z) : option Z :=
  let index := physical / 4 in
  let offset := physical mod 4 in
  low ← load_dword m index;
  if offset =? 0 then Some low else
  let shift := offset * 8 in
  high ← load_dword m (index + 1);
  Some (Z.lor (Z.shiftr low shift) (wrap32 (Z.shiftl high (32 - shift)))).

Definition dword_write (m : PhysicalMemory) (physical value : Z) : bool * PhysicalMemory :=
  let index := physical / 4 in
  let offset := physical mod 4 in
  if offset =? 0 then
    match load_dword m index with
    | None => (false, m)
    | Some _ => (true, store_dword m index value)
    end
  else
    let shift := offset * 8 in
    match load_dword m index, load_dword m (index + 1) with
    | Some low, Some high =>
      let keep_low := Z.land low (not32 (wrap32 (Z.shiftl U32_MAX shift))) in
      let keep_high := Z.land high (wrap32 (Z.shiftl U32_MAX shift)) in
      let m := store_dword m index (Z.lor keep_low (wrap32 (Z.shiftl value shift))) in
      (true, store_dword m (index + 1) (Z.lor keep_high (Z.shiftr value (32 - shift))))
    | _, _ => (false, m)
    end.

(** The loop over the borrowed slots. *)
Fixpoint store_dwords (m : PhysicalMemory) (index value : Z) (count : nat) : PhysicalMemory :=
  match count with
  | O => m
  | S count => store_dwords (store_dword m index value) (index + 1) value count
  end.

Definition dword_fill (m : PhysicalMemory) (physical value count : Z) : Z * PhysicalMemory :=
  let index := physical / 4 in
  if negb (physical mod 4 =? 0) then (0, m)
  else if index + count <=? dword_bytes m / 4
  then (count, store_dwords m index value (Z.to_nat count))
  else (0, m).

#[export] Instance PhysicalMemory_Nv2aMemory : Nv2aMemory PhysicalMemory := {|
  nv_read_dword := dword_read;
  nv_write_dword := dword_write;
  nv_fill_dwords := dword_fill;
|}.

(** [with_physical_dwords]: the RAM of a space, borrowed for the call. *)
Definition with_physical_dwords {R} (s : SoftwareAddressSpace) (action : PhysicalMemory -> R * PhysicalMemory)
  : R * SoftwareAddressSpace :=
  let '(r, m) := action (mkPhysicalMemory (physical s) (physical_len s)) in
  (r, with_physical s (dword_ram m)).

(** ** [WindowMemory] *)

Definition window_read_dword (s : SoftwareAddressSpace) (p : Z) : option Z :=
  if WINDOW_BYTES <=? p then None
  else match mem_read_u32 s (window_va p) with Ok v => Some v | Err _ => None end.
Definition window_write_dword (s : SoftwareAddressSpace) (p value : Z) : bool * SoftwareAddressSpace :=
  if p <? WINDOW_BYTES
  then let '(r, s) := mem_write_u32 s (window_va p) value in (is_ok r, s)
  else (false, s).
Definition window_fill_dwords (s : SoftwareAddressSpace) (p value count : Z) : Z * SoftwareAddressSpace :=
  match checked_mul 32 count 4 with
  | None => (0, s)
  | Some bytes =>
    if (WINDOW_BYTES <=? p) || (WINDOW_BYTES <? saturating_add 32 p bytes) then (0, s)
    else match mem_write s (window_va p) (concat (replicate (Z.to_nat count) (to_le_bytes 4 value))) with
         | (Ok _, s) => (count, s)
         | (Err _, s) => (0, s)
         end
  end.

#[export] Instance Window_Nv2aMemory : Nv2aMemory SoftwareAddressSpace := {|
  nv_read_dword := window_read_dword;
  nv_write_dword := window_write_dword;
  nv_fill_dwords := window_fill_dwords;
|}.

(** ** Dwords are bytes *)

Lemma seqZ_4 a : seqZ a 4 = [a; a + 1; a + 2; a + 3].
Proof.
  rewrite !seqZ_cons by lia. cbn [Z.pred]. unfold Z.succ.
  replace (a + 1 + 1) with (a + 2) by lia. replace (a + 2 + 1) with (a + 3) by lia.
  done.
Qed.

(** The dword at a byte offset, whatever its alignment. *)
Definition ram_dword (ram : gmap Z Z) (p : Z) : Z :=
  ram_byte ram p + 256 * ram_byte ram (p + 1) + 65536 * ram_byte ram (p + 2) + 16777216 * ram_byte ram (p + 3).

Lemma ram_dword_spec ram p : from_le_bytes (map (ram_byte ram) (seqZ p 4)) = ram_dword ram p.
Proof. rewrite seqZ_4. cbn [map from_le_bytes]. unfold ram_dword. lia. Qed.

Lemma lor_disjoint a b n : 0 <= n -> 0 <= a < 2 ^ n -> 0 <= b -> Z.lor a (b * 2 ^ n) = a + b * 2 ^ n.
Proof.
  intros Hn Ha Hb. rewrite <- Z.shiftl_mul_pow2 by lia. symmetry.
  rewrite Z.add_nocarry_lxor.
  - apply Z.bits_inj'. intros i Hi. rewrite Z.lxor_spec, Z.lor_spec. destruct (Z.ltb_spec i n).
    + rewrite Z.shiftl_spec_low by lia. by destruct (Z.testbit a i).
    + rewrite (is_u_high_bit n a i) by (unfold is_u; lia). by destruct (Z.testbit _ i).
  - apply Z.bits_inj'. intros i Hi. rewrite Z.land_spec, Z.bits_0. destruct (Z.ltb_spec i n).
    + rewrite Z.shiftl_spec_low by lia. by rewrite andb_false_r.
    + rewrite (is_u_high_bit n a i) by (unfold is_u; lia). done.
Qed.

Section Shifts.
Context (k : Z) (Hk : k = 8 \/ k = 16 \/ k = 24).

(** Two neighbouring dwords, read across their border. *)
Lemma straddle_read low high : u32 low -> u32 high ->
  Z.lor (Z.shiftr low k) (wrap32 (Z.shiftl high (32 - k))) = low / 2 ^ k + high mod 2 ^ k * 2 ^ (32 - k).
Proof.
  intros Hl Hh. rewrite Z.shiftr_div_pow2, Z.shiftl_mul_pow2 by lia. unfold wrap.
  replace (2 ^ 32) with (2 ^ k * 2 ^ (32 - k)) by (rewrite <- Z.pow_add_r by lia; f_equal; lia).
  rewrite Z.mul_mod_distr_r by (destruct Hk as [->|[->| ->]]; done).
  apply lor_disjoint; [lia | | apply Z.mod_pos_bound; lia].
  split; [apply Z.div_pos; unfold is_u in *; lia|]. apply Z.div_lt_upper_bound; [lia|].
  rewrite <- Z.pow_add_r by lia. replace (k + (32 - k)) with 32 by lia. apply Hl.
Qed.

(** The low bits kept and the high bits kept. *)
Lemma mask_shift : wrap32 (Z.shiftl U32_MAX k) = 2 ^ 32 - 2 ^ k.
Proof. by destruct Hk as [->|[->| ->]]. Qed.

Lemma keep_low_spec x : u32 x -> Z.land x (not32 (wrap32 (Z.shiftl U32_MAX k))) = x mod 2 ^ k.
Proof.
  intros Hx. rewrite mask_shift.
  replace (not32 (2 ^ 32 - 2 ^ k)) with (Z.ones k) by by destruct Hk as [->|[->| ->]].
  apply Z.land_ones. lia.
Qed.

Lemma keep_high_spec x : u32 x -> Z.land x (wrap32 (Z.shiftl U32_MAX k)) = x / 2 ^ k * 2 ^ k.
Proof.
  intros Hx. rewrite mask_shift. rewrite <- Z.shiftr_div_pow2, <- Z.shiftl_mul_pow2 by lia.
  apply Z.bits_inj'. intros i Hi. rewrite Z.land_spec.
  replace (2 ^ 32 - 2 ^ k) with (Z.shiftl (Z.ones (32 - k)) k) by by destruct Hk as [->|[->| ->]].
  destruct (Z.ltb_spec i k).
  - rewrite !Z.shiftl_spec_low by lia. apply andb_false_r.
  - rewrite !Z.shiftl_spec, Z.shiftr_spec, Z.testbit_ones_nonneg by lia.
    replace (i - k + k) with i by lia. destruct (Z.ltb_spec (i - k) (32 - k)); [apply andb_true_r|].
    rewrite (is_u_high_bit 32 x i Hx) by lia. done.
Qed.

(** The two words a straddling store leaves. *)
Lemma straddle_write low high v : u32 low -> u32 high -> u32 v ->
  Z.lor (Z.land low (not32 (wrap32 (Z.shiftl U32_MAX k)))) (wrap32 (Z.shiftl v k)) =
    low mod 2 ^ k + v mod 2 ^ (32 - k) * 2 ^ k /\
  Z.lor (Z.land high (wrap32 (Z.shiftl U32_MAX k))) (Z.shiftr v (32 - k)) =
    v / 2 ^ (32 - k) + high / 2 ^ k * 2 ^ k.
Proof.
  intros Hl Hh Hv. rewrite keep_low_spec, keep_high_spec by done. split.
  - rewrite Z.shiftl_mul_pow2 by lia. unfold wrap.
    replace (2 ^ 32) with (2 ^ (32 - k) * 2 ^ k) by (rewrite <- Z.pow_add_r by lia; f_equal; lia).
    rewrite Z.mul_mod_distr_r by (destruct Hk as [->|[->| ->]]; done).
    apply lor_disjoint; [lia | apply Z.mod_pos_bound; lia | apply Z.mod_pos_bound; lia].
  - rewrite Z.lor_comm, Z.shiftr_div_pow2 by lia. apply lor_disjoint; [lia | |apply Z.div_pos; unfold is_u in *; lia].
    split; [apply Z.div_pos; unfold is_u in *; lia|]. apply Z.div_lt_upper_bound; [lia|].
    rewrite <- Z.pow_add_r by lia. replace (32 - k + k) with 32 by lia. apply Hv.
Qed.
End Shifts.

(** RAM seen by its bytes: a straddling store writes back bytes that the map
    holds only by default. *)
#[export] Instance PhysicalMemory_equiv : Equiv PhysicalMemory := fun m m' =>
  dword_bytes m = dword_bytes m' /\ forall o, ram_byte (dword_ram m) o = ram_byte (dword_ram m') o.

#[export] Instance PhysicalMemory_equivalence : Equivalence (≡@{PhysicalMemory}).
Proof.
  split; [by split | by intros m m' [Hb Hm]; split |].
  intros m1 m2 m3 [Hb H12] [Hb' H23]. split; [congruence|]. intros o. by rewrite H12.
Qed.

#[export] Instance dword_read_proper : Proper ((≡) ==> (=) ==> (=)) dword_read.
Proof.
  intros m m' [Hb Hm] p ? <-.
  assert (forall i, load_dword m i = load_dword m' i) as Hl.
  { intros i. unfold load_dword. by rewrite !ram_dword_spec, Hb; unfold ram_dword; rewrite !Hm. }
  unfold dword_read. by rewrite !Hl.
Qed.

Definition dwords_ok (m : PhysicalMemory) : Prop :=
  dword_bytes m mod 4 = 0 /\ bytes_ok (dword_ram m).

(** Byte-addressed RAM. *)
Definition byte_read (m : PhysicalMemory) (p : Z) : option Z :=
  if p + 4 <=? dword_bytes m then Some (from_le_bytes (map (ram_byte (dword_ram m)) (seqZ p 4))) else None.
Definition byte_write (m : PhysicalMemory) (p v : Z) : bool * PhysicalMemory :=
  if p + 4 <=? dword_bytes m
  then (true, mkPhysicalMemory (ram_store (dword_ram m) p (to_le_bytes 4 v)) (dword_bytes m)) else (false, m).

Lemma dword_byte_u8 ram o : bytes_ok ram -> u8 (ram_byte ram o).
Proof.
  intros Hr. unfold ram_byte. destruct (ram !! o) as [b|] eqn:Hb; [by apply (Hr o)|]. cbn. unfold is_u. lia.
Qed.

Lemma ram_dword_u32 ram p : bytes_ok ram -> u32 (ram_dword ram p).
Proof.
  intros Hr. rewrite <- ram_dword_spec. rewrite seqZ_4. change (is_u (8 * Z.of_nat (length (map (ram_byte ram) [p; p + 1; p + 2; p + 3])))
    (from_le_bytes (map (ram_byte ram) [p; p + 1; p + 2; p + 3]))).
  apply from_le_bytes_range, Forall_map, Forall_forall. intros o _. by apply dword_byte_u8.
Qed.

Lemma load_dword_spec m index : dwords_ok m ->
  load_dword m index = if index * 4 + 4 <=? dword_bytes m then Some (ram_dword (dword_ram m) (index * 4)) else None.
Proof.
  intros [Hm _]. unfold load_dword. rewrite ram_dword_spec.
  destruct (Z.ltb_spec index (dword_bytes m / 4)), (Z.leb_spec (index * 4 + 4) (dword_bytes m)); try done; dlia.
Qed.

(** The bytes in play as variables in range, their offsets from the first
    dword added up. *)
Ltac ram_offsets Hu :=
  rewrite <- ?Z.add_assoc; change (4 + 1) with 5; change (4 + 2) with 6; change (4 + 3) with 7;
  change (1 + 1) with 2; change (1 + 2) with 3; change (1 + 3) with 4; change (2 + 1) with 3;
  change (2 + 2) with 4; change (2 + 3) with 5; change (3 + 1) with 4; change (3 + 2) with 5;
  change (3 + 3) with 6;
  repeat match goal with |- context [ram_byte ?R ?o] =>
    let b := fresh "b" in pose proof (Hu o); set (b := ram_byte R o) in *; clearbody b end.

Lemma dword_read_spec m p : dwords_ok m -> 0 <= p -> dword_read m p = byte_read m p.
Proof.
  intros Hok Hp. unfold dword_read, byte_read. rewrite !load_dword_spec, ram_dword_spec by done.
  pose proof Hok as [Hlen Hb]. set (q := p / 4). assert (p = q * 4 + p mod 4) as Hq by (unfold q; dlia).
  assert (p mod 4 = 0 \/ p mod 4 = 1 \/ p mod 4 = 2 \/ p mod 4 = 3) as Hr by dlia.
  set (r := p mod 4) in *. clearbody q r. subst p.
  destruct (Z.leb_spec (q * 4 + 4) (dword_bytes m)), (Z.leb_spec (q * 4 + r + 4) (dword_bytes m));
    cbn [mbind option_bind]; try lia; try done.
  - destruct (Z.eqb_spec r 0) as [->|]; [by rewrite Z.add_0_r|].
    rewrite (proj2 (Z.leb_le ((q + 1) * 4 + 4) _)) by dlia. cbn [mbind option_bind]. f_equal.
    rewrite straddle_read by (lia || by apply ram_dword_u32).
    pose proof (fun o => dword_byte_u8 (dword_ram m) o Hb) as Hu. unfold is_u in Hu.
    replace ((q + 1) * 4) with (q * 4 + 4) by lia. unfold ram_dword.
    destruct Hr as [->|[->|[->| ->]]]; [done|..]; ram_offsets Hu; dlia.
  - by destruct (Z.eqb_spec r 0); [lia|]; rewrite (proj2 (Z.leb_gt ((q + 1) * 4 + 4) _)) by dlia.
Qed.

Lemma to_le_bytes_4 v : to_le_bytes 4 v = [v mod 256; v / 256 mod 256; v / 65536 mod 256; v / 16777216 mod 256].
Proof. cbn [to_le_bytes]. rewrite !Z.div_div by lia. done. Qed.

Lemma store_dword_byte ram p v j : ram_byte (ram_store ram p (to_le_bytes 4 v)) (p + j) =
  if decide (0 <= j < 4) then nth (Z.to_nat j) (to_le_bytes 4 v) 0 else ram_byte ram (p + j).
Proof.
  rewrite ram_store_byte, length_to_le_bytes. change (Z.of_nat 4) with 4.
  replace (p + j - p) with j by lia.
  destruct (decide (p <= p + j < p + 4)), (decide (0 <= j < 4)); done || lia.
Qed.

(** The eight bytes of the two words a straddling store rewrites. *)
Lemma straddle_bytes ram p r v j : bytes_ok ram -> u32 v -> r = 1 \/ r = 2 \/ r = 3 -> 0 <= j < 8 ->
  let low := ram_dword ram p mod 2 ^ (r * 8) + v mod 2 ^ (32 - r * 8) * 2 ^ (r * 8) in
  let high := v / 2 ^ (32 - r * 8) + ram_dword ram (p + 4) / 2 ^ (r * 8) * 2 ^ (r * 8) in
  ram_byte (ram_store (ram_store ram p (to_le_bytes 4 low)) (p + 4) (to_le_bytes 4 high)) (p + j) =
  ram_byte (ram_store ram (p + r) (to_le_bytes 4 v)) (p + j).
Proof.
  intros Hb Hv Hr Hj. cbn zeta.
  assert (forall R w, ram_byte (ram_store R (p + 4) (to_le_bytes 4 w)) (p + j) =
    if decide (4 <= j) then nth (Z.to_nat (j - 4)) (to_le_bytes 4 w) 0 else ram_byte R (p + j)) as ->.
  { intros R w. rewrite ram_store_byte, length_to_le_bytes. replace (p + j - (p + 4)) with (j - 4) by lia.
    repeat case_decide; done || lia. }
  rewrite store_dword_byte, ram_store_byte, length_to_le_bytes.
  replace (p + j - (p + r)) with (j - r) by lia.
  pose proof (fun o => dword_byte_u8 ram o Hb) as Hu. unfold is_u in Hu, Hv.
  rewrite !to_le_bytes_4. unfold ram_dword.
  assert (j = 0 \/ j = 1 \/ j = 2 \/ j = 3 \/ j = 4 \/ j = 5 \/ j = 6 \/ j = 7) as Hjs by lia.
  destruct Hr as [->|[->| ->]]; destruct Hjs as [->|[->|[->|[->|[->|[->|[->| ->]]]]]]];
    repeat case_decide; try lia;
    repeat match goal with |- context [Z.to_nat ?c] =>
      let n := eval vm_compute in (Z.to_nat c) in change (Z.to_nat c) with n end;
    cbn [nth]; rewrite ?Z.add_0_r; ram_offsets Hu; dlia.
Qed.

Lemma dword_write_spec m p v : dwords_ok m -> 0 <= p -> u32 v ->
  (dword_write m p v).1 = (byte_write m p v).1 /\ (dword_write m p v).2 ≡ (byte_write m p v).2.
Proof.
  intros Hok Hp Hv. unfold dword_write, byte_write. rewrite !load_dword_spec by done.
  pose proof Hok as [Hlen Hb]. set (q := p / 4). assert (p = q * 4 + p mod 4) as Hq by (unfold q; dlia).
  assert (p mod 4 = 0 \/ p mod 4 = 1 \/ p mod 4 = 2 \/ p mod 4 = 3) as Hr by dlia.
  set (r := p mod 4) in *. clearbody q r. subst p.
  destruct (Z.eqb_spec r 0) as [->|Hne].
  { rewrite Z.add_0_r. by destruct (q * 4 + 4 <=? dword_bytes m). }
  destruct (Z.leb_spec (q * 4 + r + 4) (dword_bytes m)).
  2: { rewrite (proj2 (Z.leb_gt ((q + 1) * 4 + 4) _)) by dlia. by destruct (_ <=? _). }
  rewrite (proj2 (Z.leb_le ((q + 1) * 4 + 4) _)), (proj2 (Z.leb_le (q * 4 + 4) _)) by dlia.
  replace ((q + 1) * 4) with (q * 4 + 4) by lia.
  pose proof (ram_dword_u32 (dword_ram m) (q * 4) Hb). pose proof (ram_dword_u32 (dword_ram m) (q * 4 + 4) Hb).
  destruct (straddle_write (r * 8) ltac:(lia) (ram_dword (dword_ram m) (q * 4)) (ram_dword (dword_ram m) (q * 4 + 4)) v
    ltac:(done) ltac:(done) Hv) as [-> ->].
  split; [done|]. split; [done|]. intros o. unfold store_dword. cbn [snd dword_ram dword_bytes].
  replace ((q + 1) * 4) with (q * 4 + 4) by lia.
  destruct (decide (q * 4 <= o < q * 4 + 8)).
  - replace o with (q * 4 + (o - q * 4)) by lia. apply straddle_bytes; done || lia.
  - rewrite !ram_store_byte, !length_to_le_bytes. by rewrite !decide_False by lia.
Qed.

Lemma fill_in_range m p v index count : dword_bytes m <= 2 ^ 32 -> 0 <= p -> p mod 4 = 0 -> 0 <= index ->
  p / 4 + index + Z.of_nat count <= dword_bytes m / 4 ->
  fill_default dword_write m p v index count =
  (index + Z.of_nat count, store_dwords m (p / 4 + index) v count).
Proof.
  intros Hmax Hp Hal. revert m index Hmax. induction count as [|count IH]; intros m index Hmax Hi Hfit;
    cbn [fill_default store_dwords].
  { f_equal. lia. }
  assert (wrapping_add32 p (wrap32 (index * 4)) = p + index * 4) as ->.
  { assert (0 <= index * 4 /\ p + index * 4 < 2 ^ 32) as [? ?] by dlia.
    unfold wrapping_add32. rewrite (wrap_small 32 (index * 4)), wrap_small by (unfold is_u; lia). done. }
  unfold dword_write. replace ((p + index * 4) mod 4) with 0 by dlia.
  replace ((p + index * 4) / 4) with (p / 4 + index) by dlia. cbn [Z.eqb].
  unfold load_dword. rewrite (proj2 (Z.ltb_lt _ _)) by lia.
  rewrite IH by (cbn [store_dword dword_bytes]; lia). f_equal; [lia|]. f_equal. lia.
Qed.

(** C26: RAM as dwords is RAM as bytes.  Reading a dword of the borrowed view
    gives the four little-endian bytes at the address, whatever its alignment,
    or nothing exactly where they run off RAM; writing one stores exactly
    those four bytes and no other, or refuses and stores nothing; and a fill
    that is aligned and fits stores what the trait's own loop of single writes
    would. *)
Theorem dword_view_is_bytes (m : PhysicalMemory) (p v : Z) : dwords_ok m -> 0 <= p -> u32 v ->
  dword_read m p = byte_read m p /\
  (dword_write m p v).1 = (byte_write m p v).1 /\ (dword_write m p v).2 ≡ (byte_write m p v).2 /\
  (forall count, dword_bytes m <= 2 ^ 32 -> 0 <= count -> p mod 4 = 0 -> p + 4 * count <= dword_bytes m ->
     dword_fill m p v count = fill_default dword_write m p v 0 (Z.to_nat count)).
Proof.
  intros Hok Hp Hv. destruct (dword_write_spec m p v Hok Hp Hv) as [H1 H2].
  split; [by apply dword_read_spec|]. split; [done|]. split; [done|].
  intros count Hmax Hc Hal Hfit. unfold dword_fill. rewrite Hal. cbn [Z.eqb negb].
  rewrite (proj2 (Z.leb_le _ _)) by dlia. rewrite fill_in_range by (done || dlia).
  rewrite Z.add_0_r. f_equal. lia.
Qed.

(** Four bytes across the border of two dwords of an eight-byte RAM. *)
Definition demo_dwords : PhysicalMemory :=
  mkPhysicalMemory (ram_store ∅ 0 [0x10; 0x11; 0x12; 0x13; 0x14; 0x15; 0x16; 0x17]) 8.

Lemma dword_view_is_bytes_witness :
  dword_read demo_dwords 3 = Some 0x16151413 /\ dword_read demo_dwords 5 = None /\
  dword_read (dword_write demo_dwords 3 0xAABBCCDD).2 0 = Some 0xDD121110 /\
  byte_read demo_dwords 3 = Some 0x16151413.
Proof.
  assert (dwords_ok demo_dwords) as Hok.
  { split; [done|]. apply (bool_decide_unpack _). by vm_compute. }
  split; [by vm_compute|]. split; [by vm_compute|]. split; [by vm_compute|].
  destruct (dword_view_is_bytes demo_dwords 3 0 Hok ltac:(lia) ltac:(unfold is_u; lia)) as [<- _].
  by vm_compute.
Defined.
