(* ===== verification/Textures.v ===== *)
(** * Textures in guest memory

    Models [exbawks-gpu/src/texture.rs], the block decoders, and the texture
    unit of [nv2a.rs]: the programmed state of a unit, how a texture is bound
    to the object it lives in, and how a texel is found in a linear, swizzled
    or compressed image and its mip chain.  Colours are 32-bit words, as the
    code has them. *)

From S2P Require Import Prelude GuestTypes SoftwareSpace ExecOps GpuMemory.

Local Open Scope Z_scope.

(** One resolved DMA object from instance memory. *)
Record DmaObject : Type := mkDmaObject { dma_class : Z; dma_limit : Z; dma_base : Z }.

#[export] Instance DmaObject_eq_dec : EqDecision DmaObject.
Proof. solve_decision. Defined.

(** ** Compressed blocks *)

Definition DXT1_BLOCK_BYTES : Z := 8.
Definition DXT_ALPHA_BLOCK_BYTES : Z := 16.

Definition expand_565 (value : Z) : Z :=
  let red := Z.land (Z.shiftr value 11) 0x1F in
  let green := Z.land (Z.shiftr value 5) 0x3F in
  let blue := Z.land value 0x1F in
  let red := Z.lor (Z.shiftl red 3) (Z.shiftr red 2) in
  let green := Z.lor (Z.shiftl green 2) (Z.shiftr green 4) in
  let blue := Z.lor (Z.shiftl blue 3) (Z.shiftr blue 2) in
  Z.lor (Z.lor (Z.lor 0xFF000000 (Z.shiftl red 16)) (Z.shiftl green 8)) blue.

Definition color_channel (color shift : Z) : Z := Z.land (Z.shiftr color shift) 0xFF.

Definition mix_channel (a b numerator denominator : Z) : Z :=
  (a * (denominator - numerator) + b * numerator) / denominator.

(** The loop over [0, 8, 16]. *)
Definition mix (first second numerator denominator : Z) : Z :=
  foldl (fun out shift =>
    let value := mix_channel (color_channel first shift) (color_channel second shift) numerator denominator in
    Z.lor out (Z.shiftl (Z.land value 0xFF) shift)) 0xFF000000 [0; 8; 16].

(** A block's eight bytes as two dwords. *)
Definition Block : Type := Z * Z.

Definition color_texel (block : Block) (x y : Z) (four_colors : bool) : Z :=
  let color0 := expand_565 (Z.land block.1 0xFFFF) in
  let color1 := expand_565 (Z.land (Z.shiftr block.1 16) 0xFFFF) in
  let index := Z.land (Z.shiftr block.2 (Z.land y 3 * 8 + Z.land x 3 * 2)) 3 in
  if four_colors then
    if index =? 0 then color0
    else if index =? 1 then color1
    else if index =? 2 then mix color0 color1 1 3
    else mix color0 color1 2 3
  else
    if index =? 0 then color0
    else if index =? 1 then color1
    else if index =? 2 then mix color0 color1 1 2
    else 0.

Definition dxt1_texel (block : Block) (x y : Z) : Z :=
  let first := Z.land block.1 0xFFFF in
  let second := Z.land (Z.shiftr block.1 16) 0xFFFF in
  color_texel block x y (second <? first).

Definition dxt_opaque_texel (block : Block) (x y : Z) : Z := color_texel block x y true.

Definition dxt3_alpha (block : Block) (x y : Z) : Z :=
  let row := if 2 <=? Z.land y 3 then block.2 else block.1 in
  let nibble := Z.land (Z.shiftr row ((Z.land y 1 * 4 + Z.land x 3) * 4)) 0xF in
  Z.lor (Z.shiftl nibble 4) nibble.

Definition dxt5_alpha (block : Block) (x y : Z) : Z :=
  let first := Z.land block.1 0xFF in
  let second := Z.land (Z.shiftr block.1 8) 0xFF in
  let bits := Z.lor (Z.shiftr block.1 16) (Z.shiftl block.2 16) in
  let shift := (Z.land y 3 * 4 + Z.land x 3) * 3 in
  let index := Z.land (Z.shiftr bits shift) 7 in
  if index =? 0 then first
  else if index =? 1 then second
  else if second <? first then (first * (8 - index) + second * (index - 1)) / 7
  else if index =? 6 then 0
  else if index =? 7 then 255
  else (first * (6 - index) + second * (index - 1)) / 5.

(** ** A texture unit *)

Definition TEXTURE_FORMAT_LINEAR_R5G6B5 : Z := 0x11.
Definition TEXTURE_FORMAT_LINEAR_A8R8G8B8 : Z := 0x12.
Definition TEXTURE_FORMAT_LINEAR_X8R8G8B8 : Z := 0x1E.
Definition TEXTURE_FORMAT_SWIZZLED_A8R8G8B8 : Z := 0x06.
Definition TEXTURE_FORMAT_SWIZZLED_X8R8G8B8 : Z := 0x07.
Definition TEXTURE_FORMAT_DXT1 : Z := 0x0C.
Definition TEXTURE_FORMAT_DXT3 : Z := 0x0E.
Definition TEXTURE_FORMAT_DXT5 : Z := 0x0F.
Definition TEXTURE_FILTER_LINEAR : Z := 2.
Definition TEXTURE_FILTER_LINEAR_MIPMAP_NEAREST : Z := 4.
Definition TEXTURE_FILTER_LINEAR_MIPMAP_LINEAR : Z := 6.
Definition MAX_MIP_LEVELS : nat := 13.
Definition MAX_TEXTURE_DIMENSION : Z := 4096.

Record TextureState : Type := mkTextureState {
  tex_offset : Z;
  tex_format : Z;
  tex_pitch : Z;
  tex_rect : Z * Z;
  tex_enabled : bool;
  tex_address : Z;
  tex_filter : Z;
}.

Definition TextureState_default : TextureState := mkTextureState 0 0 0 (0, 0) false 0 0.

Definition color_format (t : TextureState) : Z := Z.land (Z.shiftr (tex_format t) 8) 0xFF.

Definition is_linear (t : TextureState) : bool :=
  bool_decide (color_format t ∈ [TEXTURE_FORMAT_LINEAR_A8R8G8B8; TEXTURE_FORMAT_LINEAR_X8R8G8B8; TEXTURE_FORMAT_LINEAR_R5G6B5]).

Definition texture_extent (t : TextureState) : Z * Z :=
  if is_linear t then tex_rect t
  else
    let width_log2 := Z.land (Z.shiftr (tex_format t) 20) 0xF in
    let height_log2 := Z.land (Z.shiftr (tex_format t) 24) 0xF in
    (Z.shiftl 1 width_log2, Z.shiftl 1 height_log2).

Inductive TextureLayout : Type := Linear | Swizzled | Dxt1 | Dxt3 | Dxt5.

#[export] Instance TextureLayout_eq_dec : EqDecision TextureLayout.
Proof. solve_decision. Defined.

(** The [while] loop over the bits of both coordinates; a round takes one bit
    of each that has one left. *)
Fixpoint swizzle_loop (fuel : nat) (x y width_bits height_bits x_bit y_bit bit index : Z) : option Z :=
  match fuel with
  | O => None
  | S fuel =>
    if (x_bit <? width_bits) || (y_bit <? height_bits) then
      let '(index, x_bit, bit) :=
        if x_bit <? width_bits
        then (Z.lor index (wrap32 (Z.shiftl (Z.land (Z.shiftr x x_bit) 1) bit)), x_bit + 1, bit + 1)
        else (index, x_bit, bit) in
      let '(index, y_bit, bit) :=
        if y_bit <? height_bits
        then (Z.lor index (wrap32 (Z.shiftl (Z.land (Z.shiftr y y_bit) 1) bit)), y_bit + 1, bit + 1)
        else (index, y_bit, bit) in
      swizzle_loop fuel x y width_bits height_bits x_bit y_bit bit index
    else Some index
  end.

(** A round per bit of the longer side, and the last test: enough fuel
    ([swizzle_is_morton]). *)
Definition swizzle_index (x y width_bits height_bits : Z) : Z :=
  default 0 (swizzle_loop (S (Z.to_nat (Z.max width_bits height_bits))) x y width_bits height_bits 0 0 0 0).

(** ** A bound texture *)

Record MemoryTexture : Type := mkMemoryTexture {
  tx_base : Z;
  tx_pitch : Z;
  tx_width : Z;
  tx_height : Z;
  tx_layout : TextureLayout;
  tx_addressing : Z * Z;
  tx_filtered : bool;
  tx_levels : Z;
  tx_level_bases : list Z;
  tx_has_alpha : bool;
  tx_end : Z;
}.

Definition level_extent (t : MemoryTexture) (level : Z) : Z * Z :=
  (Z.max (Z.shiftr (tx_width t) level) 1, Z.max (Z.shiftr (tx_height t) level) 1).

Definition level_bytes (t : MemoryTexture) (level : Z) : Z :=
  let '(width, height) := level_extent t level in
  match tx_layout t with
  | Dxt1 => wrap32 (div_ceil width 4 * div_ceil height 4 * DXT1_BLOCK_BYTES)
  | Dxt3 | Dxt5 => wrap32 (div_ceil width 4 * div_ceil height 4 * DXT_ALPHA_BLOCK_BYTES)
  | Swizzled => wrap32 (width * height * 4)
  | Linear => 0
  end.

Definition level_base (t : MemoryTexture) (level : Z) : Z :=
  default (tx_base t) (tx_level_bases t !! Z.to_nat level).

(** The loop of [measure_levels], from [level] on. *)
Fixpoint level_table (t : MemoryTexture) (level : Z) (base : Z) (count : nat) : list Z :=
  match count with
  | O => []
  | S count => base :: level_table t (level + 1) (wrapping_add32 base (level_bytes t level)) count
  end.

Definition with_level_bases (t : MemoryTexture) (l : list Z) : MemoryTexture :=
  mkMemoryTexture (tx_base t) (tx_pitch t) (tx_width t) (tx_height t) (tx_layout t) (tx_addressing t)
    (tx_filtered t) (tx_levels t) l (tx_has_alpha t) (tx_end t).

Definition measure_levels (t : MemoryTexture) : MemoryTexture :=
  with_level_bases t (level_table t 0 (tx_base t) MAX_MIP_LEVELS).

Definition texture_layout (format : Z) : option TextureLayout :=
  if bool_decide (format ∈ [TEXTURE_FORMAT_LINEAR_A8R8G8B8; TEXTURE_FORMAT_LINEAR_X8R8G8B8]) then Some Linear
  else if bool_decide (format ∈ [TEXTURE_FORMAT_SWIZZLED_A8R8G8B8; TEXTURE_FORMAT_SWIZZLED_X8R8G8B8]) then Some Swizzled
  else if format =? TEXTURE_FORMAT_DXT1 then Some Dxt1
  else if format =? TEXTURE_FORMAT_DXT3 then Some Dxt3
  else if format =? TEXTURE_FORMAT_DXT5 then Some Dxt5
  else None.

Definition is_filtered (filter : Z) : bool :=
  (Z.land (Z.shiftr filter 24) 0xF =? TEXTURE_FILTER_LINEAR) ||
  bool_decide (Z.land (Z.shiftr filter 16) 0xFF ∈
    [TEXTURE_FILTER_LINEAR; TEXTURE_FILTER_LINEAR_MIPMAP_NEAREST; TEXTURE_FILTER_LINEAR_MIPMAP_LINEAR]).

Definition mip_levels (layout : TextureLayout) (format width height : Z) : Z :=
  match layout with
  | Linear => 1
  | _ => Z.min (Z.max (Z.land (Z.shiftr format 16) 0xF) 1) (trailing_zeros (Z.max width height) + 1)
  end.

Definition bind_texture (texture : TextureState) (dma : option DmaObject) : option MemoryTexture :=
  let '(width, height) := texture_extent texture in
  if (width =? 0) || (height =? 0) then None else
  layout ← texture_layout (color_format texture);
  if bool_decide (layout = Linear) && (tex_pitch texture =? 0) then None
  else if (MAX_TEXTURE_DIMENSION <? width) || (MAX_TEXTURE_DIMENSION <? height) then None
  else
    object ← dma;
    let base := wrapping_add32 (dma_base object) (tex_offset texture) in
    Some (measure_levels (mkMemoryTexture base (tex_pitch texture) width height layout
      (Z.land (tex_address texture) 0xF, Z.land (Z.shiftr (tex_address texture) 8) 0xF)
      (is_filtered (tex_filter texture))
      (mip_levels layout (tex_format texture) width height)
      (replicate MAX_MIP_LEVELS 0)
      (negb (bool_decide (color_format texture ∈ [TEXTURE_FORMAT_LINEAR_X8R8G8B8; TEXTURE_FORMAT_SWIZZLED_X8R8G8B8])))
      (saturating_add 32 (saturating_add 32 (dma_base object) (dma_limit object)) 1))).

Section Sampling.
Context {M : Type} `{Nv2aMemory M}.

Definition tx_read (t : MemoryTexture) (memory : M) (address : Z) : Z :=
  if (address <? tx_base t) || (tx_end t <=? address) then 0
  else default 0 (nv_read_dword memory address).

Definition tx_block (t : MemoryTexture) (memory : M) (base width x y block_bytes offset : Z) : Block :=
  let blocks_across := div_ceil width 4 in
  let index := wrap32 (y / 4 * blocks_across + x / 4) in
  let address := wrapping_add32 (wrapping_add32 base (wrap32 (index * block_bytes))) offset in
  (tx_read t memory address, tx_read t memory (wrapping_add32 address 4)).

Definition effective_level (t : MemoryTexture) (level : Z) : Z := Z.min level (Z.max 0 (tx_levels t - 1)).

(** Where the layouts that store whole texels keep one. *)
Definition texel_address (t : MemoryTexture) (level x y : Z) : Z :=
  let '(width, height) := level_extent t level in
  let base := level_base t level in
  match tx_layout t with
  | Linear => wrapping_add32 (wrapping_add32 base (wrapping_mul32 y (tx_pitch t))) (wrap32 (x * 4))
  | _ => wrapping_add32 base (wrap32 (swizzle_index x y (trailing_zeros width) (trailing_zeros height) * 4))
  end.

Definition texel_in (t : MemoryTexture) (memory : M) (level x y : Z) : Z :=
  let level := effective_level t level in
  let '(width, height) := level_extent t level in
  let base := level_base t level in
  let alpha_half := tx_block t memory base width x y DXT_ALPHA_BLOCK_BYTES 0 in
  let color_half := tx_block t memory base width x y DXT_ALPHA_BLOCK_BYTES 8 in
  match tx_layout t with
  | Linear | Swizzled =>
    let texel := tx_read t memory (texel_address t level x y) in
    if tx_has_alpha t then texel else Z.lor texel 0xFF000000
  | Dxt1 => dxt1_texel (tx_block t memory base width x y DXT1_BLOCK_BYTES 0) x y
  | Dxt3 =>
    Z.lor (Z.land (dxt_opaque_texel color_half x y) 0x00FFFFFF) (wrap32 (Z.shiftl (dxt3_alpha alpha_half x y) 24))
  | Dxt5 =>
    Z.lor (Z.land (dxt_opaque_texel color_half x y) 0x00FFFFFF) (wrap32 (Z.shiftl (dxt5_alpha alpha_half x y) 24))
  end.
End Sampling.

(** ** Swizzled order *)

(** The reference: bits of the coordinates taken in turn from the lowest, the
    longer side alone once the shorter is spent. *)
Fixpoint morton (wb hb : nat) (x y : Z) : Z :=
  match wb with
  | O => y mod 2 ^ Z.of_nat hb
  | S wb =>
    match hb with
    | O => x mod 2 ^ Z.of_nat (S wb)
    | S hb => x mod 2 + 2 * (y mod 2) + 4 * morton wb hb (x / 2) (y / 2)
    end
  end.

Fixpoint unmorton (wb hb : nat) (i : Z) : Z * Z :=
  match wb with
  | O => (0, i)
  | S wb =>
    match hb with
    | O => (i, 0)
    | S hb => let '(x, y) := unmorton wb hb (i / 4) in (i mod 2 + 2 * x, i / 2 mod 2 + 2 * y)
    end
  end.

Lemma pow2_succ n : 2 ^ Z.of_nat (S n) = 2 * 2 ^ Z.of_nat n.
Proof. rewrite Nat2Z.inj_succ, Z.pow_succ_r; lia. Qed.

Lemma morton_range wb : forall hb x y, 0 <= x -> 0 <= y -> 0 <= morton wb hb x y < 2 ^ (Z.of_nat wb + Z.of_nat hb).
Proof.
  induction wb as [|wb IH]; intros hb x y Hx Hy; cbn [morton]; [apply Z.mod_pos_bound; lia|].
  destruct hb as [|hb]; [rewrite Z.add_0_r; apply Z.mod_pos_bound; lia|].
  specialize (IH hb (x / 2) (y / 2) ltac:(apply Z.div_pos; lia) ltac:(apply Z.div_pos; lia)).
  replace (2 ^ (Z.of_nat (S wb) + Z.of_nat (S hb))) with (4 * 2 ^ (Z.of_nat wb + Z.of_nat hb)).
  - pose proof (Z.mod_pos_bound x 2). pose proof (Z.mod_pos_bound y 2). lia.
  - rewrite !Z.pow_add_r, !pow2_succ by lia. lia.
Qed.

Lemma mod_pow2_succ x n : 0 <= n -> x mod (2 * 2 ^ n) = x mod 2 + 2 * ((x / 2) mod 2 ^ n).
Proof. intros Hn. rewrite Z.rem_mul_r; lia. Qed.

Lemma unmorton_morton wb : forall hb x y,
  unmorton wb hb (morton wb hb x y) = (x mod 2 ^ Z.of_nat wb, y mod 2 ^ Z.of_nat hb).
Proof.
  induction wb as [|wb IH]; intros hb x y; cbn [morton unmorton].
  { change (2 ^ Z.of_nat 0) with 1. by rewrite Z.mod_1_r. }
  destruct hb as [|hb]; [change (2 ^ Z.of_nat 0) with 1; by rewrite Z.mod_1_r|].
  set (m := morton wb hb (x / 2) (y / 2)).
  pose proof (Z.mod_pos_bound x 2 ltac:(lia)). pose proof (Z.mod_pos_bound y 2 ltac:(lia)).
  set (a := x mod 2) in *. set (b := y mod 2) in *.
  replace ((a + 2 * b + 4 * m) / 4) with m by dlia. unfold m. rewrite IH. fold m.
  replace ((a + 2 * b + 4 * m) mod 2) with a by dlia. replace ((a + 2 * b + 4 * m) / 2 mod 2) with b by dlia.
  rewrite !pow2_succ, !mod_pow2_succ by lia. done.
Qed.

Lemma morton_unmorton wb : forall hb i, 0 <= i < 2 ^ (Z.of_nat wb + Z.of_nat hb) ->
  let '(x, y) := unmorton wb hb i in morton wb hb x y = i /\ 0 <= x < 2 ^ Z.of_nat wb /\ 0 <= y < 2 ^ Z.of_nat hb.
Proof.
  induction wb as [|wb IH]; intros hb i Hi; cbn [morton unmorton].
  { rewrite Z.add_0_l in Hi. rewrite Z.mod_small by lia. cbn. lia. }
  destruct hb as [|hb]; [rewrite Z.add_0_r in Hi; rewrite Z.mod_small by lia; change (2 ^ Z.of_nat 0) with 1; lia|].
  specialize (IH hb (i / 4)). destruct (unmorton wb hb (i / 4)) as [x y].
  replace (2 ^ (Z.of_nat (S wb) + Z.of_nat (S hb))) with (4 * 2 ^ (Z.of_nat wb + Z.of_nat hb)) in Hi
    by (rewrite !Z.pow_add_r, !pow2_succ by lia; lia).
  destruct IH as (Hm & Hx & Hy); [split; [apply Z.div_pos; lia | apply Z.div_lt_upper_bound; lia]|].
  replace ((i mod 2 + 2 * x) / 2) with x by dlia. replace ((i / 2 mod 2 + 2 * y) / 2) with y by dlia.
  rewrite Hm, !pow2_succ. split; [dlia|]. pose proof (Z.mod_pos_bound i 2). pose proof (Z.mod_pos_bound (i / 2) 2). lia.
Qed.

Lemma take_bit index bit x k : 0 <= bit < 32 -> 0 <= k -> 0 <= x -> 0 <= index < 2 ^ bit ->
  Z.lor index (wrap32 (Z.shiftl (Z.land (Z.shiftr x k) 1) bit)) = index + 2 ^ bit * ((x / 2 ^ k) mod 2).
Proof.
  intros Hb Hk Hx Hi. change 1 with (Z.ones 1). rewrite Z.land_ones, Z.shiftr_div_pow2, Z.shiftl_mul_pow2 by lia.
  change (2 ^ 1) with 2. pose proof (Z.mod_pos_bound (x / 2 ^ k) 2 ltac:(lia)).
  rewrite wrap_small. { rewrite (lor_disjoint index _ bit) by lia. lia. }
  unfold is_u. assert (2 ^ bit * 2 <= 2 ^ 32).
  { replace (2 ^ bit * 2) with (2 ^ (bit + 1)) by (rewrite Z.pow_add_r; lia). apply Z.pow_le_mono_r; lia. }
  nia.
Qed.

Lemma div_pow2_succ x k : 0 <= k -> x / 2 ^ (k + 1) = x / 2 ^ k / 2.
Proof. intros Hk. rewrite Z.pow_add_r, Z.div_div by lia. done. Qed.

Lemma grown_bit index bit b : 0 <= bit -> 0 <= index < 2 ^ bit -> 0 <= b < 2 -> 0 <= index + 2 ^ bit * b < 2 ^ (bit + 1).
Proof. intros. rewrite Z.pow_add_r by lia. nia. Qed.

(** Bit by bit: below the shorter side's [s] bits the columns have the even
    bits and the rows the odd ones, and the longer side has those above. *)
Definition interleaves (p q x y n : Z) : Prop :=
  let s := Z.min p q in
  forall i, 0 <= i ->
    (i < s -> Z.testbit n (2 * i) = Z.testbit x i /\ Z.testbit n (2 * i + 1) = Z.testbit y i) /\
    (s <= i -> Z.testbit n (s + i) = Z.testbit (if q <? p then x else y) i).

Lemma testbit_above r n j : 0 <= r < 4 -> 0 <= j -> Z.testbit (r + 4 * n) (2 + j) = Z.testbit n j.
Proof.
  intros Hr Hj. replace (2 + j) with (j + 2) by lia. rewrite <- Z.div_pow2_bits by lia. change (2 ^ 2) with 4.
  f_equal. symmetry. apply (Z.div_unique _ _ _ r); lia.
Qed.

Lemma testbit_half x i : 0 < i -> Z.testbit x i = Z.testbit (x / 2) (i - 1).
Proof. intros Hi. rewrite (Z.div_pow2_bits x 1) by lia. f_equal. lia. Qed.

Lemma morton_interleaves wb : forall hb x y, 0 <= x < 2 ^ Z.of_nat wb -> 0 <= y < 2 ^ Z.of_nat hb ->
  interleaves (Z.of_nat wb) (Z.of_nat hb) x y (morton wb hb x y).
Proof.
  induction wb as [|wb IH]; intros hb x y Hx Hy i Hi.
  { rewrite Z.min_l by lia. cbn [morton]. rewrite Z.mod_small by lia. split; [lia|]. intros _.
    rewrite (proj2 (Z.ltb_ge _ _)) by lia. done. }
  destruct hb as [|hb].
  { rewrite Z.min_r by lia. cbn [morton]. rewrite Z.mod_small by lia. split; [lia|]. intros _.
    rewrite (proj2 (Z.ltb_lt _ _)) by lia. done. }
  rewrite pow2_succ in Hx, Hy. specialize (IH hb (x / 2) (y / 2) ltac:(dlia) ltac:(dlia)). cbn [morton].
  set (m := morton wb hb (x / 2) (y / 2)) in *. set (r := x mod 2 + 2 * (y mod 2)).
  assert (0 <= r < 4) as Hr by (unfold r; dlia).
  replace (Z.min (Z.of_nat (S wb)) (Z.of_nat (S hb))) with (1 + Z.min (Z.of_nat wb) (Z.of_nat hb)) by lia.
  assert ((Z.of_nat (S hb) <? Z.of_nat (S wb)) = (Z.of_nat hb <? Z.of_nat wb)) as ->.
  { destruct (Z.ltb_spec (Z.of_nat (S hb)) (Z.of_nat (S wb))), (Z.ltb_spec (Z.of_nat hb) (Z.of_nat wb)); done || lia. }
  destruct (Z.eq_dec i 0) as [->|Hne].
  - split; [|lia]. intros _. split; apply Z.b2z_inj; rewrite !Z.testbit_spec' by lia.
    + change (2 ^ (2 * 0)) with 1. change (2 ^ 0) with 1. rewrite !Z.div_1_r. unfold r. dlia.
    + change (2 ^ (2 * 0 + 1)) with 2. change (2 ^ 0) with 1. rewrite Z.div_1_r. unfold r. dlia.
  - destruct (IH (i - 1) ltac:(lia)) as [Hlow Hhigh]. split.
    + intros Hlt. destruct (Hlow ltac:(lia)) as [He Ho]. rewrite (testbit_half x), (testbit_half y), <- He, <- Ho by lia.
      replace (2 * i) with (2 + 2 * (i - 1)) by lia. rewrite <- Z.add_assoc, !testbit_above by lia. done.
    + intros Hge. replace (1 + Z.min (Z.of_nat wb) (Z.of_nat hb) + i) with (2 + (Z.min (Z.of_nat wb) (Z.of_nat hb) + (i - 1))) by lia.
      rewrite testbit_above, Hhigh by lia. by case_match; rewrite (testbit_half _ i) by lia.
Qed.

Lemma morton_left w x y : morton (S w) 0 x y = x mod 2 + 2 * morton w 0 (x / 2) y.
Proof.
  cbn [morton]. rewrite pow2_succ, mod_pow2_succ by lia. f_equal. f_equal. destruct w; cbn [morton]; [|done].
  change (2 ^ Z.of_nat 0) with 1. by rewrite !Z.mod_1_r.
Qed.
Lemma morton_right h x y : morton 0 (S h) x y = y mod 2 + 2 * morton 0 h x (y / 2).
Proof. cbn [morton]. by rewrite pow2_succ, mod_pow2_succ by lia. Qed.

Lemma swizzle_loop_spec fuel : forall x y wb hb xb yb bit index, 0 <= x -> 0 <= y -> 0 <= xb <= wb -> 0 <= yb <= hb ->
  0 <= bit -> 0 <= index < 2 ^ bit -> bit + (wb - xb) + (hb - yb) <= 32 -> Z.max (wb - xb) (hb - yb) < Z.of_nat fuel ->
  swizzle_loop fuel x y wb hb xb yb bit index =
    Some (index + 2 ^ bit * morton (Z.to_nat (wb - xb)) (Z.to_nat (hb - yb)) (x / 2 ^ xb) (y / 2 ^ yb)).
Proof.
  induction fuel as [|fuel IH]; intros x y wb hb xb yb bit index Hx Hy Hxb Hyb Hbit Hi Hw Hf; [lia|].
  cbn [swizzle_loop]. pose proof (Z.mod_pos_bound (x / 2 ^ xb) 2 ltac:(lia)) as Hmx.
  pose proof (Z.mod_pos_bound (y / 2 ^ yb) 2 ltac:(lia)) as Hmy.
  destruct (Z.ltb_spec xb wb) as [Hxl|Hxl]; destruct (Z.ltb_spec yb hb) as [Hyl|Hyl]; cbn [orb].
  - rewrite (take_bit index bit x xb) by lia. pose proof (grown_bit index bit _ Hbit Hi Hmx) as Hi1.
    rewrite (take_bit _ (bit + 1) y yb) by lia.
    rewrite IH; try lia; [|apply (grown_bit _ (bit + 1)); lia].
    f_equal. replace (Z.to_nat (wb - xb)) with (S (Z.to_nat (wb - (xb + 1)))) by lia.
    replace (Z.to_nat (hb - yb)) with (S (Z.to_nat (hb - (yb + 1)))) by lia. cbn [morton].
    rewrite !div_pow2_succ, !Z.pow_add_r by lia. change (2 ^ 1) with 2. ring.
  - rewrite take_bit by lia. rewrite IH; try lia; [|by apply grown_bit].
    f_equal. replace (Z.to_nat (wb - xb)) with (S (Z.to_nat (wb - (xb + 1)))) by lia.
    replace (Z.to_nat (hb - yb)) with 0%nat by lia. rewrite morton_left, div_pow2_succ, Z.pow_add_r by lia. change (2 ^ 1) with 2. ring.
  - rewrite take_bit by lia. rewrite IH; try lia; [|by apply grown_bit].
    f_equal. replace (Z.to_nat (wb - xb)) with 0%nat by lia.
    replace (Z.to_nat (hb - yb)) with (S (Z.to_nat (hb - (yb + 1)))) by lia. rewrite morton_right, div_pow2_succ, Z.pow_add_r by lia. change (2 ^ 1) with 2. ring.
  - f_equal. replace (Z.to_nat (wb - xb)) with 0%nat by lia. replace (Z.to_nat (hb - yb)) with 0%nat by lia.
    cbn [morton]. change (2 ^ Z.of_nat 0) with 1. rewrite Z.mod_1_r. lia.
Qed.

Lemma swizzle_is_morton x y wb hb : 0 <= x -> 0 <= y -> 0 <= wb -> 0 <= hb -> wb + hb <= 32 ->
  swizzle_index x y wb hb = morton (Z.to_nat wb) (Z.to_nat hb) x y.
Proof.
  intros Hx Hy Hw Hh Hs. unfold swizzle_index. rewrite swizzle_loop_spec by (change (2 ^ 0) with 1; lia). cbn [default from_option id].
  rewrite !Z.sub_0_r. change (2 ^ 0) with 1. rewrite !Z.div_1_r. lia.
Qed.

(** ** Compressed texels *)

(** A colour from its channels. *)
Definition packed (alpha red green blue : Z) : Z := alpha * 2 ^ 24 + red * 2 ^ 16 + green * 2 ^ 8 + blue.

Lemma lor_scale a b n : 0 <= n -> Z.lor (a * 2 ^ n) (b * 2 ^ n) = Z.lor a b * 2 ^ n.
Proof. intros Hn. rewrite <- !Z.shiftl_mul_pow2 by done. by rewrite Z.shiftl_lor. Qed.

Lemma packed_lor alpha red green blue : 0 <= alpha -> u8 red -> u8 green -> u8 blue ->
  Z.lor blue (Z.lor (Z.shiftl green 8) (Z.lor (Z.shiftl red 16) (alpha * 2 ^ 24))) = packed alpha red green blue.
Proof.
  intros Ha Hr Hg Hb. unfold is_u in *. rewrite !Z.shiftl_mul_pow2 by lia.
  replace (alpha * 2 ^ 24) with ((alpha * 2 ^ 8) * 2 ^ 16) by lia. rewrite lor_scale, (lor_disjoint red alpha 8) by lia.
  replace ((red + alpha * 2 ^ 8) * 2 ^ 16) with ((red + alpha * 2 ^ 8) * 2 ^ 8 * 2 ^ 8) by lia.
  rewrite lor_scale, (lor_disjoint green (red + alpha * 2 ^ 8) 8), (lor_disjoint blue _ 8) by lia. unfold packed. lia.
Qed.

Lemma packed_channels alpha red green blue : u8 alpha -> u8 red -> u8 green -> u8 blue ->
  color_channel (packed alpha red green blue) 0 = blue /\ color_channel (packed alpha red green blue) 8 = green /\
  color_channel (packed alpha red green blue) 16 = red /\ color_channel (packed alpha red green blue) 24 = alpha.
Proof.
  intros Ha Hr Hg Hb. unfold color_channel, packed, is_u in *. change 0xFF with (Z.ones 8).
  rewrite !Z.land_ones, !Z.shiftr_div_pow2 by lia. change (2 ^ 24) with 16777216. change (2 ^ 16) with 65536.
  change (2 ^ 8) with 256 in *. change (2 ^ 0) with 1. split_and!; dlia.
Qed.

Lemma mix_channel_between a b n d : 0 < d -> 0 <= n <= d -> Z.min a b <= mix_channel a b n d <= Z.max a b.
Proof.
  intros Hd Hn. unfold mix_channel. split; [apply Z.div_le_lower_bound | apply Z.lt_succ_r, Z.div_lt_upper_bound]; nia.
Qed.

Lemma color_channel_u8 c s : u8 (color_channel c s).
Proof. unfold color_channel. change 0xFF with (Z.ones 8). rewrite Z.land_ones by lia. by apply wrap_range. Qed.

Lemma mix_channel_u8 c0 c1 s n d : 0 < d -> 0 <= n <= d -> u8 (mix_channel (color_channel c0 s) (color_channel c1 s) n d).
Proof.
  intros Hd Hn. pose proof (color_channel_u8 c0 s). pose proof (color_channel_u8 c1 s).
  pose proof (mix_channel_between (color_channel c0 s) (color_channel c1 s) n d Hd Hn). unfold is_u in *. lia.
Qed.

Lemma mix_spec c0 c1 n d : 0 < d -> 0 <= n <= d ->
  mix c0 c1 n d = packed 255 (mix_channel (color_channel c0 16) (color_channel c1 16) n d)
    (mix_channel (color_channel c0 8) (color_channel c1 8) n d) (mix_channel (color_channel c0 0) (color_channel c1 0) n d).
Proof.
  intros Hd Hn. unfold mix. cbn [foldl].
  pose proof (mix_channel_u8 c0 c1 0 n d Hd Hn) as H0. pose proof (mix_channel_u8 c0 c1 8 n d Hd Hn) as H8.
  pose proof (mix_channel_u8 c0 c1 16 n d Hd Hn) as H16.
  change 0xFF with (Z.ones 8). rewrite !Z.land_ones by lia. rewrite !(Z.mod_small _ (2 ^ 8)) by assumption.
  rewrite <- (packed_lor 255) by (assumption || lia). rewrite Z.shiftl_0_r. change (255 * 2 ^ 24) with 0xFF000000.
  rewrite (Z.lor_comm 0xFF000000), <- !Z.lor_assoc. f_equal. rewrite (Z.lor_comm 0xFF000000), <- Z.lor_assoc. f_equal.
Qed.

(** A five-bit or six-bit channel with its high bits repeated below. *)
Lemma replicated v k j : 0 <= k -> 0 <= j -> 0 <= v < 2 ^ (k + j) ->
  Z.lor (Z.shiftl v j) (Z.shiftr v k) = v * 2 ^ j + v / 2 ^ k.
Proof.
  intros Hk Hj Hv. rewrite Z.shiftl_mul_pow2, Z.shiftr_div_pow2, Z.lor_comm by lia.
  rewrite lor_disjoint; [lia | lia | | lia]. split; [apply Z.div_pos; lia|].
  apply Z.div_lt_upper_bound; [lia|]. rewrite <- Z.pow_add_r by lia. lia.
Qed.

Lemma expand_565_spec v : exists red green blue, u8 red /\ u8 green /\ u8 blue /\ expand_565 v = packed 255 red green blue.
Proof.
  unfold expand_565. change 0x1F with (Z.ones 5). change 0x3F with (Z.ones 6). rewrite !Z.land_ones by lia.
  pose proof (Z.mod_pos_bound (Z.shiftr v 11) (2 ^ 5) ltac:(lia)) as Hr. pose proof (Z.mod_pos_bound (Z.shiftr v 5) (2 ^ 6) ltac:(lia)) as Hg.
  pose proof (Z.mod_pos_bound v (2 ^ 5) ltac:(lia)) as Hb.
  generalize dependent (Z.shiftr v 11 mod 2 ^ 5). generalize dependent (Z.shiftr v 5 mod 2 ^ 6). generalize dependent (v mod 2 ^ 5).
  intros b Hb g Hg r Hr. cbn zeta. rewrite (replicated r 2 3), (replicated g 4 2), (replicated b 2 3) by (cbn; lia).
  exists (r * 2 ^ 3 + r / 2 ^ 2), (g * 2 ^ 2 + g / 2 ^ 4), (b * 2 ^ 3 + b / 2 ^ 2).
  assert (u8 (r * 2 ^ 3 + r / 2 ^ 2)) as H1 by (unfold is_u; change (2 ^ 5) with 32 in Hr; change (2 ^ 3) with 8; change (2 ^ 2) with 4; change (2 ^ 8) with 256; dlia).
  assert (u8 (g * 2 ^ 2 + g / 2 ^ 4)) as H2 by (unfold is_u; change (2 ^ 6) with 64 in Hg; change (2 ^ 4) with 16; change (2 ^ 2) with 4; change (2 ^ 8) with 256; dlia).
  assert (u8 (b * 2 ^ 3 + b / 2 ^ 2)) as H3 by (unfold is_u; change (2 ^ 5) with 32 in Hb; change (2 ^ 3) with 8; change (2 ^ 2) with 4; change (2 ^ 8) with 256; dlia).
  split_and!; [done..|]. rewrite <- packed_lor by (done || lia). change (255 * 2 ^ 24) with 0xFF000000.
  set (R := Z.shiftl (r * 2 ^ 3 + r / 2 ^ 2) 16). set (G := Z.shiftl (g * 2 ^ 2 + g / 2 ^ 4) 8). set (B := b * 2 ^ 3 + b / 2 ^ 2).
  rewrite (Z.lor_comm _ B). f_equal. rewrite (Z.lor_comm _ G). f_equal. apply Z.lor_comm.
Qed.

(** Every channel of a texel lies between the channels of its endpoints. *)
Definition between_endpoints (texel c0 c1 : Z) : Prop :=
  color_channel texel 24 = 255 /\ forall s, s ∈ [0; 8; 16] ->
    Z.min (color_channel c0 s) (color_channel c1 s) <= color_channel texel s <= Z.max (color_channel c0 s) (color_channel c1 s).

Lemma mix_between c0 c1 n d : 0 < d -> 0 <= n <= d -> between_endpoints (mix c0 c1 n d) c0 c1.
Proof.
  intros Hd Hn. rewrite mix_spec by done.
  destruct (packed_channels 255 (mix_channel (color_channel c0 16) (color_channel c1 16) n d)
    (mix_channel (color_channel c0 8) (color_channel c1 8) n d) (mix_channel (color_channel c0 0) (color_channel c1 0) n d))
    as (E0 & E8 & E16 & E24); [unfold is_u; lia | by apply mix_channel_u8 ..|].
  split; [done|]. intros s Hs. repeat (apply elem_of_cons in Hs as [->|Hs]); [..|by apply not_elem_of_nil in Hs];
    rewrite ?E0, ?E8, ?E16; by apply mix_channel_between.
Qed.

Lemma endpoint_opaque v : color_channel (expand_565 v) 24 = 255.
Proof.
  destruct (expand_565_spec v) as (r & g & b & Hr & Hg & Hb & ->).
  by destruct (packed_channels 255 r g b) as (_ & _ & _ & ->); [unfold is_u; lia | ..].
Qed.

Lemma endpoint_between v0 v1 : between_endpoints (expand_565 v0) (expand_565 v0) (expand_565 v1) /\
  between_endpoints (expand_565 v1) (expand_565 v0) (expand_565 v1).
Proof. split; (split; [apply endpoint_opaque | intros s _; lia]). Qed.

Lemma interpolated_between a b i k : 0 < k -> 1 <= i <= k + 1 ->
  Z.min a b <= (a * (k + 1 - i) + b * (i - 1)) / k <= Z.max a b.
Proof.
  intros Hk Hi. split; [apply Z.div_le_lower_bound | apply Z.lt_succ_r, Z.div_lt_upper_bound]; nia.
Qed.

(** C25: Decoding a compressed block interpolates.  Every colour texel, in
    either mode, is opaque with each channel between those channels of the two
    expanded endpoints, except that the three-colour mode of the first format
    has one transparent slot; and an interpolated alpha is between its two
    endpoints, except for the two fixed ends of the six-value mode. *)
Theorem block_texels_interpolate (block : Block) (x y : Z) :
  let c0 := expand_565 (Z.land block.1 0xFFFF) in
  let c1 := expand_565 (Z.land (Z.shiftr block.1 16) 0xFFFF) in
  let a0 := Z.land block.1 0xFF in
  let a1 := Z.land (Z.shiftr block.1 8) 0xFF in
  between_endpoints (dxt_opaque_texel block x y) c0 c1 /\
  (dxt1_texel block x y = 0 \/ between_endpoints (dxt1_texel block x y) c0 c1) /\
  (Z.min a0 a1 <= dxt5_alpha block x y <= Z.max a0 a1 \/
   a0 <= a1 /\ (dxt5_alpha block x y = 0 \/ dxt5_alpha block x y = 255)).
Proof.
  cbn zeta. destruct (endpoint_between (Z.land block.1 0xFFFF) (Z.land (Z.shiftr block.1 16) 0xFFFF)) as [Hb0 Hb1].
  split_and!.
  - unfold dxt_opaque_texel, color_texel. cbn zeta. repeat case_match; try done; apply mix_between; lia.
  - unfold dxt1_texel, color_texel. cbn zeta. repeat case_match; try (by left); right; try done; apply mix_between; lia.
  - unfold dxt5_alpha. cbn zeta. set (i := Z.land (Z.shiftr _ _) 7). set (a := Z.land block.1 0xFF). set (b := Z.land _ 0xFF).
    assert (0 <= i < 8) as Hi by (unfold i; change 7 with (Z.ones 3); rewrite Z.land_ones by lia; by apply Z.mod_pos_bound).
    clearbody i a b. destruct (Z.eqb_spec i 0); [left; lia|]. destruct (Z.eqb_spec i 1); [left; lia|].
    destruct (Z.ltb_spec b a); [left; replace (8 - i) with (7 + 1 - i) by lia; apply interpolated_between; lia|].
    destruct (Z.eqb_spec i 6); [right; lia|]. destruct (Z.eqb_spec i 7); [right; lia|].
    left. replace (6 - i) with (5 + 1 - i) by lia. apply interpolated_between; lia.
Qed.

(** ** Binding *)

Lemma bind_texture_inv texture dma t : bind_texture texture dma = Some t -> exists object,
  dma = Some object /\ texture_layout (color_format texture) = Some (tx_layout t) /\
  tx_base t = wrapping_add32 (dma_base object) (tex_offset texture) /\
  (tx_width t, tx_height t) = texture_extent texture /\ tx_width t <= 4096 /\ tx_height t <= 4096 /\
  tx_width t <> 0 /\ tx_height t <> 0 /\
  tx_level_bases t = level_table t 0 (tx_base t) MAX_MIP_LEVELS /\
  tx_end t = saturating_add 32 (saturating_add 32 (dma_base object) (dma_limit object)) 1.
Proof.
  unfold bind_texture. destruct (texture_extent texture) as [width height]. case_match eqn:Hz; [done|].
  destruct (texture_layout _) as [layout|]; cbn [mbind option_bind]; [|done]. case_match; [done|]. case_match eqn:Hbig; [done|].
  destruct dma as [object|]; cbn [mbind option_bind]; [|done]. intros [= <-]. exists object.
  apply orb_false_elim in Hz as [Hw%Z.eqb_neq Hh%Z.eqb_neq]. apply orb_false_elim in Hbig as [Hwb%Z.ltb_ge Hhb%Z.ltb_ge].
  unfold MAX_TEXTURE_DIMENSION in *. by split_and!.
Qed.

Lemma level_table_lookup t n : forall level base i, (i < n)%nat ->
  exists b, level_table t level base n !! i = Some b /\ (i = 0%nat -> b = base) /\
    (forall j, i = S j -> exists b', level_table t level base n !! j = Some b' /\
      b = wrapping_add32 b' (level_bytes t (level + Z.of_nat j))).
Proof.
  induction n as [|n IH]; intros level base i Hi; [lia|]. cbn [level_table]. destruct i as [|i].
  { exists base. split_and!; [done | done | intros j Hj; lia]. }
  destruct (IH (level + 1) (wrapping_add32 base (level_bytes t level)) i ltac:(lia)) as (b & Hb & Hb0 & Hbs).
  exists b. cbn [lookup list_lookup]. split_and!; [done | done|]. intros j [= <-]. destruct i as [|i].
  - exists base. split; [done|]. rewrite Z.add_0_r. by apply Hb0.
  - destruct (Hbs i eq_refl) as (b' & Hb' & ->). exists b'. split; [done|]. f_equal. f_equal. lia.
Qed.

(** Each level begins where the one before it ends. *)
Lemma levels_consecutive texture dma t level : bind_texture texture dma = Some t -> 0 <= level < 12 ->
  level_base t 0 = tx_base t /\
  level_base t (level + 1) = wrapping_add32 (level_base t level) (level_bytes t level).
Proof.
  intros (_ & _ & _ & _ & _ & _ & _ & _ & _ & Ht & _)%bind_texture_inv Hl. unfold level_base. rewrite Ht. split; [done|].
  destruct (level_table_lookup t MAX_MIP_LEVELS 0 (tx_base t) (Z.to_nat (level + 1))) as (b & Hb & _ & Hs);
    [unfold MAX_MIP_LEVELS; lia|].
  destruct (Hs (Z.to_nat level) ltac:(lia)) as (b' & Hb' & ->). rewrite Hb, Hb'. by rewrite Z2Nat.id, Z.add_0_l by lia.
Qed.

Lemma trailing_zeros_pow2 k : 0 <= k <= 12 -> trailing_zeros (2 ^ k) = k.
Proof.
  intros Hk. assert (k ∈ seqZ 0 13) as Hin by (apply elem_of_seqZ; lia). revert Hin. clear Hk.
  intros Hin. assert (Forall (fun k => trailing_zeros (2 ^ k) = k) (seqZ 0 13)) as Hall
    by (apply (bool_decide_unpack _); by vm_compute).
  rewrite Forall_forall in Hall. by apply Hall.
Qed.

Lemma side_pow2 log : 0 <= log -> Z.shiftl 1 log <= 4096 -> exists k, 0 <= k <= 12 /\ Z.shiftl 1 log = 2 ^ k.
Proof.
  intros Hl. rewrite Z.shiftl_1_l. intros Hle. exists log. split; [|done]. split; [done|].
  destruct (Z.le_gt_cases log 12); [done|]. assert (2 ^ 13 <= 2 ^ log) by (apply Z.pow_le_mono_r; lia). lia.
Qed.

Lemma level_side k level : 0 <= k -> 0 <= level ->
  Z.max (Z.shiftr (2 ^ k) level) 1 = 2 ^ Z.max (k - level) 0.
Proof.
  intros Hk Hl. rewrite Z.shiftr_div_pow2 by done. destruct (Z.le_gt_cases level k).
  - assert (2 ^ k / 2 ^ level = 2 ^ (k - level)) as -> by (symmetry; apply Z.pow_sub_r; lia).
    rewrite (Z.max_l (k - level)) by lia. apply Z.max_l. pose proof (Z.pow_pos_nonneg 2 (k - level)). lia.
  - rewrite (Z.max_r (k - level)) by lia. rewrite Z.div_small; [done|]. split; [apply Z.pow_nonneg; lia|]. apply Z.pow_lt_mono_r; lia.
Qed.

Lemma swizzled_sides texture dma t : bind_texture texture dma = Some t -> tx_layout t = Swizzled ->
  exists a b, 0 <= a <= 12 /\ 0 <= b <= 12 /\ tx_width t = 2 ^ a /\ tx_height t = 2 ^ b.
Proof.
  intros (_ & _ & Hlay & _ & Hext & Hw & Hh & _ & _ & _)%bind_texture_inv Hs. rewrite Hs in Hlay.
  assert (is_linear texture = false) as Hlin.
  { unfold is_linear. apply bool_decide_eq_false. revert Hlay. unfold texture_layout. case_match eqn:Hf; [done|].
    case_match eqn:Hz; [|by repeat case_match]. apply bool_decide_eq_true in Hz. intros _ Hin.
    repeat (apply elem_of_cons in Hz as [Hz|Hz]; [rewrite Hz in Hin; revert Hin; apply (bool_decide_unpack _); by vm_compute|]).
    by apply not_elem_of_nil in Hz. }
  unfold texture_extent in Hext. rewrite Hlin in Hext. injection Hext as Hwe Hhe. rewrite Hwe in Hw. rewrite Hhe in Hh.
  apply side_pow2 in Hw as (a & Ha & Hea); [|apply Z.land_nonneg; right; lia].
  apply side_pow2 in Hh as (b & Hb & Heb); [|apply Z.land_nonneg; right; lia].
  exists a, b. split_and!; try lia; congruence.
Qed.

(** C24: A swizzled texture tiles its memory in Morton order.  On every level
    of a bound texture that stores whole texels in swizzled order, the texels
    of the level's extent are the dwords of the level's bytes, each of them
    exactly one texel's; the number of a texel's dword has the bits of its
    column and of its row in turn from the lowest, column first, and above the
    shorter side's bits those of the longer side; the first level begins at the
    texture's base and each next one where the one before it ends. *)
Theorem swizzled_levels_tile (texture : TextureState) (dma : option DmaObject) (t : MemoryTexture) (level : Z) :
  bind_texture texture dma = Some t -> tx_layout t = Swizzled -> 0 <= level <= 12 ->
  let '(width, height) := level_extent t level in
  level_bytes t level = 4 * (width * height) /\
  (exists index : Z -> Z -> Z,
    (forall x y, 0 <= x < width -> 0 <= y < height -> 0 <= index x y < width * height /\
       interleaves (Z.log2 width) (Z.log2 height) x y (index x y) /\
       texel_address t level x y = wrapping_add32 (level_base t level) (4 * index x y)) /\
    (forall i, 0 <= i < width * height -> exists x y, 0 <= x < width /\ 0 <= y < height /\ index x y = i /\
       forall x' y', 0 <= x' < width -> 0 <= y' < height -> index x' y' = i -> x' = x /\ y' = y)) /\
  level_base t 0 = tx_base t /\
  (level < 12 -> level_base t (level + 1) = wrapping_add32 (level_base t level) (level_bytes t level)).
Proof.
  intros Hbind Hlay Hl. destruct (swizzled_sides texture dma t Hbind Hlay) as (a & b & Ha & Hb & Hw & Hh).
  unfold level_extent. rewrite Hw, Hh, !level_side by lia. set (p := Z.max (a - level) 0). set (q := Z.max (b - level) 0).
  assert (0 <= p <= 12 /\ 0 <= q <= 12) as [Hp Hq] by lia.
  assert (2 ^ p * 2 ^ q <= 2 ^ 24) as Harea by (rewrite <- Z.pow_add_r by lia; apply Z.pow_le_mono_r; lia).
  assert (0 < 2 ^ p /\ 0 < 2 ^ q) as [Hpp Hqp] by lia.
  assert (level_bytes t level = 4 * (2 ^ p * 2 ^ q)) as Hbytes.
  { unfold level_bytes, level_extent. rewrite Hlay, Hw, Hh, !level_side by lia. fold p q. rewrite wrap_small; [lia|]. unfold is_u. lia. }
  split; [done|]. split.
  - exists (fun x y => morton (Z.to_nat p) (Z.to_nat q) x y). split.
    + intros x y Hx Hy. pose proof (morton_range (Z.to_nat p) (Z.to_nat q) x y ltac:(lia) ltac:(lia)) as Hr.
      rewrite !Z2Nat.id, Z.pow_add_r in Hr by lia. split; [done|]. split.
      { rewrite !Z.log2_pow2 by lia. rewrite <- (Z2Nat.id p), <- (Z2Nat.id q) by lia. rewrite !Nat2Z.id.
        apply morton_interleaves; rewrite Z2Nat.id by lia; lia. }
      unfold texel_address, level_extent. rewrite Hlay, Hw, Hh, !level_side by lia. fold p q.
      rewrite !trailing_zeros_pow2, swizzle_is_morton, (wrap_small 32) by (unfold is_u; lia). f_equal. lia.
    + intros i Hi. pose proof (morton_unmorton (Z.to_nat p) (Z.to_nat q) i) as Hu.
      rewrite !Z2Nat.id, Z.pow_add_r in Hu by lia. specialize (Hu Hi). destruct (unmorton _ _ i) as [x y] eqn:Hun.
      destruct Hu as (Hm & Hx & Hy). exists x, y. split_and!; try done; try lia. intros x' y' Hx' Hy' Hm'.
      pose proof (unmorton_morton (Z.to_nat p) (Z.to_nat q) x' y') as Hback. rewrite Hm', Hun, !Z2Nat.id, !Z.mod_small in Hback by lia.
      by injection Hback as -> ->.
  - split; [exact (proj1 (levels_consecutive texture dma t 0 Hbind ltac:(lia)))|]. intros Hlt.
    apply (levels_consecutive texture dma t level Hbind). lia.
Qed.

Definition demo_texture : TextureState := mkTextureState 0x100 0x03230600 0 (0, 0) true 0 0.
Definition demo_object : DmaObject := mkDmaObject 0x3D 0xFFFF 0x10000.

Lemma swizzled_levels_tile_witness : exists t, bind_texture demo_texture (Some demo_object) = Some t /\
  level_extent t 1 = (2, 4) /\ level_bytes t 1 = 32.
Proof.
  destruct (bind_texture demo_texture (Some demo_object)) as [t|] eqn:Hb; [|by vm_compute in Hb].
  exists t. pose proof (swizzled_levels_tile demo_texture (Some demo_object) t 1 Hb) as Ht.
  vm_compute in Hb. injection Hb as <-. specialize (Ht eq_refl ltac:(lia)). split; [done|]. split; [done|]. apply Ht.
Defined.

(** ** Confinement *)

(** A texel comes from dwords that begin in the object. *)
Lemma texel_dwords {M : Type} `{Nv2aMemory M} (texture : TextureState) (object : DmaObject) (t : MemoryTexture)
    (m1 m2 : M) (level x y : Z) :
  bind_texture texture (Some object) = Some t ->
  0 <= dma_base object -> 0 <= tex_offset texture -> dma_base object + tex_offset texture < 2 ^ 32 ->
  (forall a, dma_base object <= a <= dma_base object + dma_limit object -> nv_read_dword m1 a = nv_read_dword m2 a) ->
  texel_in t m1 level x y = texel_in t m2 level x y.
Proof.
  intros (o & [= <-] & _ & Hbase & _ & _ & _ & _ & _ & _ & Hend)%bind_texture_inv Hb Ho Hsum Hagree.
  assert (forall a, tx_read t m1 a = tx_read t m2 a) as Hread.
  { intros a. unfold tx_read. destruct (Z.ltb_spec a (tx_base t)); [done|]. destruct (Z.leb_spec (tx_end t) a); [done|].
    cbn [orb]. f_equal. apply Hagree. unfold wrapping_add32 in Hbase. rewrite wrap_small in Hbase by (unfold is_u; lia).
    unfold saturating_add in Hend. lia. }
  unfold texel_in. cbn zeta. destruct (level_extent _ _) as [w h]. unfold tx_block. by rewrite !Hread.
Qed.

(** C23: Sampling stays at the object.  While the texture's offset does not
    carry its base past the top of the address space, no texel of any level,
    layout or coordinate depends on a byte of RAM before the DMA object the
    texture is bound to, nor on one more than three past its end; those three
    are in reach because only the first byte of a dword is checked
    ([sample_reaches_past_object]). *)
Theorem texture_reads_confined (texture : TextureState) (object : DmaObject) (t : MemoryTexture)
    (m1 m2 : PhysicalMemory) (level x y : Z) :
  bind_texture texture (Some object) = Some t ->
  0 <= dma_base object -> 0 <= tex_offset texture -> dma_base object + tex_offset texture < 2 ^ 32 ->
  dwords_ok m1 -> dwords_ok m2 -> dword_bytes m1 = dword_bytes m2 ->
  (forall o, dma_base object <= o <= dma_base object + dma_limit object + 3 ->
     ram_byte (dword_ram m1) o = ram_byte (dword_ram m2) o) ->
  texel_in t m1 level x y = texel_in t m2 level x y.
Proof.
  intros Hbind Hb Ho Hsum Hm1 Hm2 Hlen Hagree. eapply texel_dwords; try done.
  intros a Ha. cbn [nv_read_dword PhysicalMemory_Nv2aMemory]. rewrite !dword_read_spec by (done || lia).
  unfold byte_read. rewrite Hlen, !ram_dword_spec. unfold ram_dword. by rewrite !Hagree by lia.
Qed.

Definition demo_dark : PhysicalMemory := mkPhysicalMemory ∅ 0x20000.
Definition demo_lit : PhysicalMemory := mkPhysicalMemory {[ 0x10100 := 7 ]} 0x20000.
Definition demo_outside : PhysicalMemory := mkPhysicalMemory {[ 0xF000 := 7 ]} 0x20000.

Definition demo_both : PhysicalMemory := mkPhysicalMemory (<[ 0xF000 := 9 ]> {[ 0x10100 := 7 ]}) 0x20000.

Lemma texture_reads_confined_witness : exists t, bind_texture demo_texture (Some demo_object) = Some t /\
  texel_in t demo_both 0 0 0 = texel_in t demo_lit 0 0 0 /\ texel_in t demo_lit 0 0 0 = 7.
Proof.
  destruct (bind_texture demo_texture (Some demo_object)) as [t|] eqn:Hb; [|by vm_compute in Hb].
  exists t. split; [done|]. split; [|vm_compute in Hb; injection Hb as <-; by vm_compute].
  apply (texture_reads_confined demo_texture demo_object t demo_both demo_lit 0 0 0 Hb);
    cbn [dma_base dma_limit tex_offset demo_texture demo_object]; try lia.
  - split; [done|]. apply (bool_decide_unpack _). by vm_compute.
  - split; [done|]. apply (bool_decide_unpack _). by vm_compute.
  - done.
  - intros o Hrange. cbn [dword_ram demo_both demo_lit]. unfold ram_byte. rewrite lookup_insert_ne by lia. done.
Defined.

(** An object of sixteen bytes and a texture two bytes into it: the last texel
    takes its high half from the two bytes after the object. *)
Definition demo_skewed : TextureState := mkTextureState 2 0x01110600 0 (0, 0) true 0 0.

Theorem sample_reaches_past_object : exists t,
  bind_texture demo_skewed (Some (mkDmaObject 0x3D 0xF 0x10000)) = Some t /\
  texel_in t demo_dark 0 1 1 = 0 /\
  texel_in t (mkPhysicalMemory {[ 0x10010 := 7 ]} 0x20000) 0 1 1 = 0x70000.
Proof.
  destruct (bind_texture demo_skewed (Some (mkDmaObject 0x3D 0xF 0x10000))) as [t|] eqn:Hb; [|by vm_compute in Hb].
  exists t. split; [done|]. vm_compute in Hb. injection Hb as <-. by vm_compute.
Qed.

(** An offset that wraps puts the texture's base below its object, and the
    samples leave it. *)
Definition demo_escape : TextureState := mkTextureState 0xFFFFF000 0x03230600 0 (0, 0) true 0 0.

Theorem wrapped_offset_escapes : exists t, bind_texture demo_escape (Some demo_object) = Some t /\
  (forall a, dma_base demo_object <= a -> ram_byte (dword_ram demo_dark) a = ram_byte (dword_ram demo_outside) a) /\
  texel_in t demo_dark 0 0 0 = 0 /\ texel_in t demo_outside 0 0 0 = 7.
Proof.
  destruct (bind_texture demo_escape (Some demo_object)) as [t|] eqn:Hb; [|by vm_compute in Hb].
  exists t. split; [done|]. vm_compute in Hb. injection Hb as <-. split; [|by vm_compute].
  intros a Ha. cbn [dma_base demo_object] in Ha. cbn [dword_ram demo_dark demo_outside]. unfold ram_byte.
  rewrite lookup_singleton_ne by lia. done.
Qed.
