(* ===== verification/GpuState.v ===== *)
(** * The state of the pushbuffer engine

    The records of [exbawks-gpu/src/nv2a.rs], of a combiner configuration
    ([combiner.rs]) and of what the rasteriser is given ([raster.rs]), with a
    setter per field the engine changes.  Floats are an opaque type [F];
    arrays are lists, of the lengths [PushbufferSafety] keeps. *)

From S2P Require Import Prelude GuestTypes Textures.

Local Open Scope Z_scope.

(** ** Surfaces and textures *)

Record SurfaceState : Type := mkSurfaceState {
  sf_color_dma : option DmaObject;
  sf_color_offset : Z;
  sf_zeta_offset : Z;
  sf_zeta_pitch : Z;
  sf_color_pitch : Z;
  sf_clip_x : Z;
  sf_clip_width : Z;
  sf_clip_y : Z;
  sf_clip_height : Z;
  sf_clear_color : Z;
  sf_clear_zstencil : Z;
  sf_clear_x : Z * Z;
  sf_clear_y : Z * Z;
}.

Definition with_sf_color_dma (s : SurfaceState) (v : option DmaObject) : SurfaceState :=
  mkSurfaceState v (sf_color_offset s) (sf_zeta_offset s) (sf_zeta_pitch s) (sf_color_pitch s) (sf_clip_x s)
    (sf_clip_width s) (sf_clip_y s) (sf_clip_height s) (sf_clear_color s) (sf_clear_zstencil s)
    (sf_clear_x s) (sf_clear_y s).
Definition with_sf_color_offset (s : SurfaceState) (v : Z) : SurfaceState :=
  mkSurfaceState (sf_color_dma s) v (sf_zeta_offset s) (sf_zeta_pitch s) (sf_color_pitch s) (sf_clip_x s)
    (sf_clip_width s) (sf_clip_y s) (sf_clip_height s) (sf_clear_color s) (sf_clear_zstencil s)
    (sf_clear_x s) (sf_clear_y s).
Definition with_sf_zeta_offset (s : SurfaceState) (v : Z) : SurfaceState :=
  mkSurfaceState (sf_color_dma s) (sf_color_offset s) v (sf_zeta_pitch s) (sf_color_pitch s) (sf_clip_x s)
    (sf_clip_width s) (sf_clip_y s) (sf_clip_height s) (sf_clear_color s) (sf_clear_zstencil s)
    (sf_clear_x s) (sf_clear_y s).
Definition with_sf_zeta_pitch (s : SurfaceState) (v : Z) : SurfaceState :=
  mkSurfaceState (sf_color_dma s) (sf_color_offset s) (sf_zeta_offset s) v (sf_color_pitch s) (sf_clip_x s)
    (sf_clip_width s) (sf_clip_y s) (sf_clip_height s) (sf_clear_color s) (sf_clear_zstencil s)
    (sf_clear_x s) (sf_clear_y s).
Definition with_sf_color_pitch (s : SurfaceState) (v : Z) : SurfaceState :=
  mkSurfaceState (sf_color_dma s) (sf_color_offset s) (sf_zeta_offset s) (sf_zeta_pitch s) v (sf_clip_x s)
    (sf_clip_width s) (sf_clip_y s) (sf_clip_height s) (sf_clear_color s) (sf_clear_zstencil s)
    (sf_clear_x s) (sf_clear_y s).
Definition with_sf_clip_x (s : SurfaceState) (v : Z) : SurfaceState :=
  mkSurfaceState (sf_color_dma s) (sf_color_offset s) (sf_zeta_offset s) (sf_zeta_pitch s) (sf_color_pitch s) v
    (sf_clip_width s) (sf_clip_y s) (sf_clip_height s) (sf_clear_color s) (sf_clear_zstencil s)
    (sf_clear_x s) (sf_clear_y s).
Definition with_sf_clip_width (s : SurfaceState) (v : Z) : SurfaceState :=
  mkSurfaceState (sf_color_dma s) (sf_color_offset s) (sf_zeta_offset s) (sf_zeta_pitch s) (sf_color_pitch s)
    (sf_clip_x s) v (sf_clip_y s) (sf_clip_height s) (sf_clear_color s) (sf_clear_zstencil s)
    (sf_clear_x s) (sf_clear_y s).
Definition with_sf_clip_y (s : SurfaceState) (v : Z) : SurfaceState :=
  mkSurfaceState (sf_color_dma s) (sf_color_offset s) (sf_zeta_offset s) (sf_zeta_pitch s) (sf_color_pitch s)
    (sf_clip_x s) (sf_clip_width s) v (sf_clip_height s) (sf_clear_color s) (sf_clear_zstencil s)
    (sf_clear_x s) (sf_clear_y s).
Definition with_sf_clip_height (s : SurfaceState) (v : Z) : SurfaceState :=
  mkSurfaceState (sf_color_dma s) (sf_color_offset s) (sf_zeta_offset s) (sf_zeta_pitch s) (sf_color_pitch s)
    (sf_clip_x s) (sf_clip_width s) (sf_clip_y s) v (sf_clear_color s) (sf_clear_zstencil s)
    (sf_clear_x s) (sf_clear_y s).
Definition with_sf_clear_color (s : SurfaceState) (v : Z) : SurfaceState :=
  mkSurfaceState (sf_color_dma s) (sf_color_offset s) (sf_zeta_offset s) (sf_zeta_pitch s) (sf_color_pitch s)
    (sf_clip_x s) (sf_clip_width s) (sf_clip_y s) (sf_clip_height s) v (sf_clear_zstencil s)
    (sf_clear_x s) (sf_clear_y s).
Definition with_sf_clear_zstencil (s : SurfaceState) (v : Z) : SurfaceState :=
  mkSurfaceState (sf_color_dma s) (sf_color_offset s) (sf_zeta_offset s) (sf_zeta_pitch s) (sf_color_pitch s)
    (sf_clip_x s) (sf_clip_width s) (sf_clip_y s) (sf_clip_height s) (sf_clear_color s) v (sf_clear_x s)
    (sf_clear_y s).
Definition with_sf_clear_x (s : SurfaceState) (v : Z * Z) : SurfaceState :=
  mkSurfaceState (sf_color_dma s) (sf_color_offset s) (sf_zeta_offset s) (sf_zeta_pitch s) (sf_color_pitch s)
    (sf_clip_x s) (sf_clip_width s) (sf_clip_y s) (sf_clip_height s) (sf_clear_color s)
    (sf_clear_zstencil s) v (sf_clear_y s).
Definition with_sf_clear_y (s : SurfaceState) (v : Z * Z) : SurfaceState :=
  mkSurfaceState (sf_color_dma s) (sf_color_offset s) (sf_zeta_offset s) (sf_zeta_pitch s) (sf_color_pitch s)
    (sf_clip_x s) (sf_clip_width s) (sf_clip_y s) (sf_clip_height s) (sf_clear_color s)
    (sf_clear_zstencil s) (sf_clear_x s) v.

Definition SurfaceState_default : SurfaceState := mkSurfaceState None 0 0 0 0 0 0 0 0 0 0 (0, 0) (0, 0).

Definition with_tex_offset (s : TextureState) (v : Z) : TextureState :=
  mkTextureState v (tex_format s) (tex_pitch s) (tex_rect s) (tex_enabled s) (tex_address s) (tex_filter s).
Definition with_tex_format (s : TextureState) (v : Z) : TextureState :=
  mkTextureState (tex_offset s) v (tex_pitch s) (tex_rect s) (tex_enabled s) (tex_address s) (tex_filter s).
Definition with_tex_pitch (s : TextureState) (v : Z) : TextureState :=
  mkTextureState (tex_offset s) (tex_format s) v (tex_rect s) (tex_enabled s) (tex_address s) (tex_filter s).
Definition with_tex_rect (s : TextureState) (v : Z * Z) : TextureState :=
  mkTextureState (tex_offset s) (tex_format s) (tex_pitch s) v (tex_enabled s) (tex_address s) (tex_filter s).
Definition with_tex_enabled (s : TextureState) (v : bool) : TextureState :=
  mkTextureState (tex_offset s) (tex_format s) (tex_pitch s) (tex_rect s) v (tex_address s) (tex_filter s).
Definition with_tex_address (s : TextureState) (v : Z) : TextureState :=
  mkTextureState (tex_offset s) (tex_format s) (tex_pitch s) (tex_rect s) (tex_enabled s) v (tex_filter s).
Definition with_tex_filter (s : TextureState) (v : Z) : TextureState :=
  mkTextureState (tex_offset s) (tex_format s) (tex_pitch s) (tex_rect s) (tex_enabled s) (tex_address s) v.

(** ** The vertex stage *)

Record AttributeFormat : Type := mkAttributeFormat { attr_kind : Z; attr_size : Z }.

Record TransformState (F : Type) : Type := mkTransformState {
  tr_program : list (list Z);
  tr_program_load : Z;
  tr_program_start : Z;
  tr_constants : list (list F);
  tr_constant_load : Z;
  tr_programmed : bool;
}.
Arguments mkTransformState {F}.
Arguments tr_program {F} _.
Arguments tr_program_load {F} _.
Arguments tr_program_start {F} _.
Arguments tr_constants {F} _.
Arguments tr_constant_load {F} _.
Arguments tr_programmed {F} _.

Definition with_tr_program {F} (s : TransformState F) (v : list (list Z)) : TransformState F :=
  mkTransformState v (tr_program_load s) (tr_program_start s) (tr_constants s) (tr_constant_load s) (tr_programmed s).
Definition with_tr_program_load {F} (s : TransformState F) (v : Z) : TransformState F :=
  mkTransformState (tr_program s) v (tr_program_start s) (tr_constants s) (tr_constant_load s) (tr_programmed s).
Definition with_tr_program_start {F} (s : TransformState F) (v : Z) : TransformState F :=
  mkTransformState (tr_program s) (tr_program_load s) v (tr_constants s) (tr_constant_load s) (tr_programmed s).
Definition with_tr_constants {F} (s : TransformState F) (v : list (list F)) : TransformState F :=
  mkTransformState (tr_program s) (tr_program_load s) (tr_program_start s) v (tr_constant_load s) (tr_programmed s).
Definition with_tr_constant_load {F} (s : TransformState F) (v : Z) : TransformState F :=
  mkTransformState (tr_program s) (tr_program_load s) (tr_program_start s) (tr_constants s) v (tr_programmed s).
Definition with_tr_programmed {F} (s : TransformState F) (v : bool) : TransformState F :=
  mkTransformState (tr_program s) (tr_program_load s) (tr_program_start s) (tr_constants s) (tr_constant_load s) v.

Record VertexState (F : Type) : Type := mkVertexState {
  vx_primitive : option Z;
  vx_formats : list AttributeFormat;
  vx_inline : list Z;
  vx_elements : list Z;
  vx_lighting_enable : bool;
  vx_light_enable_mask : Z;
  vx_scene_ambient : list F;
  vx_material_emission : list F;
  vx_light_ambient : list F;
  vx_light_diffuse : list F;
  vx_light_direction : list F;
  vx_model_view : list F;
  vx_inverse_model_view : list F;
  vx_texgen : list (list Z);
  vx_texture_matrix_enable : list bool;
  vx_texture_matrix : list (list F);
  vx_constants : list (list F);
  vx_constant_set : list bool;
  vx_array_offsets : list Z;
  vx_array_strides : list Z;
  vx_composite : list F;
  vx_viewport_scale : list F;
  vx_viewport_offset : list F;
}.
Arguments mkVertexState {F}.
Arguments vx_primitive {F} _.
Arguments vx_formats {F} _.
Arguments vx_inline {F} _.
Arguments vx_elements {F} _.
Arguments vx_lighting_enable {F} _.
Arguments vx_light_enable_mask {F} _.
Arguments vx_scene_ambient {F} _.
Arguments vx_material_emission {F} _.
Arguments vx_light_ambient {F} _.
Arguments vx_light_diffuse {F} _.
Arguments vx_light_direction {F} _.
Arguments vx_model_view {F} _.
Arguments vx_inverse_model_view {F} _.
Arguments vx_texgen {F} _.
Arguments vx_texture_matrix_enable {F} _.
Arguments vx_texture_matrix {F} _.
Arguments vx_constants {F} _.
Arguments vx_constant_set {F} _.
Arguments vx_array_offsets {F} _.
Arguments vx_array_strides {F} _.
Arguments vx_composite {F} _.
Arguments vx_viewport_scale {F} _.
Arguments vx_viewport_offset {F} _.

Definition with_vx_primitive {F} (s : VertexState F) (v : option Z) : VertexState F :=
  mkVertexState v (vx_formats s) (vx_inline s) (vx_elements s) (vx_lighting_enable s) (vx_light_enable_mask s)
    (vx_scene_ambient s) (vx_material_emission s) (vx_light_ambient s) (vx_light_diffuse s)
    (vx_light_direction s) (vx_model_view s) (vx_inverse_model_view s) (vx_texgen s)
    (vx_texture_matrix_enable s) (vx_texture_matrix s) (vx_constants s) (vx_constant_set s)
    (vx_array_offsets s) (vx_array_strides s) (vx_composite s) (vx_viewport_scale s)
    (vx_viewport_offset s).
Definition with_vx_formats {F} (s : VertexState F) (v : list AttributeFormat) : VertexState F :=
  mkVertexState (vx_primitive s) v (vx_inline s) (vx_elements s) (vx_lighting_enable s) (vx_light_enable_mask s)
    (vx_scene_ambient s) (vx_material_emission s) (vx_light_ambient s) (vx_light_diffuse s)
    (vx_light_direction s) (vx_model_view s) (vx_inverse_model_view s) (vx_texgen s)
    (vx_texture_matrix_enable s) (vx_texture_matrix s) (vx_constants s) (vx_constant_set s)
    (vx_array_offsets s) (vx_array_strides s) (vx_composite s) (vx_viewport_scale s)
    (vx_viewport_offset s).
Definition with_vx_inline {F} (s : VertexState F) (v : list Z) : VertexState F :=
  mkVertexState (vx_primitive s) (vx_formats s) v (vx_elements s) (vx_lighting_enable s) (vx_light_enable_mask s)
    (vx_scene_ambient s) (vx_material_emission s) (vx_light_ambient s) (vx_light_diffuse s)
    (vx_light_direction s) (vx_model_view s) (vx_inverse_model_view s) (vx_texgen s)
    (vx_texture_matrix_enable s) (vx_texture_matrix s) (vx_constants s) (vx_constant_set s)
    (vx_array_offsets s) (vx_array_strides s) (vx_composite s) (vx_viewport_scale s)
    (vx_viewport_offset s).
Definition with_vx_elements {F} (s : VertexState F) (v : list Z) : VertexState F :=
  mkVertexState (vx_primitive s) (vx_formats s) (vx_inline s) v (vx_lighting_enable s) (vx_light_enable_mask s)
    (vx_scene_ambient s) (vx_material_emission s) (vx_light_ambient s) (vx_light_diffuse s)
    (vx_light_direction s) (vx_model_view s) (vx_inverse_model_view s) (vx_texgen s)
    (vx_texture_matrix_enable s) (vx_texture_matrix s) (vx_constants s) (vx_constant_set s)
    (vx_array_offsets s) (vx_array_strides s) (vx_composite s) (vx_viewport_scale s)
    (vx_viewport_offset s).
Definition with_vx_lighting_enable {F} (s : VertexState F) (v : bool) : VertexState F :=
  mkVertexState (vx_primitive s) (vx_formats s) (vx_inline s) (vx_elements s) v (vx_light_enable_mask s)
    (vx_scene_ambient s) (vx_material_emission s) (vx_light_ambient s) (vx_light_diffuse s)
    (vx_light_direction s) (vx_model_view s) (vx_inverse_model_view s) (vx_texgen s)
    (vx_texture_matrix_enable s) (vx_texture_matrix s) (vx_constants s) (vx_constant_set s)
    (vx_array_offsets s) (vx_array_strides s) (vx_composite s) (vx_viewport_scale s)
    (vx_viewport_offset s).
Definition with_vx_light_enable_mask {F} (s : VertexState F) (v : Z) : VertexState F :=
  mkVertexState (vx_primitive s) (vx_formats s) (vx_inline s) (vx_elements s) (vx_lighting_enable s) v
    (vx_scene_ambient s) (vx_material_emission s) (vx_light_ambient s) (vx_light_diffuse s)
    (vx_light_direction s) (vx_model_view s) (vx_inverse_model_view s) (vx_texgen s)
    (vx_texture_matrix_enable s) (vx_texture_matrix s) (vx_constants s) (vx_constant_set s)
    (vx_array_offsets s) (vx_array_strides s) (vx_composite s) (vx_viewport_scale s)
    (vx_viewport_offset s).
Definition with_vx_scene_ambient {F} (s : VertexState F) (v : list F) : VertexState F :=
  mkVertexState (vx_primitive s) (vx_formats s) (vx_inline s) (vx_elements s) (vx_lighting_enable s)
    (vx_light_enable_mask s) v (vx_material_emission s) (vx_light_ambient s) (vx_light_diffuse s)
    (vx_light_direction s) (vx_model_view s) (vx_inverse_model_view s) (vx_texgen s)
    (vx_texture_matrix_enable s) (vx_texture_matrix s) (vx_constants s) (vx_constant_set s)
    (vx_array_offsets s) (vx_array_strides s) (vx_composite s) (vx_viewport_scale s)
    (vx_viewport_offset s).
Definition with_vx_material_emission {F} (s : VertexState F) (v : list F) : VertexState F :=
  mkVertexState (vx_primitive s) (vx_formats s) (vx_inline s) (vx_elements s) (vx_lighting_enable s)
    (vx_light_enable_mask s) (vx_scene_ambient s) v (vx_light_ambient s) (vx_light_diffuse s)
    (vx_light_direction s) (vx_model_view s) (vx_inverse_model_view s) (vx_texgen s)
    (vx_texture_matrix_enable s) (vx_texture_matrix s) (vx_constants s) (vx_constant_set s)
    (vx_array_offsets s) (vx_array_strides s) (vx_composite s) (vx_viewport_scale s)
    (vx_viewport_offset s).
Definition with_vx_light_ambient {F} (s : VertexState F) (v : list F) : VertexState F :=
  mkVertexState (vx_primitive s) (vx_formats s) (vx_inline s) (vx_elements s) (vx_lighting_enable s)
    (vx_light_enable_mask s) (vx_scene_ambient s) (vx_material_emission s) v (vx_light_diffuse s)
    (vx_light_direction s) (vx_model_view s) (vx_inverse_model_view s) (vx_texgen s)
    (vx_texture_matrix_enable s) (vx_texture_matrix s) (vx_constants s) (vx_constant_set s)
    (vx_array_offsets s) (vx_array_strides s) (vx_composite s) (vx_viewport_scale s)
    (vx_viewport_offset s).
Definition with_vx_light_diffuse {F} (s : VertexState F) (v : list F) : VertexState F :=
  mkVertexState (vx_primitive s) (vx_formats s) (vx_inline s) (vx_elements s) (vx_lighting_enable s)
    (vx_light_enable_mask s) (vx_scene_ambient s) (vx_material_emission s) (vx_light_ambient s) v
    (vx_light_direction s) (vx_model_view s) (vx_inverse_model_view s) (vx_texgen s)
    (vx_texture_matrix_enable s) (vx_texture_matrix s) (vx_constants s) (vx_constant_set s)
    (vx_array_offsets s) (vx_array_strides s) (vx_composite s) (vx_viewport_scale s)
    (vx_viewport_offset s).
Definition with_vx_light_direction {F} (s : VertexState F) (v : list F) : VertexState F :=
  mkVertexState (vx_primitive s) (vx_formats s) (vx_inline s) (vx_elements s) (vx_lighting_enable s)
    (vx_light_enable_mask s) (vx_scene_ambient s) (vx_material_emission s) (vx_light_ambient s)
    (vx_light_diffuse s) v (vx_model_view s) (vx_inverse_model_view s) (vx_texgen s)
    (vx_texture_matrix_enable s) (vx_texture_matrix s) (vx_constants s) (vx_constant_set s)
    (vx_array_offsets s) (vx_array_strides s) (vx_composite s) (vx_viewport_scale s)
    (vx_viewport_offset s).
Definition with_vx_model_view {F} (s : VertexState F) (v : list F) : VertexState F :=
  mkVertexState (vx_primitive s) (vx_formats s) (vx_inline s) (vx_elements s) (vx_lighting_enable s)
    (vx_light_enable_mask s) (vx_scene_ambient s) (vx_material_emission s) (vx_light_ambient s)
    (vx_light_diffuse s) (vx_light_direction s) v (vx_inverse_model_view s) (vx_texgen s)
    (vx_texture_matrix_enable s) (vx_texture_matrix s) (vx_constants s) (vx_constant_set s)
    (vx_array_offsets s) (vx_array_strides s) (vx_composite s) (vx_viewport_scale s)
    (vx_viewport_offset s).
Definition with_vx_inverse_model_view {F} (s : VertexState F) (v : list F) : VertexState F :=
  mkVertexState (vx_primitive s) (vx_formats s) (vx_inline s) (vx_elements s) (vx_lighting_enable s)
    (vx_light_enable_mask s) (vx_scene_ambient s) (vx_material_emission s) (vx_light_ambient s)
    (vx_light_diffuse s) (vx_light_direction s) (vx_model_view s) v (vx_texgen s)
    (vx_texture_matrix_enable s) (vx_texture_matrix s) (vx_constants s) (vx_constant_set s)
    (vx_array_offsets s) (vx_array_strides s) (vx_composite s) (vx_viewport_scale s)
    (vx_viewport_offset s).
Definition with_vx_texgen {F} (s : VertexState F) (v : list (list Z)) : VertexState F :=
  mkVertexState (vx_primitive s) (vx_formats s) (vx_inline s) (vx_elements s) (vx_lighting_enable s)
    (vx_light_enable_mask s) (vx_scene_ambient s) (vx_material_emission s) (vx_light_ambient s)
    (vx_light_diffuse s) (vx_light_direction s) (vx_model_view s) (vx_inverse_model_view s) v
    (vx_texture_matrix_enable s) (vx_texture_matrix s) (vx_constants s) (vx_constant_set s)
    (vx_array_offsets s) (vx_array_strides s) (vx_composite s) (vx_viewport_scale s)
    (vx_viewport_offset s).
Definition with_vx_texture_matrix_enable {F} (s : VertexState F) (v : list bool) : VertexState F :=
  mkVertexState (vx_primitive s) (vx_formats s) (vx_inline s) (vx_elements s) (vx_lighting_enable s)
    (vx_light_enable_mask s) (vx_scene_ambient s) (vx_material_emission s) (vx_light_ambient s)
    (vx_light_diffuse s) (vx_light_direction s) (vx_model_view s) (vx_inverse_model_view s)
    (vx_texgen s) v (vx_texture_matrix s) (vx_constants s) (vx_constant_set s) (vx_array_offsets s)
    (vx_array_strides s) (vx_composite s) (vx_viewport_scale s) (vx_viewport_offset s).
Definition with_vx_texture_matrix {F} (s : VertexState F) (v : list (list F)) : VertexState F :=
  mkVertexState (vx_primitive s) (vx_formats s) (vx_inline s) (vx_elements s) (vx_lighting_enable s)
    (vx_light_enable_mask s) (vx_scene_ambient s) (vx_material_emission s) (vx_light_ambient s)
    (vx_light_diffuse s) (vx_light_direction s) (vx_model_view s) (vx_inverse_model_view s)
    (vx_texgen s) (vx_texture_matrix_enable s) v (vx_constants s) (vx_constant_set s)
    (vx_array_offsets s) (vx_array_strides s) (vx_composite s) (vx_viewport_scale s)
    (vx_viewport_offset s).
Definition with_vx_constants {F} (s : VertexState F) (v : list (list F)) : VertexState F :=
  mkVertexState (vx_primitive s) (vx_formats s) (vx_inline s) (vx_elements s) (vx_lighting_enable s)
    (vx_light_enable_mask s) (vx_scene_ambient s) (vx_material_emission s) (vx_light_ambient s)
    (vx_light_diffuse s) (vx_light_direction s) (vx_model_view s) (vx_inverse_model_view s)
    (vx_texgen s) (vx_texture_matrix_enable s) (vx_texture_matrix s) v (vx_constant_set s)
    (vx_array_offsets s) (vx_array_strides s) (vx_composite s) (vx_viewport_scale s)
    (vx_viewport_offset s).
Definition with_vx_constant_set {F} (s : VertexState F) (v : list bool) : VertexState F :=
  mkVertexState (vx_primitive s) (vx_formats s) (vx_inline s) (vx_elements s) (vx_lighting_enable s)
    (vx_light_enable_mask s) (vx_scene_ambient s) (vx_material_emission s) (vx_light_ambient s)
    (vx_light_diffuse s) (vx_light_direction s) (vx_model_view s) (vx_inverse_model_view s)
    (vx_texgen s) (vx_texture_matrix_enable s) (vx_texture_matrix s) (vx_constants s) v
    (vx_array_offsets s) (vx_array_strides s) (vx_composite s) (vx_viewport_scale s)
    (vx_viewport_offset s).
Definition with_vx_array_offsets {F} (s : VertexState F) (v : list Z) : VertexState F :=
  mkVertexState (vx_primitive s) (vx_formats s) (vx_inline s) (vx_elements s) (vx_lighting_enable s)
    (vx_light_enable_mask s) (vx_scene_ambient s) (vx_material_emission s) (vx_light_ambient s)
    (vx_light_diffuse s) (vx_light_direction s) (vx_model_view s) (vx_inverse_model_view s)
    (vx_texgen s) (vx_texture_matrix_enable s) (vx_texture_matrix s) (vx_constants s)
    (vx_constant_set s) v (vx_array_strides s) (vx_composite s) (vx_viewport_scale s)
    (vx_viewport_offset s).
Definition with_vx_array_strides {F} (s : VertexState F) (v : list Z) : VertexState F :=
  mkVertexState (vx_primitive s) (vx_formats s) (vx_inline s) (vx_elements s) (vx_lighting_enable s)
    (vx_light_enable_mask s) (vx_scene_ambient s) (vx_material_emission s) (vx_light_ambient s)
    (vx_light_diffuse s) (vx_light_direction s) (vx_model_view s) (vx_inverse_model_view s)
    (vx_texgen s) (vx_texture_matrix_enable s) (vx_texture_matrix s) (vx_constants s)
    (vx_constant_set s) (vx_array_offsets s) v (vx_composite s) (vx_viewport_scale s)
    (vx_viewport_offset s).
Definition with_vx_composite {F} (s : VertexState F) (v : list F) : VertexState F :=
  mkVertexState (vx_primitive s) (vx_formats s) (vx_inline s) (vx_elements s) (vx_lighting_enable s)
    (vx_light_enable_mask s) (vx_scene_ambient s) (vx_material_emission s) (vx_light_ambient s)
    (vx_light_diffuse s) (vx_light_direction s) (vx_model_view s) (vx_inverse_model_view s)
    (vx_texgen s) (vx_texture_matrix_enable s) (vx_texture_matrix s) (vx_constants s)
    (vx_constant_set s) (vx_array_offsets s) (vx_array_strides s) v (vx_viewport_scale s)
    (vx_viewport_offset s).
Definition with_vx_viewport_scale {F} (s : VertexState F) (v : list F) : VertexState F :=
  mkVertexState (vx_primitive s) (vx_formats s) (vx_inline s) (vx_elements s) (vx_lighting_enable s)
    (vx_light_enable_mask s) (vx_scene_ambient s) (vx_material_emission s) (vx_light_ambient s)
    (vx_light_diffuse s) (vx_light_direction s) (vx_model_view s) (vx_inverse_model_view s)
    (vx_texgen s) (vx_texture_matrix_enable s) (vx_texture_matrix s) (vx_constants s)
    (vx_constant_set s) (vx_array_offsets s) (vx_array_strides s) (vx_composite s) v
    (vx_viewport_offset s).
Definition with_vx_viewport_offset {F} (s : VertexState F) (v : list F) : VertexState F :=
  mkVertexState (vx_primitive s) (vx_formats s) (vx_inline s) (vx_elements s) (vx_lighting_enable s)
    (vx_light_enable_mask s) (vx_scene_ambient s) (vx_material_emission s) (vx_light_ambient s)
    (vx_light_diffuse s) (vx_light_direction s) (vx_model_view s) (vx_inverse_model_view s)
    (vx_texgen s) (vx_texture_matrix_enable s) (vx_texture_matrix s) (vx_constants s)
    (vx_constant_set s) (vx_array_offsets s) (vx_array_strides s) (vx_composite s) (vx_viewport_scale s)
    v.

(** ** Combiners and channels *)

Record Stage : Type := mkStage {
  sg_color_inputs : Z;
  sg_alpha_inputs : Z;
  sg_color_outputs : Z;
  sg_alpha_outputs : Z;
}.

Definition with_sg_color_inputs (s : Stage) (v : Z) : Stage :=
  mkStage v (sg_alpha_inputs s) (sg_color_outputs s) (sg_alpha_outputs s).
Definition with_sg_alpha_inputs (s : Stage) (v : Z) : Stage :=
  mkStage (sg_color_inputs s) v (sg_color_outputs s) (sg_alpha_outputs s).
Definition with_sg_color_outputs (s : Stage) (v : Z) : Stage :=
  mkStage (sg_color_inputs s) (sg_alpha_inputs s) v (sg_alpha_outputs s).
Definition with_sg_alpha_outputs (s : Stage) (v : Z) : Stage :=
  mkStage (sg_color_inputs s) (sg_alpha_inputs s) (sg_color_outputs s) v.

Record CombinerState (F : Type) : Type := mkCombinerState {
  cb_stages : list Stage;
  cb_active : Z;
  cb_final_first : Z;
  cb_final_second : Z;
  cb_control : Z;
  cb_factor0 : list (list F);
  cb_factor1 : list (list F);
}.
Arguments mkCombinerState {F}.
Arguments cb_stages {F} _.
Arguments cb_active {F} _.
Arguments cb_final_first {F} _.
Arguments cb_final_second {F} _.
Arguments cb_control {F} _.
Arguments cb_factor0 {F} _.
Arguments cb_factor1 {F} _.

Definition with_cb_stages {F} (s : CombinerState F) (v : list Stage) : CombinerState F :=
  mkCombinerState v (cb_active s) (cb_final_first s) (cb_final_second s) (cb_control s) (cb_factor0 s) (cb_factor1 s).
Definition with_cb_active {F} (s : CombinerState F) (v : Z) : CombinerState F :=
  mkCombinerState (cb_stages s) v (cb_final_first s) (cb_final_second s) (cb_control s) (cb_factor0 s) (cb_factor1 s).
Definition with_cb_final_first {F} (s : CombinerState F) (v : Z) : CombinerState F :=
  mkCombinerState (cb_stages s) (cb_active s) v (cb_final_second s) (cb_control s) (cb_factor0 s) (cb_factor1 s).
Definition with_cb_final_second {F} (s : CombinerState F) (v : Z) : CombinerState F :=
  mkCombinerState (cb_stages s) (cb_active s) (cb_final_first s) v (cb_control s) (cb_factor0 s) (cb_factor1 s).
Definition with_cb_control {F} (s : CombinerState F) (v : Z) : CombinerState F :=
  mkCombinerState (cb_stages s) (cb_active s) (cb_final_first s) (cb_final_second s) v (cb_factor0 s) (cb_factor1 s).
Definition with_cb_factor0 {F} (s : CombinerState F) (v : list (list F)) : CombinerState F :=
  mkCombinerState (cb_stages s) (cb_active s) (cb_final_first s) (cb_final_second s) (cb_control s) v (cb_factor1 s).
Definition with_cb_factor1 {F} (s : CombinerState F) (v : list (list F)) : CombinerState F :=
  mkCombinerState (cb_stages s) (cb_active s) (cb_final_first s) (cb_final_second s) (cb_control s) (cb_factor0 s) v.

Record ChannelState (F : Type) : Type := mkChannelState {
  ch_subchannel_handles : list Z;
  ch_semaphore : option DmaObject;
  ch_semaphore_offset : Z;
  ch_surface : SurfaceState;
  ch_vertex : VertexState F;
  ch_transform : TransformState F;
  ch_blend : bool;
  ch_depth_test : bool;
  ch_depth_write : bool;
  ch_depth_function : Z;
  ch_blend_source : Z;
  ch_blend_destination : Z;
  ch_cull : bool;
  ch_cull_face : Z;
  ch_front_face : Z;
  ch_alpha_test : bool;
  ch_alpha_function : Z;
  ch_alpha_reference : Z;
  ch_combiner : CombinerState F;
  ch_textures : list TextureState;
  ch_texture_dma : list (option DmaObject);
  ch_vertex_dma : list (option DmaObject);
}.
Arguments mkChannelState {F}.
Arguments ch_subchannel_handles {F} _.
Arguments ch_semaphore {F} _.
Arguments ch_semaphore_offset {F} _.
Arguments ch_surface {F} _.
Arguments ch_vertex {F} _.
Arguments ch_transform {F} _.
Arguments ch_blend {F} _.
Arguments ch_depth_test {F} _.
Arguments ch_depth_write {F} _.
Arguments ch_depth_function {F} _.
Arguments ch_blend_source {F} _.
Arguments ch_blend_destination {F} _.
Arguments ch_cull {F} _.
Arguments ch_cull_face {F} _.
Arguments ch_front_face {F} _.
Arguments ch_alpha_test {F} _.
Arguments ch_alpha_function {F} _.
Arguments ch_alpha_reference {F} _.
Arguments ch_combiner {F} _.
Arguments ch_textures {F} _.
Arguments ch_texture_dma {F} _.
Arguments ch_vertex_dma {F} _.

Definition with_ch_subchannel_handles {F} (s : ChannelState F) (v : list Z) : ChannelState F :=
  mkChannelState v (ch_semaphore s) (ch_semaphore_offset s) (ch_surface s) (ch_vertex s) (ch_transform s)
    (ch_blend s) (ch_depth_test s) (ch_depth_write s) (ch_depth_function s) (ch_blend_source s)
    (ch_blend_destination s) (ch_cull s) (ch_cull_face s) (ch_front_face s) (ch_alpha_test s)
    (ch_alpha_function s) (ch_alpha_reference s) (ch_combiner s) (ch_textures s) (ch_texture_dma s)
    (ch_vertex_dma s).
Definition with_ch_semaphore {F} (s : ChannelState F) (v : option DmaObject) : ChannelState F :=
  mkChannelState (ch_subchannel_handles s) v (ch_semaphore_offset s) (ch_surface s) (ch_vertex s) (ch_transform s)
    (ch_blend s) (ch_depth_test s) (ch_depth_write s) (ch_depth_function s) (ch_blend_source s)
    (ch_blend_destination s) (ch_cull s) (ch_cull_face s) (ch_front_face s) (ch_alpha_test s)
    (ch_alpha_function s) (ch_alpha_reference s) (ch_combiner s) (ch_textures s) (ch_texture_dma s)
    (ch_vertex_dma s).
Definition with_ch_semaphore_offset {F} (s : ChannelState F) (v : Z) : ChannelState F :=
  mkChannelState (ch_subchannel_handles s) (ch_semaphore s) v (ch_surface s) (ch_vertex s) (ch_transform s)
    (ch_blend s) (ch_depth_test s) (ch_depth_write s) (ch_depth_function s) (ch_blend_source s)
    (ch_blend_destination s) (ch_cull s) (ch_cull_face s) (ch_front_face s) (ch_alpha_test s)
    (ch_alpha_function s) (ch_alpha_reference s) (ch_combiner s) (ch_textures s) (ch_texture_dma s)
    (ch_vertex_dma s).
Definition with_ch_surface {F} (s : ChannelState F) (v : SurfaceState) : ChannelState F :=
  mkChannelState (ch_subchannel_handles s) (ch_semaphore s) (ch_semaphore_offset s) v (ch_vertex s) (ch_transform s)
    (ch_blend s) (ch_depth_test s) (ch_depth_write s) (ch_depth_function s) (ch_blend_source s)
    (ch_blend_destination s) (ch_cull s) (ch_cull_face s) (ch_front_face s) (ch_alpha_test s)
    (ch_alpha_function s) (ch_alpha_reference s) (ch_combiner s) (ch_textures s) (ch_texture_dma s)
    (ch_vertex_dma s).
Definition with_ch_vertex {F} (s : ChannelState F) (v : VertexState F) : ChannelState F :=
  mkChannelState (ch_subchannel_handles s) (ch_semaphore s) (ch_semaphore_offset s) (ch_surface s) v (ch_transform s)
    (ch_blend s) (ch_depth_test s) (ch_depth_write s) (ch_depth_function s) (ch_blend_source s)
    (ch_blend_destination s) (ch_cull s) (ch_cull_face s) (ch_front_face s) (ch_alpha_test s)
    (ch_alpha_function s) (ch_alpha_reference s) (ch_combiner s) (ch_textures s) (ch_texture_dma s)
    (ch_vertex_dma s).
Definition with_ch_transform {F} (s : ChannelState F) (v : TransformState F) : ChannelState F :=
  mkChannelState (ch_subchannel_handles s) (ch_semaphore s) (ch_semaphore_offset s) (ch_surface s) (ch_vertex s) v
    (ch_blend s) (ch_depth_test s) (ch_depth_write s) (ch_depth_function s) (ch_blend_source s)
    (ch_blend_destination s) (ch_cull s) (ch_cull_face s) (ch_front_face s) (ch_alpha_test s)
    (ch_alpha_function s) (ch_alpha_reference s) (ch_combiner s) (ch_textures s) (ch_texture_dma s)
    (ch_vertex_dma s).
Definition with_ch_blend {F} (s : ChannelState F) (v : bool) : ChannelState F :=
  mkChannelState (ch_subchannel_handles s) (ch_semaphore s) (ch_semaphore_offset s) (ch_surface s) (ch_vertex s)
    (ch_transform s) v (ch_depth_test s) (ch_depth_write s) (ch_depth_function s) (ch_blend_source s)
    (ch_blend_destination s) (ch_cull s) (ch_cull_face s) (ch_front_face s) (ch_alpha_test s)
    (ch_alpha_function s) (ch_alpha_reference s) (ch_combiner s) (ch_textures s) (ch_texture_dma s)
    (ch_vertex_dma s).
Definition with_ch_depth_test {F} (s : ChannelState F) (v : bool) : ChannelState F :=
  mkChannelState (ch_subchannel_handles s) (ch_semaphore s) (ch_semaphore_offset s) (ch_surface s) (ch_vertex s)
    (ch_transform s) (ch_blend s) v (ch_depth_write s) (ch_depth_function s) (ch_blend_source s)
    (ch_blend_destination s) (ch_cull s) (ch_cull_face s) (ch_front_face s) (ch_alpha_test s)
    (ch_alpha_function s) (ch_alpha_reference s) (ch_combiner s) (ch_textures s) (ch_texture_dma s)
    (ch_vertex_dma s).
Definition with_ch_depth_write {F} (s : ChannelState F) (v : bool) : ChannelState F :=
  mkChannelState (ch_subchannel_handles s) (ch_semaphore s) (ch_semaphore_offset s) (ch_surface s) (ch_vertex s)
    (ch_transform s) (ch_blend s) (ch_depth_test s) v (ch_depth_function s) (ch_blend_source s)
    (ch_blend_destination s) (ch_cull s) (ch_cull_face s) (ch_front_face s) (ch_alpha_test s)
    (ch_alpha_function s) (ch_alpha_reference s) (ch_combiner s) (ch_textures s) (ch_texture_dma s)
    (ch_vertex_dma s).
Definition with_ch_depth_function {F} (s : ChannelState F) (v : Z) : ChannelState F :=
  mkChannelState (ch_subchannel_handles s) (ch_semaphore s) (ch_semaphore_offset s) (ch_surface s) (ch_vertex s)
    (ch_transform s) (ch_blend s) (ch_depth_test s) (ch_depth_write s) v (ch_blend_source s)
    (ch_blend_destination s) (ch_cull s) (ch_cull_face s) (ch_front_face s) (ch_alpha_test s)
    (ch_alpha_function s) (ch_alpha_reference s) (ch_combiner s) (ch_textures s) (ch_texture_dma s)
    (ch_vertex_dma s).
Definition with_ch_blend_source {F} (s : ChannelState F) (v : Z) : ChannelState F :=
  mkChannelState (ch_subchannel_handles s) (ch_semaphore s) (ch_semaphore_offset s) (ch_surface s) (ch_vertex s)
    (ch_transform s) (ch_blend s) (ch_depth_test s) (ch_depth_write s) (ch_depth_function s) v
    (ch_blend_destination s) (ch_cull s) (ch_cull_face s) (ch_front_face s) (ch_alpha_test s)
    (ch_alpha_function s) (ch_alpha_reference s) (ch_combiner s) (ch_textures s) (ch_texture_dma s)
    (ch_vertex_dma s).
Definition with_ch_blend_destination {F} (s : ChannelState F) (v : Z) : ChannelState F :=
  mkChannelState (ch_subchannel_handles s) (ch_semaphore s) (ch_semaphore_offset s) (ch_surface s) (ch_vertex s)
    (ch_transform s) (ch_blend s) (ch_depth_test s) (ch_depth_write s) (ch_depth_function s)
    (ch_blend_source s) v (ch_cull s) (ch_cull_face s) (ch_front_face s) (ch_alpha_test s)
    (ch_alpha_function s) (ch_alpha_reference s) (ch_combiner s) (ch_textures s) (ch_texture_dma s)
    (ch_vertex_dma s).
Definition with_ch_cull {F} (s : ChannelState F) (v : bool) : ChannelState F :=
  mkChannelState (ch_subchannel_handles s) (ch_semaphore s) (ch_semaphore_offset s) (ch_surface s) (ch_vertex s)
    (ch_transform s) (ch_blend s) (ch_depth_test s) (ch_depth_write s) (ch_depth_function s)
    (ch_blend_source s) (ch_blend_destination s) v (ch_cull_face s) (ch_front_face s) (ch_alpha_test s)
    (ch_alpha_function s) (ch_alpha_reference s) (ch_combiner s) (ch_textures s) (ch_texture_dma s)
    (ch_vertex_dma s).
Definition with_ch_cull_face {F} (s : ChannelState F) (v : Z) : ChannelState F :=
  mkChannelState (ch_subchannel_handles s) (ch_semaphore s) (ch_semaphore_offset s) (ch_surface s) (ch_vertex s)
    (ch_transform s) (ch_blend s) (ch_depth_test s) (ch_depth_write s) (ch_depth_function s)
    (ch_blend_source s) (ch_blend_destination s) (ch_cull s) v (ch_front_face s) (ch_alpha_test s)
    (ch_alpha_function s) (ch_alpha_reference s) (ch_combiner s) (ch_textures s) (ch_texture_dma s)
    (ch_vertex_dma s).
Definition with_ch_front_face {F} (s : ChannelState F) (v : Z) : ChannelState F :=
  mkChannelState (ch_subchannel_handles s) (ch_semaphore s) (ch_semaphore_offset s) (ch_surface s) (ch_vertex s)
    (ch_transform s) (ch_blend s) (ch_depth_test s) (ch_depth_write s) (ch_depth_function s)
    (ch_blend_source s) (ch_blend_destination s) (ch_cull s) (ch_cull_face s) v (ch_alpha_test s)
    (ch_alpha_function s) (ch_alpha_reference s) (ch_combiner s) (ch_textures s) (ch_texture_dma s)
    (ch_vertex_dma s).
Definition with_ch_alpha_test {F} (s : ChannelState F) (v : bool) : ChannelState F :=
  mkChannelState (ch_subchannel_handles s) (ch_semaphore s) (ch_semaphore_offset s) (ch_surface s) (ch_vertex s)
    (ch_transform s) (ch_blend s) (ch_depth_test s) (ch_depth_write s) (ch_depth_function s)
    (ch_blend_source s) (ch_blend_destination s) (ch_cull s) (ch_cull_face s) (ch_front_face s) v
    (ch_alpha_function s) (ch_alpha_reference s) (ch_combiner s) (ch_textures s) (ch_texture_dma s)
    (ch_vertex_dma s).
Definition with_ch_alpha_function {F} (s : ChannelState F) (v : Z) : ChannelState F :=
  mkChannelState (ch_subchannel_handles s) (ch_semaphore s) (ch_semaphore_offset s) (ch_surface s) (ch_vertex s)
    (ch_transform s) (ch_blend s) (ch_depth_test s) (ch_depth_write s) (ch_depth_function s)
    (ch_blend_source s) (ch_blend_destination s) (ch_cull s) (ch_cull_face s) (ch_front_face s)
    (ch_alpha_test s) v (ch_alpha_reference s) (ch_combiner s) (ch_textures s) (ch_texture_dma s)
    (ch_vertex_dma s).
Definition with_ch_alpha_reference {F} (s : ChannelState F) (v : Z) : ChannelState F :=
  mkChannelState (ch_subchannel_handles s) (ch_semaphore s) (ch_semaphore_offset s) (ch_surface s) (ch_vertex s)
    (ch_transform s) (ch_blend s) (ch_depth_test s) (ch_depth_write s) (ch_depth_function s)
    (ch_blend_source s) (ch_blend_destination s) (ch_cull s) (ch_cull_face s) (ch_front_face s)
    (ch_alpha_test s) (ch_alpha_function s) v (ch_combiner s) (ch_textures s) (ch_texture_dma s)
    (ch_vertex_dma s).
Definition with_ch_combiner {F} (s : ChannelState F) (v : CombinerState F) : ChannelState F :=
  mkChannelState (ch_subchannel_handles s) (ch_semaphore s) (ch_semaphore_offset s) (ch_surface s) (ch_vertex s)
    (ch_transform s) (ch_blend s) (ch_depth_test s) (ch_depth_write s) (ch_depth_function s)
    (ch_blend_source s) (ch_blend_destination s) (ch_cull s) (ch_cull_face s) (ch_front_face s)
    (ch_alpha_test s) (ch_alpha_function s) (ch_alpha_reference s) v (ch_textures s) (ch_texture_dma s)
    (ch_vertex_dma s).
Definition with_ch_textures {F} (s : ChannelState F) (v : list TextureState) : ChannelState F :=
  mkChannelState (ch_subchannel_handles s) (ch_semaphore s) (ch_semaphore_offset s) (ch_surface s) (ch_vertex s)
    (ch_transform s) (ch_blend s) (ch_depth_test s) (ch_depth_write s) (ch_depth_function s)
    (ch_blend_source s) (ch_blend_destination s) (ch_cull s) (ch_cull_face s) (ch_front_face s)
    (ch_alpha_test s) (ch_alpha_function s) (ch_alpha_reference s) (ch_combiner s) v (ch_texture_dma s)
    (ch_vertex_dma s).
Definition with_ch_texture_dma {F} (s : ChannelState F) (v : list (option DmaObject)) : ChannelState F :=
  mkChannelState (ch_subchannel_handles s) (ch_semaphore s) (ch_semaphore_offset s) (ch_surface s) (ch_vertex s)
    (ch_transform s) (ch_blend s) (ch_depth_test s) (ch_depth_write s) (ch_depth_function s)
    (ch_blend_source s) (ch_blend_destination s) (ch_cull s) (ch_cull_face s) (ch_front_face s)
    (ch_alpha_test s) (ch_alpha_function s) (ch_alpha_reference s) (ch_combiner s) (ch_textures s) v
    (ch_vertex_dma s).
Definition with_ch_vertex_dma {F} (s : ChannelState F) (v : list (option DmaObject)) : ChannelState F :=
  mkChannelState (ch_subchannel_handles s) (ch_semaphore s) (ch_semaphore_offset s) (ch_surface s) (ch_vertex s)
    (ch_transform s) (ch_blend s) (ch_depth_test s) (ch_depth_write s) (ch_depth_function s)
    (ch_blend_source s) (ch_blend_destination s) (ch_cull s) (ch_cull_face s) (ch_front_face s)
    (ch_alpha_test s) (ch_alpha_function s) (ch_alpha_reference s) (ch_combiner s) (ch_textures s)
    (ch_texture_dma s) v.

(** ** What a draw is given *)

Record RenderTarget : Type := mkRenderTarget {
  rt_base : Z;
  rt_pitch : Z;
  rt_clip_x : Z;
  rt_clip_y : Z;
  rt_width : Z;
  rt_height : Z;
  rt_zeta : option Z;
  rt_zeta_pitch : Z;
}.

Record BlendState : Type := mkBlendState { blend_enabled : bool; blend_source : Z; blend_destination : Z }.
Record DepthState : Type := mkDepthState { depth_test : bool; depth_write : bool; depth_function : Z }.
Record CullState : Type := mkCullState { cull_enabled : bool; cull_face : Z; front_face : Z }.
Record AlphaTest : Type := mkAlphaTest { alpha_enabled : bool; alpha_function : Z; alpha_reference : Z }.

Record PipelineState : Type := mkPipelineState {
  pl_unfiltered : bool;
  pl_blend : BlendState;
  pl_depth : DepthState;
  pl_cull : CullState;
  pl_alpha : AlphaTest;
}.

(** ** The engine *)

Record PusherStats : Type := mkPusherStats {
  ps_method_dwords : Z;
  ps_submissions : Z;
  ps_semaphore_releases : Z;
  ps_surface_clears : Z;
  ps_cleared_pixels : Z;
  ps_triangles : Z;
  ps_shaded_pixels : Z;
  ps_skipped_primitives : Z;
  ps_textured_primitives : Z;
  ps_triangles_behind_eye : Z;
  ps_unsupported_textures : Z;
  ps_bound_by_unit : list Z;
  ps_method_values : gmap Z Z;
  ps_formats_seen : gmap Z (Z * Z);
  ps_constant_attributes : list (Z * Z);
  ps_degenerate_texcoords : list Z;
  ps_aborted : Z;
}.

Definition with_ps_method_dwords (s : PusherStats) (v : Z) : PusherStats :=
  mkPusherStats v (ps_submissions s) (ps_semaphore_releases s) (ps_surface_clears s) (ps_cleared_pixels s)
    (ps_triangles s) (ps_shaded_pixels s) (ps_skipped_primitives s) (ps_textured_primitives s)
    (ps_triangles_behind_eye s) (ps_unsupported_textures s) (ps_bound_by_unit s) (ps_method_values s)
    (ps_formats_seen s) (ps_constant_attributes s) (ps_degenerate_texcoords s) (ps_aborted s).
Definition with_ps_submissions (s : PusherStats) (v : Z) : PusherStats :=
  mkPusherStats (ps_method_dwords s) v (ps_semaphore_releases s) (ps_surface_clears s) (ps_cleared_pixels s)
    (ps_triangles s) (ps_shaded_pixels s) (ps_skipped_primitives s) (ps_textured_primitives s)
    (ps_triangles_behind_eye s) (ps_unsupported_textures s) (ps_bound_by_unit s) (ps_method_values s)
    (ps_formats_seen s) (ps_constant_attributes s) (ps_degenerate_texcoords s) (ps_aborted s).
Definition with_ps_semaphore_releases (s : PusherStats) (v : Z) : PusherStats :=
  mkPusherStats (ps_method_dwords s) (ps_submissions s) v (ps_surface_clears s) (ps_cleared_pixels s)
    (ps_triangles s) (ps_shaded_pixels s) (ps_skipped_primitives s) (ps_textured_primitives s)
    (ps_triangles_behind_eye s) (ps_unsupported_textures s) (ps_bound_by_unit s) (ps_method_values s)
    (ps_formats_seen s) (ps_constant_attributes s) (ps_degenerate_texcoords s) (ps_aborted s).
Definition with_ps_surface_clears (s : PusherStats) (v : Z) : PusherStats :=
  mkPusherStats (ps_method_dwords s) (ps_submissions s) (ps_semaphore_releases s) v (ps_cleared_pixels s)
    (ps_triangles s) (ps_shaded_pixels s) (ps_skipped_primitives s) (ps_textured_primitives s)
    (ps_triangles_behind_eye s) (ps_unsupported_textures s) (ps_bound_by_unit s) (ps_method_values s)
    (ps_formats_seen s) (ps_constant_attributes s) (ps_degenerate_texcoords s) (ps_aborted s).
Definition with_ps_cleared_pixels (s : PusherStats) (v : Z) : PusherStats :=
  mkPusherStats (ps_method_dwords s) (ps_submissions s) (ps_semaphore_releases s) (ps_surface_clears s) v
    (ps_triangles s) (ps_shaded_pixels s) (ps_skipped_primitives s) (ps_textured_primitives s)
    (ps_triangles_behind_eye s) (ps_unsupported_textures s) (ps_bound_by_unit s) (ps_method_values s)
    (ps_formats_seen s) (ps_constant_attributes s) (ps_degenerate_texcoords s) (ps_aborted s).
Definition with_ps_triangles (s : PusherStats) (v : Z) : PusherStats :=
  mkPusherStats (ps_method_dwords s) (ps_submissions s) (ps_semaphore_releases s) (ps_surface_clears s)
    (ps_cleared_pixels s) v (ps_shaded_pixels s) (ps_skipped_primitives s) (ps_textured_primitives s)
    (ps_triangles_behind_eye s) (ps_unsupported_textures s) (ps_bound_by_unit s) (ps_method_values s)
    (ps_formats_seen s) (ps_constant_attributes s) (ps_degenerate_texcoords s) (ps_aborted s).
Definition with_ps_shaded_pixels (s : PusherStats) (v : Z) : PusherStats :=
  mkPusherStats (ps_method_dwords s) (ps_submissions s) (ps_semaphore_releases s) (ps_surface_clears s)
    (ps_cleared_pixels s) (ps_triangles s) v (ps_skipped_primitives s) (ps_textured_primitives s)
    (ps_triangles_behind_eye s) (ps_unsupported_textures s) (ps_bound_by_unit s) (ps_method_values s)
    (ps_formats_seen s) (ps_constant_attributes s) (ps_degenerate_texcoords s) (ps_aborted s).
Definition with_ps_skipped_primitives (s : PusherStats) (v : Z) : PusherStats :=
  mkPusherStats (ps_method_dwords s) (ps_submissions s) (ps_semaphore_releases s) (ps_surface_clears s)
    (ps_cleared_pixels s) (ps_triangles s) (ps_shaded_pixels s) v (ps_textured_primitives s)
    (ps_triangles_behind_eye s) (ps_unsupported_textures s) (ps_bound_by_unit s) (ps_method_values s)
    (ps_formats_seen s) (ps_constant_attributes s) (ps_degenerate_texcoords s) (ps_aborted s).
Definition with_ps_textured_primitives (s : PusherStats) (v : Z) : PusherStats :=
  mkPusherStats (ps_method_dwords s) (ps_submissions s) (ps_semaphore_releases s) (ps_surface_clears s)
    (ps_cleared_pixels s) (ps_triangles s) (ps_shaded_pixels s) (ps_skipped_primitives s) v
    (ps_triangles_behind_eye s) (ps_unsupported_textures s) (ps_bound_by_unit s) (ps_method_values s)
    (ps_formats_seen s) (ps_constant_attributes s) (ps_degenerate_texcoords s) (ps_aborted s).
Definition with_ps_triangles_behind_eye (s : PusherStats) (v : Z) : PusherStats :=
  mkPusherStats (ps_method_dwords s) (ps_submissions s) (ps_semaphore_releases s) (ps_surface_clears s)
    (ps_cleared_pixels s) (ps_triangles s) (ps_shaded_pixels s) (ps_skipped_primitives s)
    (ps_textured_primitives s) v (ps_unsupported_textures s) (ps_bound_by_unit s) (ps_method_values s)
    (ps_formats_seen s) (ps_constant_attributes s) (ps_degenerate_texcoords s) (ps_aborted s).
Definition with_ps_unsupported_textures (s : PusherStats) (v : Z) : PusherStats :=
  mkPusherStats (ps_method_dwords s) (ps_submissions s) (ps_semaphore_releases s) (ps_surface_clears s)
    (ps_cleared_pixels s) (ps_triangles s) (ps_shaded_pixels s) (ps_skipped_primitives s)
    (ps_textured_primitives s) (ps_triangles_behind_eye s) v (ps_bound_by_unit s) (ps_method_values s)
    (ps_formats_seen s) (ps_constant_attributes s) (ps_degenerate_texcoords s) (ps_aborted s).
Definition with_ps_bound_by_unit (s : PusherStats) (v : list Z) : PusherStats :=
  mkPusherStats (ps_method_dwords s) (ps_submissions s) (ps_semaphore_releases s) (ps_surface_clears s)
    (ps_cleared_pixels s) (ps_triangles s) (ps_shaded_pixels s) (ps_skipped_primitives s)
    (ps_textured_primitives s) (ps_triangles_behind_eye s) (ps_unsupported_textures s) v
    (ps_method_values s) (ps_formats_seen s) (ps_constant_attributes s) (ps_degenerate_texcoords s)
    (ps_aborted s).
Definition with_ps_method_values (s : PusherStats) (v : gmap Z Z) : PusherStats :=
  mkPusherStats (ps_method_dwords s) (ps_submissions s) (ps_semaphore_releases s) (ps_surface_clears s)
    (ps_cleared_pixels s) (ps_triangles s) (ps_shaded_pixels s) (ps_skipped_primitives s)
    (ps_textured_primitives s) (ps_triangles_behind_eye s) (ps_unsupported_textures s)
    (ps_bound_by_unit s) v (ps_formats_seen s) (ps_constant_attributes s) (ps_degenerate_texcoords s)
    (ps_aborted s).
Definition with_ps_formats_seen (s : PusherStats) (v : gmap Z (Z * Z)) : PusherStats :=
  mkPusherStats (ps_method_dwords s) (ps_submissions s) (ps_semaphore_releases s) (ps_surface_clears s)
    (ps_cleared_pixels s) (ps_triangles s) (ps_shaded_pixels s) (ps_skipped_primitives s)
    (ps_textured_primitives s) (ps_triangles_behind_eye s) (ps_unsupported_textures s)
    (ps_bound_by_unit s) (ps_method_values s) v (ps_constant_attributes s) (ps_degenerate_texcoords s)
    (ps_aborted s).
Definition with_ps_constant_attributes (s : PusherStats) (v : list (Z * Z)) : PusherStats :=
  mkPusherStats (ps_method_dwords s) (ps_submissions s) (ps_semaphore_releases s) (ps_surface_clears s)
    (ps_cleared_pixels s) (ps_triangles s) (ps_shaded_pixels s) (ps_skipped_primitives s)
    (ps_textured_primitives s) (ps_triangles_behind_eye s) (ps_unsupported_textures s)
    (ps_bound_by_unit s) (ps_method_values s) (ps_formats_seen s) v (ps_degenerate_texcoords s)
    (ps_aborted s).
Definition with_ps_degenerate_texcoords (s : PusherStats) (v : list Z) : PusherStats :=
  mkPusherStats (ps_method_dwords s) (ps_submissions s) (ps_semaphore_releases s) (ps_surface_clears s)
    (ps_cleared_pixels s) (ps_triangles s) (ps_shaded_pixels s) (ps_skipped_primitives s)
    (ps_textured_primitives s) (ps_triangles_behind_eye s) (ps_unsupported_textures s)
    (ps_bound_by_unit s) (ps_method_values s) (ps_formats_seen s) (ps_constant_attributes s) v
    (ps_aborted s).
Definition with_ps_aborted (s : PusherStats) (v : Z) : PusherStats :=
  mkPusherStats (ps_method_dwords s) (ps_submissions s) (ps_semaphore_releases s) (ps_surface_clears s)
    (ps_cleared_pixels s) (ps_triangles s) (ps_shaded_pixels s) (ps_skipped_primitives s)
    (ps_textured_primitives s) (ps_triangles_behind_eye s) (ps_unsupported_textures s)
    (ps_bound_by_unit s) (ps_method_values s) (ps_formats_seen s) (ps_constant_attributes s)
    (ps_degenerate_texcoords s) v.

Definition PusherStats_default : PusherStats :=
  mkPusherStats 0 0 0 0 0 0 0 0 0 0 0 (replicate 4 0) ∅ ∅ (replicate 16 (0, 0)) (replicate 4 0) 0.

Record SurfaceHistory : Type := mkSurfaceHistory {
  sh_drawn : Z;
  sh_cleared : Z;
  sh_geometry : Z * Z * Z;
  sh_blended : Z;
}.

Definition with_sh_drawn (s : SurfaceHistory) (v : Z) : SurfaceHistory :=
  mkSurfaceHistory v (sh_cleared s) (sh_geometry s) (sh_blended s).
Definition with_sh_cleared (s : SurfaceHistory) (v : Z) : SurfaceHistory :=
  mkSurfaceHistory (sh_drawn s) v (sh_geometry s) (sh_blended s).
Definition with_sh_geometry (s : SurfaceHistory) (v : Z * Z * Z) : SurfaceHistory :=
  mkSurfaceHistory (sh_drawn s) (sh_cleared s) v (sh_blended s).
Definition with_sh_blended (s : SurfaceHistory) (v : Z) : SurfaceHistory :=
  mkSurfaceHistory (sh_drawn s) (sh_cleared s) (sh_geometry s) v.

Definition SurfaceHistory_default : SurfaceHistory := mkSurfaceHistory 0 0 (0, 0, 0) 0.

Record PushbufferEngine (F : Type) : Type := mkPushbufferEngine {
  pe_channels : gmap Z (ChannelState F);
  pe_method_counts : gmap (Z * Z) Z;
  pe_pixels_by_target : gmap Z Z;
  pe_surface_history : gmap Z SurfaceHistory;
  pe_operations : Z;
  pe_last_texture : list (option (TextureState * option DmaObject));
  pe_unfiltered : bool;
  pe_last_combiner : CombinerState F;
  pe_last_draw_target : Z;
  pe_last_draw_geometry : Z * Z * Z;
  pe_previous_draw : option (Z * Z * Z * Z);
  pe_completed_frame : option (Z * Z * Z * Z);
  pe_stats : PusherStats;
}.
Arguments mkPushbufferEngine {F}.
Arguments pe_channels {F} _.
Arguments pe_method_counts {F} _.
Arguments pe_pixels_by_target {F} _.
Arguments pe_surface_history {F} _.
Arguments pe_operations {F} _.
Arguments pe_last_texture {F} _.
Arguments pe_unfiltered {F} _.
Arguments pe_last_combiner {F} _.
Arguments pe_last_draw_target {F} _.
Arguments pe_last_draw_geometry {F} _.
Arguments pe_previous_draw {F} _.
Arguments pe_completed_frame {F} _.
Arguments pe_stats {F} _.

Definition with_pe_channels {F} (s : PushbufferEngine F) (v : gmap Z (ChannelState F)) : PushbufferEngine F :=
  mkPushbufferEngine v (pe_method_counts s) (pe_pixels_by_target s) (pe_surface_history s) (pe_operations s)
    (pe_last_texture s) (pe_unfiltered s) (pe_last_combiner s) (pe_last_draw_target s)
    (pe_last_draw_geometry s) (pe_previous_draw s) (pe_completed_frame s) (pe_stats s).
Definition with_pe_method_counts {F} (s : PushbufferEngine F) (v : gmap (Z * Z) Z) : PushbufferEngine F :=
  mkPushbufferEngine (pe_channels s) v (pe_pixels_by_target s) (pe_surface_history s) (pe_operations s)
    (pe_last_texture s) (pe_unfiltered s) (pe_last_combiner s) (pe_last_draw_target s)
    (pe_last_draw_geometry s) (pe_previous_draw s) (pe_completed_frame s) (pe_stats s).
Definition with_pe_pixels_by_target {F} (s : PushbufferEngine F) (v : gmap Z Z) : PushbufferEngine F :=
  mkPushbufferEngine (pe_channels s) (pe_method_counts s) v (pe_surface_history s) (pe_operations s) (pe_last_texture s)
    (pe_unfiltered s) (pe_last_combiner s) (pe_last_draw_target s) (pe_last_draw_geometry s)
    (pe_previous_draw s) (pe_completed_frame s) (pe_stats s).
Definition with_pe_surface_history {F} (s : PushbufferEngine F) (v : gmap Z SurfaceHistory) : PushbufferEngine F :=
  mkPushbufferEngine (pe_channels s) (pe_method_counts s) (pe_pixels_by_target s) v (pe_operations s) (pe_last_texture s)
    (pe_unfiltered s) (pe_last_combiner s) (pe_last_draw_target s) (pe_last_draw_geometry s)
    (pe_previous_draw s) (pe_completed_frame s) (pe_stats s).
Definition with_pe_operations {F} (s : PushbufferEngine F) (v : Z) : PushbufferEngine F :=
  mkPushbufferEngine (pe_channels s) (pe_method_counts s) (pe_pixels_by_target s) (pe_surface_history s) v
    (pe_last_texture s) (pe_unfiltered s) (pe_last_combiner s) (pe_last_draw_target s)
    (pe_last_draw_geometry s) (pe_previous_draw s) (pe_completed_frame s) (pe_stats s).
Definition with_pe_last_texture {F} (s : PushbufferEngine F) (v : list (option (TextureState * option DmaObject))) : PushbufferEngine F :=
  mkPushbufferEngine (pe_channels s) (pe_method_counts s) (pe_pixels_by_target s) (pe_surface_history s)
    (pe_operations s) v (pe_unfiltered s) (pe_last_combiner s) (pe_last_draw_target s)
    (pe_last_draw_geometry s) (pe_previous_draw s) (pe_completed_frame s) (pe_stats s).
Definition with_pe_unfiltered {F} (s : PushbufferEngine F) (v : bool) : PushbufferEngine F :=
  mkPushbufferEngine (pe_channels s) (pe_method_counts s) (pe_pixels_by_target s) (pe_surface_history s)
    (pe_operations s) (pe_last_texture s) v (pe_last_combiner s) (pe_last_draw_target s)
    (pe_last_draw_geometry s) (pe_previous_draw s) (pe_completed_frame s) (pe_stats s).
Definition with_pe_last_combiner {F} (s : PushbufferEngine F) (v : CombinerState F) : PushbufferEngine F :=
  mkPushbufferEngine (pe_channels s) (pe_method_counts s) (pe_pixels_by_target s) (pe_surface_history s)
    (pe_operations s) (pe_last_texture s) (pe_unfiltered s) v (pe_last_draw_target s)
    (pe_last_draw_geometry s) (pe_previous_draw s) (pe_completed_frame s) (pe_stats s).
Definition with_pe_last_draw_target {F} (s : PushbufferEngine F) (v : Z) : PushbufferEngine F :=
  mkPushbufferEngine (pe_channels s) (pe_method_counts s) (pe_pixels_by_target s) (pe_surface_history s)
    (pe_operations s) (pe_last_texture s) (pe_unfiltered s) (pe_last_combiner s) v
    (pe_last_draw_geometry s) (pe_previous_draw s) (pe_completed_frame s) (pe_stats s).
Definition with_pe_last_draw_geometry {F} (s : PushbufferEngine F) (v : Z * Z * Z) : PushbufferEngine F :=
  mkPushbufferEngine (pe_channels s) (pe_method_counts s) (pe_pixels_by_target s) (pe_surface_history s)
    (pe_operations s) (pe_last_texture s) (pe_unfiltered s) (pe_last_combiner s) (pe_last_draw_target s)
    v (pe_previous_draw s) (pe_completed_frame s) (pe_stats s).
Definition with_pe_previous_draw {F} (s : PushbufferEngine F) (v : option (Z * Z * Z * Z)) : PushbufferEngine F :=
  mkPushbufferEngine (pe_channels s) (pe_method_counts s) (pe_pixels_by_target s) (pe_surface_history s)
    (pe_operations s) (pe_last_texture s) (pe_unfiltered s) (pe_last_combiner s) (pe_last_draw_target s)
    (pe_last_draw_geometry s) v (pe_completed_frame s) (pe_stats s).
Definition with_pe_completed_frame {F} (s : PushbufferEngine F) (v : option (Z * Z * Z * Z)) : PushbufferEngine F :=
  mkPushbufferEngine (pe_channels s) (pe_method_counts s) (pe_pixels_by_target s) (pe_surface_history s)
    (pe_operations s) (pe_last_texture s) (pe_unfiltered s) (pe_last_combiner s) (pe_last_draw_target s)
    (pe_last_draw_geometry s) (pe_previous_draw s) v (pe_stats s).
Definition with_pe_stats {F} (s : PushbufferEngine F) (v : PusherStats) : PushbufferEngine F :=
  mkPushbufferEngine (pe_channels s) (pe_method_counts s) (pe_pixels_by_target s) (pe_surface_history s)
    (pe_operations s) (pe_last_texture s) (pe_unfiltered s) (pe_last_combiner s) (pe_last_draw_target s)
    (pe_last_draw_geometry s) (pe_previous_draw s) (pe_completed_frame s) v.
