(* ===== verification/Floats.v ===== *)
(** * Single-precision floats

    What the graphics code uses of [f32].  The operations are those of the
    language: a class, so that a definition reads as the source does and holds
    of any arithmetic; literals are given by their bits.  [F32Laws] states the
    documented facts that the theorems on rasterisation rely on: comparison is
    total on finite values, rounding and conversion are monotone, small
    integers are exact, and an operation on a value that is not finite has a
    result that is not finite. *)

From S2P Require Import Prelude.

Local Open Scope Z_scope.

Class F32 (F : Type) : Type := {
  f_from_bits : Z -> F;
  f_add : F -> F -> F;
  f_sub : F -> F -> F;
  f_mul : F -> F -> F;
  f_div : F -> F -> F;
  f_neg : F -> F;
  (** [a.mul_add(b, c)], rounded once. *)
  f_mul_add : F -> F -> F -> F;
  f_min : F -> F -> F;
  f_max : F -> F -> F;
  f_abs : F -> F;
  f_sqrt : F -> F;
  f_floor : F -> F;
  f_ceil : F -> F;
  f_round : F -> F;
  f_log2 : F -> F;
  f_exp2 : F -> F;
  f_lt : F -> F -> bool;
  f_le : F -> F -> bool;
  f_eq : F -> F -> bool;
  f_is_finite : F -> bool;
  (** [as f32] of an unsigned integer. *)
  f_of_u : Z -> F;
  (** [as u32], [as u64] and [as i64], which saturate, with zero for NaN. *)
  f_to_u32 : F -> Z;
  f_to_u64 : F -> Z;
  f_to_i64 : F -> Z;
}.

Declare Scope f32_scope.
Delimit Scope f32_scope with F.
Infix "+" := f_add : f32_scope.
Infix "-" := f_sub : f32_scope.
Infix "*" := f_mul : f32_scope.
Infix "/" := f_div : f32_scope.
Notation "- x" := (f_neg x) : f32_scope.

Section Literals.
Context {F : Type} `{F32 F}.

Definition f_0 : F := f_from_bits 0.
Definition f_half : F := f_from_bits 0x3F000000.
Definition f_1 : F := f_from_bits 0x3F800000.
Definition f_2 : F := f_from_bits 0x40000000.
Definition f_4 : F := f_from_bits 0x40800000.
Definition f_255 : F := f_from_bits 0x437F0000.
Definition f_max_value : F := f_from_bits 0x7F7FFFFF.

(** [clamp(low, high)]. *)
Definition f_clamp (x low high : F) : F :=
  let x := if f_lt x low then low else x in
  if f_lt high x then high else x.

(** [iter().sum()] starts from negative zero. *)
Definition f_sum (l : list F) : F := foldl f_add (f_from_bits 0x80000000) l.

(** [f32::from(bool)]. *)
Definition f_of_bool (b : bool) : F := if b then f_1 else f_0.

(** A component of an array of floats; the arrays of the source have fixed
    lengths and are indexed below them. *)
Definition lane (v : list F) (i : nat) : F := nth i v f_0.

Definition splat (x : F) : list F := [x; x; x; x].
Definition zip_with4 (f : F -> F -> F) (a b : list F) : list F :=
  map (fun i => f (lane a i) (lane b i)) [0; 1; 2; 3]%nat.
End Literals.

(** The documented facts used below. *)
Class F32Laws (F : Type) `{F32 F} : Prop := {
  f_lt_total (a b : F) : f_is_finite a = true -> f_is_finite b = true -> f_lt a b = false -> f_le b a = true;
  f_le_refl (a : F) : f_is_finite a = true -> f_le a a = true;
  f_le_trans (a b c : F) : f_le a b = true -> f_le b c = true -> f_le a c = true;
  f_min_is (a b : F) : f_is_finite a = true -> f_is_finite b = true ->
    (f_min a b = a \/ f_min a b = b) /\ f_le (f_min a b) a = true /\ f_le (f_min a b) b = true;
  f_max_is (a b : F) : f_is_finite a = true -> f_is_finite b = true ->
    (f_max a b = a \/ f_max a b = b) /\ f_le a (f_max a b) = true /\ f_le b (f_max a b) = true;
  f_floor_finite (a : F) : f_is_finite a = true -> f_is_finite (f_floor a) = true;
  f_ceil_finite (a : F) : f_is_finite a = true -> f_is_finite (f_ceil a) = true;
  f_floor_le (a b : F) : f_le a b = true -> f_le (f_floor a) (f_floor b) = true;
  f_ceil_le (a b : F) : f_le a b = true -> f_le (f_ceil a) (f_ceil b) = true;
  f_to_u32_le (a b : F) : f_le a b = true -> f_to_u32 a <= f_to_u32 b;
  f_to_u32_range (a : F) : u32 (f_to_u32 a);
  f_of_u_exact (n : Z) : 0 <= n <= 2 ^ 24 -> f_to_u32 (f_of_u n : F) = n;
  f_of_u_finite (n : Z) : 0 <= n <= 2 ^ 24 -> f_is_finite (f_of_u n : F) = true;
  f_zero_is : f_from_bits 0 = f_of_u 0;
  f_sub_finite (a b : F) : f_is_finite (a - b)%F = true -> f_is_finite a = true /\ f_is_finite b = true;
  f_mul_finite (a b : F) : f_is_finite (a * b)%F = true -> f_is_finite a = true /\ f_is_finite b = true;
}.

Section Laws.
Context {F : Type} `{F32Laws F}.

Lemma f_to_u32_max (x : F) n : f_is_finite x = true -> 0 <= n <= 2 ^ 24 ->
  f_to_u32 (f_max x (f_of_u n)) = Z.max (f_to_u32 x) n.
Proof.
  intros Hx Hn. destruct (f_max_is x (f_of_u n) Hx (f_of_u_finite n Hn)) as (His & Hl & Hr).
  apply f_to_u32_le in Hl, Hr. rewrite f_of_u_exact in Hr by done.
  destruct His as [His|His]; rewrite His in Hl, Hr |- *; rewrite ?f_of_u_exact in * by done; lia.
Qed.

Lemma f_to_u32_min (x : F) n : f_is_finite x = true -> 0 <= n <= 2 ^ 24 ->
  f_to_u32 (f_min x (f_of_u n)) = Z.min (f_to_u32 x) n.
Proof.
  intros Hx Hn. destruct (f_min_is x (f_of_u n) Hx (f_of_u_finite n Hn)) as (His & Hl & Hr).
  apply f_to_u32_le in Hl, Hr. rewrite f_of_u_exact in Hr by done.
  destruct His as [His|His]; rewrite His in Hl, Hr |- *; rewrite ?f_of_u_exact in * by done; lia.
Qed.

Lemma f_max_finite (a b : F) : f_is_finite a = true -> f_is_finite b = true -> f_is_finite (f_max a b) = true.
Proof. intros Ha Hb. by destruct (f_max_is a b Ha Hb) as ([-> | ->] & _). Qed.

Lemma f_min_finite (a b : F) : f_is_finite a = true -> f_is_finite b = true -> f_is_finite (f_min a b) = true.
Proof. intros Ha Hb. by destruct (f_min_is a b Ha Hb) as ([-> | ->] & _). Qed.

(** What is not below is not above once converted. *)
Lemma f_not_lt_to_u32 (a b : F) : f_is_finite a = true -> f_is_finite b = true -> f_lt a b = false ->
  f_to_u32 b <= f_to_u32 a.
Proof. intros Ha Hb Hlt. by apply f_to_u32_le, f_lt_total. Qed.

(** The least of three does not depend on their order, as a row number. *)
Definition f_min3 (a b c : F) : F := f_min (f_min a b) c.
Definition f_max3 (a b c : F) : F := f_max (f_max a b) c.

Lemma f_min3_le (a b c : F) : f_is_finite a = true -> f_is_finite b = true -> f_is_finite c = true ->
  f_le (f_min3 a b c) a = true /\ f_le (f_min3 a b c) b = true /\ f_le (f_min3 a b c) c = true /\
  (f_min3 a b c = a \/ f_min3 a b c = b \/ f_min3 a b c = c).
Proof.
  intros Ha Hb Hc. unfold f_min3. destruct (f_min_is a b Ha Hb) as (His & Hla & Hlb).
  destruct (f_min_is (f_min a b) c (f_min_finite a b Ha Hb) Hc) as (His' & Hlm & Hlc).
  split_and!; try done; [exact (f_le_trans _ _ _ Hlm Hla) | exact (f_le_trans _ _ _ Hlm Hlb)|].
  destruct His' as [-> | ->]; [|auto]. destruct His as [-> | ->]; auto.
Qed.

Lemma f_max3_le (a b c : F) : f_is_finite a = true -> f_is_finite b = true -> f_is_finite c = true ->
  f_le a (f_max3 a b c) = true /\ f_le b (f_max3 a b c) = true /\ f_le c (f_max3 a b c) = true /\
  (f_max3 a b c = a \/ f_max3 a b c = b \/ f_max3 a b c = c).
Proof.
  intros Ha Hb Hc. unfold f_max3. destruct (f_max_is a b Ha Hb) as (His & Hla & Hlb).
  destruct (f_max_is (f_max a b) c (f_max_finite a b Ha Hb) Hc) as (His' & Hlm & Hlc).
  split_and!; try done; [exact (f_le_trans _ _ _ Hla Hlm) | exact (f_le_trans _ _ _ Hlb Hlm)|].
  destruct His' as [-> | ->]; [|auto]. destruct His as [-> | ->]; auto.
Qed.

Lemma f_min3_swap (a b c : F) : f_is_finite a = true -> f_is_finite b = true -> f_is_finite c = true ->
  f_to_u32 (f_floor (f_min3 a c b)) = f_to_u32 (f_floor (f_min3 a b c)).
Proof.
  intros Ha Hb Hc. destruct (f_min3_le a b c Ha Hb Hc) as (H1 & H2 & H3 & Hi).
  destruct (f_min3_le a c b Ha Hc Hb) as (G1 & G2 & G3 & Gi).
  apply Z.le_antisymm; apply f_to_u32_le, f_floor_le.
  - by destruct Hi as [-> | [-> | ->]].
  - by destruct Gi as [-> | [-> | ->]].
Qed.

Lemma f_max3_swap (a b c : F) : f_is_finite a = true -> f_is_finite b = true -> f_is_finite c = true ->
  f_to_u32 (f_ceil (f_max3 a c b)) = f_to_u32 (f_ceil (f_max3 a b c)).
Proof.
  intros Ha Hb Hc. destruct (f_max3_le a b c Ha Hb Hc) as (H1 & H2 & H3 & Hi).
  destruct (f_max3_le a c b Ha Hc Hb) as (G1 & G2 & G3 & Gi).
  apply Z.le_antisymm; apply f_to_u32_le, f_ceil_le.
  - by destruct Gi as [-> | [-> | ->]].
  - by destruct Hi as [-> | [-> | ->]].
Qed.

Lemma f_min3_finite (a b c : F) : f_is_finite a = true -> f_is_finite b = true -> f_is_finite c = true ->
  f_is_finite (f_min3 a b c) = true.
Proof. intros Ha Hb Hc. by repeat apply f_min_finite. Qed.

Lemma f_max3_finite (a b c : F) : f_is_finite a = true -> f_is_finite b = true -> f_is_finite c = true ->
  f_is_finite (f_max3 a b c) = true.
Proof. intros Ha Hb Hc. by repeat apply f_max_finite. Qed.
End Laws.

(** ** A fixed-point arithmetic

    Numbers with sixteen binary places, to evaluate definitions on: results
    are rounded down and nothing overflows. *)

Definition fixed_of_bits (bits : Z) : Z :=
  let exponent := Z.land (Z.shiftr bits 23) 0xFF in
  let magnitude := Z.shiftr (Z.lor 0x800000 (Z.land bits 0x7FFFFF)) (134 - exponent) in
  if exponent =? 0 then 0 else if Z.testbit bits 31 then - magnitude else magnitude.

Definition fixed_to (w : Z) (x : Z) : Z := Z.max 0 (Z.min (x / 2 ^ 16) (2 ^ w - 1)).

#[export] Instance fixed_f32 : F32 Z := {|
  f_from_bits := fixed_of_bits;
  f_add := Z.add;
  f_sub := Z.sub;
  f_mul := fun a b => a * b / 2 ^ 16;
  f_div := fun a b => a * 2 ^ 16 / b;
  f_neg := Z.opp;
  f_mul_add := fun a b c => a * b / 2 ^ 16 + c;
  f_min := Z.min;
  f_max := Z.max;
  f_abs := Z.abs;
  f_sqrt := fun x => Z.sqrt (x * 2 ^ 16);
  f_floor := fun x => x / 2 ^ 16 * 2 ^ 16;
  f_ceil := fun x => - (- x / 2 ^ 16 * 2 ^ 16);
  f_round := fun x => (x + 2 ^ 15) / 2 ^ 16 * 2 ^ 16;
  f_log2 := fun x => (Z.log2 x - 16) * 2 ^ 16;
  f_exp2 := fun x => 2 ^ (x / 2 ^ 16 + 16);
  f_lt := Z.ltb;
  f_le := Z.leb;
  f_eq := Z.eqb;
  f_is_finite := fun _ => true;
  f_of_u := fun n => n * 2 ^ 16;
  f_to_u32 := fixed_to 32;
  f_to_u64 := fixed_to 64;
  f_to_i64 := fun x => Z.max (- 2 ^ 63) (Z.min (x / 2 ^ 16) (2 ^ 63 - 1));
|}.

#[export] Instance fixed_laws : F32Laws Z.
Proof.
  assert (forall a b, (a <=? b) = true -> a / 2 ^ 16 <= b / 2 ^ 16) as Hdiv by (intros a b Hab; apply Z.div_le_mono; lia).
  constructor; cbn -[Z.pow]; intros; try done; try lia.
  - apply Z.leb_le, Z.mul_le_mono_nonneg_r; [done | by apply Hdiv].
  - apply Z.leb_le. assert (- b / 2 ^ 16 * 2 ^ 16 <= - a / 2 ^ 16 * 2 ^ 16); [|lia].
    apply Z.mul_le_mono_nonneg_r; [done | apply Z.div_le_mono; lia].
  - unfold fixed_to. pose proof (Hdiv a b ltac:(done)). lia.
  - unfold fixed_to, u32, is_u. lia.
  - unfold fixed_to. rewrite Z.div_mul by done. lia.
Qed.
