(* ===== verification/Shading.v ===== *)
(** * Combiners and vertex programs

    Models [exbawks-gpu/src/combiner.rs], how the stages a title programs turn
    a fragment's colours into a pixel, and [shader.rs], the vertex program: an
    instruction's fields, its sources, the two units, and the run over one
    vertex.  An array of four floats is a list; the arithmetic is that of
    [Floats]. *)

From S2P Require Import Prelude GpuState Floats.

Local Open Scope Z_scope.

(** ** Register combiners *)

Definition STAGES : Z := 8.

Record Registers (F : Type) : Type := mkRegisters {
  rg_constant0 : list F;
  rg_constant1 : list F;
  rg_fog : list F;
  rg_diffuse : list F;
  rg_specular : list F;
  rg_textures : list (list F);
  rg_spare0 : list F;
  rg_spare1 : list F;
}.
Arguments mkRegisters {F}.
Arguments rg_constant0 {F} _.
Arguments rg_constant1 {F} _.
Arguments rg_fog {F} _.
Arguments rg_diffuse {F} _.
Arguments rg_specular {F} _.
Arguments rg_textures {F} _.
Arguments rg_spare0 {F} _.
Arguments rg_spare1 {F} _.

Section Combiner.
Context {F : Type} `{F32 F}.
Implicit Types r : Registers F.

Definition Registers_default : Registers F :=
  mkRegisters (splat f_0) (splat f_0) (splat f_0) (splat f_0) (splat f_0) (replicate 4 (splat f_0)) (splat f_0) (splat f_0).

Definition with_constants r (c0 c1 : list F) : Registers F :=
  mkRegisters c0 c1 (rg_fog r) (rg_diffuse r) (rg_specular r) (rg_textures r) (rg_spare0 r) (rg_spare1 r).

Definition texture_register_of r (unit : nat) : list F := nth unit (rg_textures r) (splat f_0).

Definition read_register (code : Z) r : list F :=
  let code := Z.land code 0xF in
  if code =? 1 then rg_constant0 r
  else if code =? 2 then rg_constant1 r
  else if code =? 3 then rg_fog r
  else if code =? 4 then rg_diffuse r
  else if code =? 5 then rg_specular r
  else if code =? 8 then texture_register_of r 0
  else if code =? 9 then texture_register_of r 1
  else if code =? 10 then texture_register_of r 2
  else if code =? 11 then texture_register_of r 3
  else if code =? 12 then rg_spare0 r
  else if code =? 13 then rg_spare1 r
  else splat f_0.

Definition map_input (mapping : Z) (value : F) : F :=
  let mapping := Z.land mapping 7 in
  if mapping =? 0 then f_max value f_0
  else if mapping =? 1 then (f_1 - f_clamp value f_0 f_1)%F
  else if mapping =? 2 then f_mul_add (f_max value f_0) f_2 (- f_1)%F
  else if mapping =? 3 then f_mul_add (f_max value f_0) (- f_2)%F f_1
  else if mapping =? 4 then (f_max value f_0 - f_half)%F
  else if mapping =? 5 then (f_half - f_max value f_0)%F
  else if mapping =? 6 then value
  else (- value)%F.

Definition read_variable (field : Z) r (alpha_portion : bool) : list F :=
  let value := read_register field r in
  let mapping := Z.shiftr field 5 in
  if has_bits field 0x10 || alpha_portion then splat (map_input mapping (lane value 3))
  else map (fun i => map_input mapping (lane value i)) [0; 1; 2; 3]%nat.

Definition scale_and_bias (outputs : Z) (value : F) : F :=
  let op := Z.land (Z.shiftr outputs 15) 7 in
  if op =? 1 then (value - f_half)%F
  else if op =? 2 then (value * f_2)%F
  else if op =? 3 then ((value - f_half) * f_2)%F
  else if op =? 4 then (value * f_4)%F
  else if op =? 6 then (value * f_half)%F
  else value.

(** [target[3] = value[3]], or the three colour components. *)
Definition merge_portion (alpha_only : bool) (target value : list F) : list F :=
  if alpha_only then [lane target 0; lane target 1; lane target 2; lane value 3]
  else [lane value 0; lane value 1; lane value 2; lane target 3].

Definition write_register (code : Z) (value : list F) r (alpha_only : bool) : Registers F :=
  let merge target := merge_portion alpha_only target value in
  let '(mkRegisters c0 c1 fog diffuse specular textures spare0 spare1) := r in
  let texture unit := mkRegisters c0 c1 fog diffuse specular (alter merge unit textures) spare0 spare1 in
  let code := Z.land code 0xF in
  if code =? 4 then mkRegisters c0 c1 fog (merge diffuse) specular textures spare0 spare1
  else if code =? 5 then mkRegisters c0 c1 fog diffuse (merge specular) textures spare0 spare1
  else if code =? 8 then texture 0%nat
  else if code =? 9 then texture 1%nat
  else if code =? 10 then texture 2%nat
  else if code =? 11 then texture 3%nat
  else if code =? 12 then mkRegisters c0 c1 fog diffuse specular textures (merge spare0) spare1
  else if code =? 13 then mkRegisters c0 c1 fog diffuse specular textures spare0 (merge spare1)
  else r.

Definition dot3 (a b : list F) : F :=
  f_mul_add (lane a 0) (lane b 0) (f_mul_add (lane a 1) (lane b 1) (lane a 2 * lane b 2)%F).

Definition run_portion (inputs outputs : Z) r (alpha_portion : bool) : Registers F :=
  let a := read_variable (Z.shiftr inputs 24) r alpha_portion in
  let b := read_variable (Z.land (Z.shiftr inputs 16) 0xFF) r alpha_portion in
  let c := read_variable (Z.land (Z.shiftr inputs 8) 0xFF) r alpha_portion in
  let d := read_variable (Z.land inputs 0xFF) r alpha_portion in
  let ab_dot := negb alpha_portion && Z.testbit outputs 13 in
  let cd_dot := negb alpha_portion && Z.testbit outputs 12 in
  let ab := if ab_dot then splat (dot3 a b) else zip_with4 f_mul a b in
  let cd := if cd_dot then splat (dot3 c d) else zip_with4 f_mul c d in
  let sum := if Z.testbit outputs 14 then if f_le f_half (lane (rg_spare0 r) 3) then cd else ab
             else zip_with4 f_add ab cd in
  let scaled v := map (fun i => scale_and_bias outputs (lane v i)) [0; 1; 2; 3]%nat in
  let r := write_register outputs (scaled cd) r alpha_portion in
  let r := write_register (Z.shiftr outputs 4) (scaled ab) r alpha_portion in
  if negb ab_dot && negb cd_dot then write_register (Z.shiftr outputs 8) (scaled sum) r alpha_portion else r.

Definition run_final (state : CombinerState F) r : list F :=
  let e := read_variable (Z.land (Z.shiftr (cb_final_second state) 24) 0xFF) r false in
  let f := read_variable (Z.land (Z.shiftr (cb_final_second state) 16) 0xFF) r false in
  let product := zip_with4 f_mul e f in
  let secondary := zip_with4 f_add (rg_spare0 r) (rg_specular r) in
  let variable field :=
    let value := if Z.land field 0xF =? 14 then secondary
                 else if Z.land field 0xF =? 15 then product else read_register field r in
    if has_bits field 0x10 then splat (lane value 3) else value in
  let inverted field := if has_bits field 0x20 then map (fun i => (f_1 - lane (variable field) i)%F) [0; 1; 2; 3]%nat
                        else variable field in
  let a := inverted (Z.land (Z.shiftr (cb_final_first state) 24) 0xFF) in
  let b := inverted (Z.land (Z.shiftr (cb_final_first state) 16) 0xFF) in
  let c := inverted (Z.land (Z.shiftr (cb_final_first state) 8) 0xFF) in
  let d := inverted (Z.land (cb_final_first state) 0xFF) in
  let g := inverted (Z.land (Z.shiftr (cb_final_second state) 8) 0xFF) in
  let color i := f_mul_add (lane a i) (lane b i) (f_mul_add (f_1 - lane a i)%F (lane c i) (lane d i)) in
  [color 0%nat; color 1%nat; color 2%nat; lane g 3].

(** The loop over the active stages. *)
Fixpoint run_stages (state : CombinerState F) (index : nat) (count : nat) r : Registers F :=
  match count with
  | O => r
  | S count =>
    let stage := nth index (cb_stages state) (mkStage 0 0 0 0) in
    let r := with_constants r (nth index (cb_factor0 state) (splat f_0)) (nth index (cb_factor1 state) (splat f_0)) in
    let r := run_portion (sg_color_inputs stage) (sg_color_outputs stage) r false in
    let r := run_portion (sg_alpha_inputs stage) (sg_alpha_outputs stage) r true in
    run_stages state (S index) count r
  end.

Definition pixel_channel (value : F) : Z := Z.land (f_to_u32 (f_clamp value f_0 f_1 * f_255 + f_half)%F) 0xFF.

Definition evaluate (state : CombinerState F) r : option Z :=
  if (cb_active state =? 0) && (cb_final_first state =? 0) then None else
  let r := run_stages state 0 (Z.to_nat (Z.min (cb_active state) STAGES)) r in
  let color := if cb_final_first state =? 0 then rg_spare0 r else run_final state r in
  Some (Z.lor (Z.shiftl (pixel_channel (lane color 3)) 24)
          (Z.lor (Z.shiftl (pixel_channel (lane color 0)) 16)
             (Z.lor (Z.shiftl (pixel_channel (lane color 1)) 8) (pixel_channel (lane color 2))))).
End Combiner.

(** ** The vertex program *)

Definition TEMPORARY_REGISTERS : nat := 12.
Definition OUTPUT_REGISTERS : nat := 16.
Definition INPUT_REGISTERS : nat := 16.
Definition OUTPUT_POSITION : nat := 0.
Definition OUTPUT_DIFFUSE : nat := 3.
Definition OUTPUT_TEXCOORD0 : nat := 9.
Definition MAX_STEPS : nat := 512.

Inductive SourceKind : Type := Temporary | Input | Constant.

Record ShaderResult (F : Type) : Type := mkShaderResult {
  sr_position : list F;
  sr_diffuse : list F;
  sr_texcoords : list (list F);
}.
Arguments mkShaderResult {F}.
Arguments sr_position {F} _.
Arguments sr_diffuse {F} _.
Arguments sr_texcoords {F} _.

(** [field(words, word, start, count)]. *)
Definition insn_field (words : list Z) (word : nat) (start count : Z) : Z :=
  Z.land (Z.shiftr (nth word words 0) start) (Z.shiftl 1 count - 1).

Definition source_kind (code : Z) : SourceKind :=
  if code =? 1 then Temporary else if code =? 2 then Input else Constant.

(** The negation, the swizzle, the register and its kind of each source. *)
Definition source_fields (words : list Z) (which : nat) : Z * list Z * Z * Z :=
  match which with
  | 0%nat => (insn_field words 1 8 1,
              [insn_field words 1 6 2; insn_field words 1 4 2; insn_field words 1 2 2; insn_field words 1 0 2],
              insn_field words 2 28 4, insn_field words 2 26 2)
  | 1%nat => (insn_field words 2 25 1,
              [insn_field words 2 23 2; insn_field words 2 21 2; insn_field words 2 19 2; insn_field words 2 17 2],
              insn_field words 2 13 4, insn_field words 2 11 2)
  | _ => (insn_field words 2 10 1,
          [insn_field words 2 8 2; insn_field words 2 6 2; insn_field words 2 4 2; insn_field words 2 2 2],
          Z.lor (Z.shiftl (insn_field words 2 0 2) 2) (insn_field words 3 30 2), insn_field words 3 28 2)
  end.

Section Shader.
Context {F : Type} `{F32 F}.

(** [get(index).copied().unwrap_or([0.0; 4])]. *)
Definition register_or_zero (bank : list (list F)) (index : Z) : list F := nth (Z.to_nat index) bank (splat f_0).

Definition source (words : list Z) (which : nat) (temporaries inputs constants : list (list F)) : list F :=
  let '(negate, swizzle, register, kind) := source_fields words which in
  let value := match source_kind kind with
               | Temporary => register_or_zero temporaries register
               | Input => register_or_zero inputs (insn_field words 1 9 4)
               | Constant => register_or_zero constants (insn_field words 1 13 8)
               end in
  let sign : F := if negate =? 1 then (- f_1)%F else f_1 in
  map (fun lane_of => (sign * lane value (Z.to_nat lane_of))%F) swizzle.

Definition write_masked (target value : list F) (mask : Z) : list F :=
  map (fun i => if has_bits mask (Z.shiftr 8 (Z.of_nat i)) then lane value i else lane target i) [0; 1; 2; 3]%nat.

Definition multiply_accumulate (opcode : Z) (a b c : list F) : list F :=
  let each f := map f [0; 1; 2; 3]%nat in
  let dot3 := (lane a 0 * lane b 0 + lane a 1 * lane b 1 + lane a 2 * lane b 2)%F in
  if opcode =? 1 then a
  else if opcode =? 2 then each (fun i => (lane a i * lane b i)%F)
  else if opcode =? 3 then each (fun i => (lane a i + lane c i)%F)
  else if opcode =? 4 then each (fun i => (lane a i * lane b i + lane c i)%F)
  else if opcode =? 5 then splat dot3
  else if opcode =? 6 then splat (dot3 + lane b 3)%F
  else if opcode =? 7 then splat (dot3 + lane a 3 * lane b 3)%F
  else if opcode =? 8 then [f_1; (lane a 1 * lane b 1)%F; lane a 2; lane b 3]
  else if opcode =? 9 then each (fun i => f_min (lane a i) (lane b i))
  else if opcode =? 10 then each (fun i => f_max (lane a i) (lane b i))
  else if opcode =? 11 then each (fun i => f_of_bool (f_lt (lane a i) (lane b i)))
  else if opcode =? 12 then each (fun i => f_of_bool (f_le (lane b i) (lane a i)))
  else splat f_0.

Definition scalar (opcode : Z) (c : list F) : list F :=
  let value := lane c 0 in
  splat (
    if opcode =? 1 then value
    else if (opcode =? 2) || (opcode =? 3) then if f_eq value f_0 then f_max_value else (f_1 / value)%F
    else if opcode =? 4 then if f_eq value f_0 then f_max_value else (f_1 / f_sqrt (f_abs value))%F
    else if opcode =? 5 then f_exp2 value
    else if opcode =? 6 then if f_eq value f_0 then (- f_max_value)%F else f_log2 (f_abs value)
    else f_0).

(** What an instruction writes: the temporaries and the outputs. *)
Definition run_instruction (words : list Z) (constants inputs temporaries outputs : list (list F))
  : list (list F) * list (list F) :=
  let vector_opcode := insn_field words 1 21 4 in
  let scalar_opcode := insn_field words 1 25 3 in
  let a := source words 0 temporaries inputs constants in
  let b := source words 1 temporaries inputs constants in
  let c := source words 2 temporaries inputs constants in
  let vector := multiply_accumulate vector_opcode a b c in
  let scalar_result := scalar scalar_opcode c in
  let write_vector register := if vector_opcode =? 0 then register
                               else write_masked register vector (insn_field words 3 24 4) in
  let write_scalar register := if scalar_opcode =? 0 then register
                               else write_masked register scalar_result (insn_field words 3 16 4) in
  let temporaries := alter (fun register => write_scalar (write_vector register))
                       (Z.to_nat (insn_field words 3 20 4)) temporaries in
  let output_mask := insn_field words 3 12 4 in
  if output_mask =? 0 then (temporaries, outputs)
  else
    let value := if insn_field words 3 2 1 =? 1 then scalar_result else vector in
    let address := Z.to_nat (insn_field words 3 3 8) in
    let write target := write_masked target value output_mask in
    if insn_field words 3 11 1 =? 1 then (temporaries, alter write address outputs)
    else (alter write address temporaries, outputs).

(** The loop over the first [MAX_STEPS] instructions: the outputs, and whether
    any ran. *)
Fixpoint run_program (program : list (list Z)) (constants inputs temporaries outputs : list (list F)) (executed : bool)
  : list (list F) * bool :=
  match program with
  | [] => (outputs, executed)
  | words :: program =>
    let final_instruction := insn_field words 3 0 1 =? 1 in
    if (insn_field words 1 21 4 =? 0) && (insn_field words 1 25 3 =? 0) && negb final_instruction then
      if executed then (outputs, executed)
      else run_program program constants inputs temporaries outputs executed
    else
      let '(temporaries, outputs) := run_instruction words constants inputs temporaries outputs in
      if final_instruction then (outputs, true)
      else run_program program constants inputs temporaries outputs true
  end.

Definition execute (program : list (list Z)) (constants inputs : list (list F)) : option (ShaderResult F) :=
  match program with
  | [] => None
  | _ =>
    let '(outputs, executed) :=
      run_program (take MAX_STEPS program) constants inputs (replicate TEMPORARY_REGISTERS (splat f_0))
        (replicate OUTPUT_REGISTERS (splat f_0)) false in
    let output index := nth index outputs (splat f_0) in
    if executed : bool then
      Some (mkShaderResult (output OUTPUT_POSITION) (output OUTPUT_DIFFUSE)
              (map (fun unit => [lane (output (OUTPUT_TEXCOORD0 + unit)%nat) 0; lane (output (OUTPUT_TEXCOORD0 + unit)%nat) 1])
                 [0; 1; 2; 3]%nat))
    else None
  end.
End Shader.
