(* ===== verification/Raster.v ===== *)
(** * The rasteriser

    Models [exbawks-gpu/src/raster.rs]: texture sampling, the tests and the
    blend a fragment goes through, one triangle over a range of rows, and a
    draw whose rows are divided between the host's processors.

    A triangle's work is the list of its pixels in the order of the two loops.
    The bands of a divided draw run at once in the source; here they run one
    after the other, and [RasterTheorems] shows that no interleaving of them
    differs. *)

From S2P Require Import Prelude GpuMemory Textures GpuState Floats Shading.

Local Open Scope Z_scope.

Record Vertex (F : Type) : Type := mkVertex {
  sv_x : F;
  sv_y : F;
  sv_color : Z;
  sv_texcoords : list (list F);
  sv_z : F;
  sv_inverse_w : F;
}.
Arguments mkVertex {F}.
Arguments sv_x {F} _.
Arguments sv_y {F} _.
Arguments sv_color {F} _.
Arguments sv_texcoords {F} _.
Arguments sv_z {F} _.
Arguments sv_inverse_w {F} _.

(** ** Addressing *)

Definition ADDRESS_WRAP : Z := 1.
Definition ADDRESS_MIRROR : Z := 2.
Definition ADDRESS_CLAMP_TO_EDGE : Z := 3.

Definition address_texel (mode texel extent : Z) : Z :=
  if extent <=? 0 then 0
  else if mode =? ADDRESS_WRAP then texel mod extent
  else if mode =? ADDRESS_MIRROR then
    let period := texel mod (extent * 2) in
    if period <? extent then period else extent * 2 - 1 - period
  else Z.max 0 (Z.min texel (extent - 1)).

Definition saturating_add_i64 (a b : Z) : Z := Z.max (- 2 ^ 63) (Z.min (a + b) (2 ^ 63 - 1)).

(** ** Fragment tests *)

Definition depth_passes (d : DepthState) (value stored : Z) : bool :=
  let f := Z.land (depth_function d) 7 in
  if f =? 0 then false
  else if f =? 1 then value <? stored
  else if f =? 2 then value =? stored
  else if f =? 3 then value <=? stored
  else if f =? 4 then stored <? value
  else if f =? 5 then negb (value =? stored)
  else if f =? 6 then stored <=? value
  else true.

Definition alpha_passes (t : AlphaTest) (alpha : Z) : bool :=
  if negb (alpha_enabled t) then true else
  let f := Z.land (alpha_function t) 7 in
  if f =? 0 then false
  else if f =? 1 then alpha <? alpha_reference t
  else if f =? 2 then alpha =? alpha_reference t
  else if f =? 3 then alpha <=? alpha_reference t
  else if f =? 4 then alpha_reference t <? alpha
  else if f =? 5 then negb (alpha =? alpha_reference t)
  else if f =? 6 then alpha_reference t <=? alpha
  else true.

(** ** Blending *)

Definition BLEND_ZERO : Z := 0x0000.
Definition BLEND_ONE : Z := 0x0001.
Definition BLEND_SRC_COLOR : Z := 0x0300.
Definition BLEND_ONE_MINUS_SRC_COLOR : Z := 0x0301.
Definition BLEND_SRC_ALPHA : Z := 0x0302.
Definition BLEND_ONE_MINUS_SRC_ALPHA : Z := 0x0303.
Definition BLEND_DST_ALPHA : Z := 0x0304.
Definition BLEND_ONE_MINUS_DST_ALPHA : Z := 0x0305.
Definition BLEND_DST_COLOR : Z := 0x0306.
Definition BLEND_ONE_MINUS_DST_COLOR : Z := 0x0307.
Definition BLEND_SRC_ALPHA_SATURATE : Z := 0x0308.

(** [(color >> shift) & 0xFF]. *)
Definition channel_of (color shift : Z) : Z := Z.land (Z.shiftr color shift) 0xFF.

Definition blend_factor (code source destination shift : Z) : Z :=
  let source_alpha := channel_of source 24 in
  let destination_alpha := channel_of destination 24 in
  if code =? BLEND_ZERO then 0
  else if code =? BLEND_SRC_COLOR then channel_of source shift
  else if code =? BLEND_ONE_MINUS_SRC_COLOR then 255 - channel_of source shift
  else if code =? BLEND_SRC_ALPHA then source_alpha
  else if code =? BLEND_ONE_MINUS_SRC_ALPHA then 255 - source_alpha
  else if code =? BLEND_DST_ALPHA then destination_alpha
  else if code =? BLEND_ONE_MINUS_DST_ALPHA then 255 - destination_alpha
  else if code =? BLEND_DST_COLOR then channel_of destination shift
  else if code =? BLEND_ONE_MINUS_DST_COLOR then 255 - channel_of destination shift
  else if (code =? BLEND_SRC_ALPHA_SATURATE) && negb (shift =? 24) then Z.min source_alpha (255 - destination_alpha)
  else 255.

(** A colour put together from its four channels, lowest first. *)
Definition pack_channels (f : Z -> Z) : Z := foldl (fun out shift => Z.lor out (Z.shiftl (f shift) shift)) 0 [0; 8; 16; 24].

Definition combine_channel (state : BlendState) (source destination shift : Z) : Z :=
  let from := channel_of source shift in
  let onto := channel_of destination shift in
  let source_weight := blend_factor (blend_source state) source destination shift in
  let destination_weight := blend_factor (blend_destination state) source destination shift in
  Z.land (Z.min ((from * source_weight + onto * destination_weight + 127) / 255) 255) 0xFF.

Definition combine (state : BlendState) (source destination : Z) : Z :=
  pack_channels (combine_channel state source destination).

Definition modulate (first second : Z) : Z :=
  pack_channels (fun shift => Z.land ((channel_of first shift * channel_of second shift + 127) / 255) 0xFF).

(** ** The target *)

Definition depth_address (t : RenderTarget) (x y : Z) : option Z :=
  base ← rt_zeta t;
  line ← checked_mul 32 y (rt_zeta_pitch t);
  start ← checked_add 32 base line;
  column ← checked_mul 32 x 4;
  checked_add 32 start column.

Definition pixel_address (t : RenderTarget) (x y : Z) : option Z :=
  if (x <? rt_clip_x t) || (y <? rt_clip_y t) || (saturating_add 32 (rt_clip_x t) (rt_width t) <=? x)
     || (saturating_add 32 (rt_clip_y t) (rt_height t) <=? y) then None else
  line ← checked_mul 32 y (rt_pitch t);
  start ← checked_add 32 (rt_base t) line;
  column ← checked_mul 32 x 4;
  checked_add 32 start column.

Definition CULL_FACE_FRONT : Z := 0x0404.
Definition CULL_FACE_BACK : Z := 0x0405.
Definition CULL_FACE_BOTH : Z := 0x0408.
Definition FRONT_FACE_CLOCKWISE : Z := 0x0900.

(** A draw is not divided below these, nor into more bands. *)
Definition MAX_DRAW_BANDS : Z := 64.
Definition PARALLEL_DRAW_PIXELS : Z := 4096.
Definition PIXELS_PER_BAND : Z := 512.

(** [available_parallelism], asked of the host once. *)
Class HostThreads : Type := host_parallelism : Z.

(** ** Samplers *)

Record Sampler : Type := mkSampler {
  sm_texture : MemoryTexture;
  sm_level : Z;
  sm_width : Z;
  sm_height : Z;
  sm_mode_u : Z;
  sm_mode_v : Z;
  sm_filtered : bool;
}.

Section Raster.
Context {F : Type} `{F32 F}.
Implicit Types v : Vertex F.

Definition texcoord v (unit axis : nat) : F := lane (nth unit (sv_texcoords v) []) axis.

Definition mip_level (texture : MemoryTexture) (a b c : Vertex F) (unit : nat) (area : F) : Z :=
  if (tx_levels texture <=? 1) || f_le area f_0 then 0 else
  let width := f_of_u (tx_width texture) in
  let height := f_of_u (tx_height texture) in
  let first_u := (texcoord a unit 0 * width)%F in
  let first_v := (texcoord a unit 1 * height)%F in
  let edge_one0 := (texcoord b unit 0 * width - first_u)%F in
  let edge_one1 := (texcoord b unit 1 * height - first_v)%F in
  let edge_two0 := (texcoord c unit 0 * width - first_u)%F in
  let edge_two1 := (texcoord c unit 1 * height - first_v)%F in
  let covered := f_abs (f_mul_add edge_one0 edge_two1 (- (edge_two0 * edge_one1))%F) in
  if f_le covered f_0 || negb (f_is_finite covered) then 0 else
  let level := (f_half * f_log2 (covered / area))%F in
  if negb (f_is_finite level) || f_le level f_0 then 0
  else Z.min (f_to_u32 (f_round level)) (tx_levels texture - 1).

Definition make_sampler (state : PipelineState) (a b c : Vertex F) (area : F) (unit : nat) (texture : MemoryTexture)
  : Sampler :=
  let level := mip_level texture a b c unit area in
  let extent := level_extent texture (Z.min level (Z.max 0 (tx_levels texture - 1))) in
  mkSampler texture level extent.1 extent.2 (tx_addressing texture).1 (tx_addressing texture).2
    (tx_filtered texture && negb (pl_unfiltered state)).

Definition CHANNEL_SCALE : F := (f_1 / f_255)%F.

Definition unpack_channels (color : Z) : list F :=
  map (fun shift => (f_of_u (channel_of color shift) * CHANNEL_SCALE)%F) [16; 8; 0; 24].

(** [(channel + 0.5).clamp(0.0, 255.0) as u32]. *)
Definition rounded_channel (channel : F) : Z := f_to_u32 (f_clamp (channel + f_half)%F f_0 f_255).

Definition interpolate_color (colors : list Z) (weights : list F) : Z :=
  pack_channels (fun shift =>
    Z.land (rounded_channel (f_sum (zip_with (fun weight color => (weight * f_of_u (channel_of color shift))%F)
                                      weights colors))) 0xFF).

(** Twice the signed area of the triangle of three points. *)
Definition edge (ax ay bx by_ px py : F) : F := ((px - ax) * (by_ - ay) - (py - ay) * (bx - ax))%F.

Definition edge_at (a b : Vertex F) (px py : F) : F := edge (sv_x a) (sv_y a) (sv_x b) (sv_y b) px py.

Section Memory.
Context {M : Type} `{Nv2aMemory M}.
Implicit Types m : M.

Definition nearest_at m (s : Sampler) (u v : F) : Z :=
  texel_in (sm_texture s) m (sm_level s)
    (address_texel (sm_mode_u s) (f_to_i64 (f_floor u)) (sm_width s))
    (address_texel (sm_mode_v s) (f_to_i64 (f_floor v)) (sm_height s)).

Definition filtered_at m (s : Sampler) (u v : F) : Z :=
  let u := (u - f_half)%F in
  let v := (v - f_half)%F in
  let first := f_floor u in
  let top := f_floor v in
  let fraction_u := (u - first)%F in
  let fraction_v := (v - top)%F in
  let column offset := address_texel (sm_mode_u s) (saturating_add_i64 (f_to_i64 first) offset) (sm_width s) in
  let row offset := address_texel (sm_mode_v s) (saturating_add_i64 (f_to_i64 top) offset) (sm_height s) in
  let texel x y := texel_in (sm_texture s) m (sm_level s) x y in
  let corners := [texel (column 0) (row 0); texel (column 1) (row 0); texel (column 0) (row 1); texel (column 1) (row 1)] in
  let weights := [((f_1 - fraction_u) * (f_1 - fraction_v))%F; (fraction_u * (f_1 - fraction_v))%F;
                  ((f_1 - fraction_u) * fraction_v)%F; (fraction_u * fraction_v)%F] in
  pack_channels (fun shift =>
    wrap (32 - shift) (rounded_channel
      (f_sum (zip_with (fun corner weight => (f_of_u (channel_of corner shift) * weight)%F) corners weights)))).

Definition sample m (s : Sampler) (u v : F) : Z := if sm_filtered s then filtered_at m s u v else nearest_at m s u v.

(** ** One triangle *)

(** What holds for a whole triangle: its corners in drawing order, its area,
    and its samplers. *)
Record Setup : Type := mkSetup {
  su_a : Vertex F;
  su_b : Vertex F;
  su_c : Vertex F;
  su_area : F;
  su_samplers : list (option Sampler);
}.

Definition culled (state : CullState) (area : F) : bool :=
  cull_enabled state &&
  let front := Bool.eqb (f_lt f_0 area) (front_face state =? FRONT_FACE_CLOCKWISE) in
  if cull_face state =? CULL_FACE_FRONT then front
  else if cull_face state =? CULL_FACE_BACK then negb front
  else cull_face state =? CULL_FACE_BOTH.

Definition setup_triangle (state : PipelineState) (textures : list (option MemoryTexture)) (t : Vertex F * Vertex F * Vertex F)
  : option Setup :=
  let '(a, b, c) := t in
  let area := edge_at a b (sv_x c) (sv_y c) in
  if f_eq area f_0 || negb (f_is_finite area) then None
  else if culled (pl_cull state) area then None
  else
    let '(b, c) := if f_lt area f_0 then (c, b) else (b, c) in
    let area := f_abs area in
    Some (mkSetup a b c area
            (imap (fun unit texture => make_sampler state a b c area unit <$> texture) textures)).

(** The pixels of a triangle's box in a range of rows: [x] and [y] from, to. *)
Definition triangle_box (target : RenderTarget) (s : Setup) (rows : Z * Z) : option (Z * Z * Z * Z) :=
  let over f := f (f (sv_x (su_a s)) (sv_x (su_b s))) (sv_x (su_c s)) in
  let down f := f (f (sv_y (su_a s)) (sv_y (su_b s))) (sv_y (su_c s)) in
  let first := f_max (f_floor (over f_min)) (f_of_u (rt_clip_x target)) in
  let beyond := f_min (f_ceil (over f_max)) (f_of_u (wrap32 (rt_clip_x target + rt_width target))) in
  let top := f_max (f_max (f_floor (down f_min)) (f_of_u (rt_clip_y target))) (f_of_u rows.1) in
  let bottom := f_min (f_min (f_ceil (down f_max)) (f_of_u (wrap32 (rt_clip_y target + rt_height target))))
                  (f_of_u rows.2) in
  if f_lt first beyond && f_lt top bottom
  then Some (f_to_u32 first, f_to_u32 beyond, f_to_u32 top, f_to_u32 bottom) else None.

(** The two loops over a box. *)
Definition box_pixels (box : Z * Z * Z * Z) : list (Z * Z) :=
  let '(x0, x1, y0, y1) := box in
  flat_map (fun y => map (fun x => (x, y)) (seqZ x0 (x1 - x0))) (seqZ y0 (y1 - y0)).

Definition triangle_pixels (target : RenderTarget) (s : Setup) (rows : Z * Z) : list (Z * Z) :=
  match triangle_box target s rows with None => [] | Some box => box_pixels box end.

(** [sink.read_pixel] and [sink.write_pixel]. *)
Definition read_pixel m (address : Z) : Z := default 0 (nv_read_dword m address).
Definition write_pixel m (address color : Z) : M := (nv_write_dword m address color).2.

(** [None] where the fragment fails its depth test; where the depth is to be
    written otherwise. *)
Definition depth_stage m (target : RenderTarget) (state : DepthState) (s : Setup) (weights : list F) (x y : Z)
  : option (option (Z * Z)) :=
  if depth_test state || depth_write state then
    let value := (lane weights 0 * sv_z (su_a s) + lane weights 1 * sv_z (su_b s) + lane weights 2 * sv_z (su_c s))%F in
    let value := f_to_u32 (f_clamp value f_0 (f_of_u 65535 * f_of_u 256)%F) in
    match depth_address target x y with
    | None => Some None
    | Some address =>
      let stored := Z.shiftr (read_pixel m address) 8 in
      if depth_test state && negb (depth_passes state value stored) then None
      else Some (if depth_write state then Some (address, value) else None)
    end
  else Some None.

(** The perspective-correct coordinate of a unit. *)
Definition coordinate (s : Setup) (weights : list F) (scale : F) (unit axis : nat) : F :=
  let term i v := (lane weights i * texcoord v unit axis * sv_inverse_w v)%F in
  ((term 0%nat (su_a s) + term 1%nat (su_b s) + term 2%nat (su_c s)) * scale)%F.

Definition sampled_units m (s : Setup) (weights : list F) : list (option Z) :=
  let inverse_w := (lane weights 0 * sv_inverse_w (su_a s) + lane weights 1 * sv_inverse_w (su_b s)
                    + lane weights 2 * sv_inverse_w (su_c s))%F in
  let scale := if f_eq inverse_w f_0 then f_1 else (f_1 / inverse_w)%F in
  imap (fun unit => fmap (fun sampler =>
    sample m sampler (coordinate s weights scale unit 0 * f_of_u (sm_width sampler))%F
      (coordinate s weights scale unit 1 * f_of_u (sm_height sampler))%F)) (su_samplers s).

Definition shade m (combiner : CombinerState F) (s : Setup) (weights : list F) : Z :=
  let diffuse := interpolate_color [sv_color (su_a s); sv_color (su_b s); sv_color (su_c s)] weights in
  let texels := sampled_units m s weights in
  let color := match nth 0 texels None with Some texel => modulate texel diffuse | None => diffuse end in
  if (0 <? cb_active combiner) || negb (cb_final_first combiner =? 0) then
    let read unit := match nth unit texels None with Some texel => unpack_channels texel | None => splat f_1 end in
    let registers := mkRegisters (splat f_0) (splat f_0) (splat f_0) (unpack_channels diffuse) (splat f_0)
                       (map read [0; 1; 2; 3]%nat) (splat f_0) (splat f_0) in
    default color (evaluate combiner registers)
  else color.

(** The colour to write, or [None] where the pixel is left as it is. *)
Definition blended m (state : BlendState) (address color : Z) : option Z :=
  if blend_enabled state then
    if (channel_of color 24 =? 0) && (blend_source state =? BLEND_SRC_ALPHA)
       && (blend_destination state =? BLEND_ONE_MINUS_SRC_ALPHA) then None
    else Some (combine state color (read_pixel m address))
  else Some color.

(** The body of the inner loop, and whether it wrote a pixel. *)
Definition draw_pixel m (target : RenderTarget) (state : PipelineState) (combiner : CombinerState F) (s : Setup) (x y : Z)
  : bool * M :=
  let px := (f_of_u x + f_half)%F in
  let py := (f_of_u y + f_half)%F in
  let weight_a := edge_at (su_b s) (su_c s) px py in
  let weight_b := edge_at (su_c s) (su_a s) px py in
  let weight_c := edge_at (su_a s) (su_b s) px py in
  if f_lt weight_a f_0 || f_lt weight_b f_0 || f_lt weight_c f_0 then (false, m) else
  match pixel_address target x y with
  | None => (false, m)
  | Some address =>
    let weights := [(weight_a / su_area s)%F; (weight_b / su_area s)%F; (weight_c / su_area s)%F] in
    match depth_stage m target (pl_depth state) s weights x y with
    | None => (false, m)
    | Some depth_write =>
      let color := shade m combiner s weights in
      if negb (alpha_passes (pl_alpha state) (channel_of color 24)) then (false, m) else
      match blended m (pl_blend state) address color with
      | None => (false, m)
      | Some color =>
        let m := write_pixel m address color in
        (true, match depth_write with
               | None => m
               | Some (address, value) =>
                 write_pixel m address (Z.lor (wrap32 (Z.shiftl value 8)) (Z.land (read_pixel m address) 0xFF))
               end)
      end
    end
  end.

Definition fill_pixels (target : RenderTarget) (state : PipelineState) (combiner : CombinerState F) (s : Setup)
    (pixels : list (Z * Z)) (acc : Z * M) : Z * M :=
  foldl (fun acc pixel =>
    let '(hit, m) := draw_pixel acc.2 target state combiner s pixel.1 pixel.2 in (acc.1 + bool_u hit, m)) acc pixels.

Definition fill_triangle_rows m (target : RenderTarget) (t : Vertex F * Vertex F * Vertex F)
    (textures : list (option MemoryTexture)) (state : PipelineState) (combiner : CombinerState F) (rows : Z * Z) : Z * M :=
  match setup_triangle state textures t with
  | None => (0, m)
  | Some s => fill_pixels target state combiner s (triangle_pixels target s rows) (0, m)
  end.

Definition fill_triangle m (target : RenderTarget) (t : Vertex F * Vertex F * Vertex F)
    (textures : list (option MemoryTexture)) (state : PipelineState) (combiner : CombinerState F) : Z * M :=
  fill_triangle_rows m target t textures state combiner (0, U32_MAX).

(** ** A draw *)

(** The triangles of a draw in one range of rows, in order. *)
Definition one_band m (target : RenderTarget) (triangles : list (Vertex F * Vertex F * Vertex F))
    (textures : list (option MemoryTexture)) (state : PipelineState) (combiner : CombinerState F) (rows : Z * Z) : Z * M :=
  foldl (fun acc t =>
    let '(n, m) := fill_triangle_rows acc.2 target t textures state combiner rows in (acc.1 + n, m)) (0, m) triangles.

Definition vertex_zero : Vertex F := mkVertex f_0 f_0 0 [] f_0 f_0.

(** [[vertices[a], vertices[b], vertices[c]]]. *)
Definition corners_of (vertices : list (Vertex F)) (t : nat * nat * nat) : Vertex F * Vertex F * Vertex F :=
  let corner i := nth i vertices vertex_zero in (corner t.1.1, corner t.1.2, corner t.2).

Definition corner_ys (t : Vertex F * Vertex F * Vertex F) : list F := [sv_y t.1.1; sv_y t.1.2; sv_y t.2].

(** The first row a coordinate may touch, and one past its last. *)
Definition row_from (y : F) : Z := f_to_u32 (f_max (f_floor y) f_0).
Definition row_to (y : F) : Z := wrap32 (f_to_u32 (f_max (f_ceil y) f_0) + 1).

(** The rows a draw could touch. *)
Definition draw_rows (target : RenderTarget) (triangles : list (Vertex F * Vertex F * Vertex F)) : Z * Z :=
  let '(first, last) := foldl (fun acc y =>
    if f_is_finite y then (Z.min acc.1 (row_from y), Z.max acc.2 (row_to y)) else acc)
    (U32_MAX, 0) (flat_map corner_ys triangles) in
  (Z.max first (rt_clip_y target), Z.min last (wrap32 (rt_clip_y target + rt_height target))).

(** The pixels a draw covers, from the areas of its triangles. *)
Definition draw_covered (triangles : list (Vertex F * Vertex F * Vertex F)) : Z :=
  foldl (fun acc t =>
    let area := (f_abs (edge_at t.1.1 t.1.2 (sv_x t.2) (sv_y t.2)) * f_half)%F in
    wrap64 (acc + if f_is_finite area then f_to_u64 area else 0)) 0 triangles.

Definition draw_bands `{HostThreads} (height covered : Z) : Z :=
  let bands := Z.min (Z.min (Z.min (covered / PIXELS_PER_BAND) host_parallelism) height) MAX_DRAW_BANDS in
  if (bands <=? 1) || (covered <? PARALLEL_DRAW_PIXELS) then 1 else bands.

Definition band_of (first rows_each y : Z) : Z := Z.max 0 (y - first) / rows_each.

(** Whether a triangle is given to a band. *)
Definition reaches_band (rows : Z * Z) (rows_each band : Z) (t : Vertex F * Vertex F * Vertex F) : bool :=
  let '(first, last) := rows in
  let low := f_min (f_min (sv_y t.1.1) (sv_y t.1.2)) (sv_y t.2) in
  let high := f_max (f_max (sv_y t.1.1) (sv_y t.1.2)) (sv_y t.2) in
  if negb (f_is_finite low) || negb (f_is_finite high) then false else
  let top := Z.max (row_from low) first in
  let bottom := Z.min (row_to high) last in
  (top <? bottom) && (band_of first rows_each top <=? band) && (band <=? band_of first rows_each (bottom - 1)).

Definition band_rows (rows : Z * Z) (rows_each band : Z) : Z * Z :=
  let start := wrap32 (rows.1 + rows_each * band) in
  (Z.min start rows.2, Z.min (wrap32 (start + rows_each)) rows.2).

Definition rasterize_triangles `{HostThreads} m (target : RenderTarget) (triangles : list (Vertex F * Vertex F * Vertex F))
    (textures : list (option MemoryTexture)) (state : PipelineState) (combiner : CombinerState F) : Z * M :=
  let '(first, last) := draw_rows target triangles in
  if last <=? first then (0, m) else
  let height := last - first in
  let bands := draw_bands height (draw_covered triangles) in
  if bands =? 1 then one_band m target triangles textures state combiner (first, last) else
  let rows_each := div_ceil height bands in
  foldl (fun acc band =>
    let own := List.filter (reaches_band (first, last) rows_each band) triangles in
    let '(n, m) := one_band acc.2 target own textures state combiner (band_rows (first, last) rows_each band) in
    (acc.1 + n, m)) (0, m) (seqZ 0 bands).

Definition rasterize_draw_of `{HostThreads} m (target : RenderTarget) (vertices : list (Vertex F))
    (triangles : list (nat * nat * nat)) (textures : list (option MemoryTexture)) (state : PipelineState)
    (combiner : CombinerState F) : Z * M :=
  rasterize_triangles m target (map (corners_of vertices) triangles) textures state combiner.
End Memory.
End Raster.
