(* ===== verification/RasterTheorems.v ===== *)
(** * A divided draw is the draw of one processor

    The rows of a draw are handed to several processors at once.  Fragments of
    different rows touch different memory, as long as neither surface's rows
    overlap, the two surfaces are apart and no bound texture lies under them;
    such fragments commute, every band holds the fragments of its rows in the
    order of the draw, and so every interleaving of the bands leaves what one
    processor leaves. *)

From S2P Require Import Prelude SoftwareSpace MappingTheorems SystemTyping GpuMemory Textures GpuState Floats Shading Raster.

Local Open Scope Z_scope.

(** ** Interleavings *)

(** The runs of several sequences at once, each in its own order. *)
Inductive interleaving {A : Type} : list (list A) -> list A -> Prop :=
| interleaving_done ls : Forall (eq []) ls -> interleaving ls []
| interleaving_step ls k x rest l : ls !! k = Some (x :: rest) -> interleaving (<[k := rest]> ls) l ->
    interleaving ls (x :: l).

Section Interleaving.
Context {A : Type}.
Implicit Types ls : list (list A).

(** What only one of the sequences has is in its order. *)
Lemma interleaving_filter (p : A -> bool) k0 ls l : interleaving ls l ->
  (forall k lk x, ls !! k = Some lk -> x ∈ lk -> p x = true -> k = k0) ->
  List.filter p l = List.filter p (default [] (ls !! k0)).
Proof.
  induction 1 as [ls Hnil | ls k x rest l Hk Hl IH]; intros Honly.
  - destruct (ls !! k0) as [lk|] eqn:Hk; [|done]. by rewrite <- (Forall_lookup_1 _ _ _ _ Hnil Hk).
  - assert (List.filter p l = List.filter p (default [] (<[k:=rest]> ls !! k0))) as IH'.
    { apply IH. intros k' lk y Hk' Hy Hp. destruct (decide (k' = k)) as [->|Hne].
      - rewrite list_lookup_insert_eq in Hk' by (by eapply lookup_lt_Some). injection Hk' as <-.
        apply (Honly k (x :: rest) y Hk); [|done]. by apply list_elem_of_further.
      - rewrite list_lookup_insert_ne in Hk' by done. by apply (Honly k' lk y). }
    cbn [List.filter]. destruct (p x) eqn:Hp.
    + assert (k = k0) as -> by (apply (Honly k (x :: rest) x Hk); [apply list_elem_of_here | done]).
      rewrite list_lookup_insert_eq in IH' by (by eapply lookup_lt_Some). rewrite Hk.
      change (x :: List.filter p l = if p x then x :: List.filter p rest else List.filter p rest). by rewrite Hp, IH'.
    + rewrite IH'. destruct (decide (k = k0)) as [->|Hne].
      * rewrite list_lookup_insert_eq by (by eapply lookup_lt_Some). rewrite Hk.
        change (List.filter p rest = if p x then x :: List.filter p rest else List.filter p rest). by rewrite Hp.
      * by rewrite list_lookup_insert_ne.
Qed.

Lemma interleaving_elem ls l x : interleaving ls l -> x ∈ l -> exists k lk, ls !! k = Some lk /\ x ∈ lk.
Proof.
  induction 1 as [ls Hnil | ls k y rest l Hk Hl IH]; intros Hx; [by apply elem_of_nil in Hx|].
  apply elem_of_cons in Hx as [->|Hx]; [exists k, (y :: rest); split; [done | apply list_elem_of_here]|].
  destruct (IH Hx) as (k' & lk & Hk' & Hin). destruct (decide (k' = k)) as [->|Hne].
  - rewrite list_lookup_insert_eq in Hk' by (by eapply lookup_lt_Some). injection Hk' as <-.
    exists k, (y :: rest). split; [done | by apply list_elem_of_further].
  - rewrite list_lookup_insert_ne in Hk' by done. by exists k', lk.
Qed.

(** One after the other is an interleaving. *)
Lemma interleaving_concat ls : interleaving ls (concat ls).
Proof.
  remember (length (concat ls)) as n eqn:Hn. revert ls Hn. induction n as [|n IH]; intros ls Hn.
  - destruct (concat ls) as [|x l] eqn:Hc; [|done]. constructor. apply Forall_forall. intros lk Hlk.
    apply list_elem_of_lookup in Hlk as [k Hk]. destruct lk as [|y lk]; [done|]. exfalso.
    assert (y ∈ concat ls) as Hy; [|rewrite Hc in Hy; by apply elem_of_nil in Hy].
    apply list_elem_of_In, in_concat. exists (y :: lk). split; [|by left].
    by eapply list_elem_of_In, list_elem_of_lookup_2.
  - assert (exists k x rest, ls !! k = Some (x :: rest) /\ Forall (eq []) (take k ls)) as (k & x & rest & Hk & Hpre).
    { clear IH. induction ls as [|[|x rest] ls IH]; [done| |by exists 0%nat, x, rest; split; [|constructor]].
      destruct (IH Hn) as (k & x & rest & Hk & Hpre). exists (S k), x, rest. split; [done|]. cbn. by constructor. }
    assert (forall tail, concat (take k ls) ++ tail = tail) as Hempty.
    { intros tail. clear -Hpre. induction Hpre as [|lk l' <- Hpre IH]; [done|]. exact IH. }
    assert (concat ls = x :: concat (<[k:=rest]> ls)) as Hc.
    { rewrite <- (take_drop_middle ls k _ Hk) at 1. rewrite concat_app. cbn [concat]. rewrite Hempty.
      rewrite insert_take_drop by (by eapply lookup_lt_Some). rewrite concat_app. cbn [concat]. by rewrite Hempty. }
    rewrite Hc. eapply interleaving_step; [exact Hk|]. apply IH. rewrite Hc in Hn. cbn in Hn. lia.
Qed.
End Interleaving.

(** ** Commuting steps *)

Section Traces.
Context {A S : Type} (step : S -> A -> S) (R : S -> S -> Prop) (row : A -> Z) (P : A -> Prop).
Context `{!Equivalence R}.
Context (Hproper : forall s t a, R s t -> R (step s a) (step t a)).
Context (Hcomm : forall s a b, P a -> P b -> row a <> row b -> R (step (step s a) b) (step (step s b) a)).

Lemma run_proper l : forall s t, R s t -> R (foldl step s l) (foldl step t l).
Proof. induction l as [|a l IH]; intros s t Hst; [done|]. by apply IH, Hproper. Qed.

(** A step moves to the front over steps of other rows. *)
Lemma run_move a l : P a -> Forall P l -> Forall (fun b => row b <> row a) l -> forall s,
  R (foldl step s (l ++ [a])) (foldl step s (a :: l)).
Proof.
  intros Ha HP Hrow. induction HP as [|b l Hb HP IH]; intros s; [reflexivity|].
  apply Forall_cons in Hrow as [Hne Hrow]. cbn [app foldl]. etransitivity; [by apply IH|]. cbn [foldl].
  apply run_proper. by apply Hcomm.
Qed.

(** Sequences that agree on every row leave the same. *)
Lemma run_projections l1 : forall l2 s, Forall P l1 -> Forall P l2 ->
  (forall y, List.filter (fun a => row a =? y) l1 = List.filter (fun a => row a =? y) l2) ->
  R (foldl step s l1) (foldl step s l2).
Proof.
  induction l1 as [|a l1 IH]; intros l2 s HP1 HP2 Hproj.
  { destruct l2 as [|b l2]; [reflexivity|]. specialize (Hproj (row b)). cbn in Hproj. by rewrite Z.eqb_refl in Hproj. }
  apply Forall_cons in HP1 as [Ha HP1].
  assert (exists u v, l2 = u ++ a :: v /\ Forall (fun b => row b <> row a) u) as (u & v & -> & Hu).
  { specialize (Hproj (row a)). cbn in Hproj. rewrite Z.eqb_refl in Hproj. clear -Hproj.
    induction l2 as [|b l2 IH2]; [done|]. cbn in Hproj. destruct (Z.eqb_spec (row b) (row a)).
    - injection Hproj as <- _. exists [], l2. by split; [|constructor].
    - destruct (IH2 Hproj) as (u & v & -> & Hu). exists (b :: u), v. split; [done|]. by constructor. }
  apply Forall_app in HP2 as [HPu HPv]. apply Forall_cons in HPv as [_ HPv].
  replace (u ++ a :: v) with ((u ++ [a]) ++ v) by (by rewrite <- app_assoc). rewrite (foldl_app step (u ++ [a])).
  etransitivity; [|symmetry; apply run_proper, run_move; done]. rewrite <- foldl_app. cbn [app foldl].
  apply IH; [done | by apply Forall_app|]. intros y. specialize (Hproj y).
  cbn [List.filter] in Hproj. rewrite List.filter_app in Hproj |- *. cbn [List.filter] in Hproj.
  destruct (Z.eqb_spec (row a) y) as [Heq|Hne]; [subst y|done].
  assert (List.filter (fun b => row b =? row a) u = []) as Hnil.
  { clear -Hu. induction Hu as [|b u Hb Hu IHu]; [done|]. cbn. by rewrite (proj2 (Z.eqb_neq _ _) Hb). }
  rewrite Hnil in Hproj |- *. by injection Hproj.
Qed.
End Traces.

(** ** Memory apart *)

(** Dwords that share no byte. *)
Definition apart (a b : Z) : Prop := a + 4 <= b \/ b + 4 <= a.

(** What a store promises, up to an equivalence of memories that no read sees
    through: nothing apart from a store changes, and stores apart may be made
    in either order. *)
Class Nv2aLaws (M : Type) `{Nv2aMemory M, Equiv M} : Prop := {
  nv_equivalence :: Equivalence (≡@{M});
  nv_read_proper :: Proper ((≡) ==> (=) ==> (=)) (nv_read_dword (M := M));
  nv_write_proper (m1 m2 : M) a v : m1 ≡ m2 -> (nv_write_dword m1 a v).2 ≡ (nv_write_dword m2 a v).2;
  nv_write_other (m : M) a v b : apart a b -> nv_read_dword (nv_write_dword m a v).2 b = nv_read_dword m b;
  nv_write_comm (m : M) a v b w : apart a b ->
    (nv_write_dword (nv_write_dword m a v).2 b w).2 ≡ (nv_write_dword (nv_write_dword m b w).2 a v).2;
}.

Section Writes.
Context {M : Type} `{Nv2aLaws M}.
Implicit Types m : M.

Definition apply_writes m (ws : list (Z * Z)) : M := foldl (fun m w => write_pixel m w.1 w.2) m ws.

Lemma apply_writes_proper ws : forall m1 m2, m1 ≡ m2 -> apply_writes m1 ws ≡ apply_writes m2 ws.
Proof. induction ws as [|w ws IH]; intros m1 m2 Hm; [done|]. by apply IH, nv_write_proper. Qed.

Lemma apply_writes_other ws b : Forall (fun w => apart w.1 b) ws -> forall m,
  nv_read_dword (apply_writes m ws) b = nv_read_dword m b.
Proof.
  induction 1 as [|w ws Hw Hws IH]; intros m; [done|]. cbn [apply_writes foldl]. fold (apply_writes (write_pixel m w.1 w.2) ws).
  rewrite IH. by apply nv_write_other.
Qed.

Lemma apply_writes_swap w ws : Forall (fun x => apart w.1 x.1) ws -> forall m,
  apply_writes (write_pixel m w.1 w.2) ws ≡ write_pixel (apply_writes m ws) w.1 w.2.
Proof.
  induction 1 as [|x ws Hx Hws IH]; intros m; [done|]. cbn [apply_writes foldl].
  etransitivity; [|apply IH]. by apply apply_writes_proper, nv_write_comm.
Qed.

Lemma apply_writes_comm ws1 ws2 : Forall (fun w => Forall (fun x => apart w.1 x.1) ws2) ws1 -> forall m,
  apply_writes (apply_writes m ws1) ws2 ≡ apply_writes (apply_writes m ws2) ws1.
Proof.
  induction 1 as [|w ws1 Hw Hws IH]; intros m; [done|]. cbn [apply_writes foldl].
  etransitivity; [apply IH|]. by apply apply_writes_proper, apply_writes_swap.
Qed.
End Writes.

(** *** RAM keeps the promise

    RAM of whole dwords, reached with the [u32] addresses and values that the
    types of the code allow; anything else is refused. *)

Record Ram : Type := mkRam { ram_dwords : PhysicalMemory; ram_dwords_ok : dwords_ok ram_dwords }.

#[export] Instance Ram_equiv : Equiv Ram := fun a b => ram_dwords a ≡ ram_dwords b.

Definition is_u32 (x : Z) : bool := (0 <=? x) && (x <? 2 ^ 32).

Lemma dword_write_keeps m a v : dwords_ok m -> dwords_ok (dword_write m a v).2.
Proof.
  intros Hm. unfold dword_write. cbn zeta.
  assert (forall m i w, dwords_ok m -> dwords_ok (store_dword m i w)) as Hstore.
  { intros m' i w [Hlen Hb]. split; [done|]. apply ram_store_bytes; [apply to_le_bytes_u8 | done]. }
  repeat case_match; cbn [snd]; try done; repeat apply Hstore; done.
Qed.

Definition ram_read (r : Ram) (a : Z) : option Z := if is_u32 a then dword_read (ram_dwords r) a else None.
Definition ram_write (r : Ram) (a v : Z) : bool * Ram :=
  if is_u32 a && is_u32 v
  then ((dword_write (ram_dwords r) a v).1, mkRam (dword_write (ram_dwords r) a v).2 (dword_write_keeps _ a v (ram_dwords_ok r)))
  else (false, r).
Definition ram_fill (r : Ram) (a v count : Z) : Z * Ram := fill_default ram_write r a v 0 (Z.to_nat count).

#[export] Instance Ram_memory : Nv2aMemory Ram := {|
  nv_read_dword := ram_read;
  nv_write_dword := ram_write;
  nv_fill_dwords := ram_fill;
|}.

(** What a store leaves, byte for byte. *)
Lemma dword_write_byte m a v : dwords_ok m -> 0 <= a -> u32 v ->
  dword_bytes (dword_write m a v).2 = dword_bytes m /\
  forall o, ram_byte (dword_ram (dword_write m a v).2) o =
    if decide (a + 4 <= dword_bytes m /\ a <= o < a + 4) then nth (Z.to_nat (o - a)) (to_le_bytes 4 v) 0
    else ram_byte (dword_ram m) o.
Proof.
  intros Hm Ha Hv. destruct (dword_write_spec m a v Hm Ha Hv) as [_ [Hlen Hb]]. unfold byte_write in *.
  destruct (Z.leb_spec (a + 4) (dword_bytes m)); (split; [exact Hlen|]); intros o; rewrite Hb; cbn [snd dword_ram].
  - rewrite ram_store_byte, length_to_le_bytes. repeat case_decide; done || lia.
  - rewrite decide_False by lia. done.
Qed.

#[export] Instance Ram_laws : Nv2aLaws Ram.
Proof.
  assert (forall x, is_u32 x = true -> u32 x) as Hu by (intros x; unfold is_u32, is_u; lia).
  assert (forall x, is_u32 x = true -> 0 <= x) as Hn by (intros x; unfold is_u32; lia).
  constructor.
  - split; unfold Reflexive, Symmetric, Transitive, equiv, Ram_equiv.
    + intros a. reflexivity.
    + intros a b Hab. by symmetry.
    + intros a b c Hab Hbc. by transitivity (ram_dwords b).
  - intros a b Hab p q <-. cbn. unfold ram_read. destruct (is_u32 p); [|done]. by apply dword_read_proper.
  - intros m1 m2 a v Hm. cbn. unfold ram_write. destruct (_ && _) eqn:Hav; [|done]. apply andb_true_iff in Hav as [Ha Hv].
    destruct (dword_write_byte (ram_dwords m1) a v (ram_dwords_ok m1) (Hn a Ha) (Hu v Hv)) as [Hl1 Hb1].
    destruct (dword_write_byte (ram_dwords m2) a v (ram_dwords_ok m2) (Hn a Ha) (Hu v Hv)) as [Hl2 Hb2].
    destruct Hm as [Hl Hb]. split; cbn [snd ram_dwords]; [congruence|]. intros o. by rewrite Hb1, Hb2, Hl, Hb.
  - intros m a v b Hab. cbn. unfold ram_write, ram_read. destruct (_ && _) eqn:Hav; [|done].
    apply andb_true_iff in Hav as [Ha Hv]. destruct (is_u32 b) eqn:Hb; [|done]. cbn [snd ram_dwords].
    rewrite !dword_read_spec by (apply ram_dwords_ok || apply dword_write_keeps, ram_dwords_ok || auto).
    destruct (dword_write_byte (ram_dwords m) a v (ram_dwords_ok m) (Hn a Ha) (Hu v Hv)) as [Hl Hbytes].
    unfold byte_read. rewrite Hl, !ram_dword_spec. unfold ram_dword. rewrite !Hbytes. unfold apart in Hab.
    by rewrite !decide_False by lia.
  - intros m a v b w Hab. cbn. unfold ram_write, apart in *. destruct (is_u32 a && is_u32 v) eqn:Hav, (is_u32 b && is_u32 w) eqn:Hbw;
      try done; cbn [snd ram_dwords].
    apply andb_true_iff in Hav as [Ha Hv], Hbw as [Hb Hw].
    pose proof (ram_dwords_ok m) as Hm. pose proof (dword_write_keeps _ a v Hm) as Hma. pose proof (dword_write_keeps _ b w Hm) as Hmb.
    destruct (dword_write_byte _ a v Hm (Hn a Ha) (Hu v Hv)) as [Hl1 H1], (dword_write_byte _ b w Hm (Hn b Hb) (Hu w Hw)) as [Hl2 H2].
    destruct (dword_write_byte _ b w Hma (Hn b Hb) (Hu w Hw)) as [Hl3 H3], (dword_write_byte _ a v Hmb (Hn a Ha) (Hu v Hv)) as [Hl4 H4].
    split; cbn [snd ram_dwords]; [congruence|]. intros o. rewrite H3, H4, H1, H2, Hl1, Hl2. repeat case_decide; done || lia.
Qed.

(** ** One fragment *)

(** The addresses a fragment may read and write. *)
Definition touches (target : RenderTarget) (x y p : Z) : Prop :=
  is_Some (pixel_address target x y) /\ (pixel_address target x y = Some p \/ depth_address target x y = Some p).

(** The rows of both surfaces are apart, and so are the surfaces. *)
Record target_apart (target : RenderTarget) : Prop := {
  ta_rows x1 y1 x2 y2 p q : y1 <> y2 -> touches target x1 y1 p -> touches target x2 y2 q -> apart p q;
  ta_surfaces x y p q : pixel_address target x y = Some p -> depth_address target x y = Some q -> apart p q;
}.

(** No dword of a texture lies under the surfaces. *)
Definition texture_apart (target : RenderTarget) (t : MemoryTexture) : Prop :=
  forall x y p a, touches target x y p -> tx_base t <= a < tx_end t -> apart p a.

Section Fragment.
Context {F : Type} `{F32 F} {M : Type} `{Nv2aLaws M}.
Context (target : RenderTarget) (state : PipelineState) (combiner : CombinerState F).
Implicit Types m : M.

Definition setup_apart (s : Setup (F := F)) : Prop :=
  Forall (fun sampler => match sampler with Some t => texture_apart target (sm_texture t) | None => True end) (su_samplers s).

(** Memories alike where a fragment looks. *)
Definition alike (s : Setup (F := F)) (x y : Z) m1 m2 : Prop :=
  (forall p, touches target x y p -> nv_read_dword m1 p = nv_read_dword m2 p) /\
  Forall (fun sampler => match sampler with
    | Some t => forall a, tx_base (sm_texture t) <= a < tx_end (sm_texture t) -> nv_read_dword m1 a = nv_read_dword m2 a
    | None => True
    end) (su_samplers s).

Lemma texel_in_alike (t : MemoryTexture) m1 m2 level x y :
  (forall a, tx_base t <= a < tx_end t -> nv_read_dword m1 a = nv_read_dword m2 a) ->
  texel_in t m1 level x y = texel_in t m2 level x y.
Proof.
  intros Hm. assert (forall a, tx_read t m1 a = tx_read t m2 a) as Hread.
  { intros a. unfold tx_read. destruct (Z.ltb_spec a (tx_base t)); [done|]. destruct (Z.leb_spec (tx_end t) a); [done|].
    cbn [orb]. by rewrite Hm by lia. }
  unfold texel_in. cbn zeta. destruct (level_extent _ _) as [w h]. unfold tx_block. by rewrite !Hread.
Qed.

Lemma sample_alike (s : Sampler) m1 m2 (u v : F) :
  (forall a, tx_base (sm_texture s) <= a < tx_end (sm_texture s) -> nv_read_dword m1 a = nv_read_dword m2 a) ->
  sample m1 s u v = sample m2 s u v.
Proof.
  intros Hm. unfold sample, filtered_at, nearest_at. cbn zeta. by rewrite !(texel_in_alike _ m1 m2) by done.
Qed.

Lemma shade_alike (s : Setup (F := F)) x y m1 m2 weights : alike s x y m1 m2 ->
  shade m1 combiner s weights = shade m2 combiner s weights.
Proof.
  intros [_ Hs]. unfold shade. assert (sampled_units m1 s weights = sampled_units m2 s weights) as ->; [|done].
  unfold sampled_units. cbn zeta. apply imap_ext. intros unit sampler Hin.
  destruct sampler as [t|]; [|done]. cbn. f_equal. apply sample_alike.
  by apply (Forall_lookup_1 _ _ _ _ Hs Hin).
Qed.

(** What a fragment writes, as addresses and values. *)
Definition pixel_writes m (s : Setup (F := F)) (x y : Z) : list (Z * Z) :=
  let px := (f_of_u x + f_half)%F in
  let py := (f_of_u y + f_half)%F in
  let weight_a := edge_at (su_b s) (su_c s) px py in
  let weight_b := edge_at (su_c s) (su_a s) px py in
  let weight_c := edge_at (su_a s) (su_b s) px py in
  if f_lt weight_a f_0 || f_lt weight_b f_0 || f_lt weight_c f_0 then [] else
  match pixel_address target x y with
  | None => []
  | Some address =>
    let weights := [(weight_a / su_area s)%F; (weight_b / su_area s)%F; (weight_c / su_area s)%F] in
    match depth_stage m target (pl_depth state) s weights x y with
    | None => []
    | Some depth_write =>
      let color := shade m combiner s weights in
      if negb (alpha_passes (pl_alpha state) (channel_of color 24)) then [] else
      match blended m (pl_blend state) address color with
      | None => []
      | Some color =>
        (address, color) ::
        match depth_write with
        | None => []
        | Some (a, value) => [(a, Z.lor (wrap32 (Z.shiftl value 8)) (Z.land (read_pixel m a) 0xFF))]
        end
      end
    end
  end.

Lemma depth_stage_address m (d : DepthState) s weights x y a v :
  depth_stage (F := F) m target d s weights x y = Some (Some (a, v)) -> depth_address target x y = Some a.
Proof. unfold depth_stage. cbn zeta. repeat case_match; intros; try done; congruence. Qed.

Lemma draw_pixel_writes m s x y : target_apart target ->
  draw_pixel m target state combiner s x y =
    (negb (bool_decide (pixel_writes m s x y = [])), apply_writes m (pixel_writes m s x y)).
Proof.
  intros Ht. unfold draw_pixel, pixel_writes. cbn zeta. destruct (_ || _); [done|].
  destruct (pixel_address target x y) as [p|] eqn:Hp; [|done].
  destruct (depth_stage _ _ _ _ _ _ _) as [[[a v]|]|] eqn:Hd; [| |done].
  - destruct (negb _); [done|]. destruct (blended _ _ _ _) as [color|]; [|done].
    rewrite (bool_decide_eq_false_2 (_ :: _ = [])) by done. cbn [negb apply_writes foldl fst snd]. do 2 f_equal.
    unfold read_pixel, write_pixel. rewrite nv_write_other; [done|].
    apply depth_stage_address in Hd. by apply (ta_surfaces target Ht x y).
  - destruct (negb _); [done|]. destruct (blended _ _ _ _) as [color|]; [|done].
    by rewrite (bool_decide_eq_false_2 (_ :: _ = [])).
Qed.

Lemma pixel_writes_touch m s x y : Forall (fun w => touches target x y w.1) (pixel_writes m s x y).
Proof.
  unfold pixel_writes. cbn zeta. destruct (_ || _); [constructor|].
  destruct (pixel_address target x y) as [p|] eqn:Hp; [|constructor].
  destruct (depth_stage _ _ _ _ _ _ _) as [depth_write|] eqn:Hd; [|constructor].
  destruct (negb _); [constructor|]. destruct (blended _ _ _ _) as [color|]; [|constructor].
  constructor; [split; [by eexists | by left]|]. destruct depth_write as [[a v]|]; [|constructor].
  constructor; [|constructor]. split; [by eexists|]. right. by eapply depth_stage_address.
Qed.

Lemma pixel_writes_alike s x y m1 m2 : alike s x y m1 m2 -> pixel_writes m1 s x y = pixel_writes m2 s x y.
Proof.
  intros Hm. unfold pixel_writes. cbn zeta. destruct (_ || _); [done|].
  destruct (pixel_address target x y) as [p|] eqn:Hp; [|done].
  assert (forall d weights, depth_stage m1 target d s weights x y = depth_stage m2 target d s weights x y) as Hdepth.
  { intros d weights. unfold depth_stage. cbn zeta. destruct (_ || _); [|done].
    destruct (depth_address target x y) as [a|] eqn:Ha; [|done]. unfold read_pixel.
    rewrite (proj1 Hm a); [done|]. split; [by eexists | by right]. }
  rewrite Hdepth, (shade_alike s x y m1 m2) by done. destruct (depth_stage _ _ _ _ _ _ _) as [depth_write|] eqn:Hd; [|done].
  destruct (negb _); [done|].
  assert (forall color, blended m1 (pl_blend state) p color = blended m2 (pl_blend state) p color) as Hb.
  { intros color. unfold blended. repeat case_match; try done. unfold read_pixel. rewrite (proj1 Hm p); [done|].
    split; [by eexists | by left]. }
  rewrite Hb. destruct (blended _ _ _ _) as [color|]; [|done]. destruct depth_write as [[a v]|]; [|done].
  unfold read_pixel. rewrite (proj1 Hm a); [done|]. split; [by eexists|]. right. by eapply depth_stage_address.
Qed.
End Fragment.

(** ** The fragments of a draw *)

(** Small enough that a row or column is exact as a float. *)
Record target_small (target : RenderTarget) : Prop := {
  ts_left : 0 <= rt_clip_x target;
  ts_right : rt_clip_x target + rt_width target <= 2 ^ 24;
  ts_width : 0 <= rt_width target;
  ts_top : 0 <= rt_clip_y target;
  ts_bottom : rt_clip_y target + rt_height target <= 2 ^ 24;
  ts_height : 0 <= rt_height target;
}.

Lemma filter_rows (f : Z -> list (Z * Z)) (y y0 : Z) (n : nat) : (forall y, Forall (fun p => p.2 = y) (f y)) ->
  List.filter (fun p => p.2 =? y) (flat_map f (seqZ y0 (Z.of_nat n))) =
  if (y0 <=? y) && (y <? y0 + Z.of_nat n) then f y else [].
Proof.
  intros Hf. assert (forall z, List.filter (fun p => p.2 =? y) (f z) = if z =? y then f y else []) as Hone.
  { intros z. destruct (Z.eqb_spec z y) as [->|Hne].
    - specialize (Hf y). induction Hf as [|p l Hp Hl IH]; [done|]. cbn [List.filter]. by rewrite Hp, Z.eqb_refl, IH.
    - specialize (Hf z). induction Hf as [|p l Hp Hl IH]; [done|]. cbn [List.filter].
      by rewrite Hp, (proj2 (Z.eqb_neq _ _) Hne). }
  induction n as [|n IH].
  - change (flat_map f (seqZ y0 (Z.of_nat 0))) with (@nil (Z * Z)). cbn [List.filter].
    destruct (Z.leb_spec y0 y), (Z.ltb_spec y (y0 + Z.of_nat 0)); cbn [andb]; try done; lia.
  - rewrite seqZ_S, flat_map_app, List.filter_app, IH. cbn [flat_map]. rewrite app_nil_r, Hone.
    destruct (Z.leb_spec y0 y), (Z.ltb_spec y (y0 + Z.of_nat n)), (Z.ltb_spec y (y0 + Z.of_nat (S n))),
      (Z.eqb_spec (y0 + Z.of_nat n) y); cbn [andb]; try lia; try done; by rewrite ?app_nil_r.
Qed.

Lemma filter_box x0 x1 y0 y1 y :
  List.filter (fun p => p.2 =? y) (box_pixels (x0, x1, y0, y1)) =
  if (y0 <=? y) && (y <? y1) then map (fun x => (x, y)) (seqZ x0 (x1 - x0)) else [].
Proof.
  unfold box_pixels. destruct (Z.leb_spec y1 y0).
  - replace (seqZ y0 (y1 - y0)) with (@nil Z) by (symmetry; apply seqZ_nil; lia). cbn [flat_map List.filter].
    destruct (Z.leb_spec y0 y), (Z.ltb_spec y y1); cbn [andb]; try done; lia.
  - replace (y1 - y0) with (Z.of_nat (Z.to_nat (y1 - y0))) by lia. rewrite (filter_rows _ y).
    + replace (y0 + Z.of_nat (Z.to_nat (y1 - y0))) with y1 by lia. done.
    + intros z. apply Forall_map, Forall_forall. done.
Qed.

Section Triangles.
Context {F : Type} `{F32Laws F}.
Context (target : RenderTarget) (state : PipelineState) (textures : list (option MemoryTexture)).
Context (Hsmall : target_small target).

Abbreviation Triangle := (Vertex F * Vertex F * Vertex F)%type.

Definition finite_vertex (v : Vertex F) : Prop := f_is_finite (sv_x v) = true /\ f_is_finite (sv_y v) = true.

Lemma edge_finite (a b c : Vertex F) : f_is_finite (edge_at a b (sv_x c) (sv_y c)) = true ->
  finite_vertex a /\ finite_vertex b /\ finite_vertex c.
Proof.
  unfold edge_at, edge, finite_vertex. intros [H1 H2]%f_sub_finite.
  apply f_mul_finite in H1 as [H1 H3], H2 as [H2 H4]. apply f_sub_finite in H1 as [? ?], H2 as [? ?], H3 as [? ?], H4 as [? ?].
  done.
Qed.

(** The rows and columns of a triangle's box, before the range of rows. *)
Definition box_left (s : Setup (F := F)) : Z :=
  Z.max (f_to_u32 (f_floor (f_min3 (sv_x (su_a s)) (sv_x (su_b s)) (sv_x (su_c s))))) (rt_clip_x target).
Definition box_right (s : Setup (F := F)) : Z :=
  Z.min (f_to_u32 (f_ceil (f_max3 (sv_x (su_a s)) (sv_x (su_b s)) (sv_x (su_c s))))) (rt_clip_x target + rt_width target).
Definition box_top (s : Setup (F := F)) : Z :=
  Z.max (f_to_u32 (f_floor (f_min3 (sv_y (su_a s)) (sv_y (su_b s)) (sv_y (su_c s))))) (rt_clip_y target).
Definition box_bottom (s : Setup (F := F)) : Z :=
  Z.min (f_to_u32 (f_ceil (f_max3 (sv_y (su_a s)) (sv_y (su_b s)) (sv_y (su_c s))))) (rt_clip_y target + rt_height target).

(** A corner order of a triangle. *)
Definition corners_agree (t : Triangle) (s : Setup (F := F)) : Prop :=
  su_a s = t.1.1 /\ (su_b s = t.1.2 /\ su_c s = t.2 \/ su_b s = t.2 /\ su_c s = t.1.2).

Lemma setup_inv t s : setup_triangle state textures t = Some s ->
  (finite_vertex t.1.1 /\ finite_vertex t.1.2 /\ finite_vertex t.2) /\ corners_agree t s /\
  Forall2 (fun texture sampler => sm_texture <$> sampler = texture) textures (su_samplers s).
Proof.
  destruct t as [[a b] c]. unfold setup_triangle. destruct (_ || _) eqn:Harea; [done|].
  apply orb_false_iff in Harea as [_ Hfin]. apply negb_false_iff, edge_finite in Hfin.
  destruct (culled _ _); [done|]. destruct (f_lt _ _); intros [= <-]; (split; [done|]); (split; [split; [done|]; by auto|]);
    cbn [su_samplers]; apply Forall2_same_length_lookup; (split; [by rewrite length_imap|]);
    intros i texture sampler Hi; rewrite list_lookup_imap, Hi; intros [= <-]; by destruct texture.
Qed.

Lemma corners_finite t s : setup_triangle state textures t = Some s ->
  finite_vertex (su_a s) /\ finite_vertex (su_b s) /\ finite_vertex (su_c s).
Proof. intros ((Ha & Hb & Hc) & (-> & [[-> ->]|[-> ->]]) & _)%setup_inv; done. Qed.

Lemma triangle_pixels_box t s rows : setup_triangle state textures t = Some s -> 0 <= rows.1 <= 2 ^ 24 ->
  0 <= rows.2 <= 2 ^ 24 -> triangle_pixels target s rows =
    box_pixels (box_left s, box_right s, Z.max (box_top s) rows.1, Z.min (box_bottom s) rows.2).
Proof.
  intros Hs Hr1 Hr2. destruct (corners_finite t s Hs) as ([Hax Hay] & [Hbx Hby] & [Hcx Hcy]). destruct Hsmall.
  unfold triangle_pixels, triangle_box. rewrite !wrap_small by (unfold is_u; lia).
  fold (f_min3 (sv_x (su_a s)) (sv_x (su_b s)) (sv_x (su_c s))) (f_max3 (sv_x (su_a s)) (sv_x (su_b s)) (sv_x (su_c s)))
    (f_min3 (sv_y (su_a s)) (sv_y (su_b s)) (sv_y (su_c s))) (f_max3 (sv_y (su_a s)) (sv_y (su_b s)) (sv_y (su_c s))).
  set (x0 := f_max _ _). set (x1 := f_min _ _). set (y0 := f_max (f_max _ _) _). set (y1 := f_min (f_min _ _) _).
  assert (f_is_finite x0 = true) as Fx0 by (apply f_max_finite; [apply f_floor_finite, f_min3_finite; done | apply f_of_u_finite; lia]).
  assert (f_is_finite x1 = true) as Fx1 by (apply f_min_finite; [apply f_ceil_finite, f_max3_finite; done | apply f_of_u_finite; lia]).
  assert (f_is_finite y0 = true) as Fy0
    by (repeat apply f_max_finite; try (apply f_floor_finite, f_min3_finite; done); apply f_of_u_finite; lia).
  assert (f_is_finite y1 = true) as Fy1
    by (repeat apply f_min_finite; try (apply f_ceil_finite, f_max3_finite; done); apply f_of_u_finite; lia).
  assert (f_to_u32 x0 = box_left s) as Ex0.
  { apply f_to_u32_max; [apply f_floor_finite, f_min3_finite; done | lia]. }
  assert (f_to_u32 x1 = box_right s) as Ex1.
  { apply f_to_u32_min; [apply f_ceil_finite, f_max3_finite; done | lia]. }
  assert (f_to_u32 y0 = Z.max (box_top s) rows.1) as Ey0.
  { unfold y0. rewrite !f_to_u32_max; [done | apply f_floor_finite, f_min3_finite; done | lia | | done].
    apply f_max_finite; [apply f_floor_finite, f_min3_finite; done | apply f_of_u_finite; lia]. }
  assert (f_to_u32 y1 = Z.min (box_bottom s) rows.2) as Ey1.
  { unfold y1. rewrite !f_to_u32_min; [done | apply f_ceil_finite, f_max3_finite; done | lia | | done].
    apply f_min_finite; [apply f_ceil_finite, f_max3_finite; done | apply f_of_u_finite; lia]. }
  destruct (f_lt x0 x1) eqn:Hx; cbn [andb].
  - destruct (f_lt y0 y1) eqn:Hy; [by rewrite Ex0, Ex1, Ey0, Ey1|].
    apply f_not_lt_to_u32 in Hy; [|done..]. rewrite Ey0, Ey1 in Hy. unfold box_pixels.
    replace (seqZ (Z.max (box_top s) rows.1) _) with (@nil Z) by (symmetry; apply seqZ_nil; lia). done.
  - apply f_not_lt_to_u32 in Hx; [|done..]. rewrite Ex0, Ex1 in Hx. unfold box_pixels.
    replace (seqZ (box_left s) _) with (@nil Z) by (symmetry; apply seqZ_nil; lia). cbn [map].
    by induction (seqZ _ _).
Qed.
End Triangles.

(** ** Bands *)

Section Draw.
Context {F : Type} `{F32Laws F} {M : Type} `{Nv2aLaws M}.
Context (target : RenderTarget) (state : PipelineState) (combiner : CombinerState F) (textures : list (option MemoryTexture)).
Implicit Types m : M.

Abbreviation Triangle := (Vertex F * Vertex F * Vertex F)%type.

(** A fragment to draw: its triangle, its column and its row. *)
Definition Job : Type := (Setup (F := F) * Z * Z)%type.

Definition run_job (acc : Z * M) (j : Job) : Z * M :=
  let '(hit, m) := draw_pixel acc.2 target state combiner j.1.1 j.1.2 j.2 in (acc.1 + bool_u hit, m).

Definition triangle_jobs (rows : Z * Z) (t : Triangle) : list Job :=
  match setup_triangle state textures t with
  | None => []
  | Some s => map (fun p => (s, p.1, p.2)) (triangle_pixels target s rows)
  end.

Definition band_jobs (rows : Z * Z) (triangles : list Triangle) : list Job := flat_map (triangle_jobs rows) triangles.

Lemma band_jobs_cons rows t l : band_jobs rows (t :: l) = triangle_jobs rows t ++ band_jobs rows l.
Proof. done. Qed.

(** As many pixels, and equivalent memories. *)
Definition same_result (a b : Z * M) : Prop := a.1 = b.1 /\ a.2 ≡ b.2.

#[export] Instance same_result_equivalence : Equivalence same_result.
Proof.
  split.
  - intros a. split; reflexivity.
  - intros a b [Hn Hm]. split; by symmetry.
  - intros a b c [Hn Hm] [Hn' Hm']. split; [by etransitivity|]. by transitivity b.2.
Qed.

Lemma run_jobs_count l : forall acc, foldl run_job acc l =
  (acc.1 + (foldl run_job (0, acc.2) l).1, (foldl run_job (0, acc.2) l).2).
Proof.
  induction l as [|j l IH]; intros [k m]; cbn [foldl fst snd]; [by rewrite Z.add_0_r|].
  rewrite (IH (run_job (k, m) j)), (IH (run_job (0, m) j)). unfold run_job. cbn [fst snd].
  destruct (draw_pixel _ _ _ _ _ _ _) as [hit m']. cbn [fst snd]. f_equal. lia.
Qed.

Lemma fill_triangle_jobs m t rows :
  fill_triangle_rows m target t textures state combiner rows = foldl run_job (0, m) (triangle_jobs rows t).
Proof.
  unfold fill_triangle_rows, triangle_jobs. destruct (setup_triangle _ _ _) as [s|]; [|done]. unfold fill_pixels.
  generalize (0, m). induction (triangle_pixels target s rows) as [|p l IH]; intros acc; [done|]. cbn [foldl map]. apply IH.
Qed.

Lemma one_band_jobs m triangles rows :
  one_band m target triangles textures state combiner rows = foldl run_job (0, m) (band_jobs rows triangles).
Proof.
  unfold one_band, band_jobs. generalize (0, m). induction triangles as [|t triangles IH]; intros acc; [done|].
  cbn [foldl flat_map]. rewrite foldl_app, IH. f_equal. rewrite fill_triangle_jobs, (run_jobs_count _ acc).
  by destruct (foldl run_job (0, acc.2) (triangle_jobs rows t)).
Qed.

(** *** Fragments of different rows commute *)

Context (Hapart : target_apart target).

Definition job_ok (j : Job) : Prop := setup_apart target j.1.1.

Lemma run_job_writes acc (j : Job) : run_job acc j =
  (acc.1 + bool_u (negb (bool_decide (pixel_writes target state combiner acc.2 j.1.1 j.1.2 j.2 = []))),
   apply_writes acc.2 (pixel_writes target state combiner acc.2 j.1.1 j.1.2 j.2)).
Proof. unfold run_job. by rewrite draw_pixel_writes. Qed.

Lemma equiv_alike (s : Setup (F := F)) x y m1 m2 : m1 ≡ m2 -> alike target s x y m1 m2.
Proof. intros Hm. split; [intros p _; by rewrite Hm|]. apply Forall_forall. intros [t|] _; [intros a _; by rewrite Hm | done]. Qed.

Lemma run_job_proper a b (j : Job) : same_result a b -> same_result (run_job a j) (run_job b j).
Proof.
  intros [Hn Hm]. rewrite !run_job_writes.
  rewrite (pixel_writes_alike target state combiner _ _ _ _ _ (equiv_alike j.1.1 j.1.2 j.2 _ _ Hm)), Hn.
  split; [done|]. by apply apply_writes_proper.
Qed.

(** The writes of one row's fragment leave what another row's looks at. *)
Lemma writes_alike m (i j : Job) : job_ok j -> i.2 <> j.2 ->
  alike target j.1.1 j.1.2 j.2 (apply_writes m (pixel_writes target state combiner m i.1.1 i.1.2 i.2)) m.
Proof.
  intros Hj Hrow. pose proof (pixel_writes_touch target state combiner m i.1.1 i.1.2 i.2) as Hw. split.
  - intros p Hp. apply apply_writes_other. eapply Forall_impl; [exact Hw|]. intros w Ht.
    exact (ta_rows target Hapart _ _ _ _ _ _ Hrow Ht Hp).
  - eapply Forall_impl; [exact Hj|]. intros [t|] Ht; [|done]. intros a Ha. apply apply_writes_other.
    eapply Forall_impl; [exact Hw|]. intros w Htouch. exact (Ht _ _ _ _ Htouch Ha).
Qed.

Lemma run_job_comm acc (i j : Job) : job_ok i -> job_ok j -> i.2 <> j.2 ->
  same_result (run_job (run_job acc i) j) (run_job (run_job acc j) i).
Proof.
  intros Hi Hj Hrow. rewrite (run_job_writes (run_job acc i)), (run_job_writes (run_job acc j)), !run_job_writes.
  cbn [fst snd].
  rewrite (pixel_writes_alike _ _ _ _ _ _ _ _ (writes_alike acc.2 i j Hj Hrow)).
  rewrite (pixel_writes_alike _ _ _ _ _ _ _ _ (writes_alike acc.2 j i Hi (not_eq_sym Hrow))).
  split; [cbn [fst]; lia|]. apply apply_writes_comm.
  eapply Forall_impl; [apply pixel_writes_touch|]. intros w Hw.
  eapply Forall_impl; [apply pixel_writes_touch|]. intros x Hx.
  exact (ta_rows target Hapart _ _ _ _ _ _ Hrow Hw Hx).
Qed.

(** *** Every band has the fragments of its rows *)

Context (Hsmall : target_small target).
Context (Htextures : Forall (fun texture => match texture with Some t => texture_apart target t | None => True end) textures).

Lemma triangle_jobs_ok rows t : Forall job_ok (triangle_jobs rows t).
Proof.
  unfold triangle_jobs. destruct (setup_triangle state textures t) as [s|] eqn:Hs; [|constructor].
  apply Forall_map, Forall_forall. intros p _. unfold job_ok, setup_apart. cbn [fst].
  apply setup_inv in Hs as (_ & _ & Hsamplers). clear -Hsamplers Htextures. revert Htextures.
  induction Hsamplers as [|texture sampler ts ss Heq Hl IH]; intros Ht; [constructor|].
  apply Forall_cons in Ht as [Ht Hts]. constructor; [|by apply IH]. destruct sampler; [|done]. by subst texture.
Qed.

Lemma band_jobs_ok rows triangles : Forall job_ok (band_jobs rows triangles).
Proof. induction triangles as [|t l IH]; [constructor|]. apply Forall_app. split; [apply triangle_jobs_ok | exact IH]. Qed.

Lemma filter_triangle_jobs rows t y : 0 <= rows.1 <= 2 ^ 24 -> 0 <= rows.2 <= 2 ^ 24 ->
  List.filter (fun j => j.2 =? y) (triangle_jobs rows t) =
  match setup_triangle state textures t with
  | None => []
  | Some s => if (Z.max (box_top target s) rows.1 <=? y) && (y <? Z.min (box_bottom target s) rows.2)
              then map (fun x => (s, x, y)) (seqZ (box_left target s) (box_right target s - box_left target s)) else []
  end.
Proof.
  intros Hr1 Hr2. unfold triangle_jobs. destruct (setup_triangle state textures t) as [s|] eqn:Hs; [|done].
  rewrite (triangle_pixels_box target state textures Hsmall t s rows Hs Hr1 Hr2).
  pose proof (filter_box (box_left target s) (box_right target s) (Z.max (box_top target s) rows.1)
    (Z.min (box_bottom target s) rows.2) y) as Hbox.
  assert (forall l : list (Z * Z), List.filter (fun j : Job => j.2 =? y) (map (fun p => (s, p.1, p.2)) l) =
    map (fun p => (s, p.1, p.2)) (List.filter (fun p => p.2 =? y) l)) as Hmap.
  { intros l. induction l as [|p l IH]; [done|]. cbn [map List.filter snd]. destruct (p.2 =? y); cbn [map]; by rewrite IH. }
  rewrite Hmap, Hbox. destruct (_ && _); [|done]. by rewrite map_map.
Qed.

Lemma filter_flat_map {A B} (p : B -> bool) (f : A -> list B) l :
  List.filter p (flat_map f l) = flat_map (fun a => List.filter p (f a)) l.
Proof. induction l as [|a l IH]; [done|]. cbn [flat_map]. by rewrite List.filter_app, IH. Qed.

(** A fragment of a band is in its rows. *)
Lemma band_jobs_rows rows triangles (j : Job) : 0 <= rows.1 <= 2 ^ 24 -> 0 <= rows.2 <= 2 ^ 24 ->
  j ∈ band_jobs rows triangles -> rows.1 <= j.2 < rows.2.
Proof.
  intros Hr1 Hr2 Hj. apply list_elem_of_In, in_flat_map in Hj as (t & _ & Hj).
  assert (In j (List.filter (fun i : Job => i.2 =? j.2) (triangle_jobs rows t))) as Hf
    by (apply filter_In; split; [done | apply Z.eqb_refl]).
  rewrite filter_triangle_jobs in Hf by done. destruct (setup_triangle _ _ _) as [s|]; [|done].
  destruct (_ && _) eqn:Hin; [|done]. apply andb_true_iff in Hin as [Hge%Z.leb_le Hlt%Z.ltb_lt]. lia.
Qed.

(** The rows of the draw, cut into bands of [each]. *)
Context (first last bands each : Z) (Hfirst : 0 <= first) (Hlast : last <= 2 ^ 24) (Hrows : first < last)
  (Hbands : 1 <= bands <= last - first) (Heach : each = div_ceil (last - first) bands).

Lemma each_bounds : 1 <= each /\ last - first <= each * bands /\ each * (bands - 1) <= last - first + bands /\ each <= last - first.
Proof.
  assert (1 <= each) as He by (rewrite Heach; apply Z.div_le_lower_bound; lia).
  pose proof (Z.div_mod (last - first + (bands - 1)) bands ltac:(lia)) as Hdiv.
  pose proof (Z.mod_pos_bound (last - first + (bands - 1)) bands ltac:(lia)) as Hmod.
  change ((last - first + (bands - 1)) / bands) with (div_ceil (last - first) bands) in Hdiv. rewrite <- Heach in Hdiv.
  assert (each <= last - first); [|split_and!; [done | lia | lia | done]].
  rewrite Heach. apply Z.div_le_upper_bound; [lia|]. nia.
Qed.

Lemma band_rows_exact k : 0 <= k < bands ->
  band_rows (first, last) each k = (Z.min (first + each * k) last, Z.min (first + each * (k + 1)) last).
Proof.
  intros Hk. pose proof each_bounds as (He1 & He2 & He3 & He4). unfold band_rows. cbn [fst snd].
  assert (0 <= each * k <= each * (bands - 1)) as Hek by (split; [lia | apply Z.mul_le_mono_nonneg_l; lia]).
  rewrite (wrap_small 32 (first + each * k)) by (unfold is_u; lia). rewrite wrap_small by (unfold is_u; lia).
  f_equal. f_equal. lia.
Qed.

(** The band of a row. *)
Lemma band_row_iff k y : 0 <= k < bands -> first <= y < last ->
  (band_rows (first, last) each k).1 <= y < (band_rows (first, last) each k).2 <-> k = (y - first) / each.
Proof.
  intros Hk Hy. rewrite band_rows_exact by done. cbn [fst snd]. pose proof each_bounds as (He1 & _).
  pose proof (Z.div_mod (y - first) each ltac:(lia)). pose proof (Z.mod_pos_bound (y - first) each ltac:(lia)).
  split; [intros Hin | intros ->]; [|nia]. assert (0 <= y - first - each * k < each) by nia.
  apply (Z.div_unique _ _ k (y - first - each * k)); [by left | lia].
Qed.

Lemma row_band y : first <= y < last -> 0 <= (y - first) / each < bands.
Proof.
  intros Hy. pose proof each_bounds as (He1 & He2 & _). split; [apply Z.div_pos; lia|].
  apply Z.div_lt_upper_bound; [lia|]. nia.
Qed.

(** No vertex is so low that one past its row wraps around. *)
Definition rows_fit (t : Triangle) : Prop :=
  Forall (fun y => f_is_finite y = true -> f_to_u32 (f_ceil y) < U32_MAX) (corner_ys t).

(** A triangle with a fragment in a row is given to the row's band. *)
Lemma reaches_row t s y : rows_fit t -> setup_triangle state textures t = Some s -> first <= y < last ->
  box_top target s <= y < box_bottom target s -> reaches_band (first, last) each ((y - first) / each) t = true.
Proof.
  intros Hfit Hs Hy Hbox. apply setup_inv in Hs as (([_ Ha] & [_ Hb] & [_ Hc]) & (Ea & Ebc) & _).
  assert (f_to_u32 (f_floor (f_min3 (sv_y t.1.1) (sv_y t.1.2) (sv_y t.2))) <= y) as Hlow.
  { unfold box_top in Hbox. rewrite Ea in Hbox. destruct Ebc as [[-> ->]|[-> ->]] in Hbox; [lia|].
    rewrite f_min3_swap in Hbox by done. lia. }
  assert (y < f_to_u32 (f_ceil (f_max3 (sv_y t.1.1) (sv_y t.1.2) (sv_y t.2)))) as Hhigh.
  { unfold box_bottom in Hbox. rewrite Ea in Hbox. destruct Ebc as [[-> ->]|[-> ->]] in Hbox; [lia|].
    rewrite f_max3_swap in Hbox by done. lia. }
  assert (f_to_u32 (f_ceil (f_max3 (sv_y t.1.1) (sv_y t.1.2) (sv_y t.2))) < U32_MAX) as Hmax.
  { apply Forall_cons in Hfit as [Fa Hfit]. apply Forall_cons in Hfit as [Fb Hfit]. apply Forall_cons in Hfit as [Fc _].
    destruct (f_max3_le _ _ _ Ha Hb Hc) as (_ & _ & _ & [-> |[-> | ->]]); auto. }
  pose proof (f_min3_finite _ _ _ Ha Hb Hc) as Flow. pose proof (f_max3_finite _ _ _ Ha Hb Hc) as Fhigh.
  unfold reaches_band.
  fold (f_min3 (sv_y t.1.1) (sv_y t.1.2) (sv_y t.2)) (f_max3 (sv_y t.1.1) (sv_y t.1.2) (sv_y t.2)).
  rewrite Flow, Fhigh. cbn [negb orb].
  assert (row_from (f_min3 (sv_y t.1.1) (sv_y t.1.2) (sv_y t.2)) <= y) as Htop.
  { unfold row_from, f_0. rewrite f_zero_is, f_to_u32_max by (by apply f_floor_finite || lia). lia. }
  assert (y < row_to (f_max3 (sv_y t.1.1) (sv_y t.1.2) (sv_y t.2))) as Hbottom.
  { unfold row_to, f_0. rewrite f_zero_is, f_to_u32_max by (by apply f_ceil_finite || lia).
    pose proof (f_to_u32_range (f_ceil (f_max3 (sv_y t.1.1) (sv_y t.1.2) (sv_y t.2)))) as Hr. unfold u32, is_u in Hr.
    unfold U32_MAX in Hmax. rewrite wrap_small by (unfold is_u; lia). lia. }
  pose proof each_bounds as (He1 & _). unfold band_of. rewrite !andb_true_iff, !Z.leb_le, Z.ltb_lt.
  split_and!; [lia | apply Z.div_le_mono; lia | apply Z.div_le_mono; lia].
Qed.

(** The fragments of one band: its rows, of the triangles given to it. *)
Definition band_share (triangles : list Triangle) (k : Z) : list Job :=
  band_jobs (band_rows (first, last) each k) (List.filter (reaches_band (first, last) each k) triangles).

Lemma band_rows_range k : 0 <= k < bands ->
  0 <= (band_rows (first, last) each k).1 <= 2 ^ 24 /\ 0 <= (band_rows (first, last) each k).2 <= 2 ^ 24 /\
  first <= (band_rows (first, last) each k).1 /\ (band_rows (first, last) each k).2 <= last.
Proof.
  intros Hk. rewrite band_rows_exact by done. cbn [fst snd]. pose proof each_bounds as (He1 & _).
  assert (0 <= each * k /\ 0 <= each * (k + 1)) as [? ?] by lia. lia.
Qed.

(** In a row of its own a band has every fragment of the draw, in order. *)
Lemma band_share_row triangles y : Forall rows_fit triangles -> first <= y < last ->
  List.filter (fun j : Job => j.2 =? y) (band_share triangles ((y - first) / each)) =
  List.filter (fun j : Job => j.2 =? y) (band_jobs (first, last) triangles).
Proof.
  intros Hfit Hy. pose proof (row_band y Hy) as Hk. set (k := (y - first) / each) in *.
  pose proof (proj2 (band_row_iff k y Hk Hy) eq_refl) as Hin. destruct (band_rows_range k Hk) as (Hr1 & Hr2 & _ & _).
  unfold band_share. induction Hfit as [|t l Ht Hl IH]; [done|].
  assert (List.filter (fun j : Job => j.2 =? y) (triangle_jobs (first, last) t) =
    if reaches_band (first, last) each k t
    then List.filter (fun j : Job => j.2 =? y) (triangle_jobs (band_rows (first, last) each k) t) else []) as Hone.
  { rewrite !filter_triangle_jobs by (cbn [fst snd]; lia). destruct (setup_triangle state textures t) as [s|] eqn:Hs;
      [|by destruct (reaches_band _ _ _ _)]. cbn [fst snd].
    destruct (reaches_band (first, last) each k t) eqn:Hreach.
    - by replace ((Z.max (box_top target s) first <=? y) && (y <? Z.min (box_bottom target s) last)) with
        ((Z.max (box_top target s) (band_rows (first, last) each k).1 <=? y) &&
         (y <? Z.min (box_bottom target s) (band_rows (first, last) each k).2)) by lia.
    - destruct (_ && _) eqn:Hbox; [|done]. apply andb_true_iff in Hbox as [Hge%Z.leb_le Hlt%Z.ltb_lt].
      unfold k in Hreach. rewrite (reaches_row t s y Ht Hs Hy) in Hreach by lia. done. }
  rewrite (band_jobs_cons (first, last)), List.filter_app, Hone, <- IH.
  change (List.filter (reaches_band (first, last) each k) (t :: l)) with
    (if reaches_band (first, last) each k t then t :: List.filter (reaches_band (first, last) each k) l
     else List.filter (reaches_band (first, last) each k) l).
  destruct (reaches_band (first, last) each k t); [|done]. by rewrite band_jobs_cons, List.filter_app.
Qed.

Lemma share_lookup triangles (i : nat) lk : map (band_share triangles) (seqZ 0 bands) !! i = Some lk ->
  lk = band_share triangles (Z.of_nat i) /\ 0 <= Z.of_nat i < bands.
Proof.
  rewrite list_lookup_fmap. intros (k & Hk & ->)%fmap_Some. apply lookup_seqZ in Hk as [-> Hi]. split; [done | lia].
Qed.

Lemma share_row_in triangles k (j : Job) : 0 <= k < bands -> j ∈ band_share triangles k ->
  first <= j.2 < last /\ k = (j.2 - first) / each.
Proof.
  intros Hk Hj. destruct (band_rows_range k Hk) as (Hr1 & Hr2 & Hf & Hl).
  apply band_jobs_rows in Hj; [|done..]. assert (first <= j.2 < last) as Hrow by lia. split; [done|].
  by apply band_row_iff.
Qed.

(** However the bands run, what is left is what one processor leaves. *)
Lemma bands_run_as_one m triangles l : Forall rows_fit triangles ->
  interleaving (map (band_share triangles) (seqZ 0 bands)) l ->
  same_result (foldl run_job (0, m) l) (one_band m target triangles textures state combiner (first, last)).
Proof.
  intros Hfit Hl. rewrite one_band_jobs.
  apply (run_projections run_job same_result snd job_ok run_job_proper run_job_comm); [| apply band_jobs_ok |].
  - apply Forall_forall. intros j Hj. apply (interleaving_elem _ _ _ Hl) in Hj as (i & lk & Hi & Hj).
    apply share_lookup in Hi as [-> _]. exact (proj1 (Forall_forall _ _) (band_jobs_ok _ _) j Hj).
  - intros y. destruct (decide (first <= y < last)) as [Hy|Hy].
    + pose proof (row_band y Hy) as Hk.
      rewrite (interleaving_filter (fun j : Job => j.2 =? y) (Z.to_nat ((y - first) / each)) _ _ Hl).
      * rewrite list_lookup_fmap, lookup_seqZ_lt by lia. cbn [fmap option_fmap option_map default].
        replace (0 + Z.of_nat (Z.to_nat ((y - first) / each))) with ((y - first) / each) by lia.
        by apply band_share_row.
      * intros i lk j Hi Hj Hrow%Z.eqb_eq. apply share_lookup in Hi as [-> Hi].
        apply share_row_in in Hj as [_ Hj]; [|done]. rewrite Hrow in Hj. lia.
    + assert (forall l', (forall j : Job, j ∈ l' -> first <= j.2 < last) -> List.filter (fun j => j.2 =? y) l' = []) as Hnone.
      { intros l' Hall. induction l' as [|j l' IH]; [done|]. cbn [List.filter].
        pose proof (Hall j ltac:(apply list_elem_of_here)). rewrite (proj2 (Z.eqb_neq j.2 y)) by lia.
        apply IH. intros i Hi. by apply Hall, list_elem_of_further. }
      rewrite !Hnone; [done | |].
      * intros j Hj. apply (band_jobs_rows (first, last) triangles j); cbn [fst snd]; [lia | lia | done].
      * intros j Hj. apply (interleaving_elem _ _ _ Hl) in Hj as (i & lk & Hi & Hj).
        apply share_lookup in Hi as [-> Hi]. by apply share_row_in in Hj as [Hj _].
Qed.

(** One band after the other. *)
Lemma bands_in_order m triangles ks :
  foldl (fun acc k =>
    let own := List.filter (reaches_band (first, last) each k) triangles in
    let '(n, m) := one_band acc.2 target own textures state combiner (band_rows (first, last) each k) in
    (acc.1 + n, m)) (0, m) ks = foldl run_job (0, m) (concat (map (band_share triangles) ks)).
Proof.
  generalize (0, m). induction ks as [|k ks IH]; intros acc; [done|]. cbn [foldl map concat].
  rewrite foldl_app, IH. f_equal. cbn zeta. rewrite one_band_jobs, (run_jobs_count _ acc).
  by destruct (foldl run_job (0, acc.2) _).
Qed.
End Draw.

(** ** Surfaces that are apart *)

(** A row of each surface holds its clipped pixels, and the surfaces do not
    overlap. *)
Definition surfaces_fit (t : RenderTarget) : bool :=
  (0 <=? rt_base t) && (4 * (rt_clip_x t + rt_width t) <=? rt_pitch t) &&
  match rt_zeta t with
  | None => true
  | Some zeta =>
    (0 <=? zeta) && (4 * (rt_clip_x t + rt_width t) <=? rt_zeta_pitch t) &&
    ((rt_base t + (rt_clip_y t + rt_height t) * rt_pitch t <=? zeta) ||
     (zeta + (rt_clip_y t + rt_height t) * rt_zeta_pitch t <=? rt_base t))
  end.

(** The bytes a texture's dwords are read from are outside both surfaces. *)
Definition texture_clear (t : RenderTarget) (texture : option MemoryTexture) : bool :=
  match texture with
  | None => true
  | Some x =>
    let clear base pitch :=
      (tx_end x + 3 <=? base) || (base + (rt_clip_y t + rt_height t) * pitch <=? tx_base x) in
    clear (rt_base t) (rt_pitch t) && match rt_zeta t with None => true | Some zeta => clear zeta (rt_zeta_pitch t) end
  end.

Section Surfaces.
Context (t : RenderTarget) (Hsmall : target_small t).

Lemma pixel_address_in x y p : pixel_address t x y = Some p ->
  0 <= x < rt_clip_x t + rt_width t /\ 0 <= y < rt_clip_y t + rt_height t /\ p = rt_base t + y * rt_pitch t + x * 4.
Proof using Hsmall.
  destruct Hsmall. unfold pixel_address, saturating_add. destruct (_ || _) eqn:Hclip; [done|].
  intros (line & Hl & (start & Hs & (column & Hc & Hp)%bind_Some)%bind_Some)%bind_Some.
  unfold checked_mul, checked_add in *. repeat case_match; simplify_eq. rewrite !orb_false_iff in Hclip. lia.
Qed.

Lemma depth_address_in x y p : depth_address t x y = Some p ->
  exists zeta, rt_zeta t = Some zeta /\ p = zeta + y * rt_zeta_pitch t + x * 4.
Proof using Type.
  unfold depth_address.
  intros (zeta & Hz & (line & Hl & (start & Hs & (column & Hc & Hp)%bind_Some)%bind_Some)%bind_Some)%bind_Some.
  unfold checked_mul, checked_add in *. repeat case_match; simplify_eq. by exists zeta.
Qed.

(** Where a fragment's two dwords are. *)
Lemma touches_in x y p : touches t x y p ->
  0 <= x < rt_clip_x t + rt_width t /\ 0 <= y < rt_clip_y t + rt_height t /\
  (p = rt_base t + y * rt_pitch t + x * 4 \/
   exists zeta, rt_zeta t = Some zeta /\ p = zeta + y * rt_zeta_pitch t + x * 4).
Proof using Hsmall.
  intros [[q Hq] Hp]. apply pixel_address_in in Hq as (Hx & Hy & _). split; [done|]. split; [done|].
  destruct Hp as [Hp|Hp]; [left; by apply pixel_address_in in Hp as (_ & _ & ?) | right; by apply depth_address_in].
Qed.

(** Where a dword of a row lies in its surface. *)
Lemma row_apart (base pitch right x1 y1 x2 y2 : Z) : 4 * right <= pitch -> 0 <= x1 < right -> 0 <= x2 < right ->
  y1 <> y2 -> apart (base + y1 * pitch + x1 * 4) (base + y2 * pitch + x2 * 4).
Proof using Type.
  intros Hp H1 H2 Hne. unfold apart. destruct (Z.lt_total y1 y2) as [Hlt|[->|Hlt]]; [left | done | right].
  - assert ((y1 + 1) * pitch <= y2 * pitch) by (apply Z.mul_le_mono_nonneg_r; lia). lia.
  - assert ((y2 + 1) * pitch <= y1 * pitch) by (apply Z.mul_le_mono_nonneg_r; lia). lia.
Qed.

Lemma row_inside (base pitch right bottom x y : Z) : 4 * right <= pitch -> 0 <= x < right -> 0 <= y < bottom ->
  base <= base + y * pitch + x * 4 /\ base + y * pitch + x * 4 + 4 <= base + bottom * pitch.
Proof using Type.
  intros Hp Hx Hy. assert ((y + 1) * pitch <= bottom * pitch) by (apply Z.mul_le_mono_nonneg_r; lia).
  assert (0 <= y * pitch) by (apply Z.mul_nonneg_nonneg; lia). lia.
Qed.

Lemma surfaces_apart : surfaces_fit t = true -> target_apart t.
Proof using Hsmall.
  unfold surfaces_fit. rewrite !andb_true_iff, !Z.leb_le. intros [[Hb Hp] Hz].
  assert (forall x1 y1 x2 y2 zeta, 0 <= x1 < rt_clip_x t + rt_width t -> 0 <= y1 < rt_clip_y t + rt_height t ->
    0 <= x2 < rt_clip_x t + rt_width t -> 0 <= y2 < rt_clip_y t + rt_height t -> rt_zeta t = Some zeta ->
    apart (rt_base t + y1 * rt_pitch t + x1 * 4) (zeta + y2 * rt_zeta_pitch t + x2 * 4)) as Hcross.
  { intros x1 y1 x2 y2 zeta Hx1 Hy1 Hx2 Hy2 E. rewrite E, !andb_true_iff, orb_true_iff, !Z.leb_le in Hz.
    destruct Hz as [[_ Hzp] Hz].
    pose proof (row_inside (rt_base t) _ _ _ _ _ Hp Hx1 Hy1). pose proof (row_inside zeta _ _ _ _ _ Hzp Hx2 Hy2).
    unfold apart. lia. }
  constructor.
  - intros x1 y1 x2 y2 p q Hne (Hx1 & Hy1 & Hp1)%touches_in (Hx2 & Hy2 & Hp2)%touches_in.
    destruct Hp1 as [-> |(z1 & E1 & ->)], Hp2 as [-> |(z2 & E2 & ->)].
    + by eapply row_apart.
    + by apply Hcross.
    + apply or_comm. by apply Hcross.
    + rewrite E1 in E2. injection E2 as <-. rewrite E1, !andb_true_iff, !Z.leb_le in Hz. destruct Hz as [[_ Hzp] _]. by eapply row_apart.
  - intros x y p q (Hx & Hy & ->)%pixel_address_in (zeta & E & ->)%depth_address_in. by apply Hcross.
Qed.

Lemma texture_outside texture : surfaces_fit t = true -> texture_clear t (Some texture) = true -> texture_apart t texture.
Proof using Hsmall.
  unfold surfaces_fit, texture_clear. rewrite !andb_true_iff, !orb_true_iff, !Z.leb_le. intros [[Hb Hp] Hz] [Hc Hd].
  intros x y p a (Hx & Hy & [-> |(zeta & E & ->)])%touches_in Ha; unfold apart.
  - pose proof (row_inside (rt_base t) _ _ _ _ _ Hp Hx Hy). lia.
  - rewrite E, !andb_true_iff, !Z.leb_le in Hz. rewrite E, orb_true_iff, !Z.leb_le in Hd. destruct Hz as [[_ Hzp] _].
    pose proof (row_inside zeta _ _ _ _ _ Hzp Hx Hy). lia.
Qed.

Lemma textures_outside textures : surfaces_fit t = true -> Forall (fun x => texture_clear t x = true) textures ->
  Forall (fun texture => match texture with Some x => texture_apart t x | None => True end) textures.
Proof using Hsmall. intros Hfit Ht. eapply Forall_impl; [exact Ht|]. intros [x|] Hx; [by apply texture_outside | done]. Qed.
End Surfaces.

(** ** Draws *)

Section Hosts.
Context {F : Type} `{F32Laws F} {M : Type} `{Nv2aLaws M}.
Context (target : RenderTarget) (state : PipelineState) (combiner : CombinerState F) (textures : list (option MemoryTexture)).
Context (Hsmall : target_small target) (Hfit : surfaces_fit target = true).
Context (Htextures : Forall (fun x => texture_clear target x = true) textures).
Implicit Types m : M.

Lemma draw_rows_range (triangles : list (Vertex F * Vertex F * Vertex F)) :
  0 <= (draw_rows target triangles).1 /\ (draw_rows target triangles).2 <= 2 ^ 24.
Proof using H0 Hsmall.
  destruct Hsmall. unfold draw_rows. destruct (foldl _ _ _) as [a b]. cbn [fst snd].
  rewrite wrap_small by (unfold is_u; lia). lia.
Qed.

Lemma draw_bands_range `{HostThreads} height covered : 1 <= height -> 1 <= draw_bands height covered <= height.
Proof using Type. intros Hh. unfold draw_bands. destruct (_ || _) eqn:Hone; [lia|]. apply orb_false_iff in Hone as [Hone _]. lia. Qed.

(** The divided draw, on any host, is the draw of one range of rows. *)
Lemma rasterize_as_one `{HostThreads} m triangles : Forall (rows_fit (F := F)) triangles ->
  (draw_rows target triangles).1 < (draw_rows target triangles).2 ->
  same_result (rasterize_triangles m target triangles textures state combiner)
    (one_band m target triangles textures state combiner (draw_rows target triangles)).
Proof using H0 H3 Hsmall Hfit Htextures.
  intros Hrows Hlt. pose proof (draw_rows_range triangles) as [H01 H02]. unfold rasterize_triangles.
  destruct (draw_rows target triangles) as [first last]. cbn [fst snd] in *. rewrite (proj2 (Z.leb_gt last first)) by lia.
  pose proof (draw_bands_range (last - first) (draw_covered triangles) ltac:(lia)) as Hbands.
  destruct (Z.eqb_spec (draw_bands (last - first) (draw_covered triangles)) 1); [reflexivity|].
  rewrite bands_in_order. eapply bands_run_as_one; try done.
  - by apply surfaces_apart.
  - by apply textures_outside.
  - apply interleaving_concat.
Qed.
End Hosts.

(** C20: Bands may be drawn at once.  Cut the rows of a draw into any number of
    bands and hand each the triangles that reach it: every interleaving of the
    bands' fragments, each read and written in memory as it comes, colours as
    many pixels and leaves the memory that one processor drawing every
    triangle over all the rows leaves, as long as the target is within 2^24
    rows and columns, the rows of the surfaces do not overlap, no bound texture
    is inside them, and no vertex is at row 2^32 - 1 or below it. *)
Theorem bands_interleave {F} `{F32Laws F} {M} `{Nv2aLaws M} (m : M) (target : RenderTarget)
    (triangles : list (Vertex F * Vertex F * Vertex F)) (textures : list (option MemoryTexture)) (state : PipelineState)
    (combiner : CombinerState F) (bands : Z) (l : list Job) :
  target_small target -> surfaces_fit target = true -> Forall (fun x => texture_clear target x = true) textures ->
  Forall rows_fit triangles -> let rows := draw_rows target triangles in
  rows.1 < rows.2 -> 1 <= bands <= rows.2 - rows.1 ->
  interleaving (map (band_share target state textures rows.1 rows.2 (div_ceil (rows.2 - rows.1) bands) triangles)
    (seqZ 0 bands)) l ->
  same_result (foldl (run_job target state combiner) (0, m) l)
    (one_band m target triangles textures state combiner rows).
Proof.
  intros Hsmall Hfit Htextures Hrows rows Hlt Hbands Hl. pose proof (draw_rows_range target Hsmall triangles) as [H01 H02].
  fold rows in H01, H02. destruct rows as [first last]. cbn [fst snd] in *.
  eapply bands_run_as_one; try done.
  - by apply surfaces_apart.
  - by apply textures_outside.
Qed.

(** C21: The frame does not depend on the host.  Whatever two hosts report as
    their processors, a draw colours as many pixels on both and leaves the same
    memory, under the same conditions: a target within 2^24 rows and columns,
    surface rows that do not overlap, no bound texture inside them, and no
    vertex at row 2^32 - 1 or below it ([low_vertex_drops_rows] is a draw that
    has one). *)
Theorem draw_any_host {F} `{F32Laws F} {M} `{Nv2aLaws M} (one other : HostThreads) (m : M) (target : RenderTarget)
    (vertices : list (Vertex F)) (triangles : list (nat * nat * nat)) (textures : list (option MemoryTexture))
    (state : PipelineState) (combiner : CombinerState F) :
  target_small target -> surfaces_fit target = true -> Forall (fun x => texture_clear target x = true) textures ->
  Forall rows_fit (map (corners_of vertices) triangles) ->
  same_result (@rasterize_draw_of F _ M _ one m target vertices triangles textures state combiner)
    (@rasterize_draw_of F _ M _ other m target vertices triangles textures state combiner).
Proof.
  intros Hsmall Hfit Htextures Hrows. unfold rasterize_draw_of. set (ts := map (corners_of vertices) triangles) in *.
  destruct (decide ((draw_rows target ts).1 < (draw_rows target ts).2)) as [Hlt|Hlt].
  - etransitivity; [|symmetry]; by apply rasterize_as_one.
  - unfold rasterize_triangles. destruct (draw_rows target ts) as [first last]. cbn [fst snd] in Hlt.
    by rewrite (proj2 (Z.leb_le last first)) by lia.
Qed.

(** A square of two pixels by two with a depth surface behind it, in a RAM of
    128 bytes, and a triangle over it. *)
Definition demo_surface : RenderTarget := mkRenderTarget 0 8 0 0 2 2 (Some 64) 8.
Definition demo_ram : Ram := mkRam (mkPhysicalMemory ∅ 128) (conj eq_refl (map_Forall_empty _)).
Definition demo_pipeline : PipelineState :=
  mkPipelineState false (mkBlendState false 1 0) (mkDepthState false true 0x207) (mkCullState false 0 0) (mkAlphaTest false 0x207 0).
Definition demo_combiner : CombinerState Z := mkCombinerState [] 0 0 0 0 [] [].
Definition demo_corner (x y color : Z) : Vertex Z := mkVertex (x * 2 ^ 16) (y * 2 ^ 16) color [] (5 * 2 ^ 16) (2 ^ 16).
Definition demo_triangle (side : Z) : Vertex Z * Vertex Z * Vertex Z :=
  (demo_corner 0 0 0xFF102030, demo_corner side 0 0xFF102030, demo_corner 0 side 0xFF102030).

(** Two bands of one row each, the second a fragment ahead. *)
Definition demo_setup : Setup (F := Z) :=
  default (mkSetup vertex_zero vertex_zero vertex_zero 0 []) (setup_triangle demo_pipeline [] (demo_triangle 4)).
Definition demo_order : list Job :=
  [(demo_setup, 0, 1); (demo_setup, 0, 0); (demo_setup, 1, 1); (demo_setup, 1, 0)].

Lemma demo_small : target_small demo_surface.
Proof. constructor; cbn; lia. Qed.

Lemma demo_rows side : 0 <= side < 2 ^ 16 -> rows_fit (demo_triangle side).
Proof.
  intros Hs. unfold rows_fit. repeat constructor; intros _; cbn -[Z.pow]; unfold fixed_to, U32_MAX; try lia.
  replace (- - (- (side * 2 ^ 16) / 2 ^ 16 * 2 ^ 16)) with (- (side * 2 ^ 16)) by dlia. dlia.
Qed.

Lemma bands_interleave_witness :
  (foldl (run_job demo_surface demo_pipeline demo_combiner) (0, demo_ram) demo_order).1 = 4 /\
  same_result (foldl (run_job demo_surface demo_pipeline demo_combiner) (0, demo_ram) demo_order)
    (one_band demo_ram demo_surface [demo_triangle 4] [] demo_pipeline demo_combiner (0, 2)).
Proof.
  split; [by vm_compute|].
  assert (draw_rows demo_surface [demo_triangle 4] = (0, 2)) as Hrows by by vm_compute.
  rewrite <- Hrows. apply (bands_interleave demo_ram demo_surface [demo_triangle 4] [] demo_pipeline demo_combiner 2).
  - exact demo_small.
  - by vm_compute.
  - constructor.
  - constructor; [apply demo_rows; lia | constructor].
  - by rewrite Hrows.
  - rewrite Hrows. cbn. lia.
  - rewrite Hrows.
    assert (map (band_share demo_surface demo_pipeline [] 0 2 1 [demo_triangle 4]) (seqZ 0 2) =
      [[(demo_setup, 0, 0); (demo_setup, 1, 0)]; [(demo_setup, 0, 1); (demo_setup, 1, 1)]]) as E by by vm_compute.
    change (div_ceil ((0, 2).2 - (0, 2).1) 2) with 1. cbn [fst snd]. rewrite E. unfold demo_order.
    apply (interleaving_step _ 1 _ [(demo_setup, 1, 1)]); [done|].
    apply (interleaving_step _ 0 _ [(demo_setup, 1, 0)]); [done|].
    apply (interleaving_step _ 1 _ []); [done|]. apply (interleaving_step _ 0 _ []); [done|].
    constructor. by repeat constructor.
Defined.

(** A triangle of 8192 pixels: four bands on a host of four, one on a host of
    one. *)
Lemma draw_any_host_witness :
  let target := mkRenderTarget 0 512 0 0 128 128 (Some 0x10000) 512 in
  let corners := [demo_corner 0 0 0xFF102030; demo_corner 128 0 0xFF102030; demo_corner 0 128 0xFF102030] in
  @draw_bands 4 128 (draw_covered (map (corners_of corners) [(0, 1, 2)%nat])) = 4 /\
  @draw_bands 1 128 (draw_covered (map (corners_of corners) [(0, 1, 2)%nat])) = 1 /\
  same_result (@rasterize_draw_of Z _ Ram _ 4 demo_ram target corners [(0, 1, 2)%nat] [] demo_pipeline demo_combiner)
    (@rasterize_draw_of Z _ Ram _ 1 demo_ram target corners [(0, 1, 2)%nat] [] demo_pipeline demo_combiner).
Proof.
  intros target corners. split; [by vm_compute|]. split; [by vm_compute|].
  apply (draw_any_host 4 1 demo_ram target corners [(0, 1, 2)%nat] [] demo_pipeline demo_combiner).
  - constructor; cbn; lia.
  - by vm_compute.
  - constructor.
  - constructor; [apply (demo_rows 128); lia | constructor].
Defined.

(** ** A vertex too low

    One past the row of a vertex at [2 ^ 33] wraps around to zero, so no band
    is given its triangle; a host with one processor has no bands and draws
    it. *)
Theorem low_vertex_drops_rows :
  let target := mkRenderTarget 0 64 0 0 16 16 None 0 in
  let corners := [demo_corner 0 0 0xFF102030; demo_corner 16 8 0xFF102030; demo_corner 0 (2 ^ 33) 0xFF102030] in
  let draw (host : HostThreads) :=
    (@rasterize_draw_of Z _ Ram _ host demo_ram target corners [(0, 1, 2)%nat] [] demo_pipeline demo_combiner).1 in
  target_small target /\ surfaces_fit target = true /\ draw 4 = 0 /\ 0 < draw 1.
Proof.
  intros target corners draw. split; [constructor; cbn; lia|]. split; [done|]. split; by vm_compute.
Qed.
