(* ===== verification/Pushbuffer.v ===== *)
(** * The pushbuffer engine

    Models the front end of [exbawks-gpu/src/nv2a.rs]: the walk over a
    submitted range of commands, the methods it applies to a channel's state,
    object handles resolved through the hash table of instance memory, clears,
    semaphores, and the drawing of a primitive up to the rasteriser.  The
    vertex stage and the rasteriser compute in floating point and are the
    operations of a class.

    An index outside its array is a panic in the source and [None] here; that
    it never happens is a theorem ([PushbufferSafety]).  The census of
    combiner programs and the record of the busiest draw are only printed and
    are left out. *)

From S2P Require Import Prelude GuestTypes ExecOps GpuMemory Textures GpuState.

Local Open Scope Z_scope.

(** ** Constants *)

Definition MAX_CENSUS_ENTRIES : Z := 4096.
Definition MAX_SURFACE_DIMENSION : Z := 4096.
Definition PRESENTABLE_WIDTH : Z := 512.
Definition MAX_INLINE_DWORDS : Z := 2 ^ 20.
Definition MAX_DWORDS_PER_SUBMIT : Z := 4 * 1024 * 1024.
Definition METHOD_SET_OBJECT : Z := 0x0000.
Definition METHOD_SET_CONTEXT_DMA_COLOR : Z := 0x0190.
Definition METHOD_SET_CONTEXT_DMA_SEMAPHORE : Z := 0x01A4.
Definition METHOD_SET_SURFACE_CLIP_HORIZONTAL : Z := 0x0200.
Definition METHOD_SET_SURFACE_CLIP_VERTICAL : Z := 0x0204.
Definition METHOD_SET_SURFACE_PITCH : Z := 0x020C.
Definition METHOD_SET_SURFACE_COLOR_OFFSET : Z := 0x0210.
Definition METHOD_SET_ZSTENCIL_CLEAR_VALUE : Z := 0x1D8C.
Definition METHOD_SET_COLOR_CLEAR_VALUE : Z := 0x1D90.
Definition CLEAR_DEPTH_MASK : Z := 0x03.
Definition METHOD_CLEAR_SURFACE : Z := 0x1D94.
Definition METHOD_SET_CLEAR_RECT_HORIZONTAL : Z := 0x1D98.
Definition METHOD_SET_CLEAR_RECT_VERTICAL : Z := 0x1D9C.
Definition CLEAR_COLOR_MASK : Z := 0xF0.
Definition METHOD_SET_VIEWPORT_OFFSET : Z := 0x0A20.
Definition METHOD_SET_VIEWPORT_SCALE : Z := 0x0AF0.
Definition METHOD_SET_BEGIN_END : Z := 0x17FC.
Definition METHOD_INLINE_ARRAY : Z := 0x1818.
Definition METHOD_SET_VERTEX_DATA_ARRAY_FORMAT : Z := 0x1760.
Definition METHOD_SET_COMPOSITE_MATRIX : Z := 0x0680.
Definition COMPOSITE_MATRIX_LAST : Z := 0x06BC.
Definition METHOD_SET_VERTEX_DATA_ARRAY_OFFSET : Z := 0x1720.
Definition VERTEX_ARRAY_OFFSET_LAST : Z := 0x175C.
Definition METHOD_ARRAY_ELEMENT16 : Z := 0x1800.
Definition METHOD_ARRAY_ELEMENT32 : Z := 0x1808.
Definition METHOD_SET_CONTEXT_DMA_VERTEX_A : Z := 0x019C.
Definition METHOD_SET_CONTEXT_DMA_VERTEX_B : Z := 0x01A0.
Definition MAX_ELEMENTS : Z := 2 ^ 18.
Definition VIEWPORT_OFFSET_LAST : Z := METHOD_SET_VIEWPORT_OFFSET + 12.
Definition VIEWPORT_SCALE_LAST : Z := METHOD_SET_VIEWPORT_SCALE + 12.
Definition VERTEX_FORMAT_LAST : Z := METHOD_SET_VERTEX_DATA_ARRAY_FORMAT + 15 * 4.
Definition TRANSFORM_PROGRAM_SLOTS : Z := 136.
Definition TRANSFORM_CONSTANT_SLOTS : Z := 192.
Definition METHOD_SET_TRANSFORM_PROGRAM : Z := 0x0B00.
Definition TRANSFORM_PROGRAM_LAST : Z := 0x0B7C.
Definition METHOD_SET_TRANSFORM_CONSTANT : Z := 0x0B80.
Definition TRANSFORM_CONSTANT_LAST : Z := 0x0BFC.
Definition METHOD_SET_TRANSFORM_EXECUTION_MODE : Z := 0x1E94.
Definition METHOD_SET_TRANSFORM_PROGRAM_LOAD : Z := 0x1E9C.
Definition METHOD_SET_TRANSFORM_PROGRAM_START : Z := 0x1EA0.
Definition METHOD_SET_TRANSFORM_CONSTANT_LOAD : Z := 0x1EA4.
Definition TRANSFORM_MODE_PROGRAM : Z := 2.
Definition METHOD_SET_BLEND_ENABLE : Z := 0x0304.
Definition METHOD_SET_ALPHA_TEST_ENABLE : Z := 0x0300.
Definition METHOD_SET_COMBINER_ALPHA_ICW : Z := 0x0260.
Definition METHOD_SET_COMBINER_FINAL0 : Z := 0x0288.
Definition METHOD_SET_COMBINER_FINAL1 : Z := 0x028C.
Definition METHOD_SET_COMBINER_FACTOR0 : Z := 0x0A60.
Definition METHOD_SET_COMBINER_FACTOR1 : Z := 0x0A80.
Definition METHOD_SET_COMBINER_ALPHA_OCW : Z := 0x0AA0.
Definition METHOD_SET_COMBINER_COLOR_ICW : Z := 0x0AC0.
Definition METHOD_SET_COMBINER_COLOR_OCW : Z := 0x1E40.
Definition METHOD_SET_COMBINER_CONTROL : Z := 0x1E60.
Definition METHOD_SET_COMBINER_ALPHA_ICW_END : Z := METHOD_SET_COMBINER_ALPHA_ICW + 8 * 4.
Definition METHOD_SET_COMBINER_FACTOR0_END : Z := METHOD_SET_COMBINER_FACTOR0 + 8 * 4.
Definition METHOD_SET_COMBINER_FACTOR1_END : Z := METHOD_SET_COMBINER_FACTOR1 + 8 * 4.
Definition METHOD_SET_COMBINER_ALPHA_OCW_END : Z := METHOD_SET_COMBINER_ALPHA_OCW + 8 * 4.
Definition METHOD_SET_COMBINER_COLOR_ICW_END : Z := METHOD_SET_COMBINER_COLOR_ICW + 8 * 4.
Definition METHOD_SET_COMBINER_COLOR_OCW_END : Z := METHOD_SET_COMBINER_COLOR_OCW + 8 * 4.
Definition METHOD_SET_ALPHA_FUNC : Z := 0x033C.
Definition METHOD_SET_ALPHA_REF : Z := 0x0340.
Definition METHOD_SET_BLEND_FUNC_SFACTOR : Z := 0x0344.
Definition METHOD_SET_BLEND_FUNC_DFACTOR : Z := 0x0348.
Definition METHOD_SET_CULL_FACE_ENABLE : Z := 0x0308.
Definition METHOD_SET_CULL_FACE : Z := 0x039C.
Definition METHOD_SET_FRONT_FACE : Z := 0x03A0.
Definition METHOD_SET_DEPTH_TEST_ENABLE : Z := 0x030C.
Definition METHOD_SET_DEPTH_FUNC : Z := 0x0354.
Definition METHOD_SET_DEPTH_MASK : Z := 0x035C.
Definition METHOD_SET_SURFACE_ZETA_OFFSET : Z := 0x0214.
Definition METHOD_SET_LIGHTING_ENABLE : Z := 0x0314.
Definition METHOD_SET_MATERIAL_EMISSION : Z := 0x03A8.
Definition METHOD_SET_LIGHT_ENABLE_MASK : Z := 0x03BC.
Definition METHOD_SET_SCENE_AMBIENT_COLOR : Z := 0x0A10.
Definition METHOD_SET_LIGHT_AMBIENT_COLOR : Z := 0x1000.
Definition METHOD_SET_LIGHT_DIFFUSE_COLOR : Z := 0x100C.
Definition METHOD_SET_LIGHT_INFINITE_DIRECTION : Z := 0x1034.
Definition METHOD_SET_MATERIAL_EMISSION_LAST : Z := METHOD_SET_MATERIAL_EMISSION + 8.
Definition METHOD_SET_SCENE_AMBIENT_COLOR_LAST : Z := METHOD_SET_SCENE_AMBIENT_COLOR + 8.
Definition METHOD_SET_LIGHT_AMBIENT_COLOR_LAST : Z := METHOD_SET_LIGHT_AMBIENT_COLOR + 8.
Definition METHOD_SET_LIGHT_DIFFUSE_COLOR_LAST : Z := METHOD_SET_LIGHT_DIFFUSE_COLOR + 8.
Definition METHOD_SET_LIGHT_INFINITE_DIRECTION_LAST : Z := METHOD_SET_LIGHT_INFINITE_DIRECTION + 8.
Definition METHOD_SET_MODEL_VIEW_MATRIX : Z := 0x0480.
Definition MODEL_VIEW_MATRIX_LAST : Z := 0x04BC.
Definition METHOD_SET_INVERSE_MODEL_VIEW_MATRIX : Z := 0x0580.
Definition INVERSE_MODEL_VIEW_MATRIX_LAST : Z := 0x05BC.
Definition METHOD_SET_TEXGEN : Z := 0x03C0.
Definition METHOD_SET_TEXGEN_END : Z := METHOD_SET_TEXGEN + 4 * 16.
Definition METHOD_SET_TEXTURE_MATRIX_ENABLE : Z := 0x0420.
Definition METHOD_SET_TEXTURE_MATRIX_ENABLE_END : Z := METHOD_SET_TEXTURE_MATRIX_ENABLE + 4 * 4.
Definition METHOD_SET_TEXTURE_MATRIX : Z := 0x06C0.
Definition METHOD_SET_TEXTURE_MATRIX_END : Z := METHOD_SET_TEXTURE_MATRIX + 4 * 64.
Definition METHOD_SET_VERTEX_DATA2F : Z := 0x1880.
Definition METHOD_SET_VERTEX_DATA2F_END : Z := METHOD_SET_VERTEX_DATA2F + 16 * 8.
Definition METHOD_SET_VERTEX_DATA4UB : Z := 0x1940.
Definition METHOD_SET_VERTEX_DATA4UB_END : Z := METHOD_SET_VERTEX_DATA4UB + 16 * 4.
Definition METHOD_SET_VERTEX_DATA4F : Z := 0x1A00.
Definition METHOD_SET_VERTEX_DATA4F_END : Z := METHOD_SET_VERTEX_DATA4F + 16 * 16.
Definition TEXTURE_UNITS : Z := 4.
Definition TEXTURE_UNIT_STRIDE : Z := 0x40.
Definition METHOD_SET_TEXTURE_END : Z := 0x1B00 + TEXTURE_UNIT_STRIDE * TEXTURE_UNITS.
Definition METHOD_SET_TEXTURE_OFFSET : Z := 0x1B00.
Definition METHOD_SET_TEXTURE_FORMAT : Z := 0x1B04.
Definition METHOD_SET_TEXTURE_FILTER : Z := 0x1B14.
Definition METHOD_SET_TEXTURE_ADDRESS : Z := 0x1B08.
Definition METHOD_SET_TEXTURE_CONTROL0 : Z := 0x1B0C.
Definition METHOD_SET_TEXTURE_CONTROL1 : Z := 0x1B10.
Definition METHOD_SET_TEXTURE_IMAGE_RECT : Z := 0x1B1C.
Definition METHOD_SET_CONTEXT_DMA_A : Z := 0x0184.
Definition METHOD_SET_CONTEXT_DMA_B : Z := 0x0188.
Definition TEXTURE_ENABLE : Z := 0x40000000.
Definition PRIMITIVE_TRIANGLES : Z := 5.
Definition PRIMITIVE_TRIANGLE_STRIP : Z := 6.
Definition PRIMITIVE_TRIANGLE_FAN : Z := 7.
Definition PRIMITIVE_QUADS : Z := 8.
Definition METHOD_SET_SEMAPHORE_OFFSET : Z := 0x1D6C.
Definition METHOD_BACK_END_WRITE_SEMAPHORE_RELEASE : Z := 0x1D70.

(** ** The floating-point stages *)

(** What the engine uses of the vertex stage and the rasteriser: reading a
    dword as a float, a byte as a fraction of 255, the assembled vertices, and
    the drawing of triangles, which writes pixels through the memory it is
    given. *)
Class DrawStage (F : Type) : Type := {
  f32_from_bits : Z -> F;
  f32_byte_fraction : Z -> F;
  ScreenVertex : Type;
  behind_eye : ScreenVertex -> bool;
  texcoords_zero : nat -> ScreenVertex -> bool;
  assemble_inline : VertexState F -> TransformState F -> list ScreenVertex;
  assemble_arrays : forall M : Type, Nv2aMemory M -> M -> VertexState F -> TransformState F ->
    list (option DmaObject) -> list ScreenVertex;
  rasterize_draw : forall M : Type, Nv2aMemory M -> M -> RenderTarget -> list ScreenVertex ->
    list (nat * nat * nat) -> list (option MemoryTexture) -> PipelineState -> CombinerState F -> Z * M;
}.

Section Engine.
Context {F : Type} `{DrawStage F}.

Definition f32_zero : F := f32_from_bits 0.
Definition f32_one : F := f32_from_bits 0x3F800000.

Definition unpack_color (color : Z) : list F :=
  [f32_byte_fraction (Z.land (Z.shiftr color 16) 0xFF); f32_byte_fraction (Z.land (Z.shiftr color 8) 0xFF);
   f32_byte_fraction (Z.land color 0xFF); f32_byte_fraction (Z.land (Z.shiftr color 24) 0xFF)].

(** ** Defaults *)

Definition TransformState_default : TransformState F :=
  mkTransformState (replicate (Z.to_nat TRANSFORM_PROGRAM_SLOTS) (replicate 4 0)) 0 0
    (replicate (Z.to_nat TRANSFORM_CONSTANT_SLOTS) (replicate 4 f32_zero)) 0 false.

Definition VertexState_default : VertexState F :=
  let zeros n := replicate n f32_zero in
  mkVertexState None (replicate 16 (mkAttributeFormat 0 0)) [] [] false 0 (zeros 3%nat) (zeros 3%nat) (zeros 3%nat)
    (zeros 3%nat) (zeros 3%nat) (zeros 16%nat) (zeros 16%nat) (replicate 4 (replicate 4 0)) (replicate 4 false)
    (replicate 4 (zeros 16%nat)) (replicate 16 (zeros 4%nat)) (replicate 16 false) (replicate 16 0) (replicate 16 0)
    (zeros 16%nat) (zeros 4%nat) (zeros 4%nat).

Definition CombinerState_default : CombinerState F :=
  mkCombinerState (replicate 8 (mkStage 0 0 0 0)) 0 0 0 0 (replicate 8 (replicate 4 f32_zero))
    (replicate 8 (replicate 4 f32_zero)).

Definition ChannelState_default : ChannelState F :=
  mkChannelState (replicate 8 0) None 0 SurfaceState_default VertexState_default TransformState_default
    false false false 0 0 0 false 0 0 false 0 0 CombinerState_default (replicate 4 TextureState_default)
    [None; None] [None; None].

Definition PushbufferEngine_default : PushbufferEngine F :=
  mkPushbufferEngine ∅ ∅ ∅ ∅ 0 (replicate 4 None) false CombinerState_default 0 (0, 0, 0) None None PusherStats_default.

Abbreviation Engine := (PushbufferEngine F).
Abbreviation Channel := (ChannelState F).

(** ** Methods that change the channel only

    A method of a group is [Some], what it leaves, which is [None] where it
    panics. *)

Definition within (first last method : Z) : bool := (first <=? method) && (method <=? last).
Definition before (first past method : Z) : bool := (first <=? method) && (method <? past).

Definition on_surface (s : Channel) (f : SurfaceState -> SurfaceState) : option (option Channel) :=
  Some (Some (with_ch_surface s (f (ch_surface s)))).
Definition on_vertex (s : Channel) (r : option (VertexState F)) : option (option Channel) :=
  Some (with_ch_vertex s <$> r).
Definition on_combiner (s : Channel) (r : option (CombinerState F)) : option (option Channel) :=
  Some (with_ch_combiner s <$> r).

(** [self.field[index] = value]. *)
Definition store_at {A} (l : list A) (index : Z) (value : A) : option (list A) :=
  if (Z.to_nat index <? length l)%nat then Some (<[Z.to_nat index := value]> l) else None.

Definition flag (argument : Z) : bool := negb (argument =? 0).
Definition low_half (argument : Z) : Z := Z.land argument 0xFFFF.
Definition high_half (argument : Z) : Z := Z.shiftr argument 16.

Definition bind_method (s : Channel) (subchannel method argument : Z) : option (option Channel) :=
  if method =? METHOD_SET_OBJECT then
    Some (with_ch_subchannel_handles s <$> store_at (ch_subchannel_handles s) (Z.land subchannel 7) argument)
  else if method =? METHOD_SET_SEMAPHORE_OFFSET then Some (Some (with_ch_semaphore_offset s argument))
  else None.

Definition surface_method (s : Channel) (method argument : Z) : option (option Channel) :=
  if method =? METHOD_SET_SURFACE_CLIP_HORIZONTAL then
    on_surface s (fun f => with_sf_clip_width (with_sf_clip_x f (low_half argument)) (high_half argument))
  else if method =? METHOD_SET_SURFACE_CLIP_VERTICAL then
    on_surface s (fun f => with_sf_clip_height (with_sf_clip_y f (low_half argument)) (high_half argument))
  else if method =? METHOD_SET_SURFACE_PITCH then
    on_surface s (fun f => with_sf_zeta_pitch (with_sf_color_pitch f (low_half argument)) (high_half argument))
  else if method =? METHOD_SET_SURFACE_ZETA_OFFSET then on_surface s (fun f => with_sf_zeta_offset f argument)
  else if method =? METHOD_SET_SURFACE_COLOR_OFFSET then on_surface s (fun f => with_sf_color_offset f argument)
  else if method =? METHOD_SET_COLOR_CLEAR_VALUE then on_surface s (fun f => with_sf_clear_color f argument)
  else if method =? METHOD_SET_ZSTENCIL_CLEAR_VALUE then on_surface s (fun f => with_sf_clear_zstencil f argument)
  else if method =? METHOD_SET_CLEAR_RECT_HORIZONTAL then
    on_surface s (fun f => with_sf_clear_x f (low_half argument, high_half argument))
  else if method =? METHOD_SET_CLEAR_RECT_VERTICAL then
    on_surface s (fun f => with_sf_clear_y f (low_half argument, high_half argument))
  else None.

Definition fragment_method (s : Channel) (method argument : Z) : option (option Channel) :=
  if method =? METHOD_SET_ALPHA_TEST_ENABLE then Some (Some (with_ch_alpha_test s (flag argument)))
  else if method =? METHOD_SET_ALPHA_FUNC then Some (Some (with_ch_alpha_function s argument))
  else if method =? METHOD_SET_ALPHA_REF then Some (Some (with_ch_alpha_reference s argument))
  else if method =? METHOD_SET_BLEND_FUNC_SFACTOR then Some (Some (with_ch_blend_source s argument))
  else if method =? METHOD_SET_BLEND_FUNC_DFACTOR then Some (Some (with_ch_blend_destination s argument))
  else if method =? METHOD_SET_CULL_FACE_ENABLE then Some (Some (with_ch_cull s (flag argument)))
  else if method =? METHOD_SET_CULL_FACE then Some (Some (with_ch_cull_face s argument))
  else if method =? METHOD_SET_FRONT_FACE then Some (Some (with_ch_front_face s argument))
  else if method =? METHOD_SET_DEPTH_TEST_ENABLE then Some (Some (with_ch_depth_test s (flag argument)))
  else if method =? METHOD_SET_DEPTH_MASK then Some (Some (with_ch_depth_write s (flag argument)))
  else if method =? METHOD_SET_DEPTH_FUNC then Some (Some (with_ch_depth_function s argument))
  else if method =? METHOD_SET_BLEND_ENABLE then Some (Some (with_ch_blend s (flag argument)))
  else None.

(** A float stored at [(method - first) / 4] of an array. *)
Definition store_lane (l : list F) (first method argument : Z) : option (list F) :=
  store_at l ((method - first) / 4) (f32_from_bits argument).

Definition geometry_method (s : Channel) (method argument : Z) : option (option Channel) :=
  let v := ch_vertex s in
  if within METHOD_SET_VIEWPORT_OFFSET VIEWPORT_OFFSET_LAST method then
    on_vertex s (with_vx_viewport_offset v <$>
      store_at (vx_viewport_offset v) (Z.land ((method - METHOD_SET_VIEWPORT_OFFSET) / 4) 3) (f32_from_bits argument))
  else if within METHOD_SET_VIEWPORT_SCALE VIEWPORT_SCALE_LAST method then
    on_vertex s (with_vx_viewport_scale v <$>
      store_at (vx_viewport_scale v) (Z.land ((method - METHOD_SET_VIEWPORT_SCALE) / 4) 3) (f32_from_bits argument))
  else if within METHOD_SET_VERTEX_DATA_ARRAY_FORMAT VERTEX_FORMAT_LAST method then
    let index := Z.land ((method - METHOD_SET_VERTEX_DATA_ARRAY_FORMAT) / 4) 15 in
    on_vertex s (
      formats ← store_at (vx_formats v) index
        (mkAttributeFormat (Z.land argument 0xF) (Z.land (Z.shiftr argument 4) 0xF));
      strides ← store_at (vx_array_strides v) index (Z.shiftr argument 8);
      Some (with_vx_array_strides (with_vx_formats v formats) strides))
  else if within METHOD_SET_VERTEX_DATA_ARRAY_OFFSET VERTEX_ARRAY_OFFSET_LAST method then
    on_vertex s (with_vx_array_offsets v <$>
      store_at (vx_array_offsets v) (Z.land ((method - METHOD_SET_VERTEX_DATA_ARRAY_OFFSET) / 4) 15) argument)
  else if within METHOD_SET_COMPOSITE_MATRIX COMPOSITE_MATRIX_LAST method then
    on_vertex s (with_vx_composite v <$>
      store_at (vx_composite v) (Z.land ((method - METHOD_SET_COMPOSITE_MATRIX) / 4) 15) (f32_from_bits argument))
  else if method =? METHOD_ARRAY_ELEMENT16 then
    on_vertex s (Some (
      if bool_decide (is_Some (vx_primitive v)) && (Z.of_nat (length (vx_elements v)) + 2 <=? MAX_ELEMENTS)
      then with_vx_elements v (vx_elements v ++ [low_half argument; high_half argument]) else v))
  else if method =? METHOD_ARRAY_ELEMENT32 then
    on_vertex s (Some (
      if bool_decide (is_Some (vx_primitive v)) && (Z.of_nat (length (vx_elements v)) <? MAX_ELEMENTS)
      then with_vx_elements v (vx_elements v ++ [argument]) else v))
  else if method =? METHOD_INLINE_ARRAY then
    on_vertex s (Some (
      if bool_decide (is_Some (vx_primitive v)) && (Z.of_nat (length (vx_inline v)) <? MAX_INLINE_DWORDS)
      then with_vx_inline v (vx_inline v ++ [argument]) else v))
  else None.

(** A dword uploaded at a load pointer counted in dwords: past the bank it is
    dropped. *)
Definition upload {A} (bank : list (list A)) (load : Z) (value : A) : option (list (list A)) :=
  match bank !! Z.to_nat (load / 4) with
  | None => Some bank
  | Some slot => slot ← store_at slot (load mod 4) value; Some (<[Z.to_nat (load / 4) := slot]> bank)
  end.

Definition transform_method (s : Channel) (method argument : Z) : option (option Channel) :=
  let t := ch_transform s in
  if within METHOD_SET_TRANSFORM_PROGRAM TRANSFORM_PROGRAM_LAST method then
    Some (program ← upload (tr_program t) (tr_program_load t) argument;
          Some (with_ch_transform s
                  (with_tr_program_load (with_tr_program t program) (wrapping_add32 (tr_program_load t) 1))))
  else if within METHOD_SET_TRANSFORM_CONSTANT TRANSFORM_CONSTANT_LAST method then
    Some (constants ← upload (tr_constants t) (tr_constant_load t) (f32_from_bits argument);
          Some (with_ch_transform s
                  (with_tr_constant_load (with_tr_constants t constants) (wrapping_add32 (tr_constant_load t) 1))))
  else if method =? METHOD_SET_TRANSFORM_EXECUTION_MODE then
    Some (Some (with_ch_transform s (with_tr_programmed t (Z.land argument 3 =? TRANSFORM_MODE_PROGRAM))))
  else if method =? METHOD_SET_TRANSFORM_PROGRAM_LOAD then
    Some (Some (with_ch_transform s (with_tr_program_load t (wrapping_mul32 argument 4))))
  else if method =? METHOD_SET_TRANSFORM_PROGRAM_START then
    Some (Some (with_ch_transform s (with_tr_program_start t (Z.min argument TRANSFORM_PROGRAM_SLOTS))))
  else if method =? METHOD_SET_TRANSFORM_CONSTANT_LOAD then
    Some (Some (with_ch_transform s (with_tr_constant_load t (wrapping_mul32 argument 4))))
  else None.

(** [stages[stage].field = argument]. *)
Definition store_stage (c : CombinerState F) (stage : Z) (f : Stage -> Stage) : option (CombinerState F) :=
  old ← cb_stages c !! Z.to_nat stage; stages ← store_at (cb_stages c) stage (f old); Some (with_cb_stages c stages).

Definition combiner_method (s : Channel) (method argument : Z) : option (option Channel) :=
  let c := ch_combiner s in
  if before METHOD_SET_COMBINER_ALPHA_ICW METHOD_SET_COMBINER_ALPHA_ICW_END method then
    on_combiner s (store_stage c ((method - METHOD_SET_COMBINER_ALPHA_ICW) / 4) (fun g => with_sg_alpha_inputs g argument))
  else if before METHOD_SET_COMBINER_COLOR_ICW METHOD_SET_COMBINER_COLOR_ICW_END method then
    on_combiner s (store_stage c ((method - METHOD_SET_COMBINER_COLOR_ICW) / 4) (fun g => with_sg_color_inputs g argument))
  else if before METHOD_SET_COMBINER_ALPHA_OCW METHOD_SET_COMBINER_ALPHA_OCW_END method then
    on_combiner s (store_stage c ((method - METHOD_SET_COMBINER_ALPHA_OCW) / 4) (fun g => with_sg_alpha_outputs g argument))
  else if before METHOD_SET_COMBINER_COLOR_OCW METHOD_SET_COMBINER_COLOR_OCW_END method then
    on_combiner s (store_stage c ((method - METHOD_SET_COMBINER_COLOR_OCW) / 4) (fun g => with_sg_color_outputs g argument))
  else if before METHOD_SET_COMBINER_FACTOR0 METHOD_SET_COMBINER_FACTOR0_END method then
    on_combiner s (with_cb_factor0 c <$>
      store_at (cb_factor0 c) ((method - METHOD_SET_COMBINER_FACTOR0) / 4) (unpack_color argument))
  else if before METHOD_SET_COMBINER_FACTOR1 METHOD_SET_COMBINER_FACTOR1_END method then
    on_combiner s (with_cb_factor1 c <$>
      store_at (cb_factor1 c) ((method - METHOD_SET_COMBINER_FACTOR1) / 4) (unpack_color argument))
  else if method =? METHOD_SET_COMBINER_FINAL0 then on_combiner s (Some (with_cb_final_first c argument))
  else if method =? METHOD_SET_COMBINER_FINAL1 then on_combiner s (Some (with_cb_final_second c argument))
  else if method =? METHOD_SET_COMBINER_CONTROL then
    on_combiner s (Some (with_cb_active (with_cb_control c argument) (Z.min (Z.land argument 0xFF) 8)))
  else None.

(** [table[row][column] = value]. *)
Definition store_nested {A} (table : list (list A)) (row column : Z) (value : A) : option (list (list A)) :=
  old ← table !! Z.to_nat row; line ← store_at old column value; store_at table row line.

(** The value an attribute takes when no array supplies it. *)
Definition constant_2f (v : VertexState F) (attribute lane argument : Z) : option (VertexState F) :=
  set ← vx_constant_set v !! Z.to_nat attribute;
  v ← (if set : bool then Some v
       else constants ← store_at (vx_constants v) attribute [f32_zero; f32_zero; f32_zero; f32_one];
            flags ← store_at (vx_constant_set v) attribute true;
            Some (with_vx_constant_set (with_vx_constants v constants) flags));
  with_vx_constants v <$> store_nested (vx_constants v) attribute lane (f32_from_bits argument).

Definition constant_4f (v : VertexState F) (attribute lane argument : Z) : option (VertexState F) :=
  flags ← store_at (vx_constant_set v) attribute true;
  constants ← store_nested (vx_constants v) attribute lane (f32_from_bits argument);
  Some (with_vx_constants (with_vx_constant_set v flags) constants).

Definition lighting_method (s : Channel) (method argument : Z) : option (option Channel) :=
  let v := ch_vertex s in
  if method =? METHOD_SET_LIGHTING_ENABLE then on_vertex s (Some (with_vx_lighting_enable v (flag argument)))
  else if method =? METHOD_SET_LIGHT_ENABLE_MASK then on_vertex s (Some (with_vx_light_enable_mask v argument))
  else if within METHOD_SET_MATERIAL_EMISSION METHOD_SET_MATERIAL_EMISSION_LAST method then
    on_vertex s (with_vx_material_emission v <$>
      store_lane (vx_material_emission v) METHOD_SET_MATERIAL_EMISSION method argument)
  else if within METHOD_SET_SCENE_AMBIENT_COLOR METHOD_SET_SCENE_AMBIENT_COLOR_LAST method then
    on_vertex s (with_vx_scene_ambient v <$>
      store_lane (vx_scene_ambient v) METHOD_SET_SCENE_AMBIENT_COLOR method argument)
  else if within METHOD_SET_LIGHT_AMBIENT_COLOR METHOD_SET_LIGHT_AMBIENT_COLOR_LAST method then
    on_vertex s (with_vx_light_ambient v <$>
      store_lane (vx_light_ambient v) METHOD_SET_LIGHT_AMBIENT_COLOR method argument)
  else if within METHOD_SET_LIGHT_DIFFUSE_COLOR METHOD_SET_LIGHT_DIFFUSE_COLOR_LAST method then
    on_vertex s (with_vx_light_diffuse v <$>
      store_lane (vx_light_diffuse v) METHOD_SET_LIGHT_DIFFUSE_COLOR method argument)
  else if within METHOD_SET_LIGHT_INFINITE_DIRECTION METHOD_SET_LIGHT_INFINITE_DIRECTION_LAST method then
    on_vertex s (with_vx_light_direction v <$>
      store_lane (vx_light_direction v) METHOD_SET_LIGHT_INFINITE_DIRECTION method argument)
  else if within METHOD_SET_MODEL_VIEW_MATRIX MODEL_VIEW_MATRIX_LAST method then
    on_vertex s (with_vx_model_view v <$>
      store_lane (vx_model_view v) METHOD_SET_MODEL_VIEW_MATRIX method argument)
  else if within METHOD_SET_INVERSE_MODEL_VIEW_MATRIX INVERSE_MODEL_VIEW_MATRIX_LAST method then
    on_vertex s (with_vx_inverse_model_view v <$>
      store_lane (vx_inverse_model_view v) METHOD_SET_INVERSE_MODEL_VIEW_MATRIX method argument)
  else None.

Definition coordinate_method (s : Channel) (method argument : Z) : option (option Channel) :=
  let v := ch_vertex s in
  if before METHOD_SET_TEXGEN METHOD_SET_TEXGEN_END method then
    let within := method - METHOD_SET_TEXGEN in
    on_vertex s (with_vx_texgen v <$> store_nested (vx_texgen v) (within / 16) (within mod 16 / 4) argument)
  else if before METHOD_SET_TEXTURE_MATRIX_ENABLE METHOD_SET_TEXTURE_MATRIX_ENABLE_END method then
    on_vertex s (with_vx_texture_matrix_enable v <$>
      store_at (vx_texture_matrix_enable v) ((method - METHOD_SET_TEXTURE_MATRIX_ENABLE) / 4) (flag argument))
  else if before METHOD_SET_TEXTURE_MATRIX METHOD_SET_TEXTURE_MATRIX_END method then
    let within := method - METHOD_SET_TEXTURE_MATRIX in
    on_vertex s (with_vx_texture_matrix v <$>
      store_nested (vx_texture_matrix v) (within / 64) (within mod 64 / 4) (f32_from_bits argument))
  else if before METHOD_SET_VERTEX_DATA2F METHOD_SET_VERTEX_DATA2F_END method then
    let within := method - METHOD_SET_VERTEX_DATA2F in
    on_vertex s (constant_2f v (within / 8) (within mod 8 / 4) argument)
  else if before METHOD_SET_VERTEX_DATA4F METHOD_SET_VERTEX_DATA4F_END method then
    let within := method - METHOD_SET_VERTEX_DATA4F in
    on_vertex s (constant_4f v (within / 16) (within mod 16 / 4) argument)
  else None.

(** One register of a texture unit. *)
Definition texture_register (t : TextureState) (register argument : Z) : TextureState :=
  if register =? METHOD_SET_TEXTURE_OFFSET then with_tex_offset t argument
  else if register =? METHOD_SET_TEXTURE_FORMAT then with_tex_format t argument
  else if register =? METHOD_SET_TEXTURE_ADDRESS then with_tex_address t argument
  else if register =? METHOD_SET_TEXTURE_FILTER then with_tex_filter t argument
  else if register =? METHOD_SET_TEXTURE_CONTROL0 then with_tex_enabled t (has_bits argument TEXTURE_ENABLE)
  else if register =? METHOD_SET_TEXTURE_CONTROL1 then with_tex_pitch t (high_half argument)
  else if register =? METHOD_SET_TEXTURE_IMAGE_RECT then with_tex_rect t (high_half argument, low_half argument)
  else t.

Definition texture_method (s : Channel) (method argument : Z) : option (option Channel) :=
  if before METHOD_SET_TEXTURE_OFFSET METHOD_SET_TEXTURE_END method then
    let unit := (method - METHOD_SET_TEXTURE_OFFSET) / TEXTURE_UNIT_STRIDE in
    let within := (method - METHOD_SET_TEXTURE_OFFSET) mod TEXTURE_UNIT_STRIDE in
    Some (texture ← ch_textures s !! Z.to_nat unit;
          textures ← store_at (ch_textures s) unit
                       (texture_register texture (METHOD_SET_TEXTURE_OFFSET + within) argument);
          Some (with_ch_textures s textures))
  else None.

(** The arms that only change the channel; no method is in two of the groups,
    so their order does not matter. *)
Definition channel_method (s : Channel) (subchannel method argument : Z) : option (option Channel) :=
  match bind_method s subchannel method argument with Some r => Some r | None =>
  match surface_method s method argument with Some r => Some r | None =>
  match fragment_method s method argument with Some r => Some r | None =>
  match geometry_method s method argument with Some r => Some r | None =>
  match transform_method s method argument with Some r => Some r | None =>
  match combiner_method s method argument with Some r => Some r | None =>
  match lighting_method s method argument with Some r => Some r | None =>
  match coordinate_method s method argument with Some r => Some r | None =>
  texture_method s method argument
  end end end end end end end end.

(** ** Statistics *)

Definition bump (n : Z) : Z := wrap64 (n + 1).

Definition on_stats (e : Engine) (f : PusherStats -> PusherStats) : Engine := with_pe_stats e (f (pe_stats e)).

Definition count_method (e : Engine) (handle method : Z) : Engine :=
  let counts := pe_method_counts e in
  if (Z.of_nat (size counts) <? MAX_CENSUS_ENTRIES) || bool_decide (is_Some (counts !! (handle, method)))
  then with_pe_method_counts e (<[(handle, method) := bump (default 0 (counts !! (handle, method)))]> counts)
  else e.
End Engine.

(** ** Objects in instance memory *)

Definition ramht_layout (ramht_raw : Z) : Z * Z :=
  (Z.shiftl (Z.land ramht_raw 0x1F0) 8, Z.shiftl 1 (Z.land (Z.shiftr ramht_raw 16) 3 + 12)).

(** The [while value != 0] loop; a round shifts at least one bit out, so one
    round per bit is enough ([hash_loop_fuel]). *)
Fixpoint hash_loop (fuel : nat) (index_bits mask hash value : Z) : Z :=
  match fuel with
  | O => hash
  | S fuel =>
    if value =? 0 then hash
    else hash_loop fuel index_bits mask (Z.lxor hash (Z.land value mask)) (Z.shiftr value index_bits)
  end.

Definition ramht_hash (handle index_bits channel : Z) : Z :=
  let mask := Z.shiftl 1 index_bits - 1 in
  Z.lxor (hash_loop 32 index_bits mask 0 handle) (wrap32 (Z.shiftl (Z.land channel 0xF) (index_bits - 4))).

(** One submission's fixed parameters. *)
Record SubmitContext : Type := mkSubmitContext { sc_channel : Z; sc_pramin : Z; sc_ramht_raw : Z }.

Section Walk.
Context {F : Type} `{DrawStage F} {M : Type} `{Nv2aMemory M}.

Abbreviation Engine := (PushbufferEngine F).
Abbreviation Channel := (ChannelState F).

Definition resolve_dma_object (memory : M) (pramin ramht_raw channel handle : Z) : option DmaObject :=
  let '(ramht_offset, ramht_size) := ramht_layout ramht_raw in
  let entries := ramht_size / 8 in
  let index_bits := trailing_zeros entries in
  if index_bits <? 4 then None else
  let hash := ramht_hash handle index_bits channel mod entries in
  table ← checked_add 32 pramin ramht_offset;
  entry ← checked_add 32 table (wrap32 (hash * 8));
  stored_handle ← nv_read_dword memory entry;
  if negb (stored_handle =? handle) then None else
  ctx ← nv_read_dword memory (wrapping_add32 entry 4);
  let instance := Z.shiftl (Z.land ctx 0xFFFF) 4 in
  base ← checked_add 32 pramin instance;
  d0 ← nv_read_dword memory base;
  limit ← nv_read_dword memory (wrapping_add32 base 4);
  d2 ← nv_read_dword memory (wrapping_add32 base 8);
  Some (mkDmaObject (Z.land d0 0xFFF) limit (Z.lor (Z.land d2 0xFFFFF000) (Z.land (Z.shiftr d0 20) 0xFFF))).

(** ** Clears *)

Definition clear_bounds (s : SurfaceState) (pitch : Z) : option (Z * Z * Z * Z) :=
  if pitch =? 0 then None else
  let addressable := Z.min (pitch / 4) MAX_SURFACE_DIMENSION in
  let first := Z.max (sf_clear_x s).1 (sf_clip_x s) in
  let beyond := Z.min (Z.min (sf_clear_x s).2 (saturating_add 32 (sf_clip_x s) (sf_clip_width s))) addressable in
  let top := Z.max (sf_clear_y s).1 (sf_clip_y s) in
  let bottom := Z.min (Z.min (sf_clear_y s).2 (saturating_add 32 (sf_clip_y s) (sf_clip_height s))) MAX_SURFACE_DIMENSION in
  if (first <? beyond) && (top <? bottom) then Some (first, beyond, top, bottom) else None.

(** The loop over the rows; it ends at a row that starts more than [limit]
    bytes past [origin]. *)
Fixpoint clear_rows (rows : nat) (memory : M) (origin limit base pitch first width value row written : Z) : Z * M :=
  match rows with
  | O => (written, memory)
  | S rows =>
    let scanline := wrapping_add32 base (wrapping_mul32 row pitch) in
    let start := wrapping_add32 scanline (wrap32 (first * 4)) in
    if limit <? wrapping_sub32 start origin then (written, memory)
    else
      let '(n, memory) := nv_fill_dwords memory start value width in
      clear_rows rows memory origin limit base pitch first width value (row + 1) (wrap64 (written + n))
  end.

Definition clear_zeta_surface (memory : M) (s : SurfaceState) : M :=
  match sf_color_dma s with
  | None => memory
  | Some color =>
    if (sf_zeta_pitch s =? 0) || (sf_zeta_offset s =? 0) then memory
    else match clear_bounds s (sf_zeta_pitch s) with
         | None => memory
         | Some (first, beyond, top, bottom) =>
           let base := wrapping_add32 (dma_base color) (sf_zeta_offset s) in
           (clear_rows (Z.to_nat (bottom - top)) memory (dma_base color) (dma_limit color) base (sf_zeta_pitch s)
              first (beyond - first) (sf_clear_zstencil s) top 0).2
         end
  end.

Definition record_clear (e : Engine) (base written : Z) : Engine :=
  let e := on_stats e (fun p => with_ps_cleared_pixels (with_ps_surface_clears p (bump (ps_surface_clears p)))
                                  (wrap64 (ps_cleared_pixels p + written))) in
  let e := with_pe_operations e (bump (pe_operations e)) in
  let history := default SurfaceHistory_default (pe_surface_history e !! base) in
  let history := with_sh_blended (with_sh_cleared history (pe_operations e)) 0 in
  with_pe_surface_history e (<[base := history]> (pe_surface_history e)).

Definition clear_color_surface (memory : M) (e : Engine) (s : SurfaceState) : Engine * M :=
  match sf_color_dma s with
  | None => (e, memory)
  | Some color =>
    if sf_color_pitch s =? 0 then (e, memory)
    else match clear_bounds s (sf_color_pitch s) with
         | None => (e, memory)
         | Some (first, beyond, top, bottom) =>
           let base := wrapping_add32 (dma_base color) (sf_color_offset s) in
           let '(written, memory) :=
             clear_rows (Z.to_nat (bottom - top)) memory base (dma_limit color) base (sf_color_pitch s)
               first (beyond - first) (sf_clear_color s) top 0 in
           (if 0 <? written then record_clear e base written else e, memory)
         end
  end.

(** ** Primitives *)

Definition render_target (s : SurfaceState) : option RenderTarget :=
  color ← sf_color_dma s;
  if (sf_color_pitch s =? 0) || (sf_clip_width s =? 0) || (sf_clip_height s =? 0) then None else
  let rows := dma_limit color / Z.max (sf_color_pitch s) 1 in
  let width := Z.min (Z.min (sf_clip_width s) MAX_SURFACE_DIMENSION) (sf_color_pitch s / 4) in
  let height := Z.min (Z.min (sf_clip_height s) MAX_SURFACE_DIMENSION) (Z.max rows 1) in
  if (width =? 0) || (height =? 0) then None else
  Some (mkRenderTarget (wrapping_add32 (dma_base color) (sf_color_offset s)) (sf_color_pitch s) (sf_clip_x s) (sf_clip_y s)
          width height
          (if negb (sf_zeta_pitch s =? 0) && negb (sf_zeta_offset s =? 0)
           then Some (wrapping_add32 (dma_base color) (sf_zeta_offset s)) else None)
          (sf_zeta_pitch s)).

Definition pipeline_of (e : Engine) (s : Channel) : PipelineState :=
  mkPipelineState (pe_unfiltered e)
    (mkBlendState (ch_blend s) (ch_blend_source s) (ch_blend_destination s))
    (mkDepthState (ch_depth_test s) (ch_depth_write s) (Z.land (ch_depth_function s) 7))
    (mkCullState (ch_cull s) (ch_cull_face s) (ch_front_face s))
    (mkAlphaTest (ch_alpha_test s) (Z.land (ch_alpha_function s) 7) (Z.land (ch_alpha_reference s) 0xFF)).

(** The corners of each triangle, or [None] for a primitive that is not
    drawn. *)
Definition primitive_triangles (primitive : Z) (count : nat) : option (list (nat * nat * nat)) :=
  if primitive =? PRIMITIVE_TRIANGLES then
    Some (map (fun i => (i * 3, i * 3 + 1, i * 3 + 2)%nat) (seq 0 (count / 3)))
  else if primitive =? PRIMITIVE_TRIANGLE_STRIP then
    Some (map (fun i => if Nat.even i then (i, i + 1, i + 2)%nat else (i + 1, i, i + 2)%nat) (seq 0 (count - 2)))
  else if primitive =? PRIMITIVE_TRIANGLE_FAN then
    Some (map (fun i => (0, i, i + 1)%nat) (seq 1 (count - 2)))
  else if primitive =? PRIMITIVE_QUADS then
    Some (flat_map (fun q => [(q * 4, q * 4 + 1, q * 4 + 2)%nat; (q * 4, q * 4 + 2, q * 4 + 3)%nat]) (seq 0 (count / 4)))
  else None.

(** The context object a unit's format word selects. *)
Definition unit_dma (s : Channel) (t : TextureState) : option (option DmaObject) :=
  ch_texture_dma s !! Z.to_nat (Z.land (Z.max 0 (Z.land (tex_format t) 3 - 1)) 1).

Definition seen_format (e : Engine) (format : Z) (f : Z * Z -> Z * Z) : Engine :=
  on_stats e (fun p => with_ps_formats_seen p
    (<[format := f (default (0, 0) (ps_formats_seen p !! format))]> (ps_formats_seen p))).

(** The loop over the units; [None] leaves the primitive undrawn. *)
Fixpoint bind_units (e : Engine) (unit : nat) (units : list (TextureState * option DmaObject))
    (bound : list (option MemoryTexture)) : option (list (option MemoryTexture)) * Engine :=
  match units with
  | [] => (Some bound, e)
  | (texture, dma) :: units =>
    if negb (tex_enabled texture) then bind_units e (S unit) units (bound ++ [None])
    else
      let e := seen_format e (color_format texture) (fun p => (bump p.1, p.2)) in
      match bind_texture texture dma with
      | Some sampler =>
        let e := on_stats e (fun p => with_ps_bound_by_unit p (alter bump unit (ps_bound_by_unit p))) in
        let e := if (unit =? 0)%nat
                 then on_stats e (fun p => with_ps_textured_primitives p (bump (ps_textured_primitives p))) else e in
        let e := with_pe_last_texture e (<[unit := Some (texture, dma)]> (pe_last_texture e)) in
        bind_units e (S unit) units (bound ++ [Some sampler])
      | None =>
        let e := seen_format e (color_format texture) (fun p => (p.1, bump p.2)) in
        (None, on_stats e (fun p => with_ps_unsupported_textures p (bump (ps_unsupported_textures p))))
      end
  end.

Fixpoint count_degenerate (e : Engine) (unit : nat) (bound : list (option MemoryTexture)) (vertices : list ScreenVertex)
  : Engine :=
  match bound with
  | [] => e
  | sampler :: bound =>
    let e := if bool_decide (is_Some sampler) && forallb (texcoords_zero unit) vertices
             then on_stats e (fun p => with_ps_degenerate_texcoords p (alter bump unit (ps_degenerate_texcoords p))) else e in
    count_degenerate e (S unit) bound vertices
  end.

(** A change of target finishes the frame drawn before, when it is of display
    size. *)
Definition retarget (e : Engine) (target : RenderTarget) : Engine :=
  let e :=
    if pe_last_draw_target e =? rt_base target then e
    else
      let '(pitch, width, height) := pe_last_draw_geometry e in
      let e := if negb (pitch =? 0) && (PRESENTABLE_WIDTH <=? width) then
                 let finished := (pe_last_draw_target e, pitch, width, height) in
                 with_pe_completed_frame (with_pe_previous_draw e (Some finished)) (Some finished)
               else e in
      with_pe_last_draw_target e (rt_base target) in
  with_pe_last_draw_geometry e (rt_pitch target, rt_width target, rt_height target).

(** [vertices[index].inverse_w <= 0.0] of a corner. *)
Definition corner_behind (vertices : list ScreenVertex) (index : nat) : option bool := behind_eye <$> vertices !! index.
Definition triangle_behind (vertices : list ScreenVertex) (corners : nat * nat * nat) : option bool :=
  let '(a, b, c) := corners in
  x ← corner_behind vertices a;
  if x : bool then Some true else
  y ← corner_behind vertices b;
  if y : bool then Some true else corner_behind vertices c.

Fixpoint drawable_triangles (vertices : list ScreenVertex) (l : list (nat * nat * nat))
  : option (list (nat * nat * nat) * Z) :=
  match l with
  | [] => Some ([], 0)
  | t :: l =>
    behind ← triangle_behind vertices t;
    '(kept, dropped) ← drawable_triangles vertices l;
    Some (if behind : bool then (kept, dropped + 1) else (t :: kept, dropped))
  end.

Definition record_draw (e : Engine) (target : RenderTarget) (drawn : Z) : Engine :=
  let e := on_stats e (fun p => with_ps_shaded_pixels p (wrap64 (ps_shaded_pixels p + drawn))) in
  let e := with_pe_pixels_by_target e
             (<[rt_base target := wrap64 (default 0 (pe_pixels_by_target e !! rt_base target) + drawn)]>
                (pe_pixels_by_target e)) in
  if 0 <? drawn then
    let e := with_pe_operations e (bump (pe_operations e)) in
    let history := default SurfaceHistory_default (pe_surface_history e !! rt_base target) in
    let history := with_sh_blended (with_sh_geometry (with_sh_drawn history (pe_operations e))
                     (rt_pitch target, rt_width target, rt_height target)) (wrap64 (sh_blended history + drawn)) in
    with_pe_surface_history e (<[rt_base target := history]> (pe_surface_history e))
  else e.

(** The drawing of assembled vertices. *)
Definition draw_primitive (memory : M) (e : Engine) (s : Channel) (dma : list (option DmaObject)) (primitive : Z)
    (vertices : list ScreenVertex) : option (Engine * M) :=
  let pipeline := pipeline_of e s in
  let e := with_pe_last_combiner e (ch_combiner s) in
  match (if bool_decide (length vertices = 0%nat) then None else render_target (ch_surface s)) with
  | None => Some (on_stats e (fun p => with_ps_skipped_primitives p (bump (ps_skipped_primitives p))), memory)
  | Some target =>
    match bind_units e 0 (zip (ch_textures s) dma) [] with
    | (None, e) => Some (e, memory)
    | (Some bound, e) =>
      let e := count_degenerate e 0 bound vertices in
      match primitive_triangles primitive (length vertices) with
      | None => Some (on_stats e (fun p => with_ps_skipped_primitives p (bump (ps_skipped_primitives p))), memory)
      | Some triangles =>
        let e := retarget e target in
        '(drawable, dropped) ← drawable_triangles vertices triangles;
        let e := on_stats e (fun p => with_ps_triangles
                   (with_ps_triangles_behind_eye p (wrap64 (ps_triangles_behind_eye p + dropped)))
                   (wrap64 (ps_triangles p + Z.of_nat (length drawable)))) in
        let '(drawn, memory) := rasterize_draw M _ memory target vertices drawable bound pipeline (ch_combiner s) in
        Some (record_draw e target drawn, memory)
      end
    end
  end.

Definition put_channel (e : Engine) (channel : Z) (s : Channel) : Engine :=
  with_pe_channels e (<[channel := s]> (pe_channels e)).

Definition end_primitive (memory : M) (e : Engine) (channel : Z) (s : Channel) : option (Engine * M) :=
  match vx_primitive (ch_vertex s) with
  | None => Some (put_channel e channel s, memory)
  | Some primitive =>
    let v := with_vx_primitive (ch_vertex s) None in
    let vertices := if bool_decide (length (vx_elements v) = 0%nat) then assemble_inline v (ch_transform s)
                    else assemble_arrays M _ memory v (ch_transform s) (ch_vertex_dma s) in
    let s := with_ch_vertex s (with_vx_elements (with_vx_inline v []) []) in
    dma ← mapM (unit_dma s) (ch_textures s);
    draw_primitive memory (put_channel e channel s) s dma primitive vertices
  end.

(** ** One method *)

Definition constant_4ub (e : Engine) (channel : Z) (s : Channel) (attribute argument : Z) : option Engine :=
  let v := ch_vertex s in
  let part shift := f32_byte_fraction (Z.land (Z.shiftr argument shift) 0xFF) in
  constants ← store_at (vx_constants v) attribute [part 0; part 8; part 16; part 24];
  flags ← store_at (vx_constant_set v) attribute true;
  let s := with_ch_vertex s (with_vx_constant_set (with_vx_constants v constants) flags) in
  let e := put_channel e channel s in
  record ← ps_constant_attributes (pe_stats e) !! Z.to_nat attribute;
  records ← store_at (ps_constant_attributes (pe_stats e)) attribute (argument, bump record.2);
  Some (on_stats e (fun p => with_ps_constant_attributes p records)).

(** The methods that reach memory, or another part of the engine. *)
Definition effect_method (memory : M) (e : Engine) (context : SubmitContext) (s : Channel) (method argument : Z)
  : option (Engine * M) :=
  let channel := sc_channel context in
  let resolved := resolve_dma_object memory (sc_pramin context) (sc_ramht_raw context) channel argument in
  if method =? METHOD_SET_CONTEXT_DMA_SEMAPHORE then Some (put_channel e channel (with_ch_semaphore s resolved), memory)
  else if method =? METHOD_SET_CONTEXT_DMA_COLOR then
    Some (put_channel e channel (with_ch_surface s (with_sf_color_dma (ch_surface s) resolved)), memory)
  else if method =? METHOD_CLEAR_SURFACE then
    let '(e, memory) := if has_bits argument CLEAR_COLOR_MASK then clear_color_surface memory e (ch_surface s)
                        else (e, memory) in
    Some (e, if has_bits argument CLEAR_DEPTH_MASK then clear_zeta_surface memory (ch_surface s) else memory)
  else if (method =? METHOD_SET_CONTEXT_DMA_VERTEX_A) || (method =? METHOD_SET_CONTEXT_DMA_VERTEX_B) then
    dma ← store_at (ch_vertex_dma s) (bool_u (method =? METHOD_SET_CONTEXT_DMA_VERTEX_B)) resolved;
    Some (put_channel e channel (with_ch_vertex_dma s dma), memory)
  else if before METHOD_SET_VERTEX_DATA4UB METHOD_SET_VERTEX_DATA4UB_END method then
    e ← constant_4ub e channel s ((method - METHOD_SET_VERTEX_DATA4UB) / 4) argument; Some (e, memory)
  else if (method =? METHOD_SET_CONTEXT_DMA_A) || (method =? METHOD_SET_CONTEXT_DMA_B) then
    dma ← store_at (ch_texture_dma s) (bool_u (method =? METHOD_SET_CONTEXT_DMA_B)) resolved;
    Some (put_channel e channel (with_ch_texture_dma s dma), memory)
  else if method =? METHOD_SET_BEGIN_END then
    if argument =? 0 then end_primitive memory e channel s
    else Some (put_channel e channel (with_ch_vertex s
                 (with_vx_elements (with_vx_inline (with_vx_primitive (ch_vertex s) (Some argument)) []) [])), memory)
  else if method =? METHOD_BACK_END_WRITE_SEMAPHORE_RELEASE then
    match ch_semaphore s with
    | None => Some (e, memory)
    | Some semaphore =>
      let '(written, memory) := nv_write_dword memory (wrapping_add32 (dma_base semaphore) (ch_semaphore_offset s)) argument in
      Some (if written : bool
            then on_stats e (fun p => with_ps_semaphore_releases p (bump (ps_semaphore_releases p))) else e, memory)
    end
  else Some (e, memory).

Definition apply_method (memory : M) (e : Engine) (context : SubmitContext) (subchannel method argument : Z)
  : option (Engine * M) :=
  let channel := sc_channel context in
  let e := on_stats e (fun p => with_ps_method_values p (<[method := argument]> (ps_method_values p))) in
  let s := default ChannelState_default (pe_channels e !! channel) in
  let e := put_channel e channel s in
  bound ← ch_subchannel_handles s !! Z.to_nat (Z.land subchannel 7);
  let e := count_method e bound method in
  match channel_method s subchannel method argument with
  | Some r => s ← r; Some (put_channel e channel s, memory)
  | None => effect_method memory e context s method argument
  end.

(** ** The walk *)

Definition abort_walk (e : Engine) : Engine := on_stats e (fun p => with_ps_aborted p (bump (ps_aborted p))).

(** The loop over a command's arguments: where it stopped, and whether memory
    ran out under it. *)
Fixpoint apply_arguments (count : nat) (memory : M) (e : Engine) (context : SubmitContext)
    (subchannel method cursor : Z) (non_increasing : bool) : option (bool * Z * Engine * M) :=
  match count with
  | O => Some (true, cursor, e, memory)
  | S count =>
    match nv_read_dword memory cursor with
    | None => Some (false, cursor, abort_walk e, memory)
    | Some argument =>
      let cursor := wrapping_add32 cursor 4 in
      let e := on_stats e (fun p => with_ps_method_dwords p (bump (ps_method_dwords p))) in
      '(e, memory) ← apply_method memory e context subchannel method argument;
      apply_arguments count memory e context subchannel
        (if non_increasing then method else wrap16 (method + 4)) cursor non_increasing
    end
  end.

Inductive Walk : Type :=
| Stopped (cursor : Z)
| Continues (cursor budget : Z) (call_return : option Z).

(** The body of the [while] loop at a cursor that is not the target. *)
Definition walk_step (memory : M) (e : Engine) (context : SubmitContext) (cursor budget : Z) (call_return : option Z)
  : option (Walk * Engine * M) :=
  if budget =? 0 then Some (Stopped cursor, abort_walk e, memory) else
  let budget := budget - 1 in
  match nv_read_dword memory cursor with
  | None => Some (Stopped cursor, abort_walk e, memory)
  | Some word =>
    let cursor := wrapping_add32 cursor 4 in
    if Z.land word 0xE0000003 =? 0x20000000 then Some (Continues (Z.land word 0x1FFFFFFC) budget call_return, e, memory)
    else if Z.land word 3 =? 1 then Some (Continues (Z.land word 0xFFFFFFFC) budget call_return, e, memory)
    else if Z.land word 3 =? 2 then Some (Continues (Z.land word 0xFFFFFFFC) budget (Some cursor), e, memory)
    else if word =? 0x00020000 then
      match call_return with
      | None => Some (Stopped cursor, abort_walk e, memory)
      | Some back => Some (Continues back budget None, e, memory)
      end
    else if negb (Z.land word 0xE0030003 =? 0) && negb (Z.land word 0xE0030003 =? 0x40000000) then
      Some (Stopped (wrapping_sub32 cursor 4), abort_walk e, memory)
    else
      let non_increasing := Z.land word 0xE0030003 =? 0x40000000 in
      let count := Z.land (Z.shiftr word 18) 0x7FF in
      let subchannel := Z.land (Z.shiftr word 13) 7 in
      let method := Z.land word 0x1FFC in
      let budget := Z.max 0 (budget - count) in
      '(whole, cursor, e, memory) ←
        apply_arguments (Z.to_nat count) memory e context subchannel method cursor non_increasing;
      Some (if whole : bool then Continues cursor budget call_return else Stopped cursor, e, memory)
  end.

Fixpoint walk_loop (fuel : nat) (memory : M) (e : Engine) (context : SubmitContext) (target cursor budget : Z)
    (call_return : option Z) : option (Z * Engine * M) :=
  if cursor =? target then Some (cursor, e, memory) else
  match fuel with
  | O => None
  | S fuel =>
    '(walk, e, memory) ← walk_step memory e context cursor budget call_return;
    match walk with
    | Stopped cursor => Some (cursor, e, memory)
    | Continues cursor budget call_return => walk_loop fuel memory e context target cursor budget call_return
    end
  end.

(** Every round but the one that finds the budget spent takes from it, so one
    more round than the budget is enough ([walk_loop_safe]). *)
Definition submit (memory : M) (e : Engine) (channel pramin ramht_raw get put : Z) : option (Z * Engine * M) :=
  let e := on_stats e (fun p => with_ps_submissions p (bump (ps_submissions p))) in
  walk_loop (S (Z.to_nat MAX_DWORDS_PER_SUBMIT)) memory e (mkSubmitContext channel pramin ramht_raw)
    (Z.land put (not32 3)) (Z.land get (not32 3)) MAX_DWORDS_PER_SUBMIT None.
End Walk.

(** ** What the core asks of the engine *)

Section Reports.
Context {F : Type}.

(** [sort_by_key(Reverse(key))]: largest first, a stable sort. *)
Fixpoint insert_descending {A} (key : A -> Z) (t : A) (l : list A) : list A :=
  match l with
  | [] => [t]
  | u :: l => if key u <? key t then t :: u :: l else u :: insert_descending key t l
  end.
Definition sort_descending {A} (key : A -> Z) (l : list A) : list A :=
  foldl (fun sorted t => insert_descending key t sorted) [] l.

(** The entries of a [HashMap] come in any order; equal keys keep it. *)
Definition busiest_targets (e : PushbufferEngine F) (limit : nat) : list (Z * Z) :=
  take limit (sort_descending snd (map_to_list (pe_pixels_by_target e))).

Definition presentable (entry : Z * SurfaceHistory) : bool :=
  (PRESENTABLE_WIDTH <=? (sh_geometry entry.2).1.2) && (0 <? sh_drawn entry.2).

Definition presentable_targets (e : PushbufferEngine F) : list (Z * Z * Z * Z) :=
  map (fun entry => let '(pitch, width, height) := sh_geometry entry.2 in (entry.1, pitch, width, height))
    (sort_descending (fun entry => sh_drawn entry.2)
       (List.filter presentable (map_to_list (pe_surface_history e)))).

Definition presented_target (e : PushbufferEngine F) : option (Z * Z * Z * Z) := head (presentable_targets e).

Definition top_methods (e : PushbufferEngine F) (limit : nat) : list (Z * Z * Z) :=
  take limit (sort_descending snd (map_to_list (pe_method_counts e))).

Definition transform_program (e : PushbufferEngine F) (channel : Z) : list (list Z) :=
  match pe_channels e !! channel with
  | None => []
  | Some s => drop (Z.to_nat (tr_program_start (ch_transform s))) (tr_program (ch_transform s))
  end.

Definition transform_constants (e : PushbufferEngine F) (channel : Z) : list (list F) :=
  match pe_channels e !! channel with None => [] | Some s => tr_constants (ch_transform s) end.

Definition take_completed_frame (e : PushbufferEngine F) : option (Z * Z * Z * Z) * PushbufferEngine F :=
  (pe_completed_frame e, with_pe_completed_frame e None).

Definition set_unfiltered (e : PushbufferEngine F) (unfiltered : bool) : PushbufferEngine F := with_pe_unfiltered e unfiltered.
End Reports.
