(* ===== verification/PushbufferSafety.v ===== *)
(** * The pushbuffer engine never fails

    Every array the methods index has the length the source declares, whatever
    the guest submits, so no method panics; the drawing of a primitive indexes
    its vertices in range; and the budget ends the walk.  The well-formedness
    of the engine is kept by every submission, together with whatever its
    memory's stores keep. *)

From S2P Require Import Prelude GuestTypes GpuMemory Textures GpuState Pushbuffer.

Local Open Scope Z_scope.

(** ** Results that are not panics *)

Definition safe {A} (P : A -> Prop) (r : option A) : Prop := exists x, r = Some x /\ P x.

Create HintDb pusher.

Lemma safe_some {A} (P : A -> Prop) x : P x -> safe P (Some x).
Proof. by exists x. Qed.

Lemma safe_fmap {A B} (P : A -> Prop) (Q : B -> Prop) f r : safe P r -> (forall x, P x -> Q (f x)) -> safe Q (f <$> r).
Proof. intros (x & -> & Hx) Hf. exists (f x). auto. Qed.

Lemma safe_bind {A B} (P : A -> Prop) (Q : B -> Prop) f r : safe P r -> (forall x, P x -> safe Q (f x)) -> safe Q (r ≫= f).
Proof. intros (x & -> & Hx) Hf. by apply Hf. Qed.

Lemma safe_lookup {A} (l : list A) n i : length l = n -> (Z.to_nat i < n)%nat -> safe (fun _ => True) (l !! Z.to_nat i).
Proof. intros Hl Hi. destruct (lookup_lt_is_Some_2 l (Z.to_nat i)) as [x Hx]; [lia|]. by exists x. Qed.

Lemma safe_store {A} (l : list A) n i v : length l = n -> (Z.to_nat i < n)%nat ->
  safe (fun l' => length l' = n) (store_at l i v).
Proof.
  intros Hl Hi. unfold store_at. rewrite (proj2 (Nat.ltb_lt _ _)) by lia. apply safe_some. by rewrite length_insert.
Qed.
(** A table of rows of one width. *)
Definition grid {A} (rows columns : nat) (t : list (list A)) : Prop :=
  length t = rows /\ Forall (fun row => length row = columns) t.

Section Grid.
Context {A : Type} (rows columns : nat).
Implicit Types t : list (list A).

Lemma grid_replicate (x : A) : grid rows columns (replicate rows (replicate columns x)).
Proof. split; [apply length_replicate|]. apply Forall_replicate, length_replicate. Qed.

Lemma grid_row t i : grid rows columns t -> (Z.to_nat i < rows)%nat ->
  safe (fun row => length row = columns) (t !! Z.to_nat i).
Proof.
  intros [Hl Ht] Hi. destruct (safe_lookup t rows i Hl Hi) as (row & Hrow & _). exists row. split; [done|].
  by apply (Forall_lookup_1 _ _ _ _ Ht Hrow).
Qed.

Lemma grid_store t i row : grid rows columns t -> (Z.to_nat i < rows)%nat -> length row = columns ->
  safe (grid rows columns) (store_at t i row).
Proof.
  intros [Hl Ht] Hi Hrow. destruct (safe_store t rows i row Hl Hi) as (t' & Heq & Hl'). exists t'. split; [done|].
  split; [done|]. unfold store_at in Heq. case_match; [|done]. injection Heq as <-. by apply Forall_insert.
Qed.

Lemma grid_store_nested t i j x : grid rows columns t -> (Z.to_nat i < rows)%nat -> (Z.to_nat j < columns)%nat ->
  safe (grid rows columns) (store_nested t i j x).
Proof.
  intros Ht Hi Hj. unfold store_nested. eapply safe_bind; [by apply grid_row|]. intros row Hrow.
  eapply safe_bind; [by apply (safe_store _ columns)|]. intros row' Hrow'. by apply grid_store.
Qed.
End Grid.

Lemma grid_upload {A} rows (t : list (list A)) load x : grid rows 4 t -> safe (grid rows 4) (upload t load x).
Proof.
  intros [Hl Ht]. unfold upload. destruct (t !! _) as [slot|] eqn:Hslot; [|by apply safe_some].
  eapply safe_bind.
  - apply (safe_store _ 4); [by apply (Forall_lookup_1 _ _ _ _ Ht Hslot)|]. pose proof (Z.mod_pos_bound load 4). lia.
  - intros slot' Hslot'. apply safe_some. split; [by rewrite length_insert|]. by apply Forall_insert.
Qed.

(** A round of the hash shifts a bit out at least, so as many rounds as the
    handle has bits reach the end of the loop. *)
Lemma hash_loop_fuel bits mask k : 1 <= bits -> forall fuel hash value, 0 <= value < 2 ^ Z.of_nat fuel ->
  hash_loop (fuel + k) bits mask hash value = hash_loop fuel bits mask hash value.
Proof.
  intros Hbits. induction fuel as [|fuel IH]; intros hash value Hv.
  - assert (value = 0) as -> by lia. by destruct k.
  - cbn [Nat.add hash_loop]. destruct (value =? 0); [done|]. apply IH. rewrite Z.shiftr_div_pow2 by lia.
    split; [apply Z.div_pos; lia|]. apply Z.div_lt_upper_bound; [lia|].
    assert (2 ^ 1 <= 2 ^ bits) by (apply Z.pow_le_mono_r; lia). rewrite Nat2Z.inj_succ, Z.pow_succ_r in Hv by lia. nia.
Qed.

(** ** Well-formed channels *)

Section Engine.
Context {F : Type} `{DrawStage F}.

Record vertex_ok (v : VertexState F) : Prop := {
  vo_formats : length (vx_formats v) = 16%nat;
  vo_scene_ambient : length (vx_scene_ambient v) = 3%nat;
  vo_material_emission : length (vx_material_emission v) = 3%nat;
  vo_light_ambient : length (vx_light_ambient v) = 3%nat;
  vo_light_diffuse : length (vx_light_diffuse v) = 3%nat;
  vo_light_direction : length (vx_light_direction v) = 3%nat;
  vo_model_view : length (vx_model_view v) = 16%nat;
  vo_inverse_model_view : length (vx_inverse_model_view v) = 16%nat;
  vo_texgen : grid 4 4 (vx_texgen v);
  vo_texture_matrix_enable : length (vx_texture_matrix_enable v) = 4%nat;
  vo_texture_matrix : grid 4 16 (vx_texture_matrix v);
  vo_constants : grid 16 4 (vx_constants v);
  vo_constant_set : length (vx_constant_set v) = 16%nat;
  vo_array_offsets : length (vx_array_offsets v) = 16%nat;
  vo_array_strides : length (vx_array_strides v) = 16%nat;
  vo_composite : length (vx_composite v) = 16%nat;
  vo_viewport_scale : length (vx_viewport_scale v) = 4%nat;
  vo_viewport_offset : length (vx_viewport_offset v) = 4%nat;
  vo_elements : Z.of_nat (length (vx_elements v)) <= MAX_ELEMENTS;
  vo_inline : Z.of_nat (length (vx_inline v)) <= MAX_INLINE_DWORDS;
}.

Record combiner_ok (c : CombinerState F) : Prop := {
  co_stages : length (cb_stages c) = 8%nat;
  co_factor0 : grid 8 4 (cb_factor0 c);
  co_factor1 : grid 8 4 (cb_factor1 c);
  co_active : 0 <= cb_active c <= 8;
}.

Record transform_ok (t : TransformState F) : Prop := {
  to_program : grid (Z.to_nat TRANSFORM_PROGRAM_SLOTS) 4 (tr_program t);
  to_constants : grid (Z.to_nat TRANSFORM_CONSTANT_SLOTS) 4 (tr_constants t);
  to_start : tr_program_start t <= TRANSFORM_PROGRAM_SLOTS;
}.

Record channel_ok (s : ChannelState F) : Prop := {
  ok_handles : length (ch_subchannel_handles s) = 8%nat;
  ok_vertex : vertex_ok (ch_vertex s);
  ok_transform : transform_ok (ch_transform s);
  ok_combiner : combiner_ok (ch_combiner s);
  ok_textures : length (ch_textures s) = 4%nat;
  ok_texture_dma : length (ch_texture_dma s) = 2%nat;
  ok_vertex_dma : length (ch_vertex_dma s) = 2%nat;
}.

Lemma VertexState_default_ok : vertex_ok VertexState_default.
Proof. constructor; try apply length_replicate; try apply grid_replicate; by vm_compute. Qed.

Lemma CombinerState_default_ok : combiner_ok CombinerState_default.
Proof. constructor; [apply length_replicate | apply grid_replicate.. | by vm_compute]. Qed.

Lemma TransformState_default_ok : transform_ok TransformState_default.
Proof. constructor; [apply grid_replicate.. | by vm_compute]. Qed.

Lemma ChannelState_default_ok : channel_ok ChannelState_default.
Proof.
  constructor; try apply length_replicate; try reflexivity.
  - apply VertexState_default_ok.
  - apply TransformState_default_ok.
  - apply CombinerState_default_ok.
Qed.

(** ** Methods *)

(** A method a group does not know is left to the next one. *)
Definition method_safe (r : option (option (ChannelState F))) : Prop :=
  match r with Some r => safe channel_ok r | None => True end.

Lemma with_surface_ok s f : channel_ok s -> channel_ok (with_ch_surface s f).
Proof. by intros []. Qed.

Lemma with_vertex_ok s v : channel_ok s -> vertex_ok v -> channel_ok (with_ch_vertex s v).
Proof. by intros [] Hv. Qed.

Lemma with_transform_ok s t : channel_ok s -> transform_ok t -> channel_ok (with_ch_transform s t).
Proof. by intros [] Ht. Qed.

Lemma with_combiner_ok s c : channel_ok s -> combiner_ok c -> channel_ok (with_ch_combiner s c).
Proof. by intros [] Hc. Qed.

Lemma on_vertex_safe s r : channel_ok s -> safe vertex_ok r -> method_safe (on_vertex s r).
Proof. intros Hs Hr. eapply safe_fmap; [exact Hr|]. intros v. by apply with_vertex_ok. Qed.

Lemma on_combiner_safe s r : channel_ok s -> safe combiner_ok r -> method_safe (on_combiner s r).
Proof. intros Hs Hr. eapply safe_fmap; [exact Hr|]. intros c. by apply with_combiner_ok. Qed.

Lemma with_constants_ok v c f : vertex_ok v -> grid 16 4 c -> length f = 16%nat ->
  vertex_ok (with_vx_constant_set (with_vx_constants v c) f).
Proof. intros [] Hc Hf. by constructor. Qed.
End Engine.

Lemma before_lane (first past method k : Z) (n : nat) : before first past method = true -> 0 < k ->
  past - first <= k * Z.of_nat n -> (Z.to_nat ((method - first) / k) < n)%nat.
Proof.
  unfold before. rewrite andb_true_iff, Z.leb_le, Z.ltb_lt. intros [Hl Hu] Hk Hn.
  assert (0 <= (method - first) / k < Z.of_nat n); [|lia].
  split; [apply Z.div_pos; lia|]. apply Z.div_lt_upper_bound; lia.
Qed.

Lemma within_lane (first last method : Z) (n : nat) : within first last method = true ->
  last - first < 4 * Z.of_nat n -> (Z.to_nat ((method - first) / 4) < n)%nat.
Proof.
  intros Hm Hn. apply (before_lane first (last + 1)); [|lia..]. revert Hm. unfold within, before.
  rewrite !andb_true_iff, !Z.leb_le, Z.ltb_lt. lia.
Qed.

Lemma mask_lane x m (n : nat) : 0 <= m -> m < Z.of_nat n -> (Z.to_nat (Z.land x m) < n)%nat.
Proof. intros Hm Hn. pose proof (land_le_mask x m Hm). lia. Qed.

Lemma mod_lane x k (n : nat) : 0 < k -> k <= 4 * Z.of_nat n -> (Z.to_nat (x mod k / 4) < n)%nat.
Proof.
  intros Hk Hn. pose proof (Z.mod_pos_bound x k Hk). pose proof (Z.div_pos (x mod k) 4).
  pose proof (Z.div_lt_upper_bound (x mod k) 4 (Z.of_nat n)). lia.
Qed.

(** An index in range: masked, a remainder, or bounded by the guard of its
    arm. *)
Ltac lane :=
  first [ apply mask_lane; [lia | by vm_compute]
        | apply mod_lane; [lia | lia]
        | eapply within_lane; [eassumption | by vm_compute]
        | eapply before_lane; [eassumption | by vm_compute | by vm_compute] ].

(** The arms of a group, each with its guard. *)
Ltac arms :=
  repeat match goal with
  | |- method_safe (if ?b then _ else _) => destruct b eqn:?
  end; try exact I.

#[export] Hint Resolve vo_formats vo_scene_ambient vo_material_emission vo_light_ambient vo_light_diffuse
  vo_light_direction vo_model_view vo_inverse_model_view vo_texgen vo_texture_matrix_enable vo_texture_matrix
  vo_constants vo_constant_set vo_array_offsets vo_array_strides vo_composite vo_viewport_scale vo_viewport_offset
  vo_elements vo_inline co_stages co_factor0 co_factor1 co_active to_program to_constants to_start ok_handles
  ok_vertex ok_transform ok_combiner ok_textures ok_texture_dma ok_vertex_dma : pusher.

(** A field set to a value of its shape. *)
Ltac field_kept := intros; constructor; cbn; eauto with pusher.

(** A store into an array of the vertex or combiner state. *)
Ltac stored :=
  eapply safe_fmap;
    [ first [ eapply safe_store; [solve [eauto with pusher nocore] | lane]
            | eapply grid_store; [solve [eauto with pusher nocore] | lane | reflexivity]
            | eapply grid_store_nested; [solve [eauto with pusher nocore] | lane | lane] ]
    | field_kept ].

Section Methods.
Context {F : Type} `{DrawStage F}.
Implicit Types s : ChannelState F.
Implicit Types v : VertexState F.

Lemma bind_method_safe s subchannel method argument : channel_ok s ->
  method_safe (bind_method s subchannel method argument).
Proof.
  intros Hs. unfold bind_method. arms.
  - eapply safe_fmap; [eapply safe_store; [solve [eauto with pusher nocore] | lane]|]. field_kept.
  - apply safe_some. by destruct Hs.
Qed.

Lemma surface_method_safe s method argument : channel_ok s -> method_safe (surface_method s method argument).
Proof. intros Hs. unfold surface_method. arms; apply safe_some; by apply with_surface_ok. Qed.

Lemma fragment_method_safe s method argument : channel_ok s -> method_safe (fragment_method s method argument).
Proof. intros Hs. unfold fragment_method. arms; apply safe_some; by destruct Hs. Qed.

Lemma elements_push_ok v l : vertex_ok v -> Z.of_nat (length (vx_elements v ++ l)) <= MAX_ELEMENTS ->
  vertex_ok (with_vx_elements v (vx_elements v ++ l)).
Proof. intros [] Hl. by constructor. Qed.

Lemma geometry_method_safe s method argument : channel_ok s -> method_safe (geometry_method s method argument).
Proof.
  intros Hs. pose proof (ok_vertex s Hs) as Hv. unfold geometry_method. cbn zeta.
  arms; apply on_vertex_safe; try done; try stored.
  - eapply safe_bind; [eapply safe_store; [solve [eauto with pusher nocore] | lane]|]. intros formats Hf.
    eapply safe_bind; [eapply safe_store; [solve [eauto with pusher nocore] | lane]|]. intros strides Ht.
    apply safe_some. field_kept.
  - apply safe_some. destruct (_ && _) eqn:Hroom; [|done]. apply andb_true_iff in Hroom as [_ Hroom].
    apply elements_push_ok; [done|]. rewrite length_app. cbn. lia.
  - apply safe_some. destruct (_ && _) eqn:Hroom; [|done]. apply andb_true_iff in Hroom as [_ Hroom].
    apply elements_push_ok; [done|]. rewrite length_app. cbn. lia.
  - apply safe_some. destruct (_ && _) eqn:Hroom; [|done]. apply andb_true_iff in Hroom as [_ Hroom].
    destruct Hv. constructor; try done. cbn. rewrite length_app. cbn. lia.
Qed.

Lemma transform_method_safe s method argument : channel_ok s -> method_safe (transform_method s method argument).
Proof.
  intros Hs. pose proof (ok_transform s Hs) as Ht. unfold transform_method. cbn zeta. arms.
  - eapply safe_bind; [eapply grid_upload, to_program, Ht|]. intros program Hp. apply safe_some.
    apply with_transform_ok; [done|]. field_kept.
  - eapply safe_bind; [eapply grid_upload, to_constants, Ht|]. intros constants Hc. apply safe_some.
    apply with_transform_ok; [done|]. field_kept.
  - apply safe_some, with_transform_ok; [done|]. field_kept.
  - apply safe_some, with_transform_ok; [done|]. field_kept.
  - apply safe_some, with_transform_ok; [done|]. field_kept. apply Z.le_min_r.
  - apply safe_some, with_transform_ok; [done|]. field_kept.
Qed.

Lemma store_stage_safe (c : CombinerState F) stage f : combiner_ok c -> (Z.to_nat stage < 8)%nat ->
  safe combiner_ok (store_stage c stage f).
Proof.
  intros Hc Hi. unfold store_stage. eapply safe_bind; [by apply (safe_lookup _ 8); [apply co_stages|]|].
  intros old _. eapply safe_bind; [by apply (safe_store _ 8); [apply co_stages|]|]. intros stages Hl.
  apply safe_some. field_kept.
Qed.

Lemma combiner_method_safe s method argument : channel_ok s -> method_safe (combiner_method s method argument).
Proof.
  intros Hs. pose proof (ok_combiner s Hs) as Hc. unfold combiner_method. cbn zeta.
  arms; apply on_combiner_safe; try done; try (apply store_stage_safe; [done | lane]); try stored.
  - apply safe_some. field_kept.
  - apply safe_some. field_kept.
  - apply safe_some. field_kept. pose proof (land_le_mask argument 0xFF). lia.
Qed.

Lemma lighting_method_safe s method argument : channel_ok s -> method_safe (lighting_method s method argument).
Proof.
  intros Hs. pose proof (ok_vertex s Hs) as Hv. unfold lighting_method, store_lane. cbn zeta.
  arms; apply on_vertex_safe; try done; try stored; apply safe_some; field_kept.
Qed.

Lemma constant_2f_safe (v : VertexState F) attribute lane argument : vertex_ok v -> (Z.to_nat attribute < 16)%nat ->
  (Z.to_nat lane < 4)%nat -> safe vertex_ok (constant_2f v attribute lane argument).
Proof.
  intros Hv Ha Hl. unfold constant_2f.
  eapply safe_bind; [by apply (safe_lookup _ 16); [apply vo_constant_set|]|]. intros set _.
  apply (safe_bind vertex_ok).
  - destruct set; [by apply safe_some|].
    eapply safe_bind; [by apply (grid_store 16 4); [apply vo_constants| |]|]. intros constants Hc.
    eapply safe_bind; [by apply (safe_store _ 16); [apply vo_constant_set|]|]. intros flags Hf.
    apply safe_some. by apply with_constants_ok.
  - intros v' Hv'. eapply safe_fmap; [by apply (grid_store_nested 16 4); [apply vo_constants| |]|]. field_kept.
Qed.

Lemma constant_4f_safe (v : VertexState F) attribute lane argument : vertex_ok v -> (Z.to_nat attribute < 16)%nat ->
  (Z.to_nat lane < 4)%nat -> safe vertex_ok (constant_4f v attribute lane argument).
Proof.
  intros Hv Ha Hl. unfold constant_4f.
  eapply safe_bind; [by apply (safe_store _ 16); [apply vo_constant_set|]|]. intros flags Hf.
  eapply safe_bind; [by apply (grid_store_nested 16 4); [apply vo_constants| |]|]. intros constants Hc.
  apply safe_some. field_kept.
Qed.

Lemma coordinate_method_safe s method argument : channel_ok s -> method_safe (coordinate_method s method argument).
Proof.
  intros Hs. pose proof (ok_vertex s Hs) as Hv. unfold coordinate_method. cbn zeta.
  arms; apply on_vertex_safe; try done; try stored.
  - apply constant_2f_safe; [done | lane | lane].
  - apply constant_4f_safe; [done | lane | lane].
Qed.

Lemma texture_method_safe s method argument : channel_ok s -> method_safe (texture_method s method argument).
Proof.
  intros Hs. unfold texture_method. cbn zeta. arms.
  assert (Z.to_nat ((method - METHOD_SET_TEXTURE_OFFSET) / TEXTURE_UNIT_STRIDE) < 4)%nat as Hunit by lane.
  eapply safe_bind; [by apply (safe_lookup _ 4); [apply ok_textures|]|]. intros texture _.
  eapply safe_bind; [by apply (safe_store _ 4); [apply ok_textures|]|]. intros textures Ht.
  apply safe_some. field_kept.
Qed.

(** The first group that knows a method decides. *)
Lemma method_safe_or (r next : option (option (ChannelState F))) : method_safe r -> method_safe next ->
  method_safe (match r with Some r => Some r | None => next end).
Proof. by destruct r. Qed.

Lemma channel_method_safe s subchannel method argument : channel_ok s ->
  method_safe (channel_method s subchannel method argument).
Proof.
  intros Hs. unfold channel_method.
  repeat apply method_safe_or; auto using bind_method_safe, surface_method_safe, fragment_method_safe,
    geometry_method_safe, transform_method_safe, combiner_method_safe, lighting_method_safe, coordinate_method_safe,
    texture_method_safe.
Qed.
End Methods.

(** ** The engine *)

(** The arrays of the statistics, how many methods were applied, and how many
    walks were given up. *)
Record stats_ok (d : Z * Z) (p : PusherStats) : Prop := {
  st_dwords : ps_method_dwords p = d.1;
  st_aborted : ps_aborted p = d.2;
  st_attributes : length (ps_constant_attributes p) = 16%nat;
  st_bound : length (ps_bound_by_unit p) = 4%nat;
  st_degenerate : length (ps_degenerate_texcoords p) = 4%nat;
}.

Record engine_ok {F} (d : Z * Z) (e : PushbufferEngine F) : Prop := {
  en_channels : map_Forall (fun _ s => channel_ok s) (pe_channels e);
  en_last_texture : length (pe_last_texture e) = 4%nat;
  en_stats : stats_ok d (pe_stats e);
}.

#[export] Hint Resolve st_dwords st_aborted st_attributes st_bound st_degenerate en_channels en_last_texture en_stats : pusher.

(** An update of fields that well-formedness does not constrain. *)
Ltac engine_kept :=
  intros; match goal with He : engine_ok _ _ |- _ => destruct He as [? ? []] end;
  constructor; [cbn; assumption | cbn; rewrite ?length_insert; assumption |
                constructor; cbn; rewrite ?length_alter; assumption].

Section Engine.
Context {F : Type} `{DrawStage F}.
Implicit Types e : PushbufferEngine F.
Implicit Types s : ChannelState F.

Lemma PushbufferEngine_default_ok : engine_ok (0, 0) (PushbufferEngine_default (F := F)).
Proof. constructor; [apply map_Forall_empty | done | by constructor]. Qed.

Lemma put_channel_ok d e channel s : engine_ok d e -> channel_ok s -> engine_ok d (put_channel e channel s).
Proof. intros [Hc Ht Hp] Hs. constructor; [|done..]. by apply map_Forall_insert_2. Qed.

Lemma channel_found_ok d e channel : engine_ok d e ->
  channel_ok (default ChannelState_default (pe_channels e !! channel)).
Proof.
  intros He. destruct (pe_channels e !! channel) as [s|] eqn:Hs; [|apply ChannelState_default_ok].
  by apply (map_Forall_lookup_1 _ _ _ _ (en_channels d e He) Hs).
Qed.

Lemma count_method_ok d e handle method : engine_ok d e -> engine_ok d (count_method e handle method).
Proof. unfold count_method. cbn zeta. case_match; engine_kept. Qed.

Lemma seen_format_ok d e format f : engine_ok d e -> engine_ok d (seen_format e format f).
Proof. engine_kept. Qed.

Lemma skipped_ok d e : engine_ok d e ->
  engine_ok d (on_stats e (fun p => with_ps_skipped_primitives p (bump (ps_skipped_primitives p)))).
Proof. engine_kept. Qed.

Lemma abort_walk_ok d a e : engine_ok (d, a) e -> engine_ok (d, bump a) (abort_walk e).
Proof. intros [? ? [? Ha]]. constructor; [done..|]. constructor; try done. cbn. by rewrite Ha. Qed.

Lemma method_counted_ok k a e : engine_ok (wrap64 k, a) e ->
  engine_ok (wrap64 (k + 1), a) (on_stats e (fun p => with_ps_method_dwords p (bump (ps_method_dwords p)))).
Proof.
  intros [? ? [Hd ?]]. constructor; [done..|]. constructor; try done. cbn. rewrite Hd. unfold bump. cbn [fst].
  unfold wrap64, wrap. apply Zplus_mod_idemp_l.
Qed.

Lemma record_clear_ok d e base written : engine_ok d e -> engine_ok d (record_clear e base written).
Proof. engine_kept. Qed.

Lemma record_draw_ok d e target drawn : engine_ok d e -> engine_ok d (record_draw e target drawn).
Proof. unfold record_draw. cbn zeta. case_match; engine_kept. Qed.

Lemma retarget_ok d e target : engine_ok d e -> engine_ok d (retarget e target).
Proof. unfold retarget. repeat case_match; engine_kept. Qed.

Lemma bind_units_ok d units : forall e unit bound, engine_ok d e -> engine_ok d (bind_units e unit units bound).2.
Proof.
  induction units as [|[texture dma] units IH]; intros e unit bound He; cbn [bind_units]; [done|].
  destruct (negb _); [by apply IH|]. cbn zeta. destruct (bind_texture texture dma) as [sampler|].
  - apply IH. destruct (unit =? 0)%nat; engine_kept.
  - cbn [snd]. engine_kept.
Qed.

Lemma count_degenerate_ok d bound : forall e unit (vertices : list ScreenVertex), engine_ok d e ->
  engine_ok d (count_degenerate e unit bound vertices).
Proof.
  induction bound as [|sampler bound IH]; intros e unit vertices He; cbn [count_degenerate]; [done|].
  apply IH. destruct (_ && _); [engine_kept | done].
Qed.

(** ** Triangles *)

Definition corners_in (count : nat) (t : nat * nat * nat) : Prop :=
  (t.1.1 < count /\ t.1.2 < count /\ t.2 < count)%nat.

Lemma primitive_triangles_in primitive count l : primitive_triangles primitive count = Some l ->
  Forall (corners_in count) l.
Proof.
  unfold primitive_triangles, corners_in. repeat case_match; [intros <-%Some_inj..|done].
  - apply Forall_map, Forall_forall. intros i Hi%list_elem_of_In%in_seq. cbn.
    pose proof (Nat.Div0.mul_div_le count 3). lia.
  - apply Forall_map, Forall_forall. intros i Hi%list_elem_of_In%in_seq. destruct (Nat.even i); cbn; lia.
  - apply Forall_map, Forall_forall. intros i Hi%list_elem_of_In%in_seq. cbn. lia.
  - apply Forall_forall. intros t Ht%list_elem_of_In%in_flat_map. destruct Ht as (q & Hq%in_seq & Ht).
    pose proof (Nat.Div0.mul_div_le count 4). destruct Ht as [<-|[<-|[]]]; cbn; lia.
Qed.

Lemma corner_behind_safe (vertices : list ScreenVertex) i : (i < length vertices)%nat ->
  exists b, corner_behind vertices i = Some b.
Proof. intros Hi. unfold corner_behind. apply lookup_lt_is_Some_2 in Hi as [v ->]. by eexists. Qed.

Lemma triangle_behind_safe (vertices : list ScreenVertex) t : corners_in (length vertices) t ->
  exists b, triangle_behind vertices t = Some b.
Proof.
  destruct t as [[a b] c]. intros (Ha & Hb & Hc). cbn [fst snd] in Ha, Hb, Hc. unfold triangle_behind.
  apply corner_behind_safe in Ha as [x ->], Hb as [y ->], Hc as [z ->]. cbn. destruct x, y; cbn; eauto.
Qed.

Lemma drawable_triangles_safe (vertices : list ScreenVertex) l : Forall (corners_in (length vertices)) l ->
  exists kept dropped, drawable_triangles vertices l = Some (kept, dropped) /\
    Forall (corners_in (length vertices)) kept /\ Z.of_nat (length kept) + dropped = Z.of_nat (length l).
Proof.
  induction 1 as [|t l Ht Hl (kept & dropped & Heq & Hkept & Hn)]; cbn [drawable_triangles].
  { exists [], 0. split; [done|]. split; [constructor | done]. }
  apply triangle_behind_safe in Ht as Hb. destruct Hb as [b ->]. rewrite Heq. cbn.
  destruct b; [exists kept, (dropped + 1) | exists (t :: kept), dropped]; (split; [done|]); (split; [by try constructor|]);
    cbn [length]; lia.
Qed.
End Engine.

(** ** What stores keep, submissions keep *)

Section Memory.
Context {F : Type} `{DrawStage F} {M : Type} `{Nv2aMemory M}.
Context (Kept : M -> Prop)
  (Hwrite : forall m a v, Kept m -> Kept (nv_write_dword m a v).2)
  (Hfill : forall m a v n, Kept m -> Kept (nv_fill_dwords m a v n).2)
  (Hdraw : forall m target vertices triangles bound pipeline combiner, Kept m ->
     Kept (rasterize_draw M _ m target vertices triangles bound pipeline combiner).2).
Implicit Types e : PushbufferEngine F.
Implicit Types s : ChannelState F.
Implicit Types m : M.

Definition state_ok (d : Z * Z) (r : PushbufferEngine F * M) : Prop := engine_ok d r.1 /\ Kept r.2.

Lemma clear_rows_keep n : forall m origin limit base pitch first width value row written, Kept m ->
  Kept (clear_rows n m origin limit base pitch first width value row written).2.
Proof.
  induction n as [|n IH]; intros m origin limit base pitch first width value row written Hm; cbn [clear_rows]; [done|].
  cbn zeta. case_match; [done|].
  pose proof (Hfill m (wrapping_add32 (wrapping_add32 base (wrapping_mul32 row pitch)) (wrap32 (first * 4))) value width Hm).
  destruct (nv_fill_dwords _ _ _ _) as [k m']. by apply IH.
Qed.

Lemma clear_zeta_keeps m f : Kept m -> Kept (clear_zeta_surface m f).
Proof. intros Hm. unfold clear_zeta_surface. repeat case_match; try done. by apply clear_rows_keep. Qed.

Lemma clear_color_ok d m e f : engine_ok d e -> Kept m -> state_ok d (clear_color_surface m e f).
Proof.
  intros He Hm. unfold clear_color_surface. destruct (sf_color_dma f) as [color|]; [|by split].
  destruct (_ =? 0); [by split|]. destruct (clear_bounds _ _) as [[[[first beyond] top] bottom]|]; [|by split].
  cbn zeta. pose proof (clear_rows_keep (Z.to_nat (bottom - top)) m (wrapping_add32 (dma_base color) (sf_color_offset f))
    (dma_limit color) (wrapping_add32 (dma_base color) (sf_color_offset f)) (sf_color_pitch f) first (beyond - first)
    (sf_clear_color f) top 0 Hm) as Hr.
  destruct (clear_rows _ _ _ _ _ _ _ _ _ _ _) as [written m']. split; [|done].
  cbn [fst]. case_match; [by apply record_clear_ok | done].
Qed.

Lemma draw_primitive_safe d m e s dma primitive (vertices : list ScreenVertex) : engine_ok d e -> Kept m ->
  safe (state_ok d) (draw_primitive m e s dma primitive vertices).
Proof.
  intros He Hm. unfold draw_primitive. cbn zeta.
  assert (engine_ok d (with_pe_last_combiner e (ch_combiner s))) as He1 by (clear -He; engine_kept).
  match goal with |- context [match ?o with Some _ => _ | None => _ end] => destruct o as [target|] end;
    [|apply safe_some; split; [by apply skipped_ok | done]].
  pose proof (bind_units_ok d (zip (ch_textures s) dma) _ 0 [] He1) as He2.
  destruct (bind_units _ _ _ _) as [[bound|] e2]; cbn [snd] in He2; [|by apply safe_some].
  pose proof (count_degenerate_ok d bound e2 0 vertices He2) as He3.
  destruct (primitive_triangles primitive (length vertices)) as [triangles|] eqn:Ht;
    [|apply safe_some; split; [by apply skipped_ok | done]].
  destruct (drawable_triangles_safe vertices triangles) as (kept & dropped & -> & Hkept & _).
  { by eapply primitive_triangles_in. }
  cbn [mbind option_bind].
  pose proof (Hdraw m target vertices kept bound (pipeline_of e s) (ch_combiner s) Hm) as Hm'.
  destruct (rasterize_draw _ _ _ _ _ _ _ _ _) as [drawn m']. apply safe_some. split; [|done].
  apply record_draw_ok. apply (retarget_ok _ _ target) in He3. clear -He3. engine_kept.
Qed.

Lemma closed_vertex_ok (v : VertexState F) p : vertex_ok v ->
  vertex_ok (with_vx_elements (with_vx_inline (with_vx_primitive v p) []) []).
Proof. intros []. constructor; try done. Qed.

Lemma unit_dma_safe s l : channel_ok s -> safe (fun _ => True) (mapM (unit_dma s) l).
Proof.
  intros Hs. induction l as [|t l IH]; [by apply safe_some|]. cbn. eapply safe_bind.
  - apply (safe_lookup _ 2); [by apply ok_texture_dma | apply mask_lane; by vm_compute].
  - intros x _. eapply safe_bind; [exact IH|]. intros k _. by apply safe_some.
Qed.

Lemma end_primitive_safe d m e channel s : engine_ok d e -> channel_ok s -> Kept m ->
  safe (state_ok d) (end_primitive m e channel s).
Proof.
  intros He Hs Hm. unfold end_primitive. destruct (vx_primitive (ch_vertex s)) as [primitive|].
  - cbn zeta.
    assert (channel_ok (with_ch_vertex s (with_vx_elements (with_vx_inline (with_vx_primitive (ch_vertex s) None) []) [])))
      as Hs' by (apply with_vertex_ok; [done | apply closed_vertex_ok, ok_vertex, Hs]).
    eapply safe_bind; [by apply unit_dma_safe|]. intros dma _. apply draw_primitive_safe; [|done].
    by apply put_channel_ok.
  - apply safe_some. split; [by apply put_channel_ok | done].
Qed.

Lemma constant_4ub_safe d e channel s attribute argument : engine_ok d e -> channel_ok s ->
  (Z.to_nat attribute < 16)%nat -> safe (engine_ok d) (constant_4ub e channel s attribute argument).
Proof.
  intros He Hs Ha. unfold constant_4ub. cbn zeta. pose proof (ok_vertex s Hs) as Hv.
  eapply safe_bind; [by apply (grid_store 16 4); [apply vo_constants| |]|]. intros constants Hc.
  eapply safe_bind; [by apply (safe_store _ 16); [apply vo_constant_set|]|]. intros flags Hf.
  eapply safe_bind; [apply (safe_lookup _ 16); [exact (st_attributes d _ (en_stats d e He)) | done]|]. intros record _.
  eapply safe_bind; [apply (safe_store _ 16); [exact (st_attributes d _ (en_stats d e He)) | done]|]. intros records Hr.
  apply safe_some.
  destruct (put_channel_ok _ _ channel _ He (with_vertex_ok _ _ Hs (with_constants_ok _ _ _ Hv Hc Hf))) as [Hch Hlt []]. constructor; [done.. |]. by constructor.
Qed.

Lemma kept_state d e m : engine_ok d e -> Kept m -> safe (state_ok d) (Some (e, m)).
Proof. intros He Hm. by apply safe_some. Qed.

Lemma effect_method_safe d m e context s method argument : engine_ok d e -> channel_ok s -> Kept m ->
  safe (state_ok d) (effect_method m e context s method argument).
Proof.
  intros He Hs Hm. unfold effect_method. cbn zeta.
  repeat match goal with |- safe _ (if ?b then _ else _) => destruct b eqn:? end; try by apply kept_state.
  - apply kept_state; [|done]. apply put_channel_ok; [done|]. by destruct Hs.
  - apply kept_state; [|done]. apply put_channel_ok; [done|]. by destruct Hs.
  - assert (state_ok d (if has_bits argument CLEAR_COLOR_MASK then clear_color_surface m e (ch_surface s) else (e, m)))
      as Hclear by (case_match; [by apply clear_color_ok | by split]).
    destruct (if has_bits argument CLEAR_COLOR_MASK then _ else _) as [e' m']. destruct Hclear as [He' Hm'].
    apply kept_state; [done|]. case_match; [by apply clear_zeta_keeps | done].
  - eapply safe_bind; [apply (safe_store _ 2); [by apply ok_vertex_dma | unfold bool_u; case_match; cbn; lia]|]. intros dma Hd.
    apply kept_state; [|done]. apply put_channel_ok; [done|]. by destruct Hs.
  - eapply safe_bind; [apply (constant_4ub_safe d); [done | done | lane]|]. intros e' He'. by apply kept_state.
  - eapply safe_bind; [apply (safe_store _ 2); [by apply ok_texture_dma | unfold bool_u; case_match; cbn; lia]|]. intros dma Hd.
    apply kept_state; [|done]. apply put_channel_ok; [done|]. by destruct Hs.
  - by apply end_primitive_safe.
  - apply kept_state; [|done]. apply put_channel_ok; [done|]. apply with_vertex_ok; [done|].
    apply closed_vertex_ok, ok_vertex, Hs.
  - destruct (ch_semaphore s) as [semaphore|]; [|by apply kept_state].
    pose proof (Hwrite m (wrapping_add32 (dma_base semaphore) (ch_semaphore_offset s)) argument Hm) as Hm'.
    destruct (nv_write_dword _ _ _) as [[] m']; apply kept_state; try done. clear -He. engine_kept.
Qed.

Lemma apply_method_safe d m e context subchannel method argument : engine_ok d e -> Kept m ->
  safe (state_ok d) (apply_method m e context subchannel method argument).
Proof.
  intros He Hm. unfold apply_method. cbn zeta.
  set (e0 := on_stats e _). assert (engine_ok d e0) as He0 by (clear -He; unfold e0; engine_kept). clearbody e0.
  set (s := default _ _). assert (channel_ok s) as Hs by (eapply channel_found_ok; exact He0). clearbody s.
  eapply safe_bind; [apply (safe_lookup _ 8); [by apply ok_handles | apply mask_lane; by vm_compute]|].
  intros bound _.
  assert (engine_ok d (count_method (put_channel e0 (sc_channel context) s) bound method)) as He1
    by by apply count_method_ok, put_channel_ok.
  pose proof (channel_method_safe s subchannel method argument Hs) as Hmethod.
  destruct (channel_method s subchannel method argument) as [r|]; [|by apply effect_method_safe].
  eapply safe_bind; [exact Hmethod|]. intros s' Hs'. apply kept_state; [|done]. by apply put_channel_ok.
Qed.

(** ** The walk *)

Lemma apply_arguments_safe a context subchannel non_increasing count : forall k m e method cursor,
  engine_ok (wrap64 k, a) e -> Kept m -> exists whole cursor' e' m' n,
  apply_arguments count m e context subchannel method cursor non_increasing = Some (whole, cursor', e', m') /\
  0 <= n <= Z.of_nat count /\ engine_ok (wrap64 (k + n), if whole : bool then a else bump a) e' /\ Kept m'.
Proof.
  induction count as [|count IH]; intros k m e method cursor He Hm; cbn [apply_arguments].
  { exists true, cursor, e, m, 0. rewrite Z.add_0_r. split_and!; try done; lia. }
  destruct (nv_read_dword m cursor) as [argument|].
  2:{ exists false, cursor, (abort_walk e), m, 0. rewrite Z.add_0_r.
      split_and!; [done | lia | lia | by apply abort_walk_ok | done]. }
  cbn zeta. apply method_counted_ok in He.
  destruct (apply_method_safe _ m _ context subchannel method argument He Hm) as ([e1 m1] & -> & He1 & Hm1).
  cbn [mbind option_bind fst snd] in *.
  destruct (IH (k + 1) m1 e1 (if non_increasing then method else wrap16 (method + 4)) (wrapping_add32 cursor 4) He1 Hm1)
    as (whole & cursor' & e' & m' & n & -> & Hn & He' & Hm').
  exists whole, cursor', e', m', (1 + n). rewrite Z.add_assoc. split_and!; try done; lia.
Qed.

(** How many methods a walk with some budget left can still apply: a header
    is not refused for having more arguments than the budget. *)
Definition methods_left (budget : Z) : Z := if budget =? 0 then 0 else budget + 2046.

(** A round that does not panic: it stops the walk and says so in the
    statistics, or takes from the budget. *)
Definition steps_well (a k budget : Z) (r : option (Walk * PushbufferEngine F * M)) : Prop :=
  exists walk e m n, r = Some (walk, e, m) /\ 0 <= n /\ Kept m /\
  match walk with
  | Stopped _ => n <= methods_left budget /\ engine_ok (wrap64 (k + n), bump a) e
  | Continues _ budget' _ => 0 <= budget' < budget /\ n + methods_left budget' <= methods_left budget /\
      engine_ok (wrap64 (k + n), a) e
  end.

Lemma stops_well a k budget m e cursor : engine_ok (wrap64 k, a) e -> Kept m -> 0 <= budget ->
  steps_well a k budget (Some (Stopped cursor, abort_walk e, m)).
Proof.
  intros He Hm Hb. exists (Stopped cursor), (abort_walk e), m, 0. rewrite Z.add_0_r. unfold methods_left.
  split_and!; try done; [case_match; lia | by apply abort_walk_ok].
Qed.

Lemma continues_well a k budget m e cursor back : engine_ok (wrap64 k, a) e -> Kept m -> 0 < budget ->
  steps_well a k budget (Some (Continues cursor (budget - 1) back, e, m)).
Proof.
  intros He Hm Hb. exists (Continues cursor (budget - 1) back), e, m, 0. rewrite Z.add_0_r. unfold methods_left.
  split_and!; try done; try lia. repeat case_match; lia.
Qed.

Lemma walk_step_safe a k m e context cursor budget call_return : engine_ok (wrap64 k, a) e -> Kept m -> 0 <= budget ->
  steps_well a k budget (walk_step m e context cursor budget call_return).
Proof.
  intros He Hm Hb. unfold walk_step.
  destruct (Z.eqb_spec budget 0) as [|Hpos]; [by apply stops_well|]. cbn zeta.
  destruct (nv_read_dword m cursor) as [word|]; [|by apply stops_well].
  repeat match goal with |- context [if ?b then Some (Continues _ _ _, _, _) else _] => 
    destruct b; [apply continues_well; [done | done | lia]|] end.
  destruct (word =? 0x00020000); 
    [destruct call_return; [apply continues_well; [done | done | lia] | by apply stops_well]|].
  destruct (negb _ && negb _); [by apply stops_well|].
  set (count := Z.land (Z.shiftr word 18) 0x7FF). assert (0 <= count <= 2047) as Hc by by apply land_le_mask.
  destruct (apply_arguments_safe a context (Z.land (Z.shiftr word 13) 7) (Z.land word 0xE0030003 =? 0x40000000)
    (Z.to_nat count) k m e (Z.land word 0x1FFC) (wrapping_add32 cursor 4) He Hm)
    as (whole & cursor' & e' & m' & n & -> & Hn & He' & Hm').
  cbn [mbind option_bind]. eexists _, e', m', n. split; [reflexivity|]. split; [lia|]. split; [done|].
  unfold methods_left. destruct whole; (split_and!; try done; try lia); repeat case_match; lia.
Qed.

Lemma walk_loop_safe context target fuel : forall a k m e cursor budget call_return,
  engine_ok (wrap64 k, a) e -> Kept m -> 0 <= budget < Z.of_nat fuel -> exists cursor' e' m' n,
  walk_loop fuel m e context target cursor budget call_return = Some (cursor', e', m') /\
  0 <= n <= methods_left budget /\ Kept m' /\
  (cursor' = target /\ engine_ok (wrap64 (k + n), a) e' \/ engine_ok (wrap64 (k + n), bump a) e').
Proof.
  induction fuel as [|fuel IH]; intros a k m e cursor budget call_return He Hm Hb; [lia|]. cbn [walk_loop].
  destruct (Z.eqb_spec cursor target) as [->|Hdiff].
  { exists target, e, m, 0. rewrite Z.add_0_r. unfold methods_left. split_and!; try done; [case_match; lia | by left]. }
  destruct (walk_step_safe a k m e context cursor budget call_return He Hm) as (walk & e1 & m1 & n & -> & Hn & Hm1 & Hw);
    [lia|]. cbn [mbind option_bind].
  destruct walk as [stop|next budget' back].
  - exists stop, e1, m1, n. destruct Hw as [Hle He1]. split_and!; try done. by right.
  - destruct Hw as (Hb' & Hle & He1).
    destruct (IH a (k + n) m1 e1 next budget' back He1 Hm1) as (cursor' & e' & m' & n' & -> & Hn' & Hm' & Hout); [lia|].
    exists cursor', e', m', (n + n'). rewrite !Z.add_assoc. split_and!; try done; lia.
Qed.
End Memory.
