(* ===== verification/Session.v ===== *)
(** * A session: building, loading, resetting, relaunching

    Models the [Emulator] of [exbawks-core/src/emulator.rs] with
    [EmulatorBuilder::build], [load_xbe], [reset_inner] and [relaunch_title],
    and [loaded.rs].

    [Emulator] of [CoreScheduling] holds the processor, the thread manager and
    the displaced context; [Session] adds the rest.  [self.memory] is the
    address space the manager shares, and [bare_memory] while no image is
    loaded: a load and a reset change both together.  Left out are fields that
    no guest sees: the trace, the graphics front end, the window, the frames
    kept for a report and the two caches of the hypervisor tier.  Whether the
    host grants the allocation of guest RAM is the argument [host_alloc]. *)

From Stdlib Require Import Ascii.
From stdpp Require Import strings.
From S2P Require Import Prelude GuestTypes PageTable Allocator GuestMemory SoftwareSpace Xbe CpuState Iced InsnCache BlockDecode KernelTypes HostFiles Runtime RuntimeMemory CoreScheduling KernelCalls CoreTypes KernelDispatch Ordinals ImageLoader UsbDevice Ohci CodeBuffer Emitter CodeCache Mmio.

Local Open Scope Z_scope.

(** ** [loaded.rs] *)

Record LoadedImage : Type := mkLoadedImage {
  loaded_image : XbeImage;
  loaded_bytes : list Z;
  kernel_thunks : list KernelThunk;
}.

Section Session.
Context `{HostOs}.
(** The host's code memory and the state of the graphics engine. *)
Context {A : Type} `{CodeAllocation A} {G : Type}.

Record Session : Type := mkSession {
  config : EmulatorConfig;
  kernel : gmap Z KernelExport;
  core : Emulator;
  bare_memory : SoftwareAddressSpace;
  loaded : option LoadedImage;
  session_disc : option (list string);
  session_hdd : option (list string);
  devices : DeviceSpace;
  device_ports : DevicePorts;
  gpu_pusher : G;
  decoded : option InstructionCache;
  code_cache : CodeCache A;
  epoch : Z;
  pramin_routed : bool;
  vblank_owed : Z;
  gamepad_wanted : bool;
  gamepad_ready_frame : option Z;
  scripted_input : option ScriptedInput;
  pending_persist : list (Z * Z);
  last_relaunch_data : option (list Z);
  session_host : World;
}.

Definition with_core (s : Session) (v : Emulator) : Session :=
  mkSession (config s) (kernel s) v (bare_memory s) (loaded s) (session_disc s) (session_hdd s)
    (devices s) (device_ports s) (gpu_pusher s) (decoded s) (code_cache s) (epoch s)
    (pramin_routed s) (vblank_owed s) (gamepad_wanted s) (gamepad_ready_frame s)
    (scripted_input s) (pending_persist s) (last_relaunch_data s) (session_host s).
Definition with_bare_memory (s : Session) (v : SoftwareAddressSpace) : Session :=
  mkSession (config s) (kernel s) (core s) v (loaded s) (session_disc s) (session_hdd s)
    (devices s) (device_ports s) (gpu_pusher s) (decoded s) (code_cache s) (epoch s)
    (pramin_routed s) (vblank_owed s) (gamepad_wanted s) (gamepad_ready_frame s)
    (scripted_input s) (pending_persist s) (last_relaunch_data s) (session_host s).
Definition with_loaded (s : Session) (v : option LoadedImage) : Session :=
  mkSession (config s) (kernel s) (core s) (bare_memory s) v (session_disc s) (session_hdd s)
    (devices s) (device_ports s) (gpu_pusher s) (decoded s) (code_cache s) (epoch s)
    (pramin_routed s) (vblank_owed s) (gamepad_wanted s) (gamepad_ready_frame s)
    (scripted_input s) (pending_persist s) (last_relaunch_data s) (session_host s).
Definition with_session_disc (s : Session) (v : option (list string)) : Session :=
  mkSession (config s) (kernel s) (core s) (bare_memory s) (loaded s) v (session_hdd s)
    (devices s) (device_ports s) (gpu_pusher s) (decoded s) (code_cache s) (epoch s)
    (pramin_routed s) (vblank_owed s) (gamepad_wanted s) (gamepad_ready_frame s)
    (scripted_input s) (pending_persist s) (last_relaunch_data s) (session_host s).
Definition with_session_hdd (s : Session) (v : option (list string)) : Session :=
  mkSession (config s) (kernel s) (core s) (bare_memory s) (loaded s) (session_disc s) v
    (devices s) (device_ports s) (gpu_pusher s) (decoded s) (code_cache s) (epoch s)
    (pramin_routed s) (vblank_owed s) (gamepad_wanted s) (gamepad_ready_frame s)
    (scripted_input s) (pending_persist s) (last_relaunch_data s) (session_host s).
Definition with_devices (s : Session) (v : DeviceSpace) : Session :=
  mkSession (config s) (kernel s) (core s) (bare_memory s) (loaded s) (session_disc s)
    (session_hdd s) v (device_ports s) (gpu_pusher s) (decoded s) (code_cache s) (epoch s)
    (pramin_routed s) (vblank_owed s) (gamepad_wanted s) (gamepad_ready_frame s)
    (scripted_input s) (pending_persist s) (last_relaunch_data s) (session_host s).
Definition with_device_ports (s : Session) (v : DevicePorts) : Session :=
  mkSession (config s) (kernel s) (core s) (bare_memory s) (loaded s) (session_disc s)
    (session_hdd s) (devices s) v (gpu_pusher s) (decoded s) (code_cache s) (epoch s)
    (pramin_routed s) (vblank_owed s) (gamepad_wanted s) (gamepad_ready_frame s)
    (scripted_input s) (pending_persist s) (last_relaunch_data s) (session_host s).
Definition with_gpu_pusher (s : Session) (v : G) : Session :=
  mkSession (config s) (kernel s) (core s) (bare_memory s) (loaded s) (session_disc s)
    (session_hdd s) (devices s) (device_ports s) v (decoded s) (code_cache s) (epoch s)
    (pramin_routed s) (vblank_owed s) (gamepad_wanted s) (gamepad_ready_frame s)
    (scripted_input s) (pending_persist s) (last_relaunch_data s) (session_host s).
Definition with_decoded (s : Session) (v : option InstructionCache) : Session :=
  mkSession (config s) (kernel s) (core s) (bare_memory s) (loaded s) (session_disc s)
    (session_hdd s) (devices s) (device_ports s) (gpu_pusher s) v (code_cache s) (epoch s)
    (pramin_routed s) (vblank_owed s) (gamepad_wanted s) (gamepad_ready_frame s)
    (scripted_input s) (pending_persist s) (last_relaunch_data s) (session_host s).
Definition with_code_cache (s : Session) (v : CodeCache A) : Session :=
  mkSession (config s) (kernel s) (core s) (bare_memory s) (loaded s) (session_disc s)
    (session_hdd s) (devices s) (device_ports s) (gpu_pusher s) (decoded s) v (epoch s)
    (pramin_routed s) (vblank_owed s) (gamepad_wanted s) (gamepad_ready_frame s)
    (scripted_input s) (pending_persist s) (last_relaunch_data s) (session_host s).
Definition with_epoch (s : Session) (v : Z) : Session :=
  mkSession (config s) (kernel s) (core s) (bare_memory s) (loaded s) (session_disc s)
    (session_hdd s) (devices s) (device_ports s) (gpu_pusher s) (decoded s) (code_cache s) v
    (pramin_routed s) (vblank_owed s) (gamepad_wanted s) (gamepad_ready_frame s)
    (scripted_input s) (pending_persist s) (last_relaunch_data s) (session_host s).
Definition with_pramin_routed (s : Session) (v : bool) : Session :=
  mkSession (config s) (kernel s) (core s) (bare_memory s) (loaded s) (session_disc s)
    (session_hdd s) (devices s) (device_ports s) (gpu_pusher s) (decoded s) (code_cache s)
    (epoch s) v (vblank_owed s) (gamepad_wanted s) (gamepad_ready_frame s) (scripted_input s)
    (pending_persist s) (last_relaunch_data s) (session_host s).
Definition with_vblank_owed (s : Session) (v : Z) : Session :=
  mkSession (config s) (kernel s) (core s) (bare_memory s) (loaded s) (session_disc s)
    (session_hdd s) (devices s) (device_ports s) (gpu_pusher s) (decoded s) (code_cache s)
    (epoch s) (pramin_routed s) v (gamepad_wanted s) (gamepad_ready_frame s) (scripted_input s)
    (pending_persist s) (last_relaunch_data s) (session_host s).
Definition with_gamepad_wanted (s : Session) (v : bool) : Session :=
  mkSession (config s) (kernel s) (core s) (bare_memory s) (loaded s) (session_disc s)
    (session_hdd s) (devices s) (device_ports s) (gpu_pusher s) (decoded s) (code_cache s)
    (epoch s) (pramin_routed s) (vblank_owed s) v (gamepad_ready_frame s) (scripted_input s)
    (pending_persist s) (last_relaunch_data s) (session_host s).
Definition with_gamepad_ready_frame (s : Session) (v : option Z) : Session :=
  mkSession (config s) (kernel s) (core s) (bare_memory s) (loaded s) (session_disc s)
    (session_hdd s) (devices s) (device_ports s) (gpu_pusher s) (decoded s) (code_cache s)
    (epoch s) (pramin_routed s) (vblank_owed s) (gamepad_wanted s) v (scripted_input s)
    (pending_persist s) (last_relaunch_data s) (session_host s).
Definition with_scripted_input (s : Session) (v : option ScriptedInput) : Session :=
  mkSession (config s) (kernel s) (core s) (bare_memory s) (loaded s) (session_disc s)
    (session_hdd s) (devices s) (device_ports s) (gpu_pusher s) (decoded s) (code_cache s)
    (epoch s) (pramin_routed s) (vblank_owed s) (gamepad_wanted s) (gamepad_ready_frame s) v
    (pending_persist s) (last_relaunch_data s) (session_host s).
Definition with_pending_persist (s : Session) (v : list (Z * Z)) : Session :=
  mkSession (config s) (kernel s) (core s) (bare_memory s) (loaded s) (session_disc s)
    (session_hdd s) (devices s) (device_ports s) (gpu_pusher s) (decoded s) (code_cache s)
    (epoch s) (pramin_routed s) (vblank_owed s) (gamepad_wanted s) (gamepad_ready_frame s)
    (scripted_input s) v (last_relaunch_data s) (session_host s).
Definition with_last_relaunch_data (s : Session) (v : option (list Z)) : Session :=
  mkSession (config s) (kernel s) (core s) (bare_memory s) (loaded s) (session_disc s)
    (session_hdd s) (devices s) (device_ports s) (gpu_pusher s) (decoded s) (code_cache s)
    (epoch s) (pramin_routed s) (vblank_owed s) (gamepad_wanted s) (gamepad_ready_frame s)
    (scripted_input s) (pending_persist s) v (session_host s).
Definition with_session_host (s : Session) (v : World) : Session :=
  mkSession (config s) (kernel s) (core s) (bare_memory s) (loaded s) (session_disc s)
    (session_hdd s) (devices s) (device_ports s) (gpu_pusher s) (decoded s) (code_cache s)
    (epoch s) (pramin_routed s) (vblank_owed s) (gamepad_wanted s) (gamepad_ready_frame s)
    (scripted_input s) (pending_persist s) (last_relaunch_data s) v.

Definition session_memory (s : Session) : SoftwareAddressSpace :=
  match core_threads (core s) with Some tm => memory tm | None => bare_memory s end.
Definition with_session_memory (s : Session) (mem : SoftwareAddressSpace) : Session :=
  match core_threads (core s) with
  | Some tm => with_core s (with_core_threads (core s) (with_memory tm mem))
  | None => with_bare_memory s mem
  end.

(** ** Building *)

Context (host_alloc : bool).

(** [fuel] bounds the reads of a file export, [gpu] is the engine's default
    state and [w] the host. *)
Definition build (fuel : nat) (c : EmulatorConfig) (gpu : G) (w : World) : result CoreError Session :=
  _ ← validate_config c;
  mem ← lift_memory (SoftwareAddressSpace_new host_alloc (physical_memory_bytes c));
  match register_startup_exports fuel ∅ with
  | Err _ => Err (CoreInvalidConfiguration "startup exports must register once")
  | Ok registry =>
    Ok (mkSession c registry (mkEmulator CpuState_default None None) mem None None None
          DeviceSpace_default ∅ gpu None CodeCache_default 0 false 0 false None None [] None w)
  end.

Definition set_disc_root (s : Session) (root : list string) : Session := with_session_disc s (Some root).
Definition set_hdd_root (s : Session) (root : list string) : Session := with_session_hdd s (Some root).
Definition set_scripted_input (s : Session) (presses : list (Z * GamepadState)) (hold : Z) : Session :=
  with_scripted_input s (Some (taps presses hold)).
Definition attach_gamepad (s : Session) (attached : bool) : Session :=
  let s := with_gamepad_wanted s attached in
  if attached then s else with_devices s (set_gamepad_attached (devices s) false).

(** ** Loading *)

Definition GUEST_STACK_BASE : GuestVa := 0x03FF0000.
Definition GUEST_STACK_BYTES : Z := 64 * 1024.
Definition GUEST_STACK_SCRATCH : Z := 16.

(** The low region the kernel owns and the window over all of RAM. *)
Definition map_low_memory : LM unit :=
  (fun m => match allocate_physical m (KERNEL_IMAGE_BASE - 0x80000000 + GUEST_PAGE_SIZE) with
            | (Ok _, m) => (Ok tt, m)
            | (Err _, m) =>
              (Err (CoreInvalidConfiguration
                      "physical memory is too small for the kernel-owned low region"), m)
            end);;
  lm_memory map_physical_window.

Definition reserve_persisted (m : SoftwareAddressSpace) (l : list (Z * Z)) : SoftwareAddressSpace :=
  foldl (fun m r => reserve_physical_through m (saturating_add 32 r.1 r.2)) m l.

Definition place_image (image : XbeImage) (bytes : list Z) (limit : nat) : LM (list KernelThunk) :=
  map_xbe image bytes;;
  map_synthetic_kernel_image;;
  m ← lm_gets id;
  lm_lift (KernelThunkTable_read m (kernel_thunk_address (header image)) limit).

(** The image's TLS directory, where it has one that can be read. *)
Definition read_tls_template (m : SoftwareAddressSpace) (directory : GuestVa) : option TlsTemplate :=
  if directory =? 0 then None else
  let field offset := mem_read_u32 m (wrapping_add32 directory offset) in
  match field 0, field 4, field 16 with
  | Ok raw_start, Ok raw_end, Ok zero_fill => Some (mkTlsTemplate raw_start raw_end zero_fill)
  | _, _, _ => None
  end.

Definition is_data_export (ordinal : Z) : bool :=
  match kernel_ordinal_info ordinal with
  | Some info => bool_decide (kind info = Data)
  | None => false
  end.
Definition data_ordinals (thunks : list KernelThunk) : list Z :=
  map thunk_ordinal (List.filter (fun t => is_data_export (thunk_ordinal t)) thunks).

Definition image_device_name : list Z := as_bytes "\Device\CdRom0\default.xbe".

Definition boot_stack_bytes (image : XbeImage) : Z :=
  saturating_mul32 (div_ceil (Z.max (stack_size (header image)) GUEST_STACK_BYTES) GUEST_PAGE_SIZE) GUEST_PAGE_SIZE.

(** Operations of the manager and of its memory, their errors lifted. *)
Definition km_core {B} (m : KM MemoryError B) : KM CoreError B := fun tm =>
  let '(r, tm) := m tm in (lift_memory r, tm).
Definition km_load {B} (m : LM B) : KM CoreError B := fun tm =>
  let '(r, mem) := m (memory tm) in (r, with_memory tm mem).

(** From the fresh manager to the boot thread: its control region and the
    initial stack pointer. *)
Definition boot_title (image : XbeImage) (thunks : list KernelThunk) : KM CoreError (GuestVa * Z) :=
  modify (fun tm => match read_tls_template (memory tm) (tls_address (header image)) with
                    | Some t => set_tls_template tm t
                    | None => tm
                    end);;
  variables ← km_core (build_kernel_variables (data_ordinals thunks) image_device_name);
  km_load (patch_kernel_thunks thunks variables);;
  let stack_bytes := boot_stack_bytes image in
  stack ← lift (lift_memory (lift_address (GuestRange_page_aligned GUEST_STACK_BASE stack_bytes)));
  km_load (lm_memory (fun m => map_anonymous m stack (Z.lor PERM_READ PERM_WRITE)));;
  reserve ← gets tls_reserve_bytes;
  let stack_top := saturating_sub (saturating_sub (saturating_add 32 GUEST_STACK_BASE stack_bytes) reserve)
                     GUEST_STACK_SCRATCH in
  kpcr ← km_core (create_boot_environment GUEST_STACK_BASE stack_bytes);
  mret (kpcr, stack_top).

Definition boot_cpu (entry kpcr stack_top : Z) : CpuState :=
  CpuState_set_segment (set_gpr (with_eip CpuState_default entry) 4 stack_top) Fs (mkSegmentState 0 0 kpcr 0).

(** The fields a load installs. *)
Definition install (s : Session) (cpu : CpuState) (tm : ThreadManager) (title : LoadedImage) : Session :=
  let s := with_core s (mkEmulator cpu (Some tm) (core_interrupted (core s))) in
  let s := with_code_cache s (CodeCache_clear (code_cache s)) in
  let s := with_epoch s (wrap64 (epoch s + 1)) in
  with_loaded s (Some title).

Definition load_xbe (s : Session) (bytes : list Z) : result CoreError LoadedImage * Session :=
  match loaded s with
  | Some _ => (Err ImageAlreadyLoaded, s)
  | None =>
    match (image ← lift_xbe (XbeImage_parse bytes);
           mem ← lift_memory (SoftwareAddressSpace_new host_alloc (physical_memory_bytes (config s)));
           Ok (image, mem)) with
    | Err e => (Err e, s)
    | Ok (image, mem) =>
      match map_low_memory mem with
      | (Err e, _) => (Err e, s)
      | (Ok _, mem) =>
        let mem := reserve_persisted mem (pending_persist s) in
        let s := with_pending_persist s [] in
        match place_image image bytes (max_kernel_thunks (config s)) mem with
        | (Err e, _) => (Err e, s)
        | (Ok thunks, mem) =>
          match boot_title image thunks (ThreadManager_new mem (session_disc s) (session_hdd s)) with
          | (Err e, _) => (Err e, s)
          | (Ok (kpcr, stack_top), tm) =>
            let title := mkLoadedImage image bytes thunks in
            (Ok title, install s (boot_cpu (entry_point (header image)) kpcr stack_top) tm title)
          end
        end
      end
    end
  end.

(** ** Resetting *)

Definition reset_inner (s : Session) : result CoreError unit * Session :=
  match lift_memory (SoftwareAddressSpace_new host_alloc (physical_memory_bytes (config s))) with
  | Err e => (Err e, s)
  | Ok mem =>
    let s := with_bare_memory s mem in
    let s := with_core s (mkEmulator CpuState_default None (core_interrupted (core s))) in
    let s := with_loaded s None in
    let s := with_code_cache s (CodeCache_clear (code_cache s)) in
    let s := with_epoch s (wrap64 (epoch s + 1)) in
    (Ok tt, with_last_relaunch_data s None)
  end.

(** ** Relaunching across a soft reboot *)

Definition round_up_page (size : Z) : Z :=
  saturating_mul32 (div_ceil (Z.max size 1) GUEST_PAGE_SIZE) GUEST_PAGE_SIZE.

Definition MAX_PERSIST_BYTES : Z := 16 * 1024 * 1024.

(** The bytes of each persisted region that can be kept. *)
Definition snapshot_region (m : SoftwareAddressSpace) (region : Z * Z) : option (Z * list Z) :=
  let '(base, size) := region in
  if negb (base mod GUEST_PAGE_SIZE =? 0) then None else
  match mem_read m base (Z.to_nat (Z.min (round_up_page size) MAX_PERSIST_BYTES)) with
  | Ok bytes => Some (base, bytes)
  | Err _ => None
  end.
Definition snapshot_regions (m : SoftwareAddressSpace) (regions : list (Z * Z)) : list (Z * list Z) :=
  omap (snapshot_region m) regions.

Definition length_u32 (bytes : list Z) : Z := wrap32 (Z.of_nat (length bytes)).

Definition fingerprint (snapshots : list (Z * list Z)) : list Z :=
  concat (map (fun p => (to_le_bytes 4 (length_u32 p.2) ++ p.2)%list) snapshots).

Definition in_window (window_len base len : Z) : bool :=
  (0x80000000 <=? base) && (saturating_add 32 (base - 0x80000000) len <=? window_len).

Definition persist_reservations (window_len : Z) (snapshots : list (Z * list Z)) : list (Z * Z) :=
  map (fun p => (Z.land p.1 0x1FFFFFFF, length_u32 p.2))
    (List.filter (fun p => in_window window_len p.1 (length_u32 p.2)) snapshots).

(** A region put back where it was; a failure skips it. *)
Definition restore_region (window_len : Z) (m : SoftwareAddressSpace) (p : Z * list Z) : SoftwareAddressSpace :=
  let '(base, bytes) := p in
  if in_window window_len base (length_u32 bytes) then (mem_write m base bytes).2 else
  match lift_address (GuestRange_page_aligned base (Z.of_nat (length bytes))) with
  | Err _ => m
  | Ok range =>
    match map_anonymous m range (Z.lor PERM_READ PERM_WRITE) with
    | (Ok _, m) => (mem_write m base bytes).2
    | (Err _, m) => m
    end
  end.

(** Points the rebuilt launch-data cell back at the page. *)
Definition point_launch_cell (s : Session) (launch_pointer : Z) : Session :=
  match core_threads (core s) ≫= launch_data_page_cell with
  | Some cell => with_session_memory s (mem_write_u32 (session_memory s) cell launch_pointer).2
  | None => s
  end.

Definition relaunch_title (s : Session) : result CoreError bool * Session :=
  match core_threads (core s) ≫= launch_data_page_cell with
  | None => (Ok false, s)
  | Some cell =>
    match mem_read_u32 (session_memory s) cell with
    | Err e => (Err (CoreMemory e), s)
    | Ok launch_pointer =>
      if launch_pointer =? 0 then (Ok false, s) else
      let regions := from_option persisted [] (core_threads (core s)) in
      let snapshots := snapshot_regions (session_memory s) regions in
      let print := fingerprint snapshots in
      if negb (bool_decide (print = [])) && bool_decide (last_relaunch_data s = Some print)
      then (Ok false, s) else
      let window_len := wrap32 (physical_len (session_memory s)) in
      let s := with_pending_persist s (persist_reservations window_len snapshots) in
      match loaded s with
      | None => (Err NoImageLoaded, s)
      | Some title =>
        match reset_inner s with
        | (Err e, s) => (Err e, s)
        | (Ok _, s) =>
          match load_xbe s (loaded_bytes title) with
          | (Err e, s) => (Err e, s)
          | (Ok _, s) =>
            let s := with_session_memory s
                       (foldl (restore_region window_len) (session_memory s) snapshots) in
            let s := point_launch_cell s launch_pointer in
            (Ok true, with_last_relaunch_data s (Some print))
          end
        end
      end
    end
  end.
End Session.
