(* ===== verification/RunLoop.v ===== *)
(** * The deterministic run loop

    Models the interpreter tier of [exbawks-core/src/emulator.rs]: the tick
    that pumps the devices ([pump_tick_deterministic]), the loop over blocks
    ([run_blocks]) with its gate, exit and interrupt sentinels, the step with
    its cached decode ([assist_at_current_eip]) and [run] with its relaunches.

    The graphics engine reaches guest memory only through [Nv2aMemory], and
    is an argument of the loop that is parametric in that memory.  The
    coprocessors and the decoder library are arguments as they are of the
    interpreter.  Presenting a window, tracing and the frames kept for a report
    change nothing the guest sees.  An iteration answers [None] where a kernel
    export does not come back; a loaded session has a thread manager
    ([SessionTheorems]), so the fallback services of a session without one are
    not reached. *)

From Stdlib Require Import Ascii.
From stdpp Require Import strings.
From S2P Require Import Prelude GuestTypes PageTable Allocator GuestMemory SoftwareSpace Xbe CpuState Iced ExecCore ExecOps Exec InsnCache RegisterSubset BlockDecode KernelTypes HostFiles Runtime RuntimeMemory CoreScheduling KernelCalls CoreTypes KernelDispatch ImageLoader UsbDevice Ohci UsbWindow CodeBuffer Emitter CodeCache Mmio GpuMemory Session.

Local Open Scope Z_scope.

(** What the loop uses of [PushbufferEngine]. *)
Class GraphicsEngine (G : Type) : Type := {
  (** [submit memory channel pramin ramht get put], over any memory. *)
  gpu_submit : forall (M : Type), Nv2aMemory M -> G -> M -> Z -> Z -> Z -> Z -> Z -> Z * G * M;
  (** [busiest_targets limit]: base address and shaded pixels. *)
  gpu_busiest_targets : G -> nat -> list (Z * Z);
  gpu_take_completed_frame : G -> option (Z * Z * Z * Z) * G;
}.

Definition NV_PFIFO_RAMHT : Z := 0xFD002210.
Definition XBOX_TSC_PER_MILLISECOND : Z := 733333.
Definition BLOCKS_PER_VIRTUAL_MS : Z := 65536.
Definition GPU_INTERRUPT_VECTOR : Z := 51.
Definition USB_INTERRUPT_VECTOR : Z := 49.
Definition GAMEPAD_SETTLE_FRAMES : Z := 64.
Definition VBLANK_INTERVAL_MS : Z := 16.
Definition KPCR_IRQL_OFFSET : Z := 0x24.
Definition DISPATCH_LEVEL : Z := 2.
Definition MAX_RELAUNCHES : nat := 8.

Definition memory_fault_address (error : MemoryError) : option GuestVa :=
  match error with
  | UnmappedErr address _ | AccessDenied address _ | MmioErr address _ | AlreadyMapped address => Some address
  | _ => None
  end.

Definition stop_for_exec_error (pc : Z) (error : ExecError) : StopReason :=
  match error with
  | Unsupported address | ExecCore.InvalidInstruction address => UnsupportedInstruction address
  | Divide address => GuestFault address
  | Memory error => GuestFault (default pc (memory_fault_address error))
  end.

Section Loop.
Context `{HostOs} {A : Type} `{CodeAllocation A} {G : Type} `{GraphicsEngine G} `{Iced}.
Context (Instruction_default : Instruction).
Context (x87_execute sse_execute : Unit_execute MmioView DevicePorts).
Context (host_alloc : bool).

Abbreviation Session := (Session (A := A) (G := G)).

Definition session_cpu (s : Session) : CpuState := core_cpu (core s).

(** ** One virtual millisecond *)

Definition has_routine (s : Session) (vector : Z) : bool :=
  match core_threads (core s) with
  | Some tm => match interrupt_routine tm vector with Some _ => true | None => false end
  | None => false
  end.

Definition interrupt_requested (s : Session) : option Z :=
  if vblank_interrupt_pending (devices s) && has_routine s GPU_INTERRUPT_VECTOR then Some GPU_INTERRUPT_VECTOR
  else if usb_interrupt_pending (devices s) && has_routine s USB_INTERRUPT_VECTOR then Some USB_INTERRUPT_VECTOR
  else None.

Definition attach_gamepad_when_ready (s : Session) : Session :=
  if negb (gamepad_wanted s) || negb (usb_operational (devices s)) then s
  else if negb (has_routine s USB_INTERRUPT_VECTOR) then s
  else
    let frame := usb_frame (devices s) in
    let settled := default frame (gamepad_ready_frame s) in
    let s := with_gamepad_ready_frame s (Some settled) in
    if saturating_sub frame settled <? GAMEPAD_SETTLE_FRAMES then s
    else
      let s := with_gamepad_wanted s false in
      with_devices s (set_gamepad_attached (devices s) true).

(** No controller of the host: a scripted one. *)
Definition sample_gamepad (s : Session) : Session :=
  match scripted_input s with
  | None => s
  | Some script =>
    match scripted_sample script (usb_frame (devices s)) with
    | Some state => with_devices s (set_gamepad_state (devices s) state)
    | None => s
    end
  end.

Definition route_pramin_if_claimed (s : Session) : Session :=
  if pramin_routed s then s
  else match core_threads (core s) ≫= gpu_instance with
       | Some (base, size) => with_pramin_routed (with_devices s (set_pramin (devices s) base size)) true
       | None => s
       end.

(** The submissions in order, each by the engine the one before left. *)
Fixpoint submit_all (pramin ramht : Z) (subs : list (Z * Z * Z)) (gpu : G) (ram : PhysicalMemory)
  : G * PhysicalMemory :=
  match subs with
  | [] => (gpu, ram)
  | (channel, get, put) :: subs =>
    let '(_, gpu, ram) := gpu_submit PhysicalMemory _ gpu ram channel pramin ramht get put in
    submit_all pramin ramht subs gpu ram
  end.

Definition bump_targets (targets : list (Z * Z)) (m : SoftwareAddressSpace) : SoftwareAddressSpace :=
  foldl (fun m t => if 0 <? t.2 then bump_physical_generations m t.1 0x400000 else m) m targets.

(** [record_completed_frame] once per submission: what it captures is for a
    report. *)
Definition record_completed_frames (n : nat) (gpu : G) : G :=
  Nat.iter n (fun gpu => (gpu_take_completed_frame gpu).2) gpu.

Definition consume_gpu_submissions (s : Session) : Session :=
  let '(subs, d) := take_submissions (devices s) in
  let s := with_devices s d in
  if bool_decide (subs = []) then s else
  let ramht := default 0 (Mmio.register_value d NV_PFIFO_RAMHT) in
  let pramin := match pramin_region d with Some (base_va, _) => Z.land base_va 0x1FFFFFFF | None => 0 end in
  let '(gpu, m) := with_physical_dwords (session_memory s) (submit_all pramin ramht subs (gpu_pusher s)) in
  let m := bump_targets (gpu_busiest_targets gpu 8) m in
  let s := with_session_memory s m in
  with_gpu_pusher s (record_completed_frames (length subs) gpu).

Definition bump_tick_cell (s : Session) (tick_cell : option GuestVa) : Session :=
  match tick_cell with
  | None => s
  | Some cell =>
    match mem_read_u32 (session_memory s) cell with
    | Err _ => s
    | Ok ticks => with_session_memory s (mem_write_u32 (session_memory s) cell (wrapping_add32 ticks 1)).2
    end
  end.

Definition with_session_cpu (s : Session) (c : CpuState) : Session :=
  with_core s (mkEmulator c (core_threads (core s)) (core_interrupted (core s))).

Definition advance_clocks (s : Session) : Session :=
  let c := session_cpu s in
  let s := with_session_cpu s
             (with_tsc c (wrap64 (tsc c + saturating_sub XBOX_TSC_PER_MILLISECOND BLOCKS_PER_VIRTUAL_MS))) in
  match core_threads (core s) with
  | Some tm => with_core s (with_core_threads (core s) (advance_timers tm 1))
  | None => s
  end.

Definition pump_usb (s : Session) : Session :=
  let '(d, m) := advance_usb_frames (devices s) (session_memory s) 1 in
  with_session_memory (with_devices s d) m.

Definition pump_vblank (s : Session) : Session :=
  let s := with_vblank_owed s (wrap64 (vblank_owed s + 1)) in
  if VBLANK_INTERVAL_MS <=? vblank_owed s
  then with_devices (with_vblank_owed s 0) (raise_vblank (devices s)) else s.

(** A time slice, unless the guest runs at or above dispatch level. *)
Definition rotate_slice (s : Session) : Session :=
  let irql_address := wrapping_add32 (base (CpuState_segment (session_cpu s) Fs)) KPCR_IRQL_OFFSET in
  let raised := match mem_read_u32 (session_memory s) irql_address with
                | Ok word => DISPATCH_LEVEL <=? Z.land word 0xFF
                | Err _ => false
                end in
  if raised then s
  else match core_threads (core s) with
       | None => s
       | Some tm =>
         let '(_, tm, c) := rotate_active tm (session_cpu s) in
         with_core s (mkEmulator c (Some tm) (core_interrupted (core s)))
       end.

Definition pump_delivery (s : Session) : Session :=
  match core_interrupted (core s) with
  | Some _ => s
  | None =>
    if from_option has_queued_dpc false (core_threads (core s)) then with_core s (deliver_dpc (core s)).2
    else match interrupt_requested s with
         | Some vector => with_core s (deliver_interrupt (core s) vector).2
         | None => rotate_slice s
         end
  end.

Definition pump_tick_deterministic (s : Session) (tick_cell : option GuestVa) : Session :=
  let s := bump_tick_cell s tick_cell in
  let s := advance_clocks s in
  let s := pump_usb s in
  let s := attach_gamepad_when_ready s in
  let s := sample_gamepad s in
  let s := route_pramin_if_claimed s in
  let s := consume_gpu_submissions s in
  let s := pump_vblank s in
  pump_delivery s.

(** ** Gates *)

(** The session after a dispatch: the claim it made is routed before the
    scheduling it asked for is done. *)
Definition after_gate (s : Session) (r : result CoreError GateAssist) (g : GateState)
  : result CoreError (option StopReason) * Session :=
  let s := with_core s (mkEmulator (gate_cpu g) (Some (gate_threads g)) (core_interrupted (core s))) in
  let s := with_session_host s (gate_host g) in
  match r with
  | Err e => (Err e, s)
  | Ok assist =>
    let s := match assist with Dispatched _ _ _ _ => route_pramin_if_claimed s | _ => s end in
    let '(stop, c) := after_dispatch assist g (core_interrupted (core s)) in
    (Ok stop, with_core s c)
  end.

Definition dispatch_gate (s : Session) (o : Z) : option (result CoreError (option StopReason) * Session) :=
  match kernel s !! o with
  | None => Some (Ok (Some (MissingKernelExport o)), s)
  | Some export =>
    tm ← core_threads (core s);
    '(r, g) ← dispatch_registered_export (mkGateState (session_cpu s) tm (session_host s)) o export;
    Some (after_gate s r g)
  end.

(** ** One instruction *)

Definition session_view (s : Session) : MmioView := mkMmioView (session_memory s) (devices s).

(** The decode at the instruction pointer, from the cache where it is valid. *)
Definition cached_decode (s : Session) : result ExecError Instruction * Session :=
  let pc := eip (session_cpu s) in
  let cache := default InstructionCache_new (decoded s) in
  match InstructionCache_get Instruction_default cache pc (table (session_memory s)) with
  | Some instruction => (Ok instruction, with_decoded s (Some cache))
  | None =>
    match decode_one pc (session_view s) with
    | Ok instruction =>
      (Ok instruction, with_decoded s (Some (InstructionCache_put cache pc instruction (session_view s))))
    | Err e => (Err e, with_decoded s (Some cache))
    end
  end.

(** One interpreter step over RAM, devices and ports. *)
Definition step_session (s : Session) (instruction : Instruction)
  : result CoreError (option StopReason) * Session :=
  let m := mkMachine (session_cpu s) (session_view s) (device_ports s) in
  let '(r, m) := step_instruction x87_execute sse_execute instruction m in
  let s := with_session_memory (with_session_cpu s (cpu m)) (view_ram (mem m)) in
  let s := with_device_ports (with_devices s (view_devices (mem m))) (bus m) in
  match r with
  | Ok _ => (Ok None, s)
  | Err e => (Ok (Some (stop_for_exec_error (eip (cpu m)) e)), s)
  end.

Definition assist_at_current_eip (s : Session)
  : option (result CoreError (option StopReason) * Session) :=
  match cached_decode s with
  | (Err e, s) => Some (Ok (Some (stop_for_exec_error (eip (session_cpu s)) e)), s)
  | (Ok instruction, s) =>
    match Subset.indirect_call_slot instruction with
    | None => Some (step_session s instruction)
    | Some _ =>
      tm ← core_threads (core s);
      '(r, g) ← gate_call_with (kernel s) (mkGateState (session_cpu s) tm (session_host s)) instruction;
      match r with
      | Ok NotAGateCall => Some (step_session s instruction)
      | _ => Some (after_gate s r g)
      end
    end
  end.

(** ** The loop *)

(** The body of the [for] loop: a reason to stop, or [None] to go on. *)
Definition run_iteration (tick_cell : option GuestVa) (executed : Z) (s : Session)
  : option (result CoreError (option StopReason) * Session) :=
  let s := if executed mod BLOCKS_PER_VIRTUAL_MS =? 0 then pump_tick_deterministic s tick_cell else s in
  let parked := match core_threads (core s) with Some tm => negb (active_runnable tm) | None => false end in
  if parked && match core_interrupted (core s) with Some _ => false | None => true end then
    let '(stop, c) := idle_step_deterministic (core s) in Some (Ok stop, with_core s c)
  else
    let start := eip (session_cpu s) in
    if start =? INTERRUPT_RETURN_SENTINEL then Some (Ok None, with_core s (finish_interrupt (core s)))
    else
      let null_exit :=
        (start =? 0) && from_option active_exits_on_null_return false (core_threads (core s)) in
      if (start =? THREAD_EXIT_SENTINEL) || null_exit then
        let '(stop, c) := core_exit_current_thread (core s) (gpr_at (session_cpu s) 0) in
        Some (Ok stop, with_core s c)
      else match gate_ordinal start with
           | Some o => dispatch_gate s o
           | None => assist_at_current_eip s
           end.

Fixpoint run_from (tick_cell : option GuestVa) (executed : Z) (blocks : nat) (s : Session)
  : option (result CoreError StopReason * Session) :=
  match blocks with
  | O => Some (Ok BudgetExhausted, s)
  | S blocks =>
    match run_iteration tick_cell executed s with
    | None => None
    | Some (Err e, s) => Some (Err e, s)
    | Some (Ok (Some stop), s) => Some (Ok stop, s)
    | Some (Ok None, s) => run_from tick_cell (executed + 1) blocks s
    end
  end.

Definition run_blocks (s : Session) (max_blocks : nat) : option (result CoreError StopReason * Session) :=
  match loaded s with
  | None => Some (Err NoImageLoaded, s)
  | Some _ => run_from (core_threads (core s) ≫= tick_count_cell) 0 max_blocks s
  end.

(** [boots] relaunches remain. *)
Fixpoint run_boots (boots : nat) (max_blocks : nat) (s : Session) : option (result CoreError StopReason * Session) :=
  match run_blocks s max_blocks with
  | Some (Ok (Reboot routine), s) =>
    match boots with
    | O => Some (Ok (Reboot routine), s)
    | S boots =>
      match relaunch_title host_alloc s with
      | (Err e, s) => Some (Err e, s)
      | (Ok true, s) => run_boots boots max_blocks s
      | (Ok false, s) => Some (Ok (Reboot routine), s)
      end
    end
  | outcome => outcome
  end.

Definition run (s : Session) (max_blocks : nat) : option (result CoreError StopReason * Session) :=
  run_boots MAX_RELAUNCHES max_blocks s.
End Loop.
