(* ===== verification/BootTheorems.v ===== *)
(** * What loading leaves

    Every operation of the loader keeps RAM well typed; a load that succeeds
    leaves a machine of the scheduler's reachable ones, at the image's entry
    point; a load that fails leaves the session as it was. *)

From Stdlib Require Import Ascii.
From stdpp Require Import strings.
From S2P Require Import Prelude GuestTypes PageTable Allocator GuestMemory SoftwareSpace SpaceTheorems MappingTheorems Xbe CpuState Iced InsnCache BlockDecode KernelTypes HostFiles HostFileTheorems Runtime RuntimeMemory SchedulerSteps SchedulerReach CoreScheduling SystemTyping KernelCalls CoreTypes KernelDispatch Ordinals ExportSteps DispatchTheorems ImageLoader LoaderTheorems UsbDevice Ohci OhciInvariant CodeBuffer Emitter CodeCache Mmio Session.

(** ** The loader keeps RAM *)

Definition lm_keeps {A} (m : LM A) : Prop := forall s, ram_ok s -> ram_ok (m s).2.

Lemma lm_keeps_bind {A B} (m : LM A) (k : A -> LM B) : lm_keeps m -> (forall a, lm_keeps (k a)) -> lm_keeps (m ≫= k).
Proof.
  intros Hm Hk s Hs. unfold mbind, LM_bind. specialize (Hm s Hs).
  destruct (m s) as [[a|e] s1]; [by apply Hk | done].
Qed.

Lemma lm_keeps_ret {A} (a : A) : lm_keeps (mret a).
Proof. by intros s Hs. Qed.
Lemma lm_keeps_lift {A} (r : result CoreError A) : lm_keeps (lm_lift r).
Proof. by intros s Hs. Qed.
Lemma lm_keeps_gets {A} (f : SoftwareAddressSpace -> A) : lm_keeps (lm_gets f).
Proof. by intros s Hs. Qed.

Lemma lm_keeps_memory {A} (f : SoftwareAddressSpace -> result MemoryError A * SoftwareAddressSpace) :
  (forall s, ram_ok s -> ram_ok (f s).2) -> lm_keeps (lm_memory f).
Proof. intros Hf s Hs. unfold lm_memory. specialize (Hf s Hs). by destruct (f s). Qed.

Lemma lm_keeps_for {A} (l : list A) (f : A -> LM unit) : Forall (fun a => lm_keeps (f a)) l -> lm_keeps (lm_for l f).
Proof.
  induction 1 as [|a l Ha _ IH]; cbn [lm_for]; [apply lm_keeps_ret|]. by apply lm_keeps_bind.
Qed.

Lemma lm_keeps_write a bs : Forall u8 bs -> lm_keeps (lm_memory (fun s => mem_write s a bs)).
Proof. intros Hb. apply lm_keeps_memory. intros s Hs. by apply write_any_ok. Qed.
Lemma lm_keeps_write_u32 a v : lm_keeps (lm_memory (fun s => mem_write_u32 s a v)).
Proof. apply lm_keeps_memory. intros s Hs. apply write_any_ok, to_le_bytes_u8. done. Qed.
Lemma lm_keeps_protect r p : lm_keeps (lm_memory (fun s => space_protect s r p)).
Proof. apply lm_keeps_memory. intros s Hs. by apply space_protect_ok. Qed.
Lemma lm_keeps_anonymous r p : lm_keeps (lm_memory (fun s => map_anonymous s r p)).
Proof. apply lm_keeps_memory. intros s Hs. by apply map_anonymous_ok. Qed.

Create HintDb loader discriminated.
#[export] Hint Resolve lm_keeps_ret lm_keeps_lift lm_keeps_gets lm_keeps_write_u32 lm_keeps_protect lm_keeps_anonymous : loader.

(** Steps through a loader function. *)
Ltac lm_step :=
  cbn beta zeta;
  first [ solve [auto with loader nocore]
        | apply lm_keeps_bind; [| intros ?]
        | apply lm_keeps_for, Forall_forall; intros ? ?
        | match goal with |- lm_keeps (if ?b then _ else _) => destruct b end ].

Lemma lm_keeps_map_pages es : lm_keeps (map_covered_pages es).
Proof. unfold map_covered_pages. repeat lm_step. Qed.

Lemma lm_keeps_permissions es : lm_keeps (apply_merged_permissions es).
Proof. unfold apply_merged_permissions. repeat lm_step. Qed.

Lemma lm_keeps_copy es : Forall extent_ok es -> lm_keeps (copy_extents es).
Proof.
  intros Hes. unfold copy_extents. apply lm_keeps_for. eapply Forall_impl; [exact Hes|]. intros e He. cbn beta.
  case_match; [apply lm_keeps_ret|]. apply lm_keeps_write, (extent_bytes_ok e He).
Qed.

Lemma lm_keeps_map_xbe image bytes : Forall u8 bytes -> Xbe.file_len bytes < 2 ^ 64 ->
  XbeImage_parse bytes = Ok image -> lm_keeps (map_xbe image bytes).
Proof.
  intros Hb Hl Hp s Hs. unfold map_xbe, mbind at 1, LM_bind at 1, lm_lift.
  destruct (image_extents image bytes) as [es|e] eqn:Hes; [|done].
  destruct (image_extents_ok image bytes es Hb Hl Hp Hes) as [Hok _].
  revert s Hs. change (lm_keeps (if bool_decide (es = []) then mret tt else
    map_covered_pages es;; copy_extents es;; apply_merged_permissions es)).
  case_match; [apply lm_keeps_ret|]. apply lm_keeps_bind; [apply lm_keeps_map_pages|]. intros _.
  apply lm_keeps_bind; [by apply lm_keeps_copy|]. intros _. apply lm_keeps_permissions.
Qed.

Lemma lm_keeps_kernel_image : lm_keeps map_synthetic_kernel_image.
Proof.
  unfold map_synthetic_kernel_image. cbn zeta.
  repeat first [ apply lm_keeps_write; first [apply to_le_bytes_u8 | repeat constructor; unfold is_u; lia] | lm_step ].
Qed.

Lemma lm_keeps_open pages : lm_keeps (open_pages pages).
Proof. induction pages as [|p ps IH]; cbn [open_pages]; repeat first [exact IH | lm_step]. Qed.

Lemma lm_keeps_patch thunks vars : lm_keeps (patch_kernel_thunks thunks vars).
Proof. unfold patch_kernel_thunks, patch_thunk. repeat first [apply lm_keeps_open | lm_step]. Qed.

Lemma reserve_through_ok s a : ram_ok s -> ram_ok (reserve_physical_through s a).
Proof. done. Qed.

Lemma reserve_persisted_ok s l : ram_ok s -> ram_ok (reserve_persisted s l).
Proof.
  unfold reserve_persisted. revert s. induction l as [|r l IH]; intros s Hs; cbn [foldl]; [done|].
  apply IH. by apply reserve_through_ok.
Qed.

Lemma map_alias_ok s r p perms : ram_ok s -> ram_ok (map_alias s r p perms).2.
Proof. intros Hs. unfold map_alias. by repeat case_match. Qed.

Lemma lm_keeps_low : lm_keeps map_low_memory.
Proof.
  unfold map_low_memory. apply lm_keeps_bind.
  - intros s Hs. pose proof (allocate_physical_ok s (KERNEL_IMAGE_BASE - 0x80000000 + GUEST_PAGE_SIZE) Hs).
    destruct (allocate_physical _ _) as [[|] s1]; done.
  - intros _. apply lm_keeps_memory. intros s Hs. unfold map_physical_window. case_match; [by apply map_alias_ok | done].
Qed.

Lemma lm_keeps_place image bytes limit : Forall u8 bytes -> Xbe.file_len bytes < 2 ^ 64 ->
  XbeImage_parse bytes = Ok image -> lm_keeps (place_image image bytes limit).
Proof.
  intros Hb Hl Hp. unfold place_image. apply lm_keeps_bind; [by apply lm_keeps_map_xbe|]. intros _.
  apply lm_keeps_bind; [apply lm_keeps_kernel_image|]. intros _. repeat lm_step.
Qed.

Lemma new_space_ok host_alloc n s : SoftwareAddressSpace_new host_alloc n = Ok s -> ram_ok s.
Proof.
  unfold SoftwareAddressSpace_new, AlignedBuffer_new_zeroed. intros Hs.
  destruct (Z.eqb_spec n 0); [done|]. cbn [orb] in Hs.
  destruct (Z.eqb_spec (n mod GUEST_PAGE_SIZE) 0) as [Hm|]; cbn [negb] in Hs; [|done].
  case_match; [done|]. apply bind_ok_inv in Hs as (count & _ & Hs). apply bind_ok_inv in Hs as (ram & Hr & Hs).
  injection Hs as <-. split; [exact Hm|]. cbn [physical].
  assert (ram = ∅) as ->; [|apply map_Forall_empty].
  change (n mod 4096) with (n mod GUEST_PAGE_SIZE) in Hr. by repeat case_match; simplify_eq/=.
Qed.

(** ** The manager *)

Section Boot.
Context `{HostOs}.

Lemma km_bind_inv {E B C} (m : KM E B) (k : B -> KM E C) s c s' : (m ≫= k) s = (Ok c, s') ->
  exists b s1, m s = (Ok b, s1) /\ k b s1 = (Ok c, s').
Proof. unfold mbind, KM_bind. destruct (m s) as [[b|e] s1]; [eauto | done]. Qed.

Lemma km_core_inv {B} (m : KM MemoryError B) s b s' : km_core m s = (Ok b, s') -> m s = (Ok b, s').
Proof. unfold km_core. destruct (m s) as [[x|e] s1]; cbn; [by intros [= <- <-] | done]. Qed.

Lemma km_load_inv {B} (m : LM B) s b s' : km_load m s = (Ok b, s') -> exists mem, s' = with_memory s mem.
Proof. unfold km_load. destruct (m (memory s)) as [r mem]. intros [= _ <-]. by exists mem. Qed.

Lemma keeps_km_core {B} P (m : KM MemoryError B) : keeps P m -> keeps P (km_core m).
Proof. intros Hm s Hs. unfold km_core. specialize (Hm s Hs). by destruct (m s). Qed.

Lemma keeps_km_load {B} (m : LM B) : lm_keeps m -> keeps sys_ok (km_load m).
Proof.
  intros Hm s Hs. unfold km_load. specialize (Hm _ (sys_ram _ Hs)). destruct (m (memory s)) as [r mem].
  by apply sys_memory.
Qed.

Lemma sys_variable ordinal cell a n : keeps sys_ok (initialize_kernel_variable ordinal cell a n).
Proof.
  unfold initialize_kernel_variable. repeat case_match; try apply keeps_ret; try apply keeps_write_u32.
  all: repeat first [ apply keeps_write_bytes, to_le_bytes_u8 | apply keeps_write_u32
                    | apply keeps_then; [| intros _] ].
Qed.

Lemma sys_cells b a n index ordinals vars : keeps sys_ok (variable_cells b a n index ordinals vars).
Proof.
  revert index vars. induction ordinals as [|o os IH]; intros index vars; cbn [variable_cells]; [apply keeps_ret|].
  cbn zeta. apply keeps_then; [apply sys_variable|]. intros _.
  apply keeps_then; [case_match; [apply keeps_modify; intros s; by apply sys_same | apply keeps_ret]|]. intros _.
  apply keeps_then; [case_match; [apply keeps_modify; intros s; by apply sys_same | apply keeps_ret]|]. intros _.
  apply IH.
Qed.

Lemma sys_kernel_variables ordinals name : Forall u8 name -> keeps sys_ok (build_kernel_variables ordinals name).
Proof.
  intros Hn. unfold build_kernel_variables. case_match; [apply keeps_ret|]. cbn zeta.
  apply keeps_then; [apply sys_allocate_block|]. intros region.
  apply keeps_then; [by apply keeps_write_bytes, Forall_take|]. intros _. apply sys_cells.
Qed.

Lemma sys_boot_environment b n : keeps sys_ok (create_boot_environment b n).
Proof.
  unfold create_boot_environment. apply keeps_then; [apply sys_thread_pages|]. intros kpcr.
  apply keeps_then; [apply keeps_modify; intros s; by apply sys_same|]. intros _.
  apply keeps_then; [apply keeps_modify; intros s; by apply sys_same|]. intros _. apply keeps_ret.
Qed.

Lemma device_name_bytes : Forall u8 image_device_name.
Proof. apply (bool_decide_unpack _). by vm_compute. Qed.

Lemma sys_boot_title image thunks : keeps sys_ok (boot_title image thunks).
Proof.
  unfold boot_title. cbn zeta.
  apply keeps_then; [apply keeps_modify; intros s Hs; case_match; [by apply (sys_same s) | done]|]. intros _.
  apply keeps_then; [apply keeps_km_core, sys_kernel_variables, device_name_bytes|]. intros vars.
  apply keeps_then; [apply keeps_km_load, lm_keeps_patch|]. intros _.
  apply keeps_then; [apply keeps_lift|]. intros stack.
  apply keeps_then; [apply keeps_km_load, lm_keeps_anonymous|]. intros _.
  apply keeps_then; [apply keeps_get|]. intros reserve.
  apply keeps_then; [apply keeps_km_core, sys_boot_environment|]. intros kpcr. apply keeps_ret.
Qed.

Lemma boot_environment_kpcr b n s kpcr s' : create_boot_environment b n s = (Ok kpcr, s') -> u32 kpcr.
Proof.
  unfold create_boot_environment. intros (k & s1 & Hk & Hrun)%km_bind_inv.
  destruct (build_thread_pages_only b n s) as [_ Hu]. rewrite Hk in Hu.
  apply km_bind_inv in Hrun as (? & ? & _ & Hrun). apply km_bind_inv in Hrun as (? & ? & _ & Hrun).
  injection Hrun as <- _. by apply Hu.
Qed.

Lemma boot_environment_threads b n s mem kpcr s' : unbooted s ->
  create_boot_environment b n (with_memory s mem) = (Ok kpcr, s') ->
  threads s' = [mkGuestThread CpuState_default Running 1 kpcr true] /\ current s' = 0%nat /\ pending s' = None.
Proof.
  intros (m & d & h & l & t & tl & ->). unfold create_boot_environment.
  intros (k & s1 & Hk & Hrun)%km_bind_inv.
  match type of Hk with build_thread_pages _ _ ?s0 = _ => destruct (build_thread_pages_only b n s0) as [[mem' Hs] _] end.
  rewrite Hk in Hs. cbn [snd] in Hs. subst s1. unfold mbind, KM_bind, modify in Hrun. cbn in Hrun.
  by injection Hrun as <- <-.
Qed.

(** The boot thread's manager is one the scheduler can reach, whatever
    registers it starts with. *)
Lemma boot_title_spec image thunks mem disc hdd kpcr top tm : ram_ok mem ->
  boot_title image thunks (ThreadManager_new mem disc hdd) = (Ok (kpcr, top), tm) ->
  u32 kpcr /\ u32 top /\ threads tm = [mkGuestThread CpuState_default Running 1 kpcr true] /\
  current tm = 0%nat /\ pending tm = None /\ forall cpu, cpu_wf cpu -> machine_ok cpu tm.
Proof.
  intros Hmem Hrun. assert (sys_ok tm) as Hsys.
  { replace tm with (boot_title image thunks (ThreadManager_new mem disc hdd)).2 by by rewrite Hrun.
    apply sys_boot_title. split; [done | apply map_Forall_empty | apply Forall_nil_2]. }
  unfold boot_title in Hrun. apply km_bind_inv in Hrun as ([] & s1 & [= Hs1] & Hrun). cbn zeta in Hrun.
  apply km_bind_inv in Hrun as (vars & s2 & Hvars%km_core_inv & Hrun).
  apply km_bind_inv in Hrun as ([] & s3 & [m3 ->]%km_load_inv & Hrun).
  apply km_bind_inv in Hrun as (stack & s4 & [= Hst <-] & Hrun).
  apply km_bind_inv in Hrun as (pa & s5 & [m5 ->]%km_load_inv & Hrun).
  apply km_bind_inv in Hrun as (reserve & s6 & [= <- <-] & Hrun).
  apply km_bind_inv in Hrun as (k & s7 & Hboot%km_core_inv & [= <- <- <-]).
  split; [by eapply boot_environment_kpcr|]. split.
  { apply saturating_sub_u32; [|unfold GUEST_STACK_SCRATCH; lia]. apply saturating_sub_u32; [|apply tls_reserve_nonneg].
    unfold saturating_add, is_u, U32_MAX, GUEST_STACK_BASE, boot_stack_bytes, saturating_mul32.
    assert (0 <= div_ceil (Z.max (stack_size (header image)) GUEST_STACK_BYTES) GUEST_PAGE_SIZE).
    2: { generalize dependent (div_ceil (Z.max (stack_size (header image)) GUEST_STACK_BYTES) GUEST_PAGE_SIZE).
         change GUEST_PAGE_SIZE with 4096. unfold U32_MAX. intros d Hd. lia. }
    unfold div_ceil, GUEST_STACK_BYTES. apply Z.div_pos; [|done]. change GUEST_PAGE_SIZE with 4096. lia. }
  change (with_memory (with_memory s2 m3) m5) with (with_memory s2 m5) in Hboot. subst s1. cbn [memory ThreadManager_new] in Hvars. revert Hvars.
  set (t := read_tls_template mem (tls_address (header image))).
  replace (match t with Some t => set_tls_template _ t | None => _ end)
    with (with_tls_template (ThreadManager_new mem disc hdd) t) by by destruct t.
  intros Hvars. assert (unbooted s2) as Hun.
  { eapply variables_unbooted; [|exact Hvars]. by exists mem, disc, hdd, None, None, t. }
  destruct (boot_environment_threads _ _ _ _ _ _ Hun Hboot) as (Hth & Hcur & Hpe). split_and!; [done..|].
  intros cpu Hcpu. split; [|done]. eapply (reach_boot mem m5 disc hdd t); [exact Hvars | exact Hboot | done].
Qed.

(** An image placed in memory lies in the address space. *)
Lemma placed_entry_u32 image bytes limit s thunks s' : Forall u8 bytes -> Xbe.file_len bytes < 2 ^ 64 ->
  XbeImage_parse bytes = Ok image -> place_image image bytes limit s = (Ok thunks, s') -> u32 (entry_point (header image)).
Proof.
  intros Hb Hl Hp Hrun. pose proof (parse_spec bytes Hb Hl) as Hok. rewrite Hp in Hok.
  destruct Hok as [_ (Hbase & _ & _ & _ & _ & Hin & _)]. unfold place_image in Hrun.
  assert (exists es, image_extents image bytes = Ok es) as [es Hes].
  { unfold map_xbe, mbind, LM_bind, lm_lift in Hrun. destruct (image_extents image bytes); [by eexists | done]. }
  unfold image_extents in Hes. case_match eqn:Hend; [done|]. apply Z.ltb_ge in Hend. unfold U32_MAX in Hend.
  unfold image_contains in Hin. unfold is_u in *. lia.
Qed.
End Boot.

(** ** Sessions *)

Section Sessions.
Context `{HostOs} {A : Type} `{CodeAllocation A} {G : Type}.
Context (host_alloc : bool) (fuel : nat).

Abbreviation Session := (Session (A := A) (G := G)).

Definition title_ok (title : LoadedImage) : Prop :=
  Forall u8 (loaded_bytes title) /\ Xbe.file_len (loaded_bytes title) < 2 ^ 64.

(** A session in order: its exports are the registered ones, an image is
    loaded exactly when there is a manager, which is then a reachable one with
    well-typed registers and RAM, and whatever is kept for later, a displaced
    context, cached decodes, the pad, its script and the image's bytes, is
    well typed too. *)
Record session_ok (s : Session) : Prop := {
  ok_kernel : forall o e, kernel s !! o = Some e -> e ∈ startup_exports fuel;
  ok_machine : match core_threads (core s) with
               | Some tm => machine_ok (core_cpu (core s)) tm
               | None => cpu_wf (core_cpu (core s))
               end;
  ok_title : match loaded s, core_threads (core s) with
             | Some title, Some _ => title_ok title
             | None, None => True
             | _, _ => False
             end;
  ok_bare : ram_ok (bare_memory s);
  ok_displaced : from_option cpu_wf True (core_interrupted (core s));
  ok_decoded : from_option (map_Forall (fun _ e => instruction_wf (entry_instruction e))) True (decoded s);
  ok_pad : pad_ok (usb (devices s));
  ok_script : from_option (fun i => Forall (fun e => gamepad_ok e.2) (steps i)) True (scripted_input s);
}.

Lemma build_ok c gpu w s : build host_alloc fuel c gpu w = Ok s -> session_ok s.
Proof.
  unfold build. intros ([] & _ & Hb)%bind_ok_inv. apply bind_ok_inv in Hb as (mem & Hmem & Hb).
  unfold lift_memory in Hmem. destruct (SoftwareAddressSpace_new _ _) as [m|] eqn:Hnew; [|done].
  injection Hmem as ->. apply new_space_ok in Hnew.
  destruct (register_startup_exports fuel ∅) as [registry|] eqn:Hreg; [|done]. injection Hb as <-.
  split.
  - intros o e He. by apply (registered_lookup _ _ Hreg) in He as [? _].
  - apply cpu_default_wf.
  - exact I.
  - exact Hnew.
  - exact I.
  - exact I.
  - exact pad_default.
  - exact I.
Qed.

Lemma boot_cpu_wf entry kpcr top : u32 entry -> u32 kpcr -> u32 top -> cpu_wf (boot_cpu entry kpcr top).
Proof. intros. by apply fresh_cpu_wf. Qed.

(** What a load does on each of its ways out. *)
Lemma load_outcomes (s : Session) bytes : Forall u8 bytes -> Xbe.file_len bytes < 2 ^ 64 ->
  match load_xbe host_alloc s bytes with
  | (Err e, s') => s' = s \/ s' = with_pending_persist s []
  | (Ok title, s') => loaded s = None /\
    exists kpcr top tm, s' = install (with_pending_persist s [])
        (boot_cpu (entry_point (header (loaded_image title))) kpcr top) tm title /\
      loaded_bytes title = bytes /\ XbeImage_parse bytes = Ok (loaded_image title) /\
      u32 (entry_point (header (loaded_image title))) /\ u32 kpcr /\ u32 top /\
      threads tm = [mkGuestThread CpuState_default Running 1 kpcr true] /\ current tm = 0%nat /\
      pending tm = None /\ forall cpu, cpu_wf cpu -> machine_ok cpu tm
  end.
Proof.
  intros Hb Hl. unfold load_xbe. destruct (loaded s) as [t|]; [by left|].
  destruct (XbeImage_parse bytes) as [image|e] eqn:Hparse; cbn [lift_xbe map_err mbind result_bind]; [|by left].
  destruct (SoftwareAddressSpace_new _ _) as [mem|e] eqn:Hnew; cbn [lift_memory map_err mbind result_bind]; [|by left].
  apply new_space_ok in Hnew. pose proof (lm_keeps_low mem Hnew) as Hlow.
  destruct (map_low_memory mem) as [[[]|e] mem1]; [|by left]. cbn [snd] in Hlow.
  pose proof (reserve_persisted_ok _ (pending_persist s) Hlow) as Hres. cbn zeta.
  change (config (with_pending_persist s [])) with (config s).
  pose proof (lm_keeps_place image bytes (max_kernel_thunks (config s)) Hb Hl Hparse _ Hres) as Hpl.
  destruct (place_image image bytes _ _) as [[thunks|e] mem2] eqn:Hplace; [|by right]. cbn [snd] in Hpl.
  apply placed_entry_u32 in Hplace; [|done..].
  destruct (boot_title image thunks _) as [[[kpcr top]|e] tm] eqn:Hboot; [|by right].
  destruct (boot_title_spec _ _ _ _ _ _ _ _ Hpl Hboot) as (Hk & Ht & Hth & Hcur & Hpe & Hm).
  split; [done|]. by exists kpcr, top, tm.
Qed.

Lemma with_persist_ok (s : Session) l : session_ok s -> session_ok (with_pending_persist s l).
Proof. by intros []; split. Qed.

Lemma load_ok (s : Session) bytes r s' : Forall u8 bytes -> Xbe.file_len bytes < 2 ^ 64 -> session_ok s ->
  load_xbe host_alloc s bytes = (r, s') -> session_ok s'.
Proof.
  intros Hb Hl Hs Hrun. pose proof (load_outcomes s bytes Hb Hl) as Hout. rewrite Hrun in Hout.
  destruct r as [title|e]; [|destruct Hout as [->| ->]; [done | by apply with_persist_ok]].
  destruct Hout as (_ & kpcr & top & tm & -> & Hby & _ & He & Hk & Ht & _ & _ & _ & Hm).
  destruct Hs as [Hker Hmach Htitle Hbare Hdis Hdec Hpad Hscr]. split; [exact Hker | | | exact Hbare | exact Hdis | exact Hdec | exact Hpad | exact Hscr].
  - by apply Hm, boot_cpu_wf.
  - change (title_ok title). unfold title_ok. by rewrite Hby.
Qed.

Lemma reset_session_ok (s : Session) r s' : session_ok s -> reset_inner host_alloc s = (r, s') -> session_ok s'.
Proof.
  intros Hs. unfold reset_inner. destruct (SoftwareAddressSpace_new _ _) as [mem|e] eqn:Hnew; cbn; [|by intros [= <- <-]].
  intros [= <- <-]. apply new_space_ok in Hnew.
  destruct Hs as [Hker Hmach Htitle Hbare Hdis Hdec Hpad Hscr].
  split; [exact Hker | apply cpu_default_wf | exact I | exact Hnew | exact Hdis | exact Hdec | exact Hpad | exact Hscr].
Qed.

(** ** Memory and the core *)

Definition core_ok (c : Emulator) : Prop :=
  match core_threads c with Some tm => machine_ok (core_cpu c) tm | None => cpu_wf (core_cpu c) end /\
  from_option cpu_wf True (core_interrupted c).

Lemma session_core s : session_ok s -> core_ok (core s).
Proof. intros Hs. split; [apply (ok_machine s Hs) | apply (ok_displaced s Hs)]. Qed.

Lemma core_cpu_wf c : core_ok c -> cpu_wf (core_cpu c).
Proof. intros [Hm _]. destruct (core_threads c); [by eapply machine_cpu | done]. Qed.

(** A change of the core that keeps or lacks a manager as before. *)
Definition core_step (c c' : Emulator) : Prop :=
  core_ok c' /\ (is_Some (core_threads c) <-> is_Some (core_threads c')).

Lemma with_core_ok s c : session_ok s -> core_step (core s) c -> session_ok (with_core s c).
Proof.
  intros [Hker Hmach Htitle Hbare Hdis Hdec Hpad Hscr] [[Hm Hd] Hsome].
  split; [exact Hker | exact Hm | | exact Hbare | exact Hd | exact Hdec | exact Hpad | exact Hscr].
  change (match loaded s, core_threads c with
          | Some title, Some _ => title_ok title | None, None => True | _, _ => False end).
  destruct (loaded s), (core_threads (core s)), (core_threads c); try done.
  - by destruct (proj1 Hsome ltac:(by eexists)).
  - by destruct (proj2 Hsome ltac:(by eexists)).
Qed.

Lemma with_devices_ok s d : session_ok s -> pad_ok (usb d) -> session_ok (with_devices s d).
Proof. by intros [] ?; split. Qed.

Lemma session_ram s : session_ok s -> ram_ok (session_memory s).
Proof.
  intros Hs. pose proof (ok_machine s Hs) as Hm. pose proof (ok_bare s Hs) as Hb. unfold session_memory.
  destruct (core_threads (core s)) as [tm|]; [|done]. apply (sys_ram tm), Hm.
Qed.

Lemma machine_memory cpu tm mem : machine_ok cpu tm -> ram_ok mem -> machine_ok cpu (with_memory tm mem).
Proof.
  intros Hm Hmem. pose proof (machine_cpu _ _ Hm). destruct Hm as [Hr Hs]. split; [|by apply sys_memory].
  eapply reach_step; [exact Hr|]. by constructor.
Qed.

Lemma with_session_memory_ok s mem : session_ok s -> ram_ok mem -> session_ok (with_session_memory s mem).
Proof.
  intros Hs Hmem. unfold with_session_memory. destruct (core_threads (core s)) as [tm|] eqn:Htm.
  - apply with_core_ok; [done|]. destruct (session_core s Hs) as [Hm Hd]. rewrite Htm in Hm. split.
    + split; [by apply machine_memory | done].
    + rewrite Htm. split; by eexists.
  - destruct Hs. by split.
Qed.

(** ** Relaunching *)

Lemma snapshots_bytes m regions : ram_ok m -> Forall (fun p => Forall u8 p.2) (snapshot_regions m regions).
Proof.
  intros Hm. unfold snapshot_regions. apply Forall_forall. intros p Hp. apply list_elem_of_omap in Hp as ([b n] & _ & Hp).
  unfold snapshot_region in Hp. case_match; [done|].
  destruct (mem_read m b _) as [bytes|] eqn:Hr; [|done]. injection Hp as <-.
  exact (proj2 (read_any_bytes _ _ _ _ Hm Hr)).
Qed.

Lemma restore_ok window m p : ram_ok m -> Forall u8 p.2 -> ram_ok (restore_region window m p).
Proof.
  intros Hm. destruct p as [b bytes]. cbn [snd]. intros Hb. unfold restore_region. case_match; [by apply write_any_ok|].
  destruct (lift_address _) as [r|]; [|done]. pose proof (map_anonymous_ok m r (Z.lor PERM_READ PERM_WRITE) Hm) as Ha.
  destruct (map_anonymous _ _ _) as [[|] m1]; [by apply write_any_ok | done].
Qed.

Lemma restore_all_ok window m l : ram_ok m -> Forall (fun p => Forall u8 p.2) l -> ram_ok (foldl (restore_region window) m l).
Proof. intros Hm Hl. revert m Hm. induction Hl; intros m Hm; cbn [foldl]; auto using restore_ok. Qed.

Lemma relaunch_ok s r s' : session_ok s -> relaunch_title host_alloc s = (r, s') -> session_ok s'.
Proof.
  intros Hs. unfold relaunch_title. destruct (_ ≫= launch_data_page_cell) as [cell|]; [|by intros [= <- <-]].
  destruct (mem_read_u32 _ cell) as [ptr|]; [|by intros [= <- <-]]. case_match; [by intros [= <- <-]|].
  set (snaps := snapshot_regions _ _). assert (Forall (fun p => Forall u8 p.2) snaps) as Hsn
    by (apply snapshots_bytes, session_ram, Hs). clearbody snaps. cbn zeta.
  case_match; [by intros [= <- <-]|]. set (wl := wrap32 _). clearbody wl.
  set (s1 := with_pending_persist s _). assert (session_ok s1) as Hs1 by by apply with_persist_ok.
  destruct (loaded s1) as [title|] eqn:Hl; [|by intros [= <- <-]].
  assert (title_ok title) as [Hb Hlen].
  { pose proof (ok_title s1 Hs1) as Ht. rewrite Hl in Ht. by destruct (core_threads (core s1)). }
  clearbody s1. destruct (reset_inner host_alloc s1) as [[[]|e] s2] eqn:Hreset;
    [|intros [= <- <-]; by eapply reset_session_ok].
  apply reset_session_ok in Hreset; [|done].
  destruct (load_xbe host_alloc s2 (loaded_bytes title)) as [[t|e] s3] eqn:Hload;
    [|intros [= <- <-]; by eapply load_ok].
  apply load_ok in Hload; [|done..]. intros [= <- <-].
  set (s4 := with_session_memory s3 _).
  assert (session_ok s4) as Hs4 by (apply with_session_memory_ok, restore_all_ok; [done | by apply session_ram | done]).
  assert (session_ok (point_launch_cell s4 ptr)) as Hs5.
  { unfold point_launch_cell. case_match; [|done]. apply with_session_memory_ok; [done|].
    apply write_any_ok, to_le_bytes_u8. by apply session_ram. }
  by destruct Hs5; split.
Qed.

(** C10: A load takes effect as a whole or not at all.  One that fails leaves
    the session as it was, except that the regions it had reserved for a
    relaunch may have been handed over.  One that succeeds happens only where
    no image was loaded, keeps the image the bytes parse to, starts the
    processor at its entry point on the one running thread, with FS on that
    thread's control region, leaves the manager one the scheduler can reach,
    with well-typed registers and RAM, and refuses every later load. *)
Theorem load_boots_or_leaves (s : Session) bytes : Forall u8 bytes -> Xbe.file_len bytes < 2 ^ 64 ->
  match load_xbe host_alloc s bytes with
  | (Err e, s') => s' = s \/ s' = with_pending_persist s []
  | (Ok title, s') => loaded s = None /\ loaded s' = Some title /\ loaded_bytes title = bytes /\
    XbeImage_parse bytes = Ok (loaded_image title) /\
    eip (core_cpu (core s')) = entry_point (header (loaded_image title)) /\
    (exists tm kpcr, core_threads (core s') = Some tm /\
      threads tm = [mkGuestThread CpuState_default Running 1 kpcr true] /\ current tm = 0%nat /\ pending tm = None /\
      base (CpuState_segment (core_cpu (core s')) Fs) = kpcr /\ machine_ok (core_cpu (core s')) tm) /\
    forall again, load_xbe host_alloc s' again = (Err ImageAlreadyLoaded, s')
  end.
Proof.
  intros Hb Hl. pose proof (load_outcomes s bytes Hb Hl) as Hout.
  destruct (load_xbe host_alloc s bytes) as [[title|e] s']; [|done].
  destruct Hout as (Hun & kpcr & top & tm & -> & Hby & Hp & He & Hk & Ht & Hth & Hcur & Hpe & Hm).
  split_and!; try done. exists tm, kpcr. split_and!; try done. by apply Hm, boot_cpu_wf.
Qed.
End Sessions.

(** ** A session *)

Section Demo.
#[local] Existing Instance demo_host.

Definition demo_session : result CoreError (Session (A := WindowsAllocation) (G := unit)) :=
  build true 4 (mkEmulatorConfig 0x800000 DirectRewrite 2 16 1) tt demo_world.

Definition demo_boot : result CoreError (Session (A := WindowsAllocation) (G := unit)) :=
  s ← demo_session; match load_xbe true s synthetic_xbe with (Ok _, s) => Ok s | (Err e, _) => Err e end.

(** The entry point at which the synthetic image starts. *)
Definition demo_entry : option Z :=
  match demo_boot with Ok s => Some (eip (core_cpu (core s))) | Err _ => None end.

Lemma load_boots_or_leaves_witness : exists s title s', demo_session = Ok s /\
  load_xbe true s synthetic_xbe = (Ok title, s') /\ eip (core_cpu (core s')) = 0x11000 /\
  loaded s' = Some title /\ forall again, load_xbe true s' again = (Err ImageAlreadyLoaded, s').
Proof.
  assert (demo_entry = Some 0x11000) as He by by vm_compute. revert He. unfold demo_entry, demo_boot.
  destruct demo_session as [s|]; [|done]. cbn [mbind result_bind].
  pose proof (load_boots_or_leaves true s synthetic_xbe synthetic_xbe_u8 ltac:(by vm_compute)) as Hl.
  destruct (load_xbe true s synthetic_xbe) as [[title|e] s'] eqn:Hload; [|done].
  destruct Hl as (_ & Hl1 & _ & _ & _ & _ & Hl2). intros [= He]. by exists s, title, s'.
Defined.
End Demo.
