(* ===== verification/SessionTheorems.v ===== *)
(** * The run loop keeps the session

    Every piece of the deterministic tick, every gate, every interpreted
    instruction and the loop around them leaves a session in order
    ([session_ok] of BootTheorems): the manager stays a reachable one,
    registers, RAM, the displaced context, cached decodes and the pad stay
    well typed.  A run lacks a result only when a kernel export it calls does
    not return, and a session the program can be in, however its operations
    interleave, is in order. *)

From Stdlib Require Import Ascii.
From stdpp Require Import strings.
From S2P Require Import Prelude GuestTypes PageTable Allocator GuestMemory SoftwareSpace SpaceTheorems MappingTheorems Xbe CpuState Iced ExecCore ExecOps Exec AluTheorems ExecInvariant StepTheorems InsnCache RegisterSubset BlockDecode KernelTypes HostFiles HostFileTheorems Runtime RuntimeMemory SchedulerSteps SchedulerReach CoreScheduling SystemTyping KernelCalls CoreTypes KernelDispatch Ordinals ExportSteps DispatchTheorems ImageLoader LoaderTheorems UsbDevice Ohci OhciInvariant UsbWindow CodeBuffer Emitter CodeCache Mmio MmioTheorems GpuMemory Session RunLoop BootTheorems.

Local Open Scope Z_scope.

(** ** The manager *)

Section Manager.
Context `{HostOs}.

Lemma sys_fold {B} (f : ThreadManager -> B -> ThreadManager) l s :
  (forall s b, sys_ok s -> sys_ok (f s b)) -> sys_ok s -> sys_ok (foldl f s l).
Proof. intros Hf. revert s. induction l; intros s Hs; cbn [foldl]; auto. Qed.

Lemma sys_advance s ms : sys_ok s -> sys_ok (advance_timers s ms).
Proof.
  intros Hs. unfold advance_timers. cbn zeta. case_match; [by apply (sys_same s)|].
  set (s1 := foldl _ _ (expired _ _)). assert (sys_ok s1) as Hs1.
  { apply sys_fold; [|by apply (sys_same s)]. intros t b Ht. by apply (sys_same t). }
  clearbody s1. case_match; [done|]. destruct (retain_due _ _) as [kept due].
  apply sys_fold; [|by apply (sys_same s1)]. intros t b Ht. unfold queue_dpc. case_match; by apply (sys_same t).
Qed.

Lemma sys_rotate s cpu : sys_ok s -> sys_ok (rotate_active s cpu).1.2.
Proof.
  intros Hs. unfold rotate_active. case_match; [done|]. case_match; [|done]. cbn zeta. cbn [fst snd].
  case_match; by apply (sys_same s).
Qed.

Lemma sys_resume_any s cpu : sys_ok s -> sys_ok (resume_any_ready s cpu).1.2.
Proof. intros Hs. unfold resume_any_ready. case_match; [done|]. case_match; [by apply (sys_same s) | done]. Qed.

Lemma sys_take_dpc s : sys_ok s -> sys_ok (take_dpc s).2.
Proof. intros Hs. unfold take_dpc. case_match; [done | by apply (sys_same s)]. Qed.

(** ** The core *)

Abbreviation machine_ok := DispatchTheorems.machine_ok.

Lemma machine_step cpu tm cpu' tm' : machine_ok cpu tm -> tm_step (tm, cpu) (tm', cpu') -> sys_ok tm' -> machine_ok cpu' tm'.
Proof. intros [Hr _] Hstep Hs. split; [by eapply reach_step | done]. Qed.

Lemma machine_new_cpu cpu cpu' tm : machine_ok cpu tm -> cpu_wf cpu' -> machine_ok cpu' tm.
Proof. intros [Hr Hs] Hc. split; [by eapply reachable_cpu | done]. Qed.

(** A core with a manager, of which a step leaves another. *)
Lemma core_some c tm : core_ok c -> core_threads c = Some tm -> machine_ok (core_cpu c) tm.
Proof. intros [Hm _] Htm. by rewrite Htm in Hm. Qed.

Lemma core_step_refl c : core_ok c -> core_step c c.
Proof. by split. Qed.

Lemma core_step_trans c1 c2 c3 : core_step c1 c2 -> core_step c2 c3 -> core_step c1 c3.
Proof. intros [_ H1] [Hc H2]. split; [done | by rewrite H1]. Qed.

Lemma core_step_machine c tm cpu' tm' i : core_threads c = Some tm -> machine_ok cpu' tm' ->
  from_option cpu_wf True i -> core_step c (mkEmulator cpu' (Some tm') i).
Proof. intros Htm Hm Hi. split; [by split|]. rewrite Htm. split; by eexists. Qed.

Lemma exit_step c status : core_ok c -> core_step c (core_exit_current_thread c status).2.
Proof.
  intros Hc. unfold core_exit_current_thread. destruct (core_threads c) as [tm|] eqn:Htm; [|by apply core_step_refl].
  pose proof (core_some c tm Hc Htm) as Hm.
  pose proof (machine_step _ _ _ _ Hm (step_exit tm (core_cpu c) status) (sys_exit tm _ _ (proj2 Hm))) as Hm'.
  destruct (exit_active tm (core_cpu c) status) as [[sw tm'] cpu'].
  repeat case_match; apply (core_step_machine _ tm); try done; apply Hc.
Qed.

Lemma pending_step c : core_ok c -> core_step c (apply_pending_scheduling c).2.
Proof.
  intros Hc. destruct (apply_pending_scheduling c) as [stop c'] eqn:Hrun.
  destruct (core_threads c) as [tm|] eqn:Htm.
  - pose proof (pending_machine c tm stop c' Htm (core_some c tm Hc Htm) Hrun) as (tm' & Htm' & Hm').
    assert (core_interrupted c' = core_interrupted c) as Hi.
    { revert Hrun. unfold apply_pending_scheduling, core_exit_current_thread. rewrite Htm.
      destruct (take_pending tm) as [[[]|] ?]; cbn -[exit_active park_active]; [| |by intros [= _ <-]].
      - destruct (exit_active _ _ _) as [[? ?] ?]. repeat case_match; by intros [= _ <-].
      - case_match; [by intros [= _ <-]|]. destruct (park_active _ _ _) as [[? ?] ?]. by intros [= _ <-]. }
    destruct Hc as [_ Hd]. cbn [snd]. split; [split|].
    + by rewrite Htm'.
    + by rewrite Hi.
    + rewrite Htm, Htm'. split; by eexists.
  - unfold apply_pending_scheduling in Hrun. rewrite Htm in Hrun. injection Hrun as <- <-. by apply core_step_refl.
Qed.

Lemma push_frame_ok values : forall mem esp, ram_ok mem -> u32 esp ->
  ram_ok (push_frame mem esp values).2 /\ from_option u32 True (push_frame mem esp values).1.
Proof.
  induction values as [|v values IH]; intros mem esp Hm He; cbn [push_frame]; [done|]. cbn zeta.
  pose proof (write_any_ok mem (wrapping_sub32 esp 4) (to_le_bytes 4 v) Hm (to_le_bytes_u8 4 v)) as Hw.
  change (space_write mem (wrapping_sub32 esp 4) (to_le_bytes 4 v)) with (mem_write_u32 mem (wrapping_sub32 esp 4) v) in Hw.
  destruct (mem_write_u32 mem _ v) as [[u|e] mem']; [|done]. apply IH; [done | apply u32_wrapping_sub].
Qed.

Lemma call_guest_step c tm tm0 values routine : core_ok c -> core_threads c = Some tm0 -> machine_ok (core_cpu c) tm ->
  u32 routine -> core_step c (call_guest c tm values routine).2.
Proof.
  intros Hc Htm Hm Hr. unfold call_guest.
  pose proof (machine_cpu _ _ Hm) as Hcpu.
  destruct (push_frame_ok values (memory tm) (gpr_at (core_cpu c) 4) (sys_ram _ (proj2 Hm)) (gpr_at_wf _ 4 Hcpu)) as [Hmem He].
  destruct (push_frame _ _ _) as [[esp|] mem]; cbn [fst snd from_option] in *.
  - apply (core_step_machine _ tm0); [done | | done].
    apply machine_memory; [|done]. apply (machine_new_cpu (core_cpu c)); [done|].
    apply with_eip_wf; [|done]. by apply set_gpr_wf.
  - apply (core_step_machine _ tm0); [done | by apply machine_memory | apply Hc].
Qed.

Lemma deliver_interrupt_step c vector : core_ok c -> core_step c (deliver_interrupt c vector).2.
Proof.
  intros Hc. unfold deliver_interrupt. case_match; [by apply core_step_refl|]. case_match; [by apply core_step_refl|].
  destruct (core_threads c) as [tm|] eqn:Htm; [|by apply core_step_refl].
  destruct (interrupt_routine tm vector) as [r|] eqn:Hr; [|by apply core_step_refl].
  pose proof (core_some c tm Hc Htm) as Hm. eapply call_guest_step; [done..|].
  by apply (interrupt_routine_u32 tm vector), Hr; apply Hm.
Qed.

Lemma deliver_dpc_step c : core_ok c -> core_step c (deliver_dpc c).2.
Proof.
  intros Hc. unfold deliver_dpc. destruct (core_interrupted c) eqn:Hi; [by apply core_step_refl|].
  destruct (core_threads c) as [tm|] eqn:Htm; [|by apply core_step_refl].
  pose proof (core_some c tm Hc Htm) as Hm.
  pose proof (machine_step _ _ _ _ Hm (step_take_dpc tm (core_cpu c)) (sys_take_dpc tm (proj2 Hm))) as Hm1.
  destruct (take_dpc tm) as [[dpc|] tm1]; cbn [snd] in Hm1; cbn zeta.
  2: { apply (core_step_machine _ tm); [done | done | by rewrite Hi]. }
  assert (core_step c (with_core_threads c tm1)) as Hstep by (apply (core_step_machine _ tm); [done | done | by rewrite Hi]).
  destruct (mem_read_u32 (memory tm1) (wrapping_add32 dpc 12)) as [routine|] eqn:Hr; [|done].
  repeat (case_match; [|done]). case_match; [done|].
  eapply core_step_trans; [exact Hstep|]. eapply (call_guest_step _ _ tm1); [apply Hstep | done | done|].
  by apply (read_u32_any _ _ _ (sys_ram _ (proj2 Hm1)) Hr).
Qed.

Lemma finish_step c : core_ok c -> core_step c (finish_interrupt c).
Proof.
  intros Hc. unfold finish_interrupt. destruct (core_interrupted c) as [saved|] eqn:Hi; [|by apply core_step_refl].
  destruct Hc as [Hm Hd]. rewrite Hi in Hd. cbn in Hd. split; [|done]. split; [|done].
  cbn [core_threads core_cpu]. destruct (core_threads c) as [tm|]; [by eapply machine_new_cpu | done].
Qed.

Lemma idle_step c : core_ok c -> core_step c (idle_step_deterministic c).2.
Proof.
  intros Hc. unfold idle_step_deterministic. destruct (core_threads c) as [tm|] eqn:Htm; [|by apply core_step_refl].
  destruct (wake_hint tm) as [[next x] waiting]. case_match; [by apply core_step_refl|].
  destruct next as [due|]; [|by apply core_step_refl]. cbn zeta.
  set (ms := Z.max _ 1). assert (0 <= ms) as Hms by (unfold ms; lia). clearbody ms.
  pose proof (core_some c tm Hc Htm) as Hm.
  pose proof (machine_step _ _ _ _ Hm (step_advance tm (core_cpu c) ms Hms) (sys_advance tm ms (proj2 Hm))) as Hm1.
  set (tm1 := advance_timers tm ms) in *. clearbody tm1.
  pose proof (machine_step _ _ _ _ Hm1 (step_resume_any tm1 (core_cpu c)) (sys_resume_any tm1 _ (proj2 Hm1))) as Hm2.
  destruct (resume_any_ready tm1 (core_cpu c)) as [[resumed tm2] cpu2]. cbn [fst snd] in Hm2.
  set (c2 := mkEmulator cpu2 (Some tm2) (core_interrupted c)).
  assert (core_step c c2) as Hc2 by (apply (core_step_machine _ tm); [done | done | apply Hc]).
  case_match; [done|]. case_match; [|done].
  pose proof (deliver_dpc_step c2 (proj1 Hc2)) as Hd. destruct (deliver_dpc c2) as [[] c3]; cbn [snd] in *;
    by eapply core_step_trans.
Qed.

Lemma rotate_step c tm : core_ok c -> core_threads c = Some tm ->
  core_step c (mkEmulator (rotate_active tm (core_cpu c)).2 (Some (rotate_active tm (core_cpu c)).1.2) (core_interrupted c)).
Proof.
  intros Hc Htm. pose proof (core_some c tm Hc Htm) as Hm.
  apply (core_step_machine _ tm); [done | | apply Hc].
  eapply machine_step; [exact Hm | apply step_rotate | by apply sys_rotate, Hm].
Qed.
End Manager.

(** ** The graphics engine *)

(** The engine is generic in its memory, so what every store of that memory
    keeps, a submission keeps. *)
Class GraphicsLaws (G : Type) `{GraphicsEngine G} : Prop :=
  gpu_submit_keeps (M : Type) (nv : Nv2aMemory M) (I : M -> Prop) (gpu : G) (ram : M) (channel pramin ramht get put : Z) :
    (forall m a v, I m -> I (nv_write_dword m a v).2) -> (forall m a v n, I m -> I (nv_fill_dwords m a v n).2) ->
    I ram -> I (gpu_submit M nv gpu ram channel pramin ramht get put).2.

Definition dword_bytes_ok (m : PhysicalMemory) : Prop := bytes_ok (dword_ram m).

Lemma store_dword_ok m i v : dword_bytes_ok m -> dword_bytes_ok (store_dword m i v).
Proof. intros Hm. apply ram_store_bytes; [apply to_le_bytes_u8 | done]. Qed.

Lemma dword_write_ok m a v : dword_bytes_ok m -> dword_bytes_ok (dword_write m a v).2.
Proof.
  intros Hm. unfold dword_write. cbn zeta. repeat case_match; cbn [snd]; try done; repeat apply store_dword_ok; done.
Qed.

Lemma store_dword_bytes_ok n : forall m i v, dword_bytes_ok m -> dword_bytes_ok (store_dwords m i v n).
Proof. induction n as [|n IH]; intros m i v Hm; cbn [store_dwords]; [done|]. by apply IH, store_dword_ok. Qed.

Lemma dword_fill_ok m a v n : dword_bytes_ok m -> dword_bytes_ok (dword_fill m a v n).2.
Proof. intros Hm. unfold dword_fill. cbn zeta. repeat case_match; cbn [snd]; try done. by apply store_dword_bytes_ok. Qed.

Lemma bump_targets_ok targets m : ram_ok m -> ram_ok (bump_targets targets m).
Proof.
  intros Hm. unfold bump_targets. revert m Hm. induction targets as [|t ts IH]; intros m Hm; cbn [foldl]; [done|].
  apply IH. by case_match.
Qed.

(** ** Scripted input *)

Lemma insert_frame_Forall (P : Z * GamepadState -> Prop) e l : P e -> Forall P l -> Forall P (insert_by_frame e l).
Proof.
  intros He Hl. induction Hl as [|x l Hx Hl IH]; cbn [insert_by_frame]; [by constructor|].
  case_match; repeat constructor; done.
Qed.

Lemma gamepad_default_ok : gamepad_ok GamepadState_default.
Proof. exact (pad_state _ pad_default). Qed.

Lemma taps_ok presses hold : Forall (fun e => gamepad_ok e.2) presses ->
  Forall (fun e => gamepad_ok e.2) (steps (taps presses hold)).
Proof.
  intros Hp. unfold taps, ScriptedInput_new, sort_by_frame. cbn [steps].
  assert (Forall (fun e => gamepad_ok e.2) ((0, GamepadState_default) :: flat_map (tap hold) presses)) as Hall.
  { apply Forall_cons. split; [apply gamepad_default_ok|]. induction Hp as [|p ps Hp Hps IH]; cbn [flat_map]; [constructor|].
    unfold tap at 1. cbn [app]. rewrite !Forall_cons. split_and!; [done | exact gamepad_default_ok | done]. }
  induction Hall; cbn [foldr]; [constructor|]. by apply insert_frame_Forall.
Qed.

Lemma scripted_sample_ok i frame st : Forall (fun e => gamepad_ok e.2) (steps i) ->
  scripted_sample i frame = Some st -> gamepad_ok st.
Proof.
  intros Hs. unfold scripted_sample. destruct (steps i) as [|e l] eqn:Hl; [done|]. case_match.
  - intros [= <-]. by apply Forall_cons in Hs as [? _].
  - destruct ((e :: l) !! _) as [p|] eqn:Hp; cbn; [|done]. intros [= <-]. by apply (Forall_lookup_1 _ _ _ _ Hs Hp).
Qed.

(** ** The tick *)

Section Loop.
Context `{HostOs} `{!HostBytes} {A : Type} `{CodeAllocation A} {G : Type} `{GraphicsEngine G} `{!GraphicsLaws G} `{IcedLaws}.
Context (Instruction_default : Instruction) (unknown : Z).
Context (x87_execute sse_execute : Unit_execute MmioView DevicePorts).
Context (host_alloc : bool) (fuel : nat).

Abbreviation Session := (Session (A := A) (G := G)).
Abbreviation session_ok := (session_ok fuel).

(** What a session is in order by. *)
Lemma session_same (s s' : Session) : kernel s' = kernel s -> core s' = core s -> loaded s' = loaded s ->
  bare_memory s' = bare_memory s -> decoded s' = decoded s -> usb (devices s') = usb (devices s) ->
  scripted_input s' = scripted_input s -> session_ok s -> session_ok s'.
Proof. intros Hk Hc Hl Hb Hd Hu Hi []. split; rewrite ?Hk, ?Hc, ?Hl, ?Hb, ?Hd, ?Hu, ?Hi; done. Qed.

Lemma with_session_cpu_ok (s : Session) c : session_ok s -> cpu_wf c -> session_ok (with_session_cpu s c).
Proof.
  intros Hs Hc. apply with_core_ok; [done|]. destruct (session_core fuel s Hs) as [Hm Hd]. split; [split|]; [|done|done].
  cbn [core_threads core_cpu]. destruct (core_threads (core s)); [by eapply machine_new_cpu | done].
Qed.

Lemma bump_tick_ok (s : Session) cell : session_ok s -> session_ok (bump_tick_cell s cell).
Proof.
  intros Hs. unfold bump_tick_cell. case_match; [|done]. case_match; [|done].
  apply with_session_memory_ok; [done|]. apply write_any_ok, to_le_bytes_u8. by eapply session_ram.
Qed.

Lemma advance_clocks_ok (s : Session) : session_ok s -> session_ok (advance_clocks s).
Proof.
  intros Hs. unfold advance_clocks. cbn zeta. set (s1 := with_session_cpu s _).
  assert (session_ok s1) as Hs1.
  { apply with_session_cpu_ok; [done|]. apply with_tsc_wf; [|by apply wrap_range].
    apply (core_cpu_wf (core s)). by eapply session_core. }
  clearbody s1. destruct (core_threads (core s1)) as [tm|] eqn:Htm; [|done].
  apply with_core_ok; [done|]. pose proof (session_core fuel s1 Hs1) as Hc. pose proof (core_some _ _ Hc Htm) as Hm.
  apply (core_step_machine _ tm); [done | | apply Hc].
  eapply machine_step; [exact Hm | by apply step_advance | apply sys_advance, Hm].
Qed.

Lemma window_frame_ok c mem : pad_ok c -> ram_ok mem -> pad_ok (advance_frame c mem).1 /\ ram_ok (advance_frame c mem).2.
Proof.
  intros Hc Hm. apply (frame_advance ram_ok); [| |by split].
  - intros m a v Ha. cbn [write_dword WindowMemory]. case_match; [|done].
    pose proof (write_any_ok m (window_va a) (to_le_bytes 4 v) Ha (to_le_bytes_u8 4 v)) as Hw.
    change (space_write m (window_va a) (to_le_bytes 4 v)) with (mem_write_u32 m (window_va a) v) in Hw.
    by destruct (mem_write_u32 m (window_va a) v).
  - intros m a bs Ha Hb. cbn [Ohci.write_bytes WindowMemory]. case_match; [|done].
    pose proof (write_any_ok m (window_va a) bs Ha Hb) as Hw.
    change (space_write m (window_va a) bs) with (mem_write m (window_va a) bs) in Hw.
    case_match; [done|]. by destruct (mem_write m (window_va a) bs).
Qed.

Lemma pump_usb_ok (s : Session) : session_ok s -> session_ok (pump_usb s).
Proof.
  intros Hs. unfold pump_usb. cbn [advance_usb_frames].
  destruct (window_frame_ok (usb (devices s)) (session_memory s)) as [Hp Hm];
    [apply (ok_pad _ _ Hs) | by eapply session_ram|].
  destruct (advance_frame _ _) as [u m]. apply with_session_memory_ok; [|done]. by apply with_devices_ok.
Qed.

Lemma attach_ready_ok (s : Session) : session_ok s -> session_ok (attach_gamepad_when_ready s).
Proof.
  intros Hs. unfold attach_gamepad_when_ready. case_match; [done|]. case_match; [done|]. cbn zeta.
  case_match; [by apply (session_same s)|].
  apply with_devices_ok; [by apply (session_same s)|]. apply pad_attached, (ok_pad _ _ Hs).
Qed.

Lemma sample_gamepad_ok (s : Session) : session_ok s -> session_ok (sample_gamepad s).
Proof.
  intros Hs. unfold sample_gamepad. pose proof (ok_script _ _ Hs) as Hi. destruct (scripted_input s) as [i|]; [|done].
  destruct (scripted_sample i _) as [st|] eqn:Hst; [|done]. apply with_devices_ok; [done|].
  apply pad_set_state; [by eapply scripted_sample_ok | apply (ok_pad _ _ Hs)].
Qed.

Lemma route_ok (s : Session) : session_ok s -> session_ok (route_pramin_if_claimed s).
Proof.
  intros Hs. unfold route_pramin_if_claimed. case_match; [done|]. case_match; [|done]. case_match. by apply (session_same s).
Qed.

Lemma submit_all_ok pramin ramht subs : forall (gpu : G) ram, dword_bytes_ok ram -> dword_bytes_ok (submit_all pramin ramht subs gpu ram).2.
Proof.
  induction subs as [|[[ch get] put] subs IH]; intros gpu ram Hr; cbn [submit_all]; [done|].
  pose proof (gpu_submit_keeps PhysicalMemory _ dword_bytes_ok gpu ram ch pramin ramht get put dword_write_ok dword_fill_ok Hr) as Hg.
  destruct (gpu_submit _ _ _ _ _ _ _ _ _) as [[st gpu'] ram']. by apply IH.
Qed.

Lemma consume_gpu_ok (s : Session) : session_ok s -> session_ok (consume_gpu_submissions s).
Proof.
  intros Hs. unfold consume_gpu_submissions, take_submissions. set (s1 := with_devices s _).
  assert (session_ok s1) as Hs1 by by apply (session_same s). case_match; [done|]. cbn zeta.
  pose proof (session_ram fuel s1 Hs1) as [Hlen Hbytes]. unfold with_physical_dwords.
  match goal with |- context [submit_all ?pr ?rt ?l ?g ?ram] => pose proof (submit_all_ok pr rt l g ram Hbytes) as Hsub end.
  destruct (submit_all _ _ _ _ _) as [gpu ram]. cbn [snd] in Hsub.
  set (s2 := with_session_memory s1 _). assert (session_ok s2) as Hs2.
  { apply with_session_memory_ok; [done|]. apply bump_targets_ok. by split. }
  by apply (session_same s2).
Qed.

Lemma pump_vblank_ok (s : Session) : session_ok s -> session_ok (pump_vblank s).
Proof.
  intros Hs. unfold pump_vblank. cbn zeta. case_match; [|by apply (session_same s)].
  apply (session_same s); try done. unfold raise_vblank. by case_match.
Qed.

Lemma rotate_slice_ok (s : Session) : session_ok s -> session_ok (rotate_slice s).
Proof.
  intros Hs. unfold rotate_slice. cbn zeta. case_match; [done|]. destruct (core_threads (core s)) as [tm|] eqn:Htm; [|done].
  pose proof (rotate_step (core s) tm (session_core fuel s Hs) Htm) as Hr. unfold session_cpu.
  destruct (rotate_active tm (core_cpu (core s))) as [[b tm'] c']. by apply with_core_ok.
Qed.

Lemma pump_delivery_ok (s : Session) : session_ok s -> session_ok (pump_delivery s).
Proof.
  intros Hs. pose proof (session_core fuel s Hs). unfold pump_delivery. case_match; [done|].
  case_match; [by apply with_core_ok; [|apply deliver_dpc_step]|].
  case_match; [by apply with_core_ok; [|apply deliver_interrupt_step] | by apply rotate_slice_ok].
Qed.

Lemma tick_ok (s : Session) cell : session_ok s -> session_ok (pump_tick_deterministic s cell).
Proof.
  intros Hs. unfold pump_tick_deterministic. cbn zeta.
  by apply pump_delivery_ok, pump_vblank_ok, consume_gpu_ok, route_ok, sample_gamepad_ok, attach_ready_ok,
    pump_usb_ok, advance_clocks_ok, bump_tick_ok.
Qed.

(** ** Gates *)

Lemma gate_call_machine registry g i r g' : (forall o e, registry !! o = Some e -> e ∈ startup_exports fuel) ->
  machine_ok (gate_cpu g) (gate_threads g) -> gate_call_with registry g i = Some (r, g') ->
  machine_ok (gate_cpu g') (gate_threads g').
Proof.
  intros Hreg Hm. unfold gate_call_with. cbn zeta. case_match; [|by intros [= <- <-]].
  case_match; [|by intros [= <- <-]]. case_match; [|by intros [= <- <-]].
  destruct (registry !! _) as [e|] eqn:He; [|by intros [= <- <-]]. apply Hreg in He.
  case_match; [|by intros [= <- <-]].
  match goal with |- context [mem_write_u32 ?mem ?a ?v] =>
    pose proof (write_any_ok mem a (to_le_bytes 4 v) (sys_ram _ (proj2 Hm)) (to_le_bytes_u8 4 v)) as Hw;
    change (space_write mem a (to_le_bytes 4 v)) with (mem_write_u32 mem a v) in Hw;
    destruct (mem_write_u32 mem a v) as [[u|err] mem'] end; cbn [snd] in Hw.
  - intros Hrun. eapply dispatch_machine in Hrun as [Hm' _]; [done | done|]. cbn [gate_cpu gate_threads].
    apply machine_memory; [|done]. eapply machine_new_cpu; [exact Hm|].
    apply set_gpr_wf; [by eapply machine_cpu | apply u32_wrapping_sub].
  - intros [= <- <-]. by apply machine_memory.
Qed.

Lemma after_gate_ok (s : Session) tm r g : session_ok s -> core_threads (core s) = Some tm ->
  machine_ok (gate_cpu g) (gate_threads g) -> session_ok (after_gate s r g).2.
Proof.
  intros Hs Htm Hg. unfold after_gate. cbn zeta. set (s1 := with_session_host _ _).
  assert (session_ok s1) as Hs1.
  { apply (session_same (with_core s (mkEmulator (gate_cpu g) (Some (gate_threads g)) (core_interrupted (core s)))));
      try done. apply with_core_ok; [done|]. apply (core_step_machine _ tm); [done | done | apply (ok_displaced _ _ Hs)]. }
  assert (core s1 = mkEmulator (gate_cpu g) (Some (gate_threads g)) (core_interrupted (core s))) as Hc1 by done.
  clearbody s1. destruct r as [assist|e]; [|done].
  set (s2 := match assist with Dispatched _ _ _ _ => _ | _ => _ end).
  assert (session_ok s2 /\ core s2 = core s1) as [Hs2 Hc2].
  { unfold s2. destruct assist; [|done..]. split; [by apply route_ok|].
    unfold route_pramin_if_claimed. repeat case_match; done. }
  clearbody s2. rewrite Hc2, Hc1. cbn [core_interrupted].
  set (c0 := mkEmulator (gate_cpu g) (Some (gate_threads g)) (core_interrupted (core s))) in *.
  assert (core_step (core s2) (after_dispatch assist g (core_interrupted (core s))).2) as Hstep.
  { rewrite Hc2, Hc1. assert (core_ok c0) as Hc0 by (rewrite <- Hc1; by eapply session_core).
    unfold after_dispatch. fold c0. repeat case_match; first [by apply pending_step | by apply core_step_refl]. }
  destruct (after_dispatch assist g _) as [stop c]. by apply with_core_ok.
Qed.

Lemma dispatch_gate_ok (s : Session) o r s' : session_ok s -> dispatch_gate s o = Some (r, s') -> session_ok s'.
Proof.
  intros Hs. unfold dispatch_gate. destruct (kernel s !! o) as [e|] eqn:He; [|by intros [= <- <-]].
  destruct (core_threads (core s)) as [tm|] eqn:Htm; cbn [mbind option_bind]; [|done].
  destruct (dispatch_registered_export _ _ _) as [[r0 g]|] eqn:Hd; [|done].
  eapply dispatch_machine in Hd as [Hg _]; [|by apply (ok_kernel _ _ Hs) in He |
    exact (core_some (core s) tm (session_core fuel s Hs) Htm)].
  pose proof (after_gate_ok s tm r0 g Hs Htm Hg) as Ha. intros [= Heq]. by rewrite Heq in Ha.
Qed.

(** ** One instruction *)

Definition decoded_ok (i : Instruction) : Prop := instruction_wf i \/ i = Instruction_default.

Lemma cached_decode_ok (s : Session) : session_ok s ->
  session_ok (cached_decode Instruction_default s).2 /\ core (cached_decode Instruction_default s).2 = core s /\
  match (cached_decode Instruction_default s).1 with Ok i => decoded_ok i | Err _ => True end.
Proof.
  intros Hs. unfold cached_decode. cbn zeta. set (cache := default InstructionCache_new (decoded s)).
  assert (map_Forall (fun _ e => instruction_wf (entry_instruction e)) cache) as Hcache.
  { unfold cache. pose proof (ok_decoded _ _ Hs) as Hd. destruct (decoded s); [done | apply map_Forall_empty]. }
  assert (forall d, map_Forall (fun _ e => instruction_wf (entry_instruction e)) d -> session_ok (with_decoded s (Some d))) as Hput
    by (intros d Hd; by destruct Hs; split).
  clearbody cache. unfold InstructionCache_get, cache_entry. case_match eqn:Hget.
  - split; [by apply Hput | split; [done|]]. revert Hget. case_match; [done|]. case_match; [|done]. intros [= <-].
    destruct (cache !! _) as [entry|] eqn:He; cbn [default from_option id]; [|by right].
    left. by apply (map_Forall_lookup_1 _ _ _ _ Hcache He).
  - destruct (decode_one _ _) as [i|e] eqn:Hd; cbn [fst snd]; [|split; [by apply Hput | done]].
    apply decode_at_wf in Hd as [Hi _]; [|apply eip_wf, core_cpu_wf; by eapply session_core].
    split; [|split; [done | by left]]. apply Hput. unfold InstructionCache_put. cbn zeta.
    destruct (record_pages _ _ _ _) as [[rec n]|]; [by apply map_Forall_insert_2 | done].
Qed.

Context (default_unknown : mnemonic Instruction_default = Mnemonic.Other unknown)
        (default_unconditional : ConditionCode.is_none (condition_code Instruction_default) = true)
        (x87_sound : unit_sound x87_execute) (sse_sound : unit_sound sse_execute).

Lemma default_step_sound :
  sound (step_instruction x87_execute sse_execute Instruction_default : Exec MmioView DevicePorts unit) (fun _ => True).
Proof.
  unfold step_instruction. eapply sound_bind; [apply sound_gets, eip_wf|]. intros a Ha.
  unfold step_decoded. rewrite default_unknown.
  eapply (sound_bind _ _ (fun _ => True)).
  2: { intros flow _. eapply sound_bind; [|intros ? _; apply sound_advance_tsc].
       destruct flow; [apply sound_advance_eip | by apply sound_ret]. }
  unfold execute. eapply (sound_bind _ _ (fun _ => True)).
  { unfold branch. rewrite default_unknown. case_match; [by apply sound_ret|]. congruence. }
  intros [flow|] _; [by apply sound_ret|]. intros m r m' Hm Hr. split; [|done].
  destruct (x87_execute Instruction_default a m) as [[[u|e] m1]|] eqn:Hf; [simplify_eq; by eapply x87_sound.. |].
  destruct (sse_execute Instruction_default a m) as [[[u|e] m1]|] eqn:Hg; [simplify_eq; by eapply sse_sound.. |].
  unfold execute_straightline in Hr. rewrite default_unknown, default_unconditional in Hr. by injection Hr as <- <-.
Qed.

Lemma step_sound i : decoded_ok i ->
  sound (step_instruction x87_execute sse_execute i : Exec MmioView DevicePorts unit) (fun _ => True).
Proof.
  intros [Hi| ->]; [|apply default_step_sound]. unfold step_instruction.
  eapply sound_bind; [apply sound_gets, eip_wf|]. intros a Ha. by apply sound_step_decoded.
Qed.

Lemma step_session_ok (s : Session) i : session_ok s -> decoded_ok i ->
  session_ok (step_session x87_execute sse_execute s i).2.
Proof.
  intros Hs Hi. unfold step_session. cbn zeta.
  set (m := mkMachine (session_cpu s) (session_view s) (device_ports s)).
  assert (ExecInvariant.machine_ok m) as Hm.
  { split; [split; [by eapply session_ram | apply (ok_pad _ _ Hs)]|]. apply core_cpu_wf. by eapply session_core. }
  destruct (step_instruction _ _ i m) as [r m'] eqn:Hrun. apply (step_sound i Hi) in Hrun as [[[Hram Hpad] Hcpu] _]; [|done].
  set (s1 := with_session_memory _ _).
  assert (session_ok s1) as Hs1 by (apply with_session_memory_ok; [by apply with_session_cpu_ok | done]).
  assert (session_ok (with_device_ports (with_devices s1 (view_devices (mem m'))) (bus m'))) as Hs2.
  { apply (session_same (with_devices s1 (view_devices (mem m')))); try done. by apply with_devices_ok. }
  destruct r; exact Hs2.
Qed.

Lemma assist_ok (s : Session) r s' : session_ok s ->
  assist_at_current_eip Instruction_default x87_execute sse_execute s = Some (r, s') -> session_ok s'.
Proof.
  intros Hs. unfold assist_at_current_eip. destruct (cached_decode_ok s Hs) as (Hs1 & Hc & Hi).
  destruct (cached_decode Instruction_default s) as [[i|e] s1]; cbn [fst snd] in *; [|by intros [= <- <-]].
  pose proof (step_session_ok s1 i Hs1 Hi) as Hstep. case_match; [|intros [= Heq]; by rewrite Heq in Hstep].
  destruct (core_threads (core s1)) as [tm|] eqn:Htm; cbn [mbind option_bind]; [|done].
  destruct (gate_call_with _ _ _) as [[r0 g]|] eqn:Hg; [|done].
  apply gate_call_machine in Hg; [|apply (ok_kernel _ _ Hs1) | exact (core_some (core s1) tm (session_core fuel s1 Hs1) Htm)].
  pose proof (after_gate_ok s1 tm r0 g Hs1 Htm Hg) as Ha.
  destruct r0 as [[| |]|]; intros Heq%Some_inj; first [by rewrite Heq in Ha | by rewrite Heq in Hstep].
Qed.

(** ** The loop *)

Abbreviation run_iteration := (run_iteration Instruction_default x87_execute sse_execute).
Abbreviation run_from := (run_from Instruction_default x87_execute sse_execute).
Abbreviation run_blocks := (run_blocks Instruction_default x87_execute sse_execute).
Abbreviation run_boots := (run_boots Instruction_default x87_execute sse_execute host_alloc).
Abbreviation run := (run Instruction_default x87_execute sse_execute host_alloc).

(** The export a call through an import slot reaches, and the state it is
    called in. *)
Definition gate_target (registry : gmap Z KernelExport) (g : GateState) (i : Instruction)
  : option (GateState * Z * KernelExport) :=
  slot ← Subset.indirect_call_slot i;
  target ← (match mem_read_u32 (gate_memory g) slot with Ok target => Some target | Err _ => None end);
  o ← gate_ordinal target;
  e ← registry !! o;
  resume ← checked_add 32 (eip (gate_cpu g)) (len i);
  let pushed_esp := wrapping_sub32 (gpr_at (gate_cpu g) 4) 4 in
  match mem_write_u32 (gate_memory g) pushed_esp resume with
  | (Ok _, mem) =>
    Some (mkGateState (set_gpr (gate_cpu g) 4 pushed_esp) (with_memory (gate_threads g) mem) (gate_host g), o, e)
  | (Err _, _) => None
  end.

(** The export call a round of the loop makes, if it makes one: at a gate, or
    through an import slot. *)
Definition called_export (cell : option GuestVa) (executed : Z) (s : Session) : option (GateState * Z * KernelExport) :=
  let s := if executed mod BLOCKS_PER_VIRTUAL_MS =? 0 then pump_tick_deterministic s cell else s in
  let parked := match core_threads (core s) with Some tm => negb (active_runnable tm) | None => false end in
  let start := eip (session_cpu s) in
  if parked && match core_interrupted (core s) with Some _ => false | None => true end then None
  else if start =? INTERRUPT_RETURN_SENTINEL then None
  else if (start =? THREAD_EXIT_SENTINEL)
          || (start =? 0) && from_option active_exits_on_null_return false (core_threads (core s)) then None
  else match gate_ordinal start with
       | Some o => e ← kernel s !! o; tm ← core_threads (core s); Some (mkGateState (session_cpu s) tm (session_host s), o, e)
       | None =>
         match cached_decode Instruction_default s with
         | (Err _, _) => None
         | (Ok i, s) => tm ← core_threads (core s);
                        gate_target (kernel s) (mkGateState (session_cpu s) tm (session_host s)) i
         end
       end.

(** A call that does not return: its export panics, or waits on the host
    for ever. *)
Definition call_hangs (call : option (GateState * Z * KernelExport)) : Prop :=
  exists g o e, call = Some (g, o, e) /\ dispatch_registered_export g o e = None.

Lemma no_call_hangs : ~ call_hangs None.
Proof. by intros (g & o & e & ? & _). Qed.

(** [p] comes back with a session in order. *)
Definition in_order {R} (p : option (R * Session)) : Prop := forall r s, p = Some (r, s) -> session_ok s.

Lemma loaded_manager (s : Session) : session_ok s -> is_Some (loaded s) -> is_Some (core_threads (core s)).
Proof. intros Hs [t Ht]. pose proof (ok_title _ _ Hs) as Hl. rewrite Ht in Hl. destruct (core_threads (core s)); [by eexists | done]. Qed.

Lemma dispatch_gate_none (s : Session) o : is_Some (core_threads (core s)) -> dispatch_gate s o = None <->
  call_hangs (e ← kernel s !! o; tm ← core_threads (core s); Some (mkGateState (session_cpu s) tm (session_host s), o, e)).
Proof.
  intros [tm Htm]. unfold dispatch_gate. rewrite Htm. cbn [mbind option_bind].
  destruct (kernel s !! o) as [e|]; cbn [mbind option_bind]; [|by split; [|intros ?%no_call_hangs]].
  destruct (dispatch_registered_export _ _ _) as [[r0 g]|] eqn:Hx; cbn [mbind option_bind].
  - split; [done|]. intros (g' & o' & e' & [= <- <- <-] & Hd). congruence.
  - split; [|done]. intros _. by eexists _, _, _.
Qed.

Lemma gate_call_none registry g i : gate_call_with registry g i = None <-> call_hangs (gate_target registry g i).
Proof.
  unfold gate_call_with, gate_target. cbn zeta.
  destruct (Subset.indirect_call_slot i) as [slot|]; cbn [mbind option_bind]; [|by split; [|intros ?%no_call_hangs]].
  destruct (mem_read_u32 _ slot) as [target|]; cbn [mbind option_bind]; [|by split; [|intros ?%no_call_hangs]].
  destruct (gate_ordinal target) as [o|]; cbn [mbind option_bind]; [|by split; [|intros ?%no_call_hangs]].
  destruct (registry !! o) as [e|]; cbn [mbind option_bind]; [|by split; [|intros ?%no_call_hangs]].
  destruct (checked_add _ _ _) as [resume|]; cbn [mbind option_bind]; [|by split; [|intros ?%no_call_hangs]].
  destruct (mem_write_u32 _ _ _) as [[u|err] mem']; [|by split; [|intros ?%no_call_hangs]].
  split; [by eexists _, _, _|]. by intros (g' & o' & e' & [= <- <- <-] & Hd).
Qed.

Lemma assist_none (s : Session) : is_Some (core_threads (core s)) ->
  assist_at_current_eip Instruction_default x87_execute sse_execute s = None <->
  call_hangs (match cached_decode Instruction_default s with
              | (Err _, _) => None
              | (Ok i, s) => tm ← core_threads (core s);
                             gate_target (kernel s) (mkGateState (session_cpu s) tm (session_host s)) i
              end).
Proof.
  intros Hsome. unfold assist_at_current_eip.
  assert (core (cached_decode Instruction_default s).2 = core s) as Hc by (unfold cached_decode; cbn zeta; repeat case_match; done).
  destruct (cached_decode Instruction_default s) as [[i|e] s1]; cbn [snd] in Hc; [|by split; [|intros ?%no_call_hangs]].
  rewrite <- Hc in Hsome. destruct Hsome as [tm ->]. cbn [mbind option_bind]. rewrite <- gate_call_none.
  destruct (Subset.indirect_call_slot i) eqn:Hslot.
  - destruct (gate_call_with _ _ _) as [[r0 g]|]; cbn [mbind option_bind]; [|done]. by destruct r0 as [[| |]|].
  - unfold gate_call_with. by rewrite Hslot.
Qed.

(** The image stays the loaded one. *)
Lemma memory_loaded (s : Session) m : loaded (with_session_memory s m) = loaded s.
Proof. unfold with_session_memory. by case_match. Qed.

Lemma delivery_loaded (s : Session) : loaded (pump_delivery s) = loaded s.
Proof.
  unfold pump_delivery, rotate_slice. cbn zeta. repeat (case_match; try done).
Qed.

Lemma consume_loaded (s : Session) : loaded (consume_gpu_submissions s) = loaded s.
Proof.
  unfold consume_gpu_submissions, take_submissions. case_match; [done|]. cbn zeta.
  destruct (with_physical_dwords _ _) as [gpu m]. exact (memory_loaded _ _).
Qed.

Lemma usb_loaded (s : Session) : loaded (pump_usb s) = loaded s.
Proof. unfold pump_usb. destruct (advance_usb_frames _ _ _). by rewrite memory_loaded. Qed.

Lemma vblank_loaded (s : Session) : loaded (pump_vblank s) = loaded s.
Proof. unfold pump_vblank. cbn zeta. by case_match. Qed.
Lemma route_loaded (s : Session) : loaded (route_pramin_if_claimed s) = loaded s.
Proof. unfold route_pramin_if_claimed. repeat case_match; done. Qed.
Lemma sample_loaded (s : Session) : loaded (sample_gamepad s) = loaded s.
Proof. unfold sample_gamepad. repeat case_match; done. Qed.
Lemma attach_loaded (s : Session) : loaded (attach_gamepad_when_ready s) = loaded s.
Proof. unfold attach_gamepad_when_ready. repeat case_match; done. Qed.
Lemma clocks_loaded (s : Session) : loaded (advance_clocks s) = loaded s.
Proof. unfold advance_clocks. cbn zeta. by case_match. Qed.
Lemma bump_loaded (s : Session) cell : loaded (bump_tick_cell s cell) = loaded s.
Proof. unfold bump_tick_cell. repeat case_match; try done. apply memory_loaded. Qed.

Lemma tick_loaded (s : Session) cell : loaded (pump_tick_deterministic s cell) = loaded s.
Proof.
  unfold pump_tick_deterministic. cbn zeta.
  by rewrite delivery_loaded, vblank_loaded, consume_loaded, route_loaded, sample_loaded, attach_loaded, usb_loaded,
    clocks_loaded, bump_loaded.
Qed.

Lemma step_loaded (s : Session) i : loaded (step_session x87_execute sse_execute s i).2 = loaded s.
Proof.
  unfold step_session. cbn zeta. destruct (step_instruction _ _ _ _) as [r m].
  case_match; exact (memory_loaded (with_session_cpu s (cpu m)) (view_ram (mem m))).
Qed.

Lemma after_gate_loaded (s : Session) r g : loaded (after_gate s r g).2 = loaded s.
Proof.
  unfold after_gate. cbn zeta. case_match; [|done]. destruct (after_dispatch _ _ _) as [stop c].
  case_match; try done. cbn [snd]. exact (route_loaded _).
Qed.

Lemma iteration_loaded cell executed (s : Session) r s' : run_iteration cell executed s = Some (r, s') -> loaded s' = loaded s.
Proof.
  unfold RunLoop.run_iteration. cbn zeta. set (s1 := if executed mod BLOCKS_PER_VIRTUAL_MS =? 0 then pump_tick_deterministic s cell else s).
  assert (loaded s1 = loaded s) as <- by (unfold s1; case_match; [apply tick_loaded | done]). clearbody s1.
  destruct (_ && _); [destruct (idle_step_deterministic _); by intros [= <- <-]|].
  case_match; [by intros [= <- <-]|]. case_match; [destruct (core_exit_current_thread _ _); by intros [= <- <-]|].
  case_match.
  - unfold dispatch_gate. case_match; [|by intros [= <- <-]].
    destruct (core_threads (core s1)); cbn [mbind option_bind]; [|done].
    destruct (dispatch_registered_export _ _ _) as [[r0 g]|]; [|done]. intros Heq%Some_inj.
    by rewrite <- (after_gate_loaded s1 r0 g), Heq.
  - unfold assist_at_current_eip. assert (loaded (cached_decode Instruction_default s1).2 = loaded s1) as <-.
    { unfold cached_decode. cbn zeta. repeat case_match; done. }
    destruct (cached_decode Instruction_default s1) as [[i|e] s2]; cbn [snd]; [|by intros [= <- <-]].
    case_match; [|intros Heq%Some_inj; by rewrite <- (step_loaded s2 i), Heq].
    destruct (core_threads (core s2)); cbn [mbind option_bind]; [|done].
    destruct (gate_call_with _ _ _) as [[r0 g]|]; [|done].
    destruct r0 as [[| |]|]; intros Heq%Some_inj; apply (f_equal (fun p => loaded p.2)) in Heq;
      by rewrite ?after_gate_loaded, ?step_loaded in Heq.
Qed.

Lemma ticked_ok cell executed (s : Session) : session_ok s ->
  session_ok (if executed mod BLOCKS_PER_VIRTUAL_MS =? 0 then pump_tick_deterministic s cell else s).
Proof. intros Hs. case_match; [by apply tick_ok | done]. Qed.

Lemma iteration_in_order cell executed (s : Session) : session_ok s -> in_order (run_iteration cell executed s).
Proof.
  intros Hs r s'. unfold RunLoop.run_iteration. cbn zeta. pose proof (ticked_ok cell executed s Hs) as Hs1. revert Hs1.
  generalize (if executed mod BLOCKS_PER_VIRTUAL_MS =? 0 then pump_tick_deterministic s cell else s). intros s1 Hs1.
  pose proof (session_core fuel s1 Hs1) as Hc. destruct (_ && _).
  { pose proof (idle_step (core s1) Hc) as Hi. destruct (idle_step_deterministic (core s1)) as [stop c].
    intros [= <- <-]. by apply with_core_ok. }
  case_match; [intros [= <- <-]; by apply with_core_ok; [|apply finish_step]|].
  case_match.
  { pose proof (exit_step (core s1) (gpr_at (session_cpu s1) 0) Hc) as Hi.
    destruct (core_exit_current_thread _ _) as [stop c]. intros [= <- <-]. by apply with_core_ok. }
  case_match; [by apply dispatch_gate_ok | by apply assist_ok].
Qed.

(** A round has no result exactly when the call it makes does not return. *)
Lemma iteration_none cell executed (s : Session) : session_ok s -> is_Some (loaded s) ->
  run_iteration cell executed s = None <-> call_hangs (called_export cell executed s).
Proof.
  intros Hs Hl. unfold RunLoop.run_iteration, called_export. cbn zeta. pose proof (ticked_ok cell executed s Hs) as Hs1.
  assert (loaded (if executed mod BLOCKS_PER_VIRTUAL_MS =? 0 then pump_tick_deterministic s cell else s) = loaded s) as Hl1
    by (case_match; [apply tick_loaded | done]).
  revert Hs1 Hl1. generalize (if executed mod BLOCKS_PER_VIRTUAL_MS =? 0 then pump_tick_deterministic s cell else s).
  intros s1 Hs1 Hl1. rewrite <- Hl1 in Hl. pose proof (loaded_manager s1 Hs1 Hl) as Hsome. destruct (_ && _).
  { destruct (idle_step_deterministic (core s1)). by split; [|intros ?%no_call_hangs]. }
  case_match; [by split; [|intros ?%no_call_hangs]|].
  case_match; [destruct (core_exit_current_thread _ _); by split; [|intros ?%no_call_hangs]|].
  case_match; [by apply dispatch_gate_none | by apply assist_none].
Qed.

(** The rounds a loop begins, with the count and the session of each. *)
Inductive rounds_from (cell : option GuestVa) : Z -> nat -> Session -> Z -> Session -> Prop :=
| round_begins executed blocks s : rounds_from cell executed (S blocks) s executed s
| round_follows executed blocks s s1 n s' : run_iteration cell executed s = Some (Ok None, s1) ->
    rounds_from cell (executed + 1) blocks s1 n s' -> rounds_from cell executed (S blocks) s n s'.

(** The rounds a run begins, through its relaunches. *)
Inductive run_begins (blocks : nat) : nat -> Session -> option GuestVa -> Z -> Session -> Prop :=
| begins_here boots s n s' : is_Some (loaded s) ->
    rounds_from (core_threads (core s) ≫= tick_count_cell) 0 blocks s n s' ->
    run_begins blocks boots s (core_threads (core s) ≫= tick_count_cell) n s'
| begins_relaunched boots s routine s1 s2 cell n s' : run_blocks s blocks = Some (Ok (Reboot routine), s1) ->
    relaunch_title host_alloc s1 = (Ok true, s2) -> run_begins blocks boots s2 cell n s' ->
    run_begins blocks (S boots) s cell n s'.

Lemma run_from_in_order cell blocks : forall executed (s : Session), session_ok s -> in_order (run_from cell executed blocks s).
Proof.
  induction blocks as [|blocks IH]; intros executed s Hs r s'; cbn [RunLoop.run_from]; [by intros [= <- <-]|].
  pose proof (iteration_in_order cell executed s Hs) as Hi. destruct (run_iteration cell executed s) as [[[[stop|]|e] s1]|]; [..|done];
    specialize (Hi _ _ eq_refl); [by intros [= <- <-] | by apply IH | by intros [= <- <-]].
Qed.

Lemma run_from_none cell blocks : forall executed (s : Session), session_ok s -> is_Some (loaded s) ->
  run_from cell executed blocks s = None <->
  exists n s', rounds_from cell executed blocks s n s' /\ call_hangs (called_export cell n s').
Proof.
  induction blocks as [|blocks IH]; intros executed s Hs Hl; cbn [RunLoop.run_from].
  { split; [done|]. intros (n & s' & Hr & _). inversion Hr. }
  pose proof (iteration_in_order cell executed s Hs) as Hi. pose proof (iteration_none cell executed s Hs Hl) as Hnone.
  destruct (run_iteration cell executed s) as [[r s1]|] eqn:Hrun.
  2: { split; [|done]. intros _. exists executed, s. split; [constructor | by apply Hnone]. }
  assert (~ call_hangs (called_export cell executed s)) as Hno by (intros ?%Hnone; done).
  specialize (Hi _ _ eq_refl). pose proof (iteration_loaded _ _ _ _ _ Hrun) as Hl1. rewrite <- Hl1 in Hl.
  assert ((exists n s', rounds_from cell executed (S blocks) s n s' /\ call_hangs (called_export cell n s')) <->
    r = Ok None /\ exists n s', rounds_from cell (executed + 1) blocks s1 n s' /\ call_hangs (called_export cell n s')) as ->.
  { split.
    - intros (n & s' & Hr & Hh). inversion Hr; simplify_eq; [done | eauto].
    - intros (-> & n & s' & Hr & Hh). exists n, s'. split; [by eapply round_follows | done]. }
  destruct r as [[stop|]|e]; [by split; [|intros [? _]] | | by split; [|intros [? _]]].
  rewrite (IH _ _ Hi Hl). naive_solver.
Qed.

Lemma run_blocks_in_order (s : Session) n : session_ok s -> in_order (run_blocks s n).
Proof.
  intros Hs. unfold RunLoop.run_blocks. destruct (loaded s); [by apply run_from_in_order|]. by intros r s' [= <- <-].
Qed.

Lemma run_boots_in_order boots n : forall (s : Session), session_ok s -> in_order (run_boots boots n s).
Proof.
  induction boots as [|boots IH]; intros s Hs; cbn [RunLoop.run_boots];
    pose proof (run_blocks_in_order s n Hs) as Hb; destruct (run_blocks s n) as [[[[]|e] s1]|]; try done.
  specialize (Hb _ _ eq_refl).
  destruct (relaunch_title host_alloc s1) as [[[]|e] s2] eqn:Hr; eapply relaunch_ok in Hr; try done;
    [by apply IH | by intros r s' [= <- <-] | by intros r s' [= <- <-]].
Qed.

Lemma run_blocks_none (s : Session) blocks : session_ok s -> run_blocks s blocks = None <-> is_Some (loaded s) /\
  exists n s', rounds_from (core_threads (core s) ≫= tick_count_cell) 0 blocks s n s' /\
    call_hangs (called_export (core_threads (core s) ≫= tick_count_cell) n s').
Proof.
  intros Hs. unfold RunLoop.run_blocks. destruct (loaded s) as [t|] eqn:Hl; [|by split; [|intros [[? ?] _]]].
  rewrite run_from_none by (done || by rewrite Hl). split; [by intros ?; split; [eexists|] | by intros [_ ?]].
Qed.

(** A run has no result exactly when one of its rounds makes a call that does
    not return. *)
Lemma run_boots_none boots blocks : forall (s : Session), session_ok s -> run_boots boots blocks s = None <->
  exists cell n s', run_begins blocks boots s cell n s' /\ call_hangs (called_export cell n s').
Proof.
  induction boots as [|boots IH]; intros s Hs; cbn [RunLoop.run_boots]; pose proof (run_blocks_in_order s blocks Hs) as Hb;
    pose proof (run_blocks_none s blocks Hs) as Hnone; destruct (run_blocks s blocks) as [[r s1]|] eqn:Hrun.
  - split; [by destruct r as [[]|]|]. intros (cell & n & s' & Hr & Hh). inversion Hr; simplify_eq.
    assert (Some (r, s1) = None) as Hx by (apply Hnone; eauto). done.
  - split; [|done]. intros _. destruct (proj1 Hnone eq_refl) as (Hl & n & s' & Hr & Hh). eexists _, n, s'.
    split; [by apply begins_here | done].
  - assert (forall cell n s', run_begins blocks (S boots) s cell n s' -> call_hangs (called_export cell n s') ->
      exists routine s2, r = Ok (Reboot routine) /\ relaunch_title host_alloc s1 = (Ok true, s2) /\
        run_begins blocks boots s2 cell n s') as Hinv.
    { intros cell n s' Hr Hh. inversion Hr; simplify_eq; [|eauto 10].
      assert (Some (r, s1) = None) as Hx by (apply Hnone; eauto). done. }
    specialize (Hb _ _ eq_refl).
    destruct r as [[]|e]; try by (split; [|intros (cell & n & s' & Hr & Hh); destruct (Hinv _ _ _ Hr Hh) as (? & ? & ? & _)]).
    destruct (relaunch_title host_alloc s1) as [[[]|e] s2] eqn:Hre;
      try by (split; [|intros (cell & n & s' & Hr & Hh); destruct (Hinv _ _ _ Hr Hh) as (? & ? & ? & ? & _)]).
    pose proof Hre as Hok. eapply relaunch_ok in Hok; [|done..]. rewrite (IH _ Hok). split.
    + intros (cell & n & s' & Hr & Hh). exists cell, n, s'. split; [by eapply begins_relaunched | done].
    + intros (cell & n & s' & Hr & Hh). destruct (Hinv _ _ _ Hr Hh) as (? & ? & _ & [= <-] & ?). eauto.
  - split; [|done]. intros _. destruct (proj1 Hnone eq_refl) as (Hl & n & s' & Hr & Hh). eexists _, n, s'.
    split; [by apply begins_here | done].
Qed.

(** ** Sessions the program can be in *)

(** The public operations, in any order: building, the settings, loading,
    resetting and running. *)
Inductive session_reach : Session -> Prop :=
| session_built c gpu w s : build host_alloc fuel c gpu w = Ok s -> session_reach s
| session_disc s root : session_reach s -> session_reach (set_disc_root s root)
| session_hdd s root : session_reach s -> session_reach (set_hdd_root s root)
| session_script s presses hold : session_reach s -> Forall (fun e => gamepad_ok e.2) presses ->
    session_reach (set_scripted_input s presses hold)
| session_gamepad s attached : session_reach s -> session_reach (attach_gamepad s attached)
| session_loads s bytes r s' : session_reach s -> Forall u8 bytes -> Xbe.file_len bytes < 2 ^ 64 ->
    load_xbe host_alloc s bytes = (r, s') -> session_reach s'
| session_resets s r s' : session_reach s -> reset_inner host_alloc s = (r, s') -> session_reach s'
| session_runs s blocks r s' : session_reach s -> run s blocks = Some (r, s') -> session_reach s'.

Lemma reach_ok (s : Session) : session_reach s -> session_ok s.
Proof.
  induction 1 as [c gpu w s Hb|s root _ IH|s root _ IH|s presses hold _ IH Hp|s attached _ IH
    |s bytes r s' _ IH Hb Hl Hrun|s r s' _ IH Hrun|s blocks r s' _ IH Hrun].
  - by eapply build_ok.
  - by apply (session_same s).
  - by apply (session_same s).
  - destruct IH. split; try done. by apply taps_ok.
  - unfold attach_gamepad. case_match; [by apply (session_same s)|].
    apply with_devices_ok; [by apply (session_same s)|]. apply pad_attached, (ok_pad _ _ IH).
  - by eapply load_ok.
  - by eapply reset_session_ok.
  - by apply (run_boots_in_order MAX_RELAUNCHES blocks s IH) in Hrun.
Qed.

(** C3: In every session the program can be in, whatever titles are loaded,
    reset and run and in whatever order, an image is loaded exactly when there
    is a thread manager, the manager is one the scheduler can reach, and the
    registers, RAM, a displaced context, the cached decodes and the pad keep
    the widths of their types. *)
Theorem sessions_stay_in_order (s : Session) : session_reach s ->
  (is_Some (loaded s) <-> is_Some (core_threads (core s))) /\
  (forall tm, core_threads (core s) = Some tm -> SchedulerReach.reachable (tm, core_cpu (core s))) /\
  cpu_wf (core_cpu (core s)) /\ ram_ok (session_memory s) /\ from_option cpu_wf True (core_interrupted (core s)) /\
  (forall cache slot entry, decoded s = Some cache -> cache !! slot = Some entry -> instruction_wf (entry_instruction entry)) /\
  pad_ok (usb (devices s)).
Proof.
  intros Hs%reach_ok. pose proof (session_core fuel s Hs) as Hc. split_and!.
  - pose proof (ok_title _ _ Hs) as Ht. destruct (loaded s), (core_threads (core s)); try done;
      split; intros [? ?]; first [by eexists | done].
  - intros tm Htm. apply (core_some _ _ Hc Htm).
  - by apply core_cpu_wf.
  - by eapply session_ram.
  - apply Hc.
  - intros cache slot entry Hd He. pose proof (ok_decoded _ _ Hs) as Hall. rewrite Hd in Hall.
    by apply (map_Forall_lookup_1 _ _ _ _ Hall He).
  - apply (ok_pad _ _ Hs).
Qed.

(** C4: A run ends unless a kernel export it calls does not.  From every
    session the program can be in, [run] with any budget has no result exactly
    when one of the rounds it begins, before or after a relaunch, makes a call
    to a registered kernel export that does not return, in the state that
    round calls it in: nothing else in the loop, the ticks, the devices, the
    relaunches or the scheduling can keep it from coming back.  Without a title
    it refuses at once and changes nothing. *)
Theorem run_comes_back (s : Session) (blocks : nat) : session_reach s ->
  (run s blocks = None <-> exists cell n s', run_begins blocks MAX_RELAUNCHES s cell n s' /\
     exists g o e, called_export cell n s' = Some (g, o, e) /\ dispatch_registered_export g o e = None) /\
  (loaded s = None -> run s blocks = Some (Err NoImageLoaded, s)).
Proof.
  intros Hs. split; [exact (run_boots_none MAX_RELAUNCHES blocks s (reach_ok s Hs))|]. intros Hl.
  unfold RunLoop.run, MAX_RELAUNCHES. cbn [RunLoop.run_boots]. unfold RunLoop.run_blocks. by rewrite Hl.
Qed.
End Loop.

(** ** What a reset leaves behind *)

Lemma routed_stays `{HostOs} {A : Type} `{CodeAllocation A} {G : Type} (s : Session (A := A) (G := G)) :
  pramin_routed s = true -> route_pramin_if_claimed s = s.
Proof. intros Hp. unfold route_pramin_if_claimed. by rewrite Hp. Qed.

(** A reset keeps the cached decodes, the displaced context, the devices and
    the mark that instance memory has been routed: whatever a later title
    claims, its window stays at the old one's claim. *)
Theorem reset_leaves_routing `{HostOs} {A : Type} `{CodeAllocation A} {G : Type} (host_alloc : bool)
    (s s' : Session (A := A) (G := G)) : reset_inner host_alloc s = (Ok tt, s') -> pramin_routed s = true ->
  decoded s' = decoded s /\ core_interrupted (core s') = core_interrupted (core s) /\ devices s' = devices s /\
  forall c, route_pramin_if_claimed (with_core s' c) = with_core s' c.
Proof.
  unfold reset_inner. destruct (lift_memory _) as [mem|e]; [|discriminate]. intros Heq Hp.
  set (s1 := with_last_relaunch_data _ None) in Heq. assert (s1 = s') as <- by congruence.
  split; [exact eq_refl|]. split; [exact eq_refl|]. split; [exact eq_refl|].
  intros c. apply routed_stays. exact Hp.
Qed.

(** ** A run *)

Section Demo.
#[local] Existing Instance demo_host.
#[local] Existing Instance DemoIced.
#[local] Existing Instance demo_bytes.
#[local] Existing Instance demo_iced_laws.

(** An engine that accepts submissions and draws nothing. *)
#[local] Instance idle_engine : GraphicsEngine unit := {|
  gpu_submit := fun M _ gpu ram _ _ _ _ put => (put, gpu, ram);
  gpu_busiest_targets := fun _ _ => [];
  gpu_take_completed_frame := fun gpu => (None, gpu);
|}.

#[local] Instance idle_engine_laws : GraphicsLaws unit.
Proof. by intros M nv I gpu ram channel pramin ramht get put _ _ Hi. Qed.

Definition demo_default : Instruction := plain_instruction (Mnemonic.Other 0) (Code.Other 0) 0 0.

Definition demo_run : option (result CoreError StopReason * Session (A := WindowsAllocation) (G := unit)) :=
  match demo_boot with
  | Ok s => run demo_default no_unit no_unit true s 3
  | Err _ => None
  end.

Lemma no_unit_sound : unit_sound (no_unit (Mem := MmioView) (Ports := DevicePorts)).
Proof. by intros i a m r m' _ Hr. Qed.

Abbreviation demo_reach := (session_reach (A := WindowsAllocation) (G := unit) demo_default no_unit no_unit true 4).

Lemma demo_boot_reach s : demo_boot = Ok s -> demo_reach s.
Proof.
  unfold demo_boot. destruct demo_session as [s0|] eqn:Hs; [|done]. cbn [mbind result_bind].
  destruct (load_xbe true s0 synthetic_xbe) as [[t|] s1] eqn:Hl; [|done]. intros [= <-].
  eapply session_loads; [by eapply session_built | exact synthetic_xbe_u8 | by vm_compute | exact Hl].
Qed.

(** The title of the synthetic image returns from its entry point. *)
Definition demo_stop : option StopReason :=
  match demo_run with Some (Ok stop, _) => Some stop | _ => None end.

Lemma sessions_stay_in_order_witness : exists s, demo_run = Some (Ok (GuestExit 0), s) /\ demo_reach s /\
  cpu_wf (core_cpu (core s)) /\ ram_ok (session_memory s).
Proof.
  assert (demo_stop = Some (GuestExit 0)) as Hstop by by vm_compute. revert Hstop. unfold demo_stop.
  destruct demo_run as [[[stop|] s]|] eqn:Hrun; [|done..]. intros [= ->]. exists s. split; [done|].
  assert (demo_reach s) as Hs.
  { unfold demo_run in Hrun. destruct demo_boot as [s0|] eqn:Hb; [|done].
    eapply session_runs; [by apply demo_boot_reach | exact Hrun]. }
  split; [done|].
  destruct (sessions_stay_in_order demo_default 0 no_unit no_unit true 4 eq_refl eq_refl no_unit_sound no_unit_sound s Hs) as (_ & _ & Hc & Hr & _).
  exact (conj Hc Hr).
Defined.

Lemma run_comes_back_witness : exists s, demo_boot = Ok s /\
  forall cell n s', run_begins demo_default no_unit no_unit true 3 MAX_RELAUNCHES s cell n s' ->
  forall g o e, called_export demo_default cell n s' = Some (g, o, e) -> is_Some (dispatch_registered_export g o e).
Proof.
  assert (demo_stop = Some (GuestExit 0)) as Hstop by by vm_compute. revert Hstop. unfold demo_stop, demo_run.
  destruct demo_boot as [s|] eqn:Hb; [|discriminate]. pose proof (demo_boot_reach s Hb) as Hs. intros Hstop.
  exists s. split; [reflexivity|]. intros cell n s' Hr g o e Hcall.
  destruct (dispatch_registered_export g o e) as [x|] eqn:Hx; [by exists x|].
  destruct (run_comes_back demo_default 0 no_unit no_unit true 4 eq_refl eq_refl no_unit_sound no_unit_sound s 3 Hs) as [[_ Hnone] _].
  rewrite Hnone in Hstop; [discriminate|]. exists cell, n, s'. split; [exact Hr|]. exists g, o, e. split; assumption.
Defined.
End Demo.
