(* ===== verification/PushbufferTheorems.v ===== *)
(** * Submissions

    What [PushbufferEngine::submit] of [exbawks-gpu/src/nv2a.rs] promises its
    caller: every submission comes back, with the engine's arrays intact and a
    bounded number of methods applied; a stream of encoded commands is run as
    the commands it encodes, in order; and the engine is one the run loop can
    use, so the theorems on sessions hold of it. *)

From S2P Require Import Prelude GuestTypes SoftwareSpace GpuMemory Textures GpuState Pushbuffer PushbufferSafety RunLoop SessionTheorems.

Local Open Scope Z_scope.

(** ** Commands and their encoding *)

Record Command : Type := mkCommand {
  cmd_subchannel : Z;
  cmd_method : Z;
  cmd_non_increasing : bool;
  cmd_arguments : list Z;
}.

Definition header (c : Command) : Z :=
  Z.lor (Z.shiftl (Z.of_nat (length (cmd_arguments c))) 18)
    (Z.lor (Z.shiftl (cmd_subchannel c) 13) (Z.lor (cmd_method c) (if cmd_non_increasing c then 0x40000000 else 0))).

Definition encode (c : Command) : list Z := header c :: cmd_arguments c.

Definition command_ok (c : Command) : Prop :=
  is_u 3 (cmd_subchannel c) /\ is_u 13 (cmd_method c) /\ cmd_method c mod 4 = 0 /\
  Z.of_nat (length (cmd_arguments c)) <= 2047.

(** A mask is checked bit by bit. *)
Lemma land_by_bits w mask k : u32 mask -> u32 k ->
  Forall (fun i => Z.testbit mask i = true -> Z.testbit w i = Z.testbit k i) (seqZ 0 32) ->
  forallb (fun i => Z.testbit mask i || negb (Z.testbit k i)) (seqZ 0 32) = true -> Z.land w mask = k.
Proof.
  intros Hm Hk Hbits Hrest. apply Z.bits_inj'. intros i Hi. rewrite Z.land_spec.
  destruct (Z.ltb_spec i 32).
  - assert (i ∈ seqZ 0 32) as Hin by (apply elem_of_seqZ; lia). rewrite Forall_forall in Hbits.
    specialize (Hbits i Hin). apply list_elem_of_In in Hin.
    pose proof (proj1 (forallb_forall _ _) Hrest i Hin) as Hr. cbv beta in Hr. revert Hbits Hr.
    destruct (Z.testbit mask i); [rewrite andb_true_r; auto|]. rewrite andb_false_r. intros _.
    by destruct (Z.testbit k i).
  - by rewrite (is_u_high_bit 32 mask i), (is_u_high_bit 32 k i), andb_false_r by (done || lia).
Qed.

Section Header.
Context (c : Command) (Hc : command_ok c).

Lemma header_bit i : 0 <= i -> Z.testbit (header c) i =
  if i <? 13 then Z.testbit (cmd_method c) i
  else if i <? 16 then Z.testbit (cmd_subchannel c) (i - 13)
  else if i <? 18 then false
  else if i <? 29 then Z.testbit (Z.of_nat (length (cmd_arguments c))) (i - 18)
  else (i =? 30) && cmd_non_increasing c.
Proof.
  destruct Hc as (Hs & Hm & _ & Hn). intros Hi. unfold header. rewrite !Z.lor_spec, !Z.shiftl_spec by lia.
  assert (Z.testbit (if cmd_non_increasing c then 0x40000000 else 0) i = (i =? 30) && cmd_non_increasing c) as ->.
  { destruct (cmd_non_increasing c); [|by rewrite Z.bits_0, andb_false_r]. rewrite andb_true_r.
    change 0x40000000 with (2 ^ 30). rewrite Z.pow2_bits_eqb by lia. apply Z.eqb_sym. }
  assert (is_u 11 (Z.of_nat (length (cmd_arguments c)))) as Hn' by (unfold is_u; lia).
  destruct (Z.ltb_spec i 13); [|destruct (Z.ltb_spec i 16); [|destruct (Z.ltb_spec i 18); [|destruct (Z.ltb_spec i 29)]]];
    rewrite ?(Z.testbit_neg_r _ (i - 18)), ?(Z.testbit_neg_r _ (i - 13)) by lia;
    rewrite ?(is_u_high_bit 13 (cmd_method c) i), ?(is_u_high_bit 3 (cmd_subchannel c) (i - 13)),
      ?(is_u_high_bit 11 (Z.of_nat _) (i - 18)) by (done || lia);
    cbn [orb]; try reflexivity; destruct (Z.eqb_spec i 30); try lia; by rewrite ?orb_false_r.
Qed.

Lemma method_low_bits i : 0 <= i < 2 -> Z.testbit (cmd_method c) i = false.
Proof.
  destruct Hc as (_ & _ & Hm & _). intros Hi. rewrite <- (Z.mod_pow2_bits_low _ 2 i) by lia.
  change (2 ^ 2) with 4. rewrite Hm. apply Z.bits_0.
Qed.

Ltac mask_bits :=
  apply land_by_bits; [by vm_compute | by vm_compute | | by vm_compute];
  let l := eval vm_compute in (seqZ 0 32) in change (seqZ 0 32) with l;
  repeat (apply Forall_cons; split; [first [discriminate | intros _; rewrite header_bit by lia]|]); [..|constructor].

Lemma header_tag : Z.land (header c) 3 = 0.
Proof. mask_bits; apply method_low_bits; lia. Qed.

Lemma header_kind : Z.land (header c) 0xE0030003 = if cmd_non_increasing c then 0x40000000 else 0.
Proof.
  destruct (cmd_non_increasing c) eqn:Hk; mask_bits; try rewrite Hk; try reflexivity; apply method_low_bits; lia.
Qed.

Lemma header_no_jump : Z.land (header c) 0xE0000003 <> 0x20000000.
Proof.
  intros Heq. apply (f_equal (fun w => Z.testbit w 29)) in Heq. rewrite Z.land_spec, header_bit in Heq by lia.
  discriminate.
Qed.

Lemma header_no_return : header c <> 0x00020000.
Proof. intros Heq. apply (f_equal (fun w => Z.testbit w 17)) in Heq. rewrite header_bit in Heq by lia. discriminate. Qed.

(** A field of [n] bits at [k]. *)
Lemma header_field k n x : 0 <= k -> 0 <= n -> is_u n x ->
  (forall i, 0 <= i < n -> Z.testbit (header c) (i + k) = Z.testbit x i) ->
  Z.land (Z.shiftr (header c) k) (Z.ones n) = x.
Proof.
  intros Hk Hn Hx Hbits. apply Z.bits_inj'. intros i Hi. rewrite Z.land_spec, Z.shiftr_spec, Z.testbit_ones_nonneg by lia.
  destruct (Z.ltb_spec i n); [rewrite Hbits by lia; apply andb_true_r|].
  rewrite (is_u_high_bit n x i) by (done || lia). apply andb_false_r.
Qed.

Lemma header_count : Z.land (Z.shiftr (header c) 18) 0x7FF = Z.of_nat (length (cmd_arguments c)).
Proof.
  destruct Hc as (_ & _ & _ & Hn). apply (header_field 18 11); [lia | lia | unfold is_u; lia|].
  intros i Hi. rewrite header_bit by lia. repeat (case_match; [lia|]). case_match; [|lia]. f_equal. lia.
Qed.

Lemma header_subchannel : Z.land (Z.shiftr (header c) 13) 7 = cmd_subchannel c.
Proof.
  destruct Hc as (Hs & _). apply (header_field 13 3); [lia | lia | done|].
  intros i Hi. rewrite header_bit by lia. case_match; [lia|]. case_match; [|lia]. f_equal. lia.
Qed.

Lemma header_method : Z.land (header c) 0x1FFC = cmd_method c.
Proof.
  destruct Hc as (_ & Hm & _). apply Z.bits_inj'. intros i Hi. rewrite Z.land_spec, header_bit by lia.
  change 0x1FFC with (Z.shiftl (Z.ones 11) 2). rewrite Z.shiftl_spec by lia.
  destruct (Z.ltb_spec i 2).
  { rewrite method_low_bits by lia. by rewrite (proj2 (Z.ltb_lt i 13)) by lia. }
  rewrite Z.testbit_ones_nonneg by lia. destruct (Z.ltb_spec i 13).
  - rewrite (proj2 (Z.ltb_lt (i - 2) 11)) by lia. apply andb_true_r.
  - rewrite (proj2 (Z.ltb_ge (i - 2) 11)), (is_u_high_bit 13 (cmd_method c) i) by (done || lia). apply andb_false_r.
Qed.
End Header.

(** ** Running a stream *)

Section Stream.
Context {F : Type} `{DrawStage F} {M : Type} `{Nv2aMemory M}.
Implicit Types e : PushbufferEngine F.
Implicit Types m : M.

(** The reference: each argument's method in turn, with no stream in
    between. *)
Fixpoint run_arguments m e (context : SubmitContext) (subchannel method : Z) (non_increasing : bool) (arguments : list Z)
  : option (PushbufferEngine F * M) :=
  match arguments with
  | [] => Some (e, m)
  | argument :: arguments =>
    '(e, m) ← apply_method m (on_stats e (fun p => with_ps_method_dwords p (bump (ps_method_dwords p)))) context
                subchannel method argument;
    run_arguments m e context subchannel (if non_increasing then method else wrap16 (method + 4)) non_increasing arguments
  end.

Fixpoint run_commands m e (context : SubmitContext) (commands : list Command) : option (PushbufferEngine F * M) :=
  match commands with
  | [] => Some (e, m)
  | c :: commands =>
    '(e, m) ← run_arguments m e context (cmd_subchannel c) (cmd_method c) (cmd_non_increasing c) (cmd_arguments c);
    run_commands m e context commands
  end.

(** The memories this run passes through, between one method and the next. *)
Fixpoint argument_memories m e (context : SubmitContext) (subchannel method : Z) (non_increasing : bool)
    (arguments : list Z) : list M :=
  m :: match arguments with
       | [] => []
       | argument :: arguments =>
         match apply_method m (on_stats e (fun p => with_ps_method_dwords p (bump (ps_method_dwords p)))) context
                 subchannel method argument with
         | None => []
         | Some (e, m) => argument_memories m e context subchannel
                            (if non_increasing then method else wrap16 (method + 4)) non_increasing arguments
         end
       end.

Fixpoint command_memories m e (context : SubmitContext) (commands : list Command) : list M :=
  match commands with
  | [] => [m]
  | c :: commands =>
    argument_memories m e context (cmd_subchannel c) (cmd_method c) (cmd_non_increasing c) (cmd_arguments c) ++
    match run_arguments m e context (cmd_subchannel c) (cmd_method c) (cmd_non_increasing c) (cmd_arguments c) with
    | None => []
    | Some (e, m) => command_memories m e context commands
    end
  end.

(** Memory has these dwords at an address, and on. *)
Fixpoint holds m (cursor : Z) (words : list Z) : Prop :=
  match words with
  | [] => True
  | w :: words => nv_read_dword m cursor = Some w /\ holds m (wrapping_add32 cursor 4) words
  end.

#[export] Instance holds_dec m cursor words : Decision (holds m cursor words).
Proof. revert cursor. induction words as [|w words IH]; intros cursor; cbn [holds]; apply _. Defined.

Definition advance (cursor : Z) (n : nat) : Z := wrapping_add32 cursor (4 * Z.of_nat n).

Lemma advance_S cursor n : advance (wrapping_add32 cursor 4) n = advance cursor (S n).
Proof. unfold advance. rewrite wrapping_add_assoc. f_equal. lia. Qed.

Lemma advance_0 cursor : u32 cursor -> advance cursor 0 = cursor.
Proof. intros Hc. unfold advance, wrapping_add32. rewrite Z.mul_0_r, Z.add_0_r. by apply wrap_small. Qed.

Lemma advance_add cursor a b : advance (advance cursor a) b = advance cursor (a + b).
Proof. unfold advance. rewrite wrapping_add_assoc. f_equal. lia. Qed.

Lemma advance_moves cursor n : u32 cursor -> (0 < n)%nat -> Z.of_nat n < 2 ^ 30 -> advance cursor n <> cursor.
Proof.
  intros Hc Hn Hsmall. unfold advance, wrapping_add32, wrap32, wrap. unfold u32, is_u in Hc.
  intros Heq. pose proof (Z.div_mod (cursor + 4 * Z.of_nat n) (2 ^ 32)). lia.
Qed.

Lemma holds_app m a : forall b cursor, u32 cursor -> holds m cursor (a ++ b) ->
  holds m cursor a /\ holds m (advance cursor (length a)) b.
Proof.
  induction a as [|w a IH]; intros b cursor Hc Hw; cbn [app length holds] in *.
  - by rewrite advance_0.
  - destruct Hw as [Hw Ha]. apply IH in Ha as [Ha Hb]; [|apply u32_wrapping_add].
    by rewrite advance_S in Hb.
Qed.

Context (Kept : M -> Prop).

Definition well e : Prop := exists k a, engine_ok (wrap64 k, a) e.

Lemma run_arguments_stream context subchannel non_increasing arguments : forall m e method cursor,
  well e -> u32 cursor -> Forall Kept (argument_memories m e context subchannel method non_increasing arguments) ->
  (forall m, Kept m -> holds m cursor arguments) ->
  exists e' m', run_arguments m e context subchannel method non_increasing arguments = Some (e', m') /\
    apply_arguments (length arguments) m e context subchannel method cursor non_increasing =
      Some (true, advance cursor (length arguments), e', m') /\ well e'.
Proof.
  induction arguments as [|argument arguments IH]; intros m e method cursor (k & a & He) Hc Hkept Hheld.
  { exists e, m. cbn [length run_arguments apply_arguments]. rewrite advance_0 by done. by split_and!; try done; exists k, a. }
  cbn [length run_arguments apply_arguments argument_memories] in *. apply Forall_cons in Hkept as [Hm Hkept].
  pose proof (Hheld m Hm) as [Hread _]. rewrite Hread. cbn zeta. apply method_counted_ok in He.
  destruct (apply_method_safe (fun _ => True) ltac:(done) ltac:(done) ltac:(done) _ m _ context subchannel method argument He I)
    as ([e1 m1] & Happ & He1 & _). rewrite Happ in Hkept |- *. cbn [mbind option_bind fst snd] in *.
  destruct (IH m1 e1 (if non_increasing then method else wrap16 (method + 4)) (wrapping_add32 cursor 4))
    as (e' & m' & Hrun & Happly & Hw); [by eexists _, _ | apply u32_wrapping_add | done | |].
  { intros m2 Hm2. apply (Hheld m2 Hm2). }
  exists e', m'. rewrite advance_S in Happly. by split_and!.
Qed.

Definition stream (commands : list Command) : list Z := flat_map encode commands.

Lemma walk_step_command context c m e cursor budget call_return : command_ok c -> well e -> u32 cursor ->
  Forall Kept (argument_memories m e context (cmd_subchannel c) (cmd_method c) (cmd_non_increasing c) (cmd_arguments c)) ->
  (forall m, Kept m -> holds m cursor (encode c)) -> Z.of_nat (length (encode c)) <= budget -> exists e' m',
  run_arguments m e context (cmd_subchannel c) (cmd_method c) (cmd_non_increasing c) (cmd_arguments c) = Some (e', m') /\
  walk_step m e context cursor budget call_return =
    Some (Continues (advance cursor (length (encode c))) (budget - Z.of_nat (length (encode c))) call_return, e', m') /\
  well e'.
Proof.
  intros Hc He Hu Hkept Hheld Hb. unfold encode in Hb |- *. cbn [length] in Hb |- *.
  destruct (run_arguments_stream context (cmd_subchannel c) (cmd_non_increasing c) (cmd_arguments c) m e (cmd_method c)
    (wrapping_add32 cursor 4) He) as (e' & m' & Hrun & Happly & He').
  { apply u32_wrapping_add. }
  { done. }
  { intros m2 Hm2. apply (Hheld m2 Hm2). }
  assert (Kept m) as Hm by (destruct (cmd_arguments c); by apply Forall_cons in Hkept as [? _]).
  exists e', m'. split; [done|]. split; [|done].
  pose proof (Hheld m Hm) as [Hread _]. unfold walk_step. rewrite Hread. cbn zeta.
  rewrite (proj2 (Z.eqb_neq budget 0)) by lia.
  rewrite (proj2 (Z.eqb_neq _ _) (header_no_jump c Hc)), (header_tag c Hc), (header_kind c Hc), (header_count c Hc),
    (header_subchannel c Hc), (header_method c Hc), (proj2 (Z.eqb_neq _ _) (header_no_return c Hc)), Nat2Z.id.
  change (0 =? 1) with false. change (0 =? 2) with false. cbv iota.
  assert (forall b : bool, negb ((if b then 0x40000000 else 0) =? 0) && negb ((if b then 0x40000000 else 0) =? 0x40000000) = false)
    as -> by by intros [].
  assert (forall b : bool, ((if b then 0x40000000 else 0) =? 0x40000000) = b) as -> by by intros [].
  rewrite Happly. cbn [mbind option_bind]. rewrite advance_S. do 4 f_equal. lia.
Qed.

Lemma walk_stream context commands : forall fuel m e cursor budget call_return,
  Forall command_ok commands -> well e -> u32 cursor -> Forall Kept (command_memories m e context commands) ->
  (forall m, Kept m -> holds m cursor (stream commands)) -> Z.of_nat (length (stream commands)) <= budget ->
  budget < Z.of_nat fuel -> Z.of_nat (length (stream commands)) < 2 ^ 30 -> exists e' m',
  run_commands m e context commands = Some (e', m') /\
  walk_loop fuel m e context (advance cursor (length (stream commands))) cursor budget call_return =
    Some (advance cursor (length (stream commands)), e', m').
Proof.
  induction commands as [|c commands IH]; intros fuel m e cursor budget call_return Hok He Hu Hkept Hheld Hb Hf Hsmall.
  { exists e, m. cbn [stream flat_map length run_commands]. rewrite advance_0 by done. destruct fuel; cbn [walk_loop];
      by rewrite Z.eqb_refl. }
  apply Forall_cons in Hok as [Hc Hok]. destruct fuel as [|fuel]; [lia|].
  change (stream (c :: commands)) with (encode c ++ stream commands) in *. rewrite length_app in *.
  assert (0 < length (encode c))%nat as Hpos by (cbn; lia).
  cbn [command_memories] in Hkept. apply Forall_app in Hkept as [Hargs Hkept].
  destruct (walk_step_command context c m e cursor budget call_return Hc He Hu Hargs) as (e1 & m1 & Hrun & Hstep & He1).
  { intros m2 Hm2. by apply (holds_app m2 (encode c) (stream commands) cursor Hu (Hheld m2 Hm2)). }
  { lia. }
  rewrite Hrun in Hkept.
  destruct (IH fuel m1 e1 (advance cursor (length (encode c))) (budget - Z.of_nat (length (encode c))) call_return Hok He1)
    as (e' & m' & Hrun' & Hwalk); [apply u32_wrapping_add | done | | lia | lia | lia |].
  { intros m2 Hm2. by apply (holds_app m2 (encode c) (stream commands) cursor Hu (Hheld m2 Hm2)). }
  rewrite advance_add in Hwalk. exists e', m'. cbn [run_commands walk_loop]. rewrite Hrun. cbn [mbind option_bind].
  split; [done|].
  rewrite (proj2 (Z.eqb_neq _ _)); [by rewrite Hstep|]. apply not_eq_sym, advance_moves; [done | lia | lia].
Qed.
End Stream.

(** ** Submissions *)

Lemma land_not_3 x : u32 x -> Z.land x (not32 3) = x - x mod 4.
Proof.
  intros Hx. transitivity (x / 4 * 4); [|dlia]. apply Z.bits_inj'. intros i Hi. rewrite Z.land_spec.
  change 4 with (2 ^ 2). rewrite <- Z.shiftr_div_pow2, <- Z.shiftl_mul_pow2, Z.shiftl_spec by lia.
  change (not32 3) with (Z.shiftl (Z.ones 30) 2). rewrite Z.shiftl_spec by lia. destruct (Z.ltb_spec i 2).
  - by rewrite !(Z.testbit_neg_r _ (i - 2)), andb_false_r by lia.
  - rewrite Z.testbit_ones_nonneg, Z.shiftr_spec by lia. replace (i - 2 + 2) with i by lia.
    destruct (Z.ltb_spec (i - 2) 30); [apply andb_true_r|]. by rewrite (is_u_high_bit 32 x i) by (done || lia).
Qed.

Lemma submitted_ok {F} d (e : PushbufferEngine F) : engine_ok d e ->
  engine_ok d (on_stats e (fun p => with_ps_submissions p (bump (ps_submissions p)))).
Proof. engine_kept. Qed.

Lemma submit_keeps {F} `{DrawStage F} {M} `{Nv2aMemory M} (Kept : M -> Prop)
    (Hwrite : forall m a v, Kept m -> Kept (nv_write_dword m a v).2)
    (Hfill : forall m a v n, Kept m -> Kept (nv_fill_dwords m a v n).2)
    (Hdraw : forall m target vertices triangles bound pipeline combiner, Kept m ->
       Kept (rasterize_draw M _ m target vertices triangles bound pipeline combiner).2)
    (m : M) (e : PushbufferEngine F) k a channel pramin ramht get put :
  engine_ok (wrap64 k, a) e -> Kept m -> exists cursor e' m' n,
  submit m e channel pramin ramht get put = Some (cursor, e', m') /\
  0 <= n <= MAX_DWORDS_PER_SUBMIT + 2046 /\ Kept m' /\
  (cursor = Z.land put (not32 3) /\ engine_ok (wrap64 (k + n), a) e' \/ engine_ok (wrap64 (k + n), bump a) e').
Proof.
  intros He Hm. apply submitted_ok in He. unfold submit. cbn zeta.
  apply (walk_loop_safe Kept Hwrite Hfill Hdraw); [done | done|].
  rewrite Nat2Z.inj_succ, Z2Nat.id by (by vm_compute). split; [by vm_compute | lia].
Qed.

(** C18: a submission always comes back, whatever the guest wrote into the
    range, into its jumps and into instance memory: no method indexes an array
    out of range, no primitive a vertex, and the walk ends within its budget.
    It applies at most [MAX_DWORDS_PER_SUBMIT + 2046] methods, keeps every
    array of the engine at its length, and either returns the submitted end or
    counts one aborted walk. *)
Theorem submit_never_fails {F} `{DrawStage F} {M} `{Nv2aMemory M} (m : M) (e : PushbufferEngine F) k a channel pramin ramht
    get put :
  engine_ok (wrap64 k, a) e -> exists cursor e' m' n,
  submit m e channel pramin ramht get put = Some (cursor, e', m') /\
  0 <= n <= MAX_DWORDS_PER_SUBMIT + 2046 /\
  (cursor = Z.land put (not32 3) /\ engine_ok (wrap64 (k + n), a) e' \/ engine_ok (wrap64 (k + n), bump a) e').
Proof.
  intros He. destruct (submit_keeps (fun _ : M => True)) with (m := m) (e := e) (k := k) (a := a) (channel := channel)
    (pramin := pramin) (ramht := ramht) (get := get) (put := put) as (cursor & e' & m' & n & Hs & Hn & _ & Hout); try done.
  exists cursor, e', m', n. done.
Qed.

(** C19: a stream is run as the commands it encodes.  If memory holds the
    encoding of well-formed commands from [get] on, and the commands, run one
    after the other, never overwrite it, then the submission of exactly that
    range applies each command's method to each of its arguments, in order, an
    increasing command's method growing by four, and returns the end of the
    range: headers are decoded to the fields that made them, and the budget is
    enough for any stream of up to [MAX_DWORDS_PER_SUBMIT] dwords. *)
Theorem submit_runs_commands {F} `{DrawStage F} {M} `{Nv2aMemory M} (m : M) (e : PushbufferEngine F)
    commands channel pramin ramht get :
  let context := mkSubmitContext channel pramin ramht in
  let counted := on_stats e (fun p => with_ps_submissions p (bump (ps_submissions p))) in
  Forall (fun m => holds m get (stream commands)) (command_memories m counted context commands) ->
  well e -> Forall command_ok commands -> u32 get -> get mod 4 = 0 ->
  Z.of_nat (length (stream commands)) <= MAX_DWORDS_PER_SUBMIT ->
  exists e' m', run_commands m counted context commands = Some (e', m') /\
  submit m e channel pramin ramht get (advance get (length (stream commands))) =
    Some (advance get (length (stream commands)), e', m').
Proof.
  cbn zeta. intros Hheld (k & a & He) Hok Hu Ha Hlen. apply submitted_ok in He.
  assert (Z.of_nat (length (stream commands)) < 2 ^ 30) as Hsmall by (unfold MAX_DWORDS_PER_SUBMIT in Hlen; lia).
  unfold submit. cbn zeta. rewrite !land_not_3 by (apply u32_wrapping_add || done).
  assert (advance get (length (stream commands)) mod 4 = 0) as Ha'.
  { unfold advance, wrapping_add32, wrap32, wrap. dlia. }
  rewrite Ha', Ha, !Z.sub_0_r.
  apply (walk_stream _ _ _ _ _ _ _ _ _ Hok (ex_intro _ k (ex_intro _ a He)) Hu Hheld ltac:(done) Hlen); [|done].
  rewrite Nat2Z.inj_succ, Z2Nat.id by (by vm_compute). lia.
Qed.

(** ** The engine of a session *)

(** The rasteriser writes pixels through its sink, which stores dwords. *)
Class DrawLaws (F : Type) `{DrawStage F} : Prop :=
  rasterize_keeps (M : Type) (nv : Nv2aMemory M) (I : M -> Prop) (m : M) target vertices triangles bound pipeline combiner :
    (forall m a v, I m -> I (nv_write_dword m a v).2) -> I m ->
    I (rasterize_draw M nv m target vertices triangles bound pipeline combiner).2.

Section Session.
Context (F : Type) `{DrawStage F} `{!DrawLaws F}.

(** A well-formed engine, which is what [PushbufferEngine::default] builds and
    submissions leave. *)
Definition WellEngine : Type := { e : PushbufferEngine F | well e }.

Lemma submit_well {M} `{Nv2aMemory M} (m : M) e channel pramin ramht get put cursor e' m' : well e ->
  submit m e channel pramin ramht get put = Some (cursor, e', m') -> well e'.
Proof using Type.
  intros (k & a & He) Hs.
  destruct (submit_keeps (fun _ : M => True)) with (m := m) (e := e) (k := k) (a := a) (channel := channel)
    (pramin := pramin) (ramht := ramht) (get := get) (put := put)
    as (cursor2 & e2 & m2 & n & Hs2 & _ & _ & [[_ He2]|He2]); try done.
  all: rewrite Hs in Hs2; injection Hs2 as -> -> ->; by eexists _, _.
Qed.

Definition well_submit (M : Type) (nv : Nv2aMemory M) (gpu : WellEngine) (ram : M) (channel pramin ramht get put : Z)
  : Z * WellEngine * M :=
  match submit ram (proj1_sig gpu) channel pramin ramht get put as r
        return submit ram (proj1_sig gpu) channel pramin ramht get put = r -> Z * WellEngine * M with
  | Some (cursor, e, m) => fun Hs => (cursor, exist _ e (submit_well _ _ _ _ _ _ _ _ _ _ (proj2_sig gpu) Hs), m)
  | None => fun _ => (get, gpu, ram)
  end eq_refl.

(** The last case is not reached. *)
Lemma well_submit_spec M (nv : Nv2aMemory M) gpu ram channel pramin ramht get put :
  submit ram (proj1_sig gpu) channel pramin ramht get put =
    Some (let '(cursor, gpu, m) := well_submit M nv gpu ram channel pramin ramht get put in (cursor, proj1_sig gpu, m)).
Proof using Type.
  unfold well_submit. destruct gpu as [e He]. cbn [proj1_sig]. generalize (submit_well ram e channel pramin ramht get put).
  destruct (submit ram e channel pramin ramht get put) as [[[cursor e'] m']|] eqn:Hs; [done|].
  destruct He as (k & a & He).
  destruct (submit_keeps (fun _ : M => True)) with (m := ram) (e := e) (k := k) (a := a) (channel := channel)
    (pramin := pramin) (ramht := ramht) (get := get) (put := put) as (cursor & e' & m' & n & Hs' & _); try done.
  by rewrite Hs in Hs'.
Qed.

Definition well_take (gpu : WellEngine) : option (Z * Z * Z * Z) * WellEngine.
Proof using Type.
  split; [exact (take_completed_frame (proj1_sig gpu)).1|]. exists (take_completed_frame (proj1_sig gpu)).2.
  destruct gpu as [e (k & a & He)]. exists k, a. cbn. clear -He. engine_kept.
Defined.

#[export] Instance well_engine_graphics : GraphicsEngine WellEngine := {|
  gpu_submit := well_submit;
  gpu_busiest_targets := fun gpu => busiest_targets (proj1_sig gpu);
  gpu_take_completed_frame := well_take;
|}.

#[export] Instance well_engine_laws : GraphicsLaws WellEngine.
Proof.
  intros M nv I gpu ram channel pramin ramht get put Hwrite Hfill Hram. cbn [gpu_submit well_engine_graphics].
  pose proof (well_submit_spec M nv gpu ram channel pramin ramht get put) as Hs. destruct gpu as [e (k & a & He)].
  destruct (submit_keeps I Hwrite Hfill (fun m t v l b p c => rasterize_keeps M nv I m t v l b p c Hwrite)
    ram e k a channel pramin ramht get put He Hram) as (cursor & e' & m' & n & Hs' & _ & Hm' & _).
  destruct (well_submit _ _ _ _ _ _ _ _ _) as [[cursor2 gpu2] m2]. cbn [proj1_sig] in Hs. rewrite Hs' in Hs.
  by injection Hs as _ _ <-.
Qed.
End Session.

(** ** A stream in read-only memory *)

Section Demo.
(** A stage that draws nothing. *)
#[local] Instance still_stage : DrawStage Z := {|
  f32_from_bits := fun w => w;
  f32_byte_fraction := fun b => b;
  ScreenVertex := unit;
  behind_eye := fun _ => false;
  texcoords_zero := fun _ _ => true;
  assemble_inline := fun _ _ => [];
  assemble_arrays := fun _ _ _ _ _ _ => [];
  rasterize_draw := fun _ _ m _ _ _ _ _ _ => (0, m);
|}.

#[local] Instance still_laws : DrawLaws Z.
Proof. by intros M nv I m target vertices triangles bound pipeline combiner _ Hm. Qed.

(** An engine with a semaphore object bound, RAM with a stream at 0x200, and
    a release that stores through the semaphore. *)
Definition demo_engine : PushbufferEngine Z :=
  put_channel PushbufferEngine_default 0 (with_ch_semaphore ChannelState_default (Some (mkDmaObject 0x3D 0xFF 0x100))).

Definition demo_commands : list Command :=
  [mkCommand 0 METHOD_SET_SURFACE_CLIP_HORIZONTAL false [0x02800000; 0x01E00000];
   mkCommand 0 METHOD_SET_SEMAPHORE_OFFSET false [0x20; 0xCAFE];
   mkCommand 0 METHOD_SET_TRANSFORM_CONSTANT true [1; 2; 3]].

Definition demo_stream_ram : PhysicalMemory :=
  mkPhysicalMemory (ram_store ∅ 0x200 (flat_map (to_le_bytes 4) (stream demo_commands))) 0x400.

Lemma demo_engine_ok : engine_ok (0, 0) demo_engine.
Proof.
  apply put_channel_ok; [apply PushbufferEngine_default_ok|]. destruct (ChannelState_default_ok (F := Z)). by constructor.
Qed.

Lemma submit_never_fails_witness : exists cursor e' m' n,
  submit demo_stream_ram demo_engine 0 0 0 0x200 0x228 = Some (cursor, e', m') /\
  0 <= n <= MAX_DWORDS_PER_SUBMIT + 2046 /\
  (cursor = Z.land 0x228 (not32 3) /\ engine_ok (wrap64 (0 + n), 0) e' \/ engine_ok (wrap64 (0 + n), bump 0) e').
Proof. exact (submit_never_fails demo_stream_ram demo_engine 0 0 0 0 0 0x200 0x228 demo_engine_ok). Defined.

Lemma submit_runs_commands_witness : exists e' m',
  run_commands demo_stream_ram (on_stats demo_engine (fun p => with_ps_submissions p (bump (ps_submissions p))))
    (mkSubmitContext 0 0 0) demo_commands = Some (e', m') /\
  submit demo_stream_ram demo_engine 0 0 0 0x200 0x228 = Some (0x228, e', m') /\ dword_read m' 0x120 = Some 0xCAFE.
Proof.
  destruct (submit_runs_commands demo_stream_ram demo_engine demo_commands 0 0 0 0x200) as (e' & m' & Hrun & Hsubmit).
  - apply (bool_decide_unpack _). by vm_compute.
  - exists 0, 0. exact demo_engine_ok.
  - repeat constructor; vm_compute; by split_and?.
  - by vm_compute.
  - reflexivity.
  - by vm_compute.
  - exists e', m'. split; [exact Hrun|]. split; [exact Hsubmit|].
    assert ((fun r => r.2) <$> run_commands demo_stream_ram
      (on_stats demo_engine (fun p => with_ps_submissions p (bump (ps_submissions p)))) (mkSubmitContext 0 0 0) demo_commands
      = Some m') as Hm by (by rewrite Hrun).
    vm_compute in Hm. injection Hm as <-. by vm_compute.
Defined.

(** ** Clears and the object they are bound to *)

(** Four pixels of one row, cleared at offset 0x20 of an object that ends at
    its sixteenth byte. *)
Definition offset_surface : SurfaceState :=
  mkSurfaceState (Some (mkDmaObject 0 15 0)) 0x20 0x20 64 64 0 4 0 1 0xAABBCCDD 0x11223344 (0, 4) (0, 1).

(** A colour clear measures a row from the surface's own start, not from the
    object's, so an offset past the end of the object is written; the depth
    clear of the same surface refuses it. *)
Theorem color_clear_leaves_object :
  let m := mkPhysicalMemory ∅ 256 in
  (exists color, sf_color_dma offset_surface = Some color /\ dma_base color + dma_limit color < 0x20) /\
  dword_read (clear_color_surface m (PushbufferEngine_default (F := Z)) offset_surface).2 0x20 = Some 0xAABBCCDD /\
  clear_zeta_surface m offset_surface = m.
Proof. split; [by eexists | by vm_compute]. Qed.
End Demo.
