(* ===== verification/VertexStage.v ===== *)
(** * The vertex stage

    Models the vertex half of [exbawks-gpu/src/nv2a.rs]: lighting and texture
    generation of the fixed pipeline, the placing of one vertex, and the
    assembly of a primitive's vertices from arrays in memory or from the
    inline stream.  With the rasteriser it is the [DrawStage] of the
    pushbuffer engine.

    The attributes are rebuilt per vertex in one buffer, so a fetch that is
    skipped leaves what the vertex before it had. *)

From S2P Require Import Prelude GpuMemory Textures GpuState Floats Shading Raster Pushbuffer PushbufferTheorems.

Local Open Scope Z_scope.

Definition VERTEX_ARRAY_CONTEXT_B : Z := 0x80000000.
Definition ATTRIBUTE_POSITION : nat := 0.
Definition ATTRIBUTE_NORMAL : nat := 2.
Definition ATTRIBUTE_DIFFUSE : nat := 3.
Definition ATTRIBUTE_SPECULAR : nat := 4.
Definition ATTRIBUTE_TYPE_D3DCOLOR : Z := 0.
Definition ATTRIBUTE_TYPE_FLOAT : Z := 2.
Definition ATTRIBUTE_TYPE_UBYTE_RGBA : Z := 3.
Definition LIGHT_INFINITE : Z := 1.
Definition TEXGEN_REFLECTION_MAP : Z := 0x8512.
Definition ATTRIBUTE_TEXCOORD0 : nat := 9.

(** [chunks_exact]: the whole chunks; a chunk takes an element at least, so
    one round per element is enough. *)
Fixpoint chunks_from {A} (fuel n : nat) (l : list A) : list (list A) :=
  match fuel with
  | O => []
  | S fuel => if (length l <? n)%nat then [] else take n l :: chunks_from fuel n (drop n l)
  end.
Definition chunks_exact {A} (n : nat) (l : list A) : list (list A) := chunks_from (length l) n l.

Definition rotate_right8 (x : Z) : Z := wrap32 (Z.lor (Z.shiftr x 8) (Z.shiftl x 24)).

Definition attribute_dwords (format : AttributeFormat) : Z :=
  if attr_size format =? 0 then 0
  else if (attr_kind format =? ATTRIBUTE_TYPE_D3DCOLOR) || (attr_kind format =? ATTRIBUTE_TYPE_UBYTE_RGBA) then 1
  else attr_size format.

Definition no_format : AttributeFormat := mkAttributeFormat 0 0.

Section Vertices.
Context {F : Type} `{F32 F}.
Implicit Types state : VertexState F.

Definition transform (vector matrix : list F) : list F :=
  map (fun row => f_sum (map (fun column => (lane vector column * lane matrix (row * 4 + column))%F) [0; 1; 2; 3]%nat))
    [0; 1; 2; 3]%nat.

Definition normalize (v : list F) : list F :=
  let length := f_mul_add (lane v 0) (lane v 0) (f_mul_add (lane v 1) (lane v 1) (lane v 2 * lane v 2)%F) in
  if f_le length f_0 || negb (f_is_finite length) then v else
  let scale := (f_1 / f_sqrt length)%F in
  [(lane v 0 * scale)%F; (lane v 1 * scale)%F; (lane v 2 * scale)%F].

Definition generated_texcoords state (unit : nat) (position normal : list F) : option (list F) :=
  if negb (nth 0 (nth unit (vx_texgen state) []) 0 =? TEXGEN_REFLECTION_MAP) then None else
  let eye := transform position (vx_model_view state) in
  let towards := normalize [lane eye 0; lane eye 1; lane eye 2] in
  let transformed := transform [lane normal 0; lane normal 1; lane normal 2; f_0] (vx_inverse_model_view state) in
  let facing := normalize [lane transformed 0; lane transformed 1; lane transformed 2] in
  let projection := (f_2 * dot3 facing towards)%F in
  let reflected axis := (lane towards axis - projection * lane facing axis)%F in
  let coordinates := [reflected 0%nat; reflected 1%nat; reflected 2%nat; f_1] in
  if negb (nth unit (vx_texture_matrix_enable state) false) then Some [lane coordinates 0; lane coordinates 1] else
  let mapped := transform coordinates (nth unit (vx_texture_matrix state) []) in
  if negb (f_eq (lane mapped 3) f_0) && f_is_finite (lane mapped 3)
  then Some [(lane mapped 0 / lane mapped 3)%F; (lane mapped 1 / lane mapped 3)%F]
  else Some [lane mapped 0; lane mapped 1].

Definition lit_color state (normal material : list F) : list F :=
  let unlit axis := (lane (vx_material_emission state) axis + lane (vx_scene_ambient state) axis)%F in
  let color :=
    if Z.land (vx_light_enable_mask state) 3 =? LIGHT_INFINITE then
      let transformed := transform [lane normal 0; lane normal 1; lane normal 2; f_0] (vx_inverse_model_view state) in
      let facing := normalize [lane transformed 0; lane transformed 1; lane transformed 2] in
      let towards := normalize (vx_light_direction state) in
      let lambert := f_max (dot3 facing towards) f_0 in
      fun axis => (unlit axis + (lane (vx_light_ambient state) axis + lane (vx_light_diffuse state) axis * lambert))%F
    else unlit in
  [(color 0%nat * lane material 0)%F; (color 1%nat * lane material 1)%F; (color 2%nat * lane material 2)%F;
   lane material 3].

Definition default_attributes : list (list F) :=
  <[ATTRIBUTE_SPECULAR := splat f_1]> (<[ATTRIBUTE_DIFFUSE := splat f_1]>
    (replicate INPUT_REGISTERS [f_0; f_0; f_0; f_1])).

Definition attribute_defaults state : list (list F) :=
  imap (fun index register => if nth index (vx_constant_set state) false then nth index (vx_constants state) [] else register)
    default_attributes.

Definition program_from_start (t : TransformState F) : list (list Z) :=
  drop (Z.to_nat (tr_program_start t)) (tr_program t).

Definition attribute (attributes : list (list F)) (index : nat) : list F := nth index attributes [].

(** [((value.clamp(0.0, 1.0) * 255.0) as u32) & 0xFF]. *)
Definition color_byte (value : F) : Z := Z.land (f_to_u32 (f_clamp value f_0 f_1 * f_255)%F) 0xFF.

(** Position, diffuse colour and texture coordinates of the fixed pipeline. *)
Definition fixed_pipeline state (attributes : list (list F)) : list F * list F * list (list F) :=
  let source := attribute attributes ATTRIBUTE_POSITION in
  let normal := attribute attributes ATTRIBUTE_NORMAL in
  let clip := transform source (vx_composite state) in
  let texcoords := map (fun unit =>
    match generated_texcoords state unit source normal with
    | Some generated => generated
    | None => let texcoord := attribute attributes (ATTRIBUTE_TEXCOORD0 + unit) in [lane texcoord 0; lane texcoord 1]
    end) [0; 1; 2; 3]%nat in
  let material := attribute attributes ATTRIBUTE_DIFFUSE in
  (clip, if vx_lighting_enable state then lit_color state normal material else material, texcoords).

Definition place_vertex state (t : TransformState F) (program : list (list Z)) (attributes : list (list F))
  : option (Vertex F) :=
  let run := tr_programmed t && negb (bool_decide (length program = 0%nat)) in
  '(position, diffuse, texcoords) ←
    (if run then result ← execute program (tr_constants t) attributes;
                 Some (sr_position result, sr_diffuse result, sr_texcoords result)
     else Some (fixed_pipeline state attributes));
  let w := lane position 3 in
  if f_le w f_0 || negb (f_is_finite w) then Some (mkVertex f_0 f_0 0 (replicate 4 [f_0; f_0]) f_0 f_0) else
  let inverse_w := (f_1 / w)%F in
  let x := (lane position 0 / w)%F in
  let y := (lane position 1 / w)%F in
  let '(x, y) := if run then (x, y)
                 else ((x + lane (vx_viewport_offset state) 0)%F, (y + lane (vx_viewport_offset state) 1)%F) in
  let color := Z.lor (Z.shiftl (color_byte (lane diffuse 3)) 24)
                 (Z.lor (Z.shiftl (color_byte (lane diffuse 0)) 16)
                    (Z.lor (Z.shiftl (color_byte (lane diffuse 1)) 8) (color_byte (lane diffuse 2)))) in
  Some (mkVertex x y color texcoords (lane position 2 * inverse_w)%F inverse_w).

(** Packed bytes as fractions, in the order of the shifts. *)
Definition packed_channels (packed : Z) (shifts : list Z) : list F :=
  map (fun shift => (f_of_u (channel_of packed shift) / f_255)%F) shifts.

(** [lane = read(component)] for the first [count] components, over the
    defaults. *)
Definition float_components (count : nat) (read : nat -> F) : list F :=
  imap (fun component value => if (component <? count)%nat then read component else value) [f_0; f_0; f_0; f_1].

Section Memory.
Context {M : Type} `{Nv2aMemory M}.
Implicit Types m : M.

(** Where an array has a vertex's attribute, unless it is outside the object. *)
Definition array_address state (vertex_dma : list (option DmaObject)) (index : Z) (slot : nat) : option Z :=
  let raw_offset := nth slot (vx_array_offsets state) 0 in
  let context := if has_bits raw_offset VERTEX_ARRAY_CONTEXT_B then 1%nat else 0%nat in
  object ← (match nth context vertex_dma None with Some o => Some o | None => nth 0 vertex_dma None end);
  let offset := Z.land raw_offset (not32 VERTEX_ARRAY_CONTEXT_B) in
  if dma_limit object <? offset then None else
  let start := wrapping_add32 (dma_base object) offset in
  let base := wrapping_add32 start (wrapping_mul32 index (nth slot (vx_array_strides state) 0)) in
  if (base <? start) || (dma_limit object <? base - start) then None else Some base.

Definition fetch_attribute m (format : AttributeFormat) (base : Z) : list F :=
  let packed := default 0 (nv_read_dword m base) in
  if attr_kind format =? ATTRIBUTE_TYPE_D3DCOLOR then packed_channels packed [16; 8; 0; 24]
  else if attr_kind format =? ATTRIBUTE_TYPE_UBYTE_RGBA then packed_channels packed [0; 8; 16; 24]
  else float_components (Z.to_nat (Z.min (attr_size format) 4)) (fun component =>
         match nv_read_dword m (wrapping_add32 base (Z.of_nat component * 4)) with
         | Some bits => f_from_bits bits
         | None => f_0
         end).

Definition fetch_vertex m state (vertex_dma : list (option DmaObject)) (index : Z) (attributes : list (list F))
  : list (list F) :=
  foldl (fun attributes slot =>
    let format := nth slot (vx_formats state) no_format in
    if attr_size format =? 0 then attributes
    else match array_address state vertex_dma index slot with
         | None => attributes
         | Some base => <[slot := fetch_attribute m format base]> attributes
         end) attributes (seq 0 (length (vx_formats state))).

(** The loop over the indices, with the attributes it carries along. *)
Fixpoint place_elements m state (t : TransformState F) (vertex_dma : list (option DmaObject)) (elements : list Z)
    (attributes : list (list F)) : list (Vertex F) :=
  match elements with
  | [] => []
  | index :: elements =>
    let attributes := fetch_vertex m state vertex_dma index attributes in
    option_list (place_vertex state t (program_from_start t) attributes)
      ++ place_elements m state t vertex_dma elements attributes
  end.

Definition assemble_arrays_of m state (t : TransformState F) (vertex_dma : list (option DmaObject)) : list (Vertex F) :=
  place_elements m state t vertex_dma (vx_elements state) (attribute_defaults state).
End Memory.

(** [chunk.get(offset)]. *)
Definition chunk_get (chunk : list Z) (offset : Z) : option Z := chunk !! Z.to_nat offset.

Definition chunk_float (chunk : list Z) (offset : Z) (missing : F) : F :=
  match chunk_get chunk offset with Some bits => f_from_bits bits | None => missing end.

(** The attributes of one inline vertex, and where the next one starts. *)
Definition load_attributes state (chunk : list Z) (attributes : list (list F)) : list (list F) :=
  (foldl (fun acc slot =>
    let '(offset, attributes) := acc in
    let format := nth slot (vx_formats state) no_format in
    let dwords := attribute_dwords format in
    if dwords =? 0 then acc
    else
      let register :=
        if (attr_kind format =? ATTRIBUTE_TYPE_D3DCOLOR) || (attr_kind format =? ATTRIBUTE_TYPE_UBYTE_RGBA)
        then packed_channels (default 0 (chunk_get chunk offset)) [16; 8; 0; 24]
        else float_components (Z.to_nat (Z.min dwords 4)) (fun component =>
               chunk_float chunk (offset + Z.of_nat component) f_0) in
      (offset + dwords, <[slot := register]> attributes))
    (0, attributes) (seq 0 (length (vx_formats state)))).2.

Definition dwords_of (formats : list AttributeFormat) : Z := foldl (fun sum format => sum + attribute_dwords format) 0 formats.

(** Positions already in pixels lie outside any clip volume. *)
Definition is_pretransformed (position : AttributeFormat) (chunk : list Z) : bool :=
  let x := f_abs (chunk_float chunk 0 f_0) in
  let y := f_abs (chunk_float chunk 1 f_0) in
  let w := if 4 <=? attr_size position then f_max (f_abs (chunk_float chunk 3 f_0)) f_1 else f_1 in
  f_lt (w * f_2)%F x || f_lt (w * f_2)%F y.

Definition inline_color (diffuse : AttributeFormat) (diffuse_offset : Z) (chunk : list Z) : Z :=
  let packed := default 0xFFFFFFFF (chunk_get chunk diffuse_offset) in
  if (attr_kind diffuse =? ATTRIBUTE_TYPE_D3DCOLOR) && negb (attr_size diffuse =? 0) then packed
  else if (attr_kind diffuse =? ATTRIBUTE_TYPE_UBYTE_RGBA) && negb (attr_size diffuse =? 0) then rotate_right8 packed
  else if (attr_kind diffuse =? ATTRIBUTE_TYPE_FLOAT) && (3 <=? attr_size diffuse) then
    let component i := color_byte (chunk_float chunk (diffuse_offset + i) f_1) in
    Z.lor 0xFF000000 (Z.lor (Z.shiftl (component 0) 16) (Z.lor (Z.shiftl (component 1) 8) (component 2)))
  else 0xFFFFFFFF.

Definition inline_texcoords state (chunk : list Z) : list (list F) :=
  map (fun unit =>
    let format := nth (ATTRIBUTE_TEXCOORD0 + unit) (vx_formats state) no_format in
    let offset := dwords_of (take (ATTRIBUTE_TEXCOORD0 + unit) (vx_formats state)) in
    if negb (attr_kind format =? ATTRIBUTE_TYPE_FLOAT) || (attr_size format <? 2) then [f_0; f_0]
    else [chunk_float chunk offset f_0; chunk_float chunk (offset + 1) f_0]) [0; 1; 2; 3]%nat.

(** A vertex whose position is already in pixels. *)
Definition inline_vertex state (chunk : list Z) : Vertex F :=
  let diffuse := nth ATTRIBUTE_DIFFUSE (vx_formats state) no_format in
  let diffuse_offset := dwords_of (take ATTRIBUTE_DIFFUSE (vx_formats state)) in
  mkVertex (chunk_float chunk 0 f_0) (chunk_float chunk 1 f_0) (inline_color diffuse diffuse_offset chunk)
    (inline_texcoords state chunk) (chunk_float chunk 2 f_0) f_1.

Fixpoint place_chunks state (t : TransformState F) (chunks : list (list Z)) (attributes : list (list F)) : list (Vertex F) :=
  match chunks with
  | [] => []
  | chunk :: chunks =>
    let attributes := load_attributes state chunk attributes in
    option_list (place_vertex state t (program_from_start t) attributes) ++ place_chunks state t chunks attributes
  end.

Definition assemble_inline_of state (t : TransformState F) : list (Vertex F) :=
  let position := nth ATTRIBUTE_POSITION (vx_formats state) no_format in
  if negb (attr_kind position =? ATTRIBUTE_TYPE_FLOAT) || (attr_size position <? 2) then [] else
  let stride := dwords_of (vx_formats state) in
  if (stride =? 0) || (Z.of_nat (length (vx_inline state)) <? stride) then [] else
  let chunks := chunks_exact (Z.to_nat stride) (vx_inline state) in
  if tr_programmed t && negb (bool_decide (length (tr_program t) = 0%nat))
  then place_chunks state t chunks (attribute_defaults state)
  else if existsb (is_pretransformed position) (take 3 chunks) then map (inline_vertex state) chunks else [].

(** The bytes of an RGBA colour in memory order, red first: rotated, red is
    where ARGB has its alpha and alpha where it has its red. *)
Lemma inline_rgba_rotates (format : AttributeFormat) : attr_kind format = ATTRIBUTE_TYPE_UBYTE_RGBA ->
  attr_size format <> 0 -> inline_color format 0 [0x04030201] = 0x01040302.
Proof.
  intros Hkind Hsize. unfold inline_color. rewrite Hkind, (proj2 (Z.eqb_neq _ _) Hsize). by vm_compute.
Qed.

(** ** The stages of the engine *)

#[export] Instance float_stage `{HostThreads} : DrawStage F := {|
  f32_from_bits := f_from_bits;
  f32_byte_fraction := fun b => (f_of_u b / f_255)%F;
  ScreenVertex := Vertex F;
  behind_eye := fun v => f_le (sv_inverse_w v) f_0;
  texcoords_zero := fun unit v => f_eq (texcoord v unit 0) f_0 && f_eq (texcoord v unit 1) f_0;
  assemble_inline := assemble_inline_of;
  assemble_arrays := fun M _ m => assemble_arrays_of m;
  rasterize_draw := fun M _ m => rasterize_draw_of m;
|}.

(** ** A draw keeps what a store keeps *)

Section Keeps.
Context {M : Type} `{Nv2aMemory M} (I : M -> Prop) (Hwrite : forall m a v, I m -> I (nv_write_dword m a v).2).

Lemma draw_pixel_keeps m target pipeline (combiner : CombinerState F) s x y : I m ->
  I (draw_pixel m target pipeline combiner s x y).2.
Proof using Hwrite. intros Hm. unfold draw_pixel, write_pixel. cbn zeta. repeat case_match; cbn [snd]; auto. Qed.

Lemma fill_triangle_keeps m target t textures pipeline (combiner : CombinerState F) rows : I m ->
  I (fill_triangle_rows m target t textures pipeline combiner rows).2.
Proof using Hwrite.
  intros Hm. unfold fill_triangle_rows. destruct (setup_triangle _ _ _) as [s|]; [|done]. unfold fill_pixels.
  assert (I (0, m).2) as Hacc by done. revert Hacc. generalize (0, m).
  induction (triangle_pixels target s rows) as [|p l IH]; intros acc Hacc; [done|]. cbn [foldl]. apply IH.
  pose proof (draw_pixel_keeps acc.2 target pipeline combiner s p.1 p.2 Hacc) as Hp.
  by destruct (draw_pixel _ _ _ _ _ _ _).
Qed.

Lemma one_band_keeps m target triangles textures pipeline (combiner : CombinerState F) rows : I m ->
  I (one_band m target triangles textures pipeline combiner rows).2.
Proof using Hwrite.
  intros Hm. unfold one_band. assert (I (0, m).2) as Hacc by done. revert Hacc. generalize (0, m).
  induction triangles as [|t l IH]; intros acc Hacc; [done|]. cbn [foldl]. apply IH.
  pose proof (fill_triangle_keeps acc.2 target t textures pipeline combiner rows Hacc) as Hp.
  by destruct (fill_triangle_rows _ _ _ _ _ _ _).
Qed.

Lemma rasterize_triangles_keeps `{HostThreads} m target triangles textures pipeline (combiner : CombinerState F) : I m ->
  I (rasterize_triangles m target triangles textures pipeline combiner).2.
Proof using Hwrite.
  intros Hm. unfold rasterize_triangles. destruct (draw_rows _ _) as [first last]. cbn zeta.
  destruct (_ <=? _); [done|]. destruct (_ =? _); [by apply one_band_keeps|].
  assert (I (0, m).2) as Hacc by done. revert Hacc. generalize (0, m).
  induction (seqZ _ _) as [|k l IH]; intros acc Hacc; [done|]. cbn [foldl]. apply IH.
  match goal with |- context [one_band acc.2 target ?own textures pipeline combiner ?rows] =>
    pose proof (one_band_keeps acc.2 target own textures pipeline combiner rows Hacc) as Hp end.
  by destruct (one_band _ _ _ _ _ _ _).
Qed.
End Keeps.

(** With these stages the engine is one a session may have. *)
#[export] Instance float_laws `{HostThreads} : DrawLaws F.
Proof.
  intros M nv I m target vertices triangles bound pipeline combiner Hwrite Hm.
  by apply (rasterize_triangles_keeps I Hwrite).
Qed.
End Vertices.
